(* ===== verification/_CoqProject ===== *)
-Q . S2P
Prelude.v
Memory.v
CString.v
Allocator.v
ListHead.v
Spinlock.v
Pmm.v
PmmInit.v
Heap.v
Vmm.v
Store.v
Sched.v
Process.v
WaitQueue.v
Pipe.v
Signal.v
SortedQueue.v
Hrtimer.v
Block.v
Radix.v
Seccomp.v
Swap.v
RtMutex.v
Msg.v
FileMap.v
Gendisk.v
Shm.v
Buffer.v
Vfs.v
Chardev.v
Ramfs.v
Fat32.v
Cgroup.v
Namespace.v
Exit.v
Wire.v
Skb.v
NetDev.v
Ip.v
Driver.v
Pci.v
Socket.v
Irq.v
Input.v
Modload.v
UserSpace.v
Exec.v
Syscall.v
Console.v
Desc.v
E1000.v
