(* ===== verification/Prelude.v ===== *)
(** * RucixKernel: a verification development

    RucixKernel (src/kernel) is a monolithic x86-64 kernel in C.  This library
    models its core as executable definitions and proves what makes each part
    correct.  This file is the shared prelude; the files that follow model one
    component each.

    ** Parts of the kernel, and where they are modelled

    Memory.  [Memory] is byte-addressed physical memory, which the kernel
    addresses directly.  [CString] is lib/string.c on it.  [Pmm] and [PmmInit]
    are memory/pmm.c: the frame bitmap, and its construction from a Multiboot
    map.  [Vmm] is memory/vmm.c: four-level page tables in the same memory.
    [Heap] is memory/heap.c, over a store of block headers; [Allocator] is the
    interface (a class) of [kmalloc] and [kfree] that [Heap] implements and the
    other components are proved against.  [Swap] is memory/swap.c.
    [UserSpace] is what the program loader does to user addresses through the
    page tables of [Vmm].

    Data structures.  [ListHead] is include/list.h over a store of links,
    [SortedQueue] the ordered queues built on it, [Store] the structures
    reached through pointers and their singly linked lists, [Radix]
    lib/radix-tree.c.

    Processes.  [Sched] is process/sched_mlfq.c, sched_fair.c and the
    scheduling half of process/process.c: [process_schedule],
    [scheduler_tick], sleeping and priorities.  [Process] is the creation of
    processes and kernel threads, fork and the end of exit, [Exit] all of
    [process_exit], composed with what it calls.  [Signal] is ipc/signal.c,
    [Seccomp] security/seccomp.c with its BPF interpreter, [Cgroup]
    process/cgroup.c, [Namespace] process/namespace.c.  [Exec] is
    process/exec.c, which loads a program through [UserSpace] and the class
    [FileCalls] that files of [Ramfs] implement; [Syscall] is
    syscall/syscall.c, the table of system calls.  [Modload] is module.c, the
    loading, relocation and removal of kernel modules.

    Synchronisation and communication.  [Spinlock] is sync/spinlock.c,
    [WaitQueue] sync/waitqueue.c, [RtMutex] sync/rtmutex.c, [Pipe] ipc/pipe.c,
    [Msg] ipc/msg.c, [Shm] ipc/shm.c, [Hrtimer] time/hrtimer.c.

    Storage.  [Block] is drivers/block/elevator.c and the request half of
    blockdev.c, [Gendisk] its registries, [Buffer] fs/buffer.c and
    drivers/block/ramdisk.c, composed with [Block] through the callbacks of a
    bio; [FileMap] is mm/page_cache.c and fs/filemap.c.

    Files.  [Vfs] is fs/vfs.c: dentries and their cache, mounts, the path walk,
    descriptors and the calls on them.  The operation tables of file systems
    are parameters of it; [Ramfs] (fs/ramfs.c) and [Fat32] (fs/fat32.c)
    instantiate them.  [Fat32] reads and writes sectors through the class
    [SectorIO], which states what it needs of a buffer cache; the one of
    [Buffer] falls short of it, since its reads fail (see Errors below).
    [Chardev] is drivers/char/chardev.c.

    Network.  [Wire] is byte order and the fields of packet headers, [Skb]
    net/core/skbuff.c with the Internet checksums of ip.c and icmp.c, [NetDev]
    net/core/dev.c, eth.c, loopback.c and wireless/core.c, [Ip] the protocols
    of net/ipv4 composed with them into one stack, [Socket] net/socket.c.
    [E1000] is the transmit ring of net/drivers/e1000.c.

    Devices.  [Driver] is drivers/core/driver.c and pm.c: buses, drivers,
    devices and their binding; [Pci] drivers/bus/pci.c on top of it; [Irq]
    drivers/core/irq.c, with its handler threads from [Process] and
    [WaitQueue]; [Input] drivers/input/input.c and the interrupt handlers of
    keyboard.c and mouse.c.  [Console] is console.c, [Desc] the descriptor
    tables and the interrupt dispatch of arch/x86_64/gdt.c and idt.c.

    ** How the code is modelled

    An address is a [Z]; an integer of width [w] is a [Z] in its range, and
    an operation that can leave the range is followed by the wrap-around of its
    C type ([u8], [u32], [u64], [s32]).  The static variables of a C file are
    the fields of a record that its operations take and return.  Memory that
    the code accesses as bytes is a [mem]; structures are fields of a store
    (one function from address and field to value), or the fields of a record
    where the code has one instance.  [None] is an access the C language leaves
    undefined (a null or dangling pointer, an array index out of range), or a
    loop that ran out of fuel; the theorems show a result, so they exclude
    both ([PmmInit] also has a fatal loop and a division fault, which the type
    [ending] keeps apart).  Error returns are the values the code returns, and a
    theorem that allows one says when it occurs: the heap has no room, no frame
    is free, an argument is refused.

    Loops whose bound is in the data are [loop fuel step]; every theorem about
    such a function says how much fuel is enough, in terms of the length of the
    list it walks, and gives its result.  Loops with a counter are structural.

    A section that a spin lock protects is one operation, since the lock
    disables interrupts on the one processor the kernel starts; the lock
    operations themselves are the subject of [Spinlock].  A call that can
    block is split at its blocking point.  [WaitQueue] and [Pipe] make the
    interleavings of such sections explicit as step relations and prove
    invariants over all of them.

    Behaviour that is not in the kernel's sources is a parameter: the boot
    loader's map (in the documented Multiboot formats) and the end of the kernel
    image in [PmmInit], what the other processors do to a lock between any two
    accesses in [Spinlock], the callback of a timer in
    [Hrtimer], the file system's [readpage] in [FileMap], the driver's
    [request_fn] in [Block], the operations of network drivers in [NetDev], the
    callbacks of drivers, interrupt handlers and event handlers in [Driver],
    [Irq] and [Input], the entry points of a module in [Modload], the bytes read
    from device ports in [Input], and in [Pci] the port instructions, with the
    behaviour of read-write, read-only and write-one-to-clear bits that the PCI
    specification documents as the hypothesis [config_mechanism].  In [E1000] the card is a step of the transition relation.

    ** What the theorems show

    Refinement: the page tables implement a map from pages to frames, the heap
    first-fit allocation over a tiling of its region, the radix tree a finite
    map, the buffer cache a table with one buffer per block, the ready queues
    FIFO queues, wait queues and message queues lists,
    the links of list.h sequences, the cached dentries a tree of names, a file
    of the RAM file system a byte string with a position, a packet buffer a
    byte string with room at both ends, the screen a window on an unbounded
    page.  Each operation is shown to act on the
    abstract state as specified and to leave the rest alone, and each of these
    components has a well-formedness invariant its operations preserve.

    Interleavings: mutual exclusion of mutexes and reader-writer locks, the
    FIFO stream of a pipe, the characters typed and read on the keyboard, the
    packets handed to the network card and finished by it.  Every order of
    registering devices and drivers binds the same devices.

    Functional behaviour on every branch, errors included: frame allocation and
    release, boot-time reservation, scheduling decisions and wake-ups, creation
    and fork, signal delivery, timers, filters, file reads and writes, priority
    inheritance, directory listings, allocation and reading of FAT clusters (over
    [SectorIO]),
    the layout and relocation of modules, the loading and start of a program,
    sockets, interrupt lines, echo replies, DHCP and a UDP packet through the
    whole stack.

    Reference counts: of open files, of control groups; and that the exit of a
    process gives back what it holds.

    Round trips: frame allocation and release, signal delivery and return,
    swapping out and in, [getcwd] and the path walk, file write and read, FAT
    names, PCI configuration words, printed numbers, segment descriptors and
    interrupt gates.

    Errors: [bread_ramdisk_fails] shows, through four components, that no block
    of a RAM disk can be read; [fat32_walk_freed] that the path walk and FAT32
    together use a dentry they have freed; [idt_init_past_table] that the
    system-call gate is read past the end of the table of stubs.

    Behaviour at the edges of the integer types that the code does not guard is
    shown by closed examples: [pmm_alloc_pages_underflow],
    [kmalloc_size_overflow], [mutex_lost_wakeup].

    Termination is part of these statements; [spinlock_acquire_terminates] is
    about it alone: the spin lock's loops end when the other processors take the
    lock a bounded number of times meanwhile, and need not otherwise.

    ** Not modelled

    The drivers of storage controllers, USB, graphics and sound, the receive
    side of the e1000 card, the programming of keyboard, mouse, timer and
    interrupt controllers and the virtual-machine monitor are sequences of
    accesses to device registers or processor structures: what they do is
    decided by the device.  The boot code, interrupt stubs and the context
    switch are assembly.  TLB invalidation has no counterpart in the model.  Of
    process.c, [process_init] (the set-up of process 0) is left out; of
    blockdev.c, the creation of the nodes in /dev; of dma.c, everything: it
    forwards to the page allocator.  The report a fatal exception prints is a
    parameter of [Desc].  The spin locks of vfs.c, ramfs.c, cgroup.c and the
    mutex of module.c are taken and released around sections the model runs as
    one operation. *)
From stdpp Require Export base tactics numbers list option gmap.
From Stdlib Require Export ZArith Lia.
#[global] Open Scope Z_scope.

(** ** Machine integers

    The kernel is x86-64 C.  An integer of width [w] is a [Z] and every
    operation that can leave the range is followed by the wrap-around of its
    C type. *)

Definition u8 (x : Z) : Z := x mod 2 ^ 8.
Definition u16 (x : Z) : Z := x mod 2 ^ 16.
Definition u32 (x : Z) : Z := x mod 2 ^ 32.
Definition u64 (x : Z) : Z := x mod 2 ^ 64.
Definition s32 (x : Z) : Z := (x + 2 ^ 31) mod 2 ^ 32 - 2 ^ 31.

Create HintDb kernel.

Declare Scope kernel_scope.
Delimit Scope kernel_scope with kernel.
(** [x .& y], [x .| y]: bitwise and, or of machine words. *)
Notation "x '.&' y" := (Z.land x y) (at level 40, left associativity) : kernel_scope.
Notation "x '.|' y" := (Z.lor x y) (at level 45, left associativity) : kernel_scope.
Notation "x '.>>' y" := (Z.shiftr x y) (at level 38, left associativity) : kernel_scope.
Notation "x '.<<' y" := (Z.shiftl x y) (at level 38, left associativity) : kernel_scope.
#[global] Open Scope kernel_scope.

Lemma u8_range x : 0 <= u8 x < 256.
Proof. unfold u8. apply Z.mod_pos_bound. lia. Qed.
Lemma u32_range x : 0 <= u32 x < 2 ^ 32.
Proof. unfold u32. apply Z.mod_pos_bound. lia. Qed.
Lemma u64_range x : 0 <= u64 x < 2 ^ 64.
Proof. unfold u64. apply Z.mod_pos_bound. lia. Qed.
Lemma s32_range x : - 2 ^ 31 <= s32 x < 2 ^ 31.
Proof. unfold s32. pose proof (Z.mod_pos_bound (x + 2 ^ 31) (2 ^ 32)). lia. Qed.

Lemma u8_small x : 0 <= x < 256 -> u8 x = x.
Proof. intros. apply Z.mod_small. lia. Qed.
Lemma u16_small x : 0 <= x < 2 ^ 16 -> u16 x = x.
Proof. intros. apply Z.mod_small. lia. Qed.
Lemma u32_small x : 0 <= x < 2 ^ 32 -> u32 x = x.
Proof. intros. apply Z.mod_small. lia. Qed.
Lemma u64_small x : 0 <= x < 2 ^ 64 -> u64 x = x.
Proof. intros. apply Z.mod_small. lia. Qed.
Lemma s32_small x : - 2 ^ 31 <= x < 2 ^ 31 -> s32 x = x.
Proof. intros. unfold s32. rewrite Z.mod_small; lia. Qed.

#[export] Hint Resolve u8_range u32_range u64_range s32_range : kernel.
Create Rewrite HintDb wrap.
#[export] Hint Rewrite u8_small u16_small u32_small u64_small s32_small using lia : wrap.

(** ** Decision and case-analysis tactics *)

(** [simpl_bool] turns the boolean tests of the model into propositions. *)
Ltac simpl_bool :=
  repeat match goal with
  | H : (_ =? _) = true |- _ => apply Z.eqb_eq in H
  | H : (_ =? _) = false |- _ => apply Z.eqb_neq in H
  | H : (_ <? _) = true |- _ => apply Z.ltb_lt in H
  | H : (_ <? _) = false |- _ => apply Z.ltb_ge in H
  | H : (_ <=? _) = true |- _ => apply Z.leb_le in H
  | H : (_ <=? _) = false |- _ => apply Z.leb_gt in H
  | H : negb _ = true |- _ => apply negb_true_iff in H
  | H : negb _ = false |- _ => apply negb_false_iff in H
  | H : (_ && _) = true |- _ => apply andb_prop in H; destruct H
  | H : (_ || _) = false |- _ => apply orb_false_elim in H; destruct H
  end.

(** [case_if] splits the first [if] of the goal on its condition. *)
Ltac case_if :=
  match goal with
  | |- context [if ?b then _ else _] =>
      lazymatch b with
      | context [if _ then _ else _] => fail
      | _ => let E := fresh "E" in destruct b eqn:E; simpl_bool
      end
  end.

(** ** Loops

    A C loop is a step function from its variables to either the variables of
    the next iteration ([inl]) or the value it is left with ([inr]: a false
    guard, a [break] or a [return]).  [loop] runs at most [fuel] iterations. *)

Fixpoint loop {St R : Type} (fuel : nat) (step : St -> St + R) (s : St) : option R :=
  match fuel with
  | O => None
  | S f => match step s with
           | inl s' => loop f step s'
           | inr r => Some r
           end
  end.

(** Total correctness: an invariant and a decreasing measure give the result
    of the loop for every fuel above the measure. *)
Lemma loop_total {St R : Type} (I : St -> Prop) (m : St -> nat) (Q : R -> Prop)
    (step : St -> St + R) :
  (forall s, I s -> match step s with
                    | inl s' => I s' /\ (m s' < m s)%nat
                    | inr r => Q r
                    end) ->
  forall fuel s, I s -> (m s < fuel)%nat -> exists r, loop fuel step s = Some r /\ Q r.
Proof.
  intros Hstep. induction fuel as [|f IH]; intros s HI Hm; [lia|].
  simpl. pose proof (Hstep s HI) as H. destruct (step s) as [s'|r].
  - destruct H as [HI' Hlt]. apply IH; [done|lia].
  - eauto.
Qed.

(** Partial correctness: the invariant alone describes any result. *)
Lemma loop_partial {St R : Type} (I : St -> Prop) (Q : R -> Prop) (step : St -> St + R) :
  (forall s, I s -> match step s with inl s' => I s' | inr r => Q r end) ->
  forall fuel s r, I s -> loop fuel step s = Some r -> Q r.
Proof.
  intros Hstep. induction fuel as [|f IH]; intros s r HI Hl; [done|].
  simpl in Hl. pose proof (Hstep s HI) as H. destruct (step s) as [s'|r'].
  - by apply (IH s').
  - by simplify_eq.
Qed.

(** More fuel never changes a result. *)
Lemma loop_more {St R : Type} (step : St -> St + R) f1 f2 s r :
  loop f1 step s = Some r -> (f1 <= f2)%nat -> loop f2 step s = Some r.
Proof.
  revert f2 s. induction f1 as [|f1 IH]; intros f2 s H Hle; [done|].
  destruct f2 as [|f2]; [lia|]. simpl in *.
  destruct (step s); [|done]. apply IH; [done|lia].
Qed.

(** [for_up n i f s] is [for (; i < i + n; i++) s = f(i, s)], the counted loop
    without an early exit. *)
Fixpoint for_up {St : Type} (n : nat) (i : Z) (f : Z -> St -> St) (s : St) : St :=
  match n with
  | O => s
  | S n' => for_up n' (i + 1) f (f i s)
  end.

Lemma for_up_inv {St : Type} (I : Z -> St -> Prop) (f : Z -> St -> St) n i s :
  (forall j t, i <= j < i + Z.of_nat n -> I j t -> I (j + 1) (f j t)) ->
  I i s -> I (i + Z.of_nat n) (for_up n i f s).
Proof.
  revert i s. induction n as [|n IH]; intros i s Hf Hi; simpl.
  - by replace (i + Z.of_nat 0) with i by lia.
  - replace (i + Z.of_nat (S n)) with ((i + 1) + Z.of_nat n) by lia.
    apply IH; [|apply Hf; [lia|done]].
    intros j t Hj. apply Hf. lia.
Qed.

(** ** The first element of a list that satisfies a test *)

Lemma first_split {A : Type} (p : A -> bool) (l : list A) :
  Forall (fun x => p x = false) l \/
  exists l1 x l2, l = l1 ++ x :: l2 /\ Forall (fun x => p x = false) l1 /\ p x = true.
Proof.
  induction l as [|x l IH]; [by left|]. destruct (p x) eqn:E.
  - right. by exists [], x, l.
  - destruct IH as [H|(l1 & y & l2 & -> & H & Hy)]; [left; by constructor|].
    right. exists (x :: l1), y, l2. split; [done|]. split; [by constructor|done].
Qed.

Lemma first_unique {A : Type} (p : A -> bool) (l1 l1' : list A) x x' l2 l2' :
  l1 ++ x :: l2 = l1' ++ x' :: l2' ->
  Forall (fun x => p x = false) l1 -> p x = true -> Forall (fun x => p x = false) l1' -> p x' = true ->
  l1 = l1' /\ x = x' /\ l2 = l2'.
Proof.
  revert l1'. induction l1 as [|y l1 IH]; intros [|y' l1'] E H1 Hx H2 Hx'; injection E as E1 E2.
  - done.
  - apply Forall_cons in H2 as [H2 _]. congruence.
  - apply Forall_cons in H1 as [H1 _]. congruence.
  - apply Forall_cons in H1 as [_ H1], H2 as [_ H2]. destruct (IH l1' E2 H1 Hx H2 Hx') as (-> & -> & ->). by subst.
Qed.

(** ** Words as bits *)

Lemma land_pow2_zero x n : 0 <= n -> (Z.land x (2 ^ n) =? 0) = negb (Z.testbit x n).
Proof.
  intros Hn. destruct (Z.testbit x n) eqn:E; simpl.
  - apply Z.eqb_neq. intros H0.
    assert (Z.testbit (Z.land x (2 ^ n)) n = true) as H.
    { rewrite Z.land_spec, E, Z.pow2_bits_true; [done|lia]. }
    by rewrite H0, Z.bits_0 in H.
  - apply Z.eqb_eq. apply Z.bits_inj'. intros k Hk.
    rewrite Z.land_spec, Z.bits_0. destruct (decide (k = n)) as [->|Hne].
    + by rewrite E.
    + rewrite Z.pow2_bits_false by lia. apply andb_false_r.
Qed.

(** Looking up, among the addresses [addr] of the records [l], the one whose
    key, read by [g], is that of a given record. *)
Section find_key.
Context {B : Type} (addr key : B -> Z) (g : Z -> Z).

Lemma find_by_key l1 x l2 :
  NoDup (key <$> l1 ++ x :: l2) -> Forall (fun x => g (addr x) = key x) (l1 ++ x :: l2) ->
  List.find (fun c => g c =? key x) (addr <$> l1 ++ x :: l2) = Some (addr x).
Proof.
  intros Hnd Hk. induction l1 as [|y l1 IH]; apply Forall_cons in Hk as [Hp Hk]; cbn [fmap list_fmap app List.find] in *; rewrite Hp.
  - by rewrite Z.eqb_refl.
  - apply NoDup_cons in Hnd as [Hn Hnd]. rewrite (proj2 (Z.eqb_neq _ _)); [by apply IH|]. intros E. apply Hn. rewrite E.
    rewrite fmap_app. apply elem_of_app. right. left.
Qed.

Lemma find_no_key v l :
  v ∉ key <$> l -> Forall (fun x => g (addr x) = key x) l -> List.find (fun c => g c =? v) (addr <$> l) = None.
Proof.
  intros Hn Hk. induction l as [|y l IH]; [done|]. apply Forall_cons in Hk as [Hp Hk]. cbn [fmap list_fmap List.find] in *.
  rewrite Hp, (proj2 (Z.eqb_neq _ _)) by (intros E; apply Hn; rewrite E; left). apply IH; [|done]. intros Hc. apply Hn. by right.
Qed.
End find_key.
