(* ===== verification/Memory.v ===== *)
(** * Byte-addressed memory

    Physical memory is identity mapped while the kernel's own data structures
    are accessed, so an address is one number and memory is a total map from
    addresses to bytes.  Multi-byte accesses are little-endian, as on x86-64. *)
From S2P Require Import Prelude.
From Stdlib Require Import Morphisms Setoid.

Definition mem : Type := Z -> Z.

Definition load8 (m : mem) (a : Z) : Z := m a.
Definition store8 (m : mem) (a v : Z) : mem := fun x => if x =? a then u8 v else m x.

Fixpoint load_le (m : mem) (a : Z) (n : nat) : Z :=
  match n with
  | O => 0
  | S n' => m a + 256 * load_le m (a + 1) n'
  end.

Fixpoint store_le (m : mem) (a v : Z) (n : nat) : mem :=
  match n with
  | O => m
  | S n' => store_le (store8 m a v) (a + 1) (v / 256) n'
  end.

Definition load16 (m : mem) (a : Z) : Z := load_le m a 2.
Definition load32 (m : mem) (a : Z) : Z := load_le m a 4.
Definition load64 (m : mem) (a : Z) : Z := load_le m a 8.
Definition store16 (m : mem) (a v : Z) : mem := store_le m a v 2.
Definition store32 (m : mem) (a v : Z) : mem := store_le m a v 4.
Definition store64 (m : mem) (a v : Z) : mem := store_le m a v 8.

(** Every cell holds a byte. *)
Definition mem_ok (m : mem) : Prop := forall a, 0 <= m a < 256.

(** ** Equality of memories

    Two memories are the same when they agree on every address; the access
    functions respect that equivalence, so it can be rewritten under them. *)

Definition mem_eq (m1 m2 : mem) : Prop := forall a, m1 a = m2 a.
Infix "=m=" := mem_eq (at level 70) : kernel_scope.

#[export] Instance mem_eq_equiv : Equivalence mem_eq.
Proof.
  split; unfold mem_eq.
  - done.
  - intros x y H a. by rewrite H.
  - intros x y z H1 H2 a. by rewrite H1.
Qed.

#[export] Instance store8_proper : Proper (mem_eq ==> eq ==> eq ==> mem_eq) store8.
Proof. intros m1 m2 H a ? <- v ? <- x. unfold store8. by rewrite H. Qed.

#[export] Instance load_le_proper : Proper (mem_eq ==> eq ==> eq ==> eq) load_le.
Proof.
  intros m1 m2 H a ? <- n ? <-. revert a.
  induction n as [|n IH]; intros a; simpl; [done|]. by rewrite H, IH.
Qed.

#[export] Instance store_le_proper : Proper (mem_eq ==> eq ==> eq ==> eq ==> mem_eq) store_le.
Proof.
  intros m1 m2 H a ? <- v ? <- n ? <-. revert m1 m2 H a v.
  induction n as [|n IH]; intros m1 m2 H a v; simpl; [done|].
  apply IH. by apply store8_proper.
Qed.

(** ** Reads over writes *)

Lemma store8_same m a v : store8 m a v a = u8 v.
Proof. unfold store8. by rewrite Z.eqb_refl. Qed.

Lemma store8_other m a v x : x <> a -> store8 m a v x = m x.
Proof. intros H. unfold store8. by rewrite (proj2 (Z.eqb_neq x a)). Qed.

Lemma store8_ok m a v : mem_ok m -> mem_ok (store8 m a v).
Proof. intros H x. unfold store8. case_if; auto using u8_range. Qed.

Lemma store_le_ok m a v n : mem_ok m -> mem_ok (store_le m a v n).
Proof.
  revert m a v. induction n as [|n IH]; intros m a v H; simpl; [done|].
  by apply IH, store8_ok.
Qed.

Lemma store_le_other m a v n x :
  x < a \/ a + Z.of_nat n <= x -> store_le m a v n x = m x.
Proof.
  revert m a v. induction n as [|n IH]; intros m a v H; simpl; [done|].
  rewrite IH by lia. apply store8_other. lia.
Qed.

Lemma store_le_byte m a v n i :
  (i < n)%nat -> store_le m a v n (a + Z.of_nat i) = v / 256 ^ Z.of_nat i mod 256.
Proof.
  revert m a v i. induction n as [|n IH]; intros m a v i Hi; [lia|]. simpl.
  destruct i as [|i].
  - rewrite store_le_other by lia. replace (a + Z.of_nat 0) with a by lia.
    rewrite store8_same. unfold u8. f_equal. by rewrite Z.div_1_r.
  - replace (a + Z.of_nat (S i)) with ((a + 1) + Z.of_nat i) by lia.
    rewrite IH by lia. f_equal. rewrite Z.div_div by lia. f_equal.
    replace (Z.of_nat (S i)) with (Z.of_nat i + 1) by lia.
    rewrite Z.pow_add_r by lia. lia.
Qed.

Lemma load_le_ext m1 m2 a n :
  (forall x, a <= x < a + Z.of_nat n -> m1 x = m2 x) -> load_le m1 a n = load_le m2 a n.
Proof.
  revert a. induction n as [|n IH]; intros a H; simpl; [done|].
  rewrite H by lia. f_equal. f_equal. apply IH. intros x Hx. apply H. lia.
Qed.

Lemma load_store_le_same m a v n : load_le (store_le m a v n) a n = v mod 256 ^ Z.of_nat n.
Proof.
  revert m a v. induction n as [|n IH]; intros m a v; cbn [load_le store_le].
  - by rewrite Z.mod_1_r.
  - rewrite IH, store_le_other, store8_same by lia. unfold u8.
    change (2 ^ 8) with 256. rewrite <- Z.rem_mul_r by lia.
    rewrite Nat2Z.inj_succ, Z.pow_succ_r by lia. done.
Qed.

Lemma load_store_le_disjoint m a v n b k :
  b + Z.of_nat k <= a \/ a + Z.of_nat n <= b ->
  load_le (store_le m a v n) b k = load_le m b k.
Proof. intros H. apply load_le_ext. intros x Hx. apply store_le_other. lia. Qed.

Lemma load_le_range m a n : mem_ok m -> 0 <= load_le m a n < 256 ^ Z.of_nat n.
Proof.
  intros Hm. revert a. induction n as [|n IH]; intros a; cbn [load_le]; [lia|].
  specialize (IH (a + 1)). specialize (Hm a).
  rewrite Nat2Z.inj_succ, Z.pow_succ_r by lia. lia.
Qed.

Lemma load_le_byte m a n i :
  mem_ok m -> (i < n)%nat -> load_le m a n / 256 ^ Z.of_nat i mod 256 = m (a + Z.of_nat i).
Proof.
  intros Hm. revert a i. induction n as [|n IH]; intros a i Hi; [lia|]. cbn [load_le].
  pose proof (Hm a). destruct i as [|i].
  - rewrite Z.pow_0_r, Z.div_1_r, Z.mul_comm, Z.mod_add by lia.
    rewrite Z.mod_small by lia. f_equal. lia.
  - replace (a + Z.of_nat (S i)) with ((a + 1) + Z.of_nat i) by lia.
    rewrite <- IH by lia. f_equal.
    rewrite Nat2Z.inj_succ, Z.pow_succ_r, <- Z.div_div by lia. f_equal.
    rewrite Z.mul_comm, Z.div_add by lia. rewrite Z.div_small by lia. lia.
Qed.

Lemma load64_store64_same m a v : 0 <= v < 2 ^ 64 -> load64 (store64 m a v) a = v.
Proof.
  intros Hv. unfold load64, store64. rewrite load_store_le_same.
  change (256 ^ Z.of_nat 8) with (2 ^ 64). by apply Z.mod_small.
Qed.

Lemma load64_store64_other m a v b :
  b + 8 <= a \/ a + 8 <= b -> load64 (store64 m a v) b = load64 m b.
Proof. intros. apply load_store_le_disjoint. lia. Qed.

Lemma load64_range m a : mem_ok m -> 0 <= load64 m a < 2 ^ 64.
Proof. intros H. apply (load_le_range m a 8 H). Qed.

Lemma load64_ext m1 m2 a : (forall x, a <= x < a + 8 -> m1 x = m2 x) -> load64 m1 a = load64 m2 a.
Proof. intros H. by apply (load_le_ext m1 m2 a 8). Qed.

Lemma store64_other m a v x : x < a \/ a + 8 <= x -> store64 m a v x = m x.
Proof. apply (store_le_other m a v 8). Qed.

Lemma store32_other m a v x : x < a \/ a + 4 <= x -> store32 m a v x = m x.
Proof. apply (store_le_other m a v 4). Qed.

Lemma store64_ok m a v : mem_ok m -> mem_ok (store64 m a v).
Proof. apply store_le_ok. Qed.

#[export] Hint Resolve store8_ok store64_ok store_le_ok : kernel.

(** ** Byte strings *)

(** The [n] bytes at [a]. *)
Definition bytes_at (m : mem) (a : Z) (n : nat) : list Z := (fun i => m (a + Z.of_nat i)) <$> seq 0 n.

Lemma bytes_at_length m a n : length (bytes_at m a n) = n.
Proof. unfold bytes_at. by rewrite length_fmap, length_seq. Qed.

Lemma bytes_at_ext m m' a b n :
  (forall i, 0 <= i < Z.of_nat n -> m' (a + i) = m (b + i)) -> bytes_at m' a n = bytes_at m b n.
Proof. intros E. apply list_fmap_ext. intros i x Hx. apply lookup_seq in Hx as [-> Hx]. apply E. lia. Qed.

Lemma bytes_at_lookup m a n (i : nat) : (i < n)%nat -> bytes_at m a n !! i = Some (m (a + Z.of_nat i)).
Proof. intros Hi. unfold bytes_at. rewrite list_lookup_fmap, lookup_seq_lt by done. done. Qed.

Lemma bytes_at_app m a n k : bytes_at m a (n + k) = bytes_at m a n ++ bytes_at m (a + Z.of_nat n) k.
Proof.
  apply list_eq. intros i. destruct (decide (i < n)%nat) as [Hi|Hi].
  - rewrite lookup_app_l by (by rewrite bytes_at_length). rewrite !bytes_at_lookup by lia. done.
  - rewrite lookup_app_r by (rewrite bytes_at_length; lia). rewrite bytes_at_length. destruct (decide (i < n + k)%nat).
    + rewrite !bytes_at_lookup by lia. do 2 f_equal. lia.
    + rewrite !lookup_ge_None_2; [done|rewrite bytes_at_length; lia..].
Qed.

Lemma bytes_at_take m a n k : (k <= n)%nat -> take k (bytes_at m a n) = bytes_at m a k.
Proof. intros Hk. replace n with (k + (n - k))%nat by lia. by rewrite bytes_at_app, take_app_length' by (by rewrite bytes_at_length). Qed.

Lemma bytes_at_drop m a n k : drop k (bytes_at m a n) = bytes_at m (a + Z.of_nat k) (n - k).
Proof.
  destruct (decide (k <= n)%nat); [|rewrite drop_ge by (rewrite bytes_at_length; lia); by replace (n - k)%nat with 0%nat by lia].
  replace n with (k + (n - k))%nat at 1 by lia. by rewrite bytes_at_app, drop_app_length' by (by rewrite bytes_at_length).
Qed.
