(* ===== verification/CString.v ===== *)
(** * The C string library (src/kernel/lib/string.c)

    [memset] and [memcpy] work a word at a time once the destination is
    aligned; they are proved equal to their byte-wise meaning.  The string
    functions scan for a terminator, so they are loops with fuel, and each is
    proved to return on a terminated string. *)
From S2P Require Import Prelude Memory.
From Stdlib Require Import Morphisms Setoid.

Module CString.

(** ** Definitions *)

(** The first loop of [memset]: bytes until the pointer is 8-aligned. *)
Fixpoint memset_align (m : mem) (p8 value : Z) (num : nat) : mem * Z * nat :=
  match num with
  | O => (m, p8, num)
  | S n => if p8 .& 7 =? 0 then (m, p8, num)
           else memset_align (store8 m p8 value) (p8 + 1) value n
  end.

(** The second loop: a word per iteration while [num >= 8]. *)
Fixpoint memset_words (m : mem) (p64 val64 : Z) (num : nat) : mem * Z * nat :=
  match num with
  | S (S (S (S (S (S (S (S n))))))) => memset_words (store64 m p64 val64) (p64 + 8) val64 n
  | _ => (m, p64, num)
  end.

(** The last loop: the remaining [num] bytes. *)
Fixpoint memset_bytes (m : mem) (p8 value : Z) (num : nat) : mem :=
  match num with
  | O => m
  | S n => memset_bytes (store8 m p8 value) (p8 + 1) value n
  end.

Definition memset_val64 (value : Z) : Z :=
  let v := u8 value in
  let v := v .| u64 (v .<< 8) in
  let v := v .| u64 (v .<< 16) in
  v .| u64 (v .<< 32).

Definition memset (m : mem) (ptr value num : Z) : mem :=
  let '(m, p8, n) := memset_align m ptr value (Z.to_nat num) in
  let '(m, p64, n) := memset_words m p8 (memset_val64 value) n in
  memset_bytes m p64 value n.

Fixpoint memcpy_bytes (m : mem) (d8 s8 : Z) (num : nat) : mem :=
  match num with
  | O => m
  | S n => memcpy_bytes (store8 m d8 (load8 m s8)) (d8 + 1) (s8 + 1) n
  end.

Fixpoint memcpy_align (m : mem) (d8 s8 : Z) (num : nat) : mem * Z * Z * nat :=
  match num with
  | O => (m, d8, s8, num)
  | S n => if d8 .& 7 =? 0 then (m, d8, s8, num)
           else memcpy_align (store8 m d8 (load8 m s8)) (d8 + 1) (s8 + 1) n
  end.

Fixpoint memcpy_words (m : mem) (d64 s64 : Z) (num : nat) : mem * Z * Z * nat :=
  match num with
  | S (S (S (S (S (S (S (S n))))))) =>
      memcpy_words (store64 m d64 (load64 m s64)) (d64 + 8) (s64 + 8) n
  | _ => (m, d64, s64, num)
  end.

Definition memcpy (m : mem) (dest src num : Z) : mem :=
  if num <? 8 then memcpy_bytes m dest src (Z.to_nat num)
  else
    let '(m, d8, s8, n) := memcpy_align m dest src (Z.to_nat num) in
    let '(m, d64, s64, n) := memcpy_words m d8 s8 n in
    memcpy_bytes m d64 s64 n.

Fixpoint memcmp_bytes (m : mem) (p1 p2 : Z) (num : nat) : Z :=
  match num with
  | O => 0
  | S n => if negb (load8 m p1 =? load8 m p2) then load8 m p1 - load8 m p2
           else memcmp_bytes m (p1 + 1) (p2 + 1) n
  end.

Definition memcmp (m : mem) (ptr1 ptr2 num : Z) : Z := memcmp_bytes m ptr1 ptr2 (Z.to_nat num).

Definition strlen (fuel : nat) (m : mem) (str : Z) : option Z :=
  loop fuel (fun len => if negb (load8 m (str + len) =? 0) then inl (len + 1) else inr len) 0.

(** The loop shared by [strcmp] and [strcasecmp]: advance while the first
    string has a character and the two characters agree under [f]. *)
Definition cmp_loop (fuel : nat) (f : Z -> Z) (m : mem) (s1 s2 : Z) : option (Z * Z) :=
  loop fuel (fun '(s1, s2) =>
    if negb (load8 m s1 =? 0) && (f (load8 m s1) =? f (load8 m s2))
    then inl (s1 + 1, s2 + 1) else inr (s1, s2)) (s1, s2).

Definition strcmp (fuel : nat) (m : mem) (s1 s2 : Z) : option Z :=
  '(s1, s2) ← cmp_loop fuel id m s1 s2; Some (load8 m s1 - load8 m s2).

Definition tolower (c : Z) : Z := if (65 <=? c) && (c <=? 90) then c + 32 else c.

Definition strcasecmp (fuel : nat) (m : mem) (s1 s2 : Z) : option Z :=
  '(s1, s2) ← cmp_loop fuel tolower m s1 s2;
  Some (u8 (tolower (load8 m s1)) - u8 (tolower (load8 m s2))).

Fixpoint strncmp_loop (m : mem) (s1 s2 : Z) (n : nat) : Z * Z * nat :=
  match n with
  | O => (s1, s2, n)
  | S n' => if negb (load8 m s1 =? 0) && (load8 m s1 =? load8 m s2)
            then strncmp_loop m (s1 + 1) (s2 + 1) n' else (s1, s2, n)
  end.

Definition strncmp (m : mem) (s1 s2 n : Z) : Z :=
  let '(s1, s2, n) := strncmp_loop m s1 s2 (Z.to_nat n) in
  match n with
  | O => 0
  | _ => load8 m s1 - load8 m s2
  end.

(** Copy up to and including the terminator: the assignment is the guard. *)
Definition strcpy (fuel : nat) (m : mem) (dest src : Z) : option mem :=
  loop fuel (fun '(m, d, src) =>
    let c := load8 m src in
    let m := store8 m d c in
    if negb (u8 c =? 0) then inl (m, d + 1, src + 1) else inr m) (m, dest, src).

Fixpoint strncpy_copy (m : mem) (d src : Z) (n : nat) : mem * Z * nat :=
  match n with
  | O => (m, d, n)
  | S n' => if negb (load8 m src =? 0)
            then strncpy_copy (store8 m d (load8 m src)) (d + 1) (src + 1) n'
            else (m, d, n)
  end.

Definition strncpy (m : mem) (dest src n : Z) : mem :=
  let '(m, d, n) := strncpy_copy m dest src (Z.to_nat n) in
  memset_bytes m d 0 n.

(** ** Reference meanings *)

(** The memory [m] with [num] bytes from [p] set to the byte [value]. *)
Definition fill (m : mem) (p value num : Z) : mem :=
  fun x => if decide (p <= x < p + num) then u8 value else m x.

(** The memory [m] with [num] bytes at [d] replaced by those of [m] at [s]. *)
Definition copy (m : mem) (d s num : Z) : mem :=
  fun x => if decide (d <= x < d + num) then m (s + (x - d)) else m x.

(** [l] is the string at [s]: its bytes are non-zero and a zero byte follows. *)
Fixpoint cstr (m : mem) (s : Z) (l : list Z) : Prop :=
  match l with
  | [] => m s = 0
  | c :: l' => m s = c /\ 0 < c < 256 /\ cstr m (s + 1) l'
  end.

(** ** memset *)

Lemma memset_val64_mul value : memset_val64 value = u8 value * 0x0101010101010101.
Proof.
  assert (Forall (fun v => memset_val64 v = u8 v * 0x0101010101010101) (seqZ 0 256)) as H.
  { apply (bool_decide_eq_true_1 _). vm_compute. reflexivity. }
  rewrite Forall_forall in H. pose proof (u8_range value).
  replace (memset_val64 value) with (memset_val64 (u8 value)).
  - rewrite H by (apply elem_of_seqZ; lia). f_equal. apply u8_small. lia.
  - unfold memset_val64. by rewrite (u8_small (u8 value)) by lia.
Qed.

Fixpoint repunit (n : nat) : Z := match n with O => 0 | S k => 1 + 256 * repunit k end.

Lemma store_le_repeat m a v n : 0 <= v < 256 -> store_le m a (v * repunit n) n = memset_bytes m a v n.
Proof.
  intros Hv. revert m a. induction n as [|n IH]; intros m a; cbn [store_le repunit memset_bytes]; [done|].
  replace (v * (1 + 256 * repunit n)) with (v + (v * repunit n) * 256) by lia.
  rewrite Z.div_add by lia. rewrite Z.div_small by lia. rewrite Z.add_0_l, IH.
  f_equal. unfold store8, u8. change (2 ^ 8) with 256. by rewrite Z.mod_add by lia.
Qed.

Lemma memset_bytes_fill n m p v : memset_bytes m p v n =m= fill m p v (Z.of_nat n).
Proof.
  revert m p. induction n as [|n IH]; intros m p x; cbn [memset_bytes].
  - unfold fill. case_decide; [lia|done].
  - rewrite IH. unfold fill, store8.
    destruct (x =? p) eqn:Ex; simpl_bool; repeat case_decide; try done; lia.
Qed.

Lemma fill_fill m p v n k :
  0 <= n -> 0 <= k -> fill (fill m p v n) (p + n) v k =m= fill m p v (n + k).
Proof. intros ? ? x. unfold fill. repeat case_decide; try done; lia. Qed.

#[local] Instance fill_proper : Proper (mem_eq ==> eq ==> eq ==> eq ==> mem_eq) fill.
Proof. intros m1 m2 H ? p -> ? v -> ? n -> x. unfold fill. by rewrite H. Qed.

#[local] Instance memset_bytes_proper : Proper (mem_eq ==> eq ==> eq ==> eq ==> mem_eq) memset_bytes.
Proof. intros m1 m2 H ? p -> ? v -> ? n ->. rewrite !memset_bytes_fill. by rewrite H. Qed.

Lemma memset_bytes_app m p v n k :
  memset_bytes (memset_bytes m p v n) (p + Z.of_nat n) v k =m= memset_bytes m p v (n + k).
Proof. rewrite !memset_bytes_fill, fill_fill by lia. by rewrite Nat2Z.inj_add. Qed.

Lemma memset_align_spec n m p v m' p' n' :
  memset_align m p v n = (m', p', n') ->
  exists k, (n = k + n')%nat /\ p' = p + Z.of_nat k /\ m' = memset_bytes m p v k.
Proof.
  revert m p. induction n as [|n IH]; intros m p H; simpl in H.
  - simplify_eq. exists 0%nat. repeat split; simpl; lia.
  - destruct (p .& 7 =? 0); simplify_eq.
    + exists 0%nat. repeat split; simpl; lia.
    + destruct (IH _ _ H) as (k & -> & -> & ->). exists (S k). repeat split; simpl; lia.
Qed.

(** Induction for the loops that consume eight bytes at a time. *)
Lemma nat_ind8 (P : nat -> Prop) :
  (forall n, (n < 8)%nat -> P n) -> (forall n, P n -> P (8 + n)%nat) -> forall n, P n.
Proof.
  intros H0 H8 n. induction (lt_wf n) as [n _ IH].
  destruct (decide (n < 8)%nat) as [|Hge]; [by apply H0|].
  replace n with (8 + (n - 8))%nat by lia. apply H8, IH. lia.
Qed.

Lemma memset_words_spec n m p v m' p' n' :
  memset_words m p (memset_val64 v) n = (m', p', n') ->
  exists k, (n = k + n')%nat /\ p' = p + Z.of_nat k /\ m' =m= memset_bytes m p v k.
Proof.
  revert m p. induction n as [n Hn|n IH] using nat_ind8; intros m p H.
  - assert (memset_words m p (memset_val64 v) n = (m, p, n)) as H'
      by (do 8 (destruct n as [|n]; [done|]); lia).
    rewrite H' in H. simplify_eq. exists 0%nat. repeat split; simpl; lia.
  - simpl in H. destruct (IH _ _ H) as (k & -> & -> & Hm). exists (8 + k)%nat.
    split; [lia|]. split; [lia|]. rewrite Hm, <- memset_bytes_app.
    change (Z.of_nat 8) with 8. unfold store64. rewrite memset_val64_mul.
    change 0x0101010101010101 with (repunit 8).
    rewrite store_le_repeat by apply u8_range.
    rewrite !memset_bytes_fill. intros x. unfold fill.
    by rewrite (u8_small (u8 v)) by apply u8_range.
Qed.

(** [memset] fills exactly the [num] bytes at [ptr], whatever the alignment. *)
Lemma memset_fill m ptr value num : 0 <= num -> memset m ptr value num =m= fill m ptr value num.
Proof.
  intros Hnum. unfold memset.
  destruct (memset_align _ _ _ _) as [[m1 p1] n1] eqn:E1.
  destruct (memset_words _ _ _ _) as [[m2 p2] n2] eqn:E2.
  destruct (memset_align_spec _ _ _ _ _ _ _ E1) as (k1 & Hk1 & -> & ->).
  destruct (memset_words_spec _ _ _ _ _ _ _ E2) as (k2 & -> & -> & Hm2).
  rewrite Hm2, memset_bytes_app.
  replace (ptr + Z.of_nat k1 + Z.of_nat k2) with (ptr + Z.of_nat (k1 + k2)) by lia.
  rewrite memset_bytes_app, memset_bytes_fill. by replace (Z.of_nat _) with num by lia.
Qed.

(** ** memcpy *)

(** The regions a forward copy handles: the destination starts at or below
    the source, or past its end. *)
Definition fwd_ok (d s n : Z) : Prop := d <= s \/ s + n <= d.

#[local] Instance copy_proper : Proper (mem_eq ==> eq ==> eq ==> eq ==> mem_eq) copy.
Proof. intros m1 m2 H ? d -> ? s -> ? n -> x. unfold copy. by rewrite !H. Qed.

Lemma copy_copy m d s n k :
  0 <= n -> 0 <= k -> fwd_ok d s (n + k) ->
  copy (copy m d s n) (d + n) (s + n) k =m= copy m d s (n + k).
Proof.
  unfold fwd_ok. intros ? ? H x. unfold copy. repeat case_decide; try lia; try done.
  f_equal. lia.
Qed.

Lemma copy_ok m d s n : mem_ok m -> mem_ok (copy m d s n).
Proof. intros H x. unfold copy. case_decide; apply H. Qed.

Lemma mem_eq_ok m1 m2 : m1 =m= m2 -> mem_ok m1 -> mem_ok m2.
Proof. intros H Hm a. rewrite <- H. apply Hm. Qed.

Lemma store8_copy m d s : mem_ok m -> store8 m d (load8 m s) =m= copy m d s 1.
Proof.
  intros Hm x. unfold store8, copy, load8. rewrite u8_small by apply Hm.
  destruct (x =? d) eqn:E; simpl_bool; case_decide; try lia; try done.
  f_equal. lia.
Qed.

Lemma store64_copy m d s : mem_ok m -> store64 m d (load64 m s) =m= copy m d s 8.
Proof.
  intros Hm x. unfold store64, copy, load64. case_decide as Hx.
  - set (i := Z.to_nat (x - d)). replace x with (d + Z.of_nat i) at 1 by lia.
    rewrite store_le_byte, load_le_byte by (done || lia). f_equal. lia.
  - apply store_le_other. lia.
Qed.

Lemma memcpy_bytes_copy n m d s :
  mem_ok m -> fwd_ok d s (Z.of_nat n) -> memcpy_bytes m d s n =m= copy m d s (Z.of_nat n).
Proof.
  unfold fwd_ok. revert m d s. induction n as [|n IH]; intros m d s Hm H; cbn [memcpy_bytes].
  - intros x. unfold copy. case_decide; [lia|done].
  - rewrite IH by (auto with kernel || lia). rewrite store8_copy by done.
    rewrite copy_copy by (unfold fwd_ok; lia). by rewrite Nat2Z.inj_succ, Z.add_comm.
Qed.

Lemma memcpy_align_spec n m d s m' d' s' n' :
  mem_ok m -> fwd_ok d s (Z.of_nat n) -> memcpy_align m d s n = (m', d', s', n') ->
  exists k, (n = k + n')%nat /\ d' = d + Z.of_nat k /\ s' = s + Z.of_nat k /\
            m' =m= copy m d s (Z.of_nat k).
Proof.
  unfold fwd_ok. revert m d s. induction n as [|n IH]; intros m d s Hm Hf H; simpl in H.
  - simplify_eq. exists 0%nat. repeat split; try lia.
    intros x. unfold copy. case_decide; [lia|done].
  - destruct (d .& 7 =? 0); simplify_eq.
    + exists 0%nat. repeat split; try lia. intros x. unfold copy. case_decide; [lia|done].
    + destruct (IH (store8 m d (load8 m s)) (d + 1) (s + 1)) as (k & -> & -> & -> & Hm');
        [auto with kernel | lia | done |].
      exists (S k). repeat split; try lia. rewrite Hm', store8_copy by done.
      rewrite copy_copy by (unfold fwd_ok; lia). by rewrite Nat2Z.inj_succ, Z.add_comm.
Qed.

Lemma memcpy_words_spec n m d s m' d' s' n' :
  mem_ok m -> fwd_ok d s (Z.of_nat n) -> memcpy_words m d s n = (m', d', s', n') ->
  exists k, (n = k + n')%nat /\ d' = d + Z.of_nat k /\ s' = s + Z.of_nat k /\
            m' =m= copy m d s (Z.of_nat k).
Proof.
  unfold fwd_ok. revert m d s. induction n as [n Hn|n IH] using nat_ind8; intros m d s Hm Hf H.
  - assert (memcpy_words m d s n = (m, d, s, n)) as H'
      by (do 8 (destruct n as [|n]; [done|]); lia).
    rewrite H' in H. simplify_eq. exists 0%nat. repeat split; try lia.
    intros x. unfold copy. case_decide; [lia|done].
  - simpl in H. destruct (IH (store64 m d (load64 m s)) (d + 8) (s + 8)) as (k & -> & -> & -> & Hm');
      [unfold store64; auto with kernel | lia | done |].
    exists (8 + k)%nat. repeat split; try lia. rewrite Hm', store64_copy by done.
    rewrite copy_copy by (unfold fwd_ok; lia). by rewrite Nat2Z.inj_add.
Qed.

(** [memcpy] copies exactly [num] bytes whenever a forward copy can. *)
Lemma memcpy_copy m d s num :
  mem_ok m -> 0 <= num -> fwd_ok d s num -> memcpy m d s num =m= copy m d s num.
Proof.
  intros Hm Hnum Hf. unfold memcpy. destruct (num <? 8) eqn:E.
  - rewrite memcpy_bytes_copy; rewrite ?Z2Nat.id by lia; try done.
  - destruct (memcpy_align _ _ _ _) as [[[m1 d1] s1] n1] eqn:E1.
    destruct (memcpy_words _ _ _ _) as [[[m2 d2] s2] n2] eqn:E2.
    apply memcpy_align_spec in E1 as (k1 & Hk1 & -> & -> & Hm1); [|done|rewrite Z2Nat.id by lia; done].
    assert (mem_ok m1) as Hok1 by (eapply mem_eq_ok; [symmetry; exact Hm1|by apply copy_ok]).
    unfold fwd_ok in *.
    apply memcpy_words_spec in E2 as (k2 & -> & -> & -> & Hm2); [|done|unfold fwd_ok; lia].
    assert (mem_ok m2) as Hok2 by (eapply mem_eq_ok; [symmetry; exact Hm2|by apply copy_ok]).
    rewrite memcpy_bytes_copy by (try done; unfold fwd_ok; lia).
    rewrite Hm2, Hm1. rewrite copy_copy by (unfold fwd_ok; lia).
    replace (d + Z.of_nat k1 + Z.of_nat k2) with (d + (Z.of_nat k1 + Z.of_nat k2)) by lia.
    replace (s + Z.of_nat k1 + Z.of_nat k2) with (s + (Z.of_nat k1 + Z.of_nat k2)) by lia.
    rewrite copy_copy by (unfold fwd_ok; lia).
    replace num with (Z.of_nat k1 + (Z.of_nat k2 + Z.of_nat n2)) by lia. reflexivity.
Qed.

Lemma memcpy_to m d src n :
  mem_ok m -> 0 <= n -> d + n <= src \/ src + n <= d ->
  mem_ok (memcpy m d src n) /\ forall x, memcpy m d src n x = if decide (d <= x < d + n) then m (src + (x - d)) else m x.
Proof.
  intros Hm Hn Hd. assert (memcpy m d src n =m= copy m d src n) as He by (apply memcpy_copy; [done|lia|unfold fwd_ok; lia]).
  split; [|intros x; apply He]. intros x. rewrite (He x). unfold copy. case_decide; apply Hm.
Qed.

(** ** Strings *)

Lemma cstr_end m s l : cstr m s l -> m (s + Z.of_nat (length l)) = 0.
Proof.
  revert s. induction l as [|c l IH]; intros s; simpl.
  - by rewrite Z.add_0_r.
  - intros (_ & _ & H). apply IH in H. by replace (s + _) with (s + 1 + Z.of_nat (length l)) by lia.
Qed.

Lemma cstr_nth m s l i c : cstr m s l -> l !! i = Some c -> m (s + Z.of_nat i) = c /\ 0 < c < 256.
Proof.
  revert s i. induction l as [|c' l IH]; intros s [|i] H Hi; simpl in *; simplify_eq.
  - rewrite Z.add_0_r. tauto.
  - destruct H as (_ & _ & H). destruct (IH _ _ H Hi) as [H1 H2].
    by replace (s + _) with (s + 1 + Z.of_nat i) by lia.
Qed.

Lemma strlen_length m s l : cstr m s l -> strlen (S (length l)) m s = Some (Z.of_nat (length l)).
Proof.
  intros H. unfold strlen.
  destruct (loop_total (fun len => 0 <= len <= Z.of_nat (length l))
              (fun len => length l - Z.to_nat len)%nat
              (fun r => r = Z.of_nat (length l))
              (fun len => if negb (load8 m (s + len) =? 0) then inl (len + 1) else inr len))
    with (fuel := S (length l)) (s := 0) as (r & Hr & ->); try done; try lia.
  intros len Hlen. unfold load8. pose proof (cstr_end _ _ _ H) as Hend.
  destruct (l !! Z.to_nat len) as [c|] eqn:Hc.
  - destruct (cstr_nth _ _ _ _ _ H Hc) as [Hm Hr]. apply lookup_lt_Some in Hc.
    rewrite Z2Nat.id in Hm by lia. rewrite Hm.
    destruct (c =? 0) eqn:E; simpl; simpl_bool; lia.
  - apply lookup_ge_None in Hc. replace len with (Z.of_nat (length l)) by lia.
    by rewrite Hend.
Qed.

(** The comparison loop stops at the first position where the strings differ
    under [f] or the first one ends. *)
Lemma cmp_loop_spec f m s1 s2 l1 l2 :
  (f 0 = 0 /\ forall c, 0 < c < 256 -> 0 < f c < 256) ->
  cstr m s1 l1 -> cstr m s2 l2 ->
  exists r1 r2, cmp_loop (S (length l1)) f m s1 s2 = Some (r1, r2) /\
    0 <= f (m r1) < 256 /\ 0 <= f (m r2) < 256 /\ (f (m r1) = f (m r2) <-> f <$> l1 = f <$> l2).
Proof.
  intros [Hf0 Hf]. unfold cmp_loop. revert s1 s2 l2.
  induction l1 as [|c1 l1 IH]; intros s1 s2 l2 H1 H2; simpl in H1.
  - simpl. unfold load8. rewrite H1. simpl. exists s1, s2. rewrite H1.
    split; [done|]. destruct l2 as [|c2 l2]; simpl in H2.
    + rewrite H2, Hf0. repeat split; lia.
    + destruct H2 as (-> & Hc2 & _). pose proof (Hf _ Hc2). rewrite Hf0.
      split; [lia|]. split; [lia|]. split; [lia|]. done.
  - destruct H1 as (Hs1 & Hc1 & H1). cbn [length loop]. unfold load8 at 1 2 3. rewrite Hs1.
    pose proof (Hf _ Hc1).
    rewrite (proj2 (Z.eqb_neq c1 0)) by lia. simpl.
    destruct (f c1 =? f (m s2)) eqn:E; simpl_bool.
    + destruct l2 as [|c2 l2]; simpl in H2.
      { rewrite H2, Hf0 in E. lia. }
      destruct H2 as (Hs2 & Hc2 & H2). destruct (IH (s1 + 1) (s2 + 1) l2 H1 H2) as (r1 & r2 & Hl & ? & ? & Hiff).
      exists r1, r2. split; [done|]. split; [lia|]. split; [lia|]. rewrite Hiff. rewrite Hs2 in E.
      rewrite !fmap_cons, E. split; [by intros Hq; f_equal|by intros [= ?]].
    + exists s1, s2. rewrite Hs1. split; [done|].
      destruct l2 as [|c2 l2]; simpl in H2.
      * rewrite H2, Hf0 in *. split; [lia|]. split; [lia|]. split; [lia|done].
      * destruct H2 as (Hs2 & Hc2 & H2). rewrite Hs2 in *. pose proof (Hf _ Hc2).
        split; [lia|]. split; [lia|]. split; [lia|]. intros Hd. rewrite !fmap_cons in Hd. injection Hd. lia.
Qed.

Lemma tolower_char c : 0 < c < 256 -> 0 < tolower c < 256.
Proof. intros. unfold tolower. destruct (65 <=? c) eqn:E1, (c <=? 90) eqn:E2; simpl; simpl_bool; lia. Qed.

Lemma strcmp_spec m s1 s2 l1 l2 :
  cstr m s1 l1 -> cstr m s2 l2 ->
  exists r, strcmp (S (length l1)) m s1 s2 = Some r /\ - 256 < r < 256 /\ (r = 0 <-> l1 = l2).
Proof.
  intros H1 H2. unfold strcmp.
  destruct (cmp_loop_spec id m s1 s2 l1 l2 ltac:(split; [done|tauto]) H1 H2)
    as (r1 & r2 & -> & Hr1 & Hr2 & Hiff).
  simpl. eexists. split; [done|]. unfold load8, id in *. rewrite !list_fmap_id in Hiff.
  rewrite <- Hiff. lia.
Qed.

Lemma strcasecmp_spec m s1 s2 l1 l2 :
  cstr m s1 l1 -> cstr m s2 l2 ->
  exists r, strcasecmp (S (length l1)) m s1 s2 = Some r /\ - 256 < r < 256 /\
            (r = 0 <-> tolower <$> l1 = tolower <$> l2).
Proof.
  intros H1 H2. unfold strcasecmp.
  destruct (cmp_loop_spec tolower m s1 s2 l1 l2 (conj eq_refl tolower_char) H1 H2)
    as (r1 & r2 & -> & Hr1 & Hr2 & Hiff).
  simpl. eexists. split; [done|]. unfold load8. rewrite !u8_small by done.
  rewrite <- Hiff. lia.
Qed.

Lemma cstr_ext m1 m2 s l :
  (forall x, s <= x <= s + Z.of_nat (length l) -> m1 x = m2 x) -> cstr m1 s l -> cstr m2 s l.
Proof.
  revert s. induction l as [|c l IH]; intros s He H; simpl in *.
  - rewrite <- He; [done|lia].
  - destruct H as (Hs & Hc & H). split; [rewrite <- He by lia; done|]. split; [done|].
    apply IH; [|done]. intros x Hx. apply He. lia.
Qed.

(** After [strcpy] the destination holds the source string. *)
Lemma strcpy_spec m d s l :
  cstr m s l -> d + Z.of_nat (length l) < s \/ s + Z.of_nat (length l) < d ->
  exists m', strcpy (S (length l)) m d s = Some m' /\ cstr m' d l /\
             forall x, x < d \/ d + Z.of_nat (length l) < x -> m' x = m x.
Proof.
  unfold strcpy. revert m d s. induction l as [|c l IH]; intros m d s H Hdis; simpl in H, Hdis.
  - simpl. unfold load8. rewrite H. simpl. eexists. split; [done|]. split.
    + apply store8_same.
    + intros x Hx. apply store8_other. lia.
  - destruct H as (Hs & Hc & H). cbn [length loop]. unfold load8 at 1 2. rewrite Hs.
    rewrite u8_small, (proj2 (Z.eqb_neq c 0)) by lia. simpl.
    destruct (IH (store8 m d c) (d + 1) (s + 1)) as (m' & Hm' & Hcs & Hfr); [|lia|].
    + apply (cstr_ext m); [|done]. intros x Hx. symmetry. apply store8_other. lia.
    + exists m'. split; [done|]. split.
      * simpl. split; [|done]. rewrite Hfr, store8_same by lia. apply u8_small. lia.
      * intros x Hx. rewrite Hfr by lia. apply store8_other. lia.
Qed.

(** [strncpy] fills exactly [n] bytes: the first [n] characters of the source,
    padded with zeros. *)
Lemma strncpy_spec m d s l n :
  cstr m s l -> 0 <= n -> d + n <= s \/ s + Z.of_nat (length l) < d ->
  forall x, strncpy m d s n x =
    if decide (d <= x < d + n) then nth (Z.to_nat (x - d)) l 0 else m x.
Proof.
  intros H Hn. unfold strncpy. assert (exists k, n = Z.of_nat k) as [k Hk] by (exists (Z.to_nat n); lia).
  subst n. rewrite Nat2Z.id. clear Hn. revert m d s l H. induction k as [|k IH]; intros m d s l H Hdis x; simpl.
  - case_decide; [lia|done].
  - destruct l as [|c l]; simpl in H.
    + unfold load8. rewrite H. simpl. rewrite memset_bytes_fill. unfold fill, store8.
      destruct (x =? d) eqn:E; simpl_bool; repeat case_decide; try done; try lia;
        by destruct (Z.to_nat (x - d)).
    + destruct H as (Hs & Hc & H). unfold load8. rewrite Hs, (proj2 (Z.eqb_neq c 0)) by lia. simpl.
      rewrite IH with (l := l); [| |simpl in Hdis; lia].
      * unfold store8. rewrite u8_small by lia.
        destruct (x =? d) eqn:E; simpl_bool; repeat case_decide; try lia; try done.
        -- subst. by rewrite Z.sub_diag.
        -- replace (Z.to_nat (x - d)) with (S (Z.to_nat (x - (d + 1)))) by lia. done.
      * apply (cstr_ext m); [|done]. intros y Hy. symmetry. apply store8_other. simpl in Hdis. lia.
Qed.

Lemma memcmp_bytes_spec n m p1 p2 :
  memcmp_bytes m p1 p2 n = 0 <-> forall i, 0 <= i < Z.of_nat n -> m (p1 + i) = m (p2 + i).
Proof.
  revert p1 p2. induction n as [|n IH]; intros p1 p2; simpl.
  - split; [lia|done].
  - unfold load8. destruct (m p1 =? m p2) eqn:E; simpl; simpl_bool.
    + rewrite IH. split; intros H i Hi.
      * destruct (decide (i = 0)) as [He|He]; [subst; by rewrite !Z.add_0_r|].
        specialize (H (i - 1) ltac:(lia)).
        by replace (p1 + 1 + (i - 1)) with (p1 + i) in H by lia;
           replace (p2 + 1 + (i - 1)) with (p2 + i) in H by lia.
      * replace (p1 + 1 + i) with (p1 + (i + 1)) by lia.
        replace (p2 + 1 + i) with (p2 + (i + 1)) by lia. apply H. lia.
    + split; [lia|]. intros H. specialize (H 0 ltac:(lia)). rewrite !Z.add_0_r in H. lia.
Qed.

(** ** Properties *)

(** [memset], which stores bytes up to the first aligned address, then
    whole words, then the remaining bytes, is the byte-wise fill: the [num]
    bytes at [ptr] become the low byte of [value] and no other byte changes,
    for every alignment and length. *)
Theorem memset_correct m ptr value num :
  0 <= num ->
  forall x, memset m ptr value num x =
    (if decide (ptr <= x < ptr + num) then u8 value else m x).
Proof. intros H x. apply (memset_fill m ptr value num H). Qed.

Lemma memset_correct_witness :
  0 <= 21 /\ memset (fun _ => 7) 3 0x1AB 21 10 = 0xAB /\ memset (fun _ => 7) 3 0x1AB 21 24 = 7.
Proof.
  split; [lia|]. split.
  - rewrite (memset_correct (fun _ => 7) 3 0x1AB 21 ltac:(lia)). reflexivity.
  - rewrite (memset_correct (fun _ => 7) 3 0x1AB 21 ltac:(lia)). reflexivity.
Defined.

(** [memcpy] copies the [num] bytes at [src] to [dest] and changes nothing
    else, for every alignment, whenever the destination does not start inside
    the source above its first byte (so also for downward overlapping
    moves). *)
Theorem memcpy_correct m dest src num :
  mem_ok m -> 0 <= num -> dest <= src \/ src + num <= dest ->
  forall x, memcpy m dest src num x =
    (if decide (dest <= x < dest + num) then m (src + (x - dest)) else m x).
Proof. intros Hm Hn Hd x. apply (memcpy_copy m dest src num Hm Hn Hd). Qed.

Lemma memcpy_correct_witness :
  memcpy (fun x => x mod 256) 5 9 20 7 = 11 /\ memcpy (fun x => x mod 256) 5 9 20 30 = 30.
Proof.
  assert (mem_ok (fun x => x mod 256)) as Hm by (intros x; apply Z.mod_pos_bound; lia).
  split.
  - rewrite (memcpy_correct _ 5 9 20 Hm ltac:(lia) ltac:(lia)). reflexivity.
  - rewrite (memcpy_correct _ 5 9 20 Hm ltac:(lia) ltac:(lia)). reflexivity.
Defined.

(** On terminated strings the scanning functions return (one iteration
    more than the first string is long is enough) and are right: [strlen] is
    the length, [strcmp] is zero exactly for equal strings, [strcasecmp]
    exactly for strings equal up to ASCII case, and [memcmp] exactly for equal
    regions. *)
Theorem string_compare_correct m s1 s2 l1 l2 :
  cstr m s1 l1 -> cstr m s2 l2 ->
  strlen (S (length l1)) m s1 = Some (Z.of_nat (length l1)) /\
  (exists r, strcmp (S (length l1)) m s1 s2 = Some r /\ (r = 0 <-> l1 = l2)) /\
  (exists r, strcasecmp (S (length l1)) m s1 s2 = Some r /\
             (r = 0 <-> tolower <$> l1 = tolower <$> l2)) /\
  (forall n, 0 <= n -> memcmp m s1 s2 n = 0 <->
             forall i, 0 <= i < n -> m (s1 + i) = m (s2 + i)).
Proof.
  intros H1 H2. split; [by apply strlen_length|].
  split; [destruct (strcmp_spec _ _ _ _ _ H1 H2) as (r & ? & _ & ?); by exists r|].
  split; [destruct (strcasecmp_spec _ _ _ _ _ H1 H2) as (r & ? & _ & ?); by exists r|].
  intros n Hn. unfold memcmp. rewrite memcmp_bytes_spec. by rewrite Z2Nat.id.
Qed.

Lemma string_compare_correct_witness :
  let m := store8 (store8 (store8 (store8 (fun _ => 0) 10 65) 11 98) 20 97) 21 66 in
  exists r, strcasecmp 3 m 10 20 = Some r /\ (r = 0 <-> tolower <$> [65; 98] = tolower <$> [97; 66]).
Proof.
  intros m.
  assert (cstr m 10 [65; 98]) as H1 by (vm_compute; repeat split; done).
  assert (cstr m 20 [97; 66]) as H2 by (vm_compute; repeat split; done).
  exact (proj1 (proj2 (proj2 (string_compare_correct m 10 20 [65; 98] [97; 66] H1 H2)))).
Defined.

(** [strcpy] to a disjoint buffer returns and leaves the source string in
    the buffer, nothing beyond the terminator written; [strncpy] writes
    exactly [n] bytes, the first [n] of the string padded with zeros (so no
    terminator when the string has [n] or more characters). *)
Theorem string_copy_correct m d s l n :
  cstr m s l -> d + Z.of_nat (length l) < s \/ s + Z.of_nat (length l) < d ->
  0 <= n -> d + n <= s \/ s + Z.of_nat (length l) < d ->
  (exists m', strcpy (S (length l)) m d s = Some m' /\ cstr m' d l /\
     forall x, x < d \/ d + Z.of_nat (length l) < x -> m' x = m x) /\
  (forall x, strncpy m d s n x =
     if decide (d <= x < d + n) then nth (Z.to_nat (x - d)) l 0 else m x).
Proof. intros H Hd Hn Hd'. split; [by apply strcpy_spec|by apply strncpy_spec]. Qed.

Lemma string_copy_correct_witness :
  let m := store8 (store8 (fun _ => 0) 10 65) 11 98 in
  strncpy m 30 10 4 31 = 98 /\ exists m', strcpy 3 m 30 10 = Some m' /\ cstr m' 30 [65; 98].
Proof.
  intros m. assert (cstr m 10 [65; 98]) as H by (vm_compute; repeat split; done).
  destruct (string_copy_correct m 30 10 [65; 98] 4 H ltac:(simpl; lia) ltac:(lia) ltac:(simpl; lia))
    as [(m' & Hm' & Hc & _) Hn].
  split; [rewrite Hn; reflexivity|]. by exists m'.
Defined.

End CString.
