(* ===== verification/Allocator.v ===== *)
(** * The interface of a memory allocator

    What the kernel's data structures rely on when they call [kmalloc] and
    [kfree]: a returned block is non-null, in the lower half of the addresses,
    at least as large as requested and
    disjoint from every live block, and freeing a live block removes exactly
    that block.  The heap discharges this interface; its clients are proved
    against it. *)
From S2P Require Import Prelude.

Class Allocator (A : Type) := {
  a_wf : A -> Prop;
  (** [a_live a p s]: a block of [s] bytes at [p] is allocated. *)
  a_live : A -> Z -> Z -> Prop;
  a_alloc : A -> Z -> option (A * Z);
  a_free : A -> Z -> option A;

  a_live_pos a p s : a_wf a -> a_live a p s -> 0 < p /\ 0 <= s;
  a_live_top a p s : a_wf a -> a_live a p s -> p + s < 2 ^ 63;
  a_live_disjoint a p s q t :
    a_wf a -> a_live a p s -> a_live a q t -> (p = q /\ s = t) \/ p + s <= q \/ q + t <= p;
  a_alloc_spec a n :
    a_wf a -> 0 < n < 2 ^ 63 ->
    exists a' p, a_alloc a n = Some (a', p) /\ a_wf a' /\
      ((p = 0 /\ forall q t, a_live a' q t <-> a_live a q t) \/
       (exists s, n <= s /\ (forall t, ~ a_live a p t) /\
          forall q t, a_live a' q t <-> (q = p /\ t = s) \/ a_live a q t));
  a_free_spec a p s :
    a_wf a -> a_live a p s ->
    exists a', a_free a p = Some a' /\ a_wf a' /\
      forall q t, a_live a' q t <-> a_live a q t /\ q <> p
}.

(** The allocator cannot serve a request of [n] bytes: it returns 0. *)
Definition no_room {A : Type} `{Allocator A} (a : A) (n : Z) : Prop := exists a', a_alloc a n = Some (a', 0).

Lemma alloc_room {A : Type} `{Allocator A} (a a' : A) n p : a_alloc a n = Some (a', p) -> no_room a n <-> p = 0.
Proof. intros E. split; [intros [b Hb]; congruence|]. intros ->. by exists a'. Qed.

(** By evaluation of the allocator. *)
Lemma has_room {A : Type} `{Allocator A} (a : A) n p : snd <$> a_alloc a n = Some p -> p <> 0 -> ~ no_room a n.
Proof. intros E Hp [a' Ha]. rewrite Ha in E. simpl in E. congruence. Qed.
