(* ===== verification/ListHead.v ===== *)
(** * Circular doubly linked lists (src/kernel/include/list.h)

    The store maps the address of every allocated [struct list_head] to its
    two fields; an access through an address outside the store (a null or
    dangling pointer) is [None].  [dlist st h l] says that the ring headed by
    [h] links exactly the nodes [l], in order, both ways. *)
From S2P Require Import Prelude.

Module ListHead.

(** ** Definitions *)

Record list_head := LH { next : Z; prev : Z }.

Definition get_next (st : gmap Z list_head) (a : Z) : option Z := next <$> st !! a.
Definition get_prev (st : gmap Z list_head) (a : Z) : option Z := prev <$> st !! a.

Definition set_next (st : gmap Z list_head) (a v : Z) : option (gmap Z list_head) :=
  n ← st !! a; Some (<[a := LH v (prev n)]> st).
Definition set_prev (st : gmap Z list_head) (a v : Z) : option (gmap Z list_head) :=
  n ← st !! a; Some (<[a := LH (next n) v]> st).

(** [INIT_LIST_HEAD] writes both fields, so it also initialises a node. *)
Definition INIT_LIST_HEAD (st : gmap Z list_head) (list : Z) : gmap Z list_head :=
  <[list := LH list list]> st.

Definition list_add_between (st : gmap Z list_head) (new prev next : Z) : option (gmap Z list_head) :=
  st ← set_prev st next new;
  st ← set_next st new next;
  st ← set_prev st new prev;
  set_next st prev new.

Definition list_add (st : gmap Z list_head) (new head : Z) : option (gmap Z list_head) :=
  n ← get_next st head; list_add_between st new head n.

Definition list_add_tail (st : gmap Z list_head) (new head : Z) : option (gmap Z list_head) :=
  p ← get_prev st head; list_add_between st new p head.

Definition list_del_between (st : gmap Z list_head) (prev next : Z) : option (gmap Z list_head) :=
  st ← set_prev st next prev; set_next st prev next.

Definition list_del (st : gmap Z list_head) (entry : Z) : option (gmap Z list_head) :=
  p ← get_prev st entry;
  n ← get_next st entry;
  st ← list_del_between st p n;
  st ← set_next st entry 0;
  set_prev st entry 0.

Definition list_empty (st : gmap Z list_head) (head : Z) : option bool :=
  n ← get_next st head; Some (n =? head).

(** [list_for_each(pos, head)]: the nodes visited, in order. *)
Definition list_for_each (fuel : nat) (st : gmap Z list_head) (head : Z) : option (list Z) :=
  mjoin (loop fuel (fun '(pos, seen) =>
    match pos with
    | None => inr None
    | Some p => if p =? head then inr (Some seen) else inl (get_next st p, seen ++ [p])
    end) (get_next st head, [])).

(** ** The list a ring represents *)

Definition links (st : gmap Z list_head) (a b : Z) : Prop :=
  get_next st a = Some b /\ get_prev st b = Some a.

Fixpoint linked (st : gmap Z list_head) (l : list Z) : Prop :=
  match l with
  | a :: ((b :: _) as r) => links st a b /\ linked st r
  | _ => True
  end.

Definition dlist (st : gmap Z list_head) (h : Z) (l : list Z) : Prop :=
  linked st (h :: l ++ [h]) /\ NoDup (h :: l).

(** ** Linked segments *)

Lemma linked_app st l1 a l2 : linked st (l1 ++ a :: l2) <-> linked st (l1 ++ [a]) /\ linked st (a :: l2).
Proof.
  induction l1 as [|x l1 IH]; [simpl; tauto|].
  destruct l1 as [|y l1]; simpl in *; [tauto|]. rewrite IH. tauto.
Qed.

Lemma linked_mid st l1 a b l2 :
  linked st (l1 ++ a :: b :: l2) <-> linked st (l1 ++ [a]) /\ links st a b /\ linked st (b :: l2).
Proof. rewrite linked_app. simpl. tauto. Qed.

(** A segment only depends on the [next] of all its nodes but the last and on
    the [prev] of all but the first. *)
Lemma linked_frame st st' l :
  (forall x, x ∈ removelast l -> get_next st' x = get_next st x) ->
  (forall x, x ∈ tail l -> get_prev st' x = get_prev st x) ->
  linked st l -> linked st' l.
Proof.
  induction l as [|a l IH]; [done|]. destruct l as [|b l]; [done|].
  intros Hn Hp [[H1 H2] H3]. split.
  - split; [rewrite Hn; [done|]|rewrite Hp; [done|]]; simpl; left.
  - apply IH; [| |done].
    + intros x Hx. apply Hn. simpl in *. by right.
    + intros x Hx. apply Hp. simpl in *. by right.
Qed.

(** ** Field updates *)

Lemma get_next_set_next st a v st' :
  set_next st a v = Some st' ->
  forall x, get_next st' x = (if decide (x = a) then Some v else get_next st x) /\
            get_prev st' x = get_prev st x.
Proof.
  unfold set_next, get_next, get_prev. intros H x.
  destruct (st !! a) as [n|] eqn:E; simplify_eq/=. rewrite lookup_insert.
  repeat case_decide; simplify_eq; by rewrite ?E.
Qed.

Lemma get_next_set_prev st a v st' :
  set_prev st a v = Some st' ->
  forall x, get_prev st' x = (if decide (x = a) then Some v else get_prev st x) /\
            get_next st' x = get_next st x.
Proof.
  unfold set_prev, get_next, get_prev. intros H x.
  destruct (st !! a) as [n|] eqn:E; simplify_eq/=. rewrite lookup_insert.
  repeat case_decide; simplify_eq; by rewrite ?E.
Qed.

Lemma set_next_total st a v : is_Some (st !! a) -> is_Some (set_next st a v).
Proof. intros [n Hn]. unfold set_next. rewrite Hn. by eexists. Qed.
Lemma set_prev_total st a v : is_Some (st !! a) -> is_Some (set_prev st a v).
Proof. intros [n Hn]. unfold set_prev. rewrite Hn. by eexists. Qed.

Lemma set_next_dom st a v st' x : set_next st a v = Some st' -> is_Some (st' !! x) <-> is_Some (st !! x).
Proof.
  unfold set_next. intros H. destruct (st !! a) as [n|] eqn:E; simplify_eq/=.
  rewrite lookup_insert. case_decide; subst; [rewrite E|]; split; eauto.
Qed.
Lemma set_prev_dom st a v st' x : set_prev st a v = Some st' -> is_Some (st' !! x) <-> is_Some (st !! x).
Proof.
  unfold set_prev. intros H. destruct (st !! a) as [n|] eqn:E; simplify_eq/=.
  rewrite lookup_insert. case_decide; subst; [rewrite E|]; split; eauto.
Qed.

(** ** Insertion *)

(** [__list_add] writes the four links and nothing else. *)
Lemma list_add_between_spec st new p n :
  is_Some (st !! new) -> is_Some (st !! p) -> is_Some (st !! n) -> new <> p -> new <> n ->
  exists st', list_add_between st new p n = Some st' /\
    (forall x, is_Some (st' !! x) <-> is_Some (st !! x)) /\
    (forall x, get_next st' x = if decide (x = p) then Some new
                                else if decide (x = new) then Some n else get_next st x) /\
    (forall x, get_prev st' x = if decide (x = new) then Some p
                                else if decide (x = n) then Some new else get_prev st x).
Proof.
  intros Hnew Hp Hn Hnp Hnn. unfold list_add_between.
  destruct (set_prev_total st n new Hn) as [s1 E1]. rewrite E1. simpl.
  destruct (set_next_total s1 new n) as [s2 E2]; [by rewrite (set_prev_dom _ _ _ _ _ E1)|]. rewrite E2. simpl.
  assert (forall x, is_Some (s2 !! x) <-> is_Some (st !! x)) as D2.
  { intros x. by rewrite (set_next_dom _ _ _ _ _ E2), (set_prev_dom _ _ _ _ _ E1). }
  destruct (set_prev_total s2 new p) as [s3 E3]; [by rewrite D2|]. rewrite E3. simpl.
  destruct (set_next_total s3 p new) as [s4 E4]; [by rewrite (set_prev_dom _ _ _ _ _ E3), D2|].
  exists s4. split; [done|]. split.
  { intros x. by rewrite (set_next_dom _ _ _ _ _ E4), (set_prev_dom _ _ _ _ _ E3). }
  split; intros x; destruct (get_next_set_next _ _ _ _ E4 x) as [N4 P4];
    destruct (get_next_set_prev _ _ _ _ E3 x) as [P3 N3];
    destruct (get_next_set_next _ _ _ _ E2 x) as [N2 P2];
    destruct (get_next_set_prev _ _ _ _ E1 x) as [P1 N1].
  - rewrite N4, N3, N2, N1. done.
  - rewrite P4, P3, P2, P1. done.
Qed.

Lemma lookup_fields st st' x :
  (is_Some (st' !! x) <-> is_Some (st !! x)) -> get_next st' x = get_next st x ->
  get_prev st' x = get_prev st x -> st' !! x = st !! x.
Proof.
  unfold get_next, get_prev. intros Hd Hn Hp.
  destruct (st' !! x) as [[n1 p1]|] eqn:E1, (st !! x) as [[n2 p2]|] eqn:E2; simplify_eq/=; try done.
Qed.

Lemma linked_present st l x : linked st l -> (2 <= length l)%nat -> x ∈ l -> is_Some (st !! x).
Proof.
  induction l as [|a l IH]; [simpl; lia|]. destruct l as [|b l]; [simpl; lia|].
  intros [[H1 H2] H3] _ Hx. unfold get_next, get_prev in *.
  apply elem_of_cons in Hx as [->|Hx]; [destruct (st !! a); [by eexists|done]|].
  destruct l as [|c l].
  - apply list_elem_of_singleton in Hx as ->. destruct (st !! b); [by eexists|done].
  - apply IH; [done|simpl; lia|done].
Qed.

Lemma dlist_present st h l x : dlist st h l -> x ∈ h :: l -> is_Some (st !! x).
Proof.
  intros [Hl _] Hx. apply (linked_present st (h :: l ++ [h])); [done|rewrite length_cons, length_app; simpl; lia|].
  set_solver.
Qed.

(** The last node of [h :: l1] and the first of [l2 ++ [h]]: the neighbours of
    the gap between [l1] and [l2] in the ring. *)
Definition before (h : Z) (l1 : list Z) : Z := List.last (h :: l1) h.
Definition after (h : Z) (l2 : list Z) : Z := List.hd h l2.

Lemma before_snoc h l1 : h :: l1 = removelast (h :: l1) ++ [before h l1].
Proof. apply app_removelast_last. done. Qed.

Lemma after_cons h l2 : l2 ++ [h] = after h l2 :: tail (l2 ++ [h]).
Proof. by destruct l2. Qed.

Lemma ring_split h l1 l2 :
  h :: (l1 ++ l2) ++ [h] =
  removelast (h :: l1) ++ before h l1 :: after h l2 :: tail (l2 ++ [h]).
Proof.
  rewrite <- app_assoc, (after_cons h l2). change (h :: l1 ++ ?k) with ((h :: l1) ++ k).
  rewrite (before_snoc h l1) at 1. by rewrite <- app_assoc.
Qed.

Lemma ring_insert_split h l1 l2 new :
  h :: (l1 ++ new :: l2) ++ [h] =
  removelast (h :: l1) ++ before h l1 :: new :: after h l2 :: tail (l2 ++ [h]).
Proof.
  rewrite <- app_assoc. simpl. rewrite (after_cons h l2). change (h :: l1 ++ ?k) with ((h :: l1) ++ k).
  rewrite (before_snoc h l1) at 1. by rewrite <- app_assoc.
Qed.

(** In a duplicate-free ring, the gap's left neighbour is not among the nodes
    before it, nor among those after it except as the closing head. *)
Lemma before_notin h l1 l2 :
  NoDup (h :: l1 ++ l2) -> before h l1 ∉ removelast (h :: l1) /\ before h l1 ∉ l2.
Proof.
  intros Hnd. change (h :: l1 ++ l2) with ((h :: l1) ++ l2) in Hnd.
  rewrite (before_snoc h l1) in Hnd. rewrite <- app_assoc in Hnd. simpl in Hnd.
  apply NoDup_app in Hnd as (_ & Hd & Hnd). apply NoDup_cons in Hnd as [Hn _].
  split; [|done]. intros Hin. apply (Hd _ Hin). left.
Qed.

Lemma after_notin h l1 l2 :
  NoDup (h :: l1 ++ l2) -> after h l2 ∉ l1 /\ after h l2 ∉ tail l2.
Proof.
  intros Hnd. apply NoDup_cons in Hnd as [Hh Hnd]. apply NoDup_app in Hnd as (_ & Hd & H2).
  destruct l2 as [|n l2]; simpl.
  - split; [set_solver|]. apply not_elem_of_nil.
  - apply NoDup_cons in H2 as [Hn _]. split; [|done]. intros Hin. apply (Hd _ Hin). left.
Qed.

Lemma removelast_app1 (l : list Z) x : removelast (l ++ [x]) = l.
Proof. apply removelast_last. Qed.

Lemma elem_of_removelast (l : list Z) x : x ∈ removelast l -> x ∈ l.
Proof.
  destruct (decide (l = [])) as [->|Hne]; [done|].
  rewrite (app_removelast_last 0 Hne) at 2. set_solver.
Qed.

Lemma tail_snoc h (l2 : list Z) x : x ∈ tail (l2 ++ [h]) -> x ∈ tail l2 \/ (x = h /\ l2 <> []).
Proof. destruct l2; simpl; [by intros ?%not_elem_of_nil|]. set_solver. Qed.

Lemma removelast_tail h (l2 : list Z) x :
  x ∈ removelast (after h l2 :: tail (l2 ++ [h])) -> x ∈ l2.
Proof. rewrite <- after_cons, removelast_app1. done. Qed.

Lemma tail_ring h l1 : tail (removelast (h :: l1) ++ [before h l1]) = l1.
Proof. by rewrite <- before_snoc. Qed.

Lemma before_in h l1 : before h l1 ∈ h :: l1.
Proof. rewrite (before_snoc h l1). set_solver. Qed.

Lemma after_in h l2 : after h l2 ∈ h :: l2.
Proof. destruct l2; simpl; set_solver. Qed.

(** Inserting into the gap between [l1] and [l2]. *)
Lemma dlist_insert st h l1 l2 new :
  dlist st h (l1 ++ l2) -> is_Some (st !! new) -> new ∉ h :: l1 ++ l2 ->
  exists st', list_add_between st new (before h l1) (after h l2) = Some st' /\
    dlist st' h (l1 ++ new :: l2) /\
    (forall x, x ∉ new :: h :: l1 ++ l2 -> st' !! x = st !! x).
Proof.
  intros Hdl Hnew Hni. pose proof (before_in h l1) as Hbi. pose proof (after_in h l2) as Hai.
  assert (new <> before h l1) by set_solver. assert (new <> after h l2) by set_solver.
  destruct (list_add_between_spec st new (before h l1) (after h l2)) as (st' & Hadd & Hdom & HN & HP);
    [done | apply (dlist_present _ _ _ _ Hdl); set_solver.. | done | done |].
  exists st'. split; [done|]. destruct Hdl as [Hl Hnd].
  pose proof (before_notin _ _ _ Hnd) as [Hb1 Hb2]. pose proof (after_notin _ _ _ Hnd) as [Ha1 Ha2].
  apply NoDup_cons in Hnd as [Hh Hnd].
  rewrite ring_split, linked_mid in Hl. destruct Hl as (Hl1 & _ & Hl2). split.
  - split; [|apply NoDup_cons; split; [set_solver|];
             apply NoDup_app in Hnd as (? & ? & ?); apply NoDup_app; repeat split; [done| |];
             [set_solver | apply NoDup_cons; set_solver]].
    rewrite ring_insert_split, linked_mid. split; [|split; [split|]].
    + revert Hl1. apply linked_frame; intros x Hx.
      * rewrite removelast_app1 in Hx. rewrite HN. apply elem_of_removelast in Hx as Hx'.
        rewrite !decide_False; [done|set_solver|set_solver].
      * rewrite tail_ring in Hx. rewrite HP. rewrite !decide_False; [done|set_solver|set_solver].
    + rewrite HN, decide_True; done.
    + rewrite HP, decide_True; done.
    + split; [split|].
      * rewrite HN, decide_False, decide_True; done.
      * rewrite HP, decide_False, decide_True; done.
      * revert Hl2. apply linked_frame; intros x Hx.
        -- apply removelast_tail in Hx. rewrite HN, !decide_False; [done|set_solver|set_solver].
        -- simpl in Hx. rewrite HP. apply tail_snoc in Hx as Hx'.
           rewrite !decide_False; [done| |].
           all: destruct l2; simpl in *; set_solver.
  - intros x Hx. apply lookup_fields; [by apply Hdom| |].
    + rewrite HN, !decide_False; set_solver.
    + rewrite HP, !decide_False; set_solver.
Qed.

(** The links across any gap of the ring. *)
Lemma dlist_gap st h l1 l2 :
  dlist st h (l1 ++ l2) ->
  get_next st (before h l1) = Some (after h l2) /\ get_prev st (after h l2) = Some (before h l1).
Proof. intros [Hl _]. rewrite ring_split, linked_mid in Hl. apply Hl. Qed.

Lemma dlist_first st h l : dlist st h l -> get_next st h = Some (after h l).
Proof. intros H. apply (dlist_gap st h [] l H). Qed.

Lemma dlist_last st h l : dlist st h l -> get_prev st h = Some (before h l).
Proof. intros H. apply (dlist_gap st h l []). by rewrite app_nil_r. Qed.

Lemma list_add_dlist st h l new :
  dlist st h l -> is_Some (st !! new) -> new ∉ h :: l ->
  exists st', list_add st new h = Some st' /\ dlist st' h (new :: l) /\
    (forall x, x ∉ new :: h :: l -> st' !! x = st !! x).
Proof.
  intros H Hs Hn. unfold list_add. rewrite (dlist_first _ _ _ H). simpl.
  apply (dlist_insert st h [] l new); done.
Qed.

Lemma list_add_tail_dlist st h l new :
  dlist st h l -> is_Some (st !! new) -> new ∉ h :: l ->
  exists st', list_add_tail st new h = Some st' /\ dlist st' h (l ++ [new]) /\
    (forall x, x ∉ new :: h :: l -> st' !! x = st !! x).
Proof.
  intros H Hs Hn. unfold list_add_tail. rewrite (dlist_last _ _ _ H). simpl.
  destruct (dlist_insert st h l [] new) as (st' & ? & ? & ?); rewrite ?app_nil_r; try done.
  exists st'. rewrite app_nil_r in *. done.
Qed.

(** [list_add_tail(new, pos)] on a member [pos] inserts just before it. *)
Lemma list_add_tail_before st h l1 pos l2 new :
  dlist st h (l1 ++ pos :: l2) -> is_Some (st !! new) -> new ∉ h :: l1 ++ pos :: l2 ->
  exists st', list_add_tail st new pos = Some st' /\ dlist st' h (l1 ++ new :: pos :: l2) /\
    (forall x, x ∉ new :: h :: l1 ++ pos :: l2 -> st' !! x = st !! x).
Proof.
  intros H Hs Hn. unfold list_add_tail.
  destruct (dlist_gap st h l1 (pos :: l2) H) as [_ Hp]. simpl in Hp. rewrite Hp. simpl.
  apply (dlist_insert st h l1 (pos :: l2) new); done.
Qed.

(** [list_add(new, pos->prev)] also inserts just before [pos]. *)
Lemma list_add_prev_before st h l1 pos l2 new :
  dlist st h (l1 ++ pos :: l2) -> is_Some (st !! new) -> new ∉ h :: l1 ++ pos :: l2 ->
  exists p st', get_prev st pos = Some p /\ list_add st new p = Some st' /\
    dlist st' h (l1 ++ new :: pos :: l2) /\
    (forall x, x ∉ new :: h :: l1 ++ pos :: l2 -> st' !! x = st !! x).
Proof.
  intros H Hs Hn. destruct (dlist_gap st h l1 (pos :: l2) H) as [Hnx Hp]. simpl in *.
  exists (before h l1). unfold list_add. rewrite Hnx. simpl.
  destruct (dlist_insert st h l1 (pos :: l2) new) as (st' & ? & ? & ?); try done. by exists st'.
Qed.

(** ** Deletion *)

Lemma list_del_spec st e p n :
  get_prev st e = Some p -> get_next st e = Some n -> is_Some (st !! p) -> is_Some (st !! n) ->
  exists st', list_del st e = Some st' /\
    (forall x, is_Some (st' !! x) <-> is_Some (st !! x)) /\
    (forall x, get_next st' x = if decide (x = e) then Some 0
                                else if decide (x = p) then Some n else get_next st x) /\
    (forall x, get_prev st' x = if decide (x = e) then Some 0
                                else if decide (x = n) then Some p else get_prev st x).
Proof.
  intros Hp Hn Sp Sn. unfold list_del, list_del_between. rewrite Hp, Hn. simpl.
  assert (is_Some (st !! e)) as Se by (unfold get_prev in Hp; destruct (st !! e); [by eexists|done]).
  destruct (set_prev_total st n p Sn) as [s1 E1]. rewrite E1. simpl.
  destruct (set_next_total s1 p n) as [s2 E2]; [by rewrite (set_prev_dom _ _ _ _ _ E1)|]. rewrite E2. simpl.
  assert (forall x, is_Some (s2 !! x) <-> is_Some (st !! x)) as D2.
  { intros x. by rewrite (set_next_dom _ _ _ _ _ E2), (set_prev_dom _ _ _ _ _ E1). }
  destruct (set_next_total s2 e 0) as [s3 E3]; [by rewrite D2|]. rewrite E3. simpl.
  destruct (set_prev_total s3 e 0) as [s4 E4]; [by rewrite (set_next_dom _ _ _ _ _ E3), D2|].
  exists s4. split; [done|]. split.
  { intros x. by rewrite (set_prev_dom _ _ _ _ _ E4), (set_next_dom _ _ _ _ _ E3). }
  split; intros x; destruct (get_next_set_prev _ _ _ _ E4 x) as [P4 N4];
    destruct (get_next_set_next _ _ _ _ E3 x) as [N3 P3];
    destruct (get_next_set_next _ _ _ _ E2 x) as [N2 P2];
    destruct (get_next_set_prev _ _ _ _ E1 x) as [P1 N1].
  - by rewrite N4, N3, N2, N1.
  - by rewrite P4, P3, P2, P1.
Qed.

Lemma list_del_dlist st h l1 e l2 :
  dlist st h (l1 ++ e :: l2) ->
  exists st', list_del st e = Some st' /\ dlist st' h (l1 ++ l2) /\ st' !! e = Some (LH 0 0) /\
    (forall x, x ∉ h :: l1 ++ e :: l2 -> st' !! x = st !! x).
Proof.
  intros Hdl. destruct (dlist_gap st h l1 (e :: l2) Hdl) as [_ Hp]. simpl in Hp.
  assert (before h (l1 ++ [e]) = e) as Hbe by apply (List.last_last (h :: l1)).
  assert (get_next st e = Some (after h l2)) as Hn.
  { destruct (dlist_gap st h (l1 ++ [e]) l2) as [Hn _]; [by rewrite <- app_assoc|].
    by rewrite Hbe in Hn. }
  pose proof (before_in h l1) as Hbi. pose proof (after_in h l2) as Hai.
  destruct (list_del_spec st e _ _ Hp Hn) as (st' & Hdel & Hdom & HN & HP);
    [apply (dlist_present _ _ _ _ Hdl); set_solver..|].
  exists st'. split; [done|]. destruct Hdl as [Hl Hnd].
  assert (e <> before h l1 /\ e <> after h l2 /\ NoDup (h :: l1 ++ l2) /\ e ∉ h :: l1 ++ l2) as (Hb & Ha & Hnd' & He).
  { change (h :: l1 ++ e :: l2) with ((h :: l1) ++ e :: l2) in Hnd.
    pose proof (proj2 (before_notin h l1 (e :: l2) Hnd)).
    rewrite (Permutation_middle (h :: l1) l2 e) in Hnd || rewrite <- Permutation_middle in Hnd.
    apply NoDup_cons in Hnd as [He Hnd]. split; [set_solver|].
    split; [|done]. intros ->. set_solver. }
  pose proof (before_notin _ _ _ Hnd') as [Hb1 Hb2]. pose proof (after_notin _ _ _ Hnd') as [Ha1 Ha2].
  rewrite ring_insert_split, linked_mid in Hl. destruct Hl as (Hl1 & _ & [_ Hl2]).
  split; [split; [|done]|split].
  - rewrite ring_split, linked_mid. split; [|split; [split|]].
    + revert Hl1. apply linked_frame; intros x Hx.
      * rewrite removelast_app1 in Hx. apply elem_of_removelast in Hx as Hx'.
        rewrite HN, !decide_False; [done|set_solver|set_solver].
      * rewrite tail_ring in Hx. rewrite HP, !decide_False; [done|set_solver|set_solver].
    + rewrite HN, decide_False, decide_True; done.
    + rewrite HP, decide_False, decide_True; done.
    + revert Hl2. apply linked_frame; intros x Hx.
      * apply removelast_tail in Hx. rewrite HN, !decide_False; [done|set_solver|set_solver].
      * simpl in Hx. apply tail_snoc in Hx as Hx'. rewrite HP, !decide_False; [done| |];
          apply NoDup_cons in Hnd' as [Hh _]; destruct l2; simpl in *; set_solver.
  - pose proof (HN e) as He1. pose proof (HP e) as He2. rewrite !decide_True in He1, He2 by done.
    unfold get_next, get_prev in *. destruct (st' !! e) as [[? ?]|]; simplify_eq/=. done.
  - intros x Hx. apply lookup_fields; [by apply Hdom| |].
    + rewrite HN, !decide_False; set_solver.
    + rewrite HP, !decide_False; set_solver.
Qed.

(** ** Traversal *)

Definition for_each_step (st : gmap Z list_head) (head : Z) :
    option Z * list Z -> (option Z * list Z) + option (list Z) :=
  fun '(pos, seen) =>
    match pos with
    | None => inr None
    | Some p => if p =? head then inr (Some seen) else inl (get_next st p, seen ++ [p])
    end.

Lemma for_each_from st h l1 l2 :
  dlist st h (l1 ++ l2) ->
  loop (S (length l2)) (for_each_step st h) (Some (after h l2), l1) = Some (Some (l1 ++ l2)).
Proof.
  revert l1. induction l2 as [|p l2 IH]; intros l1 H.
  - simpl. by rewrite Z.eqb_refl, app_nil_r.
  - assert (p <> h) as Hne.
    { destruct H as [_ Hnd]. apply NoDup_cons in Hnd as [Hh _]. set_solver. }
    cbn [length loop for_each_step after List.hd]. rewrite (proj2 (Z.eqb_neq p h) Hne).
    assert (get_next st p = Some (after h l2)) as ->.
    { destruct (dlist_gap st h (l1 ++ [p]) l2) as [Hn _]; [by rewrite <- app_assoc|].
      by rewrite (List.last_last (h :: l1) p h : before h (l1 ++ [p]) = p) in Hn. }
    cbn [length loop] in IH. rewrite IH; rewrite <- app_assoc; done.
Qed.

Lemma list_for_each_dlist st h l :
  dlist st h l -> list_for_each (S (length l)) st h = Some l.
Proof.
  intros H. unfold list_for_each. rewrite (dlist_first _ _ _ H).
  change (fun '(pos, seen) => _) with (for_each_step st h).
  by rewrite (for_each_from st h [] l H).
Qed.

Lemma list_empty_dlist st h l : dlist st h l -> list_empty st h = Some (bool_decide (l = [])).
Proof.
  intros H. unfold list_empty. rewrite (dlist_first _ _ _ H). simpl. f_equal.
  destruct H as [_ Hnd]. destruct l as [|x l]; simpl.
  - by rewrite Z.eqb_refl.
  - apply NoDup_cons in Hnd as [Hh _]. rewrite (proj2 (Z.eqb_neq x h)) by set_solver. done.
Qed.

Lemma INIT_LIST_HEAD_dlist st h : dlist (INIT_LIST_HEAD st h) h [].
Proof.
  unfold INIT_LIST_HEAD. split.
  - simpl. unfold links, get_next, get_prev. rewrite lookup_insert_eq. done.
  - apply NoDup_singleton.
Qed.

#[export] Hint Resolve INIT_LIST_HEAD_dlist list_for_each_dlist : kernel.

(** ** Properties *)

(** The pointer operations implement the abstract list.  An initialised
    head is the empty list; on a ring representing [l], [list_add] puts a new
    node first, [list_add_tail] puts it last, [list_empty] tests [l = []] and
    [list_for_each] visits exactly [l] in order and stops.  No insertion
    touches a node outside the ring. *)
Theorem list_ops_refine st h l new :
  dlist st h l -> is_Some (st !! new) -> new ∉ h :: l ->
  dlist (INIT_LIST_HEAD st h) h [] /\
  list_empty st h = Some (bool_decide (l = [])) /\
  list_for_each (S (length l)) st h = Some l /\
  (exists st1, list_add st new h = Some st1 /\ dlist st1 h (new :: l) /\
     forall x, x ∉ new :: h :: l -> st1 !! x = st !! x) /\
  (exists st2, list_add_tail st new h = Some st2 /\ dlist st2 h (l ++ [new]) /\
     forall x, x ∉ new :: h :: l -> st2 !! x = st !! x).
Proof.
  intros H Hs Hn. auto 8 using INIT_LIST_HEAD_dlist, list_empty_dlist, list_for_each_dlist,
    list_add_dlist, list_add_tail_dlist.
Qed.

Lemma list_ops_refine_witness :
  exists st2, list_add_tail (<[300 := LH 0 0]> (INIT_LIST_HEAD ∅ 100)) 300 100 = Some st2 /\ dlist st2 100 [300].
Proof.
  set (st := <[300 := LH 0 0]> (INIT_LIST_HEAD ∅ 100)).
  assert (dlist st 100 []) as H.
  { split; [vm_compute; done|apply NoDup_singleton]. }
  destruct (list_ops_refine st 100 [] 300 H) as (_ & _ & _ & _ & st2 & Ha & Hd & _);
    [by eexists|set_solver|].
  by exists st2.
Defined.

(** [list_del] unlinks its entry wherever it is in the ring, keeps the
    order of the others, leaves the entry with two null links and touches no
    node outside the ring. *)
Theorem list_del_refine st h l1 e l2 :
  dlist st h (l1 ++ e :: l2) ->
  exists st', list_del st e = Some st' /\ dlist st' h (l1 ++ l2) /\ st' !! e = Some (LH 0 0) /\
    (forall x, x ∉ h :: l1 ++ e :: l2 -> st' !! x = st !! x).
Proof. apply list_del_dlist. Qed.

Lemma list_del_refine_witness :
  let st := list_to_map [(100, LH 200 300); (200, LH 300 100); (300, LH 100 200)] in
  exists st', list_del st 200 = Some st' /\ dlist st' 100 [300].
Proof.
  intros st. destruct (list_del_refine st 100 [] 200 [300]) as (st' & H1 & H2 & _).
  - split; [vm_compute; done|].
    repeat (apply NoDup_cons; split; [set_solver|]). apply NoDup_nil_2.
  - by exists st'.
Defined.

End ListHead.
