(* ===== verification/Spinlock.v ===== *)
(** * Spinlocks (src/kernel/sync/spinlock.c)

    A lock saves the interrupt flag of its holder.  The other processors are
    the environment [env]: [env i l] is the lock as they leave it between the
    [i-1]-th and the [i]-th access that [spinlock_acquire] makes to it, when
    [l] is how that access left it.  Nothing is assumed of [env] in the
    definitions.  The kernel itself starts one processor, on which a critical
    section runs with interrupts off: there [env] is the identity. *)
From S2P Require Import Prelude.

Module Spinlock.

(** ** Definitions *)

Record spinlock_t := SL { locked : Z; rflags : Z; owner_pid : Z; owner_cpu : Z }.

(** What the lock code sees of the processor: the flags register and the pid
    of [current_process], if there is one. *)
Record cpu := CPU { cpu_rflags : Z; cpu_pid : option Z }.

Definition IF_FLAG : Z := 0x200.
Definition cli (c : cpu) : cpu := CPU (Z.ldiff (cpu_rflags c) IF_FLAG) (cpu_pid c).
Definition sti (c : cpu) : cpu := CPU (cpu_rflags c .| IF_FLAG) (cpu_pid c).

Definition spinlock_init (lock : spinlock_t) : spinlock_t := SL 0 0 (-1) 0.

Definition current_pid (c : cpu) : Z :=
  match cpu_pid c with Some p => s32 p | None => -2 end.

Definition with_locked (l : spinlock_t) (w : Z) : spinlock_t := SL w (rflags l) (owner_pid l) (owner_cpu l).

(** Where the two nested loops are: about to do the atomic exchange of the
    outer one, or to read the word in the condition of the inner one. *)
Inductive spin_pc := AtExchange | AtPoll.

(** One access to the lock word in
    [while (__sync_lock_test_and_set(&lock->locked, 1)) while (lock->locked) ...]:
    the exchange, which ends the loops when it finds 0, or a poll, which leaves
    the inner loop when it finds 0 or when the timeout has run out, after
    clearing the word. *)
Definition acquire_step (env : nat -> spinlock_t -> spinlock_t) :
    spin_pc * spinlock_t * Z * nat -> (spin_pc * spinlock_t * Z * nat) + (spinlock_t * nat) :=
  fun '(pc, lock, timeout, i) =>
    let lock := env i lock in
    match pc with
    | AtExchange =>
        if locked lock =? 0 then inr (with_locked lock 1, S i)
        else inl (AtPoll, with_locked lock 1, timeout, S i)
    | AtPoll =>
        if locked lock =? 0 then inl (AtExchange, lock, timeout, S i)
        else if timeout <=? 0 then inl (AtExchange, with_locked lock 0, s32 (timeout - 1), S i)
        else inl (AtPoll, lock, s32 (timeout - 1), S i)
    end.

(** The reads of [locked] and [owner_pid] in the recursion test, the read of
    [locked] before the contention message, the loops, and the two stores; the
    last component of the result counts the accesses.  [None]: the loops need
    more than [fuel] accesses. *)
Definition spinlock_acquire (fuel : nat) (env : nat -> spinlock_t -> spinlock_t) (c : cpu) (lock : spinlock_t) :
    option (cpu * spinlock_t * nat) :=
  let flags := cpu_rflags c in
  let c := cli c in
  let pid := current_pid c in
  let lock := env 0%nat lock in
  let held := negb (locked lock =? 0) in
  let lock := env 1%nat lock in
  let lock := if held && (owner_pid lock =? pid) then with_locked lock 0 else lock in
  let lock := env 2%nat lock in
  '(lock, i) ← loop fuel (acquire_step env) (AtExchange, lock, 1000, 3%nat);
  let lock := env i lock in
  let lock := SL (locked lock) flags (owner_pid lock) (owner_cpu lock) in
  let lock := env (S i) lock in
  Some (c, SL (locked lock) (rflags lock) pid (owner_cpu lock), S (S i)).

Definition spinlock_release (c : cpu) (lock : spinlock_t) : cpu * spinlock_t :=
  let flags := rflags lock in
  let lock := SL 0 (rflags lock) (-1) (owner_cpu lock) in
  (if negb (flags .& IF_FLAG =? 0) then sti c else c, lock).

(** Nobody else: one processor with its interrupts off. *)
Definition alone : nat -> spinlock_t -> spinlock_t := fun _ l => l.

(** A critical section, as the callers bracket their work: acquire, run the
    body, release.  1004 accesses are enough ([acquire_loop_total]). *)
Definition critical {A : Type} (c : cpu) (lock : spinlock_t) (body : option A) :
    option (cpu * spinlock_t * A) :=
  '(c, lock, _) ← spinlock_acquire 1004 alone c lock;
  r ← body;
  let '(c, lock) := spinlock_release c lock in
  Some (c, lock, r).

(** ** Lemmas *)

(** The environment takes a free lock only at the accesses in [L]. *)
Definition takes_at (env : nat -> spinlock_t -> spinlock_t) (L : list nat) : Prop :=
  forall i l, i ∉ L -> locked l = 0 -> locked (env i l) = 0.

(** How many accesses of [L] are still to come. *)
Definition left_of (L : list nat) (i : nat) : nat := length (filter (fun j => (i <= j)%nat) L).

Lemma left_of_le L i : (left_of L i <= length L)%nat.
Proof. apply length_filter. Qed.

Lemma left_of_S L i : (left_of L (S i) <= left_of L i)%nat.
Proof.
  unfold left_of. induction L as [|j L IH]; [done|]. rewrite !filter_cons.
  repeat case_decide; simpl; lia.
Qed.

Lemma left_of_take L i : i ∈ L -> (S (left_of L (S i)) <= left_of L i)%nat.
Proof.
  unfold left_of. induction L as [|j L IH]; [by intros ?%elem_of_nil|].
  intros [->|Hi]%elem_of_cons; rewrite !filter_cons.
  - rewrite decide_False, decide_True by lia. simpl. pose proof (left_of_S L j). unfold left_of in *. lia.
  - specialize (IH Hi). repeat case_decide; simpl; lia.
Qed.

(** Accesses still to be made, at most: the timeout, one more round for each
    time the lock can be taken away, and the position in the loops. *)
Definition spin_measure (L : list nat) (st : spin_pc * spinlock_t * Z * nat) : nat :=
  let '(pc, lock, timeout, i) := st in
  Z.to_nat timeout + 2 * left_of L i +
  match pc with AtPoll => 2 | AtExchange => if locked lock =? 0 then 1 else 3 end.

(** The timeout runs below 0 by at most one for each time the lock is taken. *)
Definition spin_inv (L : list nat) (n : nat) (st : spin_pc * spinlock_t * Z * nat) : Prop :=
  let '(pc, lock, timeout, i) := st in
  (i + spin_measure L st <= n)%nat /\ timeout <= 1000 /\
  - (Z.of_nat (length L) - Z.of_nat (left_of L i)) -
    (if pc then (if locked lock =? 0 then 1 else 0) else 0) <= timeout.

Lemma acquire_step_inv env L n st :
  takes_at env L -> Z.of_nat (length L) < 2 ^ 31 - 1 -> spin_inv L n st ->
  match acquire_step env st with
  | inl st' => spin_inv L n st' /\ (spin_measure L st' < spin_measure L st)%nat
  | inr (l, i) => locked l = 1 /\ (i <= n)%nat
  end.
Proof.
  destruct st as [[[pc lock] t] i]. intros He HL. unfold spin_inv, acquire_step, spin_measure.
  intros (Hm & Ht & Hb). pose proof (left_of_S L i) as HS. pose proof (left_of_le L i) as Hle.
  destruct pc; destruct (locked (env i lock) =? 0) eqn:E; cbn [locked with_locked] in *; simpl_bool.
  - split; [done|]. case_match; lia.
  - destruct (locked lock =? 0) eqn:E0; simpl_bool; [|lia].
    assert (i ∈ L) as Hi by (destruct (decide (i ∈ L)) as [|Hn]; [done|]; by specialize (He i lock Hn E0)).
    pose proof (left_of_take L i Hi). lia.
  - rewrite E. simpl. lia.
  - destruct (t <=? 0) eqn:Et; simpl_bool; simpl; rewrite s32_small by lia; lia.
Qed.

(** The loops end, whatever the state of the lock, when the environment takes
    the lock finitely often. *)
Lemma acquire_loop_total env L lock :
  takes_at env L -> Z.of_nat (length L) < 2 ^ 31 - 1 ->
  exists l i, loop (1004 + 2 * length L) (acquire_step env) (AtExchange, lock, 1000, 3%nat) = Some (l, i) /\
    locked l = 1 /\ (i <= 1006 + 2 * length L)%nat.
Proof.
  intros He HL. pose proof (left_of_le L 3).
  destruct (loop_total (spin_inv L (1006 + 2 * length L)) (spin_measure L)
              (fun '(l, i) => locked l = 1 /\ (i <= 1006 + 2 * length L)%nat) (acquire_step env))
    with (fuel := (1004 + 2 * length L)%nat) (s := (AtExchange, lock, 1000, 3%nat)) as ([l i] & E & Hq).
  - intros st Hst. by apply (acquire_step_inv env).
  - unfold spin_inv, spin_measure. case_match; lia.
  - unfold spin_measure. case_match; lia.
  - by exists l, i.
Qed.

(** The loops end only with an exchange that found the word clear. *)
Lemma acquire_loop_free env fuel st l i :
  loop fuel (acquire_step env) st = Some (l, i) ->
  exists l0 j, i = S j /\ locked (env j l0) = 0 /\ l = with_locked (env j l0) 1.
Proof.
  apply (loop_partial (fun _ => True) (fun '(l, i) =>
    exists l0 j, i = S j /\ locked (env j l0) = 0 /\ l = with_locked (env j l0) 1)); [|done].
  intros [[[pc lock] t] j] _. unfold acquire_step. destruct pc, (locked (env j lock) =? 0) eqn:E; simpl_bool; try done.
  - by exists lock, j.
  - by destruct (t <=? 0).
Qed.

(** Against an environment that always has the lock they never end. *)
Lemma acquire_loop_diverges env fuel st :
  (forall i l, locked (env i l) <> 0) -> loop fuel (acquire_step env) st = None.
Proof.
  intros He. revert st. induction fuel as [|f IH]; intros [[[pc lock] t] i]; [done|]. simpl.
  pose proof (He i lock) as H. rewrite (proj2 (Z.eqb_neq _ _) H). destruct pc; [apply IH|]. destruct (t <=? 0); apply IH.
Qed.

Lemma takes_at_alone : takes_at alone [].
Proof. by intros i l _ H. Qed.

(** Alone, the caller gets the lock and nobody changes it. *)
Lemma acquire_loop_alone fuel st l i :
  loop fuel (acquire_step alone) st = Some (l, i) -> owner_cpu l = owner_cpu st.1.1.2.
Proof.
  revert st. induction fuel as [|f IH]; intros [[[pc lock] t] j]; [done|]. simpl. unfold alone.
  destruct pc, (locked lock =? 0); try destruct (t <=? 0); intros H; simplify_eq; try done; by rewrite (IH _ H).
Qed.

Lemma spinlock_acquire_total c lock :
  exists n, spinlock_acquire 1004 alone c lock =
    Some (cli c, SL 1 (cpu_rflags c) (current_pid c) (owner_cpu lock), n) /\ (n <= 1008)%nat.
Proof.
  unfold spinlock_acquire. cbv zeta.
  match goal with |- context [loop _ _ (_, ?lk, _, _)] =>
    destruct (acquire_loop_total alone [] lk takes_at_alone ltac:(simpl; lia)) as (l & i & E & Hl & Hi);
    pose proof (acquire_loop_alone _ _ _ _ E) as Ho end.
  simpl length in *. change (1004 + 2 * 0)%nat with 1004%nat in E. rewrite E. simpl. unfold alone.
  exists (S (S i)). split; [|lia]. rewrite Hl, Ho. simpl. unfold alone. by destruct (_ && _).
Qed.

Lemma flags_restore c :
  (if negb (cpu_rflags c .& IF_FLAG =? 0) then sti (cli c) else cli c) = c.
Proof.
  destruct c as [f p]. unfold sti, cli, IF_FLAG; simpl. change 0x200 with (2 ^ 9).
  rewrite land_pow2_zero, negb_involutive by lia.
  destruct (Z.testbit f 9) eqn:E; f_equal; apply Z.bits_inj'; intros k Hk.
  - rewrite Z.lor_spec, Z.ldiff_spec. destruct (decide (k = 9)) as [->|Hne].
    + rewrite E. by rewrite Z.pow2_bits_true by lia.
    + rewrite Z.pow2_bits_false by lia. by rewrite orb_false_r, andb_true_r.
  - rewrite Z.ldiff_spec. destruct (decide (k = 9)) as [->|Hne]; [by rewrite E|].
    rewrite Z.pow2_bits_false by lia. by rewrite andb_true_r.
Qed.

(** A critical section runs its body once, gives the processor its interrupt
    flag back and leaves the lock free. *)
Lemma critical_spec {A} c lock (body : option A) :
  critical c lock body = r ← body; Some (c, SL 0 (cpu_rflags c) (-1) (owner_cpu lock), r).
Proof.
  unfold critical. destruct (spinlock_acquire_total c lock) as (n & -> & _). simpl. destruct body as [r|]; [|done]. simpl.
  by rewrite flags_restore.
Qed.

(** ** Properties *)

(** C37: when the other processors take the free lock at most [k] times while
    [spinlock_acquire] runs (at the accesses in [L]; they may release it, time
    out or write the other fields as often as they like), it returns after at
    most [1008 + 2 k] accesses, with interrupts off and the caller recorded as
    owner, whatever the state of the lock was: it clears the holder's word when
    its time-out expires, so a holder that never releases cannot stop it.
    It returns only by an exchange that found the word clear and set it.  The
    premise is needed: against processors that have the lock at every access
    it never returns. *)
Theorem spinlock_acquire_terminates env L c lock :
  takes_at env L -> Z.of_nat (length L) < 2 ^ 31 - 1 ->
  (exists lock' n, spinlock_acquire (1004 + 2 * length L) env c lock = Some (cli c, lock', n) /\
     (n <= 1008 + 2 * length L)%nat /\ owner_pid lock' = current_pid c /\
     (exists l j, n = (j + 3)%nat /\ locked (env j l) = 0 /\
        locked lock' = locked (env (j + 2)%nat (let l1 := env (j + 1)%nat (with_locked (env j l) 1) in
          SL (locked l1) (cpu_rflags c) (owner_pid l1) (owner_cpu l1))))) /\
  cpu_rflags (cli c) .& IF_FLAG = 0 /\
  (forall env' fuel, (forall i l, locked (env' i l) <> 0) -> spinlock_acquire fuel env' c lock = None).
Proof.
  intros He HL. split; [|split].
  - unfold spinlock_acquire. cbv zeta.
    match goal with |- context [loop _ _ (_, ?lk, _, _)] =>
      destruct (acquire_loop_total env L lk He HL) as (l & i & E & _ & Hi) end.
    destruct (acquire_loop_free _ _ _ _ _ E) as (l0 & j & -> & H0 & ->).
    rewrite E. cbn [mbind option_bind]. eexists _, _. split; [done|]. split; [lia|]. split; [done|].
    exists l0, j. split; [lia|]. split; [done|]. simpl. by rewrite !Nat.add_succ_r, Nat.add_0_r.
  - apply Z.bits_inj'. intros k Hk. unfold cli; simpl.
    rewrite Z.land_spec, Z.ldiff_spec, Z.bits_0. by destruct (Z.testbit (cpu_rflags c) k), (Z.testbit IF_FLAG k).
  - intros env' fuel He'. unfold spinlock_acquire. by rewrite acquire_loop_diverges.
Qed.

(** A critical section ([spinlock_acquire], the body, [spinlock_release])
    fails only where its body does, restores the interrupt flag its caller
    had (enabled or not) and leaves the lock word clear and without owner. *)
Theorem critical_section_balanced {A} c lock (body : option A) :
  critical c lock body =
    match body with
    | None => None
    | Some r => Some (c, SL 0 (cpu_rflags c) (-1) (owner_cpu lock), r)
    end.
Proof. rewrite critical_spec. by destruct body. Qed.

(** ** A contended lock

    Another processor holds the lock for ever; when the caller has timed out
    and cleared the word it takes it away once more, just before the exchange
    (access 1005), and again never releases it. *)
Definition demo_env (i : nat) (l : spinlock_t) : spinlock_t :=
  if (i =? 1005)%nat then with_locked l 1 else l.

Lemma demo_takes : takes_at demo_env [1005%nat].
Proof.
  intros i l Hi Hl. unfold demo_env. destruct (i =? 1005)%nat eqn:E; [|done].
  apply Nat.eqb_eq in E as ->. by destruct Hi; constructor.
Qed.

(** The caller loses that exchange and gets the lock with the next one. *)
Lemma spinlock_acquire_terminates_witness :
  exists lock' n, spinlock_acquire 1006 demo_env (CPU 0x202 (Some 7)) (SL 1 0x202 3 0) =
    Some (CPU 2 (Some 7), lock', n) /\ owner_pid lock' = 7 /\ locked lock' = 1 /\ n = 1010%nat.
Proof.
  destruct (spinlock_acquire_terminates demo_env [1005%nat] (CPU 0x202 (Some 7)) (SL 1 0x202 3 0)
              demo_takes ltac:(simpl; lia)) as ((lock' & n & E & Hn & Ho & _) & _).
  exists lock', n. split; [exact E|]. split; [exact Ho|]. vm_compute in E. by simplify_eq.
Defined.

End Spinlock.
