(* ===== verification/Pmm.v ===== *)
(** * The physical page allocator (src/kernel/memory/pmm.c)

    The state is the module's static variables together with the memory that
    holds the bitmap: bit [i] is set when page frame [i] is in use.  The bitmap
    is reached through its address, so an access outside it is an access to
    other memory, as in the code. *)
From S2P Require Import Prelude Memory.

Module Pmm.

(** ** State *)

Record pmm := PMM {
  pm_mem : mem;
  bitmap : Z;
  total_pages : Z;
  bitmap_size : Z;
  highest_addr : Z;
  free_memory : Z;
  last_free_index : Z
}.

Definition PAGE_SIZE : Z := 4096.
Definition PAGE_ALIGN (x : Z) : Z := Z.ldiff (u64 (x + PAGE_SIZE - 1)) (PAGE_SIZE - 1).

Definition with_mem (s : pmm) (m : mem) : pmm :=
  PMM m (bitmap s) (total_pages s) (bitmap_size s) (highest_addr s) (free_memory s) (last_free_index s).
Definition with_free (s : pmm) (f : Z) : pmm :=
  PMM (pm_mem s) (bitmap s) (total_pages s) (bitmap_size s) (highest_addr s) f (last_free_index s).
Definition with_last (s : pmm) (i : Z) : pmm :=
  PMM (pm_mem s) (bitmap s) (total_pages s) (bitmap_size s) (highest_addr s) (free_memory s) i.

(** ** Bits *)

Definition pmm_set_bit (s : pmm) (bit : Z) : pmm :=
  let a := bitmap s + bit / 8 in
  with_mem s (store8 (pm_mem s) a (load8 (pm_mem s) a .| (1 .<< (bit mod 8)))).

Definition pmm_clear_bit (s : pmm) (bit : Z) : pmm :=
  let a := bitmap s + bit / 8 in
  with_mem s (store8 (pm_mem s) a (load8 (pm_mem s) a .& Z.lnot (1 .<< (bit mod 8)))).

Definition pmm_test_bit (s : pmm) (bit : Z) : Z :=
  load8 (pm_mem s) (bitmap s + bit / 8) .& (1 .<< (bit mod 8)).

Definition pmm_get_total_memory (s : pmm) : Z := highest_addr s.
Definition pmm_get_free_memory (s : pmm) : Z := free_memory s.

(** ** Allocation *)

(** [for (i = from; n more; i++) if (!pmm_test_bit(i)) return i] *)
Fixpoint scan_free (s : pmm) (i : Z) (n : nat) : option Z :=
  match n with
  | O => None
  | S n' => if pmm_test_bit s i =? 0 then Some i else scan_free s (i + 1) n'
  end.

Definition pmm_find_first_free (s : pmm) : Z * pmm :=
  match scan_free s (last_free_index s) (Z.to_nat (total_pages s - last_free_index s)) with
  | Some i => (i, with_last s i)
  | None =>
      match scan_free s 0 (Z.to_nat (last_free_index s)) with
      | Some i => (i, with_last s i)
      | None => (-1, s)
      end
  end.

(** [pmm_alloc_page] calls itself after finding frame 0; [fuel] bounds those
    calls. *)
Fixpoint pmm_alloc_page_rec (fuel : nat) (s : pmm) : option (Z * pmm) :=
  match fuel with
  | O => None
  | S fuel =>
      let '(bit, s) := pmm_find_first_free s in
      if bit =? -1 then Some (0, s)
      else if bit =? 0 then pmm_alloc_page_rec fuel (pmm_set_bit s 0)
      else
        let s := pmm_set_bit s bit in
        let s := with_free s (u64 (free_memory s - PAGE_SIZE)) in
        Some (bit * PAGE_SIZE, s)
  end.

Definition pmm_alloc_page (s : pmm) : option (Z * pmm) := pmm_alloc_page_rec 2 s.

(** The inner loop of [pmm_alloc_pages]: the first [j < count] whose frame
    [i + j] is in use. *)
Fixpoint first_used (s : pmm) (i j : Z) (n : nat) : option Z :=
  match n with
  | O => None
  | S n' => if negb (pmm_test_bit s (u64 (i + j)) =? 0) then Some j else first_used s i (j + 1) n'
  end.

Definition alloc_pages_step (s : pmm) (count : Z) : Z -> Z + option Z :=
  fun i =>
    if i <=? u64 (total_pages s - count) then
      match first_used s i 0 (Z.to_nat count) with
      | Some j => inl (u64 (i + j + 1))
      | None => inr (Some i)
      end
    else inr None.

Definition pmm_alloc_pages (fuel : nat) (s : pmm) (count : Z) : option (Z * pmm) :=
  if count =? 0 then Some (0, s)
  else
    r ← loop fuel (alloc_pages_step s count) 0;
    match r with
    | None => Some (0, s)
    | Some i =>
        let s := for_up (Z.to_nat count) 0 (fun j s => pmm_set_bit s (u64 (i + j))) s in
        let s := with_free s (u64 (free_memory s - count * PAGE_SIZE)) in
        Some (u64 (i * PAGE_SIZE), s)
    end.

Definition pmm_free_page (s : pmm) (addr : Z) : pmm :=
  let bit := addr / PAGE_SIZE in
  if bit <? total_pages s then
    let s := pmm_clear_bit s bit in
    let s := with_free s (u64 (free_memory s + PAGE_SIZE)) in
    if bit <? last_free_index s then with_last s bit else s
  else s.

Definition pmm_free_pages (s : pmm) (addr count : Z) : pmm :=
  let start_bit := addr / PAGE_SIZE in
  let s := for_up (Z.to_nat count) 0 (fun i s =>
             if u64 (start_bit + i) <? total_pages s then pmm_clear_bit s (u64 (start_bit + i)) else s) s in
  let s := with_free s (u64 (free_memory s + count * PAGE_SIZE)) in
  if start_bit <? last_free_index s then with_last s start_bit else s.

(** ** The bitmap as a set of frames *)

Definition used (s : pmm) (i : Z) : bool :=
  Z.testbit (load8 (pm_mem s) (bitmap s + i / 8)) (i mod 8).

(** The number of free frames among the first [n]. *)
Fixpoint nfree (s : pmm) (n : nat) : Z :=
  match n with
  | O => 0
  | S n' => nfree s n' + (if used s (Z.of_nat n') then 0 else 1)
  end.

Definition pmm_wf (s : pmm) : Prop :=
  0 <= total_pages s <= 2 ^ 20 /\ 0 <= last_free_index s <= total_pages s.

(** The free-memory counter agrees with the bitmap. *)
Definition pmm_acct (s : pmm) : Prop :=
  free_memory s = PAGE_SIZE * nfree s (Z.to_nat (total_pages s)).

Lemma test_bit_used s i : 0 <= i -> (pmm_test_bit s i =? 0) = negb (used s i).
Proof.
  intros Hi. unfold pmm_test_bit, used.
  pose proof (Z.mod_pos_bound i 8 ltac:(lia)). rewrite Z.shiftl_1_l. apply land_pow2_zero. lia.
Qed.

Lemma same_byte_bit i j : i / 8 = j / 8 -> i mod 8 = j mod 8 -> i = j.
Proof. intros. rewrite (Z.div_mod i 8), (Z.div_mod j 8) by lia. lia. Qed.

(** A write to one bit of the bitmap. *)
Lemma used_write s i j f b :
  0 <= i -> 0 <= j ->
  (forall x k, 0 <= k < 8 -> Z.testbit (f x) k = if decide (k = i mod 8) then b else Z.testbit x k) ->
  used (with_mem s (store8 (pm_mem s) (bitmap s + i / 8) (f (load8 (pm_mem s) (bitmap s + i / 8))))) j =
  if decide (i = j) then b else used s j.
Proof.
  intros Hi Hj Hf. unfold used, load8; simpl. pose proof (Z.mod_pos_bound j 8 ltac:(lia)).
  unfold store8. destruct (bitmap s + j / 8 =? bitmap s + i / 8) eqn:E; simpl_bool.
  - assert (i / 8 = j / 8) as Hd by lia. unfold u8.
    rewrite Z.mod_pow2_bits_low, Hf by lia. rewrite Hd. repeat case_decide; subst; try done.
    exfalso. eauto using same_byte_bit.
  - case_decide; [subst; lia|done].
Qed.

Lemma used_set s i j :
  0 <= i -> 0 <= j -> used (pmm_set_bit s i) j = if decide (i = j) then true else used s j.
Proof.
  intros. unfold pmm_set_bit. apply (used_write s i j (fun x => x .| (1 .<< (i mod 8)))); [done..|].
  intros x k Hk. pose proof (Z.mod_pos_bound i 8 ltac:(lia)).
  rewrite Z.lor_spec, Z.shiftl_1_l. case_decide; subst.
  - rewrite Z.pow2_bits_true by lia. apply orb_true_r.
  - rewrite Z.pow2_bits_false by lia. apply orb_false_r.
Qed.

Lemma used_clear s i j :
  0 <= i -> 0 <= j -> used (pmm_clear_bit s i) j = if decide (i = j) then false else used s j.
Proof.
  intros. unfold pmm_clear_bit. apply (used_write s i j (fun x => x .& Z.lnot (1 .<< (i mod 8)))); [done..|].
  intros x k Hk. pose proof (Z.mod_pos_bound i 8 ltac:(lia)).
  rewrite Z.land_spec, Z.lnot_spec, Z.shiftl_1_l by lia. case_decide; subst.
  - rewrite Z.pow2_bits_true by lia. apply andb_false_r.
  - rewrite Z.pow2_bits_false by lia. apply andb_true_r.
Qed.

(** ** Searching *)

Lemma scan_free_spec s n i :
  0 <= i ->
  match scan_free s i n with
  | Some k => i <= k < i + Z.of_nat n /\ used s k = false /\ forall j, i <= j < k -> used s j = true
  | None => forall j, i <= j < i + Z.of_nat n -> used s j = true
  end.
Proof.
  revert i. induction n as [|n IH]; intros i Hi; cbn [scan_free]; [intros; lia|].
  rewrite test_bit_used by lia. destruct (used s i) eqn:E; simpl.
  - specialize (IH (i + 1) ltac:(lia)). destruct (scan_free s (i + 1) n) as [k|].
    + destruct IH as (H1 & H2 & H3). split; [lia|]. split; [done|]. intros j Hj.
      destruct (decide (j = i)) as [->|]; [done|]. apply H3. lia.
    + intros j Hj. destruct (decide (j = i)) as [->|]; [done|]. apply IH. lia.
  - split; [lia|]. split; [done|]. intros; lia.
Qed.

Lemma find_first_free_spec s i s' :
  pmm_wf s -> pmm_find_first_free s = (i, s') ->
  (i = -1 /\ s' = s /\ forall j, 0 <= j < total_pages s -> used s j = true) \/
  (0 <= i < total_pages s /\ used s i = false /\ s' = with_last s i).
Proof.
  intros [Ht Hl] H. unfold pmm_find_first_free in H.
  pose proof (scan_free_spec s (Z.to_nat (total_pages s - last_free_index s)) (last_free_index s) ltac:(lia)) as H1.
  destruct (scan_free _ (last_free_index s) _) as [k|]; [injection H as <- <-|].
  - right. destruct H1 as (H1 & H2 & _). split; [lia|]. done.
  - pose proof (scan_free_spec s (Z.to_nat (last_free_index s)) 0 ltac:(lia)) as H2.
    destruct (scan_free _ 0 _) as [k|]; injection H as <- <-.
    + right. destruct H2 as (H2 & H3 & _). split; [lia|]. done.
    + left. split; [done|]. split; [done|]. intros j Hj.
      destruct (decide (j < last_free_index s)); [apply H2|apply H1]; lia.
Qed.

(** ** One page *)

(** The frame [i] was free and has been taken from [s], giving [s']. *)
Definition took (s : pmm) (i : Z) (s' : pmm) : Prop :=
  bitmap s' = bitmap s /\ total_pages s' = total_pages s /\
  free_memory s' = u64 (free_memory s - PAGE_SIZE) /\
  used s i = false /\
  (forall j, 0 <= j -> j <> 0 -> used s' j = if decide (i = j) then true else used s j).

(** Either a free frame other than frame 0 is taken, or there is none. *)
Definition alloc_page_post (s : pmm) (a : Z) (s' : pmm) : Prop :=
  (exists i, 0 < i < total_pages s /\ a = i * PAGE_SIZE /\ took s i s' /\
     last_free_index s' = i) \/
  (a = 0 /\ free_memory s' = free_memory s /\ total_pages s' = total_pages s /\ bitmap s' = bitmap s /\
   (forall j, 0 <= j -> j <> 0 -> used s' j = used s j) /\
   forall j, 0 < j < total_pages s -> used s j = true).

Lemma took_intro s i :
  0 < i < total_pages s -> used s i = false ->
  took s i (with_free (pmm_set_bit (with_last s i) i) (u64 (free_memory s - PAGE_SIZE))).
Proof.
  intros Hi Hu. split; [done|]. split; [done|]. split; [done|]. split; [done|].
  intros j Hj _. change (used (pmm_set_bit (with_last s i) i) j = if decide (i = j) then true else used s j).
  rewrite used_set by lia. done.
Qed.

(** With frame 0 marked, one call is enough. *)
Lemma alloc_page_rec_nonzero fuel s :
  pmm_wf s -> used s 0 = true ->
  exists a s', pmm_alloc_page_rec (S fuel) s = Some (a, s') /\ alloc_page_post s a s'.
Proof.
  intros Hwf H0. cbn [pmm_alloc_page_rec]. destruct (pmm_find_first_free s) as [i s1] eqn:E.
  apply find_first_free_spec in E as [(-> & -> & Hall)|(Hi & Hu & ->)]; [| |done].
  - exists 0, s. split; [done|]. right. repeat split; try done. intros j Hj. apply Hall. lia.
  - assert (i <> 0) by congruence.
    rewrite (proj2 (Z.eqb_neq i (-1))), (proj2 (Z.eqb_neq i 0)) by lia.
    eexists _, _. split; [done|]. left. exists i. split; [lia|]. split; [done|].
    split; [exact (took_intro s i ltac:(lia) Hu)|done].
Qed.

Lemma pmm_alloc_page_total s :
  pmm_wf s -> exists a s', pmm_alloc_page s = Some (a, s') /\ alloc_page_post s a s'.
Proof.
  intros Hwf. unfold pmm_alloc_page. destruct (used s 0) eqn:E0; [by apply alloc_page_rec_nonzero|].
  cbn [pmm_alloc_page_rec]. destruct (pmm_find_first_free s) as [i s1] eqn:E.
  apply find_first_free_spec in E as [(-> & -> & Hall)|(Hi & Hu & ->)]; [| |done].
  - exists 0, s. split; [done|]. right. repeat split; try done. intros j Hj. apply Hall. lia.
  - rewrite (proj2 (Z.eqb_neq i (-1))) by lia. destruct (i =? 0) eqn:Ei; simpl_bool.
    + subst i. set (s1 := pmm_set_bit (with_last s 0) 0).
      assert (forall j, 0 <= j -> j <> 0 -> used s1 j = used s j) as Hs1.
      { intros j Hj Hj0. unfold s1. rewrite used_set, decide_False by lia. done. }
      destruct (alloc_page_rec_nonzero 0 s1) as (a & s' & Ha & Hp).
      { destruct Hwf as [? ?]. split; simpl; lia. }
      { unfold s1. rewrite used_set, decide_True by lia. done. }
      exists a, s'. split; [done|].
      destruct Hp as [(i & Hi' & -> & (Hb & Ht & Hf & Hui & Huj) & Hli)|(-> & Hf & Ht & Hb & Huj & Hall)].
      * left. exists i. split; [done|]. split; [done|]. split; [|done].
        split; [done|]. split; [done|]. split; [done|]. split; [by rewrite <- Hs1 by lia|].
        intros j Hj Hj0. rewrite Huj by lia. case_decide; [done|]. by apply Hs1.
      * right. repeat split; try done.
        -- intros j Hj Hj0. rewrite Huj by done. by apply Hs1.
        -- intros j Hj. rewrite <- Hs1 by lia. by apply Hall.
    + eexists _, _. split; [done|]. left. exists i. split; [lia|]. split; [done|].
      split; [exact (took_intro s i ltac:(lia) Hu)|done].
Qed.

(** ** Accounting *)

Lemma nfree_ext s s' n :
  (forall j, 0 <= j < Z.of_nat n -> used s' j = used s j) -> nfree s' n = nfree s n.
Proof.
  induction n as [|n IH]; intros H; cbn [nfree]; [done|].
  rewrite H by lia. rewrite IH; [done|]. intros j Hj. apply H. lia.
Qed.

Lemma nfree_with_free s f n : nfree (with_free s f) n = nfree s n.
Proof. by apply nfree_ext. Qed.

Lemma nfree_range s n : 0 <= nfree s n <= Z.of_nat n.
Proof. induction n as [|n IH]; cbn [nfree]; [lia|]. destruct (used s (Z.of_nat n)); lia. Qed.

(** Changing the state of one frame from [negb b] to [b]. *)
Lemma nfree_change s s' n i b :
  0 <= i < Z.of_nat n -> used s i = negb b ->
  (forall j, 0 <= j < Z.of_nat n -> used s' j = if decide (i = j) then b else used s j) ->
  nfree s' n = nfree s n + (if b then -1 else 1).
Proof.
  induction n as [|n IH]; intros Hi Hu H; [lia|]. cbn [nfree].
  rewrite (H (Z.of_nat n)) by lia. case_decide as E.
  - subst i. rewrite Hu. rewrite (nfree_ext s s'); [destruct b; simpl; lia|].
    intros j Hj. rewrite H, decide_False by lia. done.
  - rewrite IH; [lia|lia|done|]. intros j Hj. apply H. lia.
Qed.

Lemma took_acct s i s' :
  pmm_wf s -> 0 < i < total_pages s -> used s 0 = true -> used s' 0 = true -> took s i s' ->
  pmm_acct s -> pmm_acct s'.
Proof.
  unfold pmm_acct. intros [Ht _] Hi H0 H0' (_ & Ht' & Hf & Hu & Hj) Ha.
  assert (nfree s' (Z.to_nat (total_pages s)) = nfree s (Z.to_nat (total_pages s)) - 1) as Hn.
  { rewrite (nfree_change s s' _ i true); [lia|lia|done|].
    intros j Hjr. destruct (decide (j = 0)) as [->|]; [rewrite decide_False by lia; congruence|].
    apply Hj; lia. }
  rewrite Hf, Ht', Ha, Hn. unfold PAGE_SIZE.
  pose proof (nfree_range s' (Z.to_nat (total_pages s))).
  pose proof (nfree_range s (Z.to_nat (total_pages s))).
  rewrite u64_small; lia.
Qed.

(** Allocation leaves frame 0 marked. *)
Lemma alloc_page_rec_frame0 fuel s a s' :
  pmm_wf s -> used s 0 = true -> pmm_alloc_page_rec (S fuel) s = Some (a, s') -> used s' 0 = true.
Proof.
  intros Hwf H0 H. cbn [pmm_alloc_page_rec] in H. destruct (pmm_find_first_free s) as [i s1] eqn:E.
  apply find_first_free_spec in E as [(-> & -> & Hall)|(Hi & Hu & ->)]; [| |done].
  - by injection H as <- <-.
  - assert (i <> 0) by congruence.
    rewrite (proj2 (Z.eqb_neq i (-1))), (proj2 (Z.eqb_neq i 0)) in H by lia.
    injection H as <- <-. change (used (pmm_set_bit (with_last s i) i) 0 = true).
    rewrite used_set, decide_False by lia. done.
Qed.

Lemma alloc_page_post_wf s a s' : pmm_wf s -> last_free_index s' <= total_pages s -> 0 <= last_free_index s' ->
  alloc_page_post s a s' -> pmm_wf s'.
Proof.
  intros [Ht Hl] H1 H2 [(i & Hi & _ & (_ & Ht' & _) & _)|(_ & _ & Ht' & _)];
    split; rewrite Ht'; lia.
Qed.

(** Allocation writes nothing but the bitmap. *)
Lemma set_bit_mem s i x :
  0 <= i <= total_pages s -> x < bitmap s \/ bitmap s + total_pages s / 8 < x ->
  pm_mem (pmm_set_bit s i) x = pm_mem s x.
Proof.
  intros Hi Hx. apply store8_other.
  pose proof (Z.div_pos i 8 ltac:(lia) ltac:(lia)).
  pose proof (Z.div_le_mono i (total_pages s) 8 ltac:(lia) ltac:(lia)). lia.
Qed.

Lemma alloc_page_rec_mem fuel s a s' x :
  pmm_wf s -> x < bitmap s \/ bitmap s + total_pages s / 8 < x ->
  pmm_alloc_page_rec fuel s = Some (a, s') -> pm_mem s' x = pm_mem s x.
Proof.
  revert s. induction fuel as [|fuel IH]; intros s Hwf Hx H; [done|].
  cbn [pmm_alloc_page_rec] in H. destruct (pmm_find_first_free s) as [i s1] eqn:E.
  apply find_first_free_spec in E as [(-> & -> & _)|(Hi & _ & ->)]; [by injection H as <- <-| |done].
  rewrite (proj2 (Z.eqb_neq i (-1))) in H by lia. destruct (i =? 0) eqn:E0; simpl_bool.
  - subst i. apply IH in H; [|destruct Hwf; split; simpl; lia|done].
    rewrite H. apply (set_bit_mem (with_last s 0)); [simpl; lia|done].
  - injection H as <- <-. apply (set_bit_mem (with_last s i)); [simpl; lia|done].
Qed.

Lemma alloc_page_rec_wf fuel s a s' : pmm_wf s -> pmm_alloc_page_rec fuel s = Some (a, s') -> pmm_wf s'.
Proof.
  revert s. induction fuel as [|fuel IH]; intros s Hwf H; [done|].
  cbn [pmm_alloc_page_rec] in H. destruct (pmm_find_first_free s) as [i s1] eqn:E.
  apply find_first_free_spec in E as [(-> & -> & _)|(Hi & _ & ->)]; [by injection H as <- <-| |done].
  assert (pmm_wf (with_last s i)) as Hwl by (destruct Hwf; split; simpl; lia).
  rewrite (proj2 (Z.eqb_neq i (-1))) in H by lia. case_match; [by apply IH in H|]. injection H as <- <-. exact Hwl.
Qed.

Lemma alloc_page_rec_mem_ok fuel s a s' :
  mem_ok (pm_mem s) -> pmm_alloc_page_rec fuel s = Some (a, s') -> mem_ok (pm_mem s').
Proof.
  revert s. induction fuel as [|fuel IH]; intros s Hm H; [done|].
  cbn [pmm_alloc_page_rec] in H. destruct (pmm_find_first_free s) as [i s1] eqn:E.
  assert (pm_mem s1 = pm_mem s) as E1.
  { unfold pmm_find_first_free in E. destruct (scan_free _ (last_free_index s) _); [by injection E as <- <-|].
    destruct (scan_free _ 0 _); by injection E as <- <-. }
  assert (forall j, mem_ok (pm_mem (pmm_set_bit s1 j))) as Hb by (intros; apply store8_ok; by rewrite E1).
  repeat case_match; [injection H as <- <-; by rewrite E1|by apply (IH _ (Hb 0) H)|injection H as <- <-; apply Hb].
Qed.

Lemma nfree_pos s n : 0 < nfree s n -> exists j, 0 <= j < Z.of_nat n /\ used s j = false.
Proof.
  induction n as [|n IH]; cbn [nfree]; intros H; [lia|].
  destruct (used s (Z.of_nat n)) eqn:E.
  - destruct IH as (j & Hj & Hu); [lia|]. exists j. split; [lia|done].
  - exists (Z.of_nat n). split; [lia|done].
Qed.

(** With free memory left, allocation succeeds, and all the invariants hold
    afterwards. *)
Lemma alloc_page_success s :
  pmm_wf s -> used s 0 = true -> pmm_acct s -> 0 < free_memory s ->
  exists i s', pmm_alloc_page s = Some (i * PAGE_SIZE, s') /\ 0 < i < total_pages s /\ took s i s' /\
    pmm_wf s' /\ used s' 0 = true /\ pmm_acct s' /\ free_memory s' = free_memory s - PAGE_SIZE /\
    (forall x, x < bitmap s \/ bitmap s + total_pages s / 8 < x -> pm_mem s' x = pm_mem s x).
Proof.
  intros Hwf H0 Hacct Hf. destruct (pmm_alloc_page_total s Hwf) as (a & s' & Ha & Hp).
  pose proof (alloc_page_rec_frame0 1 s a s' Hwf H0 Ha) as H0'.
  unfold pmm_acct in Hacct. destruct (nfree_pos s (Z.to_nat (total_pages s))) as (j & Hj & Hu).
  { unfold PAGE_SIZE in *. lia. }
  destruct Hp as [(i & Hi & -> & Ht & Hl)|(_ & _ & _ & _ & _ & Hall)].
  - exists i, s'. split; [done|]. split; [done|]. split; [done|].
    split; [destruct Ht as (_ & Ht & _), Hwf; split; rewrite ?Ht; lia|]. split; [done|].
    split; [by apply (took_acct s i)|]. split.
    + destruct Ht as (_ & _ & -> & _). rewrite Hacct in *. destruct Hwf.
      pose proof (nfree_range s (Z.to_nat (total_pages s))). unfold PAGE_SIZE in *. rewrite u64_small; lia.
    + intros x Hx. by apply (alloc_page_rec_mem 2 s (i * PAGE_SIZE)).
  - destruct (decide (j = 0)) as [->|]; [congruence|]. rewrite Hall in Hu; [done|].
    destruct Hwf. lia.
Qed.

(** ** Memory that is no free frame *)

(** The byte [x] belongs to a frame the page allocator will not hand out. *)
Definition reserved (p : pmm) (x : Z) : Prop :=
  forall f, 0 < f < total_pages p -> f * PAGE_SIZE <= x < (f + 1) * PAGE_SIZE -> used p f = true.

Definition off_pmm_bitmap (p : pmm) (x : Z) : Prop := x < bitmap p \/ bitmap p + total_pages p / 8 < x.

(** The frames are the same when the bitmap is. *)
Lemma used_same p p' f :
  bitmap p' = bitmap p -> (forall x, ~ off_pmm_bitmap p x -> pm_mem p' x = pm_mem p x) ->
  0 < f < total_pages p -> used p' f = used p f.
Proof.
  intros Hb Hm Hf. unfold used, load8. rewrite Hb, Hm; [done|]. unfold off_pmm_bitmap.
  pose proof (Z.div_le_mono f (total_pages p) 8 ltac:(lia) ltac:(lia)). pose proof (Z.div_pos f 8). lia.
Qed.

(** ** Runs of pages *)

Definition run_free (s : pmm) (i count : Z) : Prop := forall j, i <= j < i + count -> used s j = false.

Lemma first_used_spec s i n j :
  0 <= i -> 0 <= j -> i + j + Z.of_nat n <= 2 ^ 64 ->
  match first_used s i j n with
  | Some k => j <= k < j + Z.of_nat n /\ used s (i + k) = true
  | None => forall k, j <= k < j + Z.of_nat n -> used s (i + k) = false
  end.
Proof.
  revert j. induction n as [|n IH]; intros j Hi Hj Hb; cbn [first_used]; [intros; lia|].
  rewrite u64_small, test_bit_used, negb_involutive by lia.
  destruct (used s (i + j)) eqn:E; [split; [lia|done]|].
  specialize (IH (j + 1) Hi ltac:(lia) ltac:(lia)). destruct (first_used s i (j + 1) n) as [k|].
  - split; [lia|]. tauto.
  - intros k Hk. destruct (decide (k = j)) as [->|]; [done|]. apply IH. lia.
Qed.

(** The search returns the first free run, or says that there is none. *)
Lemma alloc_pages_search s count fuel :
  pmm_wf s -> 0 < count <= total_pages s -> (Z.to_nat (total_pages s) < fuel)%nat ->
  exists r, loop fuel (alloc_pages_step s count) 0 = Some r /\
    match r with
    | Some i => 0 <= i /\ i + count <= total_pages s /\ run_free s i count /\
                forall k, 0 <= k < i -> ~ run_free s k count
    | None => forall k, 0 <= k -> k + count <= total_pages s -> ~ run_free s k count
    end.
Proof.
  intros [Ht _] Hc Hfuel.
  apply (loop_total (fun i => 0 <= i /\ i <= total_pages s /\ forall k, 0 <= k < i -> ~ run_free s k count)
           (fun i => Z.to_nat (total_pages s - i))) with (fuel := fuel) (s := 0).
  - intros i (Hi & Hit & Hno). unfold alloc_pages_step. rewrite u64_small by lia.
    destruct (i <=? total_pages s - count) eqn:E; simpl_bool.
    + pose proof (first_used_spec s i (Z.to_nat count) 0 ltac:(lia) ltac:(lia) ltac:(lia)) as Hfu.
      destruct (first_used s i 0 (Z.to_nat count)) as [j|].
      * destruct Hfu as [Hj Hu]. rewrite u64_small by lia. split; [|lia].
        split; [lia|]. split; [lia|]. intros k Hk Hr. destruct (decide (k < i)) as [Hki|]; [by apply (Hno k (conj (proj1 Hk) Hki))|].
        rewrite (Hr (i + j)) in Hu by lia. done.
      * split; [lia|]. split; [lia|]. split; [|done]. intros j Hj.
        specialize (Hfu (j - i) ltac:(lia)). by replace (i + (j - i)) with j in Hfu by lia.
    + intros k Hk Hkc. apply Hno. lia.
  - split; [lia|]. split; [lia|]. intros; lia.
  - lia.
Qed.

(** Marking a run of frames. *)
Lemma set_run_spec s i n :
  0 <= i -> i + Z.of_nat n <= 2 ^ 64 ->
  let s' := for_up n 0 (fun j s => pmm_set_bit s (u64 (i + j))) s in
  bitmap s' = bitmap s /\ total_pages s' = total_pages s /\ free_memory s' = free_memory s /\
  last_free_index s' = last_free_index s /\
  forall k, 0 <= k -> used s' k = if decide (i <= k < i + Z.of_nat n) then true else used s k.
Proof.
  intros Hi Hn s'.
  pose proof (for_up_inv (fun j t => bitmap t = bitmap s /\ total_pages t = total_pages s /\
     free_memory t = free_memory s /\ last_free_index t = last_free_index s /\
     forall k, 0 <= k -> used t k = if decide (i <= k < i + j) then true else used s k)
     (fun j s => pmm_set_bit s (u64 (i + j))) n 0 s) as H.
  rewrite Z.add_0_l in H. apply H.
  - intros j t Hj (Hb & Ht & Hf & Hl & Hu). repeat split; try done. intros k Hk.
    rewrite u64_small by lia. rewrite used_set, Hu by lia. repeat case_decide; try done; lia.
  - repeat split; try done. intros k Hk. by rewrite decide_False by lia.
Qed.

Lemma nfree_run s s' i c n :
  0 <= i -> 0 <= c -> run_free s i c ->
  (forall k, 0 <= k -> used s' k = if decide (i <= k < i + c) then true else used s k) ->
  nfree s' n = nfree s n - Z.max 0 (Z.min (Z.of_nat n) (i + c) - i).
Proof.
  intros Hi Hc Hr Hu. induction n as [|n IH]; cbn [nfree]; [lia|].
  rewrite Hu, IH by lia. case_decide as E.
  - rewrite (Hr (Z.of_nat n)) by lia. lia.
  - destruct (used s (Z.of_nat n)); lia.
Qed.

(** ** Properties *)

(** [pmm_alloc_page] always returns.  It either takes a frame that was
    free, is not frame 0 and is below [total_pages], marking that frame and no
    other (frame 0 aside) and charging one page to the free-memory counter, or
    returns 0 because every frame above 0 is in use.  The allocator's
    invariant is preserved and, with frame 0 reserved, so is the agreement of
    the counter with the bitmap. *)
Theorem pmm_alloc_page_correct s :
  pmm_wf s ->
  exists a s', pmm_alloc_page s = Some (a, s') /\ alloc_page_post s a s' /\
    (used s 0 = true -> pmm_acct s -> used s' 0 = true /\ pmm_wf s' /\ pmm_acct s').
Proof.
  intros Hwf. destruct (pmm_alloc_page_total s Hwf) as (a & s' & Ha & Hp).
  exists a, s'. split; [done|]. split; [done|]. intros H0 Hacct.
  pose proof (alloc_page_rec_frame0 1 s a s' Hwf H0 Ha) as H0'. split; [done|].
  destruct Hp as [(i & Hi & -> & Ht & Hl)|(-> & Hf & Ht & Hb & Hu & Hall)].
  - split; [|by apply (took_acct s i)]. destruct Ht as (_ & Ht & _), Hwf. split; rewrite ?Ht; lia.
  - assert (s' = s) as ->; [|done].
    unfold pmm_alloc_page in Ha. cbn [pmm_alloc_page_rec] in Ha.
    destruct (pmm_find_first_free s) as [i s1] eqn:E.
    apply find_first_free_spec in E as [(-> & -> & _)|(Hi & Hu' & ->)]; [by injection Ha as <-| |done].
    destruct (decide (i = 0)) as [->|]; [congruence|]. rewrite Hall in Hu' by lia. done.
Qed.

Lemma pmm_alloc_page_correct_witness :
  let s := PMM (fun x => if x =? 100 then 7 else 0) 100 8 1 0x8000 0x5000 0 in
  exists s', pmm_alloc_page s = Some (3 * PAGE_SIZE, s') /\ alloc_page_post s (3 * PAGE_SIZE) s'.
Proof.
  intros s. destruct (pmm_alloc_page_correct s) as (a & s' & Ha & Hp & _); [vm_compute; repeat split; done|].
  assert (a = 3 * PAGE_SIZE) as -> by (vm_compute in Ha; by injection Ha as <- _).
  by exists s'.
Defined.

(** Freeing the page an allocation returned puts the allocator back:
    every frame is in the state it had before the allocation, the
    free-memory counter too, and the search restarts no later than the freed
    frame. *)
Theorem pmm_alloc_free_roundtrip s a s' :
  pmm_wf s -> used s 0 = true -> pmm_acct s -> pmm_alloc_page s = Some (a, s') -> a <> 0 ->
  (forall j, 0 <= j -> used (pmm_free_page s' a) j = used s j) /\
  free_memory (pmm_free_page s' a) = free_memory s /\
  pmm_wf (pmm_free_page s' a) /\ last_free_index (pmm_free_page s' a) <= a / PAGE_SIZE.
Proof.
  intros Hwf H0 Hacct Ha Hne. destruct (pmm_alloc_page_total s Hwf) as (a' & s1 & Ha' & Hp).
  rewrite Ha in Ha'. injection Ha' as <- <-.
  pose proof (alloc_page_rec_frame0 1 s a s' Hwf H0 Ha) as H0'.
  destruct Hp as [(i & Hi & -> & (Hb & Ht & Hf & Hu & Hj) & Hl)|(-> & _)]; [|done].
  unfold pmm_free_page. rewrite Z.div_mul by done.
  rewrite Ht, (proj2 (Z.ltb_lt i (total_pages s))) by lia. simpl. rewrite Hl, Z.ltb_irrefl. simpl.
  split; [|split; [|split]].
  - intros j Hj0. change (used (pmm_clear_bit s' i) j = used s j). rewrite used_clear by lia.
    case_decide as E; [by subst j|]. destruct (decide (j = 0)) as [->|]; [congruence|].
    rewrite Hj, decide_False by lia. done.
  - rewrite Hf. unfold pmm_acct in Hacct. rewrite Hacct. destruct Hwf as [Htp _].
    pose proof (nfree_range s (Z.to_nat (total_pages s))). unfold u64, PAGE_SIZE.
    rewrite Zplus_mod_idemp_l. replace (_ - _ + _) with (4096 * nfree s (Z.to_nat (total_pages s))) by lia.
    apply Z.mod_small. lia.
  - destruct Hwf. split; simpl; lia.
  - lia.
Qed.

Lemma pmm_alloc_free_roundtrip_witness :
  let s := PMM (fun x => if x =? 100 then 7 else 0) 100 8 1 0x8000 0x5000 0 in
  exists s', pmm_alloc_page s = Some (0x3000, s') /\ used (pmm_free_page s' 0x3000) 3 = used s 3.
Proof.
  intros s. destruct (pmm_alloc_page s) as [[a s']|] eqn:E; [|done].
  assert (a = 0x3000) as -> by (vm_compute in E; by injection E as <- _).
  exists s'. split; [done|].
  refine (proj1 (pmm_alloc_free_roundtrip s 0x3000 s' _ _ _ E _) 3 _); try done;
    vm_compute; repeat split; done.
Defined.

(** [pmm_alloc_pages] finds the first run of [count] free frames, for
    every request that fits the memory ([0 < count <= total_pages]), within
    [total_pages + 1] iterations although it skips over used frames: it
    returns the address of that run and marks exactly its frames, charging
    them, or returns 0 when there is no such run. *)
Theorem pmm_alloc_pages_first_fit s count fuel :
  pmm_wf s -> 0 < count <= total_pages s -> (Z.to_nat (total_pages s) < fuel)%nat ->
  exists a s', pmm_alloc_pages fuel s count = Some (a, s') /\
    ((exists i, a = i * PAGE_SIZE /\ 0 <= i /\ i + count <= total_pages s /\ run_free s i count /\
        (forall k, 0 <= k < i -> ~ run_free s k count) /\
        (forall k, 0 <= k -> used s' k = if decide (i <= k < i + count) then true else used s k) /\
        (pmm_acct s -> pmm_acct s')) \/
     (a = 0 /\ s' = s /\ forall k, 0 <= k -> k + count <= total_pages s -> ~ run_free s k count)).
Proof.
  intros Hwf Hc Hfuel. destruct (alloc_pages_search s count fuel Hwf Hc Hfuel) as (r & Hr & Hp).
  unfold pmm_alloc_pages. rewrite (proj2 (Z.eqb_neq count 0)) by lia. rewrite Hr. simpl.
  destruct Hwf as [Ht _]. destruct r as [i|].
  - destruct Hp as (Hi & Hic & Hrun & Hmin). eexists _, _. split; [done|]. left. exists i.
    pose proof (set_run_spec s i (Z.to_nat count) ltac:(lia) ltac:(lia)) as (Hb & Htp & Hf & Hl & Hu).
    rewrite Z2Nat.id in Hu by lia. split; [apply u64_small; unfold PAGE_SIZE; lia|].
    do 4 (split; [done|]). split; [exact Hu|].
    unfold pmm_acct. intros Hacct. cbn [free_memory total_pages with_free].
    rewrite Hf, Htp, Hacct.
    rewrite nfree_with_free.
    pose proof (nfree_run s _ i count (Z.to_nat (total_pages s)) Hi ltac:(lia) Hrun Hu) as Hn.
    match type of Hn with nfree ?t _ = _ =>
      pose proof (nfree_range t (Z.to_nat (total_pages s))) end.
    pose proof (nfree_range s (Z.to_nat (total_pages s))).
    rewrite Hn in *. rewrite u64_small; unfold PAGE_SIZE; lia.
  - eexists _, _. split; [done|]. right. done.
Qed.

Lemma pmm_alloc_pages_first_fit_witness :
  let s := PMM (fun x => if x =? 100 then 11 else 0) 100 8 1 0x8000 0x5000 0 in
  exists s', pmm_alloc_pages 9 s 3 = Some (0x4000, s') /\ used s' 5 = true.
Proof.
  intros s.
  destruct (pmm_alloc_pages_first_fit s 3 9) as (a & s' & Ha & _);
    [vm_compute; repeat split; done|vm_compute; split; [reflexivity|intros Hx; discriminate Hx]|vm_compute; lia|].
  assert (a = 0x4000 /\ used s' 5 = true) as [-> H]
    by (vm_compute in Ha; injection Ha as <- <-; vm_compute; done).
  by exists s'.
Defined.

(** A request for more frames than the memory has makes the loop bound
    [total_pages - count] wrap around, so the search runs past the bitmap: on
    an 8-frame memory a request for 9 frames is granted, frames 8 and 9, which
    do not exist, among them, and the byte after the bitmap is overwritten. *)
Theorem pmm_alloc_pages_underflow :
  exists s a s', pmm_wf s /\ total_pages s = 8 /\
    pmm_alloc_pages 2 s 9 = Some (a, s') /\ a = 0x1000 /\ used s' 9 = true /\
    pm_mem s (bitmap s + bitmap_size s) <> pm_mem s' (bitmap s' + bitmap_size s').
Proof.
  set (s := PMM (fun x => if x =? 100 then 1 else 0) 100 8 1 0x8000 0x7000 0). exists s.
  destruct (pmm_alloc_pages 2 s 9) as [[a s']|] eqn:E; [|done].
  exists a, s'. vm_compute in E. injection E as <- <-. vm_compute. repeat split; done.
Qed.

End Pmm.
