(* ===== verification/PmmInit.v ===== *)
(** * Boot-time initialisation of the page allocator (pmm_init of
      src/kernel/memory/pmm.c)

    The boot loader's memory map is read from the same memory the bitmap is
    written to.  The two passes over the map (find the highest address, then
    free the frames of available regions) share a walker per boot protocol.

    [boot_map] says which available regions a boot information in the documented
    Multiboot 1 or 2 format describes; both walks visit exactly these, and the
    state after [pmm_init] is stated in terms of them. *)
From S2P Require Import Prelude Memory Pmm.
Import Pmm.

Module PmmInit.

(** ** Walking the memory map *)

Definition MB1_MAGIC : Z := 0x2BADB002.
Definition MB2_MAGIC : Z := 0x36D76289.

(** How a part of the boot code ends: with a value, in the processor's
    division fault, in the fatal [while(1)], or not within the fuel. *)
Inductive ending (A : Type) := Done (a : A) | Fault | Halt | NoFuel.
Arguments Done {A} _.
Arguments Fault {A}.
Arguments Halt {A}.
Arguments NoFuel {A}.

#[export] Instance ending_bind : MBind ending := fun A B f o =>
  match o with Done a => f a | Fault => Fault | Halt => Halt | NoFuel => NoFuel end.

(** The result of a loop that may fault. *)
Definition ended {A : Type} (r : option (option A)) : ending A :=
  match r with None => NoFuel | Some None => Fault | Some (Some a) => Done a end.

Section Walk.
Context {St : Type}.
(** The memory of a walker's state, and what it does with the address and
    the length of an available region. *)
Context (rd : St -> mem) (f : Z -> Z -> St -> St).

(** Multiboot 1: entries of [size + 4] bytes from [mmap_addr]. *)
Definition mb1_step (end_addr : Z) : Z * St -> (Z * St) + St :=
  fun '(entry, s) =>
    if entry <? end_addr then
      let m := rd s in
      let s := if load32 m (entry + 20) =? 1
               then f (load64 m (entry + 4)) (load64 m (entry + 12)) s else s in
      inl (u64 (entry + load32 (rd s) entry + 4), s)
    else inr s.

Definition mb1_walk (fuel : nat) (mb1 : Z) (s : St) : ending St :=
  let m := rd s in
  if load32 m mb1 .& 0x40 =? 0 then Done s
  else
    let end_addr := u32 (load32 m (mb1 + 48) + load32 m (mb1 + 44)) in
    ended (Some <$> loop fuel (mb1_step end_addr) (load32 m (mb1 + 48), s)).

(** Multiboot 2: the entries of one memory-map tag; [None] when the entry
    size divides by zero. *)
Definition mb2_entry (tag : Z) (i : Z) (s : St) : St :=
  let m := rd s in
  let e := u64 (tag + 16 + u64 (i * load32 m (tag + 8))) in
  if load32 m (e + 16) =? 1 then f (load64 m e) (load64 m (e + 8)) s else s.

Definition mb2_mmap (tag : Z) (s : St) : option St :=
  let m := rd s in
  let entry_size := load32 m (tag + 8) in
  if entry_size =? 0 then None
  else
    let num_entries := u64 (load32 m (tag + 4) - 16) / entry_size in
    Some (for_up (Z.to_nat num_entries) 0 (mb2_entry tag) s).

Definition mb2_step (end_addr : Z) : Z * St -> (Z * St) + option St :=
  fun '(tag, s) =>
    if tag <? end_addr then
      let type := load32 (rd s) tag in
      if type =? 0 then inr (Some s)
      else
        match (if type =? 6 then mb2_mmap tag s else Some s) with
        | None => inr None
        | Some s =>
            let size := load32 (rd s) (tag + 4) in
            let size := if negb (size mod 8 =? 0) then u32 (size + (8 - size mod 8)) else size in
            inl (u64 (tag + size), s)
        end
    else inr (Some s).

Definition mb2_walk (fuel : nat) (multiboot_addr : Z) (s : St) : ending St :=
  let total_size := load32 (rd s) multiboot_addr in
  ended (loop fuel (mb2_step (u64 (multiboot_addr + total_size))) (u64 (multiboot_addr + 8), s)).

(** The dispatch on the boot loader's magic, common to both passes. *)
Definition walk_map (fuel : nat) (multiboot_addr magic : Z) (s : St) : ending St :=
  if magic =? MB1_MAGIC then mb1_walk fuel multiboot_addr s
  else if magic =? MB2_MAGIC then mb2_walk fuel multiboot_addr s
  else Done s.
End Walk.

(** ** The steps of pmm_init *)

(** First pass: the end of the highest available region. *)
Definition region_end (addr len highest : Z) : Z :=
  let e := u64 (addr + len) in if highest <? e then e else highest.

Definition detect_highest (fuel : nat) (m : mem) (multiboot_addr magic : Z) : ending Z :=
  h ← walk_map (fun _ => m) region_end fuel multiboot_addr magic 0;
  let h := if h =? 0 then 128 * 1024 * 1024 else h in
  Done (if 0x100000000 <? h then 0x100000000 else h).

(** Where the bitmap goes: after the kernel, and after the boot information
    when that lies above the kernel. *)
Definition place_bitmap (m : mem) (kernel_end multiboot_addr magic highest : Z) : Z :=
  let bitmap := PAGE_ALIGN kernel_end in
  let multiboot_end :=
    if magic =? MB2_MAGIC then u64 (multiboot_addr + load32 m multiboot_addr)
    else if magic =? MB1_MAGIC then
      if (0x1000 <? multiboot_addr) && (multiboot_addr <? highest) then
        if bitmap <=? multiboot_addr then
          let e := u64 (multiboot_addr + 88) in
          if negb (load32 m multiboot_addr .& 0x40 =? 0) then
            let mmap_end := u32 (load32 m (multiboot_addr + 48) + load32 m (multiboot_addr + 44)) in
            if e <? mmap_end then mmap_end else e
          else e
        else 0
      else 0
    else 0 in
  if bitmap <? multiboot_end then PAGE_ALIGN multiboot_end else bitmap.

(** Second pass: free the whole frames of an available region.  Multiboot 1
    does not compare the frame with [total_pages]. *)
Definition free_region (magic : Z) (addr len : Z) (s : pmm) : pmm :=
  let start_frame := addr / PAGE_SIZE in
  for_up (Z.to_nat (len / PAGE_SIZE)) 0 (fun i s =>
    let fr := u64 (start_frame + i) in
    if magic =? MB2_MAGIC then (if fr <? total_pages s then pmm_clear_bit s fr else s)
    else pmm_clear_bit s fr) s.

(** [free_memory = 0; for (...) if (!pmm_test_bit(i)) free_memory += PAGE_SIZE;] *)
Definition count_free (s : pmm) : pmm :=
  for_up (Z.to_nat (total_pages s)) 0 (fun i s =>
    if pmm_test_bit s i =? 0 then with_free s (u64 (free_memory s + PAGE_SIZE)) else s) (with_free s 0).

Definition reserve_below (n : Z) (s : pmm) : pmm :=
  for_up (Z.to_nat n) 0 (fun i s => pmm_set_bit s i) s.

(** The map did not leave a single free frame: free everything above 1 MB. *)
Definition fallback (s : pmm) : pmm :=
  if (free_memory s =? 0) && (0x100000 <? highest_addr s) then
    let start_p := 0x100000 / PAGE_SIZE in
    let end_p := highest_addr s / PAGE_SIZE in
    let s := for_up (Z.to_nat (end_p - start_p)) start_p (fun i s => pmm_clear_bit s i) s in
    count_free s
  else s.

(** The final reservation of the kernel and the bitmap. *)
Definition reserve_kernel (s : pmm) : pmm :=
  let reserved_end := PAGE_ALIGN (u64 (bitmap s + bitmap_size s)) in
  let reserved_frames := reserved_end / PAGE_SIZE in
  let s := for_up (Z.to_nat reserved_frames) 0 (fun i s =>
             if i <? total_pages s then pmm_set_bit s i else s) s in
  pmm_set_bit s 0.

(** The whole initialisation; [fuel] bounds the entries of a walk. *)
Definition pmm_init (fuel : nat) (kernel_end multiboot_addr magic : Z) (s0 : pmm) : ending pmm :=
  let m := pm_mem s0 in
  highest ← detect_highest fuel m multiboot_addr magic;
  let total := highest / PAGE_SIZE in
  let bsize := total / 8 in
  let bmap := place_bitmap m kernel_end multiboot_addr magic highest in
  if 0x40000000 <? u64 (bmap + bsize) then Halt
  else
    let s := PMM m bmap total bsize highest (free_memory s0) (last_free_index s0) in
    let s := for_up (Z.to_nat bsize) 0 (fun i s => with_mem s (store8 (pm_mem s) (bitmap s + i) 0xFF)) s in
    s ← walk_map pm_mem (free_region magic) fuel multiboot_addr magic s;
    let end_frame := (u64 (bitmap s + bitmap_size s) + PAGE_SIZE - 1) / PAGE_SIZE in
    let s := reserve_below end_frame s in
    let s := count_free s in
    let s := fallback s in
    Done (reserve_kernel s).

(** ** Lemmas *)

(** The fields that only the start of [pmm_init] sets. *)
Definition same_geometry (s t : pmm) : Prop :=
  bitmap t = bitmap s /\ total_pages t = total_pages s /\ bitmap_size t = bitmap_size s /\
  highest_addr t = highest_addr s /\ last_free_index t = last_free_index s.

Lemma for_up_geometry f n i s :
  (forall j t, same_geometry t (f j t)) -> same_geometry s (for_up n i f s).
Proof.
  intros Hf. apply (for_up_inv (fun _ t => same_geometry s t)); [|by repeat split].
  intros j t _ (? & ? & ? & ? & ?). destruct (Hf j t) as (? & ? & ? & ? & ?).
  repeat split; congruence.
Qed.

Lemma geometry_trans s t u : same_geometry s t -> same_geometry t u -> same_geometry s u.
Proof. intros (?&?&?&?&?) (?&?&?&?&?). repeat split; congruence. Qed.

Lemma geometry_refl s : same_geometry s s.
Proof. by repeat split. Qed.

#[local] Hint Resolve geometry_refl geometry_trans for_up_geometry : kernel.

Lemma geometry_if (b : bool) s t u :
  same_geometry s t -> same_geometry s u -> same_geometry s (if b then t else u).
Proof. by destruct b. Qed.

#[local] Hint Resolve geometry_if : kernel.

Lemma free_region_geometry magic addr len s : same_geometry s (free_region magic addr len s).
Proof.
  apply for_up_geometry. intros j t. cbv zeta. destruct (magic =? MB2_MAGIC); [|done].
  by destruct (_ <? _).
Qed.

Lemma count_free_geometry s : same_geometry s (count_free s).
Proof.
  apply (geometry_trans s (with_free s 0)); [done|]. apply for_up_geometry.
  intros j t. by destruct (_ =? 0).
Qed.

Lemma reserve_below_geometry n s : same_geometry s (reserve_below n s).
Proof. by apply for_up_geometry. Qed.

Lemma fallback_geometry s : same_geometry s (fallback s).
Proof.
  unfold fallback. destruct (_ && _); [|done].
  eapply geometry_trans; [|apply count_free_geometry]. by apply for_up_geometry.
Qed.

Lemma reserve_kernel_geometry s : same_geometry s (reserve_kernel s).
Proof.
  unfold reserve_kernel. cbv zeta. eapply geometry_trans; [|by repeat split].
  apply for_up_geometry. intros j t. by destruct (_ <? _).
Qed.

Lemma count_free_spec s :
  0 <= total_pages s <= 2 ^ 20 ->
  pm_mem (count_free s) = pm_mem s /\
  free_memory (count_free s) = PAGE_SIZE * nfree s (Z.to_nat (total_pages s)).
Proof.
  intros Ht.
  pose proof (for_up_inv (fun j t => pm_mem t = pm_mem s /\ bitmap t = bitmap s /\
    free_memory t = PAGE_SIZE * nfree s (Z.to_nat j)) (fun i s =>
    if pmm_test_bit s i =? 0 then with_free s (u64 (free_memory s + PAGE_SIZE)) else s)
    (Z.to_nat (total_pages s)) 0 (with_free s 0)) as H.
  rewrite Z.add_0_l, Nat2Z.id in H. destruct H as (? & ? & ?); [|by repeat split|done].
  intros j t Hj (Hm & Hb & Hf). rewrite test_bit_used by lia.
  assert (used t j = used s j) as -> by (unfold used; by rewrite Hm, Hb).
  replace (Z.to_nat (j + 1)) with (S (Z.to_nat j)) by lia. cbn [nfree].
  rewrite Z2Nat.id by lia. pose proof (nfree_range s (Z.to_nat j)).
  destruct (used s j); simpl; repeat split; try done; [lia|].
  rewrite Hf. unfold PAGE_SIZE. rewrite u64_small; lia.
Qed.

(** Setting the bits of a prefix of the frames. *)
Lemma set_prefix_spec (P : pmm -> Z -> bool) n s :
  (forall t j, same_geometry s t -> P t j = P s j) ->
  forall k, 0 <= k ->
  used (for_up n 0 (fun i s => if P s i then pmm_set_bit s i else s) s) k =
  if decide (k < Z.of_nat n) then P s k || used s k else used s k.
Proof.
  intros HP.
  pose proof (for_up_inv (fun j t => same_geometry s t /\
    forall k, 0 <= k -> used t k = if decide (k < j) then P s k || used s k else used s k)
    (fun i s => if P s i then pmm_set_bit s i else s) n 0 s) as H.
  rewrite Z.add_0_l in H. apply H.
  - intros j t Hj [Hg Hu]. rewrite HP by done. split; [destruct (P s j); [|done]; by eapply geometry_trans|].
    intros k Hk. destruct (P s j) eqn:E.
    + rewrite used_set, Hu by lia. repeat case_decide; subst; rewrite ?E; try done; try lia.
      all: by replace k with j by lia; rewrite E.
    + rewrite Hu by lia. repeat case_decide; try done; try lia.
      by replace k with j by lia; rewrite E.
  - split; [done|]. intros k Hk. by rewrite decide_False by lia.
Qed.

Lemma PAGE_ALIGN_frames x : 0 <= x <= 2 ^ 40 -> PAGE_ALIGN x / PAGE_SIZE = (x + PAGE_SIZE - 1) / PAGE_SIZE.
Proof.
  intros Hx. unfold PAGE_ALIGN, PAGE_SIZE. rewrite u64_small by lia.
  change (4096 - 1) with (Z.ones 12). rewrite Z.ldiff_ones_r by lia.
  rewrite Z.shiftl_mul_pow2, Z.shiftr_div_pow2 by lia. change (2 ^ 12) with 4096.
  by rewrite Z.div_mul by lia.
Qed.

Lemma reserve_kernel_used s k :
  0 <= bitmap s -> 0 <= bitmap_size s -> bitmap s + bitmap_size s <= 2 ^ 40 -> 0 <= k ->
  used (reserve_kernel s) k =
    if decide (k = 0 \/ k < total_pages s /\ k * PAGE_SIZE < bitmap s + bitmap_size s) then true
    else used s k.
Proof.
  intros Hb Hs Hbs Hk. unfold reserve_kernel. cbv zeta. rewrite used_set by lia.
  rewrite (set_prefix_spec (fun t i => i <? total_pages t)) by (try lia; by intros t j (_ & -> & _)).
  rewrite u64_small, PAGE_ALIGN_frames, Z2Nat.id by (try lia; apply Z.div_pos; unfold PAGE_SIZE; lia).
  set (e := bitmap s + bitmap_size s) in *.
  assert (k < (e + PAGE_SIZE - 1) / PAGE_SIZE <-> k * PAGE_SIZE < e) as He.
  { unfold PAGE_SIZE. split; intros.
    - pose proof (Z.mul_div_le (e + 4096 - 1) 4096). lia.
    - enough (k + 1 <= (e + 4096 - 1) / 4096) by lia. apply Z.div_le_lower_bound; lia. }
  destruct (k <? total_pages s) eqn:Et; simpl_bool; repeat case_decide; try done; try lia; try tauto.
Qed.

Lemma PAGE_ALIGN_spec x :
  0 <= x <= 2 ^ 50 -> x <= PAGE_ALIGN x < x + PAGE_SIZE /\ PAGE_ALIGN x mod PAGE_SIZE = 0.
Proof.
  intros Hx. unfold PAGE_ALIGN, PAGE_SIZE. rewrite u64_small by lia.
  change (4096 - 1) with (Z.ones 12). rewrite Z.ldiff_ones_r by lia.
  rewrite Z.shiftl_mul_pow2, Z.shiftr_div_pow2 by lia. change (2 ^ 12) with 4096.
  pose proof (Z.div_mod (x + 4096 - 1) 4096 ltac:(lia)).
  pose proof (Z.mod_pos_bound (x + 4096 - 1) 4096 ltac:(lia)).
  split; [lia|]. by apply Z.mod_mul.
Qed.

Lemma place_bitmap_spec m kernel_end mb magic highest :
  mem_ok m -> 0 <= kernel_end < 2 ^ 40 -> 0 <= mb < 2 ^ 40 ->
  let b := place_bitmap m kernel_end mb magic highest in
  kernel_end <= b < 2 ^ 42 /\ b mod PAGE_SIZE = 0.
Proof.
  intros Hm Hk Hmb. cbv zeta. unfold place_bitmap. cbv zeta.
  pose proof (PAGE_ALIGN_spec kernel_end ltac:(lia)) as [Hpa Hpm].
  match goal with |- context [if PAGE_ALIGN kernel_end <? ?e then _ else _] => set (me := e) end.
  assert (0 <= me <= 2 ^ 41) as Hme.
  { pose proof (load_le_range m mb 4 Hm) as Hl. change (256 ^ Z.of_nat 4) with (2 ^ 32) in Hl.
    fold (load32 m mb) in Hl. subst me.
    pose proof (u32_range (load32 m (mb + 48) + load32 m (mb + 44))).
    rewrite !u64_small by lia. repeat case_if; lia. }
  pose proof (PAGE_ALIGN_spec me ltac:(lia)) as [Hqa Hqm]. unfold PAGE_SIZE in *.
  case_if; split; try done; lia.
Qed.

(** ** The boot loader's memory map

    The available regions that the documented formats describe. *)

(** Multiboot 1: entries of at least 20 bytes after their size field fill the
    buffer from [entry] to [e]. *)
Inductive mb1_map (m : mem) (e : Z) : Z -> list (Z * Z) -> Prop :=
| mb1_map_end : mb1_map m e e []
| mb1_map_entry entry rs :
    20 <= load32 m entry -> entry + load32 m entry + 4 <= e -> mb1_map m e (entry + load32 m entry + 4) rs ->
    mb1_map m e entry ((if load32 m (entry + 20) =? 1 then [(load64 m (entry + 4), load64 m (entry + 12))] else []) ++ rs).

(** Multiboot 2: the entries of a memory-map tag. *)
Definition mb2_regions (m : mem) (tag : Z) : list (Z * Z) :=
  let entry_size := load32 m (tag + 8) in
  omap (fun i => let e := tag + 16 + i * entry_size in
                 if load32 m (e + 16) =? 1 then Some (load64 m e, load64 m (e + 8)) else None)
       (seqZ 0 ((load32 m (tag + 4) - 16) / entry_size)).

(** The tags up to the end tag; each has its 8-byte header, lies within the
    boot information and is followed by the next at a multiple of 8; the
    entries of a memory map have at least 24 bytes. *)
Inductive mb2_map (m : mem) (e : Z) : Z -> list (Z * Z) -> Prop :=
| mb2_map_end tag : tag + 8 <= e -> load32 m tag = 0 -> mb2_map m e tag []
| mb2_map_tag tag rs :
    load32 m tag <> 0 -> 8 <= load32 m (tag + 4) -> tag + load32 m (tag + 4) <= e ->
    (load32 m tag = 6 -> 16 <= load32 m (tag + 4) /\ 24 <= load32 m (tag + 8)) ->
    mb2_map m e (tag + 8 * ((load32 m (tag + 4) + 7) / 8)) rs ->
    mb2_map m e tag ((if load32 m tag =? 6 then mb2_regions m tag else []) ++ rs).

Definition boot_map (m : mem) (mb magic : Z) (rs : list (Z * Z)) : Prop :=
  if magic =? MB1_MAGIC then
    if load32 m mb .& 0x40 =? 0 then rs = []
    else load32 m (mb + 48) + load32 m (mb + 44) < 2 ^ 32 /\
         mb1_map m (load32 m (mb + 48) + load32 m (mb + 44)) (load32 m (mb + 48)) rs
  else if magic =? MB2_MAGIC then mb2_map m (mb + load32 m mb) (mb + 8) rs
  else rs = [].

(** The boot information, and its length (which bounds the walks). *)
Definition boot_info (m : mem) (mb magic x : Z) : Prop :=
  if magic =? MB1_MAGIC then
    mb <= x < mb + 52 \/
    load32 m mb .& 0x40 <> 0 /\ load32 m (mb + 48) <= x < load32 m (mb + 48) + load32 m (mb + 44)
  else magic = MB2_MAGIC /\ mb <= x < mb + load32 m mb.

Definition boot_size (m : mem) (mb magic : Z) : Z :=
  if magic =? MB1_MAGIC then load32 m (mb + 44) else load32 m mb.

(** What the two passes make of the regions. *)
Definition visit_regions {St} (f : Z -> Z -> St -> St) (s : St) (rs : list (Z * Z)) : St :=
  foldl (fun s '(a, l) => f a l s) s rs.

Definition highest (rs : list (Z * Z)) : Z :=
  let h := visit_regions region_end 0 rs in
  let h := if h =? 0 then 128 * 1024 * 1024 else h in
  if 0x100000000 <? h then 0x100000000 else h.

(** Frame [k] lies in a region, counted from the frame the region begins in. *)
Definition available (rs : list (Z * Z)) (k : Z) : Prop :=
  Exists (fun r => r.1 / PAGE_SIZE <= k < r.1 / PAGE_SIZE + r.2 / PAGE_SIZE) rs.

#[export] Instance available_dec rs k : Decision (available rs k).
Proof. apply Exists_dec. intros r. apply _. Defined.

(** ** The walks visit exactly these regions *)

Lemma load32_ext m m' a : (forall x, a <= x < a + 4 -> m x = m' x) -> load32 m a = load32 m' a.
Proof. intros H. by apply (load_le_ext m m' a 4). Qed.

Lemma load32_range m a : mem_ok m -> 0 <= load32 m a < 2 ^ 32.
Proof. intros Hm. pose proof (load_le_range m a 4 Hm). done. Qed.

Section walks.
Context {St : Type} (rd : St -> mem) (f : Z -> Z -> St -> St) (m : mem) (I : St -> Prop).
Hypothesis Hm : mem_ok m.

Definition sees (lo hi : Z) : Prop := forall s, I s -> forall x, lo <= x < hi -> rd s x = m x.

Lemma sees_load32 lo hi s a : sees lo hi -> I s -> lo <= a -> a + 4 <= hi -> load32 (rd s) a = load32 m a.
Proof. intros H Hs Hlo Hhi. apply load32_ext. intros x Hx. apply H; [done|lia]. Qed.

Lemma sees_load64 lo hi s a : sees lo hi -> I s -> lo <= a -> a + 8 <= hi -> load64 (rd s) a = load64 m a.
Proof. intros H Hs Hlo Hhi. apply load64_ext. intros x Hx. apply H; [done|lia]. Qed.

Lemma mb1_loop lo e entry rs :
  mb1_map m e entry rs -> sees lo e -> 0 <= lo <= entry -> e < 2 ^ 32 ->
  (forall a l s, (a, l) ∈ rs -> I s -> I (f a l s)) ->
  forall fuel s, I s -> (Z.to_nat (e - entry) < fuel)%nat ->
  loop fuel (mb1_step rd f e) (entry, s) = Some (visit_regions f s rs) /\ I (visit_regions f s rs).
Proof.
  intros Hmap Hsee. induction Hmap as [|entry rs Hsz Hin Hmap IH]; intros Hlo He Hf fuel s Hs Hfu.
  - destruct fuel as [|fuel]; [lia|]. cbn [loop mb1_step]. by rewrite Z.ltb_irrefl.
  - destruct fuel as [|fuel]; [lia|]. cbn [loop mb1_step]. rewrite (proj2 (Z.ltb_lt entry e)) by lia.
    rewrite !(sees_load32 lo e s), !(sees_load64 lo e s) by (done || lia).
    set (r := if load32 m (entry + 20) =? 1 then _ else []).
    assert ((if load32 m (entry + 20) =? 1 then f (load64 m (entry + 4)) (load64 m (entry + 12)) s else s) = visit_regions f s r) as ->
      by (unfold r; by destruct (_ =? 1)).
    assert (I (visit_regions f s r)) as Hr.
    { unfold r in *. destruct (_ =? 1); [|done]. apply Hf; [|done]. set_solver. }
    rewrite (sees_load32 lo e), u64_small by (done || lia). unfold visit_regions. rewrite foldl_app. apply IH; [lia|done| |done|lia].
    intros a l t Ht. apply Hf. set_solver.
Qed.

Lemma mb2_mmap_visit e tag s :
  sees tag e -> 0 <= tag < 2 ^ 50 -> e < 2 ^ 50 -> tag + load32 m (tag + 4) <= e -> 16 <= load32 m (tag + 4) -> 24 <= load32 m (tag + 8) ->
  (forall a l s, (a, l) ∈ mb2_regions m tag -> I s -> I (f a l s)) -> I s ->
  mb2_mmap rd f tag s = Some (visit_regions f s (mb2_regions m tag)) /\ I (visit_regions f s (mb2_regions m tag)).
Proof.
  intros Hsee Htag He Hin Hsz Hes Hf Hs. unfold mb2_mmap. cbv zeta. pose proof (load32_range m (tag + 4) Hm) as Hr.
  rewrite !(sees_load32 tag e) by (done || lia). rewrite (proj2 (Z.eqb_neq _ 0)) by lia. rewrite u64_small by lia.
  unfold mb2_regions in *. cbv zeta in *. set (es := load32 m (tag + 8)) in *. set (n := (load32 m (tag + 4) - 16) / es) in *.
  assert (0 <= n /\ n * es <= load32 m (tag + 4) - 16) as [Hn0 Hn].
  { split; [apply Z.div_pos; lia|]. unfold n. pose proof (Z.mul_div_le (load32 m (tag + 4) - 16) es ltac:(lia)). lia. }
  set (g := fun i => let e := tag + 16 + i * es in
                 if load32 m (e + 16) =? 1 then Some (load64 m e, load64 m (e + 8)) else None) in *.
  enough (forall k i, 0 <= i -> i + Z.of_nat k <= n -> forall s, I s ->
    for_up k i (mb2_entry rd f tag) s = visit_regions f s (omap g (seqZ i (Z.of_nat k))) /\ I (visit_regions f s (omap g (seqZ i (Z.of_nat k))))) as H.
  { destruct (H (Z.to_nat n) 0 ltac:(lia) ltac:(lia) s Hs) as [E HI]. rewrite Z2Nat.id in E, HI by lia. by rewrite E. }
  induction k as [|k IH]; intros i Hi Hk t Ht; [done|].
  rewrite seqZ_cons by lia. cbn [for_up omap list_omap]. replace (Z.pred (Z.of_nat (S k))) with (Z.of_nat k) by lia.
  assert (i * es + es <= n * es) as Hie by nia.
  assert (mb2_entry rd f tag i t = visit_regions f t (match g i with Some r => [r] | None => [] end)) as ->.
  { unfold mb2_entry. cbv zeta. rewrite (sees_load32 tag e _ (tag + 8)) by (done || lia). fold es.
    rewrite (u64_small (i * es)), u64_small by nia. unfold g. cbv zeta.
    rewrite !(sees_load32 tag e), !(sees_load64 tag e) by (done || lia). by destruct (_ =? 1). }
  assert (I (visit_regions f t (match g i with Some r => [r] | None => [] end))) as Hv.
  { destruct (g i) as [[a l]|] eqn:Eg; [|done]. apply Hf; [|done]. apply list_elem_of_omap. exists i. split; [|done].
    apply elem_of_seqZ. lia. }
  replace (Z.succ i) with (i + 1) by lia. destruct (IH (i + 1) ltac:(lia) ltac:(lia) _ Hv) as [-> HI].
  destruct (g i); done.
Qed.

Lemma mb2_loop lo e tag rs :
  mb2_map m e tag rs -> sees lo e -> 0 <= lo <= tag -> e < 2 ^ 50 -> e - lo < 2 ^ 32 - 8 ->
  (forall a l s, (a, l) ∈ rs -> I s -> I (f a l s)) ->
  forall fuel s, I s -> (Z.to_nat (e - tag) < fuel)%nat ->
  loop fuel (mb2_step rd f e) (tag, s) = Some (Some (visit_regions f s rs)) /\ I (visit_regions f s rs).
Proof.
  intros Hmap Hsee. induction Hmap as [tag Hend Hty|tag rs Hty Hsz Hin Hmm Hmap IH]; intros Hlo He Hel Hf fuel s Hs Hfu.
  - destruct fuel as [|fuel]; [lia|]. cbn [loop mb2_step]. rewrite (proj2 (Z.ltb_lt tag e)) by lia.
    by rewrite (sees_load32 lo e), Hty by (done || lia).
  - destruct fuel as [|fuel]; [lia|]. cbn [loop mb2_step]. rewrite (proj2 (Z.ltb_lt tag e)) by lia.
    rewrite (sees_load32 lo e) by (done || lia). rewrite (proj2 (Z.eqb_neq _ _) Hty).
    set (r := if load32 m tag =? 6 then mb2_regions m tag else []) in *.
    assert ((if load32 m tag =? 6 then mb2_mmap rd f tag s else Some s) = Some (visit_regions f s r) /\ I (visit_regions f s r)) as [-> Hr].
    { unfold r in *. destruct (Z.eqb_spec (load32 m tag) 6) as [E6|]; [|done]. destruct (Hmm E6).
      apply (mb2_mmap_visit e); try done; [|lia|].
      - intros t Ht x Hx. apply (Hsee t Ht). lia.
      - intros a l t Ht. apply Hf. set_solver. }
    rewrite (sees_load32 lo e) by (done || lia). pose proof (load32_range m (tag + 4) Hm) as Hrg.
    set (size := load32 m (tag + 4)) in *. pose proof (Z.div_mod (size + 7) 8 ltac:(lia)). pose proof (Z.mod_pos_bound (size + 7) 8 ltac:(lia)).
    pose proof (Z.div_mod size 8 ltac:(lia)). pose proof (Z.mod_pos_bound size 8 ltac:(lia)).
    assert ((if negb (size mod 8 =? 0) then u32 (size + (8 - size mod 8)) else size) = 8 * ((size + 7) / 8)) as ->.
    { destruct (Z.eqb_spec (size mod 8) 0); cbn [negb]; [lia|]. rewrite u32_small by lia. lia. }
    rewrite u64_small by lia. unfold visit_regions. rewrite foldl_app. apply IH; [lia|done|done| |done|lia].
    intros a l t Ht. apply Hf. set_solver.
Qed.

Lemma mb2_map_room e tag rs : mb2_map m e tag rs -> tag + 8 <= e.
Proof. intros [?|]; lia. Qed.

(** Both walks of [pmm_init] return, having visited the regions in order. *)
Lemma walk_visit mb magic rs fuel s :
  boot_map m mb magic rs -> 0 <= mb < 2 ^ 40 -> (Z.to_nat (boot_size m mb magic) < fuel)%nat ->
  (forall t, I t -> forall x, boot_info m mb magic x -> rd t x = m x) ->
  (forall a l t, (a, l) ∈ rs -> I t -> I (f a l t)) -> I s ->
  walk_map rd f fuel mb magic s = Done (visit_regions f s rs) /\ I (visit_regions f s rs).
Proof.
  unfold boot_map, boot_info, boot_size, walk_map. intros Hmap Hmb Hfu Hsee Hf Hs.
  destruct (magic =? MB1_MAGIC).
  - assert (sees mb (mb + 52)) as Hi by (intros t Ht x Hx; apply (Hsee t Ht); lia). unfold mb1_walk. cbv zeta.
    rewrite !(sees_load32 mb (mb + 52) s) by (done || lia). destruct (Z.eqb_spec (load32 m mb .& 0x40) 0) as [|Hfl]; [by subst rs|].
    destruct Hmap as [Hlt Hmap]. pose proof (load32_range m (mb + 48) Hm). pose proof (load32_range m (mb + 44) Hm).
    rewrite u32_small by lia.
    destruct (mb1_loop (load32 m (mb + 48)) _ _ _ Hmap) with (fuel := fuel) (s := s) as [E HI]; try done; [|lia|lia|].
    + intros t Ht x Hx. apply (Hsee t Ht). by right.
    + by rewrite E.
  - destruct (Z.eqb_spec magic MB2_MAGIC) as [->|]; [|by subst rs]. unfold mb2_walk. cbv zeta.
    pose proof (mb2_map_room _ _ _ Hmap) as Hroom. pose proof (load32_range m mb Hm).
    rewrite (sees_load32 mb (mb + load32 m mb) s) by (try done; try lia; intros t Ht x Hx; by apply (Hsee t Ht)).
    rewrite !u64_small by lia.
    destruct (mb2_loop (mb + 8) _ _ _ Hmap) with (fuel := fuel) (s := s) as [E HI]; try done; [|lia|lia|lia|lia|].
    + intros t Ht x Hx. apply (Hsee t Ht). split; [done|lia].
    + by rewrite E.
Qed.
End walks.

(** The regions are pairs of 64-bit numbers. *)
Lemma boot_map_range m mb magic rs a l :
  mem_ok m -> boot_map m mb magic rs -> (a, l) ∈ rs -> 0 <= a < 2 ^ 64 /\ 0 <= l < 2 ^ 64.
Proof.
  intros Hm. assert (forall x y, 0 <= load64 m x < 2 ^ 64 /\ 0 <= load64 m y < 2 ^ 64) as Hr
    by (intros x y; split; by apply load64_range).
  unfold boot_map. destruct (magic =? MB1_MAGIC); [destruct (_ =? 0)|destruct (magic =? MB2_MAGIC)].
  - intros -> H. set_solver.
  - intros [_ H]. induction H as [|entry rs _ _ _ IH]; [set_solver|]. intros [Hin|]%elem_of_app; [|by apply IH].
    destruct (_ =? 1); [|set_solver]. apply list_elem_of_singleton in Hin. injection Hin as -> ->. apply Hr.
  - intros H. induction H as [|tag rs _ _ _ _ _ IH]; [set_solver|]. intros [Hin|]%elem_of_app; [|by apply IH].
    destruct (_ =? 6); [|set_solver]. apply list_elem_of_omap in Hin as (i & _ & E). cbv zeta in E.
    destruct (_ =? 1); [|done]. injection E as <- <-. apply Hr.
  - intros -> H. set_solver.
Qed.

Lemma highest_range rs : 0 < highest rs <= 2 ^ 32.
Proof.
  assert (forall h, 0 <= h -> 0 <= visit_regions region_end h rs) as Hv.
  { induction rs as [|[a l] rs IH]; intros h Hh; [done|]. apply IH. unfold region_end. pose proof (u64_range (a + l)).
    cbv zeta. case_if; lia. }
  unfold highest. cbv zeta. specialize (Hv 0 ltac:(lia)). repeat case_if; lia.
Qed.

Lemma detect_highest_visit fuel m mb magic rs :
  mem_ok m -> boot_map m mb magic rs -> 0 <= mb < 2 ^ 40 -> (Z.to_nat (boot_size m mb magic) < fuel)%nat ->
  detect_highest fuel m mb magic = Done (highest rs).
Proof.
  intros Hm Hmap Hmb Hfu. unfold detect_highest.
  destruct (walk_visit (fun _ : Z => m) region_end m (fun _ => True) Hm mb magic rs fuel 0) as [-> _]; done.
Qed.

(** ** The second pass *)

(** From [t] to [t'] only bits of the bitmap changed. *)
Definition bits_only (t t' : pmm) : Prop :=
  same_geometry t t' /\
  forall x, x < bitmap t \/ bitmap t + total_pages t / 8 < x -> pm_mem t' x = pm_mem t x.

Lemma bits_only_refl t : bits_only t t.
Proof. by split. Qed.

Lemma bits_only_trans t u v : bits_only t u -> bits_only u v -> bits_only t v.
Proof.
  intros [G1 M1] [G2 M2]. split; [by eapply geometry_trans|]. intros x Hx. destruct G1 as (B & T & _).
  rewrite M2 by (by rewrite B, T). by apply M1.
Qed.

Lemma clear_bit_only t fr : 0 <= fr < total_pages t -> bits_only t (pmm_clear_bit t fr).
Proof.
  intros Hf. split; [done|]. intros x Hx. apply store8_other. pose proof (Z.div_pos fr 8).
  pose proof (Z.div_le_mono fr (total_pages t) 8 ltac:(lia) ltac:(lia)). lia.
Qed.

(** A region below the end of memory for Multiboot 1, any region for
    Multiboot 2. *)
Definition region_fits (magic total : Z) (r : Z * Z) : Prop :=
  magic = MB2_MAGIC \/ r.1 / PAGE_SIZE + r.2 / PAGE_SIZE <= total.

Lemma free_region_spec magic a l t :
  0 <= a < 2 ^ 64 -> 0 <= l < 2 ^ 64 -> region_fits magic (total_pages t) (a, l) ->
  bits_only t (free_region magic a l t) /\
  forall k, 0 <= k < total_pages t -> used (free_region magic a l t) k = true <->
    used t k = true /\ ~ (a / PAGE_SIZE <= k < a / PAGE_SIZE + l / PAGE_SIZE).
Proof.
  intros Ha Hl Hfit. unfold free_region. cbv zeta.
  assert (0 <= a / PAGE_SIZE < 2 ^ 52 /\ 0 <= l / PAGE_SIZE < 2 ^ 52) as [Ha' Hl'].
  { unfold PAGE_SIZE. split; (split; [apply Z.div_pos; lia|apply Z.div_lt_upper_bound; lia]). }
  set (st := a / PAGE_SIZE) in *. set (n := l / PAGE_SIZE) in *.
  set (P := fun i t' => bits_only t t' /\ forall k, 0 <= k < total_pages t -> used t' k = true <-> used t k = true /\ ~ (st <= k < st + i)).
  assert (P (0 + Z.of_nat (Z.to_nat n)) (for_up (Z.to_nat n) 0 (fun i s =>
    let fr := u64 (st + i) in
    if magic =? MB2_MAGIC then (if fr <? total_pages s then pmm_clear_bit s fr else s)
    else pmm_clear_bit s fr) t)) as HP.
  2:{ rewrite Z2Nat.id, Z.add_0_l in HP by lia. exact HP. }
  apply for_up_inv.
  - intros i t' Hi [Hb Hu]. cbv zeta. rewrite u64_small by lia. pose proof Hb as [(_ & T & _) _].
    assert (st + i < total_pages t' -> P (i + 1) (pmm_clear_bit t' (st + i))) as Hclear.
    { intros Hlt. split; [apply (bits_only_trans _ t'); [done|apply clear_bit_only; lia]|].
      intros k Hk. rewrite used_clear by lia. case_decide; [split; [done|lia]|]. rewrite Hu by done. split; intros [? ?]; (split; [done|lia]). }
    destruct (Z.eqb_spec magic MB2_MAGIC) as [->|Hne].
    + destruct (Z.ltb_spec (st + i) (total_pages t')); [by apply Hclear|]. split; [done|]. intros k Hk. rewrite Hu by done.
      split; intros [? ?]; (split; [done|lia]).
    + apply Hclear. destruct Hfit as [?|Hfit]; [done|]. simpl in Hfit. fold st n in Hfit. lia.
  - split; [apply bits_only_refl|]. intros k Hk. split; [intros ?; split; [done|lia]|by intros [? _]].
Qed.

Lemma visit_free magic rs t :
  (forall a l, (a, l) ∈ rs -> 0 <= a < 2 ^ 64 /\ 0 <= l < 2 ^ 64) -> Forall (region_fits magic (total_pages t)) rs ->
  forall k, 0 <= k < total_pages t -> used (visit_regions (free_region magic) t rs) k = true <-> used t k = true /\ ~ available rs k.
Proof.
  revert t. induction rs as [|[a l] rs IH]; intros t Hr Hfit k Hk.
  - unfold available. rewrite Exists_nil. tauto.
  - apply Forall_cons in Hfit as [Hf1 Hfit]. destruct (Hr a l ltac:(set_solver)) as [Ha Hl].
    destruct (free_region_spec magic a l t Ha Hl Hf1) as [[(_ & T & _) _] Hu].
    change (visit_regions (free_region magic) t ((a, l) :: rs)) with (visit_regions (free_region magic) (free_region magic a l t) rs).
    rewrite IH, Hu; rewrite ?T; try done; [|intros; apply Hr; set_solver].
    unfold available. rewrite Exists_cons. simpl. tauto.
Qed.

(** All the bits are set at first, those of the last [total_pages mod 8]
    frames excepted. *)
Lemma fill_spec t :
  0 <= bitmap_size t <= total_pages t / 8 ->
  let t' := for_up (Z.to_nat (bitmap_size t)) 0 (fun i s => with_mem s (store8 (pm_mem s) (bitmap s + i) 0xFF)) t in
  bits_only t t' /\ forall k, 0 <= k < 8 * bitmap_size t -> used t' k = true.
Proof.
  intros Hs. cbv zeta.
  set (P := fun i t' => bits_only t t' /\ forall k, 0 <= k < 8 * i -> used t' k = true).
  assert (P (0 + Z.of_nat (Z.to_nat (bitmap_size t)))
    (for_up (Z.to_nat (bitmap_size t)) 0 (fun i s => with_mem s (store8 (pm_mem s) (bitmap s + i) 0xFF)) t)) as HP.
  2:{ rewrite Z2Nat.id, Z.add_0_l in HP by lia. exact HP. }
  apply for_up_inv.
  - intros i t' Hi [Hb Hu]. pose proof Hb as [(B & _) _]. split.
    + apply (bits_only_trans _ t'); [done|]. split; [done|]. intros x Hx. destruct Hb as [(_ & T & _) _]. apply store8_other. rewrite ?T in *. lia.
    + intros k Hk. unfold used, load8. cbn [pm_mem bitmap with_mem]. unfold store8. pose proof (Z.mod_pos_bound k 8 ltac:(lia)).
      pose proof (Z.div_mod k 8 ltac:(lia)).
      destruct (Z.eqb_spec (bitmap t' + k / 8) (bitmap t' + i)) as [E|E].
      * change (u8 255) with (Z.ones 8). apply Z.ones_spec_low. lia.
      * apply (Hu k). lia.
  - split; [apply bits_only_refl|]. intros; lia.
Qed.

(** ** The whole initialisation *)

Lemma place_bitmap_mb2 m kernel_end mb h :
  mem_ok m -> 0 <= mb < 2 ^ 40 -> mb + load32 m mb <= place_bitmap m kernel_end mb MB2_MAGIC h.
Proof.
  intros Hm Hmb. unfold place_bitmap. cbv zeta. cbn [Z.eqb Pos.eqb MB2_MAGIC]. pose proof (load32_range m mb Hm).
  rewrite u64_small by lia. destruct (Z.ltb_spec (PAGE_ALIGN kernel_end) (mb + load32 m mb)); [|done].
  apply PAGE_ALIGN_spec. lia.
Qed.

Lemma frames_below k e : 0 <= e -> k < (e + PAGE_SIZE - 1) / PAGE_SIZE <-> k * PAGE_SIZE < e.
Proof.
  intros He. unfold PAGE_SIZE. split; intros.
  - pose proof (Z.mul_div_le (e + 4096 - 1) 4096). lia.
  - enough (k + 1 <= (e + 4096 - 1) / 4096) by lia. apply Z.div_le_lower_bound; lia.
Qed.

Lemma nfree_used s n k : 0 <= k < Z.of_nat n -> (if used s k then 0 else 1) <= nfree s n.
Proof.
  induction n as [|n IH]; intros Hk; [lia|]. cbn [nfree]. pose proof (nfree_range s n).
  destruct (decide (k = Z.of_nat n)) as [->|]; [case_match; lia|]. specialize (IH ltac:(lia)). case_match; case_match; lia.
Qed.

Section init.
Variables (fuel : nat) (kernel_end mb magic : Z) (s0 : pmm) (rs : list (Z * Z)).
Let m := pm_mem s0.
(** The geometry [pmm_init] computes. *)
Let total := highest rs / PAGE_SIZE.
Let bmap := place_bitmap m kernel_end mb magic (highest rs).
Let bend := bmap + total / 8.

Hypothesis Hm : mem_ok m.
Hypothesis Hk : 0 < kernel_end < 2 ^ 40.
Hypothesis Hmb : 0 <= mb < 2 ^ 40.
Hypothesis Hlast : last_free_index s0 = 0.
Hypothesis Hmap : boot_map m mb magic rs.
Hypothesis Hfuel : (Z.to_nat (boot_size m mb magic) < fuel)%nat.
(** For Multiboot 1: the boot information lies below the bitmap, and the
    available memory below 4 GB. *)
Hypothesis Hmb1 : magic = MB1_MAGIC ->
  (forall x, boot_info m mb magic x -> x < bmap) /\ Forall (fun r => r.1 + r.2 <= 2 ^ 32) rs.

Lemma geometry_range : 0 <= total <= 2 ^ 20 /\ 0 <= total / 8 <= 2 ^ 17 /\ kernel_end <= bmap < 2 ^ 42 /\ bmap mod PAGE_SIZE = 0.
Proof.
  pose proof (highest_range rs) as Hh. unfold total.
  assert (0 <= highest rs / PAGE_SIZE <= 2 ^ 20) by (unfold PAGE_SIZE; split; [apply Z.div_pos; lia|apply Z.div_le_upper_bound; lia]).
  split; [done|]. split; [split; [apply Z.div_pos; lia|apply Z.div_le_upper_bound; lia]|].
  apply (place_bitmap_spec m); [done|lia|done].
Qed.

Lemma info_below x : boot_info m mb magic x -> x < bmap.
Proof.
  destruct (decide (magic = MB1_MAGIC)) as [->|Hne]; [by apply Hmb1|].
  unfold boot_info. rewrite (proj2 (Z.eqb_neq _ _) Hne). intros [E Hx]. unfold bmap. rewrite E.
  pose proof (place_bitmap_mb2 m kernel_end mb (highest rs) Hm Hmb). lia.
Qed.

Lemma visit_end_le h a l : (a, l) ∈ rs -> Forall (fun r => r.1 + r.2 <= 2 ^ 32) rs ->
  (forall a l, (a, l) ∈ rs -> 0 <= a < 2 ^ 64 /\ 0 <= l < 2 ^ 64) -> a + l <= visit_regions region_end h rs.
Proof.
  assert (forall rs h, h <= visit_regions region_end h rs) as Hge.
  { clear. induction rs as [|[a l] rs IH]; intros h; [done|]. simpl. etransitivity; [|apply IH]. unfold region_end. cbv zeta. case_if; lia. }
  revert h. clear - Hge. induction rs as [|[a' l'] rs' IH]; intros h Hin Hf Hr; [set_solver|]. apply Forall_cons in Hf as [Hf1 Hf].
  simpl in *. apply elem_of_cons in Hin as [[= -> ->]|Hin].
  - etransitivity; [|apply Hge]. unfold region_end. cbv zeta. destruct (Hr a' l' ltac:(set_solver)). rewrite u64_small by lia. case_if; lia.
  - apply IH; [done|done|]. intros. apply Hr. set_solver.
Qed.

Lemma visit_end_top h : h <= 2 ^ 32 -> Forall (fun r => r.1 + r.2 <= 2 ^ 32) rs ->
  (forall a l, (a, l) ∈ rs -> 0 <= a < 2 ^ 64 /\ 0 <= l < 2 ^ 64) -> visit_regions region_end h rs <= 2 ^ 32.
Proof.
  revert h. clear. induction rs as [|[a l] rs' IH]; intros h Hh Hf Hr; [done|]. apply Forall_cons in Hf as [Hf1 Hf]. simpl in *.
  apply IH; [|done|intros; apply Hr; set_solver]. unfold region_end. cbv zeta. destruct (Hr a l ltac:(set_solver)).
  rewrite u64_small by lia. case_if; lia.
Qed.

Lemma regions_fit : Forall (region_fits magic total) rs.
Proof.
  apply Forall_forall. intros [a l] Hin. destruct (decide (magic = MB2_MAGIC)) as [|Hn2]; [by left|]. right. simpl.
  destruct (decide (magic = MB1_MAGIC)) as [E|Hn1].
  2:{ unfold boot_map in Hmap. rewrite (proj2 (Z.eqb_neq _ _) Hn1), (proj2 (Z.eqb_neq _ _) Hn2) in Hmap. rewrite Hmap in Hin. set_solver. }
  destruct (Hmb1 E) as [_ H4]. pose proof (fun a l => boot_map_range m mb magic rs a l Hm Hmap) as Hr.
  destruct (Hr a l Hin) as [Ha Hl]. pose proof (visit_end_le 0 a l Hin H4 Hr) as Hle.
  pose proof (visit_end_top 0 ltac:(lia) H4 Hr) as Htop.
  rewrite Forall_forall in H4. specialize (H4 _ Hin). simpl in H4.
  assert (a + l <= highest rs) as Hh by (unfold highest; cbv zeta; repeat case_if; lia).
  unfold total, PAGE_SIZE. pose proof (Z.div_mod a 4096 ltac:(lia)). pose proof (Z.div_mod l 4096 ltac:(lia)).
  pose proof (Z.mod_pos_bound a 4096 ltac:(lia)). pose proof (Z.mod_pos_bound l 4096 ltac:(lia)).
  apply Z.div_le_lower_bound; lia.
Qed.

(** The frames up to the end of the bitmap reserved, the others counted. *)
Definition swept (sw : pmm) : pmm := count_free (reserve_below ((bend + PAGE_SIZE - 1) / PAGE_SIZE) sw).

(** The state after the second pass, and what [pmm_init] makes of it. *)
Lemma pmm_init_runs :
  if 0x40000000 <? bend then pmm_init fuel kernel_end mb magic s0 = Halt
  else exists sw,
    pmm_init fuel kernel_end mb magic s0 =
      Done (reserve_kernel (fallback (swept sw))) /\
    same_geometry (PMM m bmap total (total / 8) (highest rs) (free_memory s0) 0) sw /\
    forall k, 0 <= k < 8 * (total / 8) -> used sw k = true <-> ~ available rs k.
Proof.
  destruct geometry_range as (Ht & Hs & Hb & Hba). unfold pmm_init. cbv zeta. fold m.
  rewrite (detect_highest_visit fuel m mb magic rs Hm Hmap Hmb Hfuel). cbn [mbind ending_bind]. fold total bmap.
  rewrite u64_small by lia. fold bend. rewrite Hlast. destruct (Z.ltb_spec 0x40000000 bend) as [|Hle]; [done|].
  set (s1 := PMM m bmap total (total / 8) (highest rs) (free_memory s0) 0).
  destruct (fill_spec s1) as [Hfill Hones]; [simpl; lia|]. cbn [bitmap_size s1] in Hfill, Hones.
  match goal with |- context [walk_map _ _ _ _ _ ?t] => set (sf := t) in * end.
  pose proof (fun a l => boot_map_range m mb magic rs a l Hm Hmap) as Hr. pose proof regions_fit as Hfit. rewrite Forall_forall in Hfit.
  destruct (walk_visit pm_mem (free_region magic) m (bits_only s1) Hm mb magic rs fuel sf Hmap Hmb Hfuel) as [E HI]; [| |done|].
  { intros t [_ HM] x Hx. apply (HM x). left. simpl. by apply info_below. }
  { intros a l t Hin Ht'. apply (bits_only_trans _ t); [done|]. destruct (Hr a l Hin) as [Ha Hl].
    apply free_region_spec; [done|done|]. destruct Ht' as [(_ & -> & _) _]. by apply (Hfit (a, l)). }
  rewrite E. cbn [mbind ending_bind]. pose proof HI as [HG _]. pose proof HG as (B & _ & S & _). cbn [bitmap bitmap_size s1] in B, S.
  exists (visit_regions (free_region magic) sf rs). rewrite B, S, u64_small by lia. split; [done|]. split; [done|].
  intros k Hk8. pose proof Hfill as [(_ & T & _) _]. cbn [total_pages s1] in T.
  pose proof (Z.mul_div_le total 8 ltac:(lia)).
  rewrite (visit_free magic rs sf Hr) by (rewrite T; (lia || apply regions_fit)).
  rewrite Hones by done. tauto.
Qed.

(** Bits set before and after the count. *)
Lemma reserved_used sw k :
  same_geometry (PMM m bmap total (total / 8) (highest rs) (free_memory s0) 0) sw -> 0 <= k ->
  used (count_free (reserve_below ((bend + PAGE_SIZE - 1) / PAGE_SIZE) sw)) k =
  if decide (k * PAGE_SIZE < bend) then true else used sw k.
Proof.
  intros HG Hk0. destruct geometry_range as (Ht & Hs & Hb & _).
  set (sr := reserve_below _ sw). pose proof (reserve_below_geometry ((bend + PAGE_SIZE - 1) / PAGE_SIZE) sw) as HGr. fold sr in HGr.
  pose proof (geometry_trans _ _ _ HG HGr) as (_ & Tr & _). simpl in Tr.
  destruct (count_free_spec sr) as [Hcm _]; [lia|]. destruct (count_free_geometry sr) as (Cb & _).
  assert (used (count_free sr) k = used sr k) as -> by (unfold used; by rewrite Hcm, Cb).
  unfold sr, reserve_below. pose proof (set_prefix_spec (fun _ _ => true)) as Hp. simpl in Hp. rewrite Hp by done.
  assert (0 <= bend) by (unfold bend; lia). rewrite Z2Nat.id by (apply Z.div_pos; unfold PAGE_SIZE; lia).
  assert (k < (bend + PAGE_SIZE - 1) / PAGE_SIZE <-> k * PAGE_SIZE < bend) as E by (apply frames_below; lia).
  repeat case_decide; tauto.
Qed.

(** Nothing is free: everything above 1 MB is freed. *)
Lemma fallback_used t k :
  0 <= total_pages t <= 2 ^ 20 -> highest_addr t / PAGE_SIZE = total_pages t -> pmm_acct t ->
  (forall j, 0 <= j < total_pages t -> used t j = true) -> 0 <= k < total_pages t ->
  used (fallback t) k = true <-> k < 256.
Proof.
  intros Ht Hh Hacct Hall Hk0. unfold fallback.
  assert (free_memory t = 0) as ->.
  { rewrite Hacct. pose proof (nfree_range t (Z.to_nat (total_pages t))). destruct (decide (0 < nfree t (Z.to_nat (total_pages t)))) as [Hp|]; [|unfold PAGE_SIZE; lia].
    destruct (nfree_pos _ _ Hp) as (j & Hj & Hu). rewrite Hall in Hu by lia. done. }
  cbn [Z.eqb andb]. destruct (Z.ltb_spec 0x100000 (highest_addr t)) as [Hgt|Hle].
  2:{ rewrite Hall by done. split; [|done]. intros _. rewrite <- Hh in Hk0. unfold PAGE_SIZE in Hk0.
      pose proof (Z.div_le_mono (highest_addr t) 0x100000 4096 ltac:(lia) Hle). change (0x100000 / 4096) with 256 in *. lia. }
  cbv zeta. change (0x100000 / PAGE_SIZE) with 256. rewrite Hh.
  assert (256 <= total_pages t) as H256.
  { rewrite <- Hh. unfold PAGE_SIZE. apply Z.div_le_lower_bound; lia. }
  set (u := for_up _ 256 _ t).
  assert (same_geometry t u /\ forall j, 0 <= j < total_pages t -> used u j = true <-> ~ (256 <= j < total_pages t)) as [HG Hu].
  { set (P := fun i u => same_geometry t u /\ forall j, 0 <= j < total_pages t -> used u j = true <-> ~ (256 <= j < i)).
    pose proof (for_up_inv P (fun i s => pmm_clear_bit s i) (Z.to_nat (total_pages t - 256)) 256 t) as HI.
    rewrite Z2Nat.id in HI by lia. replace (256 + (total_pages t - 256)) with (total_pages t) in HI by lia. apply HI.
    - intros i v Hi [HG Hv]. split; [done|]. intros j Hj. rewrite used_clear by lia. case_decide; [split; [done|lia]|].
      rewrite Hv by done. lia.
    - split; [done|]. intros j Hj. rewrite Hall by done. split; [lia|done]. }
  pose proof HG as (_ & T & _). destruct (count_free_spec u) as [Hcm _]; [lia|]. destruct (count_free_geometry u) as (Cb & _).
  assert (used (count_free u) k = used u k) as -> by (unfold used; by rewrite Hcm, Cb). rewrite Hu by done. lia.
Qed.

Lemma swept_geometry sw :
  same_geometry (PMM m bmap total (total / 8) (highest rs) (free_memory s0) 0) sw ->
  same_geometry (PMM m bmap total (total / 8) (highest rs) (free_memory s0) 0) (swept sw) /\ pmm_acct (swept sw).
Proof.
  intros HG. destruct geometry_range as (Ht & _).
  pose proof (geometry_trans _ _ _ HG (reserve_below_geometry ((bend + PAGE_SIZE - 1) / PAGE_SIZE) sw)) as HGr.
  split; [exact (geometry_trans _ _ _ HGr (count_free_geometry _))|]. unfold swept. set (sr := reserve_below _ sw) in *.
  destruct HGr as (_ & Tr & _). cbn [total_pages] in Tr. destruct (count_free_spec sr) as [Hcm Hcf]; [lia|].
  destruct (count_free_geometry sr) as (Cb & Ct & _). unfold pmm_acct. rewrite Hcf, Ct. f_equal. symmetry. apply nfree_ext.
  intros j _. unfold used. by rewrite Hcm, Cb.
Qed.

Lemma init_used sw k :
  bend <= 0x40000000 -> same_geometry (PMM m bmap total (total / 8) (highest rs) (free_memory s0) 0) sw -> 0 <= k < total ->
  used (reserve_kernel (fallback (swept sw))) k = if decide (k * PAGE_SIZE < bend) then true else used (fallback (swept sw)) k.
Proof.
  intros Hle HG Hk0. destruct geometry_range as (Ht & Hs & Hb & _).
  destruct (swept_geometry sw HG) as [HGt _].
  pose proof (geometry_trans _ _ _ HGt (fallback_geometry _)) as (Gb & Gt & Gs & _). cbn [bitmap total_pages bitmap_size] in *.
  rewrite reserve_kernel_used by lia. rewrite Gb, Gt, Gs. fold bend.
  unfold PAGE_SIZE in *. repeat case_decide; try done; lia.
Qed.

(** An available frame above the bitmap: no fallback. *)
Lemma init_available sw :
  bend <= 0x40000000 -> same_geometry (PMM m bmap total (total / 8) (highest rs) (free_memory s0) 0) sw -> total mod 8 = 0 ->
  (forall k, 0 <= k < 8 * (total / 8) -> used sw k = true <-> ~ available rs k) ->
  (exists k, 0 <= k < total /\ bend <= k * PAGE_SIZE /\ available rs k) ->
  pmm_acct (reserve_kernel (fallback (swept sw))) /\
  forall k, 0 <= k < total -> used (reserve_kernel (fallback (swept sw))) k = false <-> bend <= k * PAGE_SIZE /\ available rs k.
Proof.
  intros Hle HG H8 Hav (k0 & Hk0 & Hbe & Ha0). destruct geometry_range as (Ht & Hs & Hb & _).
  pose proof (Z.div_mod total 8 ltac:(lia)) as Hd. rewrite H8, Z.add_0_r in Hd. rewrite <- Hd in Hav.
  assert (forall k, 0 <= k < total -> used (swept sw) k = false <-> bend <= k * PAGE_SIZE /\ available rs k) as Hu.
  { intros k Hkt. unfold swept. rewrite reserved_used by (done || lia). case_decide; [split; [done|lia]|].
    rewrite <- not_true_iff_false, Hav by done. destruct (decide (available rs k)); split; try tauto. intros _. split; [lia|done]. }
  destruct (swept_geometry sw HG) as [(_ & Tt & _) Hacct]. cbn [total_pages] in Tt.
  assert (fallback (swept sw) = swept sw) as Hfb.
  { assert (free_memory (swept sw) <> 0) as Hne; [|unfold fallback; by rewrite (proj2 (Z.eqb_neq _ _) Hne)].
    rewrite Hacct, Tt. pose proof (nfree_used (swept sw) (Z.to_nat total) k0 ltac:(lia)) as Hn.
    rewrite (proj2 (Hu k0 Hk0)) in Hn by done. unfold PAGE_SIZE. lia. }
  pose proof (fun k Hk => init_used sw k Hle HG Hk) as Hr. rewrite Hfb in *.
  assert (forall k, 0 <= k < total -> used (reserve_kernel (swept sw)) k = used (swept sw) k) as E.
  { intros k Hkt. rewrite Hr by done. case_decide; [|done]. symmetry. apply not_false_iff_true. rewrite Hu by done. lia. }
  split; [|intros k Hkt; by rewrite E, Hu].
  assert (free_memory (reserve_kernel (swept sw)) = free_memory (swept sw)) as Ef.
  { unfold reserve_kernel. cbv zeta.
    apply (for_up_inv (fun _ t => free_memory t = free_memory (swept sw))); [|done]. intros j t _ <-. by destruct (_ <? _). }
  destruct (reserve_kernel_geometry (swept sw)) as (_ & T & _). unfold pmm_acct. rewrite Ef, Hacct, T, Tt.
  f_equal. symmetry. apply nfree_ext. intros j Hj. apply E. lia.
Qed.

(** No available frame above the bitmap: the fallback. *)
Lemma init_fallback sw :
  bend <= 0x40000000 -> same_geometry (PMM m bmap total (total / 8) (highest rs) (free_memory s0) 0) sw -> total mod 8 = 0 ->
  (forall k, 0 <= k < 8 * (total / 8) -> used sw k = true <-> ~ available rs k) ->
  (forall k, 0 <= k < total -> bend <= k * PAGE_SIZE -> ~ available rs k) ->
  forall k, 0 <= k < total -> used (reserve_kernel (fallback (swept sw))) k = false <-> bend <= k * PAGE_SIZE /\ 256 <= k.
Proof.
  intros Hle HG H8 Hav Hno k Hkt. destruct geometry_range as (Ht & Hs & Hb & _).
  pose proof (Z.div_mod total 8 ltac:(lia)) as Hd. rewrite H8, Z.add_0_r in Hd. rewrite <- Hd in Hav.
  destruct (swept_geometry sw HG) as [(_ & Tt & _ & Th & _) Hacct]. cbn [total_pages highest_addr] in Tt, Th.
  rewrite init_used by done. case_decide; [split; [done|lia]|].
  rewrite <- not_true_iff_false, fallback_used; rewrite ?Tt, ?Th; try done; [lia|].
  intros j Hj. unfold swept. rewrite reserved_used by (done || lia). case_decide; [done|]. apply Hav; [done|]. apply Hno; [done|lia].
Qed.
End init.

(** ** Properties *)


(** A 64-frame machine described by a Multiboot 2 map with one available
    region, from 0x3000 to 0x40000, booted by a kernel that ends at 0x1800. *)
Definition demo_mem : mem :=
  let m := store32 (fun _ => 0) 0x9000 56 in
  let m := store32 (store32 m 0x9008 6) 0x900C 40 in
  let m := store32 m 0x9010 24 in
  let m := store64 (store64 m 0x9018 0x3000) 0x9020 0x3D000 in
  store32 m 0x9028 1.

Lemma demo_mem_ok : mem_ok demo_mem.
Proof. unfold demo_mem, store32, store64. repeat apply store_le_ok. intros a. lia. Qed.

Definition demo_regions : list (Z * Z) := [(0x3000, 0x3D000)].

Lemma demo_boot_map : boot_map demo_mem 0x9000 MB2_MAGIC demo_regions.
Proof.
  change (mb2_map demo_mem (0x9000 + load32 demo_mem 0x9000) 0x9008 demo_regions).
  assert (load32 demo_mem 0x9000 = 56) as -> by (vm_compute; reflexivity).
  assert (load32 demo_mem 0x9008 = 6 /\ load32 demo_mem (0x9008 + 4) = 40 /\ load32 demo_mem (0x9008 + 8) = 24 /\
    load32 demo_mem 0x9030 = 0) as (E1 & E2 & E3 & E4) by (vm_compute; auto).
  assert (demo_regions = (if load32 demo_mem 0x9008 =? 6 then mb2_regions demo_mem 0x9008 else []) ++ []) as ->
    by (vm_compute; reflexivity).
  apply mb2_map_tag; rewrite ?E1, ?E2, ?E3; [lia|lia|lia|lia|]. change (0x9008 + 8 * ((40 + 7) / 8)) with 0x9030.
  apply mb2_map_end; [lia|exact E4].
Qed.

Lemma demo_available k : 3 <= k < 64 -> available demo_regions k.
Proof. intros Hk. left. cbn [fst snd]. change (0x3000 / PAGE_SIZE) with 3. change (0x3D000 / PAGE_SIZE) with 61. lia. Qed.


End PmmInit.
