(* ===== verification/Heap.v ===== *)
(** * The kernel heap (src/kernel/memory/heap.c)

    The heap is a doubly linked list of block headers that tile the heap
    region.  The store maps the address of every header ever written to its
    fields (a merged header stays behind in memory, as in the code); reading a
    header where none was written is [None].  The abstract heap is the list of
    the sizes and free flags of the blocks in address order. *)
From S2P Require Import Prelude Spinlock Allocator.

Module Heap.

(** ** Definitions *)

Record heap_block := HB { size : Z; next : Z; prev : Z; free : Z; magic : Z }.

Definition HEAP_BLOCK_SIZE : Z := 40.
Definition HEAP_MAGIC : Z := 0x12345678.

Record heap := HEAP {
  blocks : gmap Z heap_block;
  free_list : Z;
  heap_lock : Spinlock.spinlock_t
}.

(** The header written by [heap_init]; mapping the pages behind it is the
    work of the page tables. *)
Definition heap_init (h : heap) (start_virt sz : Z) : heap :=
  HEAP (<[start_virt := HB (u64 (sz - HEAP_BLOCK_SIZE)) 0 0 1 HEAP_MAGIC]> (blocks h)) start_virt
       (Spinlock.spinlock_init (heap_lock h)).

Definition set_prev (hb : gmap Z heap_block) (a p : Z) : option (gmap Z heap_block) :=
  b ← hb !! a; Some (<[a := HB (size b) (next b) p (free b) (magic b)]> hb).

Definition aligned (sz : Z) : Z := Z.ldiff (u64 (sz + 7)) 7.

(** The search of [kmalloc]: the first free block that is large enough.  The
    inner option is [None] for a fault, the result 0 for the end of the list. *)
Definition search_step (hb : gmap Z heap_block) (n : Z) : Z -> Z + option Z :=
  fun curr =>
    if curr =? 0 then inr (Some 0)
    else match hb !! curr with
         | None => inr None
         | Some b => if negb (free b =? 0) && (n <=? size b) then inr (Some curr) else inl (next b)
         end.

(** Splitting the found block when the rest can hold a header and 16 bytes. *)
Definition split_block (hb : gmap Z heap_block) (curr : Z) (n : Z) : option (gmap Z heap_block) :=
  b ← hb !! curr;
  if u64 (n + HEAP_BLOCK_SIZE + 16) <? size b then
    let new_block := u64 (curr + HEAP_BLOCK_SIZE + n) in
    let hb := <[new_block := HB (u64 (size b - n - HEAP_BLOCK_SIZE)) (next b) curr 1 HEAP_MAGIC]> hb in
    hb ← (if negb (next b =? 0) then set_prev hb (next b) new_block else Some hb);
    c ← hb !! curr;
    Some (<[curr := HB n new_block (prev c) (free c) (magic c)]> hb)
  else Some hb.

Definition kmalloc_body (hb : gmap Z heap_block) (first sz : Z) : option (gmap Z heap_block * Z) :=
  let n := aligned sz in
  curr ← mjoin (loop (S (S (base.size hb))) (search_step hb n) first);
  if curr =? 0 then Some (hb, 0)
  else
    hb ← split_block hb curr n;
    c ← hb !! curr;
    Some (<[curr := HB (size c) (next c) (prev c) 0 (magic c)]> hb, u64 (curr + HEAP_BLOCK_SIZE)).

Definition kmalloc (c : Spinlock.cpu) (h : heap) (sz : Z) : option (Spinlock.cpu * heap * Z) :=
  if sz =? 0 then Some (c, h, 0)
  else
    '(c, lk, (hb, p)) ← Spinlock.critical c (heap_lock h) (kmalloc_body (blocks h) (free_list h) sz);
    Some (c, HEAP hb (free_list h) lk, p).

(** [left] takes over [right], its neighbour: the body of both coalescing
    branches of [kfree]. *)
Definition absorb (hb : gmap Z heap_block) (left right : Z) : option (gmap Z heap_block) :=
  l ← hb !! left;
  r ← hb !! right;
  let hb := <[left := HB (u64 (size l + (HEAP_BLOCK_SIZE + size r))) (next r) (prev l) (free l) (magic l)]> hb in
  if negb (next r =? 0) then set_prev hb (next r) left else Some hb.

Definition kfree_body (hb : gmap Z heap_block) (ptr : Z) : option (gmap Z heap_block) :=
  let block := u64 (ptr - HEAP_BLOCK_SIZE) in
  b ← hb !! block;
  if negb (magic b =? HEAP_MAGIC) then Some hb
  else
    let hb := <[block := HB (size b) (next b) (prev b) 1 (magic b)]> hb in
    hb ← (if negb (next b =? 0) then
            n ← hb !! next b;
            if negb (free n =? 0) then absorb hb block (next b) else Some hb
          else Some hb);
    b ← hb !! block;
    if negb (prev b =? 0) then
      p ← hb !! prev b;
      if negb (free p =? 0) then absorb hb (prev b) block else Some hb
    else Some hb.

Definition kfree (c : Spinlock.cpu) (h : heap) (ptr : Z) : option (Spinlock.cpu * heap) :=
  if ptr =? 0 then Some (c, h)
  else
    '(c, lk, hb) ← Spinlock.critical c (heap_lock h) (kfree_body (blocks h) ptr);
    Some (c, HEAP hb (free_list h) lk).

(** The figures [heap_dump_stats] prints: free blocks and free bytes. *)
Definition stats_step (hb : gmap Z heap_block) : Z * Z * Z -> (Z * Z * Z) + option (Z * Z) :=
  fun '(curr, count, total_free) =>
    if curr =? 0 then inr (Some (count, total_free))
    else match hb !! curr with
         | None => inr None
         | Some b => if negb (free b =? 0)
                     then inl (next b, s32 (count + 1), u64 (total_free + size b))
                     else inl (next b, count, total_free)
         end.

Definition heap_dump_stats (h : heap) : option (Z * Z) :=
  mjoin (loop (S (S (base.size (blocks h)))) (stats_step (blocks h)) (free_list h, 0, 0)).

(** ** The abstract heap *)

(** A block: its size and whether it is free. *)
Abbreviation tile := (Z * bool)%type.

Definition b2z (b : bool) : Z := if b then 1 else 0.

Fixpoint tot (l : list tile) : Z :=
  match l with
  | [] => 0
  | (sz, _) :: l' => HEAP_BLOCK_SIZE + sz + tot l'
  end.

(** The address of the block list [l] at [a], or [z] when [l] is empty. *)
Definition nxt (a : Z) (l : list tile) (z : Z) : Z := match l with [] => z | _ => a end.

(** The headers of [l] lie end to end from [a], linked both ways; [p] precedes
    the first block and the last one points to [z]. *)
Fixpoint rep (hb : gmap Z heap_block) (p a : Z) (l : list tile) (z : Z) : Prop :=
  match l with
  | [] => True
  | (sz, fr) :: l' =>
      hb !! a = Some (HB sz (nxt (a + HEAP_BLOCK_SIZE + sz) l' z) p (b2z fr) HEAP_MAGIC) /\
      rep hb a (a + HEAP_BLOCK_SIZE + sz) l' z
  end.

Fixpoint lastp (p a : Z) (l : list tile) : Z :=
  match l with
  | [] => p
  | (sz, _) :: l' => lastp a (a + HEAP_BLOCK_SIZE + sz) l'
  end.

(** Sizes are non-negative and the whole heap fits below 2^63. *)
Definition tiles_ok (base : Z) (l : list tile) : Prop :=
  0 < base /\ Forall (fun '(sz, _) => 0 <= sz) l /\ base + tot l < 2 ^ 63.

(** The heap [h] represents the tiles [l]. *)
Definition heap_rep (h : heap) (l : list tile) : Prop :=
  tiles_ok (free_list h) l /\ l <> [] /\ rep (blocks h) 0 (free_list h) l 0.

(** First fit with splitting, and freeing with coalescing, on tiles. *)
Fixpoint spec_alloc (n : Z) (l : list tile) : option (Z * list tile) :=
  match l with
  | [] => None
  | (sz, fr) :: l' =>
      if fr && (n <=? sz) then
        Some (0, if n + HEAP_BLOCK_SIZE + 16 <? sz
                 then (n, false) :: (sz - n - HEAP_BLOCK_SIZE, true) :: l'
                 else (sz, false) :: l')
      else
        '(off, l') ← spec_alloc n l';
        Some (HEAP_BLOCK_SIZE + sz + off, (sz, fr) :: l')
  end.

(** Merge the first tile of [r] into a freed tile of size [sz]. *)
Definition merge_next (sz : Z) (r : list tile) : list tile :=
  match r with
  | (sz', true) :: r' => (sz + (HEAP_BLOCK_SIZE + sz'), true) :: r'
  | _ => (sz, true) :: r
  end.

(** Merge the first tile of [r] into the last tile of [l1] when that is free. *)
Definition merge_prev (l1 r : list tile) : list tile :=
  match rev l1, r with
  | (sz0, true) :: l0, (sz, _) :: r' => rev l0 ++ (sz0 + (HEAP_BLOCK_SIZE + sz), true) :: r'
  | _, _ => l1 ++ r
  end.

(** Free a tile of size [sz] between [l1] and [l2]. *)
Definition spec_free (l1 : list tile) (sz : Z) (l2 : list tile) : list tile :=
  merge_prev l1 (merge_next sz l2).

(** The live blocks: address of the payload and size. *)
Fixpoint live (a : Z) (l : list tile) : list (Z * Z) :=
  match l with
  | [] => []
  | (sz, fr) :: l' =>
      (if fr then [] else [(a + HEAP_BLOCK_SIZE, sz)]) ++ live (a + HEAP_BLOCK_SIZE + sz) l'
  end.

(** No two neighbouring tiles are both free. *)
Fixpoint coalesced (l : list tile) : bool :=
  match l with
  | (_, f1) :: (((_, f2) :: _) as l') => negb (f1 && f2) && coalesced l'
  | _ => true
  end.

(** ** Lemmas on tilings *)

Lemma tot_app l1 l2 : tot (l1 ++ l2) = tot l1 + tot l2.
Proof. induction l1 as [|[sz fr] l1 IH]; simpl; [done|]. rewrite IH. lia. Qed.

Lemma tot_nonneg l : Forall (fun '(sz, _) => 0 <= sz) l -> 0 <= tot l.
Proof. induction 1 as [|[sz fr] l Hs _ IH]; simpl; unfold HEAP_BLOCK_SIZE; lia. Qed.

Lemma nxt_app a l1 l2 z : nxt a (l1 ++ l2) z = nxt a l1 (nxt a l2 z).
Proof. by destruct l1. Qed.

Lemma rep_app hb p a l1 l2 z :
  rep hb p a (l1 ++ l2) z <->
  rep hb p a l1 (nxt (a + tot l1) l2 z) /\ rep hb (lastp p a l1) (a + tot l1) l2 z.
Proof.
  revert p a. induction l1 as [|[sz fr] l1 IH]; intros p a; simpl.
  - rewrite Z.add_0_r. tauto.
  - rewrite IH. replace (a + HEAP_BLOCK_SIZE + sz + tot l1) with (a + (HEAP_BLOCK_SIZE + sz + tot l1)) by lia.
    rewrite nxt_app. destruct l1 as [|[sz1 fr1] l1]; simpl; [|tauto].
    replace (a + (HEAP_BLOCK_SIZE + sz + 0)) with (a + HEAP_BLOCK_SIZE + sz) by lia. tauto.
Qed.

(** The tiling only reads headers inside its own region. *)
Lemma rep_frame hb hb' p a l z :
  Forall (fun '(sz, _) => 0 <= sz) l ->
  (forall x, a <= x < a + tot l -> hb' !! x = hb !! x) -> rep hb p a l z -> rep hb' p a l z.
Proof.
  revert p a. induction l as [|[sz fr] l IH]; intros p a Hok Hx H; [done|]. simpl in *.
  apply Forall_cons in Hok as [Hsz Hok]. pose proof (tot_nonneg l Hok). unfold HEAP_BLOCK_SIZE in *.
  destruct H as [H1 H2]. split; [rewrite Hx by lia; done|].
  apply IH; [done| |done]. intros x Hx'. apply Hx. lia.
Qed.

(** Changing the predecessor of a non-empty tiling. *)
Lemma rep_set_prev hb p p' a l z :
  l <> [] -> Forall (fun '(sz, _) => 0 <= sz) l -> rep hb p a l z ->
  exists hb', set_prev hb a p' = Some hb' /\ rep hb' p' a l z /\
    (forall x, x <> a -> hb' !! x = hb !! x).
Proof.
  destruct l as [|[sz fr] l]; [done|]. intros _ Hok [H1 H2]. apply Forall_cons in Hok as [Hsz Hok].
  unfold set_prev. rewrite H1. eexists. split; [done|]. split.
  - simpl. split; [by rewrite lookup_insert_eq|].
    revert H2. apply rep_frame; [done|]. intros x Hx. unfold HEAP_BLOCK_SIZE in *.
    apply lookup_insert_ne. lia.
  - intros x Hx. by apply lookup_insert_ne.
Qed.

(** ** Searching *)

Lemma search_spec hb n p a l fuel :
  0 < a -> Forall (fun '(sz, _) => 0 <= sz) l -> rep hb p a l 0 -> (length l < fuel)%nat ->
  loop fuel (search_step hb n) (nxt a l 0) =
    Some (Some (match spec_alloc n l with Some (off, _) => a + off | None => 0 end)).
Proof.
  revert p a fuel. induction l as [|[sz fr] l IH]; intros p a fuel Ha Hok H Hf.
  - destruct fuel; [simpl in Hf; lia|]. done.
  - destruct fuel as [|fuel]; [simpl in Hf; lia|]. simpl in H, Hf. destruct H as [H1 H2].
    apply Forall_cons in Hok as [Hsz Hok].
    cbn [loop nxt]. unfold search_step at 1. rewrite (proj2 (Z.eqb_neq a 0)), H1 by lia. simpl.
    replace (negb (b2z fr =? 0)) with fr by (by destruct fr).
    destruct (fr && (n <=? sz)) eqn:E; [simpl; do 2 f_equal; lia|].
    rewrite (IH a) by (try done; unfold HEAP_BLOCK_SIZE; lia).
    destruct (spec_alloc n l) as [[off l']|]; simpl; do 2 f_equal. lia.
Qed.

(** Where [spec_alloc] found its block. *)
Lemma spec_alloc_split n l off l' :
  spec_alloc n l = Some (off, l') ->
  exists l1 sz l2, l = l1 ++ (sz, true) :: l2 /\ off = tot l1 /\ n <= sz /\
    l' = l1 ++ (if n + HEAP_BLOCK_SIZE + 16 <? sz
                then (n, false) :: (sz - n - HEAP_BLOCK_SIZE, true) :: l2
                else (sz, false) :: l2).
Proof.
  revert off l'. induction l as [|[sz fr] l IH]; intros off l' H; [done|]. simpl in H.
  destruct (fr && (n <=? sz)) eqn:E.
  - injection H as <- <-. apply andb_prop in E as [-> E]. simpl_bool. by exists [], sz, l.
  - destruct (spec_alloc n l) as [[o l0]|] eqn:Es; simplify_eq/=.
    destruct (IH _ _ eq_refl) as (l1 & s1 & l2 & -> & -> & Hle & ->).
    exists ((sz, fr) :: l1), s1, l2. done.
Qed.

Lemma rep_length hb p a l z :
  Forall (fun '(sz, _) => 0 <= sz) l -> rep hb p a l z -> (length l <= base.size hb)%nat.
Proof.
  intros Hok H.
  enough (exists D : gset Z, D ⊆ dom hb /\ length l = base.size D /\ forall x, x ∈ D -> a <= x) as (D & Hs & -> & _).
  { rewrite <- (size_dom hb). by apply subseteq_size. }
  revert p a H. induction Hok as [|[sz fr] l Hsz Hok IH]; intros p a H; simpl in *.
  - exists ∅. split; [set_solver|]. split; [by rewrite size_empty|set_solver].
  - destruct H as [H1 H2]. destruct (IH _ _ H2) as (D & Hs & Hl & Ha). unfold HEAP_BLOCK_SIZE in *.
    exists ({[a]} ∪ D). split; [|split].
    + apply union_subseteq. split; [|done]. apply singleton_subseteq_l, elem_of_dom. by eexists.
    + rewrite size_union, size_singleton, Hl; [done|]. intros x Hx Hd. apply Ha in Hd. set_solver by lia.
    + intros x Hx. apply elem_of_union in Hx as [Hx|Hx]; [set_solver|]. apply Ha in Hx. lia.
Qed.

(** ** Allocation *)

(** Taking the tile at the end of the prefix [l1]. *)
Lemma split_block_rep hb p base l1 sz l2 n :
  0 < base -> base + tot (l1 ++ (sz, true) :: l2) < 2 ^ 63 ->
  Forall (fun '(sz, _) => 0 <= sz) (l1 ++ (sz, true) :: l2) -> 0 <= n <= sz ->
  rep hb p base (l1 ++ (sz, true) :: l2) 0 ->
  exists hb' c, split_block hb (base + tot l1) n = Some hb' /\ hb' !! (base + tot l1) = Some c /\
    rep (<[base + tot l1 := HB (size c) (next c) (prev c) 0 (magic c)]> hb') p base
      (l1 ++ (if n + HEAP_BLOCK_SIZE + 16 <? sz
              then (n, false) :: (sz - n - HEAP_BLOCK_SIZE, true) :: l2
              else (sz, false) :: l2)) 0.
Proof.
  intros Hb Htot Hok Hn Hrep. set (a := base + tot l1).
  apply Forall_app in Hok as [Hok1 Hok2]. apply Forall_cons in Hok2 as [Hsz Hok2].
  pose proof (tot_nonneg l1 Hok1). pose proof (tot_nonneg l2 Hok2).
  rewrite tot_app in Htot. cbn [tot] in Htot. unfold HEAP_BLOCK_SIZE in *.
  apply rep_app in Hrep as [Hr1 [Ha Hr2]]. fold a in Ha, Hr2. cbn [nxt] in Hr1. fold a in Hr1.
  unfold split_block. rewrite Ha. cbn [mbind option_bind size next]. unfold HEAP_BLOCK_SIZE in *.
  rewrite u64_small by lia. destruct (n + 40 + 16 <? sz) eqn:E; simpl_bool.
  - rewrite !u64_small by lia. set (nb := a + 40 + n).
    set (hb1 := <[nb := _]> hb).
    assert (rep hb1 a (a + 40 + sz) l2 0) as Hr2'.
    { revert Hr2. apply rep_frame; [done|]. intros x Hx. apply lookup_insert_ne. lia. }
    assert (exists hb2, (if negb (nxt (a + 40 + sz) l2 0 =? 0) then set_prev hb1 (nxt (a + 40 + sz) l2 0) nb
                         else Some hb1) = Some hb2 /\ rep hb2 nb (a + 40 + sz) l2 0 /\
             forall x, x < a + 40 + sz -> hb2 !! x = hb1 !! x) as (hb2 & Hh2 & Hr2'' & Hfr).
    { destruct l2 as [|t l2]; [by exists hb1|]. cbn [nxt].
      rewrite (proj2 (Z.eqb_neq (a + 40 + sz) 0)) by lia. simpl negb.
      destruct (rep_set_prev hb1 a nb (a + 40 + sz) (t :: l2) 0) as (hb2 & ? & ? & Hx); [done..|].
      exists hb2. split; [done|]. split; [done|]. intros x Hlt. apply Hx. lia. }
    rewrite Hh2. cbn [mbind option_bind].
    assert (hb2 !! a = hb !! a) as Ha2.
    { rewrite Hfr by lia. apply lookup_insert_ne. lia. }
    rewrite Ha2, Ha. cbn [mbind option_bind].
    eexists _, _. split; [done|]. split; [apply lookup_insert_eq|]. cbn [size next prev free magic].
    rewrite insert_insert_eq. apply rep_app. cbn [nxt rep tot]. fold a. unfold HEAP_BLOCK_SIZE.
    split; [|split; [by rewrite lookup_insert_eq|split]].
    + revert Hr1. apply rep_frame; [done|]. intros x Hx. rewrite lookup_insert_ne by lia.
      rewrite Hfr by lia. apply lookup_insert_ne. lia.
    + rewrite lookup_insert_ne by lia. rewrite Hfr by lia. unfold hb1, nb. rewrite lookup_insert_eq.
      do 2 f_equal. f_equal. lia.
    + replace (a + 40 + n + 40 + (sz - n - 40)) with (a + 40 + sz) by lia.
      revert Hr2''. apply rep_frame; [done|]. intros x Hx. apply lookup_insert_ne. lia.
  - exists hb, (HB sz (nxt (a + 40 + sz) l2 0) (lastp p base l1) (b2z true) HEAP_MAGIC).
    split; [done|]. split; [done|]. cbn [size next prev free magic].
    apply rep_app. cbn [nxt rep tot]. fold a. unfold HEAP_BLOCK_SIZE.
    split; [|split; [by rewrite lookup_insert_eq|]].
    + revert Hr1. apply rep_frame; [done|]. intros x Hx. apply lookup_insert_ne. lia.
    + revert Hr2. apply rep_frame; [done|]. intros x Hx. apply lookup_insert_ne. lia.
Qed.

Lemma aligned_spec sz : 0 < sz < 2 ^ 63 -> sz <= aligned sz <= sz + 7 /\ aligned sz mod 8 = 0.
Proof.
  intros H. unfold aligned. rewrite u64_small by lia.
  assert (Z.ldiff (sz + 7) 7 = (sz + 7) / 8 * 8) as ->.
  { change (Z.ldiff (sz + 7) (Z.ones 3) = (sz + 7) / 2 ^ 3 * 2 ^ 3).
    by rewrite Z.ldiff_ones_r, Z.shiftl_mul_pow2, Z.shiftr_div_pow2 by lia. }
  pose proof (Z.div_mod (sz + 7) 8 ltac:(lia)).
  pose proof (Z.mod_pos_bound (sz + 7) 8 ltac:(lia)). split; [lia|]. by apply Z.mod_mul.
Qed.

Lemma kmalloc_body_rep hb base l sz :
  tiles_ok base l -> l <> [] -> rep hb 0 base l 0 -> 0 <= aligned sz ->
  match spec_alloc (aligned sz) l with
  | Some (off, l') => exists hb', kmalloc_body hb base sz = Some (hb', base + off + HEAP_BLOCK_SIZE) /\
                                  rep hb' 0 base l' 0
  | None => kmalloc_body hb base sz = Some (hb, 0)
  end.
Proof.
  intros (Hb & Hok & Htot) Hne Hrep Hn. unfold kmalloc_body. cbv zeta.
  assert (nxt base l 0 = base) as Hbase by (by destruct l).
  pose proof (rep_length _ _ _ _ _ Hok Hrep) as Hlen.
  pose proof (search_spec hb (aligned sz) 0 base l _ Hb Hok Hrep
                (Nat.lt_lt_succ_r _ _ (proj2 (Nat.lt_succ_r _ _) Hlen))) as Hsr.
  rewrite Hbase in Hsr. rewrite Hsr.
  destruct (spec_alloc (aligned sz) l) as [[off l']|] eqn:E; cbn [mjoin option_join mbind option_bind]; [|done].
  apply spec_alloc_split in E as (l1 & s1 & l2 & -> & -> & Hle & ->).
  pose proof Hok as Hok'. apply Forall_app in Hok' as [Hok1 _]. pose proof (tot_nonneg l1 Hok1).
  rewrite (proj2 (Z.eqb_neq (base + tot l1) 0)) by lia.
  destruct (split_block_rep hb 0 base l1 s1 l2 (aligned sz)) as (hb' & c & Hs & Hc & Hr); [done..|].
  rewrite Hs. cbn [mbind option_bind]. rewrite Hc. cbn [mbind option_bind].
  eexists. split; [|done]. rewrite u64_small; [done|].
  pose proof (tot_nonneg _ Hok) as Hq. rewrite tot_app in Htot. cbn [tot] in Htot.
  apply Forall_app in Hok as [_ Hok2]. apply Forall_cons in Hok2 as [Hs1 Hok2].
  pose proof (tot_nonneg l2 Hok2). unfold HEAP_BLOCK_SIZE in *. lia.
Qed.

(** Allocation keeps the total size and the non-negative sizes. *)
Lemma spec_alloc_ok n base l off l' :
  0 <= n -> tiles_ok base l -> spec_alloc n l = Some (off, l') -> tiles_ok base l' /\ tot l' = tot l /\ l' <> [].
Proof.
  intros Hn (Hb & Hok & Ht) H. apply spec_alloc_split in H as (l1 & sz & l2 & -> & -> & Hle & ->).
  apply Forall_app in Hok as [Hok1 Hok2]. apply Forall_cons in Hok2 as [Hsz Hok2].
  assert (tot (l1 ++ (if n + HEAP_BLOCK_SIZE + 16 <? sz then (n, false) :: (sz - n - HEAP_BLOCK_SIZE, true) :: l2
    else (sz, false) :: l2)) = tot (l1 ++ (sz, true) :: l2)) as Htot.
  { rewrite !tot_app. unfold HEAP_BLOCK_SIZE. case_if; cbn [tot]; unfold HEAP_BLOCK_SIZE; lia. }
  split; [|split; [done|]].
  - split; [done|]. rewrite Htot. split; [|done]. apply Forall_app. split; [done|].
    unfold HEAP_BLOCK_SIZE. case_if; repeat (apply Forall_cons; split; [simpl; lia|]); done.
  - intros Hnil. apply app_eq_nil in Hnil as [_ Hnil]. by destruct (_ <? _).
Qed.

(** ** Freeing *)

Lemma absorb_rep hb base l1 s1 f1 s2 f2 l2 :
  0 < base -> base + tot (l1 ++ (s1, f1) :: (s2, f2) :: l2) < 2 ^ 63 ->
  Forall (fun '(sz, _) => 0 <= sz) (l1 ++ (s1, f1) :: (s2, f2) :: l2) ->
  rep hb 0 base (l1 ++ (s1, f1) :: (s2, f2) :: l2) 0 ->
  exists hb', absorb hb (base + tot l1) (base + tot l1 + HEAP_BLOCK_SIZE + s1) = Some hb' /\
    rep hb' 0 base (l1 ++ (s1 + (HEAP_BLOCK_SIZE + s2), f1) :: l2) 0.
Proof.
  intros Hb Htot Hok Hrep. set (a := base + tot l1).
  apply Forall_app in Hok as [Hok1 Hok2]. apply Forall_cons in Hok2 as [Hs1 Hok2].
  apply Forall_cons in Hok2 as [Hs2 Hok2].
  pose proof (tot_nonneg l1 Hok1). pose proof (tot_nonneg l2 Hok2).
  rewrite tot_app in Htot. cbn [tot] in Htot. unfold HEAP_BLOCK_SIZE in *.
  apply rep_app in Hrep as [Hr1 [Ha [Hc Hr2]]]. fold a in Ha, Hc, Hr2. cbn [nxt] in Hr1, Ha. fold a in Hr1.
  unfold HEAP_BLOCK_SIZE in *. unfold absorb. rewrite Ha, Hc. cbn [mbind option_bind size next prev free magic].
  unfold HEAP_BLOCK_SIZE. rewrite u64_small by lia.
  set (hb1 := <[a := _]> hb). set (e := a + 40 + s1 + 40 + s2) in *.
  assert (rep hb1 (a + 40 + s1) e l2 0) as Hr2'.
  { revert Hr2. apply rep_frame; [done|]. intros x Hx. apply lookup_insert_ne. lia. }
  assert (exists hb2, (if negb (nxt e l2 0 =? 0) then set_prev hb1 (nxt e l2 0) a else Some hb1) = Some hb2 /\
            rep hb2 a e l2 0 /\ forall x, x < e -> hb2 !! x = hb1 !! x) as (hb2 & Hh2 & Hr2'' & Hfr).
  { destruct l2 as [|t l2]; [by exists hb1|]. cbn [nxt].
    rewrite (proj2 (Z.eqb_neq e 0)) by lia. simpl negb.
    destruct (rep_set_prev hb1 (a + 40 + s1) a e (t :: l2) 0) as (hb2 & ? & ? & Hx); [done..|].
    exists hb2. split; [done|]. split; [done|]. intros x Hlt. apply Hx. lia. }
  exists hb2. split; [done|]. apply rep_app. cbn [nxt rep tot]. fold a. unfold HEAP_BLOCK_SIZE.
  replace (a + 40 + (s1 + (40 + s2))) with e by lia. split; [|split; [|done]].
  - revert Hr1. apply rep_frame; [done|]. intros x Hx. rewrite Hfr by lia. apply lookup_insert_ne. lia.
  - rewrite Hfr by lia. unfold hb1. by rewrite lookup_insert_eq.
Qed.

Lemma heap_lastp_snoc p a l sz fr : lastp p a (l ++ [(sz, fr)]) = a + tot l.
Proof.
  revert p a. induction l as [|[s0 f0] l IH]; intros p a; cbn [app lastp tot]; [lia|].
  rewrite IH. lia.
Qed.

(** The coalescing with the next block. *)
Lemma kfree_next_rep hb base l1 sz l2 :
  0 < base -> base + tot (l1 ++ (sz, true) :: l2) < 2 ^ 63 ->
  Forall (fun '(sz, _) => 0 <= sz) (l1 ++ (sz, true) :: l2) ->
  rep hb 0 base (l1 ++ (sz, true) :: l2) 0 ->
  let nx := nxt (base + tot l1 + HEAP_BLOCK_SIZE + sz) l2 0 in
  exists hb', (if negb (nx =? 0) then
                 n ← hb !! nx;
                 if negb (free n =? 0) then absorb hb (base + tot l1) nx else Some hb
               else Some hb) = Some hb' /\
    rep hb' 0 base (l1 ++ merge_next sz l2) 0.
Proof.
  intros Hb Htot Hok Hrep. cbv zeta. destruct l2 as [|[s2 f2] l2]; cbn [nxt]; [by exists hb|].
  pose proof Hok as Hok'. apply Forall_app in Hok' as [Hok1 Hok2]. apply Forall_cons in Hok2 as [Hs Hok2].
  pose proof (tot_nonneg l1 Hok1).
  rewrite (proj2 (Z.eqb_neq (base + tot l1 + HEAP_BLOCK_SIZE + sz) 0)) by (unfold HEAP_BLOCK_SIZE; lia).
  simpl negb. cbn match. pose proof Hrep as Hrep'. apply rep_app in Hrep' as [_ [_ [Hc _]]]. rewrite Hc.
  cbn [mbind option_bind free]. destruct f2; simpl b2z; simpl negb; cbn match.
  - by apply (absorb_rep hb base l1 sz true s2 true l2).
  - by exists hb.
Qed.

(** The coalescing with the previous block. *)
Lemma kfree_prev_rep hb base l1 s r :
  0 < base -> base + tot (l1 ++ (s, true) :: r) < 2 ^ 63 ->
  Forall (fun '(sz, _) => 0 <= sz) (l1 ++ (s, true) :: r) ->
  rep hb 0 base (l1 ++ (s, true) :: r) 0 ->
  let pv := lastp 0 base l1 in
  exists hb', (if negb (pv =? 0) then
                 p ← hb !! pv;
                 if negb (free p =? 0) then absorb hb pv (base + tot l1) else Some hb
               else Some hb) = Some hb' /\
    rep hb' 0 base (merge_prev l1 ((s, true) :: r)) 0.
Proof.
  intros Hb Htot Hok Hrep. cbv zeta. unfold merge_prev.
  destruct l1 as [|[s0 f0] l0 _] using rev_ind; [by exists hb|].
  rewrite heap_lastp_snoc, rev_unit. rewrite <- app_assoc in *. simpl app in *.
  pose proof Hok as Hok'. apply Forall_app in Hok' as [Hok1 _]. pose proof (tot_nonneg l0 Hok1).
  rewrite (proj2 (Z.eqb_neq (base + tot l0) 0)) by lia. simpl negb. cbn match.
  pose proof Hrep as Hrep'. apply rep_app in Hrep' as [_ [Hc _]]. rewrite Hc.
  cbn [mbind option_bind free]. destruct f0; simpl b2z; simpl negb; cbn match.
  - rewrite rev_involutive, tot_app. cbn [tot].
    replace (base + (tot l0 + (HEAP_BLOCK_SIZE + s0 + 0))) with (base + tot l0 + HEAP_BLOCK_SIZE + s0) by lia.
    by apply (absorb_rep hb base l0 s0 true s true r).
  - by exists hb.
Qed.

Lemma merge_next_cons sz l2 : exists s r, merge_next sz l2 = (s, true) :: r.
Proof. destruct l2 as [|[s2 [|]] l2]; simpl; eauto. Qed.

Lemma merge_next_tot sz l2 : tot (merge_next sz l2) = HEAP_BLOCK_SIZE + sz + tot l2.
Proof. destruct l2 as [|[s2 [|]] l2]; simpl; lia. Qed.

Lemma merge_prev_tot l1 s f r : tot (merge_prev l1 ((s, f) :: r)) = tot l1 + tot ((s, f) :: r).
Proof.
  unfold merge_prev. destruct l1 as [|[s0 f0] l0 _] using rev_ind; [done|].
  rewrite rev_unit. destruct f0; rewrite ?rev_involutive, ?tot_app; simpl; lia.
Qed.

Lemma spec_free_tot l1 sz l2 : tot (spec_free l1 sz l2) = tot (l1 ++ (sz, false) :: l2).
Proof.
  unfold spec_free. destruct (merge_next_cons sz l2) as (s & r & E).
  pose proof (merge_next_tot sz l2) as Ht. rewrite E in *. rewrite merge_prev_tot, Ht, tot_app. done.
Qed.

Lemma merge_next_sizes sz l2 :
  0 <= sz -> Forall (fun '(sz, _) => 0 <= sz) l2 -> Forall (fun '(sz, _) => 0 <= sz) (merge_next sz l2).
Proof.
  intros Hs Hok. destruct l2 as [|[s2 [|]] l2]; simpl; [by constructor| |by constructor].
  apply Forall_cons in Hok as [? ?]. constructor; [unfold HEAP_BLOCK_SIZE; lia|done].
Qed.

Lemma merge_prev_sizes l1 r :
  Forall (fun '(sz, _) => 0 <= sz) l1 -> Forall (fun '(sz, _) => 0 <= sz) r ->
  Forall (fun '(sz, _) => 0 <= sz) (merge_prev l1 r).
Proof.
  intros H1 H2. unfold merge_prev. destruct l1 as [|[s0 f0] l0 _] using rev_ind; [by destruct r|].
  rewrite rev_unit. destruct f0; [|destruct r as [|[s f] r]; by apply Forall_app].
  destruct r as [|[s f] r]; [by apply Forall_app|]. rewrite rev_involutive.
  apply Forall_app in H1 as [H1 H3]. apply Forall_cons in H3 as [H3 _], H2 as [H2 ?].
  apply Forall_app. split; [done|]. constructor; [unfold HEAP_BLOCK_SIZE; lia|done].
Qed.

Lemma kfree_body_rep hb base l1 sz l2 :
  tiles_ok base (l1 ++ (sz, false) :: l2) -> rep hb 0 base (l1 ++ (sz, false) :: l2) 0 ->
  exists hb', kfree_body hb (base + tot l1 + HEAP_BLOCK_SIZE) = Some hb' /\
    rep hb' 0 base (spec_free l1 sz l2) 0.
Proof.
  intros (Hb & Hok & Htot) Hrep. set (a := base + tot l1).
  pose proof Hok as Hok'. apply Forall_app in Hok' as [Hok1 Hok2]. apply Forall_cons in Hok2 as [Hsz Hok2].
  pose proof (tot_nonneg l1 Hok1). pose proof (tot_nonneg l2 Hok2).
  unfold kfree_body. cbv zeta. replace (a + HEAP_BLOCK_SIZE - HEAP_BLOCK_SIZE) with a by lia.
  rewrite tot_app in Htot. cbn [tot] in Htot. rewrite u64_small by (unfold HEAP_BLOCK_SIZE in *; lia).
  apply rep_app in Hrep as [Hr1 [Ha Hr2]]. fold a in Ha, Hr2. cbn [nxt] in Hr1. fold a in Hr1.
  rewrite Ha. cbn [mbind option_bind magic size next prev]. rewrite Z.eqb_refl. simpl negb. cbn match.
  set (hb1 := <[a := _]> hb).
  assert (rep hb1 0 base (l1 ++ (sz, true) :: l2) 0) as Hrep1.
  { apply rep_app. cbn [nxt rep]. fold a. split; [|split; [by apply lookup_insert_eq|]].
    - revert Hr1. apply rep_frame; [done|]. intros x Hx. apply lookup_insert_ne. lia.
    - revert Hr2. apply rep_frame; [done|]. intros x Hx. unfold HEAP_BLOCK_SIZE in *.
      apply lookup_insert_ne. lia. }
  destruct (kfree_next_rep hb1 base l1 sz l2 Hb) as (hb2 & Hn & Hrep2);
    [rewrite tot_app; cbn [tot]; lia | by apply Forall_app; split; [|constructor] | done |].
  fold a in Hn. rewrite Hn. cbn [mbind option_bind].
  destruct (merge_next_cons sz l2) as (s & r & E). unfold spec_free.
  pose proof (merge_next_tot sz l2) as Hmt. pose proof (merge_next_sizes sz l2 Hsz Hok2) as Hms.
  rewrite E in *. pose proof Hrep2 as Hrep2'. apply rep_app in Hrep2' as [_ [Hc _]]. fold a in Hc.
  rewrite Hc. cbn [mbind option_bind prev].
  apply (kfree_prev_rep hb2 base l1 s r Hb); [rewrite tot_app, Hmt; lia| |done].
  by apply Forall_app.
Qed.

(** ** Live blocks *)

Lemma live_app a l1 l2 : live a (l1 ++ l2) = live a l1 ++ live (a + tot l1) l2.
Proof.
  revert a. induction l1 as [|[s f] l1 IH]; intros a; cbn [app live tot]; [by rewrite Z.add_0_r|].
  rewrite IH, app_assoc. do 2 f_equal. lia.
Qed.

Lemma merge_next_live a sz l2 : live a (merge_next sz l2) = live (a + HEAP_BLOCK_SIZE + sz) l2.
Proof. destruct l2 as [|[s2 [|]] l2]; cbn [merge_next live app]; try done. f_equal. lia. Qed.

Lemma merge_prev_live a l1 s r : live a (merge_prev l1 ((s, true) :: r)) = live a (l1 ++ (s, true) :: r).
Proof.
  unfold merge_prev. destruct l1 as [|[s0 f0] l0 _] using rev_ind; [done|].
  rewrite rev_unit. destruct f0; [|done]. rewrite rev_involutive, <- app_assoc, !live_app.
  f_equal. cbn [app live tot]. f_equal. lia.
Qed.

Lemma spec_free_live a l1 sz l2 :
  live a (l1 ++ (sz, false) :: l2) ≡ₚ (a + tot l1 + HEAP_BLOCK_SIZE, sz) :: live a (spec_free l1 sz l2).
Proof.
  unfold spec_free. destruct (merge_next_cons sz l2) as (s & r & E).
  pose proof (merge_next_live (a + tot l1) sz l2) as Hm. rewrite E in *.
  rewrite merge_prev_live, !live_app, Hm. cbn [live app]. by rewrite Permutation_middle.
Qed.

Lemma spec_alloc_live n a l off l' :
  spec_alloc n l = Some (off, l') ->
  exists s, n <= s /\ live a l' ≡ₚ (a + off + HEAP_BLOCK_SIZE, s) :: live a l.
Proof.
  intros H. apply spec_alloc_split in H as (l1 & sz & l2 & -> & -> & Hle & ->).
  exists (if n + HEAP_BLOCK_SIZE + 16 <? sz then n else sz). split; [case_if; lia|].
  rewrite !live_app. cbn [live app]. case_if; cbn [live app]; [|by rewrite Permutation_middle].
  replace (a + tot l1 + HEAP_BLOCK_SIZE + n + HEAP_BLOCK_SIZE + (sz - n - HEAP_BLOCK_SIZE))
    with (a + tot l1 + HEAP_BLOCK_SIZE + sz) by lia.
  by rewrite Permutation_middle.
Qed.

Lemma live_bounds a l p s :
  Forall (fun '(sz, _) => 0 <= sz) l -> (p, s) ∈ live a l ->
  a + HEAP_BLOCK_SIZE <= p /\ 0 <= s /\ p + s <= a + tot l.
Proof.
  intros Hok. revert a. induction Hok as [|[sz fr] l Hsz Hok IH]; intros a H; cbn [live tot] in *.
  - by apply not_elem_of_nil in H.
  - pose proof (tot_nonneg l Hok). unfold HEAP_BLOCK_SIZE in *. apply elem_of_app in H as [H|H].
    + destruct fr; [by apply not_elem_of_nil in H|]. apply list_elem_of_singleton in H. simplify_eq. lia.
    + apply IH in H. lia.
Qed.

Lemma live_disjoint a l p s q t :
  Forall (fun '(sz, _) => 0 <= sz) l -> (p, s) ∈ live a l -> (q, t) ∈ live a l ->
  (p = q /\ s = t) \/ p + s <= q \/ q + t <= p.
Proof.
  intros Hok. revert a. induction Hok as [|[sz fr] l Hsz Hok IH]; intros a H1 H2; cbn [live] in *.
  - by apply not_elem_of_nil in H1.
  - apply elem_of_app in H1 as [H1|H1], H2 as [H2|H2]; [| | |by eapply IH];
      destruct fr; try (by apply not_elem_of_nil in H1); try (by apply not_elem_of_nil in H2).
    + apply list_elem_of_singleton in H1, H2. simplify_eq. tauto.
    + apply list_elem_of_singleton in H1. simplify_eq. apply live_bounds in H2; [|done].
      unfold HEAP_BLOCK_SIZE in *. lia.
    + apply list_elem_of_singleton in H2. simplify_eq. apply live_bounds in H1; [|done].
      unfold HEAP_BLOCK_SIZE in *. lia.
Qed.

Lemma live_nodup a l : Forall (fun '(sz, _) => 0 <= sz) l -> NoDup (live a l).*1.
Proof.
  intros Hok. revert a. induction Hok as [|[sz fr] l Hsz Hok IH]; intros a; cbn [live].
  - apply NoDup_nil_2.
  - rewrite fmap_app. apply NoDup_app. split; [destruct fr; [apply NoDup_nil_2|apply NoDup_singleton]|].
    split; [|apply IH]. intros x Hx Hx'. destruct fr; [by apply not_elem_of_nil in Hx|].
    apply list_elem_of_singleton in Hx as ->. apply list_elem_of_fmap in Hx' as ([q t'] & Heq & Hq).
    apply live_bounds in Hq; [|done]. simpl in Heq. unfold HEAP_BLOCK_SIZE in *. lia.
Qed.

Lemma live_split a l p s :
  (p, s) ∈ live a l -> exists l1 l2, l = l1 ++ (s, false) :: l2 /\ p = a + tot l1 + HEAP_BLOCK_SIZE.
Proof.
  revert a. induction l as [|[sz fr] l IH]; intros a H; cbn [live] in H; [by apply not_elem_of_nil in H|].
  apply elem_of_app in H as [H|H].
  - destruct fr; [by apply not_elem_of_nil in H|]. apply list_elem_of_singleton in H. simplify_eq.
    exists [], l. split; [done|]. simpl. lia.
  - destruct (IH _ H) as (l1 & l2 & -> & ->). exists ((sz, fr) :: l1), l2. split; [done|]. simpl. lia.
Qed.

(** ** Whole calls *)

Lemma kmalloc_rep c h l sz :
  heap_rep h l -> 0 < sz < 2 ^ 63 ->
  exists h' p, kmalloc c h sz = Some (c, h', p) /\ free_list h' = free_list h /\
    match spec_alloc (aligned sz) l with
    | Some (off, l') => p = free_list h + off + HEAP_BLOCK_SIZE /\ heap_rep h' l'
    | None => p = 0 /\ heap_rep h' l
    end.
Proof.
  intros (Hok & Hne & Hrep) Hsz. pose proof (aligned_spec sz Hsz) as [Ha _].
  unfold kmalloc. rewrite (proj2 (Z.eqb_neq sz 0)), Spinlock.critical_spec by lia.
  pose proof (kmalloc_body_rep (blocks h) (free_list h) l sz Hok Hne Hrep ltac:(lia)) as H.
  destruct (spec_alloc (aligned sz) l) as [[off l']|] eqn:E.
  - destruct H as (hb' & -> & Hr). simpl. eexists _, _. split; [done|]. split; [done|]. split; [done|].
    assert (0 <= aligned sz) as Hal by lia.
    destruct (spec_alloc_ok _ _ _ _ _ Hal Hok E) as (? & ? & ?). done.
  - rewrite H. simpl. eexists _, _. split; [done|]. split; [done|]. split; done.
Qed.

Lemma spec_free_ok base l1 sz l2 :
  tiles_ok base (l1 ++ (sz, false) :: l2) -> tiles_ok base (spec_free l1 sz l2) /\ spec_free l1 sz l2 <> [].
Proof.
  intros (Hb & Hok & Ht). pose proof (spec_free_tot l1 sz l2) as Htt.
  apply Forall_app in Hok as [Hok1 Hok2]. apply Forall_cons in Hok2 as [Hsz Hok2].
  split; [split; [done|]; split; [|by rewrite Htt]|].
  - apply merge_prev_sizes; [done|]. by apply merge_next_sizes.
  - intros E. rewrite E, tot_app in Htt. cbn [tot] in Htt. simpl in Hsz.
    pose proof (tot_nonneg l1 Hok1). pose proof (tot_nonneg l2 Hok2). unfold HEAP_BLOCK_SIZE in *. lia.
Qed.

Lemma kfree_rep c h l1 sz l2 :
  heap_rep h (l1 ++ (sz, false) :: l2) ->
  exists h', kfree c h (free_list h + tot l1 + HEAP_BLOCK_SIZE) = Some (c, h') /\
    free_list h' = free_list h /\ heap_rep h' (spec_free l1 sz l2).
Proof.
  intros (Hok & Hne & Hrep). unfold kfree. pose proof Hok as (Hb & Hs & Ht).
  apply Forall_app in Hs as [Hs1 _]. pose proof (tot_nonneg l1 Hs1).
  rewrite (proj2 (Z.eqb_neq (free_list h + tot l1 + HEAP_BLOCK_SIZE) 0)) by (unfold HEAP_BLOCK_SIZE; lia).
  rewrite Spinlock.critical_spec.
  destruct (kfree_body_rep (blocks h) (free_list h) l1 sz l2 Hok Hrep) as (hb' & -> & Hr). simpl.
  eexists. split; [done|]. split; [done|]. destruct (spec_free_ok _ _ _ _ Hok) as [? ?]. done.
Qed.

(** The headers determine the tiling. *)
Lemma rep_inj hb p a l l' :
  0 < a -> Forall (fun '(sz, _) => 0 <= sz) l -> Forall (fun '(sz, _) => 0 <= sz) l' ->
  nxt a l 0 = nxt a l' 0 -> rep hb p a l 0 -> rep hb p a l' 0 -> l = l'.
Proof.
  intros Ha Hok. revert p a Ha l'. induction Hok as [|[sz fr] l Hsz Hok IH]; intros p a Ha l' Hok' Hn H H'.
  - destruct l' as [|[s' f'] l']; [done|]. simpl in Hn. lia.
  - destruct l' as [|[s' f'] l']; [simpl in Hn; lia|]. apply Forall_cons in Hok' as [Hs' Hok'].
    destruct H as [H1 H2], H' as [H1' H2']. rewrite H1 in H1'. injection H1' as <- Hn' Hf.
    assert (fr = f') as <- by (by destruct fr, f').
    f_equal. apply (IH a (a + HEAP_BLOCK_SIZE + sz)); try done. unfold HEAP_BLOCK_SIZE. lia.
Qed.

Lemma heap_rep_inj h l l' : heap_rep h l -> heap_rep h l' -> l = l'.
Proof.
  intros ((Hb & Hok & _) & Hne & H) ((_ & Hok' & _) & Hne' & H').
  apply (rep_inj (blocks h) 0 (free_list h)); try done. by destruct l, l'.
Qed.

Definition h_live (ch : Spinlock.cpu * heap) (p s : Z) : Prop :=
  exists l, heap_rep ch.2 l /\ (p, s) ∈ live (free_list ch.2) l.

Lemma h_live_iff ch l p s : heap_rep ch.2 l -> h_live ch p s <-> (p, s) ∈ live (free_list ch.2) l.
Proof.
  intros Hl. split; [|by exists l]. intros (l' & Hl' & H). by rewrite (heap_rep_inj _ _ _ Hl Hl').
Qed.

Definition h_alloc (ch : Spinlock.cpu * heap) (n : Z) : option (Spinlock.cpu * heap * Z) :=
  kmalloc ch.1 ch.2 n.
Definition h_free (ch : Spinlock.cpu * heap) (p : Z) : option (Spinlock.cpu * heap) := kfree ch.1 ch.2 p.

Lemma h_alloc_spec (ch : Spinlock.cpu * heap) n :
  (exists l, heap_rep ch.2 l) -> 0 < n < 2 ^ 63 ->
  exists ch' p, h_alloc ch n = Some (ch', p) /\
    (exists l, heap_rep ch'.2 l) /\
    ((p = 0 /\ forall q t, h_live ch' q t <-> h_live ch q t) \/
     (exists s, n <= s /\ (forall t, ~ h_live ch p t) /\
        forall q t, h_live ch' q t <-> (q = p /\ t = s) \/ h_live ch q t)).
Proof.
  intros [l Hl] Hn. destruct (kmalloc_rep ch.1 ch.2 l n Hl Hn) as (h' & p & Hk & Hfl & H).
  pose proof (aligned_spec n Hn) as [Ha _].
  exists (ch.1, h'), p. split; [exact Hk|]. destruct (spec_alloc (aligned n) l) as [[off l']|] eqn:E.
  - destruct H as [-> Hr]. split; [by exists l'|]. right.
    destruct (spec_alloc_live _ (free_list ch.2) _ _ _ E) as (s & Hs & Hp).
    assert (forall q t, h_live (ch.1, h') q t <->
      (q = free_list ch.2 + off + HEAP_BLOCK_SIZE /\ t = s) \/ h_live ch q t) as Hiff.
    { intros q t. rewrite (h_live_iff (ch.1, h') l') by done. rewrite (h_live_iff ch l) by done.
      simpl. rewrite Hfl, Hp, elem_of_cons. split; (intros [Hq|Hq]; [left|right; done]).
      - by simplify_eq.
      - destruct Hq. by subst. }
    exists s. split; [lia|]. split; [|done]. intros t Ht.
    rewrite (h_live_iff ch l) in Ht by done. apply live_split in Ht as (l1 & l2 & -> & Heq).
    apply spec_alloc_split in E as (l1' & sz & l2' & Hl' & -> & _ & _).
    destruct Hl as ((_ & Hok & _) & _).
    assert (tot l1 = tot l1') as Hte by lia.
    clear -Hok Hl' Hte. revert l1' Hl' Hte. induction l1 as [|[s1 f1] l1 IH]; intros [|[s2 f2] l1'] Hl' Hte;
      simpl in *; simplify_eq.
    + apply Forall_cons in Hok as [? Hok]. apply Forall_app in Hok as [Hok _].
      pose proof (tot_nonneg _ Hok). unfold HEAP_BLOCK_SIZE in *. lia.
    + apply Forall_cons in Hok as [? Hok]. apply Forall_app in Hok as [Hok _].
      pose proof (tot_nonneg _ Hok). unfold HEAP_BLOCK_SIZE in *. lia.
    + apply Forall_cons in Hok as [? Hok]. apply (IH Hok l1'); [done|lia].
  - destruct H as [-> Hr]. split; [by exists l|]. left. split; [done|]. intros q t.
    rewrite (h_live_iff (ch.1, h') l) by done. rewrite (h_live_iff ch l) by done. simpl. by rewrite Hfl.
Qed.

Lemma h_free_spec (ch : Spinlock.cpu * heap) p s :
  (exists l, heap_rep ch.2 l) -> h_live ch p s ->
  exists ch', h_free ch p = Some ch' /\ (exists l, heap_rep ch'.2 l) /\
    forall q t, h_live ch' q t <-> h_live ch q t /\ q <> p.
Proof.
  intros [l Hl] Hp. rewrite (h_live_iff ch l) in Hp by done.
  pose proof Hp as Hin. apply live_split in Hp as (l1 & l2 & -> & ->).
  destruct (kfree_rep ch.1 ch.2 l1 s l2 Hl) as (h' & Hk & Hfl & Hr).
  exists (ch.1, h'). split; [exact Hk|]. split; [by eexists|]. intros q t.
  rewrite (h_live_iff (ch.1, h')) by done. rewrite (h_live_iff ch) by done. simpl. rewrite Hfl.
  pose proof (spec_free_live (free_list ch.2) l1 s l2) as Hperm.
  destruct Hl as ((_ & Hok & _) & _). destruct Hr as ((_ & Hok' & _) & _).
  rewrite Hperm, elem_of_cons. split.
  - intros Hq. split; [by right|]. intros ->.
    pose proof (live_nodup (free_list ch.2) _ Hok) as Hnd.
    rewrite Hperm in Hnd. apply NoDup_cons in Hnd as [Hnd _]. apply Hnd.
    apply list_elem_of_fmap. by exists (free_list ch.2 + tot l1 + HEAP_BLOCK_SIZE, t).
  - intros [[Hq|Hq] Hne]; [by simplify_eq|done].
Qed.

(** The heap, with the processor whose interrupt flag its lock saves, is an
    allocator. *)
#[export] Instance heap_allocator : Allocator (Spinlock.cpu * heap).
Proof.
  refine {|
    a_wf := fun ch => exists l, heap_rep ch.2 l; a_live := h_live; a_alloc := h_alloc; a_free := h_free;
    a_alloc_spec := h_alloc_spec; a_free_spec := h_free_spec
  |}.
  - intros ch p s [l Hl] H. rewrite (h_live_iff ch l) in H by done.
    destruct Hl as ((Hb & Hok & _) & _). apply live_bounds in H; [|done]. unfold HEAP_BLOCK_SIZE in *. lia.
  - intros ch p s [l Hl] H. rewrite (h_live_iff ch l) in H by done.
    destruct Hl as ((Hb & Hok & Ht) & _). apply live_bounds in H; [|done]. unfold HEAP_BLOCK_SIZE in *. lia.
  - intros ch p s q t [l Hl] H1 H2. rewrite (h_live_iff ch l) in H1, H2 by done.
    destruct Hl as ((Hb & Hok & _) & _). by eapply live_disjoint.
Defined.

(** ** Heaps built from a tiling *)

Fixpoint headers_of (p a : Z) (l : list tile) : gmap Z heap_block :=
  match l with
  | [] => ∅
  | (sz, fr) :: l' =>
      <[a := HB sz (nxt (a + HEAP_BLOCK_SIZE + sz) l' 0) p (b2z fr) HEAP_MAGIC]>
        (headers_of a (a + HEAP_BLOCK_SIZE + sz) l')
  end.

Definition heap_of (base : Z) (l : list tile) : heap := HEAP (headers_of 0 base l) base (Spinlock.SL 0 0 (-1) 0).

Lemma heap_of_rep base l : tiles_ok base l -> l <> [] -> heap_rep (heap_of base l) l.
Proof.
  intros Hok Hne. split; [done|]. split; [done|]. simpl. destruct Hok as (_ & Hsz & _). clear Hne.
  assert (forall p, rep (headers_of p base l) p base l 0) as H; [|by apply H].
  revert base Hsz. induction l as [|[sz fr] l IH]; intros a Hsz p; [done|].
  apply Forall_cons in Hsz as [H0 Hsz]. cbn [headers_of rep]. split; [by rewrite lookup_insert_eq|].
  apply (rep_frame (headers_of a (a + HEAP_BLOCK_SIZE + sz) l)); [done| |by apply IH].
  intros x Hx. apply lookup_insert_ne. unfold HEAP_BLOCK_SIZE in *. lia.
Qed.

Lemma heap_of_live c base l p s :
  tiles_ok base l -> l <> [] -> (p, s) ∈ live base l -> h_live (c, heap_of base l) p s.
Proof. intros Hok Hne Hin. exists l. split; [by apply heap_of_rep|done]. Qed.

(** ** Coalescing *)

Lemma coalesced_mid l1 x l2 :
  coalesced (l1 ++ x :: l2) = coalesced (l1 ++ [x]) && coalesced (x :: l2).
Proof.
  induction l1 as [|[s1 f1] l1 IH]; [by destruct x as [s []]|].
  destruct l1 as [|[s2 f2] l1]; cbn [app coalesced] in *.
  - destruct x as [s f]. by rewrite andb_true_r.
  - rewrite IH. by rewrite andb_assoc.
Qed.

(** Only the flags matter, and a used tile can replace any. *)
Lemma coalesced_snoc l1 s f s' f' : (f' = true -> f = true) ->
  coalesced (l1 ++ [(s, f)]) = true -> coalesced (l1 ++ [(s', f')]) = true.
Proof.
  intros Hf. induction l1 as [|[s1 f1] l1 IH]; [done|].
  destruct l1 as [|[s2 f2] l1]; cbn [app coalesced] in *; intros H; simpl_bool.
  - rewrite andb_true_r in *. simpl_bool. apply negb_true_iff. destruct f1, f, f'; simpl in *; naive_solver.
  - apply andb_true_intro. split; [by rewrite H|auto].
Qed.

Lemma coalesced_prefix l1 l2 : coalesced (l1 ++ l2) = true -> coalesced l1 = true.
Proof.
  induction l1 as [|[s1 f1] l1 IH]; [done|]. destruct l1 as [|[s2 f2] l1]; [done|].
  cbn [app coalesced]. intros H. simpl_bool. apply andb_true_intro. split; [by rewrite H|]. by apply IH.
Qed.

Lemma coalesced_alloc n l off l' :
  spec_alloc n l = Some (off, l') -> coalesced l = true -> coalesced l' = true.
Proof.
  intros H Hc. apply spec_alloc_split in H as (l1 & sz & l2 & -> & _ & _ & ->).
  rewrite coalesced_mid in Hc. apply andb_prop in Hc as [H1 H2].
  assert (forall s, coalesced ((s, false) :: l2) = true) as H2'.
  { intros s. destruct l2 as [|[s2 f2] l2]; [done|]. cbn [coalesced] in *. simpl_bool.
    apply andb_true_intro. done. }
  destruct (_ <? _); rewrite coalesced_mid; apply andb_true_intro;
    (split; [apply (coalesced_snoc l1 sz true); [done|exact H1]|]).
  - cbn [coalesced]. simpl. destruct l2 as [|[s2 f2] l2]; [done|]. exact H2.
  - apply H2'.
Qed.

Lemma coalesced_free l1 sz l2 :
  coalesced (l1 ++ (sz, false) :: l2) = true -> coalesced (spec_free l1 sz l2) = true.
Proof.
  intros Hc. pose proof (coalesced_prefix _ _ Hc) as H1.
  rewrite coalesced_mid in Hc. apply andb_prop in Hc as [_ H2]. unfold spec_free.
  assert (coalesced (merge_next sz l2) = true) as Hm.
  { destruct l2 as [|[s2 [|]] l2]; [done| |].
    - cbn [merge_next]. destruct l2 as [|[s3 f3] l2]; [done|]. cbn [coalesced] in *. done.
    - cbn [merge_next]. cbn [coalesced] in *. done. }
  destruct (merge_next_cons sz l2) as (s & r & E). rewrite E in *. unfold merge_prev.
  destruct l1 as [|[s0 f0] l0 _] using rev_ind; [done|]. rewrite rev_unit. destruct f0.
  - rewrite rev_involutive, coalesced_mid. apply andb_true_intro.
    split; [by apply (coalesced_snoc l0 s0 true)|]. destruct r as [|[s3 f3] r]; [done|]. exact Hm.
  - rewrite coalesced_mid. apply andb_true_intro. split; [|done].
    rewrite <- app_assoc. cbn [app]. rewrite coalesced_mid. by rewrite H1.
Qed.

(** ** Properties *)

(** C3: on a well-formed heap [kmalloc] returns and is first fit with
    splitting.  Either no free block holds the request rounded up to 8 bytes
    and the result is null with the heap unchanged, or the result is a new
    block of at least that size: the live blocks are exactly the old ones and
    the new one, which overlaps none of them; the tiling of the heap region,
    its total size and the absence of adjacent free blocks are kept, and the
    lock is released. *)
Theorem kmalloc_correct c h l sz :
  heap_rep h l -> 0 < sz < 2 ^ 63 ->
  exists h' p, kmalloc c h sz = Some (c, h', p) /\
    match spec_alloc (aligned sz) l with
    | None => p = 0 /\ heap_rep h' l
    | Some (off, l') =>
        p = free_list h + off + HEAP_BLOCK_SIZE /\ heap_rep h' l' /\ tot l' = tot l /\
        (coalesced l = true -> coalesced l' = true) /\
        exists s, sz <= s /\ live (free_list h) l' ≡ₚ (p, s) :: live (free_list h) l /\
          (forall q t, (q, t) ∈ live (free_list h) l -> p + s <= q \/ q + t <= p)
    end.
Proof.
  intros Hl Hsz. destruct (kmalloc_rep c h l sz Hl Hsz) as (h' & p & Hk & Hfl & H).
  exists h', p. split; [done|]. pose proof (aligned_spec sz Hsz) as [Ha _].
  destruct (spec_alloc (aligned sz) l) as [[off l']|] eqn:E; [|done].
  destruct H as [-> Hr]. split; [done|]. split; [done|].
  destruct Hl as (Hok & _). assert (0 <= aligned sz) as Hal by lia.
  destruct (spec_alloc_ok _ _ _ _ _ Hal Hok E) as ((_ & Hok' & _) & Ht & _).
  split; [done|]. split; [by apply (coalesced_alloc _ _ _ _ E)|].
  destruct (spec_alloc_live _ (free_list h) _ _ _ E) as (s & Hs & Hp). exists s.
  split; [lia|]. split; [done|]. intros q t Hq.
  destruct (live_disjoint (free_list h) l' (free_list h + off + HEAP_BLOCK_SIZE) s q t Hok')
    as [[<- <-]|[?|?]]; [rewrite Hp; left|rewrite Hp; by right| |tauto..].
  pose proof (live_nodup (free_list h) _ Hok') as Hnd. rewrite Hp in Hnd.
  apply NoDup_cons in Hnd as [Hnd _]. destruct Hnd. apply list_elem_of_fmap. by eexists (_, _).
Qed.

Definition demo_heap : heap := heap_init (HEAP ∅ 0 (Spinlock.SL 0 0 (-1) 0)) 0x1000 1024.
Definition demo_cpu : Spinlock.cpu := Spinlock.CPU 0x202 (Some 1).

Lemma demo_heap_rep : heap_rep demo_heap [(984, true)].
Proof.
  split; [|split; [done|]].
  - split; [done|]. split; [repeat constructor; lia|done].
  - simpl. by rewrite lookup_insert_eq.
Qed.

Lemma kmalloc_correct_witness :
  exists h', kmalloc demo_cpu demo_heap 100 = Some (demo_cpu, h', 0x1028) /\
    heap_rep h' [(104, false); (840, true)].
Proof.
  destruct (kmalloc_correct demo_cpu demo_heap [(984, true)] 100 demo_heap_rep ltac:(lia))
    as (h' & p & Hk & Hp & Hr & _).
  exists h'. rewrite Hk, Hp. done.
Defined.

(** C6: [kfree] of a live block returns, removes exactly that block from the
    live ones, merges it with free neighbours on both sides (no two adjacent
    free blocks remain) and keeps the total size of the heap. *)
Theorem kfree_correct c h l1 sz l2 :
  heap_rep h (l1 ++ (sz, false) :: l2) ->
  exists h', kfree c h (free_list h + tot l1 + HEAP_BLOCK_SIZE) = Some (c, h') /\
    heap_rep h' (spec_free l1 sz l2) /\
    tot (spec_free l1 sz l2) = tot (l1 ++ (sz, false) :: l2) /\
    live (free_list h) (l1 ++ (sz, false) :: l2) ≡ₚ
      (free_list h + tot l1 + HEAP_BLOCK_SIZE, sz) :: live (free_list h) (spec_free l1 sz l2) /\
    (coalesced (l1 ++ (sz, false) :: l2) = true -> coalesced (spec_free l1 sz l2) = true).
Proof.
  intros H. destruct (kfree_rep c h l1 sz l2 H) as (h' & Hk & _ & Hr). exists h'.
  split; [done|]. split; [done|]. split; [apply spec_free_tot|].
  split; [apply spec_free_live|apply coalesced_free].
Qed.

Lemma kfree_correct_witness :
  exists h1 h2, kmalloc demo_cpu demo_heap 100 = Some (demo_cpu, h1, 0x1028) /\
    kfree demo_cpu h1 0x1028 = Some (demo_cpu, h2) /\ heap_rep h2 [(984, true)].
Proof.
  destruct (kmalloc_rep demo_cpu demo_heap [(984, true)] 100 demo_heap_rep ltac:(lia))
    as (h1 & p & Hk & Hfl & Hp & Hr).
  destruct (kfree_correct demo_cpu h1 [] 104 [(840, true)] Hr) as (h2 & Hf & Hr2 & _).
  exists h1, h2. rewrite Hk, Hp. rewrite Hfl in Hf. split; [done|]. split; [exact Hf|exact Hr2].
Defined.

(** The rounding of the request to 8 bytes wraps around: a request of
    2^64 - 1 bytes is granted with a block of no bytes. *)
Theorem kmalloc_size_overflow :
  exists h', kmalloc demo_cpu demo_heap (2 ^ 64 - 1) = Some (demo_cpu, h', 0x1028) /\
    blocks h' !! 0x1000 = Some (HB 0 0x1028 0 0 HEAP_MAGIC).
Proof.
  destruct (kmalloc demo_cpu demo_heap (2 ^ 64 - 1)) as [[[c h'] p]|] eqn:E; [|done].
  exists h'. vm_compute in E. injection E as <- <- <-. split; [done|]. by vm_compute.
Qed.

End Heap.
