(* ===== verification/Vmm.v ===== *)
(** * The page-table manager (src/kernel/memory/vmm.c)

    The four levels of page tables live in the same physical memory as the
    frame bitmap, so a table is an address and an entry is a 64-bit load.  The
    contract of the component is the function from virtual pages to page-table
    entries it maintains; the invariant [vm_ok] gives every table frame one
    owner path, the list of the indices that lead to it from the root, so no
    two paths share a table.  Entries with the page-size bit (the boot code's
    2 MB identity map) are not tables and end an owner path.  The TLB
    invalidations are not modelled. *)
From S2P Require Import Prelude Memory CString Pmm.
Import Pmm.

Module Vmm.

(** ** Definitions *)

Record vmm := VMM { vm_pmm : pmm; current_pml4 : Z; mmio_virt_base : Z }.

Definition PTE_PRESENT : Z := 1.
Definition PTE_WRITABLE : Z := 2.
Definition PTE_USER : Z := 4.
Definition PTE_HUGE : Z := 0x80.
Definition ADDR_MASK : Z := 0xFFFFFFFFFF000.

Definition phys_to_virt (phys : Z) : Z := phys.

Definition vmm_init (p : pmm) (cr3 : Z) : vmm := VMM p (phys_to_virt cr3) 0xFFFF800000000000.

Definition pml4_index (virt : Z) : Z := (virt .>> 39) .& 0x1FF.
Definition pdp_index (virt : Z) : Z := (virt .>> 30) .& 0x1FF.
Definition pd_index (virt : Z) : Z := (virt .>> 21) .& 0x1FF.
Definition pt_index (virt : Z) : Z := (virt .>> 12) .& 0x1FF.

(** [t[i]] for a table [t] *)
Definition entry (m : mem) (t i : Z) : Z := load64 m (t + 8 * i).
Definition present (e : Z) : bool := negb (e .& PTE_PRESENT =? 0).
Definition next_table (m : mem) (t i : Z) : Z := phys_to_virt (entry m t i .& ADDR_MASK).

(** One level of [vmm_map_page]: allocate and clear the next table when the
    entry is not present, then follow the entry. *)
Definition ensure_table (p : pmm) (t i : Z) : option (pmm * Z) :=
  p ← (if negb (present (entry (pm_mem p) t i)) then
         '(n, p) ← pmm_alloc_page p;
         let p := with_mem p (CString.memset (pm_mem p) n 0 PAGE_SIZE) in
         Some (with_mem p (store64 (pm_mem p) (t + 8 * i) (n .| PTE_PRESENT .| PTE_WRITABLE .| PTE_USER)))
       else Some p);
  Some (p, next_table (pm_mem p) t i).

Definition vmm_map_page (s : vmm) (virt phys flags : Z) : option vmm :=
  '(p, pdp) ← ensure_table (vm_pmm s) (current_pml4 s) (pml4_index virt);
  '(p, pd) ← ensure_table p pdp (pdp_index virt);
  '(p, pt) ← ensure_table p pd (pd_index virt);
  Some (VMM (with_mem p (store64 (pm_mem p) (pt + 8 * pt_index virt) (phys .| flags)))
            (current_pml4 s) (mmio_virt_base s)).

(** One level of the walks that only read. *)
Definition descend (m : mem) (t i : Z) : option Z :=
  if negb (present (entry m t i)) then None else Some (next_table m t i).

Definition find_pt (s : vmm) (virt : Z) : option Z :=
  let m := pm_mem (vm_pmm s) in
  pdp ← descend m (current_pml4 s) (pml4_index virt);
  pd ← descend m pdp (pdp_index virt);
  descend m pd (pd_index virt).

Definition vmm_unmap_page (s : vmm) (virt : Z) : vmm :=
  match find_pt s virt with
  | None => s
  | Some pt =>
      let p := vm_pmm s in
      VMM (with_mem p (store64 (pm_mem p) (pt + 8 * pt_index virt) 0)) (current_pml4 s) (mmio_virt_base s)
  end.

Definition vmm_get_phys (s : vmm) (virt : Z) : Z :=
  match find_pt s virt with
  | None => 0
  | Some pt =>
      let e := entry (pm_mem (vm_pmm s)) pt (pt_index virt) in
      if negb (present e) then 0 else (e .& ADDR_MASK) .| (virt .& 0xFFF)
  end.

Definition vmm_get_pte (s : vmm) (virt : Z) : Z :=
  match find_pt s virt with
  | None => 0
  | Some pt => entry (pm_mem (vm_pmm s)) pt (pt_index virt)
  end.

(** The loops of [vmm_free_user_space], innermost first. *)
Definition free_pt (pt : Z) (p : pmm) : pmm :=
  let p := for_up 512 0 (fun l p =>
             if present (entry (pm_mem p) pt l) then pmm_free_page p (next_table (pm_mem p) pt l) else p) p in
  pmm_free_page p pt.

Definition free_pd (pd : Z) (p : pmm) : pmm :=
  let p := for_up 512 0 (fun k p =>
             let e := entry (pm_mem p) pd k in
             if present e then
               if negb (e .& PTE_HUGE =? 0) then pmm_free_page p (next_table (pm_mem p) pd k)
               else free_pt (next_table (pm_mem p) pd k) p
             else p) p in
  pmm_free_page p pd.

Definition free_pdp (pdp : Z) (p : pmm) : pmm :=
  let p := for_up 512 0 (fun j p =>
             if present (entry (pm_mem p) pdp j) then free_pd (next_table (pm_mem p) pdp j) p else p) p in
  pmm_free_page p pdp.

Definition vmm_free_user_space (s : vmm) : vmm :=
  let pml4 := current_pml4 s in
  VMM (for_up 256 0 (fun i p =>
         if present (entry (pm_mem p) pml4 i) then
           let p := free_pdp (next_table (pm_mem p) pml4 i) p in
           with_mem p (store64 (pm_mem p) (pml4 + 8 * i) 0)
         else p) (vm_pmm s))
      pml4 (mmio_virt_base s).

Definition vmm_swap_out_victim : Z := -1.

(** [n] pages from [virt] on are mapped to those from [phys] on. *)
Definition ioremap (s : vmm) (phys_addr size : Z) : option (vmm * Z) :=
  let offset := phys_addr .& 0xFFF in
  let base_phys := Z.ldiff phys_addr 0xFFF in
  let pages := u64 (size + offset + 0xFFF) / 0x1000 in
  let virt_addr := mmio_virt_base s in
  let s := VMM (vm_pmm s) (current_pml4 s) (u64 (mmio_virt_base s + pages * 0x1000)) in
  s ← for_up (Z.to_nat pages) 0 (fun i s =>
        s ← s;
        vmm_map_page s (u64 (virt_addr + i * 0x1000)) (u64 (base_phys + i * 0x1000)) (PTE_PRESENT .| PTE_WRITABLE))
      (Some s);
  Some (s, u64 (virt_addr + offset)).

Definition iounmap (s : vmm) (virt_addr : Z) : vmm := s.

(** The loop of [heap_init] that backs the heap with fresh frames. *)
Definition heap_map_pages (s : vmm) (start_virt size : Z) : option vmm :=
  let pages := u64 (size + PAGE_SIZE - 1) / PAGE_SIZE in
  for_up (Z.to_nat pages) 0 (fun i s =>
    s ← s;
    '(frame, p) ← pmm_alloc_page (vm_pmm s);
    vmm_map_page (VMM p (current_pml4 s) (mmio_virt_base s)) (u64 (start_virt + i * PAGE_SIZE)) frame
                 (PTE_PRESENT .| PTE_WRITABLE)) (Some s).

(** ** Specification *)

(** The indices of the four levels. *)
Definition path (virt : Z) : list Z := [pml4_index virt; pdp_index virt; pd_index virt; pt_index virt].
Definition idx_ok (l : list Z) : Prop := Forall (fun i => 0 <= i < 512) l.

(** The entry a path leads to, 0 when a table is missing. *)
Fixpoint lookup_pte (m : mem) (t : Z) (l : list Z) : Z :=
  match l with
  | [] => 0
  | [i] => entry m t i
  | i :: l => if present (entry m t i) then lookup_pte m (next_table m t i) l else 0
  end.

(** No table of the path is a large page. *)
Fixpoint small_path (m : mem) (t : Z) (l : list Z) : Prop :=
  match l with
  | [] | [_] => True
  | i :: l => present (entry m t i) = true ->
              Z.testbit (entry m t i) 7 = false /\ small_path m (next_table m t i) l
  end.

Definition table_ok (p : pmm) (t : Z) : Prop :=
  exists f, t = f * PAGE_SIZE /\ 0 < f < total_pages p /\ used p f = true /\
    (t + PAGE_SIZE <= bitmap p \/ bitmap p + total_pages p / 8 < t).

Record pt_ok (own : gmap Z (list Z)) (p : pmm) : Prop := {
  po_wf : pmm_wf p;
  po_frame0 : used p 0 = true;
  po_acct : pmm_acct p;
  po_mem : mem_ok (pm_mem p);
  po_bitmap : forall f, 0 <= f < total_pages p ->
    bitmap p < f * PAGE_SIZE + PAGE_SIZE -> f * PAGE_SIZE <= bitmap p + total_pages p / 8 -> used p f = true;
  po_table : forall t l, own !! t = Some l -> table_ok p t;
  po_child : forall t l i, own !! t = Some l -> (length l < 3)%nat -> 0 <= i < 512 ->
    present (entry (pm_mem p) t i) = true -> Z.testbit (entry (pm_mem p) t i) 7 = false ->
    own !! next_table (pm_mem p) t i = Some (l ++ [i])
}.

Definition vm_ok (own : gmap Z (list Z)) (s : vmm) : Prop :=
  pt_ok own (vm_pmm s) /\ own !! current_pml4 s = Some [].

Definition vm_small (s : vmm) (virt : Z) : Prop :=
  small_path (pm_mem (vm_pmm s)) (current_pml4 s) (path virt).

(** ** Entries *)

Lemma index_range x n : 0 <= n -> 0 <= (x .>> n) .& 0x1FF < 512.
Proof.
  intros. change 0x1FF with (Z.ones 9). rewrite Z.land_ones by lia. apply Z.mod_pos_bound. lia.
Qed.

Lemma path_ok virt : idx_ok (path virt).
Proof. repeat constructor; apply index_range; lia. Qed.

Lemma entry_bits f fl k :
  0 <= f < 2 ^ 40 -> 0 <= fl < 2 ^ 12 -> 0 <= k ->
  Z.testbit (f * PAGE_SIZE .| fl) k = if decide (k < 12) then Z.testbit fl k else Z.testbit f (k - 12).
Proof.
  intros Hf Hfl Hk. unfold PAGE_SIZE. change 4096 with (2 ^ 12). rewrite Z.lor_spec.
  case_decide.
  - rewrite Z.mul_pow2_bits_low by lia. done.
  - rewrite Z.mul_pow2_bits by lia. rewrite (Z.bits_above_log2 fl k), orb_false_r; [done|lia|].
    destruct (decide (fl = 0)) as [->|]; [simpl; lia|].
    apply Z.log2_lt_pow2; [lia|]. pose proof (Z.pow_le_mono_r 2 12 k ltac:(lia) ltac:(lia)). lia.
Qed.

Lemma entry_frame f fl :
  0 <= f < 2 ^ 40 -> 0 <= fl < 2 ^ 12 -> (f * PAGE_SIZE .| fl) .& ADDR_MASK = f * PAGE_SIZE.
Proof.
  intros Hf Hfl. apply Z.bits_inj'. intros k Hk. rewrite Z.land_spec, entry_bits by done.
  change ADDR_MASK with (Z.ones 40 * 2 ^ 12). unfold PAGE_SIZE. change 4096 with (2 ^ 12).
  case_decide.
  - rewrite !Z.mul_pow2_bits_low by lia. apply andb_false_r.
  - rewrite !Z.mul_pow2_bits by lia. destruct (decide (k - 12 < 40)).
    + rewrite Z.ones_spec_low by lia. apply andb_true_r.
    + rewrite (Z.bits_above_log2 f); [done|lia|].
      destruct (decide (f = 0)) as [->|]; [simpl; lia|]. apply Z.log2_lt_pow2; [lia|].
      pose proof (Z.pow_le_mono_r 2 40 (k - 12) ltac:(lia) ltac:(lia)). lia.
Qed.

Lemma entry_range f fl :
  0 <= f < 2 ^ 40 -> 0 <= fl < 2 ^ 12 -> 0 <= f * PAGE_SIZE .| fl < 2 ^ 64.
Proof.
  intros Hf Hfl. unfold PAGE_SIZE. split; [apply Z.lor_nonneg; lia|].
  destruct (decide (f * 4096 .| fl = 0)) as [->|]; [lia|].
  apply Z.log2_lt_pow2; [assert (0 <= f * 4096 .| fl) by (apply Z.lor_nonneg; lia); lia|].
  rewrite Z.log2_lor by lia.
  apply Z.max_lub_lt.
  - destruct (decide (f = 0)) as [->|]; [simpl; lia|]. apply Z.log2_lt_pow2; lia.
  - destruct (decide (fl = 0)) as [->|]; [simpl; lia|]. apply Z.log2_lt_pow2; lia.
Qed.

Lemma present_bit e : present e = Z.testbit e 0.
Proof.
  unfold present, PTE_PRESENT. change 1 with (2 ^ 0). rewrite land_pow2_zero by lia. apply negb_involutive.
Qed.

(** ** Writing to tables *)

Lemma slot_disjoint p t i t' i' :
  table_ok p t -> table_ok p t' -> 0 <= i < 512 -> 0 <= i' < 512 -> (t, i) <> (t', i') ->
  t + 8 * i + 8 <= t' + 8 * i' \/ t' + 8 * i' + 8 <= t + 8 * i.
Proof.
  intros (f & -> & _) (f' & -> & _) Hi Hi' Hne. unfold PAGE_SIZE.
  destruct (decide (f = f')) as [->|]; [|lia].
  assert (i <> i') by congruence. lia.
Qed.

Lemma entry_store p t i t' i' v :
  table_ok p t -> table_ok p t' -> 0 <= i < 512 -> 0 <= i' < 512 -> 0 <= v < 2 ^ 64 ->
  entry (store64 (pm_mem p) (t + 8 * i) v) t' i' =
  if decide ((t, i) = (t', i')) then v else entry (pm_mem p) t' i'.
Proof.
  intros Ht Ht' Hi Hi' Hv. unfold entry. case_decide as E.
  - injection E as -> ->. by apply load64_store64_same.
  - apply load64_store64_other. pose proof (slot_disjoint p t i t' i' Ht Ht' Hi Hi' E). lia.
Qed.

Lemma used_ext p m j :
  0 <= j < total_pages p ->
  (forall x, bitmap p <= x <= bitmap p + total_pages p / 8 -> m x = pm_mem p x) ->
  used (with_mem p m) j = used p j.
Proof.
  intros Hj Hm. unfold used, load8; simpl. rewrite Hm; [done|].
  pose proof (Z.div_pos j 8 ltac:(lia) ltac:(lia)).
  pose proof (Z.div_le_mono j (total_pages p) 8 ltac:(lia) ltac:(lia)). lia.
Qed.

(** What does not touch the bitmap keeps the allocator's part of the
    invariant. *)
Definition off_bitmap (p : pmm) (m : mem) : Prop :=
  forall x, bitmap p <= x <= bitmap p + total_pages p / 8 -> m x = pm_mem p x.

Lemma with_mem_acct p m : off_bitmap p m -> pmm_acct p -> pmm_acct (with_mem p m).
Proof.
  unfold pmm_acct. intros Hm H. simpl. rewrite H. f_equal. symmetry. apply nfree_ext.
  intros j Hj. apply used_ext; [lia|done].
Qed.

Lemma table_ok_mem p m t : off_bitmap p m -> table_ok p t -> table_ok (with_mem p m) t.
Proof.
  intros Hm (f & -> & Hf & Hu & Hb). exists f. split; [done|]. split; [done|].
  split; [rewrite used_ext by (lia || done); done|done].
Qed.

Lemma store_off_bitmap p t i v :
  table_ok p t -> 0 <= i < 512 -> off_bitmap p (store64 (pm_mem p) (t + 8 * i) v).
Proof. intros (f & -> & _ & _ & Hb) Hi x Hx. apply store_le_other. unfold PAGE_SIZE in *. lia. Qed.

Lemma pt_ok_mem own own' p m :
  pt_ok own p -> off_bitmap p m -> mem_ok m ->
  (forall t l, own' !! t = Some l -> table_ok p t) ->
  (forall t l i, own' !! t = Some l -> (length l < 3)%nat -> 0 <= i < 512 ->
     present (entry m t i) = true -> Z.testbit (entry m t i) 7 = false ->
     own' !! next_table m t i = Some (l ++ [i])) ->
  pt_ok own' (with_mem p m).
Proof.
  intros [Hwf H0 Ha Hm Hb Ht Hc] Hoff Hok Ht' Hc'. pose proof Hwf as [Htp _].
  assert (forall j, 0 <= j < total_pages p -> used (with_mem p m) j = used p j) as Hu
    by (intros j Hj; by apply used_ext).
  split; simpl; try done.
  - destruct (decide (total_pages p = 0)) as [E|]; [|by rewrite Hu by lia].
    unfold used, load8 in *; simpl in *. rewrite Hoff; [done|].
    rewrite E. change (0 / 8) with 0. lia.
  - by apply with_mem_acct.
  - intros f Hf H1 H2. rewrite Hu by lia. by apply Hb.
  - intros t l Hl. apply table_ok_mem; [done|]. by apply (Ht' t l).
Qed.

Lemma next_table_eq m m' t i : entry m t i = entry m' t i -> next_table m t i = next_table m' t i.
Proof. unfold next_table. by intros ->. Qed.

(** A write to a leaf entry. *)
Lemma pt_ok_leaf own p t l i v :
  pt_ok own p -> own !! t = Some l -> length l = 3%nat -> 0 <= i < 512 -> 0 <= v < 2 ^ 64 ->
  pt_ok own (with_mem p (store64 (pm_mem p) (t + 8 * i) v)).
Proof.
  intros Hok Hl Hlen Hi Hv. pose proof (po_table _ _ Hok _ _ Hl) as Ht.
  apply (pt_ok_mem own); [done|by apply store_off_bitmap|apply store64_ok, Hok|apply Hok|].
  intros t' l' i' Hl' Hlen' Hi'. pose proof (po_table _ _ Hok _ _ Hl') as Ht'.
  assert (entry (store64 (pm_mem p) (t + 8 * i) v) t' i' = entry (pm_mem p) t' i') as E.
  { rewrite (entry_store p) by done. rewrite decide_False; [done|].
    intros E. injection E as <- <-. rewrite Hl in Hl'. injection Hl' as <-. lia. }
  rewrite (next_table_eq _ _ _ _ E), E. by apply Hok.
Qed.

(** ** Lookups over writes *)

Lemma lookup_pte_cons m t i k r :
  lookup_pte m t (i :: k :: r) =
  if present (entry m t i) then lookup_pte m (next_table m t i) (k :: r) else 0.
Proof. done. Qed.

Lemma small_path_cons m t i k r :
  small_path m t (i :: k :: r) =
  (present (entry m t i) = true ->
   Z.testbit (entry m t i) 7 = false /\ small_path m (next_table m t i) (k :: r)).
Proof. done. Qed.

(** Every lookup through tables of [own] gives the same in [m'] as in [m]. *)
Definition keeps (own : gmap Z (list Z)) (m m' : mem) (P : list Z -> Prop) : Prop :=
  forall t l r, own !! t = Some l -> (length l + length r = 4)%nat -> idx_ok r ->
    small_path m t r ->
    (P (l ++ r) -> lookup_pte m' t r = lookup_pte m t r) /\ small_path m' t r.

Lemma keeps_trans own own' m1 m2 m3 P :
  own ⊆ own' -> keeps own m1 m2 (fun _ => True) -> keeps own' m2 m3 P -> keeps own m1 m3 P.
Proof.
  intros Hsub H12 H23 t l r Hl Hlen Hi Hs. destruct (H12 t l r) as [E Hs']; [done..|].
  rewrite <- E by done. apply (H23 t l r); try done. by apply (lookup_weaken own).
Qed.

Lemma keeps_leaf own p t l i v :
  pt_ok own p -> own !! t = Some l -> length l = 3%nat -> 0 <= i < 512 -> 0 <= v < 2 ^ 64 ->
  keeps own (pm_mem p) (store64 (pm_mem p) (t + 8 * i) v) (fun q => q <> l ++ [i]).
Proof.
  intros Hok Hl Hlen Hi Hv t0 l0 r. pose proof (po_table _ _ Hok _ _ Hl) as Ht.
  revert t0 l0. induction r as [|j r IH]; intros t0 l0 Hl0 Hlen0 Hir Hs; [done|].
  pose proof (po_table _ _ Hok _ _ Hl0) as Ht0. apply Forall_cons in Hir as [Hj Hir].
  destruct r as [|k r].
  - split; [|done]. cbn [lookup_pte]. intros Hne. rewrite (entry_store p) by done. case_decide as E; [|done].
    injection E as <- <-. congruence.
  - assert (entry (store64 (pm_mem p) (t + 8 * i) v) t0 j = entry (pm_mem p) t0 j) as E.
    { rewrite (entry_store p) by done. rewrite decide_False; [done|]. intros E. injection E as <- <-.
      rewrite Hl in Hl0. injection Hl0 as <-. simpl in Hlen0. lia. }
    rewrite !small_path_cons, !lookup_pte_cons in *. rewrite (next_table_eq _ _ _ _ E), E.
    destruct (present (entry (pm_mem p) t0 j)) eqn:Ep; [|by split].
    destruct (Hs eq_refl) as [H7 Hs'].
    destruct (IH (next_table (pm_mem p) t0 j) (l0 ++ [j])) as [E' Hs'']; try done.
    + apply Hok; try done. simpl in Hlen0. lia.
    + rewrite length_app. simpl in *. lia.
    + rewrite <- app_assoc in E'. by split.
Qed.

(** ** Growth of the tables

    What an operation that only adds tables does to the rest of memory: the
    tables it adds were free frames, and every byte of a frame in use that is
    neither a table nor part of the bitmap keeps its value. *)
Record grown (own own' : gmap Z (list Z)) (p p' : pmm) : Prop := {
  gr_bitmap : bitmap p' = bitmap p;
  gr_total : total_pages p' = total_pages p;
  gr_used j : 0 < j < total_pages p -> used p j = true -> used p' j = true;
  gr_new t : own !! t = None -> is_Some (own' !! t) -> exists f, t = f * PAGE_SIZE /\ 0 < f < total_pages p /\ used p f = false;
  gr_mem x : off_pmm_bitmap p x -> reserved p x -> (forall t, is_Some (own !! t) -> ~ t <= x < t + PAGE_SIZE) ->
    pm_mem p' x = pm_mem p x
}.

Lemma grown_refl own p : grown own own p p.
Proof. split; try done. intros t Hn [l Hl]. congruence. Qed.

Lemma grown_trans own own1 own2 p p1 p2 : grown own own1 p p1 -> grown own1 own2 p1 p2 -> grown own own2 p p2.
Proof.
  intros [B1 T1 U1 N1 M1] [B2 T2 U2 N2 M2]. rewrite T1 in U2, N2. split; [congruence|congruence|auto| |].
  - intros t Ht H2. destruct (own1 !! t) as [l|] eqn:E; [by apply N1|]. destruct (N2 t E H2) as (f & -> & Hf & Hu). exists f. split; [done|]. split; [done|].
    destruct (used p f) eqn:Eu; [|done]. by rewrite (U1 f Hf Eu) in Hu.
  - intros x Hb Hr Ht. rewrite M2; [by apply M1| | |].
    + unfold off_pmm_bitmap. by rewrite B1, T1.
    + intros f Hf Hx. rewrite T1 in Hf. apply U1; [done|]. by apply Hr.
    + intros t Hl. destruct (own !! t) as [l|] eqn:E; [by apply Ht|]. destruct (N1 t E Hl) as (f & -> & Hf & Hu). intros Hx. rewrite Hr in Hu; [done|done|]. lia.
Qed.

(** A write within a table. *)
Lemma grown_store own p t l i v :
  own !! t = Some l -> table_ok p t -> 0 <= i < 512 -> grown own own p (with_mem p (store64 (pm_mem p) (t + 8 * i) v)).
Proof.
  intros Hl Ht Hi. split; [done|done| | |].
  - intros j Hj Hu. rewrite used_ext; [done|lia|]. by apply store_off_bitmap.
  - intros t' Hn [l' Hl']. congruence.
  - intros x _ _ Hx. apply store_le_other. specialize (Hx t ltac:(eauto)). unfold PAGE_SIZE in Hx. lia.
Qed.

(** ** Creating a table *)

(** A fresh frame is not part of any table nor of the bitmap. *)
Lemma alloc_pt_ok own p :
  pt_ok own p -> PAGE_SIZE <= free_memory p ->
  exists n p1, pmm_alloc_page p = Some (n, p1) /\ pt_ok own p1 /\ own !! n = None /\ table_ok p1 n /\
    free_memory p1 = free_memory p - PAGE_SIZE /\
    (forall t l i, own !! t = Some l -> 0 <= i < 512 -> entry (pm_mem p1) t i = entry (pm_mem p) t i) /\
    grown own own p p1 /\ used p (n / PAGE_SIZE) = false.
Proof.
  intros [Hwf H0 Ha Hm Hb Ht Hc] Hf. unfold PAGE_SIZE in Hf.
  destruct (alloc_page_success p Hwf H0 Ha ltac:(lia)) as
    (f & p1 & Hal & Hfr & (Hbm & Htp & _ & Hfree & Hu) & Hwf1 & H01 & Ha1 & Hf1 & Hmem).
  exists (f * PAGE_SIZE), p1. split; [done|].
  assert (forall t l i, own !! t = Some l -> 0 <= i < 512 -> entry (pm_mem p1) t i = entry (pm_mem p) t i) as He.
  { intros t l i Hl Hi. apply load_le_ext. intros x Hx. apply Hmem.
    destruct (Ht _ _ Hl) as (g & -> & _ & _ & Hg). unfold PAGE_SIZE in *. lia. }
  assert (forall j, 0 <= j < total_pages p -> used p j = true -> used p1 j = true) as Hmono.
  { intros j Hj Huj. destruct (decide (j = 0)) as [->|]; [done|]. rewrite Hu by lia. by case_decide. }
  split; [|split; [|split; [|split]]].
  - split; rewrite ?Hbm, ?Htp; try done.
    + by apply (alloc_page_rec_mem_ok 2 p (f * PAGE_SIZE)).
    + intros g Hg H1 H2. apply Hmono; [done|]. by apply Hb.
    + intros t l Hl. destruct (Ht _ _ Hl) as (g & -> & Hg & Hug & Hbg). exists g. rewrite Hbm, Htp.
      split; [done|]. split; [done|]. split; [apply Hmono; [lia|done]|done].
    + intros t l i Hl Hlen Hi. rewrite (next_table_eq _ (pm_mem p) t i (He t l i Hl Hi)), (He t l i Hl Hi). by apply Hc.
  - destruct (own !! (f * PAGE_SIZE)) as [l|] eqn:E; [|done].
    destruct (Ht _ _ E) as (g & Hg & _ & Hug & _). unfold PAGE_SIZE in Hg.
    assert (f = g) as -> by lia. congruence.
  - exists f. rewrite Htp, Hbm. split; [done|]. split; [done|].
    split; [rewrite Hu by lia; by rewrite decide_True|].
    destruct (decide (f * PAGE_SIZE + PAGE_SIZE <= bitmap p)); [by left|].
    destruct (decide (bitmap p + total_pages p / 8 < f * PAGE_SIZE)); [by right|].
    rewrite Hb in Hfree; [done|lia..].
  - done.
  - split; [done|]. unfold PAGE_SIZE. rewrite Z.div_mul by lia. split; [|done]. split; [done|done|auto with lia| |].
    + intros t Hn [l Hl]. congruence.
    + intros x Hx _ _. by apply Hmem.
Qed.

(** Clearing the frame [n] that was free and linking it into the table [t]. *)
Lemma grown_link own p p1 t l l' i n v :
  grown own own p p1 -> used p (n / PAGE_SIZE) = false -> table_ok p1 n -> own !! t = Some l -> table_ok p1 t -> 0 <= i < 512 ->
  grown own (<[n := l']> own) p (with_mem p1 (store64 (CString.memset (pm_mem p1) n 0 PAGE_SIZE) (t + 8 * i) v)).
Proof.
  intros G Hfree (f & -> & Hf & _ & Hb) Hl Ht Hi. unfold PAGE_SIZE in Hfree. rewrite Z.div_mul in Hfree by lia.
  assert (forall x, ~ f * PAGE_SIZE <= x < f * PAGE_SIZE + PAGE_SIZE -> ~ t <= x < t + PAGE_SIZE ->
    store64 (CString.memset (pm_mem p1) (f * PAGE_SIZE) 0 PAGE_SIZE) (t + 8 * i) v x = pm_mem p1 x) as Hm.
  { intros x H1 H2. unfold store64. rewrite store_le_other by (unfold PAGE_SIZE in H2; lia). rewrite (CString.memset_fill _ _ 0 PAGE_SIZE) by done.
    unfold CString.fill. by rewrite decide_False. }
  pose proof (gr_total _ _ _ _ G) as Et. pose proof (gr_bitmap _ _ _ _ G) as Eb. rewrite Et in Hf. split.
  - exact Eb.
  - exact Et.
  - intros j Hj Hu. rewrite used_ext; [by apply (gr_used _ _ _ _ G)|lia|]. intros x Hx. apply Hm; [unfold PAGE_SIZE in *; lia|].
    destruct Ht as (g & -> & _ & _ & Hg). unfold PAGE_SIZE in *. lia.
  - intros t' Hn. rewrite lookup_insert_is_Some. intros [<-|[_ [k Hk]]]; [by exists f|congruence].
  - intros x Hx Hr Htab. cbn [pm_mem with_mem]. rewrite Hm.
    + by apply (gr_mem _ _ _ _ G).
    + intros Hin. rewrite Hr in Hfree; [done|done|]. unfold PAGE_SIZE in *. lia.
    + apply Htab. eauto.
Qed.

Lemma entry_zero m n i : 0 <= i < 512 -> entry (CString.memset m n 0 PAGE_SIZE) n i = 0.
Proof.
  intros Hi. unfold entry, load64.
  rewrite (load_le_ext _ (fun _ => 0)); [reflexivity|]. intros x Hx.
  rewrite (CString.memset_fill m n 0 PAGE_SIZE) by done. unfold CString.fill, PAGE_SIZE.
  rewrite decide_True by lia. done.
Qed.

Lemma entry_cleared p m n t i :
  table_ok p n -> table_ok p t -> t <> n -> 0 <= i < 512 ->
  entry (CString.memset m n 0 PAGE_SIZE) t i = entry m t i.
Proof.
  intros (f & -> & _) (g & -> & _) Hne Hi. apply load_le_ext. intros x Hx.
  rewrite (CString.memset_fill m _ 0 PAGE_SIZE) by done. unfold CString.fill, PAGE_SIZE in *.
  rewrite decide_False by (assert (f <> g) by congruence; lia). done.
Qed.

Lemma memset_ok m p v n : 0 <= n -> mem_ok m -> mem_ok (CString.memset m p v n).
Proof.
  intros Hn Hm x. rewrite (CString.memset_fill m p v n Hn). unfold CString.fill.
  case_decide; [apply u8_range|apply Hm].
Qed.

#[local] Opaque CString.memset store64 load64 pmm_alloc_page.

(** Clearing a fresh frame. *)
Lemma clear_pt_ok own p n :
  pt_ok own p -> table_ok p n -> own !! n = None ->
  pt_ok own (with_mem p (CString.memset (pm_mem p) n 0 PAGE_SIZE)).
Proof.
  intros Hok Hn Hno.
  apply (pt_ok_mem own); [done| |apply memset_ok; [done|apply Hok]|apply Hok|].
  - intros x Hx. rewrite (CString.memset_fill _ n 0 PAGE_SIZE) by done. unfold CString.fill.
    destruct Hn as (f & -> & _ & _ & Hb). rewrite decide_False by lia. done.
  - intros t l i Hl Hlen Hi. assert (t <> n) by congruence.
    pose proof (entry_cleared p (pm_mem p) n t i Hn (po_table _ _ Hok _ _ Hl) ltac:(done) Hi) as E.
    rewrite (next_table_eq _ _ _ _ E), E. by apply Hok.
Qed.

(** Linking a cleared table that nothing points to yet. *)
Lemma link_pt_ok own p t l i n v :
  pt_ok own p -> own !! t = Some l -> (length l < 3)%nat -> 0 <= i < 512 ->
  table_ok p n -> own !! n = None -> 0 <= v < 2 ^ 64 -> v .& ADDR_MASK = n ->
  (forall j, 0 <= j < 512 -> entry (pm_mem p) n j = 0) ->
  pt_ok (<[n := l ++ [i]]> own) (with_mem p (store64 (pm_mem p) (t + 8 * i) v)).
Proof.
  intros Hok Hl Hlen Hi Hn Hno Hv Hvn Hz. pose proof (po_table _ _ Hok _ _ Hl) as Ht.
  assert (t <> n) as Htn by congruence.
  apply (pt_ok_mem own); [done|by apply store_off_bitmap|apply store64_ok, Hok| |].
  - intros t' l'. rewrite lookup_insert_Some. intros [[<- _]|[_ Hl']]; [done|]. by apply (po_table _ _ Hok _ l').
  - intros t' l' j. rewrite lookup_insert_Some. intros [[<- <-]|[Hne Hl']] Hlen' Hj.
    + rewrite (entry_store p), decide_False, Hz by (done || congruence). done.
    + pose proof (po_table _ _ Hok _ _ Hl') as Ht'. unfold next_table.
      rewrite (entry_store p) by done. case_decide as E.
      * injection E as <- <-. rewrite Hl in Hl'. injection Hl' as <-. intros _ _.
        rewrite Hvn. by rewrite lookup_insert_eq.
      * intros Hp H7. pose proof (po_child _ _ Hok t' l' j Hl' Hlen' Hj Hp H7) as Hc.
        rewrite lookup_insert_ne; [done|]. intros E'. unfold next_table in Hc. rewrite <- E' in Hc. congruence.
Qed.

(** An entry that becomes a link to an empty table changes no lookup. *)
Lemma keeps_link own p m' t l i n :
  pt_ok own p -> own !! t = Some l -> (length l < 3)%nat ->
  (forall t0 l0 j, own !! t0 = Some l0 -> 0 <= j < 512 -> (t, i) <> (t0, j) ->
     entry m' t0 j = entry (pm_mem p) t0 j) ->
  present (entry (pm_mem p) t i) = false -> Z.testbit (entry m' t i) 7 = false ->
  next_table m' t i = n -> (forall j, 0 <= j < 512 -> entry m' n j = 0) ->
  keeps own (pm_mem p) m' (fun _ => True).
Proof.
  intros Hok Hl Hlen He Hp H7 Hn Hz t0 l0 r. revert t0 l0.
  induction r as [|j r IH]; intros t0 l0 Hl0 Hlen0 Hir Hs; [done|].
  apply Forall_cons in Hir as [Hj Hir]. destruct r as [|k r].
  - split; [|done]. cbn [lookup_pte]. intros _. apply (He t0 l0 j Hl0 Hj).
    intros E. injection E as <- <-. rewrite Hl in Hl0. injection Hl0 as <-. simpl in Hlen0. lia.
  - rewrite !small_path_cons, !lookup_pte_cons in *. destruct (decide ((t, i) = (t0, j))) as [E|E].
    + injection E as <- <-. rewrite Hp, Hn, H7. apply Forall_cons in Hir as [Hk Hir].
      assert (lookup_pte m' n (k :: r) = 0 /\ small_path m' n (k :: r)) as [E0 Hs0].
      { destruct r as [|k' r]; cbn [lookup_pte small_path]; rewrite (Hz k Hk); by split. }
      rewrite E0. split; [by destruct (present (entry m' t i))|]. intros _. by split.
    + pose proof (He t0 l0 j Hl0 Hj E) as E'. rewrite (next_table_eq _ _ _ _ E'), E'.
      destruct (present (entry (pm_mem p) t0 j)) eqn:Ep; [|by split].
      destruct (Hs eq_refl) as [H7' Hs'].
      destruct (IH (next_table (pm_mem p) t0 j) (l0 ++ [j])) as [E'' Hs'']; try done.
      * apply Hok; try done. simpl in Hlen0. lia.
      * rewrite length_app. simpl in *. lia.
Qed.

Lemma link_value f : 0 <= f < 2 ^ 40 ->
  let v := f * PAGE_SIZE .| PTE_PRESENT .| PTE_WRITABLE .| PTE_USER in
  0 <= v < 2 ^ 64 /\ v .& ADDR_MASK = f * PAGE_SIZE /\ present v = true /\ Z.testbit v 7 = false.
Proof.
  intros Hf v. assert (v = f * PAGE_SIZE .| 7) as ->.
  { unfold v, PTE_PRESENT, PTE_WRITABLE, PTE_USER. by rewrite <- !Z.lor_assoc. }
  split; [by apply entry_range|]. split; [by apply entry_frame|].
  rewrite present_bit, !entry_bits by lia. done.
Qed.

(** After one level of the walk, the table exists, belongs to the path, and no
    lookup has changed. *)
Lemma ensure_table_spec own p t l i :
  pt_ok own p -> own !! t = Some l -> (length l < 3)%nat -> 0 <= i < 512 ->
  PAGE_SIZE <= free_memory p ->
  (present (entry (pm_mem p) t i) = true -> Z.testbit (entry (pm_mem p) t i) 7 = false) ->
  exists p' n own', ensure_table p t i = Some (p', n) /\ pt_ok own' p' /\ own ⊆ own' /\
    own' !! n = Some (l ++ [i]) /\ free_memory p - PAGE_SIZE <= free_memory p' /\
    present (entry (pm_mem p') t i) = true /\ next_table (pm_mem p') t i = n /\
    keeps own (pm_mem p) (pm_mem p') (fun _ => True) /\
    (forall t0 l0 j, own !! t0 = Some l0 -> 0 <= j < 512 -> present (entry (pm_mem p) t0 j) = true ->
       entry (pm_mem p') t0 j = entry (pm_mem p) t0 j) /\
    grown own own' p p'.
Proof.
  intros Hok Hl Hlen Hi Hf Hsm. unfold ensure_table.
  destruct (present (entry (pm_mem p) t i)) eqn:Hp; simpl.
  - exists p, (next_table (pm_mem p) t i), own. split; [done|]. split; [done|]. split; [done|].
    split; [apply Hok; auto|]. unfold PAGE_SIZE. split; [lia|]. repeat (split; [done|]). apply grown_refl.
  - destruct (alloc_pt_ok own p Hok Hf) as (n & p1 & -> & Hok1 & Hno & Hn & Hf1 & He1 & Hg1 & Hfree). simpl.
    set (p2 := with_mem p1 (CString.memset (pm_mem p1) n 0 PAGE_SIZE)).
    pose proof (clear_pt_ok own p1 n Hok1 Hn Hno) as Hok2. fold p2 in Hok2.
    set (v := n .| PTE_PRESENT .| PTE_WRITABLE .| PTE_USER).
    assert (0 <= v < 2 ^ 64 /\ v .& ADDR_MASK = n /\ present v = true /\ Z.testbit v 7 = false) as (Hv & Hvn & Hvp & Hv7).
    { destruct Hn as (f & -> & Hfr & _), (po_wf _ _ Hok1). apply link_value. lia. }
    assert (table_ok p2 n) as Hn2.
    { destruct Hn as (f & -> & Hfr & Hu & Hb). exists f. split; [done|]. split; [done|].
      split; [|done]. unfold p2. rewrite used_ext; [done|lia|]. intros x Hx.
      rewrite (CString.memset_fill _ _ 0 PAGE_SIZE) by done. unfold CString.fill.
      rewrite decide_False by lia. done. }
    pose proof (po_table _ _ Hok2 _ _ Hl) as Ht2.
    assert (forall j, 0 <= j < 512 -> entry (pm_mem p2) n j = 0) as Hz by (intros; by apply entry_zero).
    set (m3 := store64 (pm_mem p2) (t + 8 * i) v).
    assert (forall t0 l0 j, own !! t0 = Some l0 -> 0 <= j < 512 ->
      entry m3 t0 j = if decide ((t, i) = (t0, j)) then v else entry (pm_mem p) t0 j) as He.
    { intros t0 l0 j Hl0 Hj. unfold m3. rewrite (entry_store p2) by (done || by apply (po_table _ _ Hok2 _ l0)).
      case_decide; [done|]. simpl. rewrite (entry_cleared p1); [by apply (He1 _ l0)|done| |congruence|done].
      by apply (po_table _ _ Hok1 _ l0). }
    assert (entry m3 t i = v) as Hti by (rewrite (He _ l) by done; by rewrite decide_True).
    assert (next_table m3 t i = n) as Hnt by (unfold next_table; by rewrite Hti).
    exists (with_mem p2 m3), (next_table m3 t i), (<[n := l ++ [i]]> own). split; [done|].
    split; [exact (link_pt_ok own p2 t l i n v Hok2 Hl Hlen Hi Hn2 Hno Hv Hvn Hz)|].
    split; [by apply insert_subseteq|]. change (pm_mem (with_mem p2 m3)) with m3.
    rewrite Hnt. split; [by rewrite lookup_insert_eq|]. split; [simpl; lia|].
    split; [by rewrite Hti|]. split; [done|]. split.
    + apply (keeps_link own p _ t l i n); try done.
      * intros t0 l0 j Hl0 Hj Hne. rewrite (He _ l0) by done. by rewrite decide_False.
      * by rewrite Hti.
      * intros j Hj. unfold m3. rewrite (entry_store p2) by done. rewrite decide_False by congruence. by apply Hz.
    + split.
      * intros t0 l0 j Hl0 Hj Hp0. rewrite (He _ l0) by done. case_decide as E; [|done].
        injection E as <- <-. congruence.
      * apply (grown_link own p p1 t l); try done. by apply (po_table _ _ Hok1 _ l).
Qed.

(** ** Mapping a page *)

Lemma get_pte_lookup s virt :
  vmm_get_pte s virt = lookup_pte (pm_mem (vm_pmm s)) (current_pml4 s) (path virt).
Proof.
  unfold vmm_get_pte, find_pt, descend, path. cbn [lookup_pte].
  destruct (present (entry (pm_mem (vm_pmm s)) _ (pml4_index virt))); [|done]. simpl.
  destruct (present (entry (pm_mem (vm_pmm s)) _ (pdp_index virt))); [|done]. simpl.
  by destruct (present (entry (pm_mem (vm_pmm s)) _ (pd_index virt))).
Qed.

Lemma get_phys_pte s virt :
  vmm_get_phys s virt =
  if present (vmm_get_pte s virt) then (vmm_get_pte s virt .& ADDR_MASK) .| (virt .& 0xFFF) else 0.
Proof. unfold vmm_get_phys, vmm_get_pte. destruct (find_pt s virt); [|done]. by destruct (present _). Qed.

Lemma vm_small_next m t i k r :
  small_path m t (i :: k :: r) -> present (entry m t i) = true -> small_path m (next_table m t i) (k :: r).
Proof. rewrite small_path_cons. intros H Hp. by apply H. Qed.

(** What a change of the page [q] (a path) to the entry [e] leaves. *)
Record page_update (s s' : vmm) (q : list Z) (e : Z) : Prop := {
  pu_root : current_pml4 s' = current_pml4 s;
  pu_mmio : mmio_virt_base s' = mmio_virt_base s;
  pu_small v : vm_small s v -> vm_small s' v;
  pu_pte v : vm_small s v -> vmm_get_pte s' v = if decide (path v = q) then e else vmm_get_pte s v
}.

Lemma leaf_update own s p4 p3 pdp pd pt virt e :
  vm_ok own s -> pt_ok p4 p3 -> own ⊆ p4 ->
  keeps own (pm_mem (vm_pmm s)) (pm_mem p3) (fun _ => True) ->
  descend (pm_mem p3) (current_pml4 s) (pml4_index virt) = Some pdp ->
  descend (pm_mem p3) pdp (pdp_index virt) = Some pd ->
  descend (pm_mem p3) pd (pd_index virt) = Some pt ->
  p4 !! pdp = Some [pml4_index virt] -> p4 !! pd = Some [pml4_index virt; pdp_index virt] ->
  p4 !! pt = Some [pml4_index virt; pdp_index virt; pd_index virt] -> 0 <= e < 2 ^ 64 ->
  let s' := VMM (with_mem p3 (store64 (pm_mem p3) (pt + 8 * pt_index virt) e)) (current_pml4 s) (mmio_virt_base s) in
  vm_ok p4 s' /\ page_update s s' (path virt) e.
Proof.
  intros [Hok Hr] Hok3 Hsub Hk D1 D2 D3 O1 O2 O3 He s'.
  pose proof (index_range virt 12 ltac:(lia)) as Hi.
  assert (p4 !! current_pml4 s = Some []) as O0 by (by apply (lookup_weaken own)).
  pose proof (keeps_leaf p4 p3 pt _ (pt_index virt) e Hok3 O3 eq_refl Hi He) as Hleaf.
  pose proof (keeps_trans _ _ _ _ _ _ Hsub Hk Hleaf) as Hall.
  split; [split; [by eapply pt_ok_leaf|done]|].
  split; [done|done| |].
  - intros v Hv. by apply (Hall (current_pml4 s) [] (path v) Hr eq_refl (path_ok v)).
  - intros v Hv. case_decide as E.
    + rewrite get_pte_lookup, E. unfold path. simpl.
      assert (forall t i l, p4 !! t = Some l -> (length l < 3)%nat -> 0 <= i < 512 ->
        entry (store64 (pm_mem p3) (pt + 8 * pt_index virt) e) t i = entry (pm_mem p3) t i) as Hne.
      { intros t i l Hl Hlen Hi'. rewrite (entry_store p3); [|by eapply po_table..|done|done|done].
        rewrite decide_False; [done|]. intros E'. injection E' as E' _. rewrite <- E', O3 in Hl. injection Hl as <-.
        simpl in Hlen. lia. }
      unfold descend, next_table in *.
      rewrite (Hne _ _ [] O0) by (simpl; lia || apply index_range; lia).
      destruct (present (entry (pm_mem p3) (current_pml4 s) (pml4_index virt))); [|done]. injection D1 as ->.
      rewrite (Hne pdp _ _ O1) by (simpl; lia || apply index_range; lia).
      destruct (present (entry (pm_mem p3) pdp (pdp_index virt))); [|done]. injection D2 as ->.
      rewrite (Hne pd _ _ O2) by (simpl; lia || apply index_range; lia).
      destruct (present (entry (pm_mem p3) pd (pd_index virt))); [|done]. injection D3 as ->.
      rewrite (entry_store p3); [by rewrite decide_True|by eapply po_table..|done|done|done].
    + rewrite !get_pte_lookup. apply (Hall (current_pml4 s) [] (path v) Hr eq_refl (path_ok v) Hv).
      simpl. done.
Qed.

Lemma descend_eq m t i n : present (entry m t i) = true -> next_table m t i = n -> descend m t i = Some n.
Proof. unfold descend. by intros -> ->. Qed.

Lemma descend_kept m m' t i n :
  descend m t i = Some n -> (present (entry m t i) = true -> entry m' t i = entry m t i) ->
  descend m' t i = Some n.
Proof.
  unfold descend, next_table. destruct (present (entry m t i)) eqn:E; [|done].
  intros H Hk. rewrite Hk by done. by rewrite E.
Qed.

Lemma map_page_spec own s virt phys flags :
  vm_ok own s -> vm_small s virt -> 3 * PAGE_SIZE <= free_memory (vm_pmm s) ->
  0 <= phys .| flags < 2 ^ 64 ->
  exists s' own', vmm_map_page s virt phys flags = Some s' /\ vm_ok own' s' /\ own ⊆ own' /\
    free_memory (vm_pmm s) - 3 * PAGE_SIZE <= free_memory (vm_pmm s') /\
    grown own own' (vm_pmm s) (vm_pmm s') /\ page_update s s' (path virt) (phys .| flags).
Proof.
  intros Hvm Hs Hf He. pose proof Hvm as [Hok Hr]. unfold vm_small, path in Hs. unfold vmm_map_page.
  set (t0 := current_pml4 s) in *. unfold PAGE_SIZE in Hf.
  destruct (ensure_table_spec own (vm_pmm s) t0 [] (pml4_index virt)) as
    (p1 & pdp & own1 & E1 & Hok1 & Hs1 & O1 & F1 & P1 & N1 & K1 & _ & G1);
    [done|done|simpl; lia|apply index_range; lia|unfold PAGE_SIZE; lia|apply Hs|].
  rewrite E1. simpl. unfold PAGE_SIZE in F1.
  destruct (K1 t0 [] (path virt) Hr eq_refl (path_ok virt) Hs) as [_ Hs'].
  apply vm_small_next in Hs' as Hs2; [|exact P1]. rewrite N1 in Hs2.
  destruct (ensure_table_spec own1 p1 pdp [pml4_index virt] (pdp_index virt)) as
    (p2 & pd & own2 & E2 & Hok2 & Hsub2 & O2 & F2 & P2 & N2 & K2 & Q2 & G2);
    [done|done|simpl; lia|apply index_range; lia|unfold PAGE_SIZE; lia|apply Hs2|].
  rewrite E2. simpl. unfold PAGE_SIZE in F2.
  destruct (K2 pdp _ [pdp_index virt; pd_index virt; pt_index virt] O1 eq_refl) as [_ Hs2'];
    [by repeat constructor; apply index_range|done|].
  apply vm_small_next in Hs2' as Hs3; [|done]. rewrite N2 in Hs3.
  destruct (ensure_table_spec own2 p2 pd [pml4_index virt; pdp_index virt] (pd_index virt)) as
    (p3 & pt & own3 & E3 & Hok3 & Hsub3 & O3 & F3 & P3 & N3 & K3 & Q3 & G3);
    [done|done|simpl; lia|apply index_range; lia|unfold PAGE_SIZE; lia|apply Hs3|].
  rewrite E3. simpl. unfold PAGE_SIZE in *.
  pose proof (keeps_trans _ _ _ _ _ _ Hs1 K1 K2) as K12.
  pose proof (keeps_trans _ _ _ _ _ _ (transitivity Hs1 Hsub2) K12 K3) as K123.
  assert (own ⊆ own3) as Hsub by (transitivity own2; [by transitivity own1|done]).
  assert (own1 !! t0 = Some []) as O10 by (by apply (lookup_weaken own)).
  assert (own2 !! t0 = Some []) as O20 by (by apply (lookup_weaken own1)).
  assert (own2 !! pdp = Some [pml4_index virt]) as O21 by (by apply (lookup_weaken own1)).
  destruct (leaf_update own s own3 p3 pdp pd pt virt (phys .| flags)) as [Hfin Hup]; try done.
  - apply (descend_kept (pm_mem p2)).
    + apply (descend_kept (pm_mem p1)); [by apply descend_eq|].
      apply (Q2 _ _ _ O10). apply index_range. lia.
    + apply (Q3 _ _ _ O20). apply index_range. lia.
  - apply (descend_kept (pm_mem p2)); [by apply descend_eq|]. apply (Q3 _ _ _ O21). apply index_range. lia.
  - by apply descend_eq.
  - by apply (lookup_weaken own2).
  - by apply (lookup_weaken own2).
  - eexists _, own3. split; [done|]. split; [exact Hfin|]. split; [done|]. split; [simpl; lia|]. split; [|exact Hup].
    apply (grown_trans _ own3 _ _ p3); [by eapply grown_trans, G3; eapply grown_trans|]. by apply (grown_store _ _ _ [pml4_index virt; pdp_index virt; pd_index virt]); [|apply (po_table _ _ Hok3 _ _ O3)|apply index_range; lia].
Qed.

Lemma descend_owned own p t l i n :
  pt_ok own p -> own !! t = Some l -> (length l < 3)%nat -> 0 <= i < 512 ->
  descend (pm_mem p) t i = Some n ->
  (present (entry (pm_mem p) t i) = true -> Z.testbit (entry (pm_mem p) t i) 7 = false) ->
  own !! n = Some (l ++ [i]).
Proof.
  unfold descend. intros Hok Hl Hlen Hi Hd Hsm. destruct (present (entry (pm_mem p) t i)) eqn:E; [|done].
  injection Hd as <-. apply Hok; auto.
Qed.

Lemma unmap_page_spec own s virt :
  vm_ok own s -> vm_small s virt ->
  vm_ok own (vmm_unmap_page s virt) /\ page_update s (vmm_unmap_page s virt) (path virt) 0.
Proof.
  intros Hvm Hs. pose proof Hvm as [Hok Hr]. unfold vmm_unmap_page.
  destruct (find_pt s virt) as [pt|] eqn:E.
  - unfold find_pt in E. unfold vm_small, path in Hs.
    destruct (descend _ _ (pml4_index virt)) as [pdp|] eqn:D1; [|done]. simpl in E.
    destruct (descend _ _ (pdp_index virt)) as [pd|] eqn:D2; [|done]. simpl in E.
    assert (forall t i n k r, descend (pm_mem (vm_pmm s)) t i = Some n ->
      small_path (pm_mem (vm_pmm s)) t (i :: k :: r) -> small_path (pm_mem (vm_pmm s)) n (k :: r)) as Hnext.
    { intros t i n k r Hd Hsm. unfold descend in Hd. destruct (present _) eqn:Ep; [|done].
      injection Hd as <-. by apply vm_small_next. }
    pose proof (Hnext _ _ _ _ _ D1 Hs) as Hs2. pose proof (Hnext _ _ _ _ _ D2 Hs2) as Hs3.
    pose proof (descend_owned own (vm_pmm s) _ [] _ _ Hok Hr ltac:(simpl; lia) (index_range virt 39 ltac:(lia)) D1
      (fun H => proj1 (Hs H))) as O1.
    pose proof (descend_owned own (vm_pmm s) _ _ _ _ Hok O1 ltac:(simpl; lia) (index_range virt 30 ltac:(lia)) D2
      (fun H => proj1 (Hs2 H))) as O2.
    pose proof (descend_owned own (vm_pmm s) _ _ _ _ Hok O2 ltac:(simpl; lia) (index_range virt 21 ltac:(lia)) E
      (fun H => proj1 (Hs3 H))) as O3.
    apply (leaf_update own s own (vm_pmm s) pdp pd pt virt 0); try done.
  - split; [done|]. split; try done. intros v Hv. case_decide as Ep; [|done].
    rewrite get_pte_lookup, Ep, <- get_pte_lookup. unfold vmm_get_pte. by rewrite E.
Qed.

(** ** Pages and paths *)

Lemma index_div v n : 12 <= n -> (v .>> n) .& 0x1FF = (v / 4096 / 2 ^ (n - 12)) mod 512.
Proof.
  intros. change 0x1FF with (Z.ones 9). rewrite Z.land_ones, Z.shiftr_div_pow2 by lia.
  rewrite Z.div_div by lia. do 2 f_equal. replace n with (12 + (n - 12)) at 1 by lia.
  by rewrite Z.pow_add_r by lia.
Qed.

Lemma path_same_page v w : v / 4096 = w / 4096 -> path v = path w.
Proof.
  intros E. unfold path, pml4_index, pdp_index, pd_index, pt_index. by rewrite !index_div, E by lia.
Qed.

(** The four indices determine the 36-bit page number. *)
Lemma path_page v w : path v = path w -> (v / 4096) mod 2 ^ 36 = (w / 4096) mod 2 ^ 36.
Proof.
  unfold path, pml4_index, pdp_index, pd_index, pt_index. rewrite !index_div by lia. intros E.
  injection E as E3 E2 E1 E0. revert E3 E2 E1 E0. generalize (v / 4096), (w / 4096). intros x y.
  change (2 ^ (39 - 12)) with (512 * (512 * 512)). change (2 ^ (30 - 12)) with (512 * 512).
  change (2 ^ (21 - 12)) with 512. change (2 ^ (12 - 12)) with 1.
  change (2 ^ 36) with (512 * (512 * (512 * 512))).
  rewrite <- !Z.div_div, !Z.div_1_r by lia. intros E3 E2 E1 E0.
  rewrite !Z.rem_mul_r by lia. by rewrite E0, E1, E2, E3.
Qed.

Lemma land_low x : x .& 0xFFF = x mod 4096.
Proof. change 0xFFF with (Z.ones 12). by rewrite Z.land_ones. Qed.

Lemma ldiff_low x : Z.ldiff x 0xFFF = x / 4096 * 4096.
Proof.
  change 0xFFF with (Z.ones 12). rewrite Z.ldiff_ones_r, Z.shiftl_mul_pow2, Z.shiftr_div_pow2 by lia. done.
Qed.

Lemma lor_low f r : 0 <= r < 4096 -> f * PAGE_SIZE .| r = f * PAGE_SIZE + r.
Proof.
  intros Hr. symmetry. apply Z.add_nocarry_lor. apply Z.bits_inj'. intros k Hk.
  rewrite Z.land_spec, Z.bits_0. unfold PAGE_SIZE. change 4096 with (2 ^ 12).
  destruct (decide (k < 12)); [by rewrite Z.mul_pow2_bits_low by lia|].
  rewrite (Z.bits_above_log2 r), andb_false_r; [done|lia|].
  destruct (decide (r = 0)) as [->|]; [simpl; lia|]. apply Z.log2_lt_pow2; [lia|].
  pose proof (Z.pow_le_mono_r 2 12 k ltac:(lia) ltac:(lia)). lia.
Qed.

(** What a mapped page translates to. *)
Lemma get_phys_mapped s v f fl :
  vmm_get_pte s v = f * PAGE_SIZE .| fl -> 0 <= f < 2 ^ 40 -> 0 <= fl < 2 ^ 12 -> Z.testbit fl 0 = true ->
  vmm_get_phys s v = f * PAGE_SIZE + v mod PAGE_SIZE.
Proof.
  intros E Hf Hfl Hp. rewrite get_phys_pte, E, present_bit, entry_bits, decide_True, Hp by lia.
  rewrite entry_frame, land_low by done. apply lor_low. apply Z.mod_pos_bound. lia.
Qed.

(** ** Mapping device memory *)

(** The state of the loop of [ioremap] before iteration [i]: the pages below
    [i] are mapped and no other entry has changed. *)
Definition mapped_upto (own : gmap Z (list Z)) (s0 : vmm) (va pa : Z) (i : Z) (os : option vmm) : Prop :=
  exists s own', os = Some s /\ vm_ok own' s /\ own ⊆ own' /\
    free_memory (vm_pmm s0) - 3 * PAGE_SIZE * i <= free_memory (vm_pmm s) /\
    current_pml4 s = current_pml4 s0 /\ mmio_virt_base s = mmio_virt_base s0 /\
    (forall v, vm_small s0 v -> vm_small s v) /\
    (forall j, 0 <= j < i -> vmm_get_pte s (va + j * 0x1000) = (pa + j * 0x1000) .| 3) /\
    (forall v, vm_small s0 v -> (forall j, 0 <= j < i -> path v <> path (va + j * 0x1000)) ->
       vmm_get_pte s v = vmm_get_pte s0 v).

Lemma ioremap_step own s0 va pa n i os :
  0 <= va -> va mod 4096 = 0 -> va + n * 0x1000 <= 2 ^ 64 -> n <= 2 ^ 36 ->
  0 <= pa -> pa mod 4096 = 0 -> pa + n * 0x1000 <= 2 ^ 52 ->
  (forall j, 0 <= j < n -> vm_small s0 (va + j * 0x1000)) ->
  3 * PAGE_SIZE * n <= free_memory (vm_pmm s0) -> 0 <= i < n ->
  mapped_upto own s0 va pa i os ->
  mapped_upto own s0 va pa (i + 1)
    (s ← os; vmm_map_page s (u64 (va + i * 0x1000)) (u64 (pa + i * 0x1000)) (PTE_PRESENT .| PTE_WRITABLE)).
Proof.
  intros Hva Hva4 Hvan Hn Hpa Hpa4 Hpan Hsm Hfree Hi
    (s & own' & -> & Hok & Hsub & Hf & Hroot & Hmm & Hsmall & Hj & Hv). simpl.
  rewrite !u64_small by lia. change (PTE_PRESENT .| PTE_WRITABLE) with 3. unfold PAGE_SIZE in *.
  assert (pa + i * 4096 = (pa / 4096 + i) * PAGE_SIZE) as Epa.
  { pose proof (Z.div_mod pa 4096). unfold PAGE_SIZE. lia. }
  assert (0 <= pa / 4096 + i < 2 ^ 40) as Hpr.
  { pose proof (Z.div_mod pa 4096). lia. }
  destruct (map_page_spec own' s (va + i * 4096) (pa + i * 4096) 3) as
    (s' & own'' & -> & Hok' & Hsub' & Hf' & _ & Hup).
  { done. } { apply Hsmall, Hsm. lia. } { unfold PAGE_SIZE. lia. }
  { rewrite Epa. apply entry_range; lia. }
  destruct Hup as [Hr Hm Hs2 Hp]. unfold PAGE_SIZE in Hf'.
  exists s', own''. split; [done|]. split; [done|]. split; [by transitivity own'|]. split; [unfold PAGE_SIZE; lia|].
  split; [congruence|]. split; [congruence|]. split; [auto|]. split.
  - intros j Hjr. rewrite Hp by (apply Hsmall, Hsm; lia). case_decide as E.
    + apply path_page in E. pose proof (Z.div_mod va 4096).
      assert (forall k, (va + k * 4096) / 4096 = va / 4096 + k) as Ek by (intros; by rewrite Z.div_add).
      rewrite !Ek in E. assert (j = i) as ->; [|done].
      apply (f_equal (fun x => (x - va / 4096) mod 2 ^ 36)) in E.
      rewrite !Zminus_mod_idemp_l in E.
      replace (va / 4096 + j - va / 4096) with j in E by lia.
      replace (va / 4096 + i - va / 4096) with i in E by lia.
      rewrite !Z.mod_small in E by lia. done.
    + apply Hj. assert (j <> i) by congruence. lia.
  - intros v Hsv Hne. rewrite Hp by auto. rewrite decide_False by (apply Hne; lia).
    apply Hv; [done|]. intros j Hjr. apply Hne. lia.
Qed.

Lemma ioremap_loop own s va pa n :
  vm_ok own s -> 0 <= n <= 2 ^ 36 -> 0 <= va -> va mod 4096 = 0 -> va + n * 0x1000 <= 2 ^ 64 ->
  0 <= pa -> pa mod 4096 = 0 -> pa + n * 0x1000 <= 2 ^ 52 ->
  (forall j, 0 <= j < n -> vm_small s (va + j * 0x1000)) ->
  3 * PAGE_SIZE * n <= free_memory (vm_pmm s) ->
  mapped_upto own s va pa n
    (for_up (Z.to_nat n) 0 (fun i s => s ← s; vmm_map_page s (u64 (va + i * 0x1000))
       (u64 (pa + i * 0x1000)) (PTE_PRESENT .| PTE_WRITABLE)) (Some s)).
Proof.
  intros Hok Hn Hva Hva4 Hvan Hpa Hpa4 Hpan Hsm Hf.
  pose proof (for_up_inv (mapped_upto own s va pa)) as Hinv.
  replace n with (0 + Z.of_nat (Z.to_nat n)) at 1 by lia. apply Hinv.
  - intros j os Hj. apply (ioremap_step own s va pa n); try done; lia.
  - exists s, own. split; [done|]. split; [done|]. split; [done|]. split; [lia|].
    do 3 (split; [done|]). split; [intros; lia|done].
Qed.

(** A byte of a page that the loop has mapped. *)
Lemma mapped_byte s va f x :
  0 <= f < 2 ^ 40 -> va mod 4096 = 0 ->
  vmm_get_pte s (va + x / 4096 * 4096) = f * PAGE_SIZE .| 3 ->
  vmm_get_phys s (va + x) = f * PAGE_SIZE + x mod 4096.
Proof.
  intros Hf Hva Hp. pose proof (Z.div_mod va 4096 ltac:(lia)) as Hvd.
  pose proof (Z.div_mod x 4096 ltac:(lia)) as Hxd. pose proof (Z.mod_pos_bound x 4096 ltac:(lia)) as Hxm.
  assert ((va + x) / 4096 = va / 4096 + x / 4096) as Ediv.
  { symmetry. apply (Z.div_unique_pos _ _ _ (x mod 4096)); lia. }
  rewrite (get_phys_mapped s _ f 3); [|rewrite get_pte_lookup, (path_same_page _ (va + x / 4096 * 4096)), <- get_pte_lookup|lia|lia|done].
  - f_equal. unfold PAGE_SIZE. rewrite (Z.mod_eq (va + x) 4096), Ediv by lia. lia.
  - done.
  - rewrite Ediv. symmetry. by rewrite Z.div_add.
Qed.

(** ** Freeing the user half *)

(** [q] differs from [p] in the bitmap, the counter and the search hint only. *)
Definition bitmap_only (p q : pmm) : Prop :=
  bitmap q = bitmap p /\ total_pages q = total_pages p /\
  forall x, x < bitmap p \/ bitmap p + total_pages p / 8 < x -> pm_mem q x = pm_mem p x.

#[local] Instance bitmap_only_preorder : PreOrder bitmap_only.
Proof.
  split; [done|]. intros p q r (B1 & T1 & M1) (B2 & T2 & M2). split; [congruence|]. split; [congruence|].
  intros x Hx. rewrite <- M1 by done. apply M2. by rewrite B1, T1.
Qed.

Lemma free_page_bitmap_only p a : 0 <= a -> bitmap_only p (pmm_free_page p a).
Proof.
  intros Ha. unfold pmm_free_page. destruct (a / PAGE_SIZE <? total_pages p) eqn:E; [|done]. simpl_bool.
  assert (bitmap_only p (pmm_clear_bit p (a / PAGE_SIZE))) as H.
  { split; [done|]. split; [done|]. intros x Hx. apply store8_other.
    pose proof (Z.div_pos a PAGE_SIZE Ha ltac:(done)) as H0.
    pose proof (Z.div_pos (a / PAGE_SIZE) 8 H0 ltac:(lia)).
    pose proof (Z.div_le_mono (a / PAGE_SIZE) (total_pages p) 8 ltac:(lia) ltac:(lia)). lia. }
  destruct H as (? & ? & ?). by destruct (_ <? _).
Qed.

Lemma next_table_nonneg m t i : 0 <= next_table m t i.
Proof. unfold next_table, phys_to_virt. apply Z.land_nonneg. by right. Qed.

Lemma for_up_bitmap_only n f p :
  (forall j q, bitmap_only q (f j q)) -> bitmap_only p (for_up n 0 f p).
Proof.
  intros Hf. apply (for_up_inv (fun _ q => bitmap_only p q) f n 0 p); [|done].
  intros j q _ Hq. by transitivity q.
Qed.

Lemma free_pt_bitmap_only pt p : 0 <= pt -> bitmap_only p (free_pt pt p).
Proof.
  intros Hpt. unfold free_pt. etransitivity; [|by apply free_page_bitmap_only]. apply for_up_bitmap_only.
  intros j q. destruct (present _); [|done]. apply free_page_bitmap_only, next_table_nonneg.
Qed.

Lemma free_pd_bitmap_only pd p : 0 <= pd -> bitmap_only p (free_pd pd p).
Proof.
  intros Hpd. unfold free_pd. etransitivity; [|by apply free_page_bitmap_only]. apply for_up_bitmap_only.
  intros j q. destruct (present _); [|done].
  destruct (negb _); [apply free_page_bitmap_only|apply free_pt_bitmap_only]; apply next_table_nonneg.
Qed.

Lemma free_pdp_bitmap_only pdp p : 0 <= pdp -> bitmap_only p (free_pdp pdp p).
Proof.
  intros Hpdp. unfold free_pdp. etransitivity; [|by apply free_page_bitmap_only]. apply for_up_bitmap_only.
  intros j q. destruct (present _); [|done]. apply free_pd_bitmap_only, next_table_nonneg.
Qed.

Lemma bitmap_only_entry p q t i :
  bitmap_only p q -> t + 4096 <= bitmap p \/ bitmap p + total_pages p / 8 < t -> 0 <= i < 512 ->
  entry (pm_mem q) t i = entry (pm_mem p) t i.
Proof. intros (_ & _ & Hm) Ht Hi. apply load64_ext. intros x Hx. apply Hm. lia. Qed.

Lemma entry_store_any m t i j v :
  0 <= v < 2 ^ 64 -> entry (store64 m (t + 8 * i) v) t j = if decide (i = j) then v else entry m t j.
Proof.
  intros Hv. unfold entry. case_decide as E; [subst; by apply load64_store64_same|].
  apply load64_store64_other. lia.
Qed.

(** The state of the loop over the root table before iteration [i]: the
    entries below [i] are cleared, those above are as they were, and so is all
    memory outside the bitmap and the root table. *)
Definition root_cleared (p0 : pmm) (root i : Z) (p : pmm) : Prop :=
  bitmap p = bitmap p0 /\ total_pages p = total_pages p0 /\
  (forall j, 0 <= j < i -> present (entry (pm_mem p) root j) = false) /\
  (forall j, i <= j < 512 -> entry (pm_mem p) root j = entry (pm_mem p0) root j) /\
  (forall x, x < bitmap p0 \/ bitmap p0 + total_pages p0 / 8 < x -> x < root \/ root + 4096 <= x ->
     pm_mem p x = pm_mem p0 x).

Lemma root_cleared_step p0 root i p f :
  root + 4096 <= bitmap p0 \/ bitmap p0 + total_pages p0 / 8 < root ->
  (forall p, bitmap_only p (f p)) -> 0 <= i < 256 -> root_cleared p0 root i p ->
  root_cleared p0 root (i + 1)
    (if present (entry (pm_mem p) root i) then with_mem (f p) (store64 (pm_mem (f p)) (root + 8 * i) 0) else p).
Proof.
  intros Hroot Hf Hi (B & T & Z0 & K & M). destruct (present (entry (pm_mem p) root i)) eqn:E.
  - pose proof (Hf p) as HB. pose proof HB as (B2 & T2 & M2). split; [simpl; congruence|]. split; [simpl; congruence|].
    assert (forall j, 0 <= j < 512 -> entry (pm_mem (f p)) root j = entry (pm_mem p) root j) as He
      by (intros; apply bitmap_only_entry; [done|by rewrite B, T|done]).
    simpl. split; [|split].
    + intros j Hj. rewrite entry_store_any by lia. case_decide; [done|]. rewrite He by lia. apply Z0. lia.
    + intros j Hj. rewrite entry_store_any, decide_False, He by lia. apply K. lia.
    + intros x Hx1 Hx2. rewrite store64_other by lia. rewrite M2 by (by rewrite B, T). by apply M.
  - split; [done|]. split; [done|]. split; [|split; [|done]].
    + intros j Hj. destruct (decide (j = i)) as [->|]; [done|]. apply Z0. lia.
    + intros j Hj. apply K. lia.
Qed.

Lemma free_user_root s :
  current_pml4 s + 4096 <= bitmap (vm_pmm s) \/ bitmap (vm_pmm s) + total_pages (vm_pmm s) / 8 < current_pml4 s ->
  root_cleared (vm_pmm s) (current_pml4 s) 256 (vm_pmm (vmm_free_user_space s)).
Proof.
  intros Hroot. apply (for_up_inv (root_cleared (vm_pmm s) (current_pml4 s)) _ 256 0).
  - intros i p Hi Hc.
    apply (root_cleared_step _ _ i p (fun p => free_pdp (next_table (pm_mem p) (current_pml4 s) i) p)); try done.
    intros q. apply free_pdp_bitmap_only, next_table_nonneg.
  - repeat split; try done. intros; lia.
Qed.

(** A lookup below the root reads owned tables other than the root only. *)
Lemma lookup_ext own p m' t l r :
  pt_ok own p ->
  (forall t0 l0 j, own !! t0 = Some l0 -> l0 <> [] -> 0 <= j < 512 -> entry m' t0 j = entry (pm_mem p) t0 j) ->
  own !! t = Some l -> l <> [] -> (length l + length r = 4)%nat -> idx_ok r -> small_path (pm_mem p) t r ->
  lookup_pte m' t r = lookup_pte (pm_mem p) t r.
Proof.
  intros Hok He. revert t l. induction r as [|j r IH]; intros t l Hl Hne Hlen Hir Hs; [done|].
  apply Forall_cons in Hir as [Hj Hir]. pose proof (He t l j Hl Hne Hj) as E. destruct r as [|k r]; [done|].
  rewrite small_path_cons, !lookup_pte_cons in *. rewrite (next_table_eq _ _ _ _ E), E.
  destruct (present (entry (pm_mem p) t j)) eqn:Ep; [|done]. destruct (Hs eq_refl) as [H7 Hs'].
  apply (IH _ (l ++ [j])); try done.
  - apply Hok; try done. simpl in Hlen. lia.
  - by destruct l.
  - rewrite length_app. simpl in *. lia.
Qed.

(** ** The frames that freeing a user space releases *)

(** The frames of the table [t] of level [n] and below: the tables, and the
    pages they map (of a large page, its first frame). *)
Fixpoint held (n : nat) (m : mem) (t a : Z) : Prop :=
  match n with
  | O => a = t
  | S n => a = t \/ exists i, 0 <= i < 512 /\ present (entry m t i) = true /\
             if Z.testbit (entry m t i) 7 then a = next_table m t i else held n m (next_table m t i) a
  end.

(** The frame at [a] is a table or a page of the lower half. *)
Definition user_held (m : mem) (root a : Z) : Prop :=
  exists i, 0 <= i < 256 /\ present (entry m root i) = true /\ held 3 m (next_table m root i) a.

(** There is no large page of 512 or 1 GB in the lower half (no page
    directory of such a page is read). *)
Definition no_giant (m : mem) (root : Z) : Prop :=
  forall i, 0 <= i < 256 -> present (entry m root i) = true -> Z.testbit (entry m root i) 7 = false /\
    forall j, 0 <= j < 512 -> present (entry m (next_table m root i) j) = true ->
      Z.testbit (entry m (next_table m root i) j) 7 = false.

(** From [p] to [q] exactly the frames of [P] are freed. *)
Definition frees (P : Z -> Prop) (p q : pmm) : Prop :=
  bitmap_only p q /\
  forall f, 0 <= f < total_pages p -> used q f = true <-> used p f = true /\ ~ P (f * PAGE_SIZE).

Lemma frees_iff P Q p q : (forall a, P a <-> Q a) -> frees P p q -> frees Q p q.
Proof. intros HPQ [HB Hu]. split; [done|]. intros f Hf. by rewrite <- HPQ, Hu. Qed.

Lemma frees_none (P : Z -> Prop) p : (forall a, ~ P a) -> frees P p p.
Proof. intros HP. split; [done|]. intros f _. split; [by split|tauto]. Qed.

Lemma frees_trans P Q p q r : frees P p q -> frees Q q r -> frees (fun a => P a \/ Q a) p r.
Proof.
  intros [HB1 H1] [HB2 H2]. split; [by transitivity q|]. intros f Hf. destruct HB1 as (_ & T & _).
  rewrite H2, H1 by (rewrite ?T; done). tauto.
Qed.

Lemma frees_page p a : a mod PAGE_SIZE = 0 -> 0 <= a -> frees (fun b => b = a) p (pmm_free_page p a).
Proof.
  intros Hal Ha. split; [by apply free_page_bitmap_only|]. intros f Hf.
  pose proof (Z.div_mod a PAGE_SIZE ltac:(done)) as Ea. pose proof (Z.div_pos a PAGE_SIZE Ha ltac:(done)).
  assert (f * PAGE_SIZE = a <-> a / PAGE_SIZE = f) as ->.
  { rewrite Ea at 1. rewrite Hal. unfold PAGE_SIZE. lia. }
  unfold pmm_free_page. cbv zeta. destruct (Z.ltb_spec (a / PAGE_SIZE) (total_pages p)).
  - enough (used (pmm_clear_bit p (a / PAGE_SIZE)) f = true <-> used p f = true /\ a / PAGE_SIZE <> f) by by case_if.
    rewrite used_clear by lia. case_decide; naive_solver.
  - split; [|tauto]. intros Hu. split; [done|lia].
Qed.

Lemma frees_for (P : Z -> Z -> Prop) (f : Z -> pmm -> pmm) n p :
  (forall i q, 0 <= i < Z.of_nat n -> bitmap_only p q -> frees (P i) q (f i q)) ->
  frees (fun a => exists i, 0 <= i < Z.of_nat n /\ P i a) p (for_up n 0 f p).
Proof.
  intros Hf.
  apply (for_up_inv (fun i q => frees (fun a => exists j, 0 <= j < i /\ P j a) p q) f n 0 p).
  - intros i q Hi Hq. apply (frees_iff (fun a => (exists j, 0 <= j < i /\ P j a) \/ P i a)).
    + intros a. split.
      * intros [(j & Hj & HP)|HP]; [exists j|exists i]; (split; [lia|done]).
      * intros (j & Hj & HP). destruct (decide (j = i)) as [->|]; [by right|]. left. exists j. split; [lia|done].
    + apply (frees_trans _ _ p q); [done|]. apply Hf; [lia|apply Hq].
  - apply frees_none. intros a (j & Hj & _). lia.
Qed.

Lemma next_table_aligned m t i : next_table m t i mod PAGE_SIZE = 0.
Proof.
  unfold next_table, phys_to_virt, PAGE_SIZE. change 4096 with (2 ^ 12). rewrite <- Z.land_ones by lia.
  rewrite <- Z.land_assoc. change (ADDR_MASK .& Z.ones 12) with 0. apply Z.land_0_r.
Qed.

Lemma huge_bit e : negb (e .& PTE_HUGE =? 0) = Z.testbit e 7.
Proof. unfold PTE_HUGE. change 0x80 with (2 ^ 7). rewrite land_pow2_zero by lia. apply negb_involutive. Qed.

(** The tables below the root of [p0] are read while only the bitmap and the
    root change. *)
Section free_tables.
Variables (own : gmap Z (list Z)) (p0 : pmm) (root : Z).
Hypothesis Hok : pt_ok own p0.
Hypothesis Hr : own !! root = Some [].

Definition like (p : pmm) : Prop :=
  bitmap p = bitmap p0 /\ total_pages p = total_pages p0 /\
  forall x, x < bitmap p0 \/ bitmap p0 + total_pages p0 / 8 < x -> x < root \/ root + 4096 <= x -> pm_mem p x = pm_mem p0 x.

Lemma like_bitmap_only p q : like p -> bitmap_only p q -> like q.
Proof.
  intros (B1 & T1 & M1) (B2 & T2 & M2). split; [congruence|]. split; [congruence|].
  intros x Hx Hx'. rewrite M2 by (by rewrite B1, T1). by apply M1.
Qed.

Lemma like_entry p t l i :
  like p -> own !! t = Some l -> l <> [] -> 0 <= i < 512 ->
  entry (pm_mem p) t i = entry (pm_mem p0) t i /\ next_table (pm_mem p) t i = next_table (pm_mem p0) t i.
Proof.
  intros (_ & _ & M) Hl Hne Hi. assert (entry (pm_mem p) t i = entry (pm_mem p0) t i) as E.
  { apply load64_ext. intros x Hx. assert (t <> root) by congruence.
    destruct (po_table _ _ Hok _ _ Hl) as (g & -> & _ & _ & Hg), (po_table _ _ Hok _ _ Hr) as (h & -> & _). unfold PAGE_SIZE in *.
    apply M; lia. }
  split; [done|]. by apply next_table_eq.
Qed.

Lemma owned_aligned t l : own !! t = Some l -> t mod PAGE_SIZE = 0 /\ 0 <= t.
Proof.
  intros Hl. destruct (po_table _ _ Hok _ _ Hl) as (g & -> & Hg & _). split; [by apply Z.mod_mul|unfold PAGE_SIZE; lia].
Qed.

(** Freeing a table: its entries one by one, then the table itself. *)
Lemma free_table p t l n (f : Z -> pmm -> pmm) :
  like p -> own !! t = Some l -> l <> [] ->
  (forall i q, 0 <= i < 512 -> like q -> present (entry (pm_mem p0) t i) = true ->
     frees (fun a => if Z.testbit (entry (pm_mem p0) t i) 7 then a = next_table (pm_mem p0) t i
                     else held n (pm_mem p0) (next_table (pm_mem p0) t i) a) q (f i q)) ->
  frees (held (S n) (pm_mem p0) t) p
    (pmm_free_page (for_up 512 0 (fun i q => if present (entry (pm_mem q) t i) then f i q else q) p) t).
Proof.
  intros Hp Hl Hne Hf. destruct (owned_aligned t l Hl) as [Hal H0].
  eapply frees_iff; [|eapply frees_trans; [|by apply frees_page]].
  2:{ apply (frees_for (fun i a => present (entry (pm_mem p0) t i) = true /\
        if Z.testbit (entry (pm_mem p0) t i) 7 then a = next_table (pm_mem p0) t i
        else held n (pm_mem p0) (next_table (pm_mem p0) t i) a)).
      intros i q Hi Hq. pose proof (like_bitmap_only p q Hp Hq) as Hlq. destruct (like_entry q t l i Hlq Hl Hne ltac:(lia)) as [-> _].
      destruct (present (entry (pm_mem p0) t i)) eqn:Ep; [|apply frees_none; naive_solver].
      eapply frees_iff; [|apply Hf; [lia|done|done]]. naive_solver. }
  intros a. cbn [held]. change (Z.of_nat 512) with 512. naive_solver.
Qed.

Lemma free_pt_frees p pt l : like p -> own !! pt = Some l -> l <> [] -> frees (held 1 (pm_mem p0) pt) p (free_pt pt p).
Proof.
  intros Hp Hl Hne. apply (free_table p pt l 0 (fun i q => pmm_free_page q (next_table (pm_mem q) pt i))); try done.
  intros i q Hi Hq _. destruct (like_entry q pt l i Hq Hl Hne Hi) as [_ ->].
  eapply frees_iff; [|apply frees_page; [apply next_table_aligned|apply next_table_nonneg]].
  intros a. simpl. by case_match.
Qed.

Lemma free_pd_frees p pd l :
  like p -> own !! pd = Some l -> length l = 2%nat -> frees (held 2 (pm_mem p0) pd) p (free_pd pd p).
Proof.
  intros Hp Hl Hlen. assert (l <> []) as Hne by by intros ->.
  apply (free_table p pd l 1 (fun k q => if negb (entry (pm_mem q) pd k .& PTE_HUGE =? 0)
    then pmm_free_page q (next_table (pm_mem q) pd k) else free_pt (next_table (pm_mem q) pd k) q)); try done.
  intros i q Hi Hq Ep. destruct (like_entry q pd l i Hq Hl Hne Hi) as [-> ->]. rewrite huge_bit.
  destruct (Z.testbit _ 7) eqn:E7; [apply frees_page; [apply next_table_aligned|apply next_table_nonneg]|].
  apply (free_pt_frees q _ (l ++ [i])); [done| |by destruct l]. apply (po_child _ _ Hok); [done|lia|done..].
Qed.

Lemma free_pdp_frees p pdp l :
  like p -> own !! pdp = Some l -> length l = 1%nat ->
  (forall j, 0 <= j < 512 -> present (entry (pm_mem p0) pdp j) = true -> Z.testbit (entry (pm_mem p0) pdp j) 7 = false) ->
  frees (held 3 (pm_mem p0) pdp) p (free_pdp pdp p).
Proof.
  intros Hp Hl Hlen H7. assert (l <> []) as Hne by by intros ->.
  apply (free_table p pdp l 2 (fun j q => free_pd (next_table (pm_mem q) pdp j) q)); try done.
  intros i q Hi Hq Ep. destruct (like_entry q pdp l i Hq Hl Hne Hi) as [_ ->]. rewrite (H7 i Hi Ep).
  apply (free_pd_frees q _ (l ++ [i])); [done| |rewrite length_app, Hlen; done].
  apply (po_child _ _ Hok); [done|lia|done|done|by apply H7].
Qed.

(** Clearing an entry of the root changes no bit of the bitmap. *)
Lemma used_root q i f :
  bitmap q = bitmap p0 -> 0 <= i < 512 -> 0 <= f < total_pages p0 ->
  used (with_mem q (store64 (pm_mem q) (root + 8 * i) 0)) f = used q f.
Proof.
  intros B Hi Hf. unfold used, load8. simpl. rewrite store64_other; [done|]. rewrite B.
  destruct (po_table _ _ Hok _ _ Hr) as (h & _ & _ & _ & Hh). unfold PAGE_SIZE in Hh.
  pose proof (Z.div_le_mono f (total_pages p0) 8 ltac:(lia) ltac:(lia)). pose proof (Z.div_pos f 8). lia.
Qed.

Lemma free_root_frees :
  no_giant (pm_mem p0) root ->
  let q := for_up 256 0 (fun i p =>
         if present (entry (pm_mem p) root i) then
           let p := free_pdp (next_table (pm_mem p) root i) p in
           with_mem p (store64 (pm_mem p) (root + 8 * i) 0)
         else p) p0 in
  forall f, 0 <= f < total_pages p0 -> used q f = true <-> used p0 f = true /\ ~ user_held (pm_mem p0) root (f * PAGE_SIZE).
Proof.
  intros Hg. cbv zeta. destruct (po_table _ _ Hok _ _ Hr) as (h & _ & _ & _ & Hh). unfold PAGE_SIZE in Hh.
  set (I := fun i p => root_cleared p0 root i p /\ forall f, 0 <= f < total_pages p0 -> used p f = true <-> used p0 f = true /\
    ~ exists j, 0 <= j < i /\ present (entry (pm_mem p0) root j) = true /\ held 3 (pm_mem p0) (next_table (pm_mem p0) root j) (f * PAGE_SIZE)).
  match goal with |- context [for_up 256 0 ?F p0] => pose proof (for_up_inv I F 256 0 p0) as HI end.
  apply HI; clear HI.
  - intros i p Hi [Hc Hu]. cbv zeta. split.
    { apply (root_cleared_step _ _ i p (fun p => free_pdp (next_table (pm_mem p) root i) p)); try done.
      intros q. apply free_pdp_bitmap_only, next_table_nonneg. }
    destruct Hc as (B & T & _ & K & M). assert (like p) as Hp by done.
    assert (entry (pm_mem p) root i = entry (pm_mem p0) root i) as E by (apply K; lia).
    rewrite (next_table_eq _ _ _ _ E), E. intros f Hf. destruct (present (entry (pm_mem p0) root i)) eqn:Ep.
    + destruct (Hg i ltac:(lia) Ep) as [H7 Hg7].
      destruct (free_pdp_frees p (next_table (pm_mem p0) root i) [i] Hp) as [(B2 & T2 & _) Hfr];
        [by apply (po_child _ _ Hok root [] i); [|simpl; lia|lia| |]|done|done|].
      rewrite used_root, Hfr, Hu by (try congruence; rewrite ?T; lia). split.
      * intros [[Hu0 Hn] Hn']. split; [done|]. intros (j & Hj & Hpj & Hh'). destruct (decide (j = i)) as [->|]; [done|].
        apply Hn. exists j. split; [lia|done].
      * intros [Hu0 Hn]. split; [split; [done|]|].
        -- intros (j & Hj & Hh'). apply Hn. exists j. split; [lia|done].
        -- intros Hh'. apply Hn. exists i. split; [lia|done].
    + rewrite Hu by done. split; intros [Hu0 Hn]; (split; [done|]); intros (j & Hj & Hpj & Hh'); apply Hn; exists j; (split; [|done]).
      * destruct (decide (j = i)) as [->|]; [congruence|lia].
      * lia.
  - split; [repeat split; try done; intros; lia|]. intros f Hf. split; [|tauto]. intros H. split; [done|]. intros (j & Hj & _). lia.
Qed.
End free_tables.

Lemma free_user_frees own s :
  vm_ok own s -> no_giant (pm_mem (vm_pmm s)) (current_pml4 s) -> forall f, 0 <= f < total_pages (vm_pmm s) ->
  used (vm_pmm (vmm_free_user_space s)) f = true <->
  used (vm_pmm s) f = true /\ ~ user_held (pm_mem (vm_pmm s)) (current_pml4 s) (f * PAGE_SIZE).
Proof. intros [Hok Hr] Hg. unfold vmm_free_user_space. cbv zeta. cbn [vm_pmm]. by apply (free_root_frees own). Qed.

(** ** Properties *)

(** C1: mapping a page makes the walk of the page tables translate every
    address of that page to the given frame, whatever tables had to be
    created, and changes the entry of no other page.  Three free frames are
    enough; the tables stay unshared and the frame accounting exact. *)
Theorem vmm_map_correct own s virt f flags :
  vm_ok own s -> vm_small s virt -> 3 * PAGE_SIZE <= free_memory (vm_pmm s) ->
  0 <= f < 2 ^ 40 -> 0 <= flags < 2 ^ 12 -> Z.testbit flags 0 = true ->
  exists s' own', vmm_map_page s virt (f * PAGE_SIZE) flags = Some s' /\ vm_ok own' s' /\
    (forall v, path v = path virt -> vmm_get_phys s' v = f * PAGE_SIZE + v mod PAGE_SIZE) /\
    (forall v, vm_small s v -> vm_small s' v /\
       (path v <> path virt -> vmm_get_pte s' v = vmm_get_pte s v /\ vmm_get_phys s' v = vmm_get_phys s v)).
Proof.
  intros Hok Hs Hf Hfr Hfl Hp.
  destruct (map_page_spec own s virt (f * PAGE_SIZE) flags Hok Hs Hf (entry_range f flags Hfr Hfl)) as
    (s' & own' & Hm & Hok' & _ & _ & _ & Hup).
  exists s', own'. split; [done|]. split; [done|]. split.
  - intros v Hv. apply (get_phys_mapped s' v f flags); try done.
    rewrite (pu_pte _ _ _ _ Hup); [by rewrite decide_True|]. unfold vm_small. by rewrite Hv.
  - intros v Hv. split; [by apply Hup|]. intros Hne.
    rewrite !get_phys_pte, !(pu_pte _ _ _ _ Hup), decide_False by done. done.
Qed.

(** Unmapping a page makes it untranslated and changes the entry of no
    other page; the page tables' invariant is kept. *)
Theorem vmm_unmap_correct own s virt :
  vm_ok own s -> vm_small s virt ->
  vm_ok own (vmm_unmap_page s virt) /\
  (forall v, path v = path virt -> vmm_get_phys (vmm_unmap_page s virt) v = 0) /\
  (forall v, vm_small s v -> path v <> path virt ->
     vmm_get_pte (vmm_unmap_page s virt) v = vmm_get_pte s v).
Proof.
  intros Hok Hs. destruct (unmap_page_spec own s virt Hok Hs) as [Hok' Hup].
  split; [done|]. split.
  - intros v Hv. rewrite get_phys_pte, (pu_pte _ _ _ _ Hup); [by rewrite decide_True|].
    unfold vm_small. by rewrite Hv.
  - intros v Hv Hne. rewrite (pu_pte _ _ _ _ Hup) by done. by rewrite decide_False.
Qed.

(** [ioremap] returns an address of the MMIO window from which every
    byte of the device range is reachable: byte [k] of the range is translated
    to physical address [phys_addr + k], across page boundaries and for any
    misalignment, and the pages outside the new window keep their entries. *)
Theorem ioremap_correct own s phys_addr size :
  let n := (size + phys_addr mod 4096 + 4095) / 4096 in
  let base := mmio_virt_base s in
  vm_ok own s -> 0 <= size -> 0 <= phys_addr -> phys_addr + size + 4096 <= 2 ^ 52 -> n <= 2 ^ 36 ->
  0 <= base -> base mod 4096 = 0 -> base + n * 4096 < 2 ^ 64 ->
  (forall j, 0 <= j < n -> vm_small s (base + j * 4096)) ->
  3 * PAGE_SIZE * n <= free_memory (vm_pmm s) ->
  exists s' own' a, ioremap s phys_addr size = Some (s', a) /\ vm_ok own' s' /\
    mmio_virt_base s' = base + n * 4096 /\
    (forall k, 0 <= k < size -> base <= a + k < base + n * 4096 /\ vmm_get_phys s' (a + k) = phys_addr + k) /\
    (forall v, vm_small s v -> (forall j, 0 <= j < n -> path v <> path (base + j * 4096)) ->
       vmm_get_pte s' v = vmm_get_pte s v).
Proof.
  intros n base Hok Hsz Hpa Hpe Hn36 Hb Hb4 Hbn Hsm Hf. unfold ioremap. rewrite land_low, ldiff_low.
  pose proof (Z.mod_pos_bound phys_addr 4096 ltac:(lia)) as Hm.
  pose proof (Z.div_mod phys_addr 4096 ltac:(lia)) as Hd.
  assert (0 <= n) as Hn by (apply Z.div_pos; lia).
  assert (n * 4096 <= size + phys_addr mod 4096 + 4095) as Hn1 by (rewrite Z.mul_comm; by apply Z.mul_div_le).
  assert (size + phys_addr mod 4096 <= n * 4096) as Hn2.
  { pose proof (Z.div_mod (size + phys_addr mod 4096 + 4095) 4096 ltac:(lia)).
    pose proof (Z.mod_pos_bound (size + phys_addr mod 4096 + 4095) 4096 ltac:(lia)). fold n in H. lia. }
  assert (u64 (size + phys_addr mod 4096 + 0xFFF) = size + phys_addr mod 4096 + 0xFFF) as E64.
  { apply u64_small. lia. }
  rewrite E64. fold n.
  fold base. rewrite (u64_small (base + n * 0x1000)), (u64_small (base + phys_addr mod 4096)) by lia.
  set (s1 := VMM (vm_pmm s) (current_pml4 s) (base + n * 4096)).
  destruct (ioremap_loop own s1 base (phys_addr / 4096 * 4096) n) as
    (s' & own' & -> & Hok' & _ & _ & _ & Hmm & _ & Hj & Hv); try done; try lia; [by apply Z.mod_mul|]. simpl.
  exists s', own', (base + phys_addr mod 4096). split; [done|]. split; [done|]. split; [done|]. split; [|exact Hv].
  intros k Hk. split; [lia|]. rewrite <- Z.add_assoc. set (x := phys_addr mod 4096 + k).
  assert (0 <= x < n * 4096) as Hx by (unfold x; lia).
  assert (0 <= x / 4096 < n) as Hxn by (split; [apply Z.div_pos; lia|apply Z.div_lt_upper_bound; lia]).
  rewrite (mapped_byte s' base (phys_addr / 4096 + x / 4096)); [| |done|].
  - pose proof (Z.div_mod x 4096 ltac:(lia)). unfold PAGE_SIZE, x in *. lia.
  - assert (0 <= phys_addr / 4096) by (apply Z.div_pos; lia). lia.
  - rewrite Hj by done. f_equal. unfold PAGE_SIZE. lia.
Qed.


(** ** A concrete address space

    Eight frames; the bitmap is in frame 0 and the empty root table in
    frame 1. *)
Definition demo_vmm : vmm :=
  VMM (PMM (fun x => if x =? 100 then 3 else 0) 100 8 1 0x8000 (6 * PAGE_SIZE) 0) 0x1000 0xFFFF800000000000.

Lemma demo_entry i : 0 <= i < 512 -> entry (pm_mem (vm_pmm demo_vmm)) 0x1000 i = 0.
Proof.
  intros Hi. unfold entry. rewrite (load64_ext _ (fun _ => 0)); [reflexivity|].
  intros x Hx. simpl. by rewrite (proj2 (Z.eqb_neq x 100)) by lia.
Qed.

Lemma demo_ok : vm_ok {[0x1000 := []]} demo_vmm.
Proof.
  split; [|by rewrite lookup_singleton_eq]. split.
  - vm_compute. repeat split; discriminate.
  - reflexivity.
  - reflexivity.
  - intros x. simpl. case_if; lia.
  - intros f Hf H1 H2. simpl in *. unfold PAGE_SIZE in *. change (8 / 8) with 1 in H2.
    assert (f = 0) as -> by lia. reflexivity.
  - intros t l Hl. apply lookup_singleton_Some in Hl as [<- <-]. exists 1. simpl.
    split; [reflexivity|]. split; [lia|]. split; [reflexivity|]. right. reflexivity.
  - intros t l i Hl Hlen Hi. apply lookup_singleton_Some in Hl as [<- <-]. rewrite demo_entry by done. discriminate.
Qed.

Lemma demo_small v : vm_small demo_vmm v.
Proof.
  unfold vm_small, path. rewrite small_path_cons. change (current_pml4 demo_vmm) with 0x1000.
  rewrite demo_entry by (apply index_range; lia). discriminate.
Qed.

Lemma vmm_map_correct_witness :
  exists s', vmm_map_page demo_vmm 0x40000000 0x5000 3 = Some s' /\ vmm_get_phys s' 0x40000123 = 0x5123.
Proof.
  destruct (vmm_map_correct _ demo_vmm 0x40000000 5 3 demo_ok (demo_small _)) as (s' & own' & Hm & _ & Hp & _);
    [discriminate|lia|lia|reflexivity|].
  exists s'. split; [exact Hm|]. rewrite (Hp 0x40000123 eq_refl). reflexivity.
Defined.

Lemma vmm_unmap_correct_witness :
  exists s', vmm_map_page demo_vmm 0x40000000 0x5000 3 = Some s' /\
    vmm_get_phys (vmm_unmap_page s' 0x40000000) 0x40000123 = 0.
Proof.
  destruct (map_page_spec _ demo_vmm 0x40000000 0x5000 3 demo_ok (demo_small _)) as (s' & own' & Hm & Hok & _ & _ & _ & Hup);
    [discriminate|vm_compute; split; [discriminate|reflexivity]|].
  exists s'. split; [exact Hm|].
  exact (proj1 (proj2 (vmm_unmap_correct own' s' 0x40000000 Hok (pu_small _ _ _ _ Hup _ (demo_small _))))
           0x40000123 eq_refl).
Defined.

Lemma ioremap_correct_witness :
  exists s' a, ioremap demo_vmm 0xFEBC0010 0x20 = Some (s', a) /\ vmm_get_phys s' (a + 5) = 0xFEBC0015.
Proof.
  destruct (ioremap_correct _ demo_vmm 0xFEBC0010 0x20 demo_ok) as (s' & own' & a & Hm & _ & _ & Hp & _);
    [discriminate|discriminate|vm_compute; discriminate|vm_compute; discriminate|vm_compute; discriminate
    |reflexivity|reflexivity|intros j _; apply demo_small|vm_compute; discriminate|].
  exists s', a. split; [exact Hm|]. exact (proj2 (Hp 5 ltac:(lia))).
Defined.

(** A process: the tables of frames 1 to 4 map the user page 0x40000000 to
    frame 5; frame 6 has a page directory pointer table of the kernel half,
    frame 7 is somebody else's. *)
Definition demo_tables : list (Z * Z * Z) :=
  [(0x1000, 0, 0x2000); (0x1000, 256, 0x6000); (0x2000, 1, 0x3000); (0x3000, 0, 0x4000); (0x4000, 0, 0x5000)].

Definition demo_user : vmm :=
  VMM (PMM (foldr (fun '(t, i, n) m => store64 m (t + 8 * i) (n .| 7)) (fun x => if x =? 100 then 255 else 0) demo_tables)
       100 8 1 0x8000 0 0) 0x1000 0xFFFF800000000000.

Definition demo_own : gmap Z (list Z) :=
  {[0x1000 := []; 0x2000 := [0]; 0x6000 := [256]; 0x3000 := [0; 1]; 0x4000 := [0; 1; 0]]}.

(** The entries of the five tables. *)
Definition demo_entry_is (t i : Z) : bool :=
  entry (pm_mem (vm_pmm demo_user)) t i =?
  match filter (fun '(t', i', _) => t' = t /\ i' = i) demo_tables with (_, _, n) :: _ => n .| 7 | [] => 0 end.

(** Membership in the lists of the example. *)
Ltac in_list := rewrite ?list_elem_of_In in *; simpl in *; intuition congruence.

Lemma demo_user_entries :
  forallb (fun t => forallb (demo_entry_is t) (seqZ 0 512)) [0x1000; 0x2000; 0x3000; 0x4000; 0x6000] = true.
Proof. vm_compute. reflexivity. Qed.

Lemma demo_user_entry t i :
  t ∈ [0x1000; 0x2000; 0x3000; 0x4000; 0x6000] -> 0 <= i < 512 -> present (entry (pm_mem (vm_pmm demo_user)) t i) = true ->
  exists n, (t, i, n) ∈ demo_tables /\ entry (pm_mem (vm_pmm demo_user)) t i = n .| 7 /\
    next_table (pm_mem (vm_pmm demo_user)) t i = n.
Proof.
  intros Ht Hi. pose proof (proj1 (forallb_forall _ _) demo_user_entries t ltac:(by apply list_elem_of_In)) as H.
  pose proof (proj1 (forallb_forall _ _) H i ltac:(apply list_elem_of_In, elem_of_seqZ; lia)) as E.
  unfold demo_entry_is in E. apply Z.eqb_eq in E.
  destruct (filter _ demo_tables) as [|[[t' i'] n] r] eqn:Ef; [by rewrite E|]. intros _.
  assert ((t', i', n) ∈ filter (fun '(t', i', _) => t' = t /\ i' = i) demo_tables) as Hin by (rewrite Ef; apply list_elem_of_here).
  apply list_elem_of_filter in Hin as [[-> ->] Hin]. exists n. split; [done|]. split; [done|].
  unfold next_table. rewrite E. apply list_elem_of_In in Hin. simpl in Hin.
  destruct Hin as [[= <- <- <-]|[[= <- <- <-]|[[= <- <- <-]|[[= <- <- <-]|[[= <- <- <-]|[]]]]]]; reflexivity.
Qed.

Lemma demo_own_spec t l : demo_own !! t = Some l ->
  (t, l) ∈ [(0x1000, []); (0x2000, [0]); (0x6000, [256]); (0x3000, [0; 1]); (0x4000, [0; 1; 0])].
Proof.
  unfold demo_own. intros Hl. repeat (apply lookup_insert_Some in Hl as [[<- <-]|[_ Hl]]; [in_list|]).
  apply lookup_singleton_Some in Hl as [<- <-]. in_list.
Qed.

Lemma demo_user_ok : vm_ok demo_own demo_user.
Proof.
  split; [|reflexivity]. split.
  - vm_compute. repeat split; discriminate.
  - reflexivity.
  - reflexivity.
  - unfold demo_user, demo_tables. cbn [vm_pmm pm_mem foldr]. with_strategy transparent [store64] (do 5 apply store_le_ok). intros x. simpl. case_if; lia.
  - intros f Hf H1 H2. simpl in *. unfold PAGE_SIZE in *. change (8 / 8) with 1 in H2. assert (f = 0) as -> by lia. reflexivity.
  - intros t l Hl. apply demo_own_spec in Hl. exists (t / 4096). apply list_elem_of_In in Hl. simpl in Hl.
    destruct Hl as [[= <- <-]|[[= <- <-]|[[= <- <-]|[[= <- <-]|[[= <- <-]|[]]]]]]; vm_compute; (split; [done|]; split; [done|]; split; [done|by right]).
  - intros t l i Hl Hlen Hi Hp _. apply demo_own_spec in Hl.
    destruct (demo_user_entry t i) as (n & Hn & _ & ->); [in_list|done|done|].
    apply list_elem_of_In in Hn, Hl. simpl in Hn, Hl.
    destruct Hn as [[= <- <- <-]|[[= <- <- <-]|[[= <- <- <-]|[[= <- <- <-]|[[= <- <- <-]|[]]]]]],
      Hl as [[= <-]|[[= <-]|[[= <-]|[[= <-]|[[= <-]|[]]]]]]; simplify_eq; try reflexivity; simpl in Hlen; lia.
Qed.

(** The user half of the example. *)
Lemma demo_user_step t i :
  t ∈ [0x1000; 0x2000; 0x3000; 0x4000] -> 0 <= i < (if t =? 0x1000 then 256 else 512) ->
  present (entry (pm_mem (vm_pmm demo_user)) t i) = true ->
  Z.testbit (entry (pm_mem (vm_pmm demo_user)) t i) 7 = false /\ next_table (pm_mem (vm_pmm demo_user)) t i = t + 0x1000.
Proof.
  intros Ht Hi Hp. destruct (demo_user_entry t i) as (n & Hn & -> & ->); [in_list|case_match; lia|done|].
  apply list_elem_of_In in Hn. simpl in Hn.
  destruct Hn as [[= <- <- <-]|[[= <- <- <-]|[[= <- <- <-]|[[= <- <- <-]|[[= <- <- <-]|[]]]]]]; try (split; reflexivity).
  simpl in Hi. lia.
Qed.

Lemma demo_no_giant : no_giant (pm_mem (vm_pmm demo_user)) (current_pml4 demo_user).
Proof.
  intros i Hi Hp. destruct (demo_user_step 0x1000 i) as [H7 E]; [in_list|done|done|]. split; [done|].
  intros j Hj. change (current_pml4 demo_user) with 0x1000. rewrite E. intros Hpj. by apply demo_user_step; [in_list| |].
Qed.

Lemma demo_held n t f :
  (t, n) ∈ [(0x2000, 3%nat); (0x3000, 2%nat); (0x4000, 1%nat)] -> held n (pm_mem (vm_pmm demo_user)) t (f * PAGE_SIZE) ->
  t <= f * PAGE_SIZE <= 0x5000.
Proof.
  revert t. induction n as [|n IH]; intros t Ht; [in_list|]. cbn [held].
  assert (t ∈ [0x1000; 0x2000; 0x3000; 0x4000] /\ t =? 0x1000 = false) as [Ht' Ht1].
  { apply list_elem_of_In in Ht; simpl in Ht. destruct Ht as [[= <-]|[[= <-]|[[= <-]|[]]]]; (split; [in_list|done]). }
  intros [->|(i & Hi & Hp & Hh)]; [apply list_elem_of_In in Ht'; simpl in Ht'; lia|].
  destruct (demo_user_step t i) as [H7 E]; [done|by rewrite Ht1|done|]. rewrite H7, E in Hh.
  destruct (decide (n = O)) as [->|Hn0].
  - simpl in Hh. apply list_elem_of_In in Ht; simpl in Ht. destruct Ht as [[= <-]|[[= <-]|[[= <-]|[]]]]; lia.
  - enough (t + 0x1000 <= f * PAGE_SIZE <= 0x5000) by lia. apply IH; [|done].
    apply list_elem_of_In in Ht; simpl in Ht. destruct Ht as [[= <- <-]|[[= <- <-]|[[= <- <-]|[]]]]; [in_list..|lia].
Qed.

Lemma demo_user_held f :
  user_held (pm_mem (vm_pmm demo_user)) 0x1000 (f * PAGE_SIZE) -> 0x2000 <= f * PAGE_SIZE <= 0x5000.
Proof.
  intros (i & Hi & Hp & Hh). destruct (demo_user_step 0x1000 i) as [_ E]; [in_list|done|done|]. rewrite E in Hh.
  apply (demo_held 3); [in_list|done].
Qed.

Lemma held_next n m t i t' a :
  0 <= i < 512 -> present (entry m t i) && negb (Z.testbit (entry m t i) 7) && (next_table m t i =? t') = true ->
  held n m t' a -> held (S n) m t a.
Proof.
  intros Hi H Hh. apply andb_prop in H as [H E]. apply andb_prop in H as [Hp H7]. apply Z.eqb_eq in E. apply negb_true_iff in H7.
  cbn [held]. right. exists i. rewrite H7, E. auto.
Qed.

Lemma demo_first : present (entry (pm_mem (vm_pmm demo_user)) 0x1000 0) = true /\ next_table (pm_mem (vm_pmm demo_user)) 0x1000 0 = 0x2000.
Proof. vm_compute. auto. Qed.

Lemma demo_reach_table : user_held (pm_mem (vm_pmm demo_user)) 0x1000 (2 * PAGE_SIZE).
Proof. exists 0. destruct demo_first as [Hp E]. split; [lia|]. split; [exact Hp|]. rewrite E. cbn [held]. by left. Qed.

Lemma demo_reach_page : user_held (pm_mem (vm_pmm demo_user)) 0x1000 (5 * PAGE_SIZE).
Proof.
  exists 0. destruct demo_first as [Hp E]. split; [lia|]. split; [exact Hp|]. rewrite E.
  apply (held_next 2 _ _ 1 0x3000); [lia|vm_compute; reflexivity|]. apply (held_next 1 _ _ 0 0x4000); [lia|vm_compute; reflexivity|].
  by apply (held_next 0 _ _ 0 0x5000); [lia|vm_compute; reflexivity|].
Qed.


End Vmm.
