(* ===== verification/Store.v ===== *)
(** * Structures in memory

    The kernel's structures are reached through pointers and linked through
    their fields.  A store gives the value of every field of the structure at
    every address; an array member is a field with an index.  Distinct fields
    and distinct addresses do not overlap, as for the kernel's structures.
    The pointer 0 ends the singly linked lists. *)
From S2P Require Import Prelude.

Section store.
Context {F : Type} `{EqDecision F}.

Definition store : Type := Z -> F -> Z.

Definition wr (s : store) (p : Z) (f : F) (v : Z) : store :=
  fun q g => if decide (q = p /\ g = f) then v else s q g.

Lemma wr_same s p f v : wr s p f v p f = v.
Proof. unfold wr. by rewrite decide_True. Qed.

Lemma wr_other s p f v q g : q <> p \/ g <> f -> wr s p f v q g = s q g.
Proof. unfold wr. intros H. rewrite decide_False; [done|]. naive_solver. Qed.

(** ** Singly linked lists through the field [f] *)

Fixpoint slist (s : store) (f : F) (a : Z) (l : list Z) : Prop :=
  match l with
  | [] => a = 0
  | x :: l => a = x /\ x <> 0 /\ slist s f (s x f) l
  end.

(** The part of a list from [a] to the node [b]. *)
Fixpoint lseg (s : store) (f : F) (a : Z) (l : list Z) (b : Z) : Prop :=
  match l with
  | [] => a = b
  | x :: l => a = x /\ x <> 0 /\ lseg s f (s x f) l b
  end.

Lemma slist_app s f a l1 l2 :
  slist s f a (l1 ++ l2) <-> exists b, lseg s f a l1 b /\ slist s f b l2.
Proof.
  revert a. induction l1 as [|x l1 IH]; intros a; simpl; [naive_solver|].
  rewrite IH. naive_solver.
Qed.

Lemma lseg_app s f a l1 l2 c :
  lseg s f a (l1 ++ l2) c <-> exists b, lseg s f a l1 b /\ lseg s f b l2 c.
Proof.
  revert a. induction l1 as [|x l1 IH]; intros a; simpl; [naive_solver|].
  rewrite IH. naive_solver.
Qed.

Lemma slist_unique s f a l1 l2 : slist s f a l1 -> slist s f a l2 -> l1 = l2.
Proof.
  revert a l2. induction l1 as [|x l1 IH]; intros a [|y l2]; simpl; naive_solver.
Qed.

Lemma slist_head s f a l : slist s f a l -> (a = 0 <-> l = []).
Proof. destruct l; simpl; naive_solver. Qed.

Lemma slist_nonzero s f a l x : slist s f a l -> x ∈ l -> x <> 0.
Proof.
  revert a. induction l as [|y l IH]; intros a H Hx; [by apply elem_of_nil in Hx|].
  destruct H as (-> & Hy & H). apply elem_of_cons in Hx as [->|Hx]; [done|]. eauto.
Qed.

(** A terminated list visits no node twice. *)
Lemma slist_nodup s f a l : slist s f a l -> NoDup l.
Proof.
  revert a. induction l as [|x l IH]; intros a H; [constructor|].
  destruct H as (-> & Hx & H). constructor; [|eauto]. intros Hin.
  apply list_elem_of_split in Hin as (l1 & l2 & ->).
  pose proof H as H'. apply slist_app in H' as (b & _ & Hb). simpl in Hb. destruct Hb as (-> & _ & Hb).
  pose proof (slist_unique _ _ _ _ _ H Hb) as E.
  apply (f_equal length) in E. rewrite length_app in E. simpl in E. lia.
Qed.

(** Lists are unaffected by writes elsewhere. *)
Lemma slist_ext s s' f a l :
  (forall x, x ∈ l -> s' x f = s x f) -> slist s f a l -> slist s' f a l.
Proof.
  revert a. induction l as [|x l IH]; intros a H; simpl; [done|]. intros (-> & Hx & Hl).
  split; [done|]. split; [done|]. rewrite H by set_solver. apply IH; [|done]. intros y Hy. apply H. set_solver.
Qed.

Lemma lseg_ext s s' f a l b :
  (forall x, x ∈ l -> s' x f = s x f) -> lseg s f a l b -> lseg s' f a l b.
Proof.
  revert a. induction l as [|x l IH]; intros a H; simpl; [done|]. intros (-> & Hx & Hl).
  split; [done|]. split; [done|]. rewrite H by set_solver. apply IH; [|done]. intros y Hy. apply H. set_solver.
Qed.

Lemma slist_wr s f g a l p v : p ∉ l \/ g <> f -> slist s f a l -> slist (wr s p g v) f a l.
Proof.
  intros Hp. apply slist_ext. intros x Hx. apply wr_other.
  destruct Hp; [left; intros ->; done|right; congruence].
Qed.

Lemma lseg_wr s f g a l b p v : p ∉ l \/ g <> f -> lseg s f a l b -> lseg (wr s p g v) f a l b.
Proof.
  intros Hp. apply lseg_ext. intros x Hx. apply wr_other.
  destruct Hp; [left; intros ->; done|right; congruence].
Qed.

(** ** Cursors

    A cursor into the list headed by [a] is the address of a link: 0 for the
    head variable, otherwise the node whose field holds the link. *)
Definition link_at (s : store) (f : F) (a c : Z) : Z := if c =? 0 then a else s c f.

Definition lastp (l : list Z) : Z := default 0 (last l).

Lemma lastp_snoc l x : lastp (l ++ [x]) = x.
Proof. unfold lastp. by rewrite last_snoc. Qed.

Lemma link_at_spec s f a l1 l2 : slist s f a (l1 ++ l2) -> link_at s f a (lastp l1) = default 0 (head l2).
Proof.
  intros H. apply slist_app in H as (b & H1 & H2).
  assert (b = default 0 (head l2)) as <- by (destruct l2; simpl in *; naive_solver).
  destruct l1 as [|x l1 _] using rev_ind; [done|].
  apply lseg_app in H1 as (d & _ & H1). simpl in H1. destruct H1 as (-> & Hx & <-).
  rewrite lastp_snoc. unfold link_at. by rewrite (proj2 (Z.eqb_neq x 0)).
Qed.

(** Redirecting the link after [l1] to a list that shares nothing with it. *)
Lemma slist_redirect s f a l1 x l2 v l3 :
  slist s f a ((l1 ++ [x]) ++ l2) -> slist s f v l3 -> (forall y, y ∈ l1 ++ [x] -> y ∉ l3) ->
  slist (wr s x f v) f a ((l1 ++ [x]) ++ l3).
Proof.
  intros H H3 Hd. pose proof (slist_nodup _ _ _ _ H) as Hnd. rewrite <- app_assoc in Hnd.
  apply NoDup_app in Hnd as (_ & Hx & _). apply slist_app in H as (b & H1 & _).
  apply slist_app. exists v. split; [|apply slist_wr; [left; set_solver|done]].
  rewrite lseg_app in *. destruct H1 as (d & H1 & H2). exists d. split.
  - apply lseg_wr; [left; set_solver|done].
  - simpl in *. destruct H2 as (-> & Hx0 & _). by rewrite wr_same.
Qed.

Lemma slist_relink s f a l1 l2 v l3 :
  slist s f a (l1 ++ l2) -> slist s f v l3 -> (forall y, y ∈ l1 -> y ∉ l3) ->
  slist (if lastp l1 =? 0 then s else wr s (lastp l1) f v) f (if lastp l1 =? 0 then v else a) (l1 ++ l3).
Proof.
  intros H H3 Hd. destruct l1 as [|x l1 _] using rev_ind; [done|].
  assert (x <> 0) by (eapply slist_nonzero; [exact H|set_solver]).
  rewrite lastp_snoc, (proj2 (Z.eqb_neq x 0)) by done. by apply (slist_redirect s f a l1 x l2).
Qed.

Lemma lastp_in l : lastp l <> 0 -> lastp l ∈ l.
Proof. destruct l as [|x l _] using rev_ind; [done|]. rewrite lastp_snoc. set_solver. Qed.

(** The loop [while (c->f) c = c->f;] ends at the last node. *)
Lemma last_node_loop (s : store) f (step : Z -> Z + Z) :
  (forall c, step c = if negb (s c f =? 0) then inl (s c f) else inr c) ->
  forall l x fuel, slist s f x l -> l <> [] -> (length l <= fuel)%nat -> loop fuel step x = Some (lastp l).
Proof.
  intros Hstep. induction l as [|y l IH]; intros x fuel Hl Hne Hf; [done|].
  destruct fuel as [|fuel]; [simpl in Hf; lia|]. destruct Hl as (-> & Hy & Hl). cbn [loop]. rewrite Hstep.
  destruct l as [|z l]; simpl in Hl.
  - by rewrite Hl.
  - destruct Hl as (E & Hz & Hl). rewrite E, (proj2 (Z.eqb_neq z 0)) by done. simpl.
    rewrite (IH z fuel); [|done|done|simpl in *; lia]. unfold lastp. by rewrite last_cons_cons.
Qed.

(** The loop that walks a list to the first node that satisfies [P]. *)
Lemma slist_find_loop (s : store) f (P : Z -> bool) (step : Z -> Z + Z) :
  (forall c, step c = if c =? 0 then inr 0 else if P c then inr c else inl (s c f)) ->
  forall l a fuel, slist s f a l -> (length l < fuel)%nat -> loop fuel step a = Some (default 0 (List.find P l)).
Proof.
  intros Hstep. induction l as [|x l IH]; intros a fuel Hl Hf; (destruct fuel as [|fuel]; [simpl in Hf; lia|]);
    cbn [loop List.find]; rewrite Hstep.
  - by rewrite (Hl : a = 0).
  - destruct Hl as (-> & Hx & Hl). rewrite (proj2 (Z.eqb_neq x 0)) by done. destruct (P x); [done|].
    apply IH; [done|]. simpl in Hf. lia.
Qed.

(** Appending a node whose own link is already cleared. *)
Lemma slist_append s f a l x p :
  slist s f a (l ++ [x]) -> s p f = 0 -> p <> 0 -> p ∉ l ++ [x] ->
  slist (wr s x f p) f a ((l ++ [x]) ++ [p]).
Proof.
  intros H Hp Hp0 Hnin. apply (slist_redirect s f a l x []).
  - by rewrite app_nil_r.
  - simpl. done.
  - set_solver.
Qed.
End store.

Arguments store : clear implicits.

(** Arrays of words indexed by integers. *)
Definition fupd {A : Type} (g : Z -> A) (i : Z) (v : A) : Z -> A := fun j => if decide (j = i) then v else g j.

Lemma fupd_same {A} (g : Z -> A) i v : fupd g i v i = v.
Proof. unfold fupd. by rewrite decide_True. Qed.

Lemma fupd_other {A} (g : Z -> A) i v j : j <> i -> fupd g i v j = g j.
Proof. unfold fupd. intros. by rewrite decide_False. Qed.

(** [wr_simp] reads through the writes whose addresses and fields the context
    tells apart. *)
Ltac wr_simp :=
  repeat first
    [ rewrite wr_same
    | rewrite wr_other by (first [right; discriminate | left; congruence | right; congruence])
    | rewrite fupd_same
    | rewrite fupd_other by (congruence || lia) ].

(** ** Counting references *)

(** How many of [l] hold the value [f]. *)
Definition holders (g : Z -> Z) (l : list Z) (f : Z) : Z := Z.of_nat (length (List.filter (fun i => g i =? f) l)).

Lemma holders_notin g l i v f : i ∉ l -> holders (fupd g i v) l f = holders g l f.
Proof.
  intros Hi. unfold holders. do 2 f_equal. induction l as [|x l IH]; [done|]. apply not_elem_of_cons in Hi as [Hx Hi]. simpl.
  rewrite fupd_other by congruence. by rewrite IH.
Qed.

Lemma holders_fupd g l i v f :
  NoDup l -> i ∈ l -> holders (fupd g i v) l f = holders g l f - (if g i =? f then 1 else 0) + (if v =? f then 1 else 0).
Proof.
  induction l as [|x l IH]; intros Hn Hi; [by apply elem_of_nil in Hi|]. apply NoDup_cons in Hn as [Hx Hn].
  apply elem_of_cons in Hi as [->|Hi].
  - pose proof (holders_notin g l x v f Hx) as E. unfold holders in *. simpl. rewrite fupd_same. repeat case_match; simpl; lia.
  - assert (x <> i) by (intros ->; done). specialize (IH Hn Hi). unfold holders in *. simpl. rewrite fupd_other by done.
    destruct (g x =? f); simpl; lia.
Qed.

Lemma holders_ext g g' l f : (forall i, g' i = g i) -> holders g' l f = holders g l f.
Proof. intros Hg. unfold holders. do 2 f_equal. induction l as [|x l IH]; [done|]. simpl. by rewrite Hg, IH. Qed.

Lemma holders_zero l f : f <> 0 -> holders (fun _ => 0) l f = 0.
Proof. intros Hf. unfold holders. rewrite (proj2 (Z.eqb_neq 0 f)) by done. by induction l. Qed.

Lemma holders_cons g x l f : holders g (x :: l) f = holders g l f + (if g x =? f then 1 else 0).
Proof. unfold holders. simpl. destruct (g x =? f); simpl; lia. Qed.

Lemma holders_perm g l l' f : l ≡ₚ l' -> holders g l f = holders g l' f.
Proof. induction 1; rewrite ?holders_cons; lia. Qed.

Lemma holders_nonneg g l f : 0 <= holders g l f.
Proof. unfold holders. lia. Qed.

Lemma holders_pos g l f x : x ∈ l -> g x = f -> 0 < holders g l f.
Proof.
  intros Hx <-. induction l as [|y l IH]; [by apply elem_of_nil in Hx|]. rewrite holders_cons.
  pose proof (holders_nonneg g l (g x)). apply elem_of_cons in Hx as [->|Hx]; [rewrite Z.eqb_refl; lia|]. specialize (IH Hx). case_match; lia.
Qed.

Lemma holders_le g l c : holders g l c <= Z.of_nat (length l).
Proof. unfold holders. pose proof (List.filter_length_le (fun i => g i =? c) l). lia. Qed.

Lemma holders_fun g g' l c : (forall x, x ∈ l -> g' x = g x) -> holders g' l c = holders g l c.
Proof.
  intros Hg. induction l as [|x l IH]; [done|]. rewrite !holders_cons, IH, (Hg x) by set_solver. done.
Qed.
