(* ===== verification/Sched.v ===== *)
(** * The scheduler (src/kernel/process/sched_mlfq.c, sched_fair.c, process.c)

    The processes are structures of a store; the ready queues, the fair queue
    and the sleep queue all link them through the one field [next_ready], so
    the contract is stated for the family of the six queues at once: queues
    0-3 are the MLFQ levels, 4 is the fair queue, 5 the sleep queue. *)
From stdpp Require Import sorting.
From S2P Require Import Prelude Store.

Module Sched.

(** ** State *)

(** The fields of [struct process] the scheduler, signals and process
    management use. *)
Inductive pfld :=
  | pid | rsp | kernel_stack | cr3 | state | policy | sched_class | priority | base_priority
  | time_slice | quantum | cpu_time | vruntime | next | prev | parent | next_ready | gid | sid
  | cwd | cwd_mnt | nsproxy | cgroups | seccomp_filter | exit_code | pending_signals | signal_mask
  | waiting_on | held_next | held_prev | fd_table (i : Z) | rlim_cur (i : Z) | rlim_max (i : Z)
  | signal_handler (i : Z) | name (i : Z)
  | ns_ref_count  (** of the [struct nsproxy] at the address *) .

#[export] Instance pfld_eq_dec : EqDecision pfld.
Proof. solve_decision. Defined.

Definition PROCESS_STATE_READY : Z := 0.
Definition PROCESS_STATE_RUNNING : Z := 1.
Definition PROCESS_STATE_BLOCKED : Z := 2.
Definition PROCESS_STATE_TERMINATED : Z := 3.
Definition PROCESS_STATE_SLEEPING : Z := 4.
Definition SCHED_OTHER : Z := 0.
Definition SCHED_FIFO : Z := 1.
Definition SCHED_CFS : Z := 3.
Definition MLFQ_LEVELS : Z := 4.
Definition RLIMIT_CPU : Z := 0.
Definition RLIMIT_NLIMITS : Z := 10.
Definition RLIM_INFINITY : Z := 2 ^ 64 - 1.

(** The addresses of the two scheduling classes; 0 is no class. *)
Definition mlfq_sched_class : Z := 1.
Definition fair_sched_class : Z := 2.

Record sched := Sched {
  st : store pfld;
  mlfq_queues : Z -> Z;
  mlfq_tails : Z -> Z;
  cfs_queue : Z;
  sleep_queue : Z;
  current_process : Z;
  process_list : Z;
  next_pid : Z;
  global_ticks : Z
}.

Definition with_st (s : sched) (t : store pfld) : sched :=
  Sched t (mlfq_queues s) (mlfq_tails s) (cfs_queue s) (sleep_queue s) (current_process s)
        (process_list s) (next_pid s) (global_ticks s).
Definition with_queue (s : sched) (i p : Z) : sched :=
  Sched (st s) (fupd (mlfq_queues s) i p) (mlfq_tails s) (cfs_queue s) (sleep_queue s) (current_process s)
        (process_list s) (next_pid s) (global_ticks s).
Definition with_tail (s : sched) (i p : Z) : sched :=
  Sched (st s) (mlfq_queues s) (fupd (mlfq_tails s) i p) (cfs_queue s) (sleep_queue s) (current_process s)
        (process_list s) (next_pid s) (global_ticks s).
Definition with_cfs (s : sched) (p : Z) : sched :=
  Sched (st s) (mlfq_queues s) (mlfq_tails s) p (sleep_queue s) (current_process s)
        (process_list s) (next_pid s) (global_ticks s).
Definition with_sleep (s : sched) (p : Z) : sched :=
  Sched (st s) (mlfq_queues s) (mlfq_tails s) (cfs_queue s) p (current_process s)
        (process_list s) (next_pid s) (global_ticks s).
Definition with_current (s : sched) (p : Z) : sched :=
  Sched (st s) (mlfq_queues s) (mlfq_tails s) (cfs_queue s) (sleep_queue s) p
        (process_list s) (next_pid s) (global_ticks s).
Definition with_ticks (s : sched) (n : Z) : sched :=
  Sched (st s) (mlfq_queues s) (mlfq_tails s) (cfs_queue s) (sleep_queue s) (current_process s)
        (process_list s) (next_pid s) n.

(** [p->f] and [p->f = v] *)
Definition get (s : sched) (p : Z) (f : pfld) : Z := st s p f.
Definition set (s : sched) (p : Z) (f : pfld) (v : Z) : sched := with_st s (wr (st s) p f v).

(** ** The MLFQ class (sched_mlfq.c) *)

Definition level_of (prio : Z) : Z :=
  let level := prio in
  let level := if MLFQ_LEVELS <=? level then MLFQ_LEVELS - 1 else level in
  if level <? 0 then 0 else level.

Definition enqueue_task_mlfq (s : sched) (p : Z) : sched :=
  let s := set s p state PROCESS_STATE_READY in
  let s := set s p next_ready 0 in
  let level := level_of (get s p priority) in
  if mlfq_queues s level =? 0 then
    let s := with_queue s level p in
    with_tail s level p
  else
    let s := set s (mlfq_tails s level) next_ready p in
    with_tail s level p.

(** [*curr] and [*curr = v] for a cursor that is [&mlfq_queues[level]] (0) or
    [&q->next_ready] (the address [q]). *)
Definition mlfq_link (s : sched) (level curr : Z) : Z :=
  if curr =? 0 then mlfq_queues s level else get s curr next_ready.
Definition set_mlfq_link (s : sched) (level curr v : Z) : sched :=
  if curr =? 0 then with_queue s level v else set s curr next_ready v.

Definition dequeue_mlfq_step (s : sched) (p level : Z) : Z * Z -> (Z * Z) + sched :=
  fun '(curr, prv) =>
    let x := mlfq_link s level curr in
    if x =? 0 then inr s
    else if x =? p then
      let s := set_mlfq_link s level curr (get s p next_ready) in
      let s := if mlfq_tails s level =? p then with_tail s level prv else s in
      inr (set s p next_ready 0)
    else inl (x, x).

Definition dequeue_task_mlfq (fuel : nat) (s : sched) (p : Z) : option sched :=
  let level := level_of (get s p priority) in
  loop fuel (dequeue_mlfq_step s p level) (0, 0).

(** [for (i = level; n more; i++)] of [pick_next_task_mlfq] *)
Fixpoint pick_mlfq_from (s : sched) (i : Z) (n : nat) : Z * sched :=
  match n with
  | O => (0, s)
  | S n =>
      if negb (mlfq_queues s i =? 0) then
        let nxt := mlfq_queues s i in
        let s := with_queue s i (get s nxt next_ready) in
        let s := if mlfq_queues s i =? 0 then with_tail s i 0 else s in
        (nxt, set s nxt next_ready 0)
      else pick_mlfq_from s (i + 1) n
  end.

Definition pick_next_task_mlfq (s : sched) : Z * sched := pick_mlfq_from s 0 (Z.to_nat MLFQ_LEVELS).

Definition task_tick_mlfq (s : sched) (p : Z) : sched :=
  if 0 <? get s p time_slice then set s p time_slice (get s p time_slice - 1) else s.

(** ** The fair class (sched_fair.c) *)

Definition cfs_link (s : sched) (curr : Z) : Z :=
  if curr =? 0 then cfs_queue s else get s curr next_ready.
Definition set_cfs_link (s : sched) (curr v : Z) : sched :=
  if curr =? 0 then with_cfs s v else set s curr next_ready v.

Definition enqueue_fair_step (s : sched) (p : Z) : Z -> Z + Z :=
  fun curr =>
    let x := cfs_link s curr in
    if negb (x =? 0) && (get s x vruntime <=? get s p vruntime) then inl x else inr curr.

Definition enqueue_task_fair (fuel : nat) (s : sched) (p : Z) : option sched :=
  let s := set s p state PROCESS_STATE_READY in
  curr ← loop fuel (enqueue_fair_step s p) 0;
  let s := set s p next_ready (cfs_link s curr) in
  Some (set_cfs_link s curr p).

Definition dequeue_fair_step (s : sched) (p : Z) : Z -> Z + sched :=
  fun curr =>
    let x := cfs_link s curr in
    if x =? 0 then inr s
    else if x =? p then
      let s := set_cfs_link s curr (get s p next_ready) in
      inr (set s p next_ready 0)
    else inl x.

Definition dequeue_task_fair (fuel : nat) (s : sched) (p : Z) : option sched :=
  loop fuel (dequeue_fair_step s p) 0.

Definition pick_next_task_fair (s : sched) : Z * sched :=
  if cfs_queue s =? 0 then (0, s)
  else
    let nxt := cfs_queue s in
    let s := with_cfs s (get s nxt next_ready) in
    (nxt, set s nxt next_ready 0).

Definition task_tick_fair (s : sched) (p : Z) : sched :=
  let s := set s p vruntime (u64 (get s p vruntime + 1)) in
  if 0 <? get s p time_slice then set s p time_slice (get s p time_slice - 1) else s.

(** ** Dispatch (process.c) *)

Definition enqueue_process (fuel : nat) (s : sched) (proc : Z) : option sched :=
  if negb (get s proc state =? PROCESS_STATE_READY) then Some s
  else if get s proc sched_class =? mlfq_sched_class then Some (enqueue_task_mlfq s proc)
  else if get s proc sched_class =? fair_sched_class then enqueue_task_fair fuel s proc
  else Some s.

(** [mlfq_quantums[i]]; an index outside the array is undefined. *)
Definition mlfq_quantums (i : Z) : option Z :=
  if decide (0 <= i < MLFQ_LEVELS) then [2; 5; 10; 20] !! Z.to_nat i else None.

(** Demotion of a process that used up its slice. *)
Definition demote (s : sched) (p : Z) : option sched :=
  if (get s p policy =? SCHED_OTHER) && (get s p time_slice <=? 0) then
    let s := if get s p priority <? MLFQ_LEVELS - 1 then set s p priority (s32 (get s p priority + 1)) else s in
    q ← mlfq_quantums (get s p priority);
    let s := set s p quantum q in
    Some (set s p time_slice (get s p quantum))
  else Some s.

(** The context switch itself is the change of [current_process]. *)
Definition process_schedule (fuel : nat) (s : sched) : option sched :=
  let cur := current_process s in
  if cur =? 0 then Some s
  else
    s ← (if get s cur state =? PROCESS_STATE_RUNNING then
           let s := set s cur state PROCESS_STATE_READY in
           s ← demote s cur;
           enqueue_process fuel s cur
         else Some s);
    let '(nxt, s) := pick_next_task_mlfq s in
    let '(nxt, s) := if nxt =? 0 then pick_next_task_fair s else (nxt, s) in
    if nxt =? 0 then
      if get s cur state =? PROCESS_STATE_READY then Some (set s cur state PROCESS_STATE_RUNNING)
      else Some s
    else if negb (nxt =? cur) then Some (set (with_current s nxt) nxt state PROCESS_STATE_RUNNING)
    else Some (set s cur state PROCESS_STATE_RUNNING).

Definition process_yield (fuel : nat) (s : sched) : option sched := process_schedule fuel s.

Definition pid_step (s : sched) (n : Z) : Z -> Z + Z :=
  fun curr => if curr =? 0 then inr 0
              else if get s curr pid =? u64 n then inr curr
              else inl (get s curr next).
Definition get_process_by_pid (fuel : nat) (s : sched) (n : Z) : option Z :=
  loop fuel (pid_step s n) (process_list s).

Definition check_rlimit (s : sched) (resource amount : Z) : Z :=
  if current_process s =? 0 then 0
  else if (resource <? 0) || (RLIMIT_NLIMITS <=? resource) then 0
  else
    let lim := get s (current_process s) (rlim_cur resource) in
    if lim =? RLIM_INFINITY then 0
    else if lim <? amount then 1 else 0.

(** ** Signals that make a process runnable (ipc/signal.c) *)

Definition post_signal (fuel : nat) (s : sched) (p sig : Z) : option sched :=
  let s := set s p pending_signals (get s p pending_signals .| (1 .<< sig)) in
  if get s p state =? PROCESS_STATE_BLOCKED then
    let s := set s p state PROCESS_STATE_READY in
    enqueue_process fuel s p
  else Some s.

(** The loops over all processes: [sel] is the selection of the call. *)
Definition kill_step (fuel : nat) (sel : sched -> Z -> bool) (sig : Z) :
    sched * Z * Z -> (sched * Z * Z) + option (sched * Z) :=
  fun '(s, p, count) =>
    if p =? 0 then inr (Some (s, count))
    else if sel s p && (0 <? sig) && (sig <? 32) then
      match post_signal fuel s p sig with
      | Some s' => inl (s', get s' p next, count + 1)
      | None => inr None
      end
    else inl (s, get s p next, count).

Definition sys_kill (fuel : nat) (s : sched) (n sig : Z) : option (sched * Z) :=
  if 0 <? n then
    target ← get_process_by_pid fuel s n;
    if target =? 0 then Some (s, -1)
    else if (0 <? sig) && (sig <? 32) then
      s ← post_signal fuel s target sig; Some (s, 0)
    else Some (s, -1)
  else if n =? -1 then
    '(s, _) ← mjoin (loop fuel (kill_step fuel
       (fun s p => (1 <? get s p pid) && negb (p =? current_process s)) sig) (s, process_list s, 0));
    Some (s, 0)
  else
    let pgid := if n =? 0 then s32 (get s (current_process s) gid) else s32 (- n) in
    '(s, count) ← mjoin (loop fuel (kill_step fuel (fun s p => get s p gid =? u64 pgid) sig)
                           (s, process_list s, 0));
    Some (s, if 0 <? count then 0 else -1).

(** ** The timer tick *)

(** One iteration over the sleep queue. *)
Definition wake_step (fuel : nat) : sched * Z * Z -> (sched * Z * Z) + option sched :=
  fun '(s, x, prv) =>
    if x =? 0 then inr (Some s)
    else if get s x waiting_on <=? global_ticks s then
      let nx := get s x next_ready in
      let s := if negb (prv =? 0) then set s prv next_ready nx else with_sleep s nx in
      let s := set s x state PROCESS_STATE_READY in
      let s := set s x waiting_on 0 in
      match enqueue_process fuel s x with
      | Some s => inl (s, nx, prv)
      | None => inr None
      end
    else inl (s, get s x next_ready, x).

Definition wake_sleepers (fuel : nat) (s : sched) : option sched :=
  mjoin (loop fuel (wake_step fuel) (s, sleep_queue s, 0)).

(** [timers] is what [hrtimer_run_queues] does to the scheduler's state, the
    effects of the expired timers' functions. *)
Definition scheduler_tick (timers : sched -> sched) (fuel : nat) (s : sched) : option sched :=
  let s := timers s in
  let s := with_ticks s (u64 (global_ticks s + 1)) in
  let cur := current_process s in
  if cur =? 0 then Some s
  else
    let s := set s cur cpu_time (u64 (get s cur cpu_time + 1)) in
    let s := set s cur time_slice (s32 (get s cur time_slice - 1)) in
    let s := if get s cur policy =? SCHED_CFS then set s cur vruntime (u64 (get s cur vruntime + 1)) else s in
    s ← (if negb (check_rlimit s RLIMIT_CPU (get s cur cpu_time) =? 0) then
           '(s, _) ← sys_kill fuel s (s32 (get s cur pid)) 24; Some s
         else Some s);
    s ← wake_sleepers fuel s;
    if get s (current_process s) time_slice <=? 0 then
      if negb (get s (current_process s) policy =? SCHED_FIFO) then process_schedule fuel s else Some s
    else Some s.

Definition last_step (s : sched) : Z -> Z + Z :=
  fun x => if negb (get s x next_ready =? 0) then inl (get s x next_ready) else inr x.

Definition process_sleep (fuel : nat) (s : sched) (ticks : Z) : option sched :=
  let cur := current_process s in
  let s := set s cur state PROCESS_STATE_SLEEPING in
  let s := set s cur waiting_on (u64 (global_ticks s + ticks)) in
  s ← (if sleep_queue s =? 0 then Some (with_sleep s cur)
       else x ← loop fuel (last_step s) (sleep_queue s); Some (set s x next_ready cur));
  let s := set s cur next_ready 0 in
  process_schedule fuel s.

Definition process_set_priority (fuel : nat) (s : sched) (n prio : Z) : option (sched * Z) :=
  p ← get_process_by_pid fuel s n;
  if p =? 0 then Some (s, -1) else Some (set s p priority prio, 0).

Definition process_get_priority (fuel : nat) (s : sched) (n : Z) : option Z :=
  p ← get_process_by_pid fuel s n;
  if p =? 0 then Some (-1) else Some (get s p priority).

(** ** The six queues *)

Definition qhead (s : sched) (i : Z) : Z :=
  if i <? 4 then mlfq_queues s i else if i =? 4 then cfs_queue s else sleep_queue s.

(** [q i] are the processes of queue [i], in order. *)
Record queues_ok (s : sched) (q : Z -> list Z) : Prop := {
  qo_list : forall i, 0 <= i < 6 -> slist (st s) next_ready (qhead s i) (q i);
  qo_tail : forall i, 0 <= i < 4 -> mlfq_tails s i = lastp (q i);
  qo_disj : forall i j x, 0 <= i < 6 -> 0 <= j < 6 -> x ∈ q i -> x ∈ q j -> i = j
}.

Definition unqueued (q : Z -> list Z) (p : Z) : Prop := forall i, 0 <= i < 6 -> p ∉ q i.

(** The process data two states agree on, apart from the queue links. *)
Definition same_data (s s' : sched) : Prop :=
  (forall x f, f <> next_ready -> f <> state -> get s' x f = get s x f) /\
  current_process s' = current_process s /\ process_list s' = process_list s /\
  next_pid s' = next_pid s /\ global_ticks s' = global_ticks s.

#[local] Instance same_data_preorder : PreOrder same_data.
Proof.
  split; [done|]. intros a b c (Hab & ? & ? & ? & ?) (Hbc & ? & ? & ? & ?).
  split; [intros; by rewrite Hbc, Hab|]. repeat split; congruence.
Qed.

Lemma level_range x : 0 <= level_of x < 4.
Proof. unfold level_of, MLFQ_LEVELS. repeat case_if; lia. Qed.

Lemma level_small x : 0 <= x < 4 -> level_of x = x.
Proof. intros. unfold level_of, MLFQ_LEVELS. repeat case_if; lia. Qed.

(** Changing a field other than the link changes no queue. *)
Lemma queues_ok_set s q p f v : f <> next_ready -> queues_ok s q -> queues_ok (set s p f v) q.
Proof.
  intros Hf [Hl Ht Hd]. split; [|done..]. intros i Hi. apply slist_wr; [by right|]. by apply Hl.
Qed.

Lemma queues_ok_ext s q q' : queues_ok s q -> (forall i, 0 <= i < 6 -> q' i = q i) -> queues_ok s q'.
Proof.
  intros [Hl Ht Hd] E. split.
  - intros i Hi. rewrite E by done. by apply Hl.
  - intros i Hi. rewrite E by lia. by apply Ht.
  - intros i j x Hi Hj. rewrite !E by done. by apply Hd.
Qed.

Lemma queue_nonzero s q i x : queues_ok s q -> 0 <= i < 6 -> x ∈ q i -> x <> 0.
Proof. intros H Hi. eapply slist_nonzero. by apply H. Qed.

Lemma qhead_nil s q i : queues_ok s q -> 0 <= i < 6 -> (qhead s i = 0 <-> q i = []).
Proof. intros H Hi. eapply slist_head. by apply H. Qed.

(** Disjointness after one queue received a new process. *)
Lemma disj_insert (q : Z -> list Z) k l p :
  (forall i j x, 0 <= i < 6 -> 0 <= j < 6 -> x ∈ q i -> x ∈ q j -> i = j) ->
  unqueued q p -> 0 <= k < 6 -> (forall x, x ∈ l <-> x = p \/ x ∈ q k) ->
  forall i j x, 0 <= i < 6 -> 0 <= j < 6 -> x ∈ fupd q k l i -> x ∈ fupd q k l j -> i = j.
Proof.
  intros Hd Hp Hk Hl i j x Hi Hj. unfold fupd.
  destruct (decide (i = k)) as [->|], (decide (j = k)) as [->|]; rewrite ?Hl; try done.
  - intros [->|Hx] Hxj; [by apply Hp in Hxj|]. by apply (Hd k j x).
  - intros Hxi [->|Hx]; [by apply Hp in Hxi|]. by apply (Hd i k x).
  - by apply Hd.
Qed.

Lemma disj_sub (q : Z -> list Z) k l :
  (forall i j x, 0 <= i < 6 -> 0 <= j < 6 -> x ∈ q i -> x ∈ q j -> i = j) ->
  0 <= k < 6 -> (forall x, x ∈ l -> x ∈ q k) ->
  forall i j x, 0 <= i < 6 -> 0 <= j < 6 -> x ∈ fupd q k l i -> x ∈ fupd q k l j -> i = j.
Proof.
  intros Hd Hk Hl i j x Hi Hj. unfold fupd.
  destruct (decide (i = k)) as [->|], (decide (j = k)) as [->|]; try done; intros; eauto.
Qed.

(** ** MLFQ operations on queues *)

Lemma enqueue_mlfq_ok s q p :
  queues_ok s q -> p <> 0 -> unqueued q p ->
  let lv := level_of (get s p priority) in
  let s' := enqueue_task_mlfq s p in
  queues_ok s' (fupd q lv (q lv ++ [p])) /\ same_data s s' /\
  (forall x, get s' x state = if decide (x = p) then PROCESS_STATE_READY else get s x state).
Proof.
  intros Hq Hp Hun lv. pose proof (level_range (get s p priority)) as Hlv. fold lv in Hlv.
  unfold enqueue_task_mlfq. set (s1 := set (set s p state PROCESS_STATE_READY) p next_ready 0).
  assert (forall i, 0 <= i < 6 -> slist (st s1) next_ready (qhead s i) (q i)) as Hl1.
  { intros i Hi. apply slist_wr; [left; by apply Hun|]. apply slist_wr; [by right|]. by apply Hq. }
  assert (get s1 p priority = get s p priority) as -> by (unfold get; simpl; by wr_simp). fold lv.
  assert (disj : forall i j x, 0 <= i < 6 -> 0 <= j < 6 -> x ∈ fupd q lv (q lv ++ [p]) i ->
            x ∈ fupd q lv (q lv ++ [p]) j -> i = j).
  { apply disj_insert with (p := p); [apply Hq|done|lia|set_solver]. }
  assert (same_data s s1) as Hsd.
  { split; [|done]. intros x f H1 H2. unfold get. simpl. by wr_simp. }
  assert (forall x, get s1 x state = if decide (x = p) then PROCESS_STATE_READY else get s x state) as Hst.
  { intros x. unfold get. simpl. rewrite wr_other by (right; discriminate). case_decide; subst; by wr_simp. }
  pose proof (qhead_nil s q lv Hq ltac:(lia)) as Hnil. unfold qhead in Hnil.
  rewrite (proj2 (Z.ltb_lt lv 4)) in Hnil by lia. simpl.
  destruct (mlfq_queues s lv =? 0) eqn:E; simpl_bool.
  - pose proof (proj1 Hnil E) as El. rewrite El. split; [|split; [exact Hsd|exact Hst]]. split.
    + intros i Hi. unfold qhead; simpl. unfold fupd at 2. case_decide as Ei.
      * subst i. rewrite (proj2 (Z.ltb_lt lv 4)), fupd_same by lia. simpl. by wr_simp.
      * unfold fupd. rewrite decide_False by done. by apply Hl1.
    + intros i Hi. simpl. unfold fupd. case_decide; [done|]. by apply Hq.
    + rewrite El in disj. exact disj.
  - assert (q lv <> []) as Hne by tauto. destruct (exists_last Hne) as (l & t & El).
    rewrite (qo_tail _ _ Hq lv Hlv), El, lastp_snoc in *.
    assert (t ∈ q lv) as Ht by (rewrite El; set_solver).
    split; [|split].
    + split.
      * intros i Hi. change (qhead _ i) with (qhead s i). simpl. unfold fupd. case_decide as Ei.
        -- subst i. apply slist_append; [rewrite <- El; by apply Hl1; lia|by wr_simp|done|].
           rewrite <- El. apply Hun. lia.
        -- apply slist_wr; [|by apply Hl1]. left. intros Hti.
           by apply Ei, (qo_disj _ _ Hq i lv t); [|lia|..].
      * intros i Hi. simpl. unfold fupd. case_decide; [by rewrite lastp_snoc|]. by apply Hq.
      * exact disj.
    + etransitivity; [exact Hsd|]. split; [|done]. intros x f H1 H2. unfold get. simpl. by wr_simp.
    + intros x. rewrite <- Hst. unfold get. simpl. by wr_simp.
Qed.

(** Taking the head [x] off queue [k]: [s'] has the rest as queue [k] and [x]'s
    link cleared. *)
Lemma pop_ok s s' q k x l :
  queues_ok s q -> 0 <= k < 6 -> q k = x :: l ->
  st s' = wr (st s) x next_ready 0 ->
  (forall i, 0 <= i < 6 -> qhead s' i = if decide (i = k) then get s x next_ready else qhead s i) ->
  (forall i, 0 <= i < 4 -> mlfq_tails s' i = if decide (i = k /\ l = []) then 0 else mlfq_tails s i) ->
  queues_ok s' (fupd q k l).
Proof.
  intros Hq Hk El Est Hh Ht. pose proof (qo_list _ _ Hq k Hk) as Hlk. rewrite El in Hlk.
  pose proof (slist_nodup _ _ _ _ Hlk) as Hnd. apply NoDup_cons in Hnd as [Hx _].
  destruct Hlk as (_ & Hx0 & Hlk). split.
  - intros i Hi. rewrite Est, Hh by done. unfold fupd. case_decide as E.
    + apply slist_wr; [by left|exact Hlk].
    + apply slist_wr; [|by apply Hq]. left. intros Hxi. apply E.
      apply (qo_disj _ _ Hq i k x); [done|done|done|]. rewrite El. set_solver.
  - intros i Hi. rewrite Ht by done. unfold fupd. destruct (decide (i = k)) as [->|].
    + destruct l as [|y l]; [by rewrite decide_True|]. rewrite decide_False by (intros [_ ?]; done).
      rewrite (qo_tail _ _ Hq k Hi), El. unfold lastp. by rewrite last_cons_cons.
    + rewrite decide_False by tauto. by apply Hq.
  - apply disj_sub; [apply Hq|done|]. rewrite El. set_solver.
Qed.

Lemma pick_mlfq_spec s q n i :
  queues_ok s q -> 0 <= i -> i + Z.of_nat n = 4 ->
  let '(nxt, s') := pick_mlfq_from s i n in
  (nxt = 0 /\ s' = s /\ forall j, i <= j < 4 -> q j = []) \/
  (exists k l, i <= k < 4 /\ q k = nxt :: l /\ (forall j, i <= j < k -> q j = []) /\
     queues_ok s' (fupd q k l) /\ same_data s s' /\ forall x, get s' x state = get s x state).
Proof.
  intros Hq. revert i. induction n as [|n IH]; intros i Hi Hn; cbn [pick_mlfq_from].
  - left. split; [done|]. split; [done|]. intros; lia.
  - pose proof (qhead_nil s q i Hq ltac:(lia)) as Hnil. pose proof (qo_list _ _ Hq i ltac:(lia)) as Hl.
    unfold qhead in Hnil, Hl. rewrite (proj2 (Z.ltb_lt i 4)) in Hnil, Hl by lia.
    destruct (mlfq_queues s i =? 0) eqn:E; simpl_bool; simpl.
    + specialize (IH (i + 1) ltac:(lia) ltac:(lia)). destruct (pick_mlfq_from s (i + 1) n) as [nxt s'].
      assert (forall j, i <= j < i + 1 -> q j = []) as Hi0 by (intros j Hj; replace j with i by lia; tauto).
      destruct IH as [(-> & -> & H)|(k & l & Hk & El & H & Hrest)].
      * left. split; [done|]. split; [done|]. intros j Hj.
        destruct (decide (j < i + 1)); [apply Hi0; lia|apply H; lia].
      * right. exists k, l. split; [lia|]. split; [done|]. split; [|done]. intros j Hj.
        destruct (decide (j < i + 1)); [apply Hi0; lia|apply H; lia].
    + right. destruct (q i) as [|x l] eqn:El; [tauto|]. simpl in Hl. destruct Hl as (-> & Hx & Hl).
      exists i, l. split; [lia|]. split; [done|]. split; [intros; lia|]. rewrite fupd_same.
      assert (get s x next_ready = 0 <-> l = []) as Hl0 by (by apply slist_head in Hl).
      split; [|split].
      * apply (pop_ok s _ q i x l Hq ltac:(lia) El).
        -- by destruct (_ =? 0).
        -- intros j Hj. unfold qhead. destruct (get s x next_ready =? 0); simpl; unfold fupd;
             (case_decide; [subst; by rewrite (proj2 (Z.ltb_lt i 4)) by lia|done]).
        -- intros j Hj. destruct (get s x next_ready =? 0) eqn:E0; simpl_bool; simpl; unfold fupd.
           ++ repeat case_decide; tauto.
           ++ rewrite decide_False by tauto. done.
      * destruct (_ =? 0); (split; [|done]); intros y f H1 H2; unfold get; simpl; by wr_simp.
      * intros y. destruct (_ =? 0); unfold get; simpl; by wr_simp.
Qed.

Lemma pick_fair_spec s q :
  queues_ok s q ->
  let '(nxt, s') := pick_next_task_fair s in
  (nxt = 0 /\ s' = s /\ q 4 = []) \/
  (exists l, q 4 = nxt :: l /\ queues_ok s' (fupd q 4 l) /\ same_data s s' /\
     forall x, get s' x state = get s x state).
Proof.
  intros Hq. pose proof (qhead_nil s q 4 Hq ltac:(lia)) as Hnil. pose proof (qo_list _ _ Hq 4 ltac:(lia)) as Hl.
  unfold qhead in Hnil, Hl. simpl in Hnil, Hl. unfold pick_next_task_fair.
  destruct (cfs_queue s =? 0) eqn:E; simpl_bool; [left; tauto|right].
  destruct (q 4) as [|x l] eqn:El; [tauto|]. simpl in Hl. destruct Hl as (-> & Hx & Hl).
  exists l. split; [done|]. split; [|split].
  - apply (pop_ok s _ q 4 x l Hq ltac:(lia) El); [done| |].
    + intros i Hi. unfold qhead. simpl. case_decide; [by subst|]. by rewrite (proj2 (Z.eqb_neq i 4)).
    + intros i Hi. simpl. rewrite decide_False; [done|]. lia.
  - split; [|done]. intros y f H1 H2. unfold get. simpl. by wr_simp.
  - intros y. unfold get. simpl. by wr_simp.
Qed.

(** Redirecting the link after [l1] in queue [k] to the list [l3]. *)
Lemma relink_ok s s' q k l1 l2 t v l3 :
  queues_ok s q -> 0 <= k < 6 -> q k = l1 ++ l2 ->
  (forall i x, 0 <= i < 6 -> x ∈ q i -> t x next_ready = get s x next_ready) ->
  slist t next_ready v l3 -> (forall x, x ∈ l3 -> x ∈ l2 \/ unqueued q x) ->
  (forall i x, 0 <= i < 6 -> x ∈ fupd q k (l1 ++ l3) i ->
     get s' x next_ready = (if lastp l1 =? 0 then t else wr t (lastp l1) next_ready v) x next_ready) ->
  (forall i, 0 <= i < 6 -> qhead s' i =
     if decide (i = k) then if lastp l1 =? 0 then v else qhead s k else qhead s i) ->
  (forall i, 0 <= i < 4 -> mlfq_tails s' i = lastp (fupd q k (l1 ++ l3) i)) ->
  queues_ok s' (fupd q k (l1 ++ l3)).
Proof.
  intros Hq Hk El Ht H3 Hsub Hst Hh Htl.
  pose proof (qo_list _ _ Hq k Hk) as Hlk.
  pose proof (slist_nodup _ _ _ _ Hlk) as Hnd. rewrite El in Hnd, Hlk.
  apply NoDup_app in Hnd as (_ & H12 & _).
  assert (forall y, y ∈ l1 -> y ∉ l3) as Hd.
  { intros y Hy Hy3. destruct (Hsub y Hy3) as [Hy2|Hun]; [by apply (H12 y)|].
    apply (Hun k Hk). rewrite El. set_solver. }
  split; [|done|].
  - intros i Hi. rewrite Hh by done. eapply slist_ext; [intros x Hx; by apply (Hst i)|]. unfold fupd. case_decide as E.
    + subst i. apply slist_relink with (l2 := l2); [|done|done].
      eapply slist_ext; [|exact Hlk]. intros x Hx. apply (Ht k); [done|]. by rewrite El.
    + assert (slist t next_ready (qhead s i) (q i)) as Hi1.
      { eapply slist_ext; [|by apply Hq]. intros x Hx. by apply (Ht i). }
      destruct (lastp l1 =? 0) eqn:E0; simpl_bool; [done|]. apply slist_wr; [|done]. left. intros Hx. apply E.
      apply (qo_disj _ _ Hq i k (lastp l1)); [done|done|done|]. rewrite El. pose proof (lastp_in l1 E0). set_solver.
  - intros i j x Hi Hj. unfold fupd.
    assert (forall n, 0 <= n < 6 -> n <> k -> x ∈ l1 ++ l3 -> x ∉ q n) as Hx.
    { intros n Hn Hnk Hx Hxn. apply elem_of_app in Hx as [Hx|Hx].
      - apply Hnk, (qo_disj _ _ Hq n k x Hn Hk Hxn). rewrite El. set_solver.
      - destruct (Hsub x Hx) as [Hx2|Hun]; [|by apply (Hun n)].
        apply Hnk, (qo_disj _ _ Hq n k x Hn Hk Hxn). rewrite El. set_solver. }
    repeat case_decide; subst; try done.
    + intros H1 H2. by destruct (Hx j Hj).
    + intros H1 H2. by destruct (Hx i Hi).
    + by apply Hq.
Qed.

Lemma lastp_app l1 l2 : lastp (l1 ++ l2) = match l2 with [] => lastp l1 | _ => lastp l2 end.
Proof.
  destruct l2 as [|x l2]; [by rewrite app_nil_r|]. unfold lastp. rewrite last_app, last_cons. by destruct (last l2).
Qed.

(** The three facts about a queue with [p] in it that its removal needs. *)
Lemma removal_facts s q k p l1 l2 :
  queues_ok s q -> 0 <= k < 6 -> q k = l1 ++ p :: l2 ->
  slist (st s) next_ready (get s p next_ready) l2 /\ p <> 0 /\ p ∉ l1 /\ p ∉ l2 /\
  forall i x, 0 <= i < 6 -> x ∈ fupd q k (l1 ++ l2) i -> x <> p.
Proof.
  intros Hq Hk El. pose proof (qo_list _ _ Hq k Hk) as Hl. rewrite El in Hl.
  pose proof (slist_nodup _ _ _ _ Hl) as Hnd. apply NoDup_app in Hnd as (_ & H1 & H2).
  apply NoDup_cons in H2 as [H2 _]. apply slist_app in Hl as (b & _ & Hb). simpl in Hb. destruct Hb as (-> & Hp & Hb).
  assert (p ∉ l1) as Hp1 by (intros Hx; apply (H1 p Hx); set_solver).
  repeat split; try done. intros i x Hi. unfold fupd. case_decide as E; [set_solver|].
  intros Hx ->. apply E, (qo_disj _ _ Hq i k p); [done..|]. rewrite El. set_solver.
Qed.

Lemma unlink_mlfq_ok s q k p l1 l2 :
  queues_ok s q -> 0 <= k < 4 -> q k = l1 ++ p :: l2 ->
  let s1 := set_mlfq_link s k (lastp l1) (get s p next_ready) in
  let s2 := if mlfq_tails s1 k =? p then with_tail s1 k (lastp l1) else s1 in
  let s3 := set s2 p next_ready 0 in
  queues_ok s3 (fupd q k (l1 ++ l2)) /\ same_data s s3 /\ forall x, get s3 x state = get s x state.
Proof.
  intros Hq Hk El s1 s2 s3.
  destruct (removal_facts s q k p l1 l2 Hq ltac:(lia) El) as (H2 & Hp & Hp1 & Hp2 & Hnp).
  assert (mlfq_tails s1 k = lastp (l1 ++ p :: l2)) as Et.
  { unfold s1, set_mlfq_link. rewrite <- El, <- (qo_tail _ _ Hq k Hk). by destruct (_ =? 0). }
  assert (Est : st s3 = wr (st s1) p next_ready 0) by (unfold s3, s2; by destruct (_ =? p)).
  assert (st s1 = if lastp l1 =? 0 then st s else wr (st s) (lastp l1) next_ready (get s p next_ready)) as Est1
    by (unfold s1, set_mlfq_link; by destruct (_ =? 0)).
  split; [|split].
  - apply (relink_ok s s3 q k l1 (p :: l2) (st s) (get s p next_ready) l2); try done; try lia.
    + intros x Hx. left. set_solver.
    + intros i x Hi Hx. unfold get. rewrite Est, wr_other, Est1 by (left; by apply (Hnp i)). done.
    + intros i Hi. unfold s3, s2, s1, set_mlfq_link, qhead.
      destruct (_ =? p), (lastp l1 =? 0); simpl; unfold fupd; case_decide; subst; try done;
        by rewrite (proj2 (Z.ltb_lt k 4)) by lia.
    + intros i Hi. assert (mlfq_tails s3 i = mlfq_tails s2 i) as -> by done. unfold s2. rewrite Et.
      rewrite !lastp_app. destruct l2 as [|y l2].
      * change (lastp [p]) with p. rewrite Z.eqb_refl. simpl. unfold fupd. case_decide; [by rewrite app_nil_r|].
        unfold s1, set_mlfq_link. rewrite <- (qo_tail _ _ Hq i Hi). by destruct (_ =? 0).
      * assert (lastp (p :: y :: l2) = lastp (y :: l2)) as E by (unfold lastp; by rewrite last_cons_cons).
        assert (lastp (y :: l2) <> p) as Hne.
        { intros E'. apply Hp2. rewrite <- E'. apply lastp_in. by rewrite E'. }
        rewrite E, (proj2 (Z.eqb_neq _ _) Hne). unfold fupd. case_decide as Ei.
        -- subst i. rewrite Et, !lastp_app, E. done.
        -- unfold s1, set_mlfq_link. rewrite <- (qo_tail _ _ Hq i Hi). by destruct (_ =? 0).
  - split; [|unfold s3, s2, s1, set_mlfq_link; by destruct (_ =? p), (_ =? 0)].
    intros x f Hf Hf'. unfold get. rewrite Est, wr_other, Est1 by (right; congruence).
    destruct (_ =? 0); by wr_simp.
  - intros x. unfold get. rewrite Est, wr_other, Est1 by (right; congruence). destruct (_ =? 0); by wr_simp.
Qed.

Lemma dequeue_mlfq_loop s q k p l0 l1 l2 fuel :
  queues_ok s q -> 0 <= k < 4 -> q k = (l0 ++ l1) ++ p :: l2 -> (length l1 < fuel)%nat ->
  exists s', loop fuel (dequeue_mlfq_step s p k) (lastp l0, lastp l0) = Some s' /\
    queues_ok s' (fupd q k ((l0 ++ l1) ++ l2)) /\ same_data s s' /\ forall x, get s' x state = get s x state.
Proof.
  intros Hq Hk. revert l0 fuel. induction l1 as [|y l1 IH]; intros l0 fuel El Hf; (destruct fuel as [|fuel]; [lia|]);
    cbn [loop]; unfold dequeue_mlfq_step at 1;
    pose proof (qo_list _ _ Hq k ltac:(lia)) as Hl; unfold qhead in Hl;
    rewrite (proj2 (Z.ltb_lt k 4)), El in Hl by lia.
  - rewrite app_nil_r in *. change (mlfq_link s k (lastp l0)) with (link_at (st s) next_ready (mlfq_queues s k) (lastp l0)).
    rewrite (link_at_spec _ _ _ _ _ Hl). simpl.
    destruct (removal_facts s q k p l0 l2 Hq ltac:(lia) El) as (_ & Hp & _).
    rewrite (proj2 (Z.eqb_neq p 0)), Z.eqb_refl by done. eexists. split; [done|].
    by apply unlink_mlfq_ok.
  - change (mlfq_link s k (lastp l0)) with (link_at (st s) next_ready (mlfq_queues s k) (lastp l0)).
    rewrite <- app_assoc in Hl. rewrite (link_at_spec _ _ _ _ _ Hl). simpl.
    assert (y <> 0) as Hy by (eapply slist_nonzero; [exact Hl|set_solver]).
    assert (y <> p) as Hyp.
    { apply slist_nodup in Hl. apply NoDup_app in Hl as (_ & _ & Hl). simpl in Hl.
      apply NoDup_cons in Hl as [Hl _]. intros ->. apply Hl. set_solver. }
    rewrite (proj2 (Z.eqb_neq y 0)), (proj2 (Z.eqb_neq y p)) by done.
    specialize (IH (l0 ++ [y]) fuel). rewrite lastp_snoc in IH.
    replace ((l0 ++ [y]) ++ l1) with (l0 ++ y :: l1) in IH by (by rewrite <- app_assoc).
    apply IH; [done|]. simpl in Hf. lia.
Qed.

(** ** Fair-class operations on queues *)

(** Insertion behind the last process with no larger virtual runtime. *)
Fixpoint insert_vr (vr : Z -> Z) (p : Z) (l : list Z) : list Z :=
  match l with
  | [] => [p]
  | x :: l => if vr x <=? vr p then x :: insert_vr vr p l else p :: x :: l
  end.

Lemma insert_vr_split vr p l :
  exists l1 l2, l = l1 ++ l2 /\ insert_vr vr p l = l1 ++ p :: l2 /\
    (forall x, x ∈ l1 -> vr x <= vr p) /\ (forall x l2', l2 = x :: l2' -> vr p < vr x).
Proof.
  induction l as [|x l (l1 & l2 & -> & E & H1 & H2)]; simpl.
  - exists [], []. repeat split; try done. intros x Hx. by apply elem_of_nil in Hx.
  - case_if.
    + exists (x :: l1), l2. rewrite E. repeat split; try done. intros y Hy. apply elem_of_cons in Hy as [->|Hy]; auto.
    + exists [], (x :: l1 ++ l2). repeat split; try done; [intros y Hy; by apply elem_of_nil in Hy|].
      intros y l' El. injection El as <- <-. done.
Qed.

Lemma insert_vr_sorted vr p l :
  Sorted (fun x y => vr x <= vr y) l -> Sorted (fun x y => vr x <= vr y) (insert_vr vr p l).
Proof.
  intros H. induction H as [|x l Hs IH Hx]; simpl; [repeat constructor|]. case_if.
  - constructor; [done|]. inversion Hx as [|y l' Hy]; subst; simpl; [by constructor|]. case_if; by constructor.
  - repeat constructor; try done. lia.
Qed.

Lemma enqueue_fair_loop s p l0 l1 l2 fuel :
  slist (st s) next_ready (cfs_queue s) ((l0 ++ l1) ++ l2) -> (length l1 < fuel)%nat ->
  (forall x, x ∈ l1 -> get s x vruntime <= get s p vruntime) ->
  (forall x l2', l2 = x :: l2' -> get s p vruntime < get s x vruntime) ->
  loop fuel (enqueue_fair_step s p) (lastp l0) = Some (lastp (l0 ++ l1)).
Proof.
  revert l0 fuel. induction l1 as [|y l1 IH]; intros l0 fuel Hl Hf H1 H2; (destruct fuel as [|fuel]; [lia|]);
    cbn [loop]; unfold enqueue_fair_step at 1;
    change (cfs_link s (lastp l0)) with (link_at (st s) next_ready (cfs_queue s) (lastp l0)).
  - rewrite app_nil_r in *. rewrite (link_at_spec _ _ _ _ _ Hl). destruct l2 as [|x l2]; simpl; [done|].
    specialize (H2 x l2 eq_refl). rewrite (proj2 (Z.leb_gt _ _)) by lia. by rewrite andb_false_r.
  - rewrite <- app_assoc in Hl. rewrite (link_at_spec _ _ _ _ _ Hl). simpl.
    assert (y <> 0) as Hy by (eapply slist_nonzero; [exact Hl|set_solver]).
    rewrite (proj2 (Z.eqb_neq y 0)), (proj2 (Z.leb_le _ _)) by (done || apply H1; set_solver). simpl.
    specialize (IH (l0 ++ [y]) fuel). rewrite lastp_snoc in IH.
    replace ((l0 ++ [y]) ++ l1) with (l0 ++ y :: l1) in IH by (by rewrite <- app_assoc).
    apply IH; [by rewrite <- app_assoc|simpl in Hf; lia| |done]. intros x Hx. apply H1. set_solver.
Qed.

Lemma enqueue_fair_ok s q p fuel :
  queues_ok s q -> p <> 0 -> unqueued q p -> (length (q 4%Z) < fuel)%nat ->
  exists s', enqueue_task_fair fuel s p = Some s' /\
    queues_ok s' (fupd q 4 (insert_vr (fun x => get s x vruntime) p (q 4))) /\ same_data s s' /\
    (forall x, get s' x state = if decide (x = p) then PROCESS_STATE_READY else get s x state).
Proof.
  intros Hq Hp Hun Hf. destruct (insert_vr_split (fun x => get s x vruntime) p (q 4)) as (l1 & l2 & El & Ei & H1 & H2).
  unfold enqueue_task_fair. set (s1 := set s p state PROCESS_STATE_READY).
  assert (queues_ok s1 q) as Hq1 by (by apply queues_ok_set).
  assert (forall x, get s1 x vruntime = get s x vruntime) as Hv by (intros; unfold get; simpl; by wr_simp).
  pose proof (qo_list _ _ Hq1 4 ltac:(lia)) as Hl.
  change (slist (st s1) next_ready (cfs_queue s1) (q 4)) in Hl. rewrite El in Hl.
  assert (loop fuel (enqueue_fair_step s1 p) 0 = Some (lastp l1)) as ->.
  { apply (enqueue_fair_loop s1 p [] l1 l2 fuel); [done|rewrite El, length_app in Hf; lia|intros; rewrite !Hv; eauto..]. }
  cbn [mbind option_bind].
  change (cfs_link s1 (lastp l1)) with (link_at (st s1) next_ready (cfs_queue s1) (lastp l1)).
  rewrite (link_at_spec _ _ _ _ _ Hl). set (h := default 0 (head l2)).
  assert (slist (st s1) next_ready h l2) as Hh.
  { apply slist_app in Hl as (b & _ & Hb). unfold h. destruct l2; simpl in *; [done|]. by destruct Hb as (-> & ? & ?). }
  eexists. split; [done|]. rewrite Ei. set (s2 := set s1 p next_ready h).
  assert (forall i x, 0 <= i < 6 -> x ∈ q i -> x <> p) as Hxp by (intros i x Hi Hx ->; by apply (Hun i)).
  split; [|split].
  - apply (relink_ok s1 _ q 4 l1 l2 (st s2) p (p :: l2)); try done; try lia.
    + intros i x Hi Hx. unfold get. simpl. apply wr_other. left. by apply (Hxp i).
    + split; [done|]. split; [done|]. simpl. rewrite wr_same. apply slist_wr; [|done]. left.
      intros Hx. apply (Hun 4 ltac:(lia)). rewrite El. set_solver.
    + intros x Hx. apply elem_of_cons in Hx as [->|Hx]; [by right|by left].
    + intros i x Hi Hx. unfold get, set_cfs_link. by destruct (lastp l1 =? 0).
    + intros i Hi. unfold set_cfs_link, qhead. destruct (lastp l1 =? 0); simpl; case_decide; subst; try done.
      by rewrite (proj2 (Z.eqb_neq i 4)).
    + intros i Hi. rewrite fupd_other by lia. rewrite <- (qo_tail _ _ Hq i Hi). unfold set_cfs_link.
      by destruct (lastp l1 =? 0).
  - split; [|unfold set_cfs_link; by destruct (lastp l1 =? 0)]. intros x f Hf1 Hf2. unfold get, set_cfs_link.
    destruct (lastp l1 =? 0); simpl; by wr_simp.
  - intros x. unfold get, set_cfs_link. destruct (lastp l1 =? 0); simpl;
      rewrite !(wr_other _ _ next_ready) by (right; discriminate); case_decide; subst; by wr_simp.
Qed.

Lemma dequeue_fair_loop s q p l0 l1 l2 fuel :
  queues_ok s q -> q 4 = (l0 ++ l1) ++ p :: l2 -> (length l1 < fuel)%nat ->
  exists s', loop fuel (dequeue_fair_step s p) (lastp l0) = Some s' /\
    queues_ok s' (fupd q 4 ((l0 ++ l1) ++ l2)) /\ same_data s s' /\ forall x, get s' x state = get s x state.
Proof.
  intros Hq. revert l0 fuel. induction l1 as [|y l1 IH]; intros l0 fuel El Hf; (destruct fuel as [|fuel]; [lia|]);
    cbn [loop]; unfold dequeue_fair_step at 1;
    change (cfs_link s (lastp l0)) with (link_at (st s) next_ready (cfs_queue s) (lastp l0));
    pose proof (qo_list _ _ Hq 4 ltac:(lia)) as Hl; unfold qhead in Hl; simpl in Hl; rewrite El in Hl.
  - rewrite app_nil_r in *. rewrite (link_at_spec _ _ _ _ _ Hl). simpl.
    destruct (removal_facts s q 4 p l0 l2 Hq ltac:(lia) El) as (H2 & Hp & Hp1 & Hp2 & Hnp).
    rewrite (proj2 (Z.eqb_neq p 0)), Z.eqb_refl by done. eexists. split; [done|]. split; [|split].
    + apply (relink_ok s _ q 4 l0 (p :: l2) (st s) (get s p next_ready) l2); try done; try lia.
      * intros x Hx. left. set_solver.
      * intros i x Hi Hx. unfold get, set_cfs_link. destruct (lastp l0 =? 0); simpl;
          rewrite (wr_other _ p) by (left; by apply (Hnp i)); done.
      * intros i Hi. unfold set_cfs_link, qhead. destruct (lastp l0 =? 0); simpl; case_decide; subst; try done.
        by rewrite (proj2 (Z.eqb_neq i 4)).
      * intros i Hi. rewrite fupd_other by lia. rewrite <- (qo_tail _ _ Hq i Hi). unfold set_cfs_link.
        by destruct (lastp l0 =? 0).
    + split; [|unfold set_cfs_link; by destruct (lastp l0 =? 0)]. intros x f Hf1 Hf2. unfold get, set_cfs_link.
      destruct (lastp l0 =? 0); simpl; by wr_simp.
    + intros x. unfold get, set_cfs_link. destruct (lastp l0 =? 0); simpl; by wr_simp.
  - rewrite <- app_assoc in Hl. rewrite (link_at_spec _ _ _ _ _ Hl). simpl.
    assert (y <> 0) as Hy by (eapply slist_nonzero; [exact Hl|set_solver]).
    assert (y <> p) as Hyp.
    { apply slist_nodup in Hl. apply NoDup_app in Hl as (_ & _ & Hl). simpl in Hl.
      apply NoDup_cons in Hl as [Hl _]. intros ->. apply Hl. set_solver. }
    rewrite (proj2 (Z.eqb_neq y 0)), (proj2 (Z.eqb_neq y p)) by done.
    specialize (IH (l0 ++ [y]) fuel). rewrite lastp_snoc in IH.
    replace ((l0 ++ [y]) ++ l1) with (l0 ++ y :: l1) in IH by (by rewrite <- app_assoc).
    apply IH; [done|]. simpl in Hf. lia.
Qed.

(** ** Dispatch *)

(** The queues after a ready process is queued by its class. *)
Definition enq (s : sched) (q : Z -> list Z) (p : Z) : Z -> list Z :=
  if get s p sched_class =? mlfq_sched_class then
    let lv := level_of (get s p priority) in fupd q lv (q lv ++ [p])
  else fupd q 4 (insert_vr (fun x => get s x vruntime) p (q 4)).

Definition has_class (s : sched) (p : Z) : Prop :=
  get s p sched_class = mlfq_sched_class \/ get s p sched_class = fair_sched_class.

Lemma enqueue_process_ok s q p fuel :
  queues_ok s q -> p <> 0 -> unqueued q p -> get s p state = PROCESS_STATE_READY -> has_class s p ->
  (length (q 4%Z) < fuel)%nat ->
  exists s', enqueue_process fuel s p = Some s' /\ queues_ok s' (enq s q p) /\ same_data s s' /\
    forall x, get s' x state = get s x state.
Proof.
  intros Hq Hp Hun Hst Hc Hf. unfold enqueue_process, enq. rewrite Hst. simpl.
  destruct Hc as [-> | ->]; simpl.
  - eexists. split; [done|]. destruct (enqueue_mlfq_ok s q p Hq Hp Hun) as (H1 & H2 & H3).
    split; [done|]. split; [done|]. intros x. rewrite H3. case_decide; by subst.
  - destruct (enqueue_fair_ok s q p fuel Hq Hp Hun Hf) as (s' & -> & H1 & H2 & H3).
    exists s'. split; [done|]. split; [done|]. split; [done|]. intros x. rewrite H3. case_decide; by subst.
Qed.

Lemma insert_vr_elem vr p l x : x ∈ insert_vr vr p l <-> x = p \/ x ∈ l.
Proof.
  induction l as [|y l IH]; simpl; [set_solver|]. case_if; set_solver.
Qed.

Lemma enq_elem s q p x : (exists i, 0 <= i < 5 /\ x ∈ enq s q p i) <-> x = p \/ exists i, 0 <= i < 5 /\ x ∈ q i.
Proof.
  unfold enq. pose proof (level_range (get s p priority)) as Hlv.
  assert (forall k l, 0 <= k < 5 -> (forall x, x ∈ l <-> x = p \/ x ∈ q k) ->
    (exists i, 0 <= i < 5 /\ x ∈ fupd q k l i) <-> x = p \/ exists i, 0 <= i < 5 /\ x ∈ q i) as H.
  { intros k l Hk Hl. split.
    - intros (i & Hi & Hx). unfold fupd in Hx. case_decide; [apply Hl in Hx as [->|Hx]; eauto|eauto].
    - intros [->|(i & Hi & Hx)]; [exists k; rewrite fupd_same; split; [done|]; apply Hl; by left|].
      exists i. split; [done|]. unfold fupd. case_decide; [subst; apply Hl; by right|done]. }
  case_if; apply H; try lia; [set_solver|]. intros y. apply insert_vr_elem.
Qed.

(** The first process of the first non-empty queue among [ks]. *)
Fixpoint first_of (q : Z -> list Z) (ks : list Z) : option (Z * (Z -> list Z)) :=
  match ks with
  | [] => None
  | k :: ks => match q k with x :: l => Some (x, fupd q k l) | [] => first_of q ks end
  end.

(** [SCHED_OTHER] processes that used up their slice go one level down. *)
Definition slice_used (s : sched) (p : Z) : bool :=
  (get s p policy =? SCHED_OTHER) && (get s p time_slice <=? 0).
Definition next_priority (s : sched) (p : Z) : Z :=
  if slice_used s p then Z.min 3 (get s p priority + 1) else get s p priority.

Lemma first_of_skip q i n :
  (forall j, i <= j < i + Z.of_nat n -> q j = []) ->
  forall ks, first_of q (seqZ i (Z.of_nat n) ++ ks) = first_of q ks.
Proof.
  revert i. induction n as [|n IH]; intros i H ks; [done|].
  rewrite seqZ_cons by lia. simpl. rewrite H by lia.
  replace (Z.pred (Z.of_nat (S n))) with (Z.of_nat n) by lia. apply IH. intros j Hj. apply H. lia.
Qed.

Lemma pick_first_of s q :
  queues_ok s q ->
  let '(nxt, s1) := pick_next_task_mlfq s in
  let '(nxt, s') := if nxt =? 0 then pick_next_task_fair s1 else (nxt, s1) in
  match first_of q [0; 1; 2; 3; 4] with
  | Some (x, q') => nxt = x /\ x <> 0 /\ (exists i, 0 <= i < 5 /\ x ∈ q i) /\ queues_ok s' q' /\ unqueued q' x /\
                    (forall i, 0 <= i < 6 -> forall y, y ∈ q' i -> y ∈ q i)
  | None => nxt = 0 /\ s' = s
  end /\ same_data s s' /\ forall x, get s' x state = get s x state.
Proof.
  intros Hq. unfold pick_next_task_mlfq. change (Z.to_nat MLFQ_LEVELS) with 4%nat.
  pose proof (pick_mlfq_spec s q 4 0 Hq ltac:(lia) ltac:(lia)) as Hp.
  assert (Hpop : forall k x l s', 0 <= k < 5 -> q k = x :: l -> queues_ok s' (fupd q k l) ->
    x <> 0 /\ (exists i, 0 <= i < 5 /\ x ∈ q i) /\ queues_ok s' (fupd q k l) /\ unqueued (fupd q k l) x /\
    (forall i, 0 <= i < 6 -> forall y, y ∈ fupd q k l i -> y ∈ q i)).
  { intros k x l s' Hk El Hq'. split; [eapply (queue_nonzero s q k); [done|lia|rewrite El; set_solver]|].
    split; [exists k; split; [done|rewrite El; set_solver]|]. split; [done|]. split.
    - intros i Hi. unfold fupd. case_decide as E.
      + pose proof (slist_nodup _ _ _ _ (qo_list _ _ Hq k ltac:(lia))) as Hnd. rewrite El in Hnd.
        by apply NoDup_cons in Hnd as [? _].
      + intros Hx. apply E, (qo_disj _ _ Hq i k x); [done|lia|done|]. rewrite El. set_solver.
    - intros i Hi y. unfold fupd. case_decide; [subst; rewrite El; set_solver|done]. }
  destruct (pick_mlfq_from s 0 4) as [nxt s1]. destruct Hp as [(-> & -> & H0)|(k & l & Hk & El & H0 & Hq1 & Hsd & Hst)].
  - simpl. rewrite !H0 by lia. pose proof (pick_fair_spec s q Hq) as Hf.
    destruct (pick_next_task_fair s) as [nxt s']. destruct Hf as [(-> & -> & ->)|(l & El & Hq1 & Hsd & Hst)].
    + by repeat split.
    + rewrite El. split; [|done]. split; [done|]. by apply (Hpop 4).
  - assert (nxt <> 0) as Hn by (eapply (queue_nonzero s q k); [done|lia|rewrite El; set_solver]).
    rewrite (proj2 (Z.eqb_neq nxt 0)) by done. split; [|done].
    assert (first_of q [0; 1; 2; 3; 4] = Some (nxt, fupd q k l)) as ->.
    { pose proof (first_of_skip q 0 (Z.to_nat k) ltac:(intros; apply H0; lia) (seqZ k (5 - k))) as E.
      rewrite Z2Nat.id in E by lia. change [0; 1; 2; 3; 4] with (seqZ 0 5).
      replace 5 with (k + (5 - k)) at 1 by lia. rewrite seqZ_app by lia. rewrite Z.add_0_l, E.
      rewrite seqZ_cons by lia. simpl. by rewrite El. }
    split; [done|]. apply Hpop; [lia|done|done].
Qed.

Lemma demote_spec s p :
  0 <= get s p priority < 4 ->
  exists s', demote s p = Some s' /\ get s' p priority = next_priority s p /\
    (forall q, queues_ok s q -> queues_ok s' q) /\
    current_process s' = current_process s /\
    (forall x f, x <> p \/ (f <> priority /\ f <> quantum /\ f <> time_slice) -> get s' x f = get s x f).
Proof.
  intros Hp. unfold demote, next_priority, slice_used. destruct (_ && _); [|exists s; by do 4 (split; [done|])].
  set (s1 := if get s p priority <? MLFQ_LEVELS - 1 then _ else s).
  assert (get s1 p priority = Z.min 3 (get s p priority + 1)) as E.
  { unfold s1, MLFQ_LEVELS. case_if; [unfold get; simpl; rewrite wr_same; rewrite s32_small by (unfold get in *; lia)|]; unfold get in *; lia. }
  rewrite E. unfold mlfq_quantums, MLFQ_LEVELS. rewrite decide_True by lia.
  destruct ([2; 5; 10; 20] !! Z.to_nat (Z.min 3 (get s p priority + 1))) as [v|] eqn:Ev.
  2:{ apply lookup_ge_None in Ev. simpl in Ev. lia. }
  eexists. split; [done|]. split; [|split; [|split]].
  - rewrite <- E. unfold get. simpl. by wr_simp.
  - intros q Hq. apply queues_ok_set; [done|]. apply queues_ok_set; [done|]. unfold s1.
    destruct (_ <? _); [by apply queues_ok_set|done].
  - unfold s1. by destruct (_ <? _).
  - intros x f Hx. unfold get. simpl. rewrite !wr_other by tauto. unfold s1.
    destruct (_ <? _); [|done]. simpl. apply wr_other. tauto.
Qed.

Definition ready_ok (s : sched) (q : Z -> list Z) : Prop :=
  forall i x, 0 <= i < 5 -> x ∈ q i -> get s x state = PROCESS_STATE_READY.

(** The queues after the running process [p] is put back. *)
Definition requeue (s : sched) (q : Z -> list Z) (p : Z) : Z -> list Z :=
  if get s p sched_class =? mlfq_sched_class then
    fupd q (next_priority s p) (q (next_priority s p) ++ [p])
  else fupd q 4 (insert_vr (fun x => get s x vruntime) p (q 4)).

Lemma insert_vr_ext v1 v2 p l : (forall x, v1 x = v2 x) -> insert_vr v1 p l = insert_vr v2 p l.
Proof. intros E. induction l as [|x l IH]; simpl; [done|]. by rewrite !E, IH. Qed.

Lemma next_priority_range s p : 0 <= get s p priority < 4 -> 0 <= next_priority s p < 4.
Proof. unfold next_priority. case_if; lia. Qed.

Lemma first_of_some q ks i x : In i ks -> x ∈ q i -> first_of q ks <> None.
Proof.
  induction ks as [|k ks IH]; simpl; [done|]. intros [->|Hi] Hx.
  - destruct (q i); [by apply elem_of_nil in Hx|done].
  - destruct (q k); [by apply IH|done].
Qed.

(** The first half of [process_schedule]: the running process is demoted if
    it used up its slice and put back. *)
Lemma put_back_ok s q cur fuel :
  queues_ok s q -> cur <> 0 -> unqueued q cur -> has_class s cur -> 0 <= get s cur priority < 4 ->
  (length (q 4%Z) < fuel)%nat ->
  exists s', (s1 ← demote (set s cur state PROCESS_STATE_READY) cur; enqueue_process fuel s1 cur) = Some s' /\
    queues_ok s' (requeue s q cur) /\ current_process s' = current_process s /\
    (forall x, get s' x state = if decide (x = cur) then PROCESS_STATE_READY else get s x state).
Proof.
  intros Hq Hc Hun Hcl Hpr Hf. set (s0 := set s cur state PROCESS_STATE_READY).
  assert (forall f, f <> state -> get s0 cur f = get s cur f) as H0 by (intros; unfold get; simpl; by wr_simp).
  assert (next_priority s0 cur = next_priority s cur) as Enp
    by (unfold next_priority, slice_used; by rewrite !H0).
  destruct (demote_spec s0 cur) as (s1 & -> & Hp1 & Hq1 & Hc1 & Hd1); [by rewrite H0|]. simpl.
  assert (get s1 cur state = PROCESS_STATE_READY) as Hs1.
  { rewrite Hd1 by (right; done). unfold get. simpl. by wr_simp. }
  assert (forall x f, f <> priority -> f <> quantum -> f <> time_slice -> f <> state -> get s1 x f = get s x f) as Hd.
  { intros x f ? ? ? ?. rewrite Hd1 by (right; done). unfold get. simpl. by wr_simp. }
  destruct (enqueue_process_ok s1 q cur fuel) as (s' & -> & Hq' & (_ & Hcur & _) & Hst); try done.
  { apply Hq1. by apply queues_ok_set. }
  { unfold has_class. by rewrite Hd. }
  exists s'. split; [done|]. split; [|split].
  - eapply queues_ok_ext; [exact Hq'|]. intros i Hi. unfold requeue, enq. rewrite Hd by done.
    rewrite Hp1, Enp. pose proof (next_priority_range s cur Hpr). case_if; [by rewrite level_small|].
    erewrite (insert_vr_ext (fun x => get s1 x vruntime)); [done|]. intros x. by apply Hd.
  - rewrite Hcur, Hc1. done.
  - intros x. rewrite Hst. case_decide as E; [by subst|]. rewrite Hd1 by (by left). unfold get. simpl. by wr_simp.
Qed.

Lemma requeue_elem s q p i x :
  0 <= get s p priority < 4 -> 0 <= i < 6 -> x ∈ requeue s q p i -> x = p \/ x ∈ q i.
Proof.
  intros Hp Hi. unfold requeue. case_if; unfold fupd; case_decide; subst; try tauto; [set_solver|].
  rewrite insert_vr_elem. tauto.
Qed.

Lemma requeue_self s q p : 0 <= get s p priority < 4 -> exists i, 0 <= i < 5 /\ p ∈ requeue s q p i.
Proof.
  intros Hp. pose proof (next_priority_range s p Hp). unfold requeue. case_if.
  - exists (next_priority s p). split; [lia|]. rewrite fupd_same. set_solver.
  - exists 4. split; [lia|]. rewrite fupd_same, insert_vr_elem. by left.
Qed.

(** ** The sleep queue *)

Definition due (s : sched) (x : Z) : bool := get s x waiting_on <=? global_ticks s.

(** The ready queues after the due sleepers of [l] are queued, in order. *)
Fixpoint wake (s : sched) (q : Z -> list Z) (l : list Z) : Z -> list Z :=
  match l with
  | [] => q
  | x :: l => if due s x then wake s (enq s q x) l else wake s q l
  end.

Definition same_class (s s' : sched) : Prop :=
  global_ticks s' = global_ticks s /\
  forall x f, f <> next_ready -> f <> state -> f <> waiting_on -> get s' x f = get s x f.

Lemma enq_ext s s' q q' x :
  same_class s s' -> (forall i, i <> 5 -> q' i = q i) -> forall i, i <> 5 -> enq s' q' x i = enq s q x i.
Proof.
  intros [_ Hd] E i Hi. unfold enq. rewrite !Hd by done.
  pose proof (level_range (get s x priority)).
  case_if; unfold fupd; case_decide; try (by apply E).
  - by rewrite E by lia.
  - subst. rewrite E by lia. apply insert_vr_ext. intros y. by apply Hd.
Qed.

Lemma wake_ext s q q' l : (forall i, i <> 5 -> q' i = q i) -> forall i, i <> 5 -> wake s q' l i = wake s q l i.
Proof.
  revert q q'. induction l as [|x l IH]; intros q q' E; simpl; [done|].
  destruct (due s x); apply IH; [|done]. by apply enq_ext.
Qed.

Lemma enq_length s q x : (length (enq s q x 4%Z) <= S (length (q 4%Z)))%nat.
Proof.
  unfold enq. pose proof (level_range (get s x priority)). case_if.
  - rewrite fupd_other by lia. lia.
  - rewrite fupd_same. clear. induction (q 4) as [|y l IH]; simpl; [lia|]. case_if; simpl; lia.
Qed.

Lemma enq_5 s q x : enq s q x 5 = q 5.
Proof. unfold enq. pose proof (level_range (get s x priority)). case_if; by rewrite fupd_other by lia. Qed.

(** Unlinking the sleeper behind [kept]. *)
Lemma unlink_sleeper s q kept x r :
  queues_ok s q -> q 5 = kept ++ x :: r ->
  let s1 := if negb (lastp kept =? 0) then set s (lastp kept) next_ready (get s x next_ready)
            else with_sleep s (get s x next_ready) in
  queues_ok s1 (fupd q 5 (kept ++ r)) /\ unqueued (fupd q 5 (kept ++ r)) x /\
  global_ticks s1 = global_ticks s /\ (forall y f, f <> next_ready -> get s1 y f = get s y f).
Proof.
  intros Hq El s1. destruct (removal_facts s q 5 x kept r Hq ltac:(lia) El) as (Hr & Hx & _ & _ & Hnp).
  split; [|split; [|split]].
  - apply (relink_ok s s1 q 5 kept (x :: r) (st s) (get s x next_ready) r); try done; try lia.
    + intros y Hy. left. set_solver.
    + intros i y Hi Hy. unfold s1, get. by destruct (lastp kept =? 0).
    + intros i Hi. unfold s1, qhead. destruct (lastp kept =? 0); simpl; case_decide; subst; try done.
      repeat case_if; try done. lia.
    + intros i Hi. rewrite fupd_other by lia. rewrite <- (qo_tail _ _ Hq i Hi). unfold s1.
      by destruct (lastp kept =? 0).
  - intros i Hi Hxi. by apply (Hnp i x Hi).
  - unfold s1. by destruct (lastp kept =? 0).
  - intros y f Hf. unfold s1, get. destruct (lastp kept =? 0); simpl; by wr_simp.
Qed.

Lemma wake_loop s0 fuel0 r : forall kept s q fuel,
  queues_ok s q -> q 5 = kept ++ r -> same_class s0 s ->
  (forall x, x ∈ r -> get s x waiting_on = get s0 x waiting_on /\ has_class s0 x) ->
  (length (q 4%Z) + length r < fuel0)%nat -> (length r < fuel)%nat ->
  exists s', loop fuel (wake_step fuel0) (s, default 0 (head r), lastp kept) = Some (Some s') /\
    queues_ok s' (fupd (wake s0 q r) 5 (kept ++ List.filter (fun x => negb (due s0 x)) r)) /\
    (forall x, get s' x state = if bool_decide (x ∈ r) && due s0 x then PROCESS_STATE_READY else get s x state).
Proof.
  induction r as [|x r IH]; intros kept s q fuel Hq El Hsc Hr Hf0 Hf; (destruct fuel as [|fuel]; [simpl in Hf; lia|]);
    cbn [loop]; unfold wake_step at 1; simpl.
  - exists s. split; [done|]. split; [|done].
    eapply queues_ok_ext; [exact Hq|]. intros i Hi. unfold fupd. case_decide; by subst.
  - destruct (removal_facts s q 5 x kept r Hq ltac:(lia) El) as (Hl & Hx & _ & Hxr & _).
    rewrite (proj2 (Z.eqb_neq x 0)) by done. destruct (Hr x ltac:(set_solver)) as [Hw Hcl].
    pose proof Hsc as [Hticks Hd].
    assert ((get s x waiting_on <=? global_ticks s) = due s0 x) as -> by (unfold due; by rewrite Hw, Hticks).
    assert (get s x next_ready = default 0 (head r)) as Hnx by (destruct r; simpl in *; naive_solver).
    destruct (due s0 x) eqn:Edue; simpl.
    + destruct (unlink_sleeper s q kept x r Hq El) as (Hq1 & Hu1 & Ht1 & Hd1). set (s1 := if negb _ then _ else _) in *.
      set (s2 := set (set s1 x state PROCESS_STATE_READY) x waiting_on 0).
      assert (forall y f, f <> next_ready -> f <> state -> f <> waiting_on -> get s2 y f = get s y f) as Hd2.
      { intros y f ? ? ?. rewrite <- Hd1 by done. unfold s2, get. simpl. by wr_simp. }
      assert (get s2 x state = PROCESS_STATE_READY) as Hs2 by (unfold s2, get; simpl; by wr_simp).
      destruct (enqueue_process_ok s2 (fupd q 5 (kept ++ r)) x fuel0) as (s3 & -> & Hq3 & (Hd3 & _ & _ & _ & Ht3) & Hst3); try done.
      { apply queues_ok_set; [done|]. by apply queues_ok_set. }
      { unfold has_class in *. by rewrite Hd2, Hd by done. }
      { simpl in Hf0. rewrite fupd_other by lia. lia. }
      destruct (IH kept s3 (enq s2 (fupd q 5 (kept ++ r)) x) fuel) as (s' & Hloop & Hq' & Hst').
      * done.
      * by rewrite enq_5, fupd_same.
      * split; [rewrite Ht3; simpl; congruence|]. intros y f ? ? ?. rewrite Hd3, Hd2 by done. by apply Hd.
      * intros y Hy. destruct (Hr y ltac:(set_solver)) as [Hwy Hcy]. split; [|done].
        rewrite Hd3 by done. rewrite <- Hwy. unfold s2, get. simpl.
        rewrite wr_other by (left; set_solver). rewrite wr_other by (right; discriminate). by apply Hd1.
      * pose proof (enq_length s2 (fupd q 5 (kept ++ r)) x) as Hen. rewrite fupd_other in Hen by lia.
        simpl in Hf0. lia.
      * simpl in Hf. lia.
      * exists s'. rewrite Hnx. split; [exact Hloop|]. split.
        -- eapply queues_ok_ext; [exact Hq'|]. intros i Hi. unfold fupd at 1 2. case_decide; [done|].
           apply wake_ext; [|done]. intros j Hj. symmetry. apply enq_ext; [|intros; by rewrite fupd_other|done].
           split; [rewrite <- Hticks; symmetry; simpl; congruence|]. intros y f ? ? ?. rewrite Hd2 by done. by apply Hd.
        -- intros y. rewrite Hst', Hst3. destruct (decide (y = x)) as [->|Hyx].
           ++ rewrite (bool_decide_eq_true_2 (x ∈ x :: r)), Edue, Hs2 by set_solver. simpl. by destruct (_ && _).
           ++ assert (get s2 y state = get s y state) as ->.
              { rewrite <- (Hd1 y state) by done. unfold s2, get. simpl. by wr_simp. }
              rewrite (bool_decide_ext (y ∈ x :: r) (y ∈ r)) by set_solver. done.
    + destruct (IH (kept ++ [x]) s q fuel) as (s' & Hloop & Hq' & Hst'); try done.
      * by rewrite <- app_assoc.
      * intros y Hy. apply Hr. set_solver.
      * simpl in Hf0. lia.
      * simpl in Hf. lia.
      * rewrite lastp_snoc in Hloop. rewrite Hnx. exists s'. split; [done|]. split.
        -- by rewrite <- app_assoc in Hq'.
        -- intros y. rewrite Hst'. destruct (decide (y = x)) as [->|Hyx].
           ++ rewrite Edue, !andb_false_r. done.
           ++ rewrite (bool_decide_ext (y ∈ x :: r) (y ∈ r)) by set_solver. done.
Qed.

(** ** Properties *)

(** C9: the MLFQ class is four FIFO queues: enqueueing appends to the queue
    of the process's (clamped) priority, picking removes the head of the first
    non-empty level, dequeueing removes the process wherever it is in its
    level, each through the head, tail and link pointers, with no other queue
    and no other process field changed. *)
Theorem mlfq_refines_fifo s q :
  queues_ok s q ->
  (forall p, p <> 0 -> unqueued q p ->
     let lv := level_of (get s p priority) in
     queues_ok (enqueue_task_mlfq s p) (fupd q lv (q lv ++ [p])) /\ same_data s (enqueue_task_mlfq s p)) /\
  (forall nxt s', pick_next_task_mlfq s = (nxt, s') ->
     match first_of q [0; 1; 2; 3] with
     | Some (x, q') => nxt = x /\ queues_ok s' q'
     | None => nxt = 0 /\ s' = s
     end) /\
  (forall p l1 l2 fuel, q (level_of (get s p priority)) = l1 ++ p :: l2 -> (length l1 < fuel)%nat ->
     exists s', dequeue_task_mlfq fuel s p = Some s' /\
       queues_ok s' (fupd q (level_of (get s p priority)) (l1 ++ l2)) /\ same_data s s').
Proof.
  intros Hq. split; [|split].
  - intros p Hp Hun. destruct (enqueue_mlfq_ok s q p Hq Hp Hun) as (? & ? & _). by split.
  - intros nxt s' E. unfold pick_next_task_mlfq in E. change (Z.to_nat MLFQ_LEVELS) with 4%nat in E.
    pose proof (pick_mlfq_spec s q 4 0 Hq ltac:(lia) ltac:(lia)) as H. rewrite E in H.
    destruct H as [(-> & -> & H0)|(k & l & Hk & El & H0 & Hq1 & _)].
    + simpl. by rewrite !H0 by lia.
    + pose proof (first_of_skip q 0 (Z.to_nat k) ltac:(intros; apply H0; lia) (seqZ k (4 - k))) as Es.
      rewrite Z2Nat.id in Es by lia.
      assert ([0; 1; 2; 3] = seqZ 0 k ++ seqZ k (4 - k)) as ->.
      { transitivity (seqZ 0 (k + (4 - k))); [by replace (k + (4 - k)) with 4 by lia|].
        rewrite seqZ_app by lia. by rewrite Z.add_0_l. }
      rewrite Es.
      rewrite seqZ_cons by lia. simpl. rewrite El. by split.
  - intros p l1 l2 fuel El Hf.
    destruct (dequeue_mlfq_loop s q _ p [] l1 l2 fuel Hq (level_range _) El Hf) as (s' & Hs & H1 & H2 & _).
    by exists s'.
Qed.

(** Removing a process that is not in the fair queue changes nothing. *)
Lemma dequeue_fair_absent s q p l0 l1 fuel :
  queues_ok s q -> q 4 = l0 ++ l1 -> p ∉ q 4 -> (length l1 < fuel)%nat ->
  loop fuel (dequeue_fair_step s p) (lastp l0) = Some s.
Proof.
  intros Hq. revert l0 fuel. induction l1 as [|y l1 IH]; intros l0 fuel El Hp Hf; (destruct fuel as [|fuel]; [lia|]);
    cbn [loop]; unfold dequeue_fair_step at 1;
    change (cfs_link s (lastp l0)) with (link_at (st s) next_ready (cfs_queue s) (lastp l0));
    pose proof (qo_list _ _ Hq 4 ltac:(lia)) as Hl; unfold qhead in Hl; simpl in Hl; rewrite El in Hl;
    rewrite (link_at_spec _ _ _ _ _ Hl); simpl; [done|].
  assert (y <> 0) as Hy by (eapply slist_nonzero; [exact Hl|set_solver]).
  assert (y <> p) as Hyp by (intros ->; apply Hp; rewrite El; set_solver).
  rewrite (proj2 (Z.eqb_neq y 0)), (proj2 (Z.eqb_neq y p)) by done.
  specialize (IH (l0 ++ [y]) fuel). rewrite lastp_snoc in IH. apply IH; [by rewrite <- app_assoc|done|simpl in Hf; lia].
Qed.

(** The queues, with the fair one ordered by virtual runtime. *)
Definition by_vruntime (s : sched) : list Z -> Prop := StronglySorted (fun x y => get s x vruntime <= get s y vruntime).
Definition fair_ok (s : sched) (q : Z -> list Z) : Prop := queues_ok s q /\ by_vruntime s (q 4).

Lemma by_vruntime_same s s' l : same_data s s' -> by_vruntime s l -> by_vruntime s' l.
Proof.
  intros [Hd _] H. induction H as [|x l Hl IH Hx]; constructor; [done|].
  eapply Forall_impl; [exact Hx|]. intros y Hy. by rewrite !Hd by done.
Qed.

Lemma by_vruntime_remove s l1 p l2 : by_vruntime s (l1 ++ p :: l2) -> by_vruntime s (l1 ++ l2).
Proof.
  induction l1 as [|x l1 IH]; simpl; intros H; inversion H as [|? ? Hs Hx]; subst; [done|].
  constructor; [by apply IH|]. apply Forall_app in Hx as [H1 H2]. apply Forall_app. split; [done|]. by inversion H2.
Qed.

(** Insertion behind the processes with no larger virtual runtime, before all
    those with a larger one. *)
Lemma insert_vr_by_vruntime s p l :
  by_vruntime s l ->
  exists l1 l2, l = l1 ++ l2 /\ insert_vr (fun x => get s x vruntime) p l = l1 ++ p :: l2 /\
    (forall x, x ∈ l1 -> get s x vruntime <= get s p vruntime) /\
    (forall x, x ∈ l2 -> get s p vruntime < get s x vruntime) /\ by_vruntime s (l1 ++ p :: l2).
Proof.
  intros Hs. destruct (insert_vr_split (fun x => get s x vruntime) p l) as (l1 & l2 & -> & Ei & H1 & H2).
  pose proof (insert_vr_sorted (fun x => get s x vruntime) p (l1 ++ l2) (StronglySorted_Sorted Hs)) as Hs'.
  rewrite Ei in Hs'. exists l1, l2. split; [done|]. split; [done|]. split; [done|]. split.
  - intros x Hx. destruct l2 as [|y l2]; [by apply elem_of_nil in Hx|]. specialize (H2 y l2 eq_refl).
    apply elem_of_cons in Hx as [->|Hx]; [done|].
    apply (StronglySorted_app_1_r _ l1) in Hs. inversion Hs as [|? ? _ Hall]; subst.
    rewrite Forall_forall in Hall. specialize (Hall x Hx). simpl in *. lia.
  - apply Sorted_StronglySorted; [intros x y z; lia|done].
Qed.

(** C10: the fair class is a queue ordered by virtual runtime, behind the head
    and link pointers.  Enqueueing makes the process ready and puts it behind
    all those that have run no longer and before all those that have run
    longer; picking unlinks the head, which has a least virtual runtime, and
    returns 0 when the queue is empty; dequeueing unlinks the process wherever
    it is and does nothing when it is not queued.  Each keeps the order, every
    other queue and every other field of the processes. *)
Theorem fair_queue_sorted s q :
  fair_ok s q ->
  (forall p fuel, p <> 0 -> unqueued q p -> (length (q 4%Z) < fuel)%nat ->
     exists s' l1 l2, enqueue_task_fair fuel s p = Some s' /\
       q 4 = l1 ++ l2 /\ fair_ok s' (fupd q 4 (l1 ++ p :: l2)) /\
       (forall x, x ∈ l1 -> get s x vruntime <= get s p vruntime) /\
       (forall x, x ∈ l2 -> get s p vruntime < get s x vruntime) /\ same_data s s' /\
       (forall x, get s' x state = if decide (x = p) then PROCESS_STATE_READY else get s x state)) /\
  (forall nxt s', pick_next_task_fair s = (nxt, s') ->
     match q 4 with
     | [] => nxt = 0 /\ s' = s
     | x :: l => nxt = x /\ fair_ok s' (fupd q 4 l) /\ get s' x next_ready = 0 /\
                 (forall y, y ∈ q 4 -> get s x vruntime <= get s y vruntime) /\ same_data s s' /\
                 (forall y, get s' y state = get s y state)
     end) /\
  (forall p l1 l2 fuel, q 4 = l1 ++ p :: l2 -> (length l1 < fuel)%nat ->
     exists s', dequeue_task_fair fuel s p = Some s' /\ fair_ok s' (fupd q 4 (l1 ++ l2)) /\ same_data s s' /\
       (forall x, get s' x state = get s x state)) /\
  (forall p fuel, p ∉ q 4 -> (length (q 4%Z) < fuel)%nat -> dequeue_task_fair fuel s p = Some s).
Proof.
  intros [Hq Hs]. split; [|split; [|split]].
  - intros p fuel Hp Hun Hf. destruct (enqueue_fair_ok s q p fuel Hq Hp Hun Hf) as (s' & E & Hq' & Hd & Hst).
    destruct (insert_vr_by_vruntime s p (q 4) Hs) as (l1 & l2 & El & Ei & H1 & H2 & Hs'). rewrite Ei in Hq'.
    exists s', l1, l2. split; [done|]. split; [done|]. split; [|done]. split; [done|].
    rewrite fupd_same. by apply (by_vruntime_same s).
  - intros nxt s' E. pose proof (pick_fair_spec s q Hq) as Hpick. rewrite E in Hpick.
    destruct Hpick as [(-> & -> & ->)|(l & El & Hq' & Hd & Hst)]; [done|]. rewrite El in Hs |- *.
    inversion Hs as [|? ? Hl Hall]; subst. split; [done|]. split; [|split; [|split; [|done]]].
    + split; [done|]. rewrite fupd_same. by apply (by_vruntime_same s).
    + unfold pick_next_task_fair in E. destruct (cfs_queue s =? 0); simplify_eq; [|unfold get; simpl; by wr_simp].
      pose proof (qo_list _ _ Hq 4 ltac:(lia)) as Hl4. rewrite El in Hl4.
      by destruct (slist_nonzero _ _ _ _ 0 Hl4 ltac:(set_solver)).
    + intros y Hy. apply elem_of_cons in Hy as [->|Hy]; [lia|]. rewrite Forall_forall in Hall. by apply Hall.
  - intros p l1 l2 fuel El Hf. destruct (dequeue_fair_loop s q p [] l1 l2 fuel Hq El Hf) as (s' & E & Hq' & Hd & Hst).
    exists s'. split; [done|]. split; [|done]. split; [done|]. rewrite fupd_same. apply (by_vruntime_same s); [done|].
    rewrite El in Hs. by apply by_vruntime_remove in Hs.
  - intros p fuel Hp Hf. by apply (dequeue_fair_absent s q p [] (q 4)).
Qed.

(** C2: [process_schedule] puts a running process back (one level lower when
    its slice is used up) and gives the CPU to the head of the first non-empty
    queue, MLFQ levels before the fair queue; every other queued process stays
    queued and ready, the new current process is running and in no queue, and
    a blocked process keeps the CPU only when nothing is runnable. *)
Theorem process_schedule_correct s q fuel :
  let cur := current_process s in
  queues_ok s q -> ready_ok s q -> cur <> 0 -> unqueued q cur -> has_class s cur ->
  0 <= get s cur priority < 4 -> (length (q 4%Z) < fuel)%nat ->
  let running := get s cur state =? PROCESS_STATE_RUNNING in
  let q1 := if running then requeue s q cur else q in
  exists s', process_schedule fuel s = Some s' /\
    match first_of q1 [0; 1; 2; 3; 4] with
    | Some (x, q') => current_process s' = x /\ get s' x state = PROCESS_STATE_RUNNING /\
                      queues_ok s' q' /\ ready_ok s' q' /\ unqueued q' x
    | None => running = false /\ current_process s' = cur /\ queues_ok s' q /\
              (get s cur state <> PROCESS_STATE_READY -> s' = s)
    end.
Proof.
  intros cur Hq Hr Hc Hun Hcl Hpr Hf running q1. unfold process_schedule. fold cur.
  rewrite (proj2 (Z.eqb_neq cur 0)) by done. fold running.
  assert (exists s1, (if running then
      s1 ← demote (set s cur state PROCESS_STATE_READY) cur; enqueue_process fuel s1 cur else Some s) = Some s1 /\
      queues_ok s1 q1 /\ current_process s1 = cur /\ ready_ok s1 q1 /\
      (running = false -> s1 = s)) as (s1 & -> & Hq1 & Hc1 & Hr1 & Hsame).
  { unfold q1. destruct running eqn:Er; [|by exists s].
    destruct (put_back_ok s q cur fuel) as (s1 & -> & Hq1 & Hc1 & Hst); try done.
    exists s1. split; [done|]. split; [done|]. split; [done|]. split; [|done].
    intros i x Hi Hx. rewrite Hst. case_decide; [done|].
    apply requeue_elem in Hx as [?|Hx]; [done| |done|lia]. by apply (Hr i). }
  cbn [mbind option_bind]. pose proof (pick_first_of s1 q1 Hq1) as Hpick.
  destruct (pick_next_task_mlfq s1) as [n1 t1].
  destruct (if n1 =? 0 then pick_next_task_fair t1 else (n1, t1)) as [nxt s2].
  destruct Hpick as (Hpick & (_ & Hcur2 & _) & Hst2).
  destruct (first_of q1 [0; 1; 2; 3; 4]) as [[x q']|] eqn:Ef.
  - destruct Hpick as (-> & Hx0 & _ & Hq2 & Hu2 & Hsub). rewrite (proj2 (Z.eqb_neq x 0)) by done.
    assert (forall t, st t = wr (st s2) x state PROCESS_STATE_RUNNING ->
      (get t x state = PROCESS_STATE_RUNNING /\ ready_ok t q')) as Hrdy.
    { intros t Et. unfold get, ready_ok. unfold get. rewrite Et. split; [by wr_simp|]. intros i y Hi Hy.
      rewrite wr_other by (left; intros ->; by apply (Hu2 i ltac:(lia))). fold (get s2 y state).
      rewrite Hst2. apply (Hr1 i); [done|]. apply Hsub; [lia|done]. }
    destruct (x =? cur) eqn:Exc; simpl_bool; simpl; (eexists; split; [done|]).
    + subst x. split; [simpl; congruence|]. destruct (Hrdy (set s2 cur state PROCESS_STATE_RUNNING) eq_refl).
      split; [done|]. split; [by apply queues_ok_set|]. by split.
    + split; [done|]. destruct (Hrdy (set (with_current s2 x) x state PROCESS_STATE_RUNNING) eq_refl).
      split; [done|]. split; [|by split]. apply queues_ok_set; [done|]. destruct Hq2. by split.
  - destruct Hpick as [-> ->]. simpl.
    assert (running = false) as Er.
    { destruct running eqn:Er; [|done]. destruct (requeue_self s q cur Hpr) as (i & Hi & Hx).
      exfalso. apply (first_of_some q1 [0; 1; 2; 3; 4] i cur); [simpl; lia|done|done]. }
    unfold q1 in Hq1. rewrite Er in *. rewrite (Hsame eq_refl) in *.
    destruct (get s cur state =? PROCESS_STATE_READY) eqn:E; simpl_bool; eexists; (split; [done|]);
      (split; [done|]); (split; [done|]); (split; [|done]); [by apply queues_ok_set|done].
Qed.

(** The sleep-queue pass of the timer tick wakes exactly the sleepers
    whose deadline has come, whatever their position: they leave the sleep
    queue in order and each enters the ready queue of its class, made ready;
    the others stay asleep in the same order.  One iteration per sleeper is
    enough. *)
Theorem wake_sleepers_correct s q fuel :
  queues_ok s q -> (forall x, x ∈ q 5 -> has_class s x) ->
  (length (q 4%Z) + length (q 5%Z) < fuel)%nat ->
  exists s', wake_sleepers fuel s = Some s' /\
    queues_ok s' (fupd (wake s q (q 5)) 5 (List.filter (fun x => negb (due s x)) (q 5))) /\
    (forall x, get s' x state = if bool_decide (x ∈ q 5) && due s x then PROCESS_STATE_READY else get s x state) /\
    (forall x, x ∈ q 5 -> due s x = true -> exists i, 0 <= i < 5 /\ x ∈ wake s q (q 5) i).
Proof.
  intros Hq Hc Hf. unfold wake_sleepers.
  assert (sleep_queue s = default 0 (head (q 5))) as ->.
  { pose proof (qo_list _ _ Hq 5 ltac:(lia)) as Hl. unfold qhead in Hl. simpl in Hl.
    destruct (q 5); simpl in *; naive_solver. }
  destruct (wake_loop s fuel (q 5) [] s q fuel) as (s' & Hl & Hq' & Hst); try done.
  - intros x Hx. split; [done|]. by apply Hc.
  - lia.
  - change (lastp []) with 0 in Hl. rewrite Hl. exists s'. split; [done|]. split; [done|]. split; [done|].
    clear. generalize (q 5). intros l. revert q. induction l as [|y l IH]; intros q x Hx Hd; [by apply elem_of_nil in Hx|].
    assert (forall l q, (exists i, 0 <= i < 5 /\ x ∈ q i) -> exists i, 0 <= i < 5 /\ x ∈ wake s q l i) as Hmono.
    { clear. induction l as [|y l IH]; intros q H; simpl; [done|]. case_if; apply IH; [|done].
      apply enq_elem. by right. }
    simpl. apply elem_of_cons in Hx as [->|Hx].
    + rewrite Hd. apply Hmono, enq_elem. by left.
    + case_if; by apply IH.
Qed.

(** ** A concrete state

    Process 100 runs and has used up its slice; 200 is ready, 400 and 500 are
    in the fair queue, 300 and 600 sleep, 300 until tick 5 and 600 until tick
    9; the clock shows 7. *)
Definition demo_st : store pfld := fun p f =>
  match f with
  | sched_class => if (p =? 400) || (p =? 500) then fair_sched_class else mlfq_sched_class
  | state => if p =? 100 then PROCESS_STATE_RUNNING
             else if (p =? 300) || (p =? 600) then PROCESS_STATE_SLEEPING else PROCESS_STATE_READY
  | vruntime => if p =? 100 then 450 else p
  | waiting_on => if p =? 300 then 5 else if p =? 600 then 9 else 0
  | next_ready => if p =? 400 then 500 else if p =? 300 then 600 else 0
  | _ => 0
  end.

Definition demo_sched : sched :=
  Sched demo_st (fun i => if i =? 0 then 200 else 0) (fun i => if i =? 0 then 200 else 0) 400 300 100 100 7 7.

Definition demo_q (i : Z) : list Z :=
  if i =? 0 then [200] else if i =? 4 then [400; 500] else if i =? 5 then [300; 600] else [].

Ltac six_cases i := let H := fresh in
  assert (i = 0 \/ i = 1 \/ i = 2 \/ i = 3 \/ i = 4 \/ i = 5) as H by lia;
  destruct H as [-> | [-> | [-> | [-> | [-> | ->]]]]].

Lemma demo_queues : queues_ok demo_sched demo_q.
Proof.
  split.
  - intros i Hi. six_cases i; vm_compute; repeat split; discriminate.
  - intros i Hi. six_cases i; try reflexivity; lia.
  - intros i j x Hi Hj. six_cases i; six_cases j; unfold demo_q; simpl; set_solver.
Qed.

Lemma demo_unqueued : unqueued demo_q 100.
Proof. intros i Hi. six_cases i; unfold demo_q; simpl; set_solver. Qed.

Lemma mlfq_refines_fifo_witness :
  fst (pick_next_task_mlfq demo_sched) = 200 /\
  queues_ok (enqueue_task_mlfq demo_sched 100) (fupd demo_q 0 [200; 100]).
Proof.
  destruct (mlfq_refines_fifo demo_sched demo_q demo_queues) as (He & Hp & _). split.
  - destruct (pick_next_task_mlfq demo_sched) as [nxt s'] eqn:E. by destruct (Hp nxt s' eq_refl) as [-> _].
  - by destruct (He 100 ltac:(lia) demo_unqueued) as [H _].
Defined.

(** Two queued processes, 400 and 500: 100 is put among them, the
    pick takes 400, and 500 can be dequeued. *)
Lemma demo_fair : fair_ok demo_sched demo_q.
Proof. split; [exact demo_queues|]. repeat constructor; vm_compute; discriminate. Qed.

Lemma fair_queue_sorted_witness :
  (exists s' l1 l2, enqueue_task_fair 3 demo_sched 100 = Some s' /\ [400; 500] = l1 ++ l2 /\
     fair_ok s' (fupd demo_q 4 (l1 ++ 100 :: l2))) /\
  (pick_next_task_fair demo_sched).1 = 400 /\
  fair_ok (pick_next_task_fair demo_sched).2 (fupd demo_q 4 [500]) /\
  (exists s', dequeue_task_fair 3 demo_sched 500 = Some s' /\ fair_ok s' (fupd demo_q 4 [400])) /\
  dequeue_task_fair 3 demo_sched 100 = Some demo_sched.
Proof.
  destruct (fair_queue_sorted demo_sched demo_q demo_fair) as (He & Hp & Hd & Hn). split; [|split; [|split; [|split]]].
  - destruct (He 100 3%nat) as (s' & l1 & l2 & E & El & Hok & _); [lia|exact demo_unqueued|vm_compute; lia|].
    by exists s', l1, l2.
  - reflexivity.
  - destruct (pick_next_task_fair demo_sched) as [nxt s'] eqn:E. by destruct (Hp nxt s' eq_refl) as (_ & Hok & _).
  - destruct (Hd 500 [400] [] 3%nat) as (s' & E & Hok & _); [reflexivity|simpl; lia|]. by exists s'.
  - apply Hn; [exact (demo_unqueued 4 ltac:(lia))|vm_compute; lia].
Defined.

Lemma process_schedule_correct_witness :
  exists s', process_schedule 3 demo_sched = Some s' /\ current_process s' = 200 /\
    get s' 200 state = PROCESS_STATE_RUNNING.
Proof.
  destruct (process_schedule_correct demo_sched demo_q 3 demo_queues) as (s' & Hs & Hc & Hst & _);
    [|discriminate|exact demo_unqueued|by left|vm_compute; split; [discriminate|reflexivity]|vm_compute; lia|by exists s'].
  intros i x Hi Hx. six_cases i; unfold demo_q in Hx; simpl in Hx; try lia;
    repeat (apply elem_of_cons in Hx as [->|Hx]; [reflexivity|]); by apply elem_of_nil in Hx.
Defined.

Lemma wake_sleepers_correct_witness :
  exists s', wake_sleepers 5 demo_sched = Some s' /\ get s' 300 state = PROCESS_STATE_READY /\
    get s' 600 state = PROCESS_STATE_SLEEPING.
Proof.
  destruct (wake_sleepers_correct demo_sched demo_q 5 demo_queues) as (s' & Hs & _ & Hst & _);
    [|vm_compute; lia|].
  - intros x Hx. unfold demo_q in Hx. simpl in Hx.
    repeat (apply elem_of_cons in Hx as [->|Hx]; [by left|]). by apply elem_of_nil in Hx.
  - exists s'. split; [done|]. rewrite !Hst. by vm_compute.
Defined.

End Sched.
