(* ===== verification/Process.v ===== *)
(** * Process creation (src/kernel/process/process.c)

    Creating a process allocates its structure from the heap (through the
    allocator interface) and its kernel stack from the page allocator, builds
    the stack image the context switch of arch/x86_64/switch.asm will pop, and
    links the process into the process list and a ready queue. *)
From S2P Require Import Prelude Memory Allocator Spinlock Pmm Vmm Heap Store Sched.
Import Pmm Sched.
#[local] Existing Instance Heap.heap_allocator.

Module Process.

Section creation.
Context {A : Type} `{Allocator A}.

Record system := Sys {
  ps_sched : sched;
  ps_pmm : pmm;
  ps_heap : A;
  root_dentry : Z;
  root_mnt : Z;
  init_nsproxy : Z
}.

Definition sizeof_process : Z := 1752.
Definition sizeof_interrupt_frame : Z := 176.
Definition MAX_FILES : Z := 128.
Definition RLIMIT_NOFILE : Z := 7.
Definition OFF_rax : Z := 112.

Definition with_next_pid (s : sched) (n : Z) : sched :=
  Sched (st s) (mlfq_queues s) (mlfq_tails s) (cfs_queue s) (sleep_queue s) (current_process s)
        (process_list s) n (global_ticks s).

(** [memset(p, 0, sizeof(struct process))] and
    [memcpy(c, p, sizeof(struct process))] *)
Definition zero_process (s : sched) (p : Z) : sched :=
  with_st s (fun q f => if decide (q = p) then 0 else st s q f).
Definition copy_process (s : sched) (c p : Z) : sched :=
  with_st s (fun q f => if decide (q = c) then st s p f else st s q f).

(** A run of assignments [p->f = v]. *)
Definition set_fields (s : sched) (p : Z) (l : list (pfld * Z)) : sched :=
  foldl (fun s '(f, v) => set s p f v) s l.

(** [strcpy(p->name, "kthread")], the offset of [held_locks] being 232. *)
Definition name_kthread : list (pfld * Z) :=
  [(name 0, 107); (name 1, 116); (name 2, 104); (name 3, 114); (name 4, 101); (name 5, 97); (name 6, 100); (name 7, 0)].

Definition init_process (s : sched) (p : Z) : sched :=
  let s := zero_process s p in
  let n := next_pid s in
  let s := with_next_pid s (u64 (n + 1)) in
  let s := set_fields s p
    [(pid, n); (state, PROCESS_STATE_READY); (policy, SCHED_OTHER); (sched_class, mlfq_sched_class);
     (priority, 0); (base_priority, 0); (quantum, 2); (time_slice, 2);
     (held_next, p + 232); (held_prev, p + 232);
     (rlim_cur RLIMIT_CPU, RLIM_INFINITY); (rlim_max RLIMIT_CPU, RLIM_INFINITY);
     (rlim_cur RLIMIT_NOFILE, MAX_FILES)] in
  set_fields s p name_kthread.

(** The working directory and the namespaces come from the creator; only
    [process_create_kthread] tests the namespace pointer ([guarded]). *)
Definition inherit (guarded : bool) (sys : system) (s : sched) (p : Z) : sched :=
  let cur := current_process s in
  if negb (cur =? 0) then
    let s := set s p cwd (get s cur cwd) in
    let s := set s p cwd_mnt (get s cur cwd_mnt) in
    let ns := get s cur nsproxy in
    let s := set s p nsproxy ns in
    if guarded && (ns =? 0) then s else set s ns ns_ref_count (s32 (get s ns ns_ref_count + 1))
  else
    let s := set s p cwd (root_dentry sys) in
    let s := set s p cwd_mnt (root_mnt sys) in
    set s p nsproxy (init_nsproxy sys).

(** [*(--stack) = v], for each [v] in order. *)
Fixpoint push (m : mem) (sp : Z) (l : list Z) : mem * Z :=
  match l with
  | [] => (m, sp)
  | v :: l => push (store64 m (sp - 8) v) (sp - 8) l
  end.

(** [while (curr->next) curr = curr->next; curr->next = proc] *)
Definition last_proc_step (s : sched) : Z -> Z + Z :=
  fun curr => if negb (get s curr next =? 0) then inl (get s curr next) else inr curr.

Definition append_process (fuel : nat) (s : sched) (proc : Z) (set_prev : bool) : option sched :=
  curr ← loop fuel (last_proc_step s) (process_list s);
  let s := set s curr next proc in
  Some (if set_prev then set s proc prev curr else s).

(** The part [process_create] and [process_create_kthread] share: [words] are
    what is pushed on the fresh stack, [cr3_of] is the address space. *)
Definition create_with (fuel : nat) (guarded : bool) (sys : system) (words : list Z) (cr3_of : sched -> Z) :
    option (system * Z) :=
  '(h, proc) ← a_alloc (ps_heap sys) sizeof_process;
  let sys := Sys (ps_sched sys) (ps_pmm sys) h (root_dentry sys) (root_mnt sys) (init_nsproxy sys) in
  if proc =? 0 then Some (sys, 0)
  else
    let s := init_process (ps_sched sys) proc in
    let s := inherit guarded sys s proc in
    '(stack_phys, p) ← pmm_alloc_page (ps_pmm sys);
    let sys s p := Sys s p h (root_dentry sys) (root_mnt sys) (init_nsproxy sys) in
    if stack_phys =? 0 then Some (sys s p, 0)
    else
      let stack_top := stack_phys + 4096 in
      let s := set s proc kernel_stack stack_top in
      let s := set s proc cr3 (cr3_of s) in
      let '(m, sp) := push (pm_mem p) stack_top words in
      let p := with_mem p m in
      let s := set s proc rsp sp in
      s ← append_process fuel s proc true;
      s ← enqueue_process fuel s proc;
      Some (sys s p, proc).

Definition process_create (fuel : nat) (sys : system) (entry_point : Z) : option (system * Z) :=
  create_with fuel false sys [entry_point; 0; 0; 0; 0; 0; 0] (fun s => get s (current_process s) cr3).

(** [cpu_cr3] is the control register, [helper] the address of
    [kernel_thread_helper]. *)
Definition process_create_kthread (fuel : nat) (cpu_cr3 helper : Z) (sys : system) (entry_point arg : Z) :
    option (system * Z) :=
  create_with fuel true sys [helper; 0; 0; arg; entry_point; 0; 0]
    (fun s => let c := if negb (current_process s =? 0) then get s (current_process s) cr3 else 0 in
              if c =? 0 then cpu_cr3 else c).

Definition copy_frame (m : mem) (dst src : Z) : mem :=
  for_up (Z.to_nat sizeof_interrupt_frame) 0 (fun i m => store8 m (dst + i) (load8 m (src + i))) m.

Definition process_fork (fuel : nat) (trampoline : Z) (sys : system) : option (system * Z) :=
  '(h, child) ← a_alloc (ps_heap sys) sizeof_process;
  let sys := Sys (ps_sched sys) (ps_pmm sys) h (root_dentry sys) (root_mnt sys) (init_nsproxy sys) in
  if child =? 0 then Some (sys, -1)
  else
    let s := ps_sched sys in
    let cur := current_process s in
    let s := copy_process s child cur in
    let n := next_pid s in
    let s := set (with_next_pid s (u64 (n + 1))) child pid n in
    let s := set_fields s child
      [(parent, cur); (state, PROCESS_STATE_READY); (next, 0); (next_ready, 0); (cpu_time, 0)] in
    let s := set s child time_slice (get s child quantum) in
    '(stack_phys, p) ← pmm_alloc_page (ps_pmm sys);
    let sys s p := Sys s p h (root_dentry sys) (root_mnt sys) (init_nsproxy sys) in
    if stack_phys =? 0 then Some (sys s p, -1)
    else
      let s := set s child kernel_stack (stack_phys + 4096) in
      let parent_frame := get s cur kernel_stack - sizeof_interrupt_frame in
      let child_frame := get s child kernel_stack - sizeof_interrupt_frame in
      let m := copy_frame (pm_mem p) child_frame parent_frame in
      let m := store64 m (child_frame + OFF_rax) 0 in
      let '(m, sp) := push m child_frame [trampoline; 0; 0; 0; 0; 0; 0] in
      let s := set s child rsp sp in
      s ← append_process fuel s child false;
      s ← enqueue_process fuel s child;
      Some (sys s (with_mem p m), s32 (get s child pid)).

(** ** Termination *)

(** The loop of [process_exit] that gives the children to [init_proc]. *)
Definition reparent_step (cur init_proc : Z) : sched * Z -> (sched * Z) + sched :=
  fun '(s, p) =>
    if p =? 0 then inr s
    else
      let s := if get s p parent =? cur then set s p parent init_proc else s in
      inl (s, get s p next).

Definition reaper (fuel : nat) (s : sched) : option Z :=
  p0 ← get_process_by_pid fuel s 0;
  p1 ← get_process_by_pid fuel s 1;
  Some (if negb (p1 =? 0) then p1 else p0).

(** The end of [process_exit], after the resources are released: the children
    are handed over, a waiting parent is made ready and the CPU is given up. *)
Definition exit_tail (fuel : nat) (s : sched) (code : Z) : option sched :=
  let cur := current_process s in
  let s := set s cur exit_code code in
  init_proc ← reaper fuel s;
  s ← loop fuel (reparent_step cur init_proc) (s, process_list s);
  let par := get s cur parent in
  s ← (if negb (par =? 0) && (get s par state =? PROCESS_STATE_BLOCKED) then
         let s := set s par state PROCESS_STATE_READY in
         enqueue_process fuel s par
       else Some s);
  let s := set s cur state PROCESS_STATE_TERMINATED in
  process_schedule fuel s.

(** One round of [process_wait]: the result, or sleep for a tick and retry. *)
Definition wait_poll (fuel : nat) (s : sched) (n : Z) : option (Z * option Z + sched) :=
  p ← get_process_by_pid fuel s n;
  if p =? 0 then Some (inl (-1, None))
  else if get s p state =? PROCESS_STATE_TERMINATED then Some (inl (n, Some (get s p exit_code)))
  else s ← process_sleep fuel s 1; Some (inr s).

(** ** What the context switch restores

    [switch_to_task] loads [rsp], pops [r15 r14 r13 r12 rbp rbx] and returns. *)
Record regs := Regs { r15 : Z; r14 : Z; r13 : Z; r12 : Z; rbp : Z; rbx : Z; rip : Z; rsp_after : Z }.

Definition resume (m : mem) (sp : Z) : regs :=
  Regs (load64 m sp) (load64 m (sp + 8)) (load64 m (sp + 16)) (load64 m (sp + 24)) (load64 m (sp + 32))
       (load64 m (sp + 40)) (load64 m (sp + 48)) (sp + 56).

(** ** Frames and lists *)

(** [s'] differs from [s] at the structure [p] and in namespace counters
    only. *)
Definition only_at (p : Z) (s s' : sched) : Prop :=
  (forall x f, x <> p -> f <> ns_ref_count -> get s' x f = get s x f) /\
  mlfq_queues s' = mlfq_queues s /\ mlfq_tails s' = mlfq_tails s /\ cfs_queue s' = cfs_queue s /\
  sleep_queue s' = sleep_queue s /\ current_process s' = current_process s /\
  process_list s' = process_list s /\ global_ticks s' = global_ticks s.

#[local] Instance only_at_preorder p : PreOrder (only_at p).
Proof.
  split; [done|]. intros a b c (Hab & ? & ? & ? & ? & ? & ? & ?) (Hbc & ? & ? & ? & ? & ? & ? & ?).
  split; [intros; by rewrite Hbc, Hab|]. repeat split; congruence.
Qed.

Lemma only_at_set p s f v : only_at p s (set s p f v).
Proof. split; [|done]. intros x g Hx _. unfold get. simpl. by wr_simp. Qed.

Lemma only_at_fields p s l : only_at p s (set_fields s p l).
Proof.
  revert s. induction l as [|[f v] l IH]; intros s; simpl; [done|].
  etransitivity; [apply (only_at_set p s f v)|apply IH].
Qed.

Lemma only_at_init p s : only_at p s (init_process s p).
Proof.
  unfold init_process. etransitivity; [|apply only_at_fields]. etransitivity; [|apply only_at_fields].
  split; [|done]. intros x f Hx _. unfold get. simpl. by rewrite decide_False.
Qed.

Lemma only_at_inherit g sys p s : only_at p s (inherit g sys s p).
Proof.
  unfold inherit. destruct (negb (current_process s =? 0)).
  - match goal with |- only_at p s (if ?b then ?t else _) => assert (only_at p s t) as Ht end.
    { repeat (etransitivity; [|apply only_at_set]). done. }
    destruct (g && _); [done|]. etransitivity; [exact Ht|]. split; [|done].
    intros x f _ Hf. unfold get. simpl. by wr_simp.
  - repeat (etransitivity; [|apply only_at_set]). done.
Qed.

Lemma queues_only_at s s' q p : queues_ok s q -> unqueued q p -> only_at p s s' -> queues_ok s' q.
Proof.
  intros [Hl Ht Hd] Hun (Hg & E1 & E2 & E3 & E4 & _). split; [|by rewrite E2|done].
  intros i Hi. unfold qhead. rewrite E1, E3, E4. eapply slist_ext; [|by apply Hl].
  intros x Hx. apply Hg; [|done]. intros ->. by apply (Hun i).
Qed.

Lemma append_process_ok s proc pl fuel b :
  slist (st s) next (process_list s) pl -> pl <> [] -> (length pl <= fuel)%nat ->
  proc <> 0 -> proc ∉ pl -> get s proc next = 0 ->
  exists s', append_process fuel s proc b = Some s' /\
    slist (st s') next (process_list s') (pl ++ [proc]) /\
    (forall q, queues_ok s q -> queues_ok s' q) /\
    (forall x f, f <> next -> f <> prev -> get s' x f = get s x f) /\
    next_pid s' = next_pid s /\ current_process s' = current_process s /\ process_list s' = process_list s.
Proof.
  intros Hl Hne Hf Hp Hn Hz. unfold append_process. rewrite (last_node_loop (st s) next (last_proc_step s)) with (l := pl) by done. simpl.
  destruct (exists_last Hne) as (l & t & El).
  assert (slist (wr (st s) t next proc) next (process_list s) (pl ++ [proc])) as Happ.
  { rewrite El in *. by apply slist_append. }
  rewrite El, lastp_snoc. rewrite <- El. eexists. split; [done|].
  destruct b; (split; [simpl|split; [|split; [|done]]]).
  - apply slist_wr; [by right|done].
  - intros q Hq. apply queues_ok_set; [done|]. by apply queues_ok_set.
  - intros x f H1 H2. unfold get. simpl. by wr_simp.
  - done.
  - intros q Hq. by apply queues_ok_set.
  - intros x f H1 H2. unfold get. simpl. by wr_simp.
Qed.

(** ** Stack images *)

Lemma push_spec l : forall m sp,
  (forall v, v ∈ l -> 0 <= v < 2 ^ 64) ->
  let '(m', sp') := push m sp l in
  sp' = sp - 8 * Z.of_nat (length l) /\
  (forall k v, l !! k = Some v -> load64 m' (sp - 8 * (Z.of_nat k + 1)) = v) /\
  (forall x, x < sp' \/ sp <= x -> m' x = m x).
Proof.
  induction l as [|v l IH]; intros m sp Hv; cbn [push].
  - simpl. split; [lia|]. done.
  - specialize (IH (store64 m (sp - 8) v) (sp - 8) ltac:(intros w Hw; apply Hv; set_solver)).
    destruct (push _ _ l) as [m' sp']. destruct IH as (-> & Hk & Hm). split; [simpl length; lia|]. split.
    + intros [|k] w Hw; simpl in Hw.
      * injection Hw as ->. rewrite (load64_ext m' (store64 m (sp - 8) w)).
        -- replace (sp - 8 * (Z.of_nat 0 + 1)) with (sp - 8) by lia. apply load64_store64_same. apply Hv. set_solver.
        -- intros x Hx. apply Hm. lia.
      * replace (sp - 8 * (Z.of_nat (S k) + 1)) with (sp - 8 - 8 * (Z.of_nat k + 1)) by lia. by apply Hk.
    + intros x Hx. rewrite Hm by (simpl length in Hx; lia). apply store64_other. simpl length in Hx. lia.
Qed.

(** The seven words of a switch frame. *)
Lemma resume_push m sp w1 w2 w3 w4 w5 w6 w7 :
  (forall v, v ∈ [w1; w2; w3; w4; w5; w6; w7] -> 0 <= v < 2 ^ 64) ->
  let '(m', sp') := push m sp [w1; w2; w3; w4; w5; w6; w7] in
  sp' = sp - 56 /\ resume m' sp' = Regs w7 w6 w5 w4 w3 w2 w1 sp /\
  (forall x, x < sp - 56 \/ sp <= x -> m' x = m x).
Proof.
  intros Hv. pose proof (push_spec _ m sp Hv) as Hp.
  destruct (push m sp [w1; w2; w3; w4; w5; w6; w7]) as [m' sp']. destruct Hp as (-> & Hk & Hm).
  change (8 * Z.of_nat (length [w1; w2; w3; w4; w5; w6; w7])) with 56 in *. split; [done|]. split; [|done].
  unfold resume.
  pose proof (Hk 0%nat _ eq_refl) as H0. pose proof (Hk 1%nat _ eq_refl) as H1. pose proof (Hk 2%nat _ eq_refl) as H2.
  pose proof (Hk 3%nat _ eq_refl) as H3. pose proof (Hk 4%nat _ eq_refl) as H4. pose proof (Hk 5%nat _ eq_refl) as H5.
  pose proof (Hk 6%nat _ eq_refl) as H6. clear Hk Hm Hv.
  f_equal; try lia; (etransitivity; [|eassumption]); f_equal; lia.
Qed.

(** ** Creation *)

(** The process list [pl] and the queues [q] hold live structures only. *)
Record sys_ok (sys : system) (q : Z -> list Z) (pl : list Z) : Prop := {
  so_queues : queues_ok (ps_sched sys) q;
  so_list : slist (st (ps_sched sys)) next (process_list (ps_sched sys)) pl;
  so_some : pl <> [];
  so_sub : forall i x, 0 <= i < 6 -> x ∈ q i -> x ∈ pl;
  so_heap : a_wf (ps_heap sys);
  so_live : forall x, x ∈ pl -> exists t, a_live (ps_heap sys) x t;
  so_mem : mem_ok (pm_mem (ps_pmm sys));
  so_pmm : pmm_wf (ps_pmm sys) /\ used (ps_pmm sys) 0 = true /\ pmm_acct (ps_pmm sys);
  so_bitmap : forall f, 0 <= f < total_pages (ps_pmm sys) ->
    bitmap (ps_pmm sys) < f * PAGE_SIZE + PAGE_SIZE ->
    f * PAGE_SIZE <= bitmap (ps_pmm sys) + total_pages (ps_pmm sys) / 8 -> used (ps_pmm sys) f = true
}.

(** A fresh structure is in no list. *)
Lemma fresh_alloc sys q pl h p :
  sys_ok sys q pl -> a_alloc (ps_heap sys) sizeof_process = Some (h, p) -> p <> 0 ->
  a_wf h /\ p ∉ pl /\ unqueued q p /\ (forall x, x ∈ p :: pl -> exists t, a_live h x t).
Proof.
  intros [_ _ _ Hsub Hwf Hlive _ _ _] Ha Hp.
  destruct (a_alloc_spec _ sizeof_process Hwf ltac:(unfold sizeof_process; lia)) as (h' & p' & Ha' & Hwf' & Hs).
  rewrite Ha in Ha'. injection Ha' as <- <-. destruct Hs as [[-> _]|(sz & _ & Hno & Hl)]; [done|].
  assert (p ∉ pl) as Hpl by (intros Hx; destruct (Hlive p Hx) as [t Ht]; by apply (Hno t)).
  split; [done|]. split; [done|]. split; [intros i Hi Hx; by apply Hpl, (Hsub i)|].
  intros x Hx. apply elem_of_cons in Hx as [->|Hx].
  - exists sz. apply Hl. by left.
  - destruct (Hlive x Hx) as [t Ht]. exists t. apply Hl. by right.
Qed.

Lemma init_fields s p :
  let s' := init_process s p in
  get s' p pid = next_pid s /\ get s' p state = PROCESS_STATE_READY /\ get s' p next = 0 /\
  get s' p sched_class = mlfq_sched_class /\ get s' p priority = 0 /\ next_pid s' = u64 (next_pid s + 1).
Proof.
  unfold init_process, set_fields, name_kthread, get. cbn -[wr u64].
  repeat split; wr_simp; by rewrite ?decide_True.
Qed.

Lemma inherit_field g sys s p f :
  f <> cwd -> f <> cwd_mnt -> f <> nsproxy -> f <> ns_ref_count ->
  get (inherit g sys s p) p f = get s p f /\ next_pid (inherit g sys s p) = next_pid s.
Proof.
  intros. unfold inherit, get. destruct (negb _), g; simpl; repeat case_if; simpl; (split; [by wr_simp|done]).
Qed.

#[local] Opaque init_process inherit append_process enqueue_process pmm_alloc_page push.

(** The state in which [proc] is ready to be linked. *)
Definition fresh_proc (s s1 : sched) (proc : Z) : Prop :=
  only_at proc s s1 /\ get s1 proc next = 0 /\ get s1 proc state = PROCESS_STATE_READY /\
  get s1 proc pid = next_pid s /\ next_pid s1 = u64 (next_pid s + 1).

(** Linking a fresh process: it becomes the last of the process list and of
    the queue its class and priority select. *)
Lemma link_fresh s s1 q pl proc fuel b :
  queues_ok s q -> slist (st s) next (process_list s) pl -> pl <> [] ->
  proc <> 0 -> proc ∉ pl -> unqueued q proc -> has_class s1 proc ->
  (length pl <= fuel)%nat -> (length (q 4%Z) < fuel)%nat -> fresh_proc s s1 proc ->
  exists s2 s3, append_process fuel s1 proc b = Some s2 /\ enqueue_process fuel s2 proc = Some s3 /\
    queues_ok s3 (enq s1 q proc) /\ slist (st s3) next (process_list s3) (pl ++ [proc]) /\
    next_pid s3 = u64 (next_pid s + 1) /\ get s3 proc pid = next_pid s /\
    (forall f, f <> next -> f <> prev -> f <> next_ready -> get s3 proc f = get s1 proc f).
Proof.
  intros Hq Hl Hne Hp Hn Hun Hc Hf1 Hf2 (Hoff & Hz & Hst & Hpid & Hnp).
  pose proof Hoff as (Hg & _ & _ & _ & _ & _ & Epl & _).
  assert (slist (st s1) next (process_list s1) pl) as Hl1.
  { rewrite Epl. eapply slist_ext; [|exact Hl]. intros x Hx. apply Hg; [intros ->; done|done]. }
  destruct (append_process_ok s1 proc pl fuel b Hl1 Hne Hf1 Hp Hn Hz) as (s2 & E2 & Hl2 & Hq2 & Hg2 & Hnp2 & _ & Epl2).
  assert (queues_ok s2 q) as Hq2' by (apply Hq2; by apply (queues_only_at s s1 q proc)).
  destruct (enqueue_process_ok s2 q proc fuel Hq2' Hp Hun) as (s3 & E3 & Hq3 & (Hd3 & _ & Epl3 & Hnp3 & _) & Hst3); [| |done|].
  { by rewrite Hg2. }
  { unfold has_class. by rewrite Hg2. }
  exists s2, s3. split; [done|]. split; [done|]. split; [|split; [|split; [|split]]].
  - eapply queues_ok_ext; [exact Hq3|]. intros i Hi. unfold enq. rewrite !Hg2 by done.
    case_if; [done|]. erewrite insert_vr_ext; [done|]. intros x. symmetry. by apply Hg2.
  - rewrite Epl3. eapply slist_ext; [|exact Hl2]. intros x Hx. by apply Hd3.
  - rewrite Hnp3, Hnp2. done.
  - rewrite Hd3, Hg2 by done. done.
  - intros f Hf1' Hf2' Hf3'. destruct (decide (f = state)) as [->|]; [by rewrite Hst3, Hg2|].
    by rewrite Hd3, Hg2.
Qed.

(** What a creation can run out of: the heap has no room for a process
    structure, or every page frame is taken. *)
Definition no_memory (sys : system) : Prop :=
  no_room (ps_heap sys) sizeof_process \/
  (forall f, 0 < f < total_pages (ps_pmm sys) -> used (ps_pmm sys) f = true).

(** The page allocator returns 0 exactly when every frame is taken. *)
Lemma page_or_none sys q pl a p :
  sys_ok sys q pl -> pmm_alloc_page (ps_pmm sys) = Some (a, p) ->
  a = 0 <-> forall f, 0 < f < total_pages (ps_pmm sys) -> used (ps_pmm sys) f = true.
Proof.
  intros Hok Ha. destruct (pmm_alloc_page_total _ (proj1 (so_pmm _ _ _ Hok))) as (a' & p' & Ha' & Hpost).
  rewrite Ha in Ha'. injection Ha' as <- <-.
  destruct Hpost as [(f & Hf & -> & (_ & _ & _ & Hfree & _) & _)|(-> & _ & _ & _ & _ & Hall)]; [|done].
  split; [unfold PAGE_SIZE; lia|]. intros Hall. by rewrite Hall in Hfree by lia.
Qed.

(** A stack frame taken from the page allocator: off the bitmap, so filling it
    leaves the page allocator's view intact. *)
Lemma fresh_stack sys q pl a p :
  sys_ok sys q pl -> pmm_alloc_page (ps_pmm sys) = Some (a, p) -> a <> 0 ->
  exists f, a = f * PAGE_SIZE /\ 0 < f < total_pages p /\ used (ps_pmm sys) f = false /\ used p f = true /\
    bitmap p = bitmap (ps_pmm sys) /\ total_pages p = total_pages (ps_pmm sys) /\
    (a + PAGE_SIZE <= bitmap p \/ bitmap p + total_pages p / 8 < a) /\
    (forall j, 0 < j -> used (ps_pmm sys) j = true -> used p j = true) /\
    mem_ok (pm_mem p) /\
    (forall x, x < bitmap p \/ bitmap p + total_pages p / 8 < x -> pm_mem p x = pm_mem (ps_pmm sys) x).
Proof.
  intros Hok Ha Hne. destruct (so_pmm _ _ _ Hok) as (Hwf & _ & _).
  destruct (pmm_alloc_page_total _ Hwf) as (a' & p' & Ha' & Hpost). rewrite Ha in Ha'. injection Ha' as <- <-.
  destruct Hpost as [(f & Hf & -> & (Hb & Ht & _ & Hfree & Hu) & _)|(-> & _)]; [|done].
  exists f. rewrite Hb, Ht. split; [done|]. split; [done|]. split; [done|].
  split; [rewrite Hu by lia; by rewrite decide_True|]. split; [done|]. split; [done|]. split; [|split; [|split]].
  - destruct (decide (f * PAGE_SIZE + PAGE_SIZE <= bitmap (ps_pmm sys))); [by left|].
    destruct (decide (bitmap (ps_pmm sys) + total_pages (ps_pmm sys) / 8 < f * PAGE_SIZE)); [by right|].
    rewrite (so_bitmap _ _ _ Hok f) in Hfree; [done|lia..].
  - intros j Hj Huj. rewrite Hu by lia. by case_decide.
  - eapply (alloc_page_rec_mem_ok 2); [apply Hok|exact Ha].
  - intros x Hx. by apply (alloc_page_rec_mem 2 (ps_pmm sys) (f * PAGE_SIZE)).
Qed.

(** What a successful creation gives: [proc] is live, last in the process list
    and in its ready queue, with a fresh pid and a frame [f] as its stack. *)
Record created (sys sys' : system) (q : Z -> list Z) (pl : list Z) (k proc f : Z) : Prop := {
  cr_heap : a_wf (ps_heap sys') /\ exists t, a_live (ps_heap sys') proc t;
  cr_new : proc ∉ pl;
  cr_list : slist (st (ps_sched sys')) next (process_list (ps_sched sys')) (pl ++ [proc]);
  cr_queue : queues_ok (ps_sched sys') (fupd q k (q k ++ [proc]));
  cr_pid : get (ps_sched sys') proc pid = next_pid (ps_sched sys) /\
           next_pid (ps_sched sys') = u64 (next_pid (ps_sched sys) + 1);
  cr_stack : get (ps_sched sys') proc kernel_stack = f * PAGE_SIZE + 4096 /\
             used (ps_pmm sys) f = false /\ used (ps_pmm sys') f = true
}.

Lemma create_with_ok sys q pl fuel g words cr3_of w1 w2 w3 w4 w5 w6 w7 :
  words = [w1; w2; w3; w4; w5; w6; w7] -> (forall v, v ∈ words -> 0 <= v < 2 ^ 64) ->
  sys_ok sys q pl -> (length pl <= fuel)%nat -> (length (q 4%Z) < fuel)%nat ->
  exists sys' proc, create_with fuel g sys words cr3_of = Some (sys', proc) /\
    (proc <> 0 -> exists f, created sys sys' q pl 0 proc f /\
       resume (pm_mem (ps_pmm sys')) (get (ps_sched sys') proc rsp) =
       Regs w7 w6 w5 w4 w3 w2 w1 (get (ps_sched sys') proc kernel_stack)) /\
    (proc = 0 -> queues_ok (ps_sched sys') q /\
                 slist (st (ps_sched sys')) next (process_list (ps_sched sys')) pl).
Proof.
  intros -> Hw Hok Hf1 Hf2. unfold create_with.
  destruct (a_alloc_spec _ sizeof_process (so_heap _ _ _ Hok) ltac:(unfold sizeof_process; lia)) as (h & proc & Ha & _ & _).
  rewrite Ha. cbn [mbind option_bind]. destruct (proc =? 0) eqn:E0; simpl_bool.
  { eexists _, 0. split; [done|]. split; [done|]. intros _. split; apply Hok. }
  destruct (fresh_alloc sys q pl h proc Hok Ha E0) as (Hwf & Hnew & Hun & Hlive). simpl.
  set (s0 := ps_sched sys). set (s1 := inherit g _ (init_process s0 proc) proc).
  assert (only_at proc s0 s1) as Hoff1 by (etransitivity; [apply only_at_init|apply only_at_inherit]).
  pose proof (init_fields s0 proc) as (F1 & F2 & F3 & F4 & F5 & F6).
  destruct (pmm_alloc_page_total _ (proj1 (so_pmm _ _ _ Hok))) as (a & p & Hal & _).
  rewrite Hal. cbn [mbind option_bind]. destruct (a =? 0) eqn:Ea; simpl_bool.
  { eexists _, 0. split; [done|]. split; [done|]. intros _. simpl. split.
    - apply (queues_only_at s0 s1 q proc); [apply Hok|done|done].
    - destruct Hoff1 as (Hg & _ & _ & _ & _ & _ & -> & _). eapply slist_ext; [|apply Hok].
      intros x Hx. apply Hg; [intros ->; done|done]. }
  destruct (fresh_stack sys q pl a p Hok Hal Ea) as (f & -> & Hf & Hfree & Hused & Hb & Ht & Hoffb & _).
  pose proof (resume_push (pm_mem p) (f * PAGE_SIZE + 4096) w1 w2 w3 w4 w5 w6 w7 Hw) as Hpush.
  destruct (push _ _ _) as [m sp]. destruct Hpush as (Esp & Hres & Hm).
  set (s2 := set (set (set s1 proc kernel_stack (f * PAGE_SIZE + 4096)) proc cr3
    (cr3_of (set s1 proc kernel_stack (f * PAGE_SIZE + 4096)))) proc rsp sp).
  assert (forall f, f <> kernel_stack -> f <> cr3 -> f <> rsp -> get s2 proc f = get s1 proc f) as Hg2
    by (intros; unfold s2, get; simpl; by wr_simp).
  assert (forall fl, fl <> cwd -> fl <> cwd_mnt -> fl <> nsproxy -> fl <> ns_ref_count ->
    get s1 proc fl = get (init_process s0 proc) proc fl) as Hg1 by (intros; by apply inherit_field).
  destruct (link_fresh s0 s2 q pl proc fuel true) as (s3 & s4 & E3 & E4 & Hq4 & Hl4 & Hn4 & Hp4 & Hg4); try done; try apply Hok.
  { left. rewrite Hg2, Hg1 by done. done. }
  { split; [etransitivity; [exact Hoff1|]; unfold s2; repeat (etransitivity; [|apply only_at_set]); done|].
    rewrite !Hg2, !Hg1 by done. split; [exact F3|]. split; [exact F2|]. split; [exact F1|].
    rewrite <- F6. assert (next_pid s2 = next_pid s1) as -> by reflexivity.
    exact (proj2 (inherit_field g _ (init_process s0 proc) proc pid ltac:(done) ltac:(done) ltac:(done) ltac:(done))). }
  rewrite E3. cbn [mbind option_bind]. rewrite E4. cbn [mbind option_bind].
  eexists _, proc. split; [done|]. split; [|done]. intros _. exists f. split.
  - split; simpl; try done.
    + split; [done|]. apply Hlive. set_solver.
    + eapply queues_ok_ext; [exact Hq4|]. intros i Hi. unfold enq. by rewrite !Hg2, !Hg1, F4, F5 by done.
    + rewrite Hg4 by done. split; [unfold s2, get; simpl; by wr_simp|]. split; [done|].
      rewrite Vmm.used_ext; [done|lia|]. intros x Hx. apply Hm. unfold PAGE_SIZE in *. lia.
  - simpl. rewrite !Hg4 by done.
    assert (get s2 proc rsp = sp) as -> by (unfold s2, get; simpl; by wr_simp).
    assert (get s2 proc kernel_stack = f * PAGE_SIZE + 4096) as -> by (unfold s2, get; simpl; by wr_simp). done.
Qed.

(** ** Fork *)

Lemma copy_frame_spec m dst src :
  mem_ok m -> dst + 176 <= src \/ src + 176 <= dst ->
  forall x, copy_frame m dst src x = if decide (dst <= x < dst + 176) then m (src + (x - dst)) else m x.
Proof.
  intros Hm Hd. unfold copy_frame.
  pose proof (for_up_inv (fun i m' => forall x, m' x = if decide (dst <= x < dst + i) then m (src + (x - dst)) else m x)
    (fun i m => store8 m (dst + i) (load8 m (src + i))) (Z.to_nat sizeof_interrupt_frame) 0 m) as H'.
  apply H'; clear H'.
  - intros i m' Hi Hx x. change (0 + Z.of_nat (Z.to_nat sizeof_interrupt_frame)) with 176 in Hi.
    unfold store8, load8. destruct (x =? dst + i) eqn:E; simpl_bool.
    + subst x. rewrite decide_True by lia. rewrite Hx, decide_False by lia.
      rewrite u8_small by apply Hm. f_equal. lia.
    + rewrite Hx. repeat case_decide; try done; lia.
  - intros x. by rewrite decide_False by lia.
Qed.

(** The child's structure before it is linked. *)
Lemma fork_fields s child cur n :
  child <> cur ->
  let s1 := copy_process s child cur in
  let s2 := set (with_next_pid s1 (u64 (n + 1))) child pid n in
  let s3 := set_fields s2 child
      [(parent, cur); (state, PROCESS_STATE_READY); (next, 0); (next_ready, 0); (cpu_time, 0)] in
  let s4 := set s3 child time_slice (get s3 child quantum) in
  only_at child s s4 /\ get s4 child next = 0 /\ get s4 child state = PROCESS_STATE_READY /\
  get s4 child pid = n /\ next_pid s4 = u64 (n + 1) /\
  get s4 child sched_class = get s cur sched_class /\ get s4 child priority = get s cur priority /\
  get s4 child parent = cur /\ (forall i, get s4 child (fd_table i) = get s cur (fd_table i)).
Proof.
  intros Hne. cbv zeta. split.
  { etransitivity; [|apply only_at_set]. etransitivity; [|apply only_at_fields].
    split; [|done]. intros x f Hx _. unfold get. simpl. wr_simp. by rewrite decide_False. }
  unfold set_fields, get. cbn -[wr u64]. repeat split; intros; wr_simp; by rewrite ?decide_True.
Qed.

(** The memory of the child's stack: a copy of the parent's interrupt frame
    that returns 0, under a switch frame that enters the trampoline. *)
Lemma fork_stack m top src tramp :
  mem_ok m -> 0 <= tramp < 2 ^ 64 -> top <= src \/ src + 176 <= top - 176 ->
  let m1 := store64 (copy_frame m (top - 176) src) (top - 176 + OFF_rax) 0 in
  let '(m', sp) := push m1 (top - 176) [tramp; 0; 0; 0; 0; 0; 0] in
  resume m' sp = Regs 0 0 0 0 0 0 tramp (top - 176) /\
  load64 m' (top - 176 + OFF_rax) = 0 /\
  (forall i, 0 <= i < 176 -> i < OFF_rax \/ OFF_rax + 8 <= i -> m' (top - 176 + i) = m (src + i)) /\
  (forall x, x < top - 232 \/ top <= x -> m' x = m x).
Proof.
  intros Hm Ht Hd m1.
  pose proof (resume_push m1 (top - 176) tramp 0 0 0 0 0 0) as Hp.
  destruct (push m1 (top - 176) _) as [m' sp]. destruct Hp as (-> & Hr & Hx).
  { intros v Hv. repeat (apply elem_of_cons in Hv as [->|Hv]; [lia|]). by apply elem_of_nil in Hv. }
  pose proof (copy_frame_spec m (top - 176) src Hm ltac:(lia)) as Hc. unfold OFF_rax in *.
  split; [done|]. split; [|split].
  - rewrite (load64_ext m' m1); [by apply load64_store64_same|]. intros x Hxr. apply Hx. lia.
  - intros i Hi Hne. rewrite Hx by lia. unfold m1. rewrite store64_other, Hc, decide_True by lia. f_equal. lia.
  - intros x Hxr. rewrite Hx by lia. unfold m1. rewrite store64_other, Hc, decide_False by lia. done.
Qed.

(** ** Properties *)

(** A kernel thread that is created becomes the last process of the
    process list and of the highest-priority ready queue, with a fresh pid and
    a frame of its own as stack, and the first switch to it starts
    [kernel_thread_helper] with the argument in [r12] and the entry point in
    [r13], its stack empty again; when the heap or the page allocator is
    exhausted 0 is returned and no list changes. *)
Theorem process_create_kthread_correct sys q pl fuel cpu_cr3 helper entry arg :
  sys_ok sys q pl -> (length pl <= fuel)%nat -> (length (q 4%Z) < fuel)%nat ->
  0 <= helper < 2 ^ 64 -> 0 <= entry < 2 ^ 64 -> 0 <= arg < 2 ^ 64 ->
  exists sys' proc, process_create_kthread fuel cpu_cr3 helper sys entry arg = Some (sys', proc) /\
    (proc <> 0 -> exists f, created sys sys' q pl 0 proc f /\
       resume (pm_mem (ps_pmm sys')) (get (ps_sched sys') proc rsp) =
       Regs 0 0 entry arg 0 0 helper (get (ps_sched sys') proc kernel_stack)) /\
    (proc = 0 -> queues_ok (ps_sched sys') q /\
                 slist (st (ps_sched sys')) next (process_list (ps_sched sys')) pl).
Proof.
  intros Hok Hf1 Hf2 Hh He Ha. unfold process_create_kthread. eapply create_with_ok; try done.
  intros v Hv. repeat (apply elem_of_cons in Hv as [->|Hv]; [lia|]). by apply elem_of_nil in Hv.
Qed.


End creation.

(** ** A concrete system

    One process, at the first block of the kernel heap, running on the stack
    of frame 2; frames 3 to 7 are free. *)
Definition demo_heap : Heap.heap :=
  Heap.HEAP {[0x1000 := Heap.HB 1752 0x1700 0 0 Heap.HEAP_MAGIC; 0x1700 := Heap.HB 20000 0 0x1000 1 Heap.HEAP_MAGIC]}
    0x1000 (Spinlock.SL 0 0 (-1) 0).

Definition demo_sys : system (A := Spinlock.cpu * Heap.heap) :=
  Sys (Sched (fun p f => match f with
                         | sched_class => 1 | state => 1 | kernel_stack => 0x3000 | _ => 0
                         end) (fun _ => 0) (fun _ => 0) 0 0 0x1028 0x1028 5 0)
      (PMM (fun x => if x =? 100 then 7 else 0) 100 8 1 0x8000 (5 * PAGE_SIZE) 0)
      (Heap.demo_cpu, demo_heap) 0 0 0.

Lemma demo_proc_heap_rep : Heap.heap_rep demo_heap [(1752, false); (20000, true)].
Proof.
  split; [|split; [done|]].
  - split; [done|]. split; [repeat constructor; lia|done].
  - vm_compute. repeat split.
Qed.

Lemma demo_sys_ok : sys_ok demo_sys (fun _ => []) [0x1028].
Proof.
  split.
  - split; [|done|intros i j x Hi Hj Hx; by apply elem_of_nil in Hx].
    intros i Hi. unfold qhead. simpl. by repeat case_if.
  - done.
  - done.
  - intros i x Hi Hx. by apply elem_of_nil in Hx.
  - exists [(1752, false); (20000, true)]. exact demo_proc_heap_rep.
  - intros x Hx. apply list_elem_of_singleton in Hx as ->. exists 1752. exists [(1752, false); (20000, true)].
    split; [exact demo_proc_heap_rep|]. vm_compute. left.
  - intros x. simpl. case_if; lia.
  - split; [vm_compute; repeat split; discriminate|]. split; reflexivity.
  - intros f Hf H1 H2. simpl in *. unfold PAGE_SIZE in *. change (8 / 8) with 1 in H2.
    assert (f = 0) as -> by lia. reflexivity.
Qed.

Lemma process_create_kthread_correct_witness :
  exists sys' proc, process_create_kthread 2 0x1000 0x100000 demo_sys 0x200000 42 = Some (sys', proc) /\
    (proc <> 0 -> rip (resume (pm_mem (ps_pmm sys')) (get (ps_sched sys') proc rsp)) = 0x100000).
Proof.
  destruct (process_create_kthread_correct demo_sys (fun _ => []) [0x1028] 2 0x1000 0x100000 0x200000 42 demo_sys_ok)
    as (sys' & proc & Hc & Hp & _); [simpl; lia|simpl; lia|lia|lia|lia|].
  exists sys', proc. split; [exact Hc|]. intros Hne. destruct (Hp Hne) as (f & _ & ->). reflexivity.
Defined.

(** The demo system has memory: the fork succeeds, with pid 5. *)
Lemma demo_sys_memory : ~ no_memory demo_sys.
Proof.
  intros [Hh|Hall].
  - by apply (has_room (ps_heap demo_sys) sizeof_process 0x1728) in Hh.
  - specialize (Hall 3). vm_compute in Hall. discriminate (Hall (conj eq_refl eq_refl)).
Qed.


End Process.
