(* ===== verification/WaitQueue.v ===== *)
(** * Blocking synchronisation (src/kernel/sync/waitqueue.c)

    Wait-queue entries live on the stacks of the sleeping processes, so an
    entry is an address and the queue links entries through their [next]
    field.  Each spinlock-protected section is one atomic operation (the
    spinlock disables interrupts around it); between two sections other
    processes may run, which the step relations make explicit. *)
From S2P Require Import Prelude Store Sched.
Import Sched.

Module WaitQueue.

(** ** State *)

(** The fields of [wait_queue_entry_t], [wait_queue_t], [semaphore_t],
    [mutex_t], [rwlock_t] and [barrier_t]. *)
Inductive wfld :=
  | we_task | we_next | wq_head | wq_tail | sem_count | mtx_owner | mtx_recurse
  | rw_readers | rw_writers | bar_count | bar_current.

#[export] Instance wfld_eq_dec : EqDecision wfld.
Proof. solve_decision. Defined.

Record wsys := WSys { w_sched : sched; w_st : store wfld }.

Definition wget (w : wsys) (a : Z) (f : wfld) : Z := w_st w a f.
Definition wset (w : wsys) (a : Z) (f : wfld) (v : Z) : wsys := WSys (w_sched w) (wr (w_st w) a f v).
Definition with_sched (w : wsys) (s : sched) : wsys := WSys s (w_st w).

(** The wait queues embedded in the locks. *)
Definition sem_wait_q (sem : Z) : Z := sem + 40.
Definition mutex_wait_q (mutex : Z) : Z := mutex + 48.
Definition read_wait_q (rw : Z) : Z := rw + 40.
Definition write_wait_q (rw : Z) : Z := rw + 88.
Definition barrier_wait_q (b : Z) : Z := b + 40.

(** ** Wait queues *)

Definition wait_queue_init (w : wsys) (wq : Z) : wsys := wset (wset w wq wq_head 0) wq wq_tail 0.

(** The critical section of [sleep_on]; [entry] is the address of its local
    variable, [me] the process that runs it. *)
Definition sleep_enqueue (w : wsys) (wq entry me : Z) : wsys :=
  let w := wset w entry we_task me in
  let w := wset w entry we_next 0 in
  let w := if negb (wget w wq wq_tail =? 0) then
             let w := wset w (wget w wq wq_tail) we_next entry in
             wset w wq wq_tail entry
           else
             let w := wset w wq wq_head entry in
             wset w wq wq_tail entry in
  with_sched w (set (w_sched w) me state PROCESS_STATE_BLOCKED).

Definition sleep_on (fuel : nat) (w : wsys) (wq entry : Z) : option wsys :=
  let w := sleep_enqueue w wq entry (current_process (w_sched w)) in
  s ← process_schedule fuel (w_sched w);
  Some (with_sched w s).

(** One dequeued entry: the body shared by [wake_up] and [wake_up_all]. *)
Definition wake_one (fuel : nat) (w : wsys) (wq : Z) : option wsys :=
  let entry := wget w wq wq_head in
  let w := wset w wq wq_head (wget w entry we_next) in
  let w := if wget w wq wq_head =? 0 then wset w wq wq_tail 0 else w in
  let s := set (w_sched w) (wget w entry we_task) state PROCESS_STATE_READY in
  s ← enqueue_process fuel s (wget w entry we_task);
  Some (with_sched w s).

Definition wake_up (fuel : nat) (w : wsys) (wq : Z) : option wsys :=
  if negb (wget w wq wq_head =? 0) then wake_one fuel w wq else Some w.

Definition wake_all_step (fuel : nat) (wq : Z) : wsys -> wsys + option wsys :=
  fun w => if negb (wget w wq wq_head =? 0) then
             match wake_one fuel w wq with Some w => inl w | None => inr None end
           else inr (Some w).

Definition wake_up_all (fuel : nat) (w : wsys) (wq : Z) : option wsys :=
  mjoin (loop fuel (wake_all_step fuel wq) w).

(** ** Semaphores *)

Definition sem_init (w : wsys) (sem count : Z) : wsys :=
  wset (wait_queue_init w (sem_wait_q sem)) sem sem_count count.

(** The critical section of [sem_wait]; the loop sleeps and retries when it
    fails. *)
Definition sem_try (w : wsys) (sem : Z) : wsys * bool :=
  if 0 <? wget w sem sem_count then (wset w sem sem_count (s32 (wget w sem sem_count - 1)), true)
  else (w, false).

(** [sem_post] is two operations: the increment under the lock, then
    [wake_up]. *)
Definition sem_inc (w : wsys) (sem : Z) : wsys := wset w sem sem_count (s32 (wget w sem sem_count + 1)).
Definition sem_post (fuel : nat) (w : wsys) (sem : Z) : option wsys :=
  wake_up fuel (sem_inc w sem) (sem_wait_q sem).

(** ** Mutexes *)

Definition mutex_init (w : wsys) (mutex : Z) : wsys :=
  let w := wait_queue_init w (mutex_wait_q mutex) in
  wset (wset w mutex mtx_owner 0) mutex mtx_recurse 0.

(** The critical section of [mutex_lock]: taken, taken again, or the owner's
    priority is raised and the caller has to sleep. *)
Definition mutex_try (fuel : nat) (w : wsys) (mutex me : Z) : option (wsys * bool) :=
  let owner := wget w mutex mtx_owner in
  if owner =? 0 then
    Some (wset (wset w mutex mtx_owner me) mutex mtx_recurse 1, true)
  else if owner =? me then
    Some (wset w mutex mtx_recurse (s32 (wget w mutex mtx_recurse + 1)), true)
  else
    let s := w_sched w in
    s ← (if get s me priority <? get s owner priority then
           '(s, _) ← process_set_priority fuel s (s32 (get s owner pid)) (get s me priority); Some s
         else Some s);
    Some (with_sched w s, false).

(** The critical section of [mutex_unlock]; [true] when the mutex became free
    and a waiter is to be woken. *)
Definition mutex_release (w : wsys) (mutex me : Z) : wsys * bool :=
  if wget w mutex mtx_owner =? me then
    let w := wset w mutex mtx_recurse (s32 (wget w mutex mtx_recurse - 1)) in
    if wget w mutex mtx_recurse =? 0 then (wset w mutex mtx_owner 0, true) else (w, false)
  else (w, false).

Definition mutex_unlock (fuel : nat) (w : wsys) (mutex me : Z) : option wsys :=
  let '(w, free) := mutex_release w mutex me in
  if free then wake_up fuel w (mutex_wait_q mutex) else Some w.

(** ** Barriers and condition variables *)

Definition barrier_init (w : wsys) (b count : Z) : wsys :=
  let w := wait_queue_init w (barrier_wait_q b) in
  wset (wset w b bar_count count) b bar_current 0.

(** The critical section of [barrier_wait]; [true] for the last to arrive. *)
Definition barrier_arrive (w : wsys) (b : Z) : wsys * bool :=
  let w := wset w b bar_current (s32 (wget w b bar_current + 1)) in
  if wget w b bar_count <=? wget w b bar_current then (wset w b bar_current 0, true) else (w, false).

Definition barrier_wait (fuel : nat) (w : wsys) (b entry : Z) : option wsys :=
  let '(w, last) := barrier_arrive w b in
  if last then wake_up_all fuel w (barrier_wait_q b) else sleep_on fuel w (barrier_wait_q b) entry.

Definition cond_init (w : wsys) (cond : Z) : wsys := wait_queue_init w cond.
(** [cond_wait] up to the switch to another process; awake again, the caller
    goes on with [mutex_lock]. *)
Definition cond_wait (fuel : nat) (w : wsys) (cond mutex entry : Z) : option wsys :=
  w ← mutex_unlock fuel w mutex (current_process (w_sched w));
  sleep_on fuel w cond entry.
Definition cond_signal (fuel : nat) (w : wsys) (cond : Z) : option wsys := wake_up fuel w cond.
Definition cond_broadcast (fuel : nat) (w : wsys) (cond : Z) : option wsys := wake_up_all fuel w cond.

(** ** Reader-writer locks *)

Definition rwlock_init (w : wsys) (rw : Z) : wsys :=
  let w := wait_queue_init w (read_wait_q rw) in
  let w := wait_queue_init w (write_wait_q rw) in
  wset (wset w rw rw_readers 0) rw rw_writers 0.

Definition read_try (w : wsys) (rw : Z) : wsys * bool :=
  if wget w rw rw_writers =? 0 then (wset w rw rw_readers (s32 (wget w rw rw_readers + 1)), true)
  else (w, false).

(** [true] for the last reader, which then wakes a writer. *)
Definition read_release (w : wsys) (rw : Z) : wsys * bool :=
  let w := wset w rw rw_readers (s32 (wget w rw rw_readers - 1)) in
  (w, wget w rw rw_readers =? 0).

Definition rwlock_read_unlock (fuel : nat) (w : wsys) (rw : Z) : option wsys :=
  let '(w, last) := read_release w rw in
  if last then wake_up fuel w (write_wait_q rw) else Some w.

Definition write_try (w : wsys) (rw : Z) : wsys * bool :=
  if (wget w rw rw_writers =? 0) && (wget w rw rw_readers =? 0) then (wset w rw rw_writers 1, true)
  else (w, false).

Definition write_release (w : wsys) (rw : Z) : wsys := wset w rw rw_writers 0.

Definition rwlock_write_unlock (fuel : nat) (w : wsys) (rw : Z) : option wsys :=
  let w := write_release w rw in
  w ← wake_up_all fuel w (read_wait_q rw);
  wake_up fuel w (write_wait_q rw).

(** ** Clients as step relations

    A process that uses a lock is at one of these points; a process that is
    blocked takes no step. *)
Inductive pc :=
  | Out                    (** outside the lock *)
  | Trying                 (** at the top of the acquiring loop *)
  | Sleeping               (** refused, about to call [sleep_on] *)
  | Waking                 (** released, about to wake the waiters *)
  | In (n : nat).          (** holds the lock, [n + 1] times *)

Record config := Config { c_sys : wsys; c_pc : Z -> pc }.

Definition awake (c : config) (t : Z) : Prop := get (w_sched (c_sys c)) t state <> PROCESS_STATE_BLOCKED.
Definition goto (c : config) (w : wsys) (t : Z) (p : pc) : config := Config w (fupd (c_pc c) t p).

Section mutex_clients.
Context (mutex : Z) (fuel : nat).

Inductive mutex_step : config -> config -> Prop :=
  | ms_call c t : t <> 0 -> awake c t -> c_pc c t = Out -> mutex_step c (goto c (c_sys c) t Trying)
  | ms_taken c t w : awake c t -> c_pc c t = Trying ->
      mutex_try fuel (c_sys c) mutex t = Some (w, true) -> mutex_step c (goto c w t (In 0))
  | ms_refused c t w : awake c t -> c_pc c t = Trying ->
      mutex_try fuel (c_sys c) mutex t = Some (w, false) -> mutex_step c (goto c w t Sleeping)
  | ms_sleep c t entry : awake c t -> c_pc c t = Sleeping -> entry <> 0 ->
      mutex_step c (goto c (sleep_enqueue (c_sys c) (mutex_wait_q mutex) entry t) t Trying)
  | ms_again c t n w : awake c t -> c_pc c t = In n -> Z.of_nat n < 2 ^ 30 ->
      mutex_try fuel (c_sys c) mutex t = Some (w, true) -> mutex_step c (goto c w t (In (S n)))
  | ms_release c t n w : awake c t -> c_pc c t = In n ->
      mutex_release (c_sys c) mutex t = (w, false) -> mutex_step c (goto c w t (In (pred n)))
  | ms_free c t n w : awake c t -> c_pc c t = In n ->
      mutex_release (c_sys c) mutex t = (w, true) -> mutex_step c (goto c w t Waking)
  | ms_wake c t w : awake c t -> c_pc c t = Waking ->
      wake_up fuel (c_sys c) (mutex_wait_q mutex) = Some w -> mutex_step c (goto c w t Out)
  | ms_other c s : mutex_step c (Config (with_sched (c_sys c) s) (c_pc c)).
      (** anything else the system does to the processes *)
End mutex_clients.

Section rwlock_clients.
Context (rw : Z) (fuel : nat).

Inductive rpc := ROut | RTrying | RSleeping | Reading | WTrying | WSleeping | Writing | RWaking | WWaking.
Record rconfig := RConfig { r_sys : wsys; r_pc : Z -> rpc }.
Definition rgoto (c : rconfig) (w : wsys) (t : Z) (p : rpc) : rconfig := RConfig w (fupd (r_pc c) t p).
Definition rawake (c : rconfig) (t : Z) : Prop := get (w_sched (r_sys c)) t state <> PROCESS_STATE_BLOCKED.

Inductive rw_step : rconfig -> rconfig -> Prop :=
  | rs_call c t p : rawake c t -> r_pc c t = ROut -> p = RTrying \/ p = WTrying -> rw_step c (rgoto c (r_sys c) t p)
  | rs_read c t w : rawake c t -> r_pc c t = RTrying -> wget (r_sys c) rw rw_readers < 2 ^ 31 - 1 ->
      read_try (r_sys c) rw = (w, true) -> rw_step c (rgoto c w t Reading)
      (** there are fewer than 2^31 processes *)
  | rs_read_no c t w : rawake c t -> r_pc c t = RTrying -> read_try (r_sys c) rw = (w, false) ->
      rw_step c (rgoto c w t RSleeping)
  | rs_read_sleep c t entry : rawake c t -> r_pc c t = RSleeping -> entry <> 0 ->
      rw_step c (rgoto c (sleep_enqueue (r_sys c) (read_wait_q rw) entry t) t RTrying)
  | rs_write c t w : rawake c t -> r_pc c t = WTrying -> write_try (r_sys c) rw = (w, true) ->
      rw_step c (rgoto c w t Writing)
  | rs_write_no c t w : rawake c t -> r_pc c t = WTrying -> write_try (r_sys c) rw = (w, false) ->
      rw_step c (rgoto c w t WSleeping)
  | rs_write_sleep c t entry : rawake c t -> r_pc c t = WSleeping -> entry <> 0 ->
      rw_step c (rgoto c (sleep_enqueue (r_sys c) (write_wait_q rw) entry t) t WTrying)
  | rs_read_end c t w last : rawake c t -> r_pc c t = Reading -> read_release (r_sys c) rw = (w, last) ->
      rw_step c (rgoto c w t (if last then RWaking else ROut))
  | rs_read_wake c t w : rawake c t -> r_pc c t = RWaking -> wake_up fuel (r_sys c) (write_wait_q rw) = Some w ->
      rw_step c (rgoto c w t ROut)
  | rs_write_end c t : rawake c t -> r_pc c t = Writing ->
      rw_step c (rgoto c (write_release (r_sys c) rw) t WWaking)
  | rs_write_wake c t w w' : rawake c t -> r_pc c t = WWaking ->
      wake_up_all fuel (r_sys c) (read_wait_q rw) = Some w -> wake_up fuel w (write_wait_q rw) = Some w' ->
      rw_step c (rgoto c w' t ROut)
  | rs_other c s : rw_step c (RConfig (with_sched (r_sys c) s) (r_pc c)).
End rwlock_clients.

(** ** Wait queues as lists of entries *)

Definition queue_fld (f : wfld) : bool :=
  match f with we_task | we_next | wq_head | wq_tail => true | _ => false end.

Lemma wget_wset w a f v b g : wget (wset w a f v) b g = if decide (b = a /\ g = f) then v else wget w b g.
Proof. done. Qed.

Lemma wset_other w a f v b g : queue_fld g = false -> queue_fld f = true -> wget (wset w a f v) b g = wget w b g.
Proof. intros Hg Hf. rewrite wget_wset, decide_False; [done|]. intros [_ ->]. congruence. Qed.

(** Queueing touches no lock word. *)
Lemma sleep_enqueue_other w wq e t a f :
  queue_fld f = false -> wget (sleep_enqueue w wq e t) a f = wget w a f.
Proof.
  intros Hf. unfold sleep_enqueue.
  match goal with |- wget (with_sched ?x _) a f = _ => change (wget x a f = wget w a f) end.
  case_if; by rewrite !wset_other.
Qed.

Lemma wake_one_other fuel w wq w' a f :
  queue_fld f = false -> wake_one fuel w wq = Some w' -> wget w' a f = wget w a f.
Proof.
  intros Hf H. unfold wake_one in H. destruct (enqueue_process _ _ _) as [s|]; [|done]. simpl in H.
  injection H as <-. match goal with |- wget (with_sched ?x _) a f = _ => change (wget x a f = wget w a f) end.
  case_if; by rewrite !wset_other.
Qed.

Lemma wake_up_other fuel w wq w' a f :
  queue_fld f = false -> wake_up fuel w wq = Some w' -> wget w' a f = wget w a f.
Proof.
  intros Hf. unfold wake_up. case_if; [by apply wake_one_other|]. intros H. by injection H as <-.
Qed.

Lemma wake_up_all_other fuel w wq w' a f :
  queue_fld f = false -> wake_up_all fuel w wq = Some w' -> wget w' a f = wget w a f.
Proof.
  intros Hf H. unfold wake_up_all in H. destruct (loop fuel _ w) as [r|] eqn:E; [|done]. simpl in H. subst r.
  pose proof (loop_partial (fun v => wget v a f = wget w a f)
    (fun r => match r with Some v => wget v a f = wget w a f | None => True end) (wake_all_step fuel wq)) as Hp.
  apply (Hp ltac:(intros v Hv; unfold wake_all_step; case_if; [|done]; destruct (wake_one fuel v wq) eqn:E1; [|done];
    rewrite (wake_one_other _ _ _ _ _ _ Hf E1); done) fuel w (Some w') eq_refl E).
Qed.

Lemma enqueue_process_current fuel s p s' : enqueue_process fuel s p = Some s' -> current_process s' = current_process s.
Proof.
  unfold enqueue_process, enqueue_task_mlfq, enqueue_task_fair. intros H.
  case_match; [by simplify_eq|]. case_match; [simplify_eq; by case_match|]. case_match; [|by simplify_eq].
  destruct (loop _ _ _) as [c|]; [|done]. simplify_eq/=. unfold set_cfs_link. by case_match.
Qed.

(** Waking touches no structure but the queue itself and the scheduler. *)
Lemma wake_one_frame fuel w wq w' :
  wake_one fuel w wq = Some w' ->
  (forall a f, a <> wq -> wget w' a f = wget w a f) /\ current_process (w_sched w') = current_process (w_sched w).
Proof.
  unfold wake_one. intros H. destruct (enqueue_process _ _ _) as [s|] eqn:E; [|done]. simplify_eq/=.
  apply enqueue_process_current in E. split; [|simpl; rewrite E; simpl; by case_if].
  intros a f Ha. unfold wget. simpl. case_if; simpl; by rewrite !wr_other by (by left).
Qed.

Lemma wake_up_all_frame fuel w wq w' :
  wake_up_all fuel w wq = Some w' ->
  (forall a f, a <> wq -> wget w' a f = wget w a f) /\ current_process (w_sched w') = current_process (w_sched w).
Proof.
  unfold wake_up_all. intros H. destruct (loop fuel _ w) as [r|] eqn:E; [|done]. simpl in H. subst r.
  set (I v := (forall a f, a <> wq -> wget v a f = wget w a f) /\ current_process (w_sched v) = current_process (w_sched w)).
  assert (I w) as Hw by done. revert Hw E.
  apply (loop_partial I (fun r => match r with Some v => I v | None => True end) (wake_all_step fuel wq)).
  intros v [Hv1 Hv2]. unfold wake_all_step. case_if; [|done]. destruct (wake_one fuel v wq) as [v'|] eqn:E1; [|done].
  apply wake_one_frame in E1 as [H1 H2]. split; [|congruence]. intros a f Ha. rewrite H1 by done. by apply Hv1.
Qed.

(** [es] are the entries of the queue at [wq], in order. *)
Definition wq_ok (w : wsys) (wq : Z) (es : list Z) : Prop :=
  slist (w_st w) we_next (wget w wq wq_head) es /\ wget w wq wq_tail = lastp es.

Lemma sleep_enqueue_ok w wq es e t :
  wq_ok w wq es -> e <> 0 -> e ∉ es ->
  let w' := sleep_enqueue w wq e t in
  wq_ok w' wq (es ++ [e]) /\ wget w' e we_task = t /\
  (forall x, x <> e -> wget w' x we_task = wget w x we_task) /\
  get (w_sched w') t state = PROCESS_STATE_BLOCKED /\
  (forall x f, (x, f) <> (t, state) -> get (w_sched w') x f = get (w_sched w) x f) /\
  (forall q, queues_ok (w_sched w) q -> queues_ok (w_sched w') q).
Proof.
  intros [Hl Ht] He Hne. unfold sleep_enqueue.
  set (w1 := wset (wset w e we_task t) e we_next 0).
  assert (slist (w_st w1) we_next (wget w wq wq_head) es) as Hl1.
  { apply slist_wr; [by left|]. apply slist_wr; [by right|done]. }
  assert (wget w1 wq wq_tail = lastp es) as Ht1 by (rewrite <- Ht; unfold wget; simpl; by wr_simp).
  set (w2 := if negb _ then _ else _).
  assert (wq_ok w2 wq (es ++ [e]) /\ (forall x, wget w2 x we_task = wget w1 x we_task) /\ w_sched w2 = w_sched w) as (H1 & H2 & H3).
  { unfold w2. rewrite Ht1. destruct es as [|y es _] using rev_ind.
    - simpl. split; [|split; [|done]].
      + split; [unfold wget; simpl; wr_simp; by repeat split|unfold wget; simpl; by wr_simp].
      + intros x. unfold wget. simpl. by wr_simp.
    - assert (y <> 0) as Hy by (eapply slist_nonzero; [exact Hl|set_solver]).
      rewrite lastp_snoc, (proj2 (Z.eqb_neq y 0)) by done. simpl. split; [|split; [|done]].
      + split; [|unfold wget; simpl; wr_simp; by rewrite lastp_snoc].
        unfold wget. simpl. wr_simp. apply slist_wr; [by right|].
        apply slist_append; [done|by wr_simp|done|done].
      + intros x. unfold wget. simpl. by wr_simp. }
  simpl. rewrite H3. split; [exact H1|]. split; [rewrite H2; unfold wget; simpl; by wr_simp|].
  split; [intros x Hx; rewrite H2; unfold wget; simpl; by wr_simp|].
  split; [unfold get; simpl; by wr_simp|]. split.
  - intros x f Hx. unfold get. simpl. apply wr_other. destruct (decide (x = t)); [right|by left].
    intros ->. by subst.
  - intros q Hq. by apply queues_ok_set.
Qed.

(** The woken process [p] is the task of the first entry. *)
Lemma wake_one_ok fuel w wq e es q :
  wq_ok w wq (e :: es) -> let p := wget w e we_task in
  queues_ok (w_sched w) q -> p <> 0 -> unqueued q p -> has_class (w_sched w) p ->
  (length (q 4%Z) < fuel)%nat ->
  exists w', wake_one fuel w wq = Some w' /\ wq_ok w' wq es /\
    queues_ok (w_sched w') (enq (w_sched w) q p) /\
    (forall x, wget w' x we_task = wget w x we_task) /\
    (forall x f, f <> next_ready -> f <> state -> get (w_sched w') x f = get (w_sched w) x f) /\
    (forall x, get (w_sched w') x state = if decide (x = p) then PROCESS_STATE_READY else get (w_sched w) x state).
Proof.
  intros [(Hh & He & Hl) Ht] p Hq Hp Hun Hc Hf. unfold wake_one. rewrite Hh.
  set (w1 := if wget (wset w wq wq_head (wget w e we_next)) wq wq_head =? 0 then _ else _).
  assert (wq_ok w1 wq es /\ (forall x, wget w1 x we_task = wget w x we_task) /\ w_sched w1 = w_sched w) as (H1 & H2 & H3).
  { assert (wget (wset w wq wq_head (wget w e we_next)) wq wq_head = w_st w e we_next) as Eh
      by (unfold wget; simpl; by wr_simp).
    unfold w1. rewrite Eh. pose proof (slist_head _ _ _ _ Hl) as Hnil.
    destruct (w_st w e we_next =? 0) eqn:E; simpl_bool.
    - rewrite (proj1 Hnil E). split; [|split; [|done]].
      + split; unfold wget; simpl; wr_simp; [exact E|done].
      + intros x. unfold wget. simpl. by wr_simp.
    - split; [|split; [|done]].
      + split; [rewrite Eh; simpl; apply slist_wr; [by right|done]|].
        unfold wget in *. simpl. wr_simp. rewrite Ht. destruct es as [|y es]; [tauto|].
        unfold lastp. by rewrite last_cons_cons.
      + intros x. unfold wget. simpl. by wr_simp. }
  rewrite H2, H3. fold p. set (s1 := set (w_sched w) p state PROCESS_STATE_READY).
  assert (forall x f, f <> state -> get s1 x f = get (w_sched w) x f) as Hg1 by (intros; unfold get; simpl; by wr_simp).
  destruct (enqueue_process_ok s1 q p fuel) as (s2 & -> & Hq2 & (Hd2 & _) & Hst2); try done.
  { by apply queues_ok_set. }
  { unfold get. simpl. by wr_simp. }
  { unfold has_class. by rewrite Hg1. }
  simpl. eexists. split; [done|]. split; [exact H1|]. split; [|split; [exact H2|split]].
  - simpl. eapply queues_ok_ext; [exact Hq2|]. intros i Hi. unfold enq. rewrite !Hg1 by done. case_if; [done|].
    erewrite insert_vr_ext; [done|]. intros x. symmetry. by apply Hg1.
  - intros x f Hf1 Hf2. simpl. rewrite Hd2 by done. by apply Hg1.
  - intros x. simpl. rewrite Hst2. case_decide; [subst|]; unfold get; simpl; by wr_simp.
Qed.

(** The ready queues after all processes of [ps] are queued, in order. *)
Definition enq_all (s : sched) (q : Z -> list Z) (ps : list Z) : Z -> list Z := foldl (enq s) q ps.

Lemma enq_all_ext s s' q q' ps :
  (forall x f, f <> next_ready -> f <> state -> get s' x f = get s x f) ->
  (forall i, q' i = q i) -> forall i, enq_all s' q' ps i = enq_all s q ps i.
Proof.
  intros Hd. revert q q'. induction ps as [|p ps IH]; intros q q' E; [done|]. simpl. apply IH.
  intros i. unfold enq. rewrite !Hd by done. case_if; unfold fupd; case_decide; rewrite ?E; try done.
  apply insert_vr_ext. intros x. by apply Hd.
Qed.

Lemma enq_unqueued s q p x : unqueued q x -> x <> p -> unqueued (enq s q p) x.
Proof.
  intros Hu Hx i Hi. unfold enq. pose proof (level_range (get s p priority)).
  case_if; unfold fupd; case_decide; subst; try (by apply Hu).
  - pose proof (Hu (level_of (get s p priority)) ltac:(lia)). set_solver.
  - rewrite insert_vr_elem. pose proof (Hu 4 ltac:(lia)). tauto.
Qed.

Lemma wake_all_ok fuel0 es : forall w wq q fuel,
  wq_ok w wq es -> let ps := (fun e => wget w e we_task) <$> es in
  queues_ok (w_sched w) q -> NoDup ps ->
  (forall p, p ∈ ps -> p <> 0 /\ unqueued q p /\ has_class (w_sched w) p) ->
  (length (q 4%Z) + length es < fuel0)%nat -> (length es < fuel)%nat ->
  exists w', loop fuel (wake_all_step fuel0 wq) w = Some (Some w') /\ wq_ok w' wq [] /\
    queues_ok (w_sched w') (enq_all (w_sched w) q ps) /\
    (forall x, get (w_sched w') x state = if decide (x ∈ ps) then PROCESS_STATE_READY else get (w_sched w) x state).
Proof.
  induction es as [|e es IH]; intros w wq q fuel Hw ps Hq Hnd Hps Hf0 Hf; (destruct fuel as [|fuel]; [simpl in Hf; lia|]);
    cbn [loop]; unfold wake_all_step at 1.
  - destruct Hw as [Hl Ht]. rewrite (Hl : wget w wq wq_head = 0). simpl. exists w. split; [done|]. split; [by split|].
    done.
  - pose proof Hw as [(Hh & He & _) _]. rewrite Hh, (proj2 (Z.eqb_neq e 0)) by done. simpl.
    set (p := wget w e we_task) in *. unfold ps in *. rewrite fmap_cons in *. fold p in Hnd, Hps.
    apply NoDup_cons in Hnd as [Hp Hnd]. destruct (Hps p ltac:(set_solver)) as (Hp0 & Hpu & Hpc). simpl in Hf0, Hf.
    destruct (wake_one_ok fuel0 w wq e es q Hw Hq Hp0 Hpu Hpc ltac:(lia)) as (w1 & -> & Hw1 & Hq1 & Ht1 & Hd1 & Hs1).
    assert ((fun e => wget w1 e we_task) <$> es = (fun e => wget w e we_task) <$> es) as Eps
      by (apply list_fmap_ext; intros i x _; apply Ht1).
    destruct (IH w1 wq (enq (w_sched w) q p) fuel Hw1) as (w' & Hl & Hw' & Hq' & Hs'); try done.
    + by rewrite Eps.
    + intros x Hx. rewrite Eps in Hx. destruct (Hps x ltac:(set_solver)) as (Hx0 & Hxu & Hxc).
      split; [done|]. split; [apply enq_unqueued; [done|]; intros ->; done|]. unfold has_class. by rewrite Hd1.
    + pose proof (enq_length (w_sched w) q p). lia.
    + lia.
    + exists w'. split; [exact Hl|]. split; [done|]. split.
      * eapply queues_ok_ext; [exact Hq'|]. intros i _. rewrite Eps. simpl. symmetry. apply enq_all_ext; done.
      * intros x. rewrite Hs', Hs1, Eps. fold p. repeat case_decide; try done; set_solver.
Qed.

(** ** Exclusion *)

(** The mutex names the one process that is inside, and counts its entries. *)
Definition mutex_inv (mutex : Z) (c : config) : Prop :=
  (forall t, c_pc c t <> Out -> t <> 0) /\
  let o := wget (c_sys c) mutex mtx_owner in
  (o = 0 -> forall t n, c_pc c t <> In n) /\
  (o <> 0 -> exists n, c_pc c o = In n /\ wget (c_sys c) mutex mtx_recurse = Z.of_nat n + 1 /\
     Z.of_nat n <= 2 ^ 30 /\ forall t m, c_pc c t = In m -> t = o).

(** A step that leaves the mutex word and keeps its process outside. *)
Lemma mutex_inv_outside mutex c w t p :
  mutex_inv mutex c -> t <> 0 -> (forall n, c_pc c t <> In n) -> (forall n, p <> In n) ->
  (forall f, queue_fld f = false -> wget w mutex f = wget (c_sys c) mutex f) ->
  mutex_inv mutex (goto c w t p).
Proof.
  intros (Hz & H0 & H1) Ht Hout Hp Hw. unfold mutex_inv, goto. simpl. rewrite !Hw by done.
  split; [|split].
  - intros u. unfold fupd. case_decide; [by subst|apply Hz].
  - intros Ho u n. unfold fupd. case_decide; [apply Hp|]. by apply H0.
  - intros Ho. destruct (H1 Ho) as (n & Hn & Hr & Hb & Hu). exists n.
    assert (wget (c_sys c) mutex mtx_owner <> t) as Hne by (intros E; rewrite E in Hn; by apply (Hout n)).
    rewrite fupd_other by done. split; [done|]. split; [done|]. split; [done|].
    intros u m. unfold fupd. case_decide; [intros E; by destruct (Hp m)|apply Hu].
Qed.

Lemma mutex_try_lock fuel w mutex t w' b :
  mutex_try fuel w mutex t = Some (w', b) ->
  let o := wget w mutex mtx_owner in
  (o = 0 /\ b = true /\ wget w' mutex mtx_owner = t /\ wget w' mutex mtx_recurse = 1) \/
  (o <> 0 /\ o = t /\ b = true /\ wget w' mutex mtx_owner = t /\
     wget w' mutex mtx_recurse = s32 (wget w mutex mtx_recurse + 1)) \/
  (o <> 0 /\ o <> t /\ b = false /\ forall f, wget w' mutex f = wget w mutex f).
Proof.
  intros H o. unfold mutex_try in H. fold o in H. destruct (o =? 0) eqn:E0; simpl_bool.
  { left. injection H as <- <-. unfold wget. simpl. by wr_simp. }
  destruct (o =? t) eqn:E1; simpl_bool.
  { right. left. injection H as <- <-. unfold wget. simpl. wr_simp. split; [done|]. split; [done|].
    split; [done|]. split; [exact E1|done]. }
  right. right. match type of H with (?m ≫= _) = _ => destruct m as [s|]; [|done] end.
  simpl in H. injection H as <- <-. done.
Qed.

Lemma mutex_inv_owner mutex c t n :
  mutex_inv mutex c -> c_pc c t = In n ->
  t <> 0 /\ wget (c_sys c) mutex mtx_owner = t /\ wget (c_sys c) mutex mtx_recurse = Z.of_nat n + 1 /\
  Z.of_nat n <= 2 ^ 30 /\ forall u m, c_pc c u = In m -> u = t.
Proof.
  intros (Hz & H0 & H1) Hp. split; [apply Hz; by rewrite Hp|].
  destruct (decide (wget (c_sys c) mutex mtx_owner = 0)) as [E|E]; [by destruct (H0 E t n)|].
  destruct (H1 E) as (n' & Hn & Hr & Hb & Hu). pose proof (Hu t n Hp) as E'.
  rewrite <- E' in Hn, Hu |- *. rewrite Hp in Hn. by injection Hn as <-.
Qed.

Lemma mutex_step_inv mutex fuel c c' : mutex_inv mutex c -> mutex_step mutex fuel c c' -> mutex_inv mutex c'.
Proof.
  intros Hi Hs. pose proof Hi as (Hz & H0 & H1).
  destruct Hs as [c t Ht Ha Hp|c t w Ha Hp Hm|c t w Ha Hp Hm|c t e Ha Hp He|c t n w Ha Hp Hb Hm|c t n w Ha Hp Hm|c t n w Ha Hp Hm|c t w Ha Hp Hm|c s].
  - apply mutex_inv_outside; [done|done|by rewrite Hp|done|done].
  - assert (t <> 0) as Ht by (apply Hz; by rewrite Hp).
    apply mutex_try_lock in Hm as [(E & _ & Eo & Er)|[(E & E' & _)|(_ & _ & ? & _)]]; [| |done].
    + unfold mutex_inv, goto. simpl. rewrite Eo, Er. split; [|split; [done|]].
      * intros u. unfold fupd. case_decide; [by subst|apply Hz].
      * intros _. exists 0%nat. rewrite fupd_same. split; [done|]. split; [done|]. split; [lia|].
        intros u m. unfold fupd. case_decide; [done|]. intros Hu. by destruct (H0 E u m).
    + destruct (H1 E) as (n & Hn & _). rewrite E' in Hn. congruence.
  - assert (t <> 0) as Ht by (apply Hz; by rewrite Hp).
    apply mutex_try_lock in Hm as [(_ & ? & _)|[(_ & _ & ? & _)|(_ & _ & _ & Hw)]]; [done..|].
    apply mutex_inv_outside; [done|done|by rewrite Hp|done|]. intros f _. apply Hw.
  - assert (t <> 0) as Ht by (apply Hz; by rewrite Hp).
    apply mutex_inv_outside; [done|done|by rewrite Hp|done|]. intros f Hf. by apply sleep_enqueue_other.
  - assert (t <> 0) as Ht by (apply Hz; by rewrite Hp).
    apply mutex_try_lock in Hm as [(E & _)|[(E & E' & _ & Eo & Er)|(_ & _ & ? & _)]]; [by destruct (H0 E t n)| |done].
    destruct (mutex_inv_owner mutex c t n Hi Hp) as (_ & _ & Hr & _ & Hu).
    unfold mutex_inv, goto. simpl. rewrite Eo, Er, Hr. split; [|split; [done|]].
    + intros u. unfold fupd. case_decide; [by subst|apply Hz].
    + intros _. exists (S n). rewrite fupd_same. split; [done|]. split; [rewrite s32_small; lia|]. split; [lia|].
      intros u m. unfold fupd. case_decide; [done|]. by apply Hu.
  - destruct (mutex_inv_owner mutex c t n Hi Hp) as (Ht & E & Hr & Hb & Hu).
    unfold mutex_release in Hm. rewrite E, Z.eqb_refl, Hr in Hm.
    assert (wget (wset (c_sys c) mutex mtx_recurse (s32 (Z.of_nat n + 1 - 1))) mutex mtx_recurse = Z.of_nat n) as Er
      by (unfold wget; simpl; wr_simp; rewrite s32_small; lia).
    rewrite Er in Hm. destruct (Z.of_nat n =? 0) eqn:En; [done|]. simpl_bool. injection Hm as <-.
    unfold mutex_inv, goto. cbn [c_sys c_pc]. rewrite Er.
    assert (wget (wset (c_sys c) mutex mtx_recurse (s32 (Z.of_nat n + 1 - 1))) mutex mtx_owner = t) as ->
      by (rewrite <- E; unfold wget; simpl; by wr_simp).
    split; [intros u; unfold fupd; case_decide; [by subst|apply Hz]|]. split; [done|].
    intros _. exists (pred n). rewrite fupd_same. split; [done|]. split; [lia|]. split; [lia|].
    intros u m. unfold fupd. case_decide; [done|]. by apply Hu.
  - destruct (mutex_inv_owner mutex c t n Hi Hp) as (Ht & E & Hr & Hb & Hu).
    unfold mutex_release in Hm. rewrite E, Z.eqb_refl in Hm. destruct (_ =? 0); [|done]. injection Hm as <-.
    unfold mutex_inv, goto. cbn [c_sys c_pc].
    match goal with |- context [wget (wset ?v mutex mtx_owner 0) mutex mtx_owner] =>
      assert (wget (wset v mutex mtx_owner 0) mutex mtx_owner = 0) as -> by (unfold wget; simpl; by wr_simp) end.
    split; [intros u; unfold fupd; case_decide; [by subst|apply Hz]|]. split; [|done].
    intros _ u m. unfold fupd. case_decide; [done|]. intros Hum. apply Hu in Hum. congruence.
  - assert (t <> 0) as Ht by (apply Hz; by rewrite Hp).
    apply mutex_inv_outside; [done|done|by rewrite Hp|done|]. intros f Hf. by apply (wake_up_other fuel _ (mutex_wait_q mutex)).
  - done.
Qed.

(** The counters of the reader-writer lock agree with who is inside, and
    writers are alone. *)
Definition rw_inv (rw : Z) (c : rconfig) : Prop :=
  exists R, NoDup R /\ (forall t, r_pc c t = Reading <-> t ∈ R) /\
    wget (r_sys c) rw rw_readers = Z.of_nat (length R) /\ Z.of_nat (length R) < 2 ^ 31 /\
    ((wget (r_sys c) rw rw_writers = 0 /\ forall t, r_pc c t <> Writing) \/
     (wget (r_sys c) rw rw_writers = 1 /\ R = [] /\ exists t, forall u, r_pc c u = Writing <-> u = t)).

Definition inside (p : rpc) : bool := match p with Reading | Writing => true | _ => false end.

Lemma rw_inv_outside rw c w t p :
  rw_inv rw c -> inside (r_pc c t) = false -> inside p = false ->
  (forall f, queue_fld f = false -> wget w rw f = wget (r_sys c) rw f) -> rw_inv rw (rgoto c w t p).
Proof.
  intros (R & Hnd & HR & Hr & Hb & Hw) Ht Hp Hf. exists R. simpl. rewrite !Hf by done.
  assert (forall u x, inside x = true -> fupd (r_pc c) t p u = x <-> r_pc c u = x) as Hpc.
  { intros u x Hx. unfold fupd. case_decide; [|done]. subst u. split; intros E; rewrite E in *; congruence. }
  split; [done|]. split; [intros u; by rewrite Hpc|]. split; [done|]. split; [done|].
  destruct Hw as [[H0 Hn]|(H1 & HRn & t' & Ht')]; [left|right].
  - split; [done|]. intros u Hu. apply (Hn u). by apply Hpc.
  - split; [done|]. split; [done|]. exists t'. intros u. by rewrite Hpc.
Qed.

Lemma rw_step_inv rw fuel c c' : rw_inv rw c -> rw_step rw fuel c c' -> rw_inv rw c'.
Proof.
  intros Hi Hs. destruct Hs as [c t p Ha Hp Hpp|c t w Ha Hp Hb Hm|c t w Ha Hp Hm|c t e Ha Hp He|c t w Ha Hp Hm|c t w Ha Hp Hm
    |c t e Ha Hp He|c t w last Ha Hp Hm|c t w Ha Hp Hm|c t Ha Hp|c t w w' Ha Hp Hm Hm'|c s].
  - apply rw_inv_outside; [done|by rewrite Hp|by destruct Hpp as [-> | ->]|done].
  - destruct Hi as (R & Hnd & HR & Hr & Hb' & Hw). unfold read_try in Hm.
    destruct (wget (r_sys c) rw rw_writers =? 0) eqn:E; [|done]. simpl_bool. injection Hm as <-.
    destruct Hw as [[_ Hn]|(H1 & _)]; [|congruence].
    assert (t ∉ R) as HtR by (rewrite <- HR; congruence).
    exists (t :: R). unfold wget in *. simpl. wr_simp. split; [by constructor|]. split; [|split; [|split]].
    + intros u. unfold fupd. rewrite elem_of_cons. case_decide; [subst; naive_solver|]. rewrite HR. naive_solver.
    + rewrite s32_small; lia.
    + lia.
    + left. split; [done|]. intros u. unfold fupd. by case_decide.
  - unfold read_try in Hm. destruct (_ =? 0); [done|]. injection Hm as <-.
    apply rw_inv_outside; [done|by rewrite Hp|done|done].
  - apply rw_inv_outside; [done|by rewrite Hp|done|]. intros f Hf. by apply sleep_enqueue_other.
  - destruct Hi as (R & Hnd & HR & Hr & Hb' & Hw). unfold write_try in Hm.
    destruct ((_ =? 0) && _) eqn:E; [|done]. simpl_bool. injection Hm as <-.
    destruct R as [|x R]; [|simpl in Hr; lia]. destruct Hw as [[_ Hn]|(H1 & _)]; [|congruence].
    exists []. unfold wget in *. simpl. wr_simp. split; [done|]. split; [|split; [done|split; [done|]]].
    + intros u. unfold fupd. case_decide; [|apply HR]. split; [done|]. intros Hu. by apply elem_of_nil in Hu.
    + right. split; [done|]. split; [done|]. exists t. intros u. unfold fupd. case_decide; [done|].
      split; [|done]. intros Hu. by destruct (Hn u).
  - unfold write_try in Hm. destruct (_ && _); [done|]. injection Hm as <-.
    apply rw_inv_outside; [done|by rewrite Hp|done|done].
  - apply rw_inv_outside; [done|by rewrite Hp|done|]. intros f Hf. by apply sleep_enqueue_other.
  - destruct Hi as (R & Hnd & HR & Hr & Hb' & Hw). unfold read_release in Hm. injection Hm as <- <-.
    assert (t ∈ R) as HtR by (by apply HR). apply list_elem_of_split in HtR as (R1 & R2 & ->).
    rewrite length_app in *. simpl in Hr, Hb'.
    apply NoDup_app in Hnd as (N1 & N2 & N3). apply NoDup_cons in N3 as [N3 N4].
    exists (R1 ++ R2). unfold wget in *. simpl. wr_simp. rewrite length_app.
    split; [apply NoDup_app; split; [done|]; split; [set_solver|done]|]. split; [|split; [|split]].
    + intros u. unfold fupd. case_decide as E.
      * subst u. split; [by case_if|]. intros Hu. set_solver.
      * rewrite HR. set_solver.
    + rewrite s32_small; lia.
    + lia.
    + destruct Hw as [[H0 Hn]|(_ & HRn & _)]; [|by destruct R1]. left. split; [done|].
      intros u. unfold fupd. case_decide; [by case_if|apply Hn].
  - apply rw_inv_outside; [done|by rewrite Hp|done|]. intros f Hf. by apply (wake_up_other fuel _ (write_wait_q rw)).
  - destruct Hi as (R & Hnd & HR & Hr & Hb' & Hw). unfold write_release.
    destruct Hw as [[_ Hn]|(_ & -> & t' & Ht')]; [by destruct (Hn t)|].
    exists []. unfold wget in *. simpl. wr_simp. split; [done|]. split; [|split; [done|split; [done|]]].
    + intros u. unfold fupd. case_decide; [|apply HR]. split; [done|]. intros Hu. by apply elem_of_nil in Hu.
    + left. split; [done|]. intros u. unfold fupd. case_decide; [done|]. intros Hu.
      apply Ht' in Hu, Hp. congruence.
  - apply rw_inv_outside; [done|by rewrite Hp|done|]. intros f Hf.
    rewrite (wake_up_other fuel w (write_wait_q rw) w') by done. by apply (wake_up_all_other fuel _ (read_wait_q rw)).
  - done.
Qed.

(** ** Properties *)

(** Wait queues are FIFO and lose no process: [sleep_on] puts its entry
    last and blocks the caller, [wake_up] takes the first entry and hands its
    process, ready, to the scheduler, and [wake_up_all] does so for all
    entries in order, whatever the queue's length. *)
Theorem wait_queue_fifo w wq es q :
  wq_ok w wq es -> queues_ok (w_sched w) q ->
  let task e := wget w e we_task in
  (forall e t, e <> 0 -> e ∉ es ->
     wq_ok (sleep_enqueue w wq e t) wq (es ++ [e]) /\ wget (sleep_enqueue w wq e t) e we_task = t /\
     get (w_sched (sleep_enqueue w wq e t)) t state = PROCESS_STATE_BLOCKED) /\
  (forall fuel, NoDup (task <$> es) ->
     (forall p, p ∈ task <$> es -> p <> 0 /\ unqueued q p /\ has_class (w_sched w) p) ->
     (length (q 4%Z) + length es < fuel)%nat ->
     (exists w', wake_up fuel w wq = Some w' /\ wq_ok w' wq (tail es) /\
        queues_ok (w_sched w') (enq_all (w_sched w) q (take 1 (task <$> es)))) /\
     (exists w', wake_up_all fuel w wq = Some w' /\ wq_ok w' wq [] /\
        queues_ok (w_sched w') (enq_all (w_sched w) q (task <$> es)) /\
        forall x, get (w_sched w') x state =
          if decide (x ∈ task <$> es) then PROCESS_STATE_READY else get (w_sched w) x state)).
Proof.
  intros Hw Hq task. split.
  - intros e t He Hne. destruct (sleep_enqueue_ok w wq es e t Hw He Hne) as (? & ? & _ & ? & _). done.
  - intros fuel Hnd Hps Hf. split.
    + unfold wake_up. destruct es as [|e es].
      * exists w. destruct Hw as [Hl Ht]. rewrite (Hl : wget w wq wq_head = 0). simpl. split; [done|]. by split.
      * pose proof Hw as [(Hh & He & _) _]. rewrite Hh, (proj2 (Z.eqb_neq e 0)) by done. simpl.
        destruct (Hps (task e)) as (Hp0 & Hpu & Hpc); [set_solver|].
        destruct (wake_one_ok fuel w wq e es q Hw Hq Hp0 Hpu Hpc ltac:(simpl in Hf; lia)) as (w' & ? & ? & ? & _).
        by exists w'.
    + destruct (wake_all_ok fuel es w wq q fuel Hw Hq Hnd Hps Hf ltac:(lia)) as (w' & Hl & Hw' & Hq' & Hs').
      exists w'. unfold wake_up_all. by rewrite Hl.
Qed.


(** Under any interleaving of readers and writers of a reader-writer
    lock, a writer is never inside together with a reader or another writer,
    and the reader count is the number of readers inside. *)
Theorem rwlock_exclusion rw fuel w c :
  rtc (rw_step rw fuel) (RConfig (rwlock_init w rw) (fun _ => ROut)) c ->
  (forall t u, r_pc c t = Writing -> r_pc c u = Reading -> False) /\
  (forall t u, r_pc c t = Writing -> r_pc c u = Writing -> t = u) /\
  (exists R, NoDup R /\ (forall t, r_pc c t = Reading <-> t ∈ R) /\
     wget (r_sys c) rw rw_readers = Z.of_nat (length R)).
Proof.
  intros Hr. assert (rw_inv rw c) as (R & Hnd & HR & Hc & _ & Hw).
  { apply (rtc_ind_r (rw_inv rw)) in Hr; [done| |intros; by eapply rw_step_inv].
    exists []. unfold rwlock_init, wget. simpl. wr_simp. split; [constructor|].
    split; [|by split; [|split; [|left]]]. intros t. split; [done|]. intros Ht. by apply elem_of_nil in Ht. }
  split; [|split; [|by exists R]].
  - intros t u Ht Hu. destruct Hw as [[_ Hn]|(_ & -> & _)]; [by apply (Hn t)|]. apply HR in Hu. by apply elem_of_nil in Hu.
  - intros t u Ht Hu. destruct Hw as [[_ Hn]|(_ & _ & x & Hx)]; [by destruct (Hn t)|].
    apply Hx in Ht, Hu. congruence.
Qed.

(** ** A concrete system: a mutex at 1000, processes 5 and 6 *)

Definition demo_wsys : wsys :=
  WSys (Sched (fun _ _ => 0) (fun _ => 0) (fun _ => 0) 0 0 5 5 7 0) (fun _ _ => 0).

(** The release of [mutex_lock]'s spinlock before [sleep_on] loses a wake-up:
    process 6 finds the mutex taken, process 5 unlocks it and finds nobody to
    wake, then process 6 goes to sleep: the mutex is free, 6 is blocked in its
    wait queue, and nobody is left to wake it. *)
Theorem mutex_lost_wakeup :
  exists c, rtc (mutex_step 1000 1) (Config (mutex_init demo_wsys 1000) (fun _ => Out)) c /\
    wget (c_sys c) 1000 mtx_owner = 0 /\ wget (c_sys c) (mutex_wait_q 1000) wq_head <> 0 /\
    c_pc c 6 = Trying /\ get (w_sched (c_sys c)) 6 state = PROCESS_STATE_BLOCKED /\
    forall t, t <> 6 -> c_pc c t = Out.
Proof.
  eexists. split; [|split; [|split; [|split; [|split]]]].
  - eapply rtc_l; [apply (ms_call 1000 1 _ 5); [lia|vm_compute; discriminate|reflexivity]|].
    eapply rtc_l; [eapply (ms_taken 1000 1 _ 5); [vm_compute; discriminate|reflexivity|reflexivity]|].
    eapply rtc_l; [apply (ms_call 1000 1 _ 6); [lia|vm_compute; discriminate|reflexivity]|].
    eapply rtc_l; [eapply (ms_refused 1000 1 _ 6); [vm_compute; discriminate|reflexivity|reflexivity]|].
    eapply rtc_l; [eapply (ms_free 1000 1 _ 5 0); [vm_compute; discriminate|reflexivity|reflexivity]|].
    eapply rtc_l; [eapply (ms_wake 1000 1 _ 5); [vm_compute; discriminate|reflexivity|reflexivity]|].
    eapply rtc_l; [apply (ms_sleep 1000 1 _ 6 0x8000); [vm_compute; discriminate|reflexivity|lia]|].
    apply rtc_refl.
  - reflexivity.
  - vm_compute. discriminate.
  - reflexivity.
  - reflexivity.
  - intros t Ht. simpl. unfold fupd. repeat case_decide; try done.
Qed.


Lemma rwlock_exclusion_witness :
  exists c, r_pc c 5 = Reading /\ r_pc c 6 = Reading /\ forall t, r_pc c t = Writing -> False.
Proof.
  assert (exists c, rtc (rw_step 1000 1) (RConfig (rwlock_init demo_wsys 1000) (fun _ => ROut)) c /\
    r_pc c 5 = Reading /\ r_pc c 6 = Reading) as (c & Hr & H5 & H6).
  { eexists. split; [|split].
    - eapply rtc_l; [apply (rs_call 1000 1 _ 5 RTrying); [vm_compute; discriminate|reflexivity|by left]|].
      eapply rtc_l; [eapply (rs_read 1000 1 _ 5); [vm_compute; discriminate|reflexivity|vm_compute; reflexivity|reflexivity]|].
      eapply rtc_l; [apply (rs_call 1000 1 _ 6 RTrying); [vm_compute; discriminate|reflexivity|by left]|].
      eapply rtc_l; [eapply (rs_read 1000 1 _ 6); [vm_compute; discriminate|reflexivity|vm_compute; reflexivity|reflexivity]|].
      apply rtc_refl.
    - reflexivity.
    - reflexivity. }
  exists c. split; [exact H5|]. split; [exact H6|]. intros t Ht.
  exact (proj1 (rwlock_exclusion 1000 1 demo_wsys c Hr) t 5 Ht H5).
Defined.

Lemma wait_queue_fifo_witness :
  wq_ok (sleep_enqueue demo_wsys 2000 0x8000 6) 2000 [0x8000] /\
  exists w', wake_up_all 1 demo_wsys 2000 = Some w'.
Proof.
  assert (queues_ok (w_sched demo_wsys) (fun _ => [])) as Hq.
  { split; [|done|intros i j x Hi Hj Hx; by apply elem_of_nil in Hx].
    intros i Hi. unfold qhead. simpl. by repeat case_if. }
  destruct (wait_queue_fifo demo_wsys 2000 [] (fun _ => [])) as (Hs & Hw); [by split|exact Hq|]. split.
  - exact (proj1 (Hs 0x8000 6 ltac:(lia) ltac:(set_solver))).
  - destruct (Hw 1%nat) as (_ & w' & Hw' & _); [constructor|intros p Hp; by apply elem_of_nil in Hp|simpl; lia|].
    exists w'. exact Hw'.
Defined.

(** ** Calls that take a mutex *)

(** Where a call is when its critical sections are over: returned, or about to
    sleep on a wait queue. *)
Inductive outcome := Ret (v : Z) | Sleeps (wq : Z).

(** Nobody has the mutex and nobody waits for it. *)
Definition idle_mutex (w : wsys) (m : Z) : Prop := wget w m mtx_owner = 0 /\ wget w (mutex_wait_q m) wq_head = 0.
Definition locked (w : wsys) (m p : Z) : wsys := wset (wset w m mtx_owner p) m mtx_recurse 1.
Definition unlocked (w : wsys) (m : Z) : wsys := wset (wset w m mtx_recurse 0) m mtx_owner 0.

Lemma mutex_try_idle fuel w m p : idle_mutex w m -> mutex_try fuel w m p = Some (locked w m p, true).
Proof. intros [Ho _]. unfold mutex_try. by rewrite Ho. Qed.

Lemma mutex_unlock_held fuel w m p :
  wget w m mtx_owner = p -> wget w m mtx_recurse = 1 -> wget w (mutex_wait_q m) wq_head = 0 ->
  mutex_unlock fuel w m p = Some (unlocked w m).
Proof.
  intros Ho Hr Hw. unfold mutex_unlock, mutex_release. rewrite Ho, Hr, Z.eqb_refl.
  change (s32 (1 - 1)) with 0.
  assert (wget (wset w m mtx_recurse 0) m mtx_recurse = 0) as -> by (unfold wget; simpl; by wr_simp).
  change (0 =? 0) with true. cbv iota beta zeta. unfold wake_up.
  assert (wget (wset (wset w m mtx_recurse 0) m mtx_owner 0) (mutex_wait_q m) wq_head = 0) as ->
    by (rewrite <- Hw; unfold wget; simpl; by wr_simp). done.
Qed.

(** A section that leaves the wait queues alone gives an idle mutex back idle. *)
Lemma mutex_unlock_locked fuel w m p :
  idle_mutex w m -> mutex_unlock fuel (locked w m p) m p = Some (unlocked (locked w m p) m).
Proof.
  intros [_ Hw]. apply mutex_unlock_held; [..|rewrite <- Hw]; unfold wget; simpl; by wr_simp.
Qed.

Lemma unlocked_idle w m p : idle_mutex w m -> idle_mutex (unlocked (locked w m p) m) m.
Proof. intros [_ Hw]. split; [|rewrite <- Hw]; unfold wget; simpl; by wr_simp. Qed.

End WaitQueue.
