(* ===== verification/Pipe.v ===== *)
(** * Pipes (src/kernel/ipc/pipe.c)

    A pipe is a ring buffer that readers and writers access one byte per
    critical section; between two bytes any other reader or writer may run.
    The contract is about the stream: what all readers together have read is a
    prefix of what all writers together have written. *)
From S2P Require Import Prelude Store Allocator Sched.
Import Sched.

Module Pipe.

(** ** State *)

Definition PIPE_SIZE : Z := 4096.

Record pipe_t := Pipe {
  buffer : Z -> Z;
  read_pos : Z;
  write_pos : Z;
  bytes_available : Z;
  readers : Z;
  writers : Z
}.

(** [pipe_create]'s initialisation of the zeroed structure. *)
Definition pipe_new : pipe_t := Pipe (fun _ => 0) 0 0 0 1 1.

(** ** Reading *)

(** One round of the loop of [pipe_read] under the lock: a byte, the end of
    the stream, or the reader has to sleep. *)
Inductive round := Moved (p : pipe_t) (b : Z) | Closed | Blocked.

Definition read_round (p : pipe_t) : round :=
  if bytes_available p =? 0 then
    if writers p =? 0 then Closed else Blocked
  else
    let b := buffer p (read_pos p) in
    Moved (Pipe (buffer p) (Z.rem (read_pos p + 1) PIPE_SIZE) (write_pos p) (s32 (bytes_available p - 1))
                (readers p) (writers p)) b.

Definition O_RDONLY : Z := 0.
Definition O_WRONLY : Z := 1.

(** [pipe_read] up to its end or its first sleep: the pipe, the bytes stored in
    the caller's buffer, and [Some r] for a return value, [None] for a sleep. *)
Fixpoint read_loop (n : nat) (p : pipe_t) (out : list Z) : pipe_t * list Z * option Z :=
  match n with
  | O => (p, out, Some (Z.of_nat (length out)))
  | S n => match read_round p with
           | Moved p b => read_loop n p (out ++ [b])
           | Closed => (p, out, Some (Z.of_nat (length out)))
           | Blocked => (p, out, None)
           end
  end.

Definition pipe_read (p : pipe_t) (f_flags size : Z) : pipe_t * list Z * option Z :=
  if f_flags =? O_WRONLY then (p, [], Some (-1)) else read_loop (Z.to_nat size) p [].

(** ** Writing *)

Definition write_round (p : pipe_t) (b : Z) : round :=
  if bytes_available p =? PIPE_SIZE then
    if readers p =? 0 then Closed else Blocked
  else
    Moved (Pipe (fupd (buffer p) (write_pos p) b) (read_pos p) (Z.rem (write_pos p + 1) PIPE_SIZE)
                (s32 (bytes_available p + 1)) (readers p) (writers p)) b.

Fixpoint write_loop (bs : list Z) (p : pipe_t) (written : Z) : pipe_t * list Z * option Z :=
  match bs with
  | [] => (p, [], Some written)
  | b :: bs => match write_round p b with
               | Moved p _ => write_loop bs p (written + 1)
               | Closed => (p, b :: bs, Some (-1))
               | Blocked => (p, b :: bs, None)
               end
  end.

Definition pipe_write (p : pipe_t) (f_flags : Z) (bs : list Z) : pipe_t * list Z * option Z :=
  if f_flags =? O_RDONLY then (p, bs, Some (-1)) else write_loop bs p 0.

(** ** Closing *)

(** The pipe and whether it is to be freed. *)
Definition pipe_close (p : pipe_t) (f_flags : Z) : pipe_t * bool :=
  let p := if f_flags =? O_RDONLY
           then Pipe (buffer p) (read_pos p) (write_pos p) (bytes_available p) (s32 (readers p - 1)) (writers p)
           else Pipe (buffer p) (read_pos p) (write_pos p) (bytes_available p) (readers p) (s32 (writers p - 1)) in
  (p, (readers p =? 0) && (writers p =? 0)).

(** ** Creation *)

(** The scan for the two lowest free descriptors. *)
Fixpoint find_fds (s : sched) (cur i : Z) (n : nat) (fd0 : Z) : Z * Z :=
  match n with
  | O => (fd0, -1)
  | S n => if get s cur (fd_table i) =? 0 then
             if fd0 =? -1 then find_fds s cur (i + 1) n i else (fd0, i)
           else find_fds s cur (i + 1) n fd0
  end.

(** The fields of [struct file] that [pipe_create] sets. *)
Inductive ffld := f_count | f_flags | f_mode | f_op | private_data | f_dentry | f_other (i : Z).
#[export] Instance ffld_eq_dec : EqDecision ffld.
Proof. solve_decision. Defined.

Section create.
Context {A : Type} `{Allocator A}.

Definition sizeof_pipe : Z := 4248.
Definition sizeof_file : Z := 80.

Record psys := PSys { ph : A; p_sched : sched; p_files : store ffld; p_pipes : Z -> pipe_t }.

(** [kfree(p)] of a pointer that may be null. *)
Definition free_opt (h : A) (p : Z) : option A := if negb (p =? 0) then a_free h p else Some h.

(** A file structure for the pipe [p], zeroed and then filled in; [pipe_ops]
    is the address of the operations table. *)
Definition pipe_file (pipe_ops p flags : Z) (fs : store ffld) (a : Z) : store ffld :=
  let fs := fun x f => if decide (x = a) then 0 else fs x f in
  let fs := wr fs a f_count 1 in
  let fs := wr fs a f_flags flags in
  let fs := wr fs a f_mode flags in
  let fs := wr fs a f_op pipe_ops in
  let fs := wr fs a private_data p in
  wr fs a f_dentry 0.

(** The system, the two descriptors and the return value. *)
Definition pipe_create (pipe_ops : Z) (y : psys) : option (psys * Z * Z * Z) :=
  let s := p_sched y in
  let cur := current_process s in
  '(h, p) ← a_alloc (ph y) sizeof_pipe;
  if p =? 0 then Some (PSys h s (p_files y) (p_pipes y), -1, -1, -1)
  else
    let pipes := fupd (p_pipes y) p pipe_new in
    '(h, r_file) ← a_alloc h sizeof_file;
    '(h, w_file) ← a_alloc h sizeof_file;
    if (r_file =? 0) || (w_file =? 0) then
      h ← free_opt h r_file;
      h ← free_opt h w_file;
      h ← a_free h p;
      Some (PSys h s (p_files y) pipes, -1, -1, -1)
    else
      let fs := pipe_file pipe_ops p O_RDONLY (p_files y) r_file in
      let fs := pipe_file pipe_ops p O_WRONLY fs w_file in
      let '(fd0, fd1) := find_fds s cur 0 128 (-1) in
      if (fd0 =? -1) || (fd1 =? -1) then Some (PSys h s fs pipes, fd0, fd1, -1)
      else
        let s := set s cur (fd_table fd0) r_file in
        let s := set s cur (fd_table fd1) w_file in
        Some (PSys h s fs pipes, fd0, fd1, 0).
End create.

(** ** Any number of readers and writers

    Each step is one critical section; the ghost lists record the bytes moved
    so far. *)
Record stream := Stream { s_pipe : pipe_t; s_written : list Z; s_read : list Z }.

Inductive pipe_step : stream -> stream -> Prop :=
  | ps_read p w r p' b : read_round p = Moved p' b -> pipe_step (Stream p w r) (Stream p' w (r ++ [b]))
  | ps_write p w r p' b : write_round p b = Moved p' b -> pipe_step (Stream p w r) (Stream p' (w ++ [b]) r)
  | ps_close p w r flags p' : pipe_close p flags = (p', false) -> pipe_step (Stream p w r) (Stream p' w r).

(** The bytes in the ring, oldest first. *)
Definition contents (p : pipe_t) : list Z :=
  (fun i => buffer p ((read_pos p + Z.of_nat i) mod PIPE_SIZE)) <$> seq 0 (Z.to_nat (bytes_available p)).

Definition pipe_ok (p : pipe_t) : Prop :=
  0 <= read_pos p < PIPE_SIZE /\ 0 <= bytes_available p <= PIPE_SIZE /\
  write_pos p = (read_pos p + bytes_available p) mod PIPE_SIZE.

Lemma rem_mod a : 0 <= a -> Z.rem a PIPE_SIZE = a mod PIPE_SIZE.
Proof. intros. apply Z.rem_mod_nonneg; [done|done]. Qed.

Lemma read_round_spec p p' b :
  pipe_ok p -> read_round p = Moved p' b -> pipe_ok p' /\ contents p = b :: contents p'.
Proof.
  intros (Hr & Ha & Hw) H. unfold read_round in H. unfold PIPE_SIZE in Hr, Ha.
  destruct (bytes_available p =? 0) eqn:E; [by destruct (writers p =? 0)|]. simpl_bool. injection H as <- <-.
  rewrite rem_mod, s32_small by lia. split.
  - split; simpl; [apply Z.mod_pos_bound; done|]. split; [unfold PIPE_SIZE; lia|].
    rewrite Hw, Zplus_mod_idemp_l. f_equal. lia.
  - unfold contents. simpl. replace (Z.to_nat (bytes_available p)) with (S (Z.to_nat (bytes_available p - 1))) by lia.
    rewrite <- cons_seq, fmap_cons. f_equal.
    + f_equal. rewrite Z.add_0_r. apply Z.mod_small. done.
    + rewrite <- fmap_S_seq, <- list_fmap_compose. apply list_fmap_ext. intros i x _. simpl.
      rewrite Zplus_mod_idemp_l. do 2 f_equal. lia.
Qed.

Lemma write_round_spec p p' b :
  pipe_ok p -> write_round p b = Moved p' b -> pipe_ok p' /\ contents p' = contents p ++ [b].
Proof.
  intros (Hr & Ha & Hw) H. unfold write_round in H.
  destruct (bytes_available p =? PIPE_SIZE) eqn:E; [by destruct (readers p =? 0)|]. simpl_bool.
  unfold PIPE_SIZE in Hr, Ha, E. injection H as <-.
  pose proof (Z.mod_pos_bound (read_pos p + bytes_available p) PIPE_SIZE ltac:(done)) as Hwp.
  rewrite rem_mod, s32_small by (rewrite ?Hw; lia). split.
  - split; simpl; [done|]. split; [unfold PIPE_SIZE; lia|].
    rewrite Hw, Zplus_mod_idemp_l. f_equal. lia.
  - unfold contents. simpl. replace (Z.to_nat (bytes_available p + 1)) with (Z.to_nat (bytes_available p) + 1)%nat by lia.
    rewrite seq_app, fmap_app. simpl. f_equal.
    + apply list_fmap_ext. intros i x Hi. apply lookup_seq in Hi as [-> Hi]. simpl. apply fupd_other.
      rewrite Hw. intros Heq.
      assert (Z.of_nat i = bytes_available p); [|lia].
      apply (f_equal (fun x => (x - read_pos p) mod PIPE_SIZE)) in Heq.
      rewrite !Zminus_mod_idemp_l in Heq.
      replace (read_pos p + Z.of_nat i - read_pos p) with (Z.of_nat i) in Heq by lia.
      replace (read_pos p + bytes_available p - read_pos p) with (bytes_available p) in Heq by lia.
      unfold PIPE_SIZE in Heq. rewrite !Z.mod_small in Heq by lia. done.
    + rewrite Z2Nat.id by lia. rewrite <- Hw, fupd_same. done.
Qed.

Lemma pipe_new_ok : pipe_ok pipe_new.
Proof. done. Qed.

Lemma contents_length p : pipe_ok p -> Z.of_nat (length (contents p)) = bytes_available p.
Proof. intros (_ & Ha & _). unfold contents. rewrite length_fmap, length_seq. lia. Qed.

Definition stream_ok (s : stream) : Prop :=
  pipe_ok (s_pipe s) /\ s_written s = s_read s ++ contents (s_pipe s).

Lemma pipe_step_ok s s' : stream_ok s -> pipe_step s s' -> stream_ok s'.
Proof.
  intros [Hok Heq] Hs. destruct Hs as [p w r p' b H|p w r p' b H|p w r flags p' H]; simpl in *.
  - destruct (read_round_spec p p' b Hok H) as [Hok' Hc]. split; [done|]. simpl.
    rewrite Heq, Hc. by rewrite <- app_assoc.
  - destruct (write_round_spec p p' b Hok H) as [Hok' Hc]. split; [done|]. simpl.
    rewrite Heq, Hc. by rewrite app_assoc.
  - unfold pipe_close in H. destruct (flags =? O_RDONLY); injection H as <- _; by split.
Qed.

(** ** One reader's call *)

Lemma read_loop_spec n : forall p out,
  pipe_ok p ->
  let '(p', out', r) := read_loop n p out in
  exists got, out' = out ++ got /\ pipe_ok p' /\ contents p = got ++ contents p' /\
    got = take n (contents p) /\
    (r = None -> contents p' = [] /\ writers p' <> 0) /\
    (forall v, r = Some v -> v = Z.of_nat (length out')).
Proof.
  induction n as [|n IH]; intros p out Hok; cbn [read_loop].
  - exists []. rewrite app_nil_r. do 5 (split; [done|]). intros v Hv. by injection Hv as <-.
  - destruct (read_round p) as [p1 b| |] eqn:E.
    + destruct (read_round_spec p p1 b Hok E) as [Hok1 Hc].
      specialize (IH p1 (out ++ [b]) Hok1). destruct (read_loop n p1 (out ++ [b])) as [[p' out'] r].
      destruct IH as (got & -> & Hok' & Hc1 & Hg & Hn & Hs). exists (b :: got).
      split; [by rewrite <- app_assoc|]. split; [done|]. rewrite Hc. split; [simpl; by rewrite Hc1|].
      split; [simpl; congruence|]. done.
    + unfold read_round in E. destruct (bytes_available p =? 0) eqn:E0; [|done]. simpl_bool.
      assert (contents p = []) as Hc by (unfold contents; by rewrite E0).
      exists []. rewrite app_nil_r, Hc. split; [done|]. split; [done|]. split; [done|]. split; [done|]. split; [done|].
      intros v Hv. by injection Hv as <-.
    + unfold read_round in E. destruct (bytes_available p =? 0) eqn:E0; [|done]. simpl_bool.
      assert (contents p = []) as Hc by (unfold contents; by rewrite E0).
      exists []. rewrite app_nil_r, Hc. split; [done|]. split; [done|]. split; [done|]. split; [done|]. split; [|done].
      intros _. split; [done|]. destruct (writers p =? 0) eqn:Ew; [done|]. by simpl_bool.
Qed.

(** ** Properties *)

(** C7: through any interleaving of the byte-wise critical sections of any
    number of readers, writers and closers, the pipe is a FIFO stream of at
    most 4096 bytes: the bytes read so far, followed by the bytes in the ring,
    are exactly the bytes written so far, in order; and one [pipe_read] takes
    the oldest bytes, as many as it asked for or are there, and sleeps only
    when the ring is empty and writers remain. *)
Theorem pipe_fifo_stream s :
  rtc pipe_step (Stream pipe_new [] []) s ->
  s_written s = s_read s ++ contents (s_pipe s) /\ Z.of_nat (length (contents (s_pipe s))) <= PIPE_SIZE /\
  forall size, 0 <= size ->
    let '(p', out, r) := pipe_read (s_pipe s) O_RDONLY size in
    out = take (Z.to_nat size) (contents (s_pipe s)) /\ contents (s_pipe s) = out ++ contents p' /\
    (r = None -> contents p' = [] /\ writers p' <> 0) /\
    (forall v, r = Some v -> v = Z.of_nat (length out)).
Proof.
  intros Hr. assert (stream_ok s) as [Hok Heq].
  { apply (rtc_ind_r stream_ok) in Hr; [done|by split|]. intros; by eapply pipe_step_ok. }
  split; [done|]. split; [rewrite contents_length by done; apply Hok|]. intros size Hsz.
  unfold pipe_read. simpl. pose proof (read_loop_spec (Z.to_nat size) (s_pipe s) [] Hok) as H.
  destruct (read_loop (Z.to_nat size) (s_pipe s) []) as [[p' out] r].
  destruct H as (got & -> & _ & Hc & Hg & Hn & Hs). simpl. done.
Qed.

Lemma pipe_fifo_stream_witness :
  exists s, rtc pipe_step (Stream pipe_new [] []) s /\ s_written s = [7; 8] /\ s_read s = [7] /\
    contents (s_pipe s) = [8].
Proof.
  assert (exists s, rtc pipe_step (Stream pipe_new [] []) s /\ s_written s = [7; 8] /\ s_read s = [7]) as (s & Hr & Hw & Hrd).
  { eexists. split; [|split].
    - eapply rtc_l; [eapply (ps_write _ _ _ _ 7); reflexivity|].
      eapply rtc_l; [eapply (ps_write _ _ _ _ 8); reflexivity|].
      eapply rtc_l; [eapply (ps_read _ _ _ _ 7); reflexivity|]. apply rtc_refl.
    - reflexivity.
    - reflexivity. }
  exists s. split; [exact Hr|]. split; [exact Hw|]. split; [exact Hrd|].
  pose proof (proj1 (pipe_fifo_stream s Hr)) as E. rewrite Hw, Hrd in E. simpl in E. congruence.
Defined.

End Pipe.
