(* ===== verification/Signal.v ===== *)
(** * Signal delivery (src/kernel/ipc/signal.c)

    Posting a signal is part of the scheduler's file; this file is about the
    way back to user mode: the pending signals are examined, and the interrupt
    frame that will be restored is rewritten so that the handler runs first,
    with the interrupted frame saved on the user stack for [sys_sigreturn]. *)
From S2P Require Import Prelude Memory CString Store Sched.
Import Sched.

Module Signal.

(** ** Definitions *)

(** The layout of [struct interrupt_frame] and [struct sigframe]. *)
Definition sizeof_interrupt_frame : Z := 176.
Definition OFF_rdi : Z := 72.
Definition OFF_rax : Z := 112.
Definition OFF_rip : Z := 136.
Definition OFF_rsp : Z := 160.
Definition sizeof_sigframe : Z := 184.
Definition OFF_tf : Z := 8.

(** [sys_signal]: the old handler, -1 for a bad number. *)
Definition sys_signal (s : sched) (sig handler : Z) : sched * Z :=
  if (sig <=? 0) || (32 <=? sig) then (s, u64 (-1))
  else
    let cur := current_process s in
    let old := get s cur (signal_handler sig) in
    (set s cur (signal_handler sig) handler, old).

(** The bytes of [mov eax, 119; int 0x80]. *)
Definition trampoline_code : list Z := [0xB8; 119; 0; 0; 0; 0xCD; 0x80].

Fixpoint store_bytes (m : mem) (a : Z) (l : list Z) : mem :=
  match l with
  | [] => m
  | b :: l => store_bytes (store8 m a b) (a + 1) l
  end.

Definition setup_frame (m : mem) (sig handler frame : Z) : mem :=
  let rsp := load64 m (frame + OFF_rsp) in
  let rsp := u64 (rsp - sizeof_sigframe) in
  let rsp := Z.ldiff rsp 0xF in
  let sf := rsp in
  let m := CString.memcpy m (sf + OFF_tf) frame sizeof_interrupt_frame in
  let m := store_bytes m sf trampoline_code in
  let m := store64 m (frame + OFF_rsp) rsp in
  let m := store64 m (frame + OFF_rip) handler in
  let m := store64 m (frame + OFF_rdi) sig in
  let m := store64 m (frame + OFF_rsp) (u64 (load64 m (frame + OFF_rsp) - 8)) in
  store64 m (load64 m (frame + OFF_rsp)) sf.

(** The result is an [int]: the low half of the restored [rax]. *)
Definition sys_sigreturn (m : mem) (frame : Z) : mem * Z :=
  let sf := load64 m (frame + OFF_rsp) in
  let m := CString.memcpy m frame (sf + OFF_tf) sizeof_interrupt_frame in
  (m, s32 (load64 m (frame + OFF_rax))).

(** What [handle_pending_signals] ends with: back to user mode, or
    [process_exit], which does not return. *)
Inductive outcome := Resume (s : sched) (m : mem) | Exit (s : sched) (code : Z).

Fixpoint deliver (s : sched) (m : mem) (frame signals i : Z) (n : nat) : outcome :=
  match n with
  | O => Resume s m
  | S n =>
      if negb (signals .& (1 .<< i) =? 0) then
        let cur := current_process s in
        let s := set s cur pending_signals (u32 (Z.ldiff (get s cur pending_signals) (1 .<< i))) in
        let handler := get s cur (signal_handler i) in
        if handler =? 0 then Exit s (128 + i)
        else if handler =? 1 then deliver s m frame signals (i + 1) n
        else Resume s (setup_frame m i handler frame)
      else deliver s m frame signals (i + 1) n
  end.

Definition handle_pending_signals (s : sched) (m : mem) (frame : Z) : outcome :=
  if current_process s =? 0 then Resume s m
  else
    let signals := get s (current_process s) pending_signals in
    if signals =? 0 then Resume s m else deliver s m frame signals 1 31.

(** ** The saved frame *)

Lemma store_bytes_other l : forall m a x, x < a \/ a + Z.of_nat (length l) <= x -> store_bytes m a l x = m x.
Proof.
  induction l as [|b l IH]; intros m a x Hx; simpl; [done|]. simpl length in Hx.
  rewrite IH by lia. apply store8_other. lia.
Qed.

Lemma store_bytes_at l : forall m a k b,
  l !! k = Some b -> store_bytes m a l (a + Z.of_nat k) = u8 b.
Proof.
  induction l as [|c l IH]; intros m a k b Hk; [done|]. destruct k as [|k]; simpl in *.
  - injection Hk as ->. rewrite store_bytes_other by lia. rewrite Z.add_0_r. apply store8_same.
  - replace (a + Z.of_nat (S k)) with (a + 1 + Z.of_nat k) by lia. by apply IH.
Qed.

Lemma store_bytes_ok l : forall m a, mem_ok m -> mem_ok (store_bytes m a l).
Proof. induction l as [|b l IH]; intros m a Hm; simpl; [done|]. by apply IH, store8_ok. Qed.

(** Where the signal frame goes. *)
Definition sigframe_at (m : mem) (frame : Z) : Z := Z.ldiff (u64 (load64 m (frame + OFF_rsp) - sizeof_sigframe)) 0xF.

Lemma ldiff_16 x : Z.ldiff x 0xF = x / 16 * 16.
Proof.
  change 0xF with (Z.ones 4). by rewrite Z.ldiff_ones_r, Z.shiftl_mul_pow2, Z.shiftr_div_pow2 by lia.
Qed.

Lemma sigframe_range m frame :
  mem_ok m -> 192 + 15 <= load64 m (frame + OFF_rsp) ->
  8 <= sigframe_at m frame < 2 ^ 64 /\ sigframe_at m frame mod 16 = 0 /\
  sigframe_at m frame + sizeof_sigframe <= load64 m (frame + OFF_rsp).
Proof.
  intros Hm Hr. pose proof (load64_range m (frame + OFF_rsp) Hm). unfold sigframe_at, sizeof_sigframe in *.
  rewrite ldiff_16, u64_small by lia.
  pose proof (Z.div_mod (load64 m (frame + OFF_rsp) - 184) 16 ltac:(lia)).
  pose proof (Z.mod_pos_bound (load64 m (frame + OFF_rsp) - 184) 16 ltac:(lia)).
  split; [lia|]. split; [by apply Z.mod_mul|lia].
Qed.

(** After [setup_frame]: the interrupted frame is saved above the trampoline
    code, the handler's return address is that code, and the frame to be
    restored enters the handler with the signal number. *)
Lemma setup_frame_spec m sig handler frame :
  let sf := sigframe_at m frame in
  let m' := setup_frame m sig handler frame in
  mem_ok m -> 207 <= load64 m (frame + OFF_rsp) -> 0 <= handler < 2 ^ 64 -> 0 <= sig < 32 ->
  frame + 176 <= sf - 8 \/ sf + 184 <= frame ->
  (forall i, 0 <= i < 176 -> m' (sf + OFF_tf + i) = m (frame + i)) /\
  (forall k b, trampoline_code !! k = Some b -> m' (sf + Z.of_nat k) = b) /\
  load64 m' (frame + OFF_rip) = handler /\ load64 m' (frame + OFF_rdi) = sig /\
  load64 m' (frame + OFF_rsp) = sf - 8 /\ load64 m' (sf - 8) = sf.
Proof.
  intros sf m' Hm Hr Hh Hs Hd. destruct (sigframe_range m frame Hm ltac:(lia)) as (Hsf & _ & Htop). fold sf in Hsf, Htop.
  unfold m', setup_frame. change (Z.ldiff (u64 (load64 m (frame + OFF_rsp) - sizeof_sigframe)) 0xF) with sf.
  unfold OFF_tf, OFF_rsp, OFF_rip, OFF_rdi, sizeof_interrupt_frame, sizeof_sigframe in *.
  set (m1 := CString.memcpy m (sf + 8) frame 176).
  assert (forall x, m1 x = if decide (sf + 8 <= x < sf + 8 + 176) then m (frame + (x - (sf + 8))) else m x) as H1.
  { intros x. apply (CString.memcpy_copy m (sf + 8) frame 176 Hm ltac:(lia)). unfold CString.fwd_ok. lia. }
  set (m2 := store_bytes m1 sf trampoline_code).
  set (m3 := store64 m2 (frame + 160) sf). set (m4 := store64 m3 (frame + 136) handler).
  set (m5 := store64 m4 (frame + 72) sig).
  assert (load64 m5 (frame + 160) = sf) as E5.
  { unfold m5, m4. rewrite !load64_store64_other by lia. unfold m3. apply load64_store64_same. lia. }
  rewrite E5, (u64_small (sf - 8)) by lia. set (m6 := store64 m5 (frame + 160) (sf - 8)).
  assert (load64 m6 (frame + 160) = sf - 8) as E6 by (apply load64_store64_same; lia). rewrite E6.
  assert (forall x, sf <= x < sf + 184 -> store64 m6 (sf - 8) sf x = m2 x) as Hkeep.
  { intros x Hx. rewrite store64_other by lia. unfold m6, m5, m4, m3. by rewrite !store64_other by lia. }
  split; [|split; [|split; [|split; [|split]]]].
  - intros i Hi. rewrite Hkeep by lia. unfold m2. rewrite store_bytes_other by (simpl length; lia).
    rewrite H1, decide_True by lia. f_equal. lia.
  - intros k b Hk. pose proof (lookup_lt_Some _ _ _ Hk) as Hlt. simpl in Hlt. rewrite Hkeep by lia.
    unfold m2. rewrite (store_bytes_at _ _ _ _ _ Hk). unfold trampoline_code in Hk.
    do 7 (destruct k as [|k]; [simpl in Hk; by injection Hk as <-|]). lia.
  - rewrite load64_store64_other by lia. unfold m6, m5. rewrite !load64_store64_other by lia.
    by apply load64_store64_same.
  - rewrite load64_store64_other by lia. unfold m6. rewrite load64_store64_other by lia.
    apply load64_store64_same. lia.
  - rewrite load64_store64_other by lia. done.
  - apply load64_store64_same. lia.
Qed.

Lemma setup_frame_ok m sig handler frame :
  mem_ok m -> CString.fwd_ok (sigframe_at m frame + OFF_tf) frame sizeof_interrupt_frame ->
  mem_ok (setup_frame m sig handler frame).
Proof.
  intros Hm Hd. unfold setup_frame. do 5 apply store64_ok. apply store_bytes_ok.
  intros x. rewrite (CString.memcpy_copy m _ _ sizeof_interrupt_frame Hm ltac:(done) Hd). by apply CString.copy_ok.
Qed.

(** ** Properties *)

(** C8: a handled signal is transparent to the interrupted code.  The frame
    returned to user mode starts the handler, with the signal number as its
    argument and a 16-byte aligned signal frame, at the trampoline as return
    address; and whatever the handler does to memory outside the signal frame,
    the [sys_sigreturn] that the trampoline then calls, with the stack pointer
    at the signal frame, restores every byte of the interrupted frame and
    returns the [int] in its [rax]: the low 32 bits, sign-extended, while the
    frame itself holds all 64. *)
Theorem signal_roundtrip m sig handler frame m1 frame2 :
  let sf := sigframe_at m frame in
  let m' := setup_frame m sig handler frame in
  mem_ok m -> 207 <= load64 m (frame + OFF_rsp) -> 0 <= handler < 2 ^ 64 -> 0 <= sig < 32 ->
  frame + 176 <= sf - 8 \/ sf + 184 <= frame ->
  mem_ok m1 -> (forall x, sf <= x < sf + 184 -> m1 x = m' x) ->
  load64 m1 (frame2 + OFF_rsp) = sf -> frame2 + 176 <= sf + 8 \/ sf + 184 <= frame2 ->
  load64 m' (frame + OFF_rip) = handler /\ load64 m' (frame + OFF_rdi) = sig /\
  load64 m' (load64 m' (frame + OFF_rsp)) = sf /\ sf mod 16 = 0 /\
  (forall k b, trampoline_code !! k = Some b -> m' (sf + Z.of_nat k) = b) /\
  let '(m2, rax) := sys_sigreturn m1 frame2 in
  (forall i, 0 <= i < 176 -> m2 (frame2 + i) = m (frame + i)) /\
  load64 m2 (frame2 + OFF_rax) = load64 m (frame + OFF_rax) /\ rax = s32 (load64 m (frame + OFF_rax)).
Proof.
  intros sf m' Hm Hr Hh Hs Hd Hm1 Hsame Hsp Hd2.
  destruct (setup_frame_spec m sig handler frame Hm Hr Hh Hs Hd) as (Hsave & Htr & Hrip & Hrdi & Hrsp & Hret).
  fold m' sf in Hsave, Htr, Hrip, Hrdi, Hrsp, Hret.
  destruct (sigframe_range m frame Hm ltac:(lia)) as (_ & Hal & _).
  split; [done|]. split; [done|]. split; [by rewrite Hrsp|]. split; [done|]. split; [done|].
  unfold sys_sigreturn. rewrite Hsp. unfold OFF_tf, OFF_rax, OFF_rsp, sizeof_interrupt_frame in *.
  assert (forall i, 0 <= i < 176 -> CString.memcpy m1 frame2 (sf + 8) 176 (frame2 + i) = m (frame + i)) as Hall.
  { intros i Hi. rewrite (CString.memcpy_copy m1 frame2 (sf + 8) 176 Hm1) by (unfold CString.fwd_ok; lia).
    unfold CString.copy. rewrite decide_True by lia. replace (sf + 8 + (frame2 + i - frame2)) with (sf + 8 + i) by lia.
    rewrite Hsame by lia. by apply Hsave. }
  split; [done|].
  assert (forall n k, 0 <= k -> k + Z.of_nat n <= 176 ->
    load_le (CString.memcpy m1 frame2 (sf + 8) 176) (frame2 + k) n = load_le m (frame + k) n) as Hload.
  { induction n as [|n IH]; intros k Hk Hn; cbn [load_le]; [done|]. rewrite Hall by lia. f_equal.
    rewrite <- !Z.add_assoc. rewrite IH by lia. done. }
  assert (load64 (CString.memcpy m1 frame2 (sf + 8) 176) (frame2 + 112) = load64 m (frame + 112)) as Hrax
    by (apply (Hload 8%nat 112); lia).
  split; [exact Hrax|]. by rewrite Hrax.
Qed.
(** ** Choosing the signal *)

(** [k] is the lowest pending signal from [i] on that is not ignored. *)
Definition first_unignored (sigs : Z) (h : Z -> Z) (i k : Z) : Prop :=
  i <= k < 32 /\ Z.testbit sigs k = true /\ h k <> 1 /\
  forall j, i <= j < k -> Z.testbit sigs j = true -> h j = 1.

Lemma clear_bit_spec p i j : 0 <= i < 32 -> 0 <= j < 32 ->
  Z.testbit (u32 (Z.ldiff p (1 .<< i))) j = if decide (j = i) then false else Z.testbit p j.
Proof.
  intros Hi Hj. unfold u32. rewrite Z.mod_pow2_bits_low, Z.ldiff_spec, Z.shiftl_1_l by lia.
  case_decide; [subst; rewrite Z.pow2_bits_true by lia; apply andb_false_r|].
  rewrite Z.pow2_bits_false by lia. apply andb_true_r.
Qed.

(** What the loop over the signals from [i] on leaves of the pending set
    [p], when it stops at signal [k]. *)
Definition cleared (sigs p : Z) (i k : Z) (p' : Z) : Prop :=
  forall j, 0 <= j < 32 ->
    Z.testbit p' j = Z.testbit p j && negb ((i <=? j) && (j <=? k) && Z.testbit sigs j).

(** The result of that loop for handlers [h] and process [cur]. *)
Definition delivered (h : Z -> Z) (sigs : Z) (m : mem) (frame cur i p : Z) (o : outcome) : Prop :=
  match o with
  | Exit s' code =>
      exists k, first_unignored sigs h i k /\ h k = 0 /\ code = 128 + k /\
        cleared sigs p i k (get s' cur pending_signals)
  | Resume s' m' =>
      (exists k, first_unignored sigs h i k /\ h k <> 0 /\ m' = setup_frame m k (h k) frame /\
         cleared sigs p i k (get s' cur pending_signals)) \/
      (m' = m /\ (forall j, i <= j < 32 -> Z.testbit sigs j = true -> h j = 1) /\
         cleared sigs p i 31 (get s' cur pending_signals))
  end.

Lemma cleared_shift sigs p p1 i k p' :
  i <= k -> (forall j, 0 <= j < 32 -> Z.testbit p1 j = Z.testbit p j && negb ((j =? i) && Z.testbit sigs i)) ->
  cleared sigs p1 (i + 1) k p' -> cleared sigs p i k p'.
Proof.
  intros Hk Hp H j Hj. rewrite H, Hp by done. rewrite <- andb_assoc. f_equal.
  destruct (j =? i) eqn:E; simpl_bool.
  - subst. rewrite Z.leb_refl, (proj2 (Z.leb_le i k)), (proj2 (Z.leb_gt (i + 1) i)) by lia. simpl. apply andb_true_r.
  - simpl. destruct (decide (i <= j)).
    + by rewrite (proj2 (Z.leb_le (i + 1) j)), (proj2 (Z.leb_le i j)) by lia.
    + by rewrite (proj2 (Z.leb_gt (i + 1) j)), (proj2 (Z.leb_gt i j)) by lia.
Qed.

(** A signal that is not pending or is ignored is passed over. *)
Lemma delivered_shift h sigs m frame cur i p p1 o :
  0 <= i < 32 -> (Z.testbit sigs i = true -> h i = 1) ->
  (forall j, 0 <= j < 32 -> Z.testbit p1 j = Z.testbit p j && negb ((j =? i) && Z.testbit sigs i)) ->
  delivered h sigs m frame cur (i + 1) p1 o -> delivered h sigs m frame cur i p o.
Proof.
  intros Hi Hign Hp.
  assert (forall k, first_unignored sigs h (i + 1) k -> i <= k /\ first_unignored sigs h i k) as Hfu.
  { intros k (H1 & H2 & H3 & H4). split; [lia|]. split; [lia|]. split; [done|]. split; [done|]. intros j Hj Hjb.
    destruct (decide (j = i)) as [->|]; [auto|]. apply H4; [lia|done]. }
  destruct o as [s' m'|s' code]; simpl.
  - intros [(k & Hk & H0 & Hm & Hb)|(Hm & Hall & Hb)]; [left; exists k|right].
    + apply Hfu in Hk as [Hik Hk]. split; [done|]. split; [done|]. split; [done|]. by apply (cleared_shift _ _ p1).
    + split; [done|]. split; [|apply (cleared_shift _ _ p1); [lia|done|done]]. intros j Hj Hjb.
      destruct (decide (j = i)) as [->|]; [auto|]. apply Hall; [lia|done].
  - intros (k & Hk & H0 & Hc & Hb). exists k. apply Hfu in Hk as [Hik Hk].
    split; [done|]. split; [done|]. split; [done|]. by apply (cleared_shift _ _ p1).
Qed.

Lemma deliver_spec h frame sigs m n : forall s i,
  0 <= i -> i + Z.of_nat n = 32 -> (forall k, get s (current_process s) (signal_handler k) = h k) ->
  delivered h sigs m frame (current_process s) i (get s (current_process s) pending_signals)
    (deliver s m frame sigs i n).
Proof.
  induction n as [|n IH]; intros s i Hi Hn Hh; cbn [deliver].
  - right. split; [done|]. split; [intros; lia|]. intros j Hj. rewrite (proj2 (Z.leb_gt i j)) by lia.
    simpl. by rewrite andb_true_r.
  - rewrite Z.shiftl_1_l, land_pow2_zero, negb_involutive by lia. rewrite <- Z.shiftl_1_l.
    set (cur := current_process s). destruct (Z.testbit sigs i) eqn:Ei.
    + set (s1 := set s cur pending_signals _).
      assert (forall k, get s1 cur (signal_handler k) = h k) as Hh1
        by (intros; rewrite <- Hh; unfold s1, get; simpl; by wr_simp).
      assert (forall j, 0 <= j < 32 -> Z.testbit (get s1 cur pending_signals) j =
        Z.testbit (get s cur pending_signals) j && negb ((j =? i) && Z.testbit sigs i)) as Hb.
      { intros j Hj. unfold s1, get at 1. simpl. wr_simp. rewrite clear_bit_spec, Ei, andb_true_r by lia.
        case_decide; [subst; by rewrite Z.eqb_refl, andb_false_r|].
        rewrite (proj2 (Z.eqb_neq j i)) by done. simpl. by rewrite andb_true_r. }
      assert (cleared sigs (get s cur pending_signals) i i (get s1 cur pending_signals)) as Hci.
      { intros j Hj. rewrite Hb by done. f_equal. f_equal. destruct (decide (j = i)) as [->|].
        - by rewrite Z.eqb_refl, Z.leb_refl.
        - rewrite (proj2 (Z.eqb_neq j i)) by done. destruct (i <=? j) eqn:E1, (j <=? i) eqn:E2; simpl_bool; try done. lia. }
      rewrite Hh1. destruct (h i =? 0) eqn:E0; simpl_bool.
      { exists i. split; [|done]. split; [lia|]. split; [done|]. split; [lia|]. intros; lia. }
      destruct (h i =? 1) eqn:E1; simpl_bool.
      * apply (delivered_shift h sigs m frame cur i _ (get s1 cur pending_signals)); [lia|done|done|].
        apply (IH s1); [lia|lia|exact Hh1].
      * left. exists i. split; [|done]. split; [lia|]. split; [done|]. split; [done|]. intros; lia.
    + apply (delivered_shift h sigs m frame cur i _ (get s cur pending_signals)); [lia|congruence| |apply IH; [lia|lia|done]].
      intros j Hj. by rewrite Ei, andb_false_r, andb_true_r.
Qed.

(** C16: on the way back to user mode the lowest-numbered pending signal that
    is not ignored is acted on, and only that one: with the default action the
    process exits with 128 plus its number, with a handler the frame is set up
    for it; that signal and the ignored ones below it are no longer pending,
    every other signal stays pending. *)
Theorem pending_signals_delivered s m frame :
  let cur := current_process s in
  let p := get s cur pending_signals in
  let h k := get s cur (signal_handler k) in
  cur <> 0 -> p <> 0 ->
  match handle_pending_signals s m frame with
  | Exit s' code =>
      exists k, first_unignored p h 1 k /\ h k = 0 /\ code = 128 + k /\
        cleared p p 1 k (get s' cur pending_signals)
  | Resume s' m' =>
      (exists k, first_unignored p h 1 k /\ h k <> 0 /\ m' = setup_frame m k (h k) frame /\
         cleared p p 1 k (get s' cur pending_signals)) \/
      (m' = m /\ (forall j, 1 <= j < 32 -> Z.testbit p j = true -> h j = 1) /\
         cleared p p 1 31 (get s' cur pending_signals))
  end.
Proof.
  intros cur p h Hc Hp. unfold handle_pending_signals. fold cur. fold p.
  rewrite (proj2 (Z.eqb_neq cur 0)), (proj2 (Z.eqb_neq p 0)) by done.
  assert (delivered h p m frame cur 1 p (deliver s m frame p 1 31)) as H.
  { apply (deliver_spec h frame p m 31 s 1); [lia|lia|]. intros k. reflexivity. }
  revert H. generalize (deliver s m frame p 1 31). intros [s' m'|s' code] H; exact H.
Qed.

(** ** Concrete states *)

Definition demo_sched : sched :=
  Sched (fun p f => match f with
                    | pending_signals => 0x8A00
                    | signal_handler i => if i =? 9 then 1 else if i =? 11 then 0x400000 else 0
                    | _ => 0
                    end) (fun _ => 0) (fun _ => 0) 0 0 100 100 7 0.

Lemma pending_signals_delivered_witness :
  exists s' k, handle_pending_signals demo_sched (fun _ => 0) 0x7000 =
    Resume s' (setup_frame (fun _ => 0) k 0x400000 0x7000) /\ k = 11 /\
    cleared 0x8A00 0x8A00 1 k (get s' 100 pending_signals).
Proof.
  pose proof (pending_signals_delivered demo_sched (fun _ => 0) 0x7000 ltac:(discriminate) ltac:(discriminate)) as H.
  cbv zeta in H.
  destruct (handle_pending_signals demo_sched (fun _ => 0) 0x7000) as [s' m'|s' code] eqn:E; [|discriminate E].
  assert (Z.testbit 0x8A00 11 = true) as Hb by reflexivity.
  destruct H as [(k & Hk & _ & -> & Hc)|(_ & H & _)]; [|specialize (H 11 ltac:(lia) Hb); discriminate H].
  assert (k = 11) as ->.
  { destruct Hk as (Hr & Hk & Hh & Hlow).
    assert (k <= 11) as Hle.
    { destruct (decide (k <= 11)) as [|Hn]; [done|].
      specialize (Hlow 11 ltac:(lia) Hb). discriminate Hlow. }
    assert (forallb (fun j => negb (Z.testbit 0x8A00 j) || (j =? 9) || (j =? 11)) (seqZ 1 11) = true) as Hall by reflexivity.
    rewrite forallb_forall in Hall. specialize (Hall k).
    assert (In k (seqZ 1 11)) as Hin by (apply list_elem_of_In, elem_of_seqZ; lia).
    specialize (Hall Hin). change (get demo_sched (current_process demo_sched) pending_signals) with 0x8A00 in Hk.
    rewrite Hk in Hall. simpl in Hall. apply orb_true_iff in Hall as [E9|E11]; [|lia].
    apply Z.eqb_eq in E9. subst k. exfalso. apply Hh. reflexivity. }
  exists s', 11. split; [reflexivity|]. split; [reflexivity|exact Hc].
Defined.

Definition demo_mem : mem := fun x => if x =? 0x7000 + 161 then 0x90 else if x =? 0x7000 + 112 then 5
  else if x =? 0x7000 + 116 then 1 else 0.

Lemma signal_roundtrip_witness :
  let sf := 0x8F40 in
  let m' := setup_frame demo_mem 11 0x400000 0x7000 in
  let m1 := store64 m' (0x6000 + OFF_rsp) sf in
  load64 (sys_sigreturn m1 0x6000).1 (0x6000 + OFF_rax) = 0x100000005 /\ (sys_sigreturn m1 0x6000).2 = 5.
Proof.
  intros sf m' m1.
  assert (mem_ok demo_mem) as Hm by (intros x; unfold demo_mem; repeat case_if; lia).
  assert (mem_ok m') as Hm' by (apply setup_frame_ok; [done|right; vm_compute; discriminate]).
  pose proof (signal_roundtrip demo_mem 11 0x400000 0x7000 m1 0x6000 Hm) as H. cbv zeta in H.
  change (sigframe_at demo_mem 0x7000) with sf in H. fold m' in H.
  destruct H as (_ & _ & _ & _ & _ & H).
  - vm_compute. discriminate.
  - lia.
  - lia.
  - left. vm_compute. discriminate.
  - by apply store64_ok.
  - intros x Hx. apply store64_other. unfold sf, OFF_rsp in *. lia.
  - apply load64_store64_same. unfold sf. lia.
  - left. vm_compute. discriminate.
  - destruct (sys_sigreturn m1 0x6000) as [m2 rax]. destruct H as (_ & Hrax & ->).
    split; [etransitivity; [exact Hrax|reflexivity]|reflexivity].
Defined.

End Signal.
