(* ===== verification/SortedQueue.v ===== *)
(** * Queues kept sorted by a key

    The timers and the block requests of the kernel are [list.h] lists that
    are kept sorted by walking to the first node with a larger key and adding
    in front of it.  This file has the walk, the abstract insertion and the
    lemmas that connect them. *)
From stdpp Require Import sorting.
From S2P Require Import Prelude ListHead.
Import ListHead.

(** The walk [list_for_each(pos, head) if (p(pos)) break]: the node found, or
    the head when there is none. *)
Definition find_step (st : gmap Z list_head) (h : Z) (p : Z -> bool) : Z -> Z + option Z :=
  fun curr =>
    if curr =? h then inr (Some h)
    else if p curr then inr (Some curr)
    else match get_next st curr with
         | Some n => inl n
         | None => inr None
         end.

Definition list_find (fuel : nat) (st : gmap Z list_head) (h : Z) (p : Z -> bool) : option Z :=
  first ← get_next st h; mjoin (loop fuel (find_step st h p) first).

(** Insertion behind the nodes whose key is no larger. *)
Fixpoint insert_at (ex : Z -> Z) (t e : Z) (l : list Z) : list Z :=
  match l with
  | [] => [t]
  | x :: r => if e <? ex x then t :: x :: r else x :: insert_at ex t e r
  end.

Definition without (t : Z) (l : list Z) : list Z := filter (fun x => x <> t) l.

(** ** The walk on a well-formed list *)

Lemma before_last h l1 x : before h (l1 ++ [x]) = x.
Proof. unfold before. change (h :: l1 ++ [x]) with ((h :: l1) ++ [x]). apply last_last. Qed.

Lemma find_loop st h p l1 l2 l3 :
  dlist st h (l1 ++ l2 ++ l3) -> Forall (fun x => p x = false) l2 ->
  match l3 with [] => True | x :: _ => p x = true end ->
  loop (S (length l2)) (find_step st h p) (after h (l2 ++ l3)) = Some (Some (after h l3)).
Proof.
  revert l1. induction l2 as [|x l2 IH]; intros l1 Hd H2 H3.
  - simpl. unfold find_step. destruct l3 as [|y l3]; simpl; [by rewrite Z.eqb_refl|].
    rewrite (proj2 (Z.eqb_neq _ _)); [by rewrite H3|].
    intros ->. destruct Hd as [_ Hnd]. apply NoDup_cons in Hnd as [Hn _]. set_solver.
  - assert (x <> h) as Hne.
    { intros ->. destruct Hd as [_ Hnd]. apply NoDup_cons in Hnd as [Hn _]. set_solver. }
    apply Forall_cons in H2 as [Hx H2]. cbn [length loop app after List.hd].
    unfold find_step at 1. rewrite (proj2 (Z.eqb_neq _ _) Hne), Hx.
    replace (l1 ++ (x :: l2) ++ l3) with ((l1 ++ [x]) ++ l2 ++ l3) in Hd by (by rewrite <- app_assoc).
    destruct (dlist_gap _ _ _ _ Hd) as [Hg _]. rewrite before_last in Hg. rewrite Hg. by apply (IH (l1 ++ [x])).
Qed.

Lemma list_find_dlist st h l1 l2 p fuel :
  dlist st h (l1 ++ l2) -> Forall (fun x => p x = false) l1 ->
  match l2 with [] => True | x :: _ => p x = true end -> (length l1 < fuel)%nat ->
  list_find fuel st h p = Some (after h l2).
Proof.
  intros Hd H1 H2 Hf. unfold list_find. rewrite (dlist_first _ _ _ Hd). cbn [mbind option_bind].
  by rewrite (loop_more _ (S (length l1)) fuel _ _ (find_loop st h p [] l1 l2 Hd H1 H2)) by lia.
Qed.

Lemma dlist_ext st st' h l : (forall x, x ∈ h :: l -> st' !! x = st !! x) -> dlist st h l -> dlist st' h l.
Proof.
  intros He [Hl Hnd]. split; [|done].
  apply (linked_frame st); [..|done]; intros x Hx; unfold get_next, get_prev; rewrite He; try done.
  - apply elem_of_removelast in Hx. set_solver.
  - simpl in Hx. set_solver.
Qed.

Lemma list_for_each_fuel st h l fuel :
  dlist st h l -> (length l < fuel)%nat -> list_for_each fuel st h = Some l.
Proof.
  intros Hd Hf. pose proof (list_for_each_dlist _ _ _ Hd) as He. unfold list_for_each in *.
  destruct (loop (S (length l)) _ _) as [v|] eqn:El; [|done]. by rewrite (loop_more _ _ fuel _ _ El) by lia.
Qed.

(** Insertion at the place the search found. *)
Lemma list_add_tail_gap st h l1 l2 t :
  dlist st h (l1 ++ l2) -> is_Some (st !! t) -> t ∉ h :: l1 ++ l2 ->
  exists st', list_add_tail st t (after h l2) = Some st' /\ dlist st' h (l1 ++ t :: l2) /\
    (forall x, x ∉ t :: h :: l1 ++ l2 -> st' !! x = st !! x).
Proof.
  intros Hd Ht Hn. destruct l2 as [|y l2]; simpl.
  - rewrite !app_nil_r in *. by apply list_add_tail_dlist.
  - by apply list_add_tail_before.
Qed.

(** ** Sorted insertion *)

Lemma without_notin t l : t ∉ l -> without t l = l.
Proof.
  unfold without. induction l as [|x l IH]; [done|]. intros Hn.
  rewrite filter_cons_True by set_solver. f_equal. apply IH. set_solver.
Qed.

Lemma without_mid t l1 l2 : t ∉ l1 ++ l2 -> without t (l1 ++ t :: l2) = l1 ++ l2.
Proof.
  intros Hn. unfold without. rewrite filter_app, filter_cons_False by (intros H; by apply H).
  f_equal; apply without_notin; set_solver.
Qed.

Lemma insert_at_split ex t e l :
  exists l1 l2, l = l1 ++ l2 /\ insert_at ex t e l = l1 ++ t :: l2 /\
    Forall (fun x => ex x <= e) l1 /\ match l2 with [] => True | x :: _ => e < ex x end.
Proof.
  induction l as [|x l (l1 & l2 & -> & E & H1 & H2)]; simpl.
  - by exists [], [].
  - destruct (Z.ltb_spec e (ex x)) as [Hlt|Hle].
    + exists [], (x :: l1 ++ l2). done.
    + exists (x :: l1), l2. rewrite E. split; [done|]. split; [done|]. split; [by constructor|done].
Qed.

(** A queue that is split stays sorted without its middle, and an insertion
    between smaller and larger expiries keeps it sorted. *)
Lemma sorted_app (l1 l2 : list Z) :
  StronglySorted Z.le (l1 ++ l2) <->
  StronglySorted Z.le l1 /\ StronglySorted Z.le l2 /\ forall x y, x ∈ l1 -> y ∈ l2 -> x <= y.
Proof.
  induction l1 as [|a l1 IH]; simpl.
  - split; [intros H; split; [constructor|]; split; [done|]; intros x y Hx; by apply not_elem_of_nil in Hx|by intros (_ & H & _)].
  - split.
    + intros H. apply StronglySorted_inv in H as [H Ha]. apply IH in H as (H1 & H2 & H12).
      rewrite Forall_app in Ha. destruct Ha as [Ha1 Ha2]. split; [by constructor|]. split; [done|].
      intros x y Hx Hy. apply elem_of_cons in Hx as [->|Hx]; [|by apply H12].
      rewrite Forall_forall in Ha2. by apply Ha2.
    + intros (H1 & H2 & H12). apply StronglySorted_inv in H1 as [H1 Ha]. constructor.
      * apply IH. split; [done|]. split; [done|]. intros x y Hx Hy. apply H12; [set_solver|done].
      * apply Forall_app. split; [done|]. apply Forall_forall. intros y Hy. apply H12; [set_solver|done].
Qed.

Lemma sorted_insert_key (ex : Z -> Z) (t e : Z) (l1 l2 : list Z) :
  t ∉ l1 ++ l2 -> StronglySorted Z.le (ex <$> l1 ++ l2) -> Forall (fun x => ex x <= e) l1 ->
  match l2 with [] => True | x :: _ => e < ex x end ->
  StronglySorted Z.le ((fun x => if decide (x = t) then e else ex x) <$> l1 ++ t :: l2).
Proof.
  intros Hn Hs H1 H2. rewrite fmap_app, sorted_app in *. destruct Hs as (Hs1 & Hs2 & H12). cbn [fmap list_fmap].
  assert (forall l : list Z, t ∉ l -> (fun x => if decide (x = t) then e else ex x) <$> l = ex <$> l) as Hext.
  { intros l Hl. apply list_fmap_ext. intros i x Hx. rewrite decide_False; [done|].
    intros ->. apply Hl. by eapply list_elem_of_lookup_2. }
  rewrite decide_True, !Hext by set_solver.
  assert (Forall (fun y => e <= y) (ex <$> l2)) as He.
  { destruct l2 as [|x l2]; [constructor|]. cbn [fmap list_fmap] in *. apply StronglySorted_inv in Hs2 as [_ Hx].
    constructor; [lia|]. eapply Forall_impl; [exact Hx|]. simpl. lia. }
  split; [done|]. split; [by constructor|].
  intros x y Hx Hy. apply elem_of_cons in Hy as [->|Hy]; [|by apply H12].
  apply list_elem_of_fmap in Hx as (z & -> & Hz). rewrite Forall_forall in H1. by apply H1.
Qed.

Lemma sorted_without (ex : Z -> Z) l1 t l2 :
  StronglySorted Z.le (ex <$> l1 ++ t :: l2) -> StronglySorted Z.le (ex <$> l1 ++ l2).
Proof.
  rewrite !fmap_app, !sorted_app. cbn [fmap list_fmap]. intros (H1 & H2 & H12).
  apply StronglySorted_inv in H2 as [H2 _]. split; [done|]. split; [done|].
  intros x y Hx Hy. apply H12; [done|set_solver].
Qed.
