(* ===== verification/Hrtimer.v ===== *)
(** * High-resolution timers (src/kernel/time/hrtimer.c)

    The armed timers are one list ordered by expiry.  A timer is addressed by
    its [node], the first field of [struct hrtimer]; [hrtimer_list] is the
    address of the list head.  A timer's function is code of other parts of
    the kernel: it is a parameter, and what [hrtimer_run_queues] needs of it is
    a hypothesis of the theorems.  The time-stamp counter is an argument. *)
From stdpp Require Import sorting.
From S2P Require Import Prelude ListHead SortedQueue.
Import ListHead.

Module Hrtimer.

(** ** State and operations *)

Record timers := Timers {
  t_links : gmap Z list_head;
  expires : Z -> Z;
  function : Z -> Z
}.

Definition ktime_get_ns (tsc_frequency initial_tsc current_tsc : Z) : option Z :=
  let diff := u64 (current_tsc - initial_tsc) in
  let mhz := tsc_frequency / 1000000 in
  if mhz =? 0 then None else Some (u64 (diff * 1000) / mhz).

(** The frequency computed from two readings of the counters. *)
Definition calibrate (start_pit end_pit start_tsc end_tsc : Z) : option Z :=
  let pit_ticks := u32 (start_pit - end_pit) in
  if pit_ticks =? 0 then None else Some (u64 (u64 (end_tsc - start_tsc) * 1193182) / pit_ticks).

Definition hrtimer_init (s : timers) (timer : Z) : timers :=
  Timers (INIT_LIST_HEAD (t_links s) timer) (expires s)
    (fun x => if decide (x = timer) then 0 else function s x).

Section queue.
Context (hrtimer_list : Z).

Definition hrtimer_init_system (s : timers) : timers :=
  Timers (INIT_LIST_HEAD (t_links s) hrtimer_list) (expires s) (function s).

(** The timer goes in front of the timer found, or at the end. *)
Definition insert_timer (fuel : nat) (s : timers) (timer e : Z) : option timers :=
  pos ← list_find fuel (t_links s) hrtimer_list (fun curr => e <? expires s curr);
  st ← list_add_tail (t_links s) timer pos;
  Some (Timers st (expires s) (function s)).

Definition hrtimer_start (fuel : nat) (s : timers) (timer e : Z) : option timers :=
  n ← get_next (t_links s) timer;
  p ← get_prev (t_links s) timer;
  st ← (if negb (n =? 0) && negb (n =? timer) && negb (p =? 0)
        then list_del (t_links s) timer else Some (t_links s));
  insert_timer fuel (Timers st (fun x => if decide (x = timer) then e else expires s x) (function s)) timer e.

Definition hrtimer_cancel (s : timers) (timer : Z) : option timers :=
  n ← get_next (t_links s) timer;
  p ← get_prev (t_links s) timer;
  st ← (if negb (n =? 0) && negb (p =? 0) then list_del (t_links s) timer else Some (t_links s));
  Some (Timers st (expires s) (function s)).

(** [callback f timer s]: the effect of the function at [f] on the timers; the
    fired timers are recorded in order.  The value returned by the function is
    not used by the code. *)
Definition run_step (callback : Z -> Z -> timers -> option timers) (now : Z) :
    timers * list Z -> (timers * list Z) + option (timers * list Z) :=
  fun '(s, fired) =>
    match get_next (t_links s) hrtimer_list with
    | None => inr None
    | Some curr =>
        if curr =? hrtimer_list then inr (Some (s, fired))
        else if expires s curr <=? now then
          match list_del (t_links s) curr with
          | None => inr None
          | Some st =>
              let s := Timers st (expires s) (function s) in
              match (if negb (function s curr =? 0) then callback (function s curr) curr s else Some s) with
              | None => inr None
              | Some s => inl (s, fired ++ [curr])
              end
          end
        else inr (Some (s, fired))
    end.

Definition hrtimer_run_queues (callback : Z -> Z -> timers -> option timers) (fuel : nat) (now : Z)
    (s : timers) : option (timers * list Z) :=
  mjoin (loop fuel (run_step callback now) (s, [])).

(** ** The queue as a sorted list of timers *)

Definition queue_ok (s : timers) (l : list Z) : Prop :=
  dlist (t_links s) hrtimer_list l /\ 0 ∉ hrtimer_list :: l /\ StronglySorted Z.le (expires s <$> l).

(** A timer outside the queue: never armed, or taken out. *)
Definition idle (s : timers) (t : Z) : Prop :=
  t <> hrtimer_list /\ t <> 0 /\ (t_links s !! t = Some (LH 0 0) \/ t_links s !! t = Some (LH t t)).

Definition due (ex : Z -> Z) (now : Z) (l : list Z) : list Z := filter (fun x => ex x <= now) l.

(** ** Lemmas *)

Lemma queue_neighbours s l1 t l2 :
  queue_ok s (l1 ++ t :: l2) ->
  exists n p, get_next (t_links s) t = Some n /\ get_prev (t_links s) t = Some p /\
    n <> 0 /\ p <> 0 /\ n <> t /\ t ∉ hrtimer_list :: l1 ++ l2.
Proof.
  intros (Hd & H0 & _). exists (after hrtimer_list l2), (before hrtimer_list l1).
  pose proof Hd as [_ Hnd].
  assert (t ∉ hrtimer_list :: l1 ++ l2) as Ht.
  { apply NoDup_cons in Hnd as [Hh Hnd]. apply NoDup_app in Hnd as (_ & Hx & Hnd). apply NoDup_cons in Hnd as [Ht _].
    intros Hin. apply elem_of_cons in Hin as [->|Hin]; [apply Hh; set_solver|].
    apply elem_of_app in Hin as [Hin|Hin]; [|done]. apply (Hx t Hin). set_solver. }
  destruct (dlist_gap _ _ l1 (t :: l2) Hd) as [_ Hp]. simpl in Hp.
  replace (l1 ++ t :: l2) with ((l1 ++ [t]) ++ l2) in Hd by (by rewrite <- app_assoc).
  destruct (dlist_gap _ _ _ _ Hd) as [Hn _].
  rewrite before_last in Hn. split; [done|]. split; [done|].
  pose proof (after_in hrtimer_list l2). pose proof (before_in hrtimer_list l1).
  repeat split; [intros E; apply H0; rewrite <- E; set_solver..|intros E; apply Ht; rewrite <- E; set_solver|done].
Qed.

Lemma idle_not_queued s l t : queue_ok s l -> idle s t -> t ∉ hrtimer_list :: l.
Proof.
  intros Hq (Hh & _ & Hi) Hin. apply elem_of_cons in Hin as [->|Hin]; [done|].
  apply list_elem_of_split in Hin as (l1 & l2 & ->).
  destruct (queue_neighbours s l1 t l2 Hq) as (n & p & Hn & _ & Hn0 & _ & Hnt & _).
  unfold get_next in Hn. destruct Hi as [Hi|Hi]; rewrite Hi in Hn; simpl in Hn; congruence.
Qed.

(** The second half of [hrtimer_start]: a timer that is not queued. *)
Lemma arm_spec fuel st s l t e :
  dlist st hrtimer_list l -> 0 ∉ hrtimer_list :: l -> StronglySorted Z.le (expires s <$> l) ->
  is_Some (st !! t) -> t <> 0 -> t ∉ hrtimer_list :: l -> (length l < fuel)%nat ->
  let s1 := Timers st (fun x => if decide (x = t) then e else expires s x) (function s) in
  exists s',
    insert_timer fuel s1 t e = Some s' /\
    queue_ok s' (insert_at (expires s) t e l) /\
    expires s' = expires s1 /\ function s' = function s /\
    (forall x, x ∉ t :: hrtimer_list :: l -> t_links s' !! x = st !! x).
Proof.
  intros Hd H0 Hs Hp Ht0 Htl Hf s1.
  destruct (insert_at_split (expires s) t e l) as (l1 & l2 & -> & Hi & H1 & H2). rewrite Hi.
  assert (forall x, x ∈ l1 ++ l2 -> expires s1 x = expires s x) as Hex.
  { intros x Hx. simpl. rewrite decide_False; [done|]. intros ->. set_solver. }
  unfold insert_timer. change (t_links s1) with st.
  rewrite (list_find_dlist _ _ l1 l2 _ _ Hd); cycle 1.
  { apply Forall_forall. intros x Hx. rewrite Forall_forall in H1. rewrite Hex by set_solver. apply Z.ltb_ge. by apply H1. }
  { destruct l2 as [|y l2]; [done|]. rewrite Hex by set_solver. by apply Z.ltb_lt. }
  { rewrite length_app in Hf. lia. }
  cbn [mbind option_bind].
  destruct (list_add_tail_gap st hrtimer_list l1 l2 t Hd Hp Htl) as (st' & -> & Hd' & Hfr).
  eexists. split; [reflexivity|]. split; [|done].
  split; [exact Hd'|]. split; [set_solver|]. apply sorted_insert_key; [set_solver|done..].
Qed.

(** Taking a queued timer out. *)
Lemma remove_spec s l1 t l2 :
  queue_ok s (l1 ++ t :: l2) ->
  exists st, list_del (t_links s) t = Some st /\ queue_ok (Timers st (expires s) (function s)) (l1 ++ l2) /\
    idle (Timers st (expires s) (function s)) t /\
    (forall x, x ∉ hrtimer_list :: l1 ++ t :: l2 -> st !! x = t_links s !! x).
Proof.
  intros Hq. destruct (queue_neighbours s l1 t l2 Hq) as (_ & _ & _ & _ & _ & _ & _ & Hn).
  destruct Hq as (Hd & H0 & Hs).
  destruct (list_del_dlist _ _ _ _ _ Hd) as (st & -> & Hd' & He & Hfr). exists st.
  split; [done|]. split; [split; [done|]; split; [set_solver|by apply (sorted_without _ _ t)]|].
  split; [|done]. split; [set_solver|]. split; [set_solver|]. by left.
Qed.

Lemma start_spec fuel s l t e :
  queue_ok s l -> idle s t \/ t ∈ l -> (length l < fuel)%nat ->
  exists s', hrtimer_start fuel s t e = Some s' /\
    queue_ok s' (insert_at (expires s) t e (without t l)) /\
    (forall x, expires s' x = if decide (x = t) then e else expires s x) /\ function s' = function s /\
    (forall x, x ∉ t :: hrtimer_list :: l -> t_links s' !! x = t_links s !! x).
Proof.
  intros Hq Ht Hf. unfold hrtimer_start. destruct Ht as [Hi|Hin].
  - pose proof (idle_not_queued s l t Hq Hi) as Hn. destruct Hq as (Hd & H0 & Hs). destruct Hi as (Hh & Ht0 & Hi).
    rewrite without_notin by set_solver.
    assert (is_Some (t_links s !! t)) as Hp by (destruct Hi as [->| ->]; eauto).
    assert (exists n p, get_next (t_links s) t = Some n /\ get_prev (t_links s) t = Some p /\
              negb (n =? 0) && negb (n =? t) && negb (p =? 0) = false) as (n & p & -> & -> & Hg).
    { unfold get_next, get_prev. destruct Hi as [->| ->]; simpl; eexists _, _; split_and!; try done.
      rewrite Z.eqb_refl. by rewrite andb_false_r. }
    cbn [mbind option_bind]. rewrite Hg. cbn [mbind option_bind].
    destruct (arm_spec fuel (t_links s) s l t e Hd H0 Hs Hp Ht0 Hn Hf) as (s' & -> & Hq' & He & Hfn & Hfr).
    exists s'. by rewrite He.
  - apply list_elem_of_split in Hin as (l1 & l2 & ->).
    destruct (queue_neighbours s l1 t l2 Hq) as (n & p & -> & -> & Hn0 & Hp0 & Hnt & Hn).
    rewrite without_mid by set_solver.
    cbn [mbind option_bind]. rewrite !(proj2 (Z.eqb_neq _ _)) by done. cbn [negb andb].
    destruct (remove_spec s l1 t l2 Hq) as (st & -> & (Hd & H0 & Hs) & (_ & Ht0 & Hi) & Hfr0).
    cbn [mbind option_bind t_links] in *.
    rewrite length_app in Hf. simpl in Hf.
    destruct (arm_spec fuel st s (l1 ++ l2) t e Hd H0 Hs) as (s' & -> & Hq' & He & Hfn & Hfr).
    { destruct Hi as [->| ->]; eauto. } { done. } { done. } { rewrite length_app. lia. }
    exists s'. rewrite He. split; [done|]. split; [done|]. split; [done|]. split; [done|].
    intros x Hx. rewrite Hfr by set_solver. apply Hfr0. set_solver.
Qed.

Lemma cancel_spec s l t :
  queue_ok s l -> t ∈ l ->
  exists s', hrtimer_cancel s t = Some s' /\ queue_ok s' (without t l) /\ idle s' t /\
    expires s' = expires s /\ function s' = function s.
Proof.
  intros Hq Hin. apply list_elem_of_split in Hin as (l1 & l2 & ->).
  destruct (queue_neighbours s l1 t l2 Hq) as (n & p & En & Ep & Hn0 & Hp0 & Hnt & Hn).
  rewrite without_mid by set_solver. unfold hrtimer_cancel. rewrite En, Ep.
  cbn [mbind option_bind]. rewrite !(proj2 (Z.eqb_neq _ _)) by done. cbn [negb andb].
  destruct (remove_spec s l1 t l2 Hq) as (st & -> & Hq' & Hi & _). eexists. done.
Qed.

(** The due timers are a prefix of the queue. *)
Lemma due_cons (ex : Z -> Z) now x l :
  StronglySorted Z.le (ex <$> x :: l) ->
  due ex now (x :: l) = if ex x <=? now then x :: due ex now l else [].
Proof.
  intros Hs. unfold due. destruct (Z.leb_spec (ex x) now) as [Hle|Hgt].
  - by rewrite filter_cons_True by done.
  - rewrite filter_cons_False by lia. cbn [fmap list_fmap] in Hs. apply StronglySorted_inv in Hs as [_ Ha].
    rewrite Forall_fmap in Ha. clear -Ha Hgt. induction Ha as [|y l Hy _ IH]; [done|].
    rewrite filter_cons_False; [exact IH|]. simpl in Hy. lia.
Qed.

Section run.
Context (callback : Z -> Z -> timers -> option timers) (now : Z).

(** What a timer function must respect: it returns, keeps the queue well
    formed, and neither arms a timer for a time that has passed nor disarms
    one that is due. *)
Definition callback_ok : Prop :=
  forall f t s l, queue_ok s l -> idle s t ->
    exists s' l', callback f t s = Some s' /\ queue_ok s' l' /\
      due (expires s') now l' = due (expires s) now l.

Lemma run_loop fuel s l fired :
  callback_ok -> queue_ok s l -> (length (due (expires s) now l) < fuel)%nat ->
  exists s' l', loop fuel (run_step callback now) (s, fired) = Some (Some (s', fired ++ due (expires s) now l)) /\
    queue_ok s' l' /\ due (expires s') now l' = [].
Proof.
  intros Hcb. revert s l fired. induction fuel as [|fuel IH]; intros s l fired Hq Hf; [lia|].
  cbn [loop]. unfold run_step at 1. pose proof Hq as (Hd & H0 & Hs).
  rewrite (dlist_first _ _ _ Hd). destruct l as [|x l].
  - cbn [after List.hd]. rewrite Z.eqb_refl, app_nil_r. by exists s, [].
  - cbn [after List.hd]. rewrite (proj2 (Z.eqb_neq _ _)); cycle 1.
    { intros ->. destruct Hd as [_ Hnd]. apply NoDup_cons in Hnd as [Hn _]. set_solver. }
    rewrite due_cons in * by done. destruct (Z.leb_spec (expires s x) now) as [Hle|Hgt].
    + destruct (remove_spec s [] x l Hq) as (st & -> & Hq1 & Hi & _). cbn [app] in Hq1.
      set (s1 := Timers st (expires s) (function s)) in *.
      assert (exists s2 l2, (if negb (function s1 x =? 0) then callback (function s1 x) x s1 else Some s1) = Some s2 /\
                queue_ok s2 l2 /\ due (expires s2) now l2 = due (expires s1) now l) as (s2 & l2 & -> & Hq2 & Hdue).
      { destruct (function s1 x =? 0); [by exists s1, l|]. by apply Hcb. }
      destruct (IH s2 l2 (fired ++ [x]) Hq2) as (s3 & l3 & Hl & Hq3 & Hd3).
      { rewrite Hdue. simpl in *. lia. }
      exists s3, l3. rewrite Hl, Hdue, <- app_assoc. done.
    + rewrite app_nil_r. exists s, (x :: l). split; [done|]. split; [done|].
      rewrite due_cons by done. by rewrite (proj2 (Z.leb_gt _ _) Hgt).
Qed.

End run.

(** ** A periodic timer: the function re-arms its timer for later *)

Definition rearm (period now : Z) (f t : Z) (s : timers) : option timers :=
  hrtimer_start (size (t_links s)) s t (now + period).

Lemma queue_size s l : queue_ok s l -> (length l < size (t_links s))%nat.
Proof.
  intros (Hd & _). assert (list_to_set (hrtimer_list :: l) ⊆ dom (t_links s)) as Hsub.
  { intros x Hx. apply elem_of_list_to_set in Hx. apply elem_of_dom. by apply (dlist_present _ hrtimer_list l). }
  apply subseteq_size in Hsub. rewrite size_list_to_set in Hsub by apply Hd. rewrite size_dom in Hsub. simpl in Hsub. lia.
Qed.

Lemma due_ext (ex ex' : Z -> Z) now l : (forall x, x ∈ l -> ex x = ex' x) -> due ex now l = due ex' now l.
Proof.
  intros He. unfold due. induction l as [|x l IH]; [done|].
  pose proof (He x ltac:(set_solver)) as Hx. rewrite !filter_cons, Hx.
  rewrite IH by (intros y Hy; apply He; set_solver). done.
Qed.

Lemma rearm_ok period now : 0 < period -> callback_ok (rearm period now) now.
Proof.
  intros Hp f t s l Hq Hi. pose proof (idle_not_queued s l t Hq Hi) as Hn.
  destruct (start_spec (size (t_links s)) s l t (now + period) Hq (or_introl Hi) (queue_size s l Hq))
    as (s' & Hs & Hq' & He & _ & _).
  exists s'. eexists. split; [exact Hs|]. split; [exact Hq'|].
  rewrite without_notin by set_solver.
  destruct (insert_at_split (expires s) t (now + period) l) as (l1 & l2 & -> & -> & _ & _).
  assert (forall x, x ∈ l1 ++ l2 -> expires s' x = expires s x) as Hx.
  { intros x Hx. rewrite He, decide_False; [done|]. intros ->. set_solver. }
  unfold due at 1. rewrite filter_app, filter_cons_False by (rewrite He, decide_True by done; lia).
  rewrite <- filter_app. by apply due_ext.
Qed.

End queue.

(** Arming a timer, whether it is idle or already armed, leaves the queue
    sorted by expiry with the timer behind those that expire no later and
    once in the queue; disarming takes exactly the timer out.  Other timers
    keep their expiry. *)
Theorem hrtimer_queue_sorted hl fuel s l t e :
  queue_ok hl s l -> idle hl s t \/ t ∈ l -> (length l < fuel)%nat ->
  (exists s', hrtimer_start hl fuel s t e = Some s' /\
     queue_ok hl s' (insert_at (expires s) t e (without t l)) /\
     (forall x, expires s' x = if decide (x = t) then e else expires s x)) /\
  (t ∈ l -> exists s', hrtimer_cancel s t = Some s' /\ queue_ok hl s' (without t l) /\ idle hl s' t /\
     expires s' = expires s).
Proof.
  intros Hq Ht Hf. split.
  - destruct (start_spec hl fuel s l t e Hq Ht Hf) as (s' & ? & ? & ? & _). by exists s'.
  - intros Hin. destruct (cancel_spec hl s l t Hq Hin) as (s' & ? & ? & ? & ? & _). by exists s'.
Qed.

(** When every timer function behaves (it returns, keeps the queue well
    formed and arms nothing for the past), [hrtimer_run_queues] returns after
    firing exactly the timers that are due, each once and in the order of
    their expiry, and every timer left in the sorted queue expires later. *)
Theorem hrtimer_run_fires_due hl callback now fuel s l :
  callback_ok hl callback now -> queue_ok hl s l -> (length (due (expires s) now l) < fuel)%nat ->
  exists s' l', hrtimer_run_queues hl callback fuel now s = Some (s', due (expires s) now l) /\
    StronglySorted Z.le (expires s <$> due (expires s) now l) /\ NoDup (due (expires s) now l) /\
    queue_ok hl s' l' /\ Forall (fun t => now < expires s' t) l'.
Proof.
  intros Hcb Hq Hf. destruct (run_loop hl callback now fuel s l [] Hcb Hq Hf) as (s' & l' & Hl & Hq' & Hd').
  exists s', l'. unfold hrtimer_run_queues. rewrite Hl. split; [done|].
  destruct Hq as ([_ Hnd] & _ & Hs). apply NoDup_cons in Hnd as [_ Hnd].
  split; [|split; [by apply NoDup_filter|]].
  - clear -Hs. induction l as [|x l IH]; [constructor|]. rewrite due_cons by done.
    cbn [fmap list_fmap] in Hs. apply StronglySorted_inv in Hs as [Hs Ha].
    destruct (expires s x <=? now); [|constructor]. cbn [fmap list_fmap]. constructor; [by apply IH|].
    rewrite Forall_fmap, Forall_forall in *. intros y Hy. apply Ha. by apply list_elem_of_filter in Hy as [_ Hy].
  - split; [done|]. apply Forall_forall. intros x Hx. apply Z.nle_gt. intros Hle.
    assert (x ∈ due (expires s') now l') as Hin by (apply list_elem_of_filter; done).
    rewrite Hd' in Hin. by apply not_elem_of_nil in Hin.
Qed.

(** ** A concrete queue: timers 200 and 300 armed for 5 and 9, 400 idle *)

Definition demo_timers : timers :=
  Timers (list_to_map [(100, LH 200 300); (200, LH 300 100); (300, LH 100 200); (400, LH 0 0)])
    (fun t => if t =? 200 then 5 else if t =? 300 then 9 else 0) (fun t => 0x1000).

Lemma demo_queue : queue_ok 100 demo_timers [200; 300].
Proof.
  split; [split|split].
  - vm_compute. done.
  - repeat constructor; set_solver.
  - set_solver.
  - repeat constructor; vm_compute; discriminate.
Qed.

Lemma hrtimer_queue_sorted_witness :
  exists s', hrtimer_start 100 3 demo_timers 400 7 = Some s' /\ queue_ok 100 s' [200; 400; 300].
Proof.
  destruct (hrtimer_queue_sorted 100 3 demo_timers [200; 300] 400 7 demo_queue) as [(s' & Hs & Hq & _) _].
  - left. split; [lia|]. split; [lia|]. left. reflexivity.
  - simpl. lia.
  - exists s'. split; [exact Hs|exact Hq].
Defined.

Lemma hrtimer_run_fires_due_witness :
  exists s' l', hrtimer_run_queues 100 (rearm 100 10 7) 2 7 demo_timers = Some (s', [200]) /\
    queue_ok 100 s' l' /\ Forall (fun t => 7 < expires s' t) l'.
Proof.
  destruct (hrtimer_run_fires_due 100 (rearm 100 10 7) 7 2 demo_timers [200; 300]
              (rearm_ok 100 10 7 ltac:(lia)) demo_queue) as (s' & l' & Hr & _ & _ & Hq & Ha).
  - vm_compute. lia.
  - exists s', l'. split; [exact Hr|]. split; [exact Hq|exact Ha].
Defined.

End Hrtimer.
