(* ===== verification/Block.v ===== *)
(** * The block layer (src/kernel/drivers/block/elevator.c, blockdev.c)

    A disk's request queue holds requests in a [list.h] list; each request
    covers a run of sectors with a chain of bios.  Submitting a bio merges it
    into the first request that ends where the bio starts, or makes a new
    request and hands it to the elevator: [noop] appends, [deadline] keeps the
    queue sorted by sector.  The request structures come from the allocator
    interface. *)
From stdpp Require Import sorting.
From S2P Require Import Prelude Allocator ListHead Store SortedQueue Spinlock Heap.
Import ListHead.
#[local] Existing Instance Heap.heap_allocator.

Module Block.

(** ** State *)

Inductive bfld :=
  (** of [struct request] *)
  | rq_sector | rq_nr_sectors | rq_buffer | rq_bio | rq_q | rq_flags
  (** of [struct bio] and [struct bio_vec] *)
  | bio_sector | bio_size | bio_disk | bio_io_vec | bio_vc_cnt | bio_idx | bio_rw | bio_flags | bio_end_io
  | bio_private_data | bio_next | bv_page | bv_len | bv_offset
  (** of [struct request_queue], [struct elevator_queue] and [struct gendisk] *)
  | q_request_fn | q_make_request_fn | q_elevator | e_type | e_ops | d_queue | d_capacity | d_private_data.

#[export] Instance bfld_eq_dec : EqDecision bfld.
Proof. solve_decision. Defined.

Definition ELEVATOR_INSERT_BACK : Z := 0.
Definition ELEVATOR_INSERT_FRONT : Z := 1.

(** The addresses of the static objects: the two schedulers (an
    [elevator_type] and its operations) and the generic [__make_request]. *)
Definition noop_iosched : Z := 1.
Definition deadline_iosched : Z := 2.
Definition make_request_ptr : Z := 3.

Definition sizeof_request : Z := 64.
Definition sizeof_elevator_queue : Z := 40.
(** [&e->queue_head] *)
Definition e_queue_head (e : Z) : Z := e + 24.

Section block.
Context {A : Type} `{Allocator A}.
(** The state of the rest of the kernel, which drivers and completions change. *)
Context {R : Type}.

Record blk := Blk { b_links : gmap Z list_head; b_st : store bfld; b_heap : A; b_rest : R }.

Definition bget (s : blk) (a : Z) (f : bfld) : Z := b_st s a f.
Definition bset (s : blk) (a : Z) (f : bfld) (v : Z) : blk := Blk (b_links s) (wr (b_st s) a f v) (b_heap s) (b_rest s).
(** [memset] of a whole structure to 0. *)
Definition clear (s : blk) (a : Z) : blk :=
  Blk (b_links s) (fun x f => if decide (x = a) then 0 else b_st s x f) (b_heap s) (b_rest s).
Definition with_heap (s : blk) (h : A) : blk := Blk (b_links s) (b_st s) h (b_rest s).
Definition with_links (s : blk) (l : gmap Z list_head) : blk := Blk l (b_st s) (b_heap s) (b_rest s).

(** ** The elevators *)

Definition noop_add_req (s : blk) (q rq where_ : Z) : option blk :=
  let head := e_queue_head (bget s q q_elevator) in
  with_links s <$> (if where_ =? ELEVATOR_INSERT_FRONT then list_add (b_links s) rq head
                    else list_add_tail (b_links s) rq head).

Definition noop_next_req (s : blk) (q : Z) : option Z :=
  let head := e_queue_head (bget s q q_elevator) in
  empty ← list_empty (b_links s) head;
  if (empty : bool) then Some 0 else get_next (b_links s) head.

(** [while (b->next) b = b->next;] *)
Definition last_bio_step (s : blk) : Z -> Z + Z :=
  fun b => if negb (bget s b bio_next =? 0) then inl (bget s b bio_next) else inr b.

(** Both elevators use the same text; the test compares 64-bit values. *)
Definition noop_merge_req (fuel : nat) (s : blk) (req bio : Z) : option (blk * bool) :=
  if u64 (bget s req rq_sector + bget s req rq_nr_sectors) =? bget s bio bio_sector then
    s ← (if negb (bget s req rq_bio =? 0) then
           b ← loop fuel (last_bio_step s) (bget s req rq_bio);
           Some (bset s b bio_next bio)
         else Some (bset s req rq_bio bio));
    Some (bset s req rq_nr_sectors (u32 (bget s req rq_nr_sectors + (bget s bio bio_size .>> 9))), true)
  else Some (s, false).

Definition deadline_merge_req (fuel : nat) (s : blk) (req bio : Z) : option (blk * bool) :=
  noop_merge_req fuel s req bio.

(** The walk stops at the first request with a larger sector, and the request
    goes in front of it. *)
Definition deadline_add_req (fuel : nat) (s : blk) (q rq where_ : Z) : option blk :=
  let head := e_queue_head (bget s q q_elevator) in
  if where_ =? ELEVATOR_INSERT_FRONT then with_links s <$> list_add (b_links s) rq head
  else
    pos ← list_find fuel (b_links s) head (fun curr => bget s rq rq_sector <? bget s curr rq_sector);
    if pos =? head then with_links s <$> list_add_tail (b_links s) rq head
    else
      p ← get_prev (b_links s) pos;
      with_links s <$> list_add (b_links s) rq p.

Definition deadline_next_req (s : blk) (q : Z) : option Z := noop_next_req s q.

(** Dispatch through the operations of the queue's elevator. *)
Definition elv_add_request (fuel : nat) (s : blk) (q rq where_ : Z) : option blk :=
  let e := bget s q q_elevator in
  if e =? 0 then Some s
  else if bget s e e_ops =? deadline_iosched then deadline_add_req fuel s q rq where_
  else noop_add_req s q rq where_.

Definition elv_next_request (s : blk) (q : Z) : option Z :=
  let e := bget s q q_elevator in
  if e =? 0 then Some 0
  else if bget s e e_ops =? deadline_iosched then deadline_next_req s q else noop_next_req s q.

Definition merge_step (fuel : nat) (head bio : Z) (deadline : bool) : blk * Z -> (blk * Z) + option (blk * bool) :=
  fun '(s, pos) =>
    if pos =? head then inr (Some (s, false))
    else match (if deadline then deadline_merge_req fuel s pos bio else noop_merge_req fuel s pos bio) with
         | None => inr None
         | Some (s, true) => inr (Some (s, true))
         | Some (s, false) =>
             match get_next (b_links s) pos with
             | Some n => inl (s, n)
             | None => inr None
             end
         end.

Definition elv_merge_bio (fuel : nat) (s : blk) (q bio : Z) : option (blk * bool) :=
  let e := bget s q q_elevator in
  if e =? 0 then Some (s, false)
  else
    let head := e_queue_head e in
    empty ← list_empty (b_links s) head;
    if (empty : bool) then Some (s, false)
    else
      first ← get_next (b_links s) head;
      mjoin (loop fuel (merge_step fuel head bio (bget s e e_ops =? deadline_iosched)) (s, first)).

Definition elevator_find (name : list Z) : Z :=
  if decide (name = [110; 111; 111; 112]) then noop_iosched
  else if decide (name = [100; 101; 97; 100; 108; 105; 110; 101]) then deadline_iosched
  else noop_iosched.

Definition elevator_init (s : blk) (q : Z) (name : list Z) : option (blk * Z) :=
  let t := elevator_find name in
  '(h, eq) ← a_alloc (b_heap s) sizeof_elevator_queue;
  let s := with_heap s h in
  if eq =? 0 then Some (s, -1)
  else
    let s := bset (bset s eq e_type t) eq e_ops t in
    let s := with_links s (INIT_LIST_HEAD (b_links s) (e_queue_head eq)) in
    Some (bset s q q_elevator eq, 0).

Definition elevator_exit (s : blk) (e : Z) : option blk :=
  if negb (e =? 0) then h ← a_free (b_heap s) e; Some (with_heap s h) else Some s.

(** ** Request queues *)

Definition sizeof_request_queue : Z := 80.

(** A failed [elevator_init] is only reported. *)
Definition blk_init_queue (s : blk) (rfn : Z) : option (blk * Z) :=
  '(h, q) ← a_alloc (b_heap s) sizeof_request_queue;
  let s := with_heap s h in
  if q =? 0 then Some (s, 0)
  else
    let s := clear s q in
    let s := bset s q q_request_fn rfn in
    let s := with_links s (INIT_LIST_HEAD (b_links s) q) in
    '(s, _) ← elevator_init s q [110; 111; 111; 112];
    Some (bset s q q_make_request_fn make_request_ptr, q).

Definition blk_queue_make_request (s : blk) (q mfn : Z) : blk := bset s q q_make_request_fn mfn.

(** ** Submitting a bio *)

Definition blk_get_request (s : blk) (q : Z) : option (blk * Z) :=
  '(h, rq) ← a_alloc (b_heap s) sizeof_request;
  let s := with_heap s h in
  if rq =? 0 then Some (s, 0)
  else
    let s := clear s rq in
    let s := with_links s (INIT_LIST_HEAD (b_links s) rq) in
    Some (bset s rq rq_q q, rq).

(** [req] takes over the bio's position, length and direction. *)
Definition fill_request (s : blk) (req bio : Z) : blk :=
  let s := bset s req rq_bio bio in
  let vec := bget s bio bio_io_vec in
  let s := bset s req rq_buffer (if negb (vec =? 0) then bget s vec bv_page else 0) in
  let s := bset s req rq_sector (bget s bio bio_sector) in
  let s := bset s req rq_nr_sectors (bget s bio bio_size / 512) in
  bset s req rq_flags (bget s bio bio_rw).

Inductive submitted := Merged | Queued (rq : Z) | NoMemory.

(** The part of [__make_request] under the queue lock. *)
Definition queue_bio (fuel : nat) (s : blk) (q bio : Z) : option (blk * submitted) :=
  '(s, merged) ← elv_merge_bio fuel s q bio;
  if (merged : bool) then Some (s, Merged)
  else
    '(s, req) ← blk_get_request s q;
    if req =? 0 then Some (s, NoMemory)
    else
      s ← elv_add_request fuel (fill_request s req bio) q req 0;
      Some (s, Queued req).

Section drivers.
(** The driver's [request_fn] and the submitter's [end_io] are parameters:
    what the function at an address does. *)
Context (request_fn : Z -> Z -> blk -> option blk) (end_io : Z -> Z -> blk -> option blk).

Definition complete (s : blk) (bio : Z) : option blk :=
  let f := bget s bio bio_end_io in if negb (f =? 0) then end_io f bio s else Some s.

Definition make_request (fuel : nat) (s : blk) (q bio : Z) : option blk :=
  '(s, o) ← queue_bio fuel s q bio;
  match o with
  | Merged => Some s
  | NoMemory => complete s bio
  | Queued _ => let f := bget s q q_request_fn in if negb (f =? 0) then request_fn f q s else Some s
  end.

(** [driver_make_request] is the function a driver installed with
    [blk_queue_make_request]. *)
Definition submit_bio (driver_make_request : Z -> Z -> Z -> blk -> option blk) (fuel : nat) (s : blk) (bio : Z) : option blk :=
  if bio =? 0 then Some s
  else
    let disk := bget s bio bio_disk in
    if (disk =? 0) || (bget s disk d_queue =? 0) then complete s bio
    else
      let q := bget s disk d_queue in
      let f := bget s q q_make_request_fn in
      if f =? make_request_ptr then make_request fuel s q bio
      else if negb (f =? 0) then driver_make_request f q bio s
      else complete s bio.
End drivers.

(** ** Requests as runs of bios *)

(** The bios [bs] cover the sectors from [start + acc] on, one after the other,
    up to [start + total], in the arithmetic of the code ([nr_sectors] has 32
    bits, sectors have 64). *)
Fixpoint covers (s : blk) (start acc : Z) (bs : list Z) (total : Z) : Prop :=
  match bs with
  | [] => total = acc
  | b :: r => bget s b bio_sector = u64 (start + acc) /\
              covers s start (u32 (acc + (bget s b bio_size .>> 9))) r total
  end.

Definition request_ok (s : blk) (r : Z) (bs : list Z) : Prop :=
  bs <> [] /\ slist (b_st s) bio_next (bget s r rq_bio) bs /\
  covers s (bget s r rq_sector) 0 bs (bget s r rq_nr_sectors).

Definition live_at (s : blk) (a : Z) : Prop := exists t, a_live (b_heap s) a t.

(** The queue [q] holds the requests and bios of [Q], in this order. *)
Record queue_rep (s : blk) (q : Z) (Q : list (Z * list Z)) : Prop := {
  qr_heap : a_wf (b_heap s);
  qr_elevator : bget s q q_elevator <> 0 /\ exists t, 40 <= t /\ a_live (b_heap s) (bget s q q_elevator) t;
  qr_queue : live_at s q;
  qr_list : dlist (b_links s) (e_queue_head (bget s q q_elevator)) Q.*1;
  qr_request : forall r bs, (r, bs) ∈ Q -> request_ok s r bs;
  qr_live : forall r bs x, (r, bs) ∈ Q -> x ∈ r :: bs -> live_at s x;
  qr_disjoint : NoDup (mjoin Q.*2)
}.

Definition deadline_queue (s : blk) (q : Z) : bool := bget s (bget s q q_elevator) e_ops =? deadline_iosched.
Definition mergeable (s : blk) (bio r : Z) : bool :=
  u64 (bget s r rq_sector + bget s r rq_nr_sectors) =? bget s bio bio_sector.
Definition sectors (s : blk) (Q : list (Z * list Z)) : list Z := (fun r => bget s r rq_sector) <$> Q.*1.

(** A bio that can be submitted: no one has it queued, its fields are in
    range. *)
Definition bio_ready (s : blk) (Q : list (Z * list Z)) (bio : Z) : Prop :=
  bio <> 0 /\ live_at s bio /\ bio ∉ mjoin Q.*2 /\ bget s bio bio_next = 0 /\
  0 <= bget s bio bio_sector < 2 ^ 64 /\ 0 <= bget s bio bio_size < 2 ^ 32.

(** ** Lemmas *)

Lemma bget_bset s a f v b g : bget (bset s a f v) b g = if decide (b = a /\ g = f) then v else bget s b g.
Proof. done. Qed.

Lemma covers_ext s s' start acc bs total :
  (forall b, b ∈ bs -> bget s' b bio_sector = bget s b bio_sector /\ bget s' b bio_size = bget s b bio_size) ->
  covers s start acc bs total -> covers s' start acc bs total.
Proof.
  revert acc. induction bs as [|b bs IH]; intros acc He; simpl; [done|].
  destruct (He b ltac:(set_solver)) as [-> ->]. intros [H1 H2]. split; [done|]. apply IH; [|done].
  intros x Hx. apply He. set_solver.
Qed.

Lemma covers_snoc s start acc bs total b :
  covers s start acc bs total -> bget s b bio_sector = u64 (start + total) ->
  covers s start acc (bs ++ [b]) (u32 (total + (bget s b bio_size .>> 9))).
Proof.
  revert acc. induction bs as [|x bs IH]; intros acc; simpl; [intros -> ?; done|].
  intros [H1 H2] Hb. split; [done|]. by apply IH.
Qed.

(** A request only depends on some fields of it and of its bios. *)
Lemma request_ok_ext s s' r bs :
  (forall f, f ∈ [rq_bio; rq_sector; rq_nr_sectors] -> bget s' r f = bget s r f) ->
  (forall b f, b ∈ bs -> f ∈ [bio_next; bio_sector; bio_size] -> bget s' b f = bget s b f) ->
  request_ok s r bs -> request_ok s' r bs.
Proof.
  intros Hr Hb (Hne & Hl & Hc). split; [done|]. rewrite !Hr by set_solver. split.
  - eapply slist_ext; [|exact Hl]. intros x Hx. apply (Hb x bio_next Hx). set_solver.
  - eapply covers_ext; [|exact Hc]. intros b Hin. split; apply Hb; set_solver.
Qed.

Lemma join_split (Q : list (Z * list Z)) r bs :
  (r, bs) ∈ Q -> exists Q1 Q2, Q = Q1 ++ (r, bs) :: Q2 /\ mjoin Q.*2 = mjoin Q1.*2 ++ bs ++ mjoin Q2.*2.
Proof.
  intros Hin. apply list_elem_of_split in Hin as (Q1 & Q2 & ->). exists Q1, Q2. split; [done|].
  rewrite fmap_app, join_app. done.
Qed.

Lemma join_length (Q : list (Z * list Z)) r bs : (r, bs) ∈ Q -> (length bs <= length (mjoin Q.*2))%nat.
Proof. intros Hin. destruct (join_split Q r bs Hin) as (Q1 & Q2 & _ & ->). rewrite !length_app. lia. Qed.

Lemma join_elem (Q : list (Z * list Z)) r bs x : (r, bs) ∈ Q -> x ∈ bs -> x ∈ mjoin Q.*2.
Proof. intros Hin Hx. destruct (join_split Q r bs Hin) as (Q1 & Q2 & _ & ->). set_solver. Qed.

(** Merging into one request: only its length, and the link of its last bio,
    change. *)
Lemma merge_req_spec fuel s r bs bio :
  request_ok s r bs -> bio <> 0 -> bio ∉ bs -> bget s bio bio_next = 0 -> (length bs <= fuel)%nat ->
  exists s', noop_merge_req fuel s r bio = Some (s', mergeable s bio r) /\
    if mergeable s bio r then
      b_links s' = b_links s /\ b_heap s' = b_heap s /\
      request_ok s' r (bs ++ [bio]) /\
      (forall x f, f <> bio_next \/ x ∉ bs -> f <> rq_nr_sectors \/ x <> r -> bget s' x f = bget s x f)
    else s' = s.
Proof.
  intros (Hne & Hl & Hc) Hb0 Hnin Hn Hf. unfold noop_merge_req, mergeable.
  destruct (Z.eqb_spec (u64 (bget s r rq_sector + bget s r rq_nr_sectors)) (bget s bio bio_sector)) as [E|E];
    [|by exists s].
  assert (bget s r rq_bio <> 0) as Hr0 by (intros E0; apply Hne; by apply (slist_head _ _ _ _ Hl)).
  rewrite (proj2 (Z.eqb_neq _ _) Hr0). cbn [negb].
  rewrite (last_node_loop (b_st s) bio_next (last_bio_step s)) with (l := bs) by done. cbn [mbind option_bind].
  destruct (exists_last Hne) as (l & x & ->). rewrite lastp_snoc.
  eexists. split; [done|]. split; [done|]. split; [done|]. split.
  - split; [by destruct l|]. rewrite !bget_bset. repeat (rewrite decide_False by naive_solver).
    rewrite decide_True by done. split.
    + simpl. apply slist_wr; [by right|]. by apply slist_append.
    + apply (covers_ext s); [intros b _; split; rewrite !bget_bset; repeat (rewrite decide_False by naive_solver); done|].
      apply covers_snoc; [done|]. by rewrite E.
  - intros y f Hy1 Hy2. rewrite !bget_bset. rewrite decide_False by naive_solver.
    rewrite decide_False; [done|]. intros [-> ->]. destruct Hy1 as [|Hy1]; [done|]. apply Hy1. set_solver.
Qed.

Lemma merge_rep s s' q Q1 r bs Q2 bio :
  queue_rep s q (Q1 ++ (r, bs) :: Q2) -> live_at s bio -> bio ∉ mjoin (Q1 ++ (r, bs) :: Q2).*2 ->
  b_links s' = b_links s -> b_heap s' = b_heap s -> request_ok s' r (bs ++ [bio]) ->
  (forall x f, f <> bio_next \/ x ∉ bs -> f <> rq_nr_sectors \/ x <> r -> bget s' x f = bget s x f) ->
  queue_rep s' q (Q1 ++ (r, bs ++ [bio]) :: Q2).
Proof.
  intros Hq Hb Hnin Hl Hh Hr Hsame. pose proof Hq as [Hwf He Hqq Hd Hreq Hlive Hdis].
  assert (bget s' q q_elevator = bget s q q_elevator) as Eq by (apply Hsame; left; discriminate).
  assert (forall x, live_at s' x <-> live_at s x) as Hla by (intros x; unfold live_at; by rewrite Hh).
  rewrite fmap_app, join_app in Hnin, Hdis. cbn [fmap list_fmap snd mjoin list_join] in Hnin, Hdis.
  assert ((Q1 ++ (r, bs ++ [bio]) :: Q2).*1 = (Q1 ++ (r, bs) :: Q2).*1) as E1 by (by rewrite !fmap_app).
  split; rewrite ?Eq, ?Hl, ?Hh, ?E1; try done.
  - by apply Hla.
  - intros r' bs' Hin. apply elem_of_app in Hin as [Hin|Hin]; [|apply elem_of_cons in Hin as [[= -> ->]|Hin]; [done|]].
    all: assert (r' <> r) as Hrr by (intros ->; destruct Hd as [_ Hnd]; apply NoDup_cons in Hnd as [_ Hnd];
      rewrite fmap_app in Hnd; cbn [fmap list_fmap fst] in Hnd; apply NoDup_app in Hnd as (_ & Hx & Hnd);
      apply NoDup_cons in Hnd as [Hnr _];
      first [apply Hnr; apply list_elem_of_fmap; by exists (r, bs')
            |apply (Hx r); [apply list_elem_of_fmap; by exists (r, bs')|set_solver]]).
    all: assert (forall x, x ∈ bs' -> x ∉ bs) as Hdj
      by (intros x Hx Hx'; apply NoDup_app in Hdis as (_ & Hy & Hdis); apply NoDup_app in Hdis as (_ & Hz & _);
          pose proof (join_elem _ _ _ _ Hin Hx); first [apply (Hz x); done|apply (Hy x); set_solver]).
    all: apply (request_ok_ext s); [intros f Hf; apply Hsame; [left; set_solver|by right]
                                   |intros b f Hbb Hf; apply Hsame; [right; by apply Hdj|left; set_solver]
                                   |apply Hreq; set_solver].
  - intros r' bs' x Hin Hx. apply Hla. apply elem_of_app in Hin as [Hin|Hin];
      [apply (Hlive r' bs'); set_solver|apply elem_of_cons in Hin as [[= -> ->]|Hin]; [|apply (Hlive r' bs'); set_solver]].
    assert (x ∈ r :: bs \/ x = bio) as [Hx'| ->] by set_solver; [|done]. apply (Hlive r bs); set_solver.
  - rewrite fmap_app, join_app. cbn [fmap list_fmap snd mjoin list_join].
    apply NoDup_app in Hdis as (H1 & H2 & H3). apply NoDup_app in H3 as (H3 & H4 & H5).
    apply NoDup_app. split; [done|]. split; [set_solver|].
    apply NoDup_app. split; [|split; [set_solver|done]].
    apply NoDup_app. split; [done|]. split; [set_solver|]. apply NoDup_singleton.
Qed.


Lemma merge_loop fuel s q bio d Q1 Q2 n :
  queue_rep s q (Q1 ++ Q2) -> bio_ready s (Q1 ++ Q2) bio ->
  Forall (fun r => mergeable s bio r = false) Q1.*1 ->
  (length (mjoin (Q1 ++ Q2).*2) <= fuel)%nat -> (length Q2 < n)%nat ->
  exists s' m,
    loop n (merge_step fuel (e_queue_head (bget s q q_elevator)) bio d) (s, after (e_queue_head (bget s q q_elevator)) Q2.*1)
      = Some (Some (s', m)) /\
    if (m : bool) then
      exists Q3 r bs Q4, Q1 ++ Q2 = Q3 ++ (r, bs) :: Q4 /\ Forall (fun r => mergeable s bio r = false) Q3.*1 /\
        mergeable s bio r = true /\ queue_rep s' q (Q3 ++ (r, bs ++ [bio]) :: Q4) /\
        (forall x, bget s' x rq_sector = bget s x rq_sector) /\ bget s' q q_elevator = bget s q q_elevator
    else s' = s /\ Forall (fun r => mergeable s bio r = false) (Q1 ++ Q2).*1.
Proof.
  set (h := e_queue_head (bget s q q_elevator)).
  revert Q1 n. induction Q2 as [|[r bs] Q2 IH]; intros Q1 n Hq Hb H1 Hf Hn; (destruct n as [|n]; [simpl in Hn; lia|]).
  - cbn [loop fmap list_fmap after List.hd]. unfold merge_step at 1. rewrite Z.eqb_refl.
    exists s, false. split; [done|]. split; [done|]. by rewrite app_nil_r.
  - cbn [loop fmap list_fmap fst after List.hd]. unfold merge_step at 1.
    pose proof Hq as [Hwf He Hqq Hd Hreq Hlive Hdis]. fold h in Hd.
    rewrite (proj2 (Z.eqb_neq _ _)); cycle 1.
    { intros E. destruct Hd as [_ Hnd]. apply NoDup_cons in Hnd as [Hnh _]. apply Hnh. rewrite <- E, fmap_app. set_solver. }
    assert ((r, bs) ∈ Q1 ++ (r, bs) :: Q2) as Hin by set_solver.
    destruct Hb as (Hb0 & Hbl & Hbn & Hbx & Hbs & Hbz).
    destruct (merge_req_spec fuel s r bs bio (Hreq r bs Hin) Hb0) as (s' & Hm & Hs').
    { intros Hx. apply Hbn. by apply (join_elem _ r bs). }
    { done. } { pose proof (join_length _ _ _ Hin). lia. }
    assert ((if d then deadline_merge_req fuel s r bio else noop_merge_req fuel s r bio) = Some (s', mergeable s bio r))
      as -> by (destruct d; exact Hm).
    destruct (mergeable s bio r) eqn:Em.
    + destruct Hs' as (Hl & Hh & Hr & Hsame). exists s', true. split; [done|].
      exists Q1, r, bs, Q2. split; [done|]. split; [done|]. split; [done|].
      split; [by apply (merge_rep s)|]. split; [|apply Hsame; left; discriminate].
      intros x. apply Hsame; left; discriminate.
    + subst s'. rewrite fmap_app in Hd. cbn [fmap list_fmap fst] in Hd.
      replace (Q1.*1 ++ r :: Q2.*1) with ((Q1.*1 ++ [r]) ++ Q2.*1) in Hd by (by rewrite <- app_assoc).
      destruct (dlist_gap _ _ _ _ Hd) as [Hg _]. rewrite before_last in Hg. rewrite Hg.
      replace (Q1 ++ (r, bs) :: Q2) with ((Q1 ++ [(r, bs)]) ++ Q2) in * by (by rewrite <- app_assoc).
      apply (IH (Q1 ++ [(r, bs)])); [done|done| |done|simpl in Hn; lia].
      rewrite fmap_app. apply Forall_app. split; [done|]. by repeat constructor.
Qed.

Lemma merge_bio_spec fuel s q bio Q :
  queue_rep s q Q -> bio_ready s Q bio -> (length (mjoin Q.*2) <= fuel)%nat -> (length Q < fuel)%nat ->
  exists s' m, elv_merge_bio fuel s q bio = Some (s', m) /\
    if (m : bool) then
      exists Q1 r bs Q2, Q = Q1 ++ (r, bs) :: Q2 /\ Forall (fun r => mergeable s bio r = false) Q1.*1 /\
        mergeable s bio r = true /\ queue_rep s' q (Q1 ++ (r, bs ++ [bio]) :: Q2) /\
        (forall x, bget s' x rq_sector = bget s x rq_sector) /\ bget s' q q_elevator = bget s q q_elevator
    else s' = s /\ Forall (fun r => mergeable s bio r = false) Q.*1.
Proof.
  intros Hq Hb Hf1 Hf2. pose proof Hq as [_ [He _] _ Hd _ _ _]. unfold elv_merge_bio.
  rewrite (proj2 (Z.eqb_neq _ _) He), (list_empty_dlist _ _ _ Hd). cbn [mbind option_bind].
  destruct (bool_decide_reflect (Q.*1 = [])) as [E|E].
  - exists s, false. split; [done|]. split; [done|]. by rewrite E.
  - rewrite (dlist_first _ _ _ Hd). cbn [mbind option_bind].
    destruct (merge_loop fuel s q bio (bget s (bget s q q_elevator) e_ops =? deadline_iosched) [] Q fuel Hq Hb)
      as (s' & m & -> & Hm); [constructor|done|done|]. exists s', m. split; [done|exact Hm].
Qed.


(** A block the allocator has just handed out is none of the queue's objects. *)
Lemma rep_fresh s s2 q Q rq :
  queue_rep s q Q -> (forall t, ~ a_live (b_heap s) rq t) -> a_wf (b_heap s2) ->
  (forall x t, a_live (b_heap s) x t -> a_live (b_heap s2) x t) -> live_at s2 rq ->
  (forall x f, x <> rq -> bget s2 x f = bget s x f) -> (forall x, x <> rq -> b_links s2 !! x = b_links s !! x) ->
  queue_rep s2 q Q /\ rq ∉ e_queue_head (bget s2 q q_elevator) :: Q.*1.
Proof.
  intros [Hwf [He Hel] Hqq Hd Hreq Hlive Hdis] Hfresh Hwf2 Hmono [tr Htr] Hsame Hlinks.
  assert (forall x, live_at s x -> x <> rq /\ live_at s2 x) as Hne.
  { intros x [t Ht]. split; [intros ->; by apply (Hfresh t)|exists t; by apply Hmono]. }
  destruct (Hne q Hqq) as [Hq1 Hq2]. pose proof (Hsame q q_elevator Hq1) as Eq.
  destruct Hel as (te & Hte & Hel).
  assert (rq <> e_queue_head (bget s q q_elevator)) as Hrh.
  { unfold e_queue_head. intros E.
    assert (bget s q q_elevator <> rq) by (apply Hne; by exists te).
    destruct (a_live_disjoint _ _ _ _ _ Hwf2 Htr (Hmono _ _ Hel)) as [[? _]|[Hx|Hx]]; [done| |lia].
    destruct (a_live_pos _ _ _ Hwf2 Htr). lia. }
  assert (rq ∉ Q.*1) as Hrq.
  { intros Hin. apply list_elem_of_fmap in Hin as ([r bs] & E & Hin). simpl in E. subst r.
    apply (Hne rq); [|done]. apply (Hlive rq bs); set_solver. }
  rewrite Eq. split; [|set_solver]. split; rewrite ?Eq; try done.
  - split; [done|]. exists te. split; [done|]. by apply Hmono.
  - apply (dlist_ext (b_links s)); [|done]. intros x Hx. apply Hlinks. intros ->. set_solver.
  - intros r bs Hin. apply (request_ok_ext s); [..|by apply Hreq].
    + intros f _. apply Hsame. apply Hne, (Hlive r bs); set_solver.
    + intros b f Hb _. apply Hsame. apply Hne, (Hlive r bs); set_solver.
  - intros r bs x Hin Hx. by apply Hne, (Hlive r bs).
Qed.

Lemma add_rep s q Q1 Q2 rq bio st :
  queue_rep s q (Q1 ++ Q2) -> request_ok s rq [bio] -> live_at s rq -> live_at s bio -> bio ∉ mjoin (Q1 ++ Q2).*2 ->
  dlist st (e_queue_head (bget s q q_elevator)) (Q1.*1 ++ rq :: Q2.*1) ->
  queue_rep (with_links s st) q (Q1 ++ (rq, [bio]) :: Q2).
Proof.
  intros [Hwf He Hqq Hd Hreq Hlive Hdis] Hr Hlr Hlb Hn Hd'. split; try done.
  - by rewrite fmap_app.
  - intros r bs Hin. apply (request_ok_ext s); [done|done|].
    assert ((r, bs) ∈ Q1 ++ Q2 \/ (r, bs) = (rq, [bio])) as [Hin'|[= -> ->]] by set_solver; [by apply Hreq|done].
  - intros r bs x Hin Hx. assert ((r, bs) ∈ Q1 ++ Q2 \/ (r, bs) = (rq, [bio])) as [Hin'|[= -> ->]] by set_solver;
      [by apply (Hlive r bs)|]. assert (x = rq \/ x = bio) as [->| ->] by set_solver; done.
  - rewrite fmap_app, join_app in *. cbn [fmap list_fmap snd mjoin list_join].
    apply NoDup_app in Hdis as (H1 & H2 & H3). apply NoDup_app. split; [done|].
    split; [set_solver|]. cbn [app]. apply NoDup_cons. split; [set_solver|done].
Qed.

(** The elevator puts the new request last, or in the order of the sectors. *)
Lemma elv_add_spec fuel s q Q rq bio :
  queue_rep s q Q -> is_Some (b_links s !! rq) -> rq ∉ e_queue_head (bget s q q_elevator) :: Q.*1 ->
  request_ok s rq [bio] -> live_at s rq -> live_at s bio -> bio ∉ mjoin Q.*2 -> (length Q < fuel)%nat ->
  exists st Q1 Q2, elv_add_request fuel s q rq 0 = Some (with_links s st) /\ Q = Q1 ++ Q2 /\
    queue_rep (with_links s st) q (Q1 ++ (rq, [bio]) :: Q2) /\
    if deadline_queue s q then
      Forall (fun r => bget s r rq_sector <= bget s rq rq_sector) Q1.*1 /\
      match Q2.*1 with [] => True | r :: _ => bget s rq rq_sector < bget s r rq_sector end
    else Q2 = [].
Proof.
  intros Hq Hp Hn Hr Hlr Hlb Hnb Hf. pose proof Hq as [_ [He _] _ Hd _ _ _].
  unfold elv_add_request, deadline_queue. rewrite (proj2 (Z.eqb_neq _ _) He).
  set (h := e_queue_head (bget s q q_elevator)) in *.
  destruct (bget s (bget s q q_elevator) e_ops =? deadline_iosched).
  - unfold deadline_add_req. cbn [Z.eqb ELEVATOR_INSERT_FRONT]. fold h.
    change (0 =? ELEVATOR_INSERT_FRONT) with false. cbv iota.
    destruct (insert_at_split (fun r => bget s r rq_sector) rq (bget s rq rq_sector) Q.*1) as (l1 & l2 & E & _ & H1 & H2).
    apply fmap_app_inv in E as (Q1 & Q2 & E1 & E2 & ->). subst l1 l2.
    rewrite fmap_app in Hd, Hn.
    rewrite (list_find_dlist _ _ Q1.*1 Q2.*1 _ _ Hd); cycle 1.
    { eapply Forall_impl; [exact H1|]. intros x Hx. by apply Z.ltb_ge. }
    { destruct (Q2.*1); [done|]. by apply Z.ltb_lt. }
    { rewrite length_app in Hf. rewrite length_fmap. lia. }
    cbn [mbind option_bind].
    assert (exists st, (if after h Q2.*1 =? h then with_links s <$> list_add_tail (b_links s) rq h
                        else p ← get_prev (b_links s) (after h Q2.*1); with_links s <$> list_add (b_links s) rq p)
                       = Some (with_links s st) /\ dlist st h (Q1.*1 ++ rq :: Q2.*1)) as (st & Hst & Hd').
    { destruct (Q2.*1) as [|y l2] eqn:E2; cbn [after List.hd].
      - rewrite Z.eqb_refl, app_nil_r in *. destruct (list_add_tail_dlist _ _ _ rq Hd Hp Hn) as (st & -> & ? & _). by exists st.
      - rewrite (proj2 (Z.eqb_neq y h)); cycle 1.
        { intros ->. destruct Hd as [_ Hnd]. apply NoDup_cons in Hnd as [Hx _]. set_solver. }
        destruct (list_add_prev_before _ _ _ _ _ rq Hd Hp Hn) as (p & st & -> & Hst & Hd' & _).
        exists st. split; [|done]. cbn [mbind option_bind]. by rewrite Hst. }
    exists st, Q1, Q2. split; [exact Hst|]. split; [done|]. split; [by apply add_rep|]. done.
  - unfold noop_add_req. fold h. change (0 =? ELEVATOR_INSERT_FRONT) with false. cbv iota.
    destruct (list_add_tail_dlist _ _ _ rq Hd Hp Hn) as (st & -> & Hd' & _).
    exists st, Q, []. split; [done|]. split; [by rewrite app_nil_r|]. split; [|done].
    apply add_rep; rewrite ?app_nil_r; done.
Qed.


Lemma fill_request_other s rq bio x f : x <> rq -> bget (fill_request s rq bio) x f = bget s x f.
Proof. intros Hx. unfold fill_request. rewrite !bget_bset. by repeat (rewrite decide_False by naive_solver). Qed.

Lemma fill_request_ok s rq bio :
  bio <> rq -> bio <> 0 -> bget s bio bio_next = 0 ->
  0 <= bget s bio bio_sector < 2 ^ 64 -> 0 <= bget s bio bio_size < 2 ^ 32 ->
  request_ok (fill_request s rq bio) rq [bio] /\
  bget (fill_request s rq bio) rq rq_sector = bget s bio bio_sector.
Proof.
  intros Hne H0 Hn Hs Hz.
  assert (bget (fill_request s rq bio) rq rq_sector = bget s bio bio_sector) as E1.
  { unfold fill_request. rewrite !bget_bset. by repeat first [rewrite decide_True by naive_solver | rewrite decide_False by naive_solver]. }
  assert (bget (fill_request s rq bio) rq rq_nr_sectors = bget s bio bio_size / 512) as E2.
  { unfold fill_request. rewrite !bget_bset. by repeat first [rewrite decide_True by naive_solver | rewrite decide_False by naive_solver]. }
  assert (bget (fill_request s rq bio) rq rq_bio = bio) as E3.
  { unfold fill_request. rewrite !bget_bset. by repeat first [rewrite decide_True by naive_solver | rewrite decide_False by naive_solver]. }
  split; [|done]. split; [done|]. rewrite E1, E2, E3. split.
  - simpl. split; [done|]. split; [done|]. change (bget (fill_request s rq bio) bio bio_next = 0).
    by rewrite fill_request_other.
  - cbn [covers]. rewrite !fill_request_other by done. split; [unfold u64; rewrite Z.add_0_r, Z.mod_small; [done|lia]|].
    rewrite Z.shiftr_div_pow2 by lia. change (2 ^ 9) with 512. unfold u32. rewrite Z.mod_small; [done|].
    pose proof (Z.div_le_mono (bget s bio bio_size) (2 ^ 32 - 1) 512 ltac:(lia) ltac:(lia)).
    pose proof (Z.div_pos (bget s bio bio_size) 512). change ((2 ^ 32 - 1) / 512) with 8388607 in *. lia.
Qed.

(** The queue is kept sorted by the insertion of the deadline elevator. *)
Lemma sectors_insert s s' Q1 Q2 rq bio :
  rq ∉ (Q1 ++ Q2).*1 -> (forall r, r ∈ (Q1 ++ Q2).*1 -> bget s' r rq_sector = bget s r rq_sector) ->
  Forall (fun r => bget s r rq_sector <= bget s' rq rq_sector) Q1.*1 ->
  match Q2.*1 with [] => True | r :: _ => bget s' rq rq_sector < bget s r rq_sector end ->
  StronglySorted Z.le (sectors s (Q1 ++ Q2)) -> StronglySorted Z.le (sectors s' (Q1 ++ (rq, [bio]) :: Q2)).
Proof.
  intros Hn Hext H1 H2 Hs. unfold sectors in *. rewrite !fmap_app in Hn. rewrite !fmap_app in Hext.
  rewrite (fmap_app fst) in Hs. rewrite (fmap_app fst). cbn [fmap list_fmap fst].
  pose proof (sorted_insert_key (fun r => bget s r rq_sector) rq (bget s' rq rq_sector) Q1.*1 Q2.*1 Hn Hs H1 H2) as Hs'.
  erewrite list_fmap_ext; [exact Hs'|]. intros i r Hr. simpl. apply list_elem_of_lookup_2 in Hr.
  case_decide as E; [by subst|]. apply Hext. set_solver.
Qed.

Lemma get_request_spec s q Q :
  queue_rep s q Q ->
  exists s' rq, blk_get_request s q = Some (s', rq) /\
    ((rq = 0 /\ queue_rep s' q Q /\ forall x f, bget s' x f = bget s x f) \/
     (rq <> 0 /\ a_wf (b_heap s') /\ (forall t, ~ a_live (b_heap s) rq t) /\
      (forall x t, a_live (b_heap s) x t -> a_live (b_heap s') x t) /\ live_at s' rq /\
      is_Some (b_links s' !! rq) /\
      (forall x f, x <> rq -> bget s' x f = bget s x f) /\ (forall x, x <> rq -> b_links s' !! x = b_links s !! x))).
Proof.
  intros [Hwf He Hqq Hd Hreq Hlive Hdis]. unfold blk_get_request.
  destruct (a_alloc_spec (b_heap s) sizeof_request Hwf ltac:(unfold sizeof_request; lia)) as (h & rq & -> & Hwf' & Hcase).
  cbn [mbind option_bind]. destruct Hcase as [[-> Hl]|(t & Ht & Hfresh & Hl)].
  - eexists _, 0. rewrite Z.eqb_refl. split; [done|]. left. split; [done|]. split; [|done].
    destruct He as [He (te & Hte & Hle)]. split; try done.
    + split; [done|]. exists te. split; [done|]. by apply Hl.
    + destruct Hqq as [tq Hqq]. exists tq. by apply Hl.
    + intros r bs Hin. apply (request_ok_ext s); [done|done|by apply Hreq].
    + intros r bs x Hin Hx. destruct (Hlive r bs x Hin Hx) as [tx Hx']. exists tx. by apply Hl.
  - assert (a_live h rq t) as Hlr by (apply Hl; by left).
    destruct (a_live_pos _ _ _ Hwf' Hlr) as [Hpos _].
    rewrite (proj2 (Z.eqb_neq rq 0)) by lia. eexists _, rq. split; [done|]. right. split; [lia|]. split; [done|].
    split; [done|]. split; [intros x tx Hx; apply Hl; by right|]. split; [by exists t|].
    split; [|split].
    + simpl. unfold INIT_LIST_HEAD. rewrite lookup_insert_eq. eauto.
    + intros x f Hx. rewrite bget_bset, decide_False by naive_solver. unfold bget. simpl. by rewrite decide_False.
    + intros x Hx. simpl. unfold INIT_LIST_HEAD. by rewrite lookup_insert_ne.
Qed.

End block.

(** Submitting a bio to a well-formed request queue returns and loses no
    bio.  The bio joins, at its end, the first request whose sectors end where
    the bio starts; if there is none it becomes a request of its own, last in
    the queue ([noop]) or in front of the first request with a larger sector
    ([deadline]), unless there is no memory for it.  Every request still
    covers exactly the run of sectors of its bios in order, no bio is queued
    twice, and the deadline elevator's queue stays sorted. *)
Theorem queue_bio_correct {A : Type} `{Allocator A} {R : Type} fuel (s : blk (A := A) (R := R)) q Q bio :
  queue_rep s q Q -> bio_ready s Q bio -> (length (mjoin Q.*2) <= fuel)%nat -> (length Q < fuel)%nat ->
  exists s' o Q', queue_bio fuel s q bio = Some (s', o) /\ queue_rep s' q Q' /\
    match o with
    | Merged =>
        exists Q1 r bs Q2, Q = Q1 ++ (r, bs) :: Q2 /\ Q' = Q1 ++ (r, bs ++ [bio]) :: Q2 /\
          Forall (fun r => mergeable s bio r = false) Q1.*1 /\ mergeable s bio r = true
    | Queued rq =>
        Forall (fun r => mergeable s bio r = false) Q.*1 /\
        exists Q1 Q2, Q = Q1 ++ Q2 /\ Q' = Q1 ++ (rq, [bio]) :: Q2 /\ (deadline_queue s q = false -> Q2 = [])
    | NoMemory => Q' = Q
    end /\
    (deadline_queue s q = true -> StronglySorted Z.le (sectors s Q) -> StronglySorted Z.le (sectors s' Q')).
Proof.
  intros Hq Hb Hf1 Hf2. unfold queue_bio.
  destruct (merge_bio_spec fuel s q bio Q Hq Hb Hf1 Hf2) as (s1 & m & -> & Hm). cbn [mbind option_bind].
  destruct m.
  - destruct Hm as (Q1 & r & bs & Q2 & -> & Hno & Hyes & Hq' & Hsec & _).
    eexists s1, Merged, _. split; [done|]. split; [exact Hq'|]. split; [by exists Q1, r, bs, Q2|].
    intros _ Hs. unfold sectors in *. rewrite !(fmap_app fst) in *. cbn [fmap list_fmap fst] in *.
    erewrite list_fmap_ext; [exact Hs|]. intros i x _. apply Hsec.
  - destruct Hm as [-> Hno]. destruct (get_request_spec s q Q Hq) as (s2 & rq & -> & Hcase). cbn [mbind option_bind].
    destruct Hcase as [(-> & Hq' & Hsame)|(Hrq & Hwf & Hfresh & Hmono & Hlr & Hlk & Hsame & Hlinks)].
    + exists s2, NoMemory, Q. split; [done|]. split; [done|]. split; [done|]. intros _ Hs.
      unfold sectors in *. erewrite list_fmap_ext; [exact Hs|]. intros i x _. apply Hsame.
    + rewrite (proj2 (Z.eqb_neq rq 0)) by done. destruct Hb as (Hb0 & Hbl & Hbn & Hbx & Hbs & Hbz).
      assert (forall x, live_at s x -> x <> rq) as Hne by (intros x [t Ht] ->; by apply (Hfresh t)).
      pose proof (Hne bio Hbl) as Hbr. set (s3 := fill_request s2 rq bio).
      assert (forall x f, x <> rq -> bget s3 x f = bget s x f) as Hsame3.
      { intros x f Hx. unfold s3. rewrite fill_request_other by done. by apply Hsame. }
      destruct (rep_fresh s s3 q Q rq Hq Hfresh Hwf Hmono Hlr Hsame3 Hlinks) as [Hq3 Hn3].
      destruct (fill_request_ok s2 rq bio Hbr Hb0) as [Hr3 Hsec3]; [rewrite Hsame by done; done..|].
      destruct (elv_add_spec fuel s3 q Q rq bio Hq3 Hlk Hn3 Hr3 Hlr) as (st & Q1 & Q2 & -> & -> & Hq4 & Hord).
      { destruct Hbl as [t Ht]. exists t. by apply Hmono. } { done. } { done. }
      assert (q <> rq) as Hqr by (apply Hne; apply Hq).
      assert (deadline_queue s3 q = deadline_queue s q) as Ed.
      { unfold deadline_queue. rewrite !Hsame3; [done|done|].
        rewrite Hsame3 by done. destruct Hq as [_ [_ (t & _ & Ht)] _ _ _ _ _]. apply Hne. by exists t. }
      rewrite Ed in Hord. cbn [mbind option_bind]. eexists _, (Queued rq), _. split; [done|]. split; [exact Hq4|].
      split; [|].
      * split; [done|]. exists Q1, Q2. split; [done|]. split; [done|]. intros E. by rewrite E in Hord.
      * intros E Hs. rewrite E in Hord. destruct Hord as [Ho1 Ho2].
        assert (forall r, r ∈ (Q1 ++ Q2).*1 -> bget s3 r rq_sector = bget s r rq_sector) as Hx3.
        { intros r Hr. apply Hsame3. intros ->. set_solver. }
        apply (sectors_insert s); [set_solver|exact Hx3| | |done].
        -- apply Forall_forall. intros r Hr. rewrite Forall_forall in Ho1. rewrite <- Hx3 by (rewrite fmap_app; set_solver).
           by apply Ho1.
        -- destruct (Q2.*1) as [|r l] eqn:E2; [done|]. rewrite <- Hx3; [exact Ho2|]. rewrite fmap_app, E2. set_solver.
Qed.


(** ** A concrete queue

    A deadline queue at 0x1028 whose elevator is at 0x10A8, with one request
    (0x1128) for the sectors 8 to 15 of the bio at 0x11A8; the bio at 0x1228 is
    for the sectors 4 to 7. *)

Definition demo_tiles : list (Z * bool) :=
  [(88, false); (88, false); (88, false); (88, false); (88, false); (4096, true)].

Definition demo_store : store bfld := fun x f =>
  match f with
  | q_elevator => if x =? 0x1028 then 0x10A8 else 0
  | e_ops => if x =? 0x10A8 then deadline_iosched else 0
  | rq_bio => if x =? 0x1128 then 0x11A8 else 0
  | rq_sector | rq_nr_sectors => if x =? 0x1128 then 8 else 0
  | bio_sector => if x =? 0x11A8 then 8 else if x =? 0x1228 then 4 else 0
  | bio_size => if x =? 0x11A8 then 4096 else if x =? 0x1228 then 2048 else 0
  | _ => 0
  end.

Definition demo_blk : blk (A := Spinlock.cpu * Heap.heap) (R := unit) :=
  Blk (list_to_map [(0x10C0, LH 0x1128 0x1128); (0x1128, LH 0x10C0 0x10C0)]) demo_store
    (Heap.demo_cpu, Heap.heap_of 0x1000 demo_tiles) tt.

Lemma demo_tiles_ok : Heap.tiles_ok 0x1000 demo_tiles.
Proof. split; [lia|]. split; [repeat constructor; lia|vm_compute; done]. Qed.

Lemma demo_blk_live x : x ∈ [0x1028; 0x10A8; 0x1128; 0x11A8; 0x1228] -> a_live (b_heap demo_blk) x 88.
Proof.
  intros Hx. apply Heap.heap_of_live; [exact demo_tiles_ok|done|].
  change (Heap.live 0x1000 demo_tiles) with [(0x1028, 88); (0x10A8, 88); (0x1128, 88); (0x11A8, 88); (0x1228, 88)].
  set_solver.
Qed.

Lemma demo_blk_rep : queue_rep demo_blk 0x1028 [(0x1128, [0x11A8])].
Proof.
  split.
  - exists demo_tiles. apply Heap.heap_of_rep; [exact demo_tiles_ok|done].
  - split; [done|]. exists 88. split; [lia|]. apply demo_blk_live. set_solver.
  - exists 88. apply demo_blk_live. set_solver.
  - split; [vm_compute; done|]. repeat constructor; set_solver.
  - intros r bs Hin. apply list_elem_of_singleton in Hin as [= -> ->].
    split; [done|]. split; [split; [done|]; split; [lia|reflexivity]|]. split; reflexivity.
  - intros r bs x Hin Hx. apply list_elem_of_singleton in Hin as [= -> ->].
    exists 88. apply demo_blk_live. set_solver.
  - apply NoDup_singleton.
Qed.

Lemma queue_bio_correct_witness :
  exists s' o Q', queue_bio 2 demo_blk 0x1028 0x1228 = Some (s', o) /\ queue_rep s' 0x1028 Q' /\
    StronglySorted Z.le (sectors s' Q').
Proof.
  destruct (queue_bio_correct 2 demo_blk 0x1028 [(0x1128, [0x11A8])] 0x1228 demo_blk_rep)
    as (s' & o & Q' & Hb & Hq & _ & Hs).
  - split; [lia|]. split; [exists 88; apply demo_blk_live; set_solver|]. split; [simpl; set_solver|].
    split; [reflexivity|]. vm_compute. intuition discriminate.
  - simpl. lia.
  - simpl. lia.
  - exists s', o, Q'. split; [exact Hb|]. split; [exact Hq|]. apply Hs; [reflexivity|]. repeat constructor.
Defined.

End Block.
