(* ===== verification/Radix.v ===== *)
(** * The radix tree (src/kernel/lib/radix-tree.c)

    The index of the page cache: a tree of 64-way nodes that maps indices to
    non-null pointers, growing at the root as larger indices arrive and
    shrinking again when entries go.  Nodes come from the allocator interface;
    a slot holds a node or, at height 1, an item. *)
From S2P Require Import Prelude Allocator Spinlock Heap Store.
#[local] Existing Instance Heap.heap_allocator.

Module Radix.

(** ** State *)

Definition RADIX_TREE_MAP_SHIFT : Z := 6.
Definition RADIX_TREE_MAP_SIZE : Z := 64.
Definition RADIX_TREE_MAP_MASK : Z := 63.
Definition sizeof_node : Z := 520.

Inductive rfld := count | slots (i : Z).

#[export] Instance rfld_eq_dec : EqDecision rfld.
Proof. solve_decision. Defined.

Section radix.
Context {A : Type} `{Allocator A}.

Record rtree := RT { r_heap : A; r_st : store rfld; height : Z; rnode : Z }.

Definition rset (t : rtree) (a : Z) (f : rfld) (v : Z) : rtree :=
  RT (r_heap t) (wr (r_st t) a f v) (height t) (rnode t).
Definition set_root (t : rtree) (h p : Z) : rtree := RT (r_heap t) (r_st t) h p.

(** ** Operations *)

Definition radix_tree_init (t : rtree) : rtree := set_root t 0 0.

Definition radix_tree_node_alloc (t : rtree) : option (rtree * Z) :=
  '(h, a) ← a_alloc (r_heap t) sizeof_node;
  Some (RT h (if negb (a =? 0) then fun x f => if decide (x = a) then 0 else r_st t x f else r_st t)
          (height t) (rnode t), a).

Definition radix_tree_node_free (t : rtree) (a : Z) : option rtree :=
  h ← a_free (r_heap t) a; Some (RT h (r_st t) (height t) (rnode t)).

(** [(1UL << (height * RADIX_TREE_MAP_SHIFT)) - 1]; a shift by 64 or more has
    no meaning in C. *)
Definition max_index (h : Z) : option Z :=
  if u32 (h * RADIX_TREE_MAP_SHIFT) <? 64 then Some (u64 (1 .<< u32 (h * RADIX_TREE_MAP_SHIFT)) - 1) else None.

(** [while (index > max) height++;] *)
Definition extend_height_step (index : Z) : Z -> Z + option Z :=
  fun h => match max_index h with
           | None => inr None
           | Some m => if m <? index then inl (h + 1) else inr (Some h)
           end.

(** [while (root->height < height)]: a new root above the old one. *)
Fixpoint extend_root (n : nat) (t : rtree) (h : Z) : option (rtree * Z) :=
  match n with
  | O => None
  | S n' =>
      if height t <? h then
        '(t, node) ← radix_tree_node_alloc t;
        if node =? 0 then Some (t, -1)
        else
          let t := rset t node (slots 0) (rnode t) in
          let t := rset t node count 1 in
          extend_root n' (set_root t (height t + 1) node) h
      else Some (t, 0)
  end.

Definition radix_tree_extend (fuel : nat) (t : rtree) (index : Z) : option (rtree * Z) :=
  h ← mjoin (loop fuel (extend_height_step index) (height t + 1));
  let t := if rnode t =? 0 then set_root t h (rnode t) else t in
  extend_root fuel t h.

(** [while (tmp > 0) { tmp >>= RADIX_TREE_MAP_SHIFT; h++; }] *)
Definition first_height_step : Z * Z -> (Z * Z) + Z :=
  fun '(tmp, h) => if 0 <? tmp then inl (tmp .>> RADIX_TREE_MAP_SHIFT, h + 1) else inr h.

Definition first_height (fuel : nat) (index : Z) : option Z :=
  h ← loop fuel first_height_step (index, 0);
  Some (if h =? 0 then 1 else h).

(** The descent of [radix_tree_insert]; [n] is the height left. *)
Fixpoint insert_walk (n : nat) (t : rtree) (node shift index item : Z) : option (rtree * Z) :=
  match n with
  | O => Some (t, -1)
  | S n' =>
      let offset := if 64 <=? shift then 0 else (index .>> shift) .& RADIX_TREE_MAP_MASK in
      match n' with
      | O =>
          if negb (r_st t node (slots offset) =? 0) then Some (t, -1)
          else
            let t := rset t node (slots offset) item in
            Some (rset t node count (u32 (r_st t node count + 1)), 0)
      | S _ =>
          if r_st t node (slots offset) =? 0 then
            '(t, slot) ← radix_tree_node_alloc t;
            if slot =? 0 then Some (t, -1)
            else
              let t := rset t node (slots offset) slot in
              let t := rset t node count (u32 (r_st t node count + 1)) in
              insert_walk n' t (r_st t node (slots offset)) (u32 (shift - RADIX_TREE_MAP_SHIFT)) index item
          else insert_walk n' t (r_st t node (slots offset)) (u32 (shift - RADIX_TREE_MAP_SHIFT)) index item
      end
  end.

(** The first part of [radix_tree_insert]: the height is chosen, or the tree
    is extended, so that [index] fits. *)
Definition size_for (fuel : nat) (t : rtree) (index : Z) : option (rtree * Z) :=
  t ← (if (rnode t =? 0) && (height t =? 0)
       then h ← first_height fuel index; Some (set_root t h (rnode t)) else Some t);
  m ← max_index (height t);
  if m <? index then radix_tree_extend fuel t index else Some (t, 0).

(** [if (!root->rnode) root->rnode = radix_tree_node_alloc();] *)
Definition ensure_root (t : rtree) : option (rtree * bool) :=
  if rnode t =? 0 then
    '(t, a) ← radix_tree_node_alloc t;
    Some (set_root t (height t) a, negb (a =? 0))
  else Some (t, true).

Definition radix_tree_insert (fuel : nat) (t : rtree) (index item : Z) : option (rtree * Z) :=
  '(t, r) ← size_for fuel t index;
  if negb (r =? 0) then Some (t, -1)
  else
    let shift := u32 ((height t - 1) * RADIX_TREE_MAP_SHIFT) in
    '(t, ok) ← ensure_root t;
    if (ok : bool) then insert_walk (Z.to_nat (height t)) t (rnode t) shift index item
    else Some (t, -1).

(** The descent of [radix_tree_lookup]. *)
Fixpoint lookup_walk (n : nat) (st : store rfld) (node shift index : Z) : Z :=
  match n with
  | O => 0
  | S n' =>
      let offset := (index .>> shift) .& RADIX_TREE_MAP_MASK in
      if st node (slots offset) =? 0 then 0
      else match n' with
           | O => st node (slots offset)
           | S _ => lookup_walk n' st (st node (slots offset)) (u32 (shift - RADIX_TREE_MAP_SHIFT)) index
           end
  end.

Definition radix_tree_lookup (t : rtree) (index : Z) : option Z :=
  if (height t =? 0) || (rnode t =? 0) then Some 0
  else
    m ← max_index (height t);
    if m <? index then Some 0
    else Some (lookup_walk (Z.to_nat (height t)) (r_st t) (rnode t)
                 (u32 ((height t - 1) * RADIX_TREE_MAP_SHIFT)) index).

(** The loop that removes empty nodes, from the bottom of the path up;
    [stack] has the path, the deepest node first. *)
Fixpoint unwind (t : rtree) (stack : list (Z * Z)) : option rtree :=
  match stack with
  | [] => Some t
  | (node, _) :: rest =>
      if 0 <? r_st t node count then Some t
      else match rest with
           | (parent, p_off) :: _ =>
               let t := rset t parent (slots p_off) 0 in
               let t := rset t parent count (u32 (r_st t parent count - 1)) in
               t ← radix_tree_node_free t node;
               unwind t rest
           | [] =>
               t ← radix_tree_node_free t node;
               Some (set_root t 0 0)
           end
  end.

(** One round of [radix_tree_shrink]. *)
Definition shrink_step (t : rtree) : rtree + option rtree :=
  if 0 <? height t then
    let node := rnode t in
    if node =? 0 then inr (Some (set_root t 0 node))
    else if negb (r_st t node count =? 1) then inr (Some t)
    else if r_st t node (slots 0) =? 0 then inr (Some t)
    else if height t <=? 1 then inr (Some t)
    else match radix_tree_node_free (set_root t (height t - 1) (r_st t node (slots 0))) node with
         | Some t => inl t
         | None => inr None
         end
  else inr (Some t).

Definition radix_tree_shrink (fuel : nat) (t : rtree) : option rtree := mjoin (loop fuel shrink_step t).

(** The descent of [radix_tree_delete]: the arrays [stack] and [offsets] have
    16 entries. *)
Fixpoint delete_walk (n : nat) (t : rtree) (node shift index : Z) (stack : list (Z * Z)) : option (rtree * Z) :=
  match n with
  | O => Some (t, 0)
  | S n' =>
      let offset := (index .>> shift) .& RADIX_TREE_MAP_MASK in
      if 16 <=? Z.of_nat (length stack) then None
      else
        let stack := (node, offset) :: stack in
        let item := r_st t node (slots offset) in
        if item =? 0 then Some (t, 0)
        else match n' with
             | O =>
                 let t := rset t node (slots offset) 0 in
                 let t := rset t node count (u32 (r_st t node count - 1)) in
                 t ← unwind t stack;
                 Some (t, item)
             | S _ => delete_walk n' t item (u32 (shift - RADIX_TREE_MAP_SHIFT)) index stack
             end
  end.

Definition radix_tree_delete (fuel : nat) (t : rtree) (index : Z) : option (rtree * Z) :=
  if (height t =? 0) || (rnode t =? 0) then Some (t, 0)
  else
    m ← max_index (height t);
    if m <? index then Some (t, 0)
    else
      '(t, item) ← delete_walk (Z.to_nat (height t)) t (rnode t) (u32 ((height t - 1) * RADIX_TREE_MAP_SHIFT)) index [];
      if item =? 0 then Some (t, 0)
      else t ← radix_tree_shrink fuel t; Some (t, item).


(** ** The tree as a map

    [find] is the map a tree of height [n] at [a] stands for; the items are
    trees of height 0. *)

Definition digit (idx : Z) (k : nat) : Z := (idx .>> (6 * Z.of_nat k)) .& RADIX_TREE_MAP_MASK.

Fixpoint find (st : store rfld) (n : nat) (a idx : Z) : Z :=
  match n with
  | O => a
  | S n' => if st a (slots (digit idx n')) =? 0 then 0 else find st n' (st a (slots (digit idx n'))) idx
  end.

Definition NSLOTS : nat := Z.to_nat RADIX_TREE_MAP_SIZE.

(** The number of non-null slots. *)
Fixpoint nz (g : Z -> Z) (n : nat) : Z :=
  match n with
  | O => 0
  | S k => nz g k + (if g (Z.of_nat k) =? 0 then 0 else 1)
  end.

(** The nodes of the tree lie in [N]: subtrees do not overlap, and every node
    counts its slots. *)
Fixpoint shape (st : store rfld) (n : nat) (a : Z) (N : gset Z) : Prop :=
  match n with
  | O => True
  | S n' =>
      a ∈ N /\ st a count = nz (fun i => st a (slots i)) NSLOTS /\
      exists Ns : Z -> gset Z,
        (forall i, 0 <= i < 64 -> Ns i ⊆ N /\ a ∉ Ns i /\
           (st a (slots i) <> 0 -> shape st n' (st a (slots i)) (Ns i))) /\
        (forall i j, 0 <= i < 64 -> 0 <= j < 64 -> i <> j -> Ns i ## Ns j)
  end.

Fixpoint agree (n : nat) (i j : Z) : bool :=
  match n with
  | O => true
  | S n' => (digit i n' =? digit j n') && agree n' i j
  end.

Definition live_at (h : A) (x : Z) : Prop := exists s, a_live h x s.
Definition live_set (h : A) (N : gset Z) : Prop := forall x, x ∈ N -> live_at h x.

(** One of the next [k] allocations of a node fails. *)
Fixpoint oom_within (k : nat) (h : A) : Prop :=
  match k with
  | O => False
  | S k' => exists h' p, a_alloc h sizeof_node = Some (h', p) /\ (p = 0 \/ oom_within k' h')
  end.

(** ** Lemmas: digits and slots *)

Lemma digit_range idx k : 0 <= digit idx k < 64.
Proof.
  unfold digit, RADIX_TREE_MAP_MASK. change 63 with (Z.ones 6). rewrite Z.land_ones by lia.
  apply Z.mod_pos_bound. lia.
Qed.

Lemma digit_div idx k : digit idx k = (idx / 64 ^ Z.of_nat k) mod 64.
Proof.
  unfold digit, RADIX_TREE_MAP_MASK. change 63 with (Z.ones 6). rewrite Z.land_ones, Z.shiftr_div_pow2 by lia.
  rewrite Z.pow_mul_r by lia. done.
Qed.

Lemma agree_mod n i j : agree n i j = (i mod 64 ^ Z.of_nat n =? j mod 64 ^ Z.of_nat n).
Proof.
  induction n as [|n IH]; [by rewrite !Z.mod_1_r|]. cbn [agree]. rewrite IH, !digit_div.
  replace (64 ^ Z.of_nat (S n)) with (64 ^ Z.of_nat n * 64) by (rewrite Nat2Z.inj_succ, Z.pow_succ_r by lia; lia).
  assert (0 < 64 ^ Z.of_nat n) as Hp by (apply Z.pow_pos_nonneg; lia).
  rewrite !(Z.rem_mul_r _ (64 ^ Z.of_nat n) 64) by lia.
  pose proof (Z.mod_pos_bound i _ Hp). pose proof (Z.mod_pos_bound j _ Hp).
  set (p := 64 ^ Z.of_nat n) in *. set (x := (i / p) mod 64). set (y := (j / p) mod 64).
  destruct (Z.eqb_spec x y) as [->|Hne]; cbn [andb].
  - destruct (Z.eqb_spec (i mod p) (j mod p)); symmetry; [apply Z.eqb_eq|apply Z.eqb_neq]; lia.
  - symmetry. apply Z.eqb_neq. intros E. apply Hne. nia.
Qed.

Lemma agree_small n i j : 0 <= i < 64 ^ Z.of_nat n -> 0 <= j < 64 ^ Z.of_nat n -> agree n i j = (i =? j).
Proof. intros Hi Hj. by rewrite agree_mod, !Z.mod_small. Qed.

Lemma nz_ext g g' n : (forall i, 0 <= i < Z.of_nat n -> g i = g' i) -> nz g n = nz g' n.
Proof.
  induction n as [|n IH]; intros He; [done|]. cbn [nz]. rewrite IH by (intros; apply He; lia).
  by rewrite (He (Z.of_nat n)) by lia.
Qed.

Lemma nz_range g n : 0 <= nz g n <= Z.of_nat n.
Proof. induction n as [|n IH]; [done|]. cbn [nz]. case_match; lia. Qed.

Lemma nz_zero g n : nz g n = 0 -> forall i, 0 <= i < Z.of_nat n -> g i = 0.
Proof.
  induction n as [|n IH]; intros Hz i Hi; [lia|]. cbn [nz] in Hz. pose proof (nz_range g n).
  destruct (Z.eqb_spec (g (Z.of_nat n)) 0); [|lia].
  destruct (decide (i = Z.of_nat n)) as [->|]; [done|]. apply IH; lia.
Qed.

Lemma nz_change g g' n i :
  0 <= i < Z.of_nat n -> (forall j, 0 <= j < Z.of_nat n -> j <> i -> g' j = g j) ->
  nz g' n = nz g n - (if g i =? 0 then 0 else 1) + (if g' i =? 0 then 0 else 1).
Proof.
  induction n as [|n IH]; intros Hi Hj; [lia|]. cbn [nz]. destruct (decide (i = Z.of_nat n)) as [->|Hne].
  - rewrite (nz_ext g' g) by (intros k Hk; apply Hj; lia). lia.
  - rewrite IH by (lia || (intros k Hk Hki; apply Hj; lia)). rewrite (Hj (Z.of_nat n)) by lia. lia.
Qed.

Lemma NSLOTS_eq : Z.of_nat NSLOTS = 64.
Proof. done. Qed.
#[local] Opaque NSLOTS.

(** Writing one slot, and the count with it. *)
Lemma count_write st a i v d :
  0 <= i < 64 -> st a count = nz (fun k => st a (slots k)) NSLOTS ->
  d = (if v =? 0 then 0 else 1) - (if st a (slots i) =? 0 then 0 else 1) ->
  let st' := wr (wr st a (slots i) v) a count (u32 (st a count + d)) in
  st' a count = nz (fun k => st' a (slots k)) NSLOTS.
Proof.
  intros Hi Hc Hd st'. unfold st' at 1. rewrite wr_same, Hc.
  assert (forall k, st' a (slots k) = if decide (k = i) then v else st a (slots k)) as Hs.
  { intros k. unfold st'. rewrite wr_other by (right; discriminate). case_decide as E; [subst; by rewrite wr_same|].
    apply wr_other. right. congruence. }
  rewrite (nz_change (fun k => st a (slots k)) (fun k => st' a (slots k)) NSLOTS i); [|rewrite NSLOTS_eq; lia|].
  - rewrite Hs, decide_True by done.
    pose proof (nz_range (fun k => st' a (slots k)) NSLOTS) as Hr.
    rewrite (nz_change (fun k => st a (slots k)) (fun k => st' a (slots k)) NSLOTS i) in Hr; [|rewrite NSLOTS_eq; lia|].
    + rewrite Hs, decide_True in Hr by done. unfold u32. rewrite NSLOTS_eq in Hr. rewrite Z.mod_small; lia.
    + intros j _ Hj. by rewrite Hs, decide_False.
  - intros j _ Hj. by rewrite Hs, decide_False.
Qed.

(** ** Lemmas: shapes *)

Lemma shape_ext st st' n a N :
  (forall x f, x ∈ N -> st' x f = st x f) -> shape st n a N -> shape st' n a N.
Proof.
  revert a N. induction n as [|n IH]; intros a N He; [done|]. intros (Ha & Hc & Ns & HNs & Hd).
  split; [done|]. split; [rewrite He, Hc by done; apply nz_ext; intros i _; by rewrite He|].
  exists Ns. split; [|done]. intros i Hi. destruct (HNs i Hi) as (Hsub & Hai & Hsh). rewrite He by done.
  split; [done|]. split; [done|]. intros H0. apply IH; [|by apply Hsh]. intros x f Hx. apply He. set_solver.
Qed.

Lemma find_ext st st' n a N idx :
  (forall x f, x ∈ N -> st' x f = st x f) -> shape st n a N -> find st' n a idx = find st n a idx.
Proof.
  revert a N. induction n as [|n IH]; intros a N He; [done|]. intros (Ha & Hc & Ns & HNs & Hd). cbn [find].
  rewrite He by done. destruct (Z.eqb_spec (st a (slots (digit idx n))) 0) as [|H0]; [done|].
  destruct (HNs _ (digit_range idx n)) as (Hsub & _ & Hsh). apply (IH _ (Ns (digit idx n))); [|by apply Hsh].
  intros x f Hx. apply He. set_solver.
Qed.

Lemma shape_mono st n a N N' : N ⊆ N' -> shape st n a N -> shape st n a N'.
Proof.
  destruct n as [|n]; [done|]. intros Hs (Ha & Hc & Ns & HNs & Hd). split; [set_solver|]. split; [done|].
  exists Ns. split; [|done]. intros i Hi. destruct (HNs i Hi) as (H1 & H2 & H3). split; [set_solver|done].
Qed.

Lemma lookup_walk_find n st a idx :
  (1 <= n <= 11)%nat -> lookup_walk n st a (6 * (Z.of_nat n - 1)) idx = find st n a idx.
Proof.
  revert a. induction n as [|n IH]; intros a Hn; [lia|]. cbn [lookup_walk find].
  replace (6 * (Z.of_nat (S n) - 1)) with (6 * Z.of_nat n) by lia. fold (digit idx n).
  destruct (st a (slots (digit idx n)) =? 0); [done|]. destruct n as [|n]; [done|].
  rewrite <- IH by lia. f_equal. unfold u32, RADIX_TREE_MAP_SHIFT. rewrite Z.mod_small; lia.
Qed.


(** Giving the node [a] another subtree at slot [i]. *)
Lemma shape_child st st' n a N Ns i C :
  0 <= i < 64 -> a ∈ N ->
  (forall j, 0 <= j < 64 -> j <> i -> Ns j ⊆ N /\ a ∉ Ns j /\ (st a (slots j) <> 0 -> shape st n (st a (slots j)) (Ns j))) ->
  (forall j k, 0 <= j < 64 -> 0 <= k < 64 -> j <> k -> Ns j ## Ns k) ->
  st' a count = nz (fun k => st' a (slots k)) NSLOTS ->
  (forall j, j <> i -> st' a (slots j) = st a (slots j)) ->
  (st' a (slots i) <> 0 -> shape st' n (st' a (slots i)) C) ->
  a ∉ C -> (forall j, 0 <= j < 64 -> j <> i -> C ## Ns j) ->
  (forall j x f, 0 <= j < 64 -> j <> i -> x ∈ Ns j -> st' x f = st x f) ->
  shape st' (S n) a (N ∪ C) /\
  (forall j, find st' (S n) a j =
     if digit j n =? i then (if st' a (slots i) =? 0 then 0 else find st' n (st' a (slots i)) j)
     else find st (S n) a j).
Proof.
  intros Hi Ha HNs Hdis Hc Hs HC HaC HCN Hfr. split.
  - split; [set_solver|]. split; [done|]. exists (fupd Ns i C). split.
    + intros j Hj. destruct (decide (j = i)) as [->|Hne].
      * rewrite fupd_same. split; [set_solver|]. split; [done|exact HC].
      * rewrite fupd_other by done. destruct (HNs j Hj Hne) as (H1 & H2 & H3). split; [set_solver|]. split; [done|].
        rewrite Hs by done. intros H0. apply (shape_ext st); [|by apply H3]. intros x f Hx. by apply (Hfr j).
    + intros j k Hj Hk Hjk. destruct (decide (j = i)) as [->|Hji]; destruct (decide (k = i)) as [->|Hki];
        rewrite ?fupd_same, ?fupd_other by done; [done| | |by apply Hdis]; [by apply HCN|].
      symmetry. by apply HCN.
  - intros j. cbn [find]. destruct (Z.eqb_spec (digit j n) i) as [E|Hne]; [by rewrite E|].
    rewrite Hs by done. destruct (Z.eqb_spec (st a (slots (digit j n))) 0) as [|H0]; [done|].
    destruct (HNs _ (digit_range j n) Hne) as (_ & _ & H3). apply (find_ext _ _ _ _ (Ns (digit j n))); [|by apply H3].
    intros x f Hx. apply (Hfr (digit j n)); [apply digit_range|done|done].
Qed.

(** A fresh node is an empty tree. *)
Lemma shape_empty st n a : (forall f, st a f = 0) -> shape st n a {[a]} /\ forall j, (1 <= n)%nat -> find st n a j = 0.
Proof.
  intros Hz. destruct n as [|n]; [split; [done|lia]|]. split.
  - split; [set_solver|]. split.
    + rewrite Hz. assert (forall m, nz (fun i => st a (slots i)) m = 0) as Hn; [|by rewrite Hn].
      induction m as [|m IH]; [done|]. cbn [nz]. rewrite IH, Hz. done.
    + exists (fun _ => ∅). split; [|set_solver]. intros i Hi. rewrite Hz. set_solver.
  - intros j _. cbn [find]. by rewrite Hz.
Qed.

Lemma node_alloc_spec t :
  a_wf (r_heap t) ->
  exists t1 c, radix_tree_node_alloc t = Some (t1, c) /\ a_alloc (r_heap t) sizeof_node = Some (r_heap t1, c) /\
    a_wf (r_heap t1) /\ height t1 = height t /\ rnode t1 = rnode t /\
    (forall x s, a_live (r_heap t) x s -> a_live (r_heap t1) x s) /\
    ((c = 0 /\ r_st t1 = r_st t) \/
     (c <> 0 /\ ~ live_at (r_heap t) c /\ live_at (r_heap t1) c /\
      forall x f, r_st t1 x f = if decide (x = c) then 0 else r_st t x f)).
Proof.
  intros Hwf. unfold radix_tree_node_alloc.
  destruct (a_alloc_spec (r_heap t) sizeof_node Hwf ltac:(unfold sizeof_node; lia)) as (h & c & -> & Hwf' & Hcase).
  cbn [mbind option_bind]. eexists _, c. split; [done|]. split; [done|]. split; [done|]. split; [done|]. split; [done|].
  destruct Hcase as [[-> Hl]|(s & Hs & Hfresh & Hl)].
  - split; [intros x s Hx; by apply Hl|]. left. done.
  - split; [intros x u Hx; apply Hl; by right|]. right.
    assert (a_live h c s) as Hc by (apply Hl; by left). destruct (a_live_pos _ _ _ Hwf' Hc).
    split; [lia|]. split; [intros [u Hu]; by apply (Hfresh u)|]. split; [by exists s|].
    intros x f. simpl. by rewrite (proj2 (Z.eqb_neq c 0)) by lia.
Qed.

(** What an operation that only adds nodes does to the rest of the heap. *)
Record grown (t t' : rtree) (N N' : gset Z) : Prop := {
  g_wf : a_wf (r_heap t');
  g_mono : forall x s, a_live (r_heap t) x s -> a_live (r_heap t') x s;
  g_sub : N ⊆ N';
  g_new : forall x, x ∈ N' -> x ∈ N \/ ~ live_at (r_heap t) x;
  g_live : live_set (r_heap t') N';
  g_frame : forall x f, x ∉ N -> live_at (r_heap t) x -> r_st t' x f = r_st t x f;
  g_height : height t' = height t;
  g_rnode : rnode t' = rnode t
}.

Lemma live_mono (h h' : A) x :
  (forall x s, a_live h x s -> a_live h' x s) -> live_at h x -> live_at h' x.
Proof. intros Hm [s Hs]. exists s. by apply Hm. Qed.


(** The work of the levels below, seen from the node [a] whose slot [i] leads
    to [c]: [t] is the state before the level, [t1] the one in which the
    descent goes on, and [t'] the result. *)
Lemma insert_descend n t t1 t' a N Ns i c N0 C :
  0 <= i < 64 -> a ∈ N -> live_set (r_heap t) N ->
  (forall j, 0 <= j < 64 -> Ns j ⊆ N /\ a ∉ Ns j /\
     (r_st t a (slots j) <> 0 -> shape (r_st t) n (r_st t a (slots j)) (Ns j))) ->
  (forall j k, 0 <= j < 64 -> 0 <= k < 64 -> j <> k -> Ns j ## Ns k) ->
  (forall x s, a_live (r_heap t) x s -> a_live (r_heap t1) x s) ->
  height t1 = height t -> rnode t1 = rnode t ->
  (forall x f, x <> a -> live_at (r_heap t) x -> r_st t1 x f = r_st t x f) ->
  (forall j, j <> i -> r_st t1 a (slots j) = r_st t a (slots j)) ->
  r_st t1 a (slots i) = c -> c <> 0 -> r_st t1 a count = nz (fun k => r_st t1 a (slots k)) NSLOTS ->
  (forall x, x ∈ N0 -> x ∈ Ns i \/ ~ live_at (r_heap t) x) ->
  grown t1 t' N0 C -> shape (r_st t') n c C ->
  grown t t' N (N ∪ C) /\ shape (r_st t') (S n) a (N ∪ C) /\
  forall j, find (r_st t') (S n) a j = if digit j n =? i then find (r_st t') n c j else find (r_st t) (S n) a j.
Proof.
  intros Hi Ha Hlive HNs Hdis Hm1 Hh1 Hr1 Hfr1 Hs1 Hc Hc0 Hcnt HN0 [Hwf Hm Hsub Hnew Hl Hfr Hh Hr] HC.
  assert (forall x, live_at (r_heap t) x -> x ∉ Ns i -> x ∉ C) as HnotC.
  { intros x Hx HxN HxC. destruct (Hnew x HxC) as [Hx0|Hx0].
    - by destruct (HN0 x Hx0).
    - apply Hx0. by apply (live_mono (r_heap t)). }
  assert (forall x f, live_at (r_heap t) x -> x ∉ Ns i -> r_st t' x f = r_st t1 x f) as Hkeep.
  { intros x f Hx HxN. apply Hfr; [|by apply (live_mono (r_heap t))].
    intros Hx0. by destruct (HN0 x Hx0). }
  destruct (HNs i Hi) as (HNi & Hai & _).
  assert (forall f, r_st t' a f = r_st t1 a f) as Hka by (intros f; apply Hkeep; [by apply Hlive|done]).
  split.
  - split; [done| |set_solver| | | |congruence|congruence].
    + intros x s Hx. by apply Hm, Hm1.
    + intros x Hx. destruct (decide (x ∈ N)) as [|HxN]; [by left|]. right. intros Hxl.
      apply (HnotC x Hxl); [set_solver|set_solver].
    + intros x Hx. apply elem_of_union in Hx as [Hx|Hx]; [|by apply Hl].
      apply (live_mono (r_heap t1)); [done|]. apply (live_mono (r_heap t)); [done|]. by apply Hlive.
    + intros x f HxN Hxl. rewrite Hkeep by (done || set_solver). apply Hfr1; [|done]. intros ->. done.
  - destruct (shape_child (r_st t) (r_st t') n a N Ns i C) as [Hsh Hf]; try done.
    + intros j Hj _. by apply HNs.
    + rewrite Hka, Hcnt. apply nz_ext. intros k _. by rewrite Hka.
    + intros j Hj. rewrite Hka. by apply Hs1.
    + intros _. by rewrite Hka, Hc.
    + apply HnotC; [by apply Hlive|done].
    + intros j Hj Hji x HxC Hxj. destruct (HNs j Hj) as (HNj & _).
      apply (HnotC x); [apply Hlive; set_solver| |done]. intros Hxi. by apply (Hdis i j Hi Hj ltac:(congruence) x).
    + intros j x f Hj Hji Hxj. destruct (HNs j Hj) as (HNj & Haj & _).
      assert (live_at (r_heap t) x) as Hxl by (apply Hlive; set_solver).
      rewrite Hkeep; [|done|intros Hxi; by apply (Hdis i j Hi Hj ltac:(congruence) x)].
      apply Hfr1; [|done]. intros ->. done.
    + split; [done|]. intros j. rewrite Hf, Hka, Hc, (proj2 (Z.eqb_neq c 0)) by done. done.
Qed.

Definition insert_post (n : nat) (t t' : rtree) (a idx item r : Z) : Prop :=
  (r = 0 /\ find (r_st t) n a idx = 0 /\
   forall j, find (r_st t') n a j = if agree n j idx then item else find (r_st t) n a j) \/
  (r = -1 /\ (forall j, find (r_st t') n a j = find (r_st t) n a j) /\
   (find (r_st t) n a idx <> 0 \/ oom_within n (r_heap t))).

Lemma insert_leaf t a idx item N :
  a_wf (r_heap t) -> shape (r_st t) 1 a N -> live_set (r_heap t) N -> item <> 0 ->
  exists t' r, insert_walk 1 t a 0 idx item = Some (t', r) /\ grown t t' N N /\ shape (r_st t') 1 a N /\
    insert_post 1 t t' a idx item r.
Proof.
  intros Hwf Hsh Hlive Hitem. cbn [insert_walk]. change (64 <=? 0) with false. cbv iota.
  change (idx .>> 0 .& RADIX_TREE_MAP_MASK) with (digit idx 0). pose proof (digit_range idx 0) as Hi.
  destruct (Z.eqb_spec (r_st t a (slots (digit idx 0))) 0) as [E|E]; cbn [negb].
  - destruct Hsh as (Ha & Hc & Ns & HNs & Hdis). set (t1 := rset t a (slots (digit idx 0)) item).
    set (t' := rset t1 a count (u32 (r_st t1 a count + 1))). exists t', 0. split; [done|].
    set (st' := r_st t'). assert (forall x f, x <> a -> st' x f = r_st t x f) as Hother.
    { intros x f Hx. unfold st'. simpl. rewrite !wr_other by (by left). done. }
    assert (forall j, st' a (slots j) = if decide (j = digit idx 0) then item else r_st t a (slots j)) as Hslots.
    { intros j. unfold st', t', t1. cbn [r_st rset]. rewrite wr_other by (right; discriminate).
      case_decide as Ej; [subst; by rewrite wr_same|]. apply wr_other. right. congruence. }
    destruct (shape_child (r_st t) st' 0 a N Ns (digit idx 0) ∅) as [Hsh' Hf]; try done.
    + intros j Hj _. by apply HNs.
    + unfold st', t', t1. cbn [r_st rset]. rewrite (wr_other (r_st t) a (slots (digit idx 0)) item a count) by (right; discriminate).
      apply count_write; [done|done|].
      rewrite E, (proj2 (Z.eqb_neq item 0)) by done. done.
    + intros j Hj. by rewrite Hslots, decide_False.
    + intros j x f Hj Hji Hx. apply Hother. intros ->. by apply (HNs j Hj).
    + rewrite union_empty_r_L in Hsh'. split; [|split; [exact Hsh'|]].
      * split; try done; [by left|]. intros x f Hx _. apply Hother. intros ->. done.
      * left. split; [done|]. split; [cbn [find]; by rewrite E|].
        intros j. rewrite Hf, Hslots, decide_True by done. cbn [agree find]. rewrite andb_true_r.
        rewrite (proj2 (Z.eqb_neq item 0)) by done. done.
  - exists t, (-1). split; [done|]. split; [split; try done; by left|]. split; [done|]. right.
    split; [done|]. split; [done|]. left. cbn [find]. by rewrite (proj2 (Z.eqb_neq _ _) E).
Qed.


Lemma agree_S n i j : agree (S n) i j = (digit i n =? digit j n) && agree n i j.
Proof. done. Qed.

(** The post-condition of the levels below gives that of the node above. *)
Lemma insert_post_up n t t1 t' a c idx item r :
  (1 <= n)%nat ->
  (forall j, find (r_st t') (S n) a j = if digit j n =? digit idx n then find (r_st t') n c j else find (r_st t) (S n) a j) ->
  (forall j, digit j n = digit idx n -> find (r_st t) (S n) a j = find (r_st t1) n c j) ->
  (oom_within n (r_heap t1) -> oom_within (S n) (r_heap t)) ->
  insert_post n t1 t' c idx item r -> insert_post (S n) t t' a idx item r.
Proof.
  intros Hn Hf Hft Hoom [(-> & H0 & Hj)|(-> & Hj & Hwhy)]; [left|right]; (split; [done|]).
  - split; [by rewrite Hft|]. intros j. rewrite Hf, agree_S.
    destruct (Z.eqb_spec (digit j n) (digit idx n)) as [E|]; cbn [andb]; [|done]. rewrite Hj, <- Hft by done. done.
  - split.
    + intros j. rewrite Hf. destruct (Z.eqb_spec (digit j n) (digit idx n)) as [E|]; [|done]. rewrite Hj, <- Hft by done. done.
    + rewrite Hft by done. destruct Hwhy as [?|?]; [by left|right; by apply Hoom].
Qed.

Lemma oom_more k h : oom_within k h -> oom_within (S k) h.
Proof.
  revert h. induction k as [|k IH]; intros h; [done|]. intros (h' & p & Ha & Hp). exists h', p. split; [done|].
  destruct Hp as [?|?]; [by left|right; by apply IH].
Qed.

Lemma insert_walk_spec n t a idx item N :
  (1 <= n <= 11)%nat -> a_wf (r_heap t) -> shape (r_st t) n a N -> live_set (r_heap t) N -> item <> 0 ->
  exists t' r N', insert_walk n t a (6 * (Z.of_nat n - 1)) idx item = Some (t', r) /\
    grown t t' N N' /\ shape (r_st t') n a N' /\ insert_post n t t' a idx item r.
Proof.
  revert t a N. induction n as [|n IH]; intros t a N Hn Hwf Hsh Hlive Hitem; [lia|].
  destruct n as [|m].
  { destruct (insert_leaf t a idx item N Hwf Hsh Hlive Hitem) as (t' & r & ? & ? & ? & ?). by exists t', r, N. }
  set (n := S m) in *. cbn [insert_walk].
  replace (6 * (Z.of_nat (S n) - 1)) with (6 * Z.of_nat n) by lia.
  rewrite (proj2 (Z.leb_gt 64 (6 * Z.of_nat n))) by lia. fold (digit idx n). unfold n at 1.
  replace (u32 (6 * Z.of_nat n - RADIX_TREE_MAP_SHIFT)) with (6 * (Z.of_nat n - 1))
    by (unfold u32, RADIX_TREE_MAP_SHIFT; rewrite Z.mod_small; lia).
  pose proof (digit_range idx n) as Hi. set (i := digit idx n) in *.
  pose proof Hsh as (Ha & Hc & Ns & HNs & Hdis). destruct (HNs i Hi) as (HNi & Hai & Hshi).
  destruct (Z.eqb_spec (r_st t a (slots i)) 0) as [E|E].
  - destruct (node_alloc_spec t Hwf) as (t1 & c & -> & Hal & Hwf1 & Hh1 & Hr1 & Hm1 & Hcase). cbn [mbind option_bind].
    destruct Hcase as [[-> Hst]|(Hc0 & Hfresh & Hlc & Hst)].
    + exists t1, (-1), N. split; [done|]. rewrite Hst. split; [|split; [done|]].
      * split; try done; [by left| |by rewrite Hst]. intros x Hx. apply (live_mono (r_heap t)); [done|by apply Hlive].
      * right. split; [done|]. split; [by rewrite Hst|]. right. exists (r_heap t1), 0. split; [done|by left].
    + rewrite (proj2 (Z.eqb_neq c 0)) by done.
      set (t2 := rset t1 a (slots i) c). set (t3 := rset t2 a count (u32 (r_st t2 a count + 1))).
      assert (a <> c) as Hac by (intros ->; apply Hfresh, Hlive; done).
      assert (forall x f, x <> a -> r_st t3 x f = if decide (x = c) then 0 else r_st t x f) as Hother.
      { intros x f Hx. unfold t3, t2. cbn [r_st rset]. rewrite !wr_other by (by left). apply Hst. }
      assert (forall f, r_st t1 a f = r_st t a f) as Ha1 by (intros f; by rewrite Hst, decide_False).
      assert (forall j, r_st t3 a (slots j) = if decide (j = i) then c else r_st t a (slots j)) as Hslots.
      { intros j. unfold t3, t2. cbn [r_st rset]. rewrite wr_other by (right; discriminate).
        case_decide as Ej; [subst; by rewrite wr_same|]. rewrite wr_other by (right; congruence). apply Ha1. }
      rewrite Hslots, decide_True by done.
      destruct (shape_empty (r_st t3) n c) as [Hemp Hfemp]; [intros f; rewrite Hother by done; by rewrite decide_True|].
      destruct (IH t3 c {[c]}) as (t' & r & C & -> & Hg & HshC & Hpost); [lia|done|done| |done|].
      { intros x Hx. apply elem_of_singleton in Hx as ->. exact Hlc. }
      destruct (insert_descend n t t3 t' a N Ns i c {[c]} C) as (Hg' & Hsh' & Hf'); try done.
      * intros x f Hx Hxl. rewrite Hother by done. rewrite decide_False; [done|]. intros ->. done.
      * intros j Hj. by rewrite Hslots, decide_False.
      * by rewrite Hslots, decide_True.
      * unfold t3, t2. cbn [r_st rset]. rewrite (wr_other (r_st t1) a (slots i) c a count) by (right; discriminate).
        apply count_write; [done| |rewrite Ha1, E, (proj2 (Z.eqb_neq c 0)) by done; done].
        rewrite Ha1, Hc. apply nz_ext. intros k _. by rewrite Ha1.
      * intros x Hx. apply elem_of_singleton in Hx as ->. by right.
      * exists t', r, (N ∪ C). split; [done|]. split; [done|]. split; [done|].
        apply (insert_post_up n t t3 t' a c); [lia|done| | |done].
        -- intros j Hj. cbn [find]. rewrite Hj. fold i. rewrite E, Hfemp by lia. done.
        -- intros Ho. exists (r_heap t1), c. split; [done|]. right. exact Ho.
  - destruct (IH t (r_st t a (slots i)) (Ns i)) as (t' & r & C & -> & Hg & HshC & Hpost); [lia|done|by apply Hshi| |done|].
    { intros x Hx. apply Hlive. set_solver. }
    destruct (insert_descend n t t t' a N Ns i (r_st t a (slots i)) (Ns i) C) as (Hg' & Hsh' & Hf'); try done; [by left|].
    exists t', r, (N ∪ C). split; [done|]. split; [done|]. split; [done|].
    apply (insert_post_up n t t t' a (r_st t a (slots i))); [lia|done| |apply oom_more|done].
    intros j Hj. cbn [find]. rewrite Hj. fold i. by rewrite (proj2 (Z.eqb_neq _ _) E).
Qed.


(** ** The whole tree *)

(** The tree of [t] has its nodes in [N], all of them live blocks, and a height
    for which every shift is defined. *)
Definition tree_ok (t : rtree) (N : gset Z) : Prop :=
  a_wf (r_heap t) /\ 0 <= height t <= 10 /\
  (rnode t <> 0 -> 1 <= height t /\ shape (r_st t) (Z.to_nat (height t)) (rnode t) N /\ live_set (r_heap t) N).

(** The map the tree stands for; 0 is no entry. *)
Definition entry (t : rtree) (idx : Z) : Z :=
  if rnode t =? 0 then 0
  else if idx <? 64 ^ height t then find (r_st t) (Z.to_nat (height t)) (rnode t) idx else 0.

(** A failing allocation in the next [m] after [h'] is one in the next
    [m + k] after [h]. *)
Definition allocated (k : nat) (h h' : A) : Prop := forall m, oom_within m h' -> oom_within (m + k) h.

Lemma pow64_le h k : 0 <= h <= k -> 64 ^ h <= 64 ^ k.
Proof. intros Hh. apply Z.pow_le_mono_r; lia. Qed.

Lemma max_index_spec h : 0 <= h <= 10 -> max_index h = Some (64 ^ h - 1).
Proof.
  intros Hh. unfold max_index, RADIX_TREE_MAP_SHIFT. unfold u32. rewrite Z.mod_small by lia.
  rewrite (proj2 (Z.ltb_lt _ _)) by lia. f_equal. rewrite Z.shiftl_1_l.
  replace (2 ^ (h * 6)) with (64 ^ h) by (change 64 with (2 ^ 6); rewrite <- Z.pow_mul_r by lia; f_equal; lia).
  unfold u64. pose proof (pow64_le h 10 ltac:(lia)). assert (0 < 64 ^ h) by (apply Z.pow_pos_nonneg; lia).
  change (64 ^ 10) with (2 ^ 60) in *. rewrite Z.mod_small by lia. lia.
Qed.

Lemma shift_spec h : 1 <= h <= 10 -> u32 ((h - 1) * RADIX_TREE_MAP_SHIFT) = 6 * (Z.of_nat (Z.to_nat h) - 1).
Proof. intros Hh. unfold u32, RADIX_TREE_MAP_SHIFT. rewrite Z.mod_small, Z2Nat.id by lia. lia. Qed.

Lemma lookup_entry t N idx : tree_ok t N -> 0 <= idx -> radix_tree_lookup t idx = Some (entry t idx).
Proof.
  intros (Hwf & Hh & Hr) Hi. unfold radix_tree_lookup, entry.
  destruct (Z.eqb_spec (rnode t) 0) as [E|E]; [by rewrite orb_true_r|]. destruct (Hr E) as (H1 & _).
  rewrite (proj2 (Z.eqb_neq _ _)) by lia. cbn [orb]. rewrite max_index_spec by done. cbn [mbind option_bind].
  destruct (Z.ltb_spec (64 ^ height t - 1) idx), (Z.ltb_spec idx (64 ^ height t)); try lia; [done|].
  rewrite shift_spec, lookup_walk_find by lia. done.
Qed.

(** The height for the first entry. *)
Lemma first_height_spec fuel idx :
  0 <= idx < 2 ^ 60 -> (11 <= fuel)%nat -> exists h, first_height fuel idx = Some h /\ 1 <= h <= 10 /\ idx < 64 ^ h.
Proof.
  intros Hi Hf. unfold first_height.
  destruct (loop_total (fun '(tmp, h) => 0 <= h <= 10 /\ tmp = idx / 64 ^ h) (fun '(tmp, h) => Z.to_nat (10 - h))
    (fun h => 0 <= h <= 10 /\ idx / 64 ^ h = 0) first_height_step) with (fuel := fuel) (s := (idx, 0)) as (h & -> & Hh & Hd).
  - intros [tmp h] [Hh ->]. unfold first_height_step. assert (0 < 64 ^ h) by (apply Z.pow_pos_nonneg; lia).
    destruct (Z.ltb_spec 0 (idx / 64 ^ h)) as [Hlt|Hle].
    + assert (h <> 10) as Hne by (intros ->; change (64 ^ 10) with (2 ^ 60) in Hlt; rewrite Z.div_small in Hlt by lia; lia).
      split; [|lia]. split; [lia|]. unfold RADIX_TREE_MAP_SHIFT. rewrite Z.shiftr_div_pow2 by lia. change (2 ^ 6) with 64.
      rewrite Z.div_div by lia. f_equal. rewrite Z.pow_add_r by lia. lia.
    + split; [done|]. pose proof (Z.div_pos idx (64 ^ h)). lia.
  - split; [lia|]. by rewrite Z.div_1_r.
  - simpl. lia.
  - cbn [mbind option_bind]. eexists. split; [done|].
    assert (0 < 64 ^ h) by (apply Z.pow_pos_nonneg; lia). apply Z.div_small_iff in Hd; [|lia].
    destruct (Z.eqb_spec h 0) as [->|]; [|lia]. change (64 ^ 0) with 1 in Hd. change (64 ^ 1) with 64. lia.
Qed.

Lemma extend_height_spec fuel h0 idx :
  0 <= h0 < 10 -> 0 <= idx < 2 ^ 60 -> (11 <= fuel)%nat ->
  exists h, mjoin (loop fuel (extend_height_step idx) (h0 + 1)) = Some h /\ h0 < h <= 10 /\ idx < 64 ^ h.
Proof.
  intros Hh0 Hi Hf.
  destruct (loop_total (fun h => h0 < h <= 10) (fun h => Z.to_nat (10 - h))
    (fun r => exists h, r = Some h /\ h0 < h <= 10 /\ idx < 64 ^ h) (extend_height_step idx))
    with (fuel := fuel) (s := h0 + 1) as (r & -> & h & -> & Hh); [|lia|lia|by exists h].
  intros h Hh. unfold extend_height_step. rewrite max_index_spec by lia.
  destruct (Z.ltb_spec (64 ^ h - 1) idx) as [Hlt|Hle].
  - assert (h <> 10) by (intros ->; change (64 ^ 10) with (2 ^ 60) in Hlt; lia). lia.
  - exists h. split; [done|]. lia.
Qed.

Lemma digit_top j n : 0 <= j < 64 ^ Z.of_nat n -> digit j n = 0.
Proof. intros Hj. by rewrite digit_div, Z.div_small. Qed.

Lemma digit_above j n : 64 ^ Z.of_nat n <= j < 64 ^ Z.of_nat (S n) -> digit j n <> 0.
Proof.
  intros Hj. rewrite digit_div. assert (0 < 64 ^ Z.of_nat n) as Hp by (apply Z.pow_pos_nonneg; lia).
  rewrite Nat2Z.inj_succ, Z.pow_succ_r in Hj by lia.
  assert (1 <= j / 64 ^ Z.of_nat n) by (apply Z.div_le_lower_bound; lia).
  assert (j / 64 ^ Z.of_nat n < 64) by (apply Z.div_lt_upper_bound; lia).
  rewrite Z.mod_small by lia. lia.
Qed.


(** A new root above the old one stands for the same map. *)
Lemma new_root_spec t t1 c N :
  tree_ok t N -> rnode t <> 0 -> height t < 10 ->
  a_wf (r_heap t1) -> height t1 = height t -> rnode t1 = rnode t ->
  (forall x s, a_live (r_heap t) x s -> a_live (r_heap t1) x s) ->
  c <> 0 -> ~ live_at (r_heap t) c -> live_at (r_heap t1) c ->
  (forall x f, r_st t1 x f = if decide (x = c) then 0 else r_st t x f) ->
  let t2 := set_root (rset (rset t1 c (slots 0) (rnode t1)) c count 1) (height t1 + 1) c in
  tree_ok t2 ({[c]} ∪ N) /\ forall j, 0 <= j -> entry t2 j = entry t j.
Proof.
  intros (Hwf & Hh & Hok) Hr Hlt Hwf1 Eh Er Hm Hc0 Hfresh Hlc Hst t2. destruct (Hok Hr) as (H1 & Hsh & Hlive).
  set (n := Z.to_nat (height t)) in *. assert (Z.of_nat n = height t) as En by (unfold n; lia).
  set (st1 := r_st t1) in *. assert (forall f, st1 c f = 0) as Hz by (intros f; by rewrite Hst, decide_True).
  assert (c ∉ N) as HcN by (intros Hc; by apply Hfresh, Hlive).
  assert (forall x f, x <> c -> r_st t2 x f = r_st t x f) as Hother.
  { intros x f Hx. unfold t2. cbn [r_st rset set_root]. rewrite !wr_other by (by left). rewrite Hst. by rewrite decide_False. }
  assert (forall j, r_st t2 c (slots j) = if decide (j = 0) then rnode t else 0) as Hslots.
  { intros j. unfold t2. cbn [r_st rset set_root]. rewrite wr_other by (right; discriminate). rewrite Er.
    case_decide as Ej; [subst; by rewrite wr_same|]. rewrite wr_other by (right; congruence). apply Hz. }
  destruct (shape_child st1 (r_st t2) n c {[c]} (fun _ => ∅) 0 N) as [Hsh2 Hf2]; try done.
  - set_solver.
  - intros j Hj _. rewrite Hz. set_solver.
  - pose proof (count_write st1 c 0 (rnode t) 1 ltac:(lia)) as Hcw. cbv zeta in Hcw. rewrite Hz in Hcw.
    change (u32 (0 + 1)) with 1 in Hcw. rewrite Hz in Hcw. rewrite (proj2 (Z.eqb_neq (rnode t) 0)) in Hcw by done.
    unfold t2. cbn [r_st rset set_root]. rewrite Er. apply Hcw; [|done].
    destruct (shape_empty st1 1 c Hz) as [(_ & Hcz & _) _]. by rewrite <- Hcz, Hz.
  - intros j Hj. by rewrite Hslots, decide_False, Hz.
  - intros _. rewrite Hslots, decide_True by done. apply (shape_ext (r_st t)); [|done].
    intros x f Hx. apply Hother. intros ->. done.
  - assert (Z.to_nat (height t2) = S n) as Eh2 by (unfold t2; simpl; lia).
    split.
    + split; [done|]. split; [unfold t2; simpl; lia|]. intros _. split; [unfold t2; simpl; lia|].
      rewrite Eh2. split; [exact Hsh2|]. intros x Hx. apply elem_of_union in Hx as [Hx|Hx].
      * apply elem_of_singleton in Hx as ->. exact Hlc.
      * apply (live_mono (r_heap t)); [done|by apply Hlive].
    + intros j Hj. unfold entry. rewrite Eh2. change (rnode t2) with c. rewrite (proj2 (Z.eqb_neq c 0)), (proj2 (Z.eqb_neq (rnode t) 0)) by done.
      rewrite Hf2, Hslots, decide_True by done. rewrite (proj2 (Z.eqb_neq (rnode t) 0)) by done.
      change (height t2) with (height t1 + 1). rewrite Eh.
      assert (64 ^ (height t + 1) = 64 * 64 ^ height t) as Ep by (rewrite Z.pow_add_r by lia; lia).
      assert (0 < 64 ^ height t) by (apply Z.pow_pos_nonneg; lia). fold n.
      destruct (Z.ltb_spec j (64 ^ height t)) as [Hj1|Hj1].
      * rewrite (proj2 (Z.ltb_lt _ _)) by lia. rewrite digit_top by (rewrite En; lia). rewrite Z.eqb_refl.
        apply (find_ext _ _ _ _ N); [|done]. intros x f Hx. apply Hother. intros ->. done.
      * destruct (Z.ltb_spec j (64 ^ (height t + 1))) as [Hj2|]; [|done].
        rewrite (proj2 (Z.eqb_neq (digit j n) 0)); [cbn [find]; by rewrite Hz|].
        apply digit_above. rewrite Nat2Z.inj_succ, En. replace (Z.succ (height t)) with (height t + 1) by lia. lia.
Qed.

(** Blocks outside the tree survive, and the nodes added were not in use. *)
Definition fresh_nodes (h h' : A) (N N' : gset Z) : Prop :=
  (forall x s, a_live h x s -> a_live h' x s) /\ forall x, x ∈ N' -> x ∈ N \/ ~ live_at h x.

Lemma fresh_mono (h h' : A) N : (forall x s, a_live h x s -> a_live h' x s) -> fresh_nodes h h' N N.
Proof. intros Hm. split; [done|]. auto. Qed.

Lemma fresh_trans h1 h2 h3 N1 N2 N3 : fresh_nodes h1 h2 N1 N2 -> fresh_nodes h2 h3 N2 N3 -> fresh_nodes h1 h3 N1 N3.
Proof.
  intros [Hm1 Hn1] [Hm2 Hn2]. split; [by eauto|]. intros x Hx. destruct (Hn2 x Hx) as [Hx2|Hx2]; [by apply Hn1|].
  right. intros Hl. apply Hx2. by apply (live_mono h1).
Qed.

Lemma fresh_add (h h' : A) N N' c :
  (forall x s, a_live h x s -> a_live h' x s) -> ~ live_at h c -> (forall x, x ∈ N' -> x ∈ N \/ x = c) -> fresh_nodes h h' N N'.
Proof. intros Hm Hc HN. split; [done|]. intros x Hx. destruct (HN x Hx) as [?| ->]; auto. Qed.

Lemma extend_root_spec n t h N :
  tree_ok t N -> rnode t <> 0 -> height t <= h <= 10 -> (Z.to_nat (h - height t) < n)%nat ->
  exists t' r N', extend_root n t h = Some (t', r) /\ tree_ok t' N' /\ fresh_nodes (r_heap t) (r_heap t') N N' /\ rnode t' <> 0 /\
    (forall j, 0 <= j -> entry t' j = entry t j) /\
    ((r = 0 /\ height t' = h /\ allocated (Z.to_nat (h - height t)) (r_heap t) (r_heap t')) \/
     (r = -1 /\ oom_within (Z.to_nat (h - height t)) (r_heap t))).
Proof.
  revert t N. induction n as [|n IH]; intros t N Hok Hr Hh Hn; [lia|]. cbn [extend_root].
  destruct (Z.ltb_spec (height t) h) as [Hlt|Hge].
  - destruct (node_alloc_spec t (proj1 Hok)) as (t1 & c & -> & Hal & Hwf1 & Hh1 & Hr1 & Hm1 & Hcase).
    cbn [mbind option_bind]. replace (Z.to_nat (h - height t)) with (S (Z.to_nat (h - (height t + 1)))) by lia.
    destruct Hcase as [[-> Hst]|(Hc0 & Hfresh & Hlc & Hst)].
    + exists t1, (-1), N. split; [done|]. split; [|split; [by apply fresh_mono|split; [congruence|split]]].
      * destruct Hok as (Hwf & Hh0 & Hok). rewrite <- Hr1, <- Hh1 in Hok. split; [done|]. split; [lia|].
        intros Hr0. destruct (Hok Hr0) as (H1 & H2 & H3). split; [done|]. rewrite Hst. split; [done|].
        intros x Hx. apply (live_mono (r_heap t)); [done|by apply H3].
      * intros j Hj. unfold entry. by rewrite Hr1, Hh1, Hst.
      * right. split; [done|]. exists (r_heap t1), 0. split; [done|by left].
    + rewrite (proj2 (Z.eqb_neq c 0)) by done.
      destruct (new_root_spec t t1 c N Hok Hr ltac:(lia) Hwf1 Hh1 Hr1 Hm1 Hc0 Hfresh Hlc Hst) as [Hok2 He2].
      set (t2 := set_root (rset (rset t1 c (slots 0) (rnode t1)) c count 1) (height t1 + 1) c) in *.
      change (set_root (rset (rset t1 c (slots 0) (rnode t1)) c count 1)
        (height (rset (rset t1 c (slots 0) (rnode t1)) c count 1) + 1) c) with t2.
      destruct (IH t2 _ Hok2) as (t' & r & N' & -> & Hok' & Hfn' & Hr' & He' & Hcase'); [done|unfold t2; simpl; lia..|].
      exists t', r, N'. split; [done|]. split; [done|].
      split; [apply (fresh_trans _ _ _ _ _ _ (fresh_add (r_heap t) (r_heap t1) N ({[c]} ∪ N) c Hm1 Hfresh ltac:(set_solver)) Hfn')|].
      split; [done|]. split; [intros j Hj; rewrite He', He2 by done; done|].
      change (height t2) with (height t1 + 1) in Hcase'. rewrite Hh1 in Hcase'. change (r_heap t2) with (r_heap t1) in Hcase'.
      destruct Hcase' as [(-> & Hh' & Hal')|[-> Ho]]; [left|right]; (split; [done|]).
      * split; [done|]. intros m Hm. rewrite Nat.add_succ_r. exists (r_heap t1), c. split; [done|]. right. by apply Hal'.
      * exists (r_heap t1), c. split; [done|by right].
  - exists t, 0, N. split; [done|]. split; [done|]. split; [by apply fresh_mono|]. split; [done|]. split; [done|]. left.
    split; [done|]. split; [lia|]. intros m Hm. replace (Z.to_nat (h - height t)) with 0%nat by lia. by rewrite Nat.add_0_r.
Qed.


Lemma allocated_more k k' h h' : allocated k h h' -> (k <= k')%nat -> allocated k' h h'.
Proof.
  intros Ha Hk m Hm. specialize (Ha m Hm). replace (m + k')%nat with (m + k + (k' - k))%nat by lia.
  induction (k' - k)%nat as [|d IH]; [by rewrite Nat.add_0_r|]. rewrite Nat.add_succ_r. by apply oom_more.
Qed.

Lemma oom_le k k' h : oom_within k h -> (k <= k')%nat -> oom_within k' h.
Proof.
  intros Ho Hk. replace k' with (k + (k' - k))%nat by lia.
  induction (k' - k)%nat as [|d IH]; [by rewrite Nat.add_0_r|]. rewrite Nat.add_succ_r. by apply oom_more.
Qed.

Lemma allocated_refl h : allocated 0 h h.
Proof. intros m Hm. by rewrite Nat.add_0_r. Qed.

Lemma size_for_spec fuel t N idx :
  tree_ok t N -> 0 <= idx < 2 ^ 60 -> (12 <= fuel)%nat ->
  exists t' r N', size_for fuel t idx = Some (t', r) /\ tree_ok t' N' /\ fresh_nodes (r_heap t) (r_heap t') N N' /\
    (forall j, 0 <= j -> entry t' j = entry t j) /\
    ((r = 0 /\ 1 <= height t' /\ idx < 64 ^ height t' /\ allocated 10 (r_heap t) (r_heap t')) \/
     (r = -1 /\ oom_within 10 (r_heap t))).
Proof.
  intros Hok Hi Hf. unfold size_for. pose proof Hok as (Hwf & Hh & Hr).
  assert (forall h, rnode t = 0 -> 0 <= h <= 10 -> tree_ok (set_root t h (rnode t)) N /\
            forall j, entry (set_root t h (rnode t)) j = entry t j) as Hset.
  { intros h E Hh'. split; [split; [done|]; split; [done|]; simpl; done|]. intros j. unfold entry. simpl. by rewrite E. }
  destruct (Z.eqb_spec (rnode t) 0) as [E|E]; cbn [andb].
  - assert (exists t1, (if height t =? 0 then h ← first_height fuel idx; Some (set_root t h (rnode t)) else Some t) = Some t1 /\
              tree_ok t1 N /\ rnode t1 = 0 /\ r_heap t1 = r_heap t /\ 1 <= height t1 <= 10 /\
              forall j, entry t1 j = entry t j) as (t1 & -> & Hok1 & E1 & Eh1 & Hh1 & He1).
    { destruct (Z.eqb_spec (height t) 0) as [E0|E0]; [|by exists t; (split_and!; try done; lia)].
      destruct (first_height_spec fuel idx Hi ltac:(lia)) as (h & -> & Hh1 & _). cbn [mbind option_bind].
      destruct (Hset h E ltac:(lia)) as [Ha Hb]. exists (set_root t h (rnode t)).
      split; [done|]. split; [exact Ha|]. split; [exact E|]. split; [done|]. split; [simpl; lia|exact Hb]. }
    cbn [mbind option_bind]. rewrite max_index_spec by lia. cbn [mbind option_bind].
    destruct (Z.ltb_spec (64 ^ height t1 - 1) idx) as [Hbig|Hsmall].
    + unfold radix_tree_extend.
      assert (height t1 <> 10) by (intros E10; rewrite E10 in Hbig; change (64 ^ 10) with (2 ^ 60) in Hbig; lia).
      destruct (extend_height_spec fuel (height t1) idx) as (h & -> & Hh' & Hidx); [lia|done|lia|].
      cbn [mbind option_bind]. rewrite E1, Z.eqb_refl. destruct fuel as [|f]; [lia|]. cbn [extend_root].
      change (height (set_root t1 h 0)) with h. rewrite Z.ltb_irrefl.
      exists (set_root t1 h 0), 0, N. split; [done|]. split; [|split; [apply fresh_mono; simpl; by rewrite Eh1|split]].
      * destruct Hok1 as (Hwf1 & _ & _). split; [done|]. split; [simpl; lia|]. simpl. done.
      * intros j Hj. rewrite <- He1. unfold entry. rewrite E1. done.
      * left. split; [done|]. split; [simpl; lia|]. split; [done|]. rewrite <- Eh1.
        by apply (allocated_more 0); [apply allocated_refl|lia].
    + exists t1, 0, N. split; [done|]. split; [done|]. split; [apply fresh_mono; by rewrite Eh1|]. split; [intros j _; apply He1|]. left. split; [done|].
      split; [lia|]. split; [lia|]. rewrite Eh1. by apply (allocated_more 0); [apply allocated_refl|lia].
  - destruct (Hr E) as (H1 & _). cbn [mbind option_bind]. rewrite max_index_spec by lia. cbn [mbind option_bind].
    destruct (Z.ltb_spec (64 ^ height t - 1) idx) as [Hbig|Hsmall].
    + unfold radix_tree_extend.
      assert (height t <> 10) by (intros E10; rewrite E10 in Hbig; change (64 ^ 10) with (2 ^ 60) in Hbig; lia).
      destruct (extend_height_spec fuel (height t) idx) as (h & -> & Hh' & Hidx); [lia|done|lia|].
      cbn [mbind option_bind]. rewrite (proj2 (Z.eqb_neq _ _) E).
      destruct (extend_root_spec fuel t h N Hok E ltac:(lia) ltac:(lia)) as (t' & r & N' & -> & Hok' & Hfn & _ & He' & Hcase).
      exists t', r, N'. split; [done|]. split; [done|]. split; [done|]. split; [done|].
      destruct Hcase as [(-> & Eh' & Ha)|[-> Ho]]; [left|right]; (split; [done|]).
      * rewrite Eh'. split; [lia|]. split; [done|]. apply (allocated_more _ _ _ _ Ha). lia.
      * apply (oom_le _ _ _ Ho). lia.
    + exists t, 0, N. split; [done|]. split; [done|]. split; [by apply fresh_mono|]. split; [done|]. left. split; [done|]. split; [lia|].
      split; [lia|]. by apply (allocated_more 0); [apply allocated_refl|lia].
Qed.

Lemma ensure_root_spec t N :
  tree_ok t N -> 1 <= height t ->
  exists t' ok N', ensure_root t = Some (t', ok) /\ tree_ok t' N' /\ fresh_nodes (r_heap t) (r_heap t') N N' /\ height t' = height t /\
    (forall j, 0 <= j -> entry t' j = entry t j) /\
    (if (ok : bool) then rnode t' <> 0 /\ allocated 1 (r_heap t) (r_heap t') else oom_within 1 (r_heap t)).
Proof.
  intros Hok H1. unfold ensure_root. destruct (Z.eqb_spec (rnode t) 0) as [E|E].
  - pose proof Hok as (Hwf & Hh & _).
    destruct (node_alloc_spec t Hwf) as (t1 & c & -> & Hal & Hwf1 & Hh1 & Hr1 & Hm1 & Hcase). cbn [mbind option_bind].
    destruct Hcase as [[-> Hst]|(Hc0 & Hfresh & Hlc & Hst)].
    + exists (set_root t1 (height t1) 0), false, ∅. split; [done|]. split; [|split; [split; [exact Hm1|set_solver]|split; [done|split]]].
      * split; [done|]. split; [simpl; lia|]. simpl. done.
      * intros j _. unfold entry. simpl. by rewrite E.
      * exists (r_heap t1), 0. split; [done|by left].
    + exists (set_root t1 (height t1) c), true, {[c]}. split; [by rewrite (proj2 (Z.eqb_neq c 0))|].
      assert (forall f, r_st t1 c f = 0) as Hz by (intros f; by rewrite Hst, decide_True).
      destruct (shape_empty (r_st t1) (Z.to_nat (height t1)) c Hz) as [Hsh Hfe].
      split; [|split; [apply (fresh_add _ _ N _ c); [exact Hm1|done|set_solver]|split; [done|split; [|split; [done|]]]]].
      * split; [done|]. split; [simpl; lia|]. intros _. split; [simpl; lia|]. split; [exact Hsh|].
        intros x Hx. apply elem_of_singleton in Hx as ->. exact Hlc.
      * intros j _. unfold entry. simpl. rewrite E, (proj2 (Z.eqb_neq c 0)) by done. simpl. rewrite Hfe by lia. by case_match.
      * intros m Hm. rewrite Nat.add_1_r. exists (r_heap t1), c. split; [done|by right].
  - exists t, true, N. split; [done|]. split; [done|]. split; [by apply fresh_mono|]. split; [done|]. split; [done|]. split; [done|].
    by apply (allocated_more 0); [apply allocated_refl|lia].
Qed.

Lemma insert_spec fuel t N idx item :
  tree_ok t N -> 0 <= idx < 2 ^ 60 -> item <> 0 -> (12 <= fuel)%nat ->
  exists t' r N', radix_tree_insert fuel t idx item = Some (t', r) /\ tree_ok t' N' /\ fresh_nodes (r_heap t) (r_heap t') N N' /\
    ((r = 0 /\ entry t idx = 0 /\ forall j, 0 <= j -> entry t' j = if j =? idx then item else entry t j) \/
     (r = -1 /\ (forall j, 0 <= j -> entry t' j = entry t j) /\ (entry t idx <> 0 \/ oom_within 21 (r_heap t)))).
Proof.
  intros Hok Hi Hitem Hf. unfold radix_tree_insert.
  destruct (size_for_spec fuel t N idx Hok Hi Hf) as (t1 & r & N1 & -> & Hok1 & Hfn1 & He1 & Hcase). cbn [mbind option_bind].
  destruct Hcase as [(-> & Hh1 & Hidx & Ha1)|[-> Ho]]; cbn [Z.eqb negb].
  2:{ exists t1, (-1), N1. split; [done|]. split; [done|]. split; [done|]. right. split; [done|]. split; [done|]. right.
      apply (oom_le _ _ _ Ho). lia. }
  destruct (ensure_root_spec t1 N1 Hok1 Hh1) as (t2 & ok & N2 & -> & Hok2 & Hfn2 & Hh2 & He2 & Hcase). cbn [mbind option_bind].
  pose proof (fresh_trans _ _ _ _ _ _ Hfn1 Hfn2) as Hfn.
  destruct ok.
  2:{ exists t2, (-1), N2. split; [done|]. split; [done|]. split; [done|]. right. split; [done|].
      split; [intros j Hj; rewrite He2, He1 by done; done|]. right. apply (oom_le _ _ _ (Ha1 _ Hcase)). lia. }
  destruct Hcase as [Hr2 Ha2]. destruct Hok2 as (Hwf2 & Hhr & Hok2). destruct (Hok2 Hr2) as (_ & Hsh2 & Hl2).
  set (n := Z.to_nat (height t2)) in *. rewrite <- Hh2, shift_spec by lia. fold n.
  destruct (insert_walk_spec n t2 (rnode t2) idx item N2) as (t3 & r & N3 & -> & Hg & Hsh3 & Hpost); [lia|done..|].
  exists t3, r, N3. split; [done|].
  assert (forall j, 0 <= j -> entry t3 j = if j <? 64 ^ height t2 then find (r_st t3) n (rnode t2) j else 0) as He3.
  { intros j _. unfold entry. rewrite (g_rnode _ _ _ _ Hg), (g_height _ _ _ _ Hg). fold n. by rewrite (proj2 (Z.eqb_neq _ _) Hr2). }
  assert (forall j, 0 <= j -> entry t j = if j <? 64 ^ height t2 then find (r_st t2) n (rnode t2) j else 0) as He.
  { intros j Hj. rewrite <- He1, <- He2 by done. unfold entry. by rewrite (proj2 (Z.eqb_neq _ _) Hr2). }
  assert (Z.of_nat n = height t2) as En by (unfold n; lia).
  rewrite Hh2 in He, He3.
  split; [|split; [eapply fresh_trans; [exact Hfn|]; destruct Hg; by split|]].
  - split; [apply Hg|]. rewrite (g_height _ _ _ _ Hg), (g_rnode _ _ _ _ Hg). split; [done|]. intros _. split; [lia|].
    fold n. split; [done|apply Hg].
  - rewrite (He idx) by lia. rewrite (proj2 (Z.ltb_lt _ _) Hidx).
    destruct Hpost as [(-> & H0 & Hj)|(-> & Hj & Hwhy)]; [left|right]; (split; [done|]).
    + split; [done|]. intros j Hj0. rewrite He3, He by done. destruct (Z.ltb_spec j (64 ^ height t1)) as [Hlt|Hge].
      * rewrite Hj, agree_small by (rewrite En, Hh2; lia). done.
      * rewrite (proj2 (Z.eqb_neq j idx)) by lia. done.
    + split; [intros j Hj0; rewrite He3, He, Hj by done; done|]. destruct Hwhy as [?|Ho]; [by left|right].
      apply (oom_le (n + 1 + 10)); [|lia]. by apply Ha1, Ha2.
Qed.


(** ** Deletion

    The descent with an explicit stack, followed by the loop that unwinds it,
    does what this recursive deletion does; the flag says that the node is left
    empty, for the level above to remove. *)
Fixpoint del_rec (n : nat) (t : rtree) (a idx : Z) : option (rtree * bool) :=
  match n with
  | O => None
  | S n' =>
      let i := digit idx n' in
      match n' with
      | O =>
          let t := rset t a (slots i) 0 in
          let t := rset t a count (u32 (r_st t a count - 1)) in
          Some (t, negb (0 <? r_st t a count))
      | S _ =>
          let c := r_st t a (slots i) in
          '(t, emptied) ← del_rec n' t c idx;
          if (emptied : bool) then
            let t := rset t a (slots i) 0 in
            let t := rset t a count (u32 (r_st t a count - 1)) in
            t ← radix_tree_node_free t c;
            Some (t, negb (0 <? r_st t a count))
          else Some (t, false)
      end
  end.

Lemma del_rec_flag n t a idx t' : del_rec n t a idx = Some (t', true) -> (0 <? r_st t' a count) = false.
Proof.
  intros Hd. destruct n as [|[|n]]; [done| |].
  - cbn [del_rec] in Hd. injection Hd as <- Hf. by apply negb_true_iff.
  - set (m := S n) in *. cbn [del_rec] in Hd. unfold m at 1 in Hd.
    destruct (del_rec m t _ idx) as [[t1 [|]]|]; [|done|done]. cbn [mbind option_bind] in Hd.
    destruct (radix_tree_node_free _ _) as [t2|]; [|done]. cbn [mbind option_bind] in Hd.
    injection Hd as <- Hf. by apply negb_true_iff.
Qed.

(** [unwind] at a node that is not empty stops. *)
Definition finish (t : rtree) (emptied : bool) (stack : list (Z * Z)) : option rtree :=
  if emptied then unwind t stack else Some t.

Lemma unwind_finish t node off stack :
  unwind t ((node, off) :: stack) = finish t (negb (0 <? r_st t node count)) ((node, off) :: stack).
Proof. unfold finish. cbn [unwind]. by destruct (0 <? r_st t node count). Qed.

Lemma delete_walk_absent n t a idx stack :
  (1 <= n <= 11)%nat -> (length stack + n <= 16)%nat -> find (r_st t) n a idx = 0 ->
  delete_walk n t a (6 * (Z.of_nat n - 1)) idx stack = Some (t, 0).
Proof.
  revert a stack. induction n as [|n IH]; intros a stack Hn Hl Hf; [lia|]. cbn [delete_walk find] in *.
  replace (6 * (Z.of_nat (S n) - 1)) with (6 * Z.of_nat n) by lia. fold (digit idx n).
  rewrite (proj2 (Z.leb_gt 16 _)) by lia.
  destruct (Z.eqb_spec (r_st t a (slots (digit idx n))) 0) as [|E]; [done|]. destruct n as [|n]; [done|].
  replace (u32 (6 * Z.of_nat (S n) - RADIX_TREE_MAP_SHIFT)) with (6 * (Z.of_nat (S n) - 1))
    by (unfold u32, RADIX_TREE_MAP_SHIFT; rewrite Z.mod_small; lia).
  apply IH; [lia|simpl; lia|done].
Qed.

Lemma delete_walk_rec n t a idx stack :
  (1 <= n <= 11)%nat -> (length stack + n <= 16)%nat -> find (r_st t) n a idx <> 0 ->
  delete_walk n t a (6 * (Z.of_nat n - 1)) idx stack =
    ('(t', e) ← del_rec n t a idx;
     t'' ← finish t' e ((a, digit idx (pred n)) :: stack);
     Some (t'', find (r_st t) n a idx)).
Proof.
  revert a stack. induction n as [|n IH]; intros a stack Hn Hl Hf; [lia|]. cbn [delete_walk find del_rec Nat.pred] in *.
  replace (6 * (Z.of_nat (S n) - 1)) with (6 * Z.of_nat n) by lia. fold (digit idx n).
  rewrite (proj2 (Z.leb_gt 16 _)) by lia.
  destruct (Z.eqb_spec (r_st t a (slots (digit idx n))) 0) as [|E]; [done|]. destruct n as [|n].
  - cbn [mbind option_bind]. by rewrite unwind_finish.
  - replace (u32 (6 * Z.of_nat (S n) - RADIX_TREE_MAP_SHIFT)) with (6 * (Z.of_nat (S n) - 1))
      by (unfold u32, RADIX_TREE_MAP_SHIFT; rewrite Z.mod_small; lia).
    rewrite IH by (simpl; lia || done). set (c := r_st t a (slots (digit idx (S n)))) in *.
    destruct (del_rec (S n) t c idx) as [[t1 [|]]|] eqn:Ed; [|done|done]. cbn [mbind option_bind finish].
    cbn [unwind]. rewrite (del_rec_flag _ _ _ _ _ Ed).
    set (t3 := rset (rset t1 a _ 0) a count _).
    destruct (radix_tree_node_free t3 c) as [t4|]; [|done]. cbn [mbind option_bind].
    rewrite <- unwind_finish. reflexivity.
Qed.


(** What an operation that only removes nodes does to the rest of the heap. *)
Record pruned (t t' : rtree) (N N' : gset Z) : Prop := {
  p_wf : a_wf (r_heap t');
  p_sub : N' ⊆ N;
  p_live : live_set (r_heap t') N';
  p_keep : forall x s, x ∉ N -> a_live (r_heap t) x s -> a_live (r_heap t') x s;
  p_frame : forall x f, x ∉ N -> r_st t' x f = r_st t x f;
  p_height : height t' = height t;
  p_rnode : rnode t' = rnode t
}.

(** Clearing the slot [i] of [a], below which nothing of the subtree [Ns i] is
    kept. *)
Lemma clear_slot st st' n a N Ns i :
  0 <= i < 64 -> a ∈ N -> st a count = nz (fun k => st a (slots k)) NSLOTS -> st a (slots i) <> 0 ->
  (forall j, 0 <= j < 64 -> Ns j ⊆ N /\ a ∉ Ns j /\ (st a (slots j) <> 0 -> shape st n (st a (slots j)) (Ns j))) ->
  (forall j k, 0 <= j < 64 -> 0 <= k < 64 -> j <> k -> Ns j ## Ns k) ->
  (forall f, st' a f = wr (wr st a (slots i) 0) a count (u32 (st a count - 1)) a f) ->
  (forall j x f, 0 <= j < 64 -> j <> i -> x ∈ Ns j -> st' x f = st x f) ->
  shape st' (S n) a (N ∖ Ns i) /\
  (forall j, find st' (S n) a j = if digit j n =? i then 0 else find st (S n) a j) /\
  ((0 <? st' a count) = false -> forall j, find st' (S n) a j = 0).
Proof.
  intros Hi Ha Hc H0 HNs Hdis Hst Hfr. destruct (HNs i Hi) as (HNi & Hai & _).
  assert (st' a (slots i) = 0) as Ei.
  { rewrite Hst, wr_other by (right; discriminate). by rewrite wr_same. }
  assert (st' a count = nz (fun k => st' a (slots k)) NSLOTS) as Hc'.
  { pose proof (count_write st a i 0 (-1) Hi Hc) as Hw. cbv zeta in Hw. rewrite (proj2 (Z.eqb_neq _ _) H0) in Hw.
    specialize (Hw eq_refl). rewrite Hst. replace (st a count - 1) with (st a count + -1) by lia. rewrite Hw.
    apply nz_ext. intros k _. rewrite Hst. replace (st a count - 1) with (st a count + -1) by lia. done. }
  destruct (shape_child st st' n a (N ∖ Ns i) Ns i ∅) as [Hsh Hf]; try done.
  - set_solver.
  - intros j Hj Hji. destruct (HNs j Hj) as (H1 & H2 & H3). split; [|done].
    intros x Hx. apply elem_of_difference. split; [set_solver|]. intros Hxi. by apply (Hdis i j Hi Hj ltac:(congruence) x).
  - intros j Hj. rewrite Hst, wr_other by (right; discriminate). apply wr_other. right. congruence.
  - rewrite union_empty_r_L in Hsh. split; [done|]. split; [intros j; by rewrite Hf, Ei|].
    intros Hz j. apply Z.ltb_ge in Hz. pose proof (nz_range (fun k => st' a (slots k)) NSLOTS) as Hr. rewrite <- Hc' in Hr.
    cbn [find]. rewrite (nz_zero (fun k => st' a (slots k)) NSLOTS); [done| |rewrite NSLOTS_eq; apply digit_range].
    rewrite <- Hc'. lia.
Qed.

Lemma node_free_spec t c :
  a_wf (r_heap t) -> live_at (r_heap t) c ->
  exists t', radix_tree_node_free t c = Some t' /\ a_wf (r_heap t') /\ r_st t' = r_st t /\ height t' = height t /\
    rnode t' = rnode t /\ (forall x s, x <> c -> a_live (r_heap t) x s -> a_live (r_heap t') x s).
Proof.
  intros Hwf [s Hs]. unfold radix_tree_node_free. destruct (a_free_spec _ _ _ Hwf Hs) as (h & -> & Hwf' & Hl).
  eexists. split; [done|]. split; [done|]. split; [done|]. split; [done|]. split; [done|].
  intros x u Hx Hu. by apply Hl.
Qed.

Lemma del_rec_spec n t a idx N :
  (1 <= n)%nat -> a_wf (r_heap t) -> shape (r_st t) n a N -> live_set (r_heap t) N -> find (r_st t) n a idx <> 0 ->
  exists t' e N', del_rec n t a idx = Some (t', e) /\ pruned t t' N N' /\ shape (r_st t') n a N' /\
    (forall j, find (r_st t') n a j = if agree n j idx then 0 else find (r_st t) n a j) /\
    (e = true -> forall j, find (r_st t') n a j = 0).
Proof.
  revert t a N. induction n as [|n IH]; intros t a N Hn Hwf Hsh Hlive Hf; [lia|].
  pose proof Hsh as (Ha & Hc & Ns & HNs & Hdis). cbn [find] in Hf.
  pose proof (digit_range idx n) as Hi. set (i := digit idx n) in *. destruct (HNs i Hi) as (HNi & Hai & Hshi).
  destruct (Z.eqb_spec (r_st t a (slots i)) 0) as [|E]; [done|].
  destruct n as [|m].
  - cbn [del_rec]. fold i. eexists _, _, (N ∖ Ns i). split; [done|].
    set (t1 := rset t a (slots i) 0). set (t' := rset t1 a count (u32 (r_st t1 a count - 1))).
    assert (forall x f, x <> a -> r_st t' x f = r_st t x f) as Hother.
    { intros x f Hx. unfold t', t1. cbn [r_st rset]. by rewrite !wr_other by (by left). }
    destruct (clear_slot (r_st t) (r_st t') 0 a N Ns i) as (Hsh' & Hf' & He'); try done.
    { intros f. unfold t', t1. cbn [r_st rset].
      by rewrite (wr_other (r_st t) a (slots i) 0 a count) by (right; discriminate). }
    { intros j x f Hj Hji Hx. apply Hother. intros ->. by apply (HNs j Hj). }
    split; [|split; [exact Hsh'|split]].
    + split; try done; [set_solver| |]. { intros x Hx. apply Hlive. set_solver. }
      intros x f Hx. apply Hother. intros ->. done.
    + intros j. rewrite Hf'. cbn [agree]. fold i. by rewrite andb_true_r.
    + intros Hz. apply He'. by apply negb_true_iff.
  - set (n := S m) in *. cbn [del_rec]. unfold n at 1. fold i. set (c := r_st t a (slots i)) in *.
    destruct (IH t c (Ns i)) as (t1 & e & C & -> & Hp & HshC & HfC & HeC); [lia|done|by apply Hshi| |done|].
    { intros x Hx. apply Hlive. set_solver. }
    destruct Hp as [Hwf1 HsubC HliveC Hkeep1 Hfr1 Hh1 Hr1]. cbn [mbind option_bind].
    assert (forall f, r_st t1 a f = r_st t a f) as Ha1 by (intros f; by apply Hfr1).
    assert (forall j x f, 0 <= j < 64 -> j <> i -> x ∈ Ns j -> r_st t1 x f = r_st t x f) as Hsib.
    { intros j x f Hj Hji Hx. apply Hfr1. intros Hxi. by apply (Hdis i j Hi Hj ltac:(congruence) x). }
    assert (live_set (r_heap t1) (N ∖ Ns i)) as Hl1.
    { intros x Hx. apply elem_of_difference in Hx as [Hx Hxi]. destruct (Hlive x Hx) as [s Hs]. exists s. by apply Hkeep1. }
    destruct e.
    + set (t2 := rset t1 a (slots i) 0). set (t3 := rset t2 a count (u32 (r_st t2 a count - 1))).
      assert (live_at (r_heap t1) c) as Hlc by (destruct HshC as [HcC _]; by apply HliveC).
      destruct (node_free_spec t3 c Hwf1 Hlc) as (t4 & -> & Hwf4 & Est & Eh4 & Er4 & Hkeep4). cbn [mbind option_bind].
      assert (c ∈ Ns i) as HcNi by (destruct HshC as [HcC _]; set_solver).
      assert (forall x f, x <> a -> r_st t3 x f = r_st t1 x f) as Hother.
      { intros x f Hx. unfold t3, t2. cbn [r_st rset]. by rewrite !wr_other by (by left). }
      eexists t4, _, (N ∖ Ns i). split; [done|]. rewrite Est.
      destruct (clear_slot (r_st t) (r_st t3) n a N Ns i) as (Hsh' & Hf' & He'); try done.
      { intros f. unfold t3, t2. cbn [r_st rset]. rewrite (wr_other (r_st t1) a (slots i) 0 a count) by (right; discriminate).
        rewrite Ha1. unfold wr. repeat (case_decide; try done). }
      { intros j x f Hj Hji Hx. rewrite Hother; [by apply (Hsib j)|]. intros ->. by apply (HNs j Hj). }
      split; [|split; [exact Hsh'|split]].
      * split; [done|set_solver| | | |by rewrite Eh4|by rewrite Er4].
        -- intros x Hx. destruct (Hl1 x Hx) as [s Hs]. exists s. apply Hkeep4; [|done]. intros ->. set_solver.
        -- intros x s Hx Hs. apply Hkeep4; [intros ->; set_solver|]. apply Hkeep1; [set_solver|done].
        -- intros x f Hx. rewrite Est, Hother by (intros ->; done). apply Hfr1. set_solver.
      * intros j. rewrite Hf', agree_S. fold i. destruct (Z.eqb_spec (digit j n) i) as [Ej|]; cbn [andb]; [|done].
        destruct (agree n j idx) eqn:Eag; [done|]. cbn [find]. rewrite Ej. fold c.
        rewrite (proj2 (Z.eqb_neq c 0)) by done. rewrite <- (HeC eq_refl j), HfC, Eag. done.
      * intros Hz. apply He'. apply negb_true_iff. exact Hz.
    + exists t1, false, ((N ∖ Ns i) ∪ C). split; [done|].
      destruct (shape_child (r_st t) (r_st t1) n a (N ∖ Ns i) Ns i C) as [Hsh' Hf']; try done.
      * set_solver.
      * intros j Hj Hji. destruct (HNs j Hj) as (H1 & H2 & H3). split; [|done].
        intros x Hx. apply elem_of_difference. split; [set_solver|]. intros Hxi. by apply (Hdis i j Hi Hj ltac:(congruence) x).
      * rewrite Ha1, Hc. apply nz_ext. intros k _. by rewrite Ha1.
      * intros _. rewrite Ha1. exact HshC.
      * set_solver.
      * intros j Hj Hji x HxC Hxj. by apply (Hdis i j Hi Hj ltac:(congruence) x); [apply HsubC|].
      * split; [|split; [exact Hsh'|split; [|done]]].
        -- split; [done|set_solver| | | |done|done].
           ++ intros x Hx. apply elem_of_union in Hx as [Hx|Hx]; [by apply Hl1|by apply HliveC].
           ++ intros x s Hx Hs. apply Hkeep1; [set_solver|done].
           ++ intros x f Hx. apply Hfr1. set_solver.
        -- intros j. rewrite Hf', Ha1. fold c. rewrite (proj2 (Z.eqb_neq c 0)) by done. rewrite agree_S. fold i.
           destruct (Z.eqb_spec (digit j n) i) as [Ej|]; cbn [andb]; [|done].
           rewrite HfC. cbn [find]. rewrite Ej. fold c. by rewrite (proj2 (Z.eqb_neq c 0)) by done.
Qed.


(** A node whose only entry is in slot 0 has no other. *)
Lemma nz_only_first (g : Z -> Z) n : nz g n = 1 -> g 0 <> 0 -> forall i, 0 < i < Z.of_nat n -> g i = 0.
Proof.
  intros H1 H0 i Hi. set (g' := fupd g 0 0).
  assert (nz g' n = 0) as Hz.
  { rewrite (nz_change g g' n 0); [|lia|intros j _ Hj; unfold g'; by rewrite fupd_other].
    unfold g'. rewrite fupd_same, (proj2 (Z.eqb_neq _ _) H0), H1. done. }
  pose proof (nz_zero g' n Hz i ltac:(lia)) as Hg. unfold g' in Hg. by rewrite fupd_other in Hg by lia.
Qed.

Lemma shrink_spec fuel t N :
  tree_ok t N -> (Z.to_nat (height t) < fuel)%nat ->
  exists t' N', radix_tree_shrink fuel t = Some t' /\ tree_ok t' N' /\ forall j, 0 <= j -> entry t' j = entry t j.
Proof.
  intros Hok Hf. unfold radix_tree_shrink.
  destruct (loop_total (fun u => (exists N, tree_ok u N) /\ forall j, 0 <= j -> entry u j = entry t j)
    (fun u => Z.to_nat (height u))
    (fun r => exists t' N', r = Some t' /\ tree_ok t' N' /\ forall j, 0 <= j -> entry t' j = entry t j) shrink_step)
    with (fuel := fuel) (s := t) as (r & -> & t' & N' & -> & Hok' & He'); [|by split; [exists N|]|done|by exists t', N'].
  clear N Hok Hf. intros u [[N Hok] He]. unfold shrink_step. pose proof Hok as (Hwf & Hh & Hr).
  destruct (Z.ltb_spec 0 (height u)) as [Hpos|]; [|by exists u, N].
  destruct (Z.eqb_spec (rnode u) 0) as [E|E].
  { exists (set_root u 0 (rnode u)), ∅. split; [done|]. split; [split; [done|]; split; [simpl; lia|]; simpl; done|].
    intros j Hj. rewrite <- He by done. unfold entry. simpl. by rewrite E. }
  destruct (Hr E) as (H1 & Hsh & Hl).
  destruct (Z.eqb_spec (r_st u (rnode u) count) 1) as [Ec|]; cbn [negb]; [|by exists u, N].
  destruct (Z.eqb_spec (r_st u (rnode u) (slots 0)) 0) as [|E0]; [by exists u, N|].
  destruct (Z.leb_spec (height u) 1) as [|Hgt]; [by exists u, N|].
  set (c := r_st u (rnode u) (slots 0)) in *.
  assert (Z.to_nat (height u) = S (Z.to_nat (height u - 1))) as En by lia.
  set (n := Z.to_nat (height u - 1)) in *. rewrite En in Hsh. destruct Hsh as (Ha & Hc & Ns & HNs & Hdis).
  destruct (HNs 0 ltac:(lia)) as (HN0 & Ha0 & Hsh0).
  destruct (node_free_spec (set_root u (height u - 1) c) (rnode u) Hwf (Hl _ Ha)) as (u' & -> & Hwf' & Est & Eh & Er & Hkeep).
  cbn [height rnode r_st set_root] in Est, Eh, Er.
  split; [|rewrite Eh; lia]. split.
  - exists (Ns 0). split; [done|]. rewrite Eh, Er, Est. split; [lia|]. intros _. split; [lia|]. fold n. split; [by apply Hsh0|].
    intros x Hx. destruct (Hl x ltac:(set_solver)) as [s Hs]. exists s. apply Hkeep; [|done]. intros ->. done.
  - intros j Hj. rewrite <- He by done. unfold entry. rewrite Er, Eh, Est. fold n. rewrite En.
    rewrite (proj2 (Z.eqb_neq c 0)), (proj2 (Z.eqb_neq (rnode u) 0)) by done. cbn [find].
    assert (64 ^ height u = 64 * 64 ^ (height u - 1)) as Ep.
    { replace (height u) with (1 + (height u - 1)) at 1 by lia. rewrite Z.pow_add_r by lia. lia. }
    assert (0 < 64 ^ (height u - 1)) by (apply Z.pow_pos_nonneg; lia).
    assert (Z.of_nat n = height u - 1) as Enz by (unfold n; lia).
    destruct (Z.ltb_spec j (64 ^ (height u - 1))) as [Hj1|Hj1].
    + rewrite (proj2 (Z.ltb_lt _ _)) by lia. rewrite digit_top by (rewrite Enz; lia). fold c.
      by rewrite (proj2 (Z.eqb_neq c 0)) by done.
    + destruct (Z.ltb_spec j (64 ^ height u)) as [Hj2|]; [|done].
      rewrite (nz_only_first (fun i => r_st u (rnode u) (slots i)) NSLOTS); [done|by rewrite <- Hc|done|].
      rewrite NSLOTS_eq. pose proof (digit_range j n). pose proof (digit_above j n) as Hd.
      rewrite Nat2Z.inj_succ, Enz in Hd. replace (Z.succ (height u - 1)) with (height u) in Hd by lia. lia.
Qed.

Lemma delete_spec fuel t N idx :
  tree_ok t N -> 0 <= idx < 2 ^ 64 -> (11 <= fuel)%nat ->
  exists t' N', radix_tree_delete fuel t idx = Some (t', entry t idx) /\ tree_ok t' N' /\
    forall j, 0 <= j -> entry t' j = if j =? idx then 0 else entry t j.
Proof.
  intros Hok Hi Hf. unfold radix_tree_delete. pose proof Hok as (Hwf & Hh & Hr).
  assert (forall v, entry t idx = 0 -> v = 0 -> exists t' N', Some (t, v) = Some (t', entry t idx) /\ tree_ok t' N' /\
            forall j, 0 <= j -> entry t' j = if j =? idx then 0 else entry t j) as Hsame.
  { intros v E0 ->. exists t, N. rewrite E0. split; [done|]. split; [done|]. intros j _.
    destruct (Z.eqb_spec j idx) as [->|]; done. }
  destruct (Z.eqb_spec (rnode t) 0) as [E|E].
  { rewrite orb_true_r. apply Hsame; [|done]. unfold entry. by rewrite E. }
  destruct (Hr E) as (H1 & Hsh & Hl). rewrite (proj2 (Z.eqb_neq (height t) 0)) by lia. cbn [orb].
  rewrite max_index_spec by lia. cbn [mbind option_bind].
  destruct (Z.ltb_spec (64 ^ height t - 1) idx) as [Hbig|Hsmall].
  { apply Hsame; [|done]. unfold entry. rewrite (proj2 (Z.ltb_ge _ _)) by lia. by rewrite (proj2 (Z.eqb_neq _ _) E). }
  set (n := Z.to_nat (height t)) in *. assert (Z.of_nat n = height t) as En by (unfold n; lia).
  assert (forall j, entry t j = if j <? 64 ^ height t then find (r_st t) n (rnode t) j else 0) as He.
  { intros j. unfold entry. by rewrite (proj2 (Z.eqb_neq _ _) E). }
  rewrite shift_spec by lia. fold n. rewrite (He idx), (proj2 (Z.ltb_lt _ _)) in Hsame by lia.
  rewrite (He idx), (proj2 (Z.ltb_lt _ _)) by lia.
  destruct (Z.eq_dec (find (r_st t) n (rnode t) idx) 0) as [Ef|Ef].
  { rewrite delete_walk_absent by (simpl; lia || done). cbn [mbind option_bind]. rewrite Z.eqb_refl. by apply Hsame. }
  rewrite delete_walk_rec by (simpl; lia || done).
  destruct (del_rec_spec n t (rnode t) idx N ltac:(lia) Hwf Hsh Hl Ef) as (t1 & e & N1 & Hdr & Hp & Hsh1 & Hf1 & He1).
  rewrite Hdr.
  destruct Hp as [Hwf1 _ Hl1 _ _ Hh1 Hr1]. cbn [mbind option_bind].
  assert (exists t2 N2, finish t1 e [(rnode t, digit idx (pred n))] = Some t2 /\ tree_ok t2 N2 /\
            forall j, 0 <= j -> entry t2 j = if j =? idx then 0 else entry t j) as (t2 & N2 & -> & Hok2 & He2).
  { assert (forall j, 0 <= j -> (if j <? 64 ^ height t then find (r_st t1) n (rnode t) j else 0)
                               = if j =? idx then 0 else entry t j) as Hent.
    { intros j Hj. rewrite He, Hf1. destruct (Z.ltb_spec j (64 ^ height t)) as [Hlt|Hge].
      - rewrite agree_small by (rewrite En; lia). done.
      - rewrite (proj2 (Z.eqb_neq j idx)) by lia. done. }
    destruct e; cbn [finish].
    - destruct (node_free_spec t1 (rnode t)) as (t2 & Hfree & Hwf2 & Est & Eh2 & Er2 & _); [done| |].
      { apply Hl1. destruct n as [|k]; [lia|]. apply Hsh1. }
      exists (set_root t2 0 0), ∅. split; [|split].
      + cbn [unwind]. by rewrite (del_rec_flag _ _ _ _ _ Hdr), Hfree.
      + split; [done|]. split; [simpl; lia|]. simpl. done.
      + intros j Hj. rewrite <- Hent by done. unfold entry. simpl. rewrite He1 by done. by case_match.
    - exists t1, N1. split; [done|]. split.
      + split; [done|]. rewrite Hh1, Hr1. split; [done|]. intros _. split; [done|]. split; done.
      + intros j Hj. rewrite <- Hent by done. unfold entry. rewrite Hr1, Hh1. by rewrite (proj2 (Z.eqb_neq _ _) E). }
  cbn [mbind option_bind]. rewrite (proj2 (Z.eqb_neq _ _) Ef).
  destruct (shrink_spec fuel t2 N2 Hok2) as (t3 & N3 & -> & Hok3 & He3); [destruct Hok2; lia|].
  exists t3, N3. split; [done|]. split; [done|]. intros j Hj. rewrite He3, He2 by done. done.
Qed.

End radix.

(** C38: [radix_tree_insert] returns, for every index below 2^60.  It succeeds
    exactly when the index has no entry and no node allocation fails on the
    way, and then adds that entry and no other; when it fails the map is
    unchanged, whatever nodes were added before.  The tree stays well formed:
    the nodes are distinct live blocks with exact slot counts. *)
Theorem radix_insert_correct {A : Type} `{Allocator A} fuel (t : rtree (A := A)) N idx item :
  tree_ok t N -> 0 <= idx < 2 ^ 60 -> item <> 0 -> (12 <= fuel)%nat ->
  exists t' r N', radix_tree_insert fuel t idx item = Some (t', r) /\ tree_ok t' N' /\
    ((r = 0 /\ radix_tree_lookup t idx = Some 0 /\
      forall j, 0 <= j -> radix_tree_lookup t' j = if j =? idx then Some item else radix_tree_lookup t j) \/
     (r = -1 /\ (forall j, 0 <= j -> radix_tree_lookup t' j = radix_tree_lookup t j) /\
      (radix_tree_lookup t idx <> Some 0 \/ oom_within 21 (r_heap t)))).
Proof.
  intros Hok Hi Hitem Hf. destruct (insert_spec fuel t N idx item Hok Hi Hitem Hf) as (t' & r & N' & Hins & Hok' & _ & Hcase).
  exists t', r, N'. split; [done|]. split; [done|]. rewrite (lookup_entry t N idx Hok) by lia.
  destruct Hcase as [(-> & H0 & Hj)|(-> & Hj & Hwhy)]; [left|right]; (split; [done|]).
  - rewrite H0. split; [done|]. intros j Hj0. rewrite (lookup_entry t' N' j Hok'), (lookup_entry t N j Hok), Hj by done.
    by case_match.
  - split; [intros j Hj0; rewrite (lookup_entry t' N' j Hok'), (lookup_entry t N j Hok), Hj by done; done|].
    destruct Hwhy as [?|?]; [left; congruence|by right].
Qed.

(** [radix_tree_delete] returns the entry of the index (null if there is
    none) and removes that entry and no other, freeing the nodes that become
    empty and lowering the tree; the tree stays well formed. *)
Theorem radix_delete_correct {A : Type} `{Allocator A} fuel (t : rtree (A := A)) N idx :
  tree_ok t N -> 0 <= idx < 2 ^ 64 -> (11 <= fuel)%nat ->
  exists t' N' v, radix_tree_delete fuel t idx = Some (t', v) /\ radix_tree_lookup t idx = Some v /\ tree_ok t' N' /\
    forall j, 0 <= j -> radix_tree_lookup t' j = if j =? idx then Some 0 else radix_tree_lookup t j.
Proof.
  intros Hok Hi Hf. destruct (delete_spec fuel t N idx Hok Hi Hf) as (t' & N' & Hd & Hok' & Hj).
  exists t', N', (entry t idx). split; [done|]. split; [apply (lookup_entry t N); [done|lia]|]. split; [done|].
  intros j Hj0. rewrite (lookup_entry t' N' j Hok'), (lookup_entry t N j Hok), Hj by done. by case_match.
Qed.

(** ** A concrete tree: the node at 0x1028 has the item 77 at index 5 *)

Definition demo_tiles : list (Z * bool) := [(520, false); (8192, true)].

Definition demo_tree : rtree (A := Spinlock.cpu * Heap.heap) :=
  RT (Heap.demo_cpu, Heap.heap_of 0x1000 demo_tiles)
    (fun x f => match f with count => 1 | slots i => if i =? 5 then 77 else 0 end) 1 0x1028.

Lemma demo_tree_ok : tree_ok demo_tree {[0x1028]}.
Proof.
  assert (Heap.tiles_ok 0x1000 demo_tiles) as Ht
    by (split; [lia|]; split; [repeat constructor; lia|vm_compute; done]).
  split; [exists demo_tiles; by apply Heap.heap_of_rep|]. split; [simpl; lia|]. intros _. split; [simpl; lia|]. split.
  - split; [set_solver|]. split; [vm_compute; reflexivity|]. exists (fun _ => ∅). split; set_solver.
  - intros x Hx. apply elem_of_singleton in Hx as ->. exists 520. apply Heap.heap_of_live; [done|done|].
    change (Heap.live 0x1000 demo_tiles) with [(0x1028, 520)]. set_solver.
Qed.

Lemma radix_insert_correct_witness :
  exists t' r N', radix_tree_insert 12 demo_tree 70000 99 = Some (t', r) /\ tree_ok t' N' /\
    radix_tree_lookup t' 5 = Some 77 /\ (r = 0 -> radix_tree_lookup t' 70000 = Some 99).
Proof.
  destruct (radix_insert_correct 12 demo_tree {[0x1028]} 70000 99 demo_tree_ok) as (t' & r & N' & Hi & Hok & Hcase);
    [lia|lia|lia|].
  exists t', r, N'. split; [exact Hi|]. split; [exact Hok|].
  destruct Hcase as [(-> & _ & Hj)|(-> & Hj & _)].
  - rewrite !Hj by lia. split; reflexivity.
  - rewrite Hj by lia. split; [reflexivity|]. intros Hr. discriminate Hr.
Defined.

Lemma radix_delete_correct_witness :
  exists t' v, radix_tree_delete 11 demo_tree 5 = Some (t', v) /\ v = 77 /\ radix_tree_lookup t' 5 = Some 0.
Proof.
  destruct (radix_delete_correct 11 demo_tree {[0x1028]} 5 demo_tree_ok) as (t' & N' & v & Hd & Hv & _ & Hj); [lia|lia|].
  exists t', v. split; [exact Hd|]. split; [|exact (Hj 5 ltac:(lia))].
  change (Some 77 = Some v) in Hv. by injection Hv.
Defined.

End Radix.
