(* ===== verification/Seccomp.v ===== *)
(** * System-call filters (src/kernel/security/seccomp.c, include/bpf.h)

    A process has a chain of filters, shared with its children through
    reference counts; a system call is allowed when the BPF program of every
    filter of the chain says so.  The interpreter works on 32-bit registers and
    a signed program counter; [None] is behaviour the language leaves undefined
    (an access outside an array, an oversized shift). *)
From S2P Require Import Prelude Memory Allocator Spinlock Heap Store.
#[local] Existing Instance Heap.heap_allocator.

Module Seccomp.

(** ** The interpreter *)

Record sock_filter := Inst { code : Z; jt : Z; jf : Z; k : Z }.

Definition BPF_LD : Z := 0x00.
Definition BPF_ALU : Z := 0x04.
Definition BPF_JMP : Z := 0x05.
Definition BPF_RET : Z := 0x06.
Definition BPF_MISC : Z := 0x07.
Definition BPF_W : Z := 0x00.
Definition BPF_IMM : Z := 0x00.
Definition BPF_ABS : Z := 0x20.
Definition BPF_ADD : Z := 0x00.
Definition BPF_SUB : Z := 0x10.
Definition BPF_MUL : Z := 0x20.
Definition BPF_DIV : Z := 0x30.
Definition BPF_OR : Z := 0x40.
Definition BPF_AND : Z := 0x50.
Definition BPF_LSH : Z := 0x60.
Definition BPF_RSH : Z := 0x70.
Definition BPF_NEG : Z := 0x80.
Definition BPF_XOR : Z := 0xa0.
Definition BPF_JA : Z := 0x00.
Definition BPF_JEQ : Z := 0x10.
Definition BPF_JGT : Z := 0x20.
Definition BPF_JGE : Z := 0x30.
Definition BPF_JSET : Z := 0x40.
Definition BPF_K : Z := 0x00.
Definition BPF_A : Z := 0x10.
Definition BPF_TAX : Z := 0x00.
Definition BPF_TXA : Z := 0x80.
Definition SECCOMP_RET_KILL : Z := 0.
Definition SECCOMP_RET_ALLOW : Z := 0x7fff0000.
Definition SECCOMP_RET_ACTION : Z := 0x7fff0000.
Definition sizeof_seccomp_data : Z := 64.

(** What one instruction does: return, go on with new registers, or go on and
    add to the program counter. *)
Inductive effect := Ret (v : Z) | Next (A X : Z) | Jump (A X off : Z) | Undef.

(** The [switch] of [seccomp_run_filter]; [sd] holds the bytes of
    [struct seccomp_data] from address 0. *)
Definition execute (sd : mem) (i : sock_filter) (A X : Z) : effect :=
  let k := k i in
  let c := code i in
  if c =? BPF_LD + BPF_W + BPF_ABS then
    if k <? sizeof_seccomp_data then
      if k + 4 <=? sizeof_seccomp_data then Next (load32 sd k) X else Undef
    else Ret SECCOMP_RET_KILL
  else if c =? BPF_RET + BPF_K then Ret k
  else if c =? BPF_RET + BPF_A then Ret A
  else if c =? BPF_ALU + BPF_ADD + BPF_K then Next (u32 (A + k)) X
  else if c =? BPF_ALU + BPF_SUB + BPF_K then Next (u32 (A - k)) X
  else if c =? BPF_ALU + BPF_MUL + BPF_K then Next (u32 (A * k)) X
  else if c =? BPF_ALU + BPF_DIV + BPF_K then Next (if k =? 0 then 0 else A / k) X
  else if c =? BPF_ALU + BPF_AND + BPF_K then Next (A .& k) X
  else if c =? BPF_ALU + BPF_OR + BPF_K then Next (A .| k) X
  else if c =? BPF_ALU + BPF_XOR + BPF_K then Next (Z.lxor A k) X
  else if c =? BPF_ALU + BPF_LSH + BPF_K then if k <? 32 then Next (u32 (A .<< k)) X else Undef
  else if c =? BPF_ALU + BPF_RSH + BPF_K then if k <? 32 then Next (A .>> k) X else Undef
  else if c =? BPF_ALU + BPF_NEG then Next (u32 (- A)) X
  else if c =? BPF_LD + BPF_IMM then Next k X
  else if c =? BPF_MISC + BPF_TAX then Next A A
  else if c =? BPF_MISC + BPF_TXA then Next X X
  else if c =? BPF_JMP + BPF_JA then Jump A X k
  else if c =? BPF_JMP + BPF_JEQ + BPF_K then Jump A X (if A =? k then jt i else jf i)
  else if c =? BPF_JMP + BPF_JGT + BPF_K then Jump A X (if k <? A then jt i else jf i)
  else if c =? BPF_JMP + BPF_JGE + BPF_K then Jump A X (if k <=? A then jt i else jf i)
  else if c =? BPF_JMP + BPF_JSET + BPF_K then Jump A X (if negb (A .& k =? 0) then jt i else jf i)
  else Ret SECCOMP_RET_KILL.

(** One round of [for (pc = 0; pc < fprog->len; pc++)]. *)
Definition filter_step (sd : mem) (prog : list sock_filter) : Z * Z * Z -> (Z * Z * Z) + option Z :=
  fun '(pc, A, X) =>
    if pc <? Z.of_nat (length prog) then
      if pc <? 0 then inr None
      else match prog !! Z.to_nat pc with
           | None => inr None
           | Some i =>
               match execute sd i A X with
               | Ret v => inr (Some v)
               | Next A X => inl (s32 (pc + 1), A, X)
               | Jump A X off => inl (s32 (s32 (pc + off) + 1), A, X)
               | Undef => inr None
               end
           end
    else inr (Some SECCOMP_RET_KILL).

Definition seccomp_run_filter (fuel : nat) (sd : mem) (prog : list sock_filter) : option Z :=
  mjoin (loop fuel (filter_step sd prog) (0, 0, 0)).

(** ** A reference evaluator

    It works on the rest of the program instead of a program counter. *)

Fixpoint eval (n : nat) (sd : mem) (l : list sock_filter) (A X : Z) : Z :=
  match n, l with
  | S n', i :: r =>
      match execute sd i A X with
      | Ret v => v
      | Next A X => eval n' sd r A X
      | Jump A X off => eval n' sd (drop (Z.to_nat off) r) A X
      | Undef => SECCOMP_RET_KILL
      end
  | _, _ => SECCOMP_RET_KILL
  end.

(** Instructions without undefined behaviour: loads inside [seccomp_data] (or
    refused), shifts by less than the width, jumps that do not wrap the
    program counter. *)
Definition inst_ok (i : sock_filter) : bool :=
  (0 <=? k i) && (k i <? 2 ^ 32) && (0 <=? jt i) && (jt i <? 256) && (0 <=? jf i) && (jf i <? 256) &&
  (if code i =? BPF_LD + BPF_W + BPF_ABS then (k i <=? 60) || (64 <=? k i)
   else if (code i =? BPF_ALU + BPF_LSH + BPF_K) || (code i =? BPF_ALU + BPF_RSH + BPF_K) then k i <? 32
   else if code i =? BPF_JMP + BPF_JA then k i <? 2 ^ 31 - 2 ^ 16
   else true).

Definition prog_ok (prog : list sock_filter) : Prop :=
  Z.of_nat (length prog) < 2 ^ 16 /\ Forall (fun i => inst_ok i = true) prog.

Lemma inst_ok_facts i :
  inst_ok i = true ->
  (0 <= k i < 2 ^ 32 /\ 0 <= jt i < 256 /\ 0 <= jf i < 256) /\
  (code i = BPF_LD + BPF_W + BPF_ABS -> k i <= 60 \/ 64 <= k i) /\
  (code i = BPF_ALU + BPF_LSH + BPF_K -> k i < 32) /\ (code i = BPF_ALU + BPF_RSH + BPF_K -> k i < 32) /\
  (code i = BPF_JMP + BPF_JA -> k i < 2 ^ 31 - 2 ^ 16).
Proof.
  unfold inst_ok. rewrite !andb_true_iff, !Z.leb_le, !Z.ltb_lt. intros [Hr Hok]. split; [lia|].
  split; [|split; [|split]]; intros E; rewrite E in Hok.
  - rewrite Z.eqb_refl in Hok. apply orb_true_iff in Hok as [Hok|Hok]; apply Z.leb_le in Hok; lia.
  - rewrite Z.eqb_refl in Hok. change (k i <? 32 = true) in Hok. lia.
  - rewrite Z.eqb_refl, orb_true_r in Hok. change (k i <? 32 = true) in Hok. lia.
  - rewrite Z.eqb_refl in Hok. change (k i <? 2 ^ 31 - 2 ^ 16 = true) in Hok. lia.
Qed.

Lemma execute_ok sd i A X :
  inst_ok i = true ->
  match execute sd i A X with
  | Undef => False
  | Jump _ _ off => 0 <= off < 2 ^ 31 - 2 ^ 16
  | _ => True
  end.
Proof.
  intros Hok. destruct (inst_ok_facts i Hok) as (Hr & Hld & Hlsh & Hrsh & Hja). clear Hok.
  unfold execute, sizeof_seccomp_data. cbv zeta.
  repeat match goal with
  | |- context [if code i =? ?c then _ else _] => destruct (Z.eqb_spec (code i) c); [try exact I|]
  end; try exact I; try (case_match; lia); [| | |].
  - specialize (Hld ltac:(assumption)). destruct (Z.ltb_spec (k i) 64); [|done]. destruct (Z.leb_spec (k i + 4) 64); [done|lia].
  - specialize (Hlsh ltac:(assumption)). by rewrite (proj2 (Z.ltb_lt _ _) Hlsh).
  - specialize (Hrsh ltac:(assumption)). by rewrite (proj2 (Z.ltb_lt _ _) Hrsh).
  - specialize (Hja ltac:(assumption)). lia.
Qed.

Lemma run_from sd prog n pc A X :
  prog_ok prog -> (length (drop pc prog) <= n)%nat -> Z.of_nat pc < 2 ^ 31 ->
  loop (S n) (filter_step sd prog) (Z.of_nat pc, A, X) = Some (Some (eval n sd (drop pc prog) A X)).
Proof.
  intros [Hlen Hok]. revert pc A X. induction n as [|n IH]; intros pc A X Hn Hpc.
  - destruct (drop pc prog) as [|i r] eqn:E; [|simpl in Hn; lia].
    cbn [loop]. unfold filter_step. rewrite (proj2 (Z.ltb_ge _ _)); [done|].
    apply (f_equal length) in E. rewrite length_drop in E. simpl in E. lia.
  - destruct (drop pc prog) as [|i r] eqn:E; cbn [eval].
    + cbn [loop]. unfold filter_step. rewrite (proj2 (Z.ltb_ge _ _)); [done|].
      apply (f_equal length) in E. rewrite length_drop in E. simpl in E. lia.
    + assert (pc < length prog)%nat as Hlt by (apply (f_equal length) in E; rewrite length_drop in E; simpl in E; lia).
      assert (prog !! pc = Some i) as Hi by (rewrite <- (Nat.add_0_r pc), <- lookup_drop, E; done).
      assert (drop (S pc) prog = r) as Hr.
      { rewrite <- Nat.add_1_r, <- drop_drop, E. done. }
      remember (S n) as m eqn:Em. cbn [loop]. unfold filter_step at 1.
      rewrite (proj2 (Z.ltb_lt _ _)), (proj2 (Z.ltb_ge _ _)), Nat2Z.id, Hi by lia.
      pose proof (execute_ok sd i A X) as Hex. rewrite Forall_forall in Hok.
      specialize (Hex (Hok i ltac:(by eapply list_elem_of_lookup_2))). subst m.
      destruct (execute sd i A X) as [v|A' X'|A' X' off|]; [done| | |done].
      * rewrite s32_small by lia. replace (Z.of_nat pc + 1) with (Z.of_nat (S pc)) by lia.
        rewrite IH; rewrite ?Hr; [done|simpl in Hn; lia|lia].
      * rewrite !s32_small by (rewrite ?s32_small by lia; lia).
        replace (Z.of_nat pc + off + 1) with (Z.of_nat (S pc + Z.to_nat off)) by lia.
        assert (drop (S pc + Z.to_nat off) prog = drop (Z.to_nat off) r) as Hd by (by rewrite <- drop_drop, Hr).
        rewrite IH; rewrite ?Hd; [done| |lia]. rewrite length_drop. simpl in Hn. lia.
Qed.

(** The interpreter ends, within one round per instruction, with the value of
    the reference evaluator. *)
Lemma run_filter_eval fuel sd prog :
  prog_ok prog -> (length prog < fuel)%nat -> seccomp_run_filter fuel sd prog = Some (eval (length prog) sd prog 0 0).
Proof.
  intros Hok Hf. unfold seccomp_run_filter. change (0, 0, 0) with (Z.of_nat 0, 0, 0).
  rewrite (loop_more _ (S (length prog)) fuel _ _ (run_from sd prog (length prog) 0 0 0 Hok ltac:(done) ltac:(lia))) by lia.
  done.
Qed.

(** ** Filters of a process *)

Inductive sfld := ref_count | prog_len | prog_filter | f_prev
  | p_filter  (** [seccomp_filter] of the process at the address *) .

#[export] Instance sfld_eq_dec : EqDecision sfld.
Proof. solve_decision. Defined.

Definition sizeof_filter : Z := 32.
Definition sizeof_inst : Z := 8.

Section seccomp.
Context {H : Type} `{Allocator H}.

(** [sc_code] is the instruction array at an address. *)
Record scsys := SC { sc_heap : H; sc_st : store sfld; sc_code : Z -> list sock_filter; sc_current : Z }.

Definition sget (s : scsys) (a : Z) (f : sfld) : Z := sc_st s a f.
Definition sset (s : scsys) (a : Z) (f : sfld) (v : Z) : scsys :=
  SC (sc_heap s) (wr (sc_st s) a f v) (sc_code s) (sc_current s).

(** The program of a filter: [prog.len] instructions of the array. *)
Definition program (s : scsys) (f : Z) : list sock_filter :=
  take (Z.to_nat (sget s f prog_len)) (sc_code s (sget s f prog_filter)).

(** [stack] is what the uninitialised local variable [sd] contains. *)
Definition syscall_data (stack : mem) (syscall_nr : Z) : mem :=
  store64 (store32 (store32 stack 0 syscall_nr) 4 0xC000003E) 8 0.

Definition check_step (fuel : nat) (s : scsys) (sd : mem) : Z -> Z + option Z :=
  fun f =>
    if f =? 0 then inr (Some 0)
    else match seccomp_run_filter fuel sd (program s f) with
         | None => inr None
         | Some ret => if negb (ret .& SECCOMP_RET_ACTION =? SECCOMP_RET_ALLOW) then inr (Some (-1))
                       else inl (sget s f f_prev)
         end.

Definition seccomp_check_syscall (fuel : nat) (s : scsys) (stack : mem) (syscall_nr : Z) : option Z :=
  let cur := sc_current s in
  if (cur =? 0) || (sget s cur p_filter =? 0) then Some 0
  else mjoin (loop fuel (check_step fuel s (syscall_data stack syscall_nr)) (sget s cur p_filter)).

(** [prog] is the caller's program; its length is a [uint16_t].  The second
    allocation is not checked by the code: copying to a null pointer is
    undefined. *)
Definition seccomp_attach_filter (s : scsys) (prog : list sock_filter) : option (scsys * Z) :=
  let cur := sc_current s in
  if cur =? 0 then Some (s, -1)
  else
    '(h, filter) ← a_alloc (sc_heap s) sizeof_filter;
    let s := SC h (sc_st s) (sc_code s) cur in
    if filter =? 0 then Some (s, -1)
    else
      let len := Z.of_nat (length prog) in
      let s := sset s filter prog_len len in
      '(h, arr) ← (if len =? 0 then Some (sc_heap s, 0) else a_alloc (sc_heap s) (len * sizeof_inst));
      if (arr =? 0) && negb (len =? 0) then None
      else
        let s := SC h (wr (sc_st s) filter prog_filter arr)
                   (if arr =? 0 then sc_code s else fupd (sc_code s) arr prog) cur in
        let s := sset s filter ref_count 1 in
        let s := sset s filter f_prev (sget s cur p_filter) in
        Some (sset s cur p_filter filter, 0).

Definition ref_step : scsys * Z -> (scsys * Z) + scsys :=
  fun '(s, f) =>
    if f =? 0 then inr s
    else
      let s := sset s f ref_count (s32 (sget s f ref_count + 1)) in
      inl (s, sget s f f_prev).

Definition seccomp_fork (fuel : nat) (s : scsys) (child parent : Z) : option scsys :=
  if sget s parent p_filter =? 0 then Some (sset s child p_filter 0)
  else
    let f := sget s parent p_filter in
    loop fuel ref_step (sset s child p_filter f, f).

(** [kfree], which ignores a null pointer. *)
Definition free_block (s : scsys) (p : Z) : option scsys :=
  if p =? 0 then Some s
  else h ← a_free (sc_heap s) p; Some (SC h (sc_st s) (sc_code s) (sc_current s)).

Definition exit_step : scsys * Z -> (scsys * Z) + option scsys :=
  fun '(s, f) =>
    if f =? 0 then inr (Some s)
    else
      let prev := sget s f f_prev in
      let s := sset s f ref_count (s32 (sget s f ref_count - 1)) in
      match (if sget s f ref_count <=? 0
             then s ← free_block s (sget s f prog_filter); free_block s f else Some s) with
      | None => inr None
      | Some s => inl (s, prev)
      end.

Definition seccomp_exit (fuel : nat) (s : scsys) (p : Z) : option scsys :=
  s ← mjoin (loop fuel exit_step (s, sget s p p_filter));
  Some (sset s p p_filter 0).


(** ** The chain of filters *)

(** The filters of the current process, newest first, are [fs]: live blocks
    with live instruction arrays and defined programs. *)
Record chain_ok (s : scsys) (fs : list Z) : Prop := {
  ch_heap : a_wf (sc_heap s);
  ch_current : sc_current s <> 0;
  ch_list : slist (sc_st s) f_prev (sget s (sc_current s) p_filter) fs;
  ch_live : forall f, f ∈ fs -> (exists t, a_live (sc_heap s) f t) /\
    (sget s f prog_filter <> 0 -> exists t, a_live (sc_heap s) (sget s f prog_filter) t) /\
    (sget s f prog_filter = 0 -> sget s f prog_len = 0);
  ch_prog : forall f, f ∈ fs -> prog_ok (program s f)
}.

Definition allows (sd : mem) (prog : list sock_filter) : bool :=
  eval (length prog) sd prog 0 0 .& SECCOMP_RET_ACTION =? SECCOMP_RET_ALLOW.

(** The decision of a list of programs: all of them must allow the call. *)
Definition verdict (sd : mem) (progs : list (list sock_filter)) : Z := if forallb (allows sd) progs then 0 else -1.

Lemma check_loop fuel n s sd fs a :
  slist (sc_st s) f_prev a fs -> (forall f, f ∈ fs -> prog_ok (program s f)) ->
  (forall f, f ∈ fs -> (length (program s f) < fuel)%nat) -> (length fs < n)%nat ->
  loop n (check_step fuel s sd) a = Some (Some (verdict sd (program s <$> fs))).
Proof.
  revert a n. induction fs as [|f fs IH]; intros a n Hl Hok Hf Hn; (destruct n as [|n]; [simpl in Hn; lia|]); cbn [loop].
  - simpl in Hl. subst a. done.
  - destruct Hl as (-> & Hf0 & Hl). unfold check_step at 1. rewrite (proj2 (Z.eqb_neq f 0)) by done.
    rewrite run_filter_eval by (set_solver). fold (allows sd (program s f)).
    unfold verdict. cbn [fmap list_fmap forallb]. destruct (allows sd (program s f)); cbn [negb andb]; [|done].
    change (sget s f f_prev) with (sc_st s f f_prev).
    apply (IH _ n Hl); [set_solver|set_solver|simpl in Hn; lia].
Qed.

Lemma check_verdict fuel s fs stack nr :
  chain_ok s fs -> (forall f, f ∈ fs -> (length (program s f) < fuel)%nat) -> (length fs < fuel)%nat ->
  seccomp_check_syscall fuel s stack nr = Some (verdict (syscall_data stack nr) (program s <$> fs)).
Proof.
  intros [_ Hc Hl _ Hok] Hf Hn. unfold seccomp_check_syscall. rewrite (proj2 (Z.eqb_neq _ _) Hc). cbn [orb].
  destruct (Z.eqb_spec (sget s (sc_current s) p_filter) 0) as [E|E].
  - apply (slist_head _ _ _ _ Hl) in E as ->. done.
  - by rewrite (check_loop fuel fuel s _ fs _ Hl Hok Hf Hn).
Qed.

(** A change of the heap alone keeps the chain. *)
Lemma chain_heap s fs h :
  chain_ok s fs -> a_wf h -> (forall p t, a_live (sc_heap s) p t -> a_live h p t) ->
  chain_ok (SC h (sc_st s) (sc_code s) (sc_current s)) fs.
Proof.
  intros [Hwf Hc Hl Hlive Hok] Hwf' Hm. split; try done. intros f Hf. destruct (Hlive f Hf) as ([t Ht] & Ha & Hz).
  split; [exists t; by apply Hm|]. split; [|done]. intros Hne. destruct (Ha Hne) as [u Hu]. exists u. by apply Hm.
Qed.

(** The chain with a new filter in front. *)
Lemma chain_push s fs h filter arr prog st cd :
  chain_ok s fs -> prog_ok prog -> filter <> 0 -> a_wf h ->
  (forall p t, a_live (sc_heap s) p t -> a_live h p t) -> (forall t, ~ a_live (sc_heap s) filter t) ->
  (exists t, a_live h filter t) ->
  (arr = 0 -> prog = []) -> (arr <> 0 -> (exists t, a_live h arr t) /\ forall t, ~ a_live (sc_heap s) arr t) ->
  (forall x f, x <> filter -> f <> p_filter -> st x f = sc_st s x f) ->
  st filter prog_len = Z.of_nat (length prog) -> st filter prog_filter = arr ->
  st filter f_prev = sget s (sc_current s) p_filter -> st (sc_current s) p_filter = filter ->
  (arr <> 0 -> cd arr = prog) -> (forall a, a <> arr \/ arr = 0 -> cd a = sc_code s a) ->
  let s' := SC h st cd (sc_current s) in
  chain_ok s' (filter :: fs) /\ program s' filter = prog /\ forall f, f ∈ fs -> program s' f = program s f.
Proof.
  intros [Hwf Hc Hl Hlive Hok] Hp Hf0 Hwf' Hm Hfresh Hfl Ha0 Ha1 Hst Hlen Hpf Hprev Hcur Hcd Hcd' s'.
  assert (forall f, f ∈ fs -> f <> filter) as Hne.
  { intros f Hf ->. destruct (Hlive filter Hf) as ([t Ht] & _). by apply (Hfresh t). }
  assert (program s' filter = prog) as Hprog.
  { unfold program, sget. simpl. rewrite Hlen, Hpf, Nat2Z.id. destruct (Z.eq_dec arr 0) as [->|Hz].
    - by rewrite Ha0.
    - rewrite Hcd by done. by apply take_ge. }
  assert (forall f, f ∈ fs -> program s' f = program s f) as Hsame.
  { intros f Hf. unfold program, sget. simpl. rewrite !Hst by (by apply Hne || done). f_equal.
    destruct (Z.eq_dec arr 0) as [Ez|Hz]; [apply Hcd'; by right|].
    destruct (Hlive f Hf) as (_ & Hal & Hz0). destruct (Z.eq_dec (sget s f prog_filter) arr) as [E|]; [|apply Hcd'; by left].
    destruct Hal as [t Ht]; [unfold sget in *; congruence|]. destruct (Ha1 Hz) as [_ Hfr]. rewrite E in Ht. by destruct (Hfr t). }
  split; [|done]. split; [done|done| | |].
  - unfold sget. simpl. rewrite Hcur. split; [done|]. split; [done|]. rewrite Hprev.
    eapply slist_ext; [|exact Hl]. intros x Hx. apply Hst; [by apply Hne|done].
  - intros f Hf. apply elem_of_cons in Hf as [->|Hf].
    + split; [done|]. unfold sget. simpl. rewrite Hpf, Hlen. split; [intros Hz; by apply Ha1|]. intros ->. by rewrite Ha0.
    + destruct (Hlive f Hf) as ([t Ht] & Hal & Hz). unfold sget. simpl. rewrite !Hst by (by apply Hne || done).
      split; [exists t; by apply Hm|]. split; [|done]. intros Hnz. destruct (Hal Hnz) as [u Hu]. exists u. by apply Hm.
  - intros f Hf. apply elem_of_cons in Hf as [->|Hf]; [by rewrite Hprog|]. rewrite Hsame by done. by apply Hok.
Qed.


Lemma attach_spec s fs prog :
  chain_ok s fs -> prog_ok prog ->
  match seccomp_attach_filter s prog with
  | None => exists h1 f h2, a_alloc (sc_heap s) sizeof_filter = Some (h1, f) /\ prog <> [] /\
      a_alloc h1 (Z.of_nat (length prog) * sizeof_inst) = Some (h2, 0)
  | Some (s', r) =>
      (r = 0 /\ exists f, chain_ok s' (f :: fs) /\ program s' f = prog /\ forall g, g ∈ fs -> program s' g = program s g) \/
      (r = -1 /\ (exists h1, a_alloc (sc_heap s) sizeof_filter = Some (h1, 0)) /\
       chain_ok s' fs /\ forall g, g ∈ fs -> program s' g = program s g)
  end.
Proof.
  intros Hch Hp. pose proof Hch as [Hwf Hc _ _ _]. unfold seccomp_attach_filter.
  rewrite (proj2 (Z.eqb_neq _ _) Hc).
  destruct (a_alloc_spec (sc_heap s) sizeof_filter Hwf ltac:(unfold sizeof_filter; lia)) as (h1 & f & Ea1 & Hwf1 & Hcase).
  rewrite Ea1. cbn [mbind option_bind].
  destruct Hcase as [[-> Hl1]|(t1 & Ht1 & Hfresh & Hl1)].
  { rewrite Z.eqb_refl. right. split; [done|]. split; [by exists h1|]. split; [|done].
    apply chain_heap; [done|done|]. intros p t Hpt. by apply Hl1. }
  assert (a_live h1 f t1) as Hf1 by (apply Hl1; by left). destruct (a_live_pos _ _ _ Hwf1 Hf1) as [Hfpos _].
  rewrite (proj2 (Z.eqb_neq f 0)) by lia. set (len := Z.of_nat (length prog)).
  change (sc_heap (sset (SC h1 (sc_st s) (sc_code s) (sc_current s)) f prog_len len)) with h1.
  assert (f <> 0) as Hfz by lia.
  destruct (Z.eqb_spec len 0) as [El|El].
  - cbn [mbind option_bind]. rewrite andb_false_r. left. split; [done|]. exists f.
    assert (prog = []) as -> by (destruct prog; [done|unfold len in El; simpl in El; lia]).
    apply (chain_push s fs h1 f 0 []); try done.
    + intros p t Hpt. apply Hl1. by right.
    + by exists t1.
    + intros x g Hx Hg. cbn [sset sc_st]. rewrite !wr_other by (first [right; discriminate|left; congruence|right; congruence]). done.
    + cbn [sset sc_st]. wr_simp. done.
    + cbn [sset sc_st]. wr_simp. done.
    + cbn [sset sc_st sget]. wr_simp. unfold sget. cbn [sset sc_st]. by wr_simp.
    + cbn [sset sc_st]. by wr_simp.
  - destruct (a_alloc_spec h1 (len * sizeof_inst) Hwf1) as (h2 & arr & Ea2 & Hwf2 & Hcase).
    { destruct Hp as [Hlen _]. unfold len, sizeof_inst in *. lia. }
    rewrite Ea2. cbn [mbind option_bind]. destruct Hcase as [[-> Hl2]|(t2 & Ht2 & Hfresh2 & Hl2)].
    { rewrite Z.eqb_refl. exists h1, f, h2. split; [done|]. split; [|done]. intros ->. done. }
    assert (a_live h2 arr t2) as Harr by (apply Hl2; by left). destruct (a_live_pos _ _ _ Hwf2 Harr) as [Hapos _].
    rewrite (proj2 (Z.eqb_neq arr 0)) by lia. cbn [andb]. left. split; [done|]. exists f.
    assert (arr <> 0) as Haz by lia.
    apply (chain_push s fs h2 f arr prog); try done.
    + intros p t Hpt. apply Hl2. right. apply Hl1. by right.
    + exists t1. apply Hl2. by right.
    + intros _. split; [by exists t2|]. intros t Ht. apply (Hfresh2 t). apply Hl1. by right.
    + intros x g Hx Hg. cbn [sset sc_st]. rewrite !wr_other by (first [right; discriminate|left; congruence|right; congruence]). done.
    + cbn [sset sc_st]. wr_simp. done.
    + cbn [sset sc_st]. wr_simp. done.
    + cbn [sset sc_st sget]. wr_simp. unfold sget. cbn [sset sc_st]. by wr_simp.
    + cbn [sset sc_st]. by wr_simp.
    + intros _. cbn [sc_code sset]. by rewrite fupd_same.
    + intros a [Ha|Ha]; [|lia]. cbn [sc_code sset]. by rewrite fupd_other.
Qed.

End seccomp.

(** Filters only restrict.  For programs without undefined behaviour the
    check of a system call returns, after at most one round per instruction,
    and allows the call exactly when every program of the chain, run by the
    reference evaluator, answers ALLOW.  A filter that is attached joins the
    chain in front of the others, whose programs are untouched, so the calls
    allowed afterwards are those that were allowed before and that it allows;
    when there is no memory for it the chain and the decision stay the same. *)
Theorem seccomp_filters_restrict {H : Type} `{Allocator H} fuel (s : scsys (H := H)) fs prog stack nr :
  chain_ok s fs -> prog_ok prog -> (length prog < fuel)%nat -> (S (length fs) < fuel)%nat ->
  (forall f, f ∈ fs -> (length (program s f) < fuel)%nat) ->
  let sd := syscall_data stack nr in
  seccomp_check_syscall fuel s stack nr = Some (verdict sd (program s <$> fs)) /\
  match seccomp_attach_filter s prog with
  | None => exists h1 f h2, a_alloc (sc_heap s) sizeof_filter = Some (h1, f) /\ prog <> [] /\
      a_alloc h1 (Z.of_nat (length prog) * sizeof_inst) = Some (h2, 0)
  | Some (s', r) =>
      (r = 0 /\ exists f, chain_ok s' (f :: fs) /\
         seccomp_check_syscall fuel s' stack nr = Some (verdict sd (prog :: (program s <$> fs)))) \/
      (r = -1 /\ (exists h1, a_alloc (sc_heap s) sizeof_filter = Some (h1, 0)) /\ chain_ok s' fs /\
         seccomp_check_syscall fuel s' stack nr = seccomp_check_syscall fuel s stack nr)
  end.
Proof.
  intros Hch Hp Hf1 Hf2 Hf3 sd. pose proof (check_verdict fuel s fs stack nr Hch Hf3 ltac:(lia)) as Hv.
  split; [exact Hv|]. pose proof (attach_spec s fs prog Hch Hp) as Ha.
  destruct (seccomp_attach_filter s prog) as [[s' r]|]; [|exact Ha].
  assert ((forall g, g ∈ fs -> program s' g = program s g) -> program s' <$> fs = program s <$> fs) as Hext.
  { intros Hg. apply list_fmap_ext. intros i g Hi. apply Hg. by eapply list_elem_of_lookup_2. }
  destruct Ha as [(-> & f & Hch' & Hprog & Hg)|(-> & Hh & Hch' & Hg)]; [left|right]; (split; [done|]).
  - exists f. split; [done|]. rewrite (check_verdict fuel s' (f :: fs)); [|done| |simpl; lia].
    + cbn [fmap list_fmap]. by rewrite Hprog, Hext.
    + intros g Hin. apply elem_of_cons in Hin as [->|Hin]; [by rewrite Hprog|]. rewrite Hg by done. by apply Hf3.
  - split; [done|]. split; [done|]. rewrite Hv, (check_verdict fuel s' fs); [|done| |lia].
    + by rewrite Hext.
    + intros g Hin. rewrite Hg by done. by apply Hf3.
Qed.

(** ** A filter that allows only system call 4 *)

Definition demo_prog : list sock_filter :=
  [Inst 0x20 0 0 0; Inst 0x15 0 1 4; Inst 0x06 0 0 SECCOMP_RET_ALLOW; Inst 0x06 0 0 SECCOMP_RET_KILL].

Definition demo_sc : scsys (H := Spinlock.cpu * Heap.heap) :=
  SC (Heap.demo_cpu, Heap.demo_heap) (fun _ _ => 0) (fun _ => []) 1.

Lemma seccomp_filters_restrict_witness :
  match seccomp_attach_filter demo_sc demo_prog with
  | Some (s', 0) => seccomp_check_syscall 5 s' (fun _ => 0) 4 = Some 0 /\
                    exists f, chain_ok s' [f]
  | _ => True
  end.
Proof.
  destruct (seccomp_filters_restrict 5 demo_sc [] demo_prog (fun _ => 0) 4) as [_ H].
  - split; [exists [(984, true)]; exact Heap.demo_heap_rep|discriminate|reflexivity|..];
      intros f Hf; by apply not_elem_of_nil in Hf.
  - split; [vm_compute; reflexivity|]. repeat constructor.
  - simpl. lia.
  - simpl. lia.
  - intros f Hf. by apply not_elem_of_nil in Hf.
  - destruct (seccomp_attach_filter demo_sc demo_prog) as [[s' r]|]; [|exact I].
    destruct H as [(-> & f & Hch & Hv)|(-> & _)]; [|exact I].
    split; [|by exists f]. rewrite Hv. vm_compute. reflexivity.
Defined.

End Seccomp.
