(* ===== verification/Swap.v ===== *)
(** * Swapping (src/kernel/memory/swap.c)

    A swap device keeps pages in a storage area, with one byte per page that
    says whether the slot is taken.  [swap_out] copies a frame to a free slot,
    [swap_in] copies a slot to a fresh frame and frees the slot, and
    [handle_swap_fault] does so for the entry found in a page table.  The
    storage, the slot map and the frames are all in the memory of the page
    allocator. *)
From S2P Require Import Prelude Memory CString Allocator Pmm Vmm.
Import CString Pmm Vmm.

Module Swap.

(** ** State and operations *)

Record swap_device := Dev { id : Z; active : Z; storage : Z; size : Z; slot_map : Z }.
Record swap_entry := Entry { offset : Z; device_id : Z }.
Record swap := Swap { sw_vmm : vmm; devices : Z -> swap_device }.

Definition MAX_SWAP_DEVICES : Z := 4.
Definition SWAP_PAGE_SIZE : Z := 4096.
Definition PTE_SWAPPED : Z := 0x200.

Definition sw_mem (s : swap) : mem := pm_mem (vm_pmm (sw_vmm s)).
Definition with_pmm (v : vmm) (p : pmm) : vmm := VMM p (current_pml4 v) (mmio_virt_base v).
Definition set_mem (s : swap) (m : mem) : swap :=
  Swap (with_pmm (sw_vmm s) (with_mem (vm_pmm (sw_vmm s)) m)) (devices s).
Definition set_device (s : swap) (i : Z) (d : swap_device) : swap :=
  Swap (sw_vmm s) (fun j => if decide (j = i) then d else devices s j).

(** The device is marked active before its buffers are known to exist. *)
Definition swap_init {A : Type} `{Allocator A} (h : A) (s : swap) : option (A * swap) :=
  let size := 1024 in
  '(h, st) ← a_alloc h (size * SWAP_PAGE_SIZE);
  '(h, bm) ← a_alloc h size;
  let s := set_device s 0 (Dev 0 1 st size bm) in
  if (st =? 0) || (bm =? 0) then Some (h, s)
  else Some (h, set_mem s (memset (sw_mem s) bm 0 size)).

(** The first free slot from [i] on, among the next [n]. *)
Fixpoint scan_slots (m : mem) (bm i : Z) (n : nat) : option Z :=
  match n with
  | O => None
  | S n' => if load8 m (bm + i) =? 0 then Some i else scan_slots m bm (i + 1) n'
  end.

Definition find_free_swap_slot (s : swap) (dev_id : Z) : swap * option Z :=
  let dev := devices s dev_id in
  match scan_slots (sw_mem s) (slot_map dev) 0 (Z.to_nat (size dev)) with
  | Some i => (set_mem s (store8 (sw_mem s) (slot_map dev + i) 1), Some i)
  | None => (s, None)
  end.

(** [None] in the result is the return value -1. *)
Definition swap_out (s : swap) (phys_addr : Z) : swap * option swap_entry :=
  let dev_id := 0 in
  if active (devices s dev_id) =? 0 then (s, None)
  else
    match find_free_swap_slot s dev_id with
    | (s, None) => (s, None)
    | (s, Some off) =>
        let src := phys_addr .& 0xFFFFFFFFFFFFF000 in
        let dst := storage (devices s dev_id) + off * SWAP_PAGE_SIZE in
        (set_mem s (memcpy (sw_mem s) dst src SWAP_PAGE_SIZE), Some (Entry off dev_id))
    end.

Definition swap_in (s : swap) (entry : swap_entry) : option (swap * option Z) :=
  if (MAX_SWAP_DEVICES <=? device_id entry) || (active (devices s (device_id entry)) =? 0) then Some (s, None)
  else
    let dev := devices s (device_id entry) in
    if size dev <=? offset entry then Some (s, None)
    else
      '(new_page, p) ← pmm_alloc_page (vm_pmm (sw_vmm s));
      let s := Swap (with_pmm (sw_vmm s) p) (devices s) in
      if new_page =? 0 then Some (s, None)
      else
        let src := storage dev + offset entry * SWAP_PAGE_SIZE in
        let s := set_mem s (memcpy (sw_mem s) new_page src SWAP_PAGE_SIZE) in
        Some (set_mem s (store8 (sw_mem s) (slot_map dev + offset entry) 0), Some new_page).

Definition handle_swap_fault (s : swap) (vaddr : Z) : option (swap * Z) :=
  let pte := vmm_get_pte (sw_vmm s) vaddr in
  if negb (pte .& PTE_PRESENT =? 0) || (pte .& PTE_SWAPPED =? 0) then Some (s, -1)
  else
    let entry := Entry (pte .>> 12) ((pte .>> 1) .& 0xFF) in
    '(s, r) ← swap_in s entry;
    match r with
    | None => Some (s, -1)
    | Some phys_addr =>
        v ← vmm_map_page (sw_vmm s) vaddr phys_addr (PTE_PRESENT .| PTE_WRITABLE .| PTE_USER);
        Some (Swap v (devices s), 0)
    end.

(** ** Well-formed devices *)

(** Device [d]'s storage and slot map do not overlap, are not frames that can
    be allocated, and are not the allocator's bitmap. *)
Record device_ok (s : swap) (d : Z) : Prop := {
  do_mem : mem_ok (sw_mem s);
  do_pmm : pmm_wf (vm_pmm (sw_vmm s));
  do_bitmap : forall x, ~ off_pmm_bitmap (vm_pmm (sw_vmm s)) x -> reserved (vm_pmm (sw_vmm s)) x;
  do_active : active (devices s d) <> 0;
  do_size : 0 <= size (devices s d) < 2 ^ 40;
  do_disjoint : slot_map (devices s d) + size (devices s d) <= storage (devices s d) \/
                storage (devices s d) + size (devices s d) * SWAP_PAGE_SIZE <= slot_map (devices s d);
  do_storage : forall x, storage (devices s d) <= x < storage (devices s d) + size (devices s d) * SWAP_PAGE_SIZE ->
                 reserved (vm_pmm (sw_vmm s)) x /\ off_pmm_bitmap (vm_pmm (sw_vmm s)) x;
  do_map : forall x, slot_map (devices s d) <= x < slot_map (devices s d) + size (devices s d) ->
             reserved (vm_pmm (sw_vmm s)) x /\ off_pmm_bitmap (vm_pmm (sw_vmm s)) x
}.

Definition taken (s : swap) (d i : Z) : bool := negb (load8 (sw_mem s) (slot_map (devices s d) + i) =? 0).
(** The frame at [a] is outside the device and the allocator's bitmap. *)
Definition frame_apart (s : swap) (d a : Z) : Prop :=
  forall x, a <= x < a + SWAP_PAGE_SIZE ->
    off_pmm_bitmap (vm_pmm (sw_vmm s)) x /\
    ~ (storage (devices s d) <= x < storage (devices s d) + size (devices s d) * SWAP_PAGE_SIZE) /\
    ~ (slot_map (devices s d) <= x < slot_map (devices s d) + size (devices s d)).
(** Byte [k] of slot [i]. *)
Definition slot_byte (s : swap) (d i k : Z) : Z := sw_mem s (storage (devices s d) + i * SWAP_PAGE_SIZE + k).

(** ** Lemmas *)

Lemma scan_slots_spec m bm i n :
  match scan_slots m bm i n with
  | Some j => i <= j < i + Z.of_nat n /\ m (bm + j) = 0 /\ forall k, i <= k < j -> m (bm + k) <> 0
  | None => forall k, i <= k < i + Z.of_nat n -> m (bm + k) <> 0
  end.
Proof.
  revert i. induction n as [|n IH]; intros i; cbn [scan_slots]; [intros; lia|]. unfold load8.
  destruct (Z.eqb_spec (m (bm + i)) 0) as [E|E]; [split; [lia|]; split; [done|]; intros; lia|].
  specialize (IH (i + 1)). destruct (scan_slots m bm (i + 1) n) as [j|].
  - destruct IH as (Hj & H0 & Hk). split; [lia|]. split; [done|]. intros k Hk'. destruct (decide (k = i)) as [->|]; [done|].
    apply Hk. lia.
  - intros k Hk. destruct (decide (k = i)) as [->|]; [done|]. apply IH. lia.
Qed.

(** A device survives writes outside the allocator's bitmap. *)
Lemma device_ok_mem s d m :
  device_ok s d -> mem_ok m -> (forall x, ~ off_pmm_bitmap (vm_pmm (sw_vmm s)) x -> m x = sw_mem s x) ->
  device_ok (set_mem s m) d.
Proof.
  intros [Hm Hwf Hbm Ha Hs Hd Hst Hmap] Hm' Hx.
  assert (forall x, reserved (vm_pmm (sw_vmm s)) x -> reserved (vm_pmm (sw_vmm (set_mem s m))) x) as Hres.
  { intros x Hr f Hf Hxf. rewrite (used_same (vm_pmm (sw_vmm s))); [by apply Hr|done| |done]. intros y Hy. by apply Hx. }
  split; try done.
  - intros x Hxb. apply Hres. by apply Hbm.
  - intros x Hxs. destruct (Hst x Hxs). split; [by apply Hres|done].
  - intros x Hxs. destruct (Hmap x Hxs). split; [by apply Hres|done].
Qed.

(** Two blocks without a common byte lie apart. *)
Lemma apart (a b n : Z) : 0 < n -> (forall x, a <= x < a + n -> ~ (b <= x < b + n)) -> a + n <= b \/ b + n <= a.
Proof. intros Hn Hx. destruct (Z.le_gt_cases a b); [pose proof (Hx b)|pose proof (Hx a)]; lia. Qed.

Lemma memcpy_page m d s :
  mem_ok m -> d + SWAP_PAGE_SIZE <= s \/ s + SWAP_PAGE_SIZE <= d ->
  mem_ok (memcpy m d s SWAP_PAGE_SIZE) /\
  forall x, memcpy m d s SWAP_PAGE_SIZE x = if decide (d <= x < d + SWAP_PAGE_SIZE) then m (s + (x - d)) else m x.
Proof. intros Hm Hd. by apply memcpy_to. Qed.


Lemma swap_out_spec s phys :
  let a := phys .& 0xFFFFFFFFFFFFF000 in
  device_ok s 0 -> frame_apart s 0 a -> (exists i, 0 <= i < size (devices s 0) /\ taken s 0 i = false) ->
  exists s1 off, swap_out s phys = (s1, Some (Entry off 0)) /\ 0 <= off < size (devices s 0) /\
    taken s 0 off = false /\ device_ok s1 0 /\ devices s1 = devices s /\
    total_pages (vm_pmm (sw_vmm s1)) = total_pages (vm_pmm (sw_vmm s)) /\
    (forall f, 0 < f < total_pages (vm_pmm (sw_vmm s)) -> used (vm_pmm (sw_vmm s1)) f = used (vm_pmm (sw_vmm s)) f) /\
    (forall i, 0 <= i < size (devices s 0) -> taken s1 0 i = (i =? off) || taken s 0 i) /\
    (forall k, 0 <= k < SWAP_PAGE_SIZE -> slot_byte s1 0 off k = sw_mem s (a + k)) /\
    (forall i k, 0 <= i < size (devices s 0) -> i <> off -> 0 <= k < SWAP_PAGE_SIZE -> slot_byte s1 0 i k = slot_byte s 0 i k).
Proof.
  intros a Hok Hap (i0 & Hi0 & Ht0). pose proof Hok as [Hm Hwf Hbm Hact Hsz Hdis Hst Hmap].
  unfold swap_out. rewrite (proj2 (Z.eqb_neq _ _) Hact). unfold find_free_swap_slot.
  pose proof (scan_slots_spec (sw_mem s) (slot_map (devices s 0)) 0 (Z.to_nat (size (devices s 0)))) as Hscan.
  destruct (scan_slots _ _ _ _) as [off|]; cycle 1.
  { exfalso. apply (Hscan i0); [lia|]. unfold taken, load8 in Ht0. apply negb_false_iff, Z.eqb_eq in Ht0. done. }
  destruct Hscan as (Hoff & Hz & _). rewrite Z.add_0_l, Z2Nat.id in Hoff by lia.
  set (bm := slot_map (devices s 0)) in *. set (st := storage (devices s 0)) in *. set (n := size (devices s 0)) in *.
  set (m1 := store8 (sw_mem s) (bm + off) 1). fold a. cbn [devices set_mem]. fold st.
  change (sw_mem (set_mem s m1)) with m1. set (dst := st + off * SWAP_PAGE_SIZE).
  assert (mem_ok m1) as Hm1 by (by apply store8_ok).
  assert (off * SWAP_PAGE_SIZE + SWAP_PAGE_SIZE <= n * SWAP_PAGE_SIZE) as Hin by (unfold SWAP_PAGE_SIZE; lia).
  destruct (memcpy_page m1 dst a Hm1) as [Hm2 Hval].
  { apply apart; [done|]. intros x Hx Hxa. destruct (Hap x Hxa) as (_ & Hns & _). apply Hns. unfold dst, SWAP_PAGE_SIZE in *. lia. }
  assert (forall x, memcpy m1 dst a SWAP_PAGE_SIZE x =
            if decide (dst <= x < dst + SWAP_PAGE_SIZE) then sw_mem s (a + (x - dst))
            else if decide (x = bm + off) then 1 else sw_mem s x) as Hv.
  { intros x. rewrite Hval. case_decide as Ed.
    - unfold m1. apply store8_other. intros E. destruct (Hap (a + (x - dst))) as (_ & _ & Hnm); [lia|]. lia.
    - unfold m1. case_decide as Eb; [subst x; by rewrite store8_same|by apply store8_other]. }
  eexists _, off. split; [done|]. split; [done|].
  split; [unfold taken, load8; fold bm; by rewrite Hz|].
  assert (forall x, ~ off_pmm_bitmap (vm_pmm (sw_vmm s)) x -> memcpy m1 dst a SWAP_PAGE_SIZE x = sw_mem s x) as Hbits.
  { intros x Hx. rewrite Hv. rewrite decide_False; [rewrite decide_False; [done|]|].
    - intros ->. apply Hx. apply Hmap. fold bm n. lia.
    - intros Hd. apply Hx. apply Hst. fold st n. unfold dst, SWAP_PAGE_SIZE in *. lia. }
  change (set_mem (set_mem s m1) (memcpy m1 dst a SWAP_PAGE_SIZE)) with (set_mem s (memcpy m1 dst a SWAP_PAGE_SIZE)).
  split; [by apply device_ok_mem|]. split; [done|]. split; [done|].
  split; [intros f Hf; by apply used_same|].
  split; [|split].
  - intros i Hi. unfold taken, load8. cbn [devices set_mem]. fold bm.
    change (sw_mem (set_mem s (memcpy m1 dst a SWAP_PAGE_SIZE))) with (memcpy m1 dst a SWAP_PAGE_SIZE).
    rewrite Hv, decide_False by (unfold dst, SWAP_PAGE_SIZE in *; lia).
    destruct (Z.eqb_spec i off) as [->|Hne]; [by rewrite decide_True|by rewrite decide_False by lia].
  - intros k Hk. unfold slot_byte. cbn [devices set_mem]. fold st. fold dst.
    change (sw_mem (set_mem s (memcpy m1 dst a SWAP_PAGE_SIZE))) with (memcpy m1 dst a SWAP_PAGE_SIZE).
    rewrite Hv, decide_True by lia. f_equal. lia.
  - intros i k Hi Hne Hk. unfold slot_byte. cbn [devices set_mem]. fold st.
    change (sw_mem (set_mem s (memcpy m1 dst a SWAP_PAGE_SIZE))) with (memcpy m1 dst a SWAP_PAGE_SIZE).
    rewrite Hv. rewrite decide_False by (unfold dst, SWAP_PAGE_SIZE in *; lia).
    rewrite decide_False; [done|]. unfold SWAP_PAGE_SIZE in *. lia.
Qed.

Lemma swap_in_spec s d off :
  device_ok s d -> 0 <= d < MAX_SWAP_DEVICES -> 0 <= off < size (devices s d) ->
  exists s' r, swap_in s (Entry off d) = Some (s', r) /\
    match r with
    | None => forall f, 0 < f < total_pages (vm_pmm (sw_vmm s)) -> used (vm_pmm (sw_vmm s)) f = true
    | Some new =>
        (exists f, new = f * PAGE_SIZE /\ 0 < f < total_pages (vm_pmm (sw_vmm s)) /\
           used (vm_pmm (sw_vmm s)) f = false /\ used (vm_pmm (sw_vmm s')) f = true) /\
        (forall k, 0 <= k < SWAP_PAGE_SIZE -> sw_mem s' (new + k) = slot_byte s d off k) /\
        devices s' = devices s /\
        (forall i, 0 <= i < size (devices s d) -> taken s' d i = negb (i =? off) && taken s d i) /\
        (forall i k, 0 <= i < size (devices s d) -> 0 <= k < SWAP_PAGE_SIZE -> slot_byte s' d i k = slot_byte s d i k)
    end.
Proof.
  intros [Hm Hwf Hbm Hact Hsz Hdis Hst Hmap] Hd Hoff. unfold swap_in. cbn [device_id offset].
  rewrite (proj2 (Z.leb_gt _ _)), (proj2 (Z.eqb_neq _ _) Hact), (proj2 (Z.leb_gt _ _)) by lia. cbn [orb].
  set (p := vm_pmm (sw_vmm s)) in *. destruct (pmm_alloc_page_total p Hwf) as (new & p1 & Hal & Hpost).
  rewrite Hal. cbn [mbind option_bind].
  assert (forall x, off_pmm_bitmap p x -> pm_mem p1 x = sw_mem s x) as Hkeep
    by (intros x Hx; by apply (alloc_page_rec_mem 2 p new p1)).
  assert (mem_ok (pm_mem p1)) as Hm1 by (by apply (alloc_page_rec_mem_ok 2 p new p1)).
  destruct Hpost as [(f & Hf & -> & (Hb & Ht & _ & Hu & Hus) & _)|(-> & _ & _ & _ & _ & Hall)]; cycle 1.
  { rewrite Z.eqb_refl. eexists _, None. split; [done|]. exact Hall. }
  rewrite (proj2 (Z.eqb_neq (f * PAGE_SIZE) 0)) by (unfold PAGE_SIZE; lia).
  set (bm := slot_map (devices s d)) in *. set (st := storage (devices s d)) in *. set (n := size (devices s d)) in *.
  set (new := f * PAGE_SIZE). set (src := st + off * SWAP_PAGE_SIZE).
  assert (off * SWAP_PAGE_SIZE + SWAP_PAGE_SIZE <= n * SWAP_PAGE_SIZE) as Hin by (unfold SWAP_PAGE_SIZE; lia).
  assert (forall x, new <= x < new + SWAP_PAGE_SIZE -> ~ reserved p x) as Hnew.
  { intros x Hx Hr. rewrite (Hr f Hf) in Hu; [done|]. unfold new, PAGE_SIZE, SWAP_PAGE_SIZE in *. lia. }
  cbn [devices]. fold st bm src. change (sw_mem (Swap (with_pmm (sw_vmm s) p1) (devices s))) with (pm_mem p1).
  destruct (memcpy_page (pm_mem p1) new src Hm1) as [Hm2 Hval].
  { apply apart; [done|]. intros x Hx Hxs. apply (Hnew x Hx). apply Hst. fold st n. unfold src, SWAP_PAGE_SIZE in *. lia. }
  set (m2 := memcpy (pm_mem p1) new src SWAP_PAGE_SIZE) in *.
  set (m3 := store8 m2 (bm + off) 0).
  assert (forall x, m3 x = if decide (x = bm + off) then 0
            else if decide (new <= x < new + SWAP_PAGE_SIZE) then pm_mem p1 (src + (x - new)) else pm_mem p1 x) as Hv.
  { intros x. unfold m3. case_decide as E; [subst x; by rewrite store8_same|]. by rewrite store8_other, Hval. }
  eexists _, (Some new). split; [reflexivity|].
  change (sw_mem (set_mem (Swap (with_pmm (sw_vmm s) p1) (devices s)) m2)) with m2. fold m3.
  split; [|split; [|split; [done|split]]].
  - exists f. split; [done|]. split; [done|]. split; [done|].
    rewrite (used_same p1); [|done| |rewrite Ht; done]; [rewrite Hus by lia; by rewrite decide_True|].
    intros x Hx. change (m3 x = pm_mem p1 x). rewrite Hv.
    assert (~ off_pmm_bitmap p x) as Hxb by (unfold off_pmm_bitmap in *; by rewrite Hb, Ht in Hx).
    rewrite decide_False, decide_False; [done| |].
    + intros Hxn. apply (Hnew x Hxn). by apply Hbm.
    + intros ->. apply Hxb. apply Hmap. fold bm n. lia.
  - intros k Hk. change (m3 (new + k) = slot_byte s d off k). unfold slot_byte. fold st. rewrite Hv, decide_False.
    + rewrite decide_True by lia. replace (src + (new + k - new)) with (src + k) by lia. unfold src.
      apply Hkeep. apply Hst. fold st n. unfold SWAP_PAGE_SIZE in *. lia.
    + intros E. apply (Hnew (new + k)); [lia|]. rewrite E. apply Hmap. fold bm n. lia.
  - intros i Hi. unfold taken, load8. cbn [devices set_mem]. fold bm.
    change (negb (m3 (bm + i) =? 0) = negb (i =? off) && negb (sw_mem s (bm + i) =? 0)). rewrite Hv.
    destruct (Z.eqb_spec i off) as [->|Hne]; [by rewrite decide_True|]. rewrite decide_False by lia.
    destruct (Hmap (bm + i)) as [Hr Ho]; [fold bm n; lia|].
    rewrite decide_False; [by rewrite Hkeep|]. intros Hx. by apply (Hnew _ Hx).
  - intros i k Hi Hk. unfold slot_byte. cbn [devices set_mem]. fold st.
    change (m3 (st + i * SWAP_PAGE_SIZE + k) = sw_mem s (st + i * SWAP_PAGE_SIZE + k)). rewrite Hv.
    assert (st <= st + i * SWAP_PAGE_SIZE + k < st + n * SWAP_PAGE_SIZE) as Hx by (unfold SWAP_PAGE_SIZE in *; lia).
    destruct (Hst _ Hx) as [Hr Ho]. rewrite decide_False by lia.
    rewrite decide_False; [by apply Hkeep|]. intros Hxn. by apply (Hnew _ Hxn).
Qed.

(** Swapping a page out and in again preserves it.  With a free slot
    [swap_out] takes one, marks it and no other, and leaves the other slots'
    contents alone; whatever happens to the rest of the system, as long as the
    slot is left alone and a frame is free, [swap_in] of the returned entry
    brings the contents of the page back in a frame that was free, and frees
    the slot. *)
Theorem swap_roundtrip s phys :
  let a := phys .& 0xFFFFFFFFFFFFF000 in
  device_ok s 0 -> frame_apart s 0 a -> (exists i, 0 <= i < size (devices s 0) /\ taken s 0 i = false) ->
  exists s1 off, swap_out s phys = (s1, Some (Entry off 0)) /\ device_ok s1 0 /\ devices s1 = devices s /\
    taken s 0 off = false /\
    (forall f, 0 < f < total_pages (vm_pmm (sw_vmm s)) -> used (vm_pmm (sw_vmm s1)) f = used (vm_pmm (sw_vmm s)) f) /\
    (forall i, 0 <= i < size (devices s 0) -> taken s1 0 i = (i =? off) || taken s 0 i) /\
    (forall i k, 0 <= i < size (devices s 0) -> i <> off -> 0 <= k < SWAP_PAGE_SIZE -> slot_byte s1 0 i k = slot_byte s 0 i k) /\
    forall s2, device_ok s2 0 -> devices s2 = devices s ->
      (forall k, 0 <= k < SWAP_PAGE_SIZE -> slot_byte s2 0 off k = slot_byte s1 0 off k) ->
      (exists f, 0 < f < total_pages (vm_pmm (sw_vmm s2)) /\ used (vm_pmm (sw_vmm s2)) f = false) ->
      exists s3 f, swap_in s2 (Entry off 0) = Some (s3, Some (f * PAGE_SIZE)) /\
        used (vm_pmm (sw_vmm s2)) f = false /\ used (vm_pmm (sw_vmm s3)) f = true /\
        (forall k, 0 <= k < SWAP_PAGE_SIZE -> sw_mem s3 (f * PAGE_SIZE + k) = sw_mem s (a + k)) /\
        (forall i, 0 <= i < size (devices s 0) -> taken s3 0 i = negb (i =? off) && taken s2 0 i).
Proof.
  intros a Hok Hap Hfree.
  destruct (swap_out_spec s phys Hok Hap Hfree) as (s1 & off & Ho & Hoff & Ht & Hok1 & Hd1 & _ & Hu1 & Ht1 & Hb1 & Hs1).
  exists s1, off. split; [done|]. split; [done|]. split; [done|]. split; [done|]. split; [done|]. split; [done|]. split; [done|].
  intros s2 Hok2 Hd2 Hs2 (f0 & Hf0 & Hu0).
  destruct (swap_in_spec s2 0 off Hok2) as (s3 & r & Hin & Hr); [unfold MAX_SWAP_DEVICES; lia|by rewrite Hd2|].
  destruct r as [new|]; [|by rewrite (Hr f0 Hf0) in Hu0].
  destruct Hr as ((f & -> & Hf & Huf & Huf') & Hbytes & Hd3 & Ht3 & _).
  exists s3, f. split; [done|]. split; [done|]. split; [done|]. split.
  - intros k Hk. rewrite Hbytes, Hs2 by done. by apply Hb1.
  - intros i Hi. apply Ht3. by rewrite Hd2.
Qed.

(** ** A device with one slot: storage in frame 1, slot map in frame 2 *)

Definition demo_swap : swap :=
  Swap (VMM (PMM (fun x => if x =? 100 then 7 else if x =? 0x3005 then 42 else 0) 100 8 1 0x8000 (5 * PAGE_SIZE) 0) 0 0)
    (fun _ => Dev 0 1 0x1000 1 0x2000).

Lemma demo_device : device_ok demo_swap 0.
Proof.
  split.
  - intros x. cbn. repeat case_if; lia.
  - split; simpl; lia.
  - intros x Hx f Hf Hxf. unfold off_pmm_bitmap, PAGE_SIZE in *. simpl in *. change (8 / 8) with 1 in Hx. lia.
  - done.
  - simpl. lia.
  - simpl. unfold SWAP_PAGE_SIZE. lia.
  - intros x Hx. simpl in Hx. unfold SWAP_PAGE_SIZE in Hx. split.
    + intros f Hf Hxf. unfold PAGE_SIZE in Hxf. assert (f = 1) as -> by lia. reflexivity.
    + unfold off_pmm_bitmap. simpl. change (8 / 8) with 1. lia.
  - intros x Hx. simpl in Hx. split.
    + intros f Hf Hxf. unfold PAGE_SIZE in Hxf. assert (f = 2) as -> by lia. reflexivity.
    + unfold off_pmm_bitmap. simpl. change (8 / 8) with 1. lia.
Qed.

Lemma swap_roundtrip_witness :
  exists s1 off s3 f, swap_out demo_swap 0x3000 = (s1, Some (Entry off 0)) /\
    swap_in s1 (Entry off 0) = Some (s3, Some (f * PAGE_SIZE)) /\ sw_mem s3 (f * PAGE_SIZE + 5) = 42.
Proof.
  destruct (swap_roundtrip demo_swap 0x3000 demo_device) as (s1 & off & Ho & Hok1 & Hd1 & _ & Hu1 & _ & _ & Hin).
  - intros x Hx. change (0x3000 .& 0xFFFFFFFFFFFFF000) with 0x3000 in Hx. unfold SWAP_PAGE_SIZE in Hx.
    unfold off_pmm_bitmap, SWAP_PAGE_SIZE. simpl. change (8 / 8) with 1. lia.
  - exists 0. split; [simpl; lia|reflexivity].
  - destruct (Hin s1 Hok1 Hd1 ltac:(done)) as (s3 & f & Hs3 & _ & _ & Hbytes & _).
    + exists 3. assert (total_pages (vm_pmm (sw_vmm s1)) = 8) as Ht.
      { unfold swap_out in Ho. simpl in Ho. injection Ho as <- _. reflexivity. }
      rewrite Ht. split; [lia|]. rewrite Hu1 by (simpl; lia). reflexivity.
    + exists s1, off, s3, f. split; [exact Ho|]. split; [exact Hs3|].
      rewrite Hbytes by (unfold SWAP_PAGE_SIZE; lia). reflexivity.
Defined.

End Swap.
