(* ===== verification/RtMutex.v ===== *)
(** * Priority-inheritance mutexes (src/kernel/sync/rtmutex.c)

    A process that waits for a mutex lends its priority to the owner (a smaller
    number is a higher priority); on release the owner falls back to what the
    mutexes it still holds demand, and the waiter of highest priority is woken.
    The wait lists and the lists of held mutexes are [list.h] lists; waiters
    are nodes on the stacks of the waiting processes. *)
From S2P Require Import Prelude ListHead Store SortedQueue Sched.
Import ListHead Sched.

Module RtMutex.

(** ** State *)

Record rtsys := RtSys {
  rt_sched : sched;
  rt_links : gmap Z list_head;
  owner : Z -> Z;        (** of the mutex at the address *)
  save_state : Z -> Z;
  task : Z -> Z;         (** of the waiter at the address *)
  wlock : Z -> Z
}.

(** [&lock->wait_list], [&lock->held_list_entry] and [&proc->held_locks] *)
Definition wait_list (lock : Z) : Z := lock + 40.
Definition held_list_entry (lock : Z) : Z := lock + 56.
Definition held_locks (proc : Z) : Z := proc + 232.

Definition with_sched (r : rtsys) (s : sched) : rtsys :=
  RtSys s (rt_links r) (owner r) (save_state r) (task r) (wlock r).
Definition with_links (r : rtsys) (l : gmap Z list_head) : rtsys :=
  RtSys (rt_sched r) l (owner r) (save_state r) (task r) (wlock r).
Definition set_owner (r : rtsys) (lock p : Z) : rtsys :=
  RtSys (rt_sched r) (rt_links r) (fupd (owner r) lock p) (save_state r) (task r) (wlock r).
Definition set_waiter (r : rtsys) (w p lock : Z) : rtsys :=
  RtSys (rt_sched r) (rt_links r) (owner r) (save_state r) (fupd (task r) w p) (fupd (wlock r) w lock).

Definition current (r : rtsys) : Z := current_process (rt_sched r).
Definition prio (r : rtsys) (p : Z) : Z := get (rt_sched r) p priority.

(** ** Operations *)

Definition rt_mutex_init (r : rtsys) (lock : Z) : rtsys :=
  let r := set_owner r lock 0 in
  let r := with_links r (INIT_LIST_HEAD (rt_links r) (wait_list lock)) in
  let r := with_links r (INIT_LIST_HEAD (rt_links r) (held_list_entry lock)) in
  RtSys (rt_sched r) (rt_links r) (owner r) (fupd (save_state r) lock 0) (task r) (wlock r).

(** The loop never moves on from [curr]. *)
Definition boost_step (curr boost_prio : Z) : sched * Z -> (sched * Z) + sched :=
  fun '(s, depth) =>
    if negb (curr =? 0) && (depth <? 10) then
      if get s curr priority <=? boost_prio then inr s
      else
        let s := set s curr priority boost_prio in
        if get s curr state =? PROCESS_STATE_BLOCKED then inr s
        else inl (s, depth + 1)
    else inr s.

Definition rt_mutex_adjust_prio_chain (s : sched) (own boost_prio : Z) : option sched :=
  loop 11 (boost_step own boost_prio) (s, 0).

(** The priority the waiters [ws] demand, on top of [best]. *)
Definition demand (r : rtsys) (ws : list Z) (best : Z) : Z :=
  foldl (fun b w => if prio r (task r w) <? b then prio r (task r w) else b) best ws.

(** The outer loop of [rt_mutex_restore_prio], over the held mutexes. *)
Fixpoint demand_locks (fuel : nat) (r : rtsys) (entries : list Z) (best : Z) : option Z :=
  match entries with
  | [] => Some best
  | lptr :: entries =>
      let lock := lptr - 56 in
      empty ← list_empty (rt_links r) (wait_list lock);
      best ← (if (empty : bool) then Some best
              else ws ← list_for_each fuel (rt_links r) (wait_list lock); Some (demand r ws best));
      demand_locks fuel r entries best
  end.

Definition rt_mutex_restore_prio (fuel : nat) (r : rtsys) (own : Z) : option rtsys :=
  if own =? 0 then Some r
  else
    entries ← list_for_each fuel (rt_links r) (held_locks own);
    highest_prio ← demand_locks fuel r entries (get (rt_sched r) own base_priority);
    Some (with_sched r (set (rt_sched r) own priority highest_prio)).

(** [lock->owner = current_process; list_add(...)] *)
Definition take_lock (r : rtsys) (lock : Z) : option rtsys :=
  let r' := set_owner r lock (current r) in
  with_links r' <$> list_add (rt_links r) (held_list_entry lock) (held_locks (current r)).

Inductive lock_outcome := Acquired | Waits.

(** [rt_mutex_lock] up to its waiting loop; [waiter] is the address of the
    local variable. *)
Definition rt_mutex_lock_enter (r : rtsys) (lock waiter : Z) : option (rtsys * lock_outcome) :=
  if owner r lock =? 0 then r ← take_lock r lock; Some (r, Acquired)
  else if owner r lock =? current r then Some (r, Acquired)
  else
    let r := set_waiter r waiter (current r) lock in
    let r := with_links r (INIT_LIST_HEAD (rt_links r) waiter) in
    st ← list_add_tail (rt_links r) waiter (wait_list lock);
    let r := with_links r st in
    let own := owner r lock in
    s ← (if negb (own =? 0) && (prio r (current r) <? prio r own)
         then rt_mutex_adjust_prio_chain (rt_sched r) own (prio r (current r)) else Some (rt_sched r));
    Some (with_sched r s, Waits).

(** The waiting loop: block and give up the CPU, then, awake again, take the
    mutex if it is free. *)
Definition rt_mutex_lock_block (fuel : nat) (r : rtsys) : option rtsys :=
  s ← process_schedule fuel (set (rt_sched r) (current r) state PROCESS_STATE_BLOCKED);
  Some (with_sched r s).

Definition rt_mutex_lock_retry (r : rtsys) (lock waiter : Z) : option (rtsys * lock_outcome) :=
  if owner r lock =? 0 then
    r ← take_lock r lock;
    st ← list_del (rt_links r) waiter;
    Some (with_links r st, Acquired)
  else if owner r lock =? current r then
    st ← list_del (rt_links r) waiter;
    Some (with_links r st, Acquired)
  else Some (r, Waits).

Definition rt_mutex_trylock (r : rtsys) (lock : Z) : option (rtsys * Z) :=
  if owner r lock =? 0 then r ← take_lock r lock; Some (r, 1) else Some (r, 0).

(** The search for the waiter to wake: the first with the smallest number
    below 999. *)
Definition best_waiter (r : rtsys) (ws : list Z) : Z * Z :=
  foldl (fun '(best, best_prio) w =>
    if prio r (task r w) <? best_prio then (w, prio r (task r w)) else (best, best_prio)) (0, 999) ws.

Definition rt_mutex_unlock (fuel : nat) (r : rtsys) (lock : Z) : option rtsys :=
  let cur := current r in
  if negb (owner r lock =? cur) then Some r
  else
    st ← list_del (rt_links r) (held_list_entry lock);
    let r := set_owner (with_links r st) lock 0 in
    r ← (if negb (prio r cur =? get (rt_sched r) cur base_priority) then rt_mutex_restore_prio fuel r cur else Some r);
    empty ← list_empty (rt_links r) (wait_list lock);
    if (empty : bool) then Some r
    else
      ws ← list_for_each fuel (rt_links r) (wait_list lock);
      let best := fst (best_waiter r ws) in
      if best =? 0 then Some r
      else
        let s := set (rt_sched r) (task r best) state PROCESS_STATE_READY in
        s ← enqueue_process fuel s (task r best);
        Some (with_sched r s).


(** ** Priorities *)

(** [v] is the least of [b] and [ps]. *)
Definition least_of (b : Z) (ps : list Z) (v : Z) : Prop := v ∈ b :: ps /\ Forall (Z.le v) (b :: ps).

Definition prios (r : rtsys) (ws : list Z) : list Z := (fun w => prio r (task r w)) <$> ws.

Lemma least_of_app b ps ps' u v : least_of b ps u -> least_of u ps' v -> least_of b (ps ++ ps') v.
Proof.
  unfold least_of. intros [H1 H2] [H3 H4]. apply Forall_cons in H4 as [H4 H5]. split; [set_solver|].
  apply Forall_cons in H2 as [H2 H2']. constructor; [lia|]. apply Forall_app. split; [|done].
  eapply Forall_impl; [exact H2'|]. simpl. lia.
Qed.

Lemma demand_least r ws b : least_of b (prios r ws) (demand r ws b).
Proof.
  unfold demand. revert b. induction ws as [|w ws IH]; intros b; cbn [foldl prios fmap list_fmap].
  - split; [set_solver|]. repeat constructor. lia.
  - specialize (IH (if prio r (task r w) <? b then prio r (task r w) else b)).
    apply (least_of_app b [prio r (task r w)] (prios r ws)) in IH; [exact IH|].
    destruct (Z.ltb_spec (prio r (task r w)) b); (split; [set_solver|]; repeat constructor; lia).
Qed.

Lemma demand_locks_spec fuel r (W : Z -> list Z) L b :
  (forall lk, lk ∈ L -> dlist (rt_links r) (wait_list lk) (W lk) /\ (length (W lk) < fuel)%nat) ->
  exists v, demand_locks fuel r (held_list_entry <$> L) b = Some v /\ least_of b (prios r (mjoin (W <$> L))) v.
Proof.
  revert b. induction L as [|lk L IH]; intros b HW.
  - exists b. split; [done|]. split; [set_solver|]. repeat constructor. lia.
  - destruct (HW lk ltac:(set_solver)) as [Hd Hf]. cbn [fmap list_fmap demand_locks mjoin list_join].
    replace (held_list_entry lk - 56) with lk by (unfold held_list_entry; lia).
    rewrite (list_empty_dlist _ _ _ Hd). cbn [mbind option_bind].
    assert (exists u, (if bool_decide (W lk = []) then Some b
              else ws ← list_for_each fuel (rt_links r) (wait_list lk); Some (demand r ws b)) = Some u /\
            least_of b (prios r (W lk)) u) as (u & -> & Hu).
    { destruct (bool_decide_reflect (W lk = [])) as [->|Hne].
      - exists b. split; [done|]. split; [set_solver|]. repeat constructor. lia.
      - rewrite (list_for_each_fuel _ _ _ fuel Hd Hf). cbn [mbind option_bind].
        exists (demand r (W lk) b). split; [done|apply demand_least]. }
    cbn [mbind option_bind]. destruct (IH u) as (v & -> & Hv); [intros; apply HW; set_solver|].
    exists v. split; [done|]. unfold prios in *. rewrite fmap_app. by apply (least_of_app b _ _ u).
Qed.

(** The waiter found is the first of highest priority. *)
Lemma best_waiter_spec r ws :
  ws <> [] -> Forall (fun w => prio r (task r w) < 999) ws ->
  exists w1 w w2, ws = w1 ++ w :: w2 /\ fst (best_waiter r ws) = w /\
    Forall (fun x => prio r (task r w) < prio r (task r x)) w1 /\
    Forall (fun x => prio r (task r w) <= prio r (task r x)) w2.
Proof.
  set (p w := prio r (task r w)).
  assert (forall ws l best bp, Forall (fun w => p w < 999) ws ->
    (l = [] /\ best = 0 /\ bp = 999 \/
     exists w1 w2, l = w1 ++ best :: w2 /\ bp = p best /\ Forall (fun x => p best < p x) w1 /\ Forall (fun x => p best <= p x) w2) ->
    l ++ ws <> [] ->
    exists w1 w w2, l ++ ws = w1 ++ w :: w2 /\
      fst (foldl (fun '(best, best_prio) w => if p w <? best_prio then (w, p w) else (best, best_prio)) (best, bp) ws) = w /\
      Forall (fun x => p w < p x) w1 /\ Forall (fun x => p w <= p x) w2) as Hgen.
  { clear ws. induction ws as [|w ws IH]; intros l best bp Hlt Hinv Hne.
    - rewrite app_nil_r in *. destruct Hinv as [(-> & _)|(w1 & w2 & -> & _ & H1 & H2)]; [done|]. by exists w1, best, w2.
    - apply Forall_cons in Hlt as [Hw Hlt]. cbn [foldl].
      replace (l ++ w :: ws) with ((l ++ [w]) ++ ws) in * by (by rewrite <- app_assoc).
      destruct (Z.ltb_spec (p w) bp) as [Hb|Hb].
      + apply IH; [done| |done]. right. exists l, []. split; [done|]. split; [done|]. split; [|done].
        destruct Hinv as [(-> & _)|(w1 & w2 & -> & -> & H1 & H2)]; [done|].
        apply Forall_app. split; [eapply Forall_impl; [exact H1|]; simpl; lia|].
        constructor; [done|]. eapply Forall_impl; [exact H2|]. simpl. lia.
      + apply IH; [done| |done]. right. destruct Hinv as [(_ & _ & ->)|(w1 & w2 & -> & -> & H1 & H2)]; [lia|].
        exists w1, (w2 ++ [w]). rewrite <- app_assoc. split; [done|]. split; [done|]. split; [done|].
        apply Forall_app. split; [done|]. repeat constructor. done. }
  intros Hne Hlt. apply (Hgen ws [] 0 999 Hlt); [by left|done].
Qed.

Lemma boost_spec s own p :
  own <> 0 ->
  rt_mutex_adjust_prio_chain s own p = Some (if get s own priority <=? p then s else set s own priority p).
Proof.
  intros Ho. unfold rt_mutex_adjust_prio_chain. 
  assert (forall n x, loop (S n) (boost_step own p) x =
    match boost_step own p x with inl y => loop n (boost_step own p) y | inr r => Some r end) as HS by done.
  rewrite HS. unfold boost_step at 1. rewrite (proj2 (Z.eqb_neq _ _) Ho). cbn [negb andb].
  change (0 <? 10) with true. cbv iota. destruct (get s own priority <=? p); [done|].
  destruct (get (set s own priority p) own state =? PROCESS_STATE_BLOCKED); [done|].
  rewrite HS. unfold boost_step at 1. rewrite (proj2 (Z.eqb_neq _ _) Ho). cbn [negb andb].
  change (0 + 1 <? 10) with true. cbv iota.
  assert (get (set s own priority p) own priority = p) as -> by (unfold get; simpl; by rewrite wr_same).
  by rewrite Z.leb_refl.
Qed.


(** ** Held mutexes *)

(** [p] holds the mutexes [L]; [W lk] are the waiters of [lk].  The wait lists
    share no node with the list of held mutexes. *)
Record held_ok (r : rtsys) (p : Z) (L : list Z) (W : Z -> list Z) : Prop := {
  ho_held : dlist (rt_links r) (held_locks p) (held_list_entry <$> L);
  ho_wait : forall lk, lk ∈ L -> dlist (rt_links r) (wait_list lk) (W lk);
  ho_apart : forall lk x, lk ∈ L -> x ∈ wait_list lk :: W lk -> x ∉ held_locks p :: (held_list_entry <$> L)
}.

(** The waiters of a mutex can be woken: their processes are not queued
    anywhere, are not the owner, and have a priority below 999. *)
Definition waiters_ok (r : rtsys) (p : Z) (q : Z -> list Z) (ws : list Z) : Prop :=
  forall w, w ∈ ws -> w <> 0 /\ task r w <> 0 /\ task r w <> p /\ prio r (task r w) < 999 /\
    unqueued q (task r w) /\ has_class (rt_sched r) (task r w).

Lemma release_links r p L1 lock L2 W :
  held_ok r p (L1 ++ lock :: L2) W ->
  exists st, list_del (rt_links r) (held_list_entry lock) = Some st /\
    dlist st (held_locks p) (held_list_entry <$> L1 ++ L2) /\
    forall lk, lk ∈ L1 ++ lock :: L2 -> dlist st (wait_list lk) (W lk).
Proof.
  intros [Hd Hw Hap]. rewrite fmap_app in Hd. cbn [fmap list_fmap] in Hd.
  destruct (list_del_dlist _ _ _ _ _ Hd) as (st & Hst & Hd' & _ & Hfr). exists st. split; [done|].
  split; [by rewrite fmap_app|]. intros lk Hlk. apply (dlist_ext (rt_links r)); [|by apply Hw].
  intros x Hx. apply Hfr. specialize (Hap lk x Hlk Hx). rewrite fmap_app in Hap. exact Hap.
Qed.

Lemma held_ok_links r r' p L W : rt_links r' = rt_links r -> held_ok r p L W -> held_ok r' p L W.
Proof. intros E [H1 H2 H3]. split; by rewrite ?E. Qed.

(** Two states that differ in the priority of [p] at most. *)
Record only_prio (r r' : rtsys) (p : Z) : Prop := {
  op_links : rt_links r' = rt_links r;
  op_owner : owner r' = owner r;
  op_task : task r' = task r;
  op_get : forall x f, x <> p \/ f <> priority -> get (rt_sched r') x f = get (rt_sched r) x f;
  op_queues : forall q, queues_ok (rt_sched r) q -> queues_ok (rt_sched r') q;
  op_current : current r' = current r
}.

(** The priority falls back, nothing else changes. *)
Lemma fall_back_spec fuel r p L W :
  p <> 0 -> held_ok r p L W -> (length L < fuel)%nat -> (forall lk, lk ∈ L -> (length (W lk) < fuel)%nat) ->
  let b := get (rt_sched r) p base_priority in
  exists r', (if negb (prio r p =? b) then rt_mutex_restore_prio fuel r p else Some r) = Some r' /\ only_prio r r' p /\
    (prio r p = b -> prio r' p = b) /\ (prio r p <> b -> least_of b (prios r (mjoin (W <$> L))) (prio r' p)).
Proof.
  intros Hp [Hd Hw _] Hf1 Hf2 b. destruct (Z.eqb_spec (prio r p) b) as [E|E]; cbn [negb].
  - exists r. by split_and!.
  - unfold rt_mutex_restore_prio. rewrite (proj2 (Z.eqb_neq p 0)) by done.
    rewrite (list_for_each_fuel _ _ _ fuel Hd) by (by rewrite length_fmap). cbn [mbind option_bind].
    fold b. destruct (demand_locks_spec fuel r W L b) as (v & -> & Hv); [intros lk Hlk; split; [by apply Hw|by apply Hf2]|].
    eexists. split; [done|]. split; [|split; [done|]].
    + split; try done; [|intros q Hq; by apply queues_ok_set].
      intros x f Hx. unfold get. simpl. apply wr_other. naive_solver.
    + intros _. unfold prio at 1, get. simpl. by rewrite wr_same.
Qed.

(** Where a process is queued depends on its class and priority, and on the
    virtual run times. *)
Lemma enq_same s s' q p :
  get s' p sched_class = get s p sched_class -> get s' p priority = get s p priority ->
  (forall x, get s' x vruntime = get s x vruntime) -> enq s' q p = enq s q p.
Proof. intros E1 E2 E3. unfold enq. rewrite E1, E2. by rewrite (insert_vr_ext _ _ p (q 4%Z) E3). Qed.

(** Waking the best waiter. *)
Lemma wake_best_spec fuel r q ws h :
  dlist (rt_links r) h ws -> ws <> [] -> queues_ok (rt_sched r) q -> (length ws < fuel)%nat -> (length (q 4%Z) < fuel)%nat ->
  (forall w, w ∈ ws -> w <> 0 /\ task r w <> 0 /\ prio r (task r w) < 999 /\
     unqueued q (task r w) /\ has_class (rt_sched r) (task r w)) ->
  exists w1 w w2 s', ws = w1 ++ w :: w2 /\
    Forall (fun x => prio r (task r w) < prio r (task r x)) w1 /\
    Forall (fun x => prio r (task r w) <= prio r (task r x)) w2 /\
    fst (best_waiter r ws) = w /\ w <> 0 /\
    enqueue_process fuel (set (rt_sched r) (task r w) state PROCESS_STATE_READY) (task r w) = Some s' /\
    queues_ok s' (enq (rt_sched r) q (task r w)) /\
    (forall x f, f <> next_ready -> f <> state -> get s' x f = get (rt_sched r) x f) /\
    get s' (task r w) state = PROCESS_STATE_READY.
Proof.
  intros Hd Hne Hq Hf1 Hf2 Hok.
  destruct (best_waiter_spec r ws Hne) as (w1 & w & w2 & -> & Hb & H1 & H2).
  { apply Forall_forall. intros w Hw. by apply Hok. }
  destruct (Hok w ltac:(set_solver)) as (Hw0 & Ht0 & _ & Hun & Hc).
  set (s1 := set (rt_sched r) (task r w) state PROCESS_STATE_READY).
  assert (get s1 (task r w) state = PROCESS_STATE_READY) as Hst by (unfold get, s1; simpl; by rewrite wr_same).
  assert (forall x f, f <> state -> get s1 x f = get (rt_sched r) x f) as Hget.
  { intros x f Hf. unfold get, s1. simpl. apply wr_other. by right. }
  destruct (enqueue_process_ok s1 q (task r w) fuel) as (s' & He & Hq' & [Hsd _] & Hss); try done.
  { by apply queues_ok_set. }
  { unfold has_class. by rewrite !Hget by done. }
  exists w1, w, w2, s'. split; [done|]. split; [done|]. split; [done|]. split; [done|]. split; [done|]. split; [done|].
  split; [|split].
  - rewrite <- (enq_same (rt_sched r) s1); [done|by apply Hget..|intros; by apply Hget].
  - intros x f Hf1' Hf2'. rewrite Hsd by done. by apply Hget.
  - by rewrite Hss.
Qed.

(** ** Release *)

(** C39: releasing a mutex the current process owns clears its owner and takes
    it out of the list of held mutexes, the others and every wait list staying
    as they are; a boosted process falls back to the smallest number among its
    base priority and the priorities of all waiters of the mutexes it still
    holds; if the released mutex has waiters, the first one of highest priority
    becomes ready and is queued by its scheduling class, otherwise no run queue
    changes. *)
Theorem rt_mutex_unlock_correct fuel r q L1 lock L2 W :
  let p := current r in
  let b := get (rt_sched r) p base_priority in
  p <> 0 -> owner r lock = p -> held_ok r p (L1 ++ lock :: L2) W ->
  queues_ok (rt_sched r) q -> waiters_ok r p q (W lock) ->
  (length (L1 ++ lock :: L2) < fuel)%nat -> (forall lk, lk ∈ L1 ++ lock :: L2 -> (length (W lk) < fuel)%nat) ->
  (length (q 4%Z) < fuel)%nat ->
  exists r', rt_mutex_unlock fuel r lock = Some r' /\ owner r' = fupd (owner r) lock 0 /\
    held_ok r' p (L1 ++ L2) W /\ dlist (rt_links r') (wait_list lock) (W lock) /\
    (prio r p = b -> prio r' p = b) /\
    (prio r p <> b -> least_of b (prios r (mjoin (W <$> L1 ++ L2))) (prio r' p)) /\
    (W lock = [] -> queues_ok (rt_sched r') q) /\
    (W lock <> [] -> exists w1 w w2, W lock = w1 ++ w :: w2 /\
       Forall (fun x => prio r (task r w) < prio r (task r x)) w1 /\
       Forall (fun x => prio r (task r w) <= prio r (task r x)) w2 /\
       queues_ok (rt_sched r') (enq (rt_sched r) q (task r w)) /\
       get (rt_sched r') (task r w) state = PROCESS_STATE_READY).
Proof.
  intros p b Hp Ho Hh Hq Hwt Hf1 Hf2 Hf3. unfold rt_mutex_unlock. fold p. rewrite Ho, Z.eqb_refl. cbn [negb].
  destruct (release_links _ _ _ _ _ _ Hh) as (st & Hst & Hd' & Hw'). rewrite Hst. cbn [mbind option_bind].
  set (r1 := set_owner (with_links r st) lock 0).
  assert (held_ok r1 p (L1 ++ L2) W) as Hh1.
  { destruct Hh as [_ _ Hap]. split; [exact Hd'|intros lk Hlk; apply Hw'; set_solver|].
    intros lk x Hlk Hx. specialize (Hap lk x ltac:(set_solver) Hx). set_solver. }
  destruct (fall_back_spec fuel r1 p (L1 ++ L2) W Hp Hh1) as (r2 & Hr2 & Hop & Hp1 & Hp2).
  { rewrite length_app in *. simpl in *. lia. }
  { intros lk Hlk. apply Hf2. set_solver. }
  change (get (rt_sched r1) p base_priority) with b in *. rewrite Hr2. cbn [mbind option_bind].
  destruct Hop as [Hl2 Ho2 Ht2 Hg2 Hq2 _].
  assert (dlist (rt_links r2) (wait_list lock) (W lock)) as Hdw by (rewrite Hl2; apply Hw'; set_solver).
  rewrite (list_empty_dlist _ _ _ Hdw). cbn [mbind option_bind].
  destruct (bool_decide_reflect (W lock = [])) as [HW|HW].
  { exists r2. split_and!; try done; [by apply (held_ok_links r1)|by intros _; apply Hq2]. }
  rewrite (list_for_each_fuel _ _ _ fuel Hdw) by (apply Hf2; set_solver). cbn [mbind option_bind].
  assert (forall w, w ∈ W lock -> prio r2 (task r2 w) = prio r (task r w)) as Hpr.
  { intros w Hw. unfold prio. rewrite Ht2. apply Hg2. left. apply (Hwt w Hw). }
  destruct (wake_best_spec fuel r2 q (W lock) (wait_list lock)) as (w1 & w & w2 & s' & E & Hb1 & Hb2 & Hbw & Hw0 & Hen & Hq' & Hg & Hst');
    try done; [by apply Hq2|apply Hf2; set_solver| |].
  { intros w Hw. rewrite Hpr by done. destruct (Hwt w Hw) as (H1 & H2 & H3 & H4 & H5 & H6). rewrite Ht2.
    split_and!; try done. unfold has_class. by rewrite Hg2 by auto. }
  rewrite Hbw, (proj2 (Z.eqb_neq _ _) Hw0), Hen. cbn [mbind option_bind]. eexists. split; [done|].
  split; [exact Ho2|]. split; [by apply (held_ok_links r1)|]. split; [exact Hdw|].
  assert (prio (with_sched r2 s') p = prio r2 p) as -> by (by apply Hg).
  split; [exact Hp1|]. split; [exact Hp2|]. split; [done|]. intros _.
  assert (w ∈ W lock) as Hw by (rewrite E, elem_of_app, elem_of_cons; auto).
  exists w1, w, w2. split; [done|]. rewrite Hpr in Hb1, Hb2 by done. rewrite Ht2 in *.
  split; [|split; [|split; [|exact Hst']]].
  - apply Forall_forall. intros x Hx. rewrite Forall_forall in Hb1. rewrite <- (Hpr x); [by apply Hb1|rewrite E, elem_of_app, elem_of_cons; auto].
  - apply Forall_forall. intros x Hx. rewrite Forall_forall in Hb2. rewrite <- (Hpr x); [by apply Hb2|rewrite E, elem_of_app, elem_of_cons; auto].
  - destruct (Hwt w Hw) as (_ & _ & Hne & _). simpl.
    rewrite <- (enq_same (rt_sched r) (rt_sched r2)); [done|apply Hg2; by right|apply Hg2; by left|].
    intros x. apply Hg2. by right.
Qed.


(** ** A concrete system

    The running process 100, of base priority 3, holds the mutexes 10000 and
    11000 and runs at priority 1: 700 and 800, of priorities 2 and 1, wait for
    the first, 900, of priority 2, for the second. *)

Definition demo_rt_st : store pfld := fun p f =>
  match f with
  | priority => if p =? 100 then 1 else if (p =? 700) || (p =? 900) then 2 else if p =? 800 then 1 else 0
  | base_priority => 3
  | state => if (p =? 700) || (p =? 800) || (p =? 900) then PROCESS_STATE_BLOCKED else demo_st p state
  | f => demo_st p f
  end.

Definition demo_rt_sched : sched :=
  Sched demo_rt_st (fun i => if i =? 0 then 200 else 0) (fun i => if i =? 0 then 200 else 0) 400 300 100 100 7 7.

Definition demo_rt : rtsys :=
  RtSys demo_rt_sched
    (list_to_map
       [(332, LH 10056 11056); (10056, LH 11056 332); (11056, LH 332 10056);
        (10040, LH 5000 5100); (5000, LH 5100 10040); (5100, LH 10040 5000);
        (11040, LH 5200 5200); (5200, LH 11040 11040)])
    (fun l => if (l =? 10000) || (l =? 11000) then 100 else 0) (fun _ => 0)
    (fun w => if w =? 5000 then 700 else if w =? 5100 then 800 else 900)
    (fun w => if w =? 5200 then 11000 else 10000).

Definition demo_waiters (lk : Z) : list Z := if lk =? 10000 then [5000; 5100] else [5200].

Lemma demo_rt_queues : queues_ok demo_rt_sched demo_q.
Proof.
  split.
  - intros i Hi. six_cases i; vm_compute; repeat split; discriminate.
  - intros i Hi. six_cases i; try reflexivity; lia.
  - apply (qo_disj _ _ demo_queues).
Qed.

Lemma demo_rt_held : held_ok demo_rt 100 [10000; 11000] demo_waiters.
Proof.
  split.
  - split; [vm_compute; done|]. vm_compute. repeat constructor; set_solver.
  - intros lk Hlk. assert (lk = 10000 \/ lk = 11000) as [-> | ->] by set_solver;
      (split; [vm_compute; done|]; vm_compute; repeat constructor; set_solver).
  - intros lk x Hlk. assert (lk = 10000 \/ lk = 11000) as [-> | ->] by set_solver; vm_compute; set_solver.
Qed.

Lemma demo_waiters_ok : waiters_ok demo_rt 100 demo_q [5000; 5100].
Proof.
  intros w Hw. assert (w = 5000 \/ w = 5100) as [-> | ->] by set_solver;
    (split; [done|]; split; [done|]; split; [done|]; split; [reflexivity|];
     split; [intros i Hi; six_cases i; vm_compute; set_solver|by left]).
Qed.

Lemma rt_mutex_unlock_correct_witness :
  exists r', rt_mutex_unlock 5 demo_rt 10000 = Some r' /\ prio r' 100 = 2 /\
    get (rt_sched r') 800 state = PROCESS_STATE_READY.
Proof.
  destruct (rt_mutex_unlock_correct 5 demo_rt demo_q [] 10000 [11000] demo_waiters)
    as (r' & Hr & _ & _ & _ & _ & Hp & _ & Hw).
  - done.
  - reflexivity.
  - exact demo_rt_held.
  - exact demo_rt_queues.
  - exact demo_waiters_ok.
  - simpl. lia.
  - intros lk Hlk. assert (lk = 10000 \/ lk = 11000) as [-> | ->] by set_solver; simpl; lia.
  - simpl. lia.
  - exists r'. split; [done|]. split.
    + destruct Hp as [H1 H2]; [vm_compute; discriminate|].
      change (prios _ _) with [2] in *. change (get _ _ base_priority) with 3 in *.
      apply Forall_cons in H2 as [_ H2]. apply Forall_cons in H2 as [H2 _]. set_unfold. change (current demo_rt) with 100 in *. lia.
    + destruct Hw as (w1 & w & w2 & E & H1 & H2 & _ & Hst); [discriminate|].
      change (demo_waiters 10000) with [5000; 5100] in E.
      destruct w1 as [|x1 [|x2 w1]]; simplify_eq/=; [|done|by destruct w1].
      apply Forall_cons in H2 as [H2 _]. by vm_compute in H2.
Defined.

End RtMutex.
