(* ===== verification/Msg.v ===== *)
(** * System V style message queues (src/kernel/ipc/msg.c)

    The queues form a list in kernel memory, each with its own list of
    entries; an entry and a queue are heap blocks, their mutexes and the
    condition variable on which receivers wait are those of [WaitQueue].  The
    links, types and sizes are structure fields, the message texts and the
    caller's buffer are bytes of memory, moved by [memcpy].

    A call that finds a mutex taken, or a receiver that finds no message,
    stops at its blocking point: it goes on with [sleep_on] and tries again. *)
From S2P Require Import Prelude Memory CString Allocator Spinlock Heap Store Sched WaitQueue.
Import CString Sched WaitQueue.

Module Msg.

Definition MSG_SIZE : Z := 1024.

Inductive mfld := e_type | e_size | e_next | q_id | q_key | q_head | q_tail | q_count | q_next.
#[export] Instance mfld_eq_dec : EqDecision mfld.
Proof. solve_decision. Defined.

Definition sizeof_entry : Z := 1048.
Definition sizeof_queue : Z := 184.

(** [entry->data], [&q->lock], [&q->cond_recv] *)
Definition e_data (entry : Z) : Z := entry + 8.
Definition q_lock (q : Z) : Z := q + 8.
Definition q_cond (q : Z) : Z := q + 104.

Definition s64 (x : Z) : Z := (x + 2 ^ 63) mod 2 ^ 64 - 2 ^ 63.

Section msg.
Context {A : Type} `{Allocator A}.
(** The address of the static mutex. *)
Variable queues_lock : Z.

Record msys := MS {
  ms_heap : A; ms_st : store mfld; ms_mem : mem; queues : Z; next_id : Z; ms_w : wsys
}.

Definition mget (s : msys) (a : Z) (f : mfld) : Z := ms_st s a f.
Definition mset (s : msys) (a : Z) (f : mfld) (v : Z) : msys :=
  MS (ms_heap s) (wr (ms_st s) a f v) (ms_mem s) (queues s) (next_id s) (ms_w s).
Definition with_heap (s : msys) (h : A) : msys := MS h (ms_st s) (ms_mem s) (queues s) (next_id s) (ms_w s).
Definition with_mem (s : msys) (m : mem) : msys := MS (ms_heap s) (ms_st s) m (queues s) (next_id s) (ms_w s).
Definition with_w (s : msys) (w : wsys) : msys := MS (ms_heap s) (ms_st s) (ms_mem s) (queues s) (next_id s) w.
Definition me (s : msys) : Z := current_process (w_sched (ms_w s)).

(** ** Operations *)

Definition msg_init (s : msys) : msys := with_w s (mutex_init (ms_w s) queues_lock).

(** The walks over the list of queues. *)
Definition find_queue_step (s : msys) (f : mfld) (v : Z) : Z -> Z + Z :=
  fun q => if q =? 0 then inr 0 else if mget s q f =? v then inr q else inl (mget s q q_next).

Definition find_queue (fuel : nat) (s : msys) (id : Z) : option Z := loop fuel (find_queue_step s q_id id) (queues s).
Definition find_queue_key (fuel : nat) (s : msys) (key : Z) : option Z :=
  loop fuel (find_queue_step s q_key key) (queues s).

Definition lock (fuel : nat) (s : msys) (mutex : Z) : option (msys * bool) :=
  '(w, got) ← mutex_try fuel (ms_w s) mutex (me s); Some (with_w s w, got).
Definition unlock (fuel : nat) (s : msys) (mutex : Z) : option msys :=
  with_w s <$> mutex_unlock fuel (ms_w s) mutex (me s).

(** The new queue at [q]; [next_id++] is [int] arithmetic. *)
Definition new_queue (s : msys) (q key : Z) : msys :=
  let s := mset s q q_id (next_id s) in
  let s := MS (ms_heap s) (ms_st s) (ms_mem s) (queues s) (s32 (next_id s + 1)) (ms_w s) in
  let s := mset s q q_key key in
  let s := with_w s (mutex_init (ms_w s) (q_lock q)) in
  let s := with_w s (cond_init (ms_w s) (q_cond q)) in
  let s := mset s q q_head 0 in
  let s := mset s q q_tail 0 in
  let s := mset s q q_count 0 in
  let s := mset s q q_next (queues s) in
  MS (ms_heap s) (ms_st s) (ms_mem s) q (next_id s) (ms_w s).

Definition sys_msgget (fuel : nat) (s : msys) (key : Z) : option (msys * outcome) :=
  '(s, got) ← lock fuel s queues_lock;
  if negb got then Some (s, Sleeps (mutex_wait_q queues_lock))
  else
    q ← find_queue_key fuel s key;
    if negb (q =? 0) then
      s ← unlock fuel s queues_lock; Some (s, Ret (mget s q q_id))
    else
      '(h, q) ← a_alloc (ms_heap s) sizeof_queue;
      let s := with_heap s h in
      if q =? 0 then s ← unlock fuel s queues_lock; Some (s, Ret (-1))
      else
        s ← unlock fuel (new_queue s q key) queues_lock; Some (s, Ret (mget s q q_id)).

(** The entry is filled in and linked at the end of the queue. *)
Definition append_entry (s : msys) (q entry msgp msgsz : Z) : msys :=
  let s := mset s entry e_type (s64 (load64 (ms_mem s) msgp)) in
  let s := mset s entry e_size msgsz in
  let s := with_mem s (memcpy (ms_mem s) (e_data entry) (msgp + 8) (u64 msgsz)) in
  let s := mset s entry e_next 0 in
  let s := if negb (mget s q q_tail =? 0) then
             let s := mset s (mget s q q_tail) e_next entry in mset s q q_tail entry
           else
             let s := mset s q q_head entry in mset s q q_tail entry in
  mset s q q_count (s32 (mget s q q_count + 1)).

Definition sys_msgsnd (fuel : nat) (s : msys) (msqid msgp msgsz : Z) : option (msys * outcome) :=
  if MSG_SIZE <? msgsz then Some (s, Ret (-1))
  else
    '(s, got) ← lock fuel s queues_lock;
    if negb got then Some (s, Sleeps (mutex_wait_q queues_lock))
    else
      q ← find_queue fuel s msqid;
      s ← unlock fuel s queues_lock;
      if q =? 0 then Some (s, Ret (-1))
      else
        '(s, got) ← lock fuel s (q_lock q);
        if negb got then Some (s, Sleeps (mutex_wait_q (q_lock q)))
        else
          '(h, entry) ← a_alloc (ms_heap s) sizeof_entry;
          let s := with_heap s h in
          if entry =? 0 then s ← unlock fuel s (q_lock q); Some (s, Ret (-1))
          else
            let s := append_entry s q entry msgp msgsz in
            w ← cond_broadcast fuel (ms_w s) (q_cond q);
            s ← unlock fuel (with_w s w) (q_lock q);
            Some (s, Ret 0).

(** The search for an entry of the wanted type: [prev] and [match]. *)
Definition match_step (s : msys) (msgtyp : Z) : Z * Z -> (Z * Z) + (Z * Z) :=
  fun '(pr, curr) =>
    if curr =? 0 then inr (pr, 0)
    else if (msgtyp =? 0) || (mget s curr e_type =? msgtyp) then inr (pr, curr)
    else inl (curr, mget s curr e_next).

(** Unlinking [m], which follows [prev]. *)
Definition unlink (s : msys) (q prev m : Z) : msys :=
  let s := if negb (prev =? 0) then
             let s := mset s prev e_next (mget s m e_next) in
             if m =? mget s q q_tail then mset s q q_tail prev else s
           else
             let s := mset s q q_head (mget s m e_next) in
             if mget s q q_head =? 0 then mset s q q_tail 0 else s in
  mset s q q_count (s32 (mget s q q_count - 1)).

(** The message goes to the caller's buffer and its entry back to the heap. *)
Definition deliver_msg (s : msys) (m msgp msgsz : Z) : option (msys * Z) :=
  let copy_len := if msgsz <? mget s m e_size then msgsz else mget s m e_size in
  let s := with_mem s (store64 (ms_mem s) msgp (mget s m e_type)) in
  let s := with_mem s (memcpy (ms_mem s) (msgp + 8) (e_data m) (u64 copy_len)) in
  h ← a_free (ms_heap s) m;
  Some (with_heap s h, copy_len).

(** One round of the receive loop, the queue locked; without a matching entry
    [cond_wait] releases the mutex and sleeps. *)
Definition receive_round (fuel : nat) (s : msys) (q msgp msgsz msgtyp : Z) : option (msys * outcome) :=
  '(pr, m) ← loop fuel (match_step s msgtyp) (0, mget s q q_head);
  if negb (m =? 0) then
    '(s, copy_len) ← deliver_msg (unlink s q pr m) m msgp msgsz;
    s ← unlock fuel s (q_lock q);
    Some (s, Ret copy_len)
  else
    s ← unlock fuel s (q_lock q);
    Some (s, Sleeps (q_cond q)).

Definition sys_msgrcv (fuel : nat) (s : msys) (msqid msgp msgsz msgtyp : Z) : option (msys * outcome) :=
  '(s, got) ← lock fuel s queues_lock;
  if negb got then Some (s, Sleeps (mutex_wait_q queues_lock))
  else
    q ← find_queue fuel s msqid;
    s ← unlock fuel s queues_lock;
    if q =? 0 then Some (s, Ret (-1))
    else
      '(s, got) ← lock fuel s (q_lock q);
      if negb got then Some (s, Sleeps (mutex_wait_q (q_lock q)))
      else receive_round fuel s q msgp msgsz msgtyp.


(** ** Representation *)

(** A queue: its address, identifier and key, and its messages in order, each
    the address of its entry with the type and the text. *)
Definition msg : Type := Z * list Z.
Record mq := MQ { mq_addr : Z; mq_ident : Z; mq_ckey : Z; mq_msgs : list (Z * msg) }.

Definition entries (Q : mq) : list Z := (mq_msgs Q).*1.

Definition entry_ok (s : msys) (e : Z) (m : msg) : Prop :=
  mget s e e_type = fst m /\ mget s e e_size = Z.of_nat (length (snd m)) /\
  Z.of_nat (length (snd m)) <= MSG_SIZE /\ bytes_at (ms_mem s) (e_data e) (length (snd m)) = snd m /\
  exists t, sizeof_entry <= t /\ a_live (ms_heap s) e t.

Record queue_ok (s : msys) (Q : mq) : Prop := {
  qo_id : mget s (mq_addr Q) q_id = mq_ident Q;
  qo_key : mget s (mq_addr Q) q_key = mq_ckey Q;
  qo_entries : slist (ms_st s) e_next (mget s (mq_addr Q) q_head) (entries Q);
  qo_tail : mget s (mq_addr Q) q_tail = lastp (entries Q);
  qo_count : mget s (mq_addr Q) q_count = s32 (Z.of_nat (length (mq_msgs Q)));
  qo_msgs : Forall (fun em => entry_ok s (fst em) (snd em)) (mq_msgs Q);
  qo_live : exists t, sizeof_queue <= t /\ a_live (ms_heap s) (mq_addr Q) t;
  qo_lock : mq_addr Q + sizeof_queue <= queues_lock \/ queues_lock + 96 <= mq_addr Q
}.

Record sys_ok (s : msys) (QS : list mq) : Prop := {
  so_wf : a_wf (ms_heap s);
  so_mem : mem_ok (ms_mem s);
  so_list : slist (ms_st s) q_next (queues s) (mq_addr <$> QS);
  so_queues : Forall (queue_ok s) QS;
  so_entries : NoDup (QS ≫= entries);
  so_apart : forall e, e ∈ QS ≫= entries -> e ∉ mq_addr <$> QS;
  so_ids : NoDup (mq_ident <$> QS);
  so_keys : NoDup (mq_ckey <$> QS);
  so_next : Forall (fun Q => 0 < mq_ident Q < next_id s) QS
}.

(** What a queue depends on. *)
Lemma queue_ok_ext s s' Q :
  (forall f, mget s' (mq_addr Q) f = mget s (mq_addr Q) f) ->
  (forall e f, e ∈ entries Q -> mget s' e f = mget s e f) ->
  (forall e x, e ∈ entries Q -> e_data e <= x < e_data e + MSG_SIZE -> ms_mem s' x = ms_mem s x) ->
  (forall a t, a ∈ mq_addr Q :: entries Q -> a_live (ms_heap s) a t -> a_live (ms_heap s') a t) ->
  queue_ok s Q -> queue_ok s' Q.
Proof.
  intros Hq He Hm Hl [H1 H2 H3 H4 H5 H6 (t & Ht & Hlq) H8]. split; rewrite ?Hq; try done.
  - eapply slist_ext; [|exact H3]. intros x Hx. by apply He.
  - rewrite Forall_forall in *. intros [e [ty tx]] Hin. destruct (H6 _ Hin) as (E1 & E2 & E3 & E4 & u & Hu & Hlu). simpl in *.
    assert (e ∈ entries Q) as Hin' by (apply (list_elem_of_fmap_2 fst) in Hin; exact Hin).
    split; [by rewrite He|]. split; [by rewrite He|]. split; [done|]. split; [|exists u; split; [done|]; apply Hl; [set_solver|done]].
    rewrite <- E4 at 2. apply list_fmap_ext. intros i x Hx. apply lookup_seq in Hx as [-> Hx].
    apply (Hm e); [done|]. unfold MSG_SIZE in *. simpl. lia.
  - exists t. split; [done|]. apply Hl; [set_solver|done].
Qed.

Lemma sys_ok_w s QS w : sys_ok s QS -> sys_ok (with_w s w) QS.
Proof. intros [H1 H2 H3 H4 H5 H6 H7 H8 H9]. split; try done. eapply Forall_impl; [exact H4|]. intros Q HQ. by apply (queue_ok_ext s). Qed.

(** Allocation keeps every queue, and a new block is none of theirs. *)
Lemma sys_ok_alloc s QS n :
  sys_ok s QS -> 0 < n < 2 ^ 63 ->
  exists h p, a_alloc (ms_heap s) n = Some (h, p) /\ sys_ok (with_heap s h) QS /\
    (p = 0 \/ p <> 0 /\ (exists t, n <= t /\ a_live h p t) /\ p ∉ mq_addr <$> QS /\ p ∉ QS ≫= entries).
Proof.
  intros Hs Hn. pose proof Hs as [H1 H2 H3 H4 H5 H6 H7 H8 H9].
  destruct (a_alloc_spec _ _ H1 Hn) as (h & p & Ha & Hwf & Hp). exists h, p. split; [done|].
  assert (forall a t, a_live (ms_heap s) a t -> a_live h a t) as Hmono.
  { intros a t Hl. destruct Hp as [[_ E]|(u & _ & _ & E)]; apply E; auto. }
  split; [split; try done; eapply Forall_impl; [exact H4|]; intros Q HQ; apply (queue_ok_ext s); try done; intros; by apply Hmono|].
  destruct Hp as [[-> _]|(t & Ht & Hfresh & E)]; [by left|right].
  assert (a_live h p t) as Hlp by (apply E; by left).
  split; [pose proof (a_live_pos _ _ _ Hwf Hlp); lia|]. split; [by exists t|].
  rewrite Forall_forall in H4. split; intros Hin.
  - apply list_elem_of_fmap_1 in Hin as (Q & -> & HQ). destruct (H4 Q HQ) as [_ _ _ _ _ _ (u & _ & Hu) _]. by apply (Hfresh u).
  - apply list_elem_of_bind in Hin as (Q & Hin & HQ). apply list_elem_of_fmap_1 in Hin as ([e m] & -> & Hin).
    destruct (H4 Q HQ) as [_ _ _ _ _ Hm _ _]. rewrite Forall_forall in Hm. destruct (Hm _ Hin) as (_ & _ & _ & _ & u & _ & Hu).
    by apply (Hfresh u).
Qed.

Ltac elems := rewrite ?elem_of_app, ?elem_of_cons, ?elem_of_app in *; tauto.

(** The other queues share no address with [Q]. *)
Lemma others_apart s Q1 Q Q2 Qx :
  sys_ok s (Q1 ++ Q :: Q2) -> Qx ∈ Q1 ++ Q2 ->
  mq_addr Qx <> mq_addr Q /\ mq_addr Qx ∈ mq_addr <$> Q1 ++ Q :: Q2 /\ mq_addr Qx ∉ entries Q /\
  forall e, e ∈ entries Qx -> e ∉ entries Q /\ e <> mq_addr Q /\ e ∈ (Q1 ++ Q2) ≫= entries /\ e ∈ (Q1 ++ Q :: Q2) ≫= entries.
Proof.
  intros [_ _ H3 _ H5 H6 _ _ _] Hx. rewrite !fmap_app, !bind_app in *. cbn [fmap list_fmap mbind list_bind] in *.
  apply slist_nodup in H3. apply NoDup_app in H3 as (_ & Ha2 & Ha3). apply NoDup_cons in Ha3 as [Ha3 _].
  apply NoDup_app in H5 as (_ & Hd2 & Hd3). apply NoDup_app in Hd3 as (_ & Hd4 & _).
  assert (mq_addr Qx ∈ (mq_addr <$> Q1) ++ (mq_addr <$> Q2)) as Hxa.
  { rewrite <- fmap_app. by apply list_elem_of_fmap_2. }
  assert (mq_addr Qx <> mq_addr Q) as Hne.
  { intros E. rewrite E in Hxa. apply elem_of_app in Hxa as [Hc|Hc]; [|done]. apply (Ha2 _ Hc). elems. }
  split; [done|]. split; [elems|]. split; [intros Hc; apply (H6 (mq_addr Qx)); elems|]. intros e He.
  assert (e ∈ (Q1 ≫= entries) ++ (Q2 ≫= entries)) as Hb by (rewrite <- bind_app; apply list_elem_of_bind; by exists Qx).
  split; [|split; [intros ->; apply (H6 (mq_addr Q)); elems|split; [done|elems]]].
  intros HQ. apply elem_of_app in Hb as [Hb|Hb]; [apply (Hd2 _ Hb); elems|by apply (Hd4 _ HQ)].
Qed.

(** Changing the queue [Q] to [Q'] by operations that keep away from the
    other queues. *)
Record changed (s s' : msys) (Q1 : list mq) (Q Q' : mq) (Q2 : list mq) : Prop := {
  ch_same : mq_addr Q' = mq_addr Q /\ mq_ident Q' = mq_ident Q /\ mq_ckey Q' = mq_ckey Q;
  ch_list : queues s' = queues s /\ next_id s' = next_id s /\ forall x, mget s' x q_next = mget s x q_next;
  ch_wf : a_wf (ms_heap s') /\ mem_ok (ms_mem s');
  ch_queue : queue_ok s' Q';
  ch_nodup : NoDup (entries Q');
  ch_new : forall e, e ∈ entries Q' -> e ∈ entries Q \/
    e ∉ mq_addr <$> Q1 ++ Q :: Q2 /\ e ∉ (Q1 ++ Q :: Q2) ≫= entries;
  ch_st : forall x f, x <> mq_addr Q -> x ∉ entries Q -> x ∉ entries Q' -> mget s' x f = mget s x f;
  ch_mem : forall e x, e ∈ (Q1 ++ Q2) ≫= entries -> e_data e <= x < e_data e + MSG_SIZE -> ms_mem s' x = ms_mem s x;
  ch_live : forall a t, a ∉ entries Q -> a_live (ms_heap s) a t -> a_live (ms_heap s') a t
}.

Lemma changed_other s s' Q1 Q Q' Q2 Qx :
  sys_ok s (Q1 ++ Q :: Q2) -> changed s s' Q1 Q Q' Q2 -> Qx ∈ Q1 ++ Q2 -> queue_ok s Qx -> queue_ok s' Qx.
Proof.
  intros Hs [_ _ _ _ _ Hin Hst Hmem Hlive] Hx HQx. destruct (others_apart _ _ _ _ _ Hs Hx) as (Hne & Hxa & Hxe & Hes).
  apply (queue_ok_ext s); [|intros e f He|intros e x He; by apply Hmem, Hes| |done].
  - intros f. apply Hst; [done|done|]. intros Hc. by destruct (Hin _ Hc) as [?|[? _]].
  - destruct (Hes e He) as (He1 & He2 & He3 & He4). apply Hst; [done|done|]. intros Hc. by destruct (Hin _ Hc) as [?|[_ ?]].
  - intros a t Ha. apply Hlive. apply elem_of_cons in Ha as [->|Ha]; [done|]. by apply Hes.
Qed.

Lemma sys_ok_change s s' Q1 Q Q' Q2 :
  sys_ok s (Q1 ++ Q :: Q2) -> changed s s' Q1 Q Q' Q2 -> sys_ok s' (Q1 ++ Q' :: Q2).
Proof.
  intros Hs Hch. pose proof (fun Qx => changed_other _ _ _ _ _ _ Qx Hs Hch) as Hoth.
  destruct Hs as [H1 H2 H3 H4 H5 H6 H7 H8 H9].
  destruct Hch as [(Ea & Ei & Ek) (Hqs & Hni & Hnx) [Hwf Hmok] HQ' Hnd Hin _ _ _].
  rewrite !fmap_app, !bind_app in *. cbn [fmap list_fmap mbind list_bind] in *.
  rewrite Forall_app, Forall_cons, !Forall_forall in H4. destruct H4 as (H4a & _ & H4c).
  apply NoDup_app in H5 as (Hd1 & Hd2 & Hd3). apply NoDup_app in Hd3 as (Hd3 & Hd4 & Hd5).
  split; rewrite ?fmap_app, ?bind_app; cbn [fmap list_fmap mbind list_bind]; rewrite ?Ea, ?Ei, ?Ek, ?Hqs, ?Hni; try done.
  - eapply slist_ext; [|exact H3]. intros x _. apply Hnx.
  - apply Forall_app. split; [|constructor; [done|]];
      apply Forall_forall; intros Qx Hx; (apply Hoth; [apply elem_of_app; auto|auto]).
  - apply NoDup_app. split; [done|]. split; [|apply NoDup_app; split; [done|]; split; [|done]].
    + intros e He Hc. pose proof (Hd2 e He). apply elem_of_app in Hc as [Hc|Hc]; [destruct (Hin _ Hc) as [?|[_ ?]]|]; elems.
    + intros e He. destruct (Hin _ He) as [?|[_ Hc']]; [by apply Hd4|elems].
  - intros e He. rewrite !elem_of_app in He. destruct He as [He|[He|He]]; [apply H6; elems| |apply H6; elems].
    destruct (Hin _ He) as [?|[Hc' _]]; [apply H6; elems|done].
  - rewrite Forall_app, Forall_cons in *. by rewrite Ei.
Qed.

(** ** Sending *)

Lemma s32_count n k : s32 (s32 n + k) = s32 (n + k).
Proof.
  unfold s32. f_equal. replace ((n + 2 ^ 31) mod 2 ^ 32 - 2 ^ 31 + k + 2 ^ 31) with ((n + 2 ^ 31) mod 2 ^ 32 + k) by lia.
  rewrite Z.add_mod_idemp_l by lia. f_equal. lia.
Qed.

(** The blocks of two entries, or of an entry and the new one, are apart. *)
Lemma entry_apart (h : A) e t e' m s :
  a_wf h -> ms_heap s = h -> a_live h e t -> entry_ok s e' m -> e' <> e -> e' + sizeof_entry <= e \/ e + t <= e'.
Proof.
  intros Hwf <- Hl (_ & _ & _ & _ & u & Hu & Hlu) Hne.
  destruct (a_live_disjoint _ _ _ _ _ Hwf Hl Hlu) as [[? _]|[?|?]]; [congruence|lia..].
Qed.

(** The fields of the structures the appended entry is linked into. *)
Lemma append_entry_fields s q e msgp n :
  let s' := append_entry s q e msgp n in let tl := mget s q q_tail in
  ms_heap s' = ms_heap s /\ queues s' = queues s /\ next_id s' = next_id s /\ ms_w s' = ms_w s /\
  ms_mem s' = memcpy (ms_mem s) (e_data e) (msgp + 8) (u64 n) /\
  (forall x f, x <> e -> (f = e_type \/ f = e_size \/ f = q_id \/ f = q_key \/ f = q_next) -> mget s' x f = mget s x f) /\
  (forall x f, x <> e -> x <> q -> (tl <> 0 -> x <> tl) -> mget s' x f = mget s x f) /\
  (forall x, mget s' x q_next = mget s x q_next) /\ mget s' q q_id = mget s q q_id /\ mget s' q q_key = mget s q q_key /\
  mget s' e e_type = s64 (load64 (ms_mem s) msgp) /\ mget s' e e_size = n /\ mget s' q q_tail = e /\
  mget s' q q_count = s32 (mget s q q_count + 1) /\
  mget s' q q_head = (if tl =? 0 then e else mget s q q_head).
Proof.
  unfold append_entry.
  set (s3 := mset (with_mem (mset (mset s e e_type _) e e_size n) _) e e_next 0).
  assert (mget s3 q q_tail = mget s q q_tail) as Et by (unfold mget; simpl; by wr_simp).
  rewrite Et. cbv zeta. destruct (Z.eqb_spec (mget s q q_tail) 0) as [E|E]; cbn [negb];
    (do 5 (split; [done|]));
    (split; [intros x f Hx Hf; unfold mget; simpl; destruct Hf as [-> | [-> | [-> | [-> | ->]]]]; by wr_simp|]);
    (split; [intros x f Hx Hxq Hxt; unfold mget in *; simpl; try specialize (Hxt E); by wr_simp|]);
    (split; [intros x; unfold mget; simpl; by wr_simp|]); unfold mget; simpl; split_and!; by wr_simp.
Qed.

(** The list of entries after the link. *)
Lemma append_entry_links s q e msgp n l :
  slist (ms_st s) e_next (mget s q q_head) l -> mget s q q_tail = lastp l -> e <> 0 -> e ∉ l ->
  let s' := append_entry s q e msgp n in
  slist (ms_st s') e_next (mget s' q q_head) (l ++ [e]).
Proof.
  intros Hl Ht He Hn s'. destruct (append_entry_fields s q e msgp n) as (_ & _ & _ & _ & _ & _ & _ & _ & _ & _ & _ & _ & _ & _ & Hh).
  fold s' in Hh. rewrite Hh, Ht. clear Hh. unfold s', append_entry.
  set (s3 := mset (with_mem (mset (mset s e e_type _) e e_size n) _) e e_next 0).
  assert (mget s3 q q_tail = lastp l) as Et by (rewrite <- Ht; unfold mget; simpl; by wr_simp). rewrite Et.
  assert (slist (ms_st s3) e_next (mget s q q_head) l) as Hl3.
  { unfold s3. simpl. do 3 (apply slist_wr; [first [by left|by right]|]). done. }
  assert (ms_st s3 e e_next = 0) as He3 by (simpl; by wr_simp).
  destruct l as [|y l _] using rev_ind.
  - cbn. by wr_simp.
  - assert (y <> 0) as Hy by (eapply slist_nonzero; [exact Hl|set_solver]).
    rewrite lastp_snoc, (proj2 (Z.eqb_neq y 0)) by done. cbn [negb].
    apply slist_wr; [by right|]. apply slist_wr; [by right|]. by apply slist_append.
Qed.

Definition push_msg (Q : mq) (e : Z) (m : msg) : mq :=
  MQ (mq_addr Q) (mq_ident Q) (mq_ckey Q) (mq_msgs Q ++ [(e, m)]).

(** The message in the caller's buffer. *)
Definition message (m : mem) (msgp n : Z) : msg := (s64 (load64 m msgp), bytes_at m (msgp + 8) (Z.to_nat n)).

Lemma append_queue_ok s Q e t msgp n :
  let s' := append_entry s (mq_addr Q) e msgp n in
  queue_ok s Q -> a_wf (ms_heap s) -> mem_ok (ms_mem s) -> e <> 0 -> sizeof_entry <= t -> a_live (ms_heap s) e t ->
  e ∉ entries Q -> 0 <= n <= MSG_SIZE -> msgp + 8 + n <= e \/ e + t <= msgp ->
  queue_ok s' (push_msg Q e (message (ms_mem s) msgp n)).
Proof.
  intros s' HQ Hwf Hm He Ht Hl Hne Hn Hbuf. pose proof HQ as [H1 H2 H3 H4 H5 H6 H7 H8].
  destruct (append_entry_fields s (mq_addr Q) e msgp n) as (Fh & _ & _ & _ & Fm & Ff & _ & _ & Fi & Fk & Fty & Fsz & Ftl & Fc & _).
  pose proof (append_entry_links s (mq_addr Q) e msgp n (entries Q) H3 H4 He Hne) as Hlk. fold s' in Fh, Fm, Ff, Fi, Fk, Fty, Fsz, Ftl, Fc, Hlk.
  unfold sizeof_entry, MSG_SIZE in *.
  destruct (memcpy_to (ms_mem s) (e_data e) (msgp + 8) (u64 n) Hm) as [_ Hcp];
    [rewrite u64_small by lia; lia|rewrite u64_small by lia; unfold e_data; lia|].
  rewrite u64_small in Hcp, Fm by lia.
  assert (entries (push_msg Q e (message (ms_mem s) msgp n)) = entries Q ++ [e]) as Een by (unfold entries; simpl; by rewrite fmap_app).
  split; cbn [mq_addr mq_ident mq_ckey push_msg]; rewrite ?Fi, ?Fk, ?Ftl, ?Fc, ?Een, ?Fh; try done.
  - by rewrite lastp_snoc.
  - rewrite H5, s32_count. cbn [mq_msgs push_msg]. rewrite length_app. f_equal. simpl. lia.
  - apply Forall_app. split; [|apply Forall_singleton].
    + rewrite Forall_forall in *. intros [e' m] Hin. pose proof (H6 _ Hin) as He'. cbn [fst snd] in *.
      assert (e' <> e) as Hne' by (intros ->; apply Hne; apply (list_elem_of_fmap_2 fst) in Hin; exact Hin).
      pose proof (entry_apart _ _ _ _ _ _ Hwf eq_refl Hl He' Hne') as Hap. unfold sizeof_entry in Hap.
      destruct He' as (E1 & E2 & E3 & E4 & E5). unfold MSG_SIZE in E3.
      split; [by rewrite Ff by auto|]. split; [by rewrite Ff by auto|]. split; [done|]. split; [|by rewrite Fh].
      rewrite <- E4 at 2. apply bytes_at_ext. intros i Hi. rewrite Fm, Hcp. unfold e_data in *. rewrite decide_False by lia. done.
    + unfold entry_ok, message, MSG_SIZE; cbn [fst snd]. rewrite bytes_at_length, Z2Nat.id by lia. split; [done|]. split; [done|]. split; [lia|].
      split; [|rewrite Fh; by exists t]. apply bytes_at_ext. rewrite Z2Nat.id by lia. intros i Hi. rewrite Fm, Hcp.
      rewrite decide_True by lia. f_equal. lia.
Qed.


Lemma sys_entry s QS e : sys_ok s QS -> e ∈ QS ≫= entries -> exists m, entry_ok s e m.
Proof.
  intros Hs He. apply list_elem_of_bind in He as (Q & He & HQ). apply list_elem_of_fmap_1 in He as ([e' m] & -> & Hin).
  destruct Hs as [_ _ _ H4 _ _ _ _ _]. rewrite Forall_forall in H4. destruct (H4 Q HQ) as [_ _ _ _ _ H6 _ _].
  rewrite Forall_forall in H6. exists m. apply (H6 _ Hin).
Qed.

Lemma append_sys_ok s Q1 Q Q2 e t msgp n :
  sys_ok s (Q1 ++ Q :: Q2) -> e <> 0 -> sizeof_entry <= t -> a_live (ms_heap s) e t ->
  e ∉ mq_addr <$> Q1 ++ Q :: Q2 -> e ∉ (Q1 ++ Q :: Q2) ≫= entries ->
  0 <= n <= MSG_SIZE -> msgp + 8 + n <= e \/ e + t <= msgp ->
  sys_ok (append_entry s (mq_addr Q) e msgp n) (Q1 ++ push_msg Q e (message (ms_mem s) msgp n) :: Q2).
Proof.
  intros Hs He Ht Hl Ha Hne Hn Hbuf. apply (sys_ok_change s _ _ Q); [done|].
  pose proof Hs as [Hwf Hm _ H4 H5 _ _ _ _]. rewrite !bind_app in Hne, H5. cbn [mbind list_bind] in Hne, H5.
  apply Forall_app in H4 as [_ H4]. apply Forall_cons in H4 as [HQ _].
  apply NoDup_app in H5 as (_ & _ & H5). apply NoDup_app in H5 as (Hnd & _ & _).
  assert (e ∉ entries Q) as HeQ by elems.
  destruct (append_entry_fields s (mq_addr Q) e msgp n) as (Fh & Fq & Fn & _ & Fm & _ & Fo & Fx & _ & _ & _ & _ & _ & _ & _).
  assert (entries (push_msg Q e (message (ms_mem s) msgp n)) = entries Q ++ [e]) as Een by (unfold entries; simpl; by rewrite fmap_app).
  destruct (memcpy_to (ms_mem s) (e_data e) (msgp + 8) (u64 n) Hm) as [Hm' Hcp];
    [apply u64_range|unfold sizeof_entry, MSG_SIZE in *; rewrite u64_small by lia; unfold e_data; lia|].
  split; rewrite ?Fh, ?Fm, ?Een; try done.
  - by eapply append_queue_ok.
  - apply NoDup_app. split; [done|]. split; [|apply NoDup_singleton]. intros x Hx ->%list_elem_of_singleton. done.
  - intros x Hx. apply elem_of_app in Hx as [Hx|Hx%list_elem_of_singleton]; [by left|right; subst x].
    rewrite bind_app. cbn [mbind list_bind]. done.
  - intros x f Hx Hxe Hxe'. apply Fo; [set_solver|done|]. destruct HQ as [_ _ Hls -> _ _ _ _]. intros E ->. by apply Hxe, lastp_in.
  - intros e' x He' Hx. rewrite Hcp. apply decide_False.
    destruct (sys_entry s (Q1 ++ Q :: Q2) e' Hs) as [m Hok].
    { rewrite bind_app in *. cbn [mbind list_bind]. elems. }
    pose proof (entry_apart _ _ _ _ _ _ Hwf eq_refl Hl Hok) as Hap. unfold sizeof_entry, MSG_SIZE, e_data in *.
    rewrite u64_small by lia. assert (e' <> e) as Hne' by (intros ->; rewrite bind_app in He'; elems). specialize (Hap Hne'). lia.
Qed.


(** ** Receiving *)

Definition wanted (msgtyp : Z) (em : Z * msg) : bool := (msgtyp =? 0) || (fst (snd em) =? msgtyp).

(** The search stops at the first wanted entry and remembers the one before. *)
Lemma match_loop s msgtyp ms : forall l0 a fuel,
  slist (ms_st s) e_next a ms.*1 -> Forall (fun em => entry_ok s (fst em) (snd em)) ms -> (length ms < fuel)%nat ->
  (forall l1 em l2, ms = l1 ++ em :: l2 -> Forall (fun x => wanted msgtyp x = false) l1 -> wanted msgtyp em = true ->
     loop fuel (match_step s msgtyp) (lastp l0, a) = Some (lastp (l0 ++ l1.*1), fst em)) /\
  (Forall (fun x => wanted msgtyp x = false) ms ->
     loop fuel (match_step s msgtyp) (lastp l0, a) = Some (lastp (l0 ++ ms.*1), 0)).
Proof.
  induction ms as [|[e m] ms IH]; intros l0 a fuel Hl Hok Hf; (destruct fuel as [|fuel]; [simpl in Hf; lia|]); cbn [loop match_step].
  - split; [intros [|] ? ? ?; discriminate|]. intros _. rewrite (Hl : a = 0). by rewrite app_nil_r.
  - destruct Hl as (-> & He & Hl). apply Forall_cons in Hok as [Hm Hok]. cbn [fst snd] in Hm, He. cbn [fst snd fmap list_fmap].
    rewrite (proj2 (Z.eqb_neq e 0)) by done. destruct Hm as [Ety _]. rewrite Ety.
    change ((msgtyp =? 0) || (m.1 =? msgtyp)) with (wanted msgtyp (e, m)).
    destruct (IH (l0 ++ [e]) (mget s e e_next) fuel Hl Hok ltac:(simpl in Hf; lia)) as [IH1 IH2]. rewrite lastp_snoc in IH1, IH2.
    split.
    + intros [|x l1] em l2 E Hno Hw; simplify_eq/=.
      * rewrite Hw. by rewrite app_nil_r.
      * apply Forall_cons in Hno as [Hx Hno]. rewrite Hx. rewrite (IH1 l1 em l2) by done. by rewrite <- app_assoc.
    + intros Hno. apply Forall_cons in Hno as [Hx Hno]. rewrite Hx, IH2 by done. by rewrite <- app_assoc.
Qed.

(** Unlinking an entry of the list. *)
Lemma unlink_fields s q pr e :
  let s' := unlink s q pr e in
  (ms_heap s' = ms_heap s /\ queues s' = queues s /\ next_id s' = next_id s /\ ms_w s' = ms_w s /\ ms_mem s' = ms_mem s) /\
  (forall x f, (f = e_type \/ f = e_size \/ f = q_id \/ f = q_key \/ f = q_next) -> mget s' x f = mget s x f) /\
  (forall x f, x <> q -> (pr <> 0 -> x <> pr) -> mget s' x f = mget s x f) /\
  (forall x, mget s' x e_next = (if pr =? 0 then ms_st s else wr (ms_st s) pr e_next (mget s e e_next)) x e_next) /\
  mget s' q q_head = (if pr =? 0 then mget s e e_next else mget s q q_head) /\
  mget s' q q_tail = (if pr =? 0 then if mget s e e_next =? 0 then 0 else mget s q q_tail
                      else if e =? mget s q q_tail then pr else mget s q q_tail) /\
  mget s' q q_count = s32 (mget s q q_count - 1).
Proof.
  unfold unlink. destruct (Z.eqb_spec pr 0) as [Hp|Hp]; cbn [negb];
    [assert (mget (mset s q q_head (mget s e e_next)) q q_head = mget s e e_next) as -> by (unfold mget; simpl; by wr_simp)
    |assert (mget (mset s pr e_next (mget s e e_next)) q q_tail = mget s q q_tail) as -> by (unfold mget; simpl; by wr_simp)];
    case_if; cbv zeta; (split; [done|]);
    (split; [intros x f Hf; unfold mget; simpl; destruct Hf as [-> | [-> | [-> | [-> | ->]]]]; by wr_simp|]);
    (split; [intros x f Hx Hxp; try specialize (Hxp Hp); unfold mget; simpl; by wr_simp|]);
    (split; [intros x; unfold mget; simpl; by wr_simp|]); unfold mget; simpl; split_and!; by wr_simp.
Qed.

Lemma unlink_links s q l1 e l2 :
  slist (ms_st s) e_next (mget s q q_head) (l1 ++ e :: l2) -> mget s q q_tail = lastp (l1 ++ e :: l2) ->
  let s' := unlink s q (lastp l1) e in
  slist (ms_st s') e_next (mget s' q q_head) (l1 ++ l2) /\ mget s' q q_tail = lastp (l1 ++ l2).
Proof.
  intros Hl Ht s'. destruct (unlink_fields s q (lastp l1) e) as (_ & _ & _ & Hn & Hh & Htl & _).
  fold s' in Hn, Hh, Htl. rewrite Hh, Htl. clear Hh Htl.
  pose proof (slist_nodup _ _ _ _ Hl) as Hnd. apply NoDup_app in Hnd as (_ & Hd1 & Hd2). apply NoDup_cons in Hd2 as [He Hd2].
  pose proof Hl as Hl'. apply slist_app in Hl' as (b & Hseg & Hb). destruct Hb as (-> & He0 & Hl2).
  split.
  - eapply slist_ext; [intros x _; apply Hn|]. apply (slist_relink _ _ _ l1 (e :: l2)); [done|done|].
    intros y Hy Hy2. apply (Hd1 y Hy). set_solver.
  - destruct l1 as [|x l1 _] using rev_ind.
    + cbn [lastp last default]. change (0 =? 0) with true. cbv iota. pose proof (slist_head _ _ _ _ Hl2) as Hnil.
      rewrite Ht. destruct l2 as [|y l2]; simpl in Hl2.
      * unfold mget. by rewrite Hl2.
      * destruct Hl2 as (E & Hy & _). unfold mget. rewrite E, (proj2 (Z.eqb_neq y 0)) by done. done.
    + assert (x <> 0) as Hx by (eapply slist_nonzero; [exact Hl|set_solver]).
      rewrite lastp_snoc, (proj2 (Z.eqb_neq x 0)), Ht by done. destruct l2 as [|y l2 _] using rev_ind.
      * by rewrite lastp_snoc, Z.eqb_refl, app_nil_r, lastp_snoc.
      * rewrite app_comm_cons, !app_assoc, !lastp_snoc. rewrite (proj2 (Z.eqb_neq e y)); [done|]. intros ->. apply He. set_solver.
Qed.


(** The caller's buffer, with room for [n] bytes of text, is outside the heap. *)
Definition buffer_apart (h : A) (msgp n : Z) : Prop := forall a t, a_live h a t -> msgp + 8 + n <= a \/ a + t <= msgp.

Definition with_msgs (Q : mq) (ms : list (Z * msg)) : mq := MQ (mq_addr Q) (mq_ident Q) (mq_ckey Q) ms.

(** What [deliver_msg] writes to the buffer. *)
Lemma deliver_mem m0 e msgp ty n c :
  mem_ok m0 -> 0 <= c <= n -> msgp + 8 + n <= e \/ e + sizeof_entry <= msgp -> n <= MSG_SIZE ->
  let m2 := memcpy (store64 m0 msgp ty) (msgp + 8) (e_data e) (u64 c) in
  mem_ok m2 /\ load64 m2 msgp = u64 ty /\ bytes_at m2 (msgp + 8) (Z.to_nat c) = bytes_at m0 (e_data e) (Z.to_nat c) /\
  forall x, x < msgp \/ msgp + 8 + n <= x -> m2 x = m0 x.
Proof.
  unfold sizeof_entry, MSG_SIZE, e_data. intros Hm Hc Hap Hn.
  destruct (memcpy_to (store64 m0 msgp ty) (msgp + 8) (e + 8) (u64 c)) as [Hm2 Hcp];
    [by apply store64_ok|apply u64_range|rewrite u64_small by lia; lia|]. rewrite u64_small in * by lia. cbv zeta.
  split; [done|]. split; [|split].
  - rewrite (load64_ext _ (store64 m0 msgp ty)) by (intros x Hx; rewrite Hcp, decide_False by lia; done).
    unfold load64, store64. by rewrite load_store_le_same.
  - apply bytes_at_ext. intros i Hi. rewrite Z2Nat.id in Hi by lia. rewrite Hcp, decide_True by lia.
    rewrite store64_other by lia. f_equal. lia.
  - intros x Hx. rewrite Hcp, decide_False by lia. by rewrite store64_other by lia.
Qed.

Lemma take_queue_ok s Q l1 e m l2 s' :
  queue_ok s Q -> mq_msgs Q = l1 ++ (e, m) :: l2 ->
  let u := unlink s (mq_addr Q) (lastp l1.*1) e in
  ms_st s' = ms_st u ->
  (forall a x, a ∈ (l1 ++ l2).*1 -> e_data a <= x < e_data a + MSG_SIZE -> ms_mem s' x = ms_mem s x) ->
  (forall a t, a ∈ mq_addr Q :: (l1 ++ l2).*1 -> a_live (ms_heap s) a t -> a_live (ms_heap s') a t) ->
  queue_ok s' (with_msgs Q (l1 ++ l2)).
Proof.
  intros HQ E u Est Hmem Hlive. destruct HQ as [H1 H2 H3 H4 H5 H6 (t & Ht & Hl) H8]. unfold entries in H3, H4.
  rewrite E in *. rewrite fmap_app in H3, H4. cbn [fmap list_fmap fst] in H3, H4.
  destruct (unlink_links s (mq_addr Q) l1.*1 e l2.*1 H3 H4) as [Hls Hlt].
  destruct (unlink_fields s (mq_addr Q) (lastp l1.*1) e) as (_ & Ff & _ & _ & _ & _ & Fc).
  assert (forall a f, mget s' a f = mget u a f) as Eg by (intros; unfold mget; by rewrite Est).
  split; cbn [with_msgs mq_addr mq_ident mq_ckey]; rewrite ?Eg; unfold entries; cbn [mq_msgs with_msgs];
    rewrite ?fmap_app, ?Est; try done.
  - rewrite <- H1. apply Ff. tauto.
  - rewrite <- H2. apply Ff. tauto.
  - unfold u. rewrite Fc, H5. change (s32 ?x - 1) with (s32 x + -1). rewrite s32_count, !length_app. f_equal. simpl. lia.
  - assert (Forall (fun em => entry_ok s em.1 em.2) (l1 ++ l2)) as H6' by (apply Forall_app in H6 as [? [_ ?]%Forall_cons]; by apply Forall_app).
    rewrite Forall_forall in *. intros [e' m'] Hin. destruct (H6' _ Hin) as (E1 & E2 & E3 & E4 & v & Hv & Hlv). cbn [fst snd] in *.
    assert (e' ∈ (l1 ++ l2).*1) as Hin' by (apply (list_elem_of_fmap_2 fst) in Hin; exact Hin).
    split; [rewrite Eg, <- E1; apply Ff; tauto|]. split; [rewrite Eg, <- E2; apply Ff; tauto|]. split; [done|].
    split; [|exists v; split; [done|]; apply Hlive; [apply elem_of_cons; by right|done]].
    rewrite <- E4 at 2. apply bytes_at_ext. intros i Hi. apply (Hmem e'); [done|]. unfold MSG_SIZE in *. lia.
  - exists t. split; [done|]. apply Hlive; [apply elem_of_cons; by left|done].
Qed.

(** The entry [e] of [Q] among the others. *)
Lemma queue_split s Q1 Q Q2 l1 e m l2 :
  sys_ok s (Q1 ++ Q :: Q2) -> mq_msgs Q = l1 ++ (e, m) :: l2 ->
  queue_ok s Q /\ entry_ok s e m /\ entries Q = l1.*1 ++ e :: l2.*1 /\ e ∉ l1.*1 ++ l2.*1 /\ NoDup (l1.*1 ++ l2.*1) /\
  e <> mq_addr Q /\ e ∉ (Q1 ++ Q2) ≫= entries.
Proof.
  intros [_ _ _ H4 H5 H6 _ _ _] E. apply Forall_app in H4 as [_ H4]. apply Forall_cons in H4 as [HQ _].
  assert (entries Q = l1.*1 ++ e :: l2.*1) as Een by (unfold entries; rewrite E, fmap_app; done).
  assert (e ∈ entries Q) as HeQ by (rewrite Een; elems).
  rewrite fmap_app, !bind_app in *. cbn [mbind list_bind fmap list_fmap] in *.
  apply NoDup_app in H5 as (_ & Hd0 & H5). apply NoDup_app in H5 as (Hnd & Hd & _). rewrite Een in Hnd.
  apply NoDup_app in Hnd as (? & Hx & Hy). apply NoDup_cons in Hy as [? ?].
  split; [done|]. split; [|split; [done|split; [|split; [|split]]]].
  - destruct HQ as [_ _ _ _ _ H7 _ _]. rewrite E in H7. apply Forall_app in H7 as [_ H7]. apply Forall_cons in H7 as [H7 _]. done.
  - intros Hc. apply elem_of_app in Hc as [Hc|Hc]; [apply (Hx e Hc); elems|done].
  - apply NoDup_app. split; [done|]. split; [|done]. intros y Hy Hy2. apply (Hx y Hy). elems.
  - intros ->. apply (H6 (mq_addr Q)); elems.
  - intros Hc. apply elem_of_app in Hc as [Hc|Hc]; [apply (Hd0 e Hc); elems|by apply (Hd e)].
Qed.

Lemma deliver_ok s Q1 Q Q2 l1 e m l2 msgp msgsz :
  sys_ok s (Q1 ++ Q :: Q2) -> mq_msgs Q = l1 ++ (e, m) :: l2 -> 0 <= msgsz -> buffer_apart (ms_heap s) msgp msgsz ->
  let c := Z.min msgsz (Z.of_nat (length (snd m))) in
  exists s', deliver_msg (unlink s (mq_addr Q) (lastp l1.*1) e) e msgp msgsz = Some (s', c) /\
    sys_ok s' (Q1 ++ with_msgs Q (l1 ++ l2) :: Q2) /\ ms_w s' = ms_w s /\
    load64 (ms_mem s') msgp = u64 (fst m) /\ bytes_at (ms_mem s') (msgp + 8) (Z.to_nat c) = take (Z.to_nat c) (snd m).
Proof.
  intros Hs E Hsz Hbuf c. pose proof Hs as [Hwf Hm _ _ _ _ _ _ _].
  destruct (queue_split _ _ _ _ _ _ _ _ Hs E) as (HQ & (E1 & E2 & E3 & E4 & t & Ht & Hl) & Een & He & Hnd & HeQ & Heo).
  assert (entries (with_msgs Q (l1 ++ l2)) = l1.*1 ++ l2.*1) as Een' by (unfold entries; simpl; by rewrite fmap_app).
  destruct (unlink_fields s (mq_addr Q) (lastp l1.*1) e) as ((Fh & Fq & Fn & Fw & Fm) & Ff & Fo & _ & _ & _ & _).
  unfold deliver_msg. set (u := unlink s (mq_addr Q) (lastp l1.*1) e) in *.
  rewrite (Ff e e_size), E2 by tauto.
  replace (if msgsz <? Z.of_nat (length (snd m)) then msgsz else Z.of_nat (length (snd m))) with c by (unfold c; case_if; lia).
  destruct (a_free_spec _ _ _ Hwf Hl) as (h' & Hfree & Hwf' & Hlive').
  destruct (deliver_mem (ms_mem s) e msgp (fst m) c c Hm) as (Hm2 & Hld & Hby & Hfr); [unfold c; lia| |unfold c; lia|].
  { pose proof (Hbuf e t Hl). unfold c. lia. }
  cbn [with_mem ms_heap ms_mem]. rewrite (Ff e e_type), E1, Fh, Fm, Hfree by tauto. cbn [mbind option_bind].
  eexists. split; [done|]. cbn [with_heap with_mem ms_mem ms_w].
  assert (forall a x, a ∈ (Q1 ++ Q :: Q2) ≫= entries -> e_data a <= x < e_data a + MSG_SIZE ->
    memcpy (store64 (ms_mem s) msgp (fst m)) (msgp + 8) (e_data e) (u64 c) x = ms_mem s x) as Hkeep.
  { intros a x Ha Hx. apply Hfr. destruct (sys_entry _ _ _ Hs Ha) as (m' & _ & _ & _ & _ & v & Hv & Hlv).
    pose proof (Hbuf a v Hlv). unfold sizeof_entry, MSG_SIZE, e_data, c in *. lia. }
  assert (forall a, a ∈ entries Q \/ a ∈ (Q1 ++ Q2) ≫= entries -> a ∈ (Q1 ++ Q :: Q2) ≫= entries) as Hsub.
  { intros a Ha. rewrite !bind_app in *. cbn [mbind list_bind]. elems. }
  split; [|split; [done|split; [done|]]].
  - apply (sys_ok_change s _ _ Q); [done|]. split; rewrite ?Een, ?Een'; try done.
    + split; [done|]. split; [done|]. intros x. apply Ff. tauto.
    + apply (take_queue_ok s Q l1 e m l2); [done|done|done| |].
      * intros a x Ha. apply Hkeep, Hsub. left. rewrite Een. rewrite fmap_app in Ha. elems.
      * intros a v Ha Hlv. apply Hlive'. split; [done|]. intros ->. rewrite fmap_app in Ha. elems.
    + intros a Ha. left. elems.
    + intros x f Hx Hx1 _. apply Fo; [done|]. intros Hp ->. apply Hx1. apply elem_of_app. left. by apply lastp_in.
    + intros a x Ha. apply Hkeep, Hsub. by right.
    + intros a v Ha Hlv. apply Hlive'. split; [done|]. intros ->. elems.
  - rewrite Hby, <- E4. symmetry. apply bytes_at_take. unfold c. lia.
Qed.


(** ** The calls, when nobody contends for the mutexes *)

Lemma lock_idle fuel s m : idle_mutex (ms_w s) m -> lock fuel s m = Some (with_w s (locked (ms_w s) m (me s)), true).
Proof. intros Hm. unfold lock. by rewrite (mutex_try_idle _ _ _ _ Hm). Qed.

Lemma unlock_held fuel s m :
  wget (ms_w s) m mtx_owner = me s -> wget (ms_w s) m mtx_recurse = 1 -> wget (ms_w s) (mutex_wait_q m) wq_head = 0 ->
  unlock fuel s m = Some (with_w s (unlocked (ms_w s) m)).
Proof. intros Ho Hr Hw. unfold unlock. by rewrite mutex_unlock_held. Qed.

Lemma find_queue_loop fuel s QS f v :
  sys_ok s QS -> (length QS < fuel)%nat ->
  loop fuel (find_queue_step s f v) (queues s) = Some (default 0 (List.find (fun c => mget s c f =? v) (mq_addr <$> QS))).
Proof.
  intros [_ _ H3 _ _ _ _ _ _] Hf. apply (slist_find_loop (ms_st s) q_next (fun c => mget s c f =? v)); [done|done|].
  by rewrite length_fmap.
Qed.

Lemma queue_ids s QS : sys_ok s QS -> Forall (fun Q => mget s (mq_addr Q) q_id = mq_ident Q) QS.
Proof. intros [_ _ _ H4 _ _ _ _ _]. eapply Forall_impl; [exact H4|]. by intros Q [H1 _ _ _ _ _ _ _]. Qed.

(** The common opening of the two calls: the queue is looked up under the
    global mutex, then its own mutex is taken. *)
Lemma enter_queue fuel s Q1 Q Q2 (k : msys -> Z -> option (msys * outcome)) :
  sys_ok s (Q1 ++ Q :: Q2) -> (length (Q1 ++ Q :: Q2) < fuel)%nat ->
  idle_mutex (ms_w s) queues_lock -> idle_mutex (ms_w s) (q_lock (mq_addr Q)) ->
  let w' := locked (unlocked (locked (ms_w s) queues_lock (me s)) queues_lock) (q_lock (mq_addr Q)) (me s) in
  ('(s, got) ← lock fuel s queues_lock;
   if negb got then Some (s, Sleeps (mutex_wait_q queues_lock))
   else
     q ← find_queue fuel s (mq_ident Q);
     s ← unlock fuel s queues_lock;
     if q =? 0 then Some (s, Ret (-1))
     else
       '(s, got) ← lock fuel s (q_lock q);
       if negb got then Some (s, Sleeps (mutex_wait_q (q_lock q))) else k s q) = k (with_w s w') (mq_addr Q).
Proof.
  intros Hs Hf Hg Hq w'. rewrite (lock_idle fuel s queues_lock Hg). cbn [mbind option_bind negb].
  assert (forall w, find_queue fuel (with_w s w) (mq_ident Q) = Some (mq_addr Q)) as Hfind.
  { intros w. unfold find_queue. rewrite (find_queue_loop fuel _ (Q1 ++ Q :: Q2)) by (done || by apply sys_ok_w).
    change (mget (with_w s w)) with (mget s). rewrite (find_by_key mq_addr mq_ident (fun c => mget s c q_id)); [done|apply Hs|by apply queue_ids]. }
  rewrite Hfind. cbn [mbind option_bind].
  assert (mq_addr Q <> 0) as Hq0.
  { destruct Hs as [_ _ H3 _ _ _ _ _ _]. eapply slist_nonzero; [exact H3|]. rewrite fmap_app. apply elem_of_app. right. left. }
  assert (q_lock (mq_addr Q) <> queues_lock) as Hne.
  { destruct Hs as [_ _ _ H4 _ _ _ _ _]. apply Forall_app in H4 as [_ H4]. apply Forall_cons in H4 as [[_ _ _ _ _ _ _ H8] _].
    unfold q_lock, sizeof_queue in *. lia. }
  rewrite unlock_held; [|unfold wget; simpl; by wr_simp|unfold wget; simpl; by wr_simp
                        |unfold wget; simpl; wr_simp; apply Hg]. cbn [mbind option_bind].
  rewrite (proj2 (Z.eqb_neq _ _) Hq0), lock_idle; [done|].
  destruct Hq as [Ho Hw]. split; [rewrite <- Ho|rewrite <- Hw]; unfold wget; simpl; by wr_simp.
Qed.


(** The mutexes when a call is about to release the queue's, and after. *)
Lemma leave_queue w w4 q p :
  q + sizeof_queue <= queues_lock \/ queues_lock + 96 <= q ->
  idle_mutex w queues_lock -> idle_mutex w (q_lock q) ->
  (forall a f, a <> q_cond q -> wget w4 a f = wget (locked (unlocked (locked w queues_lock p) queues_lock) (q_lock q) p) a f) ->
  (wget w4 (q_lock q) mtx_owner = p /\ wget w4 (q_lock q) mtx_recurse = 1 /\ wget w4 (mutex_wait_q (q_lock q)) wq_head = 0) /\
  idle_mutex (unlocked w4 (q_lock q)) queues_lock /\ idle_mutex (unlocked w4 (q_lock q)) (q_lock q).
Proof.
  unfold sizeof_queue. intros Hap [Hg1 Hg2] [Hq1 Hq2] E.
  assert (q_lock q <> q_cond q /\ mutex_wait_q (q_lock q) <> q_cond q /\ queues_lock <> q_cond q /\
    mutex_wait_q queues_lock <> q_cond q /\ queues_lock <> q_lock q) as (N1 & N2 & N3 & N4 & N5)
    by (unfold q_lock, q_cond, mutex_wait_q; lia).
  split; [|split; split].
  - rewrite !E by done. unfold wget in *. simpl. by wr_simp.
  - unfold wget. simpl. wr_simp. fold (wget w4 queues_lock mtx_owner). rewrite E by done. unfold wget. simpl. by wr_simp.
  - unfold wget. simpl. wr_simp. fold (wget w4 (mutex_wait_q queues_lock) wq_head). rewrite E by done. rewrite <- Hg2.
    unfold wget. simpl. by wr_simp.
  - unfold wget. simpl. by wr_simp.
  - unfold wget. simpl. wr_simp. fold (wget w4 (mutex_wait_q (q_lock q)) wq_head). rewrite E by done. rewrite <- Hq2.
    unfold wget. simpl. by wr_simp.
Qed.

Lemma sys_lock s Q1 Q Q2 : sys_ok s (Q1 ++ Q :: Q2) -> mq_addr Q + sizeof_queue <= queues_lock \/ queues_lock + 96 <= mq_addr Q.
Proof. intros [_ _ _ H4 _ _ _ _ _]. apply Forall_app in H4 as [_ H4]. by apply Forall_cons in H4 as [[_ _ _ _ _ _ _ H8] _]. Qed.

(** A receiver gets the first message of the queue whose type is wanted
    (any type for 0): the call returns the number of bytes that fit the
    caller's buffer, the buffer holds the type and that many bytes of the
    text, the entry goes back to the heap, the other messages keep their
    order and every other queue its messages.  When no message is wanted the
    call sleeps on the queue's condition variable, every queue as it was.
    Either way both mutexes are free again. *)
Theorem msgrcv_first_match fuel s Q1 Q Q2 msgp msgsz msgtyp :
  sys_ok s (Q1 ++ Q :: Q2) -> (length (Q1 ++ Q :: Q2) < fuel)%nat -> (length (mq_msgs Q) < fuel)%nat ->
  idle_mutex (ms_w s) queues_lock -> idle_mutex (ms_w s) (q_lock (mq_addr Q)) ->
  0 <= msgsz -> buffer_apart (ms_heap s) msgp msgsz ->
  exists s' o, sys_msgrcv fuel s (mq_ident Q) msgp msgsz msgtyp = Some (s', o) /\
    idle_mutex (ms_w s') queues_lock /\ idle_mutex (ms_w s') (q_lock (mq_addr Q)) /\
    w_sched (ms_w s') = w_sched (ms_w s) /\
    (forall l1 e m l2, mq_msgs Q = l1 ++ (e, m) :: l2 ->
       Forall (fun x => wanted msgtyp x = false) l1 -> wanted msgtyp (e, m) = true ->
       let c := Z.min msgsz (Z.of_nat (length (snd m))) in
       o = Ret c /\ sys_ok s' (Q1 ++ with_msgs Q (l1 ++ l2) :: Q2) /\
       load64 (ms_mem s') msgp = u64 (fst m) /\ bytes_at (ms_mem s') (msgp + 8) (Z.to_nat c) = take (Z.to_nat c) (snd m)) /\
    (Forall (fun x => wanted msgtyp x = false) (mq_msgs Q) ->
       o = Sleeps (q_cond (mq_addr Q)) /\ sys_ok s' (Q1 ++ Q :: Q2)).
Proof.
  intros Hs Hf1 Hf2 Hg Hq Hsz Hbuf. unfold sys_msgrcv.
  rewrite (enter_queue fuel s Q1 Q Q2 (fun s q => receive_round fuel s q msgp msgsz msgtyp) Hs Hf1 Hg Hq).
  set (w1 := locked _ (q_lock (mq_addr Q)) _).
  pose proof (sys_ok_w s _ w1 Hs) as Hs1. set (s1 := with_w s w1) in *. unfold receive_round.
  assert (queue_ok s1 Q) as HQ by (destruct Hs1 as [_ _ _ H4 _ _ _ _ _]; apply Forall_app in H4 as [_ H4]; by apply Forall_cons in H4 as [H4 _]).
  destruct (match_loop s1 msgtyp (mq_msgs Q) [] (mget s1 (mq_addr Q) q_head) fuel (qo_entries _ _ HQ) (qo_msgs _ _ HQ) Hf2) as [Hyes Hno].
  destruct (leave_queue (ms_w s) w1 (mq_addr Q) (me s) (sys_lock _ _ _ _ Hs) Hg Hq) as ((U1 & U2 & U3) & I1 & I2); [done|].
  cbn [app] in Hyes, Hno. change (lastp []) with 0 in Hyes, Hno.
  destruct (first_split (wanted msgtyp) (mq_msgs Q)) as [Hall|(l1 & [e m] & l2 & E & Hf & Hw)].
  - rewrite (Hno Hall). cbn [mbind option_bind]. change (negb (0 =? 0)) with false. cbv iota.
    rewrite unlock_held by done. cbn [mbind option_bind]. eexists _, _. split; [done|].
    split; [exact I1|]. split; [exact I2|]. split; [done|]. split; [|intros _; split; [done|by apply sys_ok_w]].
    intros l1 e m l2 E _ Hw. rewrite E in Hall. apply Forall_app in Hall as [_ Hall]. apply Forall_cons in Hall as [Hall _]. congruence.
  - rewrite (Hyes l1 (e, m) l2 E Hf Hw). cbn [mbind option_bind fst].
    assert (e <> 0) as He.
    { eapply slist_nonzero; [exact (qo_entries _ _ HQ)|]. unfold entries. rewrite E, fmap_app. apply elem_of_app. right. left. }
    rewrite (proj2 (Z.eqb_neq e 0) He). cbn [negb].
    destruct (deliver_ok s1 Q1 Q Q2 l1 e m l2 msgp msgsz Hs1 E Hsz Hbuf) as (s2 & Hd & Hs2 & Hw2 & Hld & Hby).
    rewrite Hd. cbn [mbind option_bind]. rewrite unlock_held by (unfold me; rewrite Hw2; done). cbn [mbind option_bind].
    eexists _, _. split; [done|]. cbn [with_w ms_w ms_mem]. rewrite Hw2. split; [exact I1|]. split; [exact I2|]. split; [done|].
    split.
    + intros k1 e' m' k2 E' Hf' Hw'. rewrite E in E'.
      destruct (first_unique (wanted msgtyp) _ _ _ _ _ _ E' Hf Hw Hf' Hw') as (<- & [= <- <-] & <-).
      split; [done|]. split; [by apply sys_ok_w|done].
    + intros Hall. rewrite E in Hall. apply Forall_app in Hall as [_ Hall]. apply Forall_cons in Hall as [Hall _]. congruence.
Qed.


(** The processes that wait for a message and can be woken. *)
Record receivers_ok (w : wsys) (cond : Z) (rs : list Z) (rq : Z -> list Z) : Prop := {
  ro_wait : wq_ok w cond rs;
  ro_queues : Sched.queues_ok (w_sched w) rq;
  ro_nodup : NoDup ((fun r => wget w r we_task) <$> rs);
  ro_procs : forall p, p ∈ (fun r => wget w r we_task) <$> rs -> p <> 0 /\ unqueued rq p /\ has_class (w_sched w) p
}.

Lemma broadcast_ok fuel w w1 cond rs rq :
  let ps := (fun r => wget w r we_task) <$> rs in
  receivers_ok w cond rs rq -> w_sched w1 = w_sched w ->
  (forall a f, queue_fld f = true -> wget w1 a f = wget w a f) -> (length (rq 4%Z) + length rs < fuel)%nat ->
  exists w4, cond_broadcast fuel w1 cond = Some w4 /\ wq_ok w4 cond [] /\
    Sched.queues_ok (w_sched w4) (enq_all (w_sched w) rq ps) /\
    (forall p, p ∈ ps -> get (w_sched w4) p state = PROCESS_STATE_READY) /\
    (forall a f, a <> cond -> wget w4 a f = wget w1 a f) /\ current_process (w_sched w4) = current_process (w_sched w).
Proof.
  intros ps [[Hl Ht] Hq Hnd Hps] Es Ef Hf.
  assert ((fun r => wget w1 r we_task) <$> rs = ps) as Eps by (apply list_fmap_ext; intros; by apply Ef).
  assert (wq_ok w1 cond rs) as Hw1.
  { split; [|by rewrite Ef]. rewrite Ef by done. eapply slist_ext; [|exact Hl]. intros x _. by apply Ef. }
  destruct (wake_all_ok fuel rs w1 cond rq fuel Hw1) as (w4 & Hwl & Hw4 & Hq4 & Hst4); rewrite ?Es, ?Eps; try done; [lia|].
  assert (cond_broadcast fuel w1 cond = Some w4) as Hb by (unfold cond_broadcast, wake_up_all; by rewrite Hwl).
  destruct (wake_up_all_frame _ _ _ _ Hb) as [Hfr Hcur]. exists w4. rewrite Es, Eps in *.
  split; [done|]. split; [done|]. split; [done|]. split; [|done]. intros p Hp. by rewrite Hst4, decide_True.
Qed.

(** Sending to a queue whose mutexes are free appends the message in the
    caller's buffer (its type and [msgsz] bytes) at the end of the queue and
    makes every process that waits on the queue ready, queued by its class in
    the order of waiting; when the heap is exhausted it returns -1 and changes
    no queue.  No other queue changes, and both mutexes are free again. *)
Theorem msgsnd_appends fuel s Q1 Q Q2 msgp msgsz rs rq :
  let q := mq_addr Q in
  let ps := (fun r => wget (ms_w s) r we_task) <$> rs in
  sys_ok s (Q1 ++ Q :: Q2) -> (length (Q1 ++ Q :: Q2) < fuel)%nat ->
  idle_mutex (ms_w s) queues_lock -> idle_mutex (ms_w s) (q_lock q) ->
  0 <= msgsz <= MSG_SIZE ->
  (forall h p, a_alloc (ms_heap s) sizeof_entry = Some (h, p) -> buffer_apart h msgp msgsz) ->
  receivers_ok (ms_w s) (q_cond q) rs rq -> (length (rq 4%Z) + length rs < fuel)%nat ->
  exists s' r, sys_msgsnd fuel s (mq_ident Q) msgp msgsz = Some (s', Ret r) /\
    idle_mutex (ms_w s') queues_lock /\ idle_mutex (ms_w s') (q_lock q) /\
    (r = -1 /\ sys_ok s' (Q1 ++ Q :: Q2) \/
     r = 0 /\ (exists e, sys_ok s' (Q1 ++ push_msg Q e (message (ms_mem s) msgp msgsz) :: Q2)) /\
     wq_ok (ms_w s') (q_cond q) [] /\ Sched.queues_ok (w_sched (ms_w s')) (enq_all (w_sched (ms_w s)) rq ps) /\
     (forall p, p ∈ ps -> get (w_sched (ms_w s')) p state = PROCESS_STATE_READY)).
Proof.
  intros q ps Hs Hf1 Hg Hq Hsz Hbuf Hrec Hf2. unfold sys_msgsnd.
  rewrite (proj2 (Z.ltb_ge MSG_SIZE msgsz)) by lia.
  rewrite (enter_queue fuel s Q1 Q Q2 (fun s q =>
    '(h, entry) ← a_alloc (ms_heap s) sizeof_entry;
    let s := with_heap s h in
    if entry =? 0 then s ← unlock fuel s (q_lock q); Some (s, Ret (-1))
    else
      let s := append_entry s q entry msgp msgsz in
      w ← cond_broadcast fuel (ms_w s) (q_cond q);
      s ← unlock fuel (with_w s w) (q_lock q);
      Some (s, Ret 0)) Hs Hf1 Hg Hq).
  fold q. set (w1 := locked _ (q_lock q) _). pose proof (sys_ok_w s _ w1 Hs) as Hs1.
  destruct (sys_ok_alloc _ _ sizeof_entry Hs1 ltac:(unfold sizeof_entry; lia)) as (h & e & Ha & Hs2 & Hp).
  change (ms_heap (with_w s w1)) with (ms_heap s) in *. rewrite Ha. cbn [mbind option_bind]. cbv zeta.
  pose proof (leave_queue (ms_w s) w1 q (me s) (sys_lock _ _ _ _ Hs) Hg Hq ltac:(done)) as ((U1 & U2 & U3) & I1 & I2).
  destruct Hp as [-> | (He & (t & Ht & Hl) & Hna & Hne)].
  { change (0 =? 0) with true. cbv iota. rewrite unlock_held by done. cbn [mbind option_bind].
    eexists _, _. split; [done|]. split; [exact I1|]. split; [exact I2|]. left. split; [done|]. by apply sys_ok_w. }
  rewrite (proj2 (Z.eqb_neq e 0) He).
  pose proof (append_sys_ok _ _ _ _ e t msgp msgsz Hs2 He Ht Hl Hna Hne Hsz (Hbuf h e Ha e t Hl)) as Hs3.
  set (s3 := append_entry _ _ _ _ _) in Hs3. change (append_entry (with_heap (with_w s w1) h) q e msgp msgsz) with s3.
  assert (ms_w s3 = w1) as Hw3 by (apply (append_entry_fields (with_heap (with_w s w1) h) q e msgp msgsz)).
  rewrite Hw3.
  destruct (broadcast_ok fuel (ms_w s) w1 (q_cond q) rs rq Hrec eq_refl) as (w4 & -> & Hw4 & Hq4 & Hst4 & Hfr & Hcur); [|done|].
  { intros a f Hf. unfold wget, w1. simpl. rewrite !wr_other; [done|right; by intros ->..]. }
  cbn [mbind option_bind].
  destruct (leave_queue (ms_w s) w4 q (me s) (sys_lock _ _ _ _ Hs) Hg Hq Hfr) as ((V1 & V2 & V3) & J1 & J2).
  rewrite unlock_held by (unfold me; cbn [with_w ms_w]; rewrite ?Hcur; done). cbn [mbind option_bind with_w ms_w].
  eexists _, _. split; [done|]. split; [exact J1|]. split; [exact J2|]. right. split; [done|].
  split; [exists e; by apply sys_ok_w, sys_ok_w|]. split; [|done].
  destruct Hw4 as [Hx Hy]. simpl in Hx. split; simpl; [rewrite <- Hx|rewrite <- Hy]; unfold wget; simpl; by wr_simp.
Qed.


(** ** Creating a queue *)

Lemma new_queue_fields s q key :
  let s' := new_queue s q key in
  ms_heap s' = ms_heap s /\ ms_mem s' = ms_mem s /\ queues s' = q /\ next_id s' = s32 (next_id s + 1) /\
  (forall x f, x <> q -> mget s' x f = mget s x f) /\
  mget s' q q_id = next_id s /\ mget s' q q_key = key /\ mget s' q q_head = 0 /\ mget s' q q_tail = 0 /\
  mget s' q q_count = 0 /\ mget s' q q_next = queues s /\ w_sched (ms_w s') = w_sched (ms_w s) /\
  idle_mutex (ms_w s') (q_lock q) /\
  (forall a f, a <> q_lock q -> a <> mutex_wait_q (q_lock q) -> a <> q_cond q -> wget (ms_w s') a f = wget (ms_w s) a f).
Proof.
  unfold new_queue. cbv zeta. do 4 (split; [done|]). split; [intros x f Hx; unfold mget; simpl; by wr_simp|].
  do 6 (split; [unfold mget; simpl; by wr_simp|]). split; [done|].
  assert (mutex_wait_q (q_lock q) <> q_cond q) by (unfold mutex_wait_q, q_lock, q_cond; lia).
  split; [split; unfold wget; simpl; by wr_simp|]. intros a f H1 H2 H3. unfold wget. simpl. by wr_simp.
Qed.

Lemma new_queue_ok s QS q t key :
  sys_ok s QS -> q <> 0 -> sizeof_queue <= t -> a_live (ms_heap s) q t ->
  q + t <= queues_lock \/ queues_lock + 96 <= q ->
  q ∉ mq_addr <$> QS -> q ∉ QS ≫= entries -> key ∉ mq_ckey <$> QS -> 0 < next_id s < 2 ^ 31 - 1 ->
  sys_ok (new_queue s q key) (MQ q (next_id s) key [] :: QS).
Proof.
  intros [H1 H2 H3 H4 H5 H6 H7 H8 H9] Hq0 Ht Hl Hlk Hqa Hqe Hk Hid.
  destruct (new_queue_fields s q key) as (Fh & Fm & Fq & Fn & Fo & F1 & F2 & F3 & F4 & F5 & F6 & _).
  rewrite s32_small in Fn by lia. rewrite Forall_forall in H4, H9.
  assert (forall Q, Q ∈ QS -> mq_addr Q <> q /\ forall e, e ∈ entries Q -> e <> q) as Hsep.
  { intros Q HQ. split; [intros <-; apply Hqa; by apply list_elem_of_fmap_2|].
    intros e He ->. apply Hqe. apply list_elem_of_bind. by exists Q. }
  split; cbn [fmap list_fmap mbind list_bind mq_addr mq_ident mq_ckey]; rewrite ?Fh, ?Fm, ?Fq, ?Fn; try done.
  - change (q = q /\ q <> 0 /\ slist (ms_st (new_queue s q key)) q_next (mget (new_queue s q key) q q_next) (mq_addr <$> QS)).
    split; [done|]. split; [done|]. rewrite F6. eapply slist_ext; [|exact H3]. intros x Hx. apply Fo. by intros ->.
  - constructor.
    + split; cbn [mq_addr mq_ident mq_ckey]; rewrite ?F1, ?F2, ?F3, ?F4, ?F5, ?Fh; try done; [by exists t|].
      unfold sizeof_queue in *. lia.
    + apply Forall_forall. intros Q HQ. destruct (Hsep Q HQ) as [Ha He].
      apply (queue_ok_ext s); [intros; by apply Fo|intros e f Hin; by apply Fo, He|by rewrite Fm|by rewrite Fh|by apply H4].
  - intros e He. apply not_elem_of_cons. split; [|by apply H6]. intros ->. done.
  - constructor; [|done]. intros Hin. apply list_elem_of_fmap_1 in Hin as (Q & E & HQ). pose proof (H9 Q HQ). lia.
  - by constructor.
  - constructor; [simpl; lia|]. apply Forall_forall. intros Q HQ. pose proof (H9 Q HQ). lia.
Qed.

Lemma queue_keys s QS : sys_ok s QS -> Forall (fun Q => mget s (mq_addr Q) q_key = mq_ckey Q) QS.
Proof. intros [_ _ _ H4 _ _ _ _ _]. eapply Forall_impl; [exact H4|]. by intros Q [_ H2 _ _ _ _ _ _]. Qed.

(** [sys_msgget] returns the identifier of the queue with the given key, and
    makes an empty one with a fresh identifier if there is none and the heap
    has room for it. *)
Theorem msgget_finds_or_creates fuel s QS key :
  sys_ok s QS -> (length QS < fuel)%nat -> idle_mutex (ms_w s) queues_lock -> 0 < next_id s < 2 ^ 31 - 1 ->
  (forall h p t, a_alloc (ms_heap s) sizeof_queue = Some (h, p) -> a_live h p t -> p + t <= queues_lock \/ queues_lock + 96 <= p) ->
  exists s' r, sys_msgget fuel s key = Some (s', Ret r) /\ idle_mutex (ms_w s') queues_lock /\
    ((exists Q, Q ∈ QS /\ mq_ckey Q = key /\ r = mq_ident Q /\ sys_ok s' QS) \/
     key ∉ mq_ckey <$> QS /\ (r = -1 /\ sys_ok s' QS \/
       exists q, r = next_id s /\ idle_mutex (ms_w s') (q_lock q) /\ sys_ok s' (MQ q r key [] :: QS))).
Proof.
  intros Hs Hf Hg Hid Hlk. unfold sys_msgget. rewrite (lock_idle fuel s queues_lock Hg). cbn [mbind option_bind negb].
  set (w1 := locked (ms_w s) queues_lock (me s)). pose proof (sys_ok_w s _ w1 Hs) as Hs1.
  unfold find_queue_key. rewrite (find_queue_loop fuel _ _ q_key key Hs1 Hf). cbn [mbind option_bind].
  assert (forall s', ms_w s' = w1 -> unlock fuel s' queues_lock = Some (with_w s' (unlocked w1 queues_lock))) as Hun.
  { intros s' E. rewrite unlock_held, E; [done|rewrite E; unfold me; rewrite E; unfold wget; simpl; by wr_simp
      |rewrite E; unfold wget; simpl; by wr_simp|rewrite E; unfold wget; simpl; wr_simp; apply Hg]. }
  assert (idle_mutex (unlocked w1 queues_lock) queues_lock) as Hidle.
  { split; [unfold wget; simpl; by wr_simp|]. rewrite <- (proj2 Hg). unfold wget. simpl. by wr_simp. }
  destruct (decide (key ∈ mq_ckey <$> QS)) as [Hin|Hni].
  - apply list_elem_of_fmap_1 in Hin as (Q & -> & HQ). apply list_elem_of_split in HQ as (Q1 & Q2 & ->).
    rewrite (find_by_key mq_addr mq_ckey (fun c => mget (with_w s w1) c q_key)) by (apply Hs || by apply queue_keys). cbn [from_option]. unfold id.
    assert (mq_addr Q <> 0) as Hq0.
    { destruct Hs as [_ _ H3 _ _ _ _ _ _]. eapply slist_nonzero; [exact H3|]. rewrite fmap_app. apply elem_of_app. right. left. }
    rewrite (proj2 (Z.eqb_neq _ _) Hq0), Hun by done. cbn [negb mbind option_bind]. eexists _, _. split; [done|].
    split; [exact Hidle|]. left. exists Q. split; [apply elem_of_app; right; left|]. split; [done|].
    split; [|by apply sys_ok_w, sys_ok_w]. pose proof (queue_ids _ _ Hs) as Hids. apply Forall_app in Hids as [_ Hids].
    by apply Forall_cons in Hids as [Hids _].
  - rewrite (find_no_key mq_addr mq_ckey (fun c => mget (with_w s w1) c q_key)) by (done || by apply queue_keys). cbn [from_option]. change (negb (0 =? 0)) with false. cbv iota.
    destruct (sys_ok_alloc _ _ sizeof_queue Hs1 ltac:(unfold sizeof_queue; lia)) as (h & q & Ha & Hs2 & Hp).
    rewrite Ha. cbn [mbind option_bind]. destruct Hp as [-> | (Hq0 & (t & Ht & Hl) & Hqa & Hqe)].
    + change (0 =? 0) with true. cbv iota. rewrite Hun by done. cbn [mbind option_bind]. eexists _, _. split; [done|].
      split; [exact Hidle|]. right. split; [done|]. left. split; [done|]. by apply sys_ok_w.
    + rewrite (proj2 (Z.eqb_neq _ _) Hq0). pose proof (Hlk h q t Ha Hl) as Hap.
      destruct (new_queue_fields (with_heap (with_w s w1) h) q key)
        as (_ & _ & _ & _ & _ & Fi & _ & _ & _ & _ & _ & Fs & [Fm1 Fm2] & Fw).
      pose proof (new_queue_ok _ _ q t key Hs2 Hq0 Ht Hl Hap Hqa Hqe Hni Hid) as Hs3.
      set (s4 := new_queue (with_heap (with_w s w1) h) q key) in *. change (ms_w (with_heap (with_w s w1) h)) with w1 in *. clearbody s4.
      unfold sizeof_queue in *.
      assert (forall f, wget (ms_w s4) queues_lock f = wget w1 queues_lock f /\
        wget (ms_w s4) (mutex_wait_q queues_lock) f = wget w1 (mutex_wait_q queues_lock) f) as Hsame.
      { intros f. split; apply Fw; unfold q_lock, mutex_wait_q, q_cond; lia. }
      assert (queues_lock <> q_lock q) as Hne by (unfold q_lock; lia).
      rewrite unlock_held; [idtac|rewrite (proj1 (Hsame _)); unfold me; rewrite Fs; unfold wget; simpl; by wr_simp
        |rewrite (proj1 (Hsame _)); unfold wget; simpl; by wr_simp
        |rewrite (proj2 (Hsame _)); unfold wget; simpl; wr_simp; apply Hg].
      cbn [mbind option_bind]. eexists _, _. split; [done|]. cbn [with_w ms_w].
      split; [split; [unfold wget; simpl; by wr_simp|]|].
      { rewrite <- (proj2 Hg). unfold wget. simpl. wr_simp. fold (wget (ms_w s4) (mutex_wait_q queues_lock) wq_head).
        rewrite (proj2 (Hsame _)). unfold wget. simpl. by wr_simp. }
      right. split; [done|]. right. exists q. split; [exact Fi|].
      split; [unfold idle_mutex, wget; simpl; wr_simp; by split|].
      apply sys_ok_w. replace (mget (with_w s4 (unlocked (ms_w s4) queues_lock)) q q_id) with (next_id s) by (symmetry; exact Fi). exact Hs3.
Qed.

End msg.

(** ** A concrete system

    One queue at 0x1028 with two messages, of types 5 and 7, and a process, 800,
    that waits for a third; 100 runs, with a message of type 5 at 0x100. *)
#[local] Existing Instance Heap.heap_allocator.

Definition demo_tiles : list (Z * bool) := [(184, false); (1048, false); (1048, false); (4096, true)].

Definition demo_mst : store mfld := fun x f =>
  match f with
  | e_type => if x =? 0x1108 then 5 else if x =? 0x1548 then 7 else 0
  | e_size => if x =? 0x1108 then 3 else if x =? 0x1548 then 2 else 0
  | e_next => if x =? 0x1108 then 0x1548 else 0
  | q_id => if x =? 0x1028 then 1 else 0
  | q_key => if x =? 0x1028 then 77 else 0
  | q_head => if x =? 0x1028 then 0x1108 else 0
  | q_tail => if x =? 0x1028 then 0x1548 else 0
  | q_count => if x =? 0x1028 then 2 else 0
  | q_next => 0
  end.

Definition demo_mem : mem := fun x =>
  if x =? 0x1110 then 1 else if x =? 0x1111 then 2 else if x =? 0x1112 then 3 else
  if x =? 0x1550 then 9 else if x =? 0x1551 then 8 else if x =? 0x100 then 5 else if x =? 0x108 then 42 else 0.

Definition demo_w : wsys :=
  WSys demo_sched (fun x f => match f with
    | wq_head | wq_tail => if x =? q_cond 0x1028 then 5000 else 0
    | we_task => if x =? 5000 then 800 else 0
    | _ => 0 end).

Definition demo_msys : msys (A := Spinlock.cpu * Heap.heap) :=
  MS (Heap.demo_cpu, Heap.heap_of 0x1000 demo_tiles) demo_mst demo_mem 0x1028 2 demo_w.

Definition demo_queue : mq := MQ 0x1028 1 77 [(0x1108, (5, [1; 2; 3])); (0x1548, (7, [9; 8]))].

Lemma demo_msg_tiles_ok : Heap.tiles_ok 0x1000 demo_tiles.
Proof. split; [lia|]. split; [repeat constructor; lia|vm_compute; done]. Qed.

Lemma demo_live x t : (x, t) ∈ [(0x1028, 184); (0x1108, 1048); (0x1548, 1048)] <-> a_live (ms_heap demo_msys) x t.
Proof.
  split; intros Hx.
  - apply Heap.heap_of_live; [exact demo_msg_tiles_ok|done|exact Hx].
  - apply (Heap.h_live_iff _ demo_tiles) in Hx; [exact Hx|]. apply Heap.heap_of_rep; [exact demo_msg_tiles_ok|done].
Qed.

Lemma demo_msys_ok : sys_ok 100 demo_msys [demo_queue].
Proof.
  split.
  - exists demo_tiles. apply Heap.heap_of_rep; [exact demo_msg_tiles_ok|done].
  - intros x. unfold demo_msys, demo_mem. simpl. repeat case_match; lia.
  - by vm_compute.
  - apply Forall_singleton. split; [reflexivity|reflexivity|by vm_compute|reflexivity|reflexivity| | |].
    + assert (forall x, x = 0x1108 \/ x = 0x1548 -> exists t, sizeof_entry <= t /\ a_live (ms_heap demo_msys) x t) as Hl.
      { intros x Hx. exists 1048. split; [unfold sizeof_entry; lia|]. apply demo_live. set_unfold. destruct Hx as [-> | ->]; auto. }
      constructor; [|constructor; [|done]]; (split; [reflexivity|]; split; [reflexivity|]; split; [vm_compute; discriminate|];
        split; [reflexivity|]; apply Hl; auto).
    + exists 184. split; [unfold sizeof_queue; lia|]. apply demo_live. left.
    + right. simpl. lia.
  - vm_compute. repeat constructor; set_solver.
  - vm_compute. set_solver.
  - vm_compute. repeat constructor; set_solver.
  - vm_compute. repeat constructor; set_solver.
  - apply Forall_singleton. simpl. lia.
Qed.

Lemma msgrcv_first_match_witness :
  exists s', sys_msgrcv 100 5 demo_msys 1 0x9000 64 7 = Some (s', Ret 2) /\ load64 (ms_mem s') 0x9000 = 7 /\
    bytes_at (ms_mem s') 0x9008 2 = [9; 8].
Proof.
  destruct (msgrcv_first_match 100 5 demo_msys [] demo_queue [] 0x9000 64 7 demo_msys_ok) as (s' & o & Hr & _ & _ & _ & Hyes & _).
  - simpl. lia.
  - simpl. lia.
  - by vm_compute.
  - by vm_compute.
  - lia.
  - intros a t Hl. apply demo_live in Hl. set_unfold. destruct Hl as [[= -> ->]|[[= -> ->]|[[= -> ->]|[]]]]; lia.
  - destruct (Hyes [(0x1108, (5, [1; 2; 3]))] 0x1548 (7, [9; 8]) []) as (-> & _ & H1 & H2);
      [done|by repeat constructor|done|].
    exists s'. split; [exact Hr|]. split; [exact H1|exact H2].
Defined.


(** Every heap block lies above the buffer. *)
Lemma demo_buffer h p :
  a_alloc (ms_heap demo_msys) sizeof_entry = Some (h, p) -> buffer_apart h 0x100 1.
Proof.
  intros Ha a t Hl.
  destruct (Heap.kmalloc_rep Heap.demo_cpu (Heap.heap_of 0x1000 demo_tiles) demo_tiles sizeof_entry) as (h' & p' & Hk & Hfl & Hm);
    [apply Heap.heap_of_rep; [exact demo_msg_tiles_ok|done]|unfold sizeof_entry; lia|].
  change (Heap.kmalloc Heap.demo_cpu (Heap.heap_of 0x1000 demo_tiles) sizeof_entry = Some (h, p)) in Ha.
  rewrite Hk in Ha. injection Ha as <- <-. change (Heap.free_list (Heap.heap_of 0x1000 demo_tiles)) with 0x1000 in Hfl.
  destruct (Heap.spec_alloc _ _) as [[off l]|]; destruct Hm as [_ Hr];
    (apply (Heap.h_live_iff (Heap.demo_cpu, h') _ _ _ Hr) in Hl; destruct Hr as ((_ & Hok & _) & _);
     apply Heap.live_bounds in Hl; [|exact Hok]; simpl in Hl; rewrite Hfl in Hl; unfold Heap.HEAP_BLOCK_SIZE in Hl; lia).
Qed.

Lemma demo_receivers : receivers_ok demo_w (q_cond 0x1028) [5000] demo_q.
Proof.
  split.
  - by vm_compute.
  - exact demo_queues.
  - apply NoDup_singleton.
  - intros p Hp. apply list_elem_of_singleton in Hp as ->. split; [done|].
    split; [intros i Hi; six_cases i; vm_compute; set_solver|by left].
Qed.

Lemma msgsnd_appends_witness :
  exists s' r, sys_msgsnd 100 5 demo_msys 1 0x100 1 = Some (s', Ret r) /\
    (r = 0 -> get (w_sched (ms_w s')) 800 state = PROCESS_STATE_READY /\
       exists e, sys_ok 100 s' [push_msg demo_queue e (5, [42])]).
Proof.
  destruct (msgsnd_appends 100 5 demo_msys [] demo_queue [] 0x100 1 [5000] demo_q demo_msys_ok) as (s' & r & Hr & _ & _ & Hcase).
  - simpl. lia.
  - by vm_compute.
  - by vm_compute.
  - unfold MSG_SIZE. lia.
  - exact demo_buffer.
  - exact demo_receivers.
  - simpl. lia.
  - exists s', r. split; [exact Hr|]. intros ->. destruct Hcase as [[H _]|(_ & [e He] & _ & _ & Hp)]; [discriminate H|].
    split; [apply Hp; left|]. exists e. exact He.
Defined.

End Msg.
