(* ===== verification/FileMap.v ===== *)
(** * The page cache and file reads and writes through it
      (src/kernel/mm/page_cache.c, src/kernel/fs/filemap.c)

    A mapping keeps the pages of a file in a radix tree indexed by page number;
    a page structure is a heap block that names the frame with the page's
    bytes.  Reading and writing go page by page: a page that is not cached is
    allocated, entered into the tree and filled by the file system's
    [readpage], or with zeros when there is none.

    One mapping is modelled, with its inode's size; the bytes of the frames and
    of the caller's buffer are those of physical memory, which the kernel
    addresses directly. *)
From S2P Require Import Prelude Memory CString Allocator Store Spinlock Pmm Heap Radix.
Import CString Pmm Radix.

Module FileMap.

(** [struct page]; [private] and [lru] are never used. *)
Inductive pgfld := pg_flags | pg_count | pg_mapping | pg_index | pg_virtual.
#[export] Instance pgfld_eq_dec : EqDecision pgfld.
Proof. solve_decision. Defined.

Definition sizeof_page : Z := 64.
Definition PG_dirty : Z := 4.

Section filemap.
Context {A : Type} `{Allocator A}.
(** The address of the mapping. *)
Variable mapping : Z.
(** [a_ops->readpage], if there is one: from the page's index, its frame and
    the memory to the memory and a return code. *)
Variable readpage : option (Z -> Z -> mem -> mem * Z).

Record fmap := FM {
  fm_tree : rtree (A := A); fm_pmm : pmm; fm_pages : store pgfld; nrpages : Z; i_size : Z
}.

Definition fm_mem (s : fmap) : mem := pm_mem (fm_pmm s).
Definition pget (s : fmap) (p : Z) (f : pgfld) : Z := fm_pages s p f.
Definition pset (s : fmap) (p : Z) (f : pgfld) (v : Z) : fmap :=
  FM (fm_tree s) (fm_pmm s) (wr (fm_pages s) p f v) (nrpages s) (i_size s).
Definition with_tree (s : fmap) (t : rtree) : fmap := FM t (fm_pmm s) (fm_pages s) (nrpages s) (i_size s).
Definition with_pmm (s : fmap) (p : pmm) : fmap := FM (fm_tree s) p (fm_pages s) (nrpages s) (i_size s).
Definition with_bytes (s : fmap) (m : mem) : fmap := with_pmm s (with_mem (fm_pmm s) m).
Definition with_nr (s : fmap) (n : Z) : fmap := FM (fm_tree s) (fm_pmm s) (fm_pages s) n (i_size s).
Definition with_size (s : fmap) (n : Z) : fmap := FM (fm_tree s) (fm_pmm s) (fm_pages s) (nrpages s) n.
Definition with_heap (s : fmap) (h : A) : fmap :=
  with_tree s (RT h (r_st (fm_tree s)) (height (fm_tree s)) (rnode (fm_tree s))).

(** ** Page references *)

Definition get_page (s : fmap) (p : Z) : fmap := pset s p pg_count (s32 (pget s p pg_count + 1)).
Definition put_page (s : fmap) (p : Z) : fmap := pset s p pg_count (s32 (pget s p pg_count - 1)).
Definition SetPageDirty (s : fmap) (p : Z) : fmap := pset s p pg_flags (pget s p pg_flags .| (1 .<< PG_dirty)).

(** [memset(page, 0, sizeof(struct page))] *)
Definition clear_page (s : fmap) (p : Z) : fmap :=
  FM (fm_tree s) (fm_pmm s) (fun x f => if decide (x = p) then 0 else fm_pages s x f) (nrpages s) (i_size s).

(** ** The page cache *)

Definition find_get_page (s : fmap) (offset : Z) : option (fmap * Z) :=
  if mapping =? 0 then Some (s, 0)
  else
    page ← radix_tree_lookup (fm_tree s) offset;
    Some (if negb (page =? 0) then get_page s page else s, page).

Definition add_to_page_cache (fuel : nat) (s : fmap) (page offset : Z) : option (fmap * Z) :=
  if (mapping =? 0) || (page =? 0) then Some (s, -1)
  else
    '(t, ret) ← radix_tree_insert fuel (fm_tree s) offset page;
    let s := with_tree s t in
    let s := if ret =? 0 then
               let s := pset s page pg_mapping mapping in
               let s := pset s page pg_index offset in
               with_nr s (u64 (nrpages s + 1))
             else s in
    Some (s, ret).

Definition delete_from_page_cache (fuel : nat) (s : fmap) (page : Z) : option fmap :=
  if pget s page pg_mapping =? 0 then Some s
  else
    '(t, item) ← radix_tree_delete fuel (fm_tree s) (pget s page pg_index);
    let s := with_tree s t in
    let s := if negb (item =? 0) then with_nr s (u64 (nrpages s - 1)) else s in
    let s := pset s page pg_mapping 0 in
    Some (put_page s page).

(** A page whose 4096 bytes come from the heap. *)
Definition alloc_page (s : fmap) : option (fmap * Z) :=
  '(h, p) ← a_alloc (r_heap (fm_tree s)) sizeof_page;
  let s := with_heap s h in
  if p =? 0 then Some (s, 0)
  else
    let s := pset (clear_page s p) p pg_count 1 in
    '(h, v) ← a_alloc (r_heap (fm_tree s)) 4096;
    let s := pset (with_heap s h) p pg_virtual v in
    if v =? 0 then h ← a_free (r_heap (fm_tree s)) p; Some (with_heap s h, 0)
    else Some (with_bytes s (memset (fm_mem s) v 0 4096), p).

Definition free_page (s : fmap) (page : Z) : option fmap :=
  s ← (if negb (pget s page pg_virtual =? 0)
       then h ← a_free (r_heap (fm_tree s)) (pget s page pg_virtual); Some (with_heap s h) else Some s);
  h ← a_free (r_heap (fm_tree s)) page;
  Some (with_heap s h).

(** ** Reading and writing *)

(** The page of the given index: cached, or new and entered into the cache
    (then the flag is set); the page 0 when memory runs out. *)
Definition cached_page (fuel : nat) (s : fmap) (page_index : Z) : option (fmap * Z * bool) :=
  '(s, page) ← find_get_page s page_index;
  if negb (page =? 0) then Some (s, page, false)
  else
    '(phys, p) ← pmm_alloc_page (fm_pmm s);
    let s := with_pmm s p in
    if phys =? 0 then Some (s, 0, false)
    else
      '(h, page) ← a_alloc (r_heap (fm_tree s)) sizeof_page;
      let s := with_heap s h in
      if page =? 0 then Some (with_pmm s (pmm_free_page (fm_pmm s) phys), 0, false)
      else
        let s := pset (clear_page s page) page pg_virtual phys in
        '(s, ret) ← add_to_page_cache fuel s page page_index;
        if negb (ret =? 0) then
          h ← a_free (r_heap (fm_tree s)) page;
          let s := with_heap s h in
          let s := with_pmm s (pmm_free_page (fm_pmm s) phys) in
          '(s, page) ← find_get_page s page_index;
          Some (s, page, false)
        else Some (s, page, true).

(** A new page is filled; the return code of [readpage]. *)
Definition fill_page (s : fmap) (page : Z) : fmap * Z :=
  match readpage with
  | Some f =>
      let '(m, ret) := f (pget s page pg_index) (pget s page pg_virtual) (fm_mem s) in (with_bytes s m, ret)
  | None => (with_bytes s (memset (fm_mem s) (pget s page pg_virtual) 0 4096), 0)
  end.

(** The part of the transfer that stays within a page. *)
Definition chunk (pos count : Z) : Z :=
  let bytes := 4096 - (pos .& 4095) in if count <? bytes then count else bytes.

(** The loop variables: the state, the bytes done, the position and the bytes
    left; a negative result leaves the file position alone. *)
Definition read_step (fuel : nat) (buf : Z) : fmap * Z * Z * Z -> (fmap * Z * Z * Z) + option (fmap * Z * option Z) :=
  fun '(s, read, pos, cnt) =>
    if 0 <? cnt then
      let page_index := pos .>> 12 in
      let offset := pos .& 4095 in
      let bytes := chunk pos cnt in
      match cached_page fuel s page_index with
      | None => inr None
      | Some (s, page, fresh) =>
          if page =? 0 then inr (Some (s, -1, None))
          else
            let '(s, ret) := if (fresh : bool) then fill_page s page else (s, 0) in
            if negb (ret =? 0) then inr (Some (s, -1, None))
            else
              let s := with_bytes s (memcpy (fm_mem s) (buf + read) (pget s page pg_virtual + offset) bytes) in
              let s := put_page s page in
              inl (s, read + bytes, u64 (pos + bytes), cnt - bytes)
      end
    else inr (Some (s, read, Some pos)).

(** The number of bytes read or -1, and the new file position. *)
Definition generic_file_read (fuel : nat) (s : fmap) (buf count pos : Z) : option (fmap * Z * option Z) :=
  if mapping =? 0 then Some (s, -1, None)
  else mjoin (loop fuel (read_step fuel buf) (s, 0, pos, count)).

Definition write_step (fuel : nat) (buf : Z) : fmap * Z * Z * Z -> (fmap * Z * Z * Z) + option (fmap * Z * option Z) :=
  fun '(s, written, pos, cnt) =>
    if 0 <? cnt then
      let page_index := pos .>> 12 in
      let offset := pos .& 4095 in
      let bytes := chunk pos cnt in
      match cached_page fuel s page_index with
      | None => inr None
      | Some (s, page, fresh) =>
          if page =? 0 then inr (Some (s, -1, None))
          else
            let s := if (fresh : bool) && (bytes <? 4096) then fst (fill_page s page) else s in
            let s := with_bytes s (memcpy (fm_mem s) (pget s page pg_virtual + offset) (buf + written) bytes) in
            let s := SetPageDirty s page in
            let s := if i_size s <? u64 (pos + bytes) then with_size s (u64 (pos + bytes)) else s in
            let s := put_page s page in
            inl (s, written + bytes, u64 (pos + bytes), cnt - bytes)
      end
    else inr (Some (s, written, Some pos)).

Definition generic_file_write (fuel : nat) (s : fmap) (buf count pos : Z) : option (fmap * Z * option Z) :=
  if mapping =? 0 then Some (s, -1, None)
  else mjoin (loop fuel (write_step fuel buf) (s, 0, pos, count)).


(** ** Frames *)

(** What allocating and freeing a frame leave alone. *)
Record same_pmm (p p' : pmm) : Prop := {
  sp_wf : pmm_wf p';
  sp_ok : mem_ok (pm_mem p');
  sp_bitmap : bitmap p' = bitmap p;
  sp_total : total_pages p' = total_pages p;
  sp_mem : forall x, off_pmm_bitmap p x -> pm_mem p' x = pm_mem p x
}.

(** No frame is left (frame 0 is never handed out). *)
Definition all_used (p : pmm) : Prop := forall j, 0 < j < total_pages p -> used p j = true.

Lemma alloc_frame p :
  pmm_wf p -> mem_ok (pm_mem p) ->
  exists a p', pmm_alloc_page p = Some (a, p') /\ same_pmm p p' /\
    ((a = 0 /\ all_used p /\ forall j, 0 < j -> used p' j = used p j) \/
     exists f, a = f * PAGE_SIZE /\ 0 < f < total_pages p /\ used p f = false /\
       forall j, 0 < j -> used p' j = if decide (f = j) then true else used p j).
Proof.
  intros Hwf Hm. destruct (pmm_alloc_page_total p Hwf) as (a & p' & Ha & Hp). exists a, p'. split; [done|].
  assert (bitmap p' = bitmap p /\ total_pages p' = total_pages p) as [Hb Ht].
  { destruct Hp as [(i & _ & _ & (? & ? & _) & _)|(_ & _ & ? & ? & _)]; done. }
  split; [split; [by apply (alloc_page_rec_wf 2 p a)|by apply (alloc_page_rec_mem_ok 2 p a)|done|done|]|].
  { intros x Hx. by apply (alloc_page_rec_mem 2 p a). }
  destruct Hp as [(f & Hf & -> & (_ & _ & _ & Hu & Hj) & _)|(-> & _ & _ & _ & Hj & Hall)]; [right|left].
  - exists f. split; [done|]. split; [done|]. split; [done|]. intros j Hj0. apply Hj; lia.
  - split; [done|]. split; [exact Hall|]. intros j Hj0. apply Hj; lia.
Qed.

Lemma free_frame p f :
  pmm_wf p -> mem_ok (pm_mem p) -> 0 < f < total_pages p ->
  let p' := pmm_free_page p (f * PAGE_SIZE) in
  same_pmm p p' /\ forall j, 0 < j -> used p' j = if decide (f = j) then false else used p j.
Proof.
  intros Hwf Hm Hf p'. assert (f * PAGE_SIZE / PAGE_SIZE = f) as E by (apply Z.div_mul; unfold PAGE_SIZE; lia).
  unfold p', pmm_free_page. rewrite E, (proj2 (Z.ltb_lt _ _)) by lia.
  assert (forall j, 0 < j -> used (pmm_clear_bit p f) j = if decide (f = j) then false else used p j) as Hu
    by (intros j Hj; apply used_clear; lia).
  assert (forall x, off_pmm_bitmap p x -> pm_mem (pmm_clear_bit p f) x = pm_mem p x) as Hx.
  { intros x Hx. apply store8_other. pose proof (Z.div_pos f 8). unfold off_pmm_bitmap in Hx.
    pose proof (Z.div_le_mono f (total_pages p) 8 ltac:(lia) ltac:(lia)). lia. }
  assert (mem_ok (pm_mem (pmm_clear_bit p f))) as Hm' by (by apply store8_ok).
  destruct Hwf as [Ht Hl]. cbv zeta. simpl. case_if; (split; [split; [split; simpl in *; lia|exact Hm'|done|done|exact Hx]|exact Hu]).
Qed.


(** ** Well-formed caches *)

(** [v] is the start of an allocated frame, away from the allocator's bitmap. *)
Definition frame_at (p : pmm) (v : Z) : Prop :=
  exists f, v = f * PAGE_SIZE /\ 0 < f < total_pages p /\ used p f = true /\
    forall x, v <= x < v + PAGE_SIZE -> off_pmm_bitmap p x.

Record cache_ok (s : fmap) (N : gset Z) : Prop := {
  co_mapping : mapping <> 0;
  co_tree : tree_ok (fm_tree s) N;
  co_nodes : live_set (r_heap (fm_tree s)) N;
  co_mem : mem_ok (fm_mem s);
  co_pmm : pmm_wf (fm_pmm s);
  co_bitmap : forall x, ~ off_pmm_bitmap (fm_pmm s) x -> reserved (fm_pmm s) x;
  co_page : forall i, 0 <= i -> entry (fm_tree s) i <> 0 ->
    live_at (r_heap (fm_tree s)) (entry (fm_tree s) i) /\ pget s (entry (fm_tree s) i) pg_index = i /\
    frame_at (fm_pmm s) (pget s (entry (fm_tree s) i) pg_virtual);
  co_frames : forall i j, 0 <= i -> 0 <= j -> entry (fm_tree s) i <> 0 -> entry (fm_tree s) j <> 0 -> i <> j ->
    pget s (entry (fm_tree s) i) pg_virtual <> pget s (entry (fm_tree s) j) pg_virtual
}.

(** The frame of page [i], 0 if the page is not cached. *)
Definition frame_of (s : fmap) (i : Z) : Z :=
  if entry (fm_tree s) i =? 0 then 0 else pget s (entry (fm_tree s) i) pg_virtual.

(** A frame that becomes used holds no byte that is reserved. *)
Lemma fresh_frame p f x :
  0 < f < total_pages p -> used p f = false -> f * PAGE_SIZE <= x < f * PAGE_SIZE + PAGE_SIZE -> ~ reserved p x.
Proof. intros Hf Hu Hx Hr. rewrite (Hr f Hf) in Hu; [done|]. unfold PAGE_SIZE in *. lia. Qed.

Lemma off_same p p' x : same_pmm p p' -> off_pmm_bitmap p' x <-> off_pmm_bitmap p x.
Proof. intros [_ _ Hb Ht _]. unfold off_pmm_bitmap. by rewrite Hb, Ht. Qed.

Lemma reserved_mono p p' x :
  same_pmm p p' -> (forall j, 0 < j -> used p j = true -> used p' j = true) -> reserved p x -> reserved p' x.
Proof. intros [_ _ _ Ht _] Hu Hr f Hf Hx. rewrite Ht in Hf. apply Hu; [lia|]. by apply Hr. Qed.

(** The pages of [s] are in [s'] too; what is new are freshly allocated pages
    on a frame that was free. *)
Lemma cache_ok_intro s s' N N' :
  cache_ok s N -> tree_ok (fm_tree s') N' -> live_set (r_heap (fm_tree s')) N' -> same_pmm (fm_pmm s) (fm_pmm s') ->
  (forall j, 0 < j -> used (fm_pmm s) j = true -> used (fm_pmm s') j = true) ->
  (forall j, 0 <= j -> entry (fm_tree s) j <> 0 -> entry (fm_tree s') j = entry (fm_tree s) j /\
     live_at (r_heap (fm_tree s')) (entry (fm_tree s) j) /\
     pget s' (entry (fm_tree s) j) pg_virtual = pget s (entry (fm_tree s) j) pg_virtual /\
     pget s' (entry (fm_tree s) j) pg_index = pget s (entry (fm_tree s) j) pg_index) ->
  (forall j, 0 <= j -> entry (fm_tree s) j = 0 -> entry (fm_tree s') j <> 0 ->
     live_at (r_heap (fm_tree s')) (entry (fm_tree s') j) /\ pget s' (entry (fm_tree s') j) pg_index = j /\
     exists f, pget s' (entry (fm_tree s') j) pg_virtual = f * PAGE_SIZE /\ 0 < f < total_pages (fm_pmm s) /\
       used (fm_pmm s) f = false /\ used (fm_pmm s') f = true) ->
  (forall j k, 0 <= j -> 0 <= k -> entry (fm_tree s) j = 0 -> entry (fm_tree s') j <> 0 -> entry (fm_tree s) k = 0 -> entry (fm_tree s') k <> 0 -> j = k) ->
  cache_ok s' N'.
Proof.
  intros [H0 _ _ _ _ H5 H6 H7] Ht HN Hsp Hu Hold Hnew Hone. pose proof Hsp as [Hwf Hm Hb Htp _].
  split; try done.
  - intros x Hx. rewrite (off_same _ _ _ Hsp) in Hx. apply (reserved_mono (fm_pmm s)); [done|done|by apply H5].
  - intros i Hi Hne. destruct (decide (entry (fm_tree s) i = 0)) as [E|E].
    + destruct (Hnew i Hi E Hne) as (Hl & Hix & f & Hv & Hf & Hu0 & Hu1). split; [done|]. split; [done|].
      exists f. rewrite Hv, Htp. split; [done|]. split; [done|]. split; [done|]. intros x Hx.
      rewrite (off_same _ _ _ Hsp). unfold off_pmm_bitmap. destruct (decide (off_pmm_bitmap (fm_pmm s) x)) as [|Hno]; [done|].
      exfalso. apply (fresh_frame _ f x Hf Hu0 Hx). by apply H5.
    + destruct (Hold i Hi E) as (-> & Hl & Hv & Hix). destruct (H6 i Hi E) as (_ & Hi' & f & Ev & Hf & Hu0 & Hx).
      split; [done|]. split; [by rewrite Hix|]. exists f. rewrite Hv, Htp. split; [done|]. split; [done|].
      split; [apply Hu; [lia|done]|]. intros x Hxr. rewrite (off_same _ _ _ Hsp). by apply Hx.
  - intros i j Hi Hj Hni Hnj Hij.
    destruct (decide (entry (fm_tree s) i = 0)) as [Ei|Ei], (decide (entry (fm_tree s) j = 0)) as [Ej|Ej].
    + destruct Hij. by apply Hone.
    + destruct (Hnew i Hi Ei Hni) as (_ & _ & f & -> & _ & Hu0 & _). destruct (Hold j Hj Ej) as (-> & _ & -> & _).
      destruct (H6 j Hj Ej) as (_ & _ & g & -> & _ & Hug & _). unfold PAGE_SIZE. intros E. assert (f = g) as -> by lia. congruence.
    + destruct (Hnew j Hj Ej Hnj) as (_ & _ & f & -> & _ & Hu0 & _). destruct (Hold i Hi Ei) as (-> & _ & -> & _).
      destruct (H6 i Hi Ei) as (_ & _ & g & -> & _ & Hug & _). unfold PAGE_SIZE. intros E. assert (f = g) as -> by lia. congruence.
    + destruct (Hold j Hj Ej) as (-> & _ & -> & _), (Hold i Hi Ei) as (-> & _ & -> & _). by apply H7.
Qed.


(** What looking up, or making, page [i] gives. *)
Record cached (s s' : fmap) (i pg : Z) (fresh : bool) (N' : gset Z) : Prop := {
  ca_ok : cache_ok s' N';
  ca_pmm : same_pmm (fm_pmm s) (fm_pmm s');
  ca_reserved : forall x, reserved (fm_pmm s) x -> reserved (fm_pmm s') x;
  ca_size : i_size s' = i_size s;
  ca_page : pg <> 0 -> entry (fm_tree s') i = pg;
  ca_frames : forall j, 0 <= j -> fresh = false \/ j <> i -> frame_of s' j = frame_of s j;
  ca_fresh : fresh = true -> pg <> 0 /\ frame_of s i = 0 /\
    forall x, frame_of s' i <= x < frame_of s' i + PAGE_SIZE -> ~ reserved (fm_pmm s) x
}.

Lemma same_pmm_refl p : pmm_wf p -> mem_ok (pm_mem p) -> same_pmm p p.
Proof. intros. by split. Qed.

(** A state that differs in the frame allocator, the heap and the tree, but
    has the same pages. *)
Lemma cached_none s s' N N' i pg :
  cache_ok s N -> tree_ok (fm_tree s') N' -> live_set (r_heap (fm_tree s')) N' -> same_pmm (fm_pmm s) (fm_pmm s') ->
  (forall j, 0 < j -> used (fm_pmm s') j = used (fm_pmm s) j) -> i_size s' = i_size s ->
  (forall j, 0 <= j -> entry (fm_tree s') j = entry (fm_tree s) j) ->
  (forall j, 0 <= j -> entry (fm_tree s) j <> 0 ->
     live_at (r_heap (fm_tree s')) (entry (fm_tree s) j) /\
     pget s' (entry (fm_tree s) j) pg_virtual = pget s (entry (fm_tree s) j) pg_virtual /\
     pget s' (entry (fm_tree s) j) pg_index = pget s (entry (fm_tree s) j) pg_index) ->
  (pg <> 0 -> entry (fm_tree s) i = pg) -> 0 <= i ->
  cached s s' i pg false N'.
Proof.
  intros Hs Ht HN Hsp Hu Hsz He Hp Hpg Hi.
  assert (forall j, 0 < j -> used (fm_pmm s) j = true -> used (fm_pmm s') j = true) as Hu' by (intros j Hj <-; by apply Hu).
  split; try done.
  - apply (cache_ok_intro s s' N N'); try done.
    + intros j Hj Hne. split; [by apply He|by apply Hp].
    + intros j Hj E Hne. by rewrite He in Hne.
    + intros j k Hj _ E Hne. by rewrite He in Hne.
  - intros x. by apply reserved_mono.
  - intros Hne. rewrite He by done. by apply Hpg.
  - intros j Hj _. unfold frame_of. rewrite He by done. destruct (Z.eqb_spec (entry (fm_tree s) j) 0) as [|E]; [done|].
    by apply (Hp j Hj E).
Qed.


(** ** Looking a page up *)

Lemma tree_ok_heap t N (h : A) :
  tree_ok t N -> a_wf h -> live_set h N -> tree_ok (RT h (r_st t) (height t) (rnode t)) N.
Proof. intros (_ & Hh & Hr) Hwf HN. split; [done|]. split; [done|]. intros Hne. destruct (Hr Hne) as (? & ? & _). done. Qed.

Lemma insert_fresh fuel t N idx item :
  tree_ok t N -> live_set (r_heap t) N -> 0 <= idx < 2 ^ 60 -> item <> 0 -> (12 <= fuel)%nat -> entry t idx = 0 ->
  exists t' r N', radix_tree_insert fuel t idx item = Some (t', r) /\ tree_ok t' N' /\ live_set (r_heap t') N' /\
    (forall x s, a_live (r_heap t) x s -> a_live (r_heap t') x s) /\ (forall x, x ∈ N' -> x ∈ N \/ ~ live_at (r_heap t) x) /\
    ((r = 0 /\ forall j, 0 <= j -> entry t' j = if j =? idx then item else entry t j) \/
     (r = -1 /\ oom_within 21 (r_heap t) /\ forall j, 0 <= j -> entry t' j = entry t j)).
Proof.
  intros Hok HN Hi Hitem Hf H0. destruct (insert_spec fuel t N idx item Hok Hi Hitem Hf) as (t' & r & N' & Hins & Hok' & [Hm Hn] & Hcase).
  assert ((r = 0 /\ forall j, 0 <= j -> entry t' j = if j =? idx then item else entry t j) \/
     (r = -1 /\ oom_within 21 (r_heap t) /\ forall j, 0 <= j -> entry t' j = entry t j)) as Hcase'
    by (destruct Hcase as [(? & _ & ?)|(? & ? & [?|?])]; [auto|done|auto]).
  destruct (decide (rnode t' = 0)) as [E|E].
  - exists t', r, ∅. split; [done|]. destruct Hok' as (Hwf & Hh & _). split; [by split|]. split; [set_solver|]. split; [done|]. by split; [set_solver|].
  - exists t', r, N'. split; [done|]. split; [done|]. destruct Hok' as (_ & _ & Hr). destruct (Hr E) as (_ & _ & Hl). done.
Qed.

Lemma find_get_page_spec s N i :
  cache_ok s N -> 0 <= i ->
  find_get_page s i = Some (if entry (fm_tree s) i =? 0 then s else get_page s (entry (fm_tree s) i), entry (fm_tree s) i).
Proof.
  intros Hs Hi. unfold find_get_page. rewrite (proj2 (Z.eqb_neq _ _) (co_mapping _ _ Hs)).
  rewrite (lookup_entry _ N) by (done || apply Hs). cbn [mbind option_bind]. by destruct (entry (fm_tree s) i =? 0).
Qed.

Lemma frame_zero s N i : cache_ok s N -> 0 <= i -> frame_of s i = 0 <-> entry (fm_tree s) i = 0.
Proof.
  intros Hs Hi. unfold frame_of. destruct (Z.eqb_spec (entry (fm_tree s) i) 0) as [|E]; [done|].
  destruct (co_page _ _ Hs i Hi E) as (_ & _ & f & -> & Hf & _). unfold PAGE_SIZE. split; [lia|done].
Qed.

(** The page structure and its frame before they are entered into the tree. *)
Definition new_page (s : fmap) (p : pmm) (h : A) (pg phys : Z) : fmap :=
  pset (clear_page (with_heap (with_pmm s p) h) pg) pg pg_virtual phys.

Lemma same_pmm_trans p1 p2 p3 : same_pmm p1 p2 -> same_pmm p2 p3 -> same_pmm p1 p3.
Proof.
  intros H1 H2. pose proof H1 as [_ _ Hb1 Ht1 Hm1]. pose proof H2 as [Hwf Hok Hb2 Ht2 Hm2].
  split; [done|done|congruence|congruence|]. intros x Hx. rewrite Hm2 by (by apply (off_same p1 p2)). by apply Hm1.
Qed.

(** A free frame [f] and a new heap block [pg] are set aside for a page that is
    not cached. *)
Section new_page.
Variables (s : fmap) (N : gset Z) (i : Z) (p : pmm) (h : A) (pg f : Z).
Hypothesis Hs : cache_ok s N.
Hypothesis Hi : 0 <= i < 2 ^ 60.
Hypothesis H0 : entry (fm_tree s) i = 0.
Hypothesis Hsp : same_pmm (fm_pmm s) p.
Hypothesis Hf : 0 < f < total_pages (fm_pmm s).
Hypothesis Huf : used (fm_pmm s) f = false.
Hypothesis Hu : forall j, 0 < j -> used p j = if decide (f = j) then true else used (fm_pmm s) j.
Hypothesis Hwf : a_wf h.
Hypothesis Hm : forall x t, a_live (r_heap (fm_tree s)) x t -> a_live h x t.
Hypothesis Hpg : pg <> 0.
Hypothesis Hnl : ~ live_at (r_heap (fm_tree s)) pg.
Hypothesis Hl : live_at h pg.

(** The cached pages after the insertion of [pg] was tried. *)
Lemma old_page (h' : A) j :
  (forall x t, a_live h x t -> a_live h' x t) -> 0 <= j -> entry (fm_tree s) j <> 0 ->
  entry (fm_tree s) j <> pg /\ live_at h' (entry (fm_tree s) j).
Proof.
  intros Hm' Hj Hne. destruct (co_page _ _ Hs j Hj Hne) as (Hlj & _). split; [intros E; by rewrite E in Hlj|].
  apply (live_mono h); [done|]. by apply (live_mono (r_heap (fm_tree s))).
Qed.

Lemma entered_page t' N' n :
  tree_ok t' N' -> live_set (r_heap t') N' -> (forall x t, a_live h x t -> a_live (r_heap t') x t) ->
  (forall j, 0 <= j -> entry t' j = if j =? i then pg else entry (fm_tree s) j) ->
  cached s (with_nr (pset (pset (with_tree (new_page s p h pg (f * PAGE_SIZE)) t') pg pg_mapping mapping) pg pg_index i) n) i pg true N'.
Proof.
  intros Hok HN Hm' He. set (s1 := with_nr _ n).
  assert (forall x g, x <> pg -> pget s1 x g = pget s x g) as Hother.
  { intros x g Hx. unfold pget, s1. cbn. rewrite !wr_other by (by left). by rewrite decide_False. }
  assert (pget s1 pg pg_virtual = f * PAGE_SIZE /\ pget s1 pg pg_index = i) as [Hv Hix] by (unfold pget, s1; simpl; by wr_simp).
  assert (forall j, 0 < j -> used (fm_pmm s) j = true -> used p j = true) as Hum by (intros j Hj; rewrite Hu by done; by case_decide).
  assert (frame_of s1 i = f * PAGE_SIZE) as Hfi.
  { unfold frame_of. change (fm_tree s1) with t'. rewrite He, Z.eqb_refl, (proj2 (Z.eqb_neq _ _) Hpg) by lia. done. }
  split; try done.
  - apply (cache_ok_intro s s1 N N'); try done; change (fm_tree s1) with t'; change (fm_pmm s1) with p.
    + intros j Hj Hne. destruct (old_page (r_heap t') j Hm' Hj Hne) as [Hd Hlj]. rewrite He, (proj2 (Z.eqb_neq j i)) by congruence.
      split; [done|]. split; [done|]. by rewrite !Hother.
    + intros j Hj E Hne. rewrite He in * by done. destruct (Z.eqb_spec j i) as [->|]; [|done].
      split; [by apply (live_mono h)|]. split; [done|]. exists f. rewrite Hv, Hu, decide_True by lia. done.
    + intros j k Hj Hk Ej Nj Ek Nk. rewrite He in Nj, Nk by done.
      destruct (Z.eqb_spec j i) as [->|]; [|done]. by destruct (Z.eqb_spec k i) as [->|].
  - intros x. by apply reserved_mono.
  - intros _. change (fm_tree s1) with t'. by rewrite He, Z.eqb_refl by lia.
  - intros j Hj [?|Hne]; [done|]. unfold frame_of. change (fm_tree s1) with t'. rewrite He, (proj2 (Z.eqb_neq j i)) by done.
    destruct (Z.eqb_spec (entry (fm_tree s) j) 0) as [|E]; [done|]. destruct (old_page (r_heap t') j Hm' Hj E) as [Hd _]. by apply Hother.
  - intros _. split; [done|]. split; [unfold frame_of; by rewrite H0|]. rewrite Hfi. intros x. by apply fresh_frame.
Qed.

Lemma refused_page t' N' :
  tree_ok t' N' -> live_set (r_heap t') N' -> (forall x t, a_live h x t -> a_live (r_heap t') x t) ->
  (forall x, x ∈ N' -> x ∈ N \/ ~ live_at h x) -> (forall j, 0 <= j -> entry t' j = entry (fm_tree s) j) ->
  let s1 := with_tree (new_page s p h pg (f * PAGE_SIZE)) t' in
  exists h', a_free (r_heap (fm_tree s1)) pg = Some h' /\
    cached s (with_pmm (with_heap s1 h') (pmm_free_page (fm_pmm (with_heap s1 h')) (f * PAGE_SIZE))) i 0 false N'.
Proof.
  intros Hok HN Hm' Hnew He s1. pose proof (proj1 Hok) as Hwf'. destruct Hl as [t Ht]. pose proof (Hm' _ _ Ht) as Ht'.
  destruct (a_free_spec _ _ _ Hwf' Ht') as (h' & Hfr & Hwf2 & Hl2). exists h'. split; [exact Hfr|].
  assert (forall x, live_at (r_heap t') x -> x <> pg -> live_at h' x) as Hkeep.
  { intros x [u Hx] Hne. exists u. by apply Hl2. }
  assert (pg ∉ N') as HpN.
  { intros Hin. destruct (Hnew pg Hin) as [Hin'|Hin']; [by apply Hnl, (co_nodes _ _ Hs)|by apply Hin'; exists t]. }
  assert (live_set h' N') as HN2 by (intros x Hx; apply Hkeep; [by apply HN|by intros ->]).
  change (fm_pmm (with_heap s1 h')) with p. pose proof Hsp as [Hpw Hpm _ Htp _].
  destruct (free_frame p f Hpw Hpm ltac:(by rewrite Htp)) as [Hsp2 Hu2].
  apply (cached_none s _ N N'); try done; [| | | |lia].
  - by apply tree_ok_heap.
  - by apply (same_pmm_trans _ p).
  - intros j Hj. change (used (pmm_free_page p (f * PAGE_SIZE)) j = used (fm_pmm s) j). rewrite Hu2, Hu by done. case_decide; [by subst|done].
  - intros j Hj Hne. destruct (old_page (r_heap t') j Hm' Hj Hne) as [Hd Hlj].
    split; [by apply Hkeep|]. unfold pget. cbn. rewrite !wr_other by (by left). by rewrite !decide_False.
Qed.

Lemma add_fresh_page fuel :
  (12 <= fuel)%nat ->
  exists s1 r N', add_to_page_cache fuel (new_page s p h pg (f * PAGE_SIZE)) pg i = Some (s1, r) /\
    ((r = 0 /\ cached s s1 i pg true N') \/
     (r = -1 /\ oom_within 21 h /\ exists h', a_free (r_heap (fm_tree s1)) pg = Some h' /\
        cached s (with_pmm (with_heap s1 h') (pmm_free_page (fm_pmm (with_heap s1 h')) (f * PAGE_SIZE))) i 0 false N')).
Proof.
  intros Hfu. unfold add_to_page_cache. rewrite (proj2 (Z.eqb_neq _ _) (co_mapping _ _ Hs)), (proj2 (Z.eqb_neq _ _) Hpg). cbn [orb].
  assert (live_set h N) as HN1 by (intros x Hx; apply (live_mono (r_heap (fm_tree s))); [done|by apply (co_nodes _ _ Hs)]).
  pose proof (tree_ok_heap _ _ h (co_tree _ _ Hs) Hwf HN1) as Ht1.
  destruct (insert_fresh fuel _ N i pg Ht1 HN1 Hi Hpg Hfu H0) as (t' & r & N' & Hins & Hok' & HN' & Hm' & Hnew & Hcase).
  change (fm_tree (new_page s p h pg (f * PAGE_SIZE))) with (RT h (r_st (fm_tree s)) (height (fm_tree s)) (rnode (fm_tree s))).
  rewrite Hins. cbn [mbind option_bind].
  destruct Hcase as [[-> He]|(-> & Hoom & He)]; eexists _, _, N'; (split; [done|]).
  - left. split; [done|]. by apply entered_page.
  - right. split; [done|]. split; [exact Hoom|]. by apply refused_page.
Qed.
End new_page.

(** Memory does not suffice for one more page: every frame is in use, or the
    heap has no room for the page structure or for the nodes (21 at most) that
    the tree may need after it. *)
Definition exhausted (s : fmap) : Prop :=
  all_used (fm_pmm s) \/
  exists h pg, a_alloc (r_heap (fm_tree s)) sizeof_page = Some (h, pg) /\ (pg = 0 \/ oom_within 21 h).

Lemma cached_page_ok fuel s N i :
  cache_ok s N -> 0 <= i < 2 ^ 60 -> (12 <= fuel)%nat ->
  exists s' pg fresh N', cached_page fuel s i = Some (s', pg, fresh) /\ cached s s' i pg fresh N' /\
    (pg = 0 -> frame_of s i = 0 /\ exhausted s).
Proof.
  intros Hs Hi Hf. pose proof Hs as [Hmap Htree HN Hmem Hpmm Hbit Hpage Hframes]. unfold cached_page.
  rewrite (find_get_page_spec s N) by (done || lia). cbn [mbind option_bind].
  destruct (Z.eqb_spec (entry (fm_tree s) i) 0) as [E|E]; cbn [negb].
  2:{ eexists _, _, _, N. split; [done|]. split; [|done]. apply (cached_none s _ N N); try done; [|lia].
      intros j Hj Hne. split; [by apply Hpage|]. unfold pget, get_page. simpl. by wr_simp. }
  assert (frame_of s i = 0) as Ef by (unfold frame_of; by rewrite E).
  destruct (alloc_frame (fm_pmm s) Hpmm Hmem) as (a & p & -> & Hsp & Hcase). cbn [mbind option_bind].
  destruct Hcase as [(-> & Hall & Hu)|(f & -> & Hfr & Huf & Hu)].
  { change (0 =? 0) with true. cbv iota. eexists _, _, _, N. split; [done|]. split; [|intros _; split; [done|by left]]. apply (cached_none s _ N N); try done; [|lia].
    intros j Hj Hne. split; [by apply Hpage|done]. }
  rewrite (proj2 (Z.eqb_neq (f * PAGE_SIZE) 0)) by (unfold PAGE_SIZE; lia).
  destruct (a_alloc_spec (r_heap (fm_tree s)) sizeof_page (proj1 Htree) ltac:(unfold sizeof_page; lia)) as (h & pg & Ha & Hwf & Hp).
  change (r_heap (fm_tree (with_pmm s p))) with (r_heap (fm_tree s)). rewrite Ha. cbn [mbind option_bind].
  assert (forall x t, a_live (r_heap (fm_tree s)) x t -> a_live h x t) as Hm
    by (intros x t Hx; destruct Hp as [[_ Hp]|(u & _ & _ & Hp)]; apply Hp; auto).
  destruct Hp as [[-> _]|(u & _ & Hnl & Hp)].
  { change (0 =? 0) with true. cbv iota. eexists _, _, _, N. split; [done|].
    split; [|intros _; split; [done|right; exists h, 0; auto]]. pose proof Hsp as [Hpw Hpm _ Htp _].
    destruct (free_frame p f Hpw Hpm ltac:(by rewrite Htp)) as [Hsp2 Hu2].
    assert (live_set h N) as HN1 by (intros x Hx; apply (live_mono (r_heap (fm_tree s))); [done|by apply HN]).
    apply (cached_none s _ N N); try done; [by apply tree_ok_heap|by apply (same_pmm_trans _ p)| | |lia].
    - intros j Hj. change (used (pmm_free_page p (f * PAGE_SIZE)) j = used (fm_pmm s) j). rewrite Hu2, Hu by done. case_decide; [by subst|done].
    - intros j Hj Hne. split; [|done]. apply (live_mono (r_heap (fm_tree s))); [done|]. by apply Hpage. }
  assert (a_live h pg u) as Hlp by (apply Hp; by left). assert (pg <> 0) as Hpg by (pose proof (a_live_pos _ _ _ Hwf Hlp); lia).
  rewrite (proj2 (Z.eqb_neq _ _) Hpg). fold (new_page s p h pg (f * PAGE_SIZE)).
  destruct (add_fresh_page s N i p h pg f Hs Hi E Hsp Hfr Huf Hu Hwf Hm Hpg) with (fuel := fuel) as (s1 & r & N' & -> & Hcase);
    [intros [v Hv]; by apply (Hnl v)|by exists u|done|].
  cbn [mbind option_bind]. destruct Hcase as [[-> Hc]|(-> & Hoom & h' & -> & Hc)].
  - exists s1, pg, true, N'. by split.
  - cbn [Z.eqb negb mbind option_bind].
    set (s2 := with_pmm (with_heap s1 h') _) in *. pose proof (ca_ok _ _ _ _ _ _ Hc) as Hs2.
    rewrite (find_get_page_spec s2 N') by (done || lia). cbn [mbind option_bind].
    assert (entry (fm_tree s2) i = 0) as E2. 
    { apply (frame_zero _ N'); [done|lia|]. rewrite (ca_frames _ _ _ _ _ _ Hc) by (lia || by left). unfold frame_of. by rewrite E. }
    rewrite E2. cbn [Z.eqb]. exists s2, 0, false, N'. split; [done|]. split; [done|]. intros _. split; [done|]. right. exists h, pg. auto.
Qed.


(** ** File contents *)

(** [readpage] (or the zero fill without one) brings in the bytes of
    [backing], and touches only the page's frame. *)
Definition fills (backing : Z -> Z) : Prop :=
  match readpage with
  | None => forall o, backing o = 0
  | Some f => forall i v m, mem_ok m -> snd (f i v m) = 0 /\ mem_ok (fst (f i v m)) /\
      forall x, fst (f i v m) x = if decide (v <= x < v + 4096) then backing (i * 4096 + (x - v)) else m x
  end.

(** The byte of the file at offset [o]: in the cache, or still in [backing]. *)
Definition fbyte (backing : Z -> Z) (s : fmap) (o : Z) : Z :=
  if frame_of s (o .>> 12) =? 0 then backing o else fm_mem s (frame_of s (o .>> 12) + (o .& 4095)).

(** The byte of memory at [x] is neither the frame allocator's nor the cache's. *)
Definition buf_ok (s : fmap) (x : Z) : Prop :=
  reserved (fm_pmm s) x /\ off_pmm_bitmap (fm_pmm s) x /\
  forall i, 0 <= i -> frame_of s i <> 0 -> ~ (frame_of s i <= x < frame_of s i + 4096).

Lemma page_split o : o .>> 12 = o / 4096 /\ o .& 4095 = o mod 4096.
Proof. split; [by rewrite Z.shiftr_div_pow2|]. change 4095 with (Z.ones 12). by rewrite Z.land_ones. Qed.

Lemma frame_entry s i : entry (fm_tree s) i <> 0 -> frame_of s i = pget s (entry (fm_tree s) i) pg_virtual.
Proof. intros E. unfold frame_of. by rewrite (proj2 (Z.eqb_neq _ _) E). Qed.

Lemma frame_spec s N i :
  cache_ok s N -> 0 <= i -> frame_of s i <> 0 ->
  exists f, frame_of s i = f * 4096 /\ 0 < f < total_pages (fm_pmm s) /\
    forall x, frame_of s i <= x < frame_of s i + 4096 -> off_pmm_bitmap (fm_pmm s) x.
Proof.
  intros Hs Hi Hne. assert (entry (fm_tree s) i <> 0) as E by (rewrite <- (frame_zero s N); done).
  rewrite (frame_entry s i E). destruct (co_page _ _ Hs i Hi E) as (_ & _ & f & -> & Hf & _ & Hx). by exists f.
Qed.

Lemma frames_apart s N i j x :
  cache_ok s N -> 0 <= i -> 0 <= j -> i <> j -> frame_of s i <> 0 -> frame_of s j <> 0 ->
  frame_of s i <= x < frame_of s i + 4096 -> ~ (frame_of s j <= x < frame_of s j + 4096).
Proof.
  intros Hs Hi Hj Hij Ni Nj Hx. destruct (frame_spec s N i Hs Hi Ni) as (f & Ef & _), (frame_spec s N j Hs Hj Nj) as (g & Eg & _).
  assert (frame_of s i <> frame_of s j) as Hne.
  { rewrite !frame_entry by (rewrite <- (frame_zero s N); done). apply (co_frames _ _ Hs); try done; by rewrite <- (frame_zero s N). }
  lia.
Qed.

(** The frames and their contents depend on the pages and the memory only. *)
Lemma cache_ok_bytes s N m :
  cache_ok s N -> mem_ok m -> (forall x, ~ off_pmm_bitmap (fm_pmm s) x -> m x = fm_mem s x) ->
  cache_ok (with_bytes s m) N /\ forall x, reserved (fm_pmm s) x -> reserved (fm_pmm (with_bytes s m)) x.
Proof.
  intros [H0 H1 H2 H3 H4 H5 H6 H7] Hm Hx.
  assert (forall f, 0 < f < total_pages (fm_pmm s) -> used (fm_pmm (with_bytes s m)) f = used (fm_pmm s) f) as Hu
    by (intros f Hf; by apply (used_same (fm_pmm s))).
  assert (forall x, reserved (fm_pmm s) x -> reserved (fm_pmm (with_bytes s m)) x) as Hres
    by (intros x Hr f Hf Hxf; rewrite Hu by done; by apply Hr).
  split; [|done]. split; try done.
  - intros x Hxb. apply Hres. by apply H5.
  - intros i Hi Hne. destruct (H6 i Hi Hne) as (Hl & Hix & f & Hv & Hf & Huf & Ho). split; [done|]. split; [done|].
    exists f. split; [done|]. split; [done|]. split; [by rewrite Hu|done].
Qed.

(** Counting references and marking pages dirty changes neither. *)
Lemma cache_ok_mark s N p f v :
  cache_ok s N -> f = pg_count \/ f = pg_flags -> cache_ok (pset s p f v) N /\ forall i, frame_of (pset s p f v) i = frame_of s i.
Proof.
  intros [H0 H1 H2 H3 H4 H5 H6 H7] Hf.
  assert (forall x g, g = pg_virtual \/ g = pg_index -> pget (pset s p f v) x g = pget s x g) as E.
  { intros x g Hg. unfold pget. simpl. apply wr_other. right. destruct Hf as [-> | ->], Hg as [-> | ->]; discriminate. }
  split.
  - split; try done.
    + intros i Hi Hne. change (fm_tree (pset s p f v)) with (fm_tree s) in *. rewrite !E by auto. by apply H6.
    + intros i j Hi Hj Ni Nj Hij. change (fm_tree (pset s p f v)) with (fm_tree s) in *. rewrite !E by auto. by apply H7.
  - intros i. unfold frame_of. change (fm_tree (pset s p f v)) with (fm_tree s). by rewrite E by auto.
Qed.


(** What the steps between two states keep. *)
Record kept (s s' : fmap) : Prop := {
  kp_size : i_size s' = i_size s;
  kp_buf : forall x, buf_ok s x -> buf_ok s' x /\ fm_mem s' x = fm_mem s x
}.

Lemma kept_trans s1 s2 s3 : kept s1 s2 -> kept s2 s3 -> kept s1 s3.
Proof.
  intros [E1 H1] [E2 H2]. split; [congruence|]. intros x Hx. destruct (H1 x Hx) as [Hx' Em1], (H2 x Hx') as [Hx'' Em2].
  split; [done|congruence].
Qed.

Lemma fill_mem (backing : Z -> Z) s N i :
  fills backing -> cache_ok s N -> 0 <= i -> frame_of s i <> 0 ->
  exists m, fill_page s (entry (fm_tree s) i) = (with_bytes s m, 0) /\ mem_ok m /\
    forall x, m x = if decide (frame_of s i <= x < frame_of s i + 4096) then backing (i * 4096 + (x - frame_of s i)) else fm_mem s x.
Proof.
  intros Hfl Hs Hi Hne. assert (entry (fm_tree s) i <> 0) as E by (by rewrite <- (frame_zero s N)).
  destruct (co_page _ _ Hs i Hi E) as (_ & Hix & _). pose proof (co_mem _ _ Hs) as Hm.
  unfold fill_page, fills in *. rewrite (frame_entry s i E) in *. rewrite Hix. destruct readpage as [f|].
  - destruct (Hfl i (pget s (entry (fm_tree s) i) pg_virtual) (fm_mem s) Hm) as (Hr & Hm' & Hx).
    destruct (f i _ (fm_mem s)) as [m r]. simpl in *. subst r. exists m. done.
  - exists (memset (fm_mem s) (pget s (entry (fm_tree s) i) pg_virtual) 0 4096). split; [done|].
    assert (forall x, memset (fm_mem s) (pget s (entry (fm_tree s) i) pg_virtual) 0 4096 x =
      fill (fm_mem s) (pget s (entry (fm_tree s) i) pg_virtual) 0 4096 x) as Ef by (intros x; by apply memset_fill).
    split; intros x; rewrite Ef; unfold fill.
    + case_decide; [apply u8_range|apply Hm].
    + case_decide; [by rewrite Hfl|done].
Qed.

Lemma fill_page_ok backing s N i :
  fills backing -> cache_ok s N -> 0 <= i -> frame_of s i <> 0 ->
  exists s', fill_page s (entry (fm_tree s) i) = (s', 0) /\ cache_ok s' N /\ kept s s' /\ fm_tree s' = fm_tree s /\
    (forall j, frame_of s' j = frame_of s j) /\ (forall o, 0 <= o -> o .>> 12 = i -> fbyte backing s' o = backing o) /\
    (forall o, 0 <= o -> o .>> 12 <> i -> fbyte backing s' o = fbyte backing s o).
Proof.
  intros Hfl Hs Hi Hne. destruct (fill_mem backing s N i Hfl Hs Hi Hne) as (m & -> & Hm & Hx).
  destruct (frame_spec s N i Hs Hi Hne) as (f & Ef & Hf & Hoff).
  destruct (cache_ok_bytes s N m Hs Hm) as [Hs' Hres].
  { intros x Hxb. rewrite Hx, decide_False; [done|]. intros Hxr. by apply Hxb, Hoff. }
  eexists. split; [done|]. split; [done|]. split; [split; [done|]|split; [done|split; [done|split]]].
  - intros x (Hr & Ho & Hb). split; [split; [by apply Hres|done]|]. change (m x = fm_mem s x).
    rewrite Hx, decide_False; [done|]. by apply Hb.
  - intros o Ho E. unfold fbyte. change (frame_of (with_bytes s m)) with (frame_of s). rewrite E, (proj2 (Z.eqb_neq _ _) Hne).
    change (fm_mem (with_bytes s m)) with m. destruct (page_split o) as [Ed Em]. rewrite Em in *. rewrite Ed in E.
    pose proof (Z.mod_pos_bound o 4096). rewrite Hx, decide_True by lia. f_equal. pose proof (Z.div_mod o 4096). lia.
  - intros o Ho E. unfold fbyte. change (frame_of (with_bytes s m)) with (frame_of s).
    destruct (Z.eqb_spec (frame_of s (o .>> 12)) 0) as [|Hn]; [done|]. change (fm_mem (with_bytes s m)) with m.
    destruct (page_split o) as [Ed Em]. rewrite Em, Hx, decide_False; [done|]. pose proof (Z.mod_pos_bound o 4096). pose proof (Z.div_pos o 4096).
    intros Hxr. apply (frames_apart s N i (o .>> 12) _ Hs Hi ltac:(lia) ltac:(congruence) Hne Hn Hxr). lia.
Qed.

(** The page is at hand, and its contents too if [load] asks for them. *)
Lemma page_ready backing fuel s N i (load : bool) :
  fills backing -> cache_ok s N -> 0 <= i < 2 ^ 60 -> (12 <= fuel)%nat ->
  exists s1 pg fresh N', cached_page fuel s i = Some (s1, pg, fresh) /\
    let s2 := if fresh && load then fst (fill_page s1 pg) else s1 in
    (fresh = true -> pg <> 0) /\ (fresh && load = true -> snd (fill_page s1 pg) = 0) /\
    (pg = 0 -> frame_of s i = 0 /\ exhausted s) /\
    cache_ok s2 N' /\ kept s s2 /\ (pg <> 0 -> entry (fm_tree s2) i = pg) /\
    (forall o, 0 <= o -> (pg = 0 \/ o .>> 12 <> i \/ load = true) -> fbyte backing s2 o = fbyte backing s o).
Proof.
  intros Hfl Hs Hi Hf. destruct (cached_page_ok fuel s N i Hs Hi Hf) as (s1 & pg & fresh & N' & Hc & [Hs1 Hsp Hres Hsz Hpg Hfr Hnew] & Hex).
  exists s1, pg, fresh, N'. split; [done|]. cbv zeta. split; [by intros E; apply Hnew|].
  assert (forall x, off_pmm_bitmap (fm_pmm s) x -> fm_mem s1 x = fm_mem s x) as Hmem by apply Hsp.
  assert (kept s s1) as Hk.
  { split; [done|]. intros x (Hr & Ho & Hb). split; [|by apply Hmem]. split; [by apply Hres|]. split; [by apply (off_same _ _ _ Hsp)|].
    intros j Hj Hnj. destruct fresh; [|rewrite Hfr in * by auto; by apply Hb]. destruct (decide (j = i)) as [->|Hji].
    - intros Hx. destruct (Hnew eq_refl) as (_ & _ & Hn). by apply (Hn x Hx).
    - rewrite Hfr in * by auto. by apply Hb. }
  assert (forall o, 0 <= o -> fresh = false \/ o .>> 12 <> i -> fbyte backing s1 o = fbyte backing s o) as Hby.
  { intros o Ho Hor. unfold fbyte. destruct (page_split o) as [Ed Em]. pose proof (Z.div_pos o 4096). rewrite Hfr by (lia || done).
    destruct (Z.eqb_spec (frame_of s (o .>> 12)) 0) as [|Hn]; [done|]. apply Hmem.
    destruct (frame_spec s N (o .>> 12) Hs ltac:(lia) Hn) as (f & _ & _ & Hoff). apply Hoff.
    pose proof (Z.mod_pos_bound o 4096). lia. }
  destruct fresh; cbn [andb]; [|split_and!; try done; intros o Ho _; by apply Hby; [done|left]].
  destruct (Hnew eq_refl) as (Hpg0 & Hfi & _). destruct load; cbv zeta iota.
  - pose proof (Hpg Hpg0) as Epg. assert (frame_of s1 i <> 0) as Hne by (rewrite (frame_zero s1 N') by (done || lia); congruence).
    destruct (fill_page_ok backing s1 N' i Hfl Hs1 ltac:(lia) Hne) as (s2 & E & Hs2 & Hk2 & Et & Ef & Hb1 & Hb2).
    rewrite Epg in E. rewrite E. cbn [fst snd]. split; [done|]. split; [done|]. split; [done|]. split; [by apply (kept_trans _ s1)|].
    split; [by rewrite Et|]. intros o Ho _. destruct (decide (o .>> 12 = i)) as [Eo|Eo].
    + rewrite Hb1 by done. unfold fbyte. by rewrite Eo, Hfi.
    + rewrite Hb2, Hby by auto. done.
  - split; [done|]. split; [done|]. split; [done|]. split; [done|]. split; [done|]. intros o Ho [?|[?|?]]; [done| |done]. by apply Hby; [|right].
Qed.


(** ** Transfers *)

Lemma chunk_spec pos cnt :
  0 <= pos -> 0 < cnt ->
  0 < chunk pos cnt <= cnt /\ pos .& 4095 + chunk pos cnt <= 4096 /\
  (chunk pos cnt < 4096 \/ chunk pos cnt = 4096 /\ pos .& 4095 = 0) /\
  forall o, pos <= o < pos + chunk pos cnt -> o .>> 12 = pos .>> 12 /\ o .& 4095 = pos .& 4095 + (o - pos).
Proof.
  intros Hp Hc. unfold chunk. destruct (page_split pos) as [Ed Em]. rewrite Ed, Em. pose proof (Z.mod_pos_bound pos 4096 ltac:(lia)).
  pose proof (Z.div_mod pos 4096 ltac:(lia)) as Hdm.
  assert (forall o, pos <= o < pos + (4096 - pos mod 4096) -> o .>> 12 = pos / 4096 /\ o .& 4095 = pos mod 4096 + (o - pos)) as Ho.
  { intros o Ho. destruct (page_split o) as [-> ->]. assert (o / 4096 = pos / 4096) as E by (symmetry; apply (Z.div_unique_pos o 4096 (pos / 4096) (pos mod 4096 + (o - pos))); lia).
    split; [done|]. pose proof (Z.div_mod o 4096 ltac:(lia)). lia. }
  case_if; (split; [lia|]; split; [lia|]; split; [lia|]; intros o Hr; apply Ho; lia).
Qed.

(** The caller's buffer and a part of a page are apart. *)
Lemma buffer_apart s i off a b :
  0 <= i -> frame_of s i <> 0 -> 0 <= off -> 0 <= b -> off + b <= 4096 -> (forall x, a <= x < a + b -> buf_ok s x) ->
  frame_of s i + off + b <= a \/ a + b <= frame_of s i + off.
Proof.
  intros Hi Hne Hoff Hb Hle Ha. destruct (decide (b = 0)) as [->|]; [lia|].
  destruct (Z.le_gt_cases (frame_of s i + off + b) a); [by left|]. destruct (Z.le_gt_cases (a + b) (frame_of s i + off)); [by right|].
  exfalso. destruct (Z.le_gt_cases a (frame_of s i + off)).
  - destruct (Ha (frame_of s i + off) ltac:(lia)) as (_ & _ & Hn). apply (Hn i Hi Hne). lia.
  - destruct (Ha a ltac:(lia)) as (_ & _ & Hn). apply (Hn i Hi Hne). lia.
Qed.

(** Bytes from the caller's buffer overwrite a part of a page. *)
Lemma copy_in backing s N i off src b :
  cache_ok s N -> 0 <= i -> frame_of s i <> 0 -> 0 <= off -> 0 <= b -> off + b <= 4096 ->
  (forall x, src <= x < src + b -> buf_ok s x) ->
  let s' := with_bytes s (memcpy (fm_mem s) (frame_of s i + off) src b) in
  cache_ok s' N /\ (forall x, buf_ok s x -> buf_ok s' x /\ fm_mem s' x = fm_mem s x) /\
  forall o, 0 <= o -> fbyte backing s' o =
    if decide (o .>> 12 = i /\ off <= o .& 4095 < off + b) then fm_mem s (src + (o .& 4095 - off)) else fbyte backing s o.
Proof.
  intros Hs Hi Hne Hoff Hb Hle Hsrc. cbv zeta. destruct (frame_spec s N i Hs Hi Hne) as (f & Ef & Hf & Hbm).
  destruct (memcpy_to (fm_mem s) (frame_of s i + off) src b (co_mem _ _ Hs) Hb) as [Hm Hx].
  { by apply buffer_apart. }
  set (m := memcpy _ _ _ _) in *. destruct (cache_ok_bytes s N m Hs Hm) as [Hs' Hres].
  { intros x Hxb. rewrite Hx, decide_False; [done|]. intros Hxr. apply Hxb, Hbm. lia. }
  split; [done|]. split.
  - intros x (Hr & Ho & Hbu). split; [split; [by apply Hres|done]|]. change (m x = fm_mem s x). rewrite Hx, decide_False; [done|].
    intros Hxr. apply (Hbu i Hi Hne). lia.
  - intros o Ho. unfold fbyte. change (frame_of (with_bytes s m)) with (frame_of s). change (fm_mem (with_bytes s m)) with m.
    destruct (page_split o) as [Ed Em]. pose proof (Z.mod_pos_bound o 4096 ltac:(lia)). pose proof (Z.div_pos o 4096 ltac:(lia) ltac:(lia)).
    destruct (decide (o .>> 12 = i)) as [E|E].
    + rewrite E, (proj2 (Z.eqb_neq _ _) Hne), Hx, Em. destruct (decide (off <= o mod 4096 < off + b)) as [Hin|Hin].
      * rewrite decide_True, decide_True by (done || lia). f_equal. lia.
      * rewrite decide_False, decide_False by (lia || tauto). done.
    + rewrite decide_False by tauto. destruct (Z.eqb_spec (frame_of s (o .>> 12)) 0) as [|Hn]; [done|].
      rewrite Hx, decide_False; [done|]. rewrite Em. intros Hxr.
      apply (frames_apart s N i (o .>> 12) (frame_of s (o .>> 12) + o mod 4096) Hs Hi ltac:(lia) ltac:(congruence) Hne Hn); lia.
Qed.

(** Bytes of a page go to the caller's buffer. *)
Lemma copy_out backing s N i off dst b :
  cache_ok s N -> 0 <= i -> frame_of s i <> 0 -> 0 <= off -> 0 <= b -> off + b <= 4096 ->
  (forall x, dst <= x < dst + b -> buf_ok s x) ->
  let s' := with_bytes s (memcpy (fm_mem s) dst (frame_of s i + off) b) in
  cache_ok s' N /\ (forall x, buf_ok s x -> buf_ok s' x) /\
  (forall x, buf_ok s x -> ~ (dst <= x < dst + b) -> fm_mem s' x = fm_mem s x) /\
  (forall o, o .>> 12 = i -> off <= o .& 4095 < off + b -> fm_mem s' (dst + (o .& 4095 - off)) = fbyte backing s o) /\
  forall o, 0 <= o -> fbyte backing s' o = fbyte backing s o.
Proof.
  intros Hs Hi Hne Hoff Hb Hle Hdst. cbv zeta. destruct (frame_spec s N i Hs Hi Hne) as (f & Ef & Hf & Hbm).
  destruct (memcpy_to (fm_mem s) dst (frame_of s i + off) b (co_mem _ _ Hs) Hb) as [Hm Hx].
  { apply or_comm. by apply buffer_apart. }
  set (m := memcpy _ _ _ _) in *. destruct (cache_ok_bytes s N m Hs Hm) as [Hs' Hres].
  { intros x Hxb. rewrite Hx, decide_False; [done|]. intros Hxr. by apply Hxb, (Hdst x Hxr). }
  split; [done|]. split; [|split; [|split]].
  - intros x (Hr & Ho & Hbu). split; [by apply Hres|done].
  - intros x _ Hxr. change (m x = fm_mem s x). by rewrite Hx, decide_False.
  - intros o E Ho. change (m (dst + (o .& 4095 - off)) = fbyte backing s o). rewrite Hx, decide_True by lia.
    unfold fbyte. rewrite E, (proj2 (Z.eqb_neq _ _) Hne). f_equal. lia.
  - intros o Ho. unfold fbyte. change (frame_of (with_bytes s m)) with (frame_of s). change (fm_mem (with_bytes s m)) with m.
    destruct (Z.eqb_spec (frame_of s (o .>> 12)) 0) as [|Hn]; [done|]. rewrite Hx, decide_False; [done|]. intros Hxr.
    destruct (page_split o) as [Ed Em]. pose proof (Z.mod_pos_bound o 4096 ltac:(lia)). pose proof (Z.div_pos o 4096 ltac:(lia) ltac:(lia)).
    destruct (Hdst _ Hxr) as (_ & _ & Hno). apply (Hno (o .>> 12) ltac:(lia) Hn). lia.
Qed.


(** Marking a page leaves the contents and the buffers alone. *)
Lemma mark_ok backing s N p f v :
  cache_ok s N -> f = pg_count \/ f = pg_flags ->
  cache_ok (pset s p f v) N /\ (forall x, buf_ok s x -> buf_ok (pset s p f v) x) /\
  forall o, fbyte backing (pset s p f v) o = fbyte backing s o.
Proof.
  intros Hs Hf. destruct (cache_ok_mark s N p f v Hs Hf) as [Hs' Hfr]. split; [done|]. split.
  - intros x (Hr & Ho & Hb). split; [done|]. split; [done|]. intros i Hi. rewrite !Hfr. by apply Hb.
  - intros o. unfold fbyte. by rewrite !Hfr.
Qed.

Lemma size_ok backing s N (c : bool) n :
  cache_ok s N ->
  let s' := if c then with_size s n else s in
  cache_ok s' N /\ (forall x, buf_ok s x -> buf_ok s' x) /\ forall o, fbyte backing s' o = fbyte backing s o.
Proof. intros [H0 H1 H2 H3 H4 H5 H6 H7]. by destruct c. Qed.

(** One round of [generic_file_write]. *)
Lemma write_step_ok backing fuel buf s N written pos cnt :
  fills backing -> cache_ok s N -> 0 <= pos -> 0 < cnt -> pos + cnt < 2 ^ 64 -> (12 <= fuel)%nat ->
  (forall x, buf + written <= x < buf + written + cnt -> buf_ok s x) ->
  (exists s' b N', write_step fuel buf (s, written, pos, cnt) = inl (s', written + b, pos + b, cnt - b) /\
     b = chunk pos cnt /\ cache_ok s' N' /\ i_size s' = Z.max (i_size s) (pos + b) /\
     (forall x, buf_ok s x -> buf_ok s' x /\ fm_mem s' x = fm_mem s x) /\
     forall o, 0 <= o -> fbyte backing s' o =
       if decide (pos <= o < pos + b) then fm_mem s (buf + written + (o - pos)) else fbyte backing s o) \/
  (exists s' N', write_step fuel buf (s, written, pos, cnt) = inr (Some (s', -1, None)) /\ cache_ok s' N' /\
     frame_of s (pos .>> 12) = 0 /\ exhausted s /\ forall o, 0 <= o -> fbyte backing s' o = fbyte backing s o).
Proof.
  intros Hfl Hs Hp Hc Hlt Hf Hbuf. destruct (chunk_spec pos cnt Hp Hc) as (Hb & Hle & Hfull & Hin). destruct (page_split pos) as [Ed Em].
  assert (0 <= pos .>> 12 < 2 ^ 60) as Hi.
  { rewrite Ed. split; [apply Z.div_pos; lia|]. apply Z.div_lt_upper_bound; lia. }
  pose proof (Z.mod_pos_bound pos 4096 ltac:(lia)) as Hmod.
  unfold write_step. rewrite (proj2 (Z.ltb_lt 0 cnt) Hc). set (b := chunk pos cnt) in *.
  destruct (page_ready backing fuel s N (pos .>> 12) (b <? 4096) Hfl Hs Hi Hf) as (s1 & pg & fresh & N' & -> & Hfp & _ & Hex & Hs2 & [Hsz Hk] & Hpg & Hby).
  destruct (Z.eqb_spec pg 0) as [->|Hpg0].
  { right. exists s1, N'. destruct fresh; [by destruct Hfp|].
    split; [done|]. split; [done|]. destruct (Hex eq_refl). split; [done|]. split; [done|]. intros o Ho. apply Hby; auto. }
  left. set (s2 := if fresh && (b <? 4096) then _ else _) in *. specialize (Hpg Hpg0).
  assert (frame_of s2 (pos .>> 12) <> 0) as Hne by (rewrite (frame_zero s2 N') by (done || lia); congruence).
  assert (pget s2 pg pg_virtual = frame_of s2 (pos .>> 12)) as -> by (rewrite frame_entry by congruence; by rewrite Hpg).
  destruct (copy_in backing s2 N' (pos .>> 12) (pos .& 4095) (buf + written) b Hs2) as (Hs3 & Hk3 & Hb3); try lia; [|].
  { intros x Hx. apply Hk, Hbuf. lia. }
  set (s3 := with_bytes s2 _) in *. unfold SetPageDirty, put_page. rewrite u64_small by lia.
  destruct (mark_ok backing s3 N' pg pg_flags (pget s3 pg pg_flags .| (1 .<< PG_dirty)) Hs3 (or_intror eq_refl)) as (Hs4 & Hk4 & Hb4).
  set (s4 := pset s3 pg pg_flags _) in *. change (i_size s4) with (i_size s2). rewrite Hsz.
  destruct (size_ok backing s4 N' (i_size s <? pos + b) (pos + b) Hs4) as (Hs5 & Hk5 & Hb5).
  set (s5 := if i_size s <? pos + b then _ else _) in *.
  destruct (mark_ok backing s5 N' pg pg_count (s32 (pget s5 pg pg_count - 1)) Hs5 (or_introl eq_refl)) as (Hs6 & Hk6 & Hb6).
  eexists _, b, N'. split; [done|]. split; [done|]. split; [exact Hs6|]. split; [|split].
  - simpl. unfold s5. case_if; simpl; rewrite ?Hsz; lia.
  - intros x Hx. destruct (Hk x Hx) as [Hx2 E2], (Hk3 x Hx2) as [Hx3 E3]. split; [by apply Hk6, Hk5, Hk4|].
    rewrite <- E2, <- E3. unfold s5. by case_if.
  - intros o Ho. rewrite Hb6, Hb5, Hb4, Hb3 by done. destruct (page_split o) as [Ed' Em'].
    destruct (decide (pos <= o < pos + b)) as [Hr|Hr].
    + destruct (Hin o Hr) as [E1 E2]. rewrite decide_True by (split; [done|lia]). rewrite E2.
      replace (pos .& 4095 + (o - pos) - pos .& 4095) with (o - pos) by lia. apply Hk, Hbuf. lia.
    + rewrite decide_False.
      * apply Hby; [done|]. right. destruct Hfull as [Hfull|[Hfull H0]]; [right; by apply Z.ltb_lt|]. left.
        intros E. apply Hr. pose proof (Z.mod_pos_bound o 4096 ltac:(lia)). pose proof (Z.div_mod o 4096 ltac:(lia)).
        pose proof (Z.div_mod pos 4096 ltac:(lia)). lia.
      * intros [E Ho2]. apply Hr. pose proof (Z.div_mod o 4096 ltac:(lia)). pose proof (Z.div_mod pos 4096 ltac:(lia)). lia.
Qed.


(** One round of [generic_file_read]. *)
Lemma read_step_ok backing fuel buf s N rd pos cnt :
  fills backing -> cache_ok s N -> 0 <= pos -> 0 < cnt -> pos + cnt < 2 ^ 64 -> (12 <= fuel)%nat ->
  (forall x, buf + rd <= x < buf + rd + cnt -> buf_ok s x) ->
  (exists s' b N', read_step fuel buf (s, rd, pos, cnt) = inl (s', rd + b, pos + b, cnt - b) /\
     b = chunk pos cnt /\ cache_ok s' N' /\ (forall x, buf_ok s x -> buf_ok s' x) /\
     (forall x, buf_ok s x -> ~ (buf + rd <= x < buf + rd + b) -> fm_mem s' x = fm_mem s x) /\
     (forall k, 0 <= k < b -> fm_mem s' (buf + rd + k) = fbyte backing s (pos + k)) /\
     forall o, 0 <= o -> fbyte backing s' o = fbyte backing s o) \/
  (exists s' N', read_step fuel buf (s, rd, pos, cnt) = inr (Some (s', -1, None)) /\ cache_ok s' N' /\
     frame_of s (pos .>> 12) = 0 /\ exhausted s /\ forall o, 0 <= o -> fbyte backing s' o = fbyte backing s o).
Proof.
  intros Hfl Hs Hp Hc Hlt Hf Hbuf. destruct (chunk_spec pos cnt Hp Hc) as (Hb & Hle & _ & Hin). destruct (page_split pos) as [Ed Em].
  assert (0 <= pos .>> 12 < 2 ^ 60) as Hi.
  { rewrite Ed. split; [apply Z.div_pos; lia|]. apply Z.div_lt_upper_bound; lia. }
  pose proof (Z.mod_pos_bound pos 4096 ltac:(lia)) as Hmod.
  unfold read_step. rewrite (proj2 (Z.ltb_lt 0 cnt) Hc). set (b := chunk pos cnt) in *.
  destruct (page_ready backing fuel s N (pos .>> 12) true Hfl Hs Hi Hf) as (s1 & pg & fresh & N' & -> & Hfp & Hret & Hex & Hs2 & [_ Hk] & Hpg & Hby).
  rewrite andb_true_r in *.
  destruct (Z.eqb_spec pg 0) as [->|Hpg0].
  { right. destruct fresh; [by destruct Hfp|]. exists s1, N'. split; [done|]. split; [done|]. destruct (Hex eq_refl).
    split; [done|]. split; [done|]. intros o Ho. apply Hby; auto. }
  left. set (s2 := if fresh then _ else _) in *. specialize (Hpg Hpg0).
  assert ((if fresh then fill_page s1 pg else (s1, 0)) = (s2, 0)) as ->.
  { unfold s2. destruct fresh; [|done]. specialize (Hret eq_refl). destruct (fill_page s1 pg). simpl in *. congruence. }
  change (negb (0 =? 0)) with false. cbv iota.
  assert (frame_of s2 (pos .>> 12) <> 0) as Hne by (rewrite (frame_zero s2 N') by (done || lia); congruence).
  assert (pget s2 pg pg_virtual = frame_of s2 (pos .>> 12)) as -> by (rewrite frame_entry by congruence; by rewrite Hpg).
  destruct (copy_out backing s2 N' (pos .>> 12) (pos .& 4095) (buf + rd) b Hs2) as (Hs3 & Hk3 & Hm3 & Hd3 & Hb3); try lia; [|].
  { intros x Hx. apply Hk, Hbuf. lia. }
  set (s3 := with_bytes s2 _) in *. rewrite u64_small by lia.
  destruct (mark_ok backing s3 N' pg pg_count (s32 (pget s3 pg pg_count - 1)) Hs3 (or_introl eq_refl)) as (Hs4 & Hk4 & Hb4).
  eexists _, b, N'. split; [done|]. split; [done|]. split; [exact Hs4|]. split; [|split; [|split]].
  - intros x Hx. apply Hk4, Hk3. by apply Hk.
  - intros x Hx Hr. destruct (Hk x Hx) as [Hx2 <-]. by apply Hm3.
  - intros k Hkr. destruct (Hin (pos + k) ltac:(lia)) as [E1 E2].
    replace (buf + rd + k) with (buf + rd + ((pos + k) .& 4095 - pos .& 4095)) by lia.
    rewrite <- (Hby (pos + k)) by (lia || auto). apply Hd3; [done|lia].
  - intros o Ho. unfold put_page. rewrite Hb4, Hb3 by done. by apply Hby; auto.
Qed.

(** [s'] has the file of [s] with [k] bytes at [pos] replaced by those at
    [buf]. *)
Definition overwritten (backing : Z -> Z) (s s' : fmap) (buf pos k : Z) : Prop :=
  forall o, 0 <= o -> fbyte backing s' o =
    if decide (pos <= o < pos + k) then fm_mem s (buf + (o - pos)) else fbyte backing s o.

(** A step that moves [b] bytes does so whatever is left after them. *)
Lemma write_step_count fuel buf s w pos c d s' b :
  0 < c -> 0 < d -> chunk pos c = chunk pos d ->
  write_step fuel buf (s, w, pos, c) = inl (s', w + b, pos + b, c - b) ->
  write_step fuel buf (s, w, pos, d) = inl (s', w + b, pos + b, d - b).
Proof.
  intros Hc Hd E. unfold write_step. rewrite (proj2 (Z.ltb_lt 0 c) Hc), (proj2 (Z.ltb_lt 0 d) Hd), E.
  destruct (cached_page fuel s (pos .>> 12)) as [[[s1 pg] fresh]|]; [|done].
  destruct (pg =? 0); [done|]. intros [= <- ? ? ?]. repeat f_equal; lia.
Qed.

Lemma read_step_count fuel buf s w pos c d s' b :
  0 < c -> 0 < d -> chunk pos c = chunk pos d ->
  read_step fuel buf (s, w, pos, c) = inl (s', w + b, pos + b, c - b) ->
  read_step fuel buf (s, w, pos, d) = inl (s', w + b, pos + b, d - b).
Proof.
  intros Hc Hd E. unfold read_step. rewrite (proj2 (Z.ltb_lt 0 c) Hc), (proj2 (Z.ltb_lt 0 d) Hd), E.
  destruct (cached_page fuel s (pos .>> 12)) as [[[s1 pg] fresh]|]; [|done].
  destruct (pg =? 0); [done|]. destruct (if fresh then _ else _) as [s2 ret]. destruct (negb (ret =? 0)); [done|].
  intros [= <- ? ? ?]. repeat f_equal; lia.
Qed.

(** After [w] bytes the transfer from [s] is at [s1], whatever is left. *)
Definition runs {R} (step : fmap * Z * Z * Z -> (fmap * Z * Z * Z) + R) (s : fmap) (pos w : Z) (s1 : fmap) : Prop :=
  forall d, 0 <= d -> exists m, Z.of_nat m <= w /\ forall fl, loop (m + fl) step (s, 0, pos, w + d) = loop fl step (s1, w, pos + w, d).

Lemma runs_start {R} (step : _ -> _ + R) s pos : runs step s pos 0 s.
Proof. intros d Hd. exists O. split; [lia|]. intros fl. by rewrite Z.add_0_l, Z.add_0_r. Qed.

Lemma runs_step {R} (step : _ -> _ + R) s pos w s1 s2 b :
  runs step s pos w s1 -> 0 < b ->
  (forall d, 0 <= d -> step (s1, w, pos + w, b + d) = inl (s2, w + b, pos + w + b, d)) -> runs step s pos (w + b) s2.
Proof.
  intros Hr Hb Hs d Hd. destruct (Hr (b + d) ltac:(lia)) as (m & Hm & Hl). exists (m + 1)%nat. split; [lia|].
  intros fl. rewrite <- Nat.add_assoc. simpl (1 + fl)%nat. replace (w + b + d) with (w + (b + d)) by lia.
  rewrite Hl. cbn [loop]. rewrite Hs by done. by rewrite Z.add_assoc.
Qed.

(** A chunk that leaves bytes to transfer fills its page, so it is the same
    for every longer count. *)
Lemma chunk_full pos c d : 0 < c - chunk pos c -> 0 <= d -> chunk pos (chunk pos c + d) = chunk pos c.
Proof. unfold chunk. intros Hc Hd. repeat case_if; lia. Qed.

(** The outcome of a transfer of [n] bytes at [pos]: all of them, or a prefix
    that ends where a page is missing and memory does not suffice for it. *)
Definition stopped (transfer : Z -> option (fmap * Z * option Z)) (pos n : Z) (k : Z) (s1 : fmap) : Prop :=
  0 <= k < n /\ transfer k = Some (s1, k, Some (pos + k)) /\ frame_of s1 ((pos + k) .>> 12) = 0 /\ exhausted s1.

(** C34: writing [n] bytes at [pos] through the page cache.  The call either
    returns [n] and the new position, and then the file has the buffer's bytes
    at [pos, pos + n), every other byte as before, and a size that covers what
    was written; or it returns -1 after writing some [k < n] bytes, changing no
    other byte, and only because of memory: the write of these [k] bytes alone
    succeeds, and in the state it leaves, the next page is not cached and no
    frame, or no room in the heap for the page structure and tree nodes, is
    left.  Pages that are not cached are brought in first, so a partial page
    keeps its other bytes. *)
Theorem generic_file_write_correct backing fuel s N buf n pos :
  fills backing -> cache_ok s N -> 0 <= pos -> 0 <= n -> pos + n < 2 ^ 64 -> (12 <= fuel)%nat -> (Z.to_nat n < fuel)%nat ->
  (forall x, buf <= x < buf + n -> buf_ok s x) ->
  exists s' N' r np, generic_file_write fuel s buf n pos = Some (s', r, np) /\ cache_ok s' N' /\
    ((r = n /\ np = Some (pos + n) /\ (0 < n -> i_size s' = Z.max (i_size s) (pos + n)) /\
      overwritten backing s s' buf pos n) \/
     (r = -1 /\ np = None /\ exists k s1, stopped (fun k => generic_file_write fuel s buf k pos) pos n k s1 /\
      overwritten backing s s' buf pos k)).
Proof.
  intros Hfl Hs Hp Hn Hlt Hf Hf2 Hbuf. unfold generic_file_write. rewrite (proj2 (Z.eqb_neq _ _) (co_mapping _ _ Hs)).
  set (I := fun '(s1, w, q, c) => 0 <= w /\ 0 <= c /\ q = pos + w /\ w + c = n /\ (exists N1, cache_ok s1 N1) /\
    (0 < w -> i_size s1 = Z.max (i_size s) (pos + w)) /\ (w = 0 -> i_size s1 = i_size s) /\
    (forall x, buf_ok s x -> buf_ok s1 x /\ fm_mem s1 x = fm_mem s x) /\
    overwritten backing s s1 buf pos w /\ (0 < c -> runs (write_step fuel buf) s pos w s1)).
  match goal with |- exists s' N' r np, _ /\ @?P s' N' r np => set (Q := fun o => exists s' N' r np, o = Some (s', r, np) /\ P s' N' r np) end.
  destruct (loop_total I (fun '(_, _, _, c) => Z.to_nat c) Q (write_step fuel buf)) with (fuel := fuel) (s := (s, 0, pos, n)) as (r & -> & Hr).
  - intros [[[s1 w] q] c] (Hw & Hc & -> & Hwc & [N1 Hs1] & Hsz & Hsz0 & Hk & Hby & Hrun).
    destruct (decide (0 < c)) as [Hc0|Hc0].
    + pose proof (chunk_spec (pos + w) c ltac:(lia) Hc0) as (Hb & _).
      destruct (write_step_ok backing fuel buf s1 N1 w (pos + w) c Hfl Hs1) as [(s2 & b & N2 & Hst & -> & Hs2 & Hsz2 & Hk2 & Hby2)|(s2 & N2 & -> & Hs2 & Hmiss & Hex & Hby2)];
        try lia; [intros x Hx; apply Hk, Hbuf; lia| |].
      * rewrite Hst. split; [|lia]. split; [lia|]. split; [lia|]. split; [lia|]. split; [lia|]. split; [by exists N2|]. split; [|split; [lia|split; [|split]]].
        -- intros _. rewrite Hsz2. destruct (decide (w = 0)) as [->|]; [rewrite Hsz0 by done; lia|rewrite Hsz by lia; lia].
        -- intros x Hx. destruct (Hk x Hx) as [Hx1 <-]. by apply Hk2.
        -- intros o Ho. rewrite Hby2, Hby by done. repeat case_decide; try done; try lia.
           replace (buf + w + (o - (pos + w))) with (buf + (o - pos)) by lia. apply Hk, Hbuf. lia.
        -- intros Hleft. apply (runs_step _ _ _ _ s1); [by apply Hrun|lia|]. intros d Hd.
           rewrite (write_step_count fuel buf s1 w (pos + w) c _ s2 (chunk (pos + w) c)); [|lia|lia|by rewrite chunk_full|done]. repeat f_equal. lia.
      * exists s2, N2, (-1), None. split; [done|]. split; [done|]. right. split; [done|]. split; [done|]. exists w, s1. split.
        -- split; [lia|]. split; [|done]. destruct (Hrun Hc0 0 ltac:(lia)) as (m & Hm & Hl). rewrite Z.add_0_r in Hl.
           replace fuel with (m + S (fuel - m - 1))%nat at 1 by lia. by rewrite Hl.
        -- intros o Ho. by rewrite Hby2, Hby.
    + unfold write_step. rewrite (proj2 (Z.ltb_ge 0 c)) by lia. exists s1, N1, w, (Some (pos + w)). split; [done|]. split; [done|].
      left. assert (w = n) as -> by lia. done.
  - split; [lia|]. split; [lia|]. split; [lia|]. split; [lia|]. split; [by exists N|]. split; [lia|]. split; [done|]. split; [done|].
    split; [|intros _; apply runs_start]. intros o Ho. by rewrite decide_False by lia.
  - lia.
  - destruct Hr as (s' & N' & v & np & -> & Hr). by exists s', N', v, np.
Qed.


(** Reading [n] bytes at [pos] through the page cache.  The call
    returns [n] and the new position and the buffer then has the file's
    bytes at [pos, pos + n), whether they were cached or had to be brought
    in; or it returns -1, because memory did not suffice for a page that is not
    cached.  Either way the file is unchanged. *)
Theorem generic_file_read_correct backing fuel s N buf n pos :
  fills backing -> cache_ok s N -> 0 <= pos -> 0 <= n -> pos + n < 2 ^ 64 -> (12 <= fuel)%nat -> (Z.to_nat n < fuel)%nat ->
  (forall x, buf <= x < buf + n -> buf_ok s x) ->
  exists s' N' r np, generic_file_read fuel s buf n pos = Some (s', r, np) /\ cache_ok s' N' /\
    (forall o, 0 <= o -> fbyte backing s' o = fbyte backing s o) /\
    ((r = n /\ np = Some (pos + n) /\ forall k, 0 <= k < n -> fm_mem s' (buf + k) = fbyte backing s (pos + k)) \/
     (r = -1 /\ np = None /\ exists k s1, stopped (fun k => generic_file_read fuel s buf k pos) pos n k s1)).
Proof.
  intros Hfl Hs Hp Hn Hlt Hf Hf2 Hbuf. unfold generic_file_read. rewrite (proj2 (Z.eqb_neq _ _) (co_mapping _ _ Hs)).
  set (I := fun '(s1, w, q, c) => 0 <= w /\ 0 <= c /\ q = pos + w /\ w + c = n /\ (exists N1, cache_ok s1 N1) /\
    (forall x, buf_ok s x -> buf_ok s1 x) /\ (forall o, 0 <= o -> fbyte backing s1 o = fbyte backing s o) /\
    (forall k, 0 <= k < w -> fm_mem s1 (buf + k) = fbyte backing s (pos + k)) /\ (0 < c -> runs (read_step fuel buf) s pos w s1)).
  match goal with |- exists s' N' r np, _ /\ @?P s' N' r np => set (Q := fun o => exists s' N' r np, o = Some (s', r, np) /\ P s' N' r np) end.
  destruct (loop_total I (fun '(_, _, _, c) => Z.to_nat c) Q (read_step fuel buf)) with (fuel := fuel) (s := (s, 0, pos, n)) as (r & -> & Hr).
  - intros [[[s1 w] q] c] (Hw & Hc & -> & Hwc & [N1 Hs1] & Hk & Hby & Hd & Hrun). destruct (decide (0 < c)) as [Hc0|Hc0].
    + pose proof (chunk_spec (pos + w) c ltac:(lia) Hc0) as (Hb & _).
      destruct (read_step_ok backing fuel buf s1 N1 w (pos + w) c Hfl Hs1) as
        [(s2 & b & N2 & Hst & -> & Hs2 & Hk2 & Hm2 & Hd2 & Hby2)|(s2 & N2 & -> & Hs2 & Hmiss & Hex & Hby2)]; try lia; [intros x Hx; apply Hk, Hbuf; lia| |].
      * rewrite Hst. split; [|lia]. split; [lia|]. split; [lia|]. split; [lia|]. split; [lia|]. split; [by exists N2|].
        split; [intros x Hx; by apply Hk2, Hk|]. split; [intros o Ho; by rewrite Hby2, Hby|]. split.
        -- intros k Hkr. destruct (decide (k < w)) as [Hkw|Hkw].
           ++ rewrite Hm2; [apply Hd; lia|apply Hk, Hbuf; lia|lia].
           ++ replace (buf + k) with (buf + w + (k - w)) by lia. rewrite Hd2, Hby by lia. f_equal. lia.
        -- intros Hleft. apply (runs_step _ _ _ _ s1); [by apply Hrun|lia|]. intros d Hd0.
           rewrite (read_step_count fuel buf s1 w (pos + w) c _ s2 (chunk (pos + w) c)); [|lia|lia|by rewrite chunk_full|done]. repeat f_equal. lia.
      * exists s2, N2, (-1), None. split; [done|]. split; [done|]. split; [intros o Ho; by rewrite Hby2, Hby|].
        right. split; [done|]. split; [done|]. exists w, s1. split; [lia|]. split; [|done].
        destruct (Hrun Hc0 0 ltac:(lia)) as (m & Hm & Hl). rewrite Z.add_0_r in Hl.
        replace fuel with (m + S (fuel - m - 1))%nat at 1 by lia. by rewrite Hl.
    + unfold read_step. rewrite (proj2 (Z.ltb_ge 0 c)) by lia. exists s1, N1, w, (Some (pos + w)). split; [done|]. split; [done|].
      split; [done|]. left. assert (w = n) as -> by lia. done.
  - split; [lia|]. split; [lia|]. split; [lia|]. split; [lia|]. split; [by exists N|]. split; [done|]. split; [done|].
    split; [intros k Hk; lia|intros _; apply runs_start].
  - lia.
  - destruct Hr as (s' & N' & v & np & -> & Hr). by exists s', N', v, np.
Qed.

End filemap.

(** ** A concrete file

    Nothing is cached yet; frames 0 to 2 of 8 are in use, the caller's buffer
    is in frame 1.  [readpage] brings in the bytes [o mod 256]. *)
#[local] Existing Instance Heap.heap_allocator.

Definition demo_readpage : Z -> Z -> mem -> mem * Z := fun i v m =>
  (fun x => if decide (v <= x < v + 4096) then (i * 4096 + (x - v)) mod 256 else m x, 0).

Definition demo_fm_tiles : list (Z * bool) := [(8192, true)].

Definition demo_fmap : fmap (A := Spinlock.cpu * Heap.heap) :=
  FM (RT (Heap.demo_cpu, Heap.heap_of 0x1000 demo_fm_tiles) (fun _ _ => 0) 0 0)
     (PMM (fun x => if x =? 100 then 7 else if x =? 0x1000 then 77 else 0) 100 8 1 0x8000 0x5000 0)
     (fun _ _ => 0) 0 0.

Lemma demo_fills : fills (Some demo_readpage) (fun o => o mod 256).
Proof.
  intros i v m Hm. split; [done|]. split; [|done]. intros x. unfold demo_readpage. simpl. case_decide; [|apply Hm].
  apply Z.mod_pos_bound. lia.
Qed.

Lemma demo_fmap_ok : cache_ok 0x500 demo_fmap ∅.
Proof.
  split; try done.
  - split; [|split; [simpl; lia|done]]. exists demo_fm_tiles. apply Heap.heap_of_rep; [|done].
    split; [lia|]. split; [repeat constructor; lia|vm_compute; done].
  - intros x. unfold fm_mem, demo_fmap. simpl. repeat case_match; lia.
  - intros x Hx f Hf Hxf. unfold off_pmm_bitmap in Hx. simpl in Hx. change (8 / 8) with 1 in Hx. unfold PAGE_SIZE in Hxf. lia.
Qed.

Lemma demo_buf_ok x : 0x1000 <= x < 0x1003 -> buf_ok demo_fmap x.
Proof.
  intros Hx. split; [|split; [right; simpl; change (8 / 8) with 1; lia|done]].
  intros f Hf Hxf. unfold PAGE_SIZE in Hxf. assert (f = 1) as -> by lia. reflexivity.
Qed.

(** By evaluation. *)
Lemma demo_write_result :
  (fun '(_, r, _) => r) <$> generic_file_write 0x500 (Some demo_readpage) 13 demo_fmap 0x1000 3 4094 = Some 3.
Proof. vm_compute. reflexivity. Qed.

Lemma demo_read_result :
  (fun '(_, r, _) => r) <$> generic_file_read 0x500 (Some demo_readpage) 13 demo_fmap 0x1000 3 4094 = Some 3.
Proof. vm_compute. reflexivity. Qed.

(** Three bytes at 4094, over the end of the first page: offset 4094 gets the
    byte 77 of the buffer, 4093 and 4097 keep the bytes [readpage] brought in,
    and the file is 4097 bytes long. *)
Lemma generic_file_write_correct_witness :
  exists s', generic_file_write 0x500 (Some demo_readpage) 13 demo_fmap 0x1000 3 4094 = Some (s', 3, Some 4097) /\
    i_size s' = 4097 /\ fbyte (fun o => o mod 256) s' 4094 = 77 /\ fbyte (fun o => o mod 256) s' 4093 = 253 /\
    fbyte (fun o => o mod 256) s' 4097 = 1.
Proof.
  destruct (generic_file_write_correct 0x500 (Some demo_readpage) (fun o => o mod 256) 13 demo_fmap ∅ 0x1000 3 4094
    demo_fills demo_fmap_ok) as (s' & N' & r & np & Hw & _ & Hcase); [lia|lia|lia|lia|lia|exact demo_buf_ok|].
  pose proof demo_write_result as Hr. rewrite Hw in Hr. injection Hr as ->.
  destruct Hcase as [(_ & -> & Hsz & Ho)|[H _]]; [|discriminate H].
  exists s'. split; [exact Hw|]. split; [rewrite Hsz by lia; reflexivity|].
  split; [|split]; rewrite Ho by lia; reflexivity.
Defined.

Lemma generic_file_read_correct_witness :
  exists s', generic_file_read 0x500 (Some demo_readpage) 13 demo_fmap 0x1000 3 4094 = Some (s', 3, Some 4097) /\
    fm_mem s' 0x1000 = 254 /\ fm_mem s' 0x1002 = 0.
Proof.
  destruct (generic_file_read_correct 0x500 (Some demo_readpage) (fun o => o mod 256) 13 demo_fmap ∅ 0x1000 3 4094
    demo_fills demo_fmap_ok) as (s' & N' & r & np & Hw & _ & _ & Hcase); [lia|lia|lia|lia|lia|exact demo_buf_ok|].
  pose proof demo_read_result as Hr. rewrite Hw in Hr. injection Hr as ->.
  destruct Hcase as [(_ & -> & Ho)|[H _]]; [|discriminate H].
  exists s'. split; [exact Hw|]. split; [exact (Ho 0 ltac:(lia))|exact (Ho 2 ltac:(lia))].
Defined.

End FileMap.
