(* ===== verification/Gendisk.v ===== *)
(** * The registries of block majors and disks (src/kernel/drivers/block/blockdev.c)

    A table has the name of the driver of each major number, in a heap block of
    its own; the disks are in a [list.h] list and looked up by name. *)
From S2P Require Import Prelude Memory CString Allocator ListHead Store SortedQueue Spinlock Heap.
Import CString ListHead.

Module Gendisk.

Definition MAX_BLKDEV : Z := 255.
Definition sizeof_gendisk : Z := 96.
(** [&disk->list] and [disk->disk_name] *)
Definition d_list (disk : Z) : Z := disk + 80.
Definition d_name (disk : Z) : Z := disk + 12.

Section gendisk.
Context {A : Type} `{Allocator A}.
(** The address of [gendisk_head]. *)
Variable gendisk_head : Z.

(** Names are bytes of memory. *)
Record disks := Disks { g_links : gmap Z list_head; g_mem : mem; g_heap : A; blkdev_names : Z -> Z }.

(** ** Operations *)

(** [major] is unsigned. *)
Definition register_blkdev (fuel : nat) (s : disks) (major name : Z) : option (disks * Z) :=
  if MAX_BLKDEV <=? major then Some (s, -1)
  else if negb (blkdev_names s major =? 0) then Some (s, -1)
  else
    len ← strlen fuel (g_mem s) name;
    '(h, n) ← a_alloc (g_heap s) (len + 1);
    if n =? 0 then Some (Disks (g_links s) (g_mem s) h (blkdev_names s), -1)
    else
      let m := memcpy_bytes (g_mem s) n name (Z.to_nat (len + 1)) in
      Some (Disks (g_links s) m h (fupd (blkdev_names s) major n), 0).

Definition unregister_blkdev (s : disks) (major : Z) : option disks :=
  if (major <? MAX_BLKDEV) && negb (blkdev_names s major =? 0) then
    h ← a_free (g_heap s) (blkdev_names s major);
    Some (Disks (g_links s) (g_mem s) h (fupd (blkdev_names s) major 0))
  else Some s.

(** [minors] is a 32-bit field at offset 8. *)
Definition alloc_disk (s : disks) (minors : Z) : option (disks * Z) :=
  '(h, disk) ← a_alloc (g_heap s) sizeof_gendisk;
  if disk =? 0 then Some (Disks (g_links s) (g_mem s) h (blkdev_names s), 0)
  else
    let m := memset (g_mem s) disk 0 sizeof_gendisk in
    let m := store32 m (disk + 8) minors in
    Some (Disks (g_links s) m h (blkdev_names s), disk).

Definition add_disk (s : disks) (disk : Z) : option disks :=
  l ← list_add_tail (g_links s) (d_list disk) gendisk_head;
  Some (Disks l (g_mem s) (g_heap s) (blkdev_names s)).

(** The walk over the list of disks; [None] is a string without an end. *)
Definition disk_step (fuel : nat) (s : disks) (name : Z) : Z -> Z + option Z :=
  fun pos =>
    if pos =? gendisk_head then inr (Some 0)
    else match strcmp fuel (g_mem s) (d_name (pos - 80)) name with
         | None => inr None
         | Some r => if r =? 0 then inr (Some (pos - 80))
                     else match get_next (g_links s) pos with None => inr None | Some p => inl p end
         end.

Definition get_gendisk (fuel : nat) (s : disks) (name : Z) : option Z :=
  first ← get_next (g_links s) gendisk_head;
  mjoin (loop fuel (disk_step fuel s name) first).

Definition del_gendisk (s : disks) (disk : Z) : option disks :=
  if negb (disk =? 0) then
    l ← list_del (g_links s) (d_list disk);
    h ← a_free (g_heap s) disk;
    Some (Disks l (g_mem s) h (blkdev_names s))
  else Some s.


(** ** The list of disks *)

(** The disks [ds], with their names. *)
Record disks_ok (s : disks) (ds : list (Z * list Z)) : Prop := {
  dk_list : dlist (g_links s) gendisk_head (d_list <$> ds.*1);
  dk_names : forall d nm, (d, nm) ∈ ds -> cstr (g_mem s) (d_name d) nm
}.

Lemma strcmp_more f1 f2 m a b r : strcmp f1 m a b = Some r -> (f1 <= f2)%nat -> strcmp f2 m a b = Some r.
Proof.
  unfold strcmp, cmp_loop. intros Hr Hle. destruct (loop f1 _ _) as [p|] eqn:E; [|done].
  by rewrite (loop_more _ _ _ _ _ E Hle).
Qed.

Definition named (l : list Z) (dn : Z * list Z) : bool := bool_decide (snd dn = l).

(** [get_gendisk] returns the first disk of the name, null if there is none. *)
Theorem get_gendisk_first fuel s ds name l :
  disks_ok s ds -> cstr (g_mem s) name l -> (length ds < fuel)%nat -> (forall d nm, (d, nm) ∈ ds -> (length nm < fuel)%nat) ->
  get_gendisk fuel s name = Some (default 0 (fst <$> List.find (named l) ds)).
Proof.
  intros [Hd Hn] Hl Hf Hfn. unfold get_gendisk. rewrite (dlist_first _ _ _ Hd). cbn [mbind option_bind].
  assert (forall pre rest k, ds = pre ++ rest -> (length rest < k)%nat ->
    loop k (disk_step fuel s name) (after gendisk_head (d_list <$> rest.*1)) = Some (Some (default 0 (fst <$> List.find (named l) rest)))) as Hgen.
  { intros pre rest. revert pre. induction rest as [|[d nm] rest IH]; intros pre [|k] E Hk; try (simpl in Hk; lia); cbn [loop]; unfold disk_step at 1.
    - simpl. by rewrite Z.eqb_refl.
    - cbn [fmap list_fmap after fst]. change (after gendisk_head (d_list d :: _)) with (d_list d).
      assert ((d, nm) ∈ ds) as Hin by (rewrite E; apply elem_of_app; right; left).
      rewrite (proj2 (Z.eqb_neq (d_list d) gendisk_head)).
      2:{ destruct Hd as [_ Hnd]. apply NoDup_cons in Hnd as [Hh _]. intros Ec. apply Hh. rewrite <- Ec.
          apply list_elem_of_fmap_2. apply (list_elem_of_fmap_2 fst) in Hin. exact Hin. }
      replace (d_list d - 80) with d by (unfold d_list; lia).
      destruct (strcmp_spec _ _ _ _ _ (Hn d nm Hin) Hl) as (r & Hr & _ & Hiff).
      pose proof (Hfn d nm Hin). rewrite (strcmp_more _ fuel _ _ _ _ Hr) by lia.
      cbn [List.find]. unfold named at 1. cbn [snd].
      destruct (Z.eqb_spec r 0) as [E0|E0].
      + rewrite (bool_decide_eq_true_2 (nm = l)) by tauto. done.
      + rewrite (bool_decide_eq_false_2 (nm = l)) by tauto.
        assert (get_next (g_links s) (d_list d) = Some (after gendisk_head (d_list <$> rest.*1))) as ->.
        { assert (d_list <$> ds.*1 = ((d_list <$> pre.*1) ++ [d_list d]) ++ (d_list <$> rest.*1)) as El
            by (rewrite E, !fmap_app, <- app_assoc; done). rewrite El in Hd.
          destruct (dlist_gap _ _ _ _ Hd) as [Hg _]. unfold before in Hg.
          rewrite app_comm_cons, List.last_last in Hg. exact Hg. }
        apply (IH (pre ++ [(d, nm)])); [by rewrite <- app_assoc|]. simpl in Hk. lia. }
  by rewrite (Hgen [] ds fuel eq_refl Hf).
Qed.

Lemma add_disk_ok s ds d nm :
  disks_ok s ds -> is_Some (g_links s !! d_list d) -> d_list d ∉ gendisk_head :: (d_list <$> ds.*1) -> cstr (g_mem s) (d_name d) nm ->
  exists s', add_disk s d = Some s' /\ disks_ok s' (ds ++ [(d, nm)]).
Proof.
  intros [Hd Hn] Hs Hno Hnm. unfold add_disk. destruct (list_add_tail_dlist _ _ _ _ Hd Hs Hno) as (l & -> & Hd' & _).
  eexists. split; [done|]. split; [by rewrite !fmap_app|]. intros d' nm' Hin.
  apply elem_of_app in Hin as [Hin|Hin%list_elem_of_singleton]; [by apply Hn|by simplify_eq].
Qed.

Lemma del_gendisk_ok s ds1 d nm ds2 t :
  disks_ok s (ds1 ++ (d, nm) :: ds2) -> d <> 0 -> a_wf (g_heap s) -> a_live (g_heap s) d t ->
  exists s', del_gendisk s d = Some s' /\ disks_ok s' (ds1 ++ ds2) /\ a_wf (g_heap s') /\
    forall x u, a_live (g_heap s') x u <-> a_live (g_heap s) x u /\ x <> d.
Proof.
  intros [Hd Hn] H0 Hwf Hl. unfold del_gendisk. rewrite (proj2 (Z.eqb_neq d 0) H0). cbn [negb].
  rewrite !fmap_app in Hd. cbn [fmap list_fmap fst] in Hd. destruct (list_del_dlist _ _ _ _ _ Hd) as (l & -> & Hd' & _).
  destruct (a_free_spec _ _ _ Hwf Hl) as (h & -> & Hwf' & Hl'). cbn [mbind option_bind]. eexists. split; [done|].
  split; [|done]. split; [by rewrite !fmap_app|]. intros d' nm' Hin. apply Hn. apply elem_of_app in Hin as [?|?]; apply elem_of_app; [by left|right; by right].
Qed.

(** A major number has one owner until it is unregistered. *)
Lemma register_blkdev_taken fuel s major name :
  MAX_BLKDEV <= major \/ blkdev_names s major <> 0 -> register_blkdev fuel s major name = Some (s, -1).
Proof.
  intros Hm. unfold register_blkdev. destruct (Z.leb_spec MAX_BLKDEV major); [done|].
  rewrite (proj2 (Z.eqb_neq _ _)) by lia. done.
Qed.

End gendisk.
End Gendisk.
