(* ===== verification/Shm.v ===== *)
(** * Shared memory segments (src/kernel/ipc/shm.c)

    The segments form a list in kernel memory under one mutex.  A segment has an
    identifier, the key it was made for and a block of kernel memory; attaching
    returns the block, so all who attach share it.  A call that finds the mutex
    taken stops there: it goes on with [sleep_on] and tries again. *)
From S2P Require Import Prelude Memory CString Allocator Spinlock Heap Store Sched WaitQueue.
Import CString Sched WaitQueue.

Module Shm.

Inductive shm_segment := s_id | s_key | s_size | s_phys_addr | s_ref_count | s_next.
#[export] Instance shm_segment_eq_dec : EqDecision shm_segment.
Proof. solve_decision. Defined.

Definition sizeof_segment : Z := 40.

Section shm.
Context {A : Type} `{Allocator A}.
(** The address of the static mutex. *)
Variable shm_lock : Z.

Record shm_sys := SS {
  ss_heap : A; ss_st : store shm_segment; ss_mem : mem; segments : Z; next_shm_id : Z; ss_w : wsys
}.

Definition sget (s : shm_sys) (a : Z) (f : shm_segment) : Z := ss_st s a f.
Definition sset (s : shm_sys) (a : Z) (f : shm_segment) (v : Z) : shm_sys :=
  SS (ss_heap s) (wr (ss_st s) a f v) (ss_mem s) (segments s) (next_shm_id s) (ss_w s).
Definition with_heap (s : shm_sys) (h : A) : shm_sys := SS h (ss_st s) (ss_mem s) (segments s) (next_shm_id s) (ss_w s).
Definition with_w (s : shm_sys) (w : wsys) : shm_sys := SS (ss_heap s) (ss_st s) (ss_mem s) (segments s) (next_shm_id s) w.
Definition me (s : shm_sys) : Z := current_process (w_sched (ss_w s)).

(** ** Operations *)

Definition shm_init (s : shm_sys) : shm_sys := with_w s (mutex_init (ss_w s) shm_lock).

(** The walks over the list of segments. *)
Definition find_shm_step (s : shm_sys) (f : shm_segment) (v : Z) : Z -> Z + Z :=
  fun g => if g =? 0 then inr 0 else if sget s g f =? v then inr g else inl (sget s g s_next).

Definition find_shm (fuel : nat) (s : shm_sys) (id : Z) : option Z := loop fuel (find_shm_step s s_id id) (segments s).
Definition find_shm_key (fuel : nat) (s : shm_sys) (key : Z) : option Z := loop fuel (find_shm_step s s_key key) (segments s).

(** [mutex_lock] up to its blocking point: what the call does with the mutex in
    hand is [body]. *)
Definition with_lock (fuel : nat) (s : shm_sys) (body : shm_sys -> option (shm_sys * outcome)) : option (shm_sys * outcome) :=
  '(w, got) ← mutex_try fuel (ss_w s) shm_lock (me s);
  if negb got then Some (with_w s w, Sleeps (mutex_wait_q shm_lock)) else body (with_w s w).

Definition unlock (fuel : nat) (s : shm_sys) : option shm_sys :=
  with_w s <$> mutex_unlock fuel (ss_w s) shm_lock (me s).

(** The fresh segment at [g]; [next_shm_id++] is [int] arithmetic. *)
Definition new_segment (s : shm_sys) (g key size : Z) : shm_sys :=
  let s := SS (ss_heap s) (ss_st s) (memset (ss_mem s) (sget s g s_phys_addr) 0 size) (segments s) (next_shm_id s) (ss_w s) in
  let s := sset s g s_id (next_shm_id s) in
  let s := SS (ss_heap s) (ss_st s) (ss_mem s) (segments s) (s32 (next_shm_id s + 1)) (ss_w s) in
  let s := sset s g s_key key in
  let s := sset s g s_size size in
  let s := sset s g s_ref_count 0 in
  let s := sset s g s_next (segments s) in
  SS (ss_heap s) (ss_st s) (ss_mem s) g (next_shm_id s) (ss_w s).

Definition sys_shmget (fuel : nat) (s : shm_sys) (key size : Z) : option (shm_sys * outcome) :=
  with_lock fuel s (fun s =>
    g ← find_shm_key fuel s key;
    if negb (g =? 0) then s ← unlock fuel s; Some (s, Ret (sget s g s_id))
    else
      '(h, g) ← a_alloc (ss_heap s) sizeof_segment;
      let s := with_heap s h in
      if g =? 0 then s ← unlock fuel s; Some (s, Ret (-1))
      else
        '(h, block) ← a_alloc (ss_heap s) size;
        let s := sset (with_heap s h) g s_phys_addr block in
        if sget s g s_phys_addr =? 0 then
          h ← a_free (ss_heap s) g;
          s ← unlock fuel (with_heap s h); Some (s, Ret (-1))
        else
          s ← unlock fuel (new_segment s g key size); Some (s, Ret (sget s g s_id))).

Definition sys_shmat (fuel : nat) (s : shm_sys) (shmid : Z) : option (shm_sys * outcome) :=
  with_lock fuel s (fun s =>
    g ← find_shm fuel s shmid;
    if g =? 0 then s ← unlock fuel s; Some (s, Ret (u64 (-1)))
    else
      s ← unlock fuel (sset s g s_ref_count (s32 (sget s g s_ref_count + 1)));
      Some (s, Ret (sget s g s_phys_addr))).

(** The walk of [sys_shmdt] is the search for the address. *)
Definition sys_shmdt (fuel : nat) (s : shm_sys) (shmaddr : Z) : option (shm_sys * outcome) :=
  with_lock fuel s (fun s =>
    g ← loop fuel (find_shm_step s s_phys_addr shmaddr) (segments s);
    if negb (g =? 0) then
      s ← unlock fuel (sset s g s_ref_count (s32 (sget s g s_ref_count - 1))); Some (s, Ret 0)
    else s ← unlock fuel s; Some (s, Ret (-1))).


(** ** Representation *)

(** A segment: the addresses of its structure and of its block, and the other
    fields. *)
Record seg := Seg { sg_addr : Z; sg_id : Z; sg_key : Z; sg_size : Z; sg_block : Z; sg_refs : Z }.

Record seg_ok (s : shm_sys) (g : seg) : Prop := {
  go_id : sget s (sg_addr g) s_id = sg_id g;
  go_key : sget s (sg_addr g) s_key = sg_key g;
  go_size : sget s (sg_addr g) s_size = sg_size g;
  go_block : sget s (sg_addr g) s_phys_addr = sg_block g;
  go_refs : sget s (sg_addr g) s_ref_count = sg_refs g /\ - 2 ^ 31 <= sg_refs g < 2 ^ 31;
  go_live : exists t, sizeof_segment <= t /\ a_live (ss_heap s) (sg_addr g) t;
  go_data : exists t, 0 < sg_size g <= t /\ a_live (ss_heap s) (sg_block g) t
}.

Record shm_ok (s : shm_sys) (S : list seg) : Prop := {
  sh_wf : a_wf (ss_heap s);
  sh_list : slist (ss_st s) s_next (segments s) (sg_addr <$> S);
  sh_segs : Forall (seg_ok s) S;
  sh_ids : NoDup (sg_id <$> S);
  sh_keys : NoDup (sg_key <$> S);
  sh_blocks : NoDup (sg_block <$> S);
  sh_next : Forall (fun g => 0 < sg_id g < next_shm_id s) S
}.

Lemma seg_ok_ext s s' g :
  (forall f, sget s' (sg_addr g) f = sget s (sg_addr g) f) ->
  (forall a t, a_live (ss_heap s) a t -> a_live (ss_heap s') a t) -> seg_ok s g -> seg_ok s' g.
Proof. intros Hf Hl [H1 H2 H3 H4 H5 (t & ? & ?) (u & ? & ?)]. split; rewrite ?Hf; eauto. Qed.

(** What the segments depend on: their structures and their blocks. *)
Lemma shm_ok_ext s s' S :
  (forall a f, a ∈ sg_addr <$> S -> sget s' a f = sget s a f) -> (forall a t, a_live (ss_heap s) a t -> a_live (ss_heap s') a t) ->
  a_wf (ss_heap s') -> segments s' = segments s -> next_shm_id s' = next_shm_id s -> shm_ok s S -> shm_ok s' S.
Proof.
  intros Hf Hl Hw Eg En [H1 H2 H3 H4 H5 H6 H7]. split; rewrite ?Eg, ?En; try done.
  - eapply slist_ext; [|exact H2]. intros x Hx. by apply Hf.
  - rewrite Forall_forall in *. intros g Hg. apply (seg_ok_ext s); [|done|auto]. intros f. by apply Hf, list_elem_of_fmap_2.
Qed.

Lemma shm_ok_w s S w : shm_ok s S -> shm_ok (with_w s w) S.
Proof. intros Hs. apply (shm_ok_ext s); try done. apply Hs. Qed.

(** The keys of the segments, read from their structures. *)
Lemma seg_keys s S : shm_ok s S ->
  Forall (fun g => sget s (sg_addr g) s_id = sg_id g) S /\ Forall (fun g => sget s (sg_addr g) s_key = sg_key g) S /\
  Forall (fun g => sget s (sg_addr g) s_phys_addr = sg_block g) S.
Proof. intros [_ _ H3 _ _ _ _]. split; [|split]; (eapply Forall_impl; [exact H3|]; by intros g []). Qed.

Lemma shm_find_loop fuel s S f v :
  shm_ok s S -> (length S < fuel)%nat ->
  loop fuel (find_shm_step s f v) (segments s) = Some (default 0 (List.find (fun c => sget s c f =? v) (sg_addr <$> S))).
Proof.
  intros [_ H2 _ _ _ _ _] Hf. apply (slist_find_loop (ss_st s) s_next (fun c => sget s c f =? v)); [done|done|].
  by rewrite length_fmap.
Qed.

(** ** The mutex *)

Definition held (s : shm_sys) : shm_sys := with_w s (locked (ss_w s) shm_lock (me s)).

Lemma with_lock_idle fuel s body : idle_mutex (ss_w s) shm_lock -> with_lock fuel s body = body (held s).
Proof. intros Hi. unfold with_lock. by rewrite (mutex_try_idle _ _ _ _ Hi). Qed.

Lemma unlock_idle fuel s s' :
  idle_mutex (ss_w s) shm_lock -> ss_w s' = ss_w (held s) ->
  exists w, unlock fuel s' = Some (with_w s' w) /\ idle_mutex w shm_lock.
Proof.
  intros Hi E. exists (unlocked (ss_w (held s)) shm_lock). split; [|by apply unlocked_idle].
  unfold unlock, me. rewrite E. cbn [held with_w ss_w].
  change (current_process _) with (me s). by rewrite (mutex_unlock_locked fuel _ _ _ Hi).
Qed.

(** ** Finding or making a segment *)

Lemma new_segment_ok s S g key size block t u :
  let s' := new_segment s g key size in
  shm_ok s S -> g <> 0 -> sget s g s_phys_addr = block -> g ∉ sg_addr <$> S -> block ∉ sg_block <$> S ->
  sizeof_segment <= t -> a_live (ss_heap s) g t -> 0 < size <= u -> a_live (ss_heap s) block u ->
  key ∉ sg_key <$> S -> 0 < next_shm_id s < 2 ^ 31 - 1 ->
  shm_ok s' (Seg g (next_shm_id s) key size block 0 :: S).
Proof.
  intros s' [H1 H2 H3 H4 H5 H6 H7] Hg0 Hb Hg Hbl Ht Hlg Hu Hlb Hk Hid.
  assert (next_shm_id s' = next_shm_id s + 1) as En by (unfold s', new_segment; simpl; rewrite s32_small; lia).
  assert (forall x f, x <> g -> sget s' x f = sget s x f) as Hoth by (intros x f Hx; unfold s', new_segment, sget; simpl; by wr_simp).
  assert (forall x, x ∈ sg_addr <$> S -> x <> g) as Hne by (intros x Hx ->; done).
  assert (Forall (seg_ok s') S) as Hsegs.
  { rewrite Forall_forall in *. intros x Hx. apply (seg_ok_ext s); [|done|auto].
    intros f. apply Hoth. by apply Hne, list_elem_of_fmap_2. }
  split; rewrite ?En; [done| |constructor; [|done]|apply NoDup_cons; split; [|done]..|].
  - split; [done|]. split; [done|]. cbn [sg_addr]. replace (ss_st s' g s_next) with (segments s) by (unfold s', new_segment; simpl; by wr_simp).
    eapply slist_ext; [|exact H2]. intros x Hx. apply Hoth. by apply Hne.
  - unfold sget in Hb. split; unfold s', new_segment, sget; cbn [sg_addr sg_id sg_key sg_size sg_block sg_refs ss_st sset ss_heap next_shm_id];
      wr_simp; [done..|done|split; [done|lia]|by exists t|by exists u].
  - intros Hin. apply list_elem_of_fmap_1 in Hin as (x & E & Hx). rewrite Forall_forall in H7. pose proof (H7 x Hx). simpl in *. lia.
  - done.
  - done.
  - constructor; [simpl; lia|]. eapply Forall_impl; [exact H7|]. simpl. lia.
Qed.

(** A new block is not one of the segments'. *)
Lemma shm_fresh s S p :
  shm_ok s S -> (forall t, ~ a_live (ss_heap s) p t) -> p ∉ sg_addr <$> S /\ p ∉ sg_block <$> S.
Proof.
  intros [_ _ H3 _ _ _ _] Hf. rewrite Forall_forall in H3. split; intros Hin; apply list_elem_of_fmap_1 in Hin as (g & -> & Hg);
    destruct (H3 g Hg) as [_ _ _ _ _ (t & _ & Ht) (u & _ & Hu)]; naive_solver.
Qed.


Lemma held_ok s S : shm_ok s S -> shm_ok (held s) S.
Proof. apply shm_ok_w. Qed.

Lemma find_seg_nonzero s S1 g S2 : shm_ok s (S1 ++ g :: S2) -> sg_addr g <> 0.
Proof.
  intros [_ H2 _ _ _ _ _]. eapply slist_nonzero; [exact H2|]. rewrite fmap_app. apply elem_of_app. right. left.
Qed.

(** What the two allocations of a new segment give: both blocks fresh, or the
    heap as it was. *)
Lemma alloc_segment s S size :
  shm_ok s S -> 0 < size < 2 ^ 63 ->
  exists h g, a_alloc (ss_heap s) sizeof_segment = Some (h, g) /\
    (g = 0 /\ shm_ok (with_heap s h) S /\ (forall p t, a_live h p t <-> a_live (ss_heap s) p t) \/
     g <> 0 /\ g ∉ sg_addr <$> S /\
     exists h2 b, a_alloc h size = Some (h2, b) /\
       (b = 0 /\ (exists h3, a_free h2 g = Some h3 /\ a_wf h3 /\ forall p t, a_live h3 p t <-> a_live (ss_heap s) p t) \/
        b <> 0 /\ b ∉ sg_block <$> S /\ (forall t, ~ a_live (ss_heap s) b t) /\ shm_ok (with_heap s h2) S /\
        (forall p t, a_live (ss_heap s) p t -> a_live h2 p t) /\
        exists t u, sizeof_segment <= t /\ a_live h2 g t /\ size <= u /\ a_live h2 b u)).
Proof.
  intros Hs Hsz. destruct (a_alloc_spec (ss_heap s) sizeof_segment (sh_wf _ _ Hs)) as (h & g & Ha & Hwf & Hg);
    [unfold sizeof_segment; lia|]. exists h, g. split; [done|].
  destruct Hg as [[-> Hl]|(t & Ht & Hfg & Hl)].
  { left. split; [done|]. split; [|done]. apply (shm_ok_ext s); try done. intros; by apply Hl. }
  right. assert (a_live h g t) as Hgl by (apply Hl; by left).
  split; [pose proof (a_live_pos _ _ _ Hwf Hgl); lia|]. split; [by apply (shm_fresh s S)|].
  destruct (a_alloc_spec h size Hwf Hsz) as (h2 & b & Ha2 & Hwf2 & Hb). exists h2, b. split; [done|].
  destruct Hb as [[-> Hl2]|(u & Hu & Hfb & Hl2)].
  - left. split; [done|]. destruct (a_free_spec h2 g t Hwf2) as (h3 & Hf & Hwf3 & Hl3); [by apply Hl2|].
    exists h3. split; [done|]. split; [done|]. intros p x. rewrite Hl3, Hl2, Hl. split; [naive_solver|].
    intros Hp. split; [by right|]. intros ->. by apply (Hfg x).
  - right. assert (a_live h2 b u) as Hbl by (apply Hl2; by left).
    assert (forall p x, a_live (ss_heap s) p x -> a_live h2 p x) as Hmono by (intros p x Hp; apply Hl2; right; apply Hl; by right).
    assert (forall x, ~ a_live (ss_heap s) b x) as Hfb' by (intros x Hx; apply (Hfb x), Hl; by right).
    split; [pose proof (a_live_pos _ _ _ Hwf2 Hbl); lia|]. split; [by apply (shm_fresh s S)|]. split; [done|].
    split; [by apply (shm_ok_ext s)|]. split; [done|].
    exists t, u. split; [done|]. split; [apply Hl2; by right|]. by split.
Qed.

(** [sys_shmget] returns the identifier of the segment with the given key.
    If there is none it makes one with a fresh identifier and a block of zeros
    that overlaps no live block, or, when the heap has no room for the structure
    or the block, returns -1 with the segments and the live blocks as before. *)
Theorem shmget_correct fuel s S key size :
  shm_ok s S -> (length S < fuel)%nat -> idle_mutex (ss_w s) shm_lock -> 0 < next_shm_id s < 2 ^ 31 - 1 -> 0 < size < 2 ^ 63 ->
  exists s' r, sys_shmget fuel s key size = Some (s', Ret r) /\ idle_mutex (ss_w s') shm_lock /\
    ((exists g, g ∈ S /\ sg_key g = key /\ r = sg_id g /\ shm_ok s' S /\ ss_heap s' = ss_heap s /\ ss_mem s' = ss_mem s) \/
     key ∉ sg_key <$> S /\ r = -1 /\ shm_ok s' S /\ (forall p t, a_live (ss_heap s') p t <-> a_live (ss_heap s) p t) /\
       ss_mem s' = ss_mem s \/
     key ∉ sg_key <$> S /\ exists a b, r = next_shm_id s /\ shm_ok s' (Seg a r key size b 0 :: S) /\
       (forall i, 0 <= i < size -> ss_mem s' (b + i) = 0) /\
       forall p t x, a_live (ss_heap s) p t -> p <= x < p + t -> ss_mem s' x = ss_mem s x).
Proof.
  intros Hs Hf Hi Hid Hsz. unfold sys_shmget. rewrite (with_lock_idle fuel s _ Hi).
  pose proof (held_ok s S Hs) as Hh. unfold find_shm_key. rewrite (shm_find_loop fuel _ _ _ _ Hh Hf). cbn [mbind option_bind].
  destruct (decide (key ∈ sg_key <$> S)) as [Hin|Hni].
  - apply list_elem_of_fmap_1 in Hin as (g & -> & Hg). apply list_elem_of_split in Hg as (S1 & S2 & ->).
    rewrite (find_by_key sg_addr sg_key (fun c => sget (held s) c s_key)) by (apply Hs || by apply seg_keys). cbn [from_option]. unfold id.
    rewrite (proj2 (Z.eqb_neq _ _) (find_seg_nonzero _ _ _ _ Hs)). cbn [negb].
    destruct (unlock_idle fuel s (held s) Hi eq_refl) as (w & -> & Hw). cbn [mbind option_bind]. eexists _, _. split; [done|]. split; [done|].
    left. exists g. split; [apply elem_of_app; right; left|]. split; [done|].
    split; [|split; [by apply shm_ok_w|done]]. destruct (seg_keys _ _ Hs) as [Hids _]. apply Forall_app in Hids as [_ Hids].
    by apply Forall_cons in Hids as [Hids _].
  - rewrite (find_no_key sg_addr sg_key (fun c => sget (held s) c s_key)) by (done || by apply seg_keys). cbn [from_option].
    change (negb (0 =? 0)) with false. cbv iota.
    destruct (alloc_segment (held s) S size Hh Hsz) as (h & g & -> & [(-> & Hs2 & Hl)|(Hg0 & Hg & h2 & b & Ha & Hb)]);
      cbn [mbind option_bind].
    { change (0 =? 0) with true. cbv iota. destruct (unlock_idle fuel s (with_heap (held s) h) Hi eq_refl) as (w & -> & Hw).
      cbn [mbind option_bind]. eexists _, _. split; [done|]. split; [done|]. right; left. split; [done|]. split; [done|].
      split; [by apply shm_ok_w|done]. }
    rewrite (proj2 (Z.eqb_neq _ _) Hg0). cbn [with_heap ss_heap]. rewrite Ha. cbn [mbind option_bind].
    set (s2 := sset _ _ _ _). assert (sget s2 g s_phys_addr = b) as Eb by (unfold s2, sget; simpl; by wr_simp). rewrite Eb.
    destruct Hb as [(-> & h3 & Hfr & Hwf & Hl)|(Hb0 & Hbn & Hbf & Hs2 & Hmono & t & u & Ht & Hlg & Hu & Hlb)].
    + change (0 =? 0) with true. cbv iota. change (ss_heap s2) with h2. rewrite Hfr. cbn [mbind option_bind].
      destruct (unlock_idle fuel s (with_heap s2 h3) Hi eq_refl) as (w & -> & Hw). cbn [mbind option_bind].
      eexists _, _. split; [done|]. split; [done|]. right; left. split; [done|]. split; [done|]. split; [|done].
      apply shm_ok_w, (shm_ok_ext s); try done; [|intros; by apply Hl].
      intros a f Hain. unfold s2, sget. simpl. rewrite wr_other; [done|]. left. by intros ->.
    + rewrite (proj2 (Z.eqb_neq _ _) Hb0).
      assert (shm_ok s2 S) as Hs3.
      { apply (shm_ok_ext (with_heap (held s) h2)); try done; [|apply Hs2].
        intros a f Hain. unfold s2, sget. simpl. rewrite wr_other; [done|]. left. by intros ->. }
      pose proof (new_segment_ok s2 S g key size b t u Hs3 Hg0 Eb Hg Hbn Ht Hlg ltac:(lia) Hlb Hni Hid) as Hs4.
      set (s4 := new_segment s2 g key size) in *.
      destruct (unlock_idle fuel s s4 Hi eq_refl) as (w & -> & Hw). cbn [mbind option_bind].
      assert (sget s4 g s_id = next_shm_id s) as Er by (unfold s4, new_segment, sget; simpl; by wr_simp).
      assert (forall x, ss_mem s4 x = fill (ss_mem s) b 0 size x) as Em.
      { intros x. unfold s4, new_segment. cbn [ss_mem sset]. rewrite Eb. apply memset_fill. lia. }
      exists (with_w s4 w), (next_shm_id s). split; [by rewrite <- Er|]. split; [done|]. right; right. split; [done|].
      exists g, b. split; [done|]. split; [by apply shm_ok_w|]. cbn [with_w ss_mem]. split.
      * intros i Hx. rewrite Em. unfold fill. by rewrite decide_True by lia.
      * intros p v x Hp Hx. rewrite Em. unfold fill. rewrite decide_False; [done|]. intros Hc.
        destruct (a_live_disjoint _ _ _ _ _ (sh_wf _ _ Hs2) (Hmono _ _ Hp) Hlb) as [[-> _]|[?|?]]; [by apply (Hbf v)|lia..].
Qed.


(** ** Attaching and detaching *)

Definition with_refs (g : seg) (r : Z) : seg := Seg (sg_addr g) (sg_id g) (sg_key g) (sg_size g) (sg_block g) r.

Lemma set_refs_ok s S1 g S2 r :
  shm_ok s (S1 ++ g :: S2) -> - 2 ^ 31 <= r < 2 ^ 31 -> shm_ok (sset s (sg_addr g) s_ref_count r) (S1 ++ with_refs g r :: S2).
Proof.
  intros [H1 H2 H3 H4 H5 H6 H7] Hr. pose proof (slist_nodup _ _ _ _ H2) as Hnd.
  assert (forall k : seg -> Z, (forall x v, k (with_refs x v) = k x) -> k <$> S1 ++ with_refs g r :: S2 = k <$> S1 ++ g :: S2) as Ek.
  { intros k Hk. rewrite !fmap_app. cbn [fmap list_fmap]. by rewrite Hk. }
  rewrite fmap_app in Hnd. apply NoDup_app in Hnd as (_ & Hd1 & Hd2). apply NoDup_cons in Hd2 as [Hd2 _].
  assert (forall x, x ∈ S1 ++ S2 -> seg_ok s x -> seg_ok (sset s (sg_addr g) s_ref_count r) x) as Hoth.
  { intros x Hx. apply seg_ok_ext; [|done]. intros f. unfold sget. simpl. apply wr_other. left. intros E.
    apply elem_of_app in Hx as [Hx|Hx]; apply (list_elem_of_fmap_2 sg_addr) in Hx; rewrite E in Hx; [|done]. apply (Hd1 _ Hx). left. }
  apply Forall_app in H3 as [H3 H3']. apply Forall_cons in H3' as [Hg H3']. rewrite Forall_forall in H3, H3'.
  split; rewrite ?Ek by done; try done.
  - apply slist_wr; [by right|done].
  - apply Forall_app. split; [|constructor]; [apply Forall_forall; intros x Hx; apply Hoth; [set_solver|auto]| |
      apply Forall_forall; intros x Hx; apply Hoth; [set_solver|auto]].
    destruct Hg as [G1 G2 G3 G4 G5 G6 G7]. split; unfold sget in *; cbn [with_refs sg_addr sg_id sg_key sg_size sg_block sg_refs ss_st sset]; wr_simp; done.
  - rewrite Forall_app, Forall_cons in *. done.
Qed.

Lemma refs_of s S1 g S2 : shm_ok s (S1 ++ g :: S2) -> sget s (sg_addr g) s_ref_count = sg_refs g /\ - 2 ^ 31 <= sg_refs g < 2 ^ 31 /\
  sget s (sg_addr g) s_phys_addr = sg_block g.
Proof. intros [_ _ H3 _ _ _ _]. apply Forall_app in H3 as [_ H3]. apply Forall_cons in H3 as [[_ _ _ H4 [H5 H5'] _ _] _]. done. Qed.

(** Attaching returns the segment's block and counts the attachment. *)
Lemma shmat_found fuel s S1 g S2 :
  shm_ok s (S1 ++ g :: S2) -> (length (S1 ++ g :: S2) < fuel)%nat -> idle_mutex (ss_w s) shm_lock ->
  exists s', sys_shmat fuel s (sg_id g) = Some (s', Ret (sg_block g)) /\ idle_mutex (ss_w s') shm_lock /\
    shm_ok s' (S1 ++ with_refs g (s32 (sg_refs g + 1)) :: S2) /\ ss_heap s' = ss_heap s /\ ss_mem s' = ss_mem s.
Proof.
  intros Hs Hf Hi. unfold sys_shmat. rewrite (with_lock_idle fuel s _ Hi). pose proof (held_ok _ _ Hs) as Hh.
  unfold find_shm. rewrite (shm_find_loop fuel _ _ _ _ Hh Hf). cbn [mbind option_bind].
  rewrite (find_by_key sg_addr sg_id (fun c => sget (held s) c s_id)) by (apply Hs || by apply seg_keys). cbn [from_option]. unfold id.
  rewrite (proj2 (Z.eqb_neq _ _) (find_seg_nonzero _ _ _ _ Hs)).
  destruct (refs_of _ _ _ _ Hh) as (Er & _ & Eb). rewrite Er.
  pose proof (set_refs_ok _ _ _ _ (s32 (sg_refs g + 1)) Hh (s32_range _)) as Hs2. set (s2 := sset _ _ _ _) in *.
  destruct (unlock_idle fuel s s2 Hi eq_refl) as (w & -> & Hw). cbn [mbind option_bind].
  exists (with_w s2 w). split; [|split; [done|]; split; [by apply shm_ok_w|done]].
  do 3 f_equal. rewrite <- Eb. unfold s2, sget. simpl. by wr_simp.
Qed.

(** Detaching finds the segment by its block and counts one attachment less. *)
Lemma shmdt_found fuel s S1 g S2 :
  shm_ok s (S1 ++ g :: S2) -> (length (S1 ++ g :: S2) < fuel)%nat -> idle_mutex (ss_w s) shm_lock ->
  exists s', sys_shmdt fuel s (sg_block g) = Some (s', Ret 0) /\ idle_mutex (ss_w s') shm_lock /\
    shm_ok s' (S1 ++ with_refs g (s32 (sg_refs g - 1)) :: S2) /\ ss_heap s' = ss_heap s /\ ss_mem s' = ss_mem s.
Proof.
  intros Hs Hf Hi. unfold sys_shmdt. rewrite (with_lock_idle fuel s _ Hi). pose proof (held_ok _ _ Hs) as Hh.
  rewrite (shm_find_loop fuel _ _ _ _ Hh Hf). cbn [mbind option_bind].
  rewrite (find_by_key sg_addr sg_block (fun c => sget (held s) c s_phys_addr)) by (apply Hs || by apply seg_keys). cbn [from_option]. unfold id.
  rewrite (proj2 (Z.eqb_neq _ _) (find_seg_nonzero _ _ _ _ Hs)). cbn [negb].
  destruct (refs_of _ _ _ _ Hh) as (Er & _ & Eb). rewrite Er.
  pose proof (set_refs_ok _ _ _ _ (s32 (sg_refs g - 1)) Hh (s32_range _)) as Hs2. set (s2 := sset _ _ _ _) in *.
  destruct (unlock_idle fuel s s2 Hi eq_refl) as (w & -> & Hw). cbn [mbind option_bind].
  exists (with_w s2 w). split; [done|]. split; [done|]. split; [by apply shm_ok_w|done].
Qed.

(** An unknown identifier or address is refused and changes nothing. *)
Lemma shm_unknown fuel s S id addr :
  shm_ok s S -> (length S < fuel)%nat -> idle_mutex (ss_w s) shm_lock ->
  (id ∉ sg_id <$> S -> exists s', sys_shmat fuel s id = Some (s', Ret (2 ^ 64 - 1)) /\ idle_mutex (ss_w s') shm_lock /\ shm_ok s' S) /\
  (addr ∉ sg_block <$> S -> exists s', sys_shmdt fuel s addr = Some (s', Ret (-1)) /\ idle_mutex (ss_w s') shm_lock /\ shm_ok s' S).
Proof.
  intros Hs Hf Hi. pose proof (held_ok _ _ Hs) as Hh.
  destruct (unlock_idle fuel s (held s) Hi eq_refl) as (w & Hu & Hw).
  split; intros Hn; unfold sys_shmat, sys_shmdt, find_shm; rewrite (with_lock_idle fuel s _ Hi), (shm_find_loop fuel _ _ _ _ Hh Hf);
    cbn [mbind option_bind].
  - rewrite (find_no_key sg_addr sg_id (fun c => sget (held s) c s_id)) by (done || by apply seg_keys). cbn [from_option].
    change (0 =? 0) with true. cbv iota. rewrite Hu. cbn [mbind option_bind]. eexists. split; [done|]. split; [done|]. by apply shm_ok_w.
  - rewrite (find_no_key sg_addr sg_block (fun c => sget (held s) c s_phys_addr)) by (done || by apply seg_keys). cbn [from_option].
    change (negb (0 =? 0)) with false. cbv iota. rewrite Hu. cbn [mbind option_bind]. eexists. split; [done|]. split; [done|]. by apply shm_ok_w.
Qed.

Lemma s32_add_sub r : - 2 ^ 31 <= r < 2 ^ 31 -> s32 (s32 (r + 1) - 1) = r.
Proof.
  intros Hr. destruct (decide (r = 2 ^ 31 - 1)) as [->|]; [by vm_compute|]. rewrite (s32_small (r + 1)) by lia. rewrite s32_small; lia.
Qed.

(** Attaching a segment by its identifier gives its block, whoever asks, with
    one more reference counted; detaching that address undoes it.  Identifiers
    and addresses that belong to no segment are refused.  Neither call changes a
    segment's contents. *)
Theorem shm_attach_detach fuel s S1 g S2 :
  shm_ok s (S1 ++ g :: S2) -> (length (S1 ++ g :: S2) < fuel)%nat -> idle_mutex (ss_w s) shm_lock ->
  exists s' s'', sys_shmat fuel s (sg_id g) = Some (s', Ret (sg_block g)) /\
    shm_ok s' (S1 ++ with_refs g (s32 (sg_refs g + 1)) :: S2) /\
    sys_shmdt fuel s' (sg_block g) = Some (s'', Ret 0) /\ shm_ok s'' (S1 ++ g :: S2) /\ ss_mem s'' = ss_mem s /\
    (forall id, id ∉ sg_id <$> S1 ++ g :: S2 -> exists t, sys_shmat fuel s'' id = Some (t, Ret (2 ^ 64 - 1)) /\ shm_ok t (S1 ++ g :: S2)) /\
    (forall a, a ∉ sg_block <$> S1 ++ g :: S2 -> exists t, sys_shmdt fuel s'' a = Some (t, Ret (-1)) /\ shm_ok t (S1 ++ g :: S2)).
Proof.
  intros Hs Hf Hi. destruct (shmat_found fuel s S1 g S2 Hs Hf Hi) as (s1 & H1 & Hi1 & Hs1 & _ & Em1).
  destruct (shmdt_found fuel s1 S1 _ S2 Hs1) as (s2 & H2 & Hi2 & Hs2 & _ & Em2); [rewrite length_app in *; exact Hf|done|].
  destruct (refs_of _ _ _ _ Hs) as (_ & Hr & _).
  replace (with_refs _ _) with g in Hs2 by (unfold with_refs; cbn [sg_refs sg_addr sg_id sg_key sg_size sg_block];
    rewrite s32_add_sub by done; by destruct g).
  exists s1, s2. split; [done|]. split; [done|]. split; [exact H2|]. split; [done|]. split; [congruence|].
  split; [intros i Hn; destruct (shm_unknown fuel s2 _ i 0 Hs2 Hf Hi2) as [Hu _]|
    intros a Hn; destruct (shm_unknown fuel s2 _ 0 a Hs2 Hf Hi2) as [_ Hu]]; destruct (Hu Hn) as (t & ? & _ & ?); by exists t.
Qed.

End shm.

(** ** A concrete system

    One segment, made for key 9, with its structure at 0x1028 and its block at
    0x1078. *)
#[local] Existing Instance Heap.heap_allocator.

Definition demo_shm_tiles : list (Z * bool) := [(40, false); (256, false); (4096, true)].

Definition demo_segs : store shm_segment := fun x f =>
  if x =? 0x1028 then
    match f with s_id => 1 | s_key => 9 | s_size => 200 | s_phys_addr => 0x1078 | s_ref_count => 2 | s_next => 0 end
  else 0.

Definition demo_shm : shm_sys (A := Spinlock.cpu * Heap.heap) :=
  SS (Heap.demo_cpu, Heap.heap_of 0x1000 demo_shm_tiles) demo_segs (fun _ => 7) 0x1028 2 (WSys demo_sched (fun _ _ => 0)).

Lemma demo_shm_tiles_ok : Heap.tiles_ok 0x1000 demo_shm_tiles.
Proof. split; [lia|]. split; [repeat constructor; lia|vm_compute; done]. Qed.

Lemma demo_shm_ok : shm_ok demo_shm [Seg 0x1028 1 9 200 0x1078 2].
Proof.
  assert (forall x t, (x, t) ∈ [(0x1028, 40); (0x1078, 256)] -> a_live (ss_heap demo_shm) x t) as Hl.
  { intros x t Hx. apply Heap.heap_of_live; [exact demo_shm_tiles_ok|done|exact Hx]. }
  split; [|by vm_compute|apply Forall_singleton|apply NoDup_singleton..|apply Forall_singleton; simpl; lia].
  - exists demo_shm_tiles. apply Heap.heap_of_rep; [exact demo_shm_tiles_ok|done].
  - split; try reflexivity; [split; [reflexivity|simpl; lia]|exists 40|exists 256];
      (split; [unfold sizeof_segment; simpl; lia|apply Hl; set_solver]).
Qed.

Lemma shmget_correct_witness :
  exists s' r, sys_shmget 100 5 demo_shm 33 64 = Some (s', Ret r) /\ (r = -1 \/ r = 2).
Proof.
  destruct (shmget_correct 100 5 demo_shm [Seg 0x1028 1 9 200 0x1078 2] 33 64 demo_shm_ok) as (s' & r & Hr & _ & Hc).
  - simpl. lia.
  - by vm_compute.
  - simpl. lia.
  - lia.
  - exists s', r. split; [exact Hr|]. destruct Hc as [(g & Hg & Hk & _)|[(_ & -> & _)|(_ & a & b & -> & _)]]; [|by left|by right].
    apply list_elem_of_singleton in Hg as ->. discriminate Hk.
Defined.

Lemma shm_attach_detach_witness :
  exists s' s'', sys_shmat 100 5 demo_shm 1 = Some (s', Ret 0x1078) /\ sys_shmdt 100 5 s' 0x1078 = Some (s'', Ret 0).
Proof.
  destruct (shm_attach_detach 100 5 demo_shm [] (Seg 0x1028 1 9 200 0x1078 2) [] demo_shm_ok) as (s' & s'' & H1 & _ & H2 & _).
  - simpl. lia.
  - by vm_compute.
  - exists s', s''. split; [exact H1|exact H2].
Defined.

End Shm.
