(* ===== verification/Buffer.v ===== *)
(** * The RAM disk and the buffer cache
      (src/kernel/drivers/block/ramdisk.c, src/kernel/fs/buffer.c)

    The buffer cache keeps blocks of disks in memory, in a hash table of chains
    of [struct buffer_head].  A chain is doubly linked: each buffer has the
    address of the link that leads to it, which is the table's entry or the
    [b_next_hash] field of the buffer before it.  So the links are a store of
    their own, indexed by the address of the link; the other fields of a buffer
    are fields of a store.  Blocks travel to and from a disk in bios, through
    [submit_bio] of [Block], whose state this file extends with the buffers, the
    bytes of memory and the wait queues.

    The RAM disk copies at once and completes the bio before [submit_bio]
    returns. *)
From S2P Require Import Prelude Memory CString Allocator ListHead Store SortedQueue Spinlock Heap Sched WaitQueue Block Gendisk.
Import CString ListHead Sched WaitQueue Block.

Module Buffer.

(** ** State *)

Inductive bhfld := b_state | b_data | b_blocknr | b_size | b_bdev | b_count | b_pprev_hash.
#[export] Instance bhfld_eq_dec : EqDecision bhfld.
Proof. solve_decision. Defined.

Definition BH_HASH_SIZE : Z := 1024.
Definition BH_HASH_MASK : Z := BH_HASH_SIZE - 1.
Definition MAX_BUFFER_CACHE : Z := 1024.
Definition BH_Uptodate : Z := 0.
Definition BH_Dirty : Z := 1.
Definition BH_Locked : Z := 2.
Definition READ : Z := 0.
Definition WRITE : Z := 1.

Definition sizeof_buffer_head : Z := 160.
Definition sizeof_bio : Z := 72.
Definition sizeof_bio_vec : Z := 16.
(** [&bh->b_wait] and [&bh->b_next_hash] *)
Definition b_wait (bh : Z) : Z := bh + 96.
Definition b_next_hash (bh : Z) : Z := bh + 144.

(** The functions whose addresses the code stores. *)
Definition end_buffer_io_async_ptr : Z := 5.
Definition ramdisk_make_request_ptr : Z := 6.

Record bufs := Bufs {
  bh_st : store bhfld; bh_link : Z -> Z; buffer_cache_count : Z; io_mem : mem; io_w : wsys; majors : Z -> Z
}.

Section buffers.
Set Default Proof Using "Type".
Context {A : Type} `{Allocator A}.
(** The addresses of the table, of the list of disks and of the string
    ["ramdisk"], and the [request_fn] of other drivers. *)
Variables (bh_hash gendisk_head driver_name : Z).
Variable request_fn : Z -> Z -> blk (A := A) (R := bufs) -> option (blk (A := A) (R := bufs)).

Notation io := (blk (A := A) (R := bufs)).

Definition with_rest (s : io) (b : bufs) : io := Blk (b_links s) (b_st s) (b_heap s) b.
Definition hget (s : io) (bh : Z) (f : bhfld) : Z := bh_st (b_rest s) bh f.
Definition hset (s : io) (bh : Z) (f : bhfld) (v : Z) : io :=
  let b := b_rest s in
  with_rest s (Bufs (wr (bh_st b) bh f v) (bh_link b) (buffer_cache_count b) (io_mem b) (io_w b) (majors b)).
Definition lget (s : io) (c : Z) : Z := bh_link (b_rest s) c.
Definition lset (s : io) (c v : Z) : io :=
  let b := b_rest s in
  with_rest s (Bufs (bh_st b) (fupd (bh_link b) c v) (buffer_cache_count b) (io_mem b) (io_w b) (majors b)).
Definition with_count (s : io) (n : Z) : io :=
  let b := b_rest s in with_rest s (Bufs (bh_st b) (bh_link b) n (io_mem b) (io_w b) (majors b)).
Definition with_io_mem (s : io) (m : mem) : io :=
  let b := b_rest s in with_rest s (Bufs (bh_st b) (bh_link b) (buffer_cache_count b) m (io_w b) (majors b)).
Definition with_w (s : io) (w : wsys) : io :=
  let b := b_rest s in with_rest s (Bufs (bh_st b) (bh_link b) (buffer_cache_count b) (io_mem b) w (majors b)).
Definition mem_of (s : io) : mem := io_mem (b_rest s).

(** [&bh_hash[idx]] *)
Definition bucket (idx : Z) : Z := bh_hash + 8 * idx.

(** ** Buffer state *)

Definition buffer_uptodate (s : io) (bh : Z) : bool := Z.testbit (hget s bh b_state) BH_Uptodate.
Definition buffer_dirty (s : io) (bh : Z) : bool := Z.testbit (hget s bh b_state) BH_Dirty.
Definition buffer_locked (s : io) (bh : Z) : bool := Z.testbit (hget s bh b_state) BH_Locked.
Definition set_buffer_uptodate (s : io) (bh : Z) : io := hset s bh b_state (Z.setbit (hget s bh b_state) BH_Uptodate).
Definition mark_buffer_dirty (s : io) (bh : Z) : io * Z := (hset s bh b_state (Z.setbit (hget s bh b_state) BH_Dirty), 0).

(** [lock_buffer] up to its blocking point: the bit is tested and set; if it was
    set, the caller goes to sleep on the buffer and tries again. *)
Definition lock_buffer (s : io) (bh : Z) : io * option outcome :=
  if bh =? 0 then (s, None)
  else if buffer_locked s bh then (s, Some (Sleeps (b_wait bh)))
  else (hset s bh b_state (Z.setbit (hget s bh b_state) BH_Locked), None).

Definition unlock_buffer (fuel : nat) (s : io) (bh : Z) : option io :=
  if bh =? 0 then Some s
  else
    let s := hset s bh b_state (Z.clearbit (hget s bh b_state) BH_Locked) in
    with_w s <$> wake_up fuel (io_w (b_rest s)) (b_wait bh).

Definition wait_on_buffer (s : io) (bh : Z) : option outcome :=
  if negb (bh =? 0) && buffer_locked s bh then Some (Sleeps (b_wait bh)) else None.

(** ** The hash table *)

Definition buffer_init (s : io) : io :=
  let b := b_rest s in
  with_rest s (Bufs (bh_st b)
    (fun c => if decide (bh_hash <= c < bh_hash + 8 * BH_HASH_SIZE) then 0 else bh_link b c)
    (buffer_cache_count b) (io_mem b) (io_w b) (majors b)).

Definition hash (bdev block : Z) : Z := Z.lxor bdev block .& BH_HASH_MASK.

Definition is_block (s : io) (bdev block size bh : Z) : bool :=
  (hget s bh b_bdev =? bdev) && (hget s bh b_blocknr =? block) && (hget s bh b_size =? size).

Definition find_block_step (s : io) (bdev block size : Z) : Z -> Z + Z :=
  fun bh => if bh =? 0 then inr 0
            else if is_block s bdev block size bh then inr bh
            else inl (lget s (b_next_hash bh)).

(** The walk along the chain; a buffer that is found gets a reference. *)
Definition find_get_block (fuel : nat) (s : io) (bdev block size : Z) : option (io * Z) :=
  bh ← loop fuel (find_block_step s bdev block size) (lget s (bucket (hash bdev block)));
  if negb (bh =? 0) then Some (hset s bh b_count (s32 (hget s bh b_count + 1)), bh) else Some (s, 0).

(** [memset(bh, 0, sizeof(struct buffer_head))] *)
Definition clear_bh (s : io) (bh : Z) : io :=
  let b := b_rest s in
  with_rest s (Bufs (fun x f => if decide (x = bh) then 0 else bh_st b x f) (fupd (bh_link b) (b_next_hash bh) 0)
    (buffer_cache_count b) (io_mem b) (io_w b) (majors b)).

Definition alloc_buffer_head (s : io) (bdev block size : Z) : option (io * Z) :=
  '(h, bh) ← a_alloc (b_heap s) sizeof_buffer_head;
  let s := with_heap s h in
  if bh =? 0 then Some (s, 0)
  else
    let s := clear_bh s bh in
    '(h, data) ← a_alloc (b_heap s) size;
    let s := hset (with_heap s h) bh b_data data in
    if hget s bh b_data =? 0 then
      h ← a_free (b_heap s) bh; Some (with_heap s h, 0)
    else
      let s := with_io_mem s (memset (mem_of s) (hget s bh b_data) 0 size) in
      let s := hset s bh b_bdev bdev in
      let s := hset s bh b_blocknr block in
      let s := hset s bh b_size size in
      let s := hset s bh b_count 1 in
      let s := hset s bh b_state 0 in
      let s := with_w s (wait_queue_init (io_w (b_rest s)) (b_wait bh)) in
      Some (with_count s (s32 (buffer_cache_count (b_rest s) + 1)), bh).

(** Linking [bh] in front of the chain. *)
Definition link_bh (s : io) (bh idx : Z) : io :=
  let s := lset s (b_next_hash bh) (lget s (bucket idx)) in
  let s := if negb (lget s (bucket idx) =? 0) then hset s (lget s (bucket idx)) b_pprev_hash (b_next_hash bh) else s in
  let s := lset s (bucket idx) bh in
  hset s bh b_pprev_hash (bucket idx).

Definition getblk (fuel : nat) (s : io) (bdev block size : Z) : option (io * Z) :=
  '(s, bh) ← find_get_block fuel s bdev block size;
  if negb (bh =? 0) then Some (s, bh)
  else
    '(s, bh) ← alloc_buffer_head s bdev block size;
    if bh =? 0 then Some (s, 0)
    else
      '(s, exist_bh) ← find_get_block fuel s bdev block size;
      if negb (exist_bh =? 0) then
        h ← a_free (b_heap s) (hget s bh b_data);
        h ← a_free h bh;
        Some (with_heap s h, exist_bh)
      else Some (link_bh s bh (hash bdev block), bh).

(** Unlinking [bh] from its chain, whichever link leads to it. *)
Definition unlink_bh (s : io) (bh : Z) : io :=
  let s := if negb (lget s (b_next_hash bh) =? 0)
           then hset s (lget s (b_next_hash bh)) b_pprev_hash (hget s bh b_pprev_hash) else s in
  if negb (hget s bh b_pprev_hash =? 0) then lset s (hget s bh b_pprev_hash) (lget s (b_next_hash bh)) else s.

Definition brelse (s : io) (bh : Z) : option io :=
  if bh =? 0 then Some s
  else
    let s := hset s bh b_count (s32 (hget s bh b_count - 1)) in
    if (hget s bh b_count =? 0) && (negb (buffer_dirty s bh) && (MAX_BUFFER_CACHE <? buffer_cache_count (b_rest s))) then
      let s := unlink_bh s bh in
      h ← a_free (b_heap s) (hget s bh b_data);
      h ← a_free h bh;
      let s := with_heap s h in
      Some (with_count s (s32 (buffer_cache_count (b_rest s) - 1)))
    else Some s.

(** ** Completion and the RAM disk *)

Definition end_buffer_io_async (fuel : nat) (s : io) (bio : Z) : option io :=
  let bh := bget s bio bio_private_data in
  let s := if Z.testbit (bget s bio bio_flags) 0 then set_buffer_uptodate s bh else s in
  s ← unlock_buffer fuel s bh;
  s ← (if negb (bget s bio bio_io_vec =? 0) then with_heap s <$> a_free (b_heap s) (bget s bio bio_io_vec) else Some s);
  with_heap s <$> a_free (b_heap s) bio.

(** Calls through [bio->end_io]: the kernel has one completion. *)
Definition end_io (fuel : nat) (f bio : Z) (s : io) : option io :=
  if f =? end_buffer_io_async_ptr then end_buffer_io_async fuel s bio else None.

(** The [i]-th segment of the bio, moved to or from [addr]. *)
Definition copy_segment (bio : Z) (i : Z) (sa : io * Z) : io * Z :=
  let '(s, addr) := sa in
  let bv := bget s bio bio_io_vec + sizeof_bio_vec * i in
  let buffer := bget s bv bv_page + bget s bv bv_offset in
  let len := bget s bv bv_len in
  (with_io_mem s (if bget s bio bio_rw =? WRITE then memcpy (mem_of s) addr buffer len else memcpy (mem_of s) buffer addr len),
   addr + len).

Definition ramdisk_make_request (fuel : nat) (s : io) (bio : Z) : option io :=
  let disk := bget s bio bio_disk in
  if disk =? 0 then complete (end_io fuel) s bio
  else
    let ramdisk_data := bget s disk d_private_data in
    let disk_size := u64 (bget s disk d_capacity * 512) in
    let offset := u64 (bget s bio bio_sector * 512) in
    let size := bget s bio bio_size in
    if disk_size <? u64 (offset + size) then complete (end_io fuel) s bio
    else
      let '(s, _) := for_up (Z.to_nat (bget s bio bio_vc_cnt)) 0 (copy_segment bio) (s, ramdisk_data + offset) in
      complete (end_io fuel) s bio.

(** Calls through [q->make_request_fn] of a driver: only the RAM disk installs
    one. *)
Definition driver_make_request (fuel : nat) (f q bio : Z) (s : io) : option io :=
  if f =? ramdisk_make_request_ptr then ramdisk_make_request fuel s bio else None.

Definition submit (fuel : nat) (s : io) (bio : Z) : option io :=
  submit_bio request_fn (end_io fuel) (driver_make_request fuel) fuel s bio.

(** ** Reading and writing blocks *)

(** The bio for [bh], with its one segment. *)
Definition fill_bio (s : io) (bio rw bh : Z) : io :=
  let s := bset s bio bio_sector (u64 (hget s bh b_blocknr * (hget s bh b_size / 512))) in
  let s := bset s bio bio_size (hget s bh b_size) in
  let s := bset s bio bio_disk (hget s bh b_bdev) in
  let s := bset s bio bio_rw (u32 rw) in
  let s := bset s bio bio_private_data bh in
  bset s bio bio_end_io end_buffer_io_async_ptr.

Definition fill_vec (s : io) (bio vec bh : Z) : io :=
  let s := bset s vec bv_page (hget s bh b_data) in
  let s := bset s vec bv_len (hget s bh b_size) in
  let s := bset s vec bv_offset 0 in
  let s := bset s bio bio_io_vec vec in
  let s := bset s bio bio_vc_cnt 1 in
  bset s bio bio_idx 0.

(** One buffer of [ll_rw_block]; the outcome is set when it has to sleep. *)
Definition ll_rw_one (fuel : nat) (s : io) (rw bh : Z) : option (io * option outcome) :=
  if bh =? 0 then Some (s, None)
  else if (rw =? READ) && buffer_uptodate s bh then Some (s, None)
  else if (rw =? WRITE) && negb (buffer_dirty s bh) then Some (s, None)
  else
    let '(s, o) := lock_buffer s bh in
    match o with
    | Some o => Some (s, Some o)
    | None =>
      '(h, bio) ← a_alloc (b_heap s) sizeof_bio;
      let s := with_heap s h in
      if bio =? 0 then s ← unlock_buffer fuel s bh; Some (s, None)
      else
        let s := fill_bio (clear s bio) bio rw bh in
        '(h, vec) ← a_alloc (b_heap s) sizeof_bio_vec;
        let s := with_heap s h in
        if negb (vec =? 0) then s ← submit fuel (fill_vec s bio vec bh) bio; Some (s, None)
        else
          h ← a_free (b_heap s) bio;
          s ← unlock_buffer fuel (with_heap s h) bh; Some (s, None)
    end.

Fixpoint ll_rw_block (fuel : nat) (s : io) (rw : Z) (bhs : list Z) : option (io * option outcome) :=
  match bhs with
  | [] => Some (s, None)
  | bh :: bhs =>
      '(s, o) ← ll_rw_one fuel s rw bh;
      match o with None => ll_rw_block fuel s rw bhs | Some _ => Some (s, o) end
  end.

Definition bread (fuel : nat) (s : io) (bdev block size : Z) : option (io * outcome) :=
  '(s, bh) ← getblk fuel s bdev block size;
  if bh =? 0 then Some (s, Ret 0)
  else if buffer_uptodate s bh then Some (s, Ret bh)
  else
    '(s, o) ← ll_rw_block fuel s READ [bh];
    match o with
    | Some o => Some (s, o)
    | None =>
      match wait_on_buffer s bh with
      | Some o => Some (s, o)
      | None =>
        if buffer_uptodate s bh then Some (s, Ret bh)
        else s ← brelse s bh; Some (s, Ret 0)
      end
    end.

Definition sync_dirty_buffer (fuel : nat) (s : io) (bh : Z) : option (io * outcome) :=
  if buffer_dirty s bh then
    '(s, o) ← ll_rw_block fuel s WRITE [bh];
    match o with
    | Some o => Some (s, o)
    | None =>
      match wait_on_buffer s bh with
      | Some o => Some (s, o)
      | None => Some (hset s bh b_state (Z.clearbit (hget s bh b_state) BH_Dirty), Ret 0)
      end
    end
  else Some (s, Ret 0).


(** ** Making a RAM disk *)

Definition RAMDISK_SIZE : Z := 1048576.
Definition RAMDISK_SECTOR_SIZE : Z := 512.
Definition RAMDISK_MAJOR : Z := 10.

(** The registries of [Gendisk] work on the links, the bytes and the heap. *)
Definition to_disks (s : io) : Gendisk.disks := Gendisk.Disks (b_links s) (mem_of s) (b_heap s) (majors (b_rest s)).
Definition of_disks (s : io) (g : Gendisk.disks) : io :=
  let b := b_rest s in
  Blk (Gendisk.g_links g) (b_st s) (Gendisk.g_heap g)
    (Bufs (bh_st b) (bh_link b) (buffer_cache_count b) (Gendisk.g_mem g) (io_w b) (Gendisk.blkdev_names g)).

(** The name: ["ramdisk"] and the minor number if it has one digit. *)
Definition ramdisk_name (m : mem) (disk minor : Z) : mem :=
  let a := Gendisk.d_name disk in
  let prefix := [114; 97; 109; 100; 105; 115; 107] in
  let m := for_up 7 0 (fun i m => store8 m (a + i) (nth (Z.to_nat i) prefix 0)) m in
  if minor <? 10 then store8 (store8 m (a + 7) (48 + minor)) (a + 8) 0 else store8 m (a + 7) 0.

(** [major], [first_minor], [fops] and the name are bytes of the structure; the
    other members the block layer uses are fields of its store. *)
Definition fill_disk (s : io) (disk q data minor size : Z) : io :=
  let m := store32 (mem_of s) disk RAMDISK_MAJOR in
  let m := store32 m (disk + 4) minor in
  let m := store64 m (disk + 72) 0 in
  let s := with_io_mem s m in
  let s := bset s disk d_queue q in
  let s := bset s disk d_private_data data in
  let s := bset s disk d_capacity (u64 (Z.quot size RAMDISK_SECTOR_SIZE)) in
  with_io_mem s (ramdisk_name (mem_of s) disk minor).

Definition create_ramdisk (s : io) (minor size : Z) : option (io * Z) :=
  '(h, data) ← a_alloc (b_heap s) (u64 size);
  let s := with_heap s h in
  if data =? 0 then Some (s, 0)
  else
    let s := with_io_mem s (memset (mem_of s) data 0 (u64 size)) in
    '(g, disk) ← Gendisk.alloc_disk (to_disks s) 1;
    let s := of_disks s g in
    if disk =? 0 then h ← a_free (b_heap s) data; Some (with_heap s h, 0)
    else
      let s := clear s disk in
      '(s, q) ← blk_init_queue s 0;
      if q =? 0 then
        h ← a_free (b_heap s) disk;
        h ← a_free h data;
        Some (with_heap s h, 0)
      else
        let s := blk_queue_make_request s q ramdisk_make_request_ptr in
        Some (fill_disk s disk q data minor size, disk).

Definition ramdisk_init (fuel : nat) (s : io) : option io :=
  '(g, r) ← Gendisk.register_blkdev fuel (to_disks s) RAMDISK_MAJOR driver_name;
  let s := of_disks s g in
  if r <? 0 then Some s
  else
    '(s, disk) ← create_ramdisk s 0 RAMDISK_SIZE;
    if negb (disk =? 0) then of_disks s <$> Gendisk.add_disk gendisk_head (to_disks s) disk else Some s.

(** ** The chains of the table *)

(** The buffers [l], in order, are reached from the link at [c], and each knows
    the link that leads to it. *)
Fixpoint hchain (s : io) (c : Z) (l : list Z) : Prop :=
  match l with
  | [] => lget s c = 0
  | x :: l => lget s c = x /\ x <> 0 /\ hget s x b_pprev_hash = c /\ hchain s (b_next_hash x) l
  end.

Definition in_table (i : Z) : Prop := 0 <= i < BH_HASH_SIZE.
Definition off_table (p t : Z) : Prop := p + t <= bh_hash \/ bh_hash + 8 * BH_HASH_SIZE <= p.

(** A buffer of bucket [i]: two heap blocks, one the structure and one with the
    data, away from the table. *)
Record buf_ok (s : io) (i x : Z) : Prop := {
  bo_hash : hash (hget s x b_bdev) (hget s x b_blocknr) = i;
  bo_size : 0 < hget s x b_size;
  bo_live : exists t, sizeof_buffer_head <= t /\ a_live (b_heap s) x t;
  bo_data : exists t, hget s x b_size <= t /\ a_live (b_heap s) (hget s x b_data) t;
  bo_off : off_table x sizeof_buffer_head
}.

(** The table has, in bucket [i], the buffers [C i]: one per disk, block and
    size. *)
Record cache_ok (s : io) (C : Z -> list Z) : Prop := {
  ck_wf : a_wf (b_heap s);
  ck_chain : forall i, in_table i -> hchain s (bucket i) (C i) /\ NoDup (C i);
  ck_buf : forall i x, in_table i -> x ∈ C i -> buf_ok s i x;
  ck_keys : forall i x y, in_table i -> x ∈ C i -> y ∈ C i ->
    is_block s (hget s x b_bdev) (hget s x b_blocknr) (hget s x b_size) y = true -> x = y;
  ck_apart : forall i j x y, in_table i -> in_table j -> x ∈ C i -> y ∈ C j ->
    hget s x b_data <> y /\ (hget s x b_data = hget s y b_data -> x = y)
}.

Lemma hash_in_table bdev block : in_table (hash bdev block).
Proof.
  unfold in_table, hash, BH_HASH_MASK, BH_HASH_SIZE. replace (1024 - 1) with (Z.ones 10) by done.
  rewrite Z.land_ones by lia. pose proof (Z.mod_pos_bound (Z.lxor bdev block) (2 ^ 10)). lia.
Qed.

Lemma hget_hset s x f v y g : hget (hset s x f v) y g = if decide (y = x /\ g = f) then v else hget s y g.
Proof. done. Qed.
Lemma hget_lset_eq s c v y g : hget (lset s c v) y g = hget s y g.
Proof. done. Qed.
Lemma lget_hset_eq s x f v c : lget (hset s x f v) c = lget s c.
Proof. done. Qed.
Lemma lget_lset s c v d : lget (lset s c v) d = if decide (d = c) then v else lget s d.
Proof. done. Qed.

Lemma hchain_ext s s' c l :
  (forall x, x ∈ l -> hget s' x b_pprev_hash = hget s x b_pprev_hash) ->
  (forall d, d ∈ c :: (b_next_hash <$> l) -> lget s' d = lget s d) -> hchain s c l -> hchain s' c l.
Proof.
  revert c. induction l as [|x l IH]; intros c Hp Hl; simpl; [rewrite Hl by left; done|].
  intros (H1 & H2 & H3 & H4). rewrite Hl by left. split; [done|]. split; [done|]. rewrite Hp by left. split; [done|].
  apply IH; [|intros d Hd; apply Hl; by right|done]. intros y Hy. apply Hp. by right.
Qed.

(** The table only depends on the keys, data pointers and links of its buffers. *)
Definition kept (s s' : io) (C : Z -> list Z) : Prop :=
  (forall i x f, in_table i -> x ∈ C i -> f <> b_count -> f <> b_state -> hget s' x f = hget s x f) /\
  (forall i, in_table i -> lget s' (bucket i) = lget s (bucket i)) /\
  (forall i x, in_table i -> x ∈ C i -> lget s' (b_next_hash x) = lget s (b_next_hash x)) /\
  (forall i x t, in_table i -> x ∈ C i -> a_live (b_heap s) x t -> a_live (b_heap s') x t) /\
  (forall i x t, in_table i -> x ∈ C i -> a_live (b_heap s) (hget s x b_data) t -> a_live (b_heap s') (hget s x b_data) t).

Lemma buf_ok_ext s s' i x :
  (forall f, f <> b_count -> f <> b_state -> f <> b_pprev_hash -> hget s' x f = hget s x f) ->
  (forall t, a_live (b_heap s) x t -> a_live (b_heap s') x t) ->
  (forall t, a_live (b_heap s) (hget s x b_data) t -> a_live (b_heap s') (hget s x b_data) t) -> buf_ok s i x -> buf_ok s' i x.
Proof.
  intros Hf H1 H2 [B1 B2 (t & ? & ?) (u & ? & ?) B5]. split; rewrite ?Hf by done; eauto.
Qed.

Lemma is_block_ext s s' x bdev nr sz :
  (forall f, f <> b_count -> f <> b_state -> f <> b_pprev_hash -> hget s' x f = hget s x f) ->
  is_block s' bdev nr sz x = is_block s bdev nr sz x.
Proof. intros Hf. unfold is_block. by rewrite !Hf. Qed.

Lemma cache_ok_kept s s' C : kept s s' C -> a_wf (b_heap s') -> cache_ok s C -> cache_ok s' C.
Proof.
  intros (Hf & Hb & Hn & Hl & Hd) Hwf [H1 H2 H3 H4 H5]. split; [done|..].
  - intros i Hi. destruct (H2 i Hi) as [Hc Hnd]. split; [|done]. apply (hchain_ext s); [eauto|  |done].
    intros d Hdd. apply elem_of_cons in Hdd as [->|Hdd]; [auto|]. apply list_elem_of_fmap_1 in Hdd as (x & -> & Hx). eauto.
  - intros i x Hi Hx. apply (buf_ok_ext s); eauto.
  - intros i x y Hi Hx Hy. rewrite (is_block_ext s s' y), !(Hf i x) by eauto. by apply (H4 i).
  - intros i j x y Hi Hj Hx Hy. rewrite (Hf i x), (Hf j y) by done. by apply (H5 i j).
Qed.

(** The walk returns the first buffer of the chain for the block. *)
Lemma hchain_find fuel s bdev block size c l :
  hchain s c l -> (length l < fuel)%nat ->
  loop fuel (find_block_step s bdev block size) (lget s c) = Some (default 0 (List.find (is_block s bdev block size) l)).
Proof.
  revert c fuel. induction l as [|x l IH]; intros c fuel Hc Hf; (destruct fuel as [|fuel]; [simpl in Hf; lia|]);
    cbn [loop List.find]; unfold find_block_step at 1.
  - by rewrite (Hc : lget s c = 0).
  - destruct Hc as (-> & Hx & _ & Hc). rewrite (proj2 (Z.eqb_neq x 0)) by done. destruct (is_block s bdev block size x); [done|].
    apply IH; [done|]. simpl in Hf. lia.
Qed.

Lemma find_block_cases s C bdev block size :
  cache_ok s C -> let i := hash bdev block in
  (exists bh, bh ∈ C i /\ is_block s bdev block size bh = true /\ bh <> 0 /\
     forall fuel, (length (C i) < fuel)%nat -> find_get_block fuel s bdev block size = Some (hset s bh b_count (s32 (hget s bh b_count + 1)), bh)) \/
  Forall (fun x => is_block s bdev block size x = false) (C i) /\
    forall fuel, (length (C i) < fuel)%nat -> find_get_block fuel s bdev block size = Some (s, 0).
Proof.
  intros Hs i. destruct (ck_chain _ _ Hs i (hash_in_table _ _)) as [Hc _].
  destruct (first_split (is_block s bdev block size) (C i)) as [Hn|(l1 & x & l2 & E & Hn & Hx)].
  - right. split; [done|]. intros fuel Hf. unfold find_get_block. fold i. rewrite (hchain_find _ _ _ _ _ _ _ Hc Hf).
    assert (List.find (is_block s bdev block size) (C i) = None) as ->; [|done].
    destruct (List.find _ (C i)) as [y|] eqn:Ey; [|done]. apply List.find_some in Ey as [Hin Hy].
    rewrite Forall_forall in Hn. rewrite Hn in Hy; [done|]. by apply list_elem_of_In.
  - left. exists x. assert (x ∈ C i) as Hin by (rewrite E; apply elem_of_app; right; left).
    assert (x <> 0) as Hx0. { destruct (ck_buf _ _ Hs i x (hash_in_table _ _) Hin) as [_ _ (t & _ & Hl) _ _].
      pose proof (a_live_pos _ _ _ (ck_wf _ _ Hs) Hl). lia. }
    split; [done|]. split; [done|]. split; [done|]. intros fuel Hf. unfold find_get_block. fold i.
    rewrite (hchain_find _ _ _ _ _ _ _ Hc Hf), E.
    assert (List.find (is_block s bdev block size) (l1 ++ x :: l2) = Some x) as ->.
    { clear -Hn Hx. induction Hn as [|y l1 Hy _ IH]; simpl; [by rewrite Hx|by rewrite Hy]. }
    cbn [mbind option_bind from_option]. unfold id. by rewrite (proj2 (Z.eqb_neq x 0)).
Qed.


(** ** A new buffer *)

(** What [alloc_buffer_head] makes: two blocks that were free, the data zero,
    everything else as it was. *)
Record fresh_bh (s s' : io) (C : Z -> list Z) (bh bdev block size : Z) : Prop := {
  fb_new : bh <> 0 /\ (forall i, in_table i -> bh ∉ C i) /\ forall t, ~ a_live (b_heap s) bh t;
  fb_key : hget s' bh b_bdev = bdev /\ hget s' bh b_blocknr = block /\ hget s' bh b_size = size;
  fb_state : hget s' bh b_count = 1 /\ hget s' bh b_state = 0;
  fb_ok : buf_ok s' (hash bdev block) bh;
  fb_data : hget s' bh b_data <> bh /\ (forall t, ~ a_live (b_heap s) (hget s' bh b_data) t);
  fb_zero : forall j, 0 <= j < size -> mem_of s' (hget s' bh b_data + j) = 0;
  fb_mem : forall p t x, a_live (b_heap s) p t -> p <= x < p + t -> mem_of s' x = mem_of s x;
  fb_other : forall x f, x <> bh -> hget s' x f = hget s x f;
  fb_link : forall c, c <> b_next_hash bh -> lget s' c = lget s c;
  fb_live : forall p t, a_live (b_heap s) p t -> a_live (b_heap s') p t;
  fb_rest : b_st s' = b_st s /\ b_links s' = b_links s /\
    forall a f, a <> b_wait bh -> wget (io_w (b_rest s')) a f = wget (io_w (b_rest s)) a f;
  fb_wait : wget (io_w (b_rest s')) (b_wait bh) wq_head = 0
}.

Lemma bucket_apart s i j x : in_table i -> buf_ok s j x -> b_next_hash x <> bucket i.
Proof.
  intros Hi [_ _ _ _ Ho]. unfold off_table, in_table, b_next_hash, bucket, sizeof_buffer_head, BH_HASH_SIZE in *. lia.
Qed.

(** The heap and the buffers after a failure. *)
Definition unchanged (s s' : io) (C : Z -> list Z) : Prop :=
  cache_ok s' C /\ (forall p t, a_live (b_heap s') p t <-> a_live (b_heap s) p t) /\ mem_of s' = mem_of s /\
  b_st s' = b_st s /\ io_w (b_rest s') = io_w (b_rest s) /\
  forall i x f, in_table i -> x ∈ C i -> hget s' x f = hget s x f.

Lemma fresh_not_cached s C p i x :
  cache_ok s C -> (forall t, ~ a_live (b_heap s) p t) -> in_table i -> x ∈ C i -> x <> p /\ hget s x b_data <> p.
Proof.
  intros Hs Hp Hi Hx. destruct (ck_buf _ _ Hs i x Hi Hx) as [_ _ (t & _ & Ht) (u & _ & Hu) _].
  split; intros E; [rewrite E in Ht; by apply (Hp t)|rewrite E in Hu; by apply (Hp u)].
Qed.

Lemma alloc_buffer_head_spec s C bdev block size :
  cache_ok s C -> 0 < size < 2 ^ 32 ->
  (forall h p t, a_alloc (b_heap s) sizeof_buffer_head = Some (h, p) -> a_live h p t -> off_table p t) ->
  exists s' bh, alloc_buffer_head s bdev block size = Some (s', bh) /\
    (bh = 0 /\ unchanged s s' C \/ fresh_bh s s' C bh bdev block size /\ cache_ok s' C).
Proof. clear request_fn.
  intros Hs Hsz Hoff. unfold alloc_buffer_head.
  destruct (a_alloc_spec (b_heap s) sizeof_buffer_head (ck_wf _ _ Hs)) as (h & bh & Ha & Hwf & Hbh); [unfold sizeof_buffer_head; lia|].
  rewrite Ha. cbn [mbind option_bind]. destruct Hbh as [[-> Hl]|(t & Ht & Hfr & Hl)].
  { exists (with_heap s h), 0. split; [done|]. left. split; [done|]. split; [|done].
    apply (cache_ok_kept s); [|done|done]. split_and!; try done; intros; by apply Hl. }
  assert (a_live h bh t) as Hlb by (apply Hl; by left).
  assert (bh <> 0) as Hb0 by (pose proof (a_live_pos _ _ _ Hwf Hlb); lia). rewrite (proj2 (Z.eqb_neq bh 0)) by done.
  pose proof (Hoff h bh t Ha Hlb) as Hofft.
  assert (forall i x, in_table i -> x ∈ C i -> x <> bh) as Hnc by (intros i x Hi Hx; by apply (fresh_not_cached s C bh i x)).
  assert (forall i x, in_table i -> x ∈ C i -> b_next_hash x <> b_next_hash bh) as Hnl
    by (intros i x Hi Hx; pose proof (Hnc i x Hi Hx); unfold b_next_hash; lia).
  assert (off_table bh sizeof_buffer_head) as Ho by (unfold off_table in *; lia).
  assert (forall i, in_table i -> bucket i <> b_next_hash bh) as Hbk.
  { intros i Hi. unfold off_table, in_table, b_next_hash, bucket, sizeof_buffer_head, BH_HASH_SIZE in *. lia. }
  change (b_heap (clear_bh (with_heap s h) bh)) with h.
  destruct (a_alloc_spec h size Hwf ltac:(lia)) as (h2 & data & Ha2 & Hwf2 & Hd). rewrite Ha2. cbn [mbind option_bind].
  rewrite hget_hset, decide_True by done. destruct Hd as [[-> Hl2]|(u & Hu & Hfd & Hl2)].
  - change (0 =? 0) with true. cbv iota. change (b_heap (hset _ _ _ _)) with h2.
    destruct (a_free_spec h2 bh t Hwf2) as (h3 & Hf & Hwf3 & Hl3); [by apply Hl2|]. rewrite Hf. cbn [mbind option_bind].
    assert (forall p v, a_live h3 p v <-> a_live (b_heap s) p v) as Hiff.
    { intros p v. rewrite Hl3, Hl2, Hl. split; [naive_solver|]. intros Hp. split; [by right|]. intros ->. by apply (Hfr v). }
    eexists _, 0. split; [done|]. left. split; [done|].
    assert (forall i x f, in_table i -> x ∈ C i -> hget (with_heap (hset (with_heap (clear_bh (with_heap s h) bh) h2) bh b_data 0) h3) x f = hget s x f) as Hsame.
    { intros i x f Hi Hx. pose proof (Hnc i x Hi Hx). unfold hget. simpl. rewrite wr_other by auto. by rewrite decide_False. }
    split; [|done]. apply (cache_ok_kept s); [|done|done]. split; [eauto|].
    split; [intros i Hi; unfold lget; simpl; by rewrite fupd_other by auto|].
    split; [intros i x Hi Hx; unfold lget; simpl; rewrite fupd_other by eauto; done|]. split; intros; by apply Hiff.
  - assert (a_live h2 data u) as Hld by (apply Hl2; by left).
    assert (data <> 0) as Hd0 by (pose proof (a_live_pos _ _ _ Hwf2 Hld); lia). rewrite (proj2 (Z.eqb_neq data 0)) by done.
    assert (data <> bh) as Hdb by (intros ->; by apply (Hfd t)).
    assert (forall p v, a_live (b_heap s) p v -> a_live h2 p v) as Hmono by (intros p v Hp; apply Hl2; right; apply Hl; by right).
    eexists _, bh. split; [done|]. right. set (s' := with_count _ _).
    assert (forall x f, x <> bh -> hget s' x f = hget s x f) as Hoth.
    { intros x f Hx. unfold s', hget. simpl. rewrite !wr_other by auto. by rewrite decide_False. }
    assert (forall c, c <> b_next_hash bh -> lget s' c = lget s c) as Hlk by (intros c Hc; unfold s', lget; simpl; by rewrite fupd_other).
    assert (hget s' bh b_data = data) as Ed by (unfold s', hget; simpl; by wr_simp).
    assert (hget s' bh b_bdev = bdev /\ hget s' bh b_blocknr = block /\ hget s' bh b_size = size) as (E1 & E2 & E3)
      by (unfold s', hget; simpl; split_and!; by wr_simp).
    assert (forall x, mem_of s' x = fill (mem_of s) data 0 size x) as Em.
    { intros x. unfold s', mem_of. simpl. unfold hget. simpl. wr_simp. apply memset_fill. lia. }
    split; [split|].
    + split; [done|]. split; [|done]. intros i Hi Hin. by apply (Hnc i bh).
    + done.
    + unfold s', hget. simpl. split; by wr_simp.
    + split; rewrite ?E1, ?E2, ?E3, ?Ed; [done|lia|exists t; split; [done|]; apply Hl2; by right|by exists u|exact Ho].
    + rewrite Ed. split; [done|]. intros v Hv. apply (Hfd v), Hl. by right.
    + intros j Hj. rewrite Em, Ed. unfold fill. by rewrite decide_True by lia.
    + intros p v x Hp Hx. rewrite Em. unfold fill. rewrite decide_False; [done|]. intros Hc.
      destruct (a_live_disjoint _ _ _ _ _ Hwf2 (Hmono _ _ Hp) Hld) as [[-> _]|[?|?]]; [|lia..]. apply (Hfd v), Hl. by right.
    + done.
    + done.
    + exact Hmono.
    + split; [done|]. split; [done|]. intros a f Ha'. unfold s', wget. simpl. by wr_simp.
    + unfold s', wget. simpl. by wr_simp.
    + apply (cache_ok_kept s); [|done|done]. split; [intros i x f Hi Hx _ _; by apply Hoth, (Hnc i)|].
      split; [intros i Hi; by apply Hlk, Hbk|]. split; [intros i x Hi Hx; apply Hlk; by apply (Hnl i)|].
      split; intros; by apply Hmono.
Qed.


(** A buffer is in the bucket of its key only. *)
Lemma one_bucket s C i j x : cache_ok s C -> in_table i -> in_table j -> x ∈ C i -> x ∈ C j -> i = j.
Proof.
  intros Hs Hi Hj Hx Hy. rewrite <- (bo_hash _ _ _ (ck_buf _ _ Hs i x Hi Hx)). apply (ck_buf _ _ Hs j x Hj Hy).
Qed.

Lemma link_bh_fields s bh i :
  bucket i <> b_next_hash bh ->
  let s' := link_bh s bh i in
  lget s' (bucket i) = bh /\ lget s' (b_next_hash bh) = lget s (bucket i) /\
  (forall c, c <> bucket i -> c <> b_next_hash bh -> lget s' c = lget s c) /\
  hget s' bh b_pprev_hash = bucket i /\
  (forall x, x <> bh -> x <> 0 -> hget s' x b_pprev_hash = if decide (x = lget s (bucket i)) then b_next_hash bh else hget s x b_pprev_hash) /\
  (forall x f, f <> b_pprev_hash -> hget s' x f = hget s x f) /\
  b_heap s' = b_heap s /\ b_st s' = b_st s /\ mem_of s' = mem_of s /\ io_w (b_rest s') = io_w (b_rest s).
Proof.
  intros Hne. clear request_fn. unfold link_bh.
  destruct (Z.eqb_spec (lget s (bucket i)) 0) as [E|E];
    rewrite !lget_lset, (decide_False (P := bucket i = b_next_hash bh)), ?E, ?(proj2 (Z.eqb_neq _ _) E) by done; cbn [negb Z.eqb];
    split_and!; try done; intros; rewrite ?hget_hset, ?hget_lset_eq, ?hget_hset, ?hget_lset_eq, ?lget_hset_eq, ?lget_lset, ?lget_hset_eq, ?lget_lset;
    repeat case_decide; naive_solver.
Qed.

Lemma link_bh_chain s bh i l :
  hchain s (bucket i) l -> NoDup (bh :: l) -> bh <> 0 -> (forall x, x ∈ bh :: l -> b_next_hash x <> bucket i) ->
  hchain (link_bh s bh i) (bucket i) (bh :: l).
Proof.
  intros Hc Hnd Hb0 Hn. destruct (link_bh_fields s bh i) as (L1 & L2 & L3 & P1 & P2 & _); [apply not_eq_sym, Hn; left|].
  apply NoDup_cons in Hnd as [Hnb Hnd].
  split; [done|]. split; [done|]. split; [done|]. destruct l as [|y l]; simpl; [by rewrite L2|].
  destruct Hc as (Ey & Hy & Hp & Hc). rewrite L2. split; [done|]. split; [done|].
  assert (y <> bh) as Hyb by (intros ->; apply Hnb; left). rewrite P2, decide_True by done. split; [done|].
  apply NoDup_cons in Hnd as [Hny Hnd]. apply (hchain_ext s); [..|done].
  - intros x Hx. assert (x <> bh) by (intros ->; apply Hnb; by right). assert (x <> y) by (intros ->; done).
    destruct (decide (x = 0)) as [->|]; [|rewrite P2, decide_False by congruence; done].
    exfalso. clear -Hc Hx. revert Hc. generalize (b_next_hash y). induction l as [|z l IH]; intros c Hc; [by apply elem_of_nil in Hx|].
    destruct Hc as (_ & Hz & _ & Hc). apply elem_of_cons in Hx as [<-|Hx]; [done|eauto].
  - intros d Hd. apply L3; apply elem_of_cons in Hd as [->|Hd]; try (apply Hn; right; left); try (unfold b_next_hash; lia);
      apply list_elem_of_fmap_1 in Hd as (x & -> & Hx); [apply Hn; right; by right|].
    intros E. apply Hnb. right. replace bh with x by (unfold b_next_hash in E; lia). done.
Qed.

Lemma link_bh_ok s C bh i :
  cache_ok s C -> in_table i -> bh <> 0 -> (forall j, in_table j -> bh ∉ C j) -> buf_ok s i bh ->
  Forall (fun x => is_block s (hget s bh b_bdev) (hget s bh b_blocknr) (hget s bh b_size) x = false) (C i) ->
  (forall j x, in_table j -> x ∈ bh :: C j -> hget s bh b_data <> x /\ hget s x b_data <> bh /\ (x <> bh -> hget s x b_data <> hget s bh b_data)) ->
  cache_ok (link_bh s bh i) (fupd C i (bh :: C i)).
Proof.
  intros Hs Hi Hb0 Hnin Hok Hkey Hdata. pose proof Hs as [H1 H2 H3 H4 H5].
  destruct (link_bh_fields s bh i) as (L1 & L2 & L3 & P1 & P2 & F & Eh & _); [apply not_eq_sym; by apply (bucket_apart s i i)|].
  set (s' := link_bh s bh i) in *.
  assert (forall x, x ∈ bh :: C i -> b_next_hash x <> bucket i) as Hnx.
  { intros x Hx. apply elem_of_cons in Hx as [->|Hx]; [by apply (bucket_apart s i i)|apply (bucket_apart s i i); auto]. }
  assert (forall j x, in_table j -> x ∈ fupd C i (bh :: C i) j -> x = bh /\ j = i \/ x ∈ C j) as Hcase.
  { intros j x Hj Hx. destruct (decide (j = i)) as [->|]; [rewrite fupd_same in Hx; apply elem_of_cons in Hx as [->|]; auto|].
    rewrite fupd_other in Hx by done. by right. }
  assert (forall j x, in_table j -> x ∈ C j -> x <> bh) as Hne by (intros j x Hj Hx ->; by apply (Hnin j)).
  split; rewrite ?Eh; [done|..].
  - intros j Hj. destruct (decide (j = i)) as [->|Hji].
    + rewrite fupd_same. destruct (H2 i Hi) as [Hc Hnd].
      assert (NoDup (bh :: C i)) by (apply NoDup_cons; auto). split; [|done]. by apply link_bh_chain.
    + rewrite fupd_other by done. destruct (H2 j Hj) as [Hc Hnd]. split; [|done]. apply (hchain_ext s); [..|done].
      * intros x Hx. destruct (H3 j x Hj Hx) as [_ _ (t & _ & Hl) _ _]. pose proof (a_live_pos _ _ _ H1 Hl).
        rewrite P2 by (lia || eauto). rewrite decide_False; [done|]. intros E.
        destruct (H2 i Hi) as [Hci _]. destruct (C i) as [|y l] eqn:Ec; [simpl in Hci; lia|]. destruct Hci as (Ey & _).
        apply Hji. apply (one_bucket s C j i x Hs Hj Hi Hx). rewrite Ec, E, Ey. left.
      * intros d Hd. apply L3; apply elem_of_cons in Hd as [->|Hd].
        -- unfold bucket. lia.
        -- apply list_elem_of_fmap_1 in Hd as (x & -> & Hx). apply (bucket_apart s i j); auto.
        -- apply not_eq_sym. by apply (bucket_apart s j i).
        -- apply list_elem_of_fmap_1 in Hd as (x & -> & Hx). intros E. apply (Hne j x Hj Hx). unfold b_next_hash in E. lia.
  - intros j x Hj Hx. apply (buf_ok_ext s); [auto|by rewrite Eh|by rewrite Eh|].
    destruct (Hcase j x Hj Hx) as [[-> ->]|Hx']; auto.
  - intros j x y Hj Hx Hy. rewrite (is_block_ext s s' y), !F by auto.
    rewrite Forall_forall in Hkey. unfold is_block in *.
    destruct (Hcase j x Hj Hx) as [[-> ->]|Hx'], (Hcase _ y Hj Hy) as [[-> E]|Hy']; [done|..].
    + rewrite (Hkey y Hy'). done.
    + subst j. intros Hb. rewrite !andb_true_iff, !Z.eqb_eq in Hb. destruct Hb as [[E1 E2] E3].
      pose proof (Hkey x Hx') as Hk. rewrite E1, E2, E3, !Z.eqb_refl in Hk. done.
    + by apply (H4 j).
  - intros j k x y Hj Hk Hx Hy. rewrite !F by done.
    destruct (Hcase j x Hj Hx) as [[-> ->]|Hx'], (Hcase k y Hk Hy) as [[-> ->]|Hy'].
    + split; [apply (Hdata i); [done|left]|done].
    + destruct (Hdata k y Hk) as (D1 & D2 & D3); [by right|]. split; [done|]. intros E. exfalso. apply D3; eauto.
    + destruct (Hdata j x Hj) as (D1 & D2 & D3); [by right|]. split; [done|]. intros E. exfalso. apply D3; eauto.
    + by apply (H5 j k).
Qed.


Lemma count_ok s C bh n : cache_ok s C -> cache_ok (hset s bh b_count n) C.
Proof.
  intros Hs. apply (cache_ok_kept s); [|apply Hs|done]. split_and!; try done.
  intros i x f _ _ Hf _. rewrite hget_hset, decide_False by naive_solver. done.
Qed.

Lemma getblk_spec fuel s C bdev block size :
  let i := hash bdev block in
  cache_ok s C -> (length (C i) < fuel)%nat -> 0 < size < 2 ^ 32 ->
  (forall h p t, a_alloc (b_heap s) sizeof_buffer_head = Some (h, p) -> a_live h p t -> off_table p t) ->
  exists s' bh, getblk fuel s bdev block size = Some (s', bh) /\
    (bh ∈ C i /\ is_block s bdev block size bh = true /\ cache_ok s' C /\ s' = hset s bh b_count (s32 (hget s bh b_count + 1)) \/
     Forall (fun x => is_block s bdev block size x = false) (C i) /\
       (bh = 0 /\ unchanged s s' C \/
        exists s1, fresh_bh s s1 C bh bdev block size /\ s' = link_bh s1 bh i /\ cache_ok s' (fupd C i (bh :: C i)))).
Proof.
  intros i Hs Hf Hsz Hoff. unfold getblk.
  destruct (find_block_cases s C bdev block size Hs) as [(bh & Hin & Hb & Hb0 & Hr)|[Hn Hr]]; rewrite (Hr fuel Hf); cbn [mbind option_bind].
  { rewrite (proj2 (Z.eqb_neq bh 0)) by done. cbn [negb]. eexists _, bh. split; [done|]. left. split; [done|]. split; [done|].
    split; [by apply count_ok|done]. }
  change (negb (0 =? 0)) with false. cbv iota.
  destruct (alloc_buffer_head_spec s C bdev block size Hs Hsz Hoff) as (s1 & bh & -> & [[-> Hu]|[Hfb Hs1]]); cbn [mbind option_bind].
  { exists s1, 0. split; [done|]. right. split; [done|]. by left. }
  pose proof Hfb as [(Hb0 & Hbn & Hbf) (K1 & K2 & K3) (S1 & S2) Hok (D1 & D2) Hz Hm Ho _ _ _ _].
  rewrite (proj2 (Z.eqb_neq bh 0)) by done.
  assert (forall x, x ∈ C i -> is_block s1 bdev block size x = is_block s bdev block size x) as Hsame.
  { intros x Hx. apply is_block_ext. intros f _ _ _. apply Ho. intros ->. by apply (Hbn i (hash_in_table _ _)). }
  rewrite Forall_forall in Hn.
  destruct (find_block_cases s1 C bdev block size Hs1) as [(y & Hin & Hy & _)|[Hn1 Hr1]];
    [fold i in Hin; rewrite Hsame, Hn in Hy by done; done|].
  rewrite (Hr1 fuel Hf). cbn [mbind option_bind]. change (negb (0 =? 0)) with false. cbv iota. fold i.
  assert (forall j x, in_table j -> x ∈ C j -> hget s1 x b_data = hget s x b_data) as Hdat.
  { intros j x Hj Hx. apply Ho. intros ->. by apply (Hbn j). }
  eexists _, bh. split; [done|]. right. split; [by apply Forall_forall|]. right. exists s1. split; [done|]. split; [done|].
  apply link_bh_ok; [done|apply hash_in_table|done|done|done|by rewrite K1, K2, K3|].
  intros j x Hj Hx. apply elem_of_cons in Hx as [->|Hx]; [done|]. rewrite (Hdat j x Hj Hx).
  destruct (fresh_not_cached s C bh j x Hs Hbf Hj Hx) as [_ N1].
  destruct (fresh_not_cached s C _ j x Hs D2 Hj Hx) as [N2 N3]. split; [congruence|]. split; [done|]. intros _. done.
Qed.

(** [getblk] returns the one buffer of the cache for the disk, block and
    size, with a reference more; if the block is not cached it enters a new
    buffer with zeroed data and one reference, and leaves every other buffer
    and all live memory as it was; without memory it returns 0 and changes
    nothing.  In every case the hash table stays well formed: chains linked both
    ways, each buffer in the bucket of its key, no two buffers for one block. *)
Theorem getblk_correct fuel s C bdev block size :
  let i := hash bdev block in
  cache_ok s C -> (length (C i) < fuel)%nat -> 0 < size < 2 ^ 32 ->
  (forall h p t, a_alloc (b_heap s) sizeof_buffer_head = Some (h, p) -> a_live h p t -> off_table p t) ->
  exists s' bh, getblk fuel s bdev block size = Some (s', bh) /\
    (bh ∈ C i /\ is_block s bdev block size bh = true /\ cache_ok s' C /\ s' = hset s bh b_count (s32 (hget s bh b_count + 1)) \/
     Forall (fun x => is_block s bdev block size x = false) (C i) /\
       (bh = 0 /\ unchanged s s' C \/
        bh <> 0 /\ (forall j, in_table j -> bh ∉ C j) /\ cache_ok s' (fupd C i (bh :: C i)) /\
        is_block s' bdev block size bh = true /\ hget s' bh b_count = 1 /\ hget s' bh b_state = 0 /\
        (forall j, 0 <= j < size -> mem_of s' (hget s' bh b_data + j) = 0) /\
        (forall x f, x <> bh -> f <> b_pprev_hash -> hget s' x f = hget s x f) /\
        (forall p t x, a_live (b_heap s) p t -> p <= x < p + t -> mem_of s' x = mem_of s x))).
Proof.
  intros i Hs Hf Hsz Hoff. destruct (getblk_spec fuel s C bdev block size Hs Hf Hsz Hoff) as (s' & bh & Hg & Hc).
  exists s', bh. split; [done|]. destruct Hc as [Hc|[Hn [Hc|(s1 & Hfb & -> & Hok)]]]; [by left|right; split; [done|]; by left|].
  right. split; [done|]. right. fold i in Hok |- *. destruct Hfb as [(Hb0 & Hbn & _) (K1 & K2 & K3) (S1 & S2) Hbo _ Hz Hm Ho _ _ _ _].
  destruct (link_bh_fields s1 bh i) as (_ & _ & _ & _ & _ & F & _ & _ & Em & _);
    [apply not_eq_sym; apply (bucket_apart s1 i i); [apply hash_in_table|exact Hbo]|].
  unfold is_block. rewrite !F, K1, K2, K3, !Z.eqb_refl by done. split_and!; try done.
  - intros j Hj. rewrite Em. by apply Hz.
  - intros x f Hx Hf'. rewrite F by done. by apply Ho.
  - intros p t x Hp Hx. rewrite Em. by apply (Hm p t).
Qed.

(** ** Releasing a buffer *)

Lemma unlink_bh_fields s bh c y :
  hget s bh b_pprev_hash = c -> c <> 0 -> lget s (b_next_hash bh) = y -> y <> bh ->
  let s' := unlink_bh s bh in
  lget s' c = y /\ (forall d, d <> c -> lget s' d = lget s d) /\
  (forall x, hget s' x b_pprev_hash = if decide (x = y /\ y <> 0) then c else hget s x b_pprev_hash) /\
  (forall x f, f <> b_pprev_hash -> hget s' x f = hget s x f) /\ b_heap s' = b_heap s /\ mem_of s' = mem_of s.
Proof.
  intros Hc Hc0 Hy Hyb. clear request_fn. unfold unlink_bh. rewrite Hy, Hc.
  destruct (Z.eqb_spec y 0) as [->|E]; cbn [negb];
    rewrite ?hget_hset, ?(decide_False (P := bh = y /\ _)), Hc, (proj2 (Z.eqb_neq c 0)) by (done || naive_solver); cbn [negb];
    rewrite ?lget_hset_eq, Hy; split_and!; try done; intros;
    rewrite ?hget_lset_eq, ?hget_hset, ?lget_lset, ?lget_hset_eq; repeat case_decide; naive_solver.
Qed.

(** Unlinking from the middle of a chain. *)
Lemma unlink_chain s bh c l1 l2 :
  hchain s c (l1 ++ bh :: l2) -> NoDup (l1 ++ bh :: l2) -> c <> 0 -> (forall x, x ∈ l1 ++ bh :: l2 -> b_next_hash x <> c /\ b_next_hash x <> 0) ->
  hchain (unlink_bh s bh) c (l1 ++ l2) /\
  exists d, hget s bh b_pprev_hash = d /\ d ∈ c :: (b_next_hash <$> l1) /\ d <> 0 /\
    lget s (b_next_hash bh) = default 0 (head l2) /\ default 0 (head l2) <> bh.
Proof.
  revert c. induction l1 as [|x l1 IH]; intros c Hc Hnd Hc0 Hn; cbn [app] in *; apply NoDup_cons in Hnd as [Hx Hnd].
  - destruct Hc as (E1 & Hb0 & Ep & Hc).
    assert (lget s (b_next_hash bh) = default 0 (head l2)) as El by (destruct l2; [exact Hc|apply Hc]).
    assert (default 0 (head l2) <> bh) as Hyb by (destruct l2 as [|z l2]; [done|]; simpl; intros ->; apply Hx; left).
    destruct (unlink_bh_fields s bh c _ Ep Hc0 El Hyb) as (L1 & L2 & P & _).
    split; [|exists c; split; [done|]; split; [left|done]].
    destruct l2 as [|z l2]; simpl in *; [done|]. destruct Hc as (_ & Hz0 & Hzp & Hc). rewrite L1. split; [done|]. split; [done|].
    rewrite P, decide_True by done. split; [done|]. apply NoDup_cons in Hnd as [Hz Hnd].
    apply (hchain_ext s); [..|done].
    + intros x Hx'. rewrite P, decide_False; [done|]. intros [-> _]. done.
    + intros d Hd. apply L2. apply elem_of_cons in Hd as [->|Hd]; [apply Hn; right; left|].
      apply list_elem_of_fmap_1 in Hd as (x & -> & Hx'). apply Hn. right. by right.
  - destruct Hc as (E1 & Hx0 & Ep & Hc).
    assert (forall y, y ∈ l1 ++ bh :: l2 -> b_next_hash y <> b_next_hash x) as Hne.
    { intros y Hy E. apply Hx. replace x with y by (unfold b_next_hash in E; lia). done. }
    destruct (IH (b_next_hash x) Hc Hnd) as [IH1 (d & Ed & Hd & Hd0 & El & Hyb)];
      [apply Hn; left|intros y Hy; split; [by apply Hne|]; apply Hn; by right|].
    destruct (unlink_bh_fields s bh d _ Ed Hd0 El Hyb) as (L1 & L2 & P & _).
    split; [|exists d; split; [done|]; split; [|done]; cbn [fmap list_fmap]; by right].
    assert (d <> c) as Hdc.
    { intros ->. apply elem_of_cons in Hd as [E|Hd]; [by apply (proj1 (Hn x ltac:(left)))|].
      apply list_elem_of_fmap_1 in Hd as (y & E & Hy). apply (proj1 (Hn y ltac:(right; apply elem_of_app; by left))). done. }
    cbn [app hchain]. rewrite L2 by done. split; [done|]. split; [done|]. rewrite P, decide_False; [done|].
    intros [-> _]. apply Hx. apply elem_of_app. right. right. destruct l2 as [|z l2]; [done|]. left.
Qed.


Lemma next_hash_links s C i j x :
  cache_ok s C -> 0 < bh_hash -> in_table i -> in_table j -> x ∈ C j -> b_next_hash x <> bucket i /\ b_next_hash x <> 0.
Proof.
  intros Hs H0 Hi Hj Hx. pose proof (ck_buf _ _ Hs j x Hj Hx) as Hok. split; [by apply (bucket_apart s i j)|].
  destruct Hok as [_ _ (t & _ & Hl) _ _]. pose proof (a_live_pos _ _ _ (ck_wf _ _ Hs) Hl). unfold b_next_hash. lia.
Qed.

Lemma unlink_bh_ok s C i l1 bh l2 :
  cache_ok s C -> 0 < bh_hash -> in_table i -> C i = l1 ++ bh :: l2 ->
  cache_ok (unlink_bh s bh) (fupd C i (l1 ++ l2)) /\
  (forall x f, f <> b_pprev_hash -> hget (unlink_bh s bh) x f = hget s x f) /\
  b_heap (unlink_bh s bh) = b_heap s /\ mem_of (unlink_bh s bh) = mem_of s.
Proof. clear request_fn.
  intros Hs H0 Hi Ec. pose proof Hs as [H1 H2 H3 H4 H5].
  destruct (H2 i Hi) as [Hc Hnd]. rewrite Ec in Hc, Hnd.
  assert (forall x, x ∈ l1 ++ bh :: l2 -> x ∈ C i) as Hin by (intros x; by rewrite Ec).
  destruct (unlink_chain s bh (bucket i) l1 l2 Hc Hnd) as [Hc' (d & Ed & Hd & Hd0 & El & Hyb)];
    [unfold bucket, in_table in *; lia|intros x Hx; apply (next_hash_links s C i i); auto|].
  destruct (unlink_bh_fields s bh d _ Ed Hd0 El Hyb) as (L1 & L2 & P & F & Eh & Em).
  assert (forall j x, in_table j -> x ∈ fupd C i (l1 ++ l2) j -> x ∈ C j) as Hsub.
  { intros j x Hj Hx. destruct (decide (j = i)) as [->|]; [rewrite fupd_same in Hx; apply Hin; set_solver|by rewrite fupd_other in Hx]. }
  split; [|done]. split; rewrite ?Eh; [done|..].
  - intros j Hj. destruct (decide (j = i)) as [->|Hji].
    { rewrite fupd_same. split; [done|]. apply NoDup_app in Hnd as (N1 & N2 & N3). apply NoDup_cons in N3 as [_ N3].
      apply NoDup_app. split; [done|]. split; [|done]. intros x Hx Hx'. apply (N2 x Hx). by right. }
    rewrite fupd_other by done. destruct (H2 j Hj) as [Hcj Hndj]. split; [|done]. apply (hchain_ext s); [..|done].
    + intros x Hx. rewrite P, decide_False; [done|]. intros [-> Hy0]. apply Hji. apply (one_bucket s C j i _ Hs Hj Hi Hx).
      apply Hin. destruct l2; [done|]. simpl. set_solver.
    + intros e He. apply L2. intros ->. apply elem_of_cons in Hd as [Hd|Hd]; apply elem_of_cons in He as [He|He].
      * unfold bucket in *. lia.
      * apply list_elem_of_fmap_1 in He as (x & E & Hx). apply (proj1 (next_hash_links s C i j x Hs H0 Hi Hj Hx)). congruence.
      * apply list_elem_of_fmap_1 in Hd as (x & E & Hx). apply (proj1 (next_hash_links s C j i x Hs H0 Hj Hi ltac:(apply Hin; set_solver))). congruence.
      * apply list_elem_of_fmap_1 in Hd as (x & E & Hx). apply list_elem_of_fmap_1 in He as (y & E' & Hy).
        assert (x = y) as -> by (unfold b_next_hash in *; lia). apply Hji. apply (one_bucket s C j i y Hs Hj Hi Hy). apply Hin. set_solver.
  - intros j x Hj Hx. apply (buf_ok_ext s); [auto|by rewrite Eh|by rewrite Eh|auto].
  - intros j x y Hj Hx Hy. rewrite (is_block_ext s _ y), !F by auto. apply (H4 j); auto.
  - intros j k x y Hj Hk Hx Hy. rewrite !F by done. apply (H5 j k); auto.
Qed.

Lemma brelse_spec s C i l1 bh l2 :
  cache_ok s C -> 0 < bh_hash -> in_table i -> C i = l1 ++ bh :: l2 ->
  let n := s32 (hget s bh b_count - 1) in
  let count := buffer_cache_count (b_rest s) in
  exists s', brelse s bh = Some s' /\ mem_of s' = mem_of s /\
    (forall x f, x <> bh \/ f <> b_count -> f <> b_pprev_hash -> hget s' x f = hget s x f) /\
    (b_st s' = b_st s /\ io_w (b_rest s') = io_w (b_rest s)) /\
    if (n =? 0) && (negb (buffer_dirty s bh) && (MAX_BUFFER_CACHE <? count)) then
      cache_ok s' (fupd C i (l1 ++ l2)) /\ buffer_cache_count (b_rest s') = s32 (count - 1) /\
      forall p t, a_live (b_heap s') p t <-> a_live (b_heap s) p t /\ p <> bh /\ p <> hget s bh b_data
    else cache_ok s' C /\ b_heap s' = b_heap s /\ hget s' bh b_count = n.
Proof. clear request_fn.
  intros Hs H0 Hi Ec n count. assert (bh ∈ C i) as Hin by (rewrite Ec; set_solver).
  destruct (ck_buf _ _ Hs i bh Hi Hin) as [_ _ (t & _ & Ht) (u & _ & Hu) _]. pose proof (a_live_pos _ _ _ (ck_wf _ _ Hs) Ht).
  unfold brelse. rewrite (proj2 (Z.eqb_neq bh 0)) by lia. fold n.
  set (s1 := hset s bh b_count n). pose proof (count_ok s C bh n Hs) as Hs1. fold s1 in Hs1.
  assert (hget s1 bh b_count = n) as -> by (unfold s1; by rewrite hget_hset, decide_True).
  assert (buffer_dirty s1 bh = buffer_dirty s bh) as -> by (unfold buffer_dirty, s1; by rewrite hget_hset, decide_False by naive_solver).
  change (buffer_cache_count (b_rest s1)) with count.
  assert (forall x f, x <> bh \/ f <> b_count -> hget s1 x f = hget s x f) as Hoth
    by (intros x f Hx; unfold s1; rewrite hget_hset, decide_False by naive_solver; done).
  assert (hget s1 bh b_data = hget s bh b_data) as Edat by (unfold s1; by rewrite hget_hset, decide_False by naive_solver).
  destruct ((n =? 0) && _) eqn:Eev.
  2:{ exists s1. split; [done|]. split; [done|]. split; [by intros; apply Hoth|].
      split; [done|]. split; [done|]. split; [done|].
      unfold s1. by rewrite hget_hset, decide_True. }
  destruct (unlink_bh_ok s1 C i l1 bh l2 Hs1 H0 Hi Ec) as (Hs2 & F & Eh & Em). set (s2 := unlink_bh s1 bh) in *.
  rewrite Eh, F, Edat by done. change (b_heap s1) with (b_heap s).
  destruct (a_free_spec _ _ _ (ck_wf _ _ Hs) Hu) as (h & -> & Hwf & Hl). cbn [mbind option_bind].
  destruct (ck_apart _ _ Hs i i bh bh Hi Hi Hin Hin) as [Hdb _].
  destruct (a_free_spec h bh t Hwf) as (h2 & -> & Hwf2 & Hl2); [apply Hl; split; [done|congruence]|]. cbn [mbind option_bind].
  assert (forall p v, a_live h2 p v <-> a_live (b_heap s) p v /\ p <> bh /\ p <> hget s bh b_data) as Hiff
    by (intros p v; rewrite Hl2, Hl; naive_solver).
  eexists. split; [done|]. split; [exact Em|]. split; [intros x f Hx Hf; cbn; change (hget s2 x f = hget s x f); rewrite F by done; by apply Hoth|].
  split; [split; unfold s2, unlink_bh; repeat case_match; done|].
  split; [|split; [|exact Hiff]].
  - apply (cache_ok_kept s2); [|exact Hwf2|exact Hs2]. split; [done|]. split; [done|]. split; [done|].
    assert (forall j x, in_table j -> x ∈ fupd C i (l1 ++ l2) j -> x ∈ C j /\ x <> bh) as Hsub.
    { intros j x Hj Hx. destruct (ck_chain _ _ Hs i Hi) as [_ Hnd]. rewrite Ec in Hnd.
      destruct (decide (j = i)) as [->|Hji]; [rewrite fupd_same in Hx|rewrite fupd_other in Hx by done].
      - split; [rewrite Ec; set_solver|]. intros ->. apply NoDup_app in Hnd as (_ & N2 & N3). apply NoDup_cons in N3 as [N3 _].
        apply elem_of_app in Hx as [Hx|Hx]; [apply (N2 _ Hx); left|done].
      - split; [done|]. intros ->. apply Hji. by apply (one_bucket s C j i bh). }
    split; intros j x v Hj Hx; destruct (Hsub j x Hj Hx) as [Hx' Hne]; destruct (ck_apart _ _ Hs j i x bh Hj Hi Hx' Hin) as [A1 A2];
      destruct (ck_apart _ _ Hs i j bh x Hi Hj Hin Hx') as [A3 _]; rewrite Eh; change (b_heap s1) with (b_heap s);
      rewrite ?F by done; rewrite ?Hoth by auto; intros Hv; apply Hiff; split; try done; split; try done; intros E; first [by apply A3|by apply A1|by apply Hne, A2].
  - cbn. f_equal. f_equal. unfold s2, unlink_bh. repeat case_match; done.
Qed.

(** [brelse] takes one reference back.  When it was the last one, the
    buffer is clean and the cache is over its limit, exactly this buffer leaves
    its chain and exactly its two blocks are freed; otherwise it stays.  The
    table stays well formed and the other buffers and their contents are
    untouched. *)
Theorem brelse_correct s C i l1 bh l2 :
  cache_ok s C -> 0 < bh_hash -> in_table i -> C i = l1 ++ bh :: l2 ->
  let n := s32 (hget s bh b_count - 1) in
  let count := buffer_cache_count (b_rest s) in
  exists s', brelse s bh = Some s' /\ mem_of s' = mem_of s /\
    (forall x f, x <> bh -> f <> b_pprev_hash -> hget s' x f = hget s x f) /\
    if (n =? 0) && (negb (buffer_dirty s bh) && (MAX_BUFFER_CACHE <? count)) then
      cache_ok s' (fupd C i (l1 ++ l2)) /\ buffer_cache_count (b_rest s') = s32 (count - 1) /\
      forall p t, a_live (b_heap s') p t <-> a_live (b_heap s) p t /\ p <> bh /\ p <> hget s bh b_data
    else cache_ok s' C /\ b_heap s' = b_heap s /\ hget s' bh b_count = n.
Proof.
  intros Hs H0 Hi Ec n count. destruct (brelse_spec s C i l1 bh l2 Hs H0 Hi Ec) as (s' & R1 & R2 & R3 & _ & R5). exists s'. split_and!; auto.
Qed.

(** ** Transfers to and from the RAM disk *)

(** The disk at [disk] is a RAM disk of [cap] sectors at [data]. *)
Record ramdisk_ok (s : io) (disk data cap : Z) : Prop := {
  rd_disk : disk <> 0 /\ live_at s disk;
  rd_queue : bget s disk d_queue <> 0 /\ live_at s (bget s disk d_queue);
  rd_fn : bget s (bget s disk d_queue) q_make_request_fn = ramdisk_make_request_ptr;
  rd_data : bget s disk d_private_data = data;
  rd_cap : bget s disk d_capacity = cap
}.

(** The byte offset of the buffer's block, and memory after its transfer. *)
Definition block_offset (s : io) (bh : Z) : Z := u64 (u64 (hget s bh b_blocknr * (hget s bh b_size / 512)) * 512).

Definition moved (s : io) (rw bh data cap : Z) : mem :=
  let off := block_offset s bh in
  if u64 (cap * 512) <? u64 (off + hget s bh b_size) then mem_of s
  else if rw =? WRITE then memcpy (mem_of s) (data + off) (hget s bh b_data + 0) (hget s bh b_size)
  else memcpy (mem_of s) (hget s bh b_data + 0) (data + off) (hget s bh b_size).

Lemma with_w_same s : with_w s (io_w (b_rest s)) = s.
Proof. by destruct s as [? ? ? []]. Qed.

Lemma unlock_buffer_idle fuel s bh :
  bh <> 0 -> wget (io_w (b_rest s)) (b_wait bh) wq_head = 0 ->
  unlock_buffer fuel s bh = Some (hset s bh b_state (Z.clearbit (hget s bh b_state) BH_Locked)).
Proof.
  intros Hb Hw. unfold unlock_buffer. rewrite (proj2 (Z.eqb_neq bh 0)) by done. cbv zeta. unfold wake_up.
  change (io_w (b_rest (hset _ _ _ _))) with (io_w (b_rest s)). rewrite Hw. change (negb (0 =? 0)) with false. cbv iota.
  cbn [fmap option_fmap option_map]. by rewrite <- (with_w_same (hset s bh b_state _)).
Qed.

Lemma clear_set_bit a n : 0 <= n -> Z.testbit a n = false -> Z.clearbit (Z.setbit a n) n = a.
Proof.
  intros Hn Ha. apply Z.bits_inj'. intros k Hk. rewrite Z.clearbit_eqb, Z.setbit_eqb by lia.
  destruct (Z.eqb_spec n k) as [->|]; [by rewrite Ha|]. by rewrite orb_false_l, andb_true_r.
Qed.

(** Everything but the bytes of memory and the freed bio is as it was. *)
Record io_same (s s' : io) : Prop := {
  is_wf : a_wf (b_heap s');
  is_live : forall p t, a_live (b_heap s') p t <-> a_live (b_heap s) p t;
  is_buf : forall x f, hget s' x f = hget s x f;
  is_link : forall c, lget s' c = lget s c;
  is_count : buffer_cache_count (b_rest s') = buffer_cache_count (b_rest s);
  is_wait : io_w (b_rest s') = io_w (b_rest s);
  is_st : forall x f, live_at s x -> bget s' x f = bget s x f
}.

(** Completion of the bio, of which nobody set the success flag: the buffer is
    unlocked and the bio and its segment are freed. *)
Lemma complete_bio fuel s bio vec bh tb tv :
  a_wf (b_heap s) -> a_live (b_heap s) bio tb -> a_live (b_heap s) vec tv -> bio <> vec -> bh <> 0 ->
  bget s bio bio_end_io = end_buffer_io_async_ptr -> bget s bio bio_private_data = bh ->
  bget s bio bio_flags = 0 -> bget s bio bio_io_vec = vec -> wget (io_w (b_rest s)) (b_wait bh) wq_head = 0 ->
  exists h, complete (end_io fuel) s bio = Some (with_heap (hset s bh b_state (Z.clearbit (hget s bh b_state) BH_Locked)) h) /\
    a_wf h /\ forall p t, a_live h p t <-> a_live (b_heap s) p t /\ p <> vec /\ p <> bio.
Proof. clear request_fn bh_hash.
  intros Hwf Hb Hv Hne Hbh Ee Ep Ef Ev Hw.
  pose proof (a_live_pos _ _ _ Hwf Hv). unfold complete. rewrite Ee. change (negb (end_buffer_io_async_ptr =? 0)) with true. cbv iota.
  unfold end_io. rewrite Z.eqb_refl. unfold end_buffer_io_async. rewrite Ep, Ef. change (Z.testbit 0 0) with false. cbv iota.
  rewrite (unlock_buffer_idle fuel s bh Hbh Hw). cbn [mbind option_bind]. set (s1 := hset _ _ _ _).
  change (bget s1 bio bio_io_vec) with (bget s bio bio_io_vec). rewrite Ev, (proj2 (Z.eqb_neq vec 0)) by lia. cbn [negb].
  change (b_heap s1) with (b_heap s). destruct (a_free_spec _ _ _ Hwf Hv) as (h & -> & Hwf1 & Hl). cbn [fmap option_fmap option_map mbind option_bind].
  change (b_heap (with_heap s1 h)) with h.
  destruct (a_free_spec h bio tb Hwf1) as (h2 & -> & Hwf2 & Hl2); [by apply Hl|]. cbn [fmap option_fmap option_map].
  exists h2. split; [done|]. split; [done|]. intros p t. rewrite Hl2, Hl. tauto.
Qed.

(** The RAM disk moves the one segment of the bio and completes it. *)
Lemma ramdisk_request fuel s bio vec bh disk data cap tb tv :
  a_wf (b_heap s) -> a_live (b_heap s) bio tb -> a_live (b_heap s) vec tv -> bio <> vec -> bh <> 0 ->
  ramdisk_ok s disk data cap ->
  bget s bio bio_end_io = end_buffer_io_async_ptr -> bget s bio bio_private_data = bh ->
  bget s bio bio_flags = 0 -> bget s bio bio_io_vec = vec -> bget s bio bio_vc_cnt = 1 -> bget s bio bio_disk = disk ->
  bget s bio bio_sector = u64 (hget s bh b_blocknr * (hget s bh b_size / 512)) -> bget s bio bio_size = hget s bh b_size ->
  bget s vec bv_page = hget s bh b_data -> bget s vec bv_len = hget s bh b_size -> bget s vec bv_offset = 0 ->
  wget (io_w (b_rest s)) (b_wait bh) wq_head = 0 ->
  exists h, submit fuel s bio = Some (with_heap (hset (with_io_mem s (moved s (bget s bio bio_rw) bh data cap)) bh b_state
      (Z.clearbit (hget s bh b_state) BH_Locked)) h) /\
    a_wf h /\ forall p t, a_live h p t <-> a_live (b_heap s) p t /\ p <> vec /\ p <> bio.
Proof.
  intros Hwf Hb Hv Hne Hbh [[Hd0 _] [Hq0 _] Hfn Hdat Hcap] Ee Ep Ef Ev Ec Ed Es Ez V1 V2 V3 Hw.
  pose proof (a_live_pos _ _ _ Hwf Hb). unfold submit, submit_bio.
  rewrite (proj2 (Z.eqb_neq bio 0)) by lia. rewrite Ed, (proj2 (Z.eqb_neq disk 0)), (proj2 (Z.eqb_neq _ 0) Hq0), Hfn by done.
  cbn [orb]. change (ramdisk_make_request_ptr =? make_request_ptr) with false. change (negb (ramdisk_make_request_ptr =? 0)) with true. cbv iota.
  unfold driver_make_request. rewrite Z.eqb_refl. unfold ramdisk_make_request.
  rewrite Ed, (proj2 (Z.eqb_neq disk 0)), Hdat, Hcap, Es, Ez, Ec by done. fold (block_offset s bh). unfold moved.
  destruct (_ <? _).
  - destruct (complete_bio fuel s bio vec bh tb tv) as (h & Hc & Hwf' & Hl); try done. exists h. rewrite Hc. split; [|done].
    replace (with_io_mem s (mem_of s)) with s by (by destruct s as [? ? ? []]). done.
  - change (Z.to_nat 1) with 1%nat. cbn [for_up]. unfold copy_segment. rewrite Ev, Z.mul_0_r, Z.add_0_r, V1, V2, V3.
    set (s1 := with_io_mem s _).
    destruct (complete_bio fuel s1 bio vec bh tb tv) as (h & Hc & Hwf' & Hl); try done. exists h. rewrite Hc. split; [|done].
    unfold s1. destruct (_ =? WRITE); done.
Qed.


(** The fields the bio and its segment are given. *)
Lemma filled_bio s bio vec rw bh :
  bio <> vec -> let s' := fill_vec (fill_bio (clear s bio) bio rw bh) bio vec bh in
  bget s' bio bio_end_io = end_buffer_io_async_ptr /\ bget s' bio bio_private_data = bh /\
  bget s' bio bio_flags = 0 /\ bget s' bio bio_io_vec = vec /\ bget s' bio bio_vc_cnt = 1 /\
  bget s' bio bio_disk = hget s bh b_bdev /\ bget s' bio bio_rw = u32 rw /\
  bget s' bio bio_sector = u64 (hget s bh b_blocknr * (hget s bh b_size / 512)) /\ bget s' bio bio_size = hget s bh b_size /\
  bget s' vec bv_page = hget s bh b_data /\ bget s' vec bv_len = hget s bh b_size /\ bget s' vec bv_offset = 0 /\
  b_rest s' = b_rest s /\ b_heap s' = b_heap s /\ forall x f, x <> bio -> x <> vec -> bget s' x f = bget s x f.
Proof.
  intros Hne. cbv zeta. split_and!; try (unfold bget; simpl; wr_simp; first [done|by rewrite decide_True]).
  intros x f Hb Hv. unfold bget. simpl. rewrite !wr_other by auto. by rewrite decide_False.
Qed.

Lemma ramdisk_ok_ext s s' disk data cap :
  (forall x f, live_at s x -> bget s' x f = bget s x f) -> (forall x, live_at s x -> live_at s' x) ->
  ramdisk_ok s disk data cap -> ramdisk_ok s' disk data cap.
Proof. intros He Hl [[D0 D1] [Q0 Q1] F X Y]. split; rewrite ?(He disk) by exact D1; auto. by rewrite He. Qed.

Lemma moved_ext s s' rw bh data cap :
  (forall f, f <> b_state -> hget s' bh f = hget s bh f) -> mem_of s' = mem_of s -> moved s' rw bh data cap = moved s rw bh data cap.
Proof. intros Hf Hm. unfold moved, block_offset. by rewrite !Hf, Hm. Qed.

(** The heap has no room for the bio or for its segment. *)
Definition no_room (s : io) : Prop :=
  exists h bio, a_alloc (b_heap s) sizeof_bio = Some (h, bio) /\ (bio = 0 \/ exists h2, a_alloc h sizeof_bio_vec = Some (h2, 0)).

(** One transfer: the block is moved, unless there is no memory for the bio, and
    everything else is as before. *)
Lemma ll_rw_ramdisk fuel s rw bh data cap :
  a_wf (b_heap s) -> bh <> 0 -> ramdisk_ok s (hget s bh b_bdev) data cap ->
  buffer_locked s bh = false -> wget (io_w (b_rest s)) (b_wait bh) wq_head = 0 ->
  (rw = READ /\ buffer_uptodate s bh = false \/ rw = WRITE /\ buffer_dirty s bh = true) ->
  exists s', ll_rw_one fuel s rw bh = Some (s', None) /\ io_same s s' /\
    (no_room s /\ mem_of s' = mem_of s \/ mem_of s' = moved s rw bh data cap).
Proof.
  intros Hwf Hb0 Hrd Hlk Hw Hrw. unfold ll_rw_one. rewrite (proj2 (Z.eqb_neq bh 0)) by done.
  assert ((rw =? READ) && buffer_uptodate s bh = false /\ (rw =? WRITE) && negb (buffer_dirty s bh) = false /\ u32 rw = rw)
    as (-> & -> & Eu) by (destruct Hrw as [[-> ->]|[-> ->]]; done).
  unfold lock_buffer. rewrite (proj2 (Z.eqb_neq bh 0)), Hlk by done. set (st := hget s bh b_state).
  set (s1 := hset s bh b_state _).
  assert (forall s', (forall x f, hget s' x f = hget s1 x f) ->
    forall x f, hget (hset s' bh b_state (Z.clearbit (hget s' bh b_state) BH_Locked)) x f = hget s x f) as Hback.
  { intros s' E x f. rewrite hget_hset. case_decide as Hd; [destruct Hd as [-> ->]|].
    - rewrite E. unfold s1. rewrite hget_hset, decide_True by done. by apply clear_set_bit.
    - rewrite E. unfold s1. by rewrite hget_hset, decide_False. }
  destruct (a_alloc_spec (b_heap s1) sizeof_bio Hwf) as (h & bio & Ha & Hwf1 & Hbio); [unfold sizeof_bio; lia|].
  rewrite Ha. cbn [mbind option_bind]. destruct Hbio as [[-> Hl]|(tb & Htb & Hfb & Hl)].
  { change (0 =? 0) with true. cbv iota. rewrite unlock_buffer_idle by done. cbn [mbind option_bind]. eexists. split; [done|].
    split; [|left; split; [exists h, 0; auto|done]]. split; try done. by apply Hback. }
  assert (a_live h bio tb) as Hbl by (apply Hl; by left). pose proof (a_live_pos _ _ _ Hwf1 Hbl).
  rewrite (proj2 (Z.eqb_neq bio 0)) by lia. set (s2 := fill_bio _ bio rw bh). change (b_heap s2) with h.
  destruct (a_alloc_spec h sizeof_bio_vec Hwf1) as (h2 & vec & Ha2 & Hwf2 & Hvec); [unfold sizeof_bio_vec; lia|].
  rewrite Ha2. cbn [mbind option_bind].
  assert (forall x, live_at s x -> x <> bio) as Hnb by (intros x [t Ht] ->; by apply (Hfb t)).
  destruct Hvec as [[-> Hl2]|(tv & Htv & Hfv & Hl2)].
  - change (negb (0 =? 0)) with false. cbv iota. change (b_heap (with_heap s2 h2)) with h2.
    destruct (a_free_spec h2 bio tb Hwf2) as (h3 & -> & Hwf3 & Hl3); [by apply Hl2|]. cbn [mbind option_bind].
    rewrite unlock_buffer_idle by done. cbn [mbind option_bind]. eexists. split; [done|].
    split; [|left; split; [exists h, bio; eauto|done]]. split; try done.
    + intros p t. change (a_live h3 p t <-> a_live (b_heap s) p t). rewrite Hl3, Hl2, Hl. split; [naive_solver|].
      intros Hp. split; [by right|]. apply Hnb. by exists t.
    + by apply Hback.
    + intros x f Hx. unfold s2, bget. simpl. rewrite !wr_other by (left; by apply Hnb). by rewrite decide_False by (by apply Hnb).
  - assert (a_live h2 vec tv) as Hvl by (apply Hl2; by left). pose proof (a_live_pos _ _ _ Hwf2 Hvl).
    rewrite (proj2 (Z.eqb_neq vec 0)) by lia. cbn [negb].
    assert (bio <> vec) as Hbv by (intros ->; by apply (Hfv tb)).
    assert (forall x, live_at s x -> x <> vec) as Hnv by (intros x [t Ht] ->; apply (Hfv t), Hl; by right).
    set (s3 := with_heap s2 h2).
    destruct (filled_bio (with_heap s1 h) bio vec rw bh Hbv) as (F1 & F2 & F3 & F4 & F5 & F6 & F7 & F8 & F9 & F10 & F11 & F12 & F13 & _ & F14).
    set (s4 := fill_vec s3 bio vec bh) in *.
    assert (forall x f, live_at s x -> bget s4 x f = bget s x f) as H4 by (intros x f Hx; apply F14; auto).
    assert (forall x, live_at s x -> live_at s4 x) as H4' by (intros x [t Ht]; exists t; apply Hl2; right; apply Hl; by right).
    assert (forall f, f <> b_state -> hget s4 bh f = hget s bh f) as H5.
    { intros f Hf. change (hget s1 bh f = hget s bh f). unfold s1. rewrite hget_hset, decide_False by naive_solver. done. }
    destruct (ramdisk_request fuel s4 bio vec bh (hget s bh b_bdev) data cap tb tv) as (h5 & -> & Hwf5 & Hl5);
      [exact Hwf2|apply Hl2; by right|exact Hvl|done|done|by apply (ramdisk_ok_ext s)|try done..].
    { rewrite <- H5 by done. exact F6. }
    rewrite (moved_ext s s4 _ bh data cap H5 eq_refl).
    cbn [mbind option_bind]. eexists. split; [done|].
    assert (bget s4 bio bio_rw = rw) as -> by (rewrite <- Eu; exact F7).
    split; [|by right]. split; try done.
    + intros p t. change (a_live h5 p t <-> a_live (b_heap s) p t). rewrite Hl5. change (b_heap s4) with h2. rewrite Hl2, Hl.
      split; [naive_solver|]. intros Hp. split; [auto|]. split; [apply Hnv|apply Hnb]; by exists t.
    + intros x f. cbn. change (hget (hset s1 bh b_state (Z.clearbit (hget s1 bh b_state) BH_Locked)) x f = hget s x f). by apply (Hback s1).
Qed.


(** ** Reading from the RAM disk *)

(** No buffer is in use by a transfer. *)
Definition quiet (s : io) (C : Z -> list Z) : Prop :=
  forall i x, in_table i -> x ∈ C i -> buffer_locked s x = false /\ wget (io_w (b_rest s)) (b_wait x) wq_head = 0.

(** A RAM disk none of whose blocks is up to date in the cache. *)
Record unread (s : io) (C : Z -> list Z) (disk data cap : Z) : Prop := {
  ur_cache : cache_ok s C;
  ur_quiet : quiet s C;
  ur_disk : ramdisk_ok s disk data cap;
  ur_apart : forall i x d, in_table i -> x ∈ C i -> d = disk \/ d = bget s disk d_queue -> x <> d /\ hget s x b_data <> d;
  ur_stale : forall i x, in_table i -> x ∈ C i -> hget s x b_bdev = disk -> buffer_uptodate s x = false
}.

Lemma unread_same s s' C disk data cap : io_same s s' -> unread s C disk data cap -> unread s' C disk data cap.
Proof.
  intros [I1 I2 I3 I4 I5 I6 I7] [U1 U2 U3 U4 U5].
  assert (ramdisk_ok s' disk data cap) as Hrd
    by (apply (ramdisk_ok_ext s); [done|intros x [t Ht]; exists t; by apply I2|done]).
  assert (cache_ok s' C) as Hc.
  { apply (cache_ok_kept s); [|done|done]. split; [intros; apply I3|]. split; [intros; apply I4|]. split; [intros; apply I4|].
    split; intros; by apply I2. }
  split; [done| |done|..].
  - intros i x Hi Hx. unfold buffer_locked. rewrite I3, I6. by apply (U2 i).
  - intros i x d Hi Hx Hd. rewrite I3. rewrite (I7 disk) in Hd by apply U3. by apply (U4 i).
  - intros i x Hi Hx. unfold buffer_uptodate. rewrite !I3. by apply (U5 i).
Qed.

Lemma unread_count s C disk data cap bh n : unread s C disk data cap -> unread (hset s bh b_count n) C disk data cap.
Proof.
  intros [U1 U2 U3 U4 U5].
  assert (forall x f, f <> b_count -> hget (hset s bh b_count n) x f = hget s x f) as E
    by (intros x f Hf; rewrite hget_hset, decide_False by naive_solver; done).
  split; [by apply count_ok|..|by apply (ramdisk_ok_ext s)|intros i x d; rewrite E by done; apply U4|].
  - intros i x Hi Hx. unfold buffer_locked. rewrite E by done. by apply (U2 i).
  - intros i x Hi Hx. unfold buffer_uptodate. rewrite !E by done. by apply (U5 i).
Qed.

Lemma unread_brelse s C i bh disk data cap :
  0 < bh_hash -> unread s C disk data cap -> in_table i -> bh ∈ C i ->
  exists s' C', brelse s bh = Some s' /\ unread s' C' disk data cap.
Proof. clear request_fn.
  intros H0 [U1 U2 U3 U4 U5] Hi Hin. destruct (list_elem_of_split _ _ Hin) as (l1 & l2 & Ec).
  destruct (brelse_spec s C i l1 bh l2 U1 H0 Hi Ec) as (s' & Hr & _ & Ho & [Est Ew] & Hev).
  assert (forall x f, f = b_state \/ f = b_bdev \/ f = b_data -> hget s' x f = hget s x f) as E by (intros x f Hf; apply Ho; naive_solver).
  assert (forall x f, bget s' x f = bget s x f) as Eb by (intros; unfold bget; by rewrite Est).
  assert (exists C', cache_ok s' C' /\ (forall j x, in_table j -> x ∈ C' j -> x ∈ C j) /\
    (forall d, d = disk \/ d = bget s disk d_queue -> live_at s d -> live_at s' d)) as (C' & Hc & Hsub & Hd).
  { destruct ((_ =? 0) && _); [|destruct Hev as (Hc & Eh & _); exists C; unfold live_at; by rewrite Eh].
    destruct Hev as (Hc & _ & Hl). exists (fupd C i (l1 ++ l2)). split; [done|]. split.
    - intros j x Hj Hx. destruct (decide (j = i)) as [->|]; [rewrite fupd_same in Hx; rewrite Ec; set_solver|by rewrite fupd_other in Hx].
    - intros d Hd [t Ht]. exists t. apply Hl. destruct (U4 i bh d Hi Hin Hd) as [N1 N2]. split; [done|]. split; congruence. }
  exists s', C'. split; [done|]. split; [done|..].
  - intros j x Hj Hx. unfold buffer_locked. rewrite E, Ew by auto. apply (U2 j); auto.
  - destruct U3 as [[D0 D1] [Q0 Q1] F X Y]. split; rewrite ?Eb; auto.
  - intros j x d Hj Hx Hdd. rewrite E by auto. rewrite Eb in Hdd. apply (U4 j); auto.
  - intros j x Hj Hx. unfold buffer_uptodate. rewrite !E by auto. apply (U5 j); auto.
Qed.

(** A new buffer is not up to date. *)
Lemma unread_fresh s s1 C bh disk block size data cap :
  let i := hash disk block in
  unread s C disk data cap -> fresh_bh s s1 C bh disk block size -> cache_ok (link_bh s1 bh i) (fupd C i (bh :: C i)) ->
  unread (link_bh s1 bh i) (fupd C i (bh :: C i)) disk data cap.
Proof. clear request_fn.
  intros i [U1 U2 U3 U4 U5] [(Hb0 & Hbn & Hbf) (K1 & K2 & K3) (S1 & S2) Hbo (D1 & D2) _ _ Ho _ Hl (R1 & _ & R3) Hw] Hc.
  destruct (link_bh_fields s1 bh i) as (_ & _ & _ & _ & _ & F & Eh & Est & _ & Ew);
    [apply not_eq_sym; apply (bucket_apart s1 i i); [apply hash_in_table|exact Hbo]|]. set (s' := link_bh s1 bh i) in *.
  assert (forall j x, in_table j -> x ∈ fupd C i (bh :: C i) j -> x = bh \/ x ∈ C j /\ x <> bh) as Hcase.
  { intros j x Hj Hx. destruct (decide (x = bh)) as [->|Hne]; [by left|right].
    destruct (decide (j = i)) as [->|]; [rewrite fupd_same in Hx; set_solver|by rewrite fupd_other in Hx]. }
  assert (forall x f, bget s' x f = bget s x f) as Eb by (intros; unfold bget; by rewrite Est, R1).
  split; [done|..].
  - intros j x Hj Hx. unfold buffer_locked. rewrite F, Ew by done. destruct (Hcase j x Hj Hx) as [->|[Hx' Hne]]; [by rewrite S2|].
    rewrite Ho, R3 by (done || unfold b_wait; lia). by apply (U2 j).
  - apply (ramdisk_ok_ext s); [done|intros x [t Ht]; exists t; rewrite Eh; auto|done].
  - intros j x d Hj Hx Hd. rewrite F by done. rewrite Eb in Hd.
    assert (live_at s d) as [t Ht] by (destruct U3 as [[_ ?] [_ ?] _ _ _], Hd as [-> | ->]; done).
    destruct (Hcase j x Hj Hx) as [->|[Hx' Hne]]; [|rewrite Ho by done; by apply (U4 j)].
    split; intros <-; [by apply (Hbf t)|by apply (D2 t)].
  - intros j x Hj Hx. unfold buffer_uptodate. rewrite !F by done. destruct (Hcase j x Hj Hx) as [->|[Hx' Hne]]; [by rewrite S2|].
    rewrite !Ho by done. by apply (U5 j).
Qed.

(** The part of [bread] after [getblk], for a buffer that is not up to date. *)
Lemma read_fails fuel s C i bh data cap :
  0 < bh_hash -> unread s C (hget s bh b_bdev) data cap -> in_table i -> bh ∈ C i ->
  exists s' s'' C', ll_rw_block fuel s READ [bh] = Some (s', None) /\ wait_on_buffer s' bh = None /\ buffer_uptodate s' bh = false /\
    brelse s' bh = Some s'' /\ unread s'' C' (hget s bh b_bdev) data cap.
Proof.
  intros H0 Hu Hi Hin. destruct (ur_quiet _ _ _ _ _ Hu i bh Hi Hin) as [Hlk Hw].
  pose proof (ur_stale _ _ _ _ _ Hu i bh Hi Hin eq_refl) as Hst. pose proof (ck_wf _ _ (ur_cache _ _ _ _ _ Hu)) as Hwf.
  destruct (ck_buf _ _ (ur_cache _ _ _ _ _ Hu) i bh Hi Hin) as [_ _ (t & _ & Ht) _ _]. pose proof (a_live_pos _ _ _ Hwf Ht).
  destruct (ll_rw_ramdisk fuel s READ bh data cap Hwf ltac:(lia) (ur_disk _ _ _ _ _ Hu) Hlk Hw) as (s' & Hr & Hsame & _); [by left|].
  pose proof (unread_same _ _ _ _ _ _ Hsame Hu) as Hu'. destruct (unread_brelse s' C i bh _ data cap H0 Hu' Hi Hin) as (s'' & C' & Hb & Hu'').
  exists s', s'', C'. cbn [ll_rw_block]. rewrite Hr. cbn [mbind option_bind]. split; [done|].
  unfold wait_on_buffer, buffer_locked, buffer_uptodate in *. rewrite (is_buf _ _ Hsame), Hlk, Hst, andb_false_r. done.
Qed.

(** C40: A block of a RAM disk can never be read: whatever the block, [bread]
    returns 0.  The RAM disk moves the bytes into the buffer, but nobody sets the
    flag of the bio by which the completion tells success, so the buffer does not
    become up to date and is released.  This leaves the cache as it needs to be
    for the next read to fail in the same way. *)
Theorem bread_ramdisk_fails fuel s C disk block size data cap :
  unread s C disk data cap -> 0 < bh_hash -> (length (C (hash disk block)) < fuel)%nat -> 0 < size < 2 ^ 32 ->
  (forall h p t, a_alloc (b_heap s) sizeof_buffer_head = Some (h, p) -> a_live h p t -> off_table p t) ->
  exists s' C', bread fuel s disk block size = Some (s', Ret 0) /\ unread s' C' disk data cap.
Proof.
  intros Hu H0 Hf Hsz Hoff. unfold bread. pose proof (hash_in_table disk block) as Hi.
  destruct (getblk_spec fuel s C disk block size (ur_cache _ _ _ _ _ Hu) Hf Hsz Hoff) as (s1 & bh & -> & Hc). cbn [mbind option_bind].
  assert (bh = 0 /\ unread s1 C disk data cap \/ exists C1, bh <> 0 /\ unread s1 C1 disk data cap /\ bh ∈ C1 (hash disk block) /\
    hget s1 bh b_bdev = disk) as [[-> Hu1]|(C1 & Hb0 & Hu1 & Hin & Hbd)].
  { destruct Hc as [(Hin & Hb & Hok & ->)|[_ [[-> Hun]|(s0 & Hfb & -> & Hok)]]].
    - right. exists C. destruct (ck_buf _ _ Hok _ bh Hi Hin) as [_ _ (t & _ & Ht) _ _].
      pose proof (a_live_pos _ _ _ (ck_wf _ _ Hok) Ht). split; [lia|]. split; [by apply unread_count|]. split; [done|].
      rewrite hget_hset, decide_False by naive_solver. unfold is_block in Hb. rewrite !andb_true_iff, !Z.eqb_eq in Hb. apply Hb.
    - left. split; [done|]. destruct Hun as (Hok & Hl & _ & Est & Ew & Eh). destruct Hu as [U1 U2 U3 U4 U5].
      split; [done|..].
      + intros j x Hj Hx. unfold buffer_locked. rewrite (Eh j), Ew by done. by apply (U2 j).
      + apply (ramdisk_ok_ext s); [intros; unfold bget; by rewrite Est|intros x [t Ht]; exists t; by apply Hl|done].
      + intros j x d Hj Hx. unfold bget. rewrite Est, (Eh j) by done. by apply (U4 j).
      + intros j x Hj Hx. unfold buffer_uptodate. rewrite !(Eh j) by done. by apply (U5 j).
    - right. exists (fupd C (hash disk block) (bh :: C (hash disk block))). pose proof Hfb as [(Hb0 & _) (K1 & _) _ Hbo _ _ _ _ _ _ _ _].
      split; [done|]. split; [by apply (unread_fresh s s0 C bh disk block size)|]. split; [rewrite fupd_same; left|].
      destruct (link_bh_fields s0 bh (hash disk block)) as (_ & _ & _ & _ & _ & F & _);
        [apply not_eq_sym; by apply (bucket_apart s0 _ (hash disk block))|]. by rewrite F. }
  { change (0 =? 0) with true. by exists s1, C. }
  rewrite (proj2 (Z.eqb_neq bh 0)) by done. rewrite (ur_stale _ _ _ _ _ Hu1 _ bh Hi Hin Hbd). rewrite <- Hbd in Hu1.
  destruct (read_fails fuel s1 C1 _ bh data cap H0 Hu1 Hi Hin) as (s2 & s3 & C3 & -> & Hw & Hup & Hr & Hu3). cbn [mbind option_bind].
  rewrite Hw, Hup, Hr. cbn [mbind option_bind]. exists s3, C3. rewrite Hbd in Hu3. done.
Qed.


(** ** Writing to the RAM disk *)

Lemma moved_write s bh data cap n :
  let b := hget s bh b_data in let size := hget s bh b_size in
  mem_ok (mem_of s) -> hget s bh b_blocknr = n -> 0 <= n -> 0 < size -> (512 | size) -> n * size + size <= cap * 512 < 2 ^ 64 ->
  data + n * size + size <= b \/ b + size <= data + n * size ->
  forall x, moved s WRITE bh data cap x =
    if decide (data + n * size <= x < data + n * size + size) then mem_of s (b + (x - (data + n * size))) else mem_of s x.
Proof.
  intros b size Hm En Hn Hsz [k Ek] Hcap Hap x. unfold moved, block_offset. fold b size. rewrite En.
  assert (size / 512 = k) as -> by (rewrite Ek; apply Z.div_mul; lia).
  assert (0 <= n * k <= n * size) by nia.
  assert (u64 (u64 (n * k) * 512) = n * size) as ->. { rewrite (u64_small (n * k)) by lia. rewrite u64_small; [rewrite Ek; lia|]. nia. }
  rewrite !u64_small by lia. rewrite (proj2 (Z.ltb_ge _ _)) by lia. rewrite Z.eqb_refl, Z.add_0_r.
  apply memcpy_to; [done|lia|lia].
Qed.

(** [sync_dirty_buffer] on a dirty buffer of a RAM disk writes the buffer's
    data to exactly its block of the disk and returns 0 with the buffer clean and
    unlocked; all else in memory, the other buffers and the live blocks of the
    heap are as before.  Only when the heap has no room for the request are the
    bytes not written (the code reports success even then). *)
Theorem sync_dirty_buffer_writes fuel s bh data cap n :
  let b := hget s bh b_data in let size := hget s bh b_size in
  a_wf (b_heap s) -> bh <> 0 -> ramdisk_ok s (hget s bh b_bdev) data cap ->
  buffer_locked s bh = false -> wget (io_w (b_rest s)) (b_wait bh) wq_head = 0 -> buffer_dirty s bh = true ->
  mem_ok (mem_of s) -> hget s bh b_blocknr = n -> 0 <= n -> 0 < size -> (512 | size) -> n * size + size <= cap * 512 < 2 ^ 64 ->
  data + n * size + size <= b \/ b + size <= data + n * size ->
  exists s', sync_dirty_buffer fuel s bh = Some (s', Ret 0) /\
    buffer_dirty s' bh = false /\ buffer_locked s' bh = false /\
    (forall x f, x <> bh \/ f <> b_state -> hget s' x f = hget s x f) /\
    (forall p t, a_live (b_heap s') p t <-> a_live (b_heap s) p t) /\
    (no_room s /\ mem_of s' = mem_of s \/
     forall x, mem_of s' x =
       if decide (data + n * size <= x < data + n * size + size) then mem_of s (b + (x - (data + n * size))) else mem_of s x).
Proof.
  intros b size Hwf Hb0 Hrd Hlk Hw Hd Hm En Hn Hsz Hk Hcap Hap. unfold sync_dirty_buffer. rewrite Hd.
  destruct (ll_rw_ramdisk fuel s WRITE bh data cap Hwf Hb0 Hrd Hlk Hw) as (s1 & Hr & Hsame & Hmem); [by right|].
  cbn [ll_rw_block]. rewrite Hr. cbn [mbind option_bind]. pose proof (is_buf _ _ Hsame) as Eb.
  unfold wait_on_buffer, buffer_locked, buffer_dirty in *. rewrite Eb, Hlk, andb_false_r. eexists. split; [done|].
  rewrite hget_hset, decide_True by done. unfold BH_Dirty, BH_Locked in *.
  split; [apply Z.clearbit_eq; lia|]. split; [rewrite Z.clearbit_neq by lia; exact Hlk|].
  split; [intros x f Hx; rewrite hget_hset, decide_False by naive_solver; apply Eb|]. split; [apply (is_live _ _ Hsame)|].
  destruct Hmem as [[Hnr Hmem]|Hmem]; [by left|right]. intros x. change (mem_of s1 x = if decide (data + n * size <= x < data + n * size + size) then mem_of s (b + (x - (data + n * size))) else mem_of s x).
  rewrite Hmem. by apply moved_write.
Qed.


(** ** A new RAM disk *)

Lemma elevator_init_spec (s : io) q name :
  a_wf (b_heap s) -> exists s' r, elevator_init s q name = Some (s', r) /\ a_wf (b_heap s') /\ b_rest s' = b_rest s /\
    (forall p t, a_live (b_heap s) p t -> a_live (b_heap s') p t) /\
    forall x f, live_at s x -> x <> q -> bget s' x f = bget s x f.
Proof.
  intros Hwf. unfold elevator_init. destruct (a_alloc_spec (b_heap s) sizeof_elevator_queue Hwf) as (h & e & -> & Hwf' & He);
    [unfold sizeof_elevator_queue; lia|]. cbn [mbind option_bind]. destruct He as [[-> Hl]|(t & _ & Hf & Hl)].
  - eexists _, _. split; [done|]. split_and!; try done. intros; by apply Hl.
  - assert (a_live h e t) as Hle by (apply Hl; by left). pose proof (a_live_pos _ _ _ Hwf' Hle). rewrite (proj2 (Z.eqb_neq e 0)) by lia.
    eexists _, _. split; [done|]. split_and!; try done; [intros; apply Hl; by right|].
    intros x f [u Hu] Hq. assert (x <> e) by (intros ->; by apply (Hf u)). unfold bget. simpl. by wr_simp.
Qed.

Lemma blk_init_queue_spec (s : io) rfn :
  a_wf (b_heap s) -> exists s' q, blk_init_queue s rfn = Some (s', q) /\ a_wf (b_heap s') /\ b_rest s' = b_rest s /\
    (forall p t, a_live (b_heap s) p t -> a_live (b_heap s') p t) /\
    (q = 0 \/ q <> 0 /\ (forall t, ~ a_live (b_heap s) q t) /\ live_at s' q) /\
    forall x f, live_at s x -> bget s' x f = bget s x f.
Proof.
  intros Hwf. unfold blk_init_queue. destruct (a_alloc_spec (b_heap s) sizeof_request_queue Hwf) as (h & q & -> & Hwf' & Hq);
    [unfold sizeof_request_queue; lia|]. cbn [mbind option_bind]. destruct Hq as [[-> Hl]|(t & _ & Hf & Hl)].
  - eexists _, 0. split; [done|]. split_and!; try done; [intros; by apply Hl|by left].
  - assert (a_live h q t) as Hlq by (apply Hl; by left). pose proof (a_live_pos _ _ _ Hwf' Hlq). rewrite (proj2 (Z.eqb_neq q 0)) by lia.
    set (s1 := with_links _ _).
    destruct (elevator_init_spec s1 q [110; 111; 111; 112] Hwf') as (s2 & r & -> & Hwf2 & Er & Hl2 & Hb). cbn [mbind option_bind].
    eexists _, q. split; [done|]. split; [done|]. split; [exact Er|].
    split; [intros p u Hp; apply Hl2, Hl; by right|]. split; [right; split; [lia|]; split; [done|]; exists t; by apply Hl2|].
    intros x f [u Hu]. assert (x <> q) by (intros ->; by apply (Hf u)). assert (live_at s1 x) by (exists u; apply Hl; by right).
    transitivity (bget s2 x f); [unfold bget; simpl; by wr_simp|]. rewrite Hb by done. unfold s1, bget. simpl. wr_simp. by rewrite decide_False.
Qed.

(** Allocating the structure of a disk: a fresh block, and bytes changed only in
    it. *)
Lemma alloc_disk_spec (s : io) minors :
  a_wf (b_heap s) -> exists g disk, Gendisk.alloc_disk (to_disks s) minors = Some (g, disk) /\ a_wf (Gendisk.g_heap g) /\
    ((disk = 0 /\ Gendisk.g_mem g = mem_of s /\ forall p t, a_live (Gendisk.g_heap g) p t <-> a_live (b_heap s) p t) \/
     exists t, disk <> 0 /\ Gendisk.sizeof_gendisk <= t /\ (forall u, ~ a_live (b_heap s) disk u) /\
       (forall p u, a_live (Gendisk.g_heap g) p u <-> (p = disk /\ u = t) \/ a_live (b_heap s) p u) /\
       forall x, ~ disk <= x < disk + Gendisk.sizeof_gendisk -> Gendisk.g_mem g x = mem_of s x).
Proof.
  intros Hwf. unfold Gendisk.alloc_disk. cbn [to_disks Gendisk.g_heap Gendisk.g_mem Gendisk.g_links].
  destruct (a_alloc_spec (b_heap s) Gendisk.sizeof_gendisk Hwf) as (h & d & -> & Hwf' & Hd); [unfold Gendisk.sizeof_gendisk; lia|].
  cbn [mbind option_bind]. destruct Hd as [[-> Hl]|(t & Ht & Hf & Hl)].
  - eexists _, 0. split; [done|]. split; [done|]. by left.
  - assert (a_live h d t) as Hld by (apply Hl; by left). pose proof (a_live_pos _ _ _ Hwf' Hld). rewrite (proj2 (Z.eqb_neq d 0)) by lia.
    eexists _, d. split; [done|]. split; [done|]. right. exists t. split; [lia|]. split; [done|]. split; [done|]. split; [done|].
    intros x Hx. cbn [Gendisk.g_mem]. unfold Gendisk.sizeof_gendisk in *. rewrite store32_other by lia. rewrite memset_fill by lia.
    unfold fill. by rewrite decide_False by lia.
Qed.


Lemma ramdisk_name_other m disk minor x : ~ disk <= x < disk + Gendisk.sizeof_gendisk -> ramdisk_name m disk minor x = m x.
Proof.
  intros Hx. unfold ramdisk_name, Gendisk.d_name, Gendisk.sizeof_gendisk in *. cbn [for_up].
  destruct (minor <? 10); rewrite !store8_other by lia; done.
Qed.

(** The bytes [create_ramdisk] writes last are in the disk's structure. *)
Lemma fill_disk_fields s disk q data minor size :
  q <> disk -> let s' := fill_disk s disk q data minor size in
  bget s' disk d_queue = q /\ bget s' disk d_private_data = data /\ bget s' disk d_capacity = u64 (Z.quot size RAMDISK_SECTOR_SIZE) /\
  bget s' q q_make_request_fn = bget s q q_make_request_fn /\ b_heap s' = b_heap s /\
  forall x, ~ disk <= x < disk + Gendisk.sizeof_gendisk -> mem_of s' x = mem_of s x.
Proof.
  intros Hq. cbv zeta. split_and!; try (unfold bget; simpl; by wr_simp).
  intros x Hx.
  change (ramdisk_name (store64 (store32 (store32 (mem_of s) disk RAMDISK_MAJOR) (disk + 4) minor) (disk + 72) 0) disk minor x = mem_of s x).
  rewrite ramdisk_name_other by done. unfold Gendisk.sizeof_gendisk in *. by rewrite store64_other, !store32_other by lia.
Qed.

(** A created RAM disk is one: its queue leads to the driver, its capacity is that
    of its zeroed block. *)
Theorem create_ramdisk_ok s minor size :
  a_wf (b_heap s) -> 0 < size < 2 ^ 31 ->
  exists s' disk, create_ramdisk s minor size = Some (s', disk) /\ a_wf (b_heap s') /\
    (disk = 0 \/ exists data, ramdisk_ok s' disk data (size / 512) /\
       (exists t, size <= t /\ a_live (b_heap s') data t) /\ forall i, 0 <= i < size -> mem_of s' (data + i) = 0).
Proof.
  intros Hwf Hsz. unfold create_ramdisk. rewrite (u64_small size) by lia.
  destruct (a_alloc_spec (b_heap s) size Hwf ltac:(lia)) as (h & data & -> & Hwf1 & Hd). cbn [mbind option_bind].
  destruct Hd as [[-> Hl]|(td & Htd & Hfd & Hl)]; [eexists _, 0; split; [done|]; split; [done|by left]|].
  assert (a_live h data td) as Hld by (apply Hl; by left). pose proof (a_live_pos _ _ _ Hwf1 Hld).
  rewrite (proj2 (Z.eqb_neq data 0)) by lia. set (s1 := with_io_mem _ _).
  destruct (alloc_disk_spec s1 1 Hwf1) as (g & disk & -> & Hwf2 & Hg). cbn [mbind option_bind].
  destruct Hg as [(-> & _ & Hl2)|(t & Hd0 & Ht & Hfr & Hl2 & Hm)].
  { change (0 =? 0) with true. cbv iota. change (b_heap (of_disks s1 g)) with (Gendisk.g_heap g).
    destruct (a_free_spec _ data td Hwf2) as (h3 & -> & Hwf3 & _); [by apply Hl2|]. cbn [mbind option_bind].
    eexists _, 0. split; [done|]. split; [done|by left]. }
  rewrite (proj2 (Z.eqb_neq disk 0)) by done. set (s2 := clear _ disk).
  destruct (blk_init_queue_spec s2 0 Hwf2) as (s3 & q & -> & Hwf3 & Er & Hl3 & Hq & Hb). cbn [mbind option_bind].
  assert (a_live (b_heap s3) disk t /\ a_live (b_heap s3) data td) as [Ld Ldt] by (split; apply Hl3, Hl2; [by left|by right]).
  assert (data <> disk) as Hne by (intros ->; by apply (Hfr td)).
  destruct Hq as [->|(Hq0 & Hqf & [tq Hql])].
  { change (0 =? 0) with true. cbv iota. destruct (a_free_spec _ _ _ Hwf3 Ld) as (h4 & -> & Hwf4 & Hl4). cbn [mbind option_bind].
    destruct (a_free_spec h4 data td Hwf4) as (h5 & -> & Hwf5 & _); [by apply Hl4|]. cbn [mbind option_bind].
    eexists _, 0. split; [done|]. split; [done|by left]. }
  rewrite (proj2 (Z.eqb_neq q 0)) by done. set (s4 := blk_queue_make_request _ _ _).
  assert (q <> disk) as Hqd by (intros ->; apply (Hqf t), Hl2; by left).
  destruct (fill_disk_fields s4 disk q data minor size Hqd) as (F1 & F2 & F3 & F4 & Eh & Em).
  eexists _, disk. split; [done|]. rewrite Eh. split; [done|]. right. exists data. split; [|split; [by exists td|]].
  - split.
    + split; [done|]. exists t. by rewrite Eh.
    + rewrite F1. split; [done|]. exists tq. by rewrite Eh.
    + rewrite F1, F4. unfold s4, blk_queue_make_request, bget. simpl. by wr_simp.
    + done.
    + rewrite F3. unfold RAMDISK_SECTOR_SIZE. rewrite Z.quot_div_nonneg by lia. apply u64_small.
      assert (0 <= size / 512 <= size) by (split; [apply Z.div_pos; lia|apply Z.div_le_upper_bound; lia]). lia.
  - intros i Hi.
    assert (~ disk <= data + i < disk + Gendisk.sizeof_gendisk) as Hap.
    { destruct (a_live_disjoint _ _ _ _ _ Hwf3 Ldt Ld) as [[? _]|[?|?]]; [done|lia..]. }
    rewrite Em by done. change (mem_of s4) with (io_mem (b_rest s3)). rewrite Er. change (io_mem (b_rest s2)) with (Gendisk.g_mem g).
    rewrite Hm by done. unfold s1, mem_of. simpl. rewrite memset_fill by lia. unfold fill. by rewrite decide_True by lia.
Qed.

End buffers.

(** ** A concrete cache

    A RAM disk of two sectors with its structure at 0x1318, its queue at 0x13A0
    and its bytes at 0x1418; block 1 of it is in the buffer at 0x1028, dirty,
    with its data at 0x10F0.  The table is at 0x100000. *)
#[local] Existing Instance Heap.heap_allocator.

Definition demo_io_tiles : list (Z * bool) :=
  [(160, false); (512, false); (96, false); (80, false); (1024, false); (8192, true)].

Definition demo_table : Z := 0x100000.
Definition demo_bucket : Z := hash 0x1318 1.

Definition demo_disk : store bfld := fun x f =>
  match f with
  | d_queue => if x =? 0x1318 then 0x13A0 else 0
  | d_private_data => if x =? 0x1318 then 0x1418 else 0
  | d_capacity => if x =? 0x1318 then 2 else 0
  | q_make_request_fn => if x =? 0x13A0 then ramdisk_make_request_ptr else 0
  | _ => 0
  end.

Definition demo_bufs (st : Z) : bufs :=
  Bufs (fun x f => if x =? 0x1028 then
          match f with
          | b_state => st | b_data => 0x10F0 | b_blocknr => 1 | b_size => 512 | b_bdev => 0x1318 | b_count => 1
          | b_pprev_hash => bucket demo_table demo_bucket end else 0)
       (fun c => if c =? bucket demo_table demo_bucket then 0x1028 else 0)
       1 (fun x => if decide (0x10F0 <= x < 0x12F0) then 7 else 0) (WSys demo_sched (fun _ _ => 0)) (fun _ => 0).

Definition demo_io (st : Z) : blk (A := Spinlock.cpu * Heap.heap) (R := bufs) :=
  Blk ∅ demo_disk (Heap.demo_cpu, Heap.heap_of 0x1000 demo_io_tiles) (demo_bufs st).

Definition demo_cache : Z -> list Z := fun i => if i =? demo_bucket then [0x1028] else [].

Lemma demo_io_tiles_ok : Heap.tiles_ok 0x1000 demo_io_tiles.
Proof. split; [lia|]. split; [repeat constructor; lia|vm_compute; done]. Qed.

Lemma demo_io_live st x t :
  (x, t) ∈ [(0x1028, 160); (0x10F0, 512); (0x1318, 96); (0x13A0, 80); (0x1418, 1024)] -> a_live (b_heap (demo_io st)) x t.
Proof. intros Hx. apply Heap.heap_of_live; [exact demo_io_tiles_ok|done|exact Hx]. Qed.

Lemma demo_cache_elem i x : x ∈ demo_cache i -> i = demo_bucket /\ x = 0x1028.
Proof.
  unfold demo_cache. destruct (Z.eqb_spec i demo_bucket) as [->|]; [|intros H; by apply elem_of_nil in H].
  intros H. by apply list_elem_of_singleton in H as ->.
Qed.

Lemma demo_cache_ok st : cache_ok demo_table (demo_io st) demo_cache.
Proof.
  split.
  - exists demo_io_tiles. apply Heap.heap_of_rep; [exact demo_io_tiles_ok|done].
  - intros i Hi. unfold demo_cache. destruct (Z.eqb_spec i demo_bucket) as [->|Hne]; split.
    + split; [reflexivity|]. split; [lia|]. split; reflexivity.
    + apply NoDup_singleton.
    + change (hchain (demo_io st) (bucket demo_table i) []) with ((if bucket demo_table i =? bucket demo_table demo_bucket then 0x1028 else 0) = 0).
      rewrite (proj2 (Z.eqb_neq _ _)); [done|]. unfold bucket. lia.
    + apply NoDup_nil_2.
  - intros i x Hi Hx. apply demo_cache_elem in Hx as [-> ->]. split; [done|done|..].
    + exists 160. split; [done|]. apply demo_io_live. set_solver.
    + exists 512. split; [done|]. apply demo_io_live. set_solver.
    + left. unfold sizeof_buffer_head, demo_table. lia.
  - intros i x y Hi Hx Hy _. by apply demo_cache_elem in Hx as [_ ->], Hy as [_ ->].
  - intros i j x y Hi Hj Hx Hy. apply demo_cache_elem in Hx as [_ ->], Hy as [_ ->]. done.
Qed.

(** Every block of the heap lies below the table. *)
Lemma demo_off st h p t :
  a_alloc (b_heap (demo_io st)) sizeof_buffer_head = Some (h, p) -> a_live h p t -> off_table demo_table p t.
Proof.
  intros Ha Hl.
  destruct (Heap.kmalloc_rep Heap.demo_cpu (Heap.heap_of 0x1000 demo_io_tiles) demo_io_tiles sizeof_buffer_head) as (h' & p' & Hk & Hfl & Hm);
    [apply Heap.heap_of_rep; [exact demo_io_tiles_ok|done]|unfold sizeof_buffer_head; lia|].
  change (Heap.kmalloc Heap.demo_cpu (Heap.heap_of 0x1000 demo_io_tiles) sizeof_buffer_head = Some (h, p)) in Ha.
  rewrite Hk in Ha. injection Ha as <- <-. change (Heap.free_list (Heap.heap_of 0x1000 demo_io_tiles)) with 0x1000 in Hfl.
  destruct (Heap.spec_alloc _ _) as [[off l]|] eqn:Es.
  - vm_compute in Es. injection Es as <- <-. destruct Hm as [_ Hr].
    apply (Heap.h_live_iff (Heap.demo_cpu, h') _ _ _ Hr) in Hl. simpl in Hl. rewrite Hfl in Hl. vm_compute in Hl.
    left. unfold demo_table. set_unfold. destruct Hl as [[= -> ->]|[[= -> ->]|[[= -> ->]|[[= -> ->]|[[= -> ->]|[[= -> ->]|[]]]]]]]; lia.
  - vm_compute in Es. discriminate Es.
Qed.

Lemma getblk_correct_witness :
  exists s', getblk demo_table 2 (demo_io 2) 0x1318 1 512 = Some (s', 0x1028) /\ cache_ok demo_table s' demo_cache.
Proof.
  destruct (getblk_correct demo_table 2 (demo_io 2) demo_cache 0x1318 1 512 (demo_cache_ok 2)) as (s' & bh & Hg & Hc).
  - unfold demo_cache. change (hash 0x1318 1) with demo_bucket. rewrite Z.eqb_refl. simpl. lia.
  - lia.
  - exact (demo_off 2).
  - exists s'. assert (demo_cache (hash 0x1318 1) = [0x1028]) as Ed by reflexivity. rewrite Ed in Hc.
    destruct Hc as [(Hin & _ & Hok & _)|[Hn _]].
    + apply list_elem_of_singleton in Hin as ->. split; [exact Hg|exact Hok].
    + inversion_clear Hn as [|? ? Hx _]. discriminate Hx.
Defined.

Lemma brelse_correct_witness :
  exists s', brelse (demo_io 0) 0x1028 = Some s' /\ hget s' 0x1028 b_count = 0 /\ cache_ok demo_table s' demo_cache.
Proof.
  destruct (brelse_correct demo_table (demo_io 0) demo_cache demo_bucket [] 0x1028 [] (demo_cache_ok 0)) as (s' & Hr & _ & _ & Hc).
  - unfold demo_table. lia.
  - apply hash_in_table.
  - reflexivity.
  - exists s'. split; [exact Hr|]. change ((_ =? 0) && _) with false in Hc. cbv iota in Hc. destruct Hc as (Hok & _ & Hn).
    split; [exact Hn|exact Hok].
Defined.

Lemma demo_ramdisk st : ramdisk_ok (demo_io st) 0x1318 0x1418 2.
Proof.
  split; [split; [done|exists 96; apply demo_io_live; set_solver]|split; [done|exists 80; apply demo_io_live; set_solver]|done..].
Qed.

Lemma bread_ramdisk_fails_witness :
  exists s', bread demo_table (fun _ _ _ => None) 2 (demo_io 2) 0x1318 1 512 = Some (s', Ret 0).
Proof.
  destruct (bread_ramdisk_fails demo_table (fun _ _ _ => None) 2 (demo_io 2) demo_cache 0x1318 1 512 0x1418 2) as (s' & C' & Hr & _).
  - split; [exact (demo_cache_ok 2)| |exact (demo_ramdisk 2)| |].
    + intros i x _ Hx. apply demo_cache_elem in Hx as [_ ->]. done.
    + intros i x d _ Hx Hd. apply demo_cache_elem in Hx as [_ ->]. change (bget (demo_io 2) 0x1318 d_queue) with 0x13A0 in Hd.
      destruct Hd as [-> | ->]; done.
    + intros i x _ Hx _. apply demo_cache_elem in Hx as [_ ->]. done.
  - unfold demo_table. lia.
  - change (demo_cache (hash 0x1318 1)) with [0x1028]. simpl. lia.
  - lia.
  - exact (demo_off 2).
  - exists s'. exact Hr.
Defined.

Lemma sync_dirty_buffer_writes_witness :
  exists s', sync_dirty_buffer (fun _ _ _ => None) 2 (demo_io 2) 0x1028 = Some (s', Ret 0) /\ buffer_dirty s' 0x1028 = false.
Proof.
  destruct (sync_dirty_buffer_writes (fun _ _ _ => None) 2 (demo_io 2) 0x1028 0x1418 2 1) as (s' & Hr & Hd & _).
  - exists demo_io_tiles. apply Heap.heap_of_rep; [exact demo_io_tiles_ok|done].
  - lia.
  - exact (demo_ramdisk 2).
  - reflexivity.
  - reflexivity.
  - reflexivity.
  - intros x. unfold mem_of. simpl. case_decide; lia.
  - reflexivity.
  - lia.
  - vm_compute. reflexivity.
  - exists 1. reflexivity.
  - vm_compute. split; [discriminate|reflexivity].
  - right. vm_compute. discriminate.
  - exists s'. split; [exact Hr|exact Hd].
Defined.

End Buffer.
