(* ===== verification/Vfs.v ===== *)
(** * The virtual file system (src/kernel/fs/vfs.c, include/vfs.h)

    Dentries name inodes and form a tree through [d_parent]; a hash table caches
    them by parent and name, and a path is resolved component by component
    through this cache, asking the file system on a miss.  Files are heap blocks
    in the descriptor table of a process.

    A string is the list of its characters before the terminator (bytes from 1
    to 255); [v_str] has the contents of the strings in memory by address.  File
    contents and callers' buffers are bytes of memory.

    The operations of a file system are reached through the tables an inode
    points to.  The file system is a parameter here: [Ramfs] and [Fat32] supply
    one each.  The spin locks around the lists are taken and released in pairs on
    every path and left out. *)
From S2P Require Import Prelude Memory CString Allocator ListHead Store SortedQueue Spinlock Heap Sched.
Import CString ListHead.
Import Sched (sched, get, set, current_process, cwd, cwd_mnt, fd_table).

Module Vfs.

(** ** Data *)

Definition MAX_FILES : Z := 128.
Definition MAX_PATH_LEN : Z := 4096.
Definition MAX_FILENAME_LEN : Z := 255.
Definition O_WRONLY : Z := 1.
Definition O_RDWR : Z := 2.
Definition O_RDONLY : Z := 0.
Definition O_CREAT : Z := 64.
Definition O_EXCL : Z := 128.
Definition O_DIRECTORY : Z := 65536.
Definition S_IFMT : Z := 0xF000.
Definition S_IFREG : Z := 0x8000.
Definition S_IFBLK : Z := 0x6000.
Definition S_IFDIR : Z := 0x4000.
Definition S_IFCHR : Z := 0x2000.
Definition SEEK_SET : Z := 0.
Definition SEEK_CUR : Z := 1.
Definition SEEK_END : Z := 2.
Definition DENTRY_HASH_SIZE : Z := 1024.

Definition S_ISDIR (mode : Z) : bool := mode .& S_IFMT =? S_IFDIR.
Definition S_ISREG (mode : Z) : bool := mode .& S_IFMT =? S_IFREG.
Definition S_ISCHR (mode : Z) : bool := mode .& S_IFMT =? S_IFCHR.
(** [flags & bit] as a condition. *)
Definition has (flags bit : Z) : bool := negb (flags .& bit =? 0).

Inductive vfld :=
  (** [struct dentry] *)
  | d_count | d_flags | d_inode | d_parent | d_sb | d_name | d_len | d_hashval | d_op | d_fsdata
  (** [struct inode] *)
  | i_ino | i_mode | i_nlink | i_uid | i_gid | i_rdev | i_size | i_blocks | i_blkbits | i_atime | i_mtime | i_ctime
  | i_flags | i_sb | i_op | i_fop | i_mapping | i_private | i_state | i_count
  (** [struct super_block] *)
  | s_blocksize | s_blocksize_bits | s_maxbytes | s_type | s_op | s_magic | s_root | s_fs_info | s_bdev
  (** [struct file] *)
  | f_dentry | f_vfsmnt | f_op | f_flags | f_mode | f_count | f_pos | f_private | f_mapping
  (** [struct vfsmount] *)
  | mnt_parent | mnt_mountpoint | mnt_root | mnt_sb
  (** [struct file_system_type] *)
  | t_name | t_mount | t_kill_sb | t_next
  (** [struct ramfs_inode_info] *)
  | r_data | r_capacity
  (** [char_device_t] *)
  | c_major | c_fops
  (** [struct fat32_sb_info] *)
  | fat_start_sector | data_start_sector | root_cluster | sectors_per_cluster | bytes_per_cluster | fat_size | total_sectors
  | reserved_sectors | fat_count | hidden_sectors.

#[export] Instance vfld_eq_dec : EqDecision vfld.
Proof. solve_decision. Defined.

Definition sizeof_dentry : Z := 176.
Definition sizeof_inode : Z := 360.
Definition sizeof_super_block : Z := 216.
Definition sizeof_file : Z := 80.

(** The embedded list nodes. *)
Definition d_hash_node (d : Z) : Z := d + 24.
Definition d_lru (d : Z) : Z := d + 40.
Definition d_subdirs (d : Z) : Z := d + 56.
Definition d_child (d : Z) : Z := d + 72.
Definition d_alias (d : Z) : Z := d + 112.
Definition i_hash (i : Z) : Z := i.
Definition i_list (i : Z) : Z := i + 16.
Definition i_sb_list (i : Z) : Z := i + 32.
Definition i_dentry (i : Z) : Z := i + 48.
Definition s_list (sb : Z) : Z := sb.
Definition s_inodes (sb : Z) : Z := sb + 80.
Definition s_dirty (sb : Z) : Z := sb + 96.
Definition f_list (f : Z) : Z := f.

Notation str := (list Z).
Definition slash : Z := 47.
Definition dot : str := [46].
Definition dotdot : str := [46; 46].
(** A character of type [char]. *)
Definition s8 (c : Z) : Z := if c <? 128 then c else c - 256.

Section vfs.
(** [R] is the state of what a file system keeps elsewhere, such as its device. *)
Context {A R : Type} `{Allocator A}.

Record vfs := VS {
  v_links : gmap Z list_head; v_st : store vfld; v_str : Z -> str; v_mem : mem; v_heap : A; v_sched : sched;
  root_dentry : Z; root_mnt : Z; file_systems : Z; v_rest : R
}.

Definition vget (s : vfs) (a : Z) (f : vfld) : Z := v_st s a f.
Definition with_st (s : vfs) (t : store vfld) : vfs :=
  VS (v_links s) t (v_str s) (v_mem s) (v_heap s) (v_sched s) (root_dentry s) (root_mnt s) (file_systems s) (v_rest s).
Definition vset (s : vfs) (a : Z) (f : vfld) (v : Z) : vfs := with_st s (wr (v_st s) a f v).
Definition with_links (s : vfs) (l : gmap Z list_head) : vfs :=
  VS l (v_st s) (v_str s) (v_mem s) (v_heap s) (v_sched s) (root_dentry s) (root_mnt s) (file_systems s) (v_rest s).
Definition with_str (s : vfs) (a : Z) (l : str) : vfs :=
  VS (v_links s) (v_st s) (fupd (v_str s) a l) (v_mem s) (v_heap s) (v_sched s) (root_dentry s) (root_mnt s) (file_systems s) (v_rest s).
Definition with_mem (s : vfs) (m : mem) : vfs :=
  VS (v_links s) (v_st s) (v_str s) m (v_heap s) (v_sched s) (root_dentry s) (root_mnt s) (file_systems s) (v_rest s).
Definition with_heap (s : vfs) (h : A) : vfs :=
  VS (v_links s) (v_st s) (v_str s) (v_mem s) h (v_sched s) (root_dentry s) (root_mnt s) (file_systems s) (v_rest s).
Definition with_sched (s : vfs) (c : sched) : vfs :=
  VS (v_links s) (v_st s) (v_str s) (v_mem s) (v_heap s) c (root_dentry s) (root_mnt s) (file_systems s) (v_rest s).
Definition with_fs (s : vfs) (t : Z) : vfs :=
  VS (v_links s) (v_st s) (v_str s) (v_mem s) (v_heap s) (v_sched s) (root_dentry s) (root_mnt s) t (v_rest s).
Definition with_rest (s : vfs) (r : R) : vfs :=
  VS (v_links s) (v_st s) (v_str s) (v_mem s) (v_heap s) (v_sched s) (root_dentry s) (root_mnt s) (file_systems s) r.

(** [memset] of a structure whose list nodes are [nodes]. *)
Definition clear (s : vfs) (a : Z) (nodes : list Z) : vfs :=
  with_links (with_st s (fun x f => if decide (x = a) then 0 else v_st s x f))
    (foldr (fun n l => <[n := LH 0 0]> l) (v_links s) nodes).

Definition init_list (s : vfs) (n : Z) : vfs := with_links s (INIT_LIST_HEAD (v_links s) n).
Definition add_list (s : vfs) (n head : Z) : option vfs := with_links s <$> list_add (v_links s) n head.
(** An access through a pointer that may be null. *)
Definition deref {B : Type} (p : Z) (k : option B) : option B := if p =? 0 then None else k.

(** ** The operations of file systems *)

(** The members of the operation tables that the virtual file system calls; a
    null member is [None].  A call gets the state and its arguments and gives the
    state and its result. *)
Record inode_operations := IOps {
  create : option (vfs -> Z -> Z -> Z -> option (vfs * Z));
  lookup : option (vfs -> Z -> Z -> option (vfs * Z));
  unlink : option (vfs -> Z -> Z -> option (vfs * Z));
  mkdir : option (vfs -> Z -> Z -> Z -> option (vfs * Z));
  rmdir : option (vfs -> Z -> Z -> option (vfs * Z));
  mknod : option (vfs -> Z -> Z -> Z -> Z -> option (vfs * Z));
  rename : option (vfs -> Z -> Z -> Z -> Z -> option (vfs * Z))
}.

(** The offset argument of [read] and [write] is always [&f->f_pos]. *)
Record file_operations := FOps {
  llseek : option (vfs -> Z -> Z -> Z -> option (vfs * Z));
  read : option (vfs -> Z -> Z -> Z -> option (vfs * Z));
  write : option (vfs -> Z -> Z -> Z -> option (vfs * Z));
  readdir : option (vfs -> Z -> Z -> Z -> option (vfs * Z));
  open : option (vfs -> Z -> Z -> option (vfs * Z));
  release : option (vfs -> Z -> Z -> option (vfs * Z))
}.

Definition no_iops : inode_operations := IOps None None None None None None None.
Definition no_fops : file_operations := FOps None None None None None None.

(** ** Dentries *)

Section static.
(** The addresses of [dentry_hashtable], [vfsmount_list] and [super_blocks]. *)
Context (dentry_hashtable vfsmount_list super_blocks : Z).

Definition bucket (h : Z) : Z := dentry_hashtable + 16 * h.

Definition d_hash (parent : Z) (name : str) : Z :=
  let h := foldl (fun h c => u32 (u32 (h .<< 5) - h + s8 c)) 0 name in
  u32 (Z.lxor h parent) mod DENTRY_HASH_SIZE.

Definition is_mount (s : vfs) (mnt dentry pos : Z) : bool :=
  (vget s pos mnt_parent =? mnt) && (vget s pos mnt_mountpoint =? dentry).

(** [mnt_hash] is the first member of [struct vfsmount]. *)
Definition lookup_mnt (fuel : nat) (s : vfs) (mnt dentry : Z) : option Z :=
  pos ← list_find fuel (v_links s) vfsmount_list (is_mount s mnt dentry);
  Some (if pos =? vfsmount_list then 0 else pos).

Definition follow_step (fuel : nat) (s : vfs) : Z * Z -> (Z * Z) + option (Z * Z) :=
  fun '(mnt, dentry) =>
    match lookup_mnt fuel s mnt dentry with
    | None => inr None
    | Some mounted => if mounted =? 0 then inr (Some (mnt, dentry)) else inl (mounted, vget s mounted mnt_root)
    end.

Definition follow_mount (fuel : nat) (s : vfs) (mnt dentry : Z) : option (Z * Z) :=
  mjoin (loop fuel (follow_step fuel s) (mnt, dentry)).

Definition dentry_nodes (d : Z) : list Z := [d_hash_node d; d_lru d; d_subdirs d; d_child d; d_alias d].

Definition alloc_dentry (s : vfs) (parent : Z) (name : str) : option (vfs * Z) :=
  '(h, dentry) ← a_alloc (v_heap s) sizeof_dentry;
  let s := with_heap s h in
  if dentry =? 0 then Some (s, 0)
  else
    let s := clear s dentry (dentry_nodes dentry) in
    let s := vset s dentry d_count 1 in
    let s := vset s dentry d_parent parent in
    let len := Z.of_nat (length name) in
    '(h, name_copy) ← a_alloc (v_heap s) (len + 1);
    let s := with_heap s h in
    if name_copy =? 0 then h ← a_free (v_heap s) dentry; Some (with_heap s h, 0)
    else
      let s := with_str s name_copy name in
      let s := vset s dentry d_name name_copy in
      let s := vset s dentry d_len len in
      let s := vset s dentry d_hashval (d_hash parent name) in
      let s := foldl init_list s (dentry_nodes dentry) in
      if negb (parent =? 0) then
        let s := vset s dentry d_sb (vget s parent d_sb) in
        s ← add_list s (d_child dentry) (d_subdirs parent);
        Some (s, dentry)
      else Some (s, dentry).

Definition d_instantiate (s : vfs) (entry inode : Z) : option vfs :=
  if entry =? 0 then Some s
  else if negb (inode =? 0) then
    s ← add_list s (d_alias entry) (i_dentry inode);
    Some (vset s entry d_inode inode)
  else Some s.

Definition d_add (s : vfs) (entry inode : Z) : option vfs :=
  s ← (if negb (inode =? 0) then
         s ← add_list s (d_alias entry) (i_dentry inode); Some (vset s entry d_inode inode)
       else Some s);
  add_list s (d_hash_node entry) (bucket (vget s entry d_hashval)).

(** The node at [pos] is that of a dentry for [name] in [parent]. *)
Definition is_child (s : vfs) (parent : Z) (name : str) (pos : Z) : bool :=
  let d := pos - 24 in (vget s d d_parent =? parent) && bool_decide (v_str s (vget s d d_name) = name).

Definition d_lookup (fuel : nat) (s : vfs) (parent : Z) (name : str) : option (vfs * Z) :=
  let head := bucket (d_hash parent name) in
  pos ← list_find fuel (v_links s) head (is_child s parent name);
  if pos =? head then Some (s, 0)
  else let d := pos - 24 in Some (vset s d d_count (u32 (vget s d d_count + 1)), d).

Definition inode_nodes (i : Z) : list Z := [i_hash i; i_list i; i_sb_list i; i_dentry i].

Definition new_inode (s : vfs) (sb : Z) : option (vfs * Z) :=
  '(h, inode) ← a_alloc (v_heap s) sizeof_inode;
  let s := with_heap s h in
  if inode =? 0 then Some (s, 0)
  else
    let s := clear s inode (inode_nodes inode) in
    let s := vset s inode i_sb sb in
    let s := vset s inode i_count 1 in
    let s := init_list s (i_dentry inode) in
    s ← (if negb (sb =? 0) then add_list s (i_sb_list inode) (s_inodes sb) else Some s);
    Some (s, inode).

(** ** File system types and mounts *)

(** The cursor [p] is the type whose [next] it is, 0 for [&file_systems]. *)
Definition register_step (s : vfs) (fs : Z) : Z -> Z + (Z * bool) :=
  fun p =>
    let t := link_at (v_st s) t_next (file_systems s) p in
    if t =? 0 then inr (p, false)
    else if bool_decide (v_str s (vget s t t_name) = v_str s (vget s fs t_name)) then inr (p, true)
    else inl t.

Definition register_filesystem (fuel : nat) (s : vfs) (fs : Z) : option (vfs * Z) :=
  '(p, taken) ← loop fuel (register_step s fs) 0;
  if (taken : bool) then Some (s, -1)
  else
    let s := vset s fs t_next 0 in
    Some (if p =? 0 then with_fs s fs else vset s p t_next fs, 0).

Definition fs_step (s : vfs) (name : str) : Z -> Z + Z :=
  fun fs => if fs =? 0 then inr 0
            else if bool_decide (v_str s (vget s fs t_name) = name) then inr fs
            else inl (vget s fs t_next).

Definition get_fs_type (fuel : nat) (s : vfs) (name : str) : option Z := loop fuel (fs_step s name) (file_systems s).

(** ** Paths *)

Section ops.
(** What the tables and the [mount] function at an address do. *)
Context (iops : Z -> inode_operations) (fops : Z -> file_operations) (mount_fn : Z -> vfs -> Z -> str -> option (vfs * Z)).

(** The arguments [flags] and [data] are passed on to a [mount] that ignores
    them. *)
Definition vfs_mount (fuel : nat) (s : vfs) (fs_type dev_name : str) : option (vfs * Z) :=
  fs ← get_fs_type fuel s fs_type;
  if fs =? 0 then Some (s, 0)
  else
    '(s, sb) ← mount_fn (vget s fs t_mount) s fs dev_name;
    if sb =? 0 then Some (s, 0)
    else s ← add_list s (s_list sb) super_blocks; Some (s, sb).

(** The inode operations reached through a dentry, if its pointers are set. *)
Definition iops_of (s : vfs) (dentry : Z) : option inode_operations :=
  let inode := vget s dentry d_inode in
  if (inode =? 0) || (vget s inode i_op =? 0) then None else Some (iops (vget s inode i_op)).

(** The characters of a path up to the next slash, and the rest. *)
Fixpoint component (name : str) : str * str :=
  match name with
  | [] => ([], [])
  | c :: r => if c =? slash then ([], name) else let '(a, b) := component r in (c :: a, b)
  end.

(** [if ( *name ) name++] *)
Definition skip (name : str) : str := match name with [] => [] | _ :: r => r end.

(** What a component does: stay, the parent, a cached child or one the file
    system is asked for. *)
Definition walk_component (fuel : nat) (s : vfs) (mnt dentry : Z) (comp : str) : option (vfs * option (Z * Z)) :=
  if bool_decide (comp = dot) then Some (s, Some (mnt, dentry))
  else if bool_decide (comp = dotdot) then
    if negb (dentry =? root_dentry s) && negb (vget s dentry d_parent =? 0) then Some (s, Some (mnt, vget s dentry d_parent))
    else Some (s, Some (mnt, dentry))
  else
    '(s, child) ← d_lookup fuel s dentry comp;
    if negb (child =? 0) then
      '(mnt, child) ← follow_mount fuel s mnt child; Some (s, Some (mnt, child))
    else
      deref dentry match iops_of s dentry with
      | Some (IOps _ (Some look) _ _ _ _ _) =>
          '(s, new_dentry) ← alloc_dentry s dentry comp;
          if new_dentry =? 0 then Some (s, None)
          else
            '(s, res) ← look s (vget s dentry d_inode) new_dentry;
            '(s, child) ← (if negb (res =? 0) then h ← a_free (v_heap s) new_dentry; Some (with_heap s h, res)
                           else Some (s, new_dentry));
            '(mnt, child) ← follow_mount fuel s mnt child; Some (s, Some (mnt, child))
      | _ => Some (s, None)
      end.

(** The loop over the path; a round consumes at least one character. *)
Fixpoint walk (n : nat) (fuel : nat) (s : vfs) (mnt dentry : Z) (name : str) : option (vfs * option (Z * Z)) :=
  match n, name with
  | _, [] => Some (s, Some (mnt, dentry))
  | O, _ => None
  | S n, _ =>
      let '(comp, rest) := component name in
      match comp with
      | [] => walk n fuel s mnt dentry (skip rest)
      | _ => if 256 <=? Z.of_nat (length comp) then Some (s, None)
             else
               '(s, r) ← walk_component fuel s mnt dentry comp;
               match r with
               | None => Some (s, None)
               | Some (mnt, dentry) => walk n fuel s mnt dentry (skip rest)
               end
      end
  end.

(** The current directory: dentry and mount. *)
Definition cwd_of (s : vfs) : Z * Z :=
  let p := current_process (v_sched s) in
  if negb (p =? 0) && negb (get (v_sched s) p cwd =? 0) then
    (get (v_sched s) p cwd, if negb (get (v_sched s) p cwd_mnt =? 0) then get (v_sched s) p cwd_mnt else root_mnt s)
  else (root_dentry s, root_mnt s).

(** The result is the pair [nd] of a mount and a dentry, [None] inside for -1. *)
Definition path_walk (fuel : nat) (s : vfs) (name : str) : option (vfs * option (Z * Z)) :=
  match name with
  | c :: rest =>
      if c =? slash then walk (length name) fuel s (root_mnt s) (root_dentry s) rest
      else let '(d, m) := cwd_of s in walk (length name) fuel s m d name
  | [] => let '(d, m) := cwd_of s in Some (s, Some (m, d))
  end.


(** The part of a path before its last slash and the part behind it. *)
Fixpoint split_last (path : str) : option (str * str) :=
  match path with
  | [] => None
  | c :: r => match split_last r with
              | Some (a, b) => Some (c :: a, b)
              | None => if c =? slash then Some ([], r) else None
              end
  end.

(** The directory a path leads to, and the name in it. *)
Definition vfs_resolve_parent (fuel : nat) (s : vfs) (path : str) : option (vfs * option (Z * str)) :=
  '(s, r) ←
    match split_last path with
    | None => Some (s, Some (fst (cwd_of s), path))
    | Some ([], name) => Some (s, Some (root_dentry s, name))
    | Some (dir, name) =>
        '(h, p_path) ← a_alloc (v_heap s) (Z.of_nat (length dir) + 1);
        let s := with_heap s h in
        if p_path =? 0 then Some (s, None)
        else
          '(s, r) ← path_walk fuel (with_str s p_path dir) dir;
          h ← a_free (v_heap s) p_path;
          Some (with_heap s h, Some (match r with Some (_, d) => d | None => 0 end, name))
    end;
  match r with
  | Some (parent, name) => if (parent =? 0) || (vget s parent d_inode =? 0) then Some (s, None) else Some (s, Some (parent, name))
  | None => Some (s, None)
  end.

(** ** Descriptors *)

Definition fd_get (s : vfs) (i : Z) : Z := get (v_sched s) (current_process (v_sched s)) (fd_table i).
Definition fd_set (s : vfs) (i v : Z) : vfs := with_sched s (set (v_sched s) (current_process (v_sched s)) (fd_table i) v).
Definition first_free (s : vfs) : option Z := List.find (fun i => fd_get s i =? 0) (seqZ 0 MAX_FILES).
Definition open_count (s : vfs) : Z := Z.of_nat (length (List.filter (fun i => negb (fd_get s i =? 0)) (seqZ 0 MAX_FILES))).

(** The file of a descriptor, 0 if there is none. *)
Definition file_of (s : vfs) (fd : Z) : Z := if (fd <? 0) || (MAX_FILES <=? fd) then 0 else fd_get s fd.

(** The dentry to open: found, or made when [O_CREAT] is given; on the left the
    value [vfs_open] returns at once. *)
Definition open_dentry (fuel : nat) (s : vfs) (path : str) (flags mode : Z) : option (vfs * (Z + Z)) :=
  '(s, r) ← path_walk fuel s path;
  match r with
  | None =>
      if has flags O_CREAT then
        '(s, r) ← vfs_resolve_parent fuel s path;
        match r with
        | None => Some (s, inl (-1))
        | Some (parent, name) =>
            '(s, dentry) ← alloc_dentry s parent name;
            if dentry =? 0 then Some (s, inl (-1))
            else match iops_of s parent with
                 | Some (IOps (Some cr) _ _ _ _ _ _) =>
                     '(s, err) ← cr s (vget s parent d_inode) dentry mode;
                     Some (s, if negb (err =? 0) then inl err else inr dentry)
                 | _ => Some (s, inl (-1))
                 end
        end
      else Some (s, inl (-1))
  | Some (_, dentry) =>
      deref dentry
        (if vget s dentry d_inode =? 0 then
           if has flags O_CREAT then
             let parent := vget s dentry d_parent in
             if parent =? 0 then Some (s, inl (-1))
             else match iops_of s parent with
                  | Some (IOps (Some cr) _ _ _ _ _ _) =>
                      '(s, err) ← cr s (vget s parent d_inode) dentry mode;
                      Some (s, if negb (err =? 0) then inl err else if vget s dentry d_inode =? 0 then inl (-1) else inr dentry)
                  | _ => Some (s, inl (-1))
                  end
           else Some (s, inl (-1))
         else if has flags O_CREAT && has flags O_EXCL then Some (s, inl (-1))
         else if S_ISDIR (vget s (vget s dentry d_inode) i_mode) && (has flags O_WRONLY || has flags O_RDWR) then Some (s, inl (-1))
         else Some (s, inr dentry))
  end.

(** A file for the dentry, in the first free descriptor. *)
Definition open_file (s : vfs) (dentry flags mode : Z) : option (vfs * Z) :=
  let inode := vget s dentry d_inode in
  '(h, f) ← a_alloc (v_heap s) sizeof_file;
  let s := with_heap s h in
  if f =? 0 then Some (s, -1)
  else
    let s := clear s f [f_list f] in
    let s := vset s f f_dentry dentry in
    let s := vset s f f_op (vget s inode i_fop) in
    let s := vset s f f_mode (u32 mode) in
    let s := vset s f f_flags (u32 flags) in
    let s := vset s f f_count 1 in
    let s := vset s f f_pos 0 in
    '(s, err) ← (if negb (vget s f f_op =? 0) then
                   match open (fops (vget s f f_op)) with Some op => op s inode f | None => Some (s, 0) end
                 else Some (s, 0));
    if negb (err =? 0) then h ← a_free (v_heap s) f; Some (with_heap s h, err)
    else match first_free s with
         | Some i => Some (fd_set s i f, i)
         | None => h ← a_free (v_heap s) f; Some (with_heap s h, -1)
         end.

Definition vfs_open (fuel : nat) (s : vfs) (path : str) (flags mode : Z) : option (vfs * Z) :=
  if MAX_FILES <=? open_count s then Some (s, -1)
  else
    '(s, r) ← open_dentry fuel s path flags mode;
    match r with
    | inl err => Some (s, err)
    | inr dentry =>
        if (dentry =? 0) || (vget s dentry d_inode =? 0) then Some (s, -1)
        else if S_ISDIR (vget s (vget s dentry d_inode) i_mode) && negb (has flags O_DIRECTORY) && negb (has flags O_RDONLY)
        then Some (s, -1)
        else open_file s dentry flags mode
    end.

Definition vfs_close (s : vfs) (fd : Z) : option (vfs * Z) :=
  let f := file_of s fd in
  if f =? 0 then Some (s, -1)
  else
    let s := fd_set s fd 0 in
    s ← (if negb (vget s f f_op =? 0) then
           match release (fops (vget s f f_op)) with
           | Some op => deref (vget s f f_dentry) (fst <$> op s (vget s (vget s f f_dentry) d_inode) f)
           | None => Some s
           end
         else Some s);
    let s := vset s f f_count (s32 (vget s f f_count - 1)) in
    if vget s f f_count <=? 0 then h ← a_free (v_heap s) f; Some (with_heap s h, 0) else Some (s, 0).

Definition vfs_read (s : vfs) (fd buf count : Z) : option (vfs * Z) :=
  let f := file_of s fd in
  if f =? 0 then Some (s, -1)
  else if vget s f f_op =? 0 then Some (s, -1)
  else match read (fops (vget s f f_op)) with Some op => op s f buf count | None => Some (s, -1) end.

Definition vfs_write (s : vfs) (fd buf count : Z) : option (vfs * Z) :=
  let f := file_of s fd in
  if f =? 0 then Some (s, -1)
  else if vget s f f_op =? 0 then Some (s, -1)
  else match write (fops (vget s f f_op)) with Some op => op s f buf count | None => Some (s, -1) end.

(** The new position, in [int] arithmetic; [None] inside for an unknown
    [whence]. *)
Definition seek_pos (s : vfs) (f offset whence : Z) : option (option Z) :=
  if whence =? SEEK_SET then Some (Some offset)
  else if whence =? SEEK_CUR then Some (Some (s32 (s32 (vget s f f_pos) + offset)))
  else if whence =? SEEK_END then
    deref (vget s f f_dentry) (Some (Some (s32 (vget s (vget s (vget s f f_dentry) d_inode) i_size + offset))))
  else Some None.

Definition vfs_lseek (s : vfs) (fd offset whence : Z) : option (vfs * Z) :=
  let f := file_of s fd in
  if f =? 0 then Some (s, -1)
  else
    r ← seek_pos s f offset whence;
    match r with
    | None => Some (s, -1)
    | Some new_pos =>
        if new_pos <? 0 then Some (s, -1)
        else
          let s := vset s f f_pos new_pos in
          if vget s f f_op =? 0 then Some (s, new_pos)
          else match llseek (fops (vget s f f_op)) with
               | Some op => '(s, r) ← op s f offset whence; Some (s, s32 r)
               | None => Some (s, new_pos)
               end
    end.

Definition vfs_dup (s : vfs) (oldfd : Z) : option (vfs * Z) :=
  let f := file_of s oldfd in
  if f =? 0 then Some (s, -1)
  else match first_free s with
       | Some i => Some (fd_set (vset s f f_count (s32 (vget s f f_count + 1))) i f, i)
       | None => Some (s, -1)
       end.

Definition vfs_readdir (s : vfs) (fd dirp count : Z) : option (vfs * Z) :=
  let f := file_of s fd in
  if f =? 0 then Some (s, -1)
  else
    deref (vget s f f_dentry)
      (if negb (S_ISDIR (vget s (vget s (vget s f f_dentry) d_inode) i_mode)) then Some (s, -1)
       else if vget s f f_op =? 0 then Some (s, -1)
       else match readdir (fops (vget s f f_op)) with Some op => op s f dirp count | None => Some (s, -1) end).

(** ** Directories *)

(** The two buffers on the stack have fixed sizes and are not checked. *)
Definition vfs_mknod (fuel : nat) (s : vfs) (path : str) (mode dev : Z) : option (vfs * Z) :=
  match split_last path with
  | None => Some (s, -1)
  | Some (dir, name) =>
      if (MAX_PATH_LEN <=? Z.of_nat (length dir)) || (MAX_FILENAME_LEN <=? Z.of_nat (length name)) then None
      else
        '(s, r) ← path_walk fuel s (match dir with [] => [slash] | _ => dir end);
        match r with
        | None => Some (s, -1)
        | Some (_, d_par) =>
            if (d_par =? 0) || (vget s d_par d_inode =? 0) then Some (s, -1)
            else match iops_of s d_par with
                 | Some (IOps _ _ _ _ _ (Some mk) _) =>
                     '(s, d_chi) ← alloc_dentry s d_par name;
                     if d_chi =? 0 then Some (s, -1) else mk s (vget s d_par d_inode) d_chi mode dev
                 | _ => Some (s, -1)
                 end
        end
  end.

Definition vfs_mkdir (fuel : nat) (s : vfs) (path : str) (mode : Z) : option (vfs * Z) :=
  '(s, r) ← vfs_resolve_parent fuel s path;
  match r with
  | None => Some (s, -1)
  | Some (parent, name) =>
      '(s, dentry) ← alloc_dentry s parent name;
      if dentry =? 0 then Some (s, -1)
      else match iops_of s parent with
           | Some (IOps _ _ _ (Some mk) _ _ _) => mk s (vget s parent d_inode) dentry mode
           | _ => Some (s, -1)
           end
  end.

Definition vfs_chdir (fuel : nat) (s : vfs) (path : str) : option (vfs * Z) :=
  '(s, r) ← path_walk fuel s path;
  match r with
  | None => Some (s, -1)
  | Some (mnt, dentry) =>
      if (dentry =? 0) || (vget s dentry d_inode =? 0) then Some (s, -1)
      else if negb (S_ISDIR (vget s (vget s dentry d_inode) i_mode)) then Some (s, -1)
      else
        let p := current_process (v_sched s) in
        if negb (p =? 0) then Some (with_sched s (set (set (v_sched s) p cwd dentry) p cwd_mnt mnt), 0) else Some (s, 0)
  end.

Definition vfs_init (s : vfs) : vfs := for_up (Z.to_nat DENTRY_HASH_SIZE) 0 (fun i s => init_list s (bucket i)) s.

Definition vfs_lookup (fuel : nat) (s : vfs) (path : str) : option (vfs * Z) :=
  '(s, r) ← path_walk fuel s path; Some (s, match r with Some (_, d) => d | None => 0 end).

(** The structure at [stat_buf]; [1 << i_blkbits] is an [int] shift. *)
Definition fill_stat (s : vfs) (inode ks : Z) : option vfs :=
  let g := vget s inode in
  if 31 <=? g i_blkbits then None
  else
    let m := store64 (v_mem s) ks (g i_ino) in
    let m := store32 m (ks + 8) (g i_mode) in
    let m := store32 m (ks + 12) (g i_nlink) in
    let m := store32 m (ks + 16) (g i_uid) in
    let m := store32 m (ks + 20) (g i_gid) in
    let m := store64 m (ks + 24) (g i_size) in
    let m := store64 m (ks + 32) (g i_atime) in
    let m := store64 m (ks + 40) (g i_mtime) in
    let m := store64 m (ks + 48) (g i_ctime) in
    let m := store64 m (ks + 56) (g i_blocks) in
    let m := store32 m (ks + 64) (1 .<< g i_blkbits) in
    Some (with_mem s m).

Definition vfs_stat (fuel : nat) (s : vfs) (path : str) (stat_buf : Z) : option (vfs * Z) :=
  if stat_buf =? 0 then Some (s, -1)
  else
    '(s, dentry) ← vfs_lookup fuel s path;
    if (dentry =? 0) || (vget s dentry d_inode =? 0) then Some (s, -1)
    else s ← fill_stat s (vget s dentry d_inode) stat_buf; Some (s, 0).

(** The dentry of a name: cached, or made and looked up by the file system; 0
    without memory. *)
Definition name_dentry (fuel : nat) (s : vfs) (ops : inode_operations) (parent : Z) (name : str) : option (vfs * Z) :=
  '(s, dentry) ← d_lookup fuel s parent name;
  if negb (dentry =? 0) then Some (s, dentry)
  else
    '(s, dentry) ← alloc_dentry s parent name;
    if dentry =? 0 then Some (s, 0)
    else match lookup ops with
         | Some look => '(s, res) ← look s (vget s parent d_inode) dentry; Some (s, if negb (res =? 0) then res else dentry)
         | None => Some (s, dentry)
         end.

Definition vfs_unlink (fuel : nat) (s : vfs) (path : str) : option (vfs * Z) :=
  '(s, r) ← vfs_resolve_parent fuel s path;
  match r with
  | None => Some (s, -1)
  | Some (parent, name) =>
      match iops_of s parent with
      | Some (IOps _ _ (Some un) _ _ _ _ as ops) =>
          '(s, dentry) ← name_dentry fuel s ops parent name;
          if (dentry =? 0) || (vget s dentry d_inode =? 0) then Some (s, -1)
          else un s (vget s parent d_inode) dentry
      | _ => Some (s, -1)
      end
  end.

Definition vfs_rmdir (fuel : nat) (s : vfs) (path : str) : option (vfs * Z) :=
  '(s, r) ← vfs_resolve_parent fuel s path;
  match r with
  | None => Some (s, -1)
  | Some (parent, name) =>
      match iops_of s parent with
      | Some (IOps _ _ _ _ (Some rm) _ _ as ops) =>
          '(s, dentry) ← name_dentry fuel s ops parent name;
          if (dentry =? 0) || (vget s dentry d_inode =? 0) then Some (s, -1)
          else if negb (S_ISDIR (vget s (vget s dentry d_inode) i_mode)) then Some (s, -1)
          else rm s (vget s parent d_inode) dentry
      | _ => Some (s, -1)
      end
  end.

(** The dentries of [vfs_rename] are not checked for null; the file system is
    asked about a null dentry as well. *)
Definition rename_dentry (fuel : nat) (s : vfs) (parent : Z) (name : str) : option (vfs * Z) :=
  '(s, dentry) ← d_lookup fuel s parent name;
  if negb (dentry =? 0) then Some (s, dentry)
  else
    '(s, dentry) ← alloc_dentry s parent name;
    ops ← iops_of s parent;
    match lookup ops with
    | Some look => '(s, res) ← look s (vget s parent d_inode) dentry; Some (s, if negb (res =? 0) then res else dentry)
    | None => Some (s, dentry)
    end.

Definition vfs_rename (fuel : nat) (s : vfs) (oldpath newpath : str) : option (vfs * Z) :=
  '(s, r1) ← vfs_resolve_parent fuel s oldpath;
  match r1 with
  | None => Some (s, -1)
  | Some (old_parent, old_name) =>
      '(s, r2) ← vfs_resolve_parent fuel s newpath;
      match r2 with
      | None => Some (s, -1)
      | Some (new_parent, new_name) =>
          match iops_of s old_parent with
          | Some (IOps _ _ _ _ _ _ (Some ren)) =>
              if negb (vget s old_parent d_sb =? vget s new_parent d_sb) then Some (s, -1)
              else
                '(s, old_dentry) ← rename_dentry fuel s old_parent old_name;
                deref old_dentry
                  (if vget s old_dentry d_inode =? 0 then Some (s, -1)
                   else
                     '(s, new_dentry) ← rename_dentry fuel s new_parent new_name;
                     ren s (vget s old_parent d_inode) old_dentry (vget s new_parent d_inode) new_dentry)
          | _ => Some (s, -1)
          end
      end
  end.

(** ** The current directory *)

(** [memcpy] from a string. *)
Fixpoint put_chars (m : mem) (a : Z) (l : str) : mem :=
  match l with [] => m | c :: r => put_chars (store8 m a c) (a + 1) r end.

(** The loop that writes the path from its end: where it starts, [None] when it
    does not fit, and memory. *)
Definition getcwd_step (s : vfs) (temp : Z) : Z * Z * mem -> (Z * Z * mem) + (option Z * mem) :=
  fun '(dentry, pos, m) =>
    if (dentry =? root_dentry s) || (dentry =? vget s dentry d_parent) then inr (Some pos, m)
    else
      let len := s32 (vget s dentry d_len) in
      if pos - len - 1 <? 0 then inr (None, m)
      else
        let pos := pos - len in
        let m := put_chars m (temp + pos) (take (Z.to_nat len) (v_str s (vget s dentry d_name))) in
        let pos := pos - 1 in
        inl (vget s dentry d_parent, pos, store8 m (temp + pos) slash).

Definition vfs_getcwd (fuel : nat) (s : vfs) (buf size : Z) : option (vfs * Z) :=
  if (buf =? 0) || (size <=? 0) then Some (s, -1)
  else
    let dentry := fst (cwd_of s) in
    if dentry =? 0 then Some (s, -1)
    else
      '(h, temp) ← a_alloc (v_heap s) size;
      let s := with_heap s h in
      if temp =? 0 then Some (s, -1)
      else
        let m := store8 (v_mem s) (temp + (size - 1)) 0 in
        if dentry =? root_dentry s then
          h ← a_free (v_heap s) temp;
          Some (with_heap (with_mem s (store8 (store8 m buf slash) (buf + 1) 0)) h, 0)
        else
          '(r, m) ← loop fuel (getcwd_step s temp) (dentry, size - 1, m);
          match r with
          | None => h ← a_free (v_heap s) temp; Some (with_heap (with_mem s m) h, -1)
          | Some pos =>
              m ← strcpy fuel m buf (temp + pos);
              h ← a_free (v_heap s) temp;
              Some (with_heap (with_mem s m) h, 0)
          end.

End ops.
End static.

(** ** The cache of dentries *)

Section cache.
Context (dentry_hashtable : Z).
#[local] Notation bucket := (bucket dentry_hashtable).
#[local] Notation d_lookup := (d_lookup dentry_hashtable).
#[local] Notation d_add := (d_add dentry_hashtable).
#[local] Notation vfs_init := (vfs_init dentry_hashtable).

(** Bucket [h] has the dentries [D h], each under the hash of its parent and
    name. *)
Definition dcache_ok (s : vfs) (D : Z -> list Z) : Prop :=
  forall h, 0 <= h < DENTRY_HASH_SIZE ->
    dlist (v_links s) (bucket h) (d_hash_node <$> D h) /\
    Forall (fun d => d <> 0 /\ vget s d d_hashval = h /\ d_hash (vget s d d_parent) (v_str s (vget s d d_name)) = h) (D h).

Definition names (s : vfs) (parent : Z) (name : str) (d : Z) : bool :=
  (vget s d d_parent =? parent) && bool_decide (v_str s (vget s d d_name) = name).

(** The child of [parent] called [name]: the one entered last, 0 if none is
    cached. *)
Definition child (s : vfs) (D : Z -> list Z) (parent : Z) (name : str) : Z :=
  default 0 (List.find (names s parent name) (D (d_hash parent name))).

Lemma d_hash_range parent name : 0 <= d_hash parent name < DENTRY_HASH_SIZE.
Proof. unfold d_hash, DENTRY_HASH_SIZE. cbv zeta. apply Z.mod_pos_bound. lia. Qed.

Lemma is_child_names s parent name d : is_child s parent name (d_hash_node d) = names s parent name d.
Proof. unfold is_child, names, d_hash_node. by replace (d + 24 - 24) with d by lia. Qed.

Lemma find_first {B : Type} (p : B -> bool) (l : list B) :
  List.find p l = None /\ Forall (fun x => p x = false) l \/
  exists l1 x l2, l = l1 ++ x :: l2 /\ Forall (fun x => p x = false) l1 /\ p x = true /\ List.find p l = Some x.
Proof.
  induction l as [|y l IH]; simpl; [by left|]. destruct (p y) eqn:E; [right; by exists [], y, l|].
  destruct IH as [[-> IH]|(l1 & x & l2 & -> & H1 & H2 & ->)]; [left; by split; [|constructor]|].
  right. exists (y :: l1), x, l2. by split_and!; [|constructor| |].
Qed.

Lemma d_lookup_spec fuel s D parent name :
  dcache_ok s D -> (length (D (d_hash parent name)) < fuel)%nat ->
  let c := child s D parent name in
  d_lookup fuel s parent name = Some (if c =? 0 then s else vset s c d_count (u32 (vget s c d_count + 1)), c).
Proof.
  intros Hd Hf c. destruct (Hd _ (d_hash_range parent name)) as [Hl Hall]. unfold d_lookup.
  set (h := d_hash parent name) in *. unfold c, child. fold h.
  destruct (find_first (names s parent name) (D h)) as [[-> Hn]|(l1 & x & l2 & E & Hn & Hx & ->)].
  - rewrite (list_find_dlist _ _ (d_hash_node <$> D h) []); [|by rewrite app_nil_r| |done|by rewrite length_fmap].
    + cbn [mbind option_bind after]. change (after (bucket h) []) with (bucket h). by rewrite Z.eqb_refl.
    + apply Forall_fmap. eapply Forall_impl; [exact Hn|]. intros d Hdd. cbn. by rewrite is_child_names.
  - rewrite E in *. rewrite fmap_app, fmap_cons in Hl. apply Forall_app in Hall as [_ Hall]. apply Forall_cons in Hall as [[Hx0 _] _].
    rewrite (list_find_dlist _ _ (d_hash_node <$> l1) (d_hash_node x :: (d_hash_node <$> l2))); [|done| |by rewrite is_child_names|].
    + cbn [mbind option_bind]. change (after (bucket h) (d_hash_node x :: _)) with (d_hash_node x).
      destruct Hl as [_ Hnd]. apply NoDup_cons in Hnd as [Hh _].
      rewrite (proj2 (Z.eqb_neq (d_hash_node x) (bucket h))) by (intros Ec; apply Hh; rewrite <- Ec; apply elem_of_app; right; left).
      cbn [from_option]. unfold id. rewrite (proj2 (Z.eqb_neq x 0)) by done. by replace (d_hash_node x - 24) with x by (unfold d_hash_node; lia).
    + apply Forall_fmap. eapply Forall_impl; [exact Hn|]. intros d Hdd. cbn. by rewrite is_child_names.
    + rewrite length_fmap. rewrite length_app in Hf. lia.
Qed.

(** States that differ in reference counts of dentries only. *)
Definition counted (s s' : vfs) : Prop :=
  exists t, s' = with_st s t /\ forall x f, f <> d_count -> t x f = v_st s x f.

Lemma counted_refl s : counted s s.
Proof. exists (v_st s). by destruct s. Qed.
Lemma counted_trans s1 s2 s3 : counted s1 s2 -> counted s2 s3 -> counted s1 s3.
Proof. intros (t & -> & Ht) (u & -> & Hu). exists u. split; [done|]. intros x f Hf. rewrite Hu by done. by apply Ht. Qed.
Lemma counted_step s d n : counted s (vset s d d_count n).
Proof. eexists. split; [done|]. intros x f Hf. by apply wr_other; right. Qed.

Lemma counted_names s s' parent name d : counted s s' -> names s' parent name d = names s parent name d.
Proof. intros (t & -> & Ht). unfold names, vget. simpl. by rewrite !Ht. Qed.

Lemma counted_child s s' D parent name : counted s s' -> child s' D parent name = child s D parent name.
Proof.
  intros Hc. unfold child. f_equal. induction (D (d_hash parent name)) as [|d l IH]; [done|]. simpl.
  rewrite (counted_names s s') by done. by rewrite IH.
Qed.

Lemma counted_dcache s s' D : counted s s' -> dcache_ok s D -> dcache_ok s' D.
Proof.
  intros (t & -> & Ht) Hd h Hh. destruct (Hd h Hh) as [H1 H2]. split; [done|]. eapply Forall_impl; [exact H2|].
  intros d (? & ? & ?). unfold vget in *. simpl. by rewrite !Ht.
Qed.

(** ** Components of a path *)

(** The non-empty pieces between slashes. *)
Fixpoint pieces (cur path : str) : list str :=
  match path with
  | [] => [cur]
  | c :: r => if c =? slash then cur :: pieces [] r else pieces (cur ++ [c]) r
  end.
Definition nonempty (l : str) : bool := match l with [] => false | _ => true end.
Definition components (path : str) : list str := List.filter nonempty (pieces [] path).

Lemma component_pieces name cur :
  let '(comp, rest) := component name in
  pieces cur name = (cur ++ comp) :: match rest with [] => [] | _ :: r => pieces [] r end /\
  (length comp + length rest = length name)%nat /\ (comp = [] -> name <> [] -> exists c, rest = slash :: c).
Proof.
  revert cur. induction name as [|c name IH]; intros cur; simpl; [by rewrite app_nil_r|].
  destruct (Z.eqb_spec c slash) as [->|Hc]; simpl; [rewrite app_nil_r; split; [done|]; split; [done|eauto]|].
  specialize (IH (cur ++ [c])). destruct (component name) as [a b]. destruct IH as (-> & <- & _).
  rewrite <- app_assoc. split_and!; done.
Qed.

Lemma components_skip name comp rest :
  component name = (comp, rest) -> name <> [] ->
  components name = match comp with [] => components (skip rest) | _ => comp :: components (skip rest) end /\
  (length (skip rest) < length name)%nat.
Proof.
  intros E Hne. pose proof (component_pieces name []) as Hp. rewrite E in Hp. destruct Hp as (Hp & Hl & Hs).
  split; [|destruct comp as [|c comp]; [destruct (Hs eq_refl Hne) as [r ->]; simpl in *; lia|destruct rest; simpl in *; lia]].
  unfold components. rewrite Hp. destruct rest as [|c r]; [|by destruct comp].
  destruct comp as [|c comp]; [|done]. destruct (Hs eq_refl Hne) as [? ?]. done.
Qed.

(** ** Resolution in the tree of cached dentries *)

Definition resolve1 (s : vfs) (D : Z -> list Z) (d : Z) (comp : str) : option Z :=
  if bool_decide (comp = dot) then Some d
  else if bool_decide (comp = dotdot) then
    Some (if negb (d =? root_dentry s) && negb (vget s d d_parent =? 0) then vget s d d_parent else d)
  else if child s D d comp =? 0 then None else Some (child s D d comp).

Fixpoint resolve (s : vfs) (D : Z -> list Z) (d : Z) (comps : list str) : option Z :=
  match comps with
  | [] => Some d
  | c :: r => d ← resolve1 s D d c; resolve s D d r
  end.

Lemma counted_resolve s s' D d comps : counted s s' -> resolve s' D d comps = resolve s D d comps.
Proof.
  intros Hc. revert d. induction comps as [|c r IH]; intros d; [done|]. simpl. unfold resolve1.
  rewrite (counted_child s s') by done. destruct Hc as (t & -> & Ht). unfold vget. simpl. rewrite !Ht by done.
  change (root_dentry (with_st s t)) with (root_dentry s).
  repeat case_match; simplify_eq; try done; cbn [mbind option_bind]; apply IH.
Qed.

(** ** The path of the current directory *)

(** The dentries from a child of the root to [d], each the parent of the next. *)
Fixpoint lineage (s : vfs) (up : Z) (l : list Z) : Prop :=
  match l with
  | [] => True
  | d :: r => vget s d d_parent = up /\ d <> root_dentry s /\ d <> up /\ lineage s d r
  end.

Definition dname (s : vfs) (d : Z) : str := v_str s (vget s d d_name).
Definition path_of (s : vfs) (l : list Z) : str := l ≫= (fun d => slash :: dname s d).

(** A name as a component of a path. *)
Definition name_ok (s : vfs) (d : Z) : Prop :=
  let n := dname s d in
  n <> [] /\ n <> dot /\ n <> dotdot /\ (length n < 256)%nat /\ Forall (fun c => 0 < c < 256 /\ c <> slash) n /\
  vget s d d_len = Z.of_nat (length n).

Lemma put_chars_frame m a l x : x < a \/ a + Z.of_nat (length l) <= x -> put_chars m a l x = m x.
Proof.
  revert m a. induction l as [|c l IH]; intros m a Hx; [done|]. cbn [put_chars length] in *. rewrite IH by lia. apply store8_other. lia.
Qed.

Lemma put_chars_cstr m a l r :
  Forall (fun c => 0 < c < 256) l -> cstr m (a + Z.of_nat (length l)) r -> cstr (put_chars m a l) a (l ++ r).
Proof.
  revert m a. induction l as [|c l IH]; intros m a Hc Hr; [by rewrite Z.add_0_r in Hr|].
  apply Forall_cons in Hc as [Hc Hl]. cbn [put_chars app]. split.
  - rewrite put_chars_frame by lia. rewrite store8_same. cbn beta in Hc; rewrite u8_small by lia; done.
  - split; [done|]. apply IH; [done|]. apply (cstr_ext m); [|by replace (a + 1 + Z.of_nat (length l)) with (a + Z.of_nat (length (c :: l))) by (simpl; lia)].
    intros x Hx. rewrite store8_other; [done|lia].
Qed.

Lemma cstr_cons m a c r : 0 < c < 256 -> cstr m (a + 1) r -> cstr (store8 m a c) a (c :: r).
Proof. intros Hc Hr. apply (put_chars_cstr m a [c] r); [by constructor|exact Hr]. Qed.

Lemma path_of_app s l1 l2 : path_of s (l1 ++ l2) = path_of s l1 ++ path_of s l2.
Proof. apply bind_app. Qed.

Lemma last_default (x up : Z) l : List.last (x :: l) up = List.last l x.
Proof.
  revert x up. induction l as [|y l IH]; intros x up; [done|].
  change (List.last (x :: y :: l) up) with (List.last (y :: l) up). by rewrite (IH y up), (IH y x).
Qed.

Lemma lineage_last s up l d : lineage s up (l ++ [d]) -> vget s d d_parent = List.last l up /\ d <> root_dentry s /\ d <> List.last l up.
Proof.
  revert up. induction l as [|x l IH]; intros up; [simpl; tauto|]. intros (_ & _ & _ & H'). apply IH in H'.
  by rewrite last_default.
Qed.

Lemma lineage_init s up l1 l2 : lineage s up (l1 ++ l2) -> lineage s up l1.
Proof. revert up. induction l1 as [|x l1 IH]; intros up; [done|]. simpl. intuition eauto. Qed.

(** The loop writes the path behind [pos]. *)
Lemma getcwd_loop s temp top l1 : forall l2 m fuel,
  lineage s (root_dentry s) (l1 ++ l2) -> Forall (name_ok s) (l1 ++ l2) ->
  Z.of_nat (length (path_of s (l1 ++ l2))) <= top < 2 ^ 31 -> (length l1 < fuel)%nat ->
  cstr m (temp + (top - Z.of_nat (length (path_of s l2)))) (path_of s l2) ->
  exists m', loop fuel (getcwd_step s temp) (List.last l1 (root_dentry s), top - Z.of_nat (length (path_of s l2)), m) =
      Some (Some (top - Z.of_nat (length (path_of s (l1 ++ l2)))), m') /\
    cstr m' (temp + (top - Z.of_nat (length (path_of s (l1 ++ l2))))) (path_of s (l1 ++ l2)) /\
    forall x, x < temp \/ temp + top <= x -> m' x = m x.
Proof.
  induction l1 as [|d l1 IH] using rev_ind; intros l2 m fuel Hl Hn Ht Hf Hm; (destruct fuel as [|fuel]; [lia|]); cbn [loop]; unfold getcwd_step at 1.
  - rewrite Z.eqb_refl. exists m. done.
  - rewrite List.last_last. pose proof (lineage_init _ _ _ _ Hl) as Hl1. destruct (lineage_last s _ l1 d Hl1) as (Hp & Hr & Hu).
    apply Forall_app in Hn as [Hn1 Hn2]. apply Forall_app in Hn1 as [Hn1 Hd]. pose proof (proj1 (Forall_singleton _ _) Hd) as Hd'.
    unfold name_ok in Hd'; cbv zeta in Hd'; destruct Hd' as (N1 & N2 & N3 & N4 & N5 & N6).
    rewrite (proj2 (Z.eqb_neq _ _) Hr), Hp, (proj2 (Z.eqb_neq _ _) Hu). cbn [orb]. rewrite N6.
    rewrite <- app_assoc in *. cbn [app] in *.
    rewrite !path_of_app in *. change (path_of s (d :: l2)) with ((slash :: dname s d) ++ path_of s l2) in *.
    rewrite !length_app in *. cbn [length] in *. rewrite s32_small by lia. rewrite (proj2 (Z.ltb_ge _ _)) by lia.
    rewrite Nat2Z.id. fold (dname s d). rewrite take_ge by lia.
    set (pos := top - Z.of_nat (length (path_of s l2))) in *.
    set (m1 := put_chars m (temp + (pos - Z.of_nat (length (dname s d)))) (dname s d)).
    assert (cstr m1 (temp + (pos - Z.of_nat (length (dname s d)))) (dname s d ++ path_of s l2)) as Hm1.
    { apply put_chars_cstr; [eapply Forall_impl; [exact N5|]; simpl; tauto|]. by replace (temp + _ + _) with (temp + pos) by lia. }
    set (p2 := pos - Z.of_nat (length (dname s d)) - 1).
    destruct (IH (d :: l2) (store8 m1 (temp + p2) slash) fuel) as (m' & Hloop & Hm' & Hfr).
    + done.
    + apply Forall_app. by split; [|constructor].
    + rewrite path_of_app. change (path_of s (d :: l2)) with ((slash :: dname s d) ++ path_of s l2). rewrite !length_app. simpl. lia.
    + lia.
    + change (path_of s (d :: l2)) with ((slash :: dname s d) ++ path_of s l2). rewrite !length_app. cbn [length app].
      replace (top - Z.of_nat (S (length (dname s d)) + length (path_of s l2))) with p2 by lia.
      apply cstr_cons; [unfold slash; lia|]. by replace (temp + p2 + 1) with (temp + (pos - Z.of_nat (length (dname s d)))) by lia.
    + change (path_of s (d :: l2)) with ((slash :: dname s d) ++ path_of s l2) in *. rewrite !path_of_app, !length_app in *.
      change (path_of s (d :: l2)) with ((slash :: dname s d) ++ path_of s l2) in *. rewrite !length_app in *. cbn [length] in *.
      replace (top - Z.of_nat (S (length (dname s d)) + length (path_of s l2))) with p2 in Hloop by lia.
      exists m'. split; [exact Hloop|]. split; [exact Hm'|]. intros x Hx. rewrite Hfr by done.
      rewrite store8_other by lia. apply put_chars_frame. lia.
Qed.


(** Each dentry of the line is the cached child of the one before. *)
Fixpoint cached (s : vfs) (D : Z -> list Z) (up : Z) (l : list Z) : Prop :=
  match l with
  | [] => True
  | d :: r => d <> 0 /\ child s D up (dname s d) = d /\ cached s D d r
  end.

Lemma pieces_name cur n r : Forall (fun c => 0 < c < 256 /\ c <> slash) n -> pieces cur (n ++ r) = pieces (cur ++ n) r.
Proof.
  revert cur. induction n as [|c n IH]; intros cur Hn; simpl; [by rewrite app_nil_r|]. apply Forall_cons in Hn as [[_ Hc] Hn].
  rewrite (proj2 (Z.eqb_neq _ _) Hc), IH by done. by rewrite <- app_assoc.
Qed.

Lemma pieces_path s l cur :
  Forall (name_ok s) l ->
  List.filter nonempty (pieces cur (path_of s l)) = (if nonempty cur then [cur] else []) ++ (dname s <$> l).
Proof.
  revert cur. induction l as [|d l IH]; intros cur Hl; [by destruct cur|]. apply Forall_cons in Hl as [(N1 & _ & _ & _ & N5 & _) Hl].
  change (path_of s (d :: l)) with (slash :: dname s d ++ path_of s l). cbn [pieces]. change (slash =? slash) with true. cbv iota.
  rewrite pieces_name by exact N5. cbn [app List.filter].
  destruct (nonempty cur); rewrite IH by done; cbn [app fmap list_fmap]; by destruct (dname s d).
Qed.

Lemma components_path s l : Forall (name_ok s) l -> components (path_of s l) = dname s <$> l.
Proof. intros Hl. unfold components. by rewrite pieces_path. Qed.

Lemma resolve_line s D up l :
  Forall (name_ok s) l -> cached s D up l -> resolve s D up (dname s <$> l) = Some (List.last l up).
Proof.
  revert up. induction l as [|d l IH]; intros up Hn Hc; [done|]. apply Forall_cons in Hn as [(_ & N2 & N3 & _) Hn].
  destruct Hc as (Hd & Hch & Hc). cbn [fmap list_fmap resolve]. unfold resolve1.
  rewrite !bool_decide_eq_false_2 by done. rewrite Hch, (proj2 (Z.eqb_neq d 0)) by done. cbn [mbind option_bind].
  rewrite last_default. by apply IH.
Qed.

(** Trees with the same fields and names have the same lines. *)
Definition same_tree (s s' : vfs) : Prop :=
  v_st s' = v_st s /\ v_str s' = v_str s /\ root_dentry s' = root_dentry s.

Lemma lineage_same s s' up l : same_tree s s' -> lineage s up l -> lineage s' up l.
Proof.
  intros (E1 & _ & E3). revert up. induction l as [|d l IH]; intros up; [done|]. simpl. unfold vget. rewrite E1, E3. intuition eauto.
Qed.

Lemma cached_same s s' D up l : same_tree s s' -> cached s D up l -> cached s' D up l.
Proof.
  intros (E1 & E2 & _). revert up. induction l as [|d l IH]; intros up; [done|]. simpl.
  unfold child, names, dname, vget. rewrite E1, E2. intuition eauto.
Qed.

Lemma strcpy_more f1 f2 m d a m' : strcpy f1 m d a = Some m' -> (f1 <= f2)%nat -> strcpy f2 m d a = Some m'.
Proof. unfold strcpy. apply loop_more. Qed.

(** ** Walking *)

Section walk.
Context (vfsmount_list : Z) (iops : Z -> inode_operations).
#[local] Notation follow_mount := (follow_mount vfsmount_list).
#[local] Notation lookup_mnt := (lookup_mnt vfsmount_list).
#[local] Notation follow_step := (follow_step vfsmount_list).
#[local] Notation walk_component := (walk_component dentry_hashtable vfsmount_list iops).
#[local] Notation walk := (walk dentry_hashtable vfsmount_list iops).
#[local] Notation path_walk := (path_walk dentry_hashtable vfsmount_list iops).

(** Nothing is mounted in the tree, which is all the kernel sets up. *)
Definition no_mounts (s : vfs) : Prop := dlist (v_links s) vfsmount_list [].

Lemma follow_none fuel s mnt d : no_mounts s -> (0 < fuel)%nat -> follow_mount fuel s mnt d = Some (mnt, d).
Proof.
  intros Hn Hf. unfold follow_mount. destruct fuel as [|fuel]; [lia|]. cbn [loop]. unfold follow_step, lookup_mnt.
  rewrite (list_find_dlist _ _ [] []); [|exact Hn|done|done|simpl; lia]. cbn [mbind option_bind]. change (after vfsmount_list []) with vfsmount_list.
  by rewrite Z.eqb_refl.
Qed.

Definition cache_fuel (D : Z -> list Z) (fuel : nat) : Prop := forall h, (length (D h) < fuel)%nat.

Lemma walk_component_hit fuel s D mnt d comp e :
  dcache_ok s D -> no_mounts s -> cache_fuel D fuel -> resolve1 s D d comp = Some e ->
  exists s', walk_component fuel s mnt d comp = Some (s', Some (mnt, e)) /\ counted s s'.
Proof.
  intros Hd Hn Hf. unfold resolve1, walk_component. case_bool_decide; [intros [= <-]; exists s; split; [done|apply counted_refl]|].
  case_bool_decide; [intros [= <-]; exists s; split; [by case_match|apply counted_refl]|].
  pose proof (d_lookup_spec fuel s D d comp Hd (Hf _)) as Hl. cbv zeta in Hl. rewrite Hl. cbn [mbind option_bind].
  destruct (Z.eqb_spec (child s D d comp) 0) as [E|E]; [done|]. intros [= <-]. cbn [negb].
  rewrite follow_none; [|exact Hn|specialize (Hf 0); lia]. cbn [mbind option_bind]. eexists. split; [done|]. apply counted_step.
Qed.

Lemma walk_resolves n fuel s D mnt d name e :
  dcache_ok s D -> no_mounts s -> cache_fuel D fuel -> (length name <= n)%nat ->
  Forall (fun c => (length c < 256)%nat) (components name) -> resolve s D d (components name) = Some e ->
  exists s', walk n fuel s mnt d name = Some (s', Some (mnt, e)) /\ counted s s'.
Proof.
  intros Hd Hn Hf. revert s d name Hd Hn. induction n as [|n IH]; intros s d name Hd Hn Hlen Hc Hr.
  - destruct name; [|simpl in Hlen; lia]. simpl in Hr. simplify_eq. exists s. split; [done|apply counted_refl].
  - destruct name as [|c0 name0] eqn:En; [simpl in Hr; simplify_eq; exists s; split; [done|apply counted_refl]|]. rewrite <- En in *.
    assert (name <> []) as Hne by (by rewrite En). destruct (component name) as [comp rest] eqn:Ec.
    destruct (components_skip name comp rest Ec Hne) as [Es Hl]. rewrite Es in Hc, Hr.
    assert (walk (S n) fuel s mnt d name = match comp with
      | [] => walk n fuel s mnt d (skip rest)
      | _ => if 256 <=? Z.of_nat (length comp) then Some (s, None)
             else '(s, r) ← walk_component fuel s mnt d comp;
                  match r with None => Some (s, None) | Some (mnt, dentry) => walk n fuel s mnt dentry (skip rest) end end) as ->.
    { rewrite En in Ec |- *. cbn [walk]. rewrite Ec. done. }
    destruct comp as [|c comp]; [apply IH; try done; lia|]. apply Forall_cons in Hc as [Hc1 Hc2].
    rewrite (proj2 (Z.leb_gt _ _)) by lia. simpl in Hr. destruct (resolve1 s D d (c :: comp)) as [d'|] eqn:E1; [|done]. cbn [mbind option_bind] in Hr.
    destruct (walk_component_hit fuel s D mnt d (c :: comp) d' Hd Hn Hf E1) as (s1 & -> & Hs1). cbn [mbind option_bind].
    destruct (IH s1 d' (skip rest)) as (s2 & Hw & Hs2); [by apply (counted_dcache s)|by destruct Hs1 as (t & -> & _)|lia|done| |].
    + rewrite (counted_resolve s s1) by done. exact Hr.
    + exists s2. split; [exact Hw|]. by apply (counted_trans s s1).
Qed.


Definition start_of (s : vfs) (path : str) : Z * Z :=
  match path with c :: _ => if c =? slash then (root_dentry s, root_mnt s) else cwd_of s | [] => cwd_of s end.

Lemma components_slash path : components (slash :: path) = components path.
Proof. done. Qed.

Lemma path_walk_found fuel s D path e :
  dcache_ok s D -> no_mounts s -> cache_fuel D fuel -> Forall (fun c => (length c < 256)%nat) (components path) ->
  resolve s D (fst (start_of s path)) (components path) = Some e ->
  exists s', path_walk fuel s path = Some (s', Some (snd (start_of s path), e)) /\ counted s s'.
Proof.
  intros Hd Hn Hf Hc Hr. unfold path_walk. destruct path as [|c rest].
  - simpl in *. simplify_eq. exists s. destruct (cwd_of s). split; [done|apply counted_refl].
  - unfold start_of in *. destruct (Z.eqb_spec c slash) as [->|Hs].
    + rewrite components_slash in *. apply (walk_resolves _ fuel s D); try done. simpl. lia.
    + destruct (cwd_of s) as [d m]. by apply (walk_resolves _ fuel s D).
Qed.

(** C12: [path_walk] resolves every path whose components are cached: it returns
    0 with the dentry that following the components in the tree of cached
    dentries leads to ([.], [..] and repeated slashes included), from the root
    or the current directory, and changes nothing but reference counts. *)
Theorem path_walk_resolves fuel s D path e :
  dcache_ok s D -> no_mounts s -> cache_fuel D fuel -> Forall (fun c => (length c < 256)%nat) (components path) ->
  resolve s D (fst (start_of s path)) (components path) = Some e ->
  exists s', path_walk fuel s path = Some (s', Some (snd (start_of s path), e)) /\
    v_links s' = v_links s /\ v_mem s' = v_mem s /\ v_heap s' = v_heap s /\ v_sched s' = v_sched s /\
    forall x f, f <> d_count -> vget s' x f = vget s x f.
Proof.
  intros Hd Hn Hf Hc Hr. destruct (path_walk_found fuel s D path e Hd Hn Hf Hc Hr) as (s' & Hw & t & -> & Ht).
  exists (with_st s t). split; [exact Hw|]. split_and!; done.
Qed.

(** C13: [vfs_getcwd] and [path_walk] are inverse: below the root, with room in
    the buffer, [vfs_getcwd] writes the absolute path of the current directory
    (the names on the way from the root, each behind a slash) as a terminated
    string, touching no memory but the buffer and its own scratch block, which it
    frees; and walking that path leads back to the current directory.  It returns
    -1, and changes nothing, exactly when the heap has no room for the scratch
    block. *)
Theorem getcwd_roundtrip fuel s D l buf size :
  let path := path_of s l in
  dcache_ok s D -> no_mounts s -> cache_fuel D fuel -> a_wf (v_heap s) -> buf <> 0 ->
  lineage s (root_dentry s) l -> Forall (name_ok s) l -> cached s D (root_dentry s) l ->
  l <> [] -> fst (cwd_of s) = List.last l (root_dentry s) ->
  Z.of_nat (length path) < size < 2 ^ 31 -> (length path + length l + 1 < fuel)%nat ->
  (forall h p t, a_alloc (v_heap s) size = Some (h, p) -> a_live h p t -> buf + size <= p \/ p + t <= buf) ->
  exists s' r, vfs_getcwd fuel s buf size = Some (s', r) /\ (forall p t, a_live (v_heap s') p t <-> a_live (v_heap s) p t) /\
    (no_room (v_heap s) size /\ r = -1 /\ v_mem s' = v_mem s \/
     ~ no_room (v_heap s) size /\ r = 0 /\ cstr (v_mem s') buf path /\
       (forall p t x, a_live (v_heap s) p t -> p <= x < p + t -> ~ buf <= x < buf + size -> v_mem s' x = v_mem s x) /\
       exists s'', path_walk fuel s' path = Some (s'', Some (root_mnt s, List.last l (root_dentry s)))).
Proof.
  intros path Hd Hnm Hf Hwf Hb Hlin Hn Hc Hl Hcwd Hsz Hfu Hap. unfold vfs_getcwd.
  rewrite (proj2 (Z.eqb_neq buf 0)), (proj2 (Z.leb_gt size 0)) by lia. cbn [orb]. rewrite Hcwd.
  assert (exists l' d, l = l' ++ [d]) as (l' & d & El) by (destruct l as [|d l' _] using rev_ind; [done|eauto]).
  assert (List.last l (root_dentry s) = d) as Ed by (rewrite El; apply List.last_last). rewrite Ed.
  assert (d <> root_dentry s) as Hdr by (rewrite El in Hlin; apply (lineage_last s _ l' d Hlin)).
  assert (d <> 0) as Hd0.
  { clear -Hc El. revert Hc. subst l. generalize (root_dentry s). induction l' as [|x l' IH]; intros up; simpl; [tauto|]. intros (_ & _ & Hc). by apply IH in Hc. }
  rewrite (proj2 (Z.eqb_neq d 0)) by done.
  destruct (a_alloc_spec (v_heap s) size Hwf) as (h & temp & Ha & Hwf1 & Ht); [lia|]. rewrite Ha. cbn [mbind option_bind].
  destruct Ht as [[-> Hl1]|(t & Hts & Hfr & Hl1)].
  { change (0 =? 0) with true. cbv iota. eexists _, _. split; [done|]. split; [exact Hl1|]. left. split; [by exists h|done]. }
  assert (a_live h temp t) as Hlt by (apply Hl1; by left). pose proof (a_live_pos _ _ _ Hwf1 Hlt).
  pose proof (Hap h temp t Ha Hlt) as Hbt. rewrite (proj2 (Z.eqb_neq temp 0)) by lia.
  change (root_dentry (with_heap s h)) with (root_dentry s). rewrite (proj2 (Z.eqb_neq _ _) Hdr).
  set (m := store8 _ _ 0). set (s1 := with_heap s h).
  destruct (getcwd_loop s1 temp (size - 1) l [] m fuel) as (m1 & Hloop & Hm1 & Hfr1);
    [rewrite app_nil_r; by apply (lineage_same s)|rewrite app_nil_r; exact Hn|rewrite app_nil_r; change (path_of s1 l) with path; lia|lia| |].
  { change (path_of s1 []) with (@nil Z). simpl. rewrite Z.sub_0_r. unfold m. by rewrite store8_same. }
  rewrite app_nil_r in *. change (path_of s1 l) with path in *. change (path_of s1 []) with (@nil Z) in Hloop.
  change (root_dentry s1) with (root_dentry s) in Hloop. rewrite Ed in Hloop. cbn [length] in Hloop. rewrite Z.sub_0_r in Hloop.
  rewrite Hloop. cbn [mbind option_bind]. set (pos := size - 1 - Z.of_nat (length path)) in *.
  destruct (strcpy_spec m1 buf (temp + pos) path Hm1) as (m2 & Hcpy & Hm2 & Hfr2); [unfold pos; lia|].
  rewrite (strcpy_more _ fuel _ _ _ _ Hcpy) by lia. cbn [mbind option_bind].
  destruct (a_free_spec h temp t Hwf1 Hlt) as (h2 & Hfree & Hwf2 & Hl2). change (v_heap s1) with h. rewrite Hfree. cbn [mbind option_bind].
  eexists _, 0. split; [done|]. split.
  { intros p u. change (a_live h2 p u <-> a_live (v_heap s) p u). rewrite Hl2, Hl1. split; [intros [[[-> _]|Hp] Hne]; [by destruct Hne|exact Hp]|]. intros Hp. split; [by right|].
    intros ->. by apply (Hfr u). }
  right. split; [rewrite (alloc_room _ _ _ _ Ha); lia|]. split; [done|]. split; [exact Hm2|]. split.
  - intros p u x Hp Hx Hnb. cbn [with_heap with_mem v_mem]. rewrite Hfr2 by lia.
    assert (x < temp \/ temp + t <= x) as Hxt.
    { destruct (a_live_disjoint h p u temp t Hwf1) as [[-> _]|[?|?]]; [apply Hl1; by right|done|exfalso; by apply (Hfr u)|lia..]. }
    rewrite Hfr1 by lia. unfold m. apply store8_other. lia.
  - set (s2 := with_heap _ h2).
    assert (exists c, path = slash :: c) as [c Ep] by (unfold path; destruct l; [done|]; eexists; done).
    destruct (path_walk_found fuel s2 D path d) as (s3 & Hw & _); [exact Hd|exact Hnm|exact Hf|..].
    + unfold path. rewrite components_path by done. apply Forall_fmap. eapply Forall_impl; [exact Hn|]. by intros x (_ & _ & _ & ? & _).
    + unfold path at 2. rewrite components_path by done. unfold start_of. rewrite Ep. change (slash =? slash) with true. cbv iota. cbn [fst].
      rewrite <- Ed. apply (resolve_line s2 D); [exact Hn|by apply (cached_same s)].
    + exists s3. rewrite Hw. unfold start_of. rewrite Ep. done.
Qed.

End walk.

(** ** Entering dentries *)

Definition in_table (x : Z) : Prop := exists h, 0 <= h < DENTRY_HASH_SIZE /\ x = bucket h.
Definition off_table (D : Z -> list Z) : Prop :=
  forall h d, 0 <= h < DENTRY_HASH_SIZE -> d ∈ D h -> ~ in_table (d_hash_node d).
(** The list nodes of the cache. *)
Definition cache_node (D : Z -> list Z) (x : Z) : Prop :=
  exists h, 0 <= h < DENTRY_HASH_SIZE /\ x ∈ bucket h :: (d_hash_node <$> D h).

Lemma bucket_inj h k : bucket h = bucket k -> h = k.
Proof. unfold bucket. lia. Qed.

(** Bucket [h] shares no node with another. *)
Lemma cache_disjoint s D h k x :
  dcache_ok s D -> off_table D -> 0 <= h < DENTRY_HASH_SIZE -> 0 <= k < DENTRY_HASH_SIZE ->
  x ∈ bucket h :: (d_hash_node <$> D h) -> x ∈ bucket k :: (d_hash_node <$> D k) -> h = k.
Proof.
  intros Hd Ho Hh Hk Hx Hy. apply elem_of_cons in Hx. apply elem_of_cons in Hy. rewrite list_elem_of_fmap in Hx, Hy.
  destruct Hx as [->|(d & -> & Hx)], Hy as [Hy|(e & Hy & He)].
  - by apply bucket_inj.
  - exfalso. apply (Ho k e Hk He). exists h. done.
  - exfalso. apply (Ho h d Hh Hx). exists k. done.
  - assert (d = e) as <- by (unfold d_hash_node in Hy; lia).
    destruct (Hd h Hh) as [_ H1], (Hd k Hk) as [_ H2]. rewrite Forall_forall in H1, H2.
    destruct (H1 d Hx) as (_ & <- & _), (H2 d He) as (_ & <- & _). done.
Qed.

(** Fields other than those of the cache may change, and so may other links. *)
Lemma dcache_frame s s' D :
  (forall x, cache_node D x -> v_links s' !! x = v_links s !! x) -> v_str s' = v_str s ->
  (forall x f, f <> d_inode -> vget s' x f = vget s x f) -> dcache_ok s D -> dcache_ok s' D.
Proof.
  intros Hl Hs Hv Hd h Hh. destruct (Hd h Hh) as [H1 H2]. split.
  - revert H1. apply dlist_ext. intros x Hx. apply Hl. by exists h.
  - eapply Forall_impl; [exact H2|]. intros d. cbn beta. by rewrite !Hv, Hs.
Qed.

Lemma dcache_push s D entry l' :
  let h := vget s entry d_hashval in
  dcache_ok s D -> off_table D -> entry <> 0 -> h = d_hash (vget s entry d_parent) (dname s entry) ->
  dlist l' (bucket h) (d_hash_node entry :: (d_hash_node <$> D h)) ->
  (forall x, x ∉ d_hash_node entry :: bucket h :: (d_hash_node <$> D h) -> l' !! x = v_links s !! x) ->
  ~ cache_node D (d_hash_node entry) -> dcache_ok (with_links s l') (fupd D h (entry :: D h)).
Proof.
  intros h Hd Ho He Hh Hl Hfr Hn k Hk. destruct (Hd k Hk) as [H1 H2]. unfold fupd. destruct (decide (k = h)) as [->|Hne].
  - split; [exact Hl|]. constructor; [|exact H2]. split; [done|]. by split; [|symmetry].
  - split; [|exact H2]. revert H1. apply dlist_ext. intros x Hx. apply Hfr. intros Hc. apply elem_of_cons in Hc as [->|Hc].
    + apply Hn. by exists k.
    + apply Hne. apply (cache_disjoint s D k h x); try done. rewrite Hh. apply d_hash_range.
Qed.

(** [d_add] enters a dentry under its parent and name and binds it to the
    inode: from then on the cache has this dentry as the child of that name, it
    keeps every other child, and [d_inode] is the inode given (a null inode
    makes a negative entry). *)
Theorem d_add_enters s D entry inode als :
  let h := vget s entry d_hashval in
  let D' := fupd D h (entry :: D h) in
  dcache_ok s D -> off_table D -> entry <> 0 -> h = d_hash (vget s entry d_parent) (dname s entry) ->
  is_Some (v_links s !! d_hash_node entry) -> ~ cache_node D (d_hash_node entry) -> ~ in_table (d_hash_node entry) ->
  (inode <> 0 -> dlist (v_links s) (i_dentry inode) als /\ is_Some (v_links s !! d_alias entry) /\
     d_alias entry ∉ i_dentry inode :: als /\
     forall x, x ∈ d_alias entry :: i_dentry inode :: als -> ~ cache_node D x /\ x <> d_hash_node entry) ->
  exists s', d_add s entry inode = Some s' /\ dcache_ok s' D' /\ off_table D' /\
    (forall parent name, child s' D' parent name = if names s parent name entry then entry else child s D parent name) /\
    vget s' entry d_inode = (if inode =? 0 then vget s entry d_inode else inode) /\
    (inode <> 0 -> dlist (v_links s') (i_dentry inode) (d_alias entry :: als)).
Proof.
  intros h D' Hd Ho He Hh Hs Hn Ht Hi. unfold d_add.
  assert (0 <= h < DENTRY_HASH_SIZE) as Hr by (rewrite Hh; apply d_hash_range).
  assert (exists s1, (if negb (inode =? 0) then s ← add_list s (d_alias entry) (i_dentry inode); Some (vset s entry d_inode inode)
                      else Some s) = Some s1 /\ dcache_ok s1 D /\ v_links s1 !! d_hash_node entry = v_links s !! d_hash_node entry /\
            vget s1 entry d_inode = (if inode =? 0 then vget s entry d_inode else inode) /\ v_str s1 = v_str s /\
            (forall x f, f <> d_inode -> vget s1 x f = vget s x f) /\
            (inode <> 0 -> dlist (v_links s1) (i_dentry inode) (d_alias entry :: als))) as (s1 & -> & Hd1 & Hl1 & Hi1 & Hst & Hf1 & Ha1).
  { destruct (Z.eqb_spec inode 0) as [->|Hne]; [exists s; split_and!; done|]. destruct (Hi Hne) as (Ha & Hp & Hna & Hx).
    destruct (list_add_dlist _ _ _ _ Ha Hp Hna) as (l' & Hadd & Hl' & Hfr). unfold add_list. rewrite Hadd. cbn [negb fmap option_fmap option_map mbind option_bind].
    eexists. split; [done|].
    assert (forall x f, f <> d_inode -> vget (vset (with_links s l') entry d_inode inode) x f = vget s x f) as Hf by
      (intros x f Hf; unfold vget, vset; simpl; by apply wr_other; right).
    split_and!; try done.
    - apply (dcache_frame s); try done. intros x Hc. apply Hfr. intros Hy. by destruct (Hx x Hy).
    - apply Hfr. intros Hy. destruct (Hx _ Hy) as [_ Hy']. done.
    - unfold vget, vset. simpl. by rewrite wr_same. }
  cbn [mbind option_bind]. rewrite Hf1 by done. fold h. unfold add_list.
  destruct (Hd1 h Hr) as [Hdl _].
  destruct (list_add_dlist _ _ _ (d_hash_node entry) Hdl) as (l2 & -> & Hl2 & Hfr2); [by rewrite Hl1|intros Hc; apply Hn; by exists h|].
  cbn [fmap option_fmap option_map]. exists (with_links s1 l2). split; [done|].
  assert (vget s1 entry d_hashval = h) as Eh by (by rewrite Hf1). split; [|split; [|split; [|split]]].
  - unfold D'. rewrite <- Eh. apply (dcache_push s1 D entry l2); try done; rewrite ?Eh; try done.
    unfold dname. by rewrite !Hf1, Hst.
  - intros k d Hk. unfold D', fupd. destruct (decide (k = h)) as [->|]; [|by apply Ho].
    intros Hx. apply elem_of_cons in Hx as [->|Hx]; [done|by apply (Ho h)].
  - intros parent name. unfold child. assert (forall d, names (with_links s1 l2) parent name d = names s parent name d) as Hnm.
    { intros d. unfold names. change (vget (with_links s1 l2)) with (vget s1). rewrite !Hf1 by done. change (v_str (with_links s1 l2)) with (v_str s1). by rewrite Hst. }
    assert (forall l, List.find (names (with_links s1 l2) parent name) l = List.find (names s parent name) l) as Hfind.
    { induction l as [|d l IH]; [done|]. simpl. by rewrite Hnm, IH. }
    rewrite Hfind. unfold D', fupd. destruct (decide (d_hash parent name = h)) as [E|Hne]; [rewrite E; simpl; by destruct (names s parent name entry)|].
    destruct (names s parent name entry) eqn:E; [|done]. exfalso. apply Hne. rewrite Hh. unfold names in E.
    apply andb_true_iff in E as [E1 E2]. apply Z.eqb_eq in E1 as <-. by apply bool_decide_eq_true in E2 as <-.
  - exact Hi1.
  - intros Hne. destruct (Hi Hne) as (_ & _ & _ & Hx). revert Ha1. intros Ha1. specialize (Ha1 Hne). revert Ha1. apply dlist_ext.
    intros x Hx'. apply Hfr2. assert (x ∈ d_alias entry :: i_dentry inode :: als) as Hin by set_solver.
    destruct (Hx x Hin) as [Hnc Hne']. intros Hc. apply elem_of_cons in Hc as [->|Hc]; [done|]. apply Hnc. by exists h.
Qed.

(** The table that [vfs_init] sets up. *)
Lemma vfs_init_links s x :
  v_links (vfs_init s) !! x =
    (if decide (dentry_hashtable <= x < bucket DENTRY_HASH_SIZE /\ (x - dentry_hashtable) mod 16 = 0)
     then Some (LH x x) else v_links s !! x).
Proof.
  unfold vfs_init.
  set (I := fun (i : Z) (t : vfs) => 0 <= i -> v_links t !! x =
    if decide (dentry_hashtable <= x < bucket i /\ (x - dentry_hashtable) mod 16 = 0) then Some (LH x x) else v_links s !! x).
  assert (I (0 + Z.of_nat (Z.to_nat DENTRY_HASH_SIZE)) (for_up (Z.to_nat DENTRY_HASH_SIZE) 0 (fun i s => init_list s (bucket i)) s)) as HI.
  { apply for_up_inv.
    - intros j t Hj Ht Hj'. unfold init_list, with_links, INIT_LIST_HEAD. cbn [v_links]. destruct (decide (x = bucket j)) as [->|Hne].
      + rewrite lookup_insert_eq, decide_True; [done|]. unfold bucket. split; [lia|]. replace (_ + 16 * j - _) with (j * 16) by lia. apply Z_mod_mult.
      + rewrite lookup_insert_ne by done. rewrite Ht by lia. apply decide_ext. unfold bucket in *. split; intros [Hx Hm]; (split; [|done]); [lia|].
        apply Z.div_exact in Hm; [|done]. lia.
    - intros _. rewrite decide_False; [done|]. unfold bucket. lia. }
  apply HI. lia.
Qed.

Lemma vfs_init_bucket s h : 0 <= h < DENTRY_HASH_SIZE -> v_links (vfs_init s) !! bucket h = Some (LH (bucket h) (bucket h)).
Proof.
  intros Hh. rewrite vfs_init_links, decide_True; [done|]. unfold bucket. split; [lia|].
  replace (_ + 16 * h - _) with (h * 16) by lia. by apply Z.mod_mul.
Qed.

Lemma vfs_init_cache s : dcache_ok (vfs_init s) (fun _ => []).
Proof.
  intros h Hh. split; [|constructor]. pose proof (vfs_init_bucket s h Hh) as E. revert E. generalize (v_links (vfs_init s)) (bucket h).
  intros st b E. split; [|apply NoDup_singleton]. simpl. unfold links, get_next, get_prev. by rewrite E.
Qed.

End cache.

(** ** Descriptors and reference counts *)

Section descriptors.
Context (fops : Z -> file_operations).
#[local] Notation open_file := (open_file fops).
#[local] Notation vfs_close := (vfs_close fops).
#[local] Notation vfs_lseek := (vfs_lseek fops).

Definition slots (s : vfs) (f : Z) : Z := holders (fd_get s) (seqZ 0 MAX_FILES) f.

Lemma fd_get_set s i v j : fd_get (fd_set s i v) j = fupd (fd_get s) i v j.
Proof.
  unfold fd_get, fd_set, fupd. simpl. unfold get, set. simpl. destruct (decide (j = i)) as [->|Hne]; [by rewrite wr_same|].
  apply wr_other. right. by intros [= ->].
Qed.

Lemma slots_set s i v f :
  0 <= i < MAX_FILES -> slots (fd_set s i v) f = slots s f - (if fd_get s i =? f then 1 else 0) + (if v =? f then 1 else 0).
Proof.
  intros Hi. unfold slots. rewrite (holders_ext _ _ _ _ (fd_get_set s i v)). apply holders_fupd; [apply NoDup_seqZ|]. apply elem_of_seqZ. lia.
Qed.

Lemma slots_range s f : 0 <= slots s f <= MAX_FILES.
Proof.
  unfold slots, holders. pose proof (List.filter_length_le (fun i => fd_get s i =? f) (seqZ 0 MAX_FILES)) as Hl.
  rewrite length_seqZ in Hl. unfold MAX_FILES in *. lia.
Qed.

Lemma slots_pos s i : 0 <= i < MAX_FILES -> 0 < slots s (fd_get s i).
Proof.
  intros Hi. unfold slots, holders. assert (i ∈ seqZ 0 MAX_FILES) as Hin by (apply elem_of_seqZ; lia).
  revert Hin. induction (seqZ 0 MAX_FILES) as [|x l IH]; intros Hin; [by apply elem_of_nil in Hin|]. simpl.
  apply elem_of_cons in Hin as [->|Hin]; [rewrite Z.eqb_refl; simpl; lia|]. specialize (IH Hin). destruct (_ =? _); simpl; lia.
Qed.

Lemma first_free_spec s :
  match first_free s with
  | Some i => 0 <= i < MAX_FILES /\ fd_get s i = 0 /\ forall j, 0 <= j < i -> fd_get s j <> 0
  | None => forall j, 0 <= j < MAX_FILES -> fd_get s j <> 0
  end.
Proof.
  unfold first_free. destruct (find_first (fun i => fd_get s i =? 0) (seqZ 0 MAX_FILES)) as [[-> Hn]|(l1 & x & l2 & E & Hn & Hx & ->)].
  - intros j Hj. rewrite Forall_forall in Hn. apply Z.eqb_neq, Hn, elem_of_seqZ. lia.
  - assert (0 <= x < MAX_FILES) as Hr by (cut (x ∈ seqZ 0 MAX_FILES); [rewrite elem_of_seqZ; lia|rewrite E; set_solver]).
    split; [done|]. split; [by apply Z.eqb_eq in Hx|]. intros j Hj. rewrite Forall_forall in Hn. apply Z.eqb_neq, Hn.
    assert (length l1 = Z.to_nat x) as Hlen.
    { assert (seqZ 0 MAX_FILES !! length l1 = Some x) as Hlk by (rewrite E; by apply list_lookup_middle). apply lookup_seqZ in Hlk. lia. }
    assert (seqZ 0 MAX_FILES !! Z.to_nat j = Some j) as Hlk by (apply lookup_seqZ; lia).
    rewrite E, lookup_app_l in Hlk by lia. by apply (list_elem_of_lookup_2 _ (Z.to_nat j)).
Qed.

(** The files of the table are live blocks, and the count of each is the number
    of descriptors that hold it plus the references [ext] from elsewhere (other
    processes). *)
Definition fd_inv (ext : Z -> Z) (s : vfs) : Prop :=
  a_wf (v_heap s) /\
  forall f, f <> 0 -> 0 <= ext f < 2 ^ 30 /\
    (0 < slots s f + ext f -> (exists t, sizeof_file <= t /\ a_live (v_heap s) f t) /\
       vget s f f_count = slots s f + ext f /\ vget s f f_dentry <> 0).

(** A file system's [open] or [release] leaves the descriptors, the heap and the
    counts of files alone. *)
Definition keeps_files (s s' : vfs) : Prop :=
  v_sched s' = v_sched s /\ v_heap s' = v_heap s /\
  forall f, vget s' f f_count = vget s f f_count /\ vget s' f f_dentry = vget s f f_dentry.
Definition file_hook (op : vfs -> Z -> Z -> option (vfs * Z)) : Prop :=
  forall s i f, exists s' r, op s i f = Some (s', r) /\ keeps_files s s'.
Definition file_hooks : Prop := forall a op, open (fops a) = Some op \/ release (fops a) = Some op -> file_hook op.

Lemma keeps_fd s s' : keeps_files s s' -> (forall i, fd_get s' i = fd_get s i) /\ forall f, slots s' f = slots s f.
Proof. intros (E & _). assert (forall i, fd_get s' i = fd_get s i) as Hg by (intros i; unfold fd_get; by rewrite E). split; [done|]. intros f. by apply holders_ext. Qed.

Lemma keeps_inv ext s s' : keeps_files s s' -> fd_inv ext s -> fd_inv ext s'.
Proof.
  intros Hk [Hwf Hi]. destruct (keeps_fd s s' Hk) as [_ Hs]. destruct Hk as (_ & E & Hc). split; [by rewrite E|].
  intros f Hf. destruct (Hc f) as [-> ->]. rewrite Hs, E. by apply Hi.
Qed.


Lemma fd_inv_live ext s i :
  fd_inv ext s -> 0 <= i < MAX_FILES -> fd_get s i <> 0 ->
  (exists t, sizeof_file <= t /\ a_live (v_heap s) (fd_get s i) t) /\
  vget s (fd_get s i) f_count = slots s (fd_get s i) + ext (fd_get s i) /\ vget s (fd_get s i) f_dentry <> 0.
Proof. intros [_ Hi] Hr Hf. destruct (Hi _ Hf) as [He Hl]. apply Hl. pose proof (slots_pos s i Hr). lia. Qed.

Lemma file_of_some s fd : file_of s fd <> 0 -> 0 <= fd < MAX_FILES /\ file_of s fd = fd_get s fd.
Proof. unfold file_of. destruct (Z.ltb_spec fd 0), (Z.leb_spec MAX_FILES fd); simpl; intros; try done; lia. Qed.

Lemma vset_count s f v x g : vget (vset s f f_count v) x g = if decide (x = f /\ g = f_count) then v else vget s x g.
Proof.
  unfold vget, vset. simpl. destruct (decide (x = f /\ g = f_count)) as [[-> ->]|Hn]; [by rewrite wr_same|].
  apply wr_other. destruct (decide (x = f)); [right; naive_solver|by left].
Qed.

Lemma vget_fd_set s i v x g : vget (fd_set s i v) x g = vget s x g.
Proof. done. Qed.
Lemma v_heap_fd_set s i v : v_heap (fd_set s i v) = v_heap s.
Proof. done. Qed.
Lemma v_heap_vset s a f v : v_heap (vset s a f v) = v_heap s.
Proof. done. Qed.
Lemma slots_vset s a f v x : slots (vset s a f v) x = slots s x.
Proof. by apply holders_ext. Qed.
Lemma slots_heap s h x : slots (with_heap s h) x = slots s x.
Proof. by apply holders_ext. Qed.
Lemma fd_get_vset s a f v i : fd_get (vset s a f v) i = fd_get s i.
Proof. done. Qed.

(** One more descriptor for a file, and one fewer. *)
Lemma dup_inv ext s fd i :
  fd_inv ext s -> file_of s fd <> 0 -> 0 <= i < MAX_FILES -> fd_get s i = 0 ->
  let f := file_of s fd in fd_inv ext (fd_set (vset s f f_count (s32 (vget s f f_count + 1))) i f).
Proof.
  intros Hi Hf Hr Hz f. destruct (file_of_some s fd Hf) as [Hfd Ef]. subst f. rewrite Ef in *.
  destruct (fd_inv_live _ _ _ Hi Hfd Hf) as (Hl & Hc & Hd). destruct Hi as [Hwf Hi]. split; [exact Hwf|].
  intros x Hx. destruct (Hi x Hx) as [He Hlx]. split; [done|]. rewrite slots_set by done.
  rewrite slots_vset, fd_get_vset, Hz, (proj2 (Z.eqb_neq 0 x)) by done. rewrite !vget_fd_set, v_heap_fd_set, v_heap_vset, !vset_count.
  destruct (Z.eqb_spec (fd_get s fd) x) as [<-|Hne].
  - intros _. split; [done|]. rewrite decide_True by done. rewrite decide_False by (intros [_ ?]; done). split; [|done].
    pose proof (slots_range s (fd_get s fd)). destruct (Hi _ Hx). rewrite s32_small; unfold MAX_FILES in *; lia.
  - intros Hp. rewrite !decide_False by (intros [? ?]; congruence). destruct Hlx as (? & -> & ?); [lia|]. split_and!; [done|lia|done].
Qed.

Lemma close_inv ext s fd s1 :
  fd_inv ext s -> 0 <= fd < MAX_FILES -> fd_get s fd <> 0 -> keeps_files (fd_set s fd 0) s1 ->
  let f := fd_get s fd in let s2 := vset s1 f f_count (s32 (vget s1 f f_count - 1)) in
  exists s', (if vget s2 f f_count <=? 0 then h ← a_free (v_heap s2) f; Some (with_heap s2 h, 0) else Some (s2, 0)) = Some (s', 0) /\
    fd_inv ext s' /\ (forall j, fd_get s' j = fupd (fd_get s) fd 0 j) /\
    ((exists t, a_live (v_heap s') f t) <-> 0 < slots s' f + ext f) /\
    forall q u, q <> f -> a_live (v_heap s') q u <-> a_live (v_heap s) q u.
Proof.
  intros Hi Hfd Hf Hk f s2. destruct (keeps_fd _ _ Hk) as [Hg1 Hs1]. destruct Hk as (_ & Eh & Ec).
  destruct (fd_inv_live _ _ _ Hi Hfd Hf) as ((t & Ht & Hl) & Hc & Hd). pose proof (slots_pos s fd Hfd) as Hpos. pose proof (slots_range s (fd_get s fd)) as Hrg.
  destruct Hi as [Hwf Hi]. destruct (Hi _ Hf) as [He _]. fold f in Hf, Hl, Hc, Hd, Hpos, Hrg, He.
  assert (forall x, slots s2 x = slots s x - (if f =? x then 1 else 0) + (if 0 =? x then 1 else 0)) as Hs2 by
    (intros x; unfold s2; rewrite slots_vset, Hs1; apply (slots_set s fd 0 x Hfd)).
  assert (vget s2 f f_count = slots s2 f + ext f) as Hc2.
  { unfold s2. rewrite vset_count, decide_True by done. fold s2. rewrite Hs2, Z.eqb_refl, (proj2 (Z.eqb_neq 0 f)) by done.
    destruct (Ec f) as [-> _]. rewrite vget_fd_set, s32_small; unfold MAX_FILES in *; lia. }
  assert (forall x, x <> 0 -> x <> f -> 0 < slots s2 x + ext x ->
            (exists t, sizeof_file <= t /\ a_live (v_heap s) x t) /\ vget s2 x f_count = slots s2 x + ext x /\ vget s2 x f_dentry <> 0) as Hoth.
  { intros x Hx Hxf Hp. unfold s2 at 1 3. rewrite !vset_count, !decide_False by (intros [? ?]; congruence). destruct (Ec x) as [-> ->]. rewrite !vget_fd_set.
    revert Hp. rewrite !Hs2, (proj2 (Z.eqb_neq f x)), (proj2 (Z.eqb_neq 0 x)) by done. intros Hp. destruct (Hi x Hx) as [_ Hlx].
    destruct Hlx as (? & ? & ?); [lia|]. split_and!; [done|lia|done]. }
  assert (forall j, fd_get s2 j = fupd (fd_get s) fd 0 j) as Hg by (intros j; unfold s2; rewrite fd_get_vset, Hg1; apply (fd_get_set s fd 0 j)).
  assert (v_heap s2 = v_heap s) as Eh2 by exact Eh. rewrite Eh2.
  destruct (Z.leb_spec (vget s2 f f_count) 0) as [Hle|Hgt].
  - destruct (a_free_spec _ _ _ Hwf Hl) as (h & -> & Hwf' & Hl'). cbn [mbind option_bind].
    eexists. split; [done|]. split; [|split; [exact Hg|]].
    + split; [exact Hwf'|]. intros x Hx. split; [by apply Hi|]. rewrite slots_heap. change (vget (with_heap s2 h)) with (vget s2).
      intros Hp. destruct (decide (x = f)) as [->|Hxf]; [lia|]. destruct (Hoth x Hx Hxf Hp) as ((u & ? & ?) & ? & ?).
      split; [|done]. exists u. split; [done|]. by apply Hl'.
    + rewrite slots_heap. split; [split; [|lia]; intros [u Hu]; by apply Hl' in Hu as [_ ?]|]. intros q u Hq.
      change (a_live h q u <-> a_live (v_heap s) q u). rewrite Hl'. tauto.
  - exists s2. split; [done|]. rewrite Eh2. split; [|split; [exact Hg|split; [split; [lia|by exists t]|done]]]. split; [by rewrite Eh2|].
    intros x Hx. split; [by apply Hi|]. intros Hp. rewrite Eh2.
    destruct (decide (x = f)) as [->|Hxf]; [|by apply Hoth]. split; [by exists t|]. split; [done|].
    unfold s2. rewrite vset_count, decide_False by (intros [? ?]; congruence). destruct (Ec f) as [_ ->]. exact Hd.
Qed.


Lemma fresh_inv ext s f t h s' :
  fd_inv ext s -> (forall t, ~ a_live (v_heap s) f t) -> a_wf h -> (forall q u, a_live h q u <-> (q = f /\ u = t) \/ a_live (v_heap s) q u) ->
  v_heap s' = h -> v_sched s' = v_sched s -> (forall x g, x <> f -> vget s' x g = vget s x g) ->
  f <> 0 -> fd_inv ext s' /\ slots s' f + ext f = 0 /\ forall x, slots s' x = slots s x.
Proof.
  intros [Hwf Hi] Hfr Hwf' Hl E1 E2 E3 Hf0. assert (forall x, slots s' x = slots s x) as Hs by (intros x; apply holders_ext; intros i; unfold fd_get; by rewrite E2).
  assert (slots s f + ext f = 0) as Hz.
  { destruct (Hi f Hf0) as [He Hlf]. pose proof (slots_range s f). destruct (Z.eq_dec (slots s f + ext f) 0) as [E|E]; [done|].
    destruct Hlf as ((u & _ & Hu) & _); [lia|]. by apply Hfr in Hu. }
  split; [|by rewrite Hs]. split; [by rewrite E1|]. intros x Hx. rewrite Hs. destruct (Hi x Hx) as [He Hlx]. split; [done|]. intros Hp.
  destruct (decide (x = f)) as [->|Hne]; [lia|]. destruct (Hlx Hp) as ((u & Hu & Hu') & Hc & Hd). rewrite !E3 by done.
  split; [|done]. exists u. split; [done|]. rewrite E1. apply Hl. by right.
Qed.

(** Storing a new file, whose count is 1, in a free descriptor. *)
Lemma store_inv ext s f i t :
  fd_inv ext s -> slots s f + ext f = 0 -> f <> 0 -> 0 <= i < MAX_FILES -> fd_get s i = 0 -> vget s f f_count = 1 ->
  vget s f f_dentry <> 0 -> a_live (v_heap s) f t -> sizeof_file <= t -> fd_inv ext (fd_set s i f).
Proof.
  intros [Hwf Hi] Hz Hf Hr Hg Hc Hd Hl Ht. split; [exact Hwf|]. intros x Hx. destruct (Hi x Hx) as [He Hlx]. split; [done|].
  rewrite slots_set by done. rewrite Hg, (proj2 (Z.eqb_neq 0 x)) by done. rewrite !vget_fd_set, v_heap_fd_set.
  destruct (Z.eqb_spec f x) as [<-|Hne]; intros Hp.
  - split; [by exists t|]. split; [lia|done].
  - destruct Hlx as (? & ? & ?); [lia|]. split; [done|]. split; [lia|done].
Qed.

Lemma free_inv ext s f t h :
  fd_inv ext s -> slots s f + ext f = 0 -> a_wf h -> (forall q u, a_live h q u <-> a_live (v_heap s) q u /\ q <> f) ->
  a_live (v_heap s) f t -> fd_inv ext (with_heap s h).
Proof.
  intros [Hwf Hi] Hz Hwf' Hl Hf. split; [exact Hwf'|]. intros x Hx. rewrite slots_heap. destruct (Hi x Hx) as [He Hlx]. split; [done|]. intros Hp.
  destruct (Hlx Hp) as ((u & ? & ?) & ?). split; [|done]. exists u. split; [done|]. apply Hl. split; [done|]. intros ->. lia.
Qed.

Lemma open_file_inv ext s dentry flags mode :
  fd_inv ext s -> file_hooks -> dentry <> 0 ->
  exists s' r, open_file s dentry flags mode = Some (s', r) /\ fd_inv ext s' /\
    ((forall j, fd_get s' j = fd_get s j) \/
     first_free s = Some r /\ exists f, (forall t, ~ a_live (v_heap s) f t) /\ vget s' f f_dentry = dentry /\
       forall j, fd_get s' j = fupd (fd_get s) r f j).
Proof.
  intros Hi Hh Hd. unfold open_file. pose proof Hi as [Hwf _].
  destruct (a_alloc_spec (v_heap s) sizeof_file Hwf) as (h & f & Ha & Hwf1 & Hf); [done|]. rewrite Ha. cbn [mbind option_bind].
  destruct Hf as [[-> Hl]|(t & Ht & Hfr & Hl)].
  { change (0 =? 0) with true. cbv iota. eexists _, _. split; [done|]. split; [|by left].
    destruct Hi as [_ Hi]. split; [exact Hwf1|]. intros x Hx. rewrite slots_heap. destruct (Hi x Hx) as [He Hlx]. split; [done|]. intros Hp.
    destruct (Hlx Hp) as ((u & ? & ?) & ?). split; [|done]. exists u. by rewrite Hl. }
  assert (a_live h f t) as Hlf by (apply Hl; by left). pose proof (a_live_pos _ _ _ Hwf1 Hlf). rewrite (proj2 (Z.eqb_neq f 0)) by lia.
  set (s1 := vset (vset _ _ _ _) f f_pos 0).
  assert (vget s1 f f_count = 1 /\ vget s1 f f_dentry = dentry) as [Hc1 Hd1].
  { unfold s1, vget, vset. simpl. split; repeat (rewrite wr_same || rewrite wr_other by (by right)); done. }
  assert (forall x g, x <> f -> vget s1 x g = vget s x g) as Hst1.
  { intros x g Hx. unfold s1, vget, vset. simpl. rewrite !wr_other by (by left). unfold clear. simpl. by rewrite decide_False. }
  destruct (fresh_inv ext s f t h s1 Hi Hfr Hwf1 Hl eq_refl eq_refl Hst1) as (Hi1 & Hz1 & Hs1); [lia|].
  assert (exists s2 err, (if negb (vget s1 f f_op =? 0) then
      match open (fops (vget s1 f f_op)) with Some op => op s1 (vget s dentry d_inode) f | None => Some (s1, 0) end
      else Some (s1, 0)) = Some (s2, err) /\ keeps_files s1 s2) as (s2 & err & -> & Hk).
  { assert (keeps_files s1 s1) by done. case_match; [|by eexists _, _]. destruct (open _) as [op|] eqn:Eo; [|by eexists _, _].
    apply (Hh _ op (or_introl Eo)). }
  cbn [mbind option_bind]. pose proof (keeps_inv ext s1 s2 Hk Hi1) as Hi2. destruct (keeps_fd s1 s2 Hk) as [Hg2 Hs2].
  destruct Hk as (Esc & Eh & Ec). destruct (Ec f) as [Ec1 Ec2].
  assert (a_live (v_heap s2) f t) as Hlf2 by (by rewrite Eh).
  assert (forall j, fd_get s2 j = fd_get s j) as Hg by (intros j; by rewrite Hg2). rewrite <- Hs2 in Hz1.
  destruct Hi2 as [Hwf2 Hi2']. destruct (a_free_spec _ _ _ Hwf2 Hlf2) as (h3 & Hfree & Hwf3 & Hl3).
  assert (fd_inv ext s2) as Hi2 by done.
  destruct (negb (err =? 0)).
  { rewrite Hfree. cbn [mbind option_bind]. eexists _, _. split; [done|]. split; [by apply (free_inv ext s2 f t)|by left]. }
  assert (first_free s2 = first_free s) as Eff.
  { unfold first_free. induction (seqZ 0 MAX_FILES) as [|x l IH]; [done|]. simpl. by rewrite Hg, IH. }
  pose proof (first_free_spec s) as Hff. rewrite Eff. destruct (first_free s) as [i|].
  - destruct Hff as (Hr & Hg0 & _). eexists _, _. split; [done|]. split; [|right; split; [done|]].
    + apply (store_inv ext s2 f i t); try done; [lia|by rewrite Hg|by rewrite Ec1|by rewrite Ec2, Hd1].
    + exists f. split; [done|]. split; [by rewrite vget_fd_set, Ec2|]. intros j. rewrite fd_get_set. unfold fupd. by rewrite Hg.
  - rewrite Hfree. cbn [mbind option_bind]. eexists _, _. split; [done|]. split; [by apply (free_inv ext s2 f t)|by left].
Qed.

Lemma vfs_close_spec ext s fd :
  fd_inv ext s -> file_hooks -> 0 <= fd < MAX_FILES -> fd_get s fd <> 0 ->
  let f := fd_get s fd in
  exists s', vfs_close s fd = Some (s', 0) /\ fd_inv ext s' /\ (forall j, fd_get s' j = fupd (fd_get s) fd 0 j) /\
    ((exists t, a_live (v_heap s') f t) <-> 0 < slots s' f + ext f) /\
    forall q u, q <> f -> a_live (v_heap s') q u <-> a_live (v_heap s) q u.
Proof.
  intros Hi Hh Hfd E f. unfold vfs_close. assert (file_of s fd = f) as ->.
  { unfold file_of. by rewrite (proj2 (Z.ltb_ge _ _)), (proj2 (Z.leb_gt _ _)) by lia. }
  rewrite (proj2 (Z.eqb_neq f 0)) by done. set (s1 := fd_set s fd 0). destruct (fd_inv_live _ _ _ Hi Hfd E) as (_ & _ & Hd). fold f in Hd.
  assert (exists s2, (if negb (vget s1 f f_op =? 0) then
     match release (fops (vget s1 f f_op)) with
     | Some op => deref (vget s1 f f_dentry) (fst <$> op s1 (vget s1 (vget s1 f f_dentry) d_inode) f) | None => Some s1 end
     else Some s1) = Some s2 /\ keeps_files s1 s2) as (s2 & -> & Hk).
  { assert (keeps_files s1 s1) by done. case_match; [|by eexists]. destruct (release _) as [op|] eqn:Eo; [|by eexists].
    unfold deref. change (vget s1 f f_dentry) with (vget s f f_dentry). rewrite (proj2 (Z.eqb_neq (vget s f f_dentry) 0) Hd).
    destruct (Hh _ op (or_intror Eo) s1 (vget s1 (vget s f f_dentry) d_inode) f) as (s2 & r & -> & Hk). by exists s2. }
  cbn [mbind option_bind]. destruct (close_inv ext s fd s2 Hi Hfd E Hk) as (s' & Hcl & Hrest). exists s'. split; [exact Hcl|exact Hrest].
Qed.

(** C14: the reference counts of open files are exact.  [vfs_open]'s last step,
    [vfs_dup] and [vfs_close] keep the invariant that every file in the
    descriptor table is a live block whose [f_count] is the number of references
    to it; a new descriptor is the lowest free one and the others keep their
    files; and [vfs_close] frees a file exactly when its last reference goes. *)
Theorem descriptor_refcounts ext s :
  fd_inv ext s -> file_hooks ->
  (forall dentry flags mode, dentry <> 0 -> exists s' r, open_file s dentry flags mode = Some (s', r) /\ fd_inv ext s' /\
     ((forall j, fd_get s' j = fd_get s j) \/
      first_free s = Some r /\ exists f, (forall t, ~ a_live (v_heap s) f t) /\ vget s' f f_dentry = dentry /\
        forall j, fd_get s' j = fupd (fd_get s) r f j)) /\
  (forall fd, exists s' r, vfs_dup s fd = Some (s', r) /\ fd_inv ext s' /\
     (r = -1 /\ s' = s /\ (file_of s fd = 0 \/ first_free s = None) \/
      first_free s = Some r /\ forall j, fd_get s' j = fupd (fd_get s) r (file_of s fd) j)) /\
  (forall fd, exists s' r, vfs_close s fd = Some (s', r) /\ fd_inv ext s' /\
     (r = -1 /\ s' = s /\ file_of s fd = 0 \/
      r = 0 /\ file_of s fd <> 0 /\ (forall j, fd_get s' j = fupd (fd_get s) fd 0 j) /\
        ((exists t, a_live (v_heap s') (file_of s fd) t) <-> 0 < slots s' (file_of s fd) + ext (file_of s fd)))) /\
  match first_free s with
  | Some i => 0 <= i < MAX_FILES /\ fd_get s i = 0 /\ forall j, 0 <= j < i -> fd_get s j <> 0
  | None => forall j, 0 <= j < MAX_FILES -> fd_get s j <> 0
  end.
Proof.
  intros Hi Hh. split; [|split; [|split]].
  - intros dentry flags mode Hd. by apply open_file_inv.
  - intros fd. unfold vfs_dup. destruct (Z.eqb_spec (file_of s fd) 0) as [E|E]; [eexists _, _; split; [done|]; split; [done|]; left; auto|].
    pose proof (first_free_spec s) as Hff. destruct (first_free s) as [i|] eqn:Ef; [|eexists _, _; split; [done|]; split; [done|]; left; auto].
    destruct Hff as (Hr & Hg & _). eexists _, _. split; [done|]. split; [by apply dup_inv|]. right. split; [done|]. intros j. by rewrite fd_get_set.
  - intros fd. destruct (Z.eq_dec (file_of s fd) 0) as [E|E].
    + unfold vfs_close. rewrite E. eexists _, _. split; [done|]. split; [done|]. left; auto.
    + destruct (file_of_some s fd E) as [Hfd Ef]. rewrite Ef in *. destruct (vfs_close_spec ext s fd Hi Hh Hfd E) as (s' & Hc & Hi' & Hg & Hl & _).
      eexists _, _. split; [done|]. split; [done|]. right. auto.
  - apply first_free_spec.
Qed.


(** ** Positions *)

Definition seek_base (s : vfs) (f whence : Z) : option Z :=
  if whence =? SEEK_SET then Some 0
  else if whence =? SEEK_CUR then Some (vget s f f_pos)
  else if whence =? SEEK_END then Some (vget s (vget s (vget s f f_dentry) d_inode) i_size)
  else None.

Lemma s32_inner x y : s32 (s32 x + y) = s32 (x + y).
Proof. unfold s32. f_equal. Z.div_mod_to_equations; lia. Qed.

Lemma seek_pos_spec s f offset whence :
  - 2 ^ 31 <= offset < 2 ^ 31 -> vget s f f_dentry <> 0 ->
  seek_pos s f offset whence = Some ((fun b => s32 (b + offset)) <$> seek_base s f whence).
Proof.
  intros Ho Hd. unfold seek_pos, seek_base, deref. rewrite (proj2 (Z.eqb_neq _ _) Hd).
  destruct (whence =? SEEK_SET); [simpl; by rewrite Z.add_0_l, s32_small|]. destruct (whence =? SEEK_CUR); [simpl; by rewrite s32_inner|].
  by destruct (whence =? SEEK_END).
Qed.

(** [vfs_lseek] keeps a position an [int] can hold: without an [llseek] of
    the file system it either returns -1 and changes nothing (no file, unknown
    [whence], or a negative sum in 32-bit arithmetic) or stores and returns the
    sum of the base and the offset, truncated to 32 bits and between 0 and
    [2^31 - 1]; it is exact whenever the sum is in that range. *)
Theorem vfs_lseek_bounds s fd offset whence :
  let f := file_of s fd in
  - 2 ^ 31 <= offset < 2 ^ 31 ->
  (f <> 0 -> vget s f f_dentry <> 0 /\ (vget s f f_op = 0 \/ llseek (fops (vget s f f_op)) = None)) ->
  exists s' r, vfs_lseek s fd offset whence = Some (s', r) /\
    (r = -1 /\ s' = s \/ 0 <= r < 2 ^ 31 /\ s' = vset s f f_pos r) /\
    (f = 0 -> r = -1) /\
    (f <> 0 -> match seek_base s f whence with
               | None => r = -1
               | Some b => r = (if s32 (b + offset) <? 0 then -1 else s32 (b + offset)) /\
                           (0 <= b + offset < 2 ^ 31 -> r = b + offset)
               end).
Proof.
  intros f Ho Hf. unfold vfs_lseek. fold f. destruct (Z.eqb_spec f 0) as [E|E].
  { eexists _, _. split; [done|]. split; [by left|]. split; [done|]. intros Hn. by destruct (Hn E). }
  destruct (Hf E) as [Hd Hop]. rewrite (seek_pos_spec _ _ _ _ Ho Hd). cbn [mbind option_bind].
  destruct (seek_base s f whence) as [b|]; cbn [fmap option_fmap option_map]; [|eexists _, _; split; [done|]; split; [by left|done]].
  destruct (Z.ltb_spec (s32 (b + offset)) 0) as [Hn|Hn].
  { eexists _, _. split; [done|]. split; [by left|]. split; [done|]. intros _. split; [done|]. intros Hb. rewrite s32_small in Hn; lia. }
  assert (s32 (b + offset) < 2 ^ 31) by (unfold s32; Z.div_mod_to_equations; lia).
  assert (vget (vset s f f_pos (s32 (b + offset))) f f_op = vget s f f_op) as -> by (unfold vget, vset; simpl; by apply wr_other; right).
  exists (vset s f f_pos (s32 (b + offset))), (s32 (b + offset)). split.
  { destruct Hop as [->| ->]; [done|]. by destruct (_ =? 0). }
  split; [right; split; [lia|done]|]. split; [done|]. intros _. split; [done|]. intros. apply s32_small. lia.
Qed.

End descriptors.
End vfs.

(** ** Examples *)

#[local] Existing Instance Heap.heap_allocator.

(** The root with the directory [a], which has the directory [b]; [b] is the
    current directory, and descriptor 0 is open on it.  The dentry [c] of the
    root is not entered yet. *)
Definition demo_table : Z := 0x100000.
Definition demo_mounts : Z := 0x110000.
Definition demo_root : Z := 0x200000.
Definition demo_a : Z := 0x200100.
Definition demo_b : Z := 0x200200.
Definition demo_c : Z := 0x200300.
Definition demo_inode : Z := 0x600000.
Definition demo_tree : Z -> list Z := fun h => if h =? 97 then [demo_a] else if h =? 354 then [demo_b] else [].
Definition demo_tiles : list (Z * bool) := [(88, false); (4096, true)].

Definition demo_fields : store vfld := fun x f =>
  match f with
  | d_parent => if (x =? demo_a) || (x =? demo_c) then demo_root else if x =? demo_b then demo_a else 0
  | d_name => if x =? demo_a then 0x300000 else if x =? demo_b then 0x300010 else if x =? demo_c then 0x300020 else 0
  | d_len => if (x =? demo_a) || (x =? demo_b) then 1 else 0
  | d_hashval => if x =? demo_a then 97 else if x =? demo_b then 354 else if x =? demo_c then 99 else 0
  | f_count => if x =? 0x1028 then 1 else 0
  | f_dentry => if x =? 0x1028 then demo_b else 0
  | _ => 0
  end.

Definition demo_proc : sched :=
  Sched.Sched (fun p f => if p =? 100 then match f with cwd => demo_b | fd_table i => if i =? 0 then 0x1028 else 0 | _ => 0 end else 0)
    (fun _ => 0) (fun _ => 0) 0 0 100 100 7 7.

Definition demo_vfs0 : vfs (A := Spinlock.cpu * Heap.heap) (R := unit) :=
  VS (list_to_map [(demo_mounts, LH demo_mounts demo_mounts); (demo_a + 24, LH (demo_table + 16 * 97) (demo_table + 16 * 97));
        (demo_b + 24, LH (demo_table + 16 * 354) (demo_table + 16 * 354)); (demo_c + 24, LH 0 0); (demo_c + 112, LH 0 0);
        (demo_inode + 48, LH (demo_inode + 48) (demo_inode + 48))])
     demo_fields (fun x => if x =? 0x300000 then [97] else if x =? 0x300010 then [98] else if x =? 0x300020 then [99] else []) (fun _ => 0)
     (Heap.demo_cpu, Heap.heap_of 0x1000 demo_tiles) demo_proc demo_root 0x400000 0 tt.

Definition demo_vfs : vfs (A := Spinlock.cpu * Heap.heap) (R := unit) :=
  with_links demo_vfs0
    (<[demo_table + 16 * 97 := LH (demo_a + 24) (demo_a + 24)]>
    (<[demo_table + 16 * 354 := LH (demo_b + 24) (demo_b + 24)]> (v_links (vfs_init demo_table demo_vfs0)))).

(** Off the table the links are as given. *)
Lemma demo_links x : 0x110000 <= x -> v_links demo_vfs !! x = v_links demo_vfs0 !! x.
Proof.
  intros Hx. unfold demo_vfs. change (v_links (with_links _ ?l)) with l.
  rewrite !lookup_insert_ne by (unfold demo_table; lia). rewrite vfs_init_links, decide_False; [done|].
  unfold bucket, demo_table, DENTRY_HASH_SIZE. lia.
Qed.

Lemma demo_bucket h :
  0 <= h < DENTRY_HASH_SIZE ->
  v_links demo_vfs !! bucket demo_table h =
    Some (if h =? 97 then LH (demo_a + 24) (demo_a + 24) else if h =? 354 then LH (demo_b + 24) (demo_b + 24)
          else LH (bucket demo_table h) (bucket demo_table h)).
Proof.
  intros Hh. unfold demo_vfs. change (v_links (with_links _ ?l)) with l.
  destruct (Z.eqb_spec h 97) as [->|H1]; [by rewrite lookup_insert_eq|]. rewrite lookup_insert_ne by (unfold bucket; lia).
  destruct (Z.eqb_spec h 354) as [->|H2]; [by rewrite lookup_insert_eq|]. rewrite lookup_insert_ne by (unfold bucket; lia).
  by apply vfs_init_bucket.
Qed.

Lemma demo_dcache : dcache_ok demo_table demo_vfs demo_tree.
Proof.
  intros h Hh. pose proof (demo_bucket h Hh) as E. pose proof (demo_links (demo_a + 24) ltac:(done)) as Ea. pose proof (demo_links (demo_b + 24) ltac:(done)) as Eb.
  unfold demo_tree. split.
  2: { destruct (Z.eqb_spec h 97) as [->|H1]; [|destruct (Z.eqb_spec h 354) as [->|H2]; [|constructor]];
       (constructor; [|constructor]; split; [discriminate|]; split; vm_compute; reflexivity). }
  revert E Ea Eb. generalize (v_links demo_vfs). intros st E Ea Eb. unfold dlist, d_hash_node.
  destruct (Z.eqb_spec h 97) as [->|H1]; [|destruct (Z.eqb_spec h 354) as [->|H2]].
  - split; [|apply (bool_decide_unpack _); by vm_compute]. simpl. unfold links, get_next, get_prev. rewrite E, Ea. done.
  - split; [|apply (bool_decide_unpack _); by vm_compute]. simpl. unfold links, get_next, get_prev. rewrite E, Eb. done.
  - split; [|apply NoDup_singleton]. simpl. unfold links, get_next, get_prev. by rewrite E.
Qed.

(** A ring of one node outside the table. *)
Lemma demo_ring x : 0x110000 <= x -> v_links demo_vfs0 !! x = Some (LH x x) -> dlist (v_links demo_vfs) x [].
Proof.
  intros Hx E. rewrite <- demo_links in E by done. revert E. generalize (v_links demo_vfs). intros st E.
  split; [|apply NoDup_singleton]. simpl. unfold links, get_next, get_prev. by rewrite E.
Qed.

Lemma demo_no_mounts : no_mounts demo_mounts demo_vfs.
Proof. by apply demo_ring. Qed.

Lemma vfs_demo_off x : x ∈ [demo_a; demo_b; demo_c] -> ~ in_table demo_table (d_hash_node x).
Proof. intros Hx (h & Hh & E). unfold bucket, d_hash_node, demo_table, DENTRY_HASH_SIZE in *. set_unfold in Hx. unfold demo_a, demo_b, demo_c in Hx. lia. Qed.

Lemma demo_cache_node x : cache_node demo_table demo_tree x -> x < 0x110000 \/ x = demo_a + 24 \/ x = demo_b + 24.
Proof.
  intros (h & Hh & Hx). unfold bucket, d_hash_node, demo_tree, demo_table, DENTRY_HASH_SIZE in *. apply elem_of_cons in Hx as [->|Hx]; [left; lia|].
  repeat case_match; set_unfold in Hx; naive_solver.
Qed.

Lemma demo_tree_fuel n : (1 < n)%nat -> cache_fuel demo_tree n.
Proof. intros Hn h. unfold demo_tree. repeat case_match; simpl; lia. Qed.

Lemma vfs_demo_tiles : Heap.tiles_ok 0x1000 demo_tiles.
Proof. split; [done|]. split; [by repeat constructor|done]. Qed.

Lemma demo_vfs_heap : a_wf (v_heap demo_vfs).
Proof. exists demo_tiles. apply Heap.heap_of_rep; [exact vfs_demo_tiles|done]. Qed.

(** [a//./b/../b], from the root. *)
Lemma path_walk_resolves_witness :
  exists s', path_walk demo_table demo_mounts (fun _ => no_iops) 2 demo_vfs [47; 97; 47; 47; 46; 47; 98; 47; 46; 46; 47; 98] =
      Some (s', Some (0x400000, demo_b)) /\ v_heap s' = v_heap demo_vfs.
Proof.
  destruct (path_walk_resolves demo_table demo_mounts (fun _ => no_iops) 2 demo_vfs demo_tree
    [47; 97; 47; 47; 46; 47; 98; 47; 46; 46; 47; 98] demo_b demo_dcache demo_no_mounts) as (s' & Hw & _ & _ & Hh & _).
  - apply demo_tree_fuel. lia.
  - vm_compute. repeat constructor.
  - vm_compute. reflexivity.
  - exists s'. split; [exact Hw|exact Hh].
Defined.


(** The path of [b] is [/a/b]. *)
Lemma getcwd_roundtrip_witness :
  path_of demo_vfs [demo_a; demo_b] = [47; 97; 47; 98] /\
  exists s' s'', vfs_getcwd 20 demo_vfs 0x500 64 = Some (s', 0) /\ cstr (v_mem s') 0x500 [47; 97; 47; 98] /\
    path_walk demo_table demo_mounts (fun _ => no_iops) 20 s' [47; 97; 47; 98] = Some (s'', Some (0x400000, demo_b)).
Proof.
  split; [vm_compute; reflexivity|].
  destruct (getcwd_roundtrip demo_table demo_mounts (fun _ => no_iops) 20 demo_vfs demo_tree [demo_a; demo_b] 0x500 64
    demo_dcache demo_no_mounts) as (s' & r & Hg & _ & Hr).
  - apply demo_tree_fuel. lia.
  - exact demo_vfs_heap.
  - lia.
  - vm_compute. repeat split; discriminate.
  - repeat constructor; vm_compute; first [discriminate | reflexivity | lia].
  - vm_compute. repeat split; discriminate.
  - discriminate.
  - reflexivity.
  - split; reflexivity.
  - vm_compute. lia.
  - intros h p t Ha _. left. assert (snd <$> a_alloc (v_heap demo_vfs) 64 = Some 0x10A8) as E by (vm_compute; reflexivity).
    rewrite Ha in E. injection E as ->. lia.
  - destruct Hr as [[Hno _]|(_ & -> & Hc & _ & s'' & Hw)].
    + by apply (has_room (v_heap demo_vfs) 64 0x10A8) in Hno.
    + exists s', s''. split; [exact Hg|]. split; [exact Hc|exact Hw].
Defined.

Lemma demo_slots f : f <> 0 -> slots demo_vfs f = if decide (f = 0x1028) then 1 else 0.
Proof.
  intros Hf. unfold slots. rewrite (holders_ext (fupd (fun _ => 0) 0 0x1028)).
  - rewrite holders_fupd, holders_zero; [|done|apply NoDup_seqZ|apply elem_of_seqZ; unfold MAX_FILES; lia].
    rewrite (proj2 (Z.eqb_neq 0 f)) by done. destruct (decide (f = 0x1028)) as [->|Hne]; [done|].
    rewrite (proj2 (Z.eqb_neq 0x1028 f)) by congruence. done.
  - intros i. unfold fd_get, fupd, get. cbn -[Z.eqb]. destruct (decide (i = 0)) as [->|Hne]; [done|].
    by rewrite (proj2 (Z.eqb_neq i 0)).
Qed.

Lemma demo_fd_inv : fd_inv (fun _ => 0) demo_vfs.
Proof.
  split; [exact demo_vfs_heap|]. intros f Hf. split; [lia|]. rewrite (demo_slots f Hf). destruct (decide (f = 0x1028)) as [->|]; [|lia].
  intros _. split; [|done]. exists 88. split; [done|]. apply Heap.heap_of_live; [exact vfs_demo_tiles|done|]. vm_compute. left.
Qed.

(** Opening and closing files next to an open one. *)
Lemma descriptor_refcounts_witness :
  exists s1 s2, vfs_dup demo_vfs 0 = Some (s1, 1) /\ fd_inv (fun _ => 0) s1 /\
    vfs_close (fun _ => no_fops) demo_vfs 0 = Some (s2, 0) /\ fd_inv (fun _ => 0) s2 /\ fd_get s2 0 = 0.
Proof.
  destruct (descriptor_refcounts (fun _ => no_fops) (fun _ => 0) demo_vfs demo_fd_inv) as (_ & Hd & Hc & _).
  { by intros a op [? | ?]. }
  destruct (Hd 0) as (s1 & r1 & H1 & I1 & [(_ & _ & [E|E])|[E _]]); [discriminate E|vm_compute in E; discriminate E|].
  assert (r1 = 1) as -> by (vm_compute in E; congruence).
  destruct (Hc 0) as (s2 & r2 & H2 & I2 & [(_ & _ & E2)|(-> & _ & Hg & _)]); [discriminate E2|].
  exists s1, s2. split; [exact H1|]. split; [exact I1|]. split; [exact H2|]. split; [exact I2|]. apply (Hg 0).
Defined.

Lemma vfs_lseek_bounds_witness :
  exists s', vfs_lseek (fun _ => no_fops) demo_vfs 0 5 SEEK_CUR = Some (s', 5) /\ vget s' 0x1028 f_pos = 5.
Proof.
  destruct (vfs_lseek_bounds (fun _ => no_fops) demo_vfs 0 5 SEEK_CUR) as (s' & r & Hl & Hr & _ & Hb); [lia|by split; [|left]|].
  destruct Hb as [Hb _]; [discriminate|]. change (r = 5) in Hb. subst r. destruct Hr as [[Hr _]|[_ ->]]; [discriminate|].
  eexists. split; [exact Hl|]. reflexivity.
Defined.


(** Entering [c] with its inode. *)
Lemma d_add_enters_witness :
  exists s' D', d_add demo_table demo_vfs demo_c demo_inode = Some s' /\ dcache_ok demo_table s' D' /\
    child s' D' demo_root [99] = demo_c /\ child s' D' demo_root [97] = demo_a /\ vget s' demo_c d_inode = demo_inode.
Proof.
  assert (forall x, x ∈ [d_alias demo_c; i_dentry demo_inode; d_hash_node demo_c] -> ~ cache_node demo_table demo_tree x) as Hnc.
  { intros x Hx Hc. apply demo_cache_node in Hc. set_unfold in Hx.
    unfold d_alias, i_dentry, d_hash_node, demo_a, demo_b, demo_c, demo_inode in *. lia. }
  destruct (d_add_enters demo_table demo_vfs demo_tree demo_c demo_inode []) as (s' & Ha & Hd & _ & Hch & Hi & _).
  - exact demo_dcache.
  - intros h d _ Hin. apply vfs_demo_off. unfold demo_tree in Hin. repeat case_match; set_solver.
  - discriminate.
  - vm_compute. reflexivity.
  - rewrite demo_links by done. by eexists.
  - apply Hnc. set_solver.
  - apply vfs_demo_off. set_solver.
  - intros _. split; [by apply demo_ring|]. split; [rewrite demo_links by done; by eexists|]. split; [vm_compute; set_solver|].
    intros x Hx. split; [apply Hnc; set_solver|]. intros ->. vm_compute in Hx. set_solver.
  - eexists s', _. split; [exact Ha|]. split; [exact Hd|]. rewrite !Hch. split; [reflexivity|]. split; [vm_compute; reflexivity|exact Hi].
Defined.

End Vfs.
