(* ===== verification/Chardev.v ===== *)
(** * Character devices (src/kernel/drivers/char/chardev.c)

    The table [chrdevs] of 32 entries gives the operations of the device with a
    major number.  An entry's name is an array in it, its fields are [c_major]
    and [c_fops] of the store.  Messages to the console are left out. *)
From S2P Require Import Prelude Memory CString Allocator ListHead Store SortedQueue Spinlock Heap Sched Vfs.
Import Vfs.

Module Chardev.

Definition MAX_CHAR_DEVICES : Z := 32.
Definition sizeof_char_device : Z := 48.
Definition CHRDEV_NAME_LEN : nat := 31.

Section chardev.
Context {A R : Type} (chrdevs : Z).
Notation vfs := (vfs (A := A) (R := R)).

(** The name is the first member of an entry. *)
Definition chrdev (major : Z) : Z := chrdevs + sizeof_char_device * major.

Definition chardev_init (s : vfs) : vfs :=
  for_up (Z.to_nat MAX_CHAR_DEVICES) 0
    (fun i s => vset (vset (with_str s (chrdev i) []) (chrdev i) c_major 0) (chrdev i) c_fops 0) s.

Definition register_chrdev (s : vfs) (major : Z) (name : str) (fops : Z) : vfs * Z :=
  if (major <? 0) || (MAX_CHAR_DEVICES <=? major) then (s, -1)
  else if negb (vget s (chrdev major) c_fops =? 0) then (s, -1)
  else
    let s := with_str s (chrdev major) (take CHRDEV_NAME_LEN name) in
    let s := vset s (chrdev major) c_major major in
    (vset s (chrdev major) c_fops fops, 0).

(** [name] is [None] for a null pointer. *)
Definition unregister_chrdev (s : vfs) (major : Z) (name : option str) : vfs * Z :=
  if (major <? 0) || (MAX_CHAR_DEVICES <=? major) then (s, -1)
  else if match name with Some n => negb (bool_decide (v_str s (chrdev major) = n)) | None => false end then (s, -1)
  else (vset s (chrdev major) c_fops 0, 0).

Definition chardev_get_fops (s : vfs) (major : Z) : Z :=
  if (major <? 0) || (MAX_CHAR_DEVICES <=? major) then 0 else vget s (chrdev major) c_fops.

(** ** Properties *)

Lemma chrdev_inj i j : chrdev i = chrdev j -> i = j.
Proof. unfold chrdev, sizeof_char_device. lia. Qed.

Lemma get_fops_set s i v j :
  0 <= i < MAX_CHAR_DEVICES -> chardev_get_fops (vset s (chrdev i) c_fops v) j = if decide (j = i) then v else chardev_get_fops s j.
Proof.
  intros Hi. unfold chardev_get_fops. destruct (decide (j = i)) as [->|Hne].
  - rewrite (proj2 (Z.ltb_ge _ _)), (proj2 (Z.leb_gt _ _)) by lia. unfold vget, vset. simpl. by rewrite wr_same.
  - destruct (_ || _); [done|]. unfold vget, vset. simpl. apply wr_other. left. intros E. by apply Hne, chrdev_inj.
Qed.

(** The table is a partial map from major numbers to operations:
    [register_chrdev] enters a free number and refuses a taken one or one
    outside the table, [unregister_chrdev] removes it under the name it was
    registered with as long as that has at most 31 characters, and under a longer
    name it fails; other numbers keep their operations. *)
Theorem register_chrdev_correct s major name fops :
  0 <= major < MAX_CHAR_DEVICES -> chardev_get_fops s major = 0 -> fops <> 0 ->
  exists s1, register_chrdev s major name fops = (s1, 0) /\
    (forall j, chardev_get_fops s1 j = if decide (j = major) then fops else chardev_get_fops s j) /\
    (forall n f, register_chrdev s1 major n f = (s1, -1)) /\
    exists s2 r, unregister_chrdev s1 major (Some name) = (s2, r) /\
      ((length name <= 31)%nat -> r = 0 /\ forall j, chardev_get_fops s2 j = chardev_get_fops s j) /\
      ((31 < length name)%nat -> r = -1 /\ s2 = s1).
Proof.
  intros Hm Hf Hne. unfold register_chrdev, unregister_chrdev.
  assert ((major <? 0) || (MAX_CHAR_DEVICES <=? major) = false) as Er by (rewrite (proj2 (Z.ltb_ge _ _)), (proj2 (Z.leb_gt _ _)) by lia; done).
  rewrite Er. unfold chardev_get_fops in Hf at 1. rewrite Er in Hf. rewrite Hf. cbn [negb Z.eqb].
  set (s0 := vset (with_str s (chrdev major) (take CHRDEV_NAME_LEN name)) (chrdev major) c_major major).
  assert (forall j, chardev_get_fops s0 j = chardev_get_fops s j) as Hs0.
  { intros j. unfold chardev_get_fops, s0, vget, vset. simpl. by rewrite wr_other by (by right). }
  set (s1 := vset s0 (chrdev major) c_fops fops). assert (forall j, chardev_get_fops s1 j = if decide (j = major) then fops else chardev_get_fops s j) as Hs1.
  { intros j. unfold s1. rewrite get_fops_set by done. by rewrite Hs0. }
  assert (v_str s1 (chrdev major) = take CHRDEV_NAME_LEN name) as Hn by (unfold s1, s0; simpl; by rewrite fupd_same).
  exists s1. split; [done|]. split; [done|]. split.
  { intros n f. unfold s1 at 1, vget, vset. simpl. rewrite wr_same, (proj2 (Z.eqb_neq fops 0)) by done. done. }
  rewrite Hn. destruct (decide (length name <= 31)%nat) as [Hl|Hl].
  - rewrite take_ge by done. rewrite bool_decide_eq_true_2 by done. eexists _, _. split; [done|]. split; [|lia]. intros _. split; [done|].
    intros j. rewrite get_fops_set by done. rewrite Hs1. destruct (decide (j = major)) as [->|]; [|done]. unfold chardev_get_fops. by rewrite Er.
  - rewrite bool_decide_eq_false_2; [eexists _, _; split; [done|]; split; [lia|done]|].
    intros E. apply (f_equal length) in E. rewrite length_take in E. unfold CHRDEV_NAME_LEN in E. lia.
Qed.

Lemma chardev_init_empty s j : chardev_get_fops (chardev_init s) j = 0.
Proof.
  unfold chardev_get_fops. destruct (Z.ltb_spec j 0), (Z.leb_spec MAX_CHAR_DEVICES j); try done.
  set (I := fun (i : Z) (t : vfs) => 0 <= j < i -> vget t (chrdev j) c_fops = 0). cbn [orb].
  assert (I (0 + Z.of_nat (Z.to_nat MAX_CHAR_DEVICES)) (chardev_init s)) as HI.
  { unfold chardev_init. apply for_up_inv; [|unfold I; lia]. intros k t Hk Ht Hj. unfold vget, vset. simpl. destruct (decide (j = k)) as [->|Hne]; [by rewrite wr_same|].
    assert (chrdev j <> chrdev k) by (intros E; by apply Hne, chrdev_inj). rewrite !wr_other by (by left). apply Ht. lia. }
  apply HI. unfold MAX_CHAR_DEVICES in *. lia.
Qed.

End chardev.

Lemma register_chrdev_correct_witness :
  exists s1, register_chrdev 0x700000 demo_vfs 4 [116; 116; 121] 0x1234 = (s1, 0) /\ chardev_get_fops 0x700000 s1 4 = 0x1234.
Proof.
  destruct (register_chrdev_correct 0x700000 demo_vfs 4 [116; 116; 121] 0x1234) as (s1 & H1 & Hg & _);
    [unfold MAX_CHAR_DEVICES; lia|vm_compute; reflexivity|discriminate|].
  exists s1. split; [exact H1|]. exact (Hg 4).
Defined.

End Chardev.
