(* ===== verification/Ramfs.v ===== *)
(** * The RAM file system (src/kernel/fs/ramfs.c)

    A file system whose directories are the dentries themselves and whose files
    are blocks of the heap.  It supplies the operation tables that [Vfs] takes as
    a parameter. *)
From S2P Require Import Prelude Memory CString Allocator ListHead Store SortedQueue Spinlock Heap Sched Vfs Chardev.
Import CString ListHead Vfs Chardev.

Module Ramfs.

Definition DT_UNKNOWN : Z := 0.
Definition DT_DIR : Z := 4.
Definition DT_REG : Z := 8.
Definition sizeof_ramfs_inode_info : Z := 16.
Definition sizeof_dirent : Z := 280.
Definition RAMFS_MAGIC : Z := 0x858458f6.

(** [struct dirent] in memory. *)
Definition de_ino (d : Z) : Z := d.
Definition de_off (d : Z) : Z := d + 8.
Definition de_reclen (d : Z) : Z := d + 16.
Definition de_type (d : Z) : Z := d + 18.
Definition de_name (d : Z) : Z := d + 19.

Section ramfs.
Context {A R : Type} `{Allocator A}.
(** The addresses of the tables and functions of the file system. *)
Context (dentry_hashtable chrdevs : Z).
Context (ramfs_dir_inode_ops ramfs_file_ops ramfs_dir_ops ramfs_ops ramfs_type : Z).

Notation vfs := (vfs (A := A) (R := R)).

Definition get_ramfs_inode (s : vfs) (inode : Z) : Z := vget s inode i_private.

(** The table that the operations of an inode of this type are in. *)
Definition ramfs_get_inode (s : vfs) (sb mode dev : Z) : option (vfs * Z) :=
  '(s, inode) ← new_inode s sb;
  if inode =? 0 then Some (s, 0)
  else
    let s := vset s inode i_mode (u32 mode) in
    let s := vset s inode i_rdev (u64 dev) in
    let s := vset s inode i_size 0 in
    let s := vset s inode i_blocks 0 in
    let s := vset s inode i_atime 0 in
    let s := vset s inode i_mtime 0 in
    let s := vset s inode i_ctime 0 in
    if S_ISREG mode then
      let s := vset s inode i_op 0 in
      let s := vset s inode i_fop ramfs_file_ops in
      '(h, info) ← a_alloc (v_heap s) sizeof_ramfs_inode_info;
      let s := with_heap s h in
      if negb (info =? 0) then
        let s := clear s info [] in
        Some (vset s inode i_private info, inode)
      else h ← a_free (v_heap s) inode; Some (with_heap s h, 0)
    else if S_ISDIR mode then
      let s := vset s inode i_op ramfs_dir_inode_ops in
      Some (vset s inode i_fop ramfs_dir_ops, inode)
    else if S_ISCHR mode then
      let s := vset s inode i_op 0 in
      let major := (dev .>> 8) .& 0xFF in
      Some (vset s inode i_fop (chardev_get_fops chrdevs s major), inode)
    else Some (s, inode).

(** ** Files *)

(** The offset is [f_pos]; sums with the [int] count are unsigned 64-bit. *)
Definition ramfs_read (s : vfs) (file buf count : Z) : option (vfs * Z) :=
  deref (vget s file f_dentry)
    (let inode := vget s (vget s file f_dentry) d_inode in
     let info := get_ramfs_inode s inode in
     let offset := vget s file f_pos in
     deref inode
       (if vget s inode i_size <=? offset then Some (s, 0)
        else
          let count := if vget s inode i_size <? u64 (offset + count) then s32 (vget s inode i_size - offset) else count in
          deref info
            (let s := with_mem s (memcpy (v_mem s) buf (vget s info r_data + offset) (u64 count)) in
             Some (vset s file f_pos (u64 (offset + count)), count)))).

(** Room for [need] bytes in the block of the file; [false] without memory. *)
Definition ramfs_grow (s : vfs) (inode info need : Z) : option (vfs * bool) :=
  if vget s info r_capacity <? u64 need then
    let new_cap := u64 (need + 4095) .& (2 ^ 64 - 4096) in
    '(h, new_data) ← a_alloc (v_heap s) new_cap;
    let s := with_heap s h in
    if new_data =? 0 then Some (s, false)
    else
      let data := vget s info r_data in
      s ← (if negb (data =? 0) then
             let s := with_mem s (memcpy (v_mem s) new_data data (vget s inode i_size)) in
             h ← a_free (v_heap s) data; Some (with_heap s h)
           else Some (with_mem s (memset (v_mem s) new_data 0 new_cap)));
      let s := vset s info r_data new_data in
      Some (vset s info r_capacity new_cap, true)
  else Some (s, true).

Definition ramfs_write (s : vfs) (file buf count : Z) : option (vfs * Z) :=
  deref (vget s file f_dentry)
    (let inode := vget s (vget s file f_dentry) d_inode in
     let info := get_ramfs_inode s inode in
     let offset := vget s file f_pos in
     deref inode (deref info
       ('(s, ok) ← ramfs_grow s inode info (offset + count);
        if negb ok then Some (s, -1)
        else
          let s := with_mem s (memcpy (v_mem s) (vget s info r_data + offset) buf (u64 count)) in
          let s := vset s file f_pos (u64 (offset + count)) in
          let s := if vget s inode i_size <? vget s file f_pos then vset s inode i_size (vget s file f_pos) else s in
          Some (s, count)))).

(** ** Directories *)

(** A terminated copy of a short string. *)
Definition put_string (m : mem) (a : Z) (l : str) : mem := store8 (put_chars m a l) (a + Z.of_nat (length l)) 0.

(** The members of an entry in the order they are written. *)
Definition fill_dirent (m : mem) (d ino off ty : Z) : mem :=
  store8 (store16 (store64 (store64 m (de_ino d) ino) (de_off d) off) (de_reclen d) sizeof_dirent) (de_type d) ty.

Definition d_type_of (s : vfs) (inode : Z) : Z :=
  if negb (inode =? 0) then
    if S_ISDIR (vget s inode i_mode) then DT_DIR else if S_ISREG (vget s inode i_mode) then DT_REG else DT_UNKNOWN
  else DT_UNKNOWN.

(** The node of the child whose index is the position, if there is one. *)
Definition readdir_step (s : vfs) (head f_pos : Z) : Z * Z -> (Z * Z) + option (option Z) :=
  fun '(pos, index) =>
    if pos =? head then inr (Some None)
    else if u64 index =? f_pos then inr (Some (Some pos))
    else match get_next (v_links s) pos with
         | Some n => inl (n, s32 (index + 1))
         | None => inr None
         end.

(** The lock of the directory is taken and released around the loop on every
    path. *)
Definition ramfs_readdir (fuel : nat) (s : vfs) (file dirent count : Z) : option (vfs * Z) :=
  let dentry := vget s file f_dentry in
  if (dentry =? 0) || (vget s dentry d_inode =? 0) then Some (s, -1)
  else if negb (S_ISDIR (vget s (vget s dentry d_inode) i_mode)) then Some (s, -1)
  else
    let pos := vget s file f_pos in
    let entry (s : vfs) m ino off ty :=
      Some (vset (with_mem s (fill_dirent m dirent ino off ty)) file f_pos (u64 (pos + 1)), 1) in
    if pos =? 0 then entry s (put_string (v_mem s) (de_name dirent) dot) (vget s dentry d_inode) 0 DT_DIR
    else if pos =? 1 then
      let parent := vget s dentry d_parent in
      entry s (put_string (v_mem s) (de_name dirent) dotdot) (if negb (parent =? 0) then vget s parent d_inode else 0) 1 DT_DIR
    else
      first ← get_next (v_links s) (d_subdirs dentry);
      r ← loop fuel (readdir_step s (d_subdirs dentry) pos) (first, 2);
      r ← r;
      match r with
      | None => Some (s, 0)
      | Some node =>
          let child := node - 72 in
          let name := take 255 (v_str s (vget s child d_name) ++ replicate 255 0) in
          let inode := vget s child d_inode in
          entry s (put_chars (v_mem s) (de_name dirent) name) inode pos (d_type_of s inode)
      end.

Definition ramfs_mknod (s : vfs) (dir dentry mode dev : Z) : option (vfs * Z) :=
  '(s, inode) ← ramfs_get_inode s (vget s dir i_sb) mode dev;
  if inode =? 0 then Some (s, -1)
  else
    e ← list_empty (v_links s) (d_hash_node dentry);
    s ← (if (e : bool) then d_add dentry_hashtable s dentry inode else d_instantiate s dentry inode);
    Some (s, 0).

Definition ramfs_create (s : vfs) (dir dentry mode : Z) : option (vfs * Z) := ramfs_mknod s dir dentry (mode .| S_IFREG) 0.

Definition ramfs_mkdir (s : vfs) (dir dentry mode : Z) : option (vfs * Z) := ramfs_mknod s dir dentry (mode .| S_IFDIR) 0.

Definition ramfs_lookup (s : vfs) (dir dentry : Z) : option (vfs * Z) :=
  s ← d_add dentry_hashtable s dentry 0; Some (s, 0).

(** ** The tables *)

Definition ramfs_iops : inode_operations (A := A) (R := R) :=
  IOps (Some ramfs_create) (Some ramfs_lookup) None (Some ramfs_mkdir) None (Some ramfs_mknod) None.

Definition ramfs_file_operations : file_operations (A := A) (R := R) :=
  FOps None (Some ramfs_read) (Some ramfs_write) None None None.

Definition ramfs_dir_operations (fuel : nat) : file_operations (A := A) (R := R) :=
  FOps None None None (Some (ramfs_readdir fuel)) None None.

(** ** Super blocks *)

Definition ramfs_drop_inode (s : vfs) (inode : Z) : option vfs :=
  let info := vget s inode i_private in
  if negb (info =? 0) then
    s ← (if negb (vget s info r_data =? 0) then h ← a_free (v_heap s) (vget s info r_data); Some (with_heap s h) else Some s);
    h ← a_free (v_heap s) info;
    Some (vset (with_heap s h) inode i_private 0)
  else Some s.

Definition ramfs_kill_sb (s : vfs) (sb : Z) : option vfs :=
  if negb (sb =? 0) then h ← a_free (v_heap s) sb; Some (with_heap s h) else Some s.

Definition super_nodes (sb : Z) : list Z := [s_list sb; s_inodes sb; s_dirty sb].

(** [s_inodes] stays as the [memset] leaves it: two null links. *)
Definition ramfs_mount (s : vfs) (fs_type : Z) (dev_name : str) : option (vfs * Z) :=
  '(h, sb) ← a_alloc (v_heap s) sizeof_super_block;
  let s := with_heap s h in
  if sb =? 0 then Some (s, 0)
  else
    let s := clear s sb (super_nodes sb) in
    let s := vset s sb s_blocksize 4096 in
    let s := vset s sb s_blocksize_bits 12 in
    let s := vset s sb s_magic RAMFS_MAGIC in
    let s := vset s sb s_op ramfs_ops in
    let s := vset s sb s_type fs_type in
    '(s, inode) ← ramfs_get_inode s sb (S_IFDIR .| 0x1ED) 0;
    '(s, root) ← alloc_dentry s 0 [slash];
    let s := vset s sb s_root root in
    if root =? 0 then h ← a_free (v_heap s) sb; Some (with_heap s h, 0)
    else s ← d_add dentry_hashtable s root inode; Some (s, sb).

Definition ramfs_init (fuel : nat) (s : vfs) : option vfs := fst <$> register_filesystem fuel s ramfs_type.


(** ** Files are byte strings *)

(** The size of the block for [need] bytes. *)
Definition new_capacity (need : Z) : Z := u64 (need + 4095) .& (2 ^ 64 - 4096).

Lemma new_capacity_spec need : 0 <= need < 2 ^ 62 -> need <= new_capacity need < 2 ^ 63 /\ new_capacity need mod 4096 = 0.
Proof.
  intros Hn. unfold new_capacity. rewrite u64_small by lia.
  replace (2 ^ 64 - 4096) with ((2 ^ 52 - 1) * 2 ^ 12) by lia.
  replace ((need + 4095) .& _) with (((need + 4095) / 4096) * 4096).
  - split; [|apply Z_mod_mult]. Z.div_mod_to_equations. lia.
  - rewrite <- (Z.shiftl_mul_pow2 _ 12) by lia. apply Z.bits_inj'. intros i Hi. rewrite Z.land_spec, Z.shiftl_spec by lia.
    replace 4096 with (2 ^ 12) by lia. rewrite <- Z.shiftl_mul_pow2, <- Z.shiftr_div_pow2, Z.shiftl_spec by lia.
    destruct (Z.ltb_spec i 12) as [Hlt|Hge].
    + rewrite !(Z.testbit_neg_r _ (i - 12)) by lia. by rewrite andb_false_r.
    + rewrite Z.shiftr_spec by lia. replace (i - 12 + 12) with i by lia. change (2 ^ 52 - 1) with (Z.ones 52).
      destruct (Z.ltb_spec (i - 12) 52); [rewrite Z.ones_spec_low by lia; by rewrite andb_true_r|].
      rewrite Z.ones_spec_high by lia. rewrite andb_false_r. apply Z.bits_above_log2; [lia|]. apply Z.log2_lt_pow2; [lia|].
      apply (Z.lt_le_trans _ (2 ^ 63)); [lia|]. apply Z.pow_le_mono_r; lia.
Qed.

Definition inode_of (s : vfs) (file : Z) : Z := vget s (vget s file f_dentry) d_inode.
Definition info_of (s : vfs) (file : Z) : Z := get_ramfs_inode s (inode_of s file).
Definition data_of (s : vfs) (file : Z) : Z := vget s (info_of s file) r_data.
Definition cap_of (s : vfs) (file : Z) : Z := vget s (info_of s file) r_capacity.

(** The file has the contents [l]. *)
Definition ram_file (s : vfs) (file : Z) (l : list Z) : Prop :=
  vget s file f_dentry <> 0 /\ inode_of s file <> 0 /\ info_of s file <> 0 /\
  vget s (inode_of s file) i_size = Z.of_nat (length l) /\ Z.of_nat (length l) <= cap_of s file < 2 ^ 63 /\
  (data_of s file = 0 /\ cap_of s file = 0 \/
   data_of s file <> 0 /\ (exists t, a_live (v_heap s) (data_of s file) t /\ cap_of s file <= t) /\
     bytes_at (v_mem s) (data_of s file) (length l) = l).

(** Blocks other than that of the file stay as they are. *)
Definition others_kept (s s' : vfs) (file : Z) : Prop :=
  forall q u, a_live (v_heap s) q u -> q <> data_of s file ->
    a_live (v_heap s') q u /\ forall x, q <= x < q + u -> v_mem s' x = v_mem s x.

(** The memory of a buffer is apart from a block of [n] bytes. *)
Definition apart (buf count p n : Z) : Prop := buf + count <= p \/ p + n <= buf.

(** [s'] has the fields of [s] but for the block of the file. *)
Definition same_fields (s s' : vfs) (info : Z) : Prop :=
  forall x f, ~ (x = info /\ (f = r_data \/ f = r_capacity)) -> vget s' x f = vget s x f.

Lemma same_fields_file s s' file :
  same_fields s s' (info_of s file) ->
  vget s' file f_dentry = vget s file f_dentry /\ inode_of s' file = inode_of s file /\ info_of s' file = info_of s file /\
  vget s' file f_pos = vget s file f_pos /\ vget s' (inode_of s file) i_size = vget s (inode_of s file) i_size.
Proof.
  intros Hs. assert (forall x f, f <> r_data -> f <> r_capacity -> vget s' x f = vget s x f) as E by (intros; apply Hs; naive_solver).
  unfold info_of, inode_of, get_ramfs_inode. rewrite !E by done. done.
Qed.

Lemma same_fields_trans s s1 s2 info : same_fields s s1 info -> same_fields s1 s2 info -> same_fields s s2 info.
Proof. intros H1 H2 x f Hn. rewrite H2 by done. by apply H1. Qed.

(** The new block replaces the old one. *)
Lemma grow_fields s file info data cap :
  info_of s file = info ->
  let s' := vset (vset s info r_data data) info r_capacity cap in
  same_fields s s' info /\ data_of s' file = data /\ cap_of s' file = cap.
Proof.
  intros Ei s'. assert (same_fields s s' info) as Hs.
  { intros x f Hn. unfold s', vget, vset. simpl. destruct (decide (x = info)) as [->|]; [|by rewrite !wr_other by (by left)].
    rewrite !wr_other; [done|right; intros ->; apply Hn; auto..]. }
  split; [done|]. rewrite <- Ei in Hs. destruct (same_fields_file s s' file Hs) as (_ & _ & E & _). unfold data_of, cap_of. rewrite E, Ei.
  unfold s', vget, vset. simpl. split; [rewrite wr_other by (by right)|]; by rewrite wr_same.
Qed.

(** A block of [n] bytes is new in [h] and holds the contents after [m']. *)
Lemma grow_file s file l new_data n s' :
  ram_file s file l -> Z.of_nat (length l) <= n < 2 ^ 63 -> new_data <> 0 ->
  same_fields s s' (info_of s file) -> data_of s' file = new_data -> cap_of s' file = n ->
  (exists t, a_live (v_heap s') new_data t /\ n <= t) ->
  bytes_at (v_mem s') new_data (length l) = l -> ram_file s' file l.
Proof.
  intros (F1 & F2 & F3 & F4 & F5 & _) Hn Hd Hs Ed Ec Hl Hb. destruct (same_fields_file s s' file Hs) as (E1 & E2 & E3 & _ & E5).
  unfold ram_file. rewrite E1, E2, E3, E5, Ed, Ec. split_and!; try done; try lia. right. done.
Qed.

Lemma grow_spec s file l need :
  a_wf (v_heap s) -> mem_ok (v_mem s) -> ram_file s file l -> 0 <= need < 2 ^ 62 ->
  exists s1 ok, ramfs_grow s (inode_of s file) (info_of s file) need = Some (s1, ok) /\
    a_wf (v_heap s1) /\ mem_ok (v_mem s1) /\ ram_file s1 file l /\ others_kept s s1 file /\ same_fields s s1 (info_of s file) /\
    v_sched s1 = v_sched s /\
    if (ok : bool) then need <= cap_of s1 file /\
      (data_of s1 file = data_of s file /\ cap_of s1 file = cap_of s file \/
       (exists h, a_alloc (v_heap s) (new_capacity need) = Some (h, data_of s1 file)) /\ cap_of s1 file = new_capacity need /\
         forall t, ~ a_live (v_heap s) (data_of s1 file) t) /\
      forall x, apart x 1 (data_of s1 file) (cap_of s1 file) -> v_mem s1 x = v_mem s x
    else v_mem s1 = v_mem s /\ cap_of s file < need.
Proof.
  intros Hwf Hm Hr Hn. unfold ramfs_grow. fold (cap_of s file). rewrite u64_small by lia.
  destruct (Z.ltb_spec (cap_of s file) need) as [Hlt|Hge].
  2: { exists s, true. split; [done|]. split_and!; try done. by left. }
  destruct (new_capacity_spec need Hn) as [Hc _]. fold (new_capacity need). pose proof Hr as (F1 & F2 & F3 & F4 & F5 & F6).
  destruct (a_alloc_spec (v_heap s) (new_capacity need) Hwf) as (h & p & Ha & Hwf1 & Hp); [lia|]. rewrite Ha. cbn [mbind option_bind].
  destruct Hp as [[-> Hl]|(t & Ht & Hfr & Hl)].
  { change (0 =? 0) with true. cbv iota. eexists _, false. split; [done|]. split; [done|]. split; [done|]. split.
    - refine (conj F1 (conj F2 (conj F3 (conj F4 (conj F5 _))))). destruct F6 as [?|(? & (u & ? & ?) & ?)]; [by left|right]. split; [done|]. split; [|done]. exists u. split; [by apply Hl|done].
    - split; [|split; [done|split; [done|by split]]]. intros q u Hq _. split; [by apply Hl|done]. }
  assert (a_live h p t) as Hlp by (apply Hl; by left). pose proof (a_live_pos _ _ _ Hwf1 Hlp). rewrite (proj2 (Z.eqb_neq p 0)) by lia.
  change (vget (with_heap s h) (info_of s file) r_data) with (data_of s file). change (vget (with_heap s h)) with (vget s).
  assert (forall q u, a_live (v_heap s) q u -> q + u <= p \/ p + t <= q) as Hap.
  { intros q u Hq. destruct (a_live_disjoint h q u p t Hwf1) as [[-> _]|?]; [apply Hl; by right|done|by apply Hfr in Hq|done]. }
  destruct F6 as [[Ed Ec]|(Ed & (u & Hu & Hcu) & Hb)].
  - rewrite Ed. change (0 =? 0) with true. cbn [negb mbind option_bind]. change (v_mem (with_heap s h)) with (v_mem s).
    set (s0 := with_mem (with_heap s h) (memset (v_mem s) p 0 (new_capacity need))).
    destruct (grow_fields s0 file (info_of s file) p (new_capacity need) eq_refl) as (Hs & E1 & E2). cbv zeta in Hs, E1, E2.
    set (s1 := vset (vset s0 _ _ _) _ _ _) in *.
    assert (forall x, v_mem s1 x = if decide (p <= x < p + new_capacity need) then 0 else v_mem s x) as Em by
      (intros x; change (memset (v_mem s) p 0 (new_capacity need) x = if decide (p <= x < p + new_capacity need) then 0 else v_mem s x); by rewrite memset_fill by lia).
    exists s1, true. split; [done|]. split; [done|]. split; [intros x; rewrite Em; case_decide; [lia|apply Hm]|]. split.
    + apply (grow_file s file l p (new_capacity need)); try done; [lia|lia|by exists t|]. destruct l; [done|simpl in F5; lia].
    + split; [|split; [done|split; [done|split; [rewrite E2; lia|split; [right; rewrite E1; split; [by exists h|by split]|]]]]].
      * intros q v Hq _. split; [apply Hl; by right|]. intros x Hx. rewrite Em, decide_False; [done|]. specialize (Hap q v Hq). lia.
      * intros x. rewrite E1, E2, Em. unfold apart. intros. rewrite decide_False; [done|lia].
  - rewrite (proj2 (Z.eqb_neq _ _) Ed). cbn [negb]. change (v_mem (with_heap s h)) with (v_mem s). rewrite F4.
    pose proof (Hap _ _ Hu) as Hdis. destruct (memcpy_to (v_mem s) p (data_of s file) (Z.of_nat (length l))) as [Hm1 Em]; [done|lia|lia|].
    set (m1 := memcpy _ _ _ _) in *. assert (a_live h (data_of s file) u) as Hu1 by (apply Hl; by right).
    destruct (a_free_spec h _ _ Hwf1 Hu1) as (h2 & Hf & Hwf2 & Hl2). change (v_heap (with_mem (with_heap s h) m1)) with h. rewrite Hf. cbn [mbind option_bind].
    set (s0 := with_heap (with_mem (with_heap s h) m1) h2).
    destruct (grow_fields s0 file (info_of s file) p (new_capacity need) eq_refl) as (Hs & E1 & E2). cbv zeta in Hs, E1, E2.
    set (s1 := vset (vset s0 _ _ _) _ _ _) in *. assert (p <> data_of s file) as Hpd by (intros E; rewrite E in Hfr; exact (Hfr u Hu)).
    exists s1, true. split; [done|]. split; [done|]. split; [done|]. split.
    + apply (grow_file s file l p (new_capacity need)); try done; [lia|lia|exists t; split; [by apply Hl2|lia]|].
      rewrite <- Hb at 2. apply bytes_at_ext. intros i Hi. change (v_mem s1) with m1. rewrite Em, decide_True by lia. f_equal. lia.
    + split; [|split; [done|split; [done|split; [rewrite E2; lia|split; [right; rewrite E1; split; [by exists h|by split]|]]]]].
      * intros q v Hq Hne. split; [apply Hl2; split; [apply Hl; by right|done]|]. intros x Hx. change (v_mem s1) with m1. rewrite Em, decide_False; [done|].
        specialize (Hap q v Hq). lia.
      * intros x. rewrite E1, E2. change (v_mem s1) with m1. unfold apart. intros. rewrite Em, decide_False; [done|lia].
Qed.


Lemma ram_file_bytes s file l : ram_file s file l -> bytes_at (v_mem s) (data_of s file) (length l) = l.
Proof. intros (_ & _ & _ & _ & F5 & [[_ E]|(_ & _ & ?)]); [|done]. destruct l; [done|simpl in F5; lia]. Qed.

(** Reading and writing change these fields only. *)
Definition rw_fields (s s' : vfs) : Prop :=
  forall x f, f <> r_data -> f <> r_capacity -> f <> f_pos -> f <> i_size -> vget s' x f = vget s x f.

Lemma rw_fields_file s s' file :
  rw_fields s s' -> vget s' file f_dentry = vget s file f_dentry /\ inode_of s' file = inode_of s file /\ info_of s' file = info_of s file.
Proof. intros Hs. unfold info_of, inode_of, get_ramfs_inode. rewrite !Hs by done. done. Qed.

(** The buffer is apart from the block of the file and from the one that
    replaces it when there must be room for [need] bytes. *)
Definition away (s : vfs) (file need buf count : Z) : Prop :=
  apart buf count (data_of s file) (cap_of s file) /\
  forall h p, a_alloc (v_heap s) (new_capacity need) = Some (h, p) -> apart buf count p (new_capacity need).

Definition overwrite (l : list Z) (pos : nat) (b : list Z) : list Z := take pos l ++ b ++ drop (pos + length b) l.

Lemma overwrite_length l pos b : (pos <= length l)%nat -> length (overwrite l pos b) = Nat.max (length l) (pos + length b).
Proof. intros Hp. unfold overwrite. rewrite !length_app, length_take, length_drop. lia. Qed.

Lemma overwrite_bytes m m' data l pos buf (count : nat) :
  bytes_at m data (length l) = l -> (pos <= length l)%nat ->
  (forall x, m' x = if decide (data + Z.of_nat pos <= x < data + Z.of_nat pos + Z.of_nat count) then m (buf + (x - (data + Z.of_nat pos))) else m x) ->
  bytes_at m' data (Nat.max (length l) (pos + count)) = overwrite l pos (bytes_at m buf count).
Proof.
  intros Hl Hp Hm. unfold overwrite. rewrite bytes_at_length. rewrite <- Hl at 2 3. rewrite bytes_at_take, bytes_at_drop by done.
  replace (Nat.max (length l) (pos + count)) with (pos + (count + (length l - (pos + count))))%nat by lia. rewrite !bytes_at_app. f_equal; [|f_equal].
  - apply bytes_at_ext. intros i Hi. rewrite Hm, decide_False by lia. done.
  - apply bytes_at_ext. intros i Hi. rewrite Hm, decide_True by lia. f_equal. lia.
  - replace (data + Z.of_nat pos + Z.of_nat count) with (data + Z.of_nat (pos + count)) by lia.
    apply bytes_at_ext. intros i Hi. rewrite Hm, decide_False by lia. done.
Qed.

(** The block of the file is too small for [need] bytes, and the heap has no
    room for a larger one. *)
Definition full (s : vfs) (file need : Z) : Prop := cap_of s file < need /\ no_room (v_heap s) (new_capacity need).

Lemma grow_full s file need s1 ok :
  0 <= need < 2 ^ 62 -> ramfs_grow s (inode_of s file) (info_of s file) need = Some (s1, ok) -> ok = false <-> full s file need.
Proof.
  intros Hn. unfold ramfs_grow, full. fold (cap_of s file). rewrite u64_small by lia.
  destruct (Z.ltb_spec (cap_of s file) need) as [Hlt|Hge]; [|intros [= <- <-]; split; [done|lia]]. fold (new_capacity need).
  destruct (a_alloc (v_heap s) (new_capacity need)) as [[h p]|] eqn:Ha; [|done]. cbn [mbind option_bind]. rewrite (alloc_room _ _ _ _ Ha).
  destruct (p =? 0) eqn:E; simpl_bool; [intros [= _ <-]; by rewrite E|].
  match goal with |- (?x ≫= _) = _ -> _ => destruct x; [|done] end. intros [= _ <-]. split; [done|]. by intros [_ ?].
Qed.

Lemma write_spec s file l buf count :
  let pos := vget s file f_pos in
  a_wf (v_heap s) -> mem_ok (v_mem s) -> ram_file s file l -> 0 <= count < 2 ^ 31 -> 0 <= pos <= Z.of_nat (length l) -> pos + count < 2 ^ 62 ->
  away s file (pos + count) buf count ->
  exists s' r, ramfs_write s file buf count = Some (s', r) /\ a_wf (v_heap s') /\ mem_ok (v_mem s') /\ others_kept s s' file /\
    v_sched s' = v_sched s /\ rw_fields s s' /\
    (r = -1 /\ ram_file s' file l /\ vget s' file f_pos = pos /\ v_mem s' = v_mem s /\ full s file (pos + count) \/
     r = count /\ ~ full s file (pos + count) /\ ram_file s' file (overwrite l (Z.to_nat pos) (bytes_at (v_mem s) buf (Z.to_nat count))) /\ vget s' file f_pos = pos + count /\
       forall b c, away s file (pos + count) b c -> apart b c (data_of s' file) (cap_of s' file)).
Proof.
  intros pos Hwf Hm Hr Hc Hp Hpc Haw. pose proof Hr as (F1 & F2 & F3 & F4 & F5 & F6).
  destruct (grow_spec s file l (pos + count) Hwf Hm Hr) as (s1 & ok & Hg & Hwf1 & Hm1 & Hr1 & Ho1 & Hs1 & Hsc & Hok); [lia|].
  pose proof (grow_full s file (pos + count) s1 ok ltac:(lia) Hg) as Hfull.
  unfold ramfs_write, deref. rewrite (proj2 (Z.eqb_neq _ _) F1). change (vget s (vget s file f_dentry) d_inode) with (inode_of s file).
  rewrite (proj2 (Z.eqb_neq _ _) F2). change (get_ramfs_inode s (inode_of s file)) with (info_of s file). rewrite (proj2 (Z.eqb_neq _ _) F3).
  fold pos. rewrite Hg. cbn [mbind option_bind]. destruct (same_fields_file s s1 file Hs1) as (E1 & E2 & E3 & E4 & E5).
  assert (rw_fields s s1) as Hf1 by (intros x f ? ? ? ?; apply Hs1; intros [_ [?|?]]; done).
  destruct ok; cbn [negb].
  2: { exists s1, (-1). split; [done|]. split_and!; try done. left. destruct Hok. split_and!; try done. by apply Hfull. }
  destruct Hok as (Hcap & Hblk & Hfr). rewrite u64_small by lia. fold (data_of s1 file).
  assert (forall b c, away s file (pos + count) b c -> apart b c (data_of s1 file) (cap_of s1 file)) as Hap.
  { intros b c [A1 A2]. destruct Hblk as [[-> ->]|([h Ha] & -> & _)]; [done|by apply (A2 h)]. }
  pose proof (Hap _ _ Haw) as Hab.
  assert (vget s1 (info_of s file) r_data = data_of s1 file) as -> by (unfold data_of; by rewrite E3).
  destruct (memcpy_to (v_mem s1) (data_of s1 file + pos) buf count) as [Hm2 Em]; [done|lia|unfold apart in Hab; lia|].
  set (m2 := memcpy _ _ _ _) in *. rewrite u64_small by lia.
  set (s2 := vset (with_mem s1 m2) file f_pos (pos + count)).
  assert (vget s2 file f_pos = pos + count) as Ep by (unfold s2, vget, vset; simpl; by rewrite wr_same).
  assert (forall x f, f <> f_pos -> vget s2 x f = vget s1 x f) as Es2 by (intros x f Hf; unfold s2, vget, vset; simpl; by rewrite wr_other by (by right)).
  rewrite Ep, Es2, E5, F4 by done. set (l' := overwrite _ _ _).
  set (s3 := if Z.of_nat (length l) <? pos + count then vset s2 (inode_of s file) i_size (pos + count) else s2).
  assert (forall x f, f <> f_pos -> f <> i_size -> vget s3 x f = vget s1 x f) as Es3.
  { intros x f Hf1' Hf2. rewrite <- Es2 by done. unfold s3. case_match; [|done]. unfold vget, vset. simpl. by rewrite wr_other by (by right). }
  assert (vget s3 file f_pos = pos + count) as Ep3.
  { rewrite <- Ep. unfold s3. case_match; [|done]. unfold vget, vset. simpl. by rewrite wr_other by (by right). }
  assert (v_heap s3 = v_heap s1 /\ v_mem s3 = m2 /\ v_sched s3 = v_sched s1) as (Eh3 & Em3 & Esc3) by (unfold s3; by case_match).
  assert (vget s3 (inode_of s file) i_size = Z.max (Z.of_nat (length l)) (pos + count)) as Esz.
  { unfold s3. destruct (Z.ltb_spec (Z.of_nat (length l)) (pos + count)); [unfold vget, vset; simpl; rewrite wr_same; lia|].
    rewrite Es2, E5, F4 by done. lia. }
  assert (rw_fields s s3) as Hf3 by (intros x f ? ? ? ?; rewrite Es3 by done; by apply Hf1).
  destruct (rw_fields_file s s3 file Hf3) as (G1 & G2 & G3).
  assert (data_of s3 file = data_of s1 file /\ cap_of s3 file = cap_of s1 file) as [Ed3 Ec3].
  { unfold data_of, cap_of. rewrite G3, E3, !Es3 by done. done. }
  exists s3, count. split; [done|]. rewrite Eh3, Em3, Esc3. split; [done|]. split; [done|].
  assert (Z.of_nat (length l') = Z.max (Z.of_nat (length l)) (pos + count)) as Hl'.
  { unfold l'. rewrite overwrite_length by lia. rewrite bytes_at_length. lia. }
  split; [|split; [done|split; [done|right; split; [done|split; [by intros ?%Hfull|split; [|split; [done|by rewrite Ed3, Ec3]]]]]]].
  - intros q u Hq Hqd. destruct (Ho1 q u Hq Hqd) as [Hq1 Hx1]. rewrite Eh3, Em3. split; [done|]. intros x Hx. rewrite <- Hx1 by done. rewrite Em.
    destruct (decide _) as [Hin|]; [|done]. exfalso. destruct Hr1 as (_ & _ & _ & _ & G5 & [[_ G6]|(_ & (t & Ht & Hct) & _)]); [lia|].
    destruct (a_live_disjoint _ _ _ _ _ Hwf1 Hq1 Ht) as [[-> _]|?]; [|lia].
    destruct Hblk as [[? _]|(_ & _ & Hnl)]; [done|]. by apply Hnl in Hq.
  - pose proof (ram_file_bytes _ _ _ Hr1) as Hb1. destruct Hr1 as (_ & _ & _ & _ & G5 & G6).
    assert (bytes_at (v_mem s1) buf (Z.to_nat count) = bytes_at (v_mem s) buf (Z.to_nat count)) as Hbuf.
    { apply bytes_at_ext. intros i Hi. apply Hfr. unfold apart in *. lia. }
    assert (bytes_at m2 (data_of s1 file) (length l') = l') as Hb2.
    { unfold l'. rewrite overwrite_length, bytes_at_length, <- Hbuf by lia. apply overwrite_bytes; [done|lia|].
      intros x. rewrite Em. rewrite !Z2Nat.id by lia. done. }
    unfold ram_file. rewrite G1, G2, G3, Ed3, Ec3, Esz, Em3, Eh3, Hl'. split_and!; try done; [lia|lia|].
    destruct G6 as [?|(? & ? & _)]; [by left|by right].
Qed.

Lemma read_spec s file l buf count :
  let pos := vget s file f_pos in
  let d := take (Z.to_nat count) (drop (Z.to_nat pos) l) in
  mem_ok (v_mem s) -> ram_file s file l -> 0 <= count < 2 ^ 31 -> 0 <= pos < 2 ^ 63 -> apart buf count (data_of s file) (cap_of s file) ->
  exists s', ramfs_read s file buf count = Some (s', Z.of_nat (length d)) /\ ram_file s' file l /\ mem_ok (v_mem s') /\
    vget s' file f_pos = pos + Z.of_nat (length d) /\ bytes_at (v_mem s') buf (length d) = d /\
    (forall x, ~ buf <= x < buf + Z.of_nat (length d) -> v_mem s' x = v_mem s x) /\
    v_heap s' = v_heap s /\ v_sched s' = v_sched s /\ forall x f, f <> f_pos -> vget s' x f = vget s x f.
Proof.
  intros pos d Hm Hr Hc Hp Hap. pose proof (ram_file_bytes _ _ _ Hr) as Hb. pose proof Hr as (F1 & F2 & F3 & F4 & F5 & F6).
  assert (length d = Nat.min (Z.to_nat count) (length l - Z.to_nat pos)) as Hd by (unfold d; by rewrite length_take, length_drop).
  unfold ramfs_read, deref. rewrite (proj2 (Z.eqb_neq _ _) F1). change (vget s (vget s file f_dentry) d_inode) with (inode_of s file).
  rewrite (proj2 (Z.eqb_neq _ _) F2). change (get_ramfs_inode s (inode_of s file)) with (info_of s file). rewrite (proj2 (Z.eqb_neq _ _) F3).
  fold pos. rewrite F4. destruct (Z.leb_spec (Z.of_nat (length l)) pos) as [Hle|Hgt].
  { assert (length d = 0%nat) as E0 by lia. rewrite E0. exists s. split; [done|]. split_and!; try done; [lia|]. by destruct d. }
  rewrite (u64_small (pos + count)) by lia.
  set (n := if Z.of_nat (length l) <? pos + count then s32 (Z.of_nat (length l) - pos) else count).
  assert (n = Z.of_nat (length d)) as En by (unfold n; destruct (Z.ltb_spec (Z.of_nat (length l)) (pos + count)); [rewrite s32_small|]; lia).
  rewrite En. rewrite (u64_small (Z.of_nat (length d))), (u64_small (pos + Z.of_nat (length d))) by lia. fold (data_of s file).
  destruct (memcpy_to (v_mem s) buf (data_of s file + pos) (Z.of_nat (length d))) as [Hm1 Em]; [done|lia|unfold apart in Hap; lia|].
  set (m1 := memcpy _ _ _ _) in *. set (s1 := vset (with_mem s m1) file f_pos (pos + Z.of_nat (length d))).
  assert (forall x f, f <> f_pos -> vget s1 x f = vget s x f) as Es by (intros x f Hf; unfold s1, vget, vset; simpl; by rewrite wr_other by (by right)).
  exists s1. split; [done|].
  assert (forall x, ~ buf <= x < buf + Z.of_nat (length d) -> v_mem s1 x = v_mem s x) as Hout by (intros x Hx; change (v_mem s1) with m1; rewrite Em, decide_False by done; done).
  split_and!; try done.
  - unfold ram_file, data_of, cap_of, info_of, inode_of, get_ramfs_inode in *. rewrite !Es by done. refine (conj F1 (conj F2 (conj F3 (conj F4 (conj F5 _))))).
    destruct F6 as [?|(G1 & G2 & G3)]; [by left|right]. split; [done|]. split; [done|]. rewrite <- G3 at 2. apply bytes_at_ext. intros i Hi. apply Hout.
    unfold apart in Hap. lia.
  - unfold s1, vget, vset. simpl. by rewrite wr_same.
  - assert (d = take (length d) (drop (Z.to_nat pos) l)) as E.
    { rewrite Hd, <- length_drop, <- take_take, firstn_all. done. }
    rewrite E at 2. rewrite <- Hb, bytes_at_drop, bytes_at_take by lia. apply bytes_at_ext. intros i Hi. change (v_mem s1) with m1. rewrite Em, decide_True by lia. f_equal. lia.
Qed.


(** C15: through the VFS, a file of the RAM file system is a byte string with
    a position.  [vfs_write] on its descriptor, at a position inside the file or
    at its end, overwrites the bytes there, extending the file and growing its
    block to a whole number of 4096 bytes if needed, and returns their number;
    it returns -1, with the file, its position and memory unchanged, exactly when
    the block is too small and the heap has no room for a larger one.
    [vfs_read] copies the bytes from the position on, up to the end of the file,
    into the buffer and nowhere else.  Both advance the position by what they
    return.  No other block of the heap changes. *)
Theorem ramfs_file_refines (fops : Z -> file_operations (A := A) (R := R)) (s : vfs) fd l buf count :
  let file := file_of s fd in
  let pos := vget s file f_pos in
  let d := take (Z.to_nat count) (drop (Z.to_nat pos) l) in
  file <> 0 -> vget s file f_op = ramfs_file_ops -> ramfs_file_ops <> 0 -> fops ramfs_file_ops = ramfs_file_operations ->
  a_wf (v_heap s) -> mem_ok (v_mem s) -> ram_file s file l -> 0 <= count < 2 ^ 31 -> 0 <= pos <= Z.of_nat (length l) -> pos + count < 2 ^ 62 ->
  away s file (pos + count) buf count ->
  (exists s' r, vfs_write fops s fd buf count = Some (s', r) /\ a_wf (v_heap s') /\ others_kept s s' file /\ v_sched s' = v_sched s /\
     (full s file (pos + count) /\ r = -1 /\ ram_file s' file l /\ vget s' file f_pos = pos /\ v_mem s' = v_mem s \/
      ~ full s file (pos + count) /\ r = count /\
        ram_file s' file (overwrite l (Z.to_nat pos) (bytes_at (v_mem s) buf (Z.to_nat count))) /\ vget s' file f_pos = pos + count)) /\
  (exists s', vfs_read fops s fd buf count = Some (s', Z.of_nat (length d)) /\ ram_file s' file l /\
     vget s' file f_pos = pos + Z.of_nat (length d) /\ bytes_at (v_mem s') buf (length d) = d /\
     (forall x, ~ buf <= x < buf + Z.of_nat (length d) -> v_mem s' x = v_mem s x) /\
     v_heap s' = v_heap s /\ v_sched s' = v_sched s).
Proof.
  intros file pos d Hf Hop Hop0 Htab Hwf Hm Hr Hc Hp Hpc Haw. unfold vfs_write, vfs_read. fold file.
  rewrite (proj2 (Z.eqb_neq _ _) Hf), Hop, (proj2 (Z.eqb_neq _ _) Hop0), Htab. cbn [write read ramfs_file_operations]. split.
  - destruct (write_spec s file l buf count Hwf Hm Hr Hc Hp Hpc Haw) as (s' & r & Hw & H1 & _ & H2 & Hsc & _ & H3).
    exists s', r. split; [done|]. split; [done|]. split; [done|]. split; [done|].
    destruct H3 as [(? & ? & ? & ? & ?)|(? & ? & ? & ? & _)]; [by left|by right].
  - pose proof Hr as (_ & _ & _ & _ & F5 & _). destruct Haw as [Hap _].
    destruct (read_spec s file l buf count Hm Hr Hc) as (s' & Hrd & H1 & _ & H2 & H3 & H4 & H5 & H6 & _); [fold pos; lia|done|]. by exists s'.
Qed.

Lemma overwrite_middle l pos b :
  (pos <= length l)%nat -> take (length b) (drop pos (overwrite l pos b)) = b.
Proof. intros Hp. unfold overwrite. rewrite drop_app_length' by (rewrite length_take; lia). by rewrite take_app_length. Qed.

Lemma file_of_sched (s s' : vfs) fd : v_sched s' = v_sched s -> file_of s' fd = file_of s fd.
Proof. intros E. unfold file_of, fd_get. by rewrite E. Qed.

(** What is written is read back.  Through the descriptor of a file of the
    RAM file system, [vfs_write] of some bytes at the position, [vfs_lseek] back
    to it and [vfs_read] of as many bytes give the same bytes, unless the heap
    had no room for them. *)
Theorem ramfs_write_read (fops : Z -> file_operations (A := A) (R := R)) (s : vfs) fd l buf count buf2 :
  let file := file_of s fd in
  let pos := vget s file f_pos in
  file <> 0 -> vget s file f_op = ramfs_file_ops -> ramfs_file_ops <> 0 -> fops ramfs_file_ops = ramfs_file_operations ->
  a_wf (v_heap s) -> mem_ok (v_mem s) -> ram_file s file l -> 0 <= count -> 0 <= pos <= Z.of_nat (length l) -> pos + count < 2 ^ 31 ->
  away s file (pos + count) buf count -> away s file (pos + count) buf2 count ->
  exists s1 r, vfs_write fops s fd buf count = Some (s1, r) /\
    (full s file (pos + count) /\ r = -1 /\ ram_file s1 file l \/
     ~ full s file (pos + count) /\ r = count /\ exists s2 s3, vfs_lseek fops s1 fd pos SEEK_SET = Some (s2, pos) /\ vfs_read fops s2 fd buf2 count = Some (s3, count) /\
       bytes_at (v_mem s3) buf2 (Z.to_nat count) = bytes_at (v_mem s) buf (Z.to_nat count)).
Proof.
  intros file pos Hf Hop Hop0 Htab Hwf Hm Hr Hc Hp Hpc Ha1 Ha2. unfold vfs_write. fold file.
  rewrite (proj2 (Z.eqb_neq _ _) Hf), Hop, (proj2 (Z.eqb_neq _ _) Hop0), Htab. cbn [write ramfs_file_operations].
  destruct (write_spec s file l buf count Hwf Hm Hr) as (s1 & r & -> & _ & Hm1 & _ & Hsc & Hrw & Hres); [lia|done|lia|done|].
  fold pos in Hres. exists s1, r. split; [done|]. destruct Hres as [(-> & ? & _ & _ & ?)|(-> & Hnf & Hr1 & _ & Haw)]; [by left|]. right. split; [done|]. split; [done|].
  assert (file_of s1 fd = file) as Ef by (by apply file_of_sched). assert (vget s1 file f_op = ramfs_file_ops) as Eo by (by rewrite Hrw).
  set (s2 := vset s1 file f_pos pos).
  assert (forall x f, f <> f_pos -> vget s2 x f = vget s1 x f) as Es by (intros x f Hx; unfold s2, vget, vset; simpl; by rewrite wr_other by (by right)).
  assert (vget s2 file f_pos = pos) as Ep by (unfold s2, vget, vset; simpl; by rewrite wr_same).
  assert (vget s1 file f_dentry <> 0) as Hd by apply Hr1.
  set (l' := overwrite _ _ _) in Hr1.
  assert (ram_file s2 file l') as Hr2.
  { unfold ram_file, data_of, cap_of, info_of, inode_of, get_ramfs_inode in *. by rewrite !Es by done. }
  assert (data_of s2 file = data_of s1 file /\ cap_of s2 file = cap_of s1 file) as [Ed Ec].
  { unfold data_of, cap_of, info_of, inode_of, get_ramfs_inode. by rewrite !Es by done. }
  destruct (read_spec s2 file l' buf2 count) as (s3 & Hrd & _ & _ & _ & Hb & _); try done; [lia|lia|rewrite Ed, Ec; by apply Haw|].
  set (b := bytes_at (v_mem s) buf (Z.to_nat count)) in *. assert (length b = Z.to_nat count) as Eb by apply bytes_at_length.
  rewrite Ep, <- Eb in Hrd, Hb. unfold l' in Hrd, Hb. rewrite overwrite_middle in Hrd, Hb by lia. rewrite Eb in Hrd, Hb. rewrite Z2Nat.id in Hrd by lia.
  exists s2, s3. split.
  - unfold vfs_lseek. rewrite Ef, (proj2 (Z.eqb_neq _ _) Hf). change (seek_pos s1 file pos SEEK_SET) with (Some (Some pos)). cbn [mbind option_bind].
    rewrite (proj2 (Z.ltb_ge _ _)) by lia. fold s2. rewrite Es, Eo, (proj2 (Z.eqb_neq _ _) Hop0), Htab by done. done.
  - split; [|done]. unfold vfs_read. change (file_of s2 fd) with (file_of s1 fd). rewrite Ef, (proj2 (Z.eqb_neq _ _) Hf), Es, Eo, (proj2 (Z.eqb_neq _ _) Hop0), Htab by done.
    exact Hrd.
Qed.


(** ** Listing a directory *)

Lemma readdir_loop (s : vfs) head l2 : forall l1 pos fuel,
  dlist (v_links s) head (l1 ++ l2) -> 2 + Z.of_nat (length l1) <= pos -> 2 + Z.of_nat (length (l1 ++ l2)) < 2 ^ 31 -> (length l2 < fuel)%nat ->
  loop fuel (readdir_step s head pos) (after head l2, 2 + Z.of_nat (length l1)) = Some (Some (l2 !! Z.to_nat (pos - 2 - Z.of_nat (length l1)))).
Proof.
  induction l2 as [|x l2 IH]; intros l1 pos fuel Hd Hp Hn Hf; (destruct fuel as [|fuel]; [simpl in Hf; lia|]); cbn [loop]; unfold readdir_step at 1.
  - change (after head []) with head. by rewrite Z.eqb_refl.
  - change (after head (x :: l2)) with x. assert (x <> head) as Hx.
    { destruct Hd as [_ Hnd]. apply NoDup_cons in Hnd as [Hh _]. intros ->. apply Hh. set_solver. }
    rewrite (proj2 (Z.eqb_neq _ _) Hx). rewrite length_app in Hn. cbn [length] in Hn, Hf. rewrite u64_small by lia.
    destruct (Z.eqb_spec (2 + Z.of_nat (length l1)) pos) as [E|E].
    + by replace (Z.to_nat (pos - 2 - Z.of_nat (length l1))) with 0%nat by lia.
    + replace (l1 ++ x :: l2) with ((l1 ++ [x]) ++ l2) in Hd by (by rewrite <- app_assoc).
      destruct (dlist_gap _ _ _ _ Hd) as [Hg _]. unfold before in Hg. rewrite app_comm_cons, List.last_last in Hg. rewrite Hg, s32_small by lia.
      replace (2 + Z.of_nat (length l1) + 1) with (2 + Z.of_nat (length (l1 ++ [x]))) by (rewrite length_app; simpl; lia).
      rewrite IH; [|done|rewrite length_app; simpl; lia|rewrite !length_app; simpl; lia|lia]. do 2 f_equal. rewrite length_app. cbn [length].
      replace (Z.to_nat (pos - 2 - Z.of_nat (length l1))) with (S (Z.to_nat (pos - 2 - Z.of_nat (length l1 + 1)))) by lia. done.
Qed.

(** What a call leaves in the entry for an inode, a position and a type. *)
Definition dirent_at (m : mem) (d ino off ty : Z) : Prop :=
  load64 m (de_ino d) = u64 ino /\ load64 m (de_off d) = u64 off /\ load16 m (de_reclen d) = sizeof_dirent /\ m (de_type d) = u8 ty.

Lemma fill_dirent_spec m d ino off ty :
  dirent_at (fill_dirent m d ino off ty) d ino off ty /\ forall x, de_name d <= x -> fill_dirent m d ino off ty x = m x.
Proof.
  unfold dirent_at, fill_dirent, de_ino, de_off, de_reclen, de_type, de_name, load64, load16, store64, store16. split.
  - assert (forall m a v x, x <> a -> store8 m a v x = m x) as S8 by (intros; by apply store8_other).
    split_and!.
    + rewrite (load_le_ext _ (store_le (store_le (store_le m d ino 8) (d + 8) off 8) (d + 16) sizeof_dirent 2)) by (intros; apply S8; lia).
      rewrite !load_store_le_disjoint by lia. apply load_store_le_same.
    + rewrite (load_le_ext _ (store_le (store_le (store_le m d ino 8) (d + 8) off 8) (d + 16) sizeof_dirent 2)) by (intros; apply S8; lia).
      rewrite load_store_le_disjoint by lia. apply load_store_le_same.
    + rewrite (load_le_ext _ (store_le (store_le (store_le m d ino 8) (d + 8) off 8) (d + 16) sizeof_dirent 2)) by (intros; apply S8; lia).
      apply load_store_le_same.
    + by rewrite store8_same.
  - intros x Hx. rewrite store8_other by lia. rewrite !store_le_other by lia. done.
Qed.

(** The name field: 255 characters of the name, padded with zeros. *)
Definition name_field (name : str) : list Z := take 255 (name ++ replicate 255 0).

Lemma put_chars_bytes m a l : Forall (fun c => 0 <= c < 256) l -> bytes_at (put_chars m a l) a (length l) = l.
Proof.
  revert m a. induction l as [|c l IH]; intros m a Hl; [done|]. apply Forall_cons in Hl as [Hc Hl].
  change (length (c :: l)) with (1 + length l)%nat. rewrite bytes_at_app. change (c :: l) with ([c] ++ l). f_equal; [|by apply IH].
  unfold bytes_at. simpl. f_equal. rewrite Z.add_0_r, put_chars_frame by lia. rewrite store8_same. by rewrite u8_small.
Qed.

Lemma name_field_length name : length (name_field name) = 255%nat.
Proof. unfold name_field. rewrite length_take, length_app, length_replicate. lia. Qed.

Lemma name_field_bytes name : Forall (fun c => 0 <= c < 256) name -> Forall (fun c => 0 <= c < 256) (name_field name).
Proof. intros Hn. apply Forall_take, Forall_app. split; [done|]. apply Forall_replicate. lia. Qed.

(** Successive calls of [ramfs_readdir] list the directory: after the two
    entries [.] and [..] the call at position [2 + i] gives child [i] of the list
    of subdirectories with its name, inode and type and returns 1, and the
    first call behind the last child returns 0 and changes nothing.  A negative
    child (one looked up and not found) is listed as well, with inode 0. *)
Theorem ramfs_readdir_lists fuel (s : vfs) file dirent count cs :
  let dentry := vget s file f_dentry in
  let pos := vget s file f_pos in
  dentry <> 0 -> vget s dentry d_inode <> 0 -> S_ISDIR (vget s (vget s dentry d_inode) i_mode) = true ->
  dlist (v_links s) (d_subdirs dentry) (d_child <$> cs) -> 2 + Z.of_nat (length cs) < 2 ^ 31 -> (length cs < fuel)%nat ->
  0 <= pos <= 2 + Z.of_nat (length cs) ->
  Forall (fun c => Forall (fun x => 0 <= x < 256) (v_str s (vget s c d_name))) cs ->
  exists s', ramfs_readdir fuel s file dirent count = Some (s', if pos <? 2 + Z.of_nat (length cs) then 1 else 0) /\
    (pos = 2 + Z.of_nat (length cs) -> s' = s) /\
    (pos < 2 + Z.of_nat (length cs) -> vget s' file f_pos = pos + 1 /\ v_links s' = v_links s /\ forall x f, f <> f_pos -> vget s' x f = vget s x f) /\
    forall i c, cs !! i = Some c -> pos = 2 + Z.of_nat i ->
      dirent_at (v_mem s') dirent (vget s c d_inode) pos (d_type_of s (vget s c d_inode)) /\
      bytes_at (v_mem s') (de_name dirent) 255 = name_field (v_str s (vget s c d_name)).
Proof.
  intros dentry pos Hd Hi Hdir Hl Hn Hf Hp Hnm. unfold ramfs_readdir. fold dentry pos.
  rewrite (proj2 (Z.eqb_neq _ _) Hd), (proj2 (Z.eqb_neq _ _) Hi), Hdir. cbn [orb negb].
  assert (forall m v, let s' := vset (with_mem s m) file f_pos v in
    vget s' file f_pos = v /\ v_links s' = v_links s /\ forall x f, f <> f_pos -> vget s' x f = vget s x f) as Hset.
  { intros m v. unfold vget, vset. simpl. split; [by rewrite wr_same|]. split; [done|]. intros x f Hx. by rewrite wr_other by (by right). }
  rewrite (u64_small (pos + 1)) by lia.
  destruct (Z.eqb_spec pos 0) as [E0|E0]; [|destruct (Z.eqb_spec pos 1) as [E1|E1]].
  - rewrite (proj2 (Z.ltb_lt _ _)) by lia. eexists. split; [done|]. split; [lia|]. split; [intros _; apply Hset|]. intros; lia.
  - rewrite (proj2 (Z.ltb_lt _ _)) by lia. eexists. split; [done|]. split; [lia|]. split; [intros _; apply Hset|]. intros; lia.
  - rewrite (dlist_first _ _ _ Hl). cbn [mbind option_bind]. change 2 with (2 + Z.of_nat (length (@nil Z))) at 1.
    rewrite readdir_loop; [|done|simpl; lia|simpl; by rewrite length_fmap|by rewrite length_fmap]. cbn [mbind option_bind length].
    rewrite list_lookup_fmap, Z.sub_0_r. destruct (cs !! Z.to_nat (pos - 2)) as [c|] eqn:Ec; cbn [fmap option_fmap option_map].
    + pose proof (lookup_lt_Some _ _ _ Ec). rewrite (proj2 (Z.ltb_lt _ _)) by lia. replace (d_child c - 72) with c by (unfold d_child; lia).
      eexists. split; [done|]. split; [lia|]. split; [intros _; apply Hset|]. intros i c' Hc' Hpos.
      assert (i = Z.to_nat (pos - 2)) as -> by lia. rewrite Ec in Hc'. injection Hc' as <-. change (v_mem (vset (with_mem s ?m) _ _ _)) with m.
      destruct (fill_dirent_spec (put_chars (v_mem s) (de_name dirent) (name_field (v_str s (vget s c d_name)))) dirent (vget s c d_inode) pos (d_type_of s (vget s c d_inode))) as [H1 H2].
      split; [exact H1|]. rewrite (bytes_at_ext (put_chars (v_mem s) (de_name dirent) (name_field (v_str s (vget s c d_name)))) _ _ (de_name dirent)) by (intros i Hi'; apply H2; lia).
      rewrite <- (name_field_length (v_str s (vget s c d_name))) at 1. apply put_chars_bytes, name_field_bytes.
      rewrite Forall_forall in Hnm. apply (Hnm c). by eapply list_elem_of_lookup_2.
    + apply lookup_ge_None in Ec. rewrite (proj2 (Z.ltb_ge _ _)) by lia. exists s. split; [done|]. split; [done|]. split; [lia|].
      intros i c Hc Hpos. apply lookup_lt_Some in Hc. lia.
Qed.

End ramfs.

(** ** Examples *)

#[local] Existing Instance Heap.heap_allocator.

(** The file of descriptor 0, empty, in a memory of counting bytes. *)
Definition demo_ram : vfs (A := Spinlock.cpu * Heap.heap) (R := unit) :=
  with_mem (vset (vset (vset demo_vfs demo_b d_inode demo_inode) demo_inode i_private 0x610000) 0x1028 f_op 0x9000) (fun x => x mod 256).

Lemma demo_ram_file : ram_file demo_ram 0x1028 [].
Proof. repeat split; try discriminate. by left. Qed.

Lemma demo_ram_away buf : 0 < buf <= 0xFFD -> away demo_ram 0x1028 3 buf 3.
Proof.
  intros Hb. split; [unfold apart; right; change (0 + 0 <= buf); lia|].
  intros h p Ha. unfold apart. left. assert (snd <$> a_alloc (v_heap demo_ram) (new_capacity 3) = Some 0x10A8) as E by (vm_compute; reflexivity).
  rewrite Ha in E. injection E as ->. lia.
Qed.

Lemma demo_ram_ok : a_wf (v_heap demo_ram) /\ mem_ok (v_mem demo_ram).
Proof. split; [exact demo_vfs_heap|]. intros a. simpl. apply Z.mod_pos_bound. lia. Qed.

Lemma demo_ram_room : ~ full demo_ram 0x1028 3.
Proof. intros [_ Hno]. by apply (has_room (v_heap demo_ram) (new_capacity 3) 0x10A8) in Hno. Qed.

(** Three bytes written to the empty file. *)
Lemma ramfs_file_refines_witness :
  exists s', vfs_write (fun _ => ramfs_file_operations) demo_ram 0 0x500 3 = Some (s', 3) /\
    ram_file s' 0x1028 [0; 1; 2] /\ vget s' 0x1028 f_pos = 3.
Proof.
  destruct (ramfs_file_refines 0x9000 (fun _ => ramfs_file_operations) demo_ram 0 [] 0x500 3) as [(s' & r & Hw & _ & _ & _ & Hr) _].
  - discriminate.
  - reflexivity.
  - discriminate.
  - reflexivity.
  - apply demo_ram_ok.
  - apply demo_ram_ok.
  - exact demo_ram_file.
  - lia.
  - vm_compute. split; discriminate.
  - vm_compute. reflexivity.
  - apply demo_ram_away. lia.
  - destruct Hr as [[Hf _]|(_ & -> & Hr & Hp)]; [by destruct demo_ram_room|]. exists s'. split; [exact Hw|]. split; [exact Hr|exact Hp].
Defined.

Lemma ramfs_write_read_witness :
  exists s1 s2 s3, vfs_write (fun _ => ramfs_file_operations) demo_ram 0 0x500 3 = Some (s1, 3) /\
    vfs_lseek (fun _ => ramfs_file_operations) s1 0 0 SEEK_SET = Some (s2, 0) /\
    vfs_read (fun _ => ramfs_file_operations) s2 0 0x600 3 = Some (s3, 3) /\ bytes_at (v_mem s3) 0x600 3 = [0; 1; 2].
Proof.
  destruct (ramfs_write_read 0x9000 (fun _ => ramfs_file_operations) demo_ram 0 [] 0x500 3 0x600) as (s1 & r & Hw & Hr).
  - discriminate.
  - reflexivity.
  - discriminate.
  - reflexivity.
  - apply demo_ram_ok.
  - apply demo_ram_ok.
  - exact demo_ram_file.
  - lia.
  - vm_compute. split; discriminate.
  - vm_compute. reflexivity.
  - apply demo_ram_away. lia.
  - apply demo_ram_away. lia.
  - destruct Hr as [[Hf _]|(_ & -> & s2 & s3 & H1 & H2 & H3)]; [by destruct demo_ram_room|]. by exists s1, s2, s3.
Defined.


(** Descriptor 0 open on a directory with the child [c], at position 2. *)
Definition demo_dir : vfs (A := Spinlock.cpu * Heap.heap) (R := unit) :=
  with_links (vset (vset demo_ram demo_inode i_mode 0x41ED) 0x1028 f_pos 2)
    (list_to_map [(demo_b + 56, LH (demo_c + 72) (demo_c + 72)); (demo_c + 72, LH (demo_b + 56) (demo_b + 56))]).

Lemma ramfs_readdir_lists_witness :
  exists s', ramfs_readdir 2 demo_dir 0x1028 0x800 1 = Some (s', 1) /\ bytes_at (v_mem s') (de_name 0x800) 255 = 99 :: replicate 254 0.
Proof.
  destruct (ramfs_readdir_lists 2 demo_dir 0x1028 0x800 1 [demo_c]) as (s' & Hr & _ & _ & He).
  - discriminate.
  - discriminate.
  - vm_compute. reflexivity.
  - split; [vm_compute; repeat split; reflexivity|apply (bool_decide_unpack _); vm_compute; exact I].
  - vm_compute. reflexivity.
  - simpl. lia.
  - vm_compute. split; discriminate.
  - apply Forall_singleton. vm_compute. constructor; [split; [discriminate|reflexivity]|constructor].
  - exists s'. split; [exact Hr|]. destruct (He 0%nat demo_c eq_refl eq_refl) as [_ Hb]. exact Hb.
Defined.

End Ramfs.
