(* ===== verification/Fat32.v ===== *)
(** * FAT32 (src/kernel/fs/fat32.c)

    A file system on a block device of 512-byte sectors.  The device is reached
    through the buffer cache: [bread] gives the contents of a sector or fails,
    and a changed buffer is marked dirty, written and released.  What FAT32
    needs of the cache is the class [SectorIO]; sector contents are memories of
    512 bytes.  The theorems are about FAT32 over any such cache; the one of
    [Buffer] never completes a read of a RAM disk, and over it every sector read
    fails. *)
From S2P Require Import Prelude Memory CString Allocator ListHead Store SortedQueue Spinlock Heap Sched Vfs Ramfs.
Import CString ListHead Vfs Ramfs.

Module Fat32.

Definition SECTOR : Z := 512.
Definition EOC : Z := 0x0FFFFFF8.
Definition FAT_END : Z := 0x0FFFFFFF.
Definition ENTRIES : nat := 16.
Definition ATTR_DIR : Z := 0x10.
Definition ATTR_LFN : Z := 0x0F.
Definition FAT32_MAGIC : Z := 0x4d44.
Definition sizeof_sb_info : Z := 40.

(** ** The interface of the buffer cache *)

(** [io_read r dev b] is [bread] of a sector with its [brelse]; [io_write] is
    the update of a buffer that [bread] returned, with [mark_buffer_dirty],
    [sync_dirty_buffer] and [brelse].  [content] is what a reader sees: the
    buffer if the sector is cached, the device otherwise. *)
Class SectorIO (R : Type) := {
  io_read : R -> Z -> Z -> R * option mem;
  io_write : R -> Z -> Z -> mem -> R;
  io_gendisk : R -> str -> Z;
  content : R -> Z -> Z -> mem;

  io_read_content r dev b r' d : io_read r dev b = (r', Some d) -> d = content r dev b;
  io_read_keeps r dev b dev' b' : content (fst (io_read r dev b)) dev' b' = content r dev' b';
  io_write_content r dev b m dev' b' :
    content (io_write r dev b m) dev' b' = if decide (dev' = dev /\ b' = b) then m else content r dev' b'
}.

(** ** Layout on the device *)

(** [struct fat_dir_entry], entry [j] of a sector. *)
Definition e_base (j : Z) : Z := 32 * j.
Definition e_attr (j : Z) : Z := e_base j + 11.
Definition e_cluster_high (j : Z) : Z := e_base j + 20.
Definition e_cluster_low (j : Z) : Z := e_base j + 26.
Definition e_size (j : Z) : Z := e_base j + 28.

(** [struct fat_boot_sector]. *)
Definition bs_sectors_per_cluster : Z := 13.
Definition bs_reserved_sectors : Z := 14.
Definition bs_fat_count : Z := 16.
Definition bs_total_sectors_16 : Z := 19.
Definition bs_fat_size_16 : Z := 22.
Definition bs_hidden_sectors : Z := 28.
Definition bs_total_sectors_32 : Z := 32.
Definition bs_fat_size_32 : Z := 36.
Definition bs_root_cluster : Z := 44.

(** ** Names *)

Definition upcase (c : Z) : Z := if (97 <=? c) && (c <=? 122) then c - 32 else c.
Definition downcase (c : Z) : Z := if (65 <=? c) && (c <=? 90) then c + 32 else c.
Definition period : Z := 46.
Definition space : Z := 32.

(** The characters before the first period, and those from it on. *)
Fixpoint stem (name : str) : str * str :=
  match name with
  | [] => ([], [])
  | c :: r => if c =? period then ([], name) else let '(a, b) := stem r in (c :: a, b)
  end.

(** The 11 characters of an entry. *)
Definition fat32_format_name (name : str) : str :=
  let '(base, rest) := stem name in
  let ext := match rest with [] => [] | _ :: r => take 3 r end in
  let pad n (l : str) := take n (l ++ replicate n space) in
  pad 8%nat (upcase <$> take 8 base) ++ pad 3%nat (upcase <$> ext).

(** The characters up to the first space. *)
Fixpoint trimmed (l : str) : str :=
  match l with
  | [] => []
  | c :: r => if c =? space then [] else c :: trimmed r
  end.

(** The string in a buffer of characters: those before the first zero. *)
Fixpoint c_string (l : str) : str :=
  match l with
  | [] => []
  | c :: r => if c =? 0 then [] else c :: c_string r
  end.

(** The name of an entry as [fat32_lookup] and [fat32_readdir] build it. *)
Definition entry_name (chars : str) (attr : Z) : str :=
  c_string (trimmed (take 8 chars) ++
    (if negb (attr =? ATTR_DIR) && negb (nth 8 chars 0 =? space) then period :: trimmed (take 3 (drop 8 chars)) else [])).

(** [strcasecmp] gives 0. *)
Definition same_name (a b : str) : bool := bool_decide (tolower <$> a = tolower <$> b).

(** *** Names survive the table *)

Definition name_char (c : Z) : Prop := 0 < c < 256 /\ c <> period /\ c <> space.
(** A name of at most eight characters with an extension of at most three. *)
Definition short_name (base ext : str) : str := base ++ match ext with [] => [] | _ => period :: ext end.

Lemma stem_short base ext :
  Forall name_char base -> stem (short_name base ext) = (base, match ext with [] => [] | _ => period :: ext end).
Proof.
  unfold short_name. induction base as [|c base IH]; intros Hb; simpl; [by destruct ext|]. apply Forall_cons in Hb as [(_ & Hc & _) Hb].
  rewrite (proj2 (Z.eqb_neq c period)) by done. by rewrite IH.
Qed.

Lemma upcase_char c : name_char c -> name_char (upcase c) /\ tolower (upcase c) = tolower c.
Proof.
  unfold name_char, upcase, tolower, period, space. intros Hc. repeat case_match; simpl_bool; try lia.
Qed.

Lemma trimmed_app l r : Forall name_char l -> trimmed (l ++ space :: r) = l.
Proof. induction l as [|c l IH]; intros Hl; [done|]. apply Forall_cons in Hl as [(_ & _ & Hc) Hl]. simpl. rewrite (proj2 (Z.eqb_neq c space)) by done. by rewrite IH. Qed.

Lemma trimmed_full l : Forall name_char l -> trimmed l = l.
Proof. induction l as [|c l IH]; intros Hl; [done|]. apply Forall_cons in Hl as [(_ & _ & Hc) Hl]. simpl. rewrite (proj2 (Z.eqb_neq c space)) by done. by rewrite IH. Qed.

(** A field of [n] characters padded with spaces gives back its contents. *)
Lemma trimmed_pad n l : Forall name_char l -> (length l <= n)%nat -> trimmed (take n (l ++ replicate n space)) = l.
Proof.
  intros Hl Hn. rewrite take_app, take_ge by done. destruct (n - length l)%nat as [|k] eqn:E; [rewrite take_0, app_nil_r; by apply trimmed_full|].
  destruct n as [|n]; [lia|]. simpl. by apply trimmed_app.
Qed.

Lemma pad_length n (l : str) : length (take n (l ++ replicate n space)) = n.
Proof. rewrite length_take, length_app, length_replicate. lia. Qed.

Lemma c_string_full l : Forall (fun c => c <> 0) l -> c_string l = l.
Proof. induction l as [|c l IH]; intros Hl; [done|]. apply Forall_cons in Hl as [Hc Hl]. simpl. rewrite (proj2 (Z.eqb_neq c 0)) by done. by rewrite IH. Qed.

Lemma name_chars_up l : Forall name_char l -> Forall name_char (upcase <$> l) /\ tolower <$> (upcase <$> l) = tolower <$> l.
Proof.
  induction l as [|c l IH]; intros Hl; [done|]. apply Forall_cons in Hl as [Hc Hl]. destruct (IH Hl) as [H1 H2]. destruct (upcase_char c Hc) as [H3 H4].
  rewrite !fmap_cons. split; [by constructor|]. by rewrite H4, H2.
Qed.

Lemma name_chars_nonzero l : Forall name_char l -> Forall (fun c => c <> 0) l.
Proof. intros Hl. eapply Forall_impl; [exact Hl|]. intros c [? _]. lia. Qed.

(** The eight-plus-three form of a name is found again: the name
    [fat32_lookup] builds from the entry that [fat32_format_name] gives equals
    the original up to case, for every name of 1 to 8 characters with an extension
    of up to 3.  The entry of a directory is the exception: its extension is
    dropped, so a directory whose name has one is not found. *)
Theorem fat32_name_roundtrip base ext attr :
  (length base <= 8)%nat -> (length ext <= 3)%nat -> Forall name_char base -> Forall name_char ext ->
  same_name (entry_name (fat32_format_name (short_name base ext)) attr) (short_name base ext) =
    (negb (attr =? ATTR_DIR) || bool_decide (ext = [])).
Proof.
  intros Hb He Fb Fe. unfold fat32_format_name. rewrite stem_short by done. rewrite (take_ge base) by done.
  destruct (name_chars_up base Fb) as [Ub Lb]. set (f1 := take 8 _).
  assert (length f1 = 8%nat) as L1 by apply pad_length. assert (trimmed f1 = upcase <$> base) as T1 by (apply trimmed_pad; [done|by rewrite length_fmap]).
  destruct (name_chars_up ext Fe) as [Ue Le]. unfold entry_name.
  set (e := match match ext with [] => [] | _ => period :: ext end with [] => [] | _ :: r => take 3 r end).
  assert (e = ext) as -> by (unfold e; destruct ext; [done|]; by apply take_ge).
  set (f2 := take 3 (_ ++ _)). assert (length f2 = 3%nat) as L2 by apply pad_length.
  assert (trimmed f2 = upcase <$> ext) as T2 by (apply trimmed_pad; [done|by rewrite length_fmap]).
  rewrite take_app_length', drop_app_length', (take_ge f2), T1, T2 by lia. rewrite app_nth2, L1 by lia. change (nth (8 - 8) f2 0) with (nth 0 f2 0).
  assert (nth 0 f2 0 =? space = bool_decide (ext = [])) as ->.
  { unfold f2. destruct ext as [|c r]; [done|]. simpl. apply Forall_cons in Ue as [(_ & _ & Hc) _]. by rewrite (proj2 (Z.eqb_neq _ _) Hc). }
  assert (Forall (fun c => c <> 0) (upcase <$> base)) as Nb by (by apply name_chars_nonzero).
  assert (Forall (fun c => c <> 0) (period :: (upcase <$> ext))) as Ne by (constructor; [done|by apply name_chars_nonzero]).
  destruct (attr =? ATTR_DIR); cbn [negb andb orb].
  - rewrite app_nil_r, c_string_full by done. unfold same_name, short_name. apply bool_decide_ext. rewrite fmap_app, Lb.
    destruct ext as [|c r]; [rewrite app_nil_r; done|]. split; [|done]. intros E. exfalso. apply (f_equal length) in E.
    rewrite length_app in E. simpl in E. lia.
  - destruct ext as [|c r]; cbn [negb bool_decide].
    + rewrite bool_decide_eq_true_2 by done. cbn [negb]. rewrite app_nil_r, c_string_full by done. unfold same_name, short_name. rewrite app_nil_r, Lb.
      by apply bool_decide_eq_true_2.
    + rewrite bool_decide_eq_false_2 by done. cbn [negb]. rewrite c_string_full by (apply Forall_app; done). unfold same_name, short_name.
      apply bool_decide_eq_true_2. rewrite !fmap_app, Lb. f_equal. rewrite fmap_cons, Le. done.
Qed.

Section fat32.
Context {A R : Type} `{Allocator A} `{SectorIO R}.
Context (dentry_hashtable fat32_dir_inode_ops fat32_dir_ops fat32_file_ops fat32_sops fat32_fs_type : Z).
Notation vfs := (vfs (A := A) (R := R)).

(** ** Clusters and the allocation table *)

Definition read_sector (s : vfs) (sb block : Z) : vfs * option mem :=
  let '(r, d) := io_read (v_rest s) (vget s sb s_bdev) block in (with_rest s r, d).
Definition write_sector (s : vfs) (sb block : Z) (d : mem) : vfs := with_rest s (io_write (v_rest s) (vget s sb s_bdev) block d).

Definition cluster_to_sector (s : vfs) (sbi cluster : Z) : Z :=
  u32 (vget s sbi data_start_sector + u32 (u32 (cluster - 2) * vget s sbi sectors_per_cluster)).

(** The sector of the table with the entry of a cluster, and the offset in it;
    [s_blocksize] is not 0. *)
Definition fat_sector (s : vfs) (sb cluster : Z) : Z :=
  u32 (vget s (vget s sb s_fs_info) fat_start_sector + u32 (cluster * 4) / vget s sb s_blocksize).
Definition fat_offset (s : vfs) (sb cluster : Z) : Z := u32 (cluster * 4) mod vget s sb s_blocksize.

Definition fat32_next_cluster (s : vfs) (sb cluster : Z) : vfs * Z :=
  let '(s, bh) := read_sector s sb (fat_sector s sb cluster) in
  match bh with
  | None => (s, FAT_END)
  | Some data => (s, load32 data (fat_offset s sb cluster) .& 0x0FFFFFFF)
  end.

Definition fat32_write_fat_entry (s : vfs) (sb cluster value : Z) : vfs * Z :=
  let '(s, bh) := read_sector s sb (fat_sector s sb cluster) in
  match bh with
  | None => (s, -1)
  | Some data =>
      let off := fat_offset s sb cluster in
      (write_sector s sb (fat_sector s sb cluster) (store32 data off ((load32 data off .& 0xF0000000) .| (value .& 0x0FFFFFFF))), 0)
  end.

(** [n] clusters from [cluster] on are left to try. *)
Fixpoint find_free (n : nat) (s : vfs) (sb cluster : Z) : vfs * Z :=
  match n with
  | O => (s, 0)
  | S n =>
      let '(s, val) := fat32_next_cluster s sb cluster in
      if val =? 0 then (s, cluster) else find_free n s sb (cluster + 1)
  end.

(** A volume with no sectors in a cluster divides by zero. *)
Definition fat32_find_free_cluster (s : vfs) (sb : Z) : option (vfs * Z) :=
  let sbi := vget s sb s_fs_info in
  if vget s sbi sectors_per_cluster =? 0 then None
  else
    let max_cluster := vget s sbi total_sectors / vget s sbi sectors_per_cluster in
    Some (find_free (Z.to_nat (max_cluster - 2)) s sb 2).

Definition fat32_free_cluster (s : vfs) (sb cluster : Z) : vfs := fst (fat32_write_fat_entry s sb cluster 0).

(** Zeros in the sectors of a cluster that can be read. *)
Definition zero_sectors (s : vfs) (sb sector n : Z) : vfs :=
  for_up (Z.to_nat n) 0 (fun i s =>
    let '(s, bh) := read_sector s sb (u32 (sector + i)) in
    match bh with None => s | Some data => write_sector s sb (u32 (sector + i)) (memset data 0 0 SECTOR) end) s.

Definition fat32_alloc_cluster (s : vfs) (sb prev_cluster : Z) : option (vfs * Z) :=
  '(s, new_cluster) ← fat32_find_free_cluster s sb;
  if new_cluster =? 0 then Some (s, 0)
  else
    let '(s, r) := fat32_write_fat_entry s sb new_cluster FAT_END in
    if r <? 0 then Some (s, 0)
    else
      let '(s, linked) :=
        if negb (prev_cluster =? 0) then
          let '(s, r) := fat32_write_fat_entry s sb prev_cluster new_cluster in
          if r <? 0 then (fst (fat32_write_fat_entry s sb new_cluster 0), false) else (s, true)
        else (s, true) in
      if (linked : bool) then
        let sbi := vget s sb s_fs_info in
        Some (zero_sectors s sb (cluster_to_sector s sbi new_cluster) (vget s sbi sectors_per_cluster), new_cluster)
      else Some (s, 0).

Definition fat32_get_inode (s : vfs) (sb cluster size : Z) (is_dir : bool) : option (vfs * Z) :=
  '(s, inode) ← new_inode s sb;
  if inode =? 0 then Some (s, 0)
  else
    let s := vset s inode i_ino cluster in
    let s := vset s inode i_size size in
    Some (if is_dir then
            vset (vset (vset s inode i_mode (S_IFDIR .| 0x1ED)) inode i_op fat32_dir_inode_ops) inode i_fop fat32_dir_ops
          else
            vset (vset (vset s inode i_mode (S_IFREG .| 0x1A4)) inode i_op 0) inode i_fop fat32_file_ops, inode).


(** ** Directories *)

(** What the loops over directory entries come to: a sector that cannot be read,
    the value of the first entry that ends the loop with its sector, contents and
    index, or the state carried along when there is none. *)
Inductive scan (C B : Type) :=
  | ReadError
  | Stop (block : Z) (data : mem) (j : Z) (b : B)
  | More (acc : C).
Arguments ReadError {C B}.
Arguments Stop {C B} block data j b.
Arguments More {C B} acc.

Fixpoint scan_entries {C B : Type} (n : nat) (p : mem -> Z -> C -> C + B) (block : Z) (data : mem) (j : Z) (acc : C) : scan C B :=
  match n with
  | O => More acc
  | S n => match p data j acc with
           | inr b => Stop block data j b
           | inl acc => scan_entries n p block data (j + 1) acc
           end
  end.

(** The [n] sectors from [sector + i] on. *)
Fixpoint scan_sectors {C B : Type} (n : nat) (p : mem -> Z -> C -> C + B) (s : vfs) (sb sector i : Z) (acc : C) : vfs * scan C B :=
  match n with
  | O => (s, More acc)
  | S n =>
      let '(s, bh) := read_sector s sb (u32 (sector + i)) in
      match bh with
      | None => (s, ReadError)
      | Some data =>
          match scan_entries ENTRIES p (u32 (sector + i)) data 0 acc with
          | More acc => scan_sectors n p s sb sector (i + 1) acc
          | r => (s, r)
          end
      end
  end.

(** The sectors of a cluster. *)
Definition scan_cluster {C B : Type} (p : mem -> Z -> C -> C + B) (s : vfs) (sb cluster : Z) (acc : C) : vfs * scan C B :=
  let sbi := vget s sb s_fs_info in
  scan_sectors (Z.to_nat (vget s sbi sectors_per_cluster)) p s sb (cluster_to_sector s sbi cluster) 0 acc.

(** [while (cluster < 0x0FFFFFF8)] *)
Fixpoint scan_dir {C B : Type} (fuel : nat) (p : mem -> Z -> C -> C + B) (s : vfs) (sb cluster : Z) (acc : C) : option (vfs * scan C B) :=
  match fuel with
  | O => None
  | S fuel =>
      if EOC <=? cluster then Some (s, More acc)
      else
        let '(s, r) := scan_cluster p s sb cluster acc in
        match r with
        | More acc => let '(s, next) := fat32_next_cluster s sb cluster in scan_dir fuel p s sb next acc
        | r => Some (s, r)
        end
  end.

Definition first_char (data : mem) (j : Z) : Z := load8 data (e_base j).
Definition entry_chars (data : mem) (j : Z) : str := bytes_at data (e_base j) 11.
Definition entry_cluster (data : mem) (j : Z) : Z := u32 (load16 data (e_cluster_high j) .<< 16) .| load16 data (e_cluster_low j).

(** The entry [fat32_add_entry] puts together. *)
Definition put_entry (data : mem) (j : Z) (fat_name : str) (cluster size : Z) (is_dir : bool) : mem :=
  let m := memset data (e_base j) 0 32 in
  let m := put_chars m (e_base j) fat_name in
  let m := store8 m (e_attr j) (if is_dir then 0x10 else 0x20) in
  let m := store16 m (e_cluster_high j) ((cluster .>> 16) .& 0xFFFF) in
  let m := store16 m (e_cluster_low j) (cluster .& 0xFFFF) in
  store32 m (e_size j) size.

(** An entry that is unused or deleted. *)
Definition is_free (data : mem) (j : Z) (_ : unit) : unit + unit :=
  if (first_char data j =? 0) || (first_char data j =? 0xE5) then inr tt else inl tt.

Fixpoint add_entry (fuel : nat) (s : vfs) (sb dir_cluster : Z) (fat_name : str) (cluster size : Z) (is_dir : bool) : option (vfs * Z) :=
  match fuel with
  | O => None
  | S fuel =>
      let '(s, r) := scan_cluster is_free s sb dir_cluster tt in
      match r with
      | ReadError => Some (s, -1)
      | Stop block data j _ => Some (write_sector s sb block (put_entry data j fat_name cluster size is_dir), 0)
      | More _ =>
          let '(s, next) := fat32_next_cluster s sb dir_cluster in
          if EOC <=? next then
            '(s, next) ← fat32_alloc_cluster s sb dir_cluster;
            if next =? 0 then Some (s, -1) else add_entry fuel s sb next fat_name cluster size is_dir
          else add_entry fuel s sb next fat_name cluster size is_dir
      end
  end.

Definition fat32_add_entry (fuel : nat) (s : vfs) (dir : Z) (name : str) (cluster size : Z) (is_dir : bool) : option (vfs * Z) :=
  add_entry fuel s (vget s dir i_sb) (u32 (vget s dir i_ino)) (fat32_format_name name) cluster size is_dir.

Definition fat32_create (fuel : nat) (s : vfs) (dir dentry mode : Z) : option (vfs * Z) :=
  let sb := vget s dir i_sb in
  '(s, cluster) ← fat32_alloc_cluster s sb 0;
  if cluster =? 0 then Some (s, -1)
  else
    '(s, r) ← fat32_add_entry fuel s dir (v_str s (vget s dentry d_name)) cluster 0 false;
    if r <? 0 then Some (fat32_free_cluster s sb cluster, -1)
    else
      '(s, inode) ← fat32_get_inode s sb cluster 0 false;
      if inode =? 0 then Some (s, -1)
      else s ← d_instantiate s dentry inode; Some (s, 0).

Definition fat32_mkdir (fuel : nat) (s : vfs) (dir dentry mode : Z) : option (vfs * Z) :=
  let sb := vget s dir i_sb in
  '(s, cluster) ← fat32_alloc_cluster s sb 0;
  if cluster =? 0 then Some (s, -1)
  else
    '(s, r) ← fat32_add_entry fuel s dir (v_str s (vget s dentry d_name)) cluster 0 true;
    if r <? 0 then Some (fat32_free_cluster s sb cluster, -1)
    else
      '(s, new_dir) ← fat32_get_inode s sb cluster 0 true;
      if new_dir =? 0 then Some (s, -1)
      else
        '(s, _) ← fat32_add_entry fuel s new_dir dot cluster 0 true;
        let parent := u32 (vget s dir i_ino) in
        let parent_cluster := if parent =? vget s (vget s sb s_fs_info) root_cluster then 0 else parent in
        '(s, _) ← fat32_add_entry fuel s new_dir dotdot parent_cluster 0 true;
        s ← d_instantiate s dentry new_dir; Some (s, 0).

Definition fat32_mknod (fuel : nat) (s : vfs) (dir dentry mode dev : Z) : option (vfs * Z) :=
  if negb (S_ISREG mode) then Some (s, -1) else fat32_create fuel s dir dentry mode.

(** The end of the directory stops the loop; deleted entries and long names are
    passed over. *)
Definition used_entry {C B : Type} (stop : B) (p : mem -> Z -> C -> C + B) (data : mem) (j : Z) (acc : C) : C + B :=
  if first_char data j =? 0 then inr stop
  else if first_char data j =? 0xE5 then inl acc
  else if load8 data (e_attr j) =? ATTR_LFN then inl acc
  else p data j acc.

Definition is_named (name : str) (data : mem) (j : Z) (_ : unit) : unit + bool :=
  if same_name (entry_name (entry_chars data j) (load8 data (e_attr j))) name then inr true else inl tt.

Definition fat32_lookup (fuel : nat) (s : vfs) (dir dentry : Z) : option (vfs * Z) :=
  let sb := vget s dir i_sb in
  '(s, r) ← scan_dir fuel (used_entry false (is_named (v_str s (vget s dentry d_name)))) s sb (u32 (vget s dir i_ino)) tt;
  match r with
  | Stop _ data j true =>
      '(s, inode) ← fat32_get_inode s sb (entry_cluster data j) (load32 data (e_size j)) (negb (load8 data (e_attr j) .& ATTR_DIR =? 0));
      s ← d_add dentry_hashtable s dentry inode;
      Some (s, dentry)
  | _ => Some (s, 0)
  end.

Definition is_inode (ino : Z) (data : mem) (j : Z) (_ : unit) : unit + bool :=
  if entry_cluster data j =? ino then inr true else inl tt.

Definition fat32_update_inode_size (fuel : nat) (s : vfs) (inode dentry : Z) : option (vfs * Z) :=
  if (dentry =? 0) || (vget s dentry d_parent =? 0) then Some (s, -1)
  else
    let dir := vget s (vget s dentry d_parent) d_inode in
    let sb := vget s inode i_sb in
    deref dir
      ('(s, r) ← scan_dir fuel (used_entry false (is_inode (vget s inode i_ino))) s sb (u32 (vget s dir i_ino)) tt;
       match r with
       | Stop block data j true => Some (write_sector s sb block (store32 data (e_size j) (vget s inode i_size)), 0)
       | _ => Some (s, -1)
       end).

(** The entry whose index among the used ones is [target]. *)
Definition is_index (target : Z) (_ : mem) (_ : Z) (idx : Z) : Z + bool :=
  if idx =? target then inr true else inl (u32 (idx + 1)).

Definition fat32_readdir (fuel : nat) (s : vfs) (file dirent count : Z) : option (vfs * Z) :=
  deref (vget s file f_dentry)
    (let inode := vget s (vget s file f_dentry) d_inode in
     let pos := vget s file f_pos in
     deref inode
       (if pos =? 0 then
          Some (vset (with_mem s (store8 (put_string (v_mem s) (de_name dirent) dot) (de_type dirent) DT_DIR)) file f_pos 1, 1)
        else if pos =? 1 then
          Some (vset (with_mem s (store8 (put_string (v_mem s) (de_name dirent) dotdot) (de_type dirent) DT_DIR)) file f_pos 2, 1)
        else
          let sb := vget s inode i_sb in
          '(s, r) ← scan_dir fuel (used_entry false (is_index (u32 (pos - 2)))) s sb (u32 (vget s inode i_ino)) 0;
          match r with
          | ReadError => Some (s, -1)
          | Stop _ data j true =>
              let attr := load8 data (e_attr j) in
              let name := downcase <$> entry_name (entry_chars data j) attr in
              let m := put_chars (v_mem s) (de_name dirent) (name_field name) in
              let m := store64 m (de_ino dirent) (entry_cluster data j) in
              let m := store8 m (de_type dirent) (if negb (attr .& ATTR_DIR =? 0) then DT_DIR else DT_REG) in
              Some (vset (with_mem s m) file f_pos (u64 (pos + 1)), 1)
          | _ => Some (s, 0)
          end)).


(** ** Files *)

(** [n] times the next cluster; [None] inside when the chain ends first. *)
Fixpoint skip_clusters (n : nat) (s : vfs) (sb cluster : Z) : vfs * option Z :=
  match n with
  | O => (s, Some cluster)
  | S n =>
      let '(s, cluster) := fat32_next_cluster s sb cluster in
      if EOC <=? cluster then (s, None) else skip_clusters n s sb cluster
  end.

(** The [n] sectors from [sector + i] on; the result is the number of bytes read
    and the offset into the cluster that is left, [None] inside on an error. *)
Fixpoint read_sectors (n : nat) (s : vfs) (file sb sector i buf count done off : Z) : vfs * option (Z * Z) :=
  match n with
  | O => (s, Some (done, off))
  | S n =>
      if count <=? done then (s, Some (done, off))
      else if 512 <=? off then read_sectors n s file sb sector (i + 1) buf count done (off - 512)
      else
        let '(s, bh) := read_sector s sb (u32 (sector + i)) in
        match bh with
        | None => (s, None)
        | Some data =>
            let to_copy := if count - done <? 512 - off then count - done else 512 - off in
            let s := with_mem s (put_chars (v_mem s) (buf + done) (bytes_at data off (Z.to_nat to_copy))) in
            let s := vset s file f_pos (u64 (vget s file f_pos + to_copy)) in
            read_sectors n s file sb sector (i + 1) buf count (done + to_copy) 0
        end
  end.

(** [while (read < count)] *)
Fixpoint read_clusters (fuel : nat) (s : vfs) (file sb cluster buf count done off : Z) : option (vfs * Z) :=
  match fuel with
  | O => None
  | S fuel =>
      if count <=? done then Some (s, done)
      else if EOC <=? cluster then Some (s, done)
      else
        let sbi := vget s sb s_fs_info in
        let '(s, r) := read_sectors (Z.to_nat (vget s sbi sectors_per_cluster)) s file sb (cluster_to_sector s sbi cluster) 0 buf count done off in
        match r with
        | None => Some (s, -1)
        | Some (done, off) =>
            let '(s, cluster) := fat32_next_cluster s sb cluster in
            read_clusters fuel s file sb cluster buf count done off
        end
  end.

Definition fat32_read (fuel : nat) (s : vfs) (file buf count : Z) : option (vfs * Z) :=
  deref (vget s file f_dentry)
    (let inode := vget s (vget s file f_dentry) d_inode in
     deref inode
       (let sb := vget s inode i_sb in
        let offset := vget s file f_pos in
        if vget s inode i_size <=? offset then Some (s, 0)
        else
          let count := if vget s inode i_size <? u64 (offset + count) then s32 (vget s inode i_size - offset) else count in
          let cluster_size := vget s (vget s sb s_fs_info) bytes_per_cluster in
          if cluster_size =? 0 then None
          else
            let '(s, r) := skip_clusters (Z.to_nat (u32 (offset / cluster_size))) s sb (u32 (vget s inode i_ino)) in
            match r with
            | None => Some (s, 0)
            | Some cluster => read_clusters fuel s file sb cluster buf count 0 (offset mod cluster_size)
            end)).

(** The next cluster of a chain, a new one at its end; 0 if the volume is
    full. *)
Definition next_or_new (s : vfs) (sb cluster : Z) : option (vfs * Z) :=
  let '(s, next) := fat32_next_cluster s sb cluster in
  if EOC <=? next then fat32_alloc_cluster s sb cluster else Some (s, next).

(** [while (target_pos >= bytes_per_cluster)]; the result is the cluster and the
    offset in it, [None] inside if the volume is full. *)
Fixpoint seek_clusters (fuel : nat) (s : vfs) (sb cluster size target_pos : Z) : option (vfs * option (Z * Z)) :=
  match fuel with
  | O => None
  | S fuel =>
      if target_pos <? size then Some (s, Some (cluster, target_pos))
      else
        let '(s, next) := fat32_next_cluster s sb cluster in
        if EOC <=? next then
          '(s, next) ← fat32_alloc_cluster s sb cluster;
          if next =? 0 then Some (s, None) else seek_clusters fuel s sb next size (target_pos - size)
        else seek_clusters fuel s sb next size (target_pos - size)
  end.

(** The result is the number of bytes written, [None] inside on an error. *)
Fixpoint write_sectors (n : nat) (fuel : nat) (s : vfs) (file inode sb sector i buf count done off : Z) : option (vfs * option Z) :=
  match n with
  | O => Some (s, Some done)
  | S n =>
      if count <=? done then Some (s, Some done)
      else if 512 <=? off then write_sectors n fuel s file inode sb sector (i + 1) buf count done (off - 512)
      else
        let '(s, bh) := read_sector s sb (u32 (sector + i)) in
        match bh with
        | None => Some (s, None)
        | Some data =>
            let to_write := if count - done <? 512 - off then count - done else 512 - off in
            let s := write_sector s sb (u32 (sector + i)) (put_chars data off (bytes_at (v_mem s) (buf + done) (Z.to_nat to_write))) in
            let s := vset s file f_pos (u64 (vget s file f_pos + to_write)) in
            s ← (if vget s inode i_size <? vget s file f_pos then
                   fst <$> fat32_update_inode_size fuel (vset s inode i_size (vget s file f_pos)) inode (vget s file f_dentry)
                 else Some s);
            write_sectors n fuel s file inode sb sector (i + 1) buf count (done + to_write) 0
        end
  end.

(** [while (written < count)]; only the first cluster is entered at an offset. *)
Fixpoint write_clusters (fuel fuel' : nat) (s : vfs) (file inode sb cluster buf count done off : Z) : option (vfs * Z) :=
  match fuel with
  | O => None
  | S fuel =>
      if count <=? done then Some (s, done)
      else
        let sbi := vget s sb s_fs_info in
        '(s, r) ← write_sectors (Z.to_nat (vget s sbi sectors_per_cluster)) fuel' s file inode sb (cluster_to_sector s sbi cluster) 0 buf count done off;
        match r with
        | None => Some (s, -1)
        | Some written =>
            if written <? count then
              '(s, next) ← next_or_new s sb cluster;
              if next =? 0 then Some (s, written)
              else write_clusters fuel fuel' s file inode sb next buf count written (if written =? done then off else 0)
            else write_clusters fuel fuel' s file inode sb cluster buf count written 0
        end
  end.

Definition fat32_write (fuel : nat) (s : vfs) (file buf count : Z) : option (vfs * Z) :=
  deref (vget s file f_dentry)
    (let inode := vget s (vget s file f_dentry) d_inode in
     deref inode
       (let sb := vget s inode i_sb in
        if count =? 0 then Some (s, 0)
        else
          let bytes_per_cluster := u32 (vget s (vget s sb s_fs_info) sectors_per_cluster * 512) in
          '(s, r) ← seek_clusters fuel s sb (u32 (vget s inode i_ino)) bytes_per_cluster (u32 (vget s file f_pos));
          match r with
          | None => Some (s, -1)
          | Some (cluster, target_pos) => write_clusters fuel fuel s file inode sb cluster buf count 0 target_pos
          end)).

(** ** Mounting *)

Definition fat32_put_super (s : vfs) (sb : Z) : option vfs :=
  if negb (vget s sb s_fs_info =? 0) then h ← a_free (v_heap s) (vget s sb s_fs_info); Some (with_heap s h) else Some s.

(** The volume as the boot sector describes it. *)
Definition read_boot (s : vfs) (sb sbi : Z) (data : mem) : vfs :=
  let s := clear s sbi [] in
  let s := vset s sbi sectors_per_cluster (load8 data bs_sectors_per_cluster) in
  let s := vset s sbi reserved_sectors (load16 data bs_reserved_sectors) in
  let s := vset s sbi fat_count (load8 data bs_fat_count) in
  let s := vset s sbi hidden_sectors (load32 data bs_hidden_sectors) in
  let s := vset s sbi total_sectors (if load16 data bs_total_sectors_16 =? 0 then load32 data bs_total_sectors_32 else load16 data bs_total_sectors_16) in
  let s := vset s sbi fat_size (if negb (load16 data bs_fat_size_16 =? 0) then load16 data bs_fat_size_16 else load32 data bs_fat_size_32) in
  let s := vset s sbi bytes_per_cluster (u32 (vget s sbi sectors_per_cluster * vget s sb s_blocksize)) in
  let s := if load16 data bs_fat_size_16 =? 0 then vset s sbi root_cluster (load32 data bs_root_cluster) else s in
  let s := vset s sbi fat_start_sector (vget s sbi reserved_sectors) in
  vset s sbi data_start_sector (u32 (vget s sbi reserved_sectors + u32 (vget s sbi fat_count * vget s sbi fat_size))).

(** The check for a table of size 0 is behind the test that it is not 0, so it
    never fails. *)
Definition fat32_mount (s : vfs) (fs_type : Z) (dev_name : str) : option (vfs * Z) :=
  let disk := io_gendisk (v_rest s) dev_name in
  if disk =? 0 then Some (s, 0)
  else
    '(h, sb) ← a_alloc (v_heap s) sizeof_super_block;
    let s := with_heap s h in
    if sb =? 0 then Some (s, 0)
    else
      let s := clear s sb (super_nodes sb) in
      let s := vset s sb s_bdev disk in
      let s := vset s sb s_blocksize 512 in
      let free (s : vfs) p := h ← a_free (v_heap s) p; Some (with_heap s h) in
      let '(s, bh) := read_sector s sb 0 in
      match bh with
      | None => s ← free s sb; Some (s, 0)
      | Some data =>
          if negb (load16 data 510 =? 0xAA55) then s ← free s sb; Some (s, 0)
          else
            '(h, sbi) ← a_alloc (v_heap s) sizeof_sb_info;
            let s := with_heap s h in
            if sbi =? 0 then s ← free s sb; Some (s, 0)
            else
              let s := read_boot s sb sbi data in
              let s := vset (vset (vset (vset s sb s_fs_info sbi) sb s_op fat32_sops) sb s_type fs_type) sb s_magic FAT32_MAGIC in
              '(s, root) ← fat32_get_inode s sb (vget s sbi root_cluster) 0 true;
              if root =? 0 then s ← free s sbi; s ← free s sb; Some (s, 0)
              else
                '(s, s_root_dentry) ← alloc_dentry s 0 [slash];
                let s := vset s sb s_root s_root_dentry in
                if s_root_dentry =? 0 then s ← free s root; s ← free s sbi; s ← free s sb; Some (s, 0)
                else s ← d_add dentry_hashtable s s_root_dentry root; Some (s, sb)
      end.

Definition fat32_init (fuel : nat) (s : vfs) : option vfs := fst <$> register_filesystem fuel s fat32_fs_type.

Definition fat32_iops (fuel : nat) : inode_operations (A := A) (R := R) :=
  IOps (Some (fat32_create fuel)) (Some (fat32_lookup fuel)) None (Some (fat32_mkdir fuel)) None (Some (fat32_mknod fuel)) None.

Definition fat32_file_operations (fuel : nat) : file_operations (A := A) (R := R) :=
  FOps None (Some (fat32_read fuel)) (Some (fat32_write fuel)) None None None.

Definition fat32_dir_operations (fuel : nat) : file_operations (A := A) (R := R) :=
  FOps None None None (Some (fat32_readdir fuel)) None None.


(** ** The table as a map *)

(** Only what the cache keeps apart from the contents has changed. *)
Definition io_step (s s' : vfs) : Prop :=
  exists r, s' = with_rest s r /\ forall d b, content r d b = content (v_rest s) d b.

Lemma io_step_refl s : io_step s s.
Proof. exists (v_rest s). split; [by destruct s|done]. Qed.

Lemma io_step_trans s1 s2 s3 : io_step s1 s2 -> io_step s2 s3 -> io_step s1 s3.
Proof. intros (r1 & -> & H1) (r2 & -> & H2). exists r2. split; [done|]. intros d b. rewrite H2. apply H1. Qed.

(** What a reader of sector [b] of the volume sees. *)
Definition sector (s : vfs) (sb b : Z) : mem := content (v_rest s) (vget s sb s_bdev) b.

Lemma io_step_sector s s' sb b : io_step s s' -> sector s' sb b = sector s sb b.
Proof. intros (r & -> & Hr). apply Hr. Qed.

Lemma read_sector_spec s sb b :
  let '(s', d) := read_sector s sb b in io_step s s' /\ (d = None \/ d = Some (sector s sb b)).
Proof.
  unfold read_sector. pose proof (io_read_keeps (v_rest s) (vget s sb s_bdev) b) as Hk.
  destruct (io_read _ _ _) as [r d] eqn:E. split; [by exists r|]. destruct d as [d|]; [right|by left].
  by rewrite (io_read_content _ _ _ _ _ E).
Qed.

Lemma write_sector_content s sb b d b' : sector (write_sector s sb b d) sb b' = if decide (b' = b) then d else sector s sb b'.
Proof.
  unfold sector, write_sector. simpl. change (vget (with_rest s _) sb s_bdev) with (vget s sb s_bdev). rewrite io_write_content.
  destruct (decide (b' = b)) as [->|Hne]; [by rewrite decide_True|]. rewrite decide_False; [done|]. intros [_ ?]. done.
Qed.

(** The entry of a cluster. *)
Definition fat (s : vfs) (sb c : Z) : Z := load32 (sector s sb (fat_sector s sb c)) (fat_offset s sb c) .& 0x0FFFFFFF.

Lemma fat_io s s' sb c : io_step s s' -> fat s' sb c = fat s sb c.
Proof. intros Hs. unfold fat. rewrite (io_step_sector s s') by done. by destruct Hs as (r & -> & _). Qed.

Lemma next_cluster_spec s sb c :
  let '(s', n) := fat32_next_cluster s sb c in io_step s s' /\ (n = fat s sb c \/ n = FAT_END).
Proof.
  unfold fat32_next_cluster. pose proof (read_sector_spec s sb (fat_sector s sb c)) as Hb. destruct (read_sector _ _ _) as [s' d].
  destruct Hb as [Hs [->| ->]]; split; try done; [by right|]. left. unfold fat. by destruct Hs as (r & -> & _).
Qed.

(** A volume: sectors of 512 bytes, the tables behind the reserved sectors and
    the clusters behind the tables, with an entry for every cluster. *)
Definition max_cluster (s : vfs) (sb : Z) : Z :=
  vget s (vget s sb s_fs_info) total_sectors / vget s (vget s sb s_fs_info) sectors_per_cluster.

Definition volume (s : vfs) (sb : Z) : Prop :=
  let sbi := vget s sb s_fs_info in
  vget s sb s_blocksize = 512 /\ 0 < vget s sbi sectors_per_cluster /\ 0 <= vget s sbi fat_start_sector /\
  max_cluster s sb <= 2 ^ 28 - 16 /\
  vget s sbi fat_start_sector + (max_cluster s sb + 127) / 128 <= vget s sbi data_start_sector /\
  vget s sbi data_start_sector + max_cluster s sb * vget s sbi sectors_per_cluster < 2 ^ 32.

Definition is_cluster (s : vfs) (sb c : Z) : Prop := 2 <= c < max_cluster s sb.

Lemma fat_place s sb c :
  volume s sb -> is_cluster s sb c ->
  fat_sector s sb c = vget s (vget s sb s_fs_info) fat_start_sector + c / 128 /\ fat_offset s sb c = 4 * (c mod 128) /\
  fat_sector s sb c < vget s (vget s sb s_fs_info) data_start_sector.
Proof.
  intros (Hb & Hs & Hf & Hm & Hd & Hx) Hc. unfold is_cluster in Hc. unfold fat_sector, fat_offset. rewrite Hb, (u32_small (c * 4)) by lia.
  replace (c * 4) with (4 * c) by lia. replace 512 with (4 * 128) by lia. rewrite Z.div_mul_cancel_l, Z.mul_mod_distr_l by lia.
  assert (c / 128 < (max_cluster s sb + 127) / 128) by (Z.div_mod_to_equations; lia).
  assert (0 <= max_cluster s sb * vget s (vget s sb s_fs_info) sectors_per_cluster) by nia. pose proof (Z.div_pos c 128).
  rewrite u32_small by lia. lia.
Qed.

Lemma fat_entry_bits x y : (((x .& 0xF0000000) .| (y .& 0x0FFFFFFF)) mod 2 ^ 32) .& 0x0FFFFFFF = y .& 0x0FFFFFFF.
Proof.
  rewrite <- Z.land_ones by lia. rewrite <- Z.land_assoc. change (Z.ones 32 .& 0x0FFFFFFF) with 0x0FFFFFFF.
  rewrite Z.land_lor_distr_l, <- !Z.land_assoc. change (0xF0000000 .& 0x0FFFFFFF) with 0. change (0x0FFFFFFF .& 0x0FFFFFFF) with 0x0FFFFFFF.
  by rewrite Z.land_0_r, Z.lor_0_l.
Qed.

Lemma write_entry_spec s sb c v :
  volume s sb -> is_cluster s sb c ->
  let '(s', r) := fat32_write_fat_entry s sb c v in
  r = -1 /\ io_step s s' \/
  r = 0 /\ (exists rest, s' = with_rest s rest) /\
    (forall c', is_cluster s sb c' -> fat s' sb c' = if decide (c' = c) then v .& 0x0FFFFFFF else fat s sb c') /\
    forall b, vget s (vget s sb s_fs_info) data_start_sector <= b -> sector s' sb b = sector s sb b.
Proof.
  intros Hv Hc. unfold fat32_write_fat_entry. pose proof (read_sector_spec s sb (fat_sector s sb c)) as Hb. destruct (read_sector _ _ _) as [s1 d].
  destruct Hb as [Hs [->| ->]]; [by left|]. right. split; [done|]. pose proof Hs as (r & -> & Hr).
  change (fat_sector (with_rest s r) sb c) with (fat_sector s sb c). change (fat_offset (with_rest s r) sb c) with (fat_offset s sb c).
  destruct (fat_place s sb c Hv Hc) as (E1 & E2 & E3). split; [by eexists|]. split.
  - intros c' Hc'. destruct (fat_place s sb c' Hv Hc') as (F1 & F2 & _). unfold fat.
    change (fat_sector (write_sector _ _ _ _) sb c') with (fat_sector s sb c'). change (fat_offset (write_sector _ _ _ _) sb c') with (fat_offset s sb c').
    rewrite write_sector_content, (io_step_sector s (with_rest s r)) by done. rewrite F1, F2, E1, E2. destruct (decide (c' = c)) as [->|Hne].
    + rewrite decide_True by done. unfold load32 at 1, store32. rewrite load_store_le_same. apply fat_entry_bits.
    + destruct (decide _) as [Eb|]; [|done]. f_equal. unfold load32, store32. rewrite load_store_le_disjoint; [by rewrite Eb|].
      change (Z.of_nat 4) with 4. Z.div_mod_to_equations. lia.
  - intros b Hb. rewrite write_sector_content, (io_step_sector s (with_rest s r)) by done. rewrite decide_False; [done|]. intros ->. lia.
Qed.

(** Whatever changed behind the interface, the volume is the same. *)
Lemma volume_rest s r sb : volume (with_rest s r) sb <-> volume s sb.
Proof. done. Qed.

Lemma find_free_spec n s sb c :
  let '(s', f) := find_free n s sb c in
  io_step s s' /\ (f = 0 \/ c <= f < c + Z.of_nat n /\ fat s sb f = 0).
Proof.
  revert s c. induction n as [|n IH]; intros s c; cbn [find_free]; [split; [apply io_step_refl|by left]|].
  pose proof (next_cluster_spec s sb c) as Hn. destruct (fat32_next_cluster s sb c) as [s1 v]. destruct Hn as [Hs Hv].
  destruct (Z.eqb_spec v 0) as [->|Hne]; [split; [done|right; split; [lia|destruct Hv as [Hv|Hv]; [done|discriminate]]]|].
  specialize (IH s1 (c + 1)). destruct (find_free n s1 sb (c + 1)) as [s2 f]. destruct IH as [Hs2 Hf]. split; [by apply (io_step_trans s s1)|].
  destruct Hf as [->|[Hr Hf]]; [by left|right]. split; [lia|]. by rewrite (fat_io s s1) in Hf.
Qed.


(** ** Allocation *)

(** Sectors that could not be read keep their contents. *)
Definition zeroed (m m' : mem) : Prop := m' = m \/ forall i, 0 <= i < SECTOR -> m' i = 0.

Lemma zero_sectors_spec s sb sec n :
  0 <= sec -> 0 <= n -> sec + n <= 2 ^ 32 ->
  exists rest, zero_sectors s sb sec n = with_rest s rest /\
    forall b, if decide (sec <= b < sec + n) then zeroed (sector s sb b) (sector (with_rest s rest) sb b)
              else sector (with_rest s rest) sb b = sector s sb b.
Proof.
  intros Hs Hn Hw. unfold zero_sectors. set (f := fun (i : Z) (s : vfs) => _).
  set (I := fun (i : Z) (t : vfs) => exists rest, t = with_rest s rest /\
    forall b, if decide (sec <= b < sec + i) then zeroed (sector s sb b) (sector (with_rest s rest) sb b)
              else sector (with_rest s rest) sb b = sector s sb b).
  assert (I (0 + Z.of_nat (Z.to_nat n)) (for_up (Z.to_nat n) 0 f s)) as HI; [|by rewrite Z2Nat.id in HI by lia].
  apply for_up_inv.
  2: { exists (v_rest s). split; [by destruct s|]. intros b. rewrite decide_False by lia. done. }
  intros j t Hj (rest & -> & Hb). unfold f. rewrite u32_small by lia.
  pose proof (read_sector_spec (with_rest s rest) sb (sec + j)) as Hr. destruct (read_sector _ _ _) as [s1 d]. destruct Hr as [Hio Hd].
  assert (forall b, sector s1 sb b = sector (with_rest s rest) sb b) as Es by (intros; by apply io_step_sector).
  destruct Hio as (r & -> & _). destruct Hd as [->| ->].
  - exists r. split; [done|]. intros b. specialize (Hb b). change (with_rest (with_rest s rest) r) with (with_rest s r) in *. rewrite Es.
    revert Hb. destruct (decide (sec <= b < sec + (j + 1))), (decide (sec <= b < sec + j)); try done; [by left|lia].
  - eexists. split; [done|]. intros b. specialize (Hb b). change (with_rest (with_rest s rest) r) with (with_rest s r) in *.
    change (with_rest s (io_write _ _ _ ?m)) with (write_sector (with_rest s r) sb (sec + j) m). rewrite write_sector_content. destruct (decide (b = sec + j)) as [->|Hne].
    + rewrite decide_True by lia. right. intros i Hi. rewrite memset_fill by done. unfold fill. by rewrite decide_True by lia.
    + rewrite Es. revert Hb. destruct (decide (sec <= b < sec + (j + 1))), (decide (sec <= b < sec + j)); try done; lia.
Qed.

(** The clusters of a file, from the first on. *)
Fixpoint chain (s : vfs) (sb c : Z) (l : list Z) : Prop :=
  match l with
  | [] => EOC <= c
  | x :: r => x = c /\ is_cluster s sb c /\ chain s sb (fat s sb c) r
  end.

Lemma chain_used s sb c l x : chain s sb c l -> x ∈ l -> fat s sb x <> 0.
Proof.
  revert c. induction l as [|y l IH]; intros c Hc Hx; [by apply elem_of_nil in Hx|]. destruct Hc as (-> & Hc & Hl).
  apply elem_of_cons in Hx as [->|Hx]; [|by apply (IH (fat s sb c))]. destruct l as [|y l]; [cbn [chain] in Hl; unfold EOC in Hl; lia|].
  destruct Hl as (_ & [? _] & _). lia.
Qed.

(** Appending a cluster at the end of a chain. *)
Lemma chain_append s s' sb c l prev new :
  chain s sb c (l ++ [prev]) -> (forall x, is_cluster s' sb x <-> is_cluster s sb x) -> is_cluster s sb new -> new ∉ l ++ [prev] -> NoDup (l ++ [prev]) ->
  fat s' sb prev = new -> EOC <= fat s' sb new -> (forall x, is_cluster s sb x -> x <> prev -> x <> new -> fat s' sb x = fat s sb x) ->
  chain s' sb c (l ++ [prev; new]).
Proof.
  intros Hc Hi Hn Hni Hnd Hp He Ho. revert c Hc Hni Hnd. induction l as [|x l IH]; intros c Hc Hni Hnd; simpl in Hc |- *.
  - destruct Hc as (-> & Hc & _). rewrite Hp. split; [done|]. split; [by apply Hi|]. split; [done|]. split; [by apply Hi|done].
  - destruct Hc as (-> & Hc & Hl). apply NoDup_cons in Hnd as [Hx Hnd]. split; [done|]. split; [by apply Hi|].
    rewrite Ho; [apply IH; [done|set_solver|done]|done|set_solver|set_solver].
Qed.

Lemma cluster_place s sb c :
  volume s sb -> is_cluster s sb c ->
  let sbi := vget s sb s_fs_info in
  cluster_to_sector s sbi c = vget s sbi data_start_sector + (c - 2) * vget s sbi sectors_per_cluster /\
  vget s sbi data_start_sector <= cluster_to_sector s sbi c /\ 0 <= vget s sbi data_start_sector /\
  cluster_to_sector s sbi c + vget s sbi sectors_per_cluster < 2 ^ 32.
Proof.
  intros (Hb & Hs & Hf & Hm & Hd & Hx) Hc sbi. unfold is_cluster in Hc. fold sbi in Hb, Hs, Hf, Hd, Hx.
  assert (0 <= (max_cluster s sb + 127) / 128) by (apply Z.div_pos; lia).
  assert (0 <= (c - 2) * vget s sbi sectors_per_cluster) by nia.
  assert ((c - 2) * vget s sbi sectors_per_cluster + vget s sbi sectors_per_cluster <= max_cluster s sb * vget s sbi sectors_per_cluster) by nia.
  unfold cluster_to_sector. rewrite (u32_small (c - 2)), (u32_small ((c - 2) * _)), u32_small by lia. lia.
Qed.

(** What a successful allocation has done to the volume. *)
Definition allocated (s s' : vfs) (sb prev new : Z) : Prop :=
  let sbi := vget s sb s_fs_info in
  let first := cluster_to_sector s sbi new in
  is_cluster s sb new /\ fat s sb new = 0 /\ fat s' sb new = FAT_END /\ (prev <> 0 -> fat s' sb prev = new) /\
  (forall x, is_cluster s sb x -> x <> new -> x <> prev -> fat s' sb x = fat s sb x) /\
  forall b, vget s sbi data_start_sector <= b ->
    if decide (first <= b < first + vget s sbi sectors_per_cluster) then zeroed (sector s sb b) (sector s' sb b)
    else sector s' sb b = sector s sb b.

Lemma allocated_chain s rest sb prev new c l :
  let s' := with_rest s rest in
  allocated s s' sb prev new -> NoDup (l ++ [prev]) -> prev <> 0 -> chain s sb c (l ++ [prev]) -> chain s' sb c (l ++ [prev; new]).
Proof.
  intros s' (Hn & Hf & He & Hp & Ho & _) Hnd Hp0 Hc. apply (chain_append s); try done; [|by apply Hp|rewrite He; done|intros; by apply Ho].
  intros Hin. by apply (chain_used _ _ _ _ _ Hc) in Hin.
Qed.

(** Zeroing the sectors of the new cluster leaves the table alone. *)
Lemma alloc_zero s r sb prev new :
  volume s sb -> is_cluster s sb new -> fat s sb new = 0 -> prev <> new ->
  let t := with_rest s r in
  (forall x, is_cluster s sb x -> fat t sb x = if decide (x = new) then FAT_END else if decide (x = prev) then new else fat s sb x) ->
  prev = 0 \/ is_cluster s sb prev ->
  (forall b, vget s (vget s sb s_fs_info) data_start_sector <= b -> sector t sb b = sector s sb b) ->
  let sbi := vget s sb s_fs_info in
  exists rest, zero_sectors t sb (cluster_to_sector s sbi new) (vget s sbi sectors_per_cluster) = with_rest s rest /\
    allocated s (with_rest s rest) sb prev new.
Proof.
  intros Hv Hnew Hfn Hpn t Hft Hp Hdt sbi. destruct (cluster_place s sb new Hv Hnew) as (C1 & C2 & C3 & C4). fold sbi in C1, C2, C3, C4.
  pose proof Hv as (_ & Hspc & _). fold sbi in Hspc.
  destruct (zero_sectors_spec t sb (cluster_to_sector s sbi new) (vget s sbi sectors_per_cluster)) as (r3 & Hz & Hb); [lia..|].
  change (with_rest t r3) with (with_rest s r3) in *. exists r3. split; [exact Hz|].
  assert (forall x, is_cluster s sb x -> fat (with_rest s r3) sb x = fat t sb x) as Ef.
  { intros x Hx. unfold fat. change (fat_sector (with_rest s r3) sb x) with (fat_sector s sb x). change (fat_sector t sb x) with (fat_sector s sb x).
    destruct (fat_place s sb x Hv Hx) as (_ & _ & Hlt). fold sbi in Hlt. specialize (Hb (fat_sector s sb x)). rewrite decide_False in Hb by lia. by rewrite Hb. }
  split; [done|]. split; [done|]. split; [by rewrite Ef, Hft, decide_True by done|]. split; [|split].
  - intros Hp0. destruct Hp as [->|Hp]; [done|]. rewrite Ef, Hft by done. rewrite decide_False, decide_True by done. done.
  - intros x Hx H1 H2. rewrite Ef, Hft by done. by rewrite !decide_False by done.
  - intros b Hbd. fold sbi in Hbd |- *. specialize (Hb b). revert Hb. rewrite (Hdt b) by done. done.
Qed.

(** [fat32_alloc_cluster] takes a free cluster for a file.  On success the
    cluster was free, it is now the end of a chain, the entry of the previous
    cluster leads to it, every other entry is unchanged, so a chain that ended
    with the previous cluster now goes on to the new one; its sectors are
    zeroed (those that can be read) and no other data sector changes.  It
    returns 0 when there is no free cluster or a table sector cannot be read,
    and then no entry in use changes. *)
Theorem fat32_alloc_cluster_correct s sb prev :
  volume s sb -> prev = 0 \/ is_cluster s sb prev /\ fat s sb prev <> 0 ->
  exists rest new, let s' := with_rest s rest in
    fat32_alloc_cluster s sb prev = Some (s', new) /\
    (new = 0 /\ (forall x, is_cluster s sb x -> fat s' sb x = fat s sb x \/ fat s sb x = 0) \/
     allocated s s' sb prev new /\
     forall c l, NoDup (l ++ [prev]) -> prev <> 0 -> chain s sb c (l ++ [prev]) -> chain s' sb c (l ++ [prev; new])).
Proof.
  intros Hv Hp. unfold fat32_alloc_cluster, fat32_find_free_cluster.
  pose proof Hv as (Hbs & Hspc & Hfs & Hm & Hds & Hx). rewrite (proj2 (Z.eqb_neq (vget s (vget s sb s_fs_info) sectors_per_cluster) 0)) by lia. fold (max_cluster s sb).
  pose proof (find_free_spec (Z.to_nat (max_cluster s sb - 2)) s sb 2) as Hff. destruct (find_free _ _ _ _) as [s1 new]. destruct Hff as [Hs1 Hnew].
  cbn [mbind option_bind]. pose proof Hs1 as (r1 & -> & _).
  assert (forall x, fat (with_rest s r1) sb x = fat s sb x) as Ef1 by (intros; by apply fat_io).
  assert (forall b, sector (with_rest s r1) sb b = sector s sb b) as Es1 by (intros; by apply io_step_sector).
  destruct (Z.eqb_spec new 0) as [->|Hn0]; [exists r1, 0; split; [done|]; left; auto|].
  destruct Hnew as [?|[Hnr Hfn]]; [done|]. assert (is_cluster s sb new) as Hnew by (unfold is_cluster; lia).
  pose proof (write_entry_spec (with_rest s r1) sb new FAT_END Hv Hnew) as W1. destruct (fat32_write_fat_entry _ _ _ _) as [s2 q2].
  destruct W1 as [[-> Hs2]|(-> & (r2 & ->) & Hf2 & Hd2)].
  { assert (forall x, fat s2 sb x = fat s sb x) as Ef2 by (intros x; by rewrite (fat_io (with_rest s r1) s2), Ef1). destruct Hs2 as (r2 & -> & _).
    exists r2, 0. split; [done|]. left. auto. }
  change (0 <? 0) with false. cbv iota. change (with_rest (with_rest s r1) r2) with (with_rest s r2) in *.
  assert (forall x, is_cluster s sb x -> fat (with_rest s r2) sb x = if decide (x = new) then FAT_END else fat s sb x) as Hf2' by
    (intros x Hx'; rewrite <- Ef1; by apply Hf2).
  assert (forall b, vget s (vget s sb s_fs_info) data_start_sector <= b -> sector (with_rest s r2) sb b = sector s sb b) as Hd2' by
    (intros b Hb; rewrite <- Es1; by apply Hd2).
  clear Hf2 Hd2; rename Hf2' into Hf2; rename Hd2' into Hd2.
  destruct (Z.eqb_spec prev 0) as [->|Hp0]; cbn [negb].
  - destruct (alloc_zero s r2 sb 0 new Hv Hnew Hfn ltac:(done)) as (r3 & Hz & Ha); [|by left|done|].
    + intros x Hx'. rewrite Hf2 by done. destruct (decide (x = new)); [done|]. rewrite decide_False; [done|]. intros ->. unfold is_cluster in Hx'. lia.
    + exists r3, new. split; [by rewrite <- Hz|]. right. split; [done|]. intros c l. by apply allocated_chain.
  - destruct Hp as [?|[Hpc Hpf]]; [done|]. assert (prev <> new) as Hpn by (intros ->; done).
    pose proof (write_entry_spec (with_rest s r2) sb prev new Hv Hpc) as W2. destruct (fat32_write_fat_entry (with_rest s r2) sb prev new) as [s3 q3].
    destruct W2 as [[-> Hs3]|(-> & (r3 & ->) & Hf3 & Hd3)].
    + change (-1 <? 0) with true. cbv iota. assert (forall x, fat s3 sb x = fat (with_rest s r2) sb x) as Ef3 by (intros x; by apply fat_io). destruct Hs3 as (r3 & -> & _).
      change (with_rest (with_rest s r2) r3) with (with_rest s r3) in *.
      pose proof (write_entry_spec (with_rest s r3) sb new 0 Hv Hnew) as W3. destruct (fat32_write_fat_entry (with_rest s r3) sb new 0) as [s4 q4].
      assert (exists r4, s4 = with_rest s r4 /\ forall x, is_cluster s sb x -> fat s4 sb x = fat s sb x \/ fat s sb x = 0) as (r4 & -> & H4).
      { destruct W3 as [[_ Hs4]|(_ & (r4 & ->) & Hf4 & _)].
        - assert (forall x, fat s4 sb x = fat (with_rest s r3) sb x) as Ef4 by (intros x; by apply fat_io). destruct Hs4 as (r4 & -> & _). exists r4. split; [done|].
          intros x Hx'. rewrite Ef4, Ef3, Hf2 by done. destruct (decide (x = new)) as [->|]; [by right|by left].
        - exists r4. split; [done|]. intros x Hx'. rewrite Hf4 by done. destruct (decide (x = new)) as [->|]; [by right|]. rewrite Ef3, Hf2, decide_False by done. by left. }
      exists r4, 0. split; [done|]. left. auto.
    + change (0 <? 0) with false. cbv iota. change (with_rest (with_rest s r2) r3) with (with_rest s r3) in *.
      destruct (alloc_zero s r3 sb prev new Hv Hnew Hfn Hpn) as (r4 & Hz & Ha); [|by right| |].
      * intros x Hx'. rewrite Hf3, Hf2 by done. destruct (decide (x = prev)) as [->|].
        -- rewrite decide_False by done. change 0x0FFFFFFF with (Z.ones 28). rewrite Z.land_ones by lia. apply Z.mod_small. unfold is_cluster in Hnew. lia.
        -- destruct (decide (x = new)); [done|]. done.
      * intros b Hbd. rewrite Hd3 by done. by apply Hd2.
      * exists r4, new. split; [by rewrite <- Hz|]. right. split; [done|]. intros c l. by apply allocated_chain.
Qed.


(** ** Looking up a file *)

(** More blocks may be allocated. *)
Definition heap_grows (s s' : vfs) : Prop :=
  a_wf (v_heap s') /\ forall p t, a_live (v_heap s) p t -> a_live (v_heap s') p t.

Lemma add_list_heap (s : vfs) n h s' : add_list s n h = Some s' -> v_heap s' = v_heap s.
Proof. unfold add_list. destruct (list_add _ _ _); [|done]. by intros [= <-]. Qed.

Lemma alloc_heap (s : vfs) n h p : a_wf (v_heap s) -> 0 < n < 2 ^ 63 -> a_alloc (v_heap s) n = Some (h, p) -> heap_grows s (with_heap s h) /\ (p <> 0 -> exists t, a_live h p t).
Proof.
  intros Hwf Hn Ha. destruct (a_alloc_spec _ _ Hwf Hn) as (h' & p' & Ha' & Hwf' & Hp). rewrite Ha in Ha'. injection Ha' as <- <-.
  split; [split; [done|]|]; intros; destruct Hp as [[-> Hl]|(t' & _ & _ & Hl)]; try apply Hl; try done; try by right. exists t'. apply Hl. by left.
Qed.

Lemma heap_grows_trans s1 s2 s3 : heap_grows s1 s2 -> heap_grows s2 s3 -> heap_grows s1 s3.
Proof. intros [_ H1] [W H2]. split; [done|]. intros p t Hp. by apply H2, H1. Qed.

Lemma new_inode_heap (s : vfs) sb s' i : a_wf (v_heap s) -> new_inode s sb = Some (s', i) -> heap_grows s s'.
Proof.
  intros Hwf. unfold new_inode. destruct (a_alloc _ _) as [[h p]|] eqn:Ea; [|done]. cbn [mbind option_bind].
  destruct (alloc_heap s sizeof_inode h p Hwf ltac:(done) Ea) as [Hg _]. destruct (p =? 0); [by intros [= <- _]|].
  destruct (negb (sb =? 0)); cbn [mbind option_bind].
  - destruct (add_list _ _ _) as [s1|] eqn:El; [|done]. intros [= <- _]. apply add_list_heap in El. unfold heap_grows. by rewrite El.
  - by intros [= <- _].
Qed.

Lemma get_inode_heap (s : vfs) sb c n d s' i : a_wf (v_heap s) -> fat32_get_inode s sb c n d = Some (s', i) -> heap_grows s s'.
Proof.
  intros Hwf. unfold fat32_get_inode. destruct (new_inode s sb) as [[s1 p]|] eqn:En; [|done]. cbn [mbind option_bind].
  apply new_inode_heap in En; [|done]. destruct (p =? 0); [by intros [= <- _]|]. destruct d; by intros [= <- _].
Qed.

Lemma d_add_heap (s : vfs) e i s' : d_add dentry_hashtable s e i = Some s' -> v_heap s' = v_heap s.
Proof.
  unfold d_add. destruct (negb (i =? 0)); cbn [mbind option_bind].
  - destruct (add_list s _ _) as [s1|] eqn:E; [|done]. cbn [mbind option_bind]. intros Hl. apply add_list_heap in E, Hl. rewrite Hl. exact E.
  - intros Hl. by apply add_list_heap in Hl.
Qed.

Lemma io_heap s s' : io_step s s' -> v_heap s' = v_heap s.
Proof. by intros (r & -> & _). Qed.

Lemma scan_sectors_io {C B : Type} n (p : mem -> Z -> C -> C + B) s sb sec i acc : io_step s (fst (scan_sectors n p s sb sec i acc)).
Proof.
  revert s i acc. induction n as [|n IH]; intros s i acc; cbn [scan_sectors]; [apply io_step_refl|].
  pose proof (read_sector_spec s sb (u32 (sec + i))) as Hb. destruct (read_sector _ _ _) as [s1 d]. destruct Hb as [Hs _].
  destruct d as [d|]; [|done]. destruct (scan_entries _ _ _ _ _ _); [done..|]. apply (io_step_trans s s1); [done|apply IH].
Qed.

Lemma scan_dir_io {C B : Type} fuel (p : mem -> Z -> C -> C + B) s sb c acc s' r : scan_dir fuel p s sb c acc = Some (s', r) -> io_step s s'.
Proof.
  revert s c acc. induction fuel as [|fuel IH]; intros s c acc; cbn [scan_dir]; [done|]. destruct (EOC <=? c); [intros [= <- _]; apply io_step_refl|].
  unfold scan_cluster. pose proof (scan_sectors_io (Z.to_nat (vget s (vget s sb s_fs_info) sectors_per_cluster)) p s sb (cluster_to_sector s (vget s sb s_fs_info) c) 0 acc) as Hs.
  destruct (scan_sectors _ _ _ _ _ _ _) as [s1 q]. simpl in Hs. destruct q; [by intros [= <- _]..|].
  pose proof (next_cluster_spec s1 sb c) as Hn. destruct (fat32_next_cluster s1 sb c) as [s2 nx]. destruct Hn as [Hs2 _]. intros Hd. apply IH in Hd.
  apply (io_step_trans s s1); [done|]. by apply (io_step_trans s1 s2).
Qed.

Lemma fat32_lookup_heap fuel (s : vfs) dir d s' r : a_wf (v_heap s) -> fat32_lookup fuel s dir d = Some (s', r) -> heap_grows s s'.
Proof.
  intros Hwf. unfold fat32_lookup. destruct (scan_dir _ _ _ _ _ _) as [[s1 q]|] eqn:Es; [|done]. cbn [mbind option_bind].
  apply scan_dir_io, io_heap in Es. assert (heap_grows s s1) as Hg by (unfold heap_grows; by rewrite Es).
  destruct q as [|b data j [|]|]; try (by intros [= <- _]). destruct (fat32_get_inode _ _ _ _ _) as [[s2 i]|] eqn:Ei; [|done]. cbn [mbind option_bind].
  apply get_inode_heap in Ei; [|by rewrite Es]. destruct (d_add _ _ _ _) as [s3|] eqn:Ea; [|done]. cbn [mbind option_bind]. intros [= <- _]. apply d_add_heap in Ea.
  apply (heap_grows_trans s s1); [done|]. unfold heap_grows. by rewrite Ea.
Qed.

Lemma alloc_dentry_heap (s : vfs) parent name s' d :
  a_wf (v_heap s) -> Z.of_nat (length name) < 2 ^ 62 -> alloc_dentry s parent name = Some (s', d) -> d <> 0 ->
  a_wf (v_heap s') /\ exists t, a_live (v_heap s') d t.
Proof.
  intros Hwf Hn. unfold alloc_dentry. destruct (a_alloc (v_heap s) _) as [[h p]|] eqn:Ea; [|done]. cbn [mbind option_bind].
  destruct (alloc_heap s sizeof_dentry h p Hwf ltac:(done) Ea) as [Hg Hp]. destruct (Z.eqb_spec p 0) as [->|Hp0]; [intros [= <- <-]; done|].
  destruct (Hp Hp0) as [t Ht]. destruct (a_alloc _ (Z.of_nat (length name) + 1)) as [[h2 q]|] eqn:Eb; [|done]. cbn [mbind option_bind].
  destruct (alloc_heap (with_heap s h) (Z.of_nat (length name) + 1) h2 q) as [Hg2 _]; [apply Hg|lia|exact Eb|].
  destruct (q =? 0); [destruct (a_free _ _); [|done]; by intros [= <- <-]|]. destruct Hg2 as [Hw2 Hl2].
  destruct (negb (parent =? 0)).
  - destruct (add_list _ _ _) as [s3|] eqn:El; [|done]. cbn [mbind option_bind]. intros [= <- <-] _. apply add_list_heap in El. rewrite El.
    split; [exact Hw2|]. exists t. by apply Hl2.
  - intros [= <- <-] _. split; [exact Hw2|]. exists t. by apply Hl2.
Qed.

(** The first walk to a file of a FAT32 volume yields a dentry that has been
    freed: [fat32_lookup] returns the dentry it was given, and the walk frees the
    dentry it gave whenever the file system returns one. *)
Theorem fat32_walk_freed fuel fuel' vfsmount_list iops (s : vfs) mnt dentry comp s1 nd s2 :
  a_wf (v_heap s) -> Z.of_nat (length comp) < 2 ^ 62 -> comp <> dot -> comp <> dotdot -> dentry <> 0 ->
  d_lookup dentry_hashtable fuel s dentry comp = Some (s, 0) -> iops_of iops s dentry = Some (fat32_iops fuel') ->
  alloc_dentry s dentry comp = Some (s1, nd) -> nd <> 0 ->
  fat32_lookup fuel' s1 (vget s1 dentry d_inode) nd = Some (s2, nd) -> no_mounts vfsmount_list s2 -> (0 < fuel)%nat ->
  exists s3, walk_component dentry_hashtable vfsmount_list iops fuel s mnt dentry comp = Some (s3, Some (mnt, nd)) /\
    forall t, ~ a_live (v_heap s3) nd t.
Proof.
  intros Hwf Hlen Hd1 Hd2 Hd Hmiss Hops Hal Hnd Hlook Hnm Hf. unfold walk_component. rewrite !bool_decide_eq_false_2, Hmiss by done.
  cbn [mbind option_bind negb Z.eqb]. unfold deref. rewrite (proj2 (Z.eqb_neq _ _) Hd), Hops. cbn [fat32_iops]. rewrite Hal. cbn [mbind option_bind].
  rewrite (proj2 (Z.eqb_neq _ _) Hnd), Hlook. cbn [mbind option_bind]. rewrite (proj2 (Z.eqb_neq _ _) Hnd). cbn [negb].
  destruct (alloc_dentry_heap s dentry comp s1 nd Hwf Hlen Hal Hnd) as (Hwf1 & t & Ht). apply fat32_lookup_heap in Hlook as [Hwf2 Hl2]; [|done].
  destruct (a_free_spec _ _ _ Hwf2 (Hl2 _ _ Ht)) as (h & -> & _ & Hl). cbn [mbind option_bind].
  rewrite follow_none by done. cbn [mbind option_bind]. eexists. split; [done|]. intros u Hu. by apply Hl in Hu as [_ ?].
Qed.


(** ** Reading a file *)

(** No read fails. *)
Definition reliable : Prop := forall (r : R) dev b r', io_read r dev b <> (r', None).

Definition sector_bytes (s : vfs) (sb b : Z) : list Z := bytes_at (sector s sb b) 0 512.
Definition sectors_bytes (s : vfs) (sb first : Z) (n : nat) : list Z := seqZ first (Z.of_nat n) ≫= sector_bytes s sb.
Definition cluster_bytes (s : vfs) (sb c : Z) : list Z :=
  let sbi := vget s sb s_fs_info in sectors_bytes s sb (cluster_to_sector s sbi c) (Z.to_nat (vget s sbi sectors_per_cluster)).

(** The bytes [d] have been read into [a] and the position has moved. *)
Definition reads (s s' : vfs) (file a : Z) (d : list Z) : Prop :=
  (forall x f, f <> f_pos -> vget s' x f = vget s x f) /\ vget s' file f_pos = vget s file f_pos + Z.of_nat (length d) /\
  (forall dev b, content (v_rest s') dev b = content (v_rest s) dev b) /\ forall x, v_mem s' x = put_chars (v_mem s) a d x.

Lemma put_chars_ext m m' a l : (forall x, m' x = m x) -> forall x, put_chars m' a l x = put_chars m a l x.
Proof.
  revert m m' a. induction l as [|c l IH]; intros m m' a E x; [apply E|]. cbn [put_chars]. apply IH. intros y. unfold store8. by rewrite E.
Qed.

Lemma put_chars_app m a l1 l2 : put_chars m a (l1 ++ l2) = put_chars (put_chars m a l1) (a + Z.of_nat (length l1)) l2.
Proof.
  revert m a. induction l1 as [|c l IH]; intros m a; [by rewrite Z.add_0_r|]. cbn [app put_chars length]. rewrite IH. f_equal. lia.
Qed.

Lemma reads_nil s s' file a : io_step s s' -> reads s s' file a [].
Proof. intros (r & -> & Hr). split; [done|]. split; [simpl; rewrite Z.add_0_r; done|]. split; [done|]. done. Qed.

Lemma reads_app s s1 s2 file a d1 d2 :
  reads s s1 file a d1 -> reads s1 s2 file (a + Z.of_nat (length d1)) d2 -> reads s s2 file a (d1 ++ d2).
Proof.
  intros (F1 & P1 & C1 & M1) (F2 & P2 & C2 & M2). split; [intros x f Hf; by rewrite F2, F1|]. split; [rewrite P2, P1, length_app; lia|].
  split; [intros; by rewrite C2, C1|]. intros x. rewrite M2, put_chars_app. by apply put_chars_ext.
Qed.

Lemma reads_sector s s' file a d sb b : reads s s' file a d -> sector s' sb b = sector s sb b.
Proof. intros (F & _ & C & _). unfold sector. rewrite C. by rewrite F. Qed.

Lemma reads_volume s s' file a d sb : reads s s' file a d ->
  vget s' sb s_fs_info = vget s sb s_fs_info /\ (forall c, fat s' sb c = fat s sb c) /\ (forall c, cluster_bytes s' sb c = cluster_bytes s sb c) /\
  forall c l, chain s' sb c l <-> chain s sb c l.
Proof.
  intros Hr. pose proof Hr as (F & _ & _ & _). assert (forall c, fat s' sb c = fat s sb c) as Ef.
  { intros c. unfold fat. rewrite (reads_sector _ _ _ _ _ _ _ Hr). unfold fat_sector, fat_offset. by rewrite !F by done. }
  split; [by rewrite F|]. split; [done|]. split.
  - intros c. unfold cluster_bytes, sectors_bytes, cluster_to_sector. rewrite !F by done. apply list_bind_ext; [|done].
    intros b. unfold sector_bytes. by rewrite (reads_sector _ _ _ _ _ _ _ Hr).
  - intros c l. revert c. induction l as [|x l IH]; intros c; [done|]. simpl. unfold is_cluster, max_cluster. rewrite !F, Ef, IH by done. done.
Qed.

Lemma read_sector_reliable s sb b : reliable -> exists s', read_sector s sb b = (s', Some (sector s sb b)) /\ io_step s s'.
Proof.
  intros Hr. pose proof (read_sector_spec s sb b) as Hb. destruct (read_sector s sb b) as [s' d] eqn:E. destruct Hb as [Hs [->| ->]]; [|by exists s'].
  exfalso. unfold read_sector in E. destruct (io_read _ _ _) as [r d] eqn:Ei. injection E as <- ->. by apply Hr in Ei.
Qed.

Lemma next_reliable s sb c : reliable -> exists s', fat32_next_cluster s sb c = (s', fat s sb c) /\ io_step s s'.
Proof.
  intros Hr. unfold fat32_next_cluster. destruct (read_sector_reliable s sb (fat_sector s sb c) Hr) as (s' & -> & Hs). exists s'. split; [|done].
  unfold fat. by destruct Hs as (r & -> & _).
Qed.

Lemma sectors_bytes_length s sb first n : length (sectors_bytes s sb first n) = (512 * n)%nat.
Proof.
  unfold sectors_bytes. revert first. induction n as [|n IH]; intros first; [done|]. rewrite Nat2Z.inj_succ, seqZ_cons by lia.
  cbn [mbind list_bind]. rewrite length_app. unfold sector_bytes at 1. rewrite bytes_at_length. replace (Z.pred (Z.succ (Z.of_nat n))) with (Z.of_nat n) by lia.
  rewrite IH. lia.
Qed.

Lemma sectors_bytes_cons s sb first n : sectors_bytes s sb first (S n) = sector_bytes s sb first ++ sectors_bytes s sb (first + 1) n.
Proof.
  unfold sectors_bytes. rewrite Nat2Z.inj_succ, seqZ_cons by lia. cbn [mbind list_bind]. by replace (Z.pred (Z.succ (Z.of_nat n))) with (Z.of_nat n) by lia.
Qed.

(** One piece of a sector. *)
Lemma read_piece s s1 sb b file a off k :
  io_step s s1 -> 0 <= k -> 0 <= off -> 0 <= vget s file f_pos -> vget s file f_pos + k < 2 ^ 64 ->
  let d := bytes_at (sector s sb b) off (Z.to_nat k) in
  reads s (vset (with_mem s1 (put_chars (v_mem s1) a d)) file f_pos (u64 (vget s1 file f_pos + k))) file a d.
Proof.
  intros (r & -> & Hr) Hk Ho Hp Hw d. change (vget (with_rest s r) file f_pos) with (vget s file f_pos). rewrite u64_small by lia. split; [|split; [|split]].
  - intros x f Hf. unfold vget, vset. simpl. by rewrite wr_other by (by right).
  - unfold vget, vset. simpl. rewrite wr_same. unfold d. rewrite bytes_at_length. fold (vget s file f_pos). lia.
  - done.
  - done.
Qed.

Lemma read_sectors_spec n : forall s file sb sec i buf count done off,
  reliable -> 0 <= off <= 512 * Z.of_nat n -> 0 <= done <= count -> 0 <= sec -> 0 <= i -> sec + i + Z.of_nat n < 2 ^ 32 ->
  0 <= vget s file f_pos -> vget s file f_pos + (count - done) < 2 ^ 64 ->
  let d := take (Z.to_nat (count - done)) (drop (Z.to_nat off) (sectors_bytes s sb (sec + i) n)) in
  exists s' off', read_sectors n s file sb sec i buf count done off = (s', Some (done + Z.of_nat (length d), off')) /\
    (done + Z.of_nat (length d) < count -> off' = 0) /\ reads s s' file (buf + done) d.
Proof.
  induction n as [|n IH]; intros s file sb sec i buf count done off Hr Ho Hd Hs Hi Hw Hp Hpw d; cbn [read_sectors].
  - assert (d = []) as -> by (unfold d, sectors_bytes; simpl; by rewrite drop_nil, take_nil). simpl. rewrite Z.add_0_r.
    exists s, off. split; [done|]. split; [lia|]. apply reads_nil, io_step_refl.
  - destruct (Z.leb_spec count done) as [Hc|Hc].
    { assert (d = []) as -> by (unfold d; by replace (Z.to_nat (count - done)) with 0%nat by lia). simpl. rewrite Z.add_0_r.
      exists s, off. split; [done|]. split; [lia|]. apply reads_nil, io_step_refl. }
    assert (length (sector_bytes s sb (sec + i)) = 512%nat) as L by apply bytes_at_length. revert d. rewrite sectors_bytes_cons. intros d.
    destruct (Z.leb_spec 512 off) as [H5|H5].
    + destruct (IH s file sb sec (i + 1) buf count done (off - 512)) as (s' & off' & E & Hoff & Hrd); try done; [lia..|].
      replace (sec + (i + 1)) with (sec + i + 1) in * by lia.
      assert (d = take (Z.to_nat (count - done)) (drop (Z.to_nat (off - 512)) (sectors_bytes s sb (sec + i + 1) n))) as ->.
      { unfold d. rewrite drop_app_ge, L by lia. do 2 f_equal. lia. }
      exists s', off'. done.
    + rewrite u32_small by lia. destruct (read_sector_reliable s sb (sec + i) Hr) as (s1 & -> & Hs1).
      set (k := if count - done <? 512 - off then count - done else 512 - off).
      assert (k = Z.min (count - done) (512 - off)) as Ek by (unfold k; destruct (Z.ltb_spec (count - done) (512 - off)); lia).
      pose proof (read_piece s s1 sb (sec + i) file (buf + done) off k Hs1 ltac:(lia) ltac:(lia) Hp ltac:(lia)) as Hp1. cbv zeta in Hp1.
      set (d1 := bytes_at _ off _) in *. set (s2 := vset _ _ _ _) in *. change (vget (with_mem s1 _)) with (vget s1). fold s2.
      pose proof Hp1 as (_ & Ep1 & _). assert (length d1 = Z.to_nat k) as L1 by apply bytes_at_length.
      destruct (IH s2 file sb sec (i + 1) buf count (done + k) 0) as (s' & off' & E & Hoff & Hrd); try done; [lia..|].
      replace (sec + (i + 1)) with (sec + i + 1) in * by lia. rewrite drop_0 in *.
      assert (sectors_bytes s2 sb (sec + i + 1) n = sectors_bytes s sb (sec + i + 1) n) as Es.
      { apply list_bind_ext; [|done]. intros b. unfold sector_bytes. by rewrite (reads_sector _ _ _ _ _ _ _ Hp1). }
      rewrite Es in *. set (d2 := take _ (sectors_bytes _ _ _ _)) in *.
      assert (d = d1 ++ d2) as ->.
      { unfold d, d1, d2. rewrite drop_app_le, take_app by lia. unfold sector_bytes at 1 2. rewrite bytes_at_drop, bytes_at_length.
        replace (0 + Z.of_nat (Z.to_nat off)) with off by lia. f_equal.
        - destruct (Z.le_gt_cases (count - done) (512 - off)); [rewrite bytes_at_take by lia; f_equal; lia|].
          rewrite take_ge by (rewrite bytes_at_length; lia). f_equal. lia.
        - f_equal. lia. }
      rewrite length_app, L1, Nat2Z.inj_add, Z2Nat.id by lia. rewrite Z.add_assoc. exists s', off'. split; [done|]. split; [done|].
      apply (reads_app s s2); [done|]. rewrite L1, Z2Nat.id by lia. by replace (buf + done + k) with (buf + (done + k)) by lia.
Qed.


Lemma reads_same s s' file a d sb l : reads s s' file a d -> (l ≫= cluster_bytes s' sb) = (l ≫= cluster_bytes s sb).
Proof. intros Hr. apply list_bind_ext; [|done]. intros c. apply (reads_volume _ _ _ _ _ sb Hr). Qed.

Lemma reads_is_volume s s' file a d sb : reads s s' file a d -> volume s sb -> volume s' sb.
Proof. intros (F & _). unfold volume, max_cluster. by rewrite !F by done. Qed.

(** The clusters [l] of a chain from an offset in the first on. *)
Lemma read_clusters_spec sb l : forall fuel s file c buf count done off,
  reliable -> volume s sb -> chain s sb c l -> (length l + 1 < fuel)%nat ->
  0 <= off < 512 * vget s (vget s sb s_fs_info) sectors_per_cluster -> 0 <= done <= count ->
  0 <= vget s file f_pos -> vget s file f_pos + (count - done) < 2 ^ 64 ->
  let d := take (Z.to_nat (count - done)) (drop (Z.to_nat off) (l ≫= cluster_bytes s sb)) in
  exists s', read_clusters fuel s file sb c buf count done off = Some (s', done + Z.of_nat (length d)) /\ reads s s' file (buf + done) d.
Proof.
  induction l as [|x l IH]; intros fuel s file c buf count done off Hr Hv Hc Hf Ho Hd Hp Hpw d; (destruct fuel as [|fuel]; [lia|]); cbn [read_clusters].
  - assert (d = []) as -> by (unfold d; cbn [mbind list_bind]; by rewrite drop_nil, take_nil). simpl length. rewrite Z.add_0_r. cbn [chain] in Hc.
    rewrite (proj2 (Z.leb_le EOC c)) by done. exists s. split; [by case_match|]. apply reads_nil, io_step_refl.
  - destruct Hc as (-> & Hcl & Hc). cbn [mbind list_bind] in d.
    destruct (Z.leb_spec count done) as [Hcd|Hcd].
    { assert (d = []) as -> by (unfold d; by replace (Z.to_nat (count - done)) with 0%nat by lia). simpl. rewrite Z.add_0_r.
      exists s. split; [done|]. apply reads_nil, io_step_refl. }
    destruct (cluster_place s sb c Hv Hcl) as (C1 & C2 & C3 & C4). pose proof Hv as (_ & Hspc & _ & Hm & _).
    rewrite (proj2 (Z.leb_gt EOC c)) by (unfold is_cluster in Hcl; unfold EOC; lia). set (sbi := vget s sb s_fs_info) in *. set (spc := vget s sbi sectors_per_cluster) in *.
    destruct (read_sectors_spec (Z.to_nat spc) s file sb (cluster_to_sector s sbi c) 0 buf count done off) as (s1 & off1 & E1 & Hoff & R1); try done; [lia..|].
    rewrite E1, Z.add_0_r in *. change (sectors_bytes s sb (cluster_to_sector s sbi c) (Z.to_nat spc)) with (cluster_bytes s sb c) in *. set (d1 := take _ (drop _ (cluster_bytes s sb c))) in *.
    destruct (next_reliable s1 sb c Hr) as (s2 & -> & Hs2). pose proof (reads_app s s1 s2 file (buf + done) d1 [] R1 (reads_nil _ _ _ _ Hs2)) as R2. rewrite app_nil_r in R2.
    destruct (reads_volume _ _ _ _ _ sb R1) as (_ & Ef & _ & _). rewrite Ef.
    destruct (reads_volume _ _ _ _ _ sb R2) as (Ei & _ & _ & Ech). pose proof R2 as (F2 & P2 & _).
    assert (length (cluster_bytes s sb c) = (512 * Z.to_nat spc)%nat) as Lc by apply sectors_bytes_length.
    assert (length d1 = Nat.min (Z.to_nat (count - done)) (512 * Z.to_nat spc - Z.to_nat off)) as L1 by (unfold d1; by rewrite length_take, length_drop, Lc).
    assert (d = d1 ++ take (Z.to_nat (count - (done + Z.of_nat (length d1)))) (l ≫= cluster_bytes s sb)) as ->.
    { unfold d. rewrite drop_app_le by lia. rewrite take_app. f_equal. f_equal. rewrite length_drop, Lc. lia. }
    set (done1 := done + Z.of_nat (length d1)) in *.
    destruct (Z.le_gt_cases count done1) as [Hle|Hgt].
    + replace (Z.to_nat (count - done1)) with 0%nat by lia. rewrite take_0, app_nil_r. exists s2. split; [|done].
      destruct fuel as [|fuel]; [simpl in Hf; lia|]. cbn [read_clusters]. by rewrite (proj2 (Z.leb_le count done1)) by done.
    + specialize (Hoff Hgt). subst off1. assert (vget s2 (vget s2 sb s_fs_info) sectors_per_cluster = spc) as Espc by (rewrite Ei; by rewrite F2).
      destruct (IH fuel s2 file (fat s sb c) buf count done1 0) as (s3 & E3 & R3); try done.
      * by apply (reads_is_volume _ _ _ _ _ _ R2).
      * by apply Ech.
      * simpl in Hf. lia.
      * lia.
      * lia.
      * lia.
      * lia.
      * rewrite drop_0, (reads_same _ _ _ _ _ _ _ R2) in E3, R3. exists s3. rewrite length_app, Nat2Z.inj_add, Z.add_assoc. fold done1. split; [done|].
        apply (reads_app s s2); [done|]. by replace (buf + done + Z.of_nat (length d1)) with (buf + done1) by lia.
Qed.

Lemma skip_clusters_spec n : forall s sb c l,
  reliable -> volume s sb -> chain s sb c l -> (n < length l)%nat ->
  exists s' c', skip_clusters n s sb c = (s', Some c') /\ io_step s s' /\ chain s' sb c' (drop n l).
Proof.
  induction n as [|n IH]; intros s sb c l Hr Hv Hc Hn; cbn [skip_clusters]; [exists s, c; split; [done|]; split; [apply io_step_refl|done]|].
  destruct l as [|x l]; [simpl in Hn; lia|]. destruct Hc as (-> & Hcl & Hc). destruct (next_reliable s sb c Hr) as (s1 & -> & Hs1).
  assert (chain s1 sb (fat s sb c) l) as Hc1.
  { destruct (reads_volume s s1 0 0 [] sb (reads_nil _ _ _ _ Hs1)) as (_ & _ & _ & E). by apply E. }
  assert (fat s sb c < EOC).
  { destruct l as [|y l]; [simpl in Hn; lia|]. destruct Hc as (_ & [? ?] & _). destruct Hv as (_ & _ & _ & Hm & _). unfold EOC. lia. }
  rewrite (proj2 (Z.leb_gt _ _)) by done. destruct (IH s1 sb (fat s sb c) l) as (s2 & c' & E & Hs2 & Hd); [done|by destruct Hs1 as (r & -> & _)|done|simpl in Hn; lia|].
  exists s2, c'. split; [done|]. split; [by apply (io_step_trans s s1)|done].
Qed.

Definition cluster_size (s : vfs) (sb : Z) : nat := (512 * Z.to_nat (vget s (vget s sb s_fs_info) sectors_per_cluster))%nat.

Lemma chain_bytes_length s sb l : length (l ≫= cluster_bytes s sb) = (cluster_size s sb * length l)%nat.
Proof.
  induction l as [|c l IH]; [cbn; lia|]. cbn [mbind list_bind length]. rewrite length_app. change (length (l ≫= cluster_bytes s sb) = (cluster_size s sb * length l)%nat) in IH.
  etransitivity; [apply f_equal2_nat; [apply sectors_bytes_length|exact IH]|]. unfold cluster_size. lia.
Qed.

Lemma chain_bytes_drop s sb q l : (q <= length l)%nat -> drop (cluster_size s sb * q) (l ≫= cluster_bytes s sb) = (drop q l ≫= cluster_bytes s sb).
Proof.
  intros Hq. rewrite <- (take_drop q l) at 1. rewrite bind_app. apply drop_app_length'. rewrite chain_bytes_length, length_take. f_equal. lia.
Qed.

(** [fat32_read] reads the bytes of the file: with sectors that can be read
    and clusters that cover the size, it copies the bytes of the chain from the
    position on, up to [count] bytes and the end of the file, returns their number
    and advances the position, whatever the alignment of position and length to
    sectors and clusters; the volume does not change. *)
Theorem fat32_read_correct fuel s file buf count l :
  let inode := vget s (vget s file f_dentry) d_inode in
  let sb := vget s inode i_sb in
  let sbi := vget s sb s_fs_info in
  let pos := vget s file f_pos in
  let size := vget s inode i_size in
  let d := take (Z.to_nat count) (drop (Z.to_nat pos) (take (Z.to_nat size) (l ≫= cluster_bytes s sb))) in
  reliable -> volume s sb -> vget s sbi bytes_per_cluster = 512 * vget s sbi sectors_per_cluster ->
  vget s file f_dentry <> 0 -> inode <> 0 -> chain s sb (u32 (vget s inode i_ino)) l -> 0 <= pos -> 0 <= size ->
  size <= 512 * vget s sbi sectors_per_cluster * Z.of_nat (length l) < 2 ^ 32 -> 0 <= count < 2 ^ 31 -> pos + count < 2 ^ 64 -> (length l + 1 < fuel)%nat ->
  (forall b, mem_ok (sector s sb b)) ->
  exists s', fat32_read fuel s file buf count = Some (s', Z.of_nat (length d)) /\ reads s s' file buf d /\ bytes_at (v_mem s') buf (length d) = d.
Proof.
  intros inode sb sbi pos size d Hr Hv Hb Hd Hi Hc Hp Hsz Hcov Hcn Hpc Hf Hok.
  set (spc := vget s sbi sectors_per_cluster) in *. pose proof Hv as (_ & Hspc & _). fold sbi spc in Hspc.
  set (L := l ≫= cluster_bytes s sb) in *. assert (length L = (512 * Z.to_nat spc * length l)%nat) as HL.
  { unfold L. rewrite chain_bytes_length. unfold cluster_size. fold sbi spc. lia. }
  assert (Forall (fun x => 0 <= x < 256) d) as Hbytes.
  { apply Forall_take, Forall_drop, Forall_take. unfold L. apply Forall_bind. apply Forall_true. intros c. apply Forall_bind, Forall_true. intros b.
    apply Forall_forall. intros x Hx. apply list_elem_of_fmap in Hx as (i & -> & _). apply Hok. }
  cut (exists s', fat32_read fuel s file buf count = Some (s', Z.of_nat (length d)) /\ reads s s' file buf d).
  { intros (s' & E & Hrd). exists s'. split; [done|]. split; [done|]. rewrite (bytes_at_ext (put_chars (v_mem s) buf d) _ _ buf).
    - by apply put_chars_bytes.
    - intros i _. apply Hrd. }
  unfold fat32_read, deref. rewrite (proj2 (Z.eqb_neq _ _) Hd). fold inode. rewrite (proj2 (Z.eqb_neq _ _) Hi). fold sb sbi pos size. rewrite Hb.
  assert (length d = Nat.min (Z.to_nat count) (Z.to_nat size - Z.to_nat pos)) as Ld by (unfold d; rewrite length_take, length_drop, length_take, HL; lia).
  destruct (Z.leb_spec size pos) as [Hle|Hgt].
  { exists s. assert (length d = 0%nat) as E0 by lia. destruct d; [|done]. split; [done|]. apply reads_nil, io_step_refl. }
  rewrite u64_small by lia. set (n := if size <? pos + count then s32 (size - pos) else count).
  assert (n = Z.min count (size - pos)) as En by (unfold n; destruct (Z.ltb_spec size (pos + count)); [rewrite s32_small|]; lia).
  rewrite (proj2 (Z.eqb_neq (512 * spc) 0)) by lia.
  pose proof (Z.div_mod pos (512 * spc) ltac:(lia)) as Hdm. pose proof (Z.mod_pos_bound pos (512 * spc) ltac:(lia)) as Hmb. pose proof (Z.div_pos pos (512 * spc) ltac:(lia) ltac:(lia)) as Hq.
  set (q := pos / (512 * spc)) in *. set (o := pos mod (512 * spc)) in *. assert (q < Z.of_nat (length l)) as Hql by nia. rewrite u32_small by nia.
  destruct (skip_clusters_spec (Z.to_nat q) s sb (u32 (vget s inode i_ino)) l) as (s1 & c1 & -> & Hs1 & Hc1); [done|done|done|lia|].
  pose proof (reads_nil s s1 file buf Hs1) as R1. destruct (reads_volume _ _ _ _ _ sb R1) as (Ei & _ & _ & _). pose proof R1 as (F1 & P1 & _).
  destruct (read_clusters_spec sb (drop (Z.to_nat q) l) fuel s1 file c1 buf n 0 o) as (s2 & E2 & R2); try done.
  - by destruct Hs1 as (r & -> & _).
  - rewrite length_drop. lia.
  - rewrite Ei. rewrite F1 by done. done.
  - lia.
  - rewrite P1. simpl. fold pos. lia.
  - rewrite P1. simpl. fold pos. lia.
  - rewrite (reads_same _ _ _ _ _ _ _ R1) in E2, R2. rewrite Z.sub_0_r, Z.add_0_l in *. rewrite Z.add_0_r in R2.
    assert (take (Z.to_nat n) (drop (Z.to_nat o) (drop (Z.to_nat q) l ≫= cluster_bytes s sb)) = d) as Ed.
    { unfold d. rewrite skipn_firstn_comm, take_take. replace (Z.to_nat count `min` (Z.to_nat size - Z.to_nat pos))%nat with (Z.to_nat n) by lia.
      f_equal. replace (Z.to_nat pos) with (cluster_size s sb * Z.to_nat q + Z.to_nat o)%nat by (unfold cluster_size; fold sbi spc; nia).
      unfold L. rewrite <- drop_drop, chain_bytes_drop by lia. done. }
    rewrite Ed in E2, R2. exists s2. split; [done|]. by apply (reads_app s s1 s2 file buf [] d R1); rewrite Z.add_0_r.
Qed.

End fat32.

(** ** Examples *)

#[local] Existing Instance Heap.heap_allocator.

(** A device that never fails. *)
#[local] Program Instance pure_disk : SectorIO (Z -> Z -> mem) := {
  io_read r dev b := (r, Some (r dev b));
  io_write r dev b m := fun dev' b' => if decide (dev' = dev /\ b' = b) then m else r dev' b';
  io_gendisk r name := 0x800000;
  content r dev b := r dev b
}.
Next Obligation. by intros r dev b r' d [= _ <-]. Qed.
Next Obligation. done. Qed.
Next Obligation. done. Qed.

(** Clusters of one sector; the file of clusters 2 and 3 is in the directory of
    cluster 5 as [A]. *)
Definition demo_sectors : list (Z * list Z) :=
  [(1, [0; 0; 0; 0; 0; 0; 0; 0; 3; 0; 0; 0; 255; 255; 255; 15; 0; 0; 0; 0; 255; 255; 255; 15]);
   (2, replicate 512 65); (3, replicate 512 66);
   (5, [65; 32; 32; 32; 32; 32; 32; 32; 32; 32; 32; 32; 0; 0; 0; 0; 0; 0; 0; 0; 0; 0; 0; 0; 0; 0; 2; 0; 88; 2; 0; 0])].
Definition demo_disk : Z -> Z -> mem := fun _ b i =>
  if i <? 0 then 0 else nth (Z.to_nat i) (default [] (snd <$> List.find (fun p => fst p =? b) demo_sectors)) 0.

Definition demo_sb : Z := 0x700000.
Definition demo_sbi : Z := 0x710000.
Definition demo_dir_inode : Z := 0x620000.

Definition demo_fat_fields : store vfld := fun x f =>
  match f with
  | s_fs_info => if x =? demo_sb then demo_sbi else 0
  | s_blocksize => if x =? demo_sb then 512 else 0
  | fat_start_sector | sectors_per_cluster => if x =? demo_sbi then 1 else 0
  | bytes_per_cluster => if x =? demo_sbi then 512 else 0
  | total_sectors => if x =? demo_sbi then 8 else 0
  | data_start_sector => if x =? demo_sbi then 2 else 0
  | f_dentry => if x =? 0x1028 then demo_b else 0
  | f_pos => if x =? 0x1028 then 510 else 0
  | d_inode => if x =? demo_b then demo_inode else if x =? demo_root then demo_dir_inode else 0
  | i_sb => demo_sb
  | i_size => if x =? demo_inode then 600 else 0
  | i_ino => if x =? demo_inode then 2 else 5
  | i_op => 0x9100
  | _ => 0
  end.

Definition demo_fat : vfs (A := Spinlock.cpu * Heap.heap) (R := Z -> Z -> mem) :=
  VS (list_to_map ((fun x => (x, LH x x)) <$> [demo_mounts; demo_table + 16 * 97; d_subdirs demo_root; s_inodes demo_sb]))
     demo_fat_fields (fun _ => []) (fun _ => 0) (v_heap demo_vfs0) demo_proc demo_root 0x400000 0 demo_disk.

Lemma demo_volume : volume demo_fat demo_sb.
Proof. vm_compute. repeat split; discriminate. Qed.

Lemma demo_reliable : reliable (R := Z -> Z -> mem).
Proof. intros r dev b r' E. discriminate E. Qed.

Lemma demo_disk_bytes b : mem_ok (sector demo_fat demo_sb b).
Proof.
  intros i. change (0 <= demo_disk 0 b i < 256). unfold demo_disk. destruct (i <? 0); [lia|].
  destruct (List.find _ demo_sectors) as [[n l]|] eqn:E; [|by destruct (Z.to_nat i)].
  apply List.find_some in E as [E _]. cbn [fmap option_fmap option_map default from_option id snd].
  destruct (nth_in_or_default (Z.to_nat i) l 0) as [Hin| ->]; [|lia].
  assert (Forall (fun p => Forall (fun x => 0 <= x < 256) (snd p)) demo_sectors) as Hall by (vm_compute; repeat constructor; discriminate).
  rewrite List.Forall_forall in Hall. specialize (Hall _ E). cbn [snd] in Hall. rewrite List.Forall_forall in Hall. by apply Hall.
Qed.

Lemma fat32_name_roundtrip_witness :
  same_name (entry_name (fat32_format_name [104; 105; 46; 116; 120; 116]) 0x20) [104; 105; 46; 116; 120; 116] = true /\
  same_name (entry_name (fat32_format_name [104; 105; 46; 116; 120; 116]) ATTR_DIR) [104; 105; 46; 116; 120; 116] = false.
Proof.
  assert (Forall name_char [104; 105] /\ Forall name_char [116; 120; 116]) as [H1 H2] by (split; repeat constructor; done || lia).
  split; [apply (fat32_name_roundtrip [104; 105] [116; 120; 116] 0x20)|apply (fat32_name_roundtrip [104; 105] [116; 120; 116] ATTR_DIR)]; simpl; try lia; done.
Defined.

Lemma demo_chain : chain demo_fat demo_sb 2 [2; 3].
Proof. vm_compute. repeat split; discriminate. Qed.

Lemma fat32_read_correct_witness :
  exists s', fat32_read 4 demo_fat 0x1028 0x800 100 = Some (s', 90) /\ bytes_at (v_mem s') 0x800 90 = [65; 65] ++ replicate 88 66.
Proof.
  destruct (fat32_read_correct 4 demo_fat 0x1028 0x800 100 [2; 3] demo_reliable demo_volume) as (s' & E & _ & Hb).
  - reflexivity.
  - discriminate.
  - discriminate.
  - exact demo_chain.
  - vm_compute. discriminate.
  - vm_compute. discriminate.
  - vm_compute. split; [discriminate|reflexivity].
  - lia.
  - vm_compute. reflexivity.
  - simpl. lia.
  - exact demo_disk_bytes.
  - exists s'. split; [rewrite E; vm_compute; reflexivity|]. etransitivity; [exact Hb|vm_compute; reflexivity].
Defined.


(** Cluster 4 is the first free one. *)
Lemma fat32_alloc_cluster_correct_witness :
  exists rest, fat32_alloc_cluster demo_fat demo_sb 3 = Some (with_rest demo_fat rest, 4) /\
    chain (with_rest demo_fat rest) demo_sb 2 [2; 3; 4].
Proof.
  destruct (fat32_alloc_cluster_correct demo_fat demo_sb 3 demo_volume) as (rest & new & E & Hr).
  - right. split; [split; vm_compute; congruence|vm_compute; discriminate].
  - assert (snd <$> fat32_alloc_cluster demo_fat demo_sb 3 = Some 4) as E4 by (vm_compute; reflexivity).
    rewrite E in E4. injection E4 as ->. exists rest. split; [exact E|].
    destruct Hr as [[E0 _]|[_ Hc]]; [discriminate E0|]. apply (Hc 2 [2]); [|discriminate|exact demo_chain].
    apply (bool_decide_unpack _). vm_compute. exact I.
Defined.

(** The state after an operation whose value is known. *)
Lemma ran {S B : Type} (d : S * B) (o : option (S * B)) (v : B) : snd <$> o = Some v -> o = Some (fst (default d o), v).
Proof. destruct o as [[s w]|]; [|done]. by intros [= ->]. Qed.

Definition demo_made := fst (default (demo_fat, 0) (alloc_dentry demo_fat demo_root [97])).
Definition demo_found := fst (default (demo_made, 0) (fat32_lookup demo_table 0x9100 0x9200 0x9300 4 demo_made (vget demo_made demo_root d_inode) 0x10A8)).

(** The walk to [a] in the root. *)
Lemma fat32_walk_freed_witness :
  exists s3, walk_component demo_table demo_mounts (fun _ => fat32_iops demo_table 0x9100 0x9200 0x9300 4) 2 demo_fat 0x400000 demo_root [97] =
      Some (s3, Some (0x400000, 0x10A8)) /\ forall t, ~ a_live (v_heap s3) 0x10A8 t.
Proof.
  apply (fat32_walk_freed demo_table 0x9100 0x9200 0x9300 2 4 demo_mounts (fun _ => fat32_iops demo_table 0x9100 0x9200 0x9300 4) demo_fat 0x400000 demo_root [97] demo_made 0x10A8 demo_found).
  - exact demo_vfs_heap.
  - vm_compute. reflexivity.
  - discriminate.
  - discriminate.
  - discriminate.
  - unfold d_lookup. set (head := bucket _ _). assert (list_find 2 (v_links demo_fat) head (is_child demo_fat demo_root [97]) = Some head) as -> by (vm_compute; reflexivity).
    cbn [mbind option_bind]. rewrite Z.eqb_refl. reflexivity.
  - reflexivity.
  - apply ran. vm_compute. reflexivity.
  - discriminate.
  - apply ran. vm_compute. reflexivity.
  - split; [|apply NoDup_singleton]. cbn [linked app]. unfold links, get_next, get_prev.
    assert (v_links demo_found !! demo_mounts = Some (LH demo_mounts demo_mounts)) as -> by (vm_compute; reflexivity). done.
  - lia.
Defined.

End Fat32.
