(* ===== verification/Cgroup.v ===== *)
(** * Control groups (src/kernel/process/cgroup.c)

    Every process refers to a [css_set], which has one state per subsystem and a
    count of the processes that refer to it.  Subsystems are registered in a
    table and may have functions called when a group is made and when a process
    is forked or exits; these functions are parameters.  The lock is taken and
    released on every path, and messages to the console are left out. *)
From S2P Require Import Prelude Allocator ListHead Store Spinlock Heap Sched.
Import ListHead.
Import Sched (sched, get, set, current_process, cgroups).

Module Cgroup.

Definition CGROUP_SUBSYS_COUNT : Z := 12.

Inductive cgfld :=
  (** [struct css_set] *)
  | set_subsys (i : Z) | set_ref_count
  (** [struct cgroup] *)
  | cg_parent | cg_subsys (i : Z) | cg_dentry | cg_ref_count
  (** [struct cgroup_subsys_state] *)
  | css_cgroup | css_ss
  (** [struct cgroup_subsys] *)
  | subsys_id | ss_create | ss_fork | ss_exit.

#[export] Instance cgfld_eq_dec : EqDecision cgfld.
Proof. solve_decision. Defined.

(** The list nodes of a cgroup and of a css_set. *)
Definition cg_children (c : Z) : Z := c + 72.
Definition cg_sibling (c : Z) : Z := c + 88.
Definition cg_pid_lists (c : Z) : Z := c + 200.
Definition set_list (c : Z) : Z := c + 104.
Definition set_tasks (c : Z) : Z := c + 120.

Section cgroup.
Context {A : Type} `{Allocator A}.

Record cgs := CGS {
  cg_st : store cgfld; cg_links : gmap Z list_head; cg_name : Z -> list Z; cg_heap : A; cg_sched : sched; subsystems : Z -> Z
}.

Definition cget (s : cgs) (a : Z) (f : cgfld) : Z := cg_st s a f.
Definition with_store (s : cgs) (t : store cgfld) : cgs := CGS t (cg_links s) (cg_name s) (cg_heap s) (cg_sched s) (subsystems s).
Definition cset (s : cgs) (a : Z) (f : cgfld) (v : Z) : cgs := with_store s (wr (cg_st s) a f v).
Definition with_proc (s : cgs) (c : sched) : cgs := CGS (cg_st s) (cg_links s) (cg_name s) (cg_heap s) c (subsystems s).
Definition with_blocks (s : cgs) (h : A) : cgs := CGS (cg_st s) (cg_links s) (cg_name s) h (cg_sched s) (subsystems s).
Definition with_subsys (s : cgs) (t : Z -> Z) : cgs := CGS (cg_st s) (cg_links s) (cg_name s) (cg_heap s) (cg_sched s) t.
Definition init_node (s : cgs) (n : Z) : cgs :=
  CGS (cg_st s) (INIT_LIST_HEAD (cg_links s) n) (cg_name s) (cg_heap s) (cg_sched s) (subsystems s).
Definition zero (s : cgs) (a : Z) : cgs := with_store s (fun x f => if decide (x = a) then 0 else cg_st s x f).
Definition name_group (s : cgs) (a : Z) (l : list Z) : cgs :=
  CGS (cg_st s) (cg_links s) (fupd (cg_name s) a l) (cg_heap s) (cg_sched s) (subsystems s).

(** The addresses of the static structures, and what the functions of
    subsystems do. *)
Context (init_css_set root_cgroup : Z).
Context (create_fn : Z -> cgs -> Z -> option (cgs * Z)) (fork_fn exit_fn : Z -> cgs -> Z -> Z -> option cgs).

Definition cgroup_init (s : cgs) : cgs :=
  let s := zero s root_cgroup in
  let s := name_group s root_cgroup [47] in
  let s := init_node (init_node (init_node s (cg_children root_cgroup)) (cg_sibling root_cgroup)) (cg_pid_lists root_cgroup) in
  let s := cset s root_cgroup cg_ref_count 1 in
  let s := zero s init_css_set in
  let s := cset s init_css_set set_ref_count 1 in
  let s := init_node (init_node s (set_list init_css_set)) (set_tasks init_css_set) in
  for_up (Z.to_nat CGROUP_SUBSYS_COUNT) 0
    (fun i s => cset (cset s root_cgroup (cg_subsys i) 0) init_css_set (set_subsys i) 0) s.

Definition cgroup_register_subsys (s : cgs) (ss : Z) : option (cgs * Z) :=
  match List.find (fun i => subsystems s i =? 0) (seqZ 0 CGROUP_SUBSYS_COUNT) with
  | None => Some (s, -1)
  | Some id =>
      let s := with_subsys s (fupd (subsystems s) id ss) in
      let s := cset s ss subsys_id id in
      if negb (cget s ss ss_create =? 0) then
        '(s, css) ← create_fn (cget s ss ss_create) s root_cgroup;
        if negb (css =? 0) then
          let s := cset s root_cgroup (cg_subsys id) css in
          let s := cset s init_css_set (set_subsys id) css in
          let s := cset s css css_cgroup root_cgroup in
          Some (cset s css css_ss ss, 0)
        else Some (s, 0)
      else Some (s, 0)
  end.

(** The loop that calls the functions [fn] of the subsystems for a process. *)
Definition call_subsys (fld : cgfld) (fn : Z -> cgs -> Z -> Z -> option cgs) (s : cgs) (p : Z) : option cgs :=
  foldl (fun s i =>
    s ← s;
    let ss := subsystems s i in
    if negb (ss =? 0) && negb (cget s ss fld =? 0) then
      let css := cget s (get (cg_sched s) p cgroups) (set_subsys i) in
      if negb (css =? 0) then fn (cget s ss fld) s css p else Some s
    else Some s) (Some s) (seqZ 0 CGROUP_SUBSYS_COUNT).

Definition cgroup_fork (s : cgs) (child : Z) : option cgs :=
  let cur := current_process (cg_sched s) in
  if cur =? 0 then
    let s := with_proc s (set (cg_sched s) child cgroups init_css_set) in
    Some (cset s init_css_set set_ref_count (s32 (cget s init_css_set set_ref_count + 1)))
  else
    let c := get (cg_sched s) cur cgroups in
    let s := with_proc s (set (cg_sched s) child cgroups c) in
    if c =? 0 then None
    else
      let s := cset s c set_ref_count (s32 (cget s c set_ref_count + 1)) in
      call_subsys ss_fork fork_fn s child.

Definition cgroup_exit (s : cgs) (p : Z) : option cgs :=
  if get (cg_sched s) p cgroups =? 0 then Some s
  else
    s ← call_subsys ss_exit exit_fn s p;
    let c := get (cg_sched s) p cgroups in
    let s := cset s c set_ref_count (s32 (cget s c set_ref_count - 1)) in
    s ← (if (cget s c set_ref_count <=? 0) && negb (c =? init_css_set) then h ← a_free (cg_heap s) c; Some (with_blocks s h) else Some s);
    Some (with_proc s (set (cg_sched s) p cgroups 0)).

End cgroup.

(** ** Reference counts *)

Section counts.
Context {A : Type} `{Allocator A} (init_css_set : Z) (fork_fn exit_fn : Z -> cgs (A := A) -> Z -> Z -> option (cgs (A := A))).
#[local] Notation cgs := (cgs (A := A)).
#[local] Notation cgroup_fork := (cgroup_fork init_css_set fork_fn).
#[local] Notation cgroup_exit := (cgroup_exit init_css_set exit_fn).

(** The functions of subsystems leave the counts, the blocks and the processes
    alone. *)
Definition quiet (s s' : cgs) : Prop :=
  cg_heap s' = cg_heap s /\ cg_sched s' = cg_sched s /\ forall c, cget s' c set_ref_count = cget s c set_ref_count.
Definition quiet_fn (fn : Z -> cgs -> Z -> Z -> option cgs) : Prop := forall a s css p, exists s', fn a s css p = Some s' /\ quiet s s'.

Lemma quiet_refl s : quiet s s.
Proof. done. Qed.
Lemma quiet_trans s1 s2 s3 : quiet s1 s2 -> quiet s2 s3 -> quiet s1 s3.
Proof. intros (A1 & B1 & C1) (A2 & B2 & C2). split; [congruence|]. split; [congruence|]. intros c. by rewrite C2. Qed.

Lemma call_subsys_quiet fld fn s p : quiet_fn fn -> exists s', call_subsys fld fn s p = Some s' /\ quiet s s'.
Proof.
  intros Hq. unfold call_subsys. generalize (seqZ 0 CGROUP_SUBSYS_COUNT). intros l.
  assert (forall l t, quiet s t -> exists s', foldl (fun s i =>
    s ← s;
    let ss := subsystems s i in
    if negb (ss =? 0) && negb (cget s ss fld =? 0) then
      let css := cget s (get (cg_sched s) p cgroups) (set_subsys i) in
      if negb (css =? 0) then fn (cget s ss fld) s css p else Some s
    else Some s) (Some t) l = Some s' /\ quiet s s') as Hl; [|by apply Hl].
  clear l. induction l as [|i l IH]; intros t Ht; [by exists t|]. cbn [foldl mbind option_bind].
  destruct (_ && _); [|by apply IH]. destruct (negb _); [|by apply IH].
  match goal with |- context [fn ?a t ?b ?c] => destruct (Hq a t b c) as (t' & -> & Ht') end. apply IH. by apply (quiet_trans s t).
Qed.

(** The count of every set is the number of processes of [l] that refer to it
    and one more for the initial set; a set other than the initial one is a block
    of the heap as long as it is referred to. *)
Definition cg_inv (s : cgs) (l : list Z) : Prop :=
  a_wf (cg_heap s) /\ NoDup l /\ init_css_set <> 0 /\
  forall c, c <> 0 ->
    let n := holders (fun p => get (cg_sched s) p cgroups) l c in
    (0 < n \/ c = init_css_set -> cget s c set_ref_count = n + (if c =? init_css_set then 1 else 0)) /\
    (0 < n -> c <> init_css_set -> exists t, a_live (cg_heap s) c t).

Lemma cg_inv_quiet s s' l : quiet s s' -> cg_inv s l -> cg_inv s' l.
Proof. intros (E1 & E2 & E3) (Hwf & Hn & Hi & Hc). split; [by rewrite E1|]. split; [done|]. split; [done|]. intros c Hc0. rewrite E1, E2, E3. by apply Hc. Qed.

Lemma cgroups_set s p c q : get (set s p cgroups c) q cgroups = if decide (q = p) then c else get s q cgroups.
Proof. unfold get, set. simpl. destruct (decide (q = p)) as [->|Hne]; [by rewrite wr_same|]. by rewrite wr_other by (by left). Qed.

(** Reference counts fit into an [int]. *)
Definition few (l : list Z) : Prop := Z.of_nat (length l) < 2 ^ 30.

Lemma fork_inv s l child c :
  cg_inv s l -> few l -> child ∉ l -> c <> 0 -> (0 < holders (fun p => get (cg_sched s) p cgroups) l c \/ c = init_css_set) ->
  cg_inv (cset (with_proc s (set (cg_sched s) child cgroups c)) c set_ref_count (s32 (cget s c set_ref_count + 1))) (child :: l).
Proof.
  intros (Hwf & Hn & Hi & Hc) Hf Hch Hc0 Hr. split; [done|]. split; [by constructor|]. split; [done|]. intros x Hx. cbn zeta.
  change (cg_sched (cset ?t _ _ _)) with (cg_sched t). change (cg_sched (with_proc s ?c)) with c. rewrite holders_cons, cgroups_set, decide_True by done.
  rewrite (holders_fun (fun p => get (cg_sched s) p cgroups)).
  2: { intros y Hy. rewrite cgroups_set, decide_False; [done|]. intros ->. done. }
  pose proof (holders_nonneg (fun p => get (cg_sched s) p cgroups) l x) as Hnn. pose proof (holders_le (fun p => get (cg_sched s) p cgroups) l x) as Hle.
  destruct (Hc x Hx) as [H1 H2]. unfold few in Hf. unfold cset at 1, cget at 1. simpl.
  destruct (Z.eqb_spec c x) as [->|Hne].
  - rewrite wr_same. specialize (H1 Hr). split.
    + intros _. rewrite H1. rewrite s32_small; [lia|]. case_match; lia.
    + intros _ Hxi. destruct Hr as [Hr|Hr]; [|done]. by apply H2.
  - rewrite wr_other by (by left; congruence). rewrite Z.add_0_r. by split.
Qed.

Lemma exit_inv s l l' p :
  cg_inv s l -> few l -> l ≡ₚ p :: l' -> get (cg_sched s) p cgroups <> 0 ->
  let c := get (cg_sched s) p cgroups in
  let s1 := cset s c set_ref_count (s32 (cget s c set_ref_count - 1)) in
  exists s2, (if (cget s1 c set_ref_count <=? 0) && negb (c =? init_css_set) then h ← a_free (cg_heap s1) c; Some (with_blocks s1 h) else Some s1) = Some s2 /\
    let s' := with_proc s2 (set (cg_sched s2) p cgroups 0) in
    cg_inv s' l' /\ cg_sched s2 = cg_sched s /\
    (c <> init_css_set -> ((exists t, a_live (cg_heap s') c t) <-> 0 < holders (fun p => get (cg_sched s') p cgroups) l' c)).
Proof.
  intros (Hwf & Hn & Hi & Hc) Hf Hperm Hc0 c s1. fold c in Hc0. unfold few in Hf. set (g := fun p => get (cg_sched s) p cgroups) in *.
  rewrite Hperm in Hn. apply NoDup_cons in Hn as [Hp Hn].
  assert (forall x, holders g l x = holders g l' x + (if c =? x then 1 else 0)) as Hh by (intros x; by rewrite (holders_perm _ _ _ _ Hperm), holders_cons).
  pose proof (holders_nonneg g l' c) as Hnn. pose proof (holders_le g l c) as Hle. pose proof (Hh c) as Hhc. rewrite Z.eqb_refl in Hhc.
  destruct (Hc c Hc0) as [Hrc Hlc]. specialize (Hrc ltac:(lia)).
  assert (cget s1 c set_ref_count = holders g l' c + (if c =? init_css_set then 1 else 0)) as E1.
  { unfold s1, cget, cset. simpl. rewrite wr_same. fold (cget s c set_ref_count). rewrite Hrc. rewrite s32_small; [lia|]. case_match; lia. }
  assert (forall x, x <> c -> cget s1 x set_ref_count = cget s x set_ref_count) as E2 by (intros x Hx; unfold s1, cget, cset; simpl; by rewrite wr_other by (by left)).
  assert (forall h, a_wf h -> (forall q u, q <> c -> a_live (cg_heap s) q u -> a_live h q u) ->
    (0 < holders g l' c -> c <> init_css_set -> exists t, a_live h c t) ->
    cg_inv (with_proc (with_blocks s1 h) (set (cg_sched s) p cgroups 0)) l') as Hinv.
  { intros h Hwfh Hk Hkc. split; [done|]. split; [done|]. split; [done|]. intros x Hx. cbn zeta.
    change (cg_sched (with_proc _ ?q)) with q. rewrite (holders_fun g).
    2: { intros y Hy. rewrite cgroups_set, decide_False; [done|]. intros ->. done. }
    change (cget (with_proc _ _) x set_ref_count) with (cget s1 x set_ref_count). change (cg_heap (with_proc _ _)) with h.
    destruct (decide (x = c)) as [->|Hxc]; [by split; [rewrite E1|apply Hkc]|]. rewrite E2 by done. destruct (Hc x Hx) as [H1 H2].
    specialize (Hh x). rewrite (proj2 (Z.eqb_neq c x)) in Hh by done. rewrite Z.add_0_r in Hh. rewrite <- Hh. split; [done|].
    intros Hpos Hni. destruct (H2 Hpos Hni) as [t Ht]. exists t. by apply Hk. }
  rewrite E1. destruct (Z.eqb_spec c init_css_set) as [Eci|Nci].
  - rewrite andb_false_r. exists s1. split; [done|]. cbn zeta. split; [|by split].
    apply (Hinv (cg_heap s)); done.
  - rewrite andb_true_r, Z.add_0_r. destruct (Hlc ltac:(lia) Nci) as [t Ht]. destruct (Z.leb_spec (holders g l' c) 0) as [Hz|Hz].
    + change (cg_heap s1) with (cg_heap s). destruct (a_free_spec _ _ _ Hwf Ht) as (h & -> & Hwfh & Hlh). cbn [mbind option_bind].
      eexists. split; [done|]. cbn zeta. split; [apply (Hinv h); [done|intros; by apply Hlh|lia]|]. split; [done|]. intros _.
      change (cg_heap (with_proc _ _)) with h. split; [intros [u Hu]; by apply Hlh in Hu as [_ ?]|]. change (cg_sched (with_proc _ ?q)) with q.
      rewrite (holders_fun g); [lia|]. intros y Hy. rewrite cgroups_set, decide_False; [done|]. intros ->. done.
    + exists s1. split; [done|]. cbn zeta. split; [apply (Hinv (cg_heap s)); try done; by exists t|]. split; [done|]. intros _. split; [|by exists t].
      intros _. change (cg_sched (with_proc _ ?q)) with q. rewrite (holders_fun g); [lia|]. intros y Hy. rewrite cgroups_set, decide_False; [done|]. intros ->. done.
Qed.

(** The reference counts of css_sets are exact.  [cgroup_fork] gives a child
    the set of the current process and [cgroup_exit] takes a process out of its
    set; both keep the count of each set equal to the number of processes that
    refer to it, and a set is freed exactly when the last of them exits, the
    initial set never. *)
Theorem cgroup_refcounts s l :
  cg_inv s l -> few l -> quiet_fn fork_fn -> quiet_fn exit_fn ->
  (forall child, child ∉ l -> current_process (cg_sched s) <> child ->
     (current_process (cg_sched s) <> 0 -> current_process (cg_sched s) ∈ l /\ get (cg_sched s) (current_process (cg_sched s)) cgroups <> 0) ->
     exists s', cgroup_fork s child = Some s' /\ cg_inv s' (child :: l)) /\
  (forall p l', l ≡ₚ p :: l' -> get (cg_sched s) p cgroups <> 0 ->
     let c := get (cg_sched s) p cgroups in
     exists s', cgroup_exit s p = Some s' /\ cg_inv s' l' /\ get (cg_sched s') p cgroups = 0 /\
       (c <> init_css_set -> ((exists t, a_live (cg_heap s') c t) <-> 0 < holders (fun q => get (cg_sched s') q cgroups) l' c))).
Proof.
  intros Hinv Hf Hqf Hqe. split.
  - intros child Hch Hcur Hc. unfold cgroup_fork. destruct (Z.eqb_spec (current_process (cg_sched s)) 0) as [E|E].
    { eexists. split; [done|]. refine (fork_inv s l child init_css_set Hinv Hf Hch _ _); [apply Hinv|by right]. }
    destruct (Hc E) as [Hin Hc0]. rewrite (proj2 (Z.eqb_neq _ _) Hc0).
    match goal with |- context [call_subsys _ _ ?t _] => destruct (call_subsys_quiet ss_fork fork_fn t child Hqf) as (s' & -> & Hq) end.
    exists s'. split; [done|]. apply (cg_inv_quiet _ _ _ Hq). refine (fork_inv s l child _ Hinv Hf Hch Hc0 _). left. by apply (holders_pos _ _ _ _ Hin).
  - intros p l' Hperm Hc0 c. unfold cgroup_exit. rewrite (proj2 (Z.eqb_neq _ _) Hc0).
    destruct (call_subsys_quiet ss_exit exit_fn s p Hqe) as (s1 & -> & Hq). cbn [mbind option_bind]. pose proof (cg_inv_quiet _ _ _ Hq Hinv) as Hinv1.
    destruct Hq as (Eh & Es & _). assert (get (cg_sched s1) p cgroups = c) as Ec by (unfold c; by rewrite Es).
    destruct (exit_inv s1 l l' p Hinv1 Hf Hperm) as (s2 & E2 & Hi2 & Esc & Hl2); [by rewrite Ec|]. cbv zeta in E2, Hi2, Esc, Hl2.
    rewrite E2. cbn [mbind option_bind]. rewrite Ec in Hl2. eexists. split; [done|]. split; [exact Hi2|]. split; [|exact Hl2].
    change (cg_sched (with_proc _ ?q)) with q. by rewrite cgroups_set, decide_True.
Qed.

End counts.

#[local] Existing Instance Heap.heap_allocator.

(** Process 100 in a set of its own, process 200 in the initial one. *)
Definition demo_cgs : cgs (A := Spinlock.cpu * Heap.heap) :=
  CGS (fun x f => match f with set_ref_count => if x =? 0x1028 then 1 else if x =? 0x5000 then 2 else 0 | _ => 0 end) ∅ (fun _ => [])
    (Heap.demo_cpu, Heap.heap_of 0x1000 [(160, false); (4096, true)])
    (Sched.Sched (fun p f => match f with cgroups => if p =? 100 then 0x1028 else if p =? 200 then 0x5000 else 0 | _ => 0 end)
       (fun _ => 0) (fun _ => 0) 0 0 100 100 7 7) (fun _ => 0).

Lemma demo_cg_inv : cg_inv 0x5000 demo_cgs [100; 200].
Proof.
  assert (Heap.tiles_ok 0x1000 [(160, false); (4096, true)]) as Hok by (split; [done|]; split; [by repeat constructor|done]).
  split; [exists [(160, false); (4096, true)]; apply Heap.heap_of_rep; done|]. split; [apply (bool_decide_unpack _); by vm_compute|]. split; [done|].
  intros c Hc. cbn zeta. rewrite !holders_cons. change (holders _ [] c) with 0. cbn beta.
  change (cget demo_cgs c set_ref_count) with (if c =? 0x1028 then 1 else if c =? 0x5000 then 2 else 0).
  change (get (cg_sched demo_cgs) 100 cgroups) with 0x1028. change (get (cg_sched demo_cgs) 200 cgroups) with 0x5000.
  rewrite (Z.eqb_sym 0x1028 c), (Z.eqb_sym 0x5000 c).
  destruct (Z.eqb_spec c 0x1028) as [->|H1]; [|destruct (Z.eqb_spec c 0x5000) as [->|H2]].
  - split; [done|]. intros _ _. exists 160. apply Heap.heap_of_live; [done|done|]. vm_compute. left.
  - split; [done|]. intros _ ?. done.
  - split; lia.
Qed.

Lemma cgroup_refcounts_witness :
  exists s1 s2, cgroup_fork 0x5000 (fun _ s _ _ => Some s) demo_cgs 300 = Some s1 /\ cg_inv 0x5000 s1 [300; 100; 200] /\
    cgroup_exit 0x5000 (fun _ s _ _ => Some s) demo_cgs 100 = Some s2 /\ cg_inv 0x5000 s2 [200].
Proof.
  destruct (cgroup_refcounts 0x5000 (fun _ s _ _ => Some s) (fun _ s _ _ => Some s) demo_cgs [100; 200] demo_cg_inv) as [Hf He].
  - unfold few. simpl. lia.
  - intros a s css p. by exists s.
  - intros a s css p. by exists s.
  - destruct (Hf 300) as (s1 & H1 & I1); [set_solver|discriminate|intros _; split; [simpl; set_solver|discriminate]|].
    destruct (He 100 [200]) as (s2 & H2 & I2 & _); [done|discriminate|]. by exists s1, s2.
Defined.

End Cgroup.
