(* ===== verification/Namespace.v ===== *)
(** * Namespaces (src/kernel/process/namespace.c)

    A process refers to a [struct nsproxy], which refers to one namespace of each
    kind; [copy_nsproxy] makes the proxy of a process that wants some of them for
    itself.  A string in a namespace is the list of its characters. *)
From S2P Require Import Prelude Allocator ListHead Store Spinlock Heap.
Import ListHead.

Module Namespace.

Definition CLONE_NEWNS : Z := 0x00020000.
Definition CLONE_NEWUTS : Z := 0x04000000.
Definition CLONE_NEWIPC : Z := 0x08000000.
Definition CLONE_NEWPID : Z := 0x20000000.

Inductive nsfld :=
  (** [struct nsproxy] *)
  | uts_ns | ipc_ns | mnt_ns | pid_ns | net_ns | proxy_count
  (** the count of a namespace, and [struct pid_namespace], [struct mnt_namespace] *)
  | ref_count | last_pid | pid_parent | mnt_root_of.

#[export] Instance nsfld_eq_dec : EqDecision nsfld.
Proof. solve_decision. Defined.

Definition sizeof_nsproxy : Z := 48.
Definition sizeof_uts : Z := 136.
Definition sizeof_pid : Z := 24.
Definition sizeof_ipc : Z := 56.
Definition sizeof_mnt : Z := 32.
Definition nodename (u : Z) : Z := u.
Definition domainname (u : Z) : Z := u + 65.
Definition shm_ids (i : Z) : Z := i.
Definition msg_ids (i : Z) : Z := i + 16.
Definition sem_ids (i : Z) : Z := i + 32.
Definition mnt_list (m : Z) : Z := m.

Section namespaces.
Context {A : Type} `{Allocator A}.

Record nss := NSS { ns_st : store nsfld; ns_links : gmap Z list_head; ns_str : Z -> list Z; ns_heap : A }.

Definition nget (s : nss) (a : Z) (f : nsfld) : Z := ns_st s a f.
Definition nset (s : nss) (a : Z) (f : nsfld) (v : Z) : nss := NSS (wr (ns_st s) a f v) (ns_links s) (ns_str s) (ns_heap s).
Definition node (s : nss) (n : Z) : nss := NSS (ns_st s) (INIT_LIST_HEAD (ns_links s) n) (ns_str s) (ns_heap s).
Definition string_at (s : nss) (a : Z) (l : list Z) : nss := NSS (ns_st s) (ns_links s) (fupd (ns_str s) a l) (ns_heap s).
Definition on_heap (s : nss) (h : A) : nss := NSS (ns_st s) (ns_links s) (ns_str s) h.

(** The static namespaces. *)
Context (init_nsproxy init_uts_ns init_pid_ns init_ipc_ns init_mnt_ns : Z).

Definition namespaces_init (s : nss) : nss :=
  let s := string_at s (nodename init_uts_ns) [114; 117; 99; 105; 120; 111; 115] in
  let s := string_at s (domainname init_uts_ns) [40; 110; 111; 110; 101; 41] in
  let s := nset s init_uts_ns ref_count 1 in
  let s := nset s init_pid_ns last_pid 0 in
  let s := nset s init_pid_ns pid_parent 0 in
  let s := nset s init_pid_ns ref_count 1 in
  let s := node (node (node s (shm_ids init_ipc_ns)) (msg_ids init_ipc_ns)) (sem_ids init_ipc_ns) in
  let s := nset s init_ipc_ns ref_count 1 in
  let s := node s (mnt_list init_mnt_ns) in
  let s := nset s init_mnt_ns mnt_root_of 0 in
  let s := nset s init_mnt_ns ref_count 1 in
  let s := nset s init_nsproxy uts_ns init_uts_ns in
  let s := nset s init_nsproxy pid_ns init_pid_ns in
  let s := nset s init_nsproxy ipc_ns init_ipc_ns in
  let s := nset s init_nsproxy mnt_ns init_mnt_ns in
  let s := nset s init_nsproxy net_ns 0 in
  nset s init_nsproxy proxy_count 1.

Definition create_nsproxy (s : nss) : option (nss * Z) :=
  '(h, ns) ← a_alloc (ns_heap s) sizeof_nsproxy;
  let s := on_heap s h in
  if ns =? 0 then Some (s, 0)
  else
    let s := NSS (fun x f => if decide (x = ns) then 0 else ns_st s x f) (ns_links s) (ns_str s) (ns_heap s) in
    Some (nset s ns proxy_count 1, ns).

(** One of the branches for a kind: a block set up by [fill] and entered as
    [fld], or the original's namespace with one more reference.  The block is not
    tested for null. *)
Definition copy_ns (s : nss) (orig ns : Z) (fld : nsfld) (own : bool) (size : Z) (fill : nss -> Z -> nss) : option nss :=
  if own then
    '(h, p) ← a_alloc (ns_heap s) size;
    let s := nset (on_heap s h) ns fld p in
    if p =? 0 then None else Some (nset (fill s p) p ref_count 1)
  else
    let p := nget s orig fld in
    let s := nset s ns fld p in
    Some (nset s p ref_count (s32 (nget s p ref_count + 1))).

Definition fill_uts (orig : Z) (s : nss) (p : Z) : nss :=
  let o := nget s orig uts_ns in
  string_at (string_at s (nodename p) (ns_str s (nodename o))) (domainname p) (ns_str s (domainname o)).
Definition fill_pid (orig : Z) (s : nss) (p : Z) : nss := nset (nset s p last_pid 0) p pid_parent (nget s orig pid_ns).
Definition fill_ipc (s : nss) (p : Z) : nss := node (node (node s (shm_ids p)) (msg_ids p)) (sem_ids p).
Definition fill_mnt (orig : Z) (s : nss) (p : Z) : nss := node (nset s p mnt_root_of (nget s (nget s orig mnt_ns) mnt_root_of)) (mnt_list p).

Definition flag (flags bit : Z) : bool := negb (flags .& bit =? 0).

Definition copy_nsproxy (s : nss) (orig flags : Z) : option (nss * Z) :=
  '(s, ns) ← create_nsproxy s;
  if ns =? 0 then Some (s, 0)
  else
    s ← copy_ns s orig ns uts_ns (flag flags CLONE_NEWUTS) sizeof_uts (fill_uts orig);
    s ← copy_ns s orig ns pid_ns (flag flags CLONE_NEWPID) sizeof_pid (fill_pid orig);
    s ← copy_ns s orig ns ipc_ns (flag flags CLONE_NEWIPC) sizeof_ipc fill_ipc;
    s ← copy_ns s orig ns mnt_ns (flag flags CLONE_NEWNS) sizeof_mnt (fill_mnt orig);
    Some (s, ns).

(** ** Sharing *)

(** The four kinds of namespaces a proxy refers to. *)
Definition kind (f : nsfld) : Prop := f = uts_ns \/ f = pid_ns \/ f = ipc_ns \/ f = mnt_ns.

(** Without the flag of its kind a namespace is shared. *)
Lemma copy_shared s orig ns fld size fill :
  kind fld ->
  exists s', copy_ns s orig ns fld false size fill = Some s' /\ nget s' ns fld = nget s orig fld /\
    nget s' (nget s orig fld) ref_count = s32 (nget s (nget s orig fld) ref_count + 1) /\
    (forall x f, f <> ref_count -> (x <> ns \/ f <> fld) -> nget s' x f = nget s x f) /\
    (forall x, x <> nget s orig fld -> nget s' x ref_count = nget s x ref_count) /\ ns_heap s' = ns_heap s.
Proof.
  intros Hk. unfold copy_ns. assert (fld <> ref_count) as Hfr by (unfold kind in Hk; naive_solver).
  eexists. split; [done|]. unfold nget, nset. simpl. split; [rewrite wr_other by (by right); by rewrite wr_same|].
  split; [rewrite wr_same; by rewrite wr_other by (right; congruence)|]. split; [|split; [|done]].
  - intros x f Hf Hx. rewrite wr_other by (by right). apply wr_other. done.
  - intros x Hx. rewrite wr_other by (by left). apply wr_other. right. congruence.
Qed.

(** Without flags the copy is a new block with count 1 that shares the four
    namespaces of the original, each of which has one more reference. *)
Theorem copy_nsproxy_shares s orig t :
  a_wf (ns_heap s) -> a_live (ns_heap s) orig t ->
  NoDup (nget s orig <$> [uts_ns; pid_ns; ipc_ns; mnt_ns]) ->
  exists s' ns, copy_nsproxy s orig 0 = Some (s', ns) /\
    (ns = 0 \/ (exists u, a_live (ns_heap s') ns u) /\ nget s' ns proxy_count = 1 /\
       forall f, kind f -> nget s' ns f = nget s orig f /\
         (nget s orig f <> ns -> nget s' (nget s orig f) ref_count = s32 (nget s (nget s orig f) ref_count + 1))).
Proof.
  intros Hwf Hl Hnd. unfold copy_nsproxy, create_nsproxy.
  destruct (a_alloc_spec (ns_heap s) sizeof_nsproxy Hwf) as (h & p & -> & Hwf1 & Hp); [done|]. cbn [mbind option_bind].
  destruct Hp as [[-> _]|(u & _ & Hfr & Hl1)]; [eexists _, 0; split; [done|by left]|].
  assert (a_live h p u) as Hlp by (apply Hl1; by left). pose proof (a_live_pos _ _ _ Hwf1 Hlp). rewrite (proj2 (Z.eqb_neq p 0)) by lia. cbn [mbind option_bind].
  rewrite (proj2 (Z.eqb_neq p 0)) by lia. assert (p <> orig) as Hpo by (intros ->; by apply (Hfr t)).
  set (s0 := nset _ p proxy_count 1).
  assert (forall x f, x <> p -> nget s0 x f = nget s x f) as E0.
  { intros x f Hx. unfold s0, nget, nset. simpl. rewrite wr_other by (by left). by rewrite decide_False. }
  assert (nget s0 p proxy_count = 1) as Ec by (unfold s0, nget, nset; simpl; by rewrite wr_same).
  change (flag 0 CLONE_NEWUTS) with false. change (flag 0 CLONE_NEWPID) with false. change (flag 0 CLONE_NEWIPC) with false. change (flag 0 CLONE_NEWNS) with false.
  destruct (copy_shared s0 orig p uts_ns sizeof_uts (fill_uts orig)) as (s1 & -> & U1 & U2 & U3 & U4 & U5); [by left|]. cbn [mbind option_bind].
  destruct (copy_shared s1 orig p pid_ns sizeof_pid (fill_pid orig)) as (s2 & -> & P1 & P2 & P3 & P4 & P5); [by right; left|]. cbn [mbind option_bind].
  destruct (copy_shared s2 orig p ipc_ns sizeof_ipc fill_ipc) as (s3 & -> & I1 & I2 & I3 & I4 & I5); [by do 2 right; left|]. cbn [mbind option_bind].
  destruct (copy_shared s3 orig p mnt_ns sizeof_mnt (fill_mnt orig)) as (s4 & -> & M1 & M2 & M3 & M4 & M5); [by do 3 right|]. cbn [mbind option_bind].
  exists s4, p. split; [done|]. right. split; [exists u; rewrite M5, I5, P5, U5; exact Hlp|].
  split; [rewrite M3, I3, P3, U3 by (done || by right); exact Ec|].
  rewrite I3, P3, U3, (E0 orig) in M1, M2, M4 by (done || by left). rewrite P3, U3, (E0 orig) in I1, I2, I4 by (done || by left).
  rewrite U3, (E0 orig) in P1, P2, P4 by (done || by left). rewrite (E0 orig) in U1, U2, U4 by done.
  cbn [fmap list_fmap] in Hnd. rewrite !NoDup_cons, !not_elem_of_cons in Hnd. destruct Hnd as ((N1 & N2 & N3 & _) & (N4 & N5 & _) & (N6 & _) & _).
  intros f [->|[->|[->| ->]]].
  - rewrite M3, I3, P3 by (done || by right). split; [exact U1|]. intros Hne. rewrite M4, I4, P4, U2, E0 by done. done.
  - rewrite M3, I3 by (done || by right). split; [exact P1|]. intros Hne. rewrite M4, I4, P2, U4, E0 by congruence. done.
  - rewrite M3 by (done || by right). split; [exact I1|]. intros Hne. rewrite M4, I2, P4, U4, E0 by congruence. done.
  - split; [exact M1|]. intros Hne. rewrite M2, I4, P4, U4, E0 by congruence. done.
Qed.

End namespaces.
End Namespace.
