(* ===== verification/Exit.v ===== *)
(** * Process termination (process_exit of src/kernel/process/process.c)

    [process_exit] closes the descriptors, frees the user half of the address
    space, leaves the control group, drops the filters, hands over the children
    and gives up the CPU.  The parts it calls have their own files; their states
    are put together here and share the heap and the processes. *)
From S2P Require Import Prelude Memory Allocator ListHead Spinlock Pmm Heap Vmm Store Sched Process SortedQueue Seccomp Vfs Cgroup.
Import Vfs.
Import Sched (sched, get, set, current_process, process_list, exit_code, cr3, parent, next, get_process_by_pid).

Module Exit.

Section exit.
Context {A R : Type} `{Allocator A}.
Notation vfs := (vfs (A := A) (R := R)).
Context (fops : Z -> file_operations (A := A) (R := R)).

(** ** Descriptors *)

Definition close_one (s : option vfs) (i : Z) : option vfs :=
  s ← s; if negb (fd_get s i =? 0) then fst <$> vfs_close fops s i else Some s.

Definition exit_fds (s : vfs) : option vfs := foldl close_one (Some s) (seqZ 0 MAX_FILES).

(** A block is live as long as it has references. *)
Definition counted_live (ext : Z -> Z) (s : vfs) (f : Z) : Prop := (exists t, a_live (v_heap s) f t) <-> 0 < slots s f + ext f.

Lemma close_one_spec ext s i :
  fd_inv ext s -> file_hooks fops -> 0 <= i < MAX_FILES ->
  exists s', close_one (Some s) i = Some s' /\ fd_inv ext s' /\ (forall j, fd_get s' j = fupd (fd_get s) i 0 j) /\
    forall f, f <> 0 -> counted_live ext s f -> counted_live ext s' f.
Proof.
  intros Hi Hh Hr. unfold close_one. cbn [mbind option_bind]. destruct (Z.eqb_spec (fd_get s i) 0) as [E|E]; cbn [negb].
  - exists s. split; [done|]. split; [done|]. split; [|done]. intros j. unfold fupd. destruct (decide (j = i)) as [->|]; done.
  - destruct (vfs_close_spec fops ext s i Hi Hh Hr E) as (s' & -> & Hi' & Hg & Hl & Ho). exists s'. split; [done|]. split; [done|]. split; [done|].
    intros f Hf Hc. destruct (decide (f = fd_get s i)) as [->|Hne]; [exact Hl|]. unfold counted_live in *.
    assert (slots s' f = slots s f) as ->.
    { unfold slots. rewrite (holders_ext _ _ _ _ Hg), holders_fupd; [|apply NoDup_seqZ|apply elem_of_seqZ; lia].
      rewrite (proj2 (Z.eqb_neq (fd_get s i) f)), (proj2 (Z.eqb_neq 0 f)) by congruence. lia. }
    rewrite <- Hc. split; intros [t Ht]; exists t; by apply Ho.
Qed.

(** The loop over the descriptors [l]. *)
Lemma close_list ext l : forall s,
  fd_inv ext s -> file_hooks fops -> Forall (fun i => 0 <= i < MAX_FILES) l ->
  exists s', foldl close_one (Some s) l = Some s' /\ fd_inv ext s' /\ (forall j, fd_get s' j = if decide (j ∈ l) then 0 else fd_get s j) /\
    forall f, f <> 0 -> counted_live ext s f -> counted_live ext s' f.
Proof.
  induction l as [|i l IH]; intros s Hi Hh Hl; [by exists s|]. apply Forall_cons in Hl as [Hr Hl]. cbn [foldl].
  destruct (close_one_spec ext s i Hi Hh Hr) as (s1 & -> & Hi1 & Hg1 & Hc1). destruct (IH s1 Hi1 Hh Hl) as (s2 & -> & Hi2 & Hg2 & Hc2).
  exists s2. split; [done|]. split; [done|]. split; [|intros f Hf Hc; by apply Hc2, Hc1].
  intros j. rewrite Hg2, Hg1. unfold fupd. destruct (decide (j = i)) as [->|Hji].
  - rewrite (decide_True (P := i ∈ i :: l)) by left. by destruct (decide (i ∈ l)).
  - destruct (decide (j ∈ l)), (decide (j ∈ i :: l)); try done; set_solver.
Qed.

(** C17: the first loop of [process_exit] closes everything: afterwards every
    descriptor of the process is free, and a file it had open is freed unless it
    has references from elsewhere. *)
Theorem exit_closes_files ext s :
  fd_inv ext s -> file_hooks fops ->
  exists s', exit_fds s = Some s' /\ fd_inv ext s' /\ (forall i, 0 <= i < MAX_FILES -> fd_get s' i = 0) /\
    forall f, f <> 0 -> 0 < slots s f -> ((exists t, a_live (v_heap s') f t) <-> 0 < ext f).
Proof.
  intros Hi Hh. destruct (close_list ext (seqZ 0 MAX_FILES) s Hi Hh) as (s' & E & Hi' & Hg & Hc).
  { apply Forall_forall. intros i Hin. apply elem_of_seqZ in Hin. lia. }
  exists s'. split; [exact E|]. split; [done|].
  assert (forall i, 0 <= i < MAX_FILES -> fd_get s' i = 0) as Hz by (intros i Hr; rewrite Hg, decide_True; [done|apply elem_of_seqZ; lia]).
  split; [done|]. intros f Hf Hpos. assert (slots s' f = 0) as Hs.
  { unfold slots. rewrite (holders_fun (fun _ => 0)); [by apply holders_zero|]. intros i Hin. apply elem_of_seqZ in Hin. apply Hz. lia. }
  assert (counted_live ext s' f) as Hl.
  { apply Hc; [done|]. destruct Hi as [_ Hi]. destruct (Hi f Hf) as [He Hlf]. split; [lia|]. intros Hp. destruct (Hlf Hp) as ((t & _ & Ht) & _). by exists t. }
  unfold counted_live in Hl. by rewrite Hs in Hl.
Qed.

(** ** Children *)

(** [process_exit] leaves no orphans: after its loop over the process list
    every process whose parent was the one that exits has [init_proc] as its
    parent, every other process keeps its parent, and no other field changes. *)
Theorem reparent_correct fuel (s : sched) cur init_proc l :
  slist (Sched.st s) next (process_list s) l -> (length l < fuel)%nat ->
  exists s', loop fuel (Process.reparent_step cur init_proc) (s, process_list s) = Some s' /\
    (forall p, p ∈ l -> get s' p parent = if get s p parent =? cur then init_proc else get s p parent) /\
    (forall p, p ∉ l -> get s' p parent = get s p parent) /\
    (forall p f, f <> parent -> get s' p f = get s p f) /\ current_process s' = current_process s /\ process_list s' = process_list s.
Proof.
  generalize (process_list s) at 1 2. intros a Hl Hf. revert fuel s a Hl Hf. induction l as [|x l IH]; intros [|fuel] s a Hl Hf; try (simpl in Hf; lia); cbn [loop]; unfold Process.reparent_step at 1.
  - simpl in Hl. subst a. exists s. split; [done|]. split; [intros p Hp; by apply elem_of_nil in Hp|]. done.
  - pose proof (slist_nodup _ _ _ _ Hl) as Hnd. apply NoDup_cons in Hnd as [Hx Hnd]. destruct Hl as (-> & Hx0 & Hl). rewrite (proj2 (Z.eqb_neq x 0)) by done.
    set (s1 := if get s x parent =? cur then set s x parent init_proc else s).
    assert (forall p f, f <> parent -> get s1 p f = get s p f) as E1.
    { intros p f Hfp. unfold s1. case_match; [|done]. unfold get, set. simpl. by rewrite wr_other by (right; congruence). }
    assert (forall p, p <> x -> get s1 p parent = get s p parent) as E2.
    { intros p Hp. unfold s1. case_match; [|done]. unfold get, set. simpl. by rewrite wr_other by (by left). }
    assert (get s1 x parent = if get s x parent =? cur then init_proc else get s x parent) as E3.
    { unfold s1. case_match; [|done]. unfold get, set. simpl. by rewrite wr_same. }
    assert (current_process s1 = current_process s /\ process_list s1 = process_list s) as [E4 E5] by (unfold s1; by case_match).
    rewrite (E1 x next) by done. destruct (IH fuel s1 (get s x next)) as (s' & Hs' & F1 & F2 & F3 & F4 & F5).
    + revert Hl. apply slist_ext. intros y Hy. apply (E1 y next). done.
    + simpl in Hf. lia.
    + exists s'. split; [exact Hs'|]. split; [|split; [|split; [|split]]].
      * intros p Hp. destruct (decide (p = x)) as [->|Hpx]; [by rewrite F2, E3|]. apply elem_of_cons in Hp as [?|Hp]; [done|]. by rewrite F1, E2.
      * intros p Hp. apply not_elem_of_cons in Hp as [Hpx Hp]. by rewrite F2, E2.
      * intros p f Hfp. by rewrite F3, E1.
      * by rewrite F4.
      * by rewrite F5.
Qed.

End exit.

(** ** The whole of [process_exit] *)

Section whole.
Context {A R : Type} `{Allocator A}.
#[local] Notation vfs := (vfs (A := A) (R := R)).
Context (fops : Z -> file_operations (A := A) (R := R)).

Record xsys := XS {
  x_vfs : vfs; x_cgst : store Cgroup.cgfld; x_cglinks : gmap Z ListHead.list_head; x_cgname : Z -> list Z; x_subsystems : Z -> Z;
  x_scst : store Seccomp.sfld; x_code : Z -> list Seccomp.sock_filter; x_vmm : Vmm.vmm
}.

Context (init_css_set : Z) (exit_fn : Z -> Cgroup.cgs (A := A) -> Z -> Z -> option (Cgroup.cgs (A := A))).

(** The calls of [cgroup_exit] and [seccomp_exit] on the parts of the state they
    work on. *)
Definition leave_cgroup (x : xsys) (p : Z) : option xsys :=
  let s := x_vfs x in
  c ← Cgroup.cgroup_exit init_css_set exit_fn
        (Cgroup.CGS (x_cgst x) (x_cglinks x) (x_cgname x) (v_heap s) (v_sched s) (x_subsystems x)) p;
  Some (XS (with_sched (with_heap s (Cgroup.cg_heap c)) (Cgroup.cg_sched c)) (Cgroup.cg_st c) (Cgroup.cg_links c) (Cgroup.cg_name c)
          (Cgroup.subsystems c) (x_scst x) (x_code x) (x_vmm x)).

Definition drop_filters (fuel : nat) (x : xsys) (p : Z) : option xsys :=
  let s := x_vfs x in
  c ← Seccomp.seccomp_exit fuel (Seccomp.SC (v_heap s) (x_scst x) (x_code x) p) p;
  Some (XS (with_heap s (Seccomp.sc_heap c)) (x_cgst x) (x_cglinks x) (x_cgname x) (x_subsystems x) (Seccomp.sc_st c) (Seccomp.sc_code c) (x_vmm x)).

Definition with_files (x : xsys) (s : vfs) : xsys :=
  XS s (x_cgst x) (x_cglinks x) (x_cgname x) (x_subsystems x) (x_scst x) (x_code x) (x_vmm x).

Definition process_exit (fuel : nat) (x : xsys) (code : Z) : option xsys :=
  s ← exit_fds fops (x_vfs x);
  let cur := current_process (v_sched s) in
  let s := with_sched s (set (v_sched s) cur exit_code code) in
  kernel_proc ← get_process_by_pid fuel (v_sched s) 0;
  let vm := if negb (kernel_proc =? 0) && negb (get (v_sched s) cur cr3 =? get (v_sched s) kernel_proc cr3)
            then Vmm.vmm_free_user_space (x_vmm x) else x_vmm x in
  let x := XS s (x_cgst x) (x_cglinks x) (x_cgname x) (x_subsystems x) (x_scst x) (x_code x) vm in
  x ← leave_cgroup x cur;
  x ← drop_filters fuel x cur;
  c ← Process.exit_tail fuel (v_sched (x_vfs x)) code;
  Some (with_files x (with_sched (x_vfs x) c)).

End whole.

#[local] Existing Instance Heap.heap_allocator.

(** The file of descriptor 0 has no other references, so it is freed. *)
Lemma exit_closes_files_witness :
  exists s', exit_fds (fun _ => no_fops) demo_vfs = Some s' /\ fd_get s' 0 = 0 /\ ~ exists t, a_live (v_heap s') 0x1028 t.
Proof.
  destruct (exit_closes_files (fun _ => no_fops) (fun _ => 0) demo_vfs demo_fd_inv) as (s' & E & _ & Hz & Hl).
  - by intros a op [? | ?].
  - exists s'. split; [exact E|]. split; [apply Hz; unfold MAX_FILES; lia|]. rewrite Hl; [lia|discriminate|].
    rewrite demo_slots by discriminate. vm_compute. reflexivity.
Defined.

End Exit.
