(* ===== verification/Wire.v ===== *)
(** * Byte strings in memory

    Headers are built by writing members one after the other.  [poke] is the
    memory with a byte string written at an address; the stores of the code are
    pokes, and adjacent pokes join, so that a sequence of member writes is the
    poke of the encoded header. *)
From S2P Require Import Prelude Memory CString.
From Stdlib Require Import Morphisms Setoid.
Import CString.

Module Wire.

Definition poke (m : mem) (a : Z) (l : list Z) : mem :=
  fun x => if decide (a <= x < a + Z.of_nat (length l)) then l !!! Z.to_nat (x - a) else m x.

(** The [n] low bytes of [v], least significant first, and a big-endian word. *)
Fixpoint le_bytes (n : nat) (v : Z) : list Z :=
  match n with
  | O => []
  | S n => v mod 256 :: le_bytes n (v / 256)
  end.
Definition be16 (v : Z) : list Z := [v / 256 mod 256; v mod 256].

(** The number that bytes stand for, least significant first. *)
Fixpoint le_value (l : list Z) : Z :=
  match l with
  | [] => 0
  | b :: l => b + 256 * le_value l
  end.

#[export] Instance poke_proper : Proper (mem_eq ==> eq ==> eq ==> mem_eq) poke.
Proof. intros m1 m2 Hm a ? <- l ? <- x. unfold poke. by rewrite Hm. Qed.

#[export] Instance store16_proper : Proper (mem_eq ==> eq ==> eq ==> mem_eq) store16.
Proof. intros m1 m2 Hm a ? <- v ? <-. by apply store_le_proper. Qed.
#[export] Instance store32_proper : Proper (mem_eq ==> eq ==> eq ==> mem_eq) store32.
Proof. intros m1 m2 Hm a ? <- v ? <-. by apply store_le_proper. Qed.

(** ** Pokes *)

Lemma poke_nil m a : poke m a [] =m= m.
Proof. intros x. unfold poke. simpl. case_decide; [lia|done]. Qed.

Lemma poke_app m a l1 l2 : poke (poke m a l1) (a + Z.of_nat (length l1)) l2 =m= poke m a (l1 ++ l2).
Proof.
  intros x. unfold poke. rewrite length_app. case_decide; case_decide; try case_decide; try lia; try done.
  - rewrite lookup_total_app_r by lia. f_equal. lia.
  - by rewrite lookup_total_app_l by lia.
Qed.

Lemma poke_join m a l1 b l2 : b = a + Z.of_nat (length l1) -> poke (poke m a l1) b l2 =m= poke m a (l1 ++ l2).
Proof. intros ->. apply poke_app. Qed.

Lemma poke_prepend m a l1 b l2 : b = a + Z.of_nat (length l1) -> poke (poke m b l2) a l1 =m= poke m a (l1 ++ l2).
Proof.
  intros -> x. unfold poke. rewrite length_app. case_decide; try case_decide; try case_decide; try lia; try done.
  - by rewrite lookup_total_app_l by lia.
  - rewrite lookup_total_app_r by lia. f_equal. lia.
Qed.

Lemma poke_over m a l l' : (length l <= length l')%nat -> poke (poke m a l) a l' =m= poke m a l'.
Proof. intros Hl x. unfold poke. case_decide; [done|]. case_decide; [lia|done]. Qed.

Lemma poke_mid m a l1 l2 l2' l3 b :
  b = a + Z.of_nat (length l1) -> length l2' = length l2 ->
  poke (poke m a (l1 ++ l2 ++ l3)) b l2' =m= poke m a (l1 ++ l2' ++ l3).
Proof.
  intros -> Hl x. unfold poke. rewrite !length_app, Hl. case_decide; case_decide; try lia; try done.
  - rewrite lookup_total_app_r, lookup_total_app_l by lia. f_equal. lia.
  - destruct (decide (x - a < Z.of_nat (length l1))); [by rewrite !lookup_total_app_l by lia|].
    rewrite !(lookup_total_app_r l1), !lookup_total_app_r by lia. f_equal. lia.
Qed.

(** A write inside a written string replaces that part of it. *)
Definition splice (l : list Z) (k : nat) (l' : list Z) : list Z := take k l ++ l' ++ drop (k + length l') l.

Lemma splice_length l k l' : (k + length l' <= length l)%nat -> length (splice l k l') = length l.
Proof. intros Hk. unfold splice. rewrite !length_app, length_take, length_drop. lia. Qed.

Lemma poke_splice m a l b l' (k : nat) :
  b = a + Z.of_nat k -> (k + length l' <= length l)%nat -> poke (poke m a l) b l' =m= poke m a (splice l k l').
Proof.
  intros -> Hk. rewrite <- (take_drop k l) at 1. rewrite <- (take_drop (length l') (drop k l)), drop_drop.
  apply poke_mid; rewrite length_take; [lia|]. rewrite length_drop. lia.
Qed.

Lemma poke_other m a l x : x < a \/ a + Z.of_nat (length l) <= x -> poke m a l x = m x.
Proof. intros Hx. unfold poke. case_decide; [lia|done]. Qed.

Lemma poke_at m a l (i : nat) : (i < length l)%nat -> poke m a l (a + Z.of_nat i) = l !!! i.
Proof. intros Hi. unfold poke. rewrite decide_True by lia. f_equal. lia. Qed.

Lemma bytes_at_poke m a l : bytes_at (poke m a l) a (length l) = l.
Proof.
  apply list_eq. intros i. destruct (decide (i < length l)%nat) as [Hi|Hi].
  - rewrite bytes_at_lookup by done. rewrite poke_at by done. by apply list_lookup_lookup_total_lt in Hi as ->.
  - rewrite !lookup_ge_None_2; [done|lia|rewrite bytes_at_length; lia].
Qed.

Lemma bytes_at_poke_other m a l b n :
  b + Z.of_nat n <= a \/ a + Z.of_nat (length l) <= b -> bytes_at (poke m a l) b n = bytes_at m b n.
Proof. intros Hd. apply bytes_at_ext. intros i Hi. apply poke_other. lia. Qed.

Lemma poke_ok m a l : mem_ok m -> Forall (fun b => 0 <= b < 256) l -> mem_ok (poke m a l).
Proof.
  intros Hm Hl x. unfold poke. case_decide as Hx; [|apply Hm]. rewrite Forall_lookup in Hl. apply (Hl (Z.to_nat (x - a))).
  apply list_lookup_lookup_total_lt. lia.
Qed.

Lemma bytes_at_eq m m' a n : m =m= m' -> bytes_at m a n = bytes_at m' a n.
Proof. intros Hm. apply bytes_at_ext. intros i _. apply Hm. Qed.

Lemma bytes_at_ok m a n : mem_ok m -> Forall (fun b => 0 <= b < 256) (bytes_at m a n).
Proof. intros Hm. apply Forall_fmap, Forall_true. intros i. apply Hm. Qed.

Lemma poke_self m a n : poke m a (bytes_at m a n) =m= m.
Proof.
  intros x. unfold poke. rewrite bytes_at_length. case_decide as Hx; [|done].
  erewrite list_lookup_total_correct; [|apply bytes_at_lookup; lia]. f_equal. lia.
Qed.

(** Reading a part of a written string. *)
Lemma bytes_at_part m a l b n (k : nat) :
  b = a + Z.of_nat k -> (k + n <= length l)%nat -> bytes_at (poke m a l) b n = take n (drop k l).
Proof. intros -> Hk. rewrite <- (bytes_at_poke m a l) at 2. by rewrite bytes_at_drop, bytes_at_take by lia. Qed.

(** ** The stores of the code *)

Lemma store8_poke m a v : store8 m a v =m= poke m a [u8 v].
Proof.
  intros x. unfold store8, poke. simpl. destruct (Z.eqb_spec x a) as [->|].
  - rewrite decide_True by lia. by rewrite Z.sub_diag.
  - rewrite decide_False by lia. done.
Qed.

Lemma le_bytes_length n v : length (le_bytes n v) = n.
Proof. revert v. induction n as [|n IH]; intros v; simpl; [done|by rewrite IH]. Qed.

Lemma le_bytes_ok n v : Forall (fun b => 0 <= b < 256) (le_bytes n v).
Proof. revert v. induction n as [|n IH]; intros v; simpl; constructor; [apply Z.mod_pos_bound; lia|apply IH]. Qed.

Lemma store_le_poke m a v n : store_le m a v n =m= poke m a (le_bytes n v).
Proof.
  revert m a v. induction n as [|n IH]; intros m a v; cbn [store_le le_bytes]; [by rewrite poke_nil|].
  rewrite IH, store8_poke. apply (poke_app m a [u8 v]).
Qed.

Lemma store16_poke m a v : store16 m a v =m= poke m a (le_bytes 2 v).
Proof. apply store_le_poke. Qed.

Lemma store32_poke m a v : store32 m a v =m= poke m a (le_bytes 4 v).
Proof. apply store_le_poke. Qed.

Lemma memset_poke m a v n : 0 <= n -> memset m a v n =m= poke m a (replicate (Z.to_nat n) (u8 v)).
Proof.
  intros Hn. rewrite memset_fill by done. intros x. unfold fill, poke. rewrite length_replicate, Z2Nat.id by done.
  case_decide; [|done]. by rewrite lookup_total_replicate_2 by lia.
Qed.

Lemma memcpy_poke m d src n :
  mem_ok m -> 0 <= n -> d + n <= src \/ src + n <= d -> memcpy m d src n =m= poke m d (bytes_at m src (Z.to_nat n)).
Proof.
  intros Hm Hn Hd. destruct (memcpy_to m d src n Hm Hn Hd) as [_ Hc]. intros x. rewrite Hc. unfold poke.
  rewrite bytes_at_length, Z2Nat.id by done. case_decide; [|done]. erewrite list_lookup_total_correct; [|apply bytes_at_lookup; lia]. f_equal. lia.
Qed.

(** Lists of known length are their elements. *)
Ltac explicit_lists :=
  repeat match goal with
  | H : length ?l = S _ |- _ => is_var l; destruct l; [discriminate H|]; cbn [length] in H; apply Nat.succ_inj in H
  | H : length ?l = O |- _ => is_var l; destruct l; [clear H|discriminate H]
  end.

(** ** Edits of a region

    [edited m a n L M]: the memory [M] holds the string [L] of [n] bytes at [a]
    and is [m] elsewhere.  What each kind of write makes of the string: *)

Definition edited (m : mem) (a : Z) (n : nat) (L : list Z) (M : mem) : Prop := M =m= poke m a L /\ mem_ok M /\ length L = n.

Section region.
Context (m M : mem) (a : Z) (n : nat) (L : list Z).

Lemma edited_self : mem_ok m -> edited m a n (bytes_at m a n) m.
Proof. intros Hm. split; [by rewrite poke_self|]. split; [done|apply bytes_at_length]. Qed.

Lemma edited_store_le b v w (k : nat) :
  edited m a n L M -> b = a + Z.of_nat k -> (k + w <= n)%nat -> edited m a n (splice L k (le_bytes w v)) (store_le M b v w).
Proof.
  intros (HM & Hm & HL) Hb Hk. split; [|split; [by apply store_le_ok|rewrite splice_length; rewrite ?le_bytes_length; lia]].
  rewrite store_le_poke, HM. apply poke_splice; [done|rewrite le_bytes_length; lia].
Qed.

Lemma edited_store8 b v (k : nat) :
  edited m a n L M -> b = a + Z.of_nat k -> (k + 1 <= n)%nat -> edited m a n (splice L k [u8 v]) (store8 M b v).
Proof.
  intros (HM & Hm & HL) Hb Hk. split; [|split; [by apply store8_ok|rewrite splice_length; simpl; lia]].
  rewrite store8_poke, HM. apply poke_splice; [done|simpl; lia].
Qed.

(** A copy within the region, and one from outside. *)
Lemma edited_copy d src c w (k j : nat) :
  edited m a n L M -> c = Z.of_nat w -> d = a + Z.of_nat k -> src = a + Z.of_nat j -> (k + w <= n)%nat -> (j + w <= n)%nat -> (k + w <= j \/ j + w <= k)%nat ->
  edited m a n (splice L k (take w (drop j L))) (memcpy M d src c).
Proof.
  intros (HM & Hm & HL) -> -> -> Hk Hj Hd. split; [|split; [apply memcpy_to; [done|lia|lia]|rewrite splice_length; rewrite ?length_take, ?length_drop; lia]].
  rewrite memcpy_poke by (done || lia). rewrite Nat2Z.id, (bytes_at_eq _ _ _ _ HM), (bytes_at_part m a L _ w j) by (done || lia).
  rewrite HM. apply poke_splice; [done|]. rewrite length_take, length_drop. lia.
Qed.

Lemma edited_copy_in d src c w (k : nat) :
  edited m a n L M -> c = Z.of_nat w -> d = a + Z.of_nat k -> (k + w <= n)%nat -> a + Z.of_nat n <= src \/ src + Z.of_nat w <= a ->
  edited m a n (splice L k (bytes_at m src w)) (memcpy M d src c).
Proof.
  intros (HM & Hm & HL) -> -> Hk Hd. split; [|split; [apply memcpy_to; [done|lia|lia]|rewrite splice_length; rewrite ?bytes_at_length; lia]].
  rewrite memcpy_poke by (done || lia). rewrite Nat2Z.id, (bytes_at_eq _ _ _ _ HM), bytes_at_poke_other by lia.
  rewrite HM. apply poke_splice; [done|]. rewrite bytes_at_length. lia.
Qed.

Lemma edited_read b w (k : nat) : edited m a n L M -> b = a + Z.of_nat k -> (k + w <= n)%nat -> bytes_at M b w = take w (drop k L).
Proof. intros (HM & _ & HL) Hb Hk. rewrite (bytes_at_eq _ _ _ _ HM). apply bytes_at_part; [done|lia]. Qed.

Lemma edited_other x : edited m a n L M -> x < a \/ a + Z.of_nat n <= x -> M x = m x.
Proof. intros (HM & _ & HL) Hx. rewrite (HM x). apply poke_other. lia. Qed.
End region.

(** ** Reading numbers *)

Lemma bytes_at_cons m a n : bytes_at m a (S n) = m a :: bytes_at m (a + 1) n.
Proof. change (S n) with (1 + n)%nat. rewrite bytes_at_app. unfold bytes_at at 1. simpl. by rewrite Z.add_0_r. Qed.

Lemma load_le_value m a n : load_le m a n = le_value (bytes_at m a n).
Proof.
  revert a. induction n as [|n IH]; intros a; [done|]. rewrite bytes_at_cons. cbn [load_le le_value]. by rewrite IH.
Qed.

Lemma le_value_bytes n v : 0 <= v < 256 ^ Z.of_nat n -> le_value (le_bytes n v) = v.
Proof.
  revert v. induction n as [|n IH]; intros v Hv; cbn [le_bytes le_value]; [simpl in Hv; lia|].
  rewrite Nat2Z.inj_succ, Z.pow_succ_r in Hv by lia. rewrite IH; [pose proof (Z.div_mod v 256); lia|].
  split; [apply Z.div_pos; lia|apply Z.div_lt_upper_bound; lia].
Qed.

Lemma le_bytes_value l : Forall (fun b => 0 <= b < 256) l -> le_bytes (length l) (le_value l) = l.
Proof.
  induction l as [|b l IH]; intros Hl; [done|]. apply Forall_cons in Hl as [Hb Hl]. cbn [length le_value le_bytes].
  rewrite Z.mul_comm, Z.mod_add, Z.div_add, Z.mod_small, Z.div_small by lia. rewrite Z.add_0_l. f_equal. by apply IH.
Qed.

Lemma lor_add a b : Z.land a b = 0 -> a .| b = a + b.
Proof. intros Hl. by rewrite Z.add_nocarry_lxor, Z.lxor_lor. Qed.

Lemma lor_shift_add a n b : 0 <= n -> 0 <= b < 2 ^ n -> (a .<< n) .| b = a * 2 ^ n + b.
Proof.
  intros Hn Hb. rewrite lor_add, Z.shiftl_mul_pow2 by (done || (apply Z.bits_inj'; intros k Hk; rewrite Z.land_spec, Z.bits_0;
    destruct (Z.lt_ge_cases k n); [rewrite Z.shiftl_spec_low by lia; done|rewrite <- (Z.mod_small b (2 ^ n)), Z.mod_pow2_bits_high by lia; apply andb_false_r])).
  done.
Qed.

End Wire.
