(* ===== verification/Skb.v ===== *)
(** * Packet buffers, byte order and checksums

    (src/kernel/net/core/skbuff.c, include/net/skbuff.h, include/net/byteorder.h
    and the two checksum routines of net/ipv4/ip.c and net/ipv4/icmp.c.)

    The network stack's structures are fields of one store: a packet buffer
    [sk_buff], a network device, a packet type, a socket.  The bytes of packets
    and the addresses at the start of a network device are in memory.  A pointer
    computation that can leave its buffer is followed by the wrap-around of
    64-bit addresses. *)
From S2P Require Import Prelude Memory CString Wire Allocator ListHead Store Spinlock Heap.
Import Wire ListHead.

Module Skb.

(** ** Byte order *)

Definition htons (v : Z) : Z := u16 ((v .<< 8) .| (v .>> 8)).
Definition ntohs (v : Z) : Z := u16 ((v .<< 8) .| (v .>> 8)).

Definition htonl (v : Z) : Z :=
  u32 ((v .& 0xFF) .<< 24) .| ((v .& 0xFF00) .<< 8) .| ((v .& 0xFF0000) .>> 8) .| ((v .& 0xFF000000) .>> 24).
Definition ntohl (v : Z) : Z :=
  u32 ((v .& 0xFF) .<< 24) .| ((v .& 0xFF00) .<< 8) .| ((v .& 0xFF0000) .>> 8) .| ((v .& 0xFF000000) .>> 24).

(** ** Checksums *)

(** [while (acc >> 16) acc = (acc & 0xFFFF) + (acc >> 16)], which an [acc] of 32
    bits leaves after at most three iterations. *)
Definition fold_step (acc : Z) : Z + Z :=
  if negb (acc .>> 16 =? 0) then inl (u32 ((acc .& 0xFFFF) + (acc .>> 16))) else inr acc.
Definition fold_carry (acc : Z) : option Z := loop 4 fold_step acc.

Definition ip_checksum (m : mem) (vdata length : Z) : option Z :=
  let acc := for_up (Z.to_nat (length / 2)) 0 (fun i acc => u32 (acc + load16 m (vdata + 2 * i))) 0 in
  let acc := if negb (length .& 1 =? 0) then u32 (acc + load8 m (vdata + (length - 1))) else acc in
  acc ← fold_carry acc;
  Some (u16 (Z.lnot acc)).

(** [while (count > 1) { sum += *addr++; count -= 2; }] of icmp.c. *)
Definition word_step (m : mem) : Z * Z * Z -> Z * Z * Z + Z * Z * Z :=
  fun '(addr, count, sum) =>
    if 1 <? count then inl (addr + 2, count - 2, u32 (sum + load16 m addr)) else inr (addr, count, sum).

Definition checksum (m : mem) (addr count : Z) : option Z :=
  '(addr, count, sum) ← loop (S (Z.to_nat count)) (word_step m) (addr, count, 0);
  let sum := if 0 <? count then u32 (sum + load8 m addr) else sum in
  sum ← fold_carry sum;
  Some (u16 (Z.lnot sum)).

(** ** What the checksums compute *)

(** The ones' complement value of a sum of 16-bit words: its class modulo 65535,
    with 0 only for an empty sum. *)
Definition oc16 (x : Z) : Z := if x =? 0 then 0 else (x - 1) mod 65535 + 1.

(** The sum of the 16-bit words at [p], and of the odd byte at the end. *)
Fixpoint wsum (m : mem) (p : Z) (n : nat) : Z :=
  match n with
  | O => 0
  | S n => load16 m p + wsum m (p + 2) n
  end.
Definition isum (m : mem) (p len : Z) : Z :=
  wsum m p (Z.to_nat (len / 2)) + if Z.odd len then m (p + (len - 1)) else 0.

Lemma oc16_range x : 0 <= oc16 x <= 65535.
Proof. unfold oc16. case_if; [lia|]. pose proof (Z.mod_pos_bound (x - 1) 65535). lia. Qed.

Lemma oc16_small x : 0 <= x < 65536 -> oc16 x = x.
Proof. intros Hx. unfold oc16. case_if; [lia|]. rewrite Z.mod_small; lia. Qed.

Lemma oc16_mod x : oc16 x mod 65535 = x mod 65535.
Proof.
  unfold oc16. case_if; [by subst|]. rewrite Z.add_mod_idemp_l by lia. f_equal. lia.
Qed.

Lemma oc16_carry x : 0 <= x -> oc16 (x mod 65536 + x / 65536) = oc16 x.
Proof.
  intros Hx. unfold oc16. set (q := x / 65536). set (r := x mod 65536).
  assert (x = 65536 * q + r) as E by (unfold q, r; apply Z.div_mod; lia).
  assert (0 <= r < 65536) by (apply Z.mod_pos_bound; lia). assert (0 <= q) by (apply Z.div_pos; lia).
  destruct (Z.eqb_spec (r + q) 0), (Z.eqb_spec x 0); try lia. f_equal.
  replace (x - 1) with (r + q - 1 + q * 65535) by lia. by rewrite Z.mod_add by lia.
Qed.

Lemma fold_step_eq acc :
  0 <= acc < 2 ^ 32 -> fold_step acc = if acc <? 65536 then inr acc else inl (acc mod 65536 + acc / 65536).
Proof.
  intros Ha. unfold fold_step. rewrite Z.shiftr_div_pow2 by lia. change (2 ^ 16) with 65536.
  change 0xFFFF with (Z.ones 16). rewrite Z.land_ones by lia. change (2 ^ 16) with 65536.
  pose proof (Z.mod_pos_bound acc 65536). assert (0 <= acc / 65536 < 65536) by (split; [apply Z.div_pos|apply Z.div_lt_upper_bound]; lia).
  rewrite u32_small by lia. destruct (Z.ltb_spec acc 65536).
  - by rewrite Z.div_small by lia.
  - rewrite (proj2 (Z.eqb_neq _ _)); [done|]. intros E. apply Z.div_small_iff in E; lia.
Qed.

Lemma fold_carry_oc16 acc : 0 <= acc < 2 ^ 32 -> fold_carry acc = Some (oc16 acc).
Proof.
  intros Ha. unfold fold_carry. cbn [loop]. rewrite fold_step_eq by done.
  destruct (Z.ltb_spec acc 65536); [by rewrite oc16_small by lia|]. rewrite <- oc16_carry by lia.
  pose proof (Z.mod_pos_bound acc 65536). assert (0 <= acc / 65536 < 65536) by (split; [apply Z.div_pos|apply Z.div_lt_upper_bound]; lia).
  set (y := acc mod 65536 + acc / 65536) in *. assert (0 <= y <= 131070) by lia.
  rewrite fold_step_eq by lia. destruct (Z.ltb_spec y 65536); [by rewrite oc16_small by lia|]. rewrite <- (oc16_carry y) by lia.
  assert (0 <= y mod 65536 + y / 65536 < 65536).
  { Z.div_mod_to_equations. lia. }
  rewrite fold_step_eq by lia. rewrite (proj2 (Z.ltb_lt _ _)) by lia. by rewrite oc16_small by lia.
Qed.

Lemma lnot16 r : 0 <= r <= 65535 -> u16 (Z.lnot r) = 65535 - r.
Proof. intros Hr. unfold u16, Z.lnot. replace (Z.pred (- r)) with (65535 - r + (-1) * 2 ^ 16) by lia. rewrite Z.mod_add, Z.mod_small; lia. Qed.

Lemma load16_range m a : mem_ok m -> 0 <= load16 m a < 65536.
Proof. intros Hm. apply (load_le_range m a 2 Hm). Qed.

Lemma wsum_range m p n : mem_ok m -> 0 <= wsum m p n <= 65535 * Z.of_nat n.
Proof.
  intros Hm. revert p. induction n as [|n IH]; intros p; cbn [wsum]; [lia|]. pose proof (load16_range m p Hm). specialize (IH (p + 2)). lia.
Qed.

Lemma isum_range m p len : mem_ok m -> 0 <= len <= 131072 -> 0 <= isum m p len < 2 ^ 32.
Proof.
  intros Hm Hl. unfold isum. pose proof (wsum_range m p (Z.to_nat (len / 2)) Hm). pose proof (Hm (p + (len - 1))).
  pose proof (Zodd_mod len) as Ho. unfold Zeq_bool in Ho. pose proof (Z.div_mod len 2). pose proof (Z.mod_pos_bound len 2).
  destruct (Z.odd len) eqn:E; [|lia]. apply Zodd_bool_iff, Zodd_ex in E as [k E]. lia.
Qed.

Lemma wsum_for_up m p n i acc :
  mem_ok m -> 0 <= acc -> acc + wsum m (p + 2 * i) n < 2 ^ 32 ->
  for_up n i (fun i acc => u32 (acc + load16 m (p + 2 * i))) acc = acc + wsum m (p + 2 * i) n.
Proof.
  intros Hm. revert i acc. induction n as [|n IH]; intros i acc Ha Hs; cbn [wsum for_up] in *; [lia|].
  pose proof (load16_range m (p + 2 * i) Hm). pose proof (wsum_range m (p + 2 * i + 2) n Hm).
  rewrite u32_small by lia. replace (p + 2 * i + 2) with (p + 2 * (i + 1)) in * by lia. rewrite IH; lia.
Qed.

Lemma land_1_odd x : negb (x .& 1 =? 0) = Z.odd x.
Proof. change 1 with (Z.ones 1). rewrite Z.land_ones by lia. change (2 ^ 1) with 2. rewrite Zmod_odd. by destruct (Z.odd x). Qed.

Lemma ip_checksum_eq m p len :
  mem_ok m -> 0 <= len <= 131072 -> ip_checksum m p len = Some (65535 - oc16 (isum m p len)).
Proof.
  intros Hm Hl. unfold ip_checksum. pose proof (isum_range m p len Hm Hl) as Hr. pose proof (wsum_range m p (Z.to_nat (len / 2)) Hm).
  pose proof (Hm (p + (len - 1))). rewrite land_1_odd. unfold isum in *. rewrite wsum_for_up; rewrite ?Z.mul_0_r, ?Z.add_0_r; [|done|lia|destruct (Z.odd len); lia].
  set (w := wsum _ _ _) in *. replace (if Z.odd len then _ else 0 + w) with (w + if Z.odd len then m (p + (len - 1)) else 0);
    [|destruct (Z.odd len); [unfold load8; rewrite u32_small by lia; lia|lia]].
  rewrite fold_carry_oc16 by done. cbn [mbind option_bind]. by rewrite lnot16 by apply oc16_range.
Qed.

Lemma word_loop m n : forall fuel p count sum,
  mem_ok m -> 0 <= count -> n = Z.to_nat (count / 2) -> (n < fuel)%nat -> 0 <= sum -> sum + wsum m p n < 2 ^ 32 ->
  loop fuel (word_step m) (p, count, sum) = Some (p + 2 * (count / 2), count mod 2, sum + wsum m p n).
Proof.
  induction n as [|n IH]; intros [|fuel] p count sum Hm Hc Hn Hf Hs Hw; try lia; cbn [loop word_step wsum] in *;
    pose proof (Z.div_mod count 2); pose proof (Z.mod_pos_bound count 2); pose proof (Z.div_pos count 2).
  - assert (count / 2 = 0) as E0 by lia. rewrite (proj2 (Z.ltb_ge _ _)) by lia. rewrite E0. do 2 f_equal; [f_equal; lia|lia].
  - pose proof (load16_range m p Hm). pose proof (wsum_range m (p + 2) n Hm). rewrite (proj2 (Z.ltb_lt _ _)), u32_small by lia.
    assert ((count - 2) / 2 = count / 2 - 1 /\ (count - 2) mod 2 = count mod 2) as [Ed Em].
    { replace (count - 2) with (count + (-1) * 2) by lia. rewrite Z.div_add, Z.mod_add by lia. lia. }
    rewrite IH by (done || (rewrite ?Ed; lia)). rewrite Ed, Em. do 2 f_equal; [f_equal|]; lia.
Qed.

Lemma checksum_eq m p len :
  mem_ok m -> 0 <= len <= 131072 -> checksum m p len = Some (65535 - oc16 (isum m p len)).
Proof.
  intros Hm Hl. unfold checksum. pose proof (isum_range m p len Hm Hl) as Hr. pose proof (wsum_range m p (Z.to_nat (len / 2)) Hm).
  assert (Z.to_nat (len / 2) < S (Z.to_nat len))%nat by (pose proof (Z.div_le_upper_bound len 2 len); lia).
  unfold isum in *. rewrite (word_loop m (Z.to_nat (len / 2))) by (done || lia || (destruct (Z.odd len); pose proof (Hm (p + (len - 1))); lia)).
  cbn [mbind option_bind]. pose proof (Hm (p + (len - 1))). rewrite Zmod_odd. pose proof (Zmod_odd len). pose proof (Z.div_mod len 2).
  replace (if 0 <? _ then _ else _) with (wsum m p (Z.to_nat (len / 2)) + if Z.odd len then m (p + (len - 1)) else 0).
  - rewrite fold_carry_oc16 by done. cbn [mbind option_bind]. by rewrite lnot16 by apply oc16_range.
  - destruct (Z.odd len); simpl; [|lia]. unfold load8. replace (p + 2 * (len / 2)) with (p + (len - 1)) by lia. rewrite u32_small; lia.
Qed.

(** Changing one word of the region changes the sum by the difference. *)
Lemma wsum_ext m m' p n :
  (forall x, p <= x < p + 2 * Z.of_nat n -> m' x = m x) -> wsum m' p n = wsum m p n.
Proof.
  revert p. induction n as [|n IH]; intros p He; cbn [wsum]; [done|]. rewrite IH by (intros x Hx; apply He; lia). f_equal.
  apply load_le_ext. intros x Hx. apply He. lia.
Qed.

Lemma wsum_word m m' p n j :
  (j < n)%nat -> (forall x, p <= x < p + 2 * Z.of_nat n -> ~ p + 2 * Z.of_nat j <= x < p + 2 * Z.of_nat j + 2 -> m' x = m x) ->
  wsum m' p n = wsum m p n - load16 m (p + 2 * Z.of_nat j) + load16 m' (p + 2 * Z.of_nat j).
Proof.
  revert p j. induction n as [|n IH]; intros p j Hj He; [lia|]. cbn [wsum]. destruct j as [|j].
  - rewrite (wsum_ext m m' (p + 2)) by (intros x Hx; apply He; lia). replace (p + 2 * Z.of_nat 0) with p by lia. lia.
  - rewrite (IH (p + 2) j) by (lia || (intros x Hx Hn; apply He; lia)). replace (p + 2 + 2 * Z.of_nat j) with (p + 2 * Z.of_nat (S j)) by lia.
    assert (load16 m' p = load16 m p) as -> by (apply load_le_ext; intros x Hx; apply He; lia). lia.
Qed.

Lemma isum_store16 m p len j w :
  mem_ok m -> 0 <= j -> 2 * j + 2 <= len -> 0 <= w < 65536 ->
  isum (store16 m (p + 2 * j) w) p len = isum m p len - load16 m (p + 2 * j) + w.
Proof.
  intros Hm Hj Hl Hw. assert (j + 1 <= len / 2) by (apply Z.div_le_lower_bound; lia). unfold isum.
  assert (0 <= len - 2 * (len / 2) < 2) by (pose proof (Z.div_mod len 2); pose proof (Z.mod_pos_bound len 2); lia).
  rewrite (wsum_word m (store16 m (p + 2 * j) w) p _ (Z.to_nat j)) by (lia || (intros x Hx Hn; apply store_le_other; lia)).
  rewrite !Z2Nat.id by lia. unfold load16 at 2, store16. rewrite load_store_le_same. change (256 ^ Z.of_nat 2) with 65536.
  rewrite Z.mod_small by lia. destruct (Z.odd len) eqn:E; [|lia]. apply Zodd_bool_iff, Zodd_ex in E as [k E].
  rewrite store_le_other; lia.
Qed.

Lemma oc16_full x : 0 < x -> x mod 65535 = 0 -> oc16 x = 65535.
Proof.
  intros Hx Hm. unfold oc16. rewrite (proj2 (Z.eqb_neq _ _)) by lia.
  apply Z.div_exact in Hm; [|lia]. replace (x - 1) with (65534 + (x / 65535 - 1) * 65535) by lia. rewrite Z.mod_add, Z.mod_small; lia.
Qed.

Lemma isum_ext m m' p len :
  0 <= len -> (forall x, p <= x < p + len -> m' x = m x) -> isum m' p len = isum m p len.
Proof.
  intros Hl He. unfold isum. pose proof (Z.div_mod len 2). pose proof (Z.mod_pos_bound len 2). f_equal; [apply wsum_ext; intros x Hx; apply He; lia|].
  destruct (Z.odd len) eqn:E; [|done]. apply Zodd_bool_iff, Zodd_ex in E as [k E]. apply He. lia.
Qed.

Lemma checksum_sum_zero m p len k :
  mem_ok m -> 0 <= k -> 2 * k + 2 <= len <= 131072 -> load16 m (p + 2 * k) = 0 ->
  let m1 := store16 m (p + 2 * k) (65535 - oc16 (isum m p len)) in
  isum m1 p len mod 65535 = 0 /\ oc16 (isum m1 p len) = 65535.
Proof.
  intros Hm Hk Hl H0 m1. set (S := isum m p len) in *. pose proof (oc16_range S) as Hc. pose proof (isum_range m p len Hm ltac:(lia)) as HS. fold S in HS.
  assert (isum m1 p len = S + 65535 - oc16 S) as ES by (unfold m1; rewrite isum_store16, H0 by (done || lia); fold S; lia).
  assert (isum m1 p len mod 65535 = 0) as EM.
  { rewrite ES. replace (S + 65535 - oc16 S) with (S - oc16 S + 1 * 65535) by lia. rewrite Z.mod_add by lia.
    rewrite Zminus_mod, oc16_mod, Z.sub_diag. done. }
  split; [done|]. apply oc16_full; [|done]. rewrite ES. unfold oc16. case_if; [lia|]. pose proof (Z.mod_le (S - 1) 65535). lia.
Qed.

(** C18: the Internet checksum.  The routines of ip.c and icmp.c compute the same
    value of every region of up to 128 KiB; with that value stored in a word of
    the region that was zero, the checksum of the region is 0, which is how a
    receiver verifies it; and a verified region whose checksum is still 0 after
    one of its words has changed had [0x0000] and [0xFFFF] exchanged: every other
    damage of one word is detected. *)
Theorem internet_checksum m p len k :
  mem_ok m -> 0 <= k -> 2 * k + 2 <= len <= 131072 -> load16 m (p + 2 * k) = 0 ->
  exists c, ip_checksum m p len = Some c /\ checksum m p len = Some c /\ 0 <= c < 65536 /\
    let m1 := store16 m (p + 2 * k) c in
    ip_checksum m1 p len = Some 0 /\ checksum m1 p len = Some 0 /\
    forall j w, 0 <= j -> 2 * j + 2 <= len -> 0 <= w < 65536 -> w <> load16 m1 (p + 2 * j) ->
      ip_checksum (store16 m1 (p + 2 * j) w) p len = Some 0 ->
      w = 0 /\ load16 m1 (p + 2 * j) = 65535 \/ w = 65535 /\ load16 m1 (p + 2 * j) = 0.
Proof.
  intros Hm Hk Hl H0. set (S := isum m p len). exists (65535 - oc16 S).
  pose proof (oc16_range S) as Hc. pose proof (isum_range m p len Hm ltac:(lia)) as HS. fold S in HS.
  rewrite ip_checksum_eq, checksum_eq by (done || lia). split; [done|]. split; [done|]. split; [lia|]. intros m1.
  assert (mem_ok m1) as Hm1 by (by apply store_le_ok).
  destruct (checksum_sum_zero m p len k Hm Hk Hl H0) as [EM EO]. fold S m1 in EM, EO.
  split; [rewrite ip_checksum_eq by (done || lia); by rewrite EO|]. split; [rewrite checksum_eq by (done || lia); by rewrite EO|].
  intros j w Hj Hjl Hw Hne. rewrite ip_checksum_eq by (by apply store_le_ok || lia). intros E. injection E as E.
  rewrite isum_store16 in E by (done || lia). set (v := load16 m1 (p + 2 * j)) in *. pose proof (load16_range m1 (p + 2 * j) Hm1) as Hv. fold v in Hv.
  assert ((isum m1 p len - v + w) mod 65535 = 0) as EM'.
  { rewrite <- oc16_mod. replace (oc16 (isum m1 p len - v + w)) with 65535 by lia. done. }
  assert ((w - v) mod 65535 = 0) as Ed.
  { replace (w - v) with (isum m1 p len - v + w - isum m1 p len) by lia. rewrite Zminus_mod, EM, EM'. done. }
  apply Z.div_exact in Ed; lia.
Qed.

Lemma internet_checksum_witness :
  exists c, checksum (store16 (store16 (fun _ => 0) 100 0x1234) 104 0xFEDC) 100 6 = Some c /\ c = 0xEEEE.
Proof.
  destruct (internet_checksum (store16 (store16 (fun _ => 0) 100 0x1234) 104 0xFEDC) 100 6 1) as (c & _ & Hc & _);
    [|lia|lia|vm_compute; reflexivity|].
  - repeat apply store_le_ok. intros a. simpl. lia.
  - exists c. split; [exact Hc|]. vm_compute in Hc. by injection Hc.
Defined.

(** ** State *)

Inductive nfld :=
(* struct sk_buff *)
| sk_dev | sk_protocol | sk_packet_type | sk_len | sk_true_size
| sk_mac_header | sk_network_header | sk_transport_header | sk_head | sk_data | sk_tail | sk_end
(* struct net_device, struct net_device_stats *)
| nd_mtu | nd_type | nd_hard_header_len | nd_ip_addr | nd_netmask | nd_gateway | nd_dns | nd_flags
| nd_ops | nd_rx_packets | nd_tx_packets | nd_rx_bytes | nd_tx_bytes | nd_priv
(* struct packet_type *)
| pt_type | pt_func
(* struct socket *)
| so_state | so_type | so_ops
(* struct wireless_dev *)
| wd_netdev.

#[export] Instance nfld_eq : EqDecision nfld.
Proof. solve_decision. Defined.

Definition sizeof_sk_buff : Z := 144.

Section skb.
Context {A : Type} `{Allocator A}.

Record net := NET {
  n_st : store nfld;
  n_mem : mem;
  n_links : gmap Z list_head;
  (** The contents of a device's [name], as a string. *)
  n_name : Z -> list Z;
  n_heap : A
}.

Definition nget (s : net) (a : Z) (f : nfld) : Z := n_st s a f.
Definition nset (s : net) (a : Z) (f : nfld) (v : Z) : net := NET (wr (n_st s) a f v) (n_mem s) (n_links s) (n_name s) (n_heap s).
Definition with_nmem (s : net) (m : mem) : net := NET (n_st s) m (n_links s) (n_name s) (n_heap s).
Definition with_nlinks (s : net) (l : gmap Z list_head) : net := NET (n_st s) (n_mem s) l (n_name s) (n_heap s).
Definition with_nheap (s : net) (h : A) : net := NET (n_st s) (n_mem s) (n_links s) (n_name s) h.
Definition with_name (s : net) (a : Z) (l : list Z) : net := NET (n_st s) (n_mem s) (n_links s) (fupd (n_name s) a l) (n_heap s).

(** [memset] of the structure at [a]. *)
Definition clear_fields (s : net) (a : Z) : net :=
  NET (fun x f => if decide (x = a) then 0 else n_st s x f) (n_mem s) (n_links s) (n_name s) (n_heap s).

(** ** The operations of skbuff.c *)

Definition alloc_skb (s : net) (size : Z) : option (net * Z) :=
  '(h, skb) ← a_alloc (n_heap s) sizeof_sk_buff;
  let s := with_nheap s h in
  if skb =? 0 then Some (s, 0)
  else
    let s := clear_fields s skb in
    '(h, p) ← a_alloc (n_heap s) size;
    let s := nset (with_nheap s h) skb sk_head p in
    if p =? 0 then h ← a_free (n_heap s) skb; Some (with_nheap s h, 0)
    else
      let s := nset s skb sk_data p in
      let s := nset s skb sk_tail p in
      let s := nset s skb sk_end (u64 (p + size)) in
      let s := nset s skb sk_true_size size in
      Some (nset s skb sk_len 0, skb).

Definition kfree_skb (s : net) (skb : Z) : option net :=
  if skb =? 0 then Some s
  else
    s ← (if negb (nget s skb sk_head =? 0)
         then h ← a_free (n_heap s) (nget s skb sk_head); Some (with_nheap s h)
         else Some s);
    h ← a_free (n_heap s) skb;
    Some (with_nheap s h).

Definition skb_put (s : net) (skb n : Z) : net * Z :=
  let tmp := nget s skb sk_tail in
  let s := nset s skb sk_tail (u64 (nget s skb sk_tail + n)) in
  let s := nset s skb sk_len (u32 (nget s skb sk_len + n)) in
  if nget s skb sk_end <? nget s skb sk_tail then (s, 0) else (s, tmp).

Definition skb_push (s : net) (skb n : Z) : net * Z :=
  let s := nset s skb sk_data (u64 (nget s skb sk_data - n)) in
  let s := nset s skb sk_len (u32 (nget s skb sk_len + n)) in
  if nget s skb sk_data <? nget s skb sk_head then (s, 0) else (s, nget s skb sk_data).

Definition skb_pull (s : net) (skb n : Z) : net * Z :=
  if nget s skb sk_len <? n then (s, 0)
  else
    let tmp := nget s skb sk_data in
    let s := nset s skb sk_data (u64 (nget s skb sk_data + n)) in
    (nset s skb sk_len (u32 (nget s skb sk_len - n)), tmp).

Definition skb_reserve (s : net) (skb n : Z) : net :=
  let s := nset s skb sk_data (u64 (nget s skb sk_data + n)) in
  nset s skb sk_tail (u64 (nget s skb sk_tail + n)).


(** ** Well-formed buffers *)

(** A packet buffer is a live structure and a live data block; [data] and [tail]
    delimit the packet within the block. *)
Record skb_ok (s : net) (skb : Z) : Prop := {
  so_skb : exists t, a_live (n_heap s) skb t;
  so_head : exists t, nget s skb sk_true_size <= t /\ a_live (n_heap s) (nget s skb sk_head) t;
  so_apart : nget s skb sk_head <> skb;
  so_end : nget s skb sk_end = nget s skb sk_head + nget s skb sk_true_size;
  so_order : nget s skb sk_head <= nget s skb sk_data <= nget s skb sk_tail /\ nget s skb sk_tail <= nget s skb sk_end;
  so_len : nget s skb sk_len = nget s skb sk_tail - nget s skb sk_data;
  so_small : 0 <= nget s skb sk_true_size < 2 ^ 32
}.

Definition headroom (s : net) (skb : Z) : Z := nget s skb sk_data - nget s skb sk_head.
Definition tailroom (s : net) (skb : Z) : Z := nget s skb sk_end - nget s skb sk_tail.
Definition packet (s : net) (skb : Z) : list Z := bytes_at (n_mem s) (nget s skb sk_data) (Z.to_nat (nget s skb sk_len)).

(** [s'] is [s] but for the position fields of [skb]. *)
Definition moved (s s' : net) (skb : Z) : Prop :=
  n_mem s' = n_mem s /\ n_links s' = n_links s /\ n_name s' = n_name s /\ n_heap s' = n_heap s /\
  forall x f, x <> skb \/ ~ (f = sk_data \/ f = sk_tail \/ f = sk_len) -> nget s' x f = nget s x f.

Lemma nget_nset s a f v x g : nget (nset s a f v) x g = if decide (x = a /\ g = f) then v else nget s x g.
Proof. done. Qed.

Lemma nget_nset_same s a f v : nget (nset s a f v) a f = v.
Proof. apply wr_same. Qed.

Lemma nget_nset_other s a f v x g : x <> a \/ g <> f -> nget (nset s a f v) x g = nget s x g.
Proof. apply wr_other. Qed.

Lemma nget_nset_field s a f v g : g <> f -> nget (nset s a f v) a g = nget s a g.
Proof. intros. apply wr_other. by right. Qed.

Lemma nget_nset_addr s a f v x g : x <> a -> nget (nset s a f v) x g = nget s x g.
Proof. intros. apply wr_other. by left. Qed.

Lemma moved_refl s skb : moved s s skb.
Proof. by split_and!. Qed.

Lemma moved_nset s s' skb f v :
  f = sk_data \/ f = sk_tail \/ f = sk_len -> moved s s' skb -> moved s (nset s' skb f v) skb.
Proof.
  intros Hf (H1 & H2 & H3 & H4 & H5). split_and!; try done. intros x g Hx. rewrite nget_nset_other; [by apply H5|].
  destruct Hx as [Hx|Hx]; [by left|right]. by intros ->.
Qed.

Lemma skb_bounds s skb :
  a_wf (n_heap s) -> skb_ok s skb -> 0 < skb /\ 0 < nget s skb sk_head /\ nget s skb sk_end < 2 ^ 63.
Proof.
  intros Hwf [[t Ht] (u & Hu & Hh) _ He _ _ _]. pose proof (a_live_pos _ _ _ Hwf Ht). pose proof (a_live_pos _ _ _ Hwf Hh).
  pose proof (a_live_top _ _ _ Hwf Hh). lia.
Qed.

(** Reads of a freshly written field compute away. *)
Ltac skb_simpl :=
  repeat first [rewrite nget_nset_same | rewrite nget_nset_field by discriminate].

Lemma skb_put_ok s skb n :
  a_wf (n_heap s) -> skb_ok s skb -> 0 <= n <= tailroom s skb ->
  exists s', skb_put s skb n = (s', nget s skb sk_tail) /\ moved s s' skb /\ skb_ok s' skb /\
    headroom s' skb = headroom s skb /\ tailroom s' skb = tailroom s skb - n /\
    packet s' skb = packet s skb ++ bytes_at (n_mem s) (nget s skb sk_tail) (Z.to_nat n) /\
    nget s' skb sk_data = nget s skb sk_data /\ nget s' skb sk_len = nget s skb sk_len + n.
Proof.
  intros Hwf Hok Hn. destruct (skb_bounds s skb Hwf Hok) as (_ & Hp & Hb). destruct Hok as [H1 H2 H3 H4 [H5 H5'] H6 H7].
  unfold tailroom in Hn. unfold skb_put. skb_simpl. rewrite (u64_small (_ + n)), (u32_small (_ + n)) by lia. rewrite (proj2 (Z.ltb_ge _ _)) by lia.
  eexists. split; [done|]. split; [by auto 6 using moved_refl, moved_nset|].
  split; [constructor; skb_simpl; simpl; try done; lia|]. unfold headroom, tailroom, packet. skb_simpl. simpl.
  split; [done|]. split; [lia|]. split; [|done]. rewrite Z2Nat.inj_add, bytes_at_app by lia. do 2 f_equal. lia.
Qed.

Lemma skb_push_ok s skb n :
  a_wf (n_heap s) -> skb_ok s skb -> 0 <= n <= headroom s skb ->
  exists s' p, skb_push s skb n = (s', p) /\ moved s s' skb /\ skb_ok s' skb /\
    headroom s' skb = headroom s skb - n /\ tailroom s' skb = tailroom s skb /\
    packet s' skb = bytes_at (n_mem s) p (Z.to_nat n) ++ packet s skb /\
    p = nget s skb sk_data - n /\ nget s' skb sk_data = p /\ nget s' skb sk_len = nget s skb sk_len + n.
Proof.
  intros Hwf Hok Hn. destruct (skb_bounds s skb Hwf Hok) as (_ & Hp & Hb). destruct Hok as [H1 H2 H3 H4 [H5 H5'] H6 H7].
  unfold headroom in Hn. unfold skb_push. skb_simpl. rewrite (u64_small (_ - n)), (u32_small (_ + n)) by lia. rewrite (proj2 (Z.ltb_ge _ _)) by lia.
  eexists _, _. split; [done|]. split; [by auto 6 using moved_refl, moved_nset|].
  split; [constructor; skb_simpl; simpl; try done; lia|]. unfold headroom, tailroom, packet. skb_simpl. simpl.
  split; [lia|]. split; [done|]. split; [|done]. rewrite Z.add_comm, Z2Nat.inj_add, bytes_at_app by lia. do 2 f_equal. lia.
Qed.

Lemma skb_pull_ok s skb n :
  a_wf (n_heap s) -> skb_ok s skb -> 0 <= n <= nget s skb sk_len ->
  exists s', skb_pull s skb n = (s', nget s skb sk_data) /\ moved s s' skb /\ skb_ok s' skb /\
    headroom s' skb = headroom s skb + n /\ tailroom s' skb = tailroom s skb /\
    packet s' skb = drop (Z.to_nat n) (packet s skb) /\
    nget s' skb sk_data = nget s skb sk_data + n /\ nget s' skb sk_len = nget s skb sk_len - n.
Proof.
  intros Hwf Hok Hn. destruct (skb_bounds s skb Hwf Hok) as (_ & Hp & Hb). destruct Hok as [H1 H2 H3 H4 [H5 H5'] H6 H7].
  unfold skb_pull. rewrite (proj2 (Z.ltb_ge _ _)) by lia. skb_simpl. rewrite (u64_small (_ + n)), (u32_small (_ - n)) by lia.
  eexists. split; [done|]. split; [by auto 6 using moved_refl, moved_nset|].
  split; [constructor; skb_simpl; simpl; try done; lia|]. unfold headroom, tailroom, packet. skb_simpl. simpl.
  split; [lia|]. split; [done|]. split; [|done]. rewrite bytes_at_drop. f_equal; lia.
Qed.

Lemma skb_reserve_ok s skb n :
  a_wf (n_heap s) -> skb_ok s skb -> 0 <= n <= tailroom s skb ->
  let s' := skb_reserve s skb n in
  moved s s' skb /\ skb_ok s' skb /\ headroom s' skb = headroom s skb + n /\ tailroom s' skb = tailroom s skb - n /\
  nget s' skb sk_data = nget s skb sk_data + n /\ nget s' skb sk_tail = nget s skb sk_tail + n /\ nget s' skb sk_len = nget s skb sk_len.
Proof.
  intros Hwf Hok Hn s'. destruct (skb_bounds s skb Hwf Hok) as (_ & Hp & Hb). destruct Hok as [H1 H2 H3 H4 [H5 H5'] H6 H7].
  unfold tailroom in Hn. unfold s', skb_reserve. skb_simpl. rewrite !u64_small by lia.
  split; [by auto 6 using moved_refl, moved_nset|].
  split; [constructor; skb_simpl; simpl; try done; lia|]. unfold headroom, tailroom. skb_simpl. split_and!; lia.
Qed.

(** ** Allocation and release *)

(** The heap has no room for the structure, or then for the data. *)
Definition skb_no_room (s : net) (size : Z) : Prop :=
  no_room (n_heap s) sizeof_sk_buff \/ exists h p, a_alloc (n_heap s) sizeof_sk_buff = Some (h, p) /\ no_room h size.

Lemma alloc_skb_room s size s' skb : alloc_skb s size = Some (s', skb) -> skb = 0 <-> skb_no_room s size.
Proof.
  unfold alloc_skb, skb_no_room. destruct (a_alloc (n_heap s) sizeof_sk_buff) as [[h p]|] eqn:E1; [|done]. cbn [mbind option_bind].
  destruct (Z.eqb_spec p 0) as [->|Hp]; [intros [= _ <-]; split; [left; by exists h|done]|].
  change (n_heap (clear_fields (with_nheap s h) p)) with h. destruct (a_alloc h size) as [[h2 d]|] eqn:E2; [|done]. cbn [mbind option_bind].
  rewrite (alloc_room _ _ _ _ E1). destruct (Z.eqb_spec d 0) as [->|Hd].
  - destruct (a_free _ p) as [h3|]; [|done]. cbn [mbind option_bind]. intros [= _ <-]. split; [|done]. intros _. right. exists h, p. split; [done|by exists h2].
  - intros [= _ <-]. split; [done|]. intros [?|(h' & p' & E' & Hn)]; [done|]. simplify_eq. by apply (alloc_room _ _ _ _ E2) in Hn.
Qed.

Lemma alloc_skb_spec s size :
  a_wf (n_heap s) -> 0 < size < 2 ^ 32 ->
  exists s' p, alloc_skb s size = Some (s', p) /\ a_wf (n_heap s') /\ n_mem s' = n_mem s /\ n_links s' = n_links s /\ n_name s' = n_name s /\
    (p = 0 /\ (forall x t f, a_live (n_heap s) x t -> nget s' x f = nget s x f) /\
       (forall q t, a_live (n_heap s') q t <-> a_live (n_heap s) q t) \/
     (forall x f, x <> p -> nget s' x f = nget s x f) /\ skb_ok s' p /\ headroom s' p = 0 /\ tailroom s' p = size /\ nget s' p sk_len = 0 /\ nget s' p sk_true_size = size /\ nget s' p sk_dev = 0 /\
       (forall t, ~ a_live (n_heap s) p t) /\ (forall t, ~ a_live (n_heap s) (nget s' p sk_head) t) /\
       exists t u, forall q v, a_live (n_heap s') q v <->
         (q = p /\ v = t) \/ (q = nget s' p sk_head /\ v = u) \/ a_live (n_heap s) q v).
Proof.
  intros Hwf Hsz. unfold alloc_skb. destruct (a_alloc_spec (n_heap s) sizeof_sk_buff Hwf ltac:(unfold sizeof_sk_buff; lia))
    as (h & p & -> & Hwf1 & Hal). cbn [mbind option_bind].
  destruct (Z.eqb_spec p 0) as [->|Hp].
  { eexists _, _. split; [done|]. split; [done|]. split; [done|]. split; [done|]. split; [done|].
    destruct Hal as [[_ Hl]|(t & _ & _ & Hl)]; [left; by split_and!|]. exfalso. assert (a_live h 0 t) as H0 by (apply Hl; auto).
    pose proof (a_live_pos _ _ _ Hwf1 H0). lia. }
  destruct Hal as [[? _]|(t & Ht & Hfr & Hl)]; [done|]. cbn [clear_fields with_nheap n_heap].
  destruct (a_alloc_spec h size Hwf1 ltac:(lia)) as (h2 & d & -> & Hwf2 & Hal). cbn [mbind option_bind].
  assert (forall x v f, a_live (n_heap s) x v -> nget (clear_fields (with_nheap s h) p) x f = nget s x f) as Hkeep.
  { intros x v f Hx. unfold nget, clear_fields. simpl. rewrite decide_False; [done|]. intros ->. by eapply Hfr. }
  assert (forall x v, a_live (n_heap s) x v -> x <> p) as Hnp by (intros x v Hx ->; by eapply Hfr).
  destruct (Z.eqb_spec d 0) as [->|Hd].
  { assert (forall q v, a_live h2 q v <-> a_live h q v) as Hl2.
    { destruct Hal as [[_ Hl2]|(u & _ & _ & Hl2)]; [done|]. exfalso. assert (a_live h2 0 u) as H0 by (apply Hl2; auto).
      pose proof (a_live_pos _ _ _ Hwf2 H0). lia. }
    destruct (a_free_spec h2 p t Hwf2) as (h3 & Hf & Hwf3 & Hl3); [apply Hl2, Hl; auto|].
    cbn [nset with_nheap n_heap]. rewrite Hf. cbn [mbind option_bind]. eexists _, _. split; [done|]. split; [done|]. split; [done|]. split; [done|]. split; [done|].
    left. split; [done|].
    split; [intros x v f Hx; unfold with_nheap; unfold nget in *; simpl; rewrite wr_other by (left; by eapply Hnp); by eapply Hkeep|]. intros q v. rewrite Hl3, Hl2, Hl. split; [|intros Hq; split; [by right|by eapply Hnp]]. intros [[[? _]|?] ?]; done. }
  destruct Hal as [[? _]|(u & Hu & Hfr2 & Hl2)]; [done|]. assert (d <> p) as Hdp by (intros ->; apply (Hfr2 t), Hl; auto).
  assert (a_live h2 d u) as Hld by (apply Hl2; auto). pose proof (a_live_pos _ _ _ Hwf2 Hld). pose proof (a_live_top _ _ _ Hwf2 Hld).
  assert (a_live h2 p t) as Hlp by (apply Hl2; right; apply Hl; auto).
  rewrite u64_small by lia. eexists _, _. split; [done|]. split; [done|]. split; [done|]. split; [done|]. split; [done|].
  right. split; [intros x f Hx; rewrite !nget_nset_addr by done; unfold nget, clear_fields; simpl; by rewrite decide_False|].
  split; [constructor; skb_simpl; simpl; try lia; [by exists t|by exists u]|].
  unfold headroom, tailroom. skb_simpl. split; [lia|]. split; [lia|]. split; [done|]. split; [done|].
  split; [unfold nget, clear_fields; simpl; by rewrite decide_True|]. split; [done|].
  split; [intros v Hv; apply (Hfr2 v), Hl; by right|]. exists t, u. intros q v. simpl. rewrite Hl2, Hl. tauto.
Qed.

Lemma kfree_skb_spec s skb :
  a_wf (n_heap s) -> skb_ok s skb ->
  exists h, kfree_skb s skb = Some (with_nheap s h) /\ a_wf h /\
    forall q t, a_live h q t <-> a_live (n_heap s) q t /\ q <> skb /\ q <> nget s skb sk_head.
Proof.
  intros Hwf Hok. destruct (skb_bounds s skb Hwf Hok) as (Hp & Hh & _). destruct Hok as [[t Ht] (u & _ & Hu) Hne _ _ _ _].
  unfold kfree_skb. rewrite (proj2 (Z.eqb_neq _ _)), (proj2 (Z.eqb_neq (nget s skb sk_head) 0)) by lia. cbn [negb].
  destruct (a_free_spec _ _ _ Hwf Hu) as (h1 & -> & Hwf1 & Hl1). cbn [mbind option_bind with_nheap n_heap].
  destruct (a_free_spec h1 skb t Hwf1) as (h2 & -> & Hwf2 & Hl2); [by apply Hl1|]. cbn [mbind option_bind].
  exists h2. split; [done|]. split; [done|]. intros q v. rewrite Hl2, Hl1. tauto.
Qed.

(** C19: a packet buffer is a byte string with room at both ends.  On a
    well-formed buffer [skb_put] extends the packet at its end, [skb_push] at its
    front, [skb_pull] drops a prefix, each within the room there is and leaving
    the block, every other structure and all memory alone; [skb_pull] refuses to
    drop more than there is.  When the room does not suffice, [skb_put] and
    [skb_push] return 0, but they have moved the pointer out of the block: the
    buffer is not well formed any more.  [kfree_skb] releases exactly the
    structure and its block. *)
Theorem skb_refines s skb n :
  a_wf (n_heap s) -> skb_ok s skb -> 0 <= n < 2 ^ 32 ->
  (let '(s', p) := skb_put s skb n in
   if decide (n <= tailroom s skb) then
     p = nget s skb sk_tail /\ moved s s' skb /\ skb_ok s' skb /\ headroom s' skb = headroom s skb /\ tailroom s' skb = tailroom s skb - n /\
     packet s' skb = packet s skb ++ bytes_at (n_mem s) p (Z.to_nat n)
   else p = 0 /\ ~ skb_ok s' skb) /\
  (let '(s', p) := skb_push s skb n in
   if decide (n <= headroom s skb) then
     p = nget s skb sk_data - n /\ moved s s' skb /\ skb_ok s' skb /\ headroom s' skb = headroom s skb - n /\ tailroom s' skb = tailroom s skb /\
     packet s' skb = bytes_at (n_mem s) p (Z.to_nat n) ++ packet s skb
   else n <= nget s skb sk_data -> p = 0 /\ ~ skb_ok s' skb) /\
  (let '(s', p) := skb_pull s skb n in
   if decide (n <= nget s skb sk_len) then
     p = nget s skb sk_data /\ moved s s' skb /\ skb_ok s' skb /\ headroom s' skb = headroom s skb + n /\ tailroom s' skb = tailroom s skb /\
     packet s' skb = drop (Z.to_nat n) (packet s skb)
   else p = 0 /\ s' = s) /\
  exists h, kfree_skb s skb = Some (with_nheap s h) /\ a_wf h /\
    forall q t, a_live h q t <-> a_live (n_heap s) q t /\ q <> skb /\ q <> nget s skb sk_head.
Proof.
  intros Hwf Hok Hn. pose proof (skb_bounds s skb Hwf Hok) as (Hp & Hh & He). pose proof (so_order _ _ Hok) as [Ho Ho'].
  split; [|split; [|split]].
  - case_decide as Hd; [destruct (skb_put_ok s skb n Hwf Hok ltac:(lia)) as (s' & -> & ? & ? & ? & ? & ? & ?); by split_and!|].
    unfold tailroom in Hd. unfold skb_put. skb_simpl. rewrite u64_small by lia. rewrite (proj2 (Z.ltb_lt _ _)) by lia. split; [done|].
    intros Hb. pose proof (so_order _ _ Hb) as [_ Hb']. revert Hb'. skb_simpl. lia.
  - case_decide as Hd; [destruct (skb_push_ok s skb n Hwf Hok ltac:(lia)) as (s' & p & -> & ? & ? & ? & ? & ? & ? & ?); by split_and!|].
    unfold headroom in Hd. unfold skb_push. skb_simpl. destruct (Z.ltb_spec (u64 (nget s skb sk_data - n)) (nget s skb sk_head)) as [Hx|Hx]; intros Hle; rewrite u64_small in Hx by lia; [|lia].
    split; [done|]. intros Hb. pose proof (so_order _ _ Hb) as [Hb' _]. revert Hb'. skb_simpl. rewrite u64_small; lia.
  - case_decide as Hd; [destruct (skb_pull_ok s skb n Hwf Hok ltac:(lia)) as (s' & -> & ? & ? & ? & ? & ? & ?); by split_and!|].
    unfold skb_pull. rewrite (proj2 (Z.ltb_lt _ _)) by lia. done.
  - by apply kfree_skb_spec.
Qed.

End skb.

(** ** Examples *)

#[local] Existing Instance Heap.heap_allocator.

(** A device at [0x1028], a packet buffer at [0x1158] and its block of 512 bytes
    at [0x1210], with the bytes [hdr] and the packet [p] from offset 34 on. *)
Definition demo_dev : Z := 0x1028.
Definition demo_skb : Z := 0x1158.
Definition demo_buf : Z := 0x1210.
Definition demo_tiles : list (Z * bool) := [(264, false); (144, false); (512, false); (8192, true)].
Definition demo_ptypes : Z := 0x9000.
Definition demo_ip_type : Z := 0x9100.
Definition demo_arp_type : Z := 0x9200.

Definition demo_net (hdr p : list Z) : net (A := Spinlock.cpu * Heap.heap) :=
  NET (fun x f =>
         if x =? demo_skb then
           match f with
           | sk_dev => demo_dev | sk_len => Z.of_nat (length p) | sk_true_size => 512
           | sk_network_header => demo_buf + 34 | sk_head => demo_buf | sk_data => demo_buf + 34
           | sk_tail => demo_buf + 34 + Z.of_nat (length p) | sk_end => demo_buf + 512
           | _ => 0
           end
         else if x =? demo_dev then match f with nd_ops => 0x8000 | nd_ip_addr => 0x0100000A | _ => 0 end
         else if x =? demo_ip_type then match f with pt_type => 8 | pt_func => 0x8100 | _ => 0 end
         else if x =? demo_arp_type then match f with pt_type => 0x0608 | pt_func => 0x8200 | _ => 0 end
         else 0)
    (poke (poke (fun _ => 0) (demo_dev + 16) [2; 0; 0; 0; 0; 1]) (demo_buf + 34 - Z.of_nat (length hdr)) (hdr ++ p))
    (list_to_map [(demo_ptypes, LH (demo_arp_type + 24) (demo_ip_type + 24)); (demo_arp_type + 24, LH (demo_ip_type + 24) demo_ptypes);
                  (demo_ip_type + 24, LH demo_ptypes (demo_arp_type + 24))])
    (fun x => if x =? demo_dev then [108; 111] else []) (Heap.demo_cpu, Heap.heap_of 0x1000 demo_tiles).

Lemma net_demo_tiles : Heap.tiles_ok 0x1000 demo_tiles.
Proof. split; [done|]. split; [by repeat constructor|done]. Qed.

Lemma demo_net_wf hdr p : a_wf (n_heap (demo_net hdr p)).
Proof. exists demo_tiles. apply Heap.heap_of_rep; [apply net_demo_tiles|done]. Qed.

Lemma demo_net_live hdr p q t : (q, t) ∈ [(demo_dev, 264); (demo_skb, 144); (demo_buf, 512)] -> a_live (n_heap (demo_net hdr p)) q t.
Proof. intros Hq. apply Heap.heap_of_live; [apply net_demo_tiles|done|]. exact Hq. Qed.

Lemma demo_net_ok hdr p : Z.of_nat (length p) <= 478 -> skb_ok (demo_net hdr p) demo_skb.
Proof.
  intros Hp. constructor.
  - exists 144. apply demo_net_live. right. left.
  - exists 512. split; [done|]. apply demo_net_live. do 2 right. left.
  - discriminate.
  - reflexivity.
  - change (demo_buf <= demo_buf + 34 <= demo_buf + 34 + Z.of_nat (length p) /\ demo_buf + 34 + Z.of_nat (length p) <= demo_buf + 512). unfold demo_buf. lia.
  - change (Z.of_nat (length p) = demo_buf + 34 + Z.of_nat (length p) - (demo_buf + 34)). lia.
  - change (0 <= 512 < 2 ^ 32). lia.
Qed.

Lemma skb_refines_witness :
  exists s', skb_push (demo_net [7] [1; 2; 3]) demo_skb 1 = (s', demo_buf + 33) /\ packet s' demo_skb = [7; 1; 2; 3].
Proof.
  destruct (skb_refines (demo_net [7] [1; 2; 3]) demo_skb 1 (demo_net_wf _ _) (demo_net_ok [7] [1; 2; 3] ltac:(simpl; lia)) ltac:(lia)) as (_ & Hpush & _).
  destruct (skb_push _ _ _) as [s' p]. destruct (decide _) as [_|Hn]; [|by destruct Hn].
  destruct Hpush as (Ep & _ & _ & _ & _ & Hk). exists s'. split; [by rewrite Ep|]. rewrite Hk, Ep. vm_compute. reflexivity.
Defined.

End Skb.
