(* ===== verification/NetDev.v ===== *)
(** * Network devices

    (src/kernel/net/core/dev.c, net/ethernet/eth.c, net/drivers/loopback.c,
    net/wireless/core.c, net/core/netfilter.c and include/net/netdevice.h.)

    The registries of devices and of packet types are [list.h] lists.  A driver's
    operations and the handlers of packet types are reached through pointers:
    [ops] and [func] give the function behind a pointer.  A handler can transmit
    and the loopback driver receives what it transmits, so the two are tied
    together only where the stack is complete ([Ip]). *)
From S2P Require Import Prelude Memory CString Wire Allocator ListHead Store SortedQueue Spinlock Heap Skb.
Import ListHead Skb.

Import CString Wire.

Module NetDev.

Definition ETH_ALEN : Z := 6.
Definition ETH_HLEN : Z := 14.
Definition ETH_P_IP : Z := 0x0800.
Definition ETH_P_ARP : Z := 0x0806.
Definition IFF_LOOPBACK : Z := 0x8.
Definition sizeof_net_device : Z := 264.
Definition sizeof_wireless_dev : Z := 96.

(** [dev->dev_addr], [dev->broadcast], [&dev->node], [&pt->list] *)
Definition dev_addr (dev : Z) : Z := dev + 16.
Definition broadcast (dev : Z) : Z := dev + 22.
Definition nd_node (dev : Z) : Z := dev + 248.
Definition pt_list (pt : Z) : Z := pt + 24.
(** [eth->h_dest], [eth->h_source], [&eth->h_proto] *)
Definition h_dest (eth : Z) : Z := eth.
Definition h_source (eth : Z) : Z := eth + 6.
Definition h_proto (eth : Z) : Z := eth + 12.

Section netdev.
Context {A : Type} `{Allocator A}.
(** The addresses of [net_devices] and [ptype_base]. *)
Context (net_devices ptype_base : Z).
Notation net := (net (A := A)).

Record net_device_ops := NDO {
  ndo_init : option (net -> Z -> option (net * Z));
  ndo_uninit : option (net -> Z -> option net);
  ndo_start_xmit : option (net -> Z -> Z -> option (net * Z))
}.

Definition net_dev_init (s : net) : net :=
  with_nlinks s (INIT_LIST_HEAD (INIT_LIST_HEAD (n_links s) net_devices) ptype_base).

Definition dev_add_pack (s : net) (pt : Z) : option net :=
  l ← list_add_tail (n_links s) (pt_list pt) ptype_base; Some (with_nlinks s l).

Definition dev_remove_pack (s : net) (pt : Z) : option net :=
  l ← list_del (n_links s) (pt_list pt); Some (with_nlinks s l).

(** [memset] of a network device and [extra] bytes behind it. *)
Definition clear_netdev (s : net) (dev size : Z) : net :=
  let s := with_nmem s (memset (n_mem s) dev 0 size) in
  let s := with_nlinks s (<[nd_node dev := LH 0 0]> (n_links s)) in
  with_name (clear_fields s dev) dev [].

(** [strncpy(dev->name, name, 15)] into the cleared array. *)
Definition alloc_netdev (s : net) (sizeof_priv : Z) (name : option (list Z)) (setup : option (net -> Z -> net)) : option (net * Z) :=
  let alloc_size := s32 (sizeof_net_device + sizeof_priv) in
  '(h, dev) ← a_alloc (n_heap s) (u64 alloc_size);
  let s := with_nheap s h in
  if dev =? 0 then Some (s, 0)
  else
    let s := clear_netdev s dev (u64 alloc_size) in
    let s := if negb (sizeof_priv =? 0) then nset s dev nd_priv (dev + sizeof_net_device) else s in
    let s := match name with Some l => with_name s dev (take 15 l) | None => s end in
    Some (match setup with Some f => f s dev | None => s end, dev).

(** The device of the node [pos] is named [name]. *)
Definition is_named (s : net) (name : list Z) (pos : Z) : bool := bool_decide (n_name s (pos - 248) = name).

Section drivers.
Variable ops : Z -> net_device_ops.

Definition register_netdev (fuel : nat) (s : net) (dev : Z) : option (net * Z) :=
  if dev =? 0 then Some (s, -1)
  else
    pos ← list_find fuel (n_links s) net_devices (is_named s (n_name s dev));
    if negb (pos =? net_devices) then Some (s, -1)
    else
      '(s, r) ← (if nget s dev nd_ops =? 0 then Some (s, 0)
                 else match ndo_init (ops (nget s dev nd_ops)) with Some init => init s dev | None => Some (s, 0) end);
      if r <? 0 then Some (s, -1)
      else
        l ← list_add_tail (n_links s) (nd_node dev) net_devices;
        Some (with_nlinks s l, 0).

Definition unregister_netdev (s : net) (dev : Z) : option net :=
  if dev =? 0 then Some s
  else
    l ← list_del (n_links s) (nd_node dev);
    let s := with_nlinks s l in
    if nget s dev nd_ops =? 0 then Some s
    else match ndo_uninit (ops (nget s dev nd_ops)) with Some uninit => uninit s dev | None => Some s end.

Definition free_netdev (s : net) (dev : Z) : option net :=
  h ← a_free (n_heap s) dev; Some (with_nheap s h).

Definition dev_get_by_name (fuel : nat) (s : net) (name : list Z) : option Z :=
  pos ← list_find fuel (n_links s) net_devices (is_named s name);
  Some (if pos =? net_devices then 0 else pos - 248).

(** [dev->stats.packets++; dev->stats.bytes += len] *)
Definition count_packet (s : net) (dev : Z) (packets bytes : nfld) (len : Z) : net :=
  let s := nset s dev packets (u64 (nget s dev packets + 1)) in
  nset s dev bytes (u64 (nget s dev bytes + len)).

Definition dev_queue_xmit (s : net) (skb : Z) : option (net * Z) :=
  if skb =? 0 then Some (s, -1)
  else
    let dev := nget s skb sk_dev in
    if dev =? 0 then s ← kfree_skb s skb; Some (s, -1)
    else
      match (if nget s dev nd_ops =? 0 then None else ndo_start_xmit (ops (nget s dev nd_ops))) with
      | Some start_xmit => start_xmit (count_packet s dev nd_tx_packets nd_tx_bytes (nget s skb sk_len)) skb dev
      | None => s ← kfree_skb s skb; Some (s, -1)
      end.

(** ** Wireless devices *)

Definition alloc_wireless_dev (s : net) (sizeof_priv : Z) (name : list Z) : option (net * Z) :=
  '(s, netdev) ← alloc_netdev s sizeof_priv (Some name) None;
  if netdev =? 0 then Some (s, 0)
  else
    '(h, wdev) ← a_alloc (n_heap s) sizeof_wireless_dev;
    let s := with_nheap s h in
    if wdev =? 0 then Some (s, 0)
    else
      let s := clear_fields s wdev in
      let s := nset s wdev wd_netdev netdev in
      Some (nset s netdev nd_priv (u64 (netdev + sizeof_net_device)), wdev).

Definition register_wireless_dev (fuel : nat) (s : net) (wdev : Z) : option (net * Z) :=
  if (wdev =? 0) || (nget s wdev wd_netdev =? 0) then Some (s, -1)
  else '(s, _) ← register_netdev fuel s (nget s wdev wd_netdev); Some (s, 0).

End drivers.

(** ** Reception *)

(** The packet type of the node [pos] takes packets of [protocol]. *)
Definition takes (s : net) (protocol pos : Z) : bool :=
  (nget s (pos - 24) pt_type =? protocol) || (nget s (pos - 24) pt_type =? 0xFFFF).

Definition netif_rx (func : Z -> net -> Z -> Z -> Z -> option (net * Z)) (fuel : nat) (s : net) (skb : Z) : option (net * Z) :=
  if skb =? 0 then Some (s, -1)
  else
    let s := if negb (nget s skb sk_dev =? 0) then count_packet s (nget s skb sk_dev) nd_rx_packets nd_rx_bytes (nget s skb sk_len) else s in
    pos ← list_find fuel (n_links s) ptype_base (takes s (nget s skb sk_protocol));
    if pos =? ptype_base then s ← kfree_skb s skb; Some (s, 0)
    else
      let pt := pos - 24 in
      '(s, _) ← func (nget s pt pt_func) s skb (nget s skb sk_dev) pt;
      Some (s, 0).

(** [None] where [skb_pull] returns 0 and the code reads the header there. *)
Definition eth_type_trans (s : net) (skb dev : Z) : option (net * Z) :=
  let s := nset s skb sk_dev dev in
  let s := nset s skb sk_mac_header (nget s skb sk_data) in
  let '(s, eth) := skb_pull s skb ETH_HLEN in
  if eth =? 0 then None
  else
    let m := n_mem s in
    let s :=
      if negb (load8 m (h_dest eth) .& 1 =? 0) then
        if memcmp m (h_dest eth) (broadcast dev) ETH_ALEN =? 0 then nset s skb sk_packet_type 1 else nset s skb sk_packet_type 2
      else if negb (memcmp m (h_dest eth) (dev_addr dev) ETH_ALEN =? 0) then nset s skb sk_packet_type 3
      else s in
    Some (s, load16 m (h_proto eth)).

(** ** The loopback device *)

Definition loopback_setup (loopback_ops : Z) (s : net) (dev : Z) : net :=
  let s := nset s dev nd_mtu (16 * 1024 + 20 + 20 + 12) in
  let s := nset s dev nd_flags IFF_LOOPBACK in
  let s := nset s dev nd_hard_header_len ETH_HLEN in
  let s := nset s dev nd_type ETH_P_ARP in
  let s := with_nmem s (foldl (fun m i => store8 m (dev_addr dev + i) 0) (n_mem s) (seqZ 0 6)) in
  nset s dev nd_ops loopback_ops.

Definition loopback_xmit (func : Z -> net -> Z -> Z -> Z -> option (net * Z)) (fuel : nat) (s : net) (skb dev : Z) : option (net * Z) :=
  let s := count_packet s dev nd_tx_packets nd_tx_bytes (nget s skb sk_len) in
  '(s, protocol) ← eth_type_trans s skb dev;
  let s := nset s skb sk_protocol protocol in
  '(s, _) ← netif_rx func fuel s skb;
  Some (s, 0).

Definition loopback_init (ops : Z -> net_device_ops) (loopback_ops : Z) (fuel : nat) (s : net) : option net :=
  '(s, dev) ← alloc_netdev s 0 (Some [108; 111]) (Some (loopback_setup loopback_ops));
  if dev =? 0 then Some s
  else
    '(s, r) ← register_netdev ops fuel s dev;
    if r <? 0 then free_netdev s dev else Some s.

(** ** Bytes of a packet *)

Lemma packet_at (s : net) skb (i : nat) b : packet s skb !! i = Some b -> n_mem s (nget s skb sk_data + Z.of_nat i) = b.
Proof.
  unfold packet. intros Hi. pose proof (lookup_lt_Some _ _ _ Hi) as Hl. rewrite bytes_at_length in Hl.
  rewrite bytes_at_lookup in Hi by done. by injection Hi.
Qed.

Lemma packet_load (s : net) skb (i n : nat) :
  (i + n <= length (packet s skb))%nat -> load_le (n_mem s) (nget s skb sk_data + Z.of_nat i) n = le_value (take n (drop i (packet s skb))).
Proof.
  unfold packet. rewrite bytes_at_length. intros Hl. rewrite load_le_value, bytes_at_drop, bytes_at_take by lia. done.
Qed.

Lemma packet_length (s : net) skb : length (packet s skb) = Z.to_nat (nget s skb sk_len).
Proof. apply bytes_at_length. Qed.

(** [s'] is [s] but for the fields of [skb]. *)
Definition only_skb (s s' : net) (skb : Z) : Prop :=
  n_mem s' = n_mem s /\ n_links s' = n_links s /\ n_name s' = n_name s /\ n_heap s' = n_heap s /\
  forall x f, x <> skb -> nget s' x f = nget s x f.

Lemma only_skb_nset (s s' : net) skb f v : only_skb s s' skb -> only_skb s (nset s' skb f v) skb.
Proof. intros (H1 & H2 & H3 & H4 & H5). split_and!; try done. intros x g Hx. rewrite nget_nset_addr by done. by apply H5. Qed.

Lemma skb_ok_keep (s : net) skb x f v :
  skb_ok s skb -> x <> skb \/ f = sk_dev \/ f = sk_protocol \/ f = sk_packet_type \/ f = sk_mac_header \/ f = sk_network_header ->
  skb_ok (nset s x f v) skb.
Proof. intros [] Hf. constructor; rewrite ?nget_nset_other by (destruct Hf as [?|[->|[->|[->|[->| ->]]]]]; [left; done|right; discriminate..]); done. Qed.

(** [eth_type_trans] strips the Ethernet header and returns its type field, as it
    is read from memory. *)
Lemma eth_type_trans_spec (s : net) skb dev :
  a_wf (n_heap s) -> skb_ok s skb -> ETH_HLEN <= nget s skb sk_len ->
  exists s', eth_type_trans s skb dev = Some (s', le_value (take 2 (drop 12 (packet s skb)))) /\
    only_skb s s' skb /\ skb_ok s' skb /\ packet s' skb = drop 14 (packet s skb) /\
    nget s' skb sk_dev = dev /\ nget s' skb sk_head = nget s skb sk_head /\ nget s' skb sk_len = nget s skb sk_len - 14.
Proof.
  intros Hwf Hok Hl. unfold eth_type_trans, ETH_HLEN in *. set (s1 := nset _ skb sk_mac_header _).
  assert (only_skb s s1 skb) as Ho1 by (by do 2 apply only_skb_nset).
  assert (skb_ok s1 skb) as Hok1 by (apply skb_ok_keep; [apply skb_ok_keep; [done|by right; left]|do 4 right; by left]).
  assert (forall f, f <> sk_dev -> f <> sk_mac_header -> nget s1 skb f = nget s skb f) as E1 by (intros f ? ?; unfold s1; by rewrite !nget_nset_field).
  destruct (skb_pull_ok s1 skb 14) as (s2 & -> & (Em & El & En & Eh & Ef) & Hok2 & _ & _ & Ek & _ & Ell); [done|done|rewrite E1 by done; lia|].
  pose proof (skb_bounds s skb Hwf Hok) as (_ & Hh0 & _). pose proof (so_order _ _ Hok) as [Ho _]. rewrite E1, (proj2 (Z.eqb_neq _ 0)) by (done || lia).
  set (s3 := if negb _ then _ else _). rewrite Em. change (n_mem s1) with (n_mem s). exists s3.
  assert (s3 = s2 \/ exists v, s3 = nset s2 skb sk_packet_type v) as H3 by (unfold s3; repeat case_match; eauto).
  pose proof (packet_load s skb 12 2 ltac:(rewrite packet_length; lia)) as Hpl. change (Z.of_nat 12) with 12 in Hpl.
  split; [unfold load16, h_proto; by rewrite Hpl|].
  assert (only_skb s s2 skb) as Ho2.
  { destruct Ho1 as (A1 & A2 & A3 & A4 & A5). split_and!; try congruence. intros x f Hx. rewrite Ef by (by left). by apply A5. }
  assert (only_skb s s3 skb) as Ho3 by (destruct H3 as [->|[v ->]]; [done|by apply only_skb_nset]).
  assert (forall f, f <> sk_packet_type -> nget s3 skb f = nget s2 skb f) as E3 by (intros f Hf; destruct H3 as [->|[v ->]]; [done|by apply nget_nset_field]).
  split; [done|]. split; [destruct H3 as [->|[v ->]]; [done|apply skb_ok_keep; [done|do 3 right; by left]]|].
  assert (packet s1 skb = packet s skb) as Ep1 by (unfold packet; by rewrite !E1).
  assert (n_mem s3 = n_mem s2) as Em3 by (destruct Ho2 as (E2 & _), Ho3 as (E3' & _); congruence).
  split; [rewrite <- Ep1; change 14%nat with (Z.to_nat 14); rewrite <- Ek; unfold packet; by rewrite !E3, Em3 by done|].
  rewrite !E3, Ell, !E1 by done. split; [rewrite Ef by (right; naive_solver); unfold s1; rewrite nget_nset_field by done; apply nget_nset_same|].
  split; [|done]. rewrite Ef by (right; naive_solver). by rewrite E1.
Qed.

(** ** Dispatch *)

(** A packet goes to the first registered type that takes it. *)
Lemma netif_rx_dispatch func fuel (s : net) skb pre pt post :
  skb <> 0 -> nget s skb sk_dev <> 0 -> nget s skb sk_dev <> skb ->
  dlist (n_links s) ptype_base (pt_list <$> pre ++ pt :: post) -> (length pre < fuel)%nat ->
  Forall (fun p => nget s p pt_type <> nget s skb sk_protocol /\ nget s p pt_type <> 0xFFFF) pre -> nget s pt pt_type = nget s skb sk_protocol ->
  let s1 := count_packet s (nget s skb sk_dev) nd_rx_packets nd_rx_bytes (nget s skb sk_len) in
  netif_rx func fuel s skb = '(s2, _) ← func (nget s pt pt_func) s1 skb (nget s skb sk_dev) pt; Some (s2, 0).
Proof.
  intros Hs Hd Hds Hdl Hf Hpre Hpt s1. unfold netif_rx. rewrite (proj2 (Z.eqb_neq skb 0)), (proj2 (Z.eqb_neq (nget s skb sk_dev) 0)) by done.
  cbn [negb]. fold s1. assert (forall x f, f <> nd_rx_packets -> f <> nd_rx_bytes -> nget s1 x f = nget s x f) as E1.
  { intros x f ? ?. unfold s1, count_packet. by rewrite !nget_nset_other by (by right). }
  change (n_links s1) with (n_links s). rewrite fmap_app in Hdl. cbn [fmap list_fmap] in Hdl.
  rewrite (list_find_dlist _ _ (pt_list <$> pre) (pt_list pt :: (pt_list <$> post))); [|done|..].
  - cbn [after List.hd mbind option_bind]. rewrite (proj2 (Z.eqb_neq (pt_list pt) ptype_base)).
    2:{ destruct Hdl as [_ Hnd]. apply NoDup_cons in Hnd as [Hn _]. set_solver. }
    replace (pt_list pt - 24) with pt by (unfold pt_list; lia). by rewrite !E1 by done.
  - apply Forall_fmap. eapply Forall_impl; [exact Hpre|]. intros p [H1 H2]. unfold compose, takes. replace (pt_list p - 24) with p by (unfold pt_list; lia).
    rewrite !E1 by done. by rewrite (proj2 (Z.eqb_neq _ _) H1), (proj2 (Z.eqb_neq _ _) H2).
  - unfold takes. replace (pt_list pt - 24) with pt by (unfold pt_list; lia). rewrite !E1, Hpt, Z.eqb_refl by done. done.
  - by rewrite length_fmap.
Qed.


(** ** The registry of devices *)

(** [devs] are the registered devices, in the order of registration. *)
Record registry (s : net) (devs : list Z) : Prop := {
  rg_ring : dlist (n_links s) net_devices (nd_node <$> devs);
  rg_names : NoDup (n_name s <$> devs);
  rg_nonzero : 0 ∉ devs
}.

(** The search by name stops at the one device of that name, or at the head. *)
Lemma find_named fuel (s : net) devs name :
  registry s devs -> (length devs < fuel)%nat ->
  match List.find (fun d => bool_decide (n_name s d = name)) devs with
  | Some d => list_find fuel (n_links s) net_devices (is_named s name) = Some (nd_node d) /\ nd_node d <> net_devices
  | None => list_find fuel (n_links s) net_devices (is_named s name) = Some net_devices
  end.
Proof.
  intros [Hd Hn Hz] Hf. assert (forall d, is_named s name (nd_node d) = bool_decide (n_name s d = name)) as En.
  { intros d. unfold is_named, nd_node. by replace (d + 248 - 248) with d by lia. }
  destruct (first_split (fun d => bool_decide (n_name s d = name)) devs) as [H1|(l1 & d & l2 & -> & H1 & H2)].
  - assert (List.find (fun d => bool_decide (n_name s d = name)) devs = None) as ->.
    { clear -H1. induction H1 as [|x l Hx _ IH]; simpl; [done|by rewrite Hx]. }
    rewrite (list_find_dlist _ _ (nd_node <$> devs) [] (is_named s name) fuel); [done|by rewrite app_nil_r|..|done|by rewrite length_fmap].
    apply Forall_fmap. eapply Forall_impl; [exact H1|]. intros x Hx. unfold compose. by rewrite En.
  - assert (List.find (fun d => bool_decide (n_name s d = name)) (l1 ++ d :: l2) = Some d) as ->.
    { clear -H1 H2. induction H1 as [|x l Hx _ IH]; simpl; [by rewrite H2|by rewrite Hx]. }
    rewrite fmap_app, fmap_cons in Hd. split.
    + rewrite (list_find_dlist _ _ (nd_node <$> l1) (nd_node d :: (nd_node <$> l2)) _ _ Hd); [done|..].
      * apply Forall_fmap. eapply Forall_impl; [exact H1|]. intros x Hx. unfold compose. by rewrite En.
      * by rewrite En.
      * rewrite length_fmap. rewrite length_app in Hf. lia.
    + destruct Hd as [_ Hnd]. apply NoDup_cons in Hnd as [Hh _]. set_solver.
Qed.

Lemma dev_get_by_name_spec fuel (s : net) devs name :
  registry s devs -> (length devs < fuel)%nat ->
  dev_get_by_name fuel s name = Some (default 0 (List.find (fun d => bool_decide (n_name s d = name)) devs)).
Proof.
  intros Hr Hf. pose proof (find_named fuel s devs name Hr Hf) as Hx. unfold dev_get_by_name. destruct (List.find _ _) as [d|].
  - destruct Hx as [-> Hne]. cbn [mbind option_bind]. rewrite (proj2 (Z.eqb_neq _ _) Hne). unfold nd_node. simpl. do 2 f_equal. lia.
  - rewrite Hx. cbn [mbind option_bind]. by rewrite Z.eqb_refl.
Qed.

(** Among the devices of a registry a name identifies one. *)
Lemma find_by_name (s : net) devs d :
  NoDup (n_name s <$> devs) -> d ∈ devs -> List.find (fun x => bool_decide (n_name s x = n_name s d)) devs = Some d.
Proof.
  induction devs as [|x devs IH]; intros Hn Hd; [by apply elem_of_nil in Hd|]. rewrite fmap_cons in Hn. apply NoDup_cons in Hn as [Hx Hn].
  simpl. apply elem_of_cons in Hd as [->|Hd]; [by rewrite bool_decide_true|]. rewrite bool_decide_false; [by apply IH|].
  intros E. apply Hx. rewrite E. by apply list_elem_of_fmap_2.
Qed.

(** The registry of network devices.  [register_netdev] refuses a device
    whose name is taken, without any change, and one whose driver refuses; every
    other device is entered last.  So the names of the registered devices stay
    distinct, [dev_get_by_name] finds each of them by its name, the new one
    included, and returns 0 for a name that none has. *)
Theorem register_netdev_names ops fuel (s : net) dev devs :
  registry s devs -> (length devs + 1 < fuel)%nat -> dev <> 0 ->
  is_Some (n_links s !! nd_node dev) -> nd_node dev ∉ net_devices :: (nd_node <$> devs) ->
  (forall init, ndo_init (ops (nget s dev nd_ops)) = Some init ->
     exists s1 r, init s dev = Some (s1, r) /\ n_links s1 = n_links s /\ n_name s1 = n_name s) ->
  exists s' r, register_netdev ops fuel s dev = Some (s', r) /\ (r = 0 \/ r = -1) /\
    let devs' := if decide (r = 0) then devs ++ [dev] else devs in
    registry s' devs' /\ (n_name s dev ∈ n_name s <$> devs -> r = -1 /\ s' = s) /\
    (forall d, d ∈ devs' -> dev_get_by_name fuel s' (n_name s' d) = Some d) /\
    (forall name, name ∉ n_name s' <$> devs' -> dev_get_by_name fuel s' name = Some 0).
Proof.
  intros Hr Hf Hd0 Hs Hni Hinit.
  cut (exists s' r, register_netdev ops fuel s dev = Some (s', r) /\ (r = 0 \/ r = -1) /\
    registry s' (if decide (r = 0) then devs ++ [dev] else devs) /\ (n_name s dev ∈ n_name s <$> devs -> r = -1 /\ s' = s)).
  { intros (s' & r & E & Hr01 & Hreg & Hin). exists s', r. split; [done|]. split; [done|]. intros devs'. split; [done|]. split; [done|].
    assert (length devs' < fuel)%nat as Hl by (unfold devs'; case_decide; rewrite ?length_app; simpl; lia). split.
    - intros d Hd. rewrite (dev_get_by_name_spec _ _ devs') by done. by rewrite (find_by_name s' devs' d (rg_names _ _ Hreg) Hd).
    - intros name Hn. rewrite (dev_get_by_name_spec _ _ devs') by done. destruct (List.find _ _) as [d|] eqn:Ef; [|done].
      apply List.find_some in Ef as [Hd E']. apply bool_decide_eq_true in E'. destruct Hn. rewrite <- E'. apply list_elem_of_fmap_2. by apply list_elem_of_In. }
  unfold register_netdev. rewrite (proj2 (Z.eqb_neq dev 0)) by done.
  pose proof (find_named fuel s devs (n_name s dev) Hr ltac:(lia)) as Hfind. destruct (List.find _ _) as [d|] eqn:Ef.
  - destruct Hfind as [-> Hne]. cbn [mbind option_bind]. rewrite (proj2 (Z.eqb_neq _ _) Hne). exists s, (-1). simpl. auto.
  - rewrite Hfind. cbn [mbind option_bind]. rewrite Z.eqb_refl. cbn [negb].
    assert (n_name s dev ∉ n_name s <$> devs) as Hnew.
    { intros Hin. apply list_elem_of_fmap in Hin as (d & E & Hd). apply list_elem_of_In in Hd. pose proof (List.find_none _ _ Ef d Hd) as Hb.
      apply bool_decide_eq_false in Hb. congruence. }
    assert (exists s1 r, (if nget s dev nd_ops =? 0 then Some (s, 0)
                 else match ndo_init (ops (nget s dev nd_ops)) with Some init => init s dev | None => Some (s, 0) end) = Some (s1, r) /\
              n_links s1 = n_links s /\ n_name s1 = n_name s) as (s1 & r & -> & El & En).
    { case_match; [by exists s, 0|]. destruct (ndo_init _) as [init|]; [by apply Hinit|by exists s, 0]. }
    cbn [mbind option_bind]. destruct Hr as [H1 H2 H3]. case_match.
    + exists s1, (-1). split; [done|]. split; [by right|]. split; [|tauto]. simpl. split; [by rewrite El|by rewrite En|done].
    + rewrite El. destruct (list_add_tail_dlist (n_links s) net_devices _ (nd_node dev) H1 Hs Hni) as (l & -> & Hd & _). cbn [mbind option_bind].
      eexists _, 0. split; [done|]. split; [by left|]. split; [|tauto]. simpl. split; cbn [with_nlinks n_links n_name].
      * by rewrite fmap_app.
      * rewrite En, fmap_app, NoDup_app. split; [done|]. split; [|apply NoDup_singleton]. set_solver.
      * set_solver.
Qed.

End netdev.

(** ** A registry with the loopback device, and [eth0] joining it *)

Definition demo_registry : Skb.net (A := Spinlock.cpu * Heap.heap) :=
  let links := {[0x8000 := LH (nd_node 0x2000) (nd_node 0x2000); nd_node 0x2000 := LH 0x8000 0x8000; nd_node demo_dev := LH 0 0]} in
  with_name (with_name (with_nlinks (demo_net [] []) links) 0x2000 [108; 111]) demo_dev [101; 116; 104; 48].

Lemma demo_registry_ok : registry 0x8000 demo_registry [0x2000].
Proof. split; [split|..]; [vm_compute; done|apply (bool_decide_unpack _); vm_compute; done..]. Qed.

Lemma register_netdev_names_witness :
  exists s' r, register_netdev 0x8000 (fun _ => NDO None None None) 4 demo_registry demo_dev = Some (s', r) /\
    registry 0x8000 s' (if decide (r = 0) then [0x2000; demo_dev] else [0x2000]) /\ dev_get_by_name 0x8000 4 s' (n_name s' 0x2000) = Some 0x2000.
Proof.
  destruct (register_netdev_names 0x8000 (fun _ => NDO None None None) 4 demo_registry demo_dev [0x2000] demo_registry_ok) as (s' & r & E & _ & Hr & _ & Hget & _);
    [simpl; lia|done|vm_compute; eauto|apply (bool_decide_unpack _); vm_compute; done|done|].
  exists s', r. split; [exact E|]. split; [exact Hr|]. apply Hget. case_decide; set_solver.
Defined.

End NetDev.
