(* ===== verification/Ip.v ===== *)
(** * The Internet protocols

    (src/kernel/net/ipv4/ip.c, udp.c, icmp.c, arp.c, tcp.c, dhcp.c and their
    headers under include/net.)

    Headers are bytes of the packet.  A header whose address the code got from a
    failed [skb_push] is at address 0, which it writes through: [None].  Messages
    to the console are left out. *)
From S2P Require Import Prelude Memory CString Wire Allocator ListHead Store SortedQueue Spinlock Heap Skb NetDev.
Import CString Wire ListHead Skb NetDev.

Module Ip.

Definition IPPROTO_ICMP : Z := 1.
Definition IPPROTO_TCP : Z := 6.
Definition IPPROTO_UDP : Z := 17.
Definition ICMP_ECHOREPLY : Z := 0.
Definition ICMP_ECHO : Z := 8.
Definition ARPHRD_ETHER : Z := 1.
Definition ARPOP_REQUEST : Z := 1.
Definition ARPOP_REPLY : Z := 2.
Definition sizeof_iphdr : Z := 20.
Definition sizeof_udphdr : Z := 8.
Definition sizeof_tcphdr : Z := 20.
Definition sizeof_etharp_hdr : Z := 28.
Definition sizeof_ethhdr : Z := 14.
Definition sizeof_dhcp_packet : Z := 548.

(** Members of [struct iphdr]; [version] and [ihl] share the first byte. *)
Definition iph_tos (iph : Z) : Z := iph + 1.
Definition iph_tot_len (iph : Z) : Z := iph + 2.
Definition iph_id (iph : Z) : Z := iph + 4.
Definition iph_frag_off (iph : Z) : Z := iph + 6.
Definition iph_ttl (iph : Z) : Z := iph + 8.
Definition iph_protocol (iph : Z) : Z := iph + 9.
Definition iph_check (iph : Z) : Z := iph + 10.
Definition iph_saddr (iph : Z) : Z := iph + 12.
Definition iph_daddr (iph : Z) : Z := iph + 16.
Definition get_version (m : mem) (iph : Z) : Z := load8 m iph .>> 4.
Definition set_version (m : mem) (iph v : Z) : mem := store8 m iph ((load8 m iph .& 0x0F) .| (v .<< 4)).
Definition set_ihl (m : mem) (iph v : Z) : mem := store8 m iph ((load8 m iph .& 0xF0) .| v).

(** Members of [struct udphdr], [struct icmphdr], [struct etharp_hdr]. *)
Definition uh_source (uh : Z) : Z := uh.
Definition uh_dest (uh : Z) : Z := uh + 2.
Definition uh_len (uh : Z) : Z := uh + 4.
Definition uh_check (uh : Z) : Z := uh + 6.
Definition icmp_type (icmph : Z) : Z := icmph.
Definition icmp_checksum (icmph : Z) : Z := icmph + 2.
Definition ar_hrd (arp : Z) : Z := arp.
Definition ar_pro (arp : Z) : Z := arp + 2.
Definition ar_op (arp : Z) : Z := arp + 6.
Definition ar_sha (arp : Z) : Z := arp + 8.
Definition ar_sip (arp : Z) : Z := arp + 14.
Definition ar_tha (arp : Z) : Z := arp + 18.
Definition ar_tip (arp : Z) : Z := arp + 24.

(** Members of [struct dhcp_packet]. *)
Definition dp_op (p : Z) : Z := p.
Definition dp_htype (p : Z) : Z := p + 1.
Definition dp_hlen (p : Z) : Z := p + 2.
Definition dp_xid (p : Z) : Z := p + 4.
Definition dp_flags (p : Z) : Z := p + 10.
Definition dp_yiaddr (p : Z) : Z := p + 16.
Definition dp_chaddr (p : Z) : Z := p + 28.
Definition dp_cookie (p : Z) : Z := p + 236.
Definition dp_options (p : Z) : Z := p + 240.

Section ip.
Context {A : Type} `{Allocator A}.
Context (net_devices ptype_base : Z).
Notation net := (net (A := A)).
Notation net_device_ops := (net_device_ops (A := A)).

Section handlers.
(** The operations of the drivers. *)
Variable ops : Z -> net_device_ops.

(** ** Sending *)

(** The writes of [ip_send_packet] to the IP header. *)
Definition write_iphdr (m : mem) (iph len protocol saddr daddr : Z) : mem :=
  let m := memset m iph 0 sizeof_iphdr in
  let m := set_version m iph 4 in
  let m := set_ihl m iph 5 in
  let m := store8 m (iph_tos iph) 0 in
  let m := store16 m (iph_tot_len iph) (htons (u16 len)) in
  let m := store16 m (iph_id iph) (htons 1) in
  let m := store16 m (iph_frag_off iph) 0 in
  let m := store8 m (iph_ttl iph) 64 in
  let m := store8 m (iph_protocol iph) protocol in
  let m := store16 m (iph_check iph) 0 in
  let m := store32 m (iph_saddr iph) saddr in
  store32 m (iph_daddr iph) daddr.

(** Both branches on the destination write the broadcast address. *)
Definition write_ethhdr (m : mem) (eth dev : Z) : mem :=
  let m := store16 m (h_proto eth) (htons ETH_P_IP) in
  let m := memcpy m (h_source eth) (dev_addr dev) 6 in
  memset m (h_dest eth) 0xFF 6.

Definition ip_send_packet (s : net) (skb dest_ip protocol : Z) : option (net * Z) :=
  let dev := nget s skb sk_dev in
  if dev =? 0 then s ← kfree_skb s skb; Some (s, -1)
  else
    let '(s, iph) := skb_push s skb sizeof_iphdr in
    if iph =? 0 then None
    else
      let m := write_iphdr (n_mem s) iph (nget s skb sk_len) protocol (nget s dev nd_ip_addr) dest_ip in
      c ← ip_checksum m iph sizeof_iphdr;
      let s := with_nmem s (store16 m (iph_check iph) c) in
      let '(s, eth) := skb_push s skb sizeof_ethhdr in
      if eth =? 0 then None
      else dev_queue_xmit ops (with_nmem s (write_ethhdr (n_mem s) eth dev)) skb.

Definition write_udphdr (m : mem) (uh src_port dest_port len : Z) : mem :=
  let m := store16 m (uh_source uh) (htons src_port) in
  let m := store16 m (uh_dest uh) (htons dest_port) in
  let m := store16 m (uh_len uh) (htons (u16 (len + sizeof_udphdr))) in
  store16 m (uh_check uh) 0.

(** [len] is a [uint32_t], the ports are [uint16_t]. *)
Definition udp_send_packet (s : net) (dev dest_ip src_port dest_port data len : Z) : option (net * Z) :=
  '(s, skb) ← alloc_skb s (u32 (len + sizeof_udphdr + sizeof_iphdr + sizeof_ethhdr + 32));
  if skb =? 0 then Some (s, -1)
  else
    let s := nset s skb sk_dev dev in
    let s := skb_reserve s skb (sizeof_ethhdr + sizeof_iphdr + sizeof_udphdr) in
    let '(s, payload) := skb_put s skb len in
    if payload =? 0 then None
    else
      let s := with_nmem s (memcpy (n_mem s) payload data len) in
      let '(s, uh) := skb_push s skb sizeof_udphdr in
      if uh =? 0 then None
      else
        let s := with_nmem s (write_udphdr (n_mem s) uh src_port dest_port len) in
        ip_send_packet s skb dest_ip IPPROTO_UDP.

(** [packet] is the address of the local variable. *)
Definition dhcp_discover (s : net) (dev packet : Z) : option net :=
  let m := memset (n_mem s) packet 0 sizeof_dhcp_packet in
  let m := store8 m (dp_op packet) 1 in
  let m := store8 m (dp_htype packet) 1 in
  let m := store8 m (dp_hlen packet) 6 in
  let m := store32 m (dp_xid packet) (htonl 0x12345678) in
  let m := store16 m (dp_flags packet) (htons 0x8000) in
  let m := store32 m (dp_cookie packet) (htonl 0x63825363) in
  let m := memcpy m (dp_chaddr packet) (dev_addr dev) 6 in
  let '(m, _) := foldl (fun '(m, offset) v => (store8 m (dp_options packet + offset) v, offset + 1)) (m, 0)
                   [53; 1; 1; 55; 3; 1; 3; 6; 255] in
  '(s, _) ← udp_send_packet (with_nmem s m) dev 0xFFFFFFFF 68 67 packet sizeof_dhcp_packet;
  Some s.

(** ** Receiving *)

(** The writes of [icmp_reply], for a message of [count] bytes. *)
Definition write_echo_reply (m : mem) (iph icmph count : Z) : option mem :=
  let daddr := load32 m (iph_saddr iph) in
  let saddr := load32 m (iph_daddr iph) in
  let m := store32 m (iph_daddr iph) daddr in
  let m := store32 m (iph_saddr iph) saddr in
  let m := store8 m (icmp_type icmph) ICMP_ECHOREPLY in
  let m := store16 m (icmp_checksum icmph) 0 in
  c ← checksum m icmph count;
  let m := store16 m (icmp_checksum icmph) c in
  let m := store16 m (iph_check iph) 0 in
  c ← checksum m iph sizeof_iphdr;
  Some (store16 m (iph_check iph) c).

Definition icmp_reply (s : net) (skb icmph : Z) : option net :=
  let iph := nget s skb sk_network_header in
  m ← write_echo_reply (n_mem s) iph icmph (s32 (nget s skb sk_len - sizeof_iphdr));
  let s := with_nmem s m in
  let dev := nget s skb sk_dev in
  if dev =? 0 then kfree_skb s skb
  else if nget s dev nd_ops =? 0 then None
  else match ndo_start_xmit (ops (nget s dev nd_ops)) with
       | Some start_xmit => '(s, _) ← start_xmit s skb dev; Some s
       | None => kfree_skb s skb
       end.

Definition icmp_rcv (s : net) (skb : Z) : option net :=
  let icmph := nget s skb sk_data + sizeof_iphdr in
  if load8 (n_mem s) (icmp_type icmph) =? ICMP_ECHO then icmp_reply s skb icmph else kfree_skb s skb.

(** Both ways out of [tcp_rcv] free the packet. *)
Definition tcp_rcv (s : net) (skb : Z) : option net :=
  if nget s skb sk_len <? sizeof_iphdr + sizeof_tcphdr then kfree_skb s skb else kfree_skb s skb.

(** The loop over the options: index, mask, gateway, name server, message type. *)
Definition option_step (m : mem) (options : Z) : Z * Z * Z * Z * Z -> Z * Z * Z * Z * Z + Z * Z * Z * Z :=
  fun '(i, my_mask, my_gw, my_dns, msg_type) =>
    if i <? 308 then
      let opt := load8 m (options + i) in
      let i := i + 1 in
      if opt =? 255 then inr (my_mask, my_gw, my_dns, msg_type)
      else if opt =? 0 then inl (i, my_mask, my_gw, my_dns, msg_type)
      else
        let len := load8 m (options + i) in
        let i := i + 1 in
        let msg_type := if (opt =? 53) && (i <? 308) then load8 m (options + i) else msg_type in
        let my_mask := if (opt =? 1) && (i + 4 <=? 308) then load32 m (options + i) else my_mask in
        let my_gw := if (opt =? 3) && (i + 4 <=? 308) then load32 m (options + i) else my_gw in
        let my_dns := if (opt =? 6) && (i + 4 <=? 308) then load32 m (options + i) else my_dns in
        inl (i + len, my_mask, my_gw, my_dns, msg_type)
    else inr (my_mask, my_gw, my_dns, msg_type).

(** Each iteration advances the index, so 309 are enough. *)
Definition dhcp_input (s : net) (skb : Z) : option net :=
  let packet := nget s skb sk_data + sizeof_iphdr + sizeof_udphdr in
  let m := n_mem s in
  if negb (ntohl (load32 m (dp_cookie packet)) =? 0x63825363) then Some s
  else if negb (load8 m (dp_op packet) =? 2) then Some s
  else
    let dev := nget s skb sk_dev in
    '(my_mask, my_gw, my_dns, msg_type) ← loop 309 (option_step m (dp_options packet)) (0, 0, 0, 0, 0);
    if (msg_type =? 2) || (msg_type =? 5) then
      if dev =? 0 then None
      else
        let s := nset s dev nd_ip_addr (load32 m (dp_yiaddr packet)) in
        let s := nset s dev nd_netmask my_mask in
        let s := nset s dev nd_gateway my_gw in
        Some (nset s dev nd_dns my_dns)
    else Some s.

Definition udp_rcv (s : net) (skb : Z) : option net :=
  let uh := nget s skb sk_data + sizeof_iphdr in
  if nget s skb sk_len <? sizeof_iphdr + sizeof_udphdr then kfree_skb s skb
  else
    let dest_port := ntohs (load16 (n_mem s) (uh_dest uh)) in
    if dest_port =? 68 then dhcp_input s skb else kfree_skb s skb.

Definition ip_rcv (s : net) (skb : Z) : option (net * Z) :=
  let iph := nget s skb sk_data in
  s ← (if nget s skb sk_len <? sizeof_iphdr then kfree_skb s skb
       else if negb (get_version (n_mem s) iph =? 4) then kfree_skb s skb
       else
         let s := nset s skb sk_network_header (nget s skb sk_data) in
         let protocol := load8 (n_mem s) (iph_protocol iph) in
         if protocol =? IPPROTO_ICMP then icmp_rcv s skb
         else if protocol =? IPPROTO_UDP then udp_rcv s skb
         else if protocol =? IPPROTO_TCP then tcp_rcv s skb
         else kfree_skb s skb);
  Some (s, 0).

(** The writes of [arp_rcv] that turn a request into its reply. *)
Definition write_arp_reply (m : mem) (arp data dev ip_addr : Z) : mem :=
  let sender_ip := load32 m (ar_sip arp) in
  let m := store16 m (ar_op arp) (htons ARPOP_REPLY) in
  let m := memcpy m (ar_tha arp) (ar_sha arp) 6 in
  let m := store32 m (ar_tip arp) sender_ip in
  let m := memcpy m (ar_sha arp) (dev_addr dev) 6 in
  let m := store32 m (ar_sip arp) ip_addr in
  let eth := data - sizeof_ethhdr in
  let m := memcpy m (h_dest eth) (h_source eth) 6 in
  memcpy m (h_source eth) (dev_addr dev) 6.

Definition arp_rcv (s : net) (skb dev : Z) : option (net * Z) :=
  let arp := nget s skb sk_data in
  let m := n_mem s in
  let drop s := s ← kfree_skb s skb; Some (s, 0) in
  if nget s skb sk_len <? sizeof_etharp_hdr then drop s
  else if negb (load16 m (ar_hrd arp) =? htons ARPHRD_ETHER) then drop s
  else if negb (load16 m (ar_pro arp) =? htons ETH_P_IP) then drop s
  else
    let op := ntohs (load16 m (ar_op arp)) in
    if op =? ARPOP_REQUEST then
      if load32 m (ar_tip arp) =? nget s dev nd_ip_addr then
        let s := with_nmem s (write_arp_reply m arp (nget s skb sk_data) dev (nget s dev nd_ip_addr)) in
        if nget s dev nd_ops =? 0 then None
        else match ndo_start_xmit (ops (nget s dev nd_ops)) with
             | Some start_xmit => '(s, _) ← start_xmit s skb dev; Some (s, 0)
             | None => drop s
             end
      else drop s
    else drop s.

End handlers.

(** ** The stack put together *)

(** The two packet types and the handlers behind their pointers. *)
Context (ip_packet_type arp_packet_type ip_rcv_ptr arp_rcv_ptr loopback_ops : Z).

Definition handler (ops : Z -> net_device_ops) (fn : Z) (s : net) (skb dev pt : Z) : option (net * Z) :=
  if fn =? ip_rcv_ptr then ip_rcv ops s skb
  else if fn =? arp_rcv_ptr then arp_rcv ops s skb dev
  else None.

(** The operations behind a pointer: those of the loopback device, which receives
    what it sends through the handlers, and those of other drivers, given by
    [others].  [depth] bounds how often a packet can be sent from within its
    reception. *)
Fixpoint stack_ops (others : Z -> net_device_ops) (fuel depth : nat) (p : Z) : net_device_ops :=
  if p =? loopback_ops then
    NDO None None
      (Some (match depth with
             | O => fun _ _ _ => None
             | S depth => loopback_xmit ptype_base (handler (stack_ops others fuel depth)) fuel
             end))
  else others p.

(** [ip_init] and [arp_init] register the initialised packet types. *)
Definition ip_init (s : net) : option net :=
  dev_add_pack ptype_base (nset (nset s ip_packet_type pt_type 0x0008) ip_packet_type pt_func ip_rcv_ptr) ip_packet_type.
Definition arp_init (s : net) : option net :=
  dev_add_pack ptype_base (nset (nset s arp_packet_type pt_type 0x0608) arp_packet_type pt_func arp_rcv_ptr) arp_packet_type.

End ip.

(** ** The encodings of headers *)

Definition eth_header (mac : list Z) : list Z := replicate 6 255 ++ mac ++ [8; 0].
Definition ip_header (len protocol saddr daddr check : Z) : list Z :=
  [0x45; 0] ++ be16 len ++ [0; 1; 0; 0; 64; protocol] ++ le_bytes 2 check ++ le_bytes 4 saddr ++ le_bytes 4 daddr.
Definition udp_header (source dest len : Z) : list Z := be16 source ++ be16 dest ++ be16 len ++ [0; 0].

Lemma ip_header_length len p sa da c : length (ip_header len p sa da c) = 20%nat.
Proof. done. Qed.

Lemma be16_ok v : Forall (fun b => 0 <= b < 256) (be16 v).
Proof. unfold be16. repeat constructor; apply Z.mod_pos_bound; lia. Qed.

Lemma swap16 v : 0 <= v < 65536 -> u16 ((v .<< 8) .| (v .>> 8)) = v mod 256 * 256 + v / 256.
Proof.
  intros Hv. rewrite (Z.shiftr_div_pow2 v 8) by lia. change (2 ^ 8) with 256.
  assert (0 <= v / 256 < 256) by (split; [apply Z.div_pos|apply Z.div_lt_upper_bound]; lia).
  rewrite lor_shift_add by (change (2 ^ 8) with 256; lia). change (2 ^ 8) with 256. unfold u16.
  pose proof (Z.div_mod v 256). pose proof (Z.mod_pos_bound v 256).
  replace (v * 256 + v / 256) with (v mod 256 * 256 + v / 256 + v / 256 * 2 ^ 16) by lia. rewrite Z.mod_add, Z.mod_small; lia.
Qed.

Lemma htons_bytes v : 0 <= v < 65536 -> le_bytes 2 (htons v) = be16 v.
Proof.
  intros Hv. unfold htons. rewrite swap16 by done. cbn [le_bytes]. unfold be16.
  assert (0 <= v / 256 < 256) by (split; [apply Z.div_pos|apply Z.div_lt_upper_bound]; lia). pose proof (Z.mod_pos_bound v 256).
  rewrite Z.add_comm, Z.mod_add, Z.div_add by lia. rewrite (Z.div_small (v / 256)), Z.add_0_l by lia. by rewrite Z.mod_mod by lia.
Qed.

Lemma ntohs_be16 v : 0 <= v < 65536 -> ntohs (le_value (be16 v)) = v.
Proof.
  intros Hv. unfold ntohs, be16. cbn [le_value]. assert (0 <= v / 256 < 256) by (split; [apply Z.div_pos|apply Z.div_lt_upper_bound]; lia).
  pose proof (Z.mod_pos_bound v 256). rewrite (Z.mod_small (v / 256)) by lia. rewrite swap16 by lia.
  replace (v / 256 + 256 * (v mod 256 + 256 * 0)) with (v / 256 + v mod 256 * 256) by lia.
  rewrite Z.mod_add, Z.div_add, Z.mod_small, (Z.div_small (v / 256)) by lia. pose proof (Z.div_mod v 256). lia.
Qed.

Lemma ip_header_ok len p sa da c : 0 <= p < 256 -> Forall (fun b => 0 <= b < 256) (ip_header len p sa da c).
Proof. intros Hp. unfold ip_header. repeat (apply Forall_app; split); auto using be16_ok, le_bytes_ok; repeat constructor; lia. Qed.

Lemma udp_header_ok sp dp len : Forall (fun b => 0 <= b < 256) (udp_header sp dp len).
Proof. unfold udp_header. repeat (apply Forall_app; split); auto using be16_ok; repeat constructor; lia. Qed.

Lemma write_iphdr_poke m iph len p sa da :
  0 <= p < 256 -> write_iphdr m iph len p sa da =m= poke m iph (ip_header (u16 len) p sa da 0).
Proof.
  intros Hp. unfold write_iphdr, set_version, set_ihl. cbv zeta. set (m0 := memset m iph 0 sizeof_iphdr).
  assert (m0 =m= poke m iph (replicate 20 0)) as E0 by (apply memset_poke; unfold sizeof_iphdr; lia).
  assert (load8 m0 iph = 0) as -> by (unfold load8; rewrite (E0 iph); pose proof (poke_at m iph (replicate 20 0) 0 ltac:(simpl; lia)) as E; by rewrite Z.add_0_r in E).
  assert (forall v, load8 (store8 m0 iph v) iph = u8 v) as -> by (intros v; apply store8_same).
  change (0 .& 15 .| 4 .<< 4) with 0x40. change (u8 0x40 .& 240 .| 5) with 0x45.
  pose proof (Z.mod_pos_bound len (2 ^ 16)). fold (u16 len) in *.
  rewrite E0, !store32_poke, !store16_poke, !store8_poke.
  rewrite !htons_bytes by (change (2 ^ 16) with 65536 in *; lia). rewrite (poke_over (poke m iph (replicate 20 0))) by (simpl; lia).
  unfold iph_tos, iph_tot_len, iph_id, iph_frag_off, iph_ttl, iph_protocol, iph_check, iph_saddr, iph_daddr.
  do 9 rewrite poke_join by (simpl; lia). rewrite poke_over by (simpl; lia). rewrite (u8_small p) by done. done.
Qed.

Lemma write_udphdr_poke m uh sp dp len :
  0 <= sp < 65536 -> 0 <= dp < 65536 -> 0 <= len < 65528 ->
  write_udphdr m uh sp dp len =m= poke m uh (udp_header sp dp (len + 8)).
Proof.
  intros Hs Hd Hl. unfold write_udphdr, sizeof_udphdr. cbv zeta. rewrite u16_small by lia. rewrite !store16_poke. rewrite !htons_bytes by lia.
  unfold uh_source, uh_dest, uh_len, uh_check. do 3 rewrite poke_join by (simpl; lia). done.
Qed.

Lemma write_ethhdr_poke m eth dev :
  mem_ok m -> eth + 14 <= dev_addr dev \/ dev_addr dev + 6 <= eth ->
  write_ethhdr m eth dev =m= poke m eth (eth_header (bytes_at m (dev_addr dev) 6)).
Proof.
  intros Hm Hd. unfold write_ethhdr. cbv zeta. rewrite memset_poke by lia. unfold h_proto, h_source, h_dest, ETH_P_IP.
  rewrite memcpy_poke by (by apply store_le_ok || lia). change (Z.to_nat 6) with 6%nat.
  assert (bytes_at (store16 m (eth + 12) (htons 0x0800)) (dev_addr dev) 6 = bytes_at m (dev_addr dev) 6) as ->
    by (apply bytes_at_ext; intros i Hi; apply store_le_other; lia).
  rewrite store16_poke, htons_bytes by lia. rewrite (poke_prepend m (eth + 6)) by (rewrite bytes_at_length; lia).
  rewrite poke_prepend by (rewrite length_replicate; lia). done.
Qed.

(** The writes of the header with its checksum, and that the checksum verifies. *)
Lemma iphdr_checksum m iph len p sa da :
  mem_ok m -> 0 <= p < 256 ->
  exists c, ip_checksum (write_iphdr m iph len p sa da) iph sizeof_iphdr = Some c /\ 0 <= c < 65536 /\
    let m1 := store16 (write_iphdr m iph len p sa da) (iph_check iph) c in
    m1 =m= poke m iph (ip_header (u16 len) p sa da c) /\ mem_ok m1 /\ isum m1 iph sizeof_iphdr mod 65535 = 0 /\ oc16 (isum m1 iph sizeof_iphdr) = 65535.
Proof.
  intros Hm Hp. set (w := write_iphdr m iph len p sa da). pose proof (write_iphdr_poke m iph len p sa da Hp) as Ew. fold w in Ew.
  assert (mem_ok w) as Hw.
  { apply (mem_eq_ok (poke m iph (ip_header (u16 len) p sa da 0))); [by symmetry|]. apply poke_ok; [done|by apply ip_header_ok]. }
  rewrite ip_checksum_eq by (done || (unfold sizeof_iphdr; lia)). eexists. split; [done|].
  pose proof (oc16_range (isum w iph sizeof_iphdr)). split; [lia|]. intros m1.
  assert (load16 w (iph + 2 * 5) = 0) as H0.
  { unfold load16. rewrite load_le_value, (bytes_at_eq _ _ _ _ Ew).
    pose proof (bytes_at_poke m iph (ip_header (u16 len) p sa da 0)) as E. rewrite ip_header_length in E.
    apply (f_equal (fun l => take 2 (drop 10 l))) in E. rewrite bytes_at_drop, bytes_at_take in E by lia.
    replace (iph + 2 * 5) with (iph + Z.of_nat 10) by lia. rewrite E. done. }
  split.
  - unfold m1. set (c := 65535 - oc16 _). clearbody c. rewrite store16_poke, Ew. unfold ip_header.
    rewrite !(app_assoc _ (be16 _)), !(app_assoc _ [0; 1; 0; 0; 64; p]). by rewrite poke_mid by (done || (unfold iph_check; simpl; lia)).
  - split; [by apply store_le_ok|]. apply (checksum_sum_zero w iph sizeof_iphdr 5); [done|lia|unfold sizeof_iphdr; lia|done].
Qed.

(** ** Sending *)

Section sending.
Context {A : Type} `{Allocator A}.
Notation net := (net (A := A)).

Lemma nget_mem (s : net) m x f : nget (with_nmem s m) x f = nget s x f.
Proof. done. Qed.

Lemma skb_ok_mem (s : net) m skb : skb_ok s skb -> skb_ok (with_nmem s m) skb.
Proof. by intros []. Qed.

(** What a driver is given: the device [dev], and a buffer with the packet [p],
    which begins [n] bytes before the old data and leaves the rest of memory. *)
Record handed (s s1 : net) (skb dev n : Z) (p : list Z) : Prop := {
  hd_ok : skb_ok s1 skb;
  hd_heap : n_heap s1 = n_heap s;
  hd_links : n_links s1 = n_links s;
  hd_name : n_name s1 = n_name s;
  hd_mem_ok : mem_ok (n_mem s1);
  hd_packet : packet s1 skb = p;
  hd_data : nget s1 skb sk_data = nget s skb sk_data - n;
  hd_len : nget s1 skb sk_len = nget s skb sk_len + n;
  hd_skb : forall f, ~ (f = sk_data \/ f = sk_tail \/ f = sk_len) -> nget s1 skb f = nget s skb f;
  hd_dev : nget s1 skb sk_dev = dev;
  hd_mem : forall x, ~ nget s1 skb sk_data <= x < nget s skb sk_data -> n_mem s1 x = n_mem s x;
  hd_other : forall x f, x <> skb -> x <> dev \/ f <> nd_tx_packets /\ f <> nd_tx_bytes -> nget s1 x f = nget s x f;
  hd_tx_packets : nget s1 dev nd_tx_packets = u64 (nget s dev nd_tx_packets + 1);
  hd_tx_bytes : nget s1 dev nd_tx_bytes = u64 (nget s dev nd_tx_bytes + (nget s skb sk_len + n))
}.

Lemma ip_send_frame ops (s : net) skb dest proto dev xmit :
  a_wf (n_heap s) -> mem_ok (n_mem s) -> skb_ok s skb -> nget s skb sk_dev = dev -> dev <> 0 -> dev <> skb ->
  34 <= headroom s skb -> nget s skb sk_len + 20 < 65536 -> 0 <= proto < 256 ->
  nget s skb sk_end <= dev_addr dev \/ dev_addr dev + 6 <= nget s skb sk_head ->
  nget s dev nd_ops <> 0 -> ndo_start_xmit (ops (nget s dev nd_ops)) = Some xmit ->
  exists s1 c, ip_send_packet ops s skb dest proto = xmit s1 skb dev /\
    handed s s1 skb dev 34 (eth_header (bytes_at (n_mem s) (dev_addr dev) 6) ++
                            ip_header (nget s skb sk_len + 20) proto (nget s dev nd_ip_addr) dest c ++ packet s skb) /\
    ip_checksum (n_mem s1) (nget s1 skb sk_data + 14) sizeof_iphdr = Some 0.
Proof.
  intros Hwf Hm Hok Hdev Hd0 Hds Hroom Hlen Hp Hdis Hops Hx. unfold ip_send_packet. rewrite Hdev, (proj2 (Z.eqb_neq dev 0)) by done.
  pose proof (skb_bounds s skb Hwf Hok) as (_ & Hh0 & _). pose proof (so_order _ _ Hok) as [Ho _]. pose proof (so_len _ _ Hok) as Hl.
  destruct (skb_push_ok s skb 20 Hwf Hok ltac:(lia)) as (s1 & iph & Ep & (Em1 & El1 & En1 & Eh1 & Ef1) & Hok1 & Hr1 & _ & Ek1 & Ei & Ed1 & Ell1).
  change sizeof_iphdr with 20 at 1. rewrite Ep. unfold headroom in Hroom. rewrite (proj2 (Z.eqb_neq iph 0)) by lia.
  rewrite Em1, Ell1. rewrite (Ef1 dev nd_ip_addr) by (by left).
  destruct (iphdr_checksum (n_mem s) iph (nget s skb sk_len + 20) proto (nget s dev nd_ip_addr) dest Hm Hp) as (c & -> & Hc & Hw).
  set (m1 := store16 _ (iph_check iph) c) in *. destruct Hw as (Ew & Hm1 & Hz1 & Hz2). cbn [mbind option_bind]. rewrite u16_small in Ew by lia.
  destruct (skb_push_ok (with_nmem s1 m1) skb 14) as (s2 & eth & Ep2 & (Em2 & El2 & En2 & Eh2 & Ef2) & Hok2 & Hr2 & _ & Ek2 & Ee & Ed2 & Ell2);
    [by rewrite <- Eh1 in Hwf|by apply skb_ok_mem|unfold headroom in *; cbn [nget with_nmem n_st] in *; unfold nget in *; simpl; lia|].
  cbv zeta. fold m1. change sizeof_ethhdr with 14. rewrite Ep2. change (nget (with_nmem s1 m1) skb ?f) with (nget s1 skb f) in *. rewrite (proj2 (Z.eqb_neq eth 0)) by lia.
  assert (nget s1 skb sk_end = nget s skb sk_end /\ nget s1 skb sk_head = nget s skb sk_head) as [Ee1 Eh1'] by (split; apply Ef1; right; naive_solver).
  pose proof (so_order _ _ Hok) as [Ho1 Ho2].
  pose proof (write_ethhdr_poke m1 eth dev Hm1 ltac:(unfold dev_addr in *; lia)) as Et.
  set (m2 := write_ethhdr m1 eth dev) in *.
  assert (bytes_at m1 (dev_addr dev) 6 = bytes_at (n_mem s) (dev_addr dev) 6) as Ema.
  { rewrite (bytes_at_eq _ _ _ _ Ew). apply bytes_at_poke_other. rewrite ip_header_length. lia. }
  rewrite Ema in Et. unfold dev_queue_xmit. pose proof (skb_bounds s skb Hwf Hok) as (Hs0 & _). rewrite (proj2 (Z.eqb_neq skb 0)) by lia.
  rewrite Em2. cbn [with_nmem n_mem]. fold m2.
  rewrite !nget_mem.
  assert (forall x f, x <> skb \/ ~ (f = sk_data \/ f = sk_tail \/ f = sk_len) -> nget s2 x f = nget s x f) as Ef by (intros x f Hf; rewrite Ef2, <- Ef1 by done; done).
  rewrite (Ef skb sk_dev) by (right; naive_solver). rewrite Hdev, (Ef dev nd_ops) by (by left).
  rewrite (proj2 (Z.eqb_neq dev 0)), (proj2 (Z.eqb_neq (nget s dev nd_ops) 0)), Hx by done.
  eexists _, c. split; [done|]. set (s3 := count_packet _ _ _ _ _).
  assert (forall x f, x <> dev \/ f <> nd_tx_packets /\ f <> nd_tx_bytes -> nget s3 x f = nget s2 x f) as E3.
  { intros x f Hf. unfold s3, count_packet. rewrite !nget_nset_other by (destruct Hf as [?|[? ?]]; [by left|by right]). done. }
  assert (forall f, nget s3 skb f = nget s2 skb f) as E3s by (intros f; apply E3; by left).
  assert (m2 =m= poke (n_mem s) eth (eth_header (bytes_at (n_mem s) (dev_addr dev) 6) ++ ip_header (nget s skb sk_len + 20) proto (nget s dev nd_ip_addr) dest c)) as E2.
  { rewrite Et, Ew. apply poke_prepend. unfold eth_header. rewrite !length_app, bytes_at_length, length_replicate. simpl. lia. }
  assert (mem_ok m2) as Hm2.
  { apply (mem_eq_ok (poke m1 eth (eth_header (bytes_at (n_mem s) (dev_addr dev) 6)))); [by symmetry|]. apply poke_ok; [done|].
    unfold eth_header. repeat (apply Forall_app; split); [apply Forall_replicate; lia|by apply bytes_at_ok|repeat constructor; lia]. }
  set (hdr := eth_header _ ++ ip_header _ _ _ _ _) in *. assert (length hdr = 34%nat) as Eh.
  { unfold hdr, eth_header. rewrite !length_app, bytes_at_length, length_replicate, ip_header_length. done. }
  cbn [with_nmem n_links n_name n_heap] in El2, En2, Eh2. split.
  - constructor.
    + destruct Hok2. constructor; rewrite ?E3s; try done.
    + simpl. congruence.
    + simpl. congruence.
    + simpl. congruence.
    + done.
    + unfold packet. rewrite !E3s, Ed2, Ell2, Ell1. change (n_mem s3) with m2. rewrite app_assoc. fold hdr. rewrite (bytes_at_eq _ _ _ _ E2).
      replace (Z.to_nat (nget s skb sk_len + 20 + 14)) with (34 + Z.to_nat (nget s skb sk_len))%nat by lia.
      rewrite bytes_at_app. rewrite <- Eh at 1. rewrite bytes_at_poke, bytes_at_poke_other by lia. do 2 f_equal. lia.
    + rewrite E3s. lia.
    + rewrite E3s. lia.
    + intros f Hf. rewrite E3s, Ef; [done|by right].
    + rewrite E3s, Ef; [done|right; naive_solver].
    + intros x Hx'. change (n_mem s3) with m2. rewrite (E2 x). apply poke_other. rewrite E3s in Hx'. lia.
    + intros x f Hxs Hf. rewrite E3 by done. apply Ef. by left.
    + unfold s3, count_packet. rewrite nget_nset_field by discriminate. rewrite nget_nset_same. rewrite nget_mem, Ef by (by left). done.
    + unfold s3, count_packet. rewrite nget_nset_same, nget_nset_field by discriminate. rewrite nget_mem, Ef by (by left). do 2 f_equal. lia.
  - rewrite E3s, Ed2. change (n_mem s3) with m2. rewrite ip_checksum_eq by (done || (unfold sizeof_iphdr; lia)).
    replace (eth + 14) with iph by lia. assert (isum m2 iph sizeof_iphdr = isum m1 iph sizeof_iphdr) as ->.
    { apply isum_ext; [unfold sizeof_iphdr; lia|]. intros x Hx'. rewrite (Et x). apply poke_other. unfold eth_header. rewrite !length_app, bytes_at_length, length_replicate. simpl. lia. }
    by rewrite Hz2.
Qed.
(** A packet [p] for the device [dev], in a buffer of its own that the state [s]
    did not have. *)
Record sent (s s1 : net) (skb dev : Z) (p : list Z) : Prop := {
  st_ok : skb_ok s1 skb;
  st_wf : a_wf (n_heap s1);
  st_mem_ok : mem_ok (n_mem s1);
  st_packet : packet s1 skb = p;
  st_dev : nget s1 skb sk_dev = dev;
  st_links : n_links s1 = n_links s;
  st_name : n_name s1 = n_name s;
  st_new : (forall t, ~ a_live (n_heap s) skb t) /\ (forall t, ~ a_live (n_heap s) (nget s1 skb sk_head) t);
  st_live : exists t u, forall q v, a_live (n_heap s1) q v <-> (q = skb /\ v = t) \/ (q = nget s1 skb sk_head /\ v = u) \/ a_live (n_heap s) q v;
  st_mem : forall x, ~ nget s1 skb sk_head <= x < nget s1 skb sk_end -> n_mem s1 x = n_mem s x;
  st_from : exists size s0, alloc_skb s size = Some (s0, skb);
  st_other : forall x f, x <> skb -> x <> dev \/ f <> nd_tx_packets /\ f <> nd_tx_bytes -> nget s1 x f = nget s x f;
  st_tx_packets : nget s1 dev nd_tx_packets = u64 (nget s dev nd_tx_packets + 1);
  st_tx_bytes : nget s1 dev nd_tx_bytes = u64 (nget s dev nd_tx_bytes + Z.of_nat (length p))
}.

(** The bytes at [data] are not in the buffer that the next call allocates. *)
Definition clear_of_buffer (s : net) (size data len : Z) : Prop :=
  forall s1 skb, alloc_skb s size = Some (s1, skb) -> skb <> 0 -> data + len <= nget s1 skb sk_head \/ nget s1 skb sk_end <= data.

(** Bytes of a live block are. *)
Lemma live_clear s size data len q t :
  a_wf (n_heap s) -> 0 < size < 2 ^ 32 -> a_live (n_heap s) q t -> q <= data -> data + len <= q + t -> clear_of_buffer s size data len.
Proof.
  intros Hwf Hsz Hq Hd Hl s1 skb E Hne. destruct (alloc_skb_spec s size Hwf Hsz) as (s' & p & E' & Hwf' & _ & _ & _ & Hc).
  rewrite E in E'. injection E' as <- <-. destruct Hc as [[? _]|(_ & Hok & _ & _ & _ & _ & _ & _ & Hn & t1 & u & Hl1)]; [done|].
  destruct (so_head _ _ Hok) as (v & Hv & Hlv). assert (a_live (n_heap s1) q t) as Hq1 by (apply Hl1; auto).
  pose proof (so_end _ _ Hok). destruct (a_live_disjoint _ _ _ _ _ Hwf' Hq1 Hlv) as [[-> _]|[?|?]]; [by destruct (Hn t)|lia..].
Qed.

Lemma udp_frame ops (s : net) dev dest sp dp data len xmit t :
  a_wf (n_heap s) -> mem_ok (n_mem s) -> a_live (n_heap s) dev t -> sizeof_net_device <= t ->
  nget s dev nd_ops <> 0 -> ndo_start_xmit (ops (nget s dev nd_ops)) = Some xmit ->
  0 <= len <= 65507 -> 0 <= sp < 65536 -> 0 <= dp < 65536 -> clear_of_buffer s (len + 74) data len ->
  (skb_no_room s (len + 74) /\ exists s1, udp_send_packet ops s dev dest sp dp data len = Some (s1, -1) /\ n_mem s1 = n_mem s /\
     forall q v, a_live (n_heap s1) q v <-> a_live (n_heap s) q v) \/
  ~ skb_no_room s (len + 74) /\ exists s1 skb c, udp_send_packet ops s dev dest sp dp data len = xmit s1 skb dev /\
    sent s s1 skb dev (eth_header (bytes_at (n_mem s) (dev_addr dev) 6) ++
                       ip_header (len + 28) IPPROTO_UDP (nget s dev nd_ip_addr) dest c ++
                       udp_header sp dp (len + 8) ++ bytes_at (n_mem s) data (Z.to_nat len)) /\
    ip_checksum (n_mem s1) (nget s1 skb sk_data + 14) sizeof_iphdr = Some 0.
Proof.
  intros Hwf Hm Hdl Hdt Hops Hx Hlen Hsp Hdp Hdata. unfold udp_send_packet, sizeof_udphdr, sizeof_iphdr, sizeof_ethhdr.
  replace (len + 8 + 20 + 14 + 32) with (len + 74) by lia. rewrite u32_small by lia.
  destruct (alloc_skb_spec s (len + 74) Hwf ltac:(lia)) as (s1 & skb & Ea & Hwf1 & Em1 & El1 & En1 & Hc). rewrite Ea. cbn [mbind option_bind].
  destruct (Z.eqb_spec skb 0) as [->|Hs0].
  { left. split; [by apply (alloc_skb_room _ _ _ _ Ea)|]. destruct Hc as [(_ & _ & Hl)|(_ & Hok & _)]; [eauto|]. pose proof (skb_bounds _ _ Hwf1 Hok). lia. }
  destruct Hc as [[? _]|(Ekeep & Hok1 & Hh1 & Ht1 & Hl1 & Hz1 & _ & Hfresh & Hfreshh & tt & uu & Hlive)]; [done|]. right. split; [by rewrite <- (alloc_skb_room _ _ _ _ Ea)|].
  assert (dev <> skb) as Hds by (intros ->; by apply (Hfresh t)). pose proof (a_live_pos _ _ _ Hwf Hdl) as [Hd0 _].
  pose proof (skb_bounds _ _ Hwf1 Hok1) as (_ & Hhp & _). specialize (Hdata s1 skb Ea Hs0).
  set (s2 := nset s1 skb sk_dev dev). assert (skb_ok s2 skb) as Hok2 by (apply skb_ok_keep; [done|by right; left]).
  assert (forall f, f <> sk_dev -> nget s2 skb f = nget s1 skb f) as E2 by (intros f Hf; by apply nget_nset_field).
  pose proof (skb_reserve_ok s2 skb (14 + 20 + 8) Hwf1 Hok2) as Hres. unfold tailroom, headroom in *. rewrite !E2 in Hres by done. specialize (Hres ltac:(lia)).
  destruct Hres as ((Em3 & El3 & En3 & Eh3 & Ef3) & Hok3 & Hh3 & Ht3 & Ed3 & Etl3 & Ell3). set (s3 := skb_reserve _ _ _) in *.
  destruct (skb_put_ok s3 skb len) as (s4 & -> & (Em4 & El4 & En4 & Eh4 & Ef4) & Hok4 & Hh4 & Ht4 & Ek4 & Ed4 & Ell4);
    [by rewrite Eh3|done|unfold tailroom in *; lia|].
  pose proof (so_len _ _ Hok1) as Hsl1. pose proof (so_end _ _ Hok1) as Hse1. assert (nget s3 skb sk_tail = nget s1 skb sk_head + 42) as Etl by lia. unfold headroom, tailroom in *.
  rewrite (proj2 (Z.eqb_neq (nget s3 skb sk_tail) 0)) by lia. set (m5 := memcpy (n_mem s4) _ data len).
  change (n_mem s2) with (n_mem s1) in Em3. change (n_heap s2) with (n_heap s1) in Eh3. change (n_links s2) with (n_links s1) in El3. change (n_name s2) with (n_name s1) in En3.
  assert (n_mem s4 = n_mem s) as Em by congruence. assert (n_heap s4 = n_heap s1) as Eh by congruence.
  assert (forall x f, x <> skb \/ ~ (f = sk_data \/ f = sk_tail \/ f = sk_len \/ f = sk_dev) -> nget s4 x f = nget s1 x f) as Ef.
  { intros x f Hf. rewrite Ef4, Ef3 by (destruct Hf; [by left|right; tauto]). apply nget_nset_other. destruct Hf; [by left|right; tauto]. }
  assert (m5 =m= poke (n_mem s) (nget s1 skb sk_head + 42) (bytes_at (n_mem s) data (Z.to_nat len))) as E5.
  { unfold m5. rewrite Em, Etl. apply memcpy_poke; [done|lia|]. lia. }
  assert (mem_ok m5) as Hm5 by (apply (mem_eq_ok (poke (n_mem s) (nget s1 skb sk_head + 42) (bytes_at (n_mem s) data (Z.to_nat len)))); [by symmetry|apply poke_ok; [done|by apply bytes_at_ok]]).
  cbv zeta. destruct (skb_push_ok (with_nmem s4 m5) skb 8) as (s6 & uh & Ep6 & (Em6 & El6 & En6 & Eh6 & Ef6) & Hok6 & Hh6 & Ht6 & Ek6 & Eu & Ed6 & Ell6);
    [by cbn; rewrite Eh|by apply skb_ok_mem|unfold headroom; rewrite !nget_mem; lia|].
  unfold headroom, tailroom in *. rewrite !nget_mem in *. cbn [with_nmem n_mem n_links n_name n_heap] in Em6, El6, En6, Eh6.
  change (with_nmem s4 (memcpy (n_mem s4) (nget s3 skb sk_tail) data len)) with (with_nmem s4 m5). rewrite Ep6, (proj2 (Z.eqb_neq uh 0)), Em6 by lia.
  pose proof (write_udphdr_poke m5 uh sp dp len Hsp Hdp ltac:(lia)) as E7. set (m7 := write_udphdr m5 uh sp dp len) in *.
  assert (mem_ok m7) as Hm7 by (apply (mem_eq_ok (poke m5 uh (udp_header sp dp (len + 8)))); [by symmetry|apply poke_ok; [done|apply udp_header_ok]]).
  assert (forall x f, x <> skb \/ ~ (f = sk_data \/ f = sk_tail \/ f = sk_len \/ f = sk_dev) -> nget s6 x f = nget s1 x f) as Ef'.
  { intros x f Hf. rewrite Ef6 by (destruct Hf; [by left|right; tauto]). by apply Ef. }
  assert (nget s6 skb sk_dev = dev) as Edev.
  { rewrite Ef6, nget_mem, Ef4, Ef3 by (right; naive_solver). apply nget_nset_same. }
  assert (forall f, nget s6 dev f = nget s dev f) as Edf by (intros f; rewrite Ef' by (by left); by apply Ekeep).
  assert (nget s6 skb sk_end = nget s1 skb sk_end /\ nget s6 skb sk_head = nget s1 skb sk_head) as [Ee6 Ehd6] by (split; apply Ef'; right; naive_solver).
  assert (nget s1 skb sk_end <= dev_addr dev \/ dev_addr dev + 6 <= nget s1 skb sk_head) as Hdd.
  { unfold dev_addr, sizeof_net_device in *. destruct (so_head _ _ Hok1) as (v & Hv & Hlv). assert (a_live (n_heap s1) dev t) as Hq1 by (apply Hlive; auto).
    destruct (a_live_disjoint _ _ _ _ _ Hwf1 Hq1 Hlv) as [[-> _]|[?|?]]; [by destruct (Hfreshh t)|lia..]. }
  destruct (ip_send_frame ops (with_nmem s6 m7) skb dest IPPROTO_UDP dev xmit) as (s8 & c & Es & Hhd & Hck).
  - cbn. by rewrite Eh6, Eh.
  - done.
  - by apply skb_ok_mem.
  - done.
  - lia.
  - done.
  - unfold headroom. rewrite !nget_mem. lia.
  - rewrite nget_mem. lia.
  - unfold IPPROTO_UDP. lia.
  - rewrite !nget_mem, Ee6, Ehd6. done.
  - by rewrite nget_mem, Edf.
  - by rewrite nget_mem, Edf.
  - exists s8, skb, c. split; [exact Es|]. split; [|exact Hck]. clear Es Hck.
    assert (bytes_at m7 (dev_addr dev) 6 = bytes_at (n_mem s) (dev_addr dev) 6) as Emac.
    { rewrite (bytes_at_eq _ _ _ _ E7), bytes_at_poke_other by (simpl; lia). rewrite (bytes_at_eq _ _ _ _ E5). apply bytes_at_poke_other. rewrite bytes_at_length. lia. }
    assert (packet (with_nmem s6 m7) skb = udp_header sp dp (len + 8) ++ bytes_at (n_mem s) data (Z.to_nat len)) as Epk.
    { unfold packet. rewrite !nget_mem, Ed6, Ell6. cbn [with_nmem n_mem]. rewrite (bytes_at_eq _ _ _ _ E7).
      replace (Z.to_nat (nget s4 skb sk_len + 8)) with (8 + Z.to_nat len)%nat by lia. rewrite bytes_at_app. f_equal; [apply bytes_at_poke|].
      rewrite bytes_at_poke_other by (simpl; lia). replace (uh + Z.of_nat 8) with (nget s1 skb sk_head + 42) by lia.
      rewrite (bytes_at_eq _ _ _ _ E5). pose proof (bytes_at_poke (n_mem s) (nget s1 skb sk_head + 42) (bytes_at (n_mem s) data (Z.to_nat len))) as E.
      by rewrite bytes_at_length in E. }
    destruct Hhd as [H1 H2 H3 H4 H5 H6 H7 H8 H9 H10 H11 H12 H13 H14]. cbn [with_nmem n_mem n_links n_name n_heap] in *. rewrite !nget_mem in *.
    rewrite Epk, Emac, Edf in H6. replace (nget s6 skb sk_len + 20) with (len + 28) in H6 by lia.
    assert (nget s8 skb sk_end = nget s1 skb sk_end /\ nget s8 skb sk_head = nget s1 skb sk_head) as [Ee8 Eh8].
    { split; rewrite H9, nget_mem by naive_solver; done. }
    constructor; try done.
    + by rewrite H2, Eh6, Eh.
    + congruence.
    + congruence.
    + rewrite Eh8. done.
    + exists tt, uu. intros q v. by rewrite H2, Eh6, Eh, Eh8, Hlive.
    + intros x Hx'. rewrite H11 by lia. rewrite (E7 x), poke_other, (E5 x), poke_other by (rewrite ?bytes_at_length; simpl; lia). done.
    + by exists (len + 74), s1.
    + intros x f Hxl Hf. rewrite H12, nget_mem, Ef' by (done || by left). by apply Ekeep.
    + by rewrite H13, Edf.
    + rewrite H14, Edf. do 2 f_equal. rewrite !length_app, !bytes_at_length, ip_header_length. unfold eth_header. rewrite !length_app, length_replicate, bytes_at_length. simpl. lia.
Qed.
End sending.

(** ** Receiving *)

Section receiving.
Context {A : Type} `{Allocator A}.
Notation net := (net (A := A)).

(** A UDP packet goes to [udp_rcv]. *)
Lemma ip_rcv_udp ops (s : net) skb L sa da c sp dp n payload :
  packet s skb = ip_header L IPPROTO_UDP sa da c ++ udp_header sp dp n ++ payload ->
  ip_rcv ops s skb = s1 ← udp_rcv (nset s skb sk_network_header (nget s skb sk_data)) skb; Some (s1, 0).
Proof.
  intros Hp. pose proof (packet_length s skb) as Hl. rewrite Hp, !length_app, ip_header_length in Hl. change (length (udp_header sp dp n)) with 8%nat in Hl.
  unfold ip_rcv. change sizeof_iphdr with 20. rewrite (proj2 (Z.ltb_ge _ 20)) by lia.
  assert (forall (i : nat) b, (ip_header L IPPROTO_UDP sa da c ++ udp_header sp dp n ++ payload) !! i = Some b -> n_mem s (nget s skb sk_data + Z.of_nat i) = b) as Hat.
  { intros i b Hb. rewrite <- Hp in Hb. by apply packet_at. }
  pose proof (Hat 0%nat 0x45 eq_refl) as H0. pose proof (Hat 9%nat IPPROTO_UDP eq_refl) as H9. rewrite Z.add_0_r in H0. change (Z.of_nat 9) with 9 in H9.
  unfold get_version, load8, iph_protocol. rewrite H0. change (0x45 .>> 4 =? 4) with true. cbn [negb].
  change (n_mem (nset s skb sk_network_header (nget s skb sk_data))) with (n_mem s). rewrite H9. change (IPPROTO_UDP =? IPPROTO_ICMP) with false. change (IPPROTO_UDP =? IPPROTO_UDP) with true. done.
Qed.

(** Which gives those for port 68 to the DHCP client and drops the others. *)
Lemma udp_rcv_port (s : net) skb L sa da c sp dp n payload :
  packet s skb = ip_header L IPPROTO_UDP sa da c ++ udp_header sp dp n ++ payload -> 0 <= dp < 65536 ->
  udp_rcv s skb = if dp =? 68 then dhcp_input s skb else kfree_skb s skb.
Proof.
  intros Hp Hr. pose proof (packet_length s skb) as Hl. rewrite Hp, !length_app, ip_header_length in Hl. change (length (udp_header sp dp n)) with 8%nat in Hl.
  unfold udp_rcv, sizeof_iphdr, sizeof_udphdr. rewrite (proj2 (Z.ltb_ge _ (20 + 8))) by lia.
  pose proof (packet_load s skb 22 2) as Hld. rewrite Hp in Hld. unfold load16, uh_dest. replace (nget s skb sk_data + 20 + 2) with (nget s skb sk_data + Z.of_nat 22) by lia.
  rewrite Hld by (rewrite !length_app, ip_header_length; change (length (udp_header sp dp n)) with 8%nat; lia).
  change (le_value _) with (le_value (be16 dp)). by rewrite ntohs_be16.
Qed.

Lemma count_packet_keep (s : net) dev p b n x f : f <> p -> f <> b -> nget (count_packet s dev p b n) x f = nget s x f.
Proof. intros ? ?. unfold count_packet. by rewrite !nget_nset_other by (by right). Qed.

Lemma count_packet_addr (s : net) dev p b n x f : x <> dev -> nget (count_packet s dev p b n) x f = nget s x f.
Proof. intros ?. unfold count_packet. by rewrite !nget_nset_other by (by left). Qed.

Lemma count_packet_same (s : net) dev p b n : p <> b ->
  nget (count_packet s dev p b n) dev p = u64 (nget s dev p + 1) /\ nget (count_packet s dev p b n) dev b = u64 (nget s dev b + n).
Proof. intros Hpb. unfold count_packet. rewrite nget_nset_field, !nget_nset_same, nget_nset_field by done. done. Qed.

Lemma count_packet_ok (s : net) dev p b n skb : dev <> skb -> skb_ok s skb -> skb_ok (count_packet s dev p b n) skb.
Proof. intros Hd Hok. unfold count_packet. apply skb_ok_keep; [apply skb_ok_keep; [done|by left]|by left]. Qed.

End receiving.

(** ** Through the loopback device *)

Section loopback.
Context {A : Type} `{Allocator A}.
Context (ptype_base ip_packet_type ip_rcv_ptr arp_rcv_ptr loopback_ops : Z).
Notation net := (net (A := A)).
Notation stack_ops := (stack_ops ptype_base ip_rcv_ptr arp_rcv_ptr loopback_ops).

(** The registered packet types: [ip_packet_type] is the first that takes IP. *)
Record ptypes_ok (s : net) (fuel : nat) (pre post : list Z) : Prop := {
  pk_list : dlist (n_links s) ptype_base (pt_list <$> pre ++ ip_packet_type :: post);
  pk_fuel : (length pre < fuel)%nat;
  pk_pre : Forall (fun p => nget s p pt_type <> 8 /\ nget s p pt_type <> 0xFFFF) pre;
  pk_ip : nget s ip_packet_type pt_type = 8 /\ nget s ip_packet_type pt_func = ip_rcv_ptr
}.

Lemma ptypes_ok_keep (s s' : net) fuel pre post :
  ptypes_ok s fuel pre post -> n_links s' = n_links s ->
  (forall x f, x ∈ ip_packet_type :: pre -> f = pt_type \/ f = pt_func -> nget s' x f = nget s x f) -> ptypes_ok s' fuel pre post.
Proof.
  intros [H1 H2 H3 [H4 H5]] El Ef. split; [by rewrite El|done| |].
  - apply Forall_forall. intros x Hx. rewrite Forall_forall in H3. rewrite Ef by (auto; by right). by apply H3.
  - rewrite !Ef by (auto; by left). done.
Qed.

(** The reception of a UDP packet: it is counted and goes to [udp_rcv]. *)
Lemma netif_rx_udp others fuel depth (s : net) skb dev L sa da c sp dp n payload pre post :
  a_wf (n_heap s) -> skb_ok s skb -> nget s skb sk_dev = dev -> dev <> 0 -> dev <> skb -> nget s skb sk_protocol = 8 -> ptypes_ok s fuel pre post ->
  packet s skb = ip_header L IPPROTO_UDP sa da c ++ udp_header sp dp n ++ payload ->
  let s1 := nset (count_packet s dev nd_rx_packets nd_rx_bytes (nget s skb sk_len)) skb sk_network_header (nget s skb sk_data) in
  netif_rx ptype_base (handler ip_rcv_ptr arp_rcv_ptr (stack_ops others fuel depth)) fuel s skb = (s2 ← udp_rcv s1 skb; Some (s2, 0)) /\
  skb_ok s1 skb /\ packet s1 skb = packet s skb /\ forall f, f <> sk_network_header -> nget s1 skb f = nget s skb f.
Proof.
  intros Hwf Hok Hdev Hd0 Hds Hpr [Hdl Hfu Hpre [Hip Hfn]] Hp s1. pose proof (skb_bounds _ _ Hwf Hok) as (Hs0 & _).
  rewrite (netif_rx_dispatch ptype_base _ fuel s skb pre ip_packet_type post);
    [|lia|by rewrite Hdev|by rewrite Hdev|done|done|by rewrite Hpr|by rewrite Hpr]. rewrite Hdev, Hfn. unfold handler. rewrite Z.eqb_refl.
  set (s5 := count_packet s dev _ _ _) in *. assert (forall f, nget s5 skb f = nget s skb f) as E5 by (intros f; unfold s5; by rewrite count_packet_addr).
  assert (packet s5 skb = packet s skb) as Ep5 by (unfold packet; by rewrite !E5). rewrite Hp in Ep5.
  rewrite (ip_rcv_udp _ s5 skb _ _ _ _ _ _ _ _ Ep5), E5. fold s1.
  assert (forall f, f <> sk_network_header -> nget s1 skb f = nget s skb f) as E1 by (intros f Hf; unfold s1; by rewrite nget_nset_field, E5).
  split; [by destruct (udp_rcv s1 skb)|]. split; [apply skb_ok_keep; [by apply count_packet_ok|do 5 right; done]|]. split; [|done].
  unfold packet. rewrite !E1 by done. done.
Qed.

(** What the loopback device does with a packet it sends, before its reception. *)
Lemma loopback_strip func fuel (s1 : net) skb dev mac q :
  a_wf (n_heap s1) -> skb_ok s1 skb -> packet s1 skb = eth_header mac ++ q -> length mac = 6%nat -> dev <> skb ->
  exists s4, loopback_xmit ptype_base func fuel s1 skb dev = ('(s5, _) ← netif_rx ptype_base func fuel s4 skb; Some (s5, 0)) /\
    skb_ok s4 skb /\ packet s4 skb = q /\ nget s4 skb sk_dev = dev /\ nget s4 skb sk_protocol = 8 /\ nget s4 skb sk_head = nget s1 skb sk_head /\
    nget s4 skb sk_len = Z.of_nat (length q) /\
    n_mem s4 = n_mem s1 /\ n_links s4 = n_links s1 /\ n_heap s4 = n_heap s1 /\
    forall x f, x <> skb -> nget s4 x f = nget (count_packet s1 dev nd_tx_packets nd_tx_bytes (nget s1 skb sk_len)) x f.
Proof.
  intros Hwf Hok Hp Hmac Hds. unfold loopback_xmit. set (p := eth_header mac ++ q) in Hp.
  set (s2 := count_packet s1 dev _ _ _). pose proof (count_packet_ok s1 dev nd_tx_packets nd_tx_bytes (nget s1 skb sk_len) skb Hds Hok) as Hok2. fold s2 in Hok2.
  assert (packet s2 skb = p) as Ep2 by (rewrite <- Hp; unfold packet, s2; by rewrite !count_packet_addr).
  assert (length (eth_header mac) = 14%nat) as Eeth by (unfold eth_header; rewrite !length_app, length_replicate, Hmac; done).
  assert (length p = 14 + length q)%nat as Elen by (unfold p; rewrite length_app, Eeth; done).
  assert (nget s2 skb sk_len = Z.of_nat (length p)) as El2.
  { rewrite <- Ep2, packet_length. pose proof (so_len _ _ Hok2). pose proof (so_order _ _ Hok2). lia. }
  destruct (eth_type_trans_spec s2 skb dev) as (s3 & -> & (Em3 & Elk3 & _ & Eh3 & Ef3) & Hok3 & Ep3 & Edev3 & Ehd3 & Ell3);
    [done|done|unfold ETH_HLEN; lia|]. cbn [mbind option_bind]. rewrite Ep2 in *.
  assert (le_value (take 2 (drop 12 p)) = 8) as ->.
  { unfold p, eth_header. rewrite (app_assoc (replicate _ _)), <- (app_assoc _ [8; 0]). by rewrite drop_app_length' by (rewrite length_app, length_replicate; lia). }
  assert (drop 14 p = q) as Ed by (unfold p; by rewrite drop_app_length' by done).
  exists (nset s3 skb sk_protocol 8). split; [done|]. rewrite nget_nset_same.
  assert (forall f, f <> sk_protocol -> nget (nset s3 skb sk_protocol 8) skb f = nget s3 skb f) as E4 by (intros f Hf; by apply nget_nset_field). rewrite !E4 by done.
  split; [apply skb_ok_keep; [done|right; right; by left]|].
  split; [rewrite <- Ed, <- Ep3; unfold packet; by rewrite !E4 by done|].
  split; [done|]. split; [done|]. split; [rewrite Ehd3; unfold s2; by rewrite count_packet_addr|]. split; [lia|].
  split; [done|]. split; [done|]. split; [done|]. intros x f Hx. by rewrite nget_nset_addr, Ef3.
Qed.

(** The packet [p] for the device [dev] as [udp_rcv] is given it: in a buffer of
    its own, counted once as received (with its IP header) and twice as sent (with
    its Ethernet header). *)
Record delivered (s s5 : net) (skb dev : Z) (p : list Z) : Prop := {
  dl_ok : skb_ok s5 skb;
  dl_wf : a_wf (n_heap s5);
  dl_mem_ok : mem_ok (n_mem s5);
  dl_packet : packet s5 skb = p;
  dl_dev : nget s5 skb sk_dev = dev;
  dl_new : (forall t, ~ a_live (n_heap s) skb t) /\ (forall t, ~ a_live (n_heap s) (nget s5 skb sk_head) t);
  dl_live : exists t u, forall q v, a_live (n_heap s5) q v <-> (q = skb /\ v = t) \/ (q = nget s5 skb sk_head /\ v = u) \/ a_live (n_heap s) q v;
  dl_mem : forall q v x, a_live (n_heap s) q v -> q <= x < q + v -> n_mem s5 x = n_mem s x;
  dl_rx_packets : nget s5 dev nd_rx_packets = u64 (nget s dev nd_rx_packets + 1);
  dl_rx_bytes : nget s5 dev nd_rx_bytes = u64 (nget s dev nd_rx_bytes + Z.of_nat (length p));
  dl_tx_packets : nget s5 dev nd_tx_packets = u64 (u64 (nget s dev nd_tx_packets + 1) + 1);
  dl_tx_bytes : nget s5 dev nd_tx_bytes =
    u64 (u64 (nget s dev nd_tx_bytes + (14 + Z.of_nat (length p))) + (14 + Z.of_nat (length p)));
  dl_other : forall x f, x <> skb -> ~ (x = dev /\ (f = nd_rx_packets \/ f = nd_rx_bytes \/ f = nd_tx_packets \/ f = nd_tx_bytes)) ->
    nget s5 x f = nget s x f
}.

(** Sending through the loopback device is receiving. *)
Lemma loopback_delivers others fuel depth (s : net) dev dest sp dp data len t pre post :
  let ops := stack_ops others fuel (S depth) in
  a_wf (n_heap s) -> mem_ok (n_mem s) -> a_live (n_heap s) dev t -> sizeof_net_device <= t ->
  loopback_ops <> 0 -> nget s dev nd_ops = loopback_ops -> ptypes_ok s fuel pre post ->
  (forall size s0 skb, alloc_skb s size = Some (s0, skb) -> skb ∉ ip_packet_type :: pre) ->
  0 <= len <= 65507 -> 0 <= sp < 65536 -> 0 <= dp < 65536 -> clear_of_buffer s (len + 74) data len ->
  (skb_no_room s (len + 74) /\ exists s1, udp_send_packet ops s dev dest sp dp data len = Some (s1, -1) /\ n_mem s1 = n_mem s /\
     forall q v, a_live (n_heap s1) q v <-> a_live (n_heap s) q v) \/
  ~ skb_no_room s (len + 74) /\ exists s5 skb c,
    udp_send_packet ops s dev dest sp dp data len = (s6 ← udp_rcv s5 skb; Some (s6, 0)) /\
    delivered s s5 skb dev (ip_header (len + 28) IPPROTO_UDP (nget s dev nd_ip_addr) dest c ++
                            udp_header sp dp (len + 8) ++ bytes_at (n_mem s) data (Z.to_nat len)).
Proof.
  intros ops Hwf Hm Hdl Hdt Hl0 Hops Hpt Hstat Hlen Hsp Hdp Hdata.
  set (xmit := loopback_xmit ptype_base (handler ip_rcv_ptr arp_rcv_ptr (stack_ops others fuel depth)) fuel).
  assert (ndo_start_xmit (ops (nget s dev nd_ops)) = Some xmit) as Hx by (rewrite Hops; unfold ops; simpl; by rewrite Z.eqb_refl).
  destruct (udp_frame ops s dev dest sp dp data len xmit t Hwf Hm Hdl Hdt ltac:(by rewrite Hops) Hx Hlen Hsp Hdp Hdata)
    as [?|(Hroom & s1 & skb & c & -> & Hs & _)]; [by left|right]. split; [done|].
  set (p := ip_header _ _ _ _ c ++ _) in *.
  assert (dev <> skb) as Hds by (intros ->; by apply (proj1 (st_new _ _ _ _ _ Hs) t)). pose proof (a_live_pos _ _ _ Hwf Hdl) as [Hd0 _].
  destruct (st_from _ _ _ _ _ Hs) as (size & s0 & Ea). pose proof (Hstat _ _ _ Ea) as Hni.
  destruct (loopback_strip (handler ip_rcv_ptr arp_rcv_ptr (stack_ops others fuel depth)) fuel s1 skb dev _ p
    (st_wf _ _ _ _ _ Hs) (st_ok _ _ _ _ _ Hs) (st_packet _ _ _ _ _ Hs) (bytes_at_length _ _ _) Hds)
    as (s4 & Ex & Hok4 & Hp4 & Hdev4 & Hpr4 & Hhd4 & Hln4 & Em4 & El4 & Eh4 & Ef4). unfold xmit. rewrite Ex. clear Ex.
  assert (ptypes_ok s4 fuel pre post) as Hpt4.
  { apply (ptypes_ok_keep s); [done|rewrite El4; apply (st_links _ _ _ _ _ Hs)|]. intros x f Hxi Hf. assert (x <> skb) by set_solver.
    rewrite Ef4, count_packet_keep by (done || destruct Hf as [->| ->]; done). apply (st_other _ _ _ _ _ Hs); [done|]. right. destruct Hf as [->| ->]; done. }
  destruct (netif_rx_udp others fuel depth s4 skb dev _ _ _ _ _ _ _ _ pre post ltac:(rewrite Eh4; apply (st_wf _ _ _ _ _ Hs)) Hok4 Hdev4 ltac:(lia) Hds Hpr4 Hpt4 Hp4)
    as (-> & Hok5 & Hp5 & E5). set (s5 := nset (count_packet s4 _ _ _ _) _ _ _) in *.
  exists s5, skb, c. split; [by destruct (udp_rcv s5 skb)|].
  assert (length (eth_header (bytes_at (n_mem s) (dev_addr dev) 6) ++ p) = 14 + length p)%nat as Elen
    by (unfold eth_header; rewrite !length_app, length_replicate, bytes_at_length; done).
  assert (nget s1 skb sk_len = 14 + Z.of_nat (length p)) as Hl1.
  { pose proof (packet_length s1 skb) as Hpl. rewrite (st_packet _ _ _ _ _ Hs), Elen in Hpl.
    pose proof (so_len _ _ (st_ok _ _ _ _ _ Hs)). pose proof (so_order _ _ (st_ok _ _ _ _ _ Hs)). lia. }
  destruct (count_packet_same s4 dev nd_rx_packets nd_rx_bytes (nget s4 skb sk_len) ltac:(done)) as [Er1 Er2].
  destruct (count_packet_same s1 dev nd_tx_packets nd_tx_bytes (nget s1 skb sk_len) ltac:(done)) as [Et1 Et2].
  assert (nget s5 skb sk_head = nget s1 skb sk_head) as Eh5 by (rewrite E5, Hhd4 by done; done).
  assert (forall x f, x <> skb -> f <> nd_rx_packets -> f <> nd_rx_bytes -> nget s5 x f = nget (count_packet s1 dev nd_tx_packets nd_tx_bytes (nget s1 skb sk_len)) x f) as Ex5
    by (intros x f ? ? ?; unfold s5; by rewrite nget_nset_addr, count_packet_keep, Ef4).
  assert (forall f, f <> nd_tx_packets -> f <> nd_tx_bytes -> nget s4 dev f = nget s dev f) as Ed4.
  { intros f ? ?. rewrite Ef4, count_packet_keep by done. apply (st_other _ _ _ _ _ Hs); [done|by right]. }
  split.
  - done.
  - change (a_wf (n_heap s4)). rewrite Eh4. apply Hs.
  - change (mem_ok (n_mem s4)). rewrite Em4. apply Hs.
  - by rewrite Hp5.
  - by rewrite E5, Hdev4.
  - rewrite Eh5. apply Hs.
  - rewrite Eh5. change (n_heap s5) with (n_heap s4). rewrite Eh4. apply Hs.
  - intros q v x Hq Hxr. change (n_mem s5) with (n_mem s4). rewrite Em4. apply (st_mem _ _ _ _ _ Hs).
    destruct (so_head _ _ (st_ok _ _ _ _ _ Hs)) as (u & Hu & Hlu). pose proof (so_end _ _ (st_ok _ _ _ _ _ Hs)).
    assert (a_live (n_heap s1) q v) as Hq1 by (destruct (st_live _ _ _ _ _ Hs) as (t1 & u1 & ->); auto).
    destruct (a_live_disjoint _ _ _ _ _ (st_wf _ _ _ _ _ Hs) Hq1 Hlu) as [[-> _]|[?|?]]; [by destruct (proj2 (st_new _ _ _ _ _ Hs) v)|lia..].
  - unfold s5. rewrite nget_nset_addr, Er1, Ed4 by done. done.
  - unfold s5. rewrite nget_nset_addr, Er2, Ed4, Hln4 by done. done.
  - rewrite Ex5, Et1, (st_tx_packets _ _ _ _ _ Hs) by done. done.
  - rewrite Ex5, Et2, (st_tx_bytes _ _ _ _ _ Hs), Elen, Hl1 by done. by rewrite Nat2Z.inj_add.
  - intros x f Hxs Hf. destruct (decide (x = dev)) as [->|Hxd].
    + rewrite Ex5, count_packet_keep by naive_solver. apply (st_other _ _ _ _ _ Hs); [done|right; naive_solver].
    + unfold s5. rewrite nget_nset_addr, count_packet_addr, Ef4, count_packet_addr by done. apply (st_other _ _ _ _ _ Hs); [done|by left].
Qed.

End loopback.

(** ** DHCP *)

(** The DISCOVER message of a device with the address [mac]. *)
Definition discover_message (mac : list Z) : list Z :=
  [1; 1; 6; 0] ++ [0x12; 0x34; 0x56; 0x78] ++ [0; 0] ++ [0x80; 0] ++ replicate 16 0 ++ mac ++ replicate 202 0 ++
  [0x63; 0x82; 0x53; 0x63] ++ [53; 1; 1; 55; 3; 1; 3; 6; 255] ++ replicate 299 0.

Section dhcp.
Context {A : Type} `{Allocator A}.
Notation net := (net (A := A)).

Lemma poke_bytes l : forall m p offset,
  (foldl (fun '(m, offset) v => (store8 m (p + offset) v, offset + 1)) (m, offset) l).1 =m= poke m (p + offset) (u8 <$> l).
Proof.
  induction l as [|v l IH]; intros m p offset; simpl; [by rewrite poke_nil|].
  rewrite IH, store8_poke. rewrite poke_join by (simpl; lia). done.
Qed.

Lemma alloc_skb_mem (s : net) m size :
  alloc_skb (with_nmem s m) size = '(s1, skb) ← alloc_skb s size; Some (with_nmem s1 m, skb).
Proof.
  unfold alloc_skb. cbn [with_nmem n_heap]. destruct (a_alloc (n_heap s) sizeof_sk_buff) as [[h skb]|]; [|done]. cbn [mbind option_bind with_nheap clear_fields n_heap].
  destruct (skb =? 0); [done|]. destruct (a_alloc h size) as [[h2 p]|]; [|done]. cbn [mbind option_bind with_nheap nset n_heap].
  destruct (p =? 0); [|done]. by destruct (a_free h2 skb).
Qed.

Ltac splice_at m a b k := rewrite (poke_splice m a _ b _ k) by first [lia|vm_compute; lia].

(** The writes of [dhcp_discover] to its message. *)
Lemma discover_poke m packet mac :
  length mac = 6%nat ->
  let m1 := memset m packet 0 sizeof_dhcp_packet in
  let m2 := store32 (store16 (store32 (store8 (store8 (store8 m1 (dp_op packet) 1) (dp_htype packet) 1) (dp_hlen packet) 6) (dp_xid packet) (htonl 0x12345678))
              (dp_flags packet) (htons 0x8000)) (dp_cookie packet) (htonl 0x63825363) in
  poke (poke m2 (dp_chaddr packet) mac) (dp_options packet) [53; 1; 1; 55; 3; 1; 3; 6; 255] =m= poke m packet (discover_message mac).
Proof.
  intros Hmac m1 m2. destruct mac as [|a0 [|a1 [|a2 [|a3 [|a4 [|a5 [|]]]]]]]; try discriminate. unfold m2, m1.
  rewrite memset_poke by (unfold sizeof_dhcp_packet; lia). rewrite !store32_poke, !store16_poke, !store8_poke.
  unfold dp_op, dp_htype, dp_hlen, dp_xid, dp_flags, dp_cookie, dp_chaddr, dp_options.
  splice_at m packet packet 0%nat. splice_at m packet (packet + 1) 1%nat. splice_at m packet (packet + 2) 2%nat. splice_at m packet (packet + 4) 4%nat.
  splice_at m packet (packet + 10) 10%nat. splice_at m packet (packet + 236) 236%nat. splice_at m packet (packet + 28) 28%nat. splice_at m packet (packet + 240) 240%nat.
  match goal with |- poke _ _ ?l =m= poke _ _ ?l' => replace l with l' by (vm_compute; reflexivity) end. done.
Qed.

Lemma discover_ok mac : Forall (fun b => 0 <= b < 256) mac -> Forall (fun b => 0 <= b < 256) (discover_message mac).
Proof.
  intros Hm. unfold discover_message. repeat (apply Forall_app; split); try done; try (apply Forall_replicate; lia); repeat constructor; lia.
Qed.

Lemma discover_length mac : length mac = 6%nat -> length (discover_message mac) = 548%nat.
Proof. intros Hm. unfold discover_message. rewrite !length_app, Hm, !length_replicate. done. Qed.

(** [dhcp_discover] sends a DHCP DISCOVER message.  Unless there is no memory,
    the driver is given a buffer of its own with a broadcast Ethernet frame that
    contains an IP packet from the device's address to [255.255.255.255], whose
    header checksum verifies, with a UDP packet from port 68 to port 67 and the
    548 bytes of the message: the fixed members, the device's hardware address and
    the options for the message type and the requested parameters.  Memory outside
    that buffer and the local variable is unchanged. *)
Theorem dhcp_discover_frame ops (s : net) dev pkt xmit t :
  let mac := bytes_at (n_mem s) (dev_addr dev) 6 in
  a_wf (n_heap s) -> mem_ok (n_mem s) -> a_live (n_heap s) dev t -> sizeof_net_device <= t ->
  nget s dev nd_ops <> 0 -> ndo_start_xmit (ops (nget s dev nd_ops)) = Some xmit ->
  clear_of_buffer s (sizeof_dhcp_packet + 74) pkt sizeof_dhcp_packet -> pkt + sizeof_dhcp_packet <= dev \/ dev + t <= pkt ->
  (exists s1, dhcp_discover ops s dev pkt = Some s1 /\ forall q v, a_live (n_heap s1) q v <-> a_live (n_heap s) q v) \/
  exists s0 s1 skb c, dhcp_discover ops s dev pkt = ('(s2, _) ← xmit s1 skb dev; Some s2) /\
    n_heap s0 = n_heap s /\ (forall x, ~ pkt <= x < pkt + sizeof_dhcp_packet -> n_mem s0 x = n_mem s x) /\
    sent s0 s1 skb dev (eth_header mac ++ ip_header 576 IPPROTO_UDP (nget s dev nd_ip_addr) 0xFFFFFFFF c ++
                        udp_header 68 67 556 ++ discover_message mac) /\
    ip_checksum (n_mem s1) (nget s1 skb sk_data + 14) sizeof_iphdr = Some 0.
Proof.
  intros mac Hwf Hm Hdl Hdt Hops Hx Hclr Hdis. unfold dhcp_discover. assert (length mac = 6%nat) as Hmac by apply bytes_at_length.
  pose proof (bytes_at_ok (n_mem s) (dev_addr dev) 6 Hm) as Hmok. fold mac in Hmok.
  set (m2 := store32 _ (dp_cookie pkt) _). assert (mem_ok m2) as Hm2.
  { unfold m2, store32, store16. do 3 apply store_le_ok. do 3 apply store8_ok.
    apply (mem_eq_ok (poke (n_mem s) pkt (replicate (Z.to_nat sizeof_dhcp_packet) (u8 0)))); [symmetry; apply memset_poke; unfold sizeof_dhcp_packet; lia|].
    apply poke_ok; [done|]. apply Forall_replicate. vm_compute. split; discriminate || reflexivity. }
  destruct (foldl _ _ _) as [m3 off] eqn:Ef.
  assert (m3 =m= poke (n_mem s) pkt (discover_message mac)) as E3.
  { pose proof (poke_bytes [53; 1; 1; 55; 3; 1; 3; 6; 255] (memcpy m2 (dp_chaddr pkt) (dev_addr dev) 6) (dp_options pkt) 0) as E. rewrite Ef, Z.add_0_r in E. cbn [fst] in E.
    rewrite E, <- (discover_poke (n_mem s) pkt mac Hmac). fold m2.
    rewrite memcpy_poke by (done || lia || (unfold dp_chaddr, dev_addr, sizeof_dhcp_packet, sizeof_net_device in *; lia)).
    change (Z.to_nat 6) with 6%nat. assert (bytes_at m2 (dev_addr dev) 6 = mac) as ->; [|done].
    unfold mac. apply bytes_at_ext. intros i Hi. unfold m2, dev_addr, dp_cookie, dp_flags, dp_xid, dp_hlen, dp_htype, dp_op, sizeof_dhcp_packet, sizeof_net_device in *.
    unfold store32, store16. rewrite !store_le_other, !store8_other by lia. rewrite (memset_poke (n_mem s) pkt 0 548 ltac:(lia) _). apply poke_other. rewrite length_replicate. lia. }
  assert (mem_ok m3) as Hm3 by (apply (mem_eq_ok (poke (n_mem s) pkt (discover_message mac))); [by symmetry|apply poke_ok; [done|by apply discover_ok]]).
  assert (bytes_at m3 (dev_addr dev) 6 = mac) as Emac.
  { rewrite (bytes_at_eq _ _ _ _ E3). apply bytes_at_poke_other. rewrite discover_length by done. unfold dev_addr, sizeof_dhcp_packet, sizeof_net_device in *. lia. }
  destruct (udp_frame ops (with_nmem s m3) dev 0xFFFFFFFF 68 67 pkt sizeof_dhcp_packet xmit t) as [(_ & s1 & -> & _ & Hl)|(_ & s1 & skb & c & -> & Hs & Hc)];
    try (done || (unfold sizeof_dhcp_packet; lia)).
  - intros s1 skb E Hne. rewrite alloc_skb_mem in E. destruct (alloc_skb s _) as [[s1' skb']|] eqn:Ea; [|done]. injection E as <- <-. by apply (Hclr s1').
  - left. exists s1. split; [done|]. exact Hl.
  - right. exists (with_nmem s m3), s1, skb, c. split; [done|]. split; [done|].
    split; [intros x Hx'; cbn; rewrite (E3 x); apply poke_other; rewrite discover_length by done; unfold sizeof_dhcp_packet in *; lia|].
    split; [|done]. cbn [with_nmem n_mem] in Hs. rewrite Emac, (bytes_at_eq _ _ pkt _ E3) in Hs.
    change (Z.to_nat sizeof_dhcp_packet) with 548%nat in Hs. pose proof (bytes_at_poke (n_mem s) pkt (discover_message mac)) as Eb. rewrite discover_length in Eb by done. rewrite Eb in Hs. exact Hs.
Qed.

(** *** Options *)

(** A list of options (tag and value) as it is encoded, and what it means for the
    mask, the gateway, the name server and the message type. *)
Definition encode_option (o : Z * list Z) : list Z := fst o :: Z.of_nat (length (snd o)) :: snd o.
Definition encode_options (l : list (Z * list Z)) : list Z := concat (encode_option <$> l) ++ [255].
Definition apply_option (st : Z * Z * Z * Z) (o : Z * list Z) : Z * Z * Z * Z :=
  let '(mask, gw, dns, ty) := st in
  let v := le_value (take 4 (snd o)) in
  if fst o =? 53 then (mask, gw, dns, default 0 (head (snd o)))
  else if fst o =? 1 then (v, gw, dns, ty)
  else if fst o =? 3 then (mask, v, dns, ty)
  else if fst o =? 6 then (mask, gw, v, ty)
  else st.
Definition option_ok (o : Z * list Z) : Prop :=
  0 < fst o < 255 /\ (length (snd o) < 256)%nat /\ (fst o = 53 -> (1 <= length (snd o))%nat) /\
  (fst o = 1 \/ fst o = 3 \/ fst o = 6 -> (4 <= length (snd o))%nat).

Lemma bytes_at_split m a n l1 l2 :
  bytes_at m a n = l1 ++ l2 -> bytes_at m a (length l1) = l1 /\ bytes_at m (a + Z.of_nat (length l1)) (length l2) = l2.
Proof.
  intros E. assert (n = length l1 + length l2)%nat as -> by (rewrite <- length_app, <- E, bytes_at_length; done).
  rewrite bytes_at_app in E. apply app_inj_1 in E; [done|by rewrite bytes_at_length].
Qed.

Lemma option_loop m options l : forall fuel i mask gw dns ty n,
  Forall option_ok l -> bytes_at m (options + i) n = encode_options l -> 0 <= i -> i + Z.of_nat n <= 308 -> (length l < fuel)%nat ->
  loop fuel (option_step m options) (i, mask, gw, dns, ty) = Some (foldl apply_option (mask, gw, dns, ty) l).
Proof.
  induction l as [|[tag v] l IH]; intros [|fuel] i mask gw dns ty n Hok Hb Hi Hn Hf; try (simpl in Hf; lia); cbn [loop option_step].
  { assert (n = 1)%nat as -> by (apply (f_equal length) in Hb; by rewrite bytes_at_length in Hb).
    unfold bytes_at in Hb. simpl in Hb. rewrite Z.add_0_r in Hb. injection Hb as Hb. rewrite (proj2 (Z.ltb_lt i 308)) by lia. unfold load8. by rewrite Hb. }
  apply Forall_cons in Hok as [(Ht & Hl & H53 & H4) Hok]. cbn [fst snd] in *.
  assert (n = 2 + length v + length (encode_options l))%nat as En.
  { apply (f_equal length) in Hb. rewrite bytes_at_length in Hb. rewrite Hb. unfold encode_options. cbn [fmap list_fmap concat]. rewrite !length_app. cbn [encode_option fst snd length]. lia. }
  assert (encode_options ((tag, v) :: l) = [tag; Z.of_nat (length v)] ++ v ++ encode_options l) as Ee
    by (unfold encode_options; cbn [fmap list_fmap concat encode_option fst snd app]; by rewrite <- app_assoc).
  rewrite Ee in Hb. apply bytes_at_split in Hb as [Hb1 Hb2]. apply bytes_at_split in Hb2 as [Hbv Hbr]. cbn [length] in Hb1, Hbv, Hbr.
  unfold bytes_at in Hb1. cbn [seq fmap list_fmap] in Hb1. injection Hb1 as Hb0 Hb1. rewrite Z.add_0_r in Hb0.
  rewrite (proj2 (Z.ltb_lt i 308)) by lia. unfold load8. rewrite Hb0. replace (options + (i + 1)) with (options + i + Z.of_nat 1) by lia. rewrite Hb1.
  rewrite (proj2 (Z.eqb_neq tag 255)), (proj2 (Z.eqb_neq tag 0)) by lia. replace (i + 1 + 1) with (i + 2) by lia.
  replace (options + i + Z.of_nat 2) with (options + (i + 2)) in * by lia.
  rewrite (IH fuel _ _ _ _ _ (length (encode_options l))); [|done|replace (options + (i + 2 + _)) with (options + (i + 2) + Z.of_nat (length v)) by lia; done|lia|lia|simpl in Hf; lia].
  cbn [foldl]. do 2 f_equal. unfold apply_option. cbn [fst snd].
  assert ((4 <= length v)%nat -> load32 m (options + (i + 2)) = le_value (take 4 v)) as Hv4.
  { intros H4'. unfold load32. rewrite load_le_value. rewrite <- Hbv at 1. by rewrite bytes_at_take. }
  assert ((1 <= length v)%nat -> m (options + (i + 2)) = default 0 (head v)) as Hv1.
  { intros H1. rewrite <- Hbv. destruct v as [|b v]; [simpl in H1; lia|]. unfold bytes_at. cbn [length seq fmap list_fmap head default]. by rewrite Z.add_0_r. }
  destruct (Z.eqb_spec tag 53) as [->|]; [rewrite Hv1, (proj2 (Z.ltb_lt _ _)) by (auto; specialize (H53 eq_refl); lia); done|].
  destruct (Z.eqb_spec tag 1) as [->|]; [rewrite Hv4, (proj2 (Z.leb_le _ _)) by (auto; specialize (H4 (or_introl eq_refl)); lia); done|].
  destruct (Z.eqb_spec tag 3) as [->|]; [rewrite Hv4, (proj2 (Z.leb_le _ _)) by (auto; specialize (H4 (or_intror (or_introl eq_refl))); lia); done|].
  destruct (Z.eqb_spec tag 6) as [->|]; [rewrite Hv4, (proj2 (Z.leb_le _ _)) by (auto; specialize (H4 (or_intror (or_intror eq_refl))); lia); done|].
  done.
Qed.

Lemma option_loop_total m options st :
  mem_ok m -> 0 <= (fun '(i, _, _, _, _) => i) st -> exists r, loop 309 (option_step m options) st = Some r.
Proof.
  intros Hm Hst. destruct (loop_total (fun '(i, _, _, _, _) => 0 <= i) (fun '(i, _, _, _, _) => Z.to_nat (308 - i)) (fun _ => True) (option_step m options))
    with (fuel := 309%nat) (s := st) as (r & Hr & _); [|by destruct st as [[[[? ?] ?] ?] ?]| |by exists r].
  - intros [[[[i a] b] c] d] Hi. cbn [option_step]. destruct (Z.ltb_spec i 308); [|done]. destruct (_ =? 255); [done|].
    destruct (_ =? 0); [lia|]. unfold load8. pose proof (Hm (options + (i + 1))). lia.
  - destruct st as [[[[i a] b] c] d]. lia.
Qed.

Lemma encode_length l : (length l <= length (encode_options l))%nat.
Proof.
  unfold encode_options. rewrite length_app. induction l as [|o l IH]; [simpl; lia|]. cbn [fmap list_fmap concat]. rewrite length_app. unfold encode_option at 1. simpl length in *. lia.
Qed.

Lemma ntohl_cookie : ntohl (le_value [0x63; 0x82; 0x53; 0x63]) = 0x63825363.
Proof. reflexivity. Qed.

(** A reply with well-formed options is decoded. *)
Lemma dhcp_input_reply (s : net) skb hdr a ip b l pad mask gw dns ty :
  let dev := nget s skb sk_dev in
  dev <> 0 -> packet s skb = hdr ++ (2 :: a) ++ le_bytes 4 ip ++ b ++ [0x63; 0x82; 0x53; 0x63] ++ encode_options l ++ pad ->
  length hdr = 28%nat -> length a = 15%nat -> length b = 216%nat -> 0 <= ip < 2 ^ 32 ->
  Forall option_ok l -> (length (encode_options l) <= 308)%nat -> foldl apply_option (0, 0, 0, 0) l = (mask, gw, dns, ty) ->
  dhcp_input s skb = Some (if decide (ty = 2 \/ ty = 5)
                           then nset (nset (nset (nset s dev nd_ip_addr ip) dev nd_netmask mask) dev nd_gateway gw) dev nd_dns dns else s).
Proof.
  intros dev Hd Hp Hhdr Ha Hb Hip Hok Hlen Hfold. unfold dhcp_input. fold dev. set (P := nget s skb sk_data + sizeof_iphdr + sizeof_udphdr).
  assert (packet s skb = bytes_at (n_mem s) (nget s skb sk_data) (Z.to_nat (nget s skb sk_len))) as Epk by done. rewrite Hp in Epk. symmetry in Epk.
  apply bytes_at_split in Epk as [_ E]. rewrite Hhdr in E. replace (nget s skb sk_data + Z.of_nat 28) with P in E by (unfold P, sizeof_iphdr, sizeof_udphdr; lia).
  apply bytes_at_split in E as [E0 E]. cbn [length] in E0, E. rewrite Ha in E0, E. apply bytes_at_split in E as [E1 E]. rewrite le_bytes_length in E1, E.
  apply bytes_at_split in E as [_ E]. rewrite Hb in E. apply bytes_at_split in E as [E2 E]. cbn [length] in E2, E. apply bytes_at_split in E as [E3 _].
  replace (P + Z.of_nat 16 + Z.of_nat 4 + Z.of_nat 216) with (dp_cookie P) in * by (unfold dp_cookie; lia). replace (P + Z.of_nat 16) with (dp_yiaddr P) in E1 by (unfold dp_yiaddr; lia).
  replace (dp_cookie P + Z.of_nat 4) with (dp_options P + 0) in E3 by (unfold dp_cookie, dp_options; lia).
  unfold load32. rewrite !load_le_value, E2, ntohl_cookie, E1, le_value_bytes by (change (256 ^ Z.of_nat 4) with (2 ^ 32); lia). cbn [negb Z.eqb Pos.eqb].
  rewrite bytes_at_cons in E0. injection E0 as E0 _. unfold load8, dp_op. rewrite E0. change (negb (0x63825363 =? 0x63825363)) with false. cbn [negb Z.eqb Pos.eqb].
  rewrite (option_loop _ _ l 309 0 0 0 0 0 _ Hok E3) by (lia || (pose proof (encode_length l); lia)).
  rewrite Hfold. cbn [mbind option_bind]. rewrite (proj2 (Z.eqb_neq dev 0)) by done.
  destruct (Z.eqb_spec ty 2), (Z.eqb_spec ty 5); simpl; case_decide; tauto || done.
Qed.

(** C22: [dhcp_input] returns for every packet (the loop over the options ends
    whatever they contain) and leaves memory and the heap as they are, so the buffer
    it was given stays allocated.  A reply with well-formed options that fit is
    decoded: if the last message-type option says OFFER or ACK, the device gets the
    offered address and the last mask, gateway and name server among the options,
    otherwise it is left alone. *)
Theorem dhcp_input_binds (s : net) skb :
  let dev := nget s skb sk_dev in
  mem_ok (n_mem s) -> dev <> 0 ->
  (exists s', dhcp_input s skb = Some s' /\ n_mem s' = n_mem s /\ n_heap s' = n_heap s) /\
  forall hdr a ip b l pad mask gw dns ty,
    packet s skb = hdr ++ (2 :: a) ++ le_bytes 4 ip ++ b ++ [0x63; 0x82; 0x53; 0x63] ++ encode_options l ++ pad ->
    length hdr = 28%nat -> length a = 15%nat -> length b = 216%nat -> 0 <= ip < 2 ^ 32 ->
    Forall option_ok l -> (length (encode_options l) <= 308)%nat -> foldl apply_option (0, 0, 0, 0) l = (mask, gw, dns, ty) ->
    dhcp_input s skb = Some (if decide (ty = 2 \/ ty = 5)
                             then nset (nset (nset (nset s dev nd_ip_addr ip) dev nd_netmask mask) dev nd_gateway gw) dev nd_dns dns else s).
Proof.
  intros dev Hm Hd. split.
  { unfold dhcp_input. fold dev. set (P := nget s skb sk_data + sizeof_iphdr + sizeof_udphdr).
    destruct (option_loop_total (n_mem s) (dp_options P) (0, 0, 0, 0, 0) Hm ltac:(lia)) as ([[[mask gw] dns] ty] & ->). cbn [mbind option_bind].
    rewrite (proj2 (Z.eqb_neq dev 0)) by done. repeat case_match; eauto. }
  intros. by apply (dhcp_input_reply s skb hdr a _ b l pad).
Qed.

End dhcp.

(** ** A datagram and back *)

Section datagram.
Context {A : Type} `{Allocator A}.
Context (ptype_base ip_packet_type ip_rcv_ptr arp_rcv_ptr loopback_ops : Z).
Notation net := (net (A := A)).
Notation stack_ops := (stack_ops ptype_base ip_rcv_ptr arp_rcv_ptr loopback_ops).
Notation ptypes_ok := (ptypes_ok ptype_base ip_packet_type ip_rcv_ptr).

(** C20: a UDP packet sent through the loopback device comes back.  Exactly when
    the heap has no room for the packet [udp_send_packet] returns -1 and changes
    nothing.  Otherwise it returns 0 and amounts to a call of [udp_rcv] with the
    packet: the payload behind a UDP header with the ports and an IP header with
    the addresses, the Ethernet header stripped, counted once as received and twice
    as sent.  A packet for a port other than 68 is freed there, and every block that
    was allocated, and no other, still is, with its contents.  A DHCP reply sent to
    port 68 arrives at the client: the device has the address, mask, gateway and
    name server of the message, and the buffer stays allocated. *)
Theorem udp_loopback others fuel depth (s : net) dev dest sp dp data len t pre post :
  let ops := stack_ops others fuel (S depth) in
  let send := udp_send_packet ops s dev dest sp dp data len in
  let payload := bytes_at (n_mem s) data (Z.to_nat len) in
  a_wf (n_heap s) -> mem_ok (n_mem s) -> a_live (n_heap s) dev t -> sizeof_net_device <= t ->
  loopback_ops <> 0 -> nget s dev nd_ops = loopback_ops -> ptypes_ok s fuel pre post ->
  (forall size s0 skb, alloc_skb s size = Some (s0, skb) -> skb ∉ ip_packet_type :: pre) ->
  0 <= len <= 65507 -> 0 <= sp < 65536 -> 0 <= dp < 65536 -> clear_of_buffer s (len + 74) data len ->
  (skb_no_room s (len + 74) /\ exists s1, send = Some (s1, -1) /\ n_mem s1 = n_mem s /\
     forall q v, a_live (n_heap s1) q v <-> a_live (n_heap s) q v) \/
  ~ skb_no_room s (len + 74) /\ exists s5 skb c,
    send = (s6 ← udp_rcv s5 skb; Some (s6, 0)) /\
    delivered s s5 skb dev (ip_header (len + 28) IPPROTO_UDP (nget s dev nd_ip_addr) dest c ++ udp_header sp dp (len + 8) ++ payload) /\
    (dp <> 68 -> exists h, send = Some (with_nheap s5 h, 0) /\ forall q v, a_live h q v <-> a_live (n_heap s) q v) /\
    (dp = 68 -> forall a ip b l pad mask gw dns ty,
       payload = (2 :: a) ++ le_bytes 4 ip ++ b ++ [0x63; 0x82; 0x53; 0x63] ++ encode_options l ++ pad ->
       length a = 15%nat -> length b = 216%nat -> 0 <= ip < 2 ^ 32 -> Forall option_ok l -> (length (encode_options l) <= 308)%nat ->
       foldl apply_option (0, 0, 0, 0) l = (mask, gw, dns, ty) -> ty = 2 \/ ty = 5 ->
       exists s', send = Some (s', 0) /\ nget s' dev nd_ip_addr = ip /\ nget s' dev nd_netmask = mask /\
         nget s' dev nd_gateway = gw /\ nget s' dev nd_dns = dns /\ n_heap s' = n_heap s5 /\ n_mem s' = n_mem s5).
Proof.
  intros ops send payload Hwf Hm Hdl Hdt Hl0 Hops Hpt Hstat Hlen Hsp Hdp Hdata.
  destruct (loopback_delivers ptype_base ip_packet_type ip_rcv_ptr arp_rcv_ptr loopback_ops others fuel depth s dev dest sp dp data len t pre post
    Hwf Hm Hdl Hdt Hl0 Hops Hpt Hstat Hlen Hsp Hdp Hdata) as [?|(Hroom & s5 & skb & c & E & D)]; [by left|right].
  fold ops send in E. fold payload in D. split; [done|]. exists s5, skb, c. split; [done|]. split; [done|].
  pose proof (a_live_pos _ _ _ Hwf Hdl) as [Hd0 _]. rewrite E, (udp_rcv_port s5 skb _ _ _ _ _ _ _ _ (dl_packet _ _ _ _ _ D) Hdp). split.
  - intros Hne. rewrite (proj2 (Z.eqb_neq dp 68)) by done.
    destruct (kfree_skb_spec s5 skb (dl_wf _ _ _ _ _ D) (dl_ok _ _ _ _ _ D)) as (h & -> & _ & Hlh). exists h. split; [done|].
    destruct (dl_new _ _ _ _ _ D) as [Hn1 Hn2]. intros q v. rewrite Hlh. destruct (dl_live _ _ _ _ _ D) as (t1 & u1 & ->). split; [tauto|].
    intros Hq. split; [auto|]. split; intros ->; [by apply (Hn1 v)|by apply (Hn2 v)].
  - intros -> a ip b l pad mask gw dns ty Hpay Ha Hb Hip Hok Hle Hfold Hty. change (68 =? 68) with true. cbv iota.
    pose proof (dl_packet _ _ _ _ _ D) as Hp5. rewrite Hpay, app_assoc in Hp5.
    rewrite (dhcp_input_reply s5 skb _ a ip b l pad mask gw dns ty ltac:(rewrite (dl_dev _ _ _ _ _ D); lia) Hp5 ltac:(done) Ha Hb Hip Hok Hle Hfold).
    rewrite decide_True by done. cbn [mbind option_bind]. eexists. split; [done|]. rewrite (dl_dev _ _ _ _ _ D).
    split_and!; try done; repeat (rewrite nget_nset_same || rewrite nget_nset_field by done); done.
Qed.

End datagram.

(** ** ARP *)

(** An ARP packet for Ethernet and IP, from its parts as bytes. *)
Definition arp_packet (hln pln : Z) (op sha sip tha tip : list Z) : list Z := [0; 1; 8; 0; hln; pln] ++ op ++ sha ++ sip ++ tha ++ tip.

Section arp.
Context {A : Type} `{Allocator A}.
Notation net := (net (A := A)).

Lemma arp_reply_poke m arp dev ip hln pln sha sip tha tip d sr pr :
  let mac := bytes_at m (dev_addr dev) 6 in
  mem_ok m -> bytes_at m (arp - 14) 42 = (d ++ sr ++ pr) ++ arp_packet hln pln [0; 1] sha sip tha tip ->
  length d = 6%nat -> length sr = 6%nat -> length pr = 2%nat -> length sha = 6%nat -> length sip = 4%nat -> length tha = 6%nat -> length tip = 4%nat ->
  le_value tip = ip -> arp + 28 <= dev_addr dev \/ dev_addr dev + 6 <= arp - 14 ->
  edited m (arp - 14) 42 ((sr ++ mac ++ pr) ++ arp_packet hln pln [0; 2] mac tip sha sip) (write_arp_reply m arp arp dev ip).
Proof.
  intros mac Hm Hb Hd Hsr Hpr Hsha Hsip Htha Htip Hip Hdis. pose proof (edited_self m (arp - 14) 42 Hm) as H0. rewrite Hb in H0.
  pose proof (bytes_at_ok m (arp - 14) 42 Hm) as Hbo. rewrite Hb in Hbo. unfold arp_packet in Hbo. rewrite !Forall_app in Hbo. destruct Hbo as (_ & _ & _ & _ & Hbs & _ & Hbt).
  assert (load32 m (ar_sip arp) = le_value sip) as Esip.
  { unfold load32, ar_sip. rewrite load_le_value, (edited_read _ _ _ _ _ _ _ 28 H0) by lia. clear -Hd Hsr Hpr Hsha Hsip. f_equal. by explicit_lists. }
  unfold write_arp_reply, ar_op, ar_tha, ar_tip, ar_sha, h_dest, h_source, sizeof_ethhdr. rewrite Esip. clear Esip. unfold ar_sip.
  match goal with |- edited _ _ _ ?l ?M => eassert (edited m (arp - 14) 42 _ M) as HE end.
  { eapply (edited_copy_in _ _ _ _ _ _ _ _ 6 6); [|lia..]. eapply (edited_copy _ _ _ _ _ _ _ _ 6 0 6); [|lia..]. eapply (edited_store_le _ _ _ _ _ _ _ 4 28); [|lia..].
    eapply (edited_copy_in _ _ _ _ _ _ _ _ 6 22); [|lia..]. eapply (edited_store_le _ _ _ _ _ _ _ 4 38); [|lia..]. eapply (edited_copy _ _ _ _ _ _ _ _ 6 32 22); [|lia..].
    eapply (edited_store_le _ _ _ _ _ _ _ 2 20); [|lia..]. exact H0. }
  rewrite htons_bytes in HE by (unfold ARPOP_REPLY; lia). assert (le_bytes 4 (le_value sip) = sip) as E1 by (rewrite <- Hsip; by apply le_bytes_value).
  assert (le_bytes 4 ip = tip) as E2 by (rewrite <- Hip, <- Htip; by apply le_bytes_value). rewrite E1, E2 in HE. fold mac in HE.
  match type of HE with edited _ _ _ ?l' _ => match goal with |- edited _ _ _ ?l _ => replace l with l'; [exact HE|] end end.
  assert (length mac = 6%nat) as Hmac by apply bytes_at_length. clearbody mac. clear -Hd Hsr Hpr Hsha Hsip Htha Htip Hmac. by explicit_lists.
Qed.

(** An ARP request for the device's address is answered in place: the driver is
    given the same buffer, in which the packet has become the reply (the operation,
    the device's hardware address and the asked address as the sender, the old
    sender as the target), and the Ethernet header before it goes back to where it
    came from; no other byte changes.  The data of the buffer still begin at the ARP
    header, so the Ethernet header is not part of what the driver sends. *)
Theorem arp_reply_sent ops (s : net) skb dev xmit hln pln sha sip tha tip rest d sr pr :
  let mac := bytes_at (n_mem s) (dev_addr dev) 6 in
  let data := nget s skb sk_data in
  a_wf (n_heap s) -> mem_ok (n_mem s) -> skb_ok s skb ->
  packet s skb = arp_packet hln pln [0; 1] sha sip tha tip ++ rest -> bytes_at (n_mem s) (data - 14) 14 = d ++ sr ++ pr ->
  length d = 6%nat -> length sr = 6%nat -> length pr = 2%nat -> length sha = 6%nat -> length sip = 4%nat -> length tha = 6%nat -> length tip = 4%nat ->
  le_value tip = nget s dev nd_ip_addr -> data + 28 <= dev_addr dev \/ dev_addr dev + 6 <= data - 14 ->
  nget s dev nd_ops <> 0 -> ndo_start_xmit (ops (nget s dev nd_ops)) = Some xmit ->
  exists m, arp_rcv ops s skb dev = ('(s2, _) ← xmit (with_nmem s m) skb dev; Some (s2, 0)) /\
    packet (with_nmem s m) skb = arp_packet hln pln [0; 2] mac tip sha sip ++ rest /\
    bytes_at m (data - 14) 14 = sr ++ mac ++ pr /\ (forall x, x < data - 14 \/ data + 28 <= x -> m x = n_mem s x).
Proof.
  intros mac data Hwf Hm Hok Hp Hb Hd Hsr Hpr Hsha Hsip Htha Htip Hip Hdis Hops Hx.
  assert (length (arp_packet hln pln [0; 1] sha sip tha tip) = 28%nat) as Hlen by (unfold arp_packet; rewrite !length_app, Hsha, Hsip, Htha, Htip; done).
  assert (28 + length rest = Z.to_nat (nget s skb sk_len))%nat as Hl by (rewrite <- packet_length, Hp, length_app, Hlen; done).
  assert (bytes_at (n_mem s) data (28 + length rest) = arp_packet hln pln [0; 1] sha sip tha tip ++ rest) as Hp' by (rewrite Hl; exact Hp).
  rewrite bytes_at_app in Hp'. apply app_inj_1 in Hp' as [Hp1 Hp2]; [|by rewrite bytes_at_length].
  assert (bytes_at (n_mem s) (data - 14) 42 = (d ++ sr ++ pr) ++ arp_packet hln pln [0; 1] sha sip tha tip) as Hb42.
  { change 42%nat with (14 + 28)%nat. rewrite bytes_at_app, Hb. replace (data - 14 + Z.of_nat 14) with data by lia. by rewrite Hp1. }
  pose proof (arp_reply_poke _ _ _ _ _ _ _ _ _ _ _ _ _ Hm Hb42 Hd Hsr Hpr Hsha Hsip Htha Htip Hip Hdis) as HE. fold mac in HE.
  pose proof (edited_self (n_mem s) (data - 14) 42 Hm) as H0. rewrite Hb42 in H0.
  unfold arp_rcv. fold data. change sizeof_etharp_hdr with 28. rewrite (proj2 (Z.ltb_ge _ _)) by lia.
  assert (load16 (n_mem s) (ar_hrd data) = htons ARPHRD_ETHER /\ load16 (n_mem s) (ar_pro data) = htons ETH_P_IP /\
          load16 (n_mem s) (ar_op data) = htons ARPOP_REQUEST /\ load32 (n_mem s) (ar_tip data) = nget s dev nd_ip_addr) as (-> & -> & -> & ->).
  { unfold load16, load32, ar_hrd, ar_pro, ar_op, ar_tip. rewrite !load_le_value, <- Hip.
    rewrite (edited_read _ _ _ _ _ data 2 14 H0), (edited_read _ _ _ _ _ (data + 2) 2 16 H0), (edited_read _ _ _ _ _ (data + 6) 2 20 H0), (edited_read _ _ _ _ _ (data + 24) 4 38 H0) by lia.
    clear -Hd Hsr Hpr Hsha Hsip Htha Htip. explicit_lists. by split_and!. }
  rewrite !Z.eqb_refl. cbn [negb]. change (ntohs (htons ARPOP_REQUEST) =? ARPOP_REQUEST) with true. cbv iota.
  set (m := write_arp_reply _ _ _ _ _) in *. change (nget (with_nmem s m) dev nd_ops) with (nget s dev nd_ops). rewrite (proj2 (Z.eqb_neq _ _) Hops), Hx.
  exists m. split; [done|]. split; [|split].
  - unfold packet. change (nget (with_nmem s m) skb ?f) with (nget s skb f). rewrite <- Hl. fold data. cbn [with_nmem n_mem]. rewrite bytes_at_app. f_equal.
    + rewrite (edited_read _ _ _ _ _ data 28 14 HE) by lia. assert (length mac = 6%nat) as Hmac by apply bytes_at_length. clearbody mac.
      clear -Hsr Hpr Hsha Hsip Htip Hmac. by explicit_lists.
    + etransitivity; [|exact Hp2]. apply bytes_at_ext. intros i Hi. apply (edited_other _ _ _ _ _ _ HE). lia.
  - rewrite (edited_read _ _ _ _ _ (data - 14) 14 0 HE) by lia. assert (length mac = 6%nat) as Hmac by apply bytes_at_length. clearbody mac. clear -Hsr Hpr Hmac. by explicit_lists.
  - intros x Hx'. apply (edited_other _ _ _ _ _ _ HE). lia.
Qed.

End arp.

(** ** ICMP *)

Section icmp.
Context {A : Type} `{Allocator A}.
Notation net := (net (A := A)).

Lemma store16_zero_checksum m p len k :
  mem_ok m -> 0 <= k -> 2 * k + 2 <= len <= 131072 -> load16 m (p + 2 * k) = 0 ->
  exists c, checksum m p len = Some c /\ oc16 (isum (store16 m (p + 2 * k) c) p len) = 65535.
Proof.
  intros Hm Hk Hl H0. rewrite checksum_eq by (done || lia). eexists. split; [done|]. by apply checksum_sum_zero.
Qed.

Lemma load16_store16_0 m a b : b = a -> load16 (store16 m a 0) b = 0.
Proof. intros ->. unfold load16, store16. by rewrite load_store_le_same. Qed.

(** The edits of [icmp_reply] to the bytes of the packet. *)
Lemma echo_edits h ipck sa da code ck body c1 c2 :
  length h = 10%nat -> length ipck = 2%nat -> length sa = 4%nat -> length da = 4%nat -> length ck = 2%nat ->
  let L := h ++ ipck ++ sa ++ da ++ [ICMP_ECHO; code] ++ ck ++ body in
  let L4 := splice (splice (splice (splice L 16 sa) 12 da) 20 [u8 ICMP_ECHOREPLY]) 22 (le_bytes 2 0) in
  splice (splice (splice L4 22 (le_bytes 2 c1)) 10 (le_bytes 2 0)) 10 (le_bytes 2 c2) =
  h ++ le_bytes 2 c2 ++ da ++ sa ++ [ICMP_ECHOREPLY; code] ++ le_bytes 2 c1 ++ body.
Proof.
  intros Hh Hi Hs Hd Hc. cbv zeta. explicit_lists.
  reflexivity.
Qed.

Lemma echo_reads m data n h ipck sa da code ck body :
  edited m data n (h ++ ipck ++ sa ++ da ++ [ICMP_ECHO; code] ++ ck ++ body) m -> (24 <= n)%nat ->
  length h = 10%nat -> length ipck = 2%nat -> length sa = 4%nat -> length da = 4%nat ->
  load8 m (data + 20) = ICMP_ECHO /\ load32 m (data + 12) = le_value sa /\ load32 m (data + 16) = le_value da.
Proof.
  intros H0 Hn Hh Hi Hs Hd. unfold load32. rewrite !load_le_value, (edited_read _ _ _ _ _ (data + 12) 4 12 H0), (edited_read _ _ _ _ _ (data + 16) 4 16 H0) by lia.
  pose proof (edited_read _ _ _ _ _ (data + 20) 1 20 H0 ltac:(lia) ltac:(lia)) as E. unfold bytes_at in E. cbn [seq fmap list_fmap] in E. rewrite Z.add_0_r in E.
  clear -E Hh Hi Hs Hd. explicit_lists. by injection E as E.
Qed.

Lemma bind_Some_eq {X Y} (f : X -> option Y) x : (Some x ≫= f) = f x.
Proof. done. Qed.

Lemma echo_reply_mem m data h ipck sa da code ck body :
  let len := 24 + Z.of_nat (length body) in
  let n := (24 + length body)%nat in
  mem_ok m -> bytes_at m data n = h ++ ipck ++ sa ++ da ++ [ICMP_ECHO; code] ++ ck ++ body ->
  length h = 10%nat -> length ipck = 2%nat -> length sa = 4%nat -> length da = 4%nat -> length ck = 2%nat -> len <= 65535 ->
  load8 m (data + 20) = ICMP_ECHO /\
  exists m' c1 c2, write_echo_reply m data (data + 20) (len - 20) = Some m' /\
    edited m data n (h ++ le_bytes 2 c2 ++ da ++ sa ++ [ICMP_ECHOREPLY; code] ++ le_bytes 2 c1 ++ body) m' /\
    oc16 (isum m' data 20) = 65535 /\ oc16 (isum m' (data + 20) (len - 20)) = 65535.
Proof.
  intros len n Hm Hb Hh Hipck Hsa Hda Hck Hlen. pose proof (edited_self m data n Hm) as H0. rewrite Hb in H0.
  pose proof (bytes_at_ok m data n Hm) as Hbo. rewrite Hb, !Forall_app in Hbo. destruct Hbo as (_ & _ & Hbs & Hbd & _).
  destruct (echo_reads m data n h ipck sa da code ck body H0 ltac:(lia) Hh Hipck Hsa Hda) as (E8 & Esa & Eda).
  split; [done|]. unfold write_echo_reply, iph_saddr, iph_daddr, iph_check, icmp_type, icmp_checksum. change sizeof_iphdr with 20. rewrite Esa, Eda.
  assert (le_bytes 4 (le_value sa) = sa) as Eb1 by (rewrite <- Hsa; by apply le_bytes_value).
  assert (le_bytes 4 (le_value da) = da) as Eb2 by (rewrite <- Hda; by apply le_bytes_value).
  set (m4 := store16 (store8 _ _ _) (data + 20 + 2) 0). eassert (edited m data n _ m4) as H4.
  { eapply (edited_store_le _ _ _ _ _ _ _ 2 22); [|lia..]. eapply (edited_store8 _ _ _ _ _ _ _ 20); [|lia..]. eapply (edited_store_le _ _ _ _ _ _ _ 4 12); [|lia..].
    eapply (edited_store_le _ _ _ _ _ _ _ 4 16); [|lia..]. exact H0. }
  rewrite Eb1, Eb2 in H4. assert (load16 m4 (data + 20 + 2 * 1) = 0) as Hz4 by (apply load16_store16_0; lia). clearbody m4.
  destruct (store16_zero_checksum m4 (data + 20) (len - 20) 1 (proj1 (proj2 H4)) ltac:(lia) ltac:(unfold len; lia) Hz4) as (c1 & -> & Hz1). rewrite bind_Some_eq.
  replace (data + 20 + 2 * 1) with (data + 20 + 2) in Hz1 by lia.
  set (m5 := store16 m4 (data + 20 + 2) c1) in *. assert (edited m data n _ m5) as H5 by (eapply (edited_store_le _ _ _ _ _ _ _ 2 22); [exact H4|lia..]). clearbody m5.
  set (m6 := store16 m5 (data + 10) 0). assert (edited m data n _ m6) as H6 by (eapply (edited_store_le _ _ _ _ _ _ _ 2 10); [exact H5|lia..]).
  assert (load16 m6 (data + 2 * 5) = 0) as Hz6 by (apply load16_store16_0; lia).
  destruct (store16_zero_checksum m6 data 20 5 (proj1 (proj2 H6)) ltac:(lia) ltac:(lia) Hz6) as (c2 & -> & Hz2). rewrite bind_Some_eq.
  replace (data + 2 * 5) with (data + 10) in Hz2 by lia. eexists _, c1, c2. split; [done|]. split; [|split; [done|]].
  - rewrite <- (echo_edits h ipck sa da code ck body c1 c2) by done. eapply (edited_store_le _ _ _ _ _ _ _ 2 10); [exact H6|lia..].
  - rewrite <- Hz1. f_equal. apply isum_ext; [unfold len; lia|]. intros x Hx. unfold m6, store16. by rewrite !store_le_other by lia.
Qed.

(** C21: an ICMP echo request is answered in place: the driver is given the same
    buffer, in which the source and destination addresses are exchanged, the type is
    that of the reply, and the rest of the message is as it was; the checksum of the
    ICMP message and that of the IP header verify, and no byte outside the packet
    changes.  The data of the buffer still begin at the IP header, so the frame has
    no Ethernet header. *)
Theorem icmp_echo_reply ops (s : net) skb dev xmit h ipck sa da code ck body :
  let data := nget s skb sk_data in
  let len := 24 + Z.of_nat (length body) in
  mem_ok (n_mem s) -> packet s skb = h ++ ipck ++ sa ++ da ++ [ICMP_ECHO; code] ++ ck ++ body ->
  length h = 10%nat -> length ipck = 2%nat -> length sa = 4%nat -> length da = 4%nat -> length ck = 2%nat -> len <= 65535 ->
  nget s skb sk_len = len -> nget s skb sk_network_header = data ->
  nget s skb sk_dev = dev -> dev <> 0 -> nget s dev nd_ops <> 0 -> ndo_start_xmit (ops (nget s dev nd_ops)) = Some xmit ->
  exists m c1 c2, icmp_rcv ops s skb = ('(s2, _) ← xmit (with_nmem s m) skb dev; Some s2) /\
    packet (with_nmem s m) skb = h ++ le_bytes 2 c2 ++ da ++ sa ++ [ICMP_ECHOREPLY; code] ++ le_bytes 2 c1 ++ body /\
    checksum m data sizeof_iphdr = Some 0 /\ checksum m (data + sizeof_iphdr) (len - sizeof_iphdr) = Some 0 /\
    (forall x, x < data \/ data + len <= x -> m x = n_mem s x).
Proof.
  intros data len Hm Hp Hh Hipck Hsa Hda Hck Hlen Hsl Hnh Hdev Hd0 Hops Hx. set (n := (24 + length body)%nat).
  assert (Z.to_nat len = n) as En by (unfold len, n; lia).
  assert (bytes_at (n_mem s) data n = packet s skb) as Hb by (unfold packet; fold data; by rewrite Hsl, En). rewrite Hp in Hb.
  destruct (echo_reply_mem (n_mem s) data h ipck sa da code ck body Hm Hb Hh Hipck Hsa Hda Hck Hlen) as (E8 & m & c1 & c2 & Ew & HE & Hz1 & Hz2).
  exists m, c1, c2. unfold icmp_rcv, icmp_reply, icmp_type. fold data. change sizeof_iphdr with 20. rewrite Hnh, E8, Hsl, s32_small by (unfold len; lia).
  fold len in Ew. change (ICMP_ECHO =? ICMP_ECHO) with true. rewrite Ew. cbn [mbind option_bind].
  rewrite !nget_mem, Hdev, (proj2 (Z.eqb_neq dev 0)), (proj2 (Z.eqb_neq _ _) Hops), Hx by done. split; [done|]. split; [|split; [|split]].
  - unfold packet. rewrite !nget_mem, Hsl, En. fold data. cbn [with_nmem n_mem].
    rewrite (edited_read _ _ _ _ _ data n 0 HE), drop_0, take_ge by (rewrite ?(proj2 (proj2 HE)); unfold n; lia). done.
  - rewrite checksum_eq by (apply HE || lia). by rewrite Hz1.
  - rewrite checksum_eq by (apply HE || (unfold len; lia)). fold len in Hz2. by rewrite Hz2.
  - intros x Hx'. apply (edited_other _ _ _ _ _ _ HE). unfold len, n in *. lia.
Qed.

End icmp.

(** ** Examples *)

#[local] Existing Instance Heap.heap_allocator.

(** A driver that takes every packet. *)
Definition demo_driver : Z -> net_device_ops (A := Spinlock.cpu * Heap.heap) := fun _ => NDO None None (Some (fun s _ _ => Some (s, 0))).

Lemma net_demo_mem_ok hdr p : Forall (fun b => 0 <= b < 256) (hdr ++ p) -> mem_ok (n_mem (demo_net hdr p)).
Proof. intros Hp. repeat apply poke_ok; [intros x; simpl; lia|repeat constructor; lia|done]. Qed.

Definition demo_request : list Z := arp_packet 6 4 [0; 1] [2; 0; 0; 0; 0; 9] [10; 0; 0; 9] [0; 0; 0; 0; 0; 0] [10; 0; 0; 1].
Definition demo_eth : list Z := replicate 6 255 ++ [2; 0; 0; 0; 0; 9] ++ [8; 6].

Lemma arp_reply_sent_witness :
  exists m, arp_rcv demo_driver (demo_net demo_eth demo_request) demo_skb demo_dev = Some (with_nmem (demo_net demo_eth demo_request) m, 0) /\
    packet (with_nmem (demo_net demo_eth demo_request) m) demo_skb = arp_packet 6 4 [0; 2] [2; 0; 0; 0; 0; 1] [10; 0; 0; 1] [2; 0; 0; 0; 0; 9] [10; 0; 0; 9].
Proof.
  destruct (arp_reply_sent demo_driver (demo_net demo_eth demo_request) demo_skb demo_dev (fun s _ _ => Some (s, 0)) 6 4
              [2; 0; 0; 0; 0; 9] [10; 0; 0; 9] [0; 0; 0; 0; 0; 0] [10; 0; 0; 1] [] (replicate 6 255) [2; 0; 0; 0; 0; 9] [8; 6]) as (m & Hr & Hp & _);
    [apply demo_net_wf|apply net_demo_mem_ok; repeat constructor; lia|apply demo_net_ok; vm_compute; discriminate|vm_compute; reflexivity|vm_compute; reflexivity|
     reflexivity..|right; vm_compute; discriminate|discriminate|reflexivity|].
  exists m. split; [exact Hr|]. rewrite Hp. vm_compute. reflexivity.
Defined.

Lemma icmp_echo_reply_witness :
  let s := demo_net [] (replicate 10 1 ++ [0; 0] ++ [10; 0; 0; 9] ++ [10; 0; 0; 1] ++ [ICMP_ECHO; 0] ++ [3; 4] ++ [1; 2; 3]) in
  exists m, icmp_rcv demo_driver s demo_skb = Some (with_nmem s m) /\ checksum m (nget s demo_skb sk_data) sizeof_iphdr = Some 0.
Proof.
  intros s. destruct (icmp_echo_reply demo_driver s demo_skb demo_dev (fun s _ _ => Some (s, 0)) (replicate 10 1) [0; 0] [10; 0; 0; 9] [10; 0; 0; 1] 0 [3; 4] [1; 2; 3])
    as (m & c1 & c2 & Hr & _ & Hc & _);
    [apply net_demo_mem_ok; repeat constructor; vm_compute; done|vm_compute; reflexivity|reflexivity..|vm_compute; discriminate|reflexivity|reflexivity|reflexivity|discriminate|discriminate|reflexivity|].
  exists m. split; [exact Hr|exact Hc].
Defined.

Definition demo_offer : list Z :=
  replicate 28 0 ++ (2 :: replicate 15 0) ++ le_bytes 4 0x0500000A ++ replicate 216 0 ++ [0x63; 0x82; 0x53; 0x63] ++
  encode_options [(53, [2]); (1, [255; 255; 255; 0])] ++ [].

Lemma dhcp_input_binds_witness :
  exists s', dhcp_input (demo_net [] demo_offer) demo_skb = Some s' /\ nget s' demo_dev nd_ip_addr = 0x0500000A /\ nget s' demo_dev nd_netmask = 0x00FFFFFF.
Proof.
  destruct (dhcp_input_binds (demo_net [] demo_offer) demo_skb) as [_ Hb].
  - apply net_demo_mem_ok. vm_compute. repeat constructor; done.
  - discriminate.
  - eexists. split; [apply (Hb (replicate 28 0) (replicate 15 0) 0x0500000A (replicate 216 0) [(53, [2]); (1, [255; 255; 255; 0])] [] 0x00FFFFFF 0 0 2);
      [vm_compute; reflexivity|reflexivity|reflexivity|reflexivity|lia|
       apply Forall_cons; split; [unfold option_ok; simpl; lia|apply Forall_cons; split; [unfold option_ok; simpl; lia|constructor]]|vm_compute; lia|reflexivity]|].
    rewrite decide_True by auto. split; vm_compute; reflexivity.
Defined.

(** The buffers the next packet gets. *)
Lemma demo_alloc hdr p size s1 skb : alloc_skb (demo_net hdr p) size = Some (s1, skb) -> skb = 0x1438 \/ skb = 0.
Proof.
  unfold alloc_skb. set (r := a_alloc (n_heap (demo_net hdr p)) sizeof_sk_buff).
  assert (snd <$> r = Some 0x1438) as Hr by (vm_compute; reflexivity). destruct r as [[h q]|]; [|done]. injection Hr as ->. cbn [mbind option_bind].
  change (0x1438 =? 0) with false. cbv iota. destruct (a_alloc _ size) as [[h2 d]|]; [|done]. cbn [mbind option_bind]. destruct (d =? 0).
  - destruct (a_free _ _); [|done]. intros E. injection E as _ <-. by right.
  - intros E. injection E as _ <-. by left.
Qed.

(** An offer sent to port 68 of the loopback device configures it. *)
Lemma demo_skb_room p size : snd <$> alloc_skb (demo_net [] p) size = Some 0x1438 -> ~ skb_no_room (demo_net [] p) size.
Proof.
  intros E. destruct (alloc_skb (demo_net [] p) size) as [[s1 skb]|] eqn:Ea; [|done]. injection E as ->. by rewrite <- (alloc_skb_room _ _ _ _ Ea).
Qed.

Lemma udp_loopback_witness :
  let ops := stack_ops demo_ptypes 0x8100 0x8200 0x8000 demo_driver 5 1 in
  exists s', udp_send_packet ops (demo_net [] demo_offer) demo_dev 0x0100007F 67 68 (demo_buf + 62) 250 = Some (s', 0) /\
    nget s' demo_dev nd_ip_addr = 0x0500000A /\ nget s' demo_dev nd_netmask = 0x00FFFFFF.
Proof.
  destruct (udp_loopback demo_ptypes demo_ip_type 0x8100 0x8200 0x8000 demo_driver 5 0 (demo_net [] demo_offer) demo_dev 0x0100007F 67 68 (demo_buf + 62) 250 264 [demo_arp_type] [])
    as [[Hno _]|(_ & s5 & skb & c & _ & _ & _ & Hd)]; [apply demo_net_wf|apply net_demo_mem_ok; vm_compute; repeat constructor; done|apply demo_net_live; left|reflexivity..|discriminate|reflexivity| | |lia|lia|lia| | |].
  - split; [|simpl; lia|repeat constructor; discriminate|split; reflexivity].
    split; [|apply (bool_decide_unpack _); vm_compute; exact I]. vm_compute. repeat split.
  - intros size s0 skb E. apply demo_alloc in E as [-> | ->]; apply (bool_decide_unpack _); vm_compute; exact I.
  - apply (live_clear _ _ _ _ demo_buf 512); [apply demo_net_wf|lia|apply demo_net_live; do 2 right; left|lia|lia].
  - destruct (demo_skb_room demo_offer (250 + 74)); [vm_compute; reflexivity|exact Hno].
  - destruct (Hd eq_refl (replicate 15 0) 0x0500000A (replicate 216 0) [(53, [2]); (1, [255; 255; 255; 0])] [] 0x00FFFFFF 0 0 2) as (s' & E & H1 & H2 & _);
      [vm_compute; reflexivity|reflexivity|reflexivity|lia|
       apply Forall_cons; split; [unfold option_ok; simpl; lia|apply Forall_cons; split; [unfold option_ok; simpl; lia|constructor]]|vm_compute; lia|reflexivity|by left|].
    exists s'. split; [exact E|]. split; [exact H1|exact H2].
Defined.

Lemma dhcp_discover_frame_witness :
  exists s1, dhcp_discover demo_driver (demo_net [] [1]) demo_dev 0x20000 = Some s1.
Proof.
  destruct (dhcp_discover_frame demo_driver (demo_net [] [1]) demo_dev 0x20000 (fun s _ _ => Some (s, 0)) 264) as [(s1 & Hs & _)|(s0 & s1 & skb & c & Hs & _)];
    [apply demo_net_wf|apply net_demo_mem_ok; repeat constructor; lia|apply demo_net_live; left|reflexivity|discriminate|reflexivity| |right; vm_compute; discriminate| |].
  - intros s1 skb E Hne. right.
    assert ((fun r => let '(s1, skb) := r in nget s1 skb sk_end) <$> alloc_skb (demo_net [] [1]) (sizeof_dhcp_packet + 74) = Some 5982) as Hr by (vm_compute; reflexivity).
    rewrite E in Hr. injection Hr as ->. vm_compute. discriminate.
  - exists s1. exact Hs.
  - exists s1. exact Hs.
Defined.

End Ip.
