(* ===== verification/Driver.v ===== *)
(** * The driver model

    (src/kernel/drivers/core/driver.c, pm.c, include/driver.h.)  Buses, the devices and drivers registered on them, and the binding of a device
    to the first driver that accepts it.

    The structures are a store of fields and the rings of their list nodes.  The
    callbacks of buses and drivers are code of the callers, given as functions
    behind their pointers that act on the whole state. *)

From S2P Require Import Prelude ListHead Store SortedQueue.
Import ListHead.

Module Driver.

(** ** State *)

Inductive dfld :=
(* struct bus_type *)
| bt_match
(* struct device *)
| dv_bus | dv_driver | dv_driver_data
(* struct device_driver *)
| dr_bus | dr_probe | dr_remove | dr_suspend | dr_resume.

#[export] Instance dfld_eq : EqDecision dfld.
Proof. solve_decision. Defined.

(** The list nodes within the structures. *)
Definition bt_bus_list (bus : Z) : Z := bus + 32.
Definition bt_dev_list (bus : Z) : Z := bus + 48.
Definition bt_drv_list (bus : Z) : Z := bus + 64.
Definition dv_bus_list (dev : Z) : Z := dev + 80.
Definition dv_global_list (dev : Z) : Z := dev + 96.
Definition dr_bus_list (drv : Z) : Z := drv + 56.
Definition dr_global_list (drv : Z) : Z := drv + 72.

Section driver.
(** The drivers' own data. *)
Context {W : Type}.

Record drivers := DRV { d_st : store dfld; d_links : gmap Z list_head; d_world : W }.

Definition dget (s : drivers) (a : Z) (f : dfld) : Z := d_st s a f.
Definition dset (s : drivers) (a : Z) (f : dfld) (v : Z) : drivers := DRV (wr (d_st s) a f v) (d_links s) (d_world s).
Definition with_dlinks (s : drivers) (l : gmap Z list_head) : drivers := DRV (d_st s) l (d_world s).

(** ** Buses *)

Section bus.
(** The address of the list head. *)
Context (bus_list_head : Z).

Definition bus_register (s : drivers) (bus : Z) : option (drivers * Z) :=
  if bus =? 0 then Some (s, -1)
  else
    let l := INIT_LIST_HEAD (d_links s) (bt_dev_list bus) in
    let l := INIT_LIST_HEAD l (bt_drv_list bus) in
    l ← list_add_tail l (bt_bus_list bus) bus_list_head;
    Some (with_dlinks s l, 0).

Definition bus_unregister (s : drivers) (bus : Z) : option drivers :=
  if bus =? 0 then Some s
  else l ← list_del (d_links s) (bt_bus_list bus); Some (with_dlinks s l).

End bus.

(** ** Devices and drivers *)

(** The addresses of the two global list heads. *)
Context (global_device_list global_driver_list : Z).

(** The functions behind the pointers [match] and [probe]. *)
Context (match_fn : Z -> drivers -> Z -> Z -> drivers * Z).
Context (probe_fn : Z -> drivers -> Z -> drivers * Z).

Definition driver_probe_device (s : drivers) (drv dev : Z) : drivers * Z :=
  if negb (dget s drv dr_bus =? dget s dev dv_bus) then (s, -1)
  else
    let mf := dget s (dget s dev dv_bus) bt_match in
    let '(s, m) := if mf =? 0 then (s, 1) else match_fn mf s dev drv in
    if m =? 0 then (s, -1)
    else if dget s drv dr_probe =? 0 then (s, -1)
    else
      let '(s, ret) := probe_fn (dget s drv dr_probe) s dev in
      if ret =? 0 then (dset s dev dv_driver drv, 0) else (s, -1).

(** [list_for_each(pos, head) body]: the successor of a node is read after [body]
    has run on it; [body] returns whether the loop goes on. *)
Definition visit_step (head : Z) (body : drivers -> Z -> drivers * bool) : drivers * option Z -> drivers * option Z + option drivers :=
  fun '(s, pos) =>
    match pos with
    | None => inr None
    | Some p =>
        if p =? head then inr (Some s)
        else let '(s, on) := body s p in if on then inl (s, get_next (d_links s) p) else inr (Some s)
    end.

Definition visit (fuel : nat) (head : Z) (body : drivers -> Z -> drivers * bool) (s : drivers) : option drivers :=
  mjoin (loop fuel (visit_step head body) (s, get_next (d_links s) head)).

Definition driver_register (fuel : nat) (s : drivers) (drv : Z) : option (drivers * Z) :=
  if (drv =? 0) || (dget s drv dr_bus =? 0) then Some (s, -1)
  else
    l ← list_add_tail (d_links s) (dr_bus_list drv) (bt_drv_list (dget s drv dr_bus));
    l ← list_add_tail l (dr_global_list drv) global_driver_list;
    s ← visit fuel (bt_dev_list (dget s drv dr_bus)) (fun s pos =>
          let dev := pos - 80 in
          if dget s dev dv_driver =? 0 then (fst (driver_probe_device s drv dev), true) else (s, true))
        (with_dlinks s l);
    Some (s, 0).

Definition driver_unregister (s : drivers) (drv : Z) : option drivers :=
  if drv =? 0 then Some s
  else
    l ← list_del (d_links s) (dr_bus_list drv);
    l ← list_del l (dr_global_list drv);
    Some (with_dlinks s l).

Definition device_register (fuel : nat) (s : drivers) (dev : Z) : option (drivers * Z) :=
  if (dev =? 0) || (dget s dev dv_bus =? 0) then Some (s, -1)
  else
    l ← list_add_tail (d_links s) (dv_bus_list dev) (bt_dev_list (dget s dev dv_bus));
    l ← list_add_tail l (dv_global_list dev) global_device_list;
    s ← visit fuel (bt_drv_list (dget s dev dv_bus)) (fun s pos =>
          let drv := pos - 56 in
          let '(s, r) := driver_probe_device s drv dev in (s, negb (r =? 0)))
        (with_dlinks s l);
    Some (s, 0).

Section callbacks.
(** The functions behind the pointers [suspend], [resume] and [remove]. *)
Context (suspend_fn resume_fn : Z -> drivers -> Z -> drivers * Z).
Context (remove_fn : Z -> drivers -> Z -> drivers).

Definition device_unregister (s : drivers) (dev : Z) : option drivers :=
  if dev =? 0 then Some s
  else
    let drv := dget s dev dv_driver in
    let s := if (drv =? 0) || (dget s drv dr_remove =? 0) then s else remove_fn (dget s drv dr_remove) s dev in
    l ← list_del (d_links s) (dv_bus_list dev);
    l ← list_del l (dv_global_list dev);
    Some (with_dlinks s l).

(** [device_for_each(fn)]; a null [fn] does nothing. *)
Definition device_for_each (fuel : nat) (fn : option (drivers -> Z -> drivers)) (s : drivers) : option drivers :=
  visit fuel global_device_list (fun s pos => (match fn with Some f => f s (pos - 96) | None => s end, true)) s.

Definition device_suspend (s : drivers) (dev : Z) : drivers * Z :=
  if (dev =? 0) || (dget s dev dv_driver =? 0) then (s, 0)
  else
    let f := dget s (dget s dev dv_driver) dr_suspend in
    if f =? 0 then (s, 0) else suspend_fn f s dev.

Definition device_resume (s : drivers) (dev : Z) : drivers * Z :=
  if (dev =? 0) || (dget s dev dv_driver =? 0) then (s, 0)
  else
    let f := dget s (dget s dev dv_driver) dr_resume in
    if f =? 0 then (s, 0) else resume_fn f s dev.

(** Power management (pm.c): every device whose driver can is suspended, resumed. *)
Definition suspend_device (s : drivers) (dev : Z) : drivers :=
  let drv := dget s dev dv_driver in
  if negb (drv =? 0) && negb (dget s drv dr_suspend =? 0) then fst (suspend_fn (dget s drv dr_suspend) s dev) else s.

Definition resume_device (s : drivers) (dev : Z) : drivers :=
  let drv := dget s dev dv_driver in
  if negb (drv =? 0) && negb (dget s drv dr_resume =? 0) then fst (resume_fn (dget s drv dr_resume) s dev) else s.

Definition pm_suspend (fuel : nat) (s : drivers) : option drivers := device_for_each fuel (Some suspend_device) s.
Definition pm_resume (fuel : nat) (s : drivers) : option drivers := device_for_each fuel (Some resume_device) s.

End callbacks.

(** ** Visiting a ring *)

Fixpoint run (body : drivers -> Z -> drivers * bool) (l : list Z) (s : drivers) : drivers :=
  match l with
  | [] => s
  | p :: l => let '(s, on) := body s p in if on then run body l s else s
  end.

(** A body that leaves the rings alone is run on the nodes in order. *)
Lemma visit_run body (s : drivers) head l fuel :
  (forall s p, d_links (fst (body s p)) = d_links s) -> dlist (d_links s) head l -> (length l < fuel)%nat ->
  visit fuel head body s = Some (run body l s).
Proof.
  intros Hb Hd Hf. unfold visit. rewrite (dlist_first _ _ _ Hd).
  cut (forall l2 l1 s, dlist (d_links s) head (l1 ++ l2) ->
         loop (S (length l2)) (visit_step head body) (s, Some (after head l2)) = Some (Some (run body l2 s))).
  { intros Hgo. by rewrite (loop_more _ (S (length l)) fuel _ _ (Hgo l [] s Hd)) by lia. }
  induction l2 as [|p l2 IH]; intros l1 s' Hd'; cbn [length loop visit_step after List.hd]; [by rewrite Z.eqb_refl|].
  rewrite (proj2 (Z.eqb_neq p head)) by (destruct Hd' as [_ Hn]; apply NoDup_cons in Hn as [Hh _]; set_solver).
  pose proof (Hb s' p) as El. cbn [run]. destruct (body s' p) as [s1 on]. cbn [fst] in El. destruct on; [|done].
  destruct (dlist_gap (d_links s') head (l1 ++ [p]) l2) as [Hn _]; [by rewrite <- app_assoc|].
  rewrite (List.last_last (head :: l1) p head : before head (l1 ++ [p]) = p) in Hn. rewrite El, Hn.
  apply (IH (l1 ++ [p])). by rewrite <- app_assoc, El.
Qed.

(** ** The contract of the callbacks *)

(** A callback may change the drivers' own data, nothing of the driver model. *)
Definition keeps (s s' : drivers) : Prop :=
  d_links s' = d_links s /\ forall x f, f <> dv_driver_data -> dget s' x f = dget s x f.

(** What [match] and [probe] answer is a matter of the device and the driver. *)
Context (likes : Z -> Z -> Z -> bool) (able : Z -> Z -> bool).
Hypothesis match_keeps : forall f s dev drv, keeps s (fst (match_fn f s dev drv)) /\ (snd (match_fn f s dev drv) =? 0) = negb (likes f dev drv).
Hypothesis probe_keeps : forall f s dev, keeps s (fst (probe_fn f s dev)) /\ (snd (probe_fn f s dev) =? 0) = able f dev.

(** [drv] would be bound to [dev]. *)
Definition accepts (s : drivers) (drv dev : Z) : bool :=
  (dget s drv dr_bus =? dget s dev dv_bus) &&
  ((dget s (dget s dev dv_bus) bt_match =? 0) || likes (dget s (dget s dev dv_bus) bt_match) dev drv) &&
  negb (dget s drv dr_probe =? 0) && able (dget s drv dr_probe) dev.

(** The fields a registration never writes are the same. *)
Definition same_core (s s' : drivers) : Prop :=
  d_links s' = d_links s /\ forall x f, f <> dv_driver_data -> f <> dv_driver -> dget s' x f = dget s x f.

Lemma accepts_same s s' drv dev : (forall x f, f <> dv_driver_data -> f <> dv_driver -> dget s' x f = dget s x f) -> accepts s' drv dev = accepts s drv dev.
Proof. intros E. unfold accepts. by rewrite !E by done. Qed.

Lemma bindings_keep_trans s1 s2 s3 : keeps s1 s2 -> keeps s2 s3 -> keeps s1 s3.
Proof. intros [E1 F1] [E2 F2]. split; [by rewrite E2|]. intros x f Hf. by rewrite F2, F1. Qed.

Lemma dget_dset s a f v x g : dget (dset s a f v) x g = if decide (x = a /\ g = f) then v else dget s x g.
Proof. unfold dget, dset. simpl. case_decide as H; [destruct H as [-> ->]; apply wr_same|]. apply wr_other. destruct (decide (x = a)) as [->|]; [right|by left]. tauto. Qed.

Lemma driver_probe_device_spec s drv dev :
  let '(s', r) := driver_probe_device s drv dev in
  same_core s s' /\ r = (if accepts s drv dev then 0 else -1) /\
  forall x, dget s' x dv_driver = if decide (x = dev /\ accepts s drv dev = true) then drv else dget s x dv_driver.
Proof.
  assert (forall s', keeps s s' -> same_core s s' /\ forall x, dget s' x dv_driver = dget s x dv_driver) as Hk.
  { intros s' [E F]. split; [split; [done|]; intros; by apply F|]. intros x. by apply F. }
  unfold driver_probe_device, accepts. destruct (Z.eqb_spec (dget s drv dr_bus) (dget s dev dv_bus)) as [_|_]; cbn [negb andb].
  2:{ destruct (Hk s) as [? ?]; [done|]. split; [done|]. split; [done|]. intros x. rewrite decide_False; [done|]. intros [_ ?]. done. }
  set (mf := dget s (dget s dev dv_bus) bt_match).
  assert (exists s1 m, (if mf =? 0 then (s, 1) else match_fn mf s dev drv) = (s1, m) /\ keeps s s1 /\ (m =? 0) = negb ((mf =? 0) || likes mf dev drv)) as (s1 & m & -> & Hs1 & ->).
  { destruct (mf =? 0) eqn:Em; cbn [orb]; [by exists s, 1|]. pose proof (match_keeps mf s dev drv) as [H1 H2]. destruct (match_fn mf s dev drv) as [s1 m]. eauto. }
  destruct ((mf =? 0) || likes mf dev drv); cbn [negb andb].
  2:{ destruct (Hk s1 Hs1) as [? ?]. split; [done|]. split; [done|]. intros x. by rewrite decide_False by naive_solver. }
  rewrite (proj2 Hs1 drv dr_probe) by done. destruct (dget s drv dr_probe =? 0) eqn:Ep; cbn [negb andb].
  { destruct (Hk s1 Hs1) as [? ?]. split; [done|]. split; [done|]. intros x. by rewrite decide_False by naive_solver. }
  pose proof (probe_keeps (dget s drv dr_probe) s1 dev) as [H1 H2]. destruct (probe_fn _ s1 dev) as [s2 ret]. cbn [fst snd] in H1, H2. rewrite H2.
  pose proof (bindings_keep_trans _ _ _ Hs1 H1) as Hs2. destruct (Hk s2 Hs2) as [Hc Hd]. destruct (able _ dev).
  - split; [split; [apply Hc|]; intros x f Hf Hf'; rewrite dget_dset, decide_False by naive_solver; by apply Hc|]. split; [done|].
    intros x. rewrite dget_dset, Hd. destruct (decide (x = dev)) as [->|Hne]; [by rewrite !decide_True|by rewrite !decide_False by naive_solver].
  - split; [done|]. split; [done|]. intros x. by rewrite decide_False by naive_solver.
Qed.

Lemma same_core_refl s : same_core s s.
Proof. done. Qed.

Lemma same_core_trans s1 s2 s3 : same_core s1 s2 -> same_core s2 s3 -> same_core s1 s3.
Proof. intros [E1 F1] [E2 F2]. split; [by rewrite E2|]. intros x f Hf Hf'. by rewrite F2, F1. Qed.

(** A new driver is offered every unbound device of its bus. *)
Definition offer (drv : Z) : drivers -> Z -> drivers * bool := fun s pos =>
  let dev := pos - 80 in
  if dget s dev dv_driver =? 0 then (fst (driver_probe_device s drv dev), true) else (s, true).

Lemma run_offer drv devs : forall s, drv <> 0 ->
  let s' := run (offer drv) (dv_bus_list <$> devs) s in
  same_core s s' /\
  forall x, dget s' x dv_driver = if decide (x ∈ devs /\ dget s x dv_driver = 0 /\ accepts s drv x = true) then drv else dget s x dv_driver.
Proof.
  induction devs as [|d devs IH]; intros s Hr; cbn [fmap list_fmap run]; [split; [done|]; intros x; by rewrite decide_False by set_solver|].
  unfold offer at 1 3. replace (dv_bus_list d - 80) with d by (unfold dv_bus_list; lia). destruct (Z.eqb_spec (dget s d dv_driver) 0) as [H0|H0].
  - pose proof (driver_probe_device_spec s drv d) as H. destruct (driver_probe_device s drv d) as [s1 r]. destruct H as (Hc & _ & Hd1). cbn [fst].
    destruct (IH s1 Hr) as [Hc' Hd']. split; [by apply (same_core_trans s s1)|]. intros x. rewrite Hd', !Hd1, (accepts_same s s1) by apply Hc.
    destruct (decide (x = d)) as [->|Hne].
    + destruct (accepts s drv d) eqn:Ea.
      * rewrite (decide_True _ _ (conj eq_refl eq_refl)). rewrite decide_False by naive_solver. rewrite decide_True; [done|]. split; [by left|done].
      * rewrite (decide_False (P := d = d /\ false = true)) by naive_solver. by rewrite !decide_False by naive_solver.
    + rewrite (decide_False (P := x = d /\ _)) by naive_solver. apply decide_ext. rewrite elem_of_cons. tauto.
  - destruct (IH s Hr) as [Hc' Hd']. split; [done|]. intros x. rewrite Hd'. apply decide_ext. rewrite elem_of_cons. naive_solver.
Qed.

(** A new device goes to the first driver of its bus that accepts it. *)
Definition try_driver (dev : Z) : drivers -> Z -> drivers * bool := fun s pos =>
  let drv := pos - 56 in
  let '(s, r) := driver_probe_device s drv dev in (s, negb (r =? 0)).

Lemma run_try dev drvs : forall s,
  let s' := run (try_driver dev) (dr_bus_list <$> drvs) s in
  same_core s s' /\
  forall x, dget s' x dv_driver = if decide (x = dev) then default (dget s x dv_driver) (List.find (fun drv => accepts s drv dev) drvs) else dget s x dv_driver.
Proof.
  induction drvs as [|r drvs IH]; intros s; cbn [fmap list_fmap run List.find]; [split; [done|]; intros x; by case_decide|].
  unfold try_driver at 1 3. replace (dr_bus_list r - 56) with r by (unfold dr_bus_list; lia).
  pose proof (driver_probe_device_spec s r dev) as H. destruct (driver_probe_device s r dev) as [s1 v]. destruct H as (Hc & -> & Hd1).
  destruct (accepts s r dev) eqn:Ea; cbn [Z.eqb negb].
  - split; [done|]. intros x. rewrite Hd1. repeat case_decide; naive_solver.
  - destruct (IH s1) as [Hc' Hd']. split; [by apply (same_core_trans s s1)|]. intros x. rewrite Hd', !Hd1. rewrite !(decide_False (P := _ /\ false = true)) by (by intros [_ ?]).
    assert (List.find (fun drv => accepts s1 drv dev) drvs = List.find (fun drv => accepts s drv dev) drvs) as ->; [|done].
    clear -Hc. induction drvs as [|r drvs IH]; [done|]. simpl. by rewrite (accepts_same s s1), IH by apply Hc.
Qed.


(** ** The rings of the driver model *)

(** The list nodes, by what they belong to. *)
Inductive place :=
| AllDevices | AllDrivers | BusDevices (bus : Z) | BusDrivers (bus : Z)
| DeviceOnBus (dev : Z) | DeviceInAll (dev : Z) | DriverOnBus (drv : Z) | DriverInAll (drv : Z).

#[local] Instance place_eq : EqDecision place.
Proof. solve_decision. Defined.

Definition addr (p : place) : Z :=
  match p with
  | AllDevices => global_device_list
  | AllDrivers => global_driver_list
  | BusDevices bus => bt_dev_list bus
  | BusDrivers bus => bt_drv_list bus
  | DeviceOnBus dev => dv_bus_list dev
  | DeviceInAll dev => dv_global_list dev
  | DriverOnBus drv => dr_bus_list drv
  | DriverInAll drv => dr_global_list drv
  end.

(** The structures there are; no two of their nodes share an address. *)
Context (buses devices drvs_known : list Z).

Definition known (p : place) : Prop :=
  match p with
  | AllDevices | AllDrivers => True
  | BusDevices bus | BusDrivers bus => bus ∈ buses
  | DeviceOnBus dev | DeviceInAll dev => dev ∈ devices
  | DriverOnBus drv | DriverInAll drv => drv ∈ drvs_known
  end.

Hypothesis apart : forall p q, known p -> known q -> addr p = addr q -> p = q.
Hypothesis nonnull : 0 ∉ buses /\ 0 ∉ devices /\ 0 ∉ drvs_known.

Definition ring (m : gmap Z list_head) (h : place) (l : list place) : Prop := dlist m (addr h) (addr <$> l).
Definition present (m : gmap Z list_head) : Prop := forall p, known p -> is_Some (m !! addr p).

Lemma addr_notin p l : known p -> Forall known l -> p ∉ l -> addr p ∉ addr <$> l.
Proof. intros Hp Hl Hn Hin. apply list_elem_of_fmap in Hin as (q & E & Hq). rewrite Forall_forall in Hl. apply Hn. by rewrite (apart p q Hp (Hl _ Hq) E). Qed.

(** The heads of rings, and the ring a node is for. *)
Definition is_head (p : place) : bool :=
  match p with AllDevices | AllDrivers | BusDevices _ | BusDrivers _ => true | _ => false end.

Definition owner (s : drivers) (p : place) : place :=
  match p with
  | DeviceOnBus dev => BusDevices (dget s dev dv_bus)
  | DriverOnBus drv => BusDrivers (dget s drv dr_bus)
  | DeviceInAll _ => AllDevices
  | DriverInAll _ => AllDrivers
  | _ => p
  end.

(** Rings whose heads are all the heads there are. *)
Record rings (s : drivers) (m : gmap Z list_head) (c : place -> list place) : Prop := {
  ri_present : present m;
  ri_ring : forall h, is_head h = true -> known h -> ring m h (c h);
  ri_nodes : forall h p, is_head h = true -> known h -> p ∈ c h -> is_head p = false /\ owner s p = h /\ known p
}.

(** Entering a node into its ring leaves the other rings alone. *)
Lemma rings_add s m c n h :
  rings s m c -> known n -> is_head n = false -> owner s n = h -> is_head h = true -> known h -> n ∉ c h ->
  exists m', list_add_tail m (addr n) (addr h) = Some m' /\ rings s m' (fun h' => if decide (h' = h) then c h ++ [n] else c h').
Proof.
  intros [Hp Hr Hn] Hkn Hhn Ho Hh Hkh Hni.
  assert (Forall known (h :: c h)) as Hk by (apply Forall_cons; split; [done|]; apply Forall_forall; intros p Hpc; by apply (Hn h p)).
  assert (n ∉ h :: c h) as Hni' by (rewrite elem_of_cons; intros [->|?]; [by rewrite Hh in Hhn|done]).
  destruct (list_add_tail_dlist m (addr h) (addr <$> c h) (addr n)) as (m' & E & Hd & Hother); [by apply Hr|by apply Hp|by apply (addr_notin n (h :: c h))|].
  assert (forall p, known p -> p ∉ n :: h :: c h -> m' !! addr p = m !! addr p) as Hkeep.
  { intros p Hkp Hnp. apply Hother. apply (addr_notin p (n :: h :: c h)); [done|by apply Forall_cons|done]. }
  exists m'. split; [done|]. split.
  - intros p Hkp. destruct (decide (p ∈ n :: h :: c h)) as [Hin|Hnp]; [|rewrite Hkeep by done; by apply Hp].
    apply (dlist_present _ _ _ _ Hd). apply (list_elem_of_fmap_2 addr) in Hin. cbn [fmap list_fmap] in Hin. set_solver.
  - intros h' Hh' Hk'. case_decide as Hc; [subst h'; unfold ring; by rewrite fmap_app|].
    apply (dlist_ext m); [|by apply Hr]. intros x Hx. apply (list_elem_of_fmap_1 addr (h' :: c h')) in Hx as (p & -> & Hp').
    apply elem_of_cons in Hp' as [->|Hp'].
    + apply Hkeep; [done|]. rewrite !elem_of_cons. intros [->|[->|Hin]]; [by rewrite Hh' in Hhn|done|]. destruct (Hn h h' Hh Hkh Hin) as [Hf _]. by rewrite Hh' in Hf.
    + destruct (Hn h' p Hh' Hk' Hp') as (Hf & Hop & Hkp). apply Hkeep; [done|]. rewrite !elem_of_cons. intros [->|[->|Hin]]; [congruence|congruence|].
      destruct (Hn h p Hh Hkh Hin) as (_ & ? & _). congruence.
  - intros h' p Hh' Hk'. case_decide as Hc; [subst h'|by apply Hn]. rewrite elem_of_app, list_elem_of_singleton. intros [?| ->]; [by apply Hn|done].
Qed.

Definition on_bus (s : drivers) (f : dfld) (bus : Z) (l : list Z) : list Z := List.filter (fun x => dget s x f =? bus) l.

Lemma on_bus_in s f bus l x : x ∈ on_bus s f bus l <-> x ∈ l /\ dget s x f = bus.
Proof. unfold on_bus. rewrite !list_elem_of_In, List.filter_In, Z.eqb_eq. done. Qed.

Lemma on_bus_snoc s f bus l x : on_bus s f bus (l ++ [x]) = if decide (dget s x f = bus) then on_bus s f bus l ++ [x] else on_bus s f bus l.
Proof. unfold on_bus. rewrite List.filter_app. simpl. destruct (Z.eqb_spec (dget s x f) bus); case_decide; try done. by rewrite app_nil_r. Qed.

Lemma on_bus_ext s s' f bus l : (forall x, dget s' x f = dget s x f) -> on_bus s' f bus l = on_bus s f bus l.
Proof. intros E. apply List.filter_ext. intros x. by rewrite E. Qed.

(** The rings with the registered devices [devs] and drivers [drvs] in them. *)
Definition content (s : drivers) (devs drvs : list Z) (h : place) : list place :=
  match h with
  | AllDevices => DeviceInAll <$> devs
  | AllDrivers => DriverInAll <$> drvs
  | BusDevices bus => DeviceOnBus <$> on_bus s dv_bus bus devs
  | BusDrivers bus => DriverOnBus <$> on_bus s dr_bus bus drvs
  | _ => []
  end.

Definition rings_ok (s : drivers) (devs drvs : list Z) : Prop := rings s (d_links s) (content s devs drvs).

(** Every registered device is bound to a registered driver that accepts it, if there
    is one. *)
Definition bound (s : drivers) (devs drvs : list Z) : Prop :=
  forall d, d ∈ devs ->
    (dget s d dv_driver = 0 /\ forall r, r ∈ drvs -> accepts s r d = false) \/
    (dget s d dv_driver ∈ drvs /\ accepts s (dget s d dv_driver) d = true).

Lemma rings_ext s s' m c c' :
  (forall p, owner s' p = owner s p) -> (forall h, c' h = c h) -> rings s m c -> rings s' m c'.
Proof. intros Eo Ec [H1 H2 H3]. split; [done|intros h; rewrite Ec; apply H2|intros h p; rewrite Ec, Eo; apply H3]. Qed.

Lemma rings_ok_same s s' devs drvs : same_core s s' -> rings_ok s devs drvs -> rings_ok s' devs drvs.
Proof.
  intros [E F] H. unfold rings_ok. rewrite E. apply (rings_ext s s' _ (content s devs drvs)); [| |done].
  - intros []; simpl; by rewrite ?F.
  - intros []; simpl; by rewrite ?(on_bus_ext s s') by (intros; by apply F).
Qed.

Lemma in_content s devs drvs p :
  p ∈ content s devs drvs (owner s p) -> match p with DeviceOnBus d | DeviceInAll d => d ∈ devs | DriverOnBus r | DriverInAll r => r ∈ drvs | _ => False end.
Proof.
  destruct p; simpl; rewrite ?elem_of_nil, ?list_elem_of_fmap; try (intros (x & E & Hx); try discriminate E; injection E as ->; rewrite ?on_bus_in in Hx; tauto).
Qed.

Lemma enter_device s devs drvs d :
  rings_ok s devs drvs -> d ∈ devices -> d ∉ devs -> dget s d dv_bus ∈ buses ->
  exists m1 m2, list_add_tail (d_links s) (dv_bus_list d) (bt_dev_list (dget s d dv_bus)) = Some m1 /\
    list_add_tail m1 (dv_global_list d) global_device_list = Some m2 /\ rings_ok (with_dlinks s m2) (devs ++ [d]) drvs.
Proof.
  intros H Hd Hni Hb.
  destruct (rings_add s (d_links s) _ (DeviceOnBus d) (BusDevices (dget s d dv_bus)) H) as (m1 & E1 & H1); [done..|intros Hin; by apply (in_content _ _ _ (DeviceOnBus d)) in Hin|].
  destruct (rings_add s m1 _ (DeviceInAll d) AllDevices H1) as (m2 & E2 & H2); [done..|intros Hin; by apply (in_content _ _ _ (DeviceInAll d)) in Hin|].
  exists m1, m2. split; [exact E1|]. split; [exact E2|]. refine (rings_ext s (with_dlinks s m2) m2 _ _ (fun p => eq_refl) _ H2).
  intros [| |bus|bus| | | | ]; simpl; try done; [by rewrite fmap_app|]. change (on_bus (with_dlinks s m2)) with (on_bus s). rewrite on_bus_snoc.
  destruct (decide (BusDevices bus = AllDevices)); [done|]. destruct (decide (BusDevices bus = _)) as [[= ->]|Hne]; [by rewrite decide_True, fmap_app|].
  by rewrite decide_False by congruence.
Qed.

Lemma enter_driver s devs drvs r :
  rings_ok s devs drvs -> r ∈ drvs_known -> r ∉ drvs -> dget s r dr_bus ∈ buses ->
  exists m1 m2, list_add_tail (d_links s) (dr_bus_list r) (bt_drv_list (dget s r dr_bus)) = Some m1 /\
    list_add_tail m1 (dr_global_list r) global_driver_list = Some m2 /\ rings_ok (with_dlinks s m2) devs (drvs ++ [r]).
Proof.
  intros H Hd Hni Hb.
  destruct (rings_add s (d_links s) _ (DriverOnBus r) (BusDrivers (dget s r dr_bus)) H) as (m1 & E1 & H1); [done..|intros Hin; by apply (in_content _ _ _ (DriverOnBus r)) in Hin|].
  destruct (rings_add s m1 _ (DriverInAll r) AllDrivers H1) as (m2 & E2 & H2); [done..|intros Hin; by apply (in_content _ _ _ (DriverInAll r)) in Hin|].
  exists m1, m2. split; [exact E1|]. split; [exact E2|]. refine (rings_ext s (with_dlinks s m2) m2 _ _ (fun p => eq_refl) _ H2).
  intros [| |bus|bus| | | | ]; simpl; try done; [by rewrite fmap_app|]. change (on_bus (with_dlinks s m2)) with (on_bus s). rewrite on_bus_snoc.
  destruct (decide (BusDrivers bus = AllDrivers)); [done|]. destruct (decide (BusDrivers bus = _)) as [[= ->]|Hne]; [by rewrite decide_True, fmap_app|].
  by rewrite decide_False by congruence.
Qed.


(** ** Registration *)

Lemma ring_devices s devs drvs bus : rings_ok s devs drvs -> bus ∈ buses -> dlist (d_links s) (bt_dev_list bus) (dv_bus_list <$> on_bus s dv_bus bus devs).
Proof. intros H Hb. pose proof (ri_ring _ _ _ H (BusDevices bus) eq_refl Hb) as Hr. unfold ring in Hr. cbn [content] in Hr. by rewrite <- list_fmap_compose in Hr. Qed.

Lemma ring_drivers s devs drvs bus : rings_ok s devs drvs -> bus ∈ buses -> dlist (d_links s) (bt_drv_list bus) (dr_bus_list <$> on_bus s dr_bus bus drvs).
Proof. intros H Hb. pose proof (ri_ring _ _ _ H (BusDrivers bus) eq_refl Hb) as Hr. unfold ring in Hr. cbn [content] in Hr. by rewrite <- list_fmap_compose in Hr. Qed.

Lemma on_bus_length s f bus l : (length (on_bus s f bus l) <= length l)%nat.
Proof. apply List.filter_length_le. Qed.

Lemma accepts_bus s drv dev : accepts s drv dev = true -> dget s drv dr_bus = dget s dev dv_bus.
Proof. unfold accepts. rewrite !andb_true_iff. intros [[[H _] _] _]. by apply Z.eqb_eq. Qed.

(** What a registration leaves as it was. *)
Definition fixed (s s' : drivers) : Prop := forall x f, f <> dv_driver_data -> f <> dv_driver -> dget s' x f = dget s x f.

Lemma device_register_ok fuel s devs drvs d :
  rings_ok s devs drvs -> bound s devs drvs -> d ∈ devices -> d ∉ devs -> dget s d dv_bus ∈ buses -> dget s d dv_driver = 0 -> (length drvs < fuel)%nat ->
  exists s', device_register fuel s d = Some (s', 0) /\ rings_ok s' (devs ++ [d]) drvs /\ bound s' (devs ++ [d]) drvs /\ fixed s s' /\
    forall x, x <> d -> dget s' x dv_driver = dget s x dv_driver.
Proof.
  intros Hr Hbd Hd Hni Hb H0 Hf. destruct nonnull as (Nb & Nd & _). unfold device_register.
  rewrite !(proj2 (Z.eqb_neq _ 0)) by (intros E; rewrite E in *; done). cbn [orb].
  destruct (enter_device s devs drvs d Hr Hd Hni Hb) as (m1 & m2 & -> & E2 & Hr2). cbn [mbind option_bind]. rewrite E2. cbn [mbind option_bind].
  set (s1 := with_dlinks s m2) in *. pose proof (on_bus_length s1 dr_bus (dget s d dv_bus) drvs) as Hl.
  pose proof (ring_drivers s1 _ _ _ Hr2 Hb) as Hring.
  change (fun s pos => _) with (try_driver d). rewrite (visit_run (try_driver d) s1 _ _ fuel) with (2 := Hring); [|..].
  - destruct (run_try d (on_bus s1 dr_bus (dget s d dv_bus) drvs) s1) as [Hc Hdr]. set (s' := run _ _ _) in *. cbn [mbind option_bind].
    assert (forall r, r ∈ drvs -> accepts s r d = true -> r ∈ on_bus s1 dr_bus (dget s d dv_bus) drvs) as Hin.
    { intros r Hrr Ha. apply on_bus_in. split; [done|]. by apply accepts_bus in Ha. }
    exists s'. split; [done|]. split; [by apply (rings_ok_same s1)|]. assert (fixed s s') as Hfix by exact (proj2 Hc).
    split; [|split; [done|intros x Hx; by rewrite Hdr, decide_False]].
    intros x Hx. apply elem_of_app in Hx as [Hx|Hx%list_elem_of_singleton].
    + assert (x <> d) by (intros ->; done). rewrite Hdr, decide_False by done. destruct (Hbd x Hx) as [[E Hn]|[E Hn]]; [left|right].
      * split; [exact E|]. intros r Hrr. rewrite (accepts_same s) by done. by apply Hn.
      * rewrite (accepts_same s) by done. done.
    + subst x. rewrite Hdr, decide_True by done. change (dget s1 d dv_driver) with (dget s d dv_driver). rewrite H0.
      destruct (List.find _ _) as [r|] eqn:Ef; cbn [default]; rewrite ?(accepts_same s s') by done.
      * right. apply List.find_some in Ef as [Hrr Ha]. apply list_elem_of_In, on_bus_in in Hrr as [Hrr _]. done.
      * left. split; [done|]. intros r Hrr. rewrite (accepts_same s s') by done. destruct (accepts s r d) eqn:Ea; [|done].
        pose proof (List.find_none _ _ Ef r (proj1 (list_elem_of_In _ _) (Hin r Hrr Ea))) as Hno. cbn beta in Hno.
        rewrite (accepts_same s s1) in Hno by done. congruence.
  - intros s2 p. unfold try_driver. pose proof (driver_probe_device_spec s2 (p - 56) d) as H. destruct (driver_probe_device _ _ _). apply H.
  - rewrite length_fmap. lia.
Qed.

Lemma driver_register_ok fuel s devs drvs r :
  rings_ok s devs drvs -> bound s devs drvs -> r ∈ drvs_known -> r ∉ drvs -> dget s r dr_bus ∈ buses -> (length devs < fuel)%nat ->
  exists s', driver_register fuel s r = Some (s', 0) /\ rings_ok s' devs (drvs ++ [r]) /\ bound s' devs (drvs ++ [r]) /\ fixed s s' /\
    forall x, x ∉ devs -> dget s' x dv_driver = dget s x dv_driver.
Proof.
  intros Hr Hbd Hd Hni Hb Hf. destruct nonnull as (Nb & _ & Nr). assert (r <> 0) as Hr0 by (intros ->; done). unfold driver_register.
  rewrite !(proj2 (Z.eqb_neq _ 0)) by (intros E; rewrite E in *; done). cbn [orb].
  destruct (enter_driver s devs drvs r Hr Hd Hni Hb) as (m1 & m2 & -> & E2 & Hr2). cbn [mbind option_bind]. rewrite E2. cbn [mbind option_bind].
  set (s1 := with_dlinks s m2) in *. pose proof (on_bus_length s1 dv_bus (dget s r dr_bus) devs) as Hl. pose proof (ring_devices s1 _ _ _ Hr2 Hb) as Hring.
  change (fun s pos => _) with (offer r). rewrite (visit_run (offer r) s1 _ _ fuel) with (2 := Hring); [|..].
  - destruct (run_offer r (on_bus s1 dv_bus (dget s r dr_bus) devs) s1 Hr0) as [Hc Hdr]. set (s' := run _ _ _) in *. cbn [mbind option_bind].
    assert (fixed s s') as Hfix by exact (proj2 Hc). exists s'. split; [done|]. split; [by apply (rings_ok_same s1)|]. split; [|split; [done|]].
    + intros x Hx. rewrite Hdr. change (dget s1 x dv_driver) with (dget s x dv_driver). change (accepts s1 r x) with (accepts s r x). case_decide as Hdec.
      * right. rewrite (accepts_same s s') by done. split; [set_solver|tauto].
      * destruct (Hbd x Hx) as [[E Hn]|[E Hn]].
        -- left. split; [done|]. intros r' Hr'. rewrite (accepts_same s s') by done. apply elem_of_app in Hr' as [?|Hr'%list_elem_of_singleton]; [by apply Hn|subst r'].
           destruct (accepts s r x) eqn:Ea; [|done]. destruct Hdec. split; [|done]. apply on_bus_in. split; [done|]. by apply accepts_bus in Ea.
        -- right. rewrite (accepts_same s s') by done. split; [set_solver|done].
    + intros x Hx. rewrite Hdr, decide_False; [done|]. rewrite on_bus_in. tauto.
  - intros s2 p. unfold offer. case_match; [|done]. pose proof (driver_probe_device_spec s2 r (p - 80)) as Hx. destruct (driver_probe_device _ _ _). apply Hx.
  - rewrite length_fmap. lia.
Qed.

(** Devices and drivers in the order they turn up in. *)
Inductive arrival := ADevice (dev : Z) | ADriver (drv : Z).

Definition register (fuel : nat) (s : drivers) (a : arrival) : option (drivers * Z) :=
  match a with ADevice dev => device_register fuel s dev | ADriver drv => driver_register fuel s drv end.

Fixpoint register_all (fuel : nat) (s : drivers) (l : list arrival) : option drivers :=
  match l with
  | [] => Some s
  | a :: l => '(s, r) ← register fuel s a; if r =? 0 then register_all fuel s l else None
  end.

(** An arrival that can be registered. *)
Definition ready (s : drivers) (a : arrival) : Prop :=
  match a with
  | ADevice d => d ∈ devices /\ dget s d dv_bus ∈ buses /\ dget s d dv_driver = 0
  | ADriver r => r ∈ drvs_known /\ dget s r dr_bus ∈ buses
  end.

Lemma register_all_ok fuel : forall l s devs drvs,
  rings_ok s devs drvs -> bound s devs drvs -> NoDup l -> Forall (ready s) l ->
  (forall d, ADevice d ∈ l -> d ∉ devs) -> (forall r, ADriver r ∈ l -> r ∉ drvs) -> (length l + length devs + length drvs < fuel)%nat ->
  exists s' devs' drvs', register_all fuel s l = Some s' /\ rings_ok s' devs' drvs' /\ bound s' devs' drvs' /\ fixed s s' /\
    (forall d, d ∈ devs' <-> d ∈ devs \/ ADevice d ∈ l) /\ (forall r, r ∈ drvs' <-> r ∈ drvs \/ ADriver r ∈ l).
Proof.
  induction l as [|a l IH]; intros s devs drvs Hr Hb Hnd Hrd Hd Hv Hf.
  { exists s, devs, drvs. do 4 (split; [done|]). split; intros x; rewrite elem_of_nil; tauto. }
  apply NoDup_cons in Hnd as [Hal Hnd]. apply Forall_cons in Hrd as [Ha Hrd]. cbn [length] in Hf. cbn [register_all].
  assert (exists s1 devs1 drvs1, register fuel s a = Some (s1, 0) /\ rings_ok s1 devs1 drvs1 /\ bound s1 devs1 drvs1 /\ fixed s s1 /\
    devs1 = devs ++ (if a is ADevice d then [d] else []) /\ drvs1 = drvs ++ (if a is ADriver r then [r] else []) /\
    Forall (ready s1) l) as (s1 & devs1 & drvs1 & -> & Hr1 & Hb1 & Hf1 & E1 & E2 & Hrd1).
  { destruct a as [d|r]; cbn [register ready] in *.
    - destruct Ha as (H1 & H2 & H3). destruct (device_register_ok fuel s devs drvs d) as (s1 & ? & ? & ? & Hfx & Hx); try done; [apply Hd; by left|lia|].
      exists s1, (devs ++ [d]), drvs. rewrite app_nil_r. do 6 (split; [done|]). rewrite Forall_forall in *. intros a Hin. specialize (Hrd a Hin).
      destruct a as [d'|r']; cbn [ready] in *; rewrite Hfx by done; [|done]. rewrite Hx; [done|]. by intros ->.
    - destruct Ha as (H1 & H2). destruct (driver_register_ok fuel s devs drvs r) as (s1 & ? & ? & ? & Hfx & Hx); try done; [apply Hv; by left|lia|].
      exists s1, devs, (drvs ++ [r]). rewrite app_nil_r. do 6 (split; [done|]). rewrite Forall_forall in *. intros a Hin. specialize (Hrd a Hin).
      destruct a as [d'|r']; cbn [ready] in *; rewrite Hfx by done; [|done]. rewrite Hx; [done|]. apply Hd. by right. }
  cbn [mbind option_bind Z.eqb]. destruct (IH s1 devs1 drvs1) as (s' & devs' & drvs' & E & ? & ? & Hfx & Hi1 & Hi2); try done.
  - intros d Hin. rewrite E1, elem_of_app. intros [?|Hx]; [by apply (Hd d); [right|]|]. destruct a; [apply list_elem_of_singleton in Hx; by subst|by apply elem_of_nil in Hx].
  - intros r Hin. rewrite E2, elem_of_app. intros [?|Hx]; [by apply (Hv r); [right|]|]. destruct a; [by apply elem_of_nil in Hx|apply list_elem_of_singleton in Hx; by subst].
  - rewrite E1, E2, !length_app. destruct a; simpl; lia.
  - exists s', devs', drvs'. do 3 (split; [done|]). split; [intros x f ? ?; by rewrite Hfx, Hf1|].
    split; intros x; rewrite ?Hi1, ?Hi2, ?E1, ?E2, elem_of_app, elem_of_cons; destruct a; rewrite ?elem_of_nil, ?list_elem_of_singleton; naive_solver.
Qed.

(** C25: whatever the order in which devices and drivers are registered, all the
    registrations succeed, and at the end every device is bound to a registered driver
    that accepts it (same bus, the bus matches the two, the probe succeeds) if there is
    any; a device that no registered driver accepts is left unbound. *)
Theorem registration_binds fuel s l :
  rings_ok s [] [] -> NoDup l -> Forall (ready s) l -> (length l < fuel)%nat ->
  exists s', register_all fuel s l = Some s' /\
    forall dev, ADevice dev ∈ l ->
      (dget s' dev dv_driver = 0 /\ forall drv, ADriver drv ∈ l -> accepts s drv dev = false) \/
      (ADriver (dget s' dev dv_driver) ∈ l /\ accepts s (dget s' dev dv_driver) dev = true).
Proof.
  intros Hr Hn Hrd Hf. destruct (register_all_ok fuel l s [] []) as (s' & devs & drvs & E & _ & Hb & Hfx & Hd & Hv); try done; [|set_solver..|simpl; lia|].
  { intros d Hin. by apply elem_of_nil in Hin. }
  exists s'. split; [done|]. intros dev Hin. destruct (Hb dev) as [[H0 Hno]|[Hin' Ha]]; [apply Hd; by right|left|right].
  - split; [done|]. intros drv Hdrv. rewrite <- (accepts_same s s') by done. apply Hno, Hv. by right.
  - rewrite (accepts_same s s') in Ha by done. apply Hv in Hin' as [Hx|?]; [by apply elem_of_nil in Hx|done].
Qed.

End driver.

(** ** A bus with three devices, two of which have a driver *)

Definition demo_likes (f dev drv : Z) : bool := dev + 0x1000 =? drv.
Definition demo_match (f : Z) (s : drivers (W := list Z)) (dev drv : Z) : drivers * Z := (s, if demo_likes f dev drv then 1 else 0).
Definition demo_probe (f : Z) (s : drivers (W := list Z)) (dev : Z) : drivers * Z := (DRV (d_st s) (d_links s) (dev :: d_world s), 0).
Definition demo_devices : list Z := [0x2000; 0x2100; 0x2200].
Definition demo_drvs : list Z := [0x3000; 0x3100].

(** The state after the registration of the bus. *)
Definition demo_start : drivers (W := list Z) :=
  let nodes := [bt_bus_list 0x1000; bt_dev_list 0x1000; bt_drv_list 0x1000] ++ (dv_bus_list <$> demo_devices) ++ (dv_global_list <$> demo_devices) ++
               (dr_bus_list <$> demo_drvs) ++ (dr_global_list <$> demo_drvs) in
  let m := foldr (fun a m => <[a := LH 0 0]> m) ∅ nodes in
  let m := foldr (fun a m => INIT_LIST_HEAD m a) m [0x100; 0x110; 0x120] in
  let st := fun a f => match f with
                       | bt_match => 0x900 | dv_bus | dr_bus => 0x1000 | dr_probe => 0x800 | _ => 0
                       end in
  match bus_register 0x100 (DRV st m []) 0x1000 with Some (s, _) => s | None => DRV st m [] end.

Definition demo_arrivals : list arrival := [ADevice 0x2000; ADriver 0x3100; ADriver 0x3000; ADevice 0x2200; ADevice 0x2100].

Ltac demo_cases :=
  repeat match goal with
  | H : _ ∈ _ :: _ |- _ => apply elem_of_cons in H as [H|H]; [subst|]
  | H : _ ∈ [] |- _ => by apply elem_of_nil in H
  | H : known _ _ _ _ |- _ => unfold known, demo_devices, demo_drvs in H
  end.

Lemma demo_rings : rings_ok 0x110 0x120 [0x1000] demo_devices demo_drvs demo_start [] [].
Proof.
  split.
  - intros [| |x|x|x|x|x|x] H; demo_cases; vm_compute; eauto.
  - intros [| |x|x|x|x|x|x] H Hk; try discriminate H; demo_cases; split; try (vm_compute; done); apply NoDup_singleton.
  - intros [| |x|x|x|x|x|x] p H Hk Hp; try discriminate H; by apply elem_of_nil in Hp.
Qed.

Lemma registration_binds_witness :
  exists s', register_all 0x110 0x120 demo_match demo_probe 10 demo_start demo_arrivals = Some s' /\
    dget s' 0x2000 dv_driver = 0x3000 /\ dget s' 0x2100 dv_driver = 0x3100 /\ dget s' 0x2200 dv_driver = 0.
Proof.
  destruct (registration_binds 0x110 0x120 demo_match demo_probe demo_likes (fun _ _ => true)
    ltac:(intros f s dev drv; unfold demo_match; simpl; destruct (demo_likes f dev drv); done) ltac:(done)
    [0x1000] demo_devices demo_drvs
    ltac:(intros [| |x|x|x|x|x|x] [| |y|y|y|y|y|y] Hp Hq E; demo_cases; (reflexivity || discriminate E))
    ltac:(split_and!; apply (bool_decide_unpack _); vm_compute; done) 10 demo_start demo_arrivals demo_rings)
    as (s' & E & Hb); [| |simpl; lia|].
  - unfold demo_arrivals. repeat (apply NoDup_cons; split; [rewrite ?elem_of_cons, elem_of_nil; intuition discriminate|]). apply NoDup_nil_2.
  - unfold demo_arrivals. repeat (apply Forall_cons; split); [..|by apply Forall_nil_2]; cbn [ready]; split_and!;
      apply (bool_decide_unpack _); vm_compute; done.
  - exists s'. split; [done|]. clear Hb. vm_compute in E. injection E as <-. split_and!; reflexivity.
Defined.

End Driver.
