(* ===== verification/Pci.v ===== *)
(** * The PCI bus

    (src/kernel/drivers/bus/pci.c and include/drivers/pci.h.)  Configuration space is
    reached through two I/O ports, one for the address of a register and one for its
    data.  The ports and what is behind them, the host bridge and the functions on the
    bus, are a parameter (the class [Ports]); what the PCI specification says of them
    is the record [config_mechanism], which only the theorems use.  The functions that
    are found become devices of the driver model; their structures and the ports are
    the data of the callbacks there. *)
From S2P Require Import Prelude Allocator ListHead Store SortedQueue Wire Spinlock Heap Driver.
Import Wire ListHead Driver.

Module Pci.

(** ** Configuration space *)

(** The port instructions; the state [P] is that of the hardware. *)
Class Ports (P : Type) := {
  outl : P -> Z -> Z -> P;
  outw : P -> Z -> Z -> P;
  inl_port : P -> Z -> P * Z
}.

Definition PCI_CONFIG_ADDRESS : Z := 0xCF8.
Definition PCI_CONFIG_DATA : Z := 0xCFC.

(** The address of a register: the value for the port [PCI_CONFIG_ADDRESS]. *)
Definition config_address (bus slot func offset : Z) : Z :=
  u32 ((((bus .<< 16) .| (slot .<< 11)) .| (func .<< 8)) .| (offset .& 0xFC) .| 0x80000000).

Section config.
Context {P : Type} `{Ports P}.

Definition pci_write_word (p : P) (bus slot func offset val : Z) : P :=
  let p := outl p PCI_CONFIG_ADDRESS (config_address bus slot func offset) in
  outw p (PCI_CONFIG_DATA + (offset .& 2)) val.

Definition pci_read_config (p : P) (bus slot func offset : Z) : P * Z :=
  let p := outl p PCI_CONFIG_ADDRESS (config_address bus slot func offset) in
  inl_port p PCI_CONFIG_DATA.

Definition pci_read_word (p : P) (bus slot func offset : Z) : P * Z :=
  let '(p, val) := pci_read_config p bus slot func offset in
  (p, u16 ((val .>> ((offset .& 2) * 8)) .& 0xFFFF)).

Definition pci_read_byte (p : P) (bus slot func offset : Z) : P * Z :=
  let '(p, val) := pci_read_config p bus slot func offset in
  (p, u8 ((val .>> ((offset .& 3) * 8)) .& 0xFF)).

End config.

(** ** Devices and drivers *)

Inductive pfld :=
(* struct pci_device *)
| pd_bus | pd_slot | pd_func | pd_vendor_id | pd_device_id | pd_revision_id | pd_prog_if | pd_subclass | pd_class_code | pd_header_type
| pd_bar (i : Z) | pd_interrupt_line
(* struct pci_driver *)
| pr_vendor_id | pr_device_id | pr_class | pr_subclass.

#[export] Instance pfld_eq : EqDecision pfld.
Proof. solve_decision. Defined.

Definition sizeof_pci_device : Z := 160.

Section pci.
Context {A P : Type} `{Allocator A} `{Ports P}.

(** What the driver model does not look at: the ports, the structures, names and heap. *)
Record pci := PCI { p_ports : P; p_st : store pfld; p_name : Z -> list Z; p_heap : A }.
Notation drivers := (drivers (W := pci)).

Definition pget (s : drivers) (a : Z) (f : pfld) : Z := p_st (d_world s) a f.
Definition with_pci (s : drivers) (p : pci) : drivers := DRV (d_st s) (d_links s) p.
Definition with_ports (s : drivers) (c : P) : drivers :=
  with_pci s (PCI c (p_st (d_world s)) (p_name (d_world s)) (p_heap (d_world s))).
Definition with_pst (p : pci) (st : store pfld) : pci := PCI (p_ports p) st (p_name p) (p_heap p).

Definition pci_match (s : drivers) (dev drv : Z) : drivers * Z :=
  (s, if (negb (pget s drv pr_class =? 0) || negb (pget s drv pr_subclass =? 0)) &&
         (pget s dev pd_class_code =? pget s drv pr_class) && (pget s dev pd_subclass =? pget s drv pr_subclass) then 1
      else if pget s drv pr_vendor_id =? 0xFFFF then 1
      else if (pget s drv pr_vendor_id =? pget s dev pd_vendor_id) &&
              ((pget s drv pr_device_id =? 0xFFFF) || (pget s drv pr_device_id =? pget s dev pd_device_id)) then 1
      else 0).

(** The addresses of the list heads and of [pci_bus_type], and the probe functions. *)
Context (bus_list_head global_device_list global_driver_list pci_bus_type pci_match_ptr : Z).
Context (probe_fn : Z -> drivers -> Z -> drivers * Z) (fuel : nat).

(** The bus's [match] is [pci_match]; no other bus is registered here. *)
Definition match_fn (f : Z) (s : drivers) (dev drv : Z) : drivers * Z := pci_match s dev drv.

(** [memset(dev, 0, sizeof(struct pci_device))] *)
Definition clear_pci_device (s : drivers) (dev : Z) : drivers :=
  DRV (fun x f => if decide (x = dev) then 0 else d_st s x f)
    (<[dv_bus_list dev := LH 0 0]> (<[dv_global_list dev := LH 0 0]> (d_links s)))
    (with_pst (d_world s) (fun x f => if decide (x = dev) then 0 else p_st (d_world s) x f)).

(** The fields, in the order they are read from configuration space. *)
Definition fill_device (p : pci) (dev bus device function vendor_id : Z) : pci :=
  let word o c := pci_read_word c bus device function o in
  let byte o c := pci_read_byte c bus device function o in
  let bar i := (pd_bar i, fun c => pci_read_config c bus device function (0x10 + i * 4)) in
  let st := foldl (fun st '(f, v) => wr st dev f v) (p_st p)
    [(pd_bus, bus); (pd_slot, device); (pd_func, function); (pd_vendor_id, vendor_id)] in
  let '(c, st) := foldl (fun '(c, st) '(f, read) => let '(c, v) := read c in (c, wr st dev f v)) (p_ports p, st)
    [(pd_device_id, word 2); (pd_class_code, byte 0xB); (pd_subclass, byte 0xA); (pd_prog_if, byte 0x9); (pd_revision_id, byte 0x8);
     (pd_header_type, byte 0xE); bar 0; bar 1; bar 2; bar 3; bar 4; bar 5; (pd_interrupt_line, byte 0x3C)] in
  PCI c st (fupd (p_name p) dev [112; 99; 105; 95; 48 + bus mod 10; 46; 48 + device mod 10; 46; 48 + function mod 10]) (p_heap p).

Definition pci_check_function (s : drivers) (bus device function : Z) : option drivers :=
  let '(c, vendor_id) := pci_read_word (p_ports (d_world s)) bus device function 0 in
  let s := with_ports s c in
  if vendor_id =? 0xFFFF then Some s
  else
    '(h, dev) ← a_alloc (p_heap (d_world s)) sizeof_pci_device;
    let p := d_world s in
    let s := with_pci s (PCI (p_ports p) (p_st p) (p_name p) h) in
    if dev =? 0 then Some s
    else
      let s := clear_pci_device s dev in
      let s := with_pci s (fill_device (d_world s) dev bus device function vendor_id) in
      let s := dset s dev dv_bus pci_bus_type in
      '(s, _) ← device_register global_device_list match_fn probe_fn fuel s dev;
      Some s.

Definition pci_check_device (s : drivers) (bus device : Z) : option drivers :=
  let '(c, vendor_id) := pci_read_word (p_ports (d_world s)) bus device 0 0 in
  let s := with_ports s c in
  if vendor_id =? 0xFFFF then Some s
  else
    s ← pci_check_function s bus device 0;
    let '(c, header_type) := pci_read_byte (p_ports (d_world s)) bus device 0 0xE in
    let s := with_ports s c in
    if negb (header_type .& 0x80 =? 0) then
      for_up 7 1 (fun f r => s ← r; pci_check_function s bus device f) (Some s)
    else Some s.

Definition pci_scan_bus (s : drivers) : option drivers :=
  for_up 256 0 (fun bus r => for_up 32 0 (fun slot r => s ← r; pci_check_device s bus slot) r) (Some s).

Definition pci_init (s : drivers) : option drivers :=
  let s := dset s pci_bus_type bt_match pci_match_ptr in
  '(s, _) ← bus_register bus_list_head s pci_bus_type;
  pci_scan_bus s.

Definition pci_enable_device (s : drivers) (dev : Z) : drivers * Z :=
  let bus := pget s dev pd_bus in
  let slot := pget s dev pd_slot in
  let func := pget s dev pd_func in
  let '(c, cmd) := pci_read_word (p_ports (d_world s)) bus slot func 4 in
  let cmd := cmd .| 7 in
  (with_ports s (pci_write_word c bus slot func 4 cmd), 0).

Definition pci_register_driver (s : drivers) (driver : Z) : option (drivers * Z) :=
  driver_register global_driver_list match_fn probe_fn fuel (dset s driver dr_bus pci_bus_type) driver.

Definition pci_unregister_driver (s : drivers) (driver : Z) : option drivers := driver_unregister s driver.

End pci.

(** ** Addresses *)

(** A word of a function: bus, slot, function and even offset. *)
Definition is_word (bus slot func offset : Z) : Prop :=
  0 <= bus < 256 /\ 0 <= slot < 32 /\ 0 <= func < 8 /\ 0 <= offset < 256 /\ Z.even offset = true.

Lemma offset_bits offset : 0 <= offset < 256 -> offset .& 0xFC = 4 * (offset / 4) /\ (Z.even offset = true -> offset .& 2 = 2 * (offset / 2 mod 2)).
Proof.
  intros Ho. assert (Forall (fun o => o .& 0xFC = 4 * (o / 4) /\ (Z.even o = true -> o .& 2 = 2 * (o / 2 mod 2))) (seqZ 0 256)) as Hall.
  { apply (bool_decide_unpack _). vm_compute. done. }
  rewrite Forall_forall in Hall. apply Hall, elem_of_seqZ. lia.
Qed.

Lemma config_address_eq bus slot func offset :
  0 <= bus < 256 -> 0 <= slot < 32 -> 0 <= func < 8 -> 0 <= offset < 256 ->
  config_address bus slot func offset = 0x80000000 + bus * 65536 + slot * 2048 + func * 256 + 4 * (offset / 4).
Proof.
  intros Hb Hs Hf Ho. unfold config_address. rewrite (proj1 (offset_bits offset Ho)). assert (0 <= 4 * (offset / 4) < 256) as Hq by (Z.div_mod_to_equations; lia).
  set (q := 4 * (offset / 4)) in *. clearbody q. rewrite (Z.shiftl_mul_pow2 slot), (Z.shiftl_mul_pow2 func) by lia. change (2 ^ 11) with 2048. change (2 ^ 8) with 256.
  rewrite (lor_shift_add bus 16 (slot * 2048)) by lia. replace (bus * 2 ^ 16 + slot * 2048) with ((bus * 32 + slot) .<< 11) by (rewrite Z.shiftl_mul_pow2 by lia; lia).
  rewrite (lor_shift_add (bus * 32 + slot) 11 (func * 256)) by lia. replace ((bus * 32 + slot) * 2 ^ 11 + func * 256) with (((bus * 32 + slot) * 8 + func) .<< 8) by (rewrite Z.shiftl_mul_pow2 by lia; lia).
  rewrite (lor_shift_add _ 8 q) by lia. rewrite Z.lor_comm. change 0x80000000 with (1 .<< 31) at 1. rewrite (lor_shift_add 1 31) by lia. rewrite u32_small by lia. lia.
Qed.

(** Different registers have different addresses. *)
Lemma config_address_inj bus slot func offset bus' slot' func' offset' :
  is_word bus slot func offset -> is_word bus' slot' func' offset' -> config_address bus slot func offset = config_address bus' slot' func' offset' ->
  bus = bus' /\ slot = slot' /\ func = func' /\ offset / 4 = offset' / 4.
Proof.
  intros (? & ? & ? & ? & _) (? & ? & ? & ? & _). rewrite !config_address_eq by done. assert (0 <= offset / 4 < 64 /\ 0 <= offset' / 4 < 64) by (Z.div_mod_to_equations; lia). lia.
Qed.

(** ** The documented behaviour of the ports

    Configuration mechanism 1 of the PCI Local Bus Specification: with an address
    whose bit 31 is set in the address port, the data port is the register at that
    address.  A bit of a register is read-write ([rw]), cleared by writing a one
    ([w1c]), or read-only. *)

Definition enabled (a : Z) : Prop := exists q, a = 0x80000000 + 4 * q /\ 0 <= q < 2 ^ 22.

(** What a bit of these attributes holds after [new] is written to it. *)
Definition written_bit (rw w1c old new : bool) : bool := if rw then new else if w1c then old && negb new else old.

Section mechanism.
Context {P : Type} `{Ports P}.

Record config_mechanism (reg : P -> Z -> Z) (rw w1c : Z -> Z) : Prop := {
  cm_range p a : 0 <= reg p a < 2 ^ 32;
  cm_read p a : enabled a ->
    exists p', inl_port (outl p PCI_CONFIG_ADDRESS a) PCI_CONFIG_DATA = (p', reg p a) /\ forall b, reg p' b = reg p b;
  cm_write p a lane v i : enabled a -> lane = 0 \/ lane = 2 -> 0 <= i < 32 ->
    Z.testbit (reg (outw (outl p PCI_CONFIG_ADDRESS a) (PCI_CONFIG_DATA + lane) v) a) i =
    if decide (8 * lane <= i < 8 * lane + 16)
    then written_bit (Z.testbit (rw a) i) (Z.testbit (w1c a) i) (Z.testbit (reg p a) i) (Z.testbit v (i - 8 * lane))
    else Z.testbit (reg p a) i;
  cm_other p a lane v b : enabled a -> lane = 0 \/ lane = 2 -> b <> a ->
    reg (outw (outl p PCI_CONFIG_ADDRESS a) (PCI_CONFIG_DATA + lane) v) b = reg p b
}.

Context (reg : P -> Z -> Z) (rw w1c : Z -> Z).
Hypothesis mech : config_mechanism reg rw w1c.

(** The word at an even offset: half a register. *)
Definition word_at (p : P) (bus slot func offset : Z) : Z :=
  u16 (reg p (config_address bus slot func offset) .>> (8 * (offset .& 2))).

Lemma is_word_address bus slot func offset :
  is_word bus slot func offset -> enabled (config_address bus slot func offset) /\ (offset .& 2 = 0 \/ offset .& 2 = 2).
Proof.
  intros (Hb & Hs & Hf & Ho & He). split.
  - exists (bus * 16384 + slot * 512 + func * 64 + offset / 4). rewrite config_address_eq by done.
    assert (0 <= offset / 4 < 64) by (Z.div_mod_to_equations; lia). lia.
  - rewrite (proj2 (offset_bits offset Ho) He). pose proof (Z.mod_pos_bound (offset / 2) 2). lia.
Qed.

Lemma word_bit p bus slot func offset i : is_word bus slot func offset -> 0 <= i < 16 ->
  Z.testbit (word_at p bus slot func offset) i = Z.testbit (reg p (config_address bus slot func offset)) (i + 8 * (offset .& 2)).
Proof.
  intros Hw Hi. destruct (is_word_address _ _ _ _ Hw) as [_ Hl]. unfold word_at, u16. rewrite Z.mod_pow2_bits_low, Z.shiftr_spec by lia. done.
Qed.

(** Words are equal when their bits are. *)
Lemma word_ext v w : 0 <= v < 65536 -> 0 <= w < 65536 -> (forall i, 0 <= i < 16 -> Z.testbit v i = Z.testbit w i) -> v = w.
Proof.
  intros Hv Hw Hb. rewrite <- (u16_small v), <- (u16_small w) by done. unfold u16. apply Z.bits_inj'. intros i Hi.
  destruct (Z.lt_ge_cases i 16); [rewrite !Z.mod_pow2_bits_low by lia; by apply Hb|by rewrite !Z.mod_pow2_bits_high by lia].
Qed.

Lemma word_range p bus slot func offset : 0 <= word_at p bus slot func offset < 65536.
Proof. unfold word_at, u16. pose proof (Z.mod_pos_bound (reg p (config_address bus slot func offset) .>> (8 * (offset .& 2))) (2 ^ 16)). lia. Qed.

Lemma read_word_spec p bus slot func offset : is_word bus slot func offset ->
  exists p', pci_read_word p bus slot func offset = (p', word_at p bus slot func offset) /\ forall a, reg p' a = reg p a.
Proof.
  intros Hw. destruct (is_word_address _ _ _ _ Hw) as [Ha _]. unfold pci_read_word, pci_read_config.
  destruct (cm_read _ _ _ mech p _ Ha) as (p' & -> & Hp'). exists p'. split; [|done]. f_equal. unfold word_at.
  rewrite (Z.mul_comm (offset .& 2) 8). change 0xFFFF with (Z.ones 16). rewrite Z.land_ones by lia. unfold u16. by rewrite Z.mod_mod by lia.
Qed.

Lemma write_word_spec p bus slot func offset val : is_word bus slot func offset ->
  let p' := pci_write_word p bus slot func offset val in
  let a := config_address bus slot func offset in
  (forall i, 0 <= i < 16 -> Z.testbit (word_at p' bus slot func offset) i =
     written_bit (Z.testbit (rw a) (i + 8 * (offset .& 2))) (Z.testbit (w1c a) (i + 8 * (offset .& 2)))
       (Z.testbit (word_at p bus slot func offset) i) (Z.testbit val i)) /\
  forall bus' slot' func' offset', is_word bus' slot' func' offset' -> (bus', slot', func', offset') <> (bus, slot, func, offset) ->
    word_at p' bus' slot' func' offset' = word_at p bus' slot' func' offset'.
Proof.
  intros Hw p' a. destruct (is_word_address _ _ _ _ Hw) as [Ha Hl]. fold a in Ha. split.
  - intros i Hi. rewrite !word_bit by done. unfold p', pci_write_word. fold a.
    rewrite (cm_write _ _ _ mech) by (done || lia). rewrite decide_True by lia. by replace (i + 8 * (offset .& 2) - 8 * (offset .& 2)) with i by lia.
  - intros bus' slot' func' offset' Hw' Hne. destruct (is_word_address _ _ _ _ Hw') as [_ Hl'].
    destruct (decide (config_address bus' slot' func' offset' = a)) as [E|E].
    + apply word_ext; [apply word_range..|]. intros i Hi. rewrite !word_bit by done. rewrite E. unfold p', pci_write_word. fold a.
      rewrite (cm_write _ _ _ mech) by (done || lia). rewrite decide_False; [done|].
      destruct (config_address_inj _ _ _ _ _ _ _ _ Hw' Hw E) as (-> & -> & -> & Hq).
      assert (offset' .& 2 <> offset .& 2); [|lia]. destruct Hw as (_ & _ & _ & Ho & He), Hw' as (_ & _ & _ & Ho' & He').
      rewrite (proj2 (offset_bits offset Ho) He), (proj2 (offset_bits offset' Ho') He'). intros Ed. apply Hne. f_equal.
      apply Z.even_spec in He as [x ->], He' as [y ->]. Z.div_mod_to_equations. lia.
    + unfold word_at. unfold p', pci_write_word. fold a. by rewrite (cm_other _ _ _ mech).
Qed.

(** C29: on ports that behave as the specification says, configuration space is an
    array of 16-bit words.  [pci_read_word] returns the word at its address and changes
    none.  After [pci_write_word] the read-write bits of the word are those written, the
    bits that a one clears are cleared where a one was written, and the read-only bits
    are as before; every other word of every function is as before.  So
    [pci_enable_device] sets the three enable bits of the command word of the function,
    where they are writable, and changes no other bit anywhere: the status word, whose
    bits a one would clear, is not written. *)
Theorem pci_config_roundtrip p bus slot func offset :
  is_word bus slot func offset ->
  (exists p', pci_read_word p bus slot func offset = (p', word_at p bus slot func offset) /\ forall a, reg p' a = reg p a) /\
  (forall val, let p' := pci_write_word p bus slot func offset val in
     let a := config_address bus slot func offset in
     (forall i, 0 <= i < 16 -> Z.testbit (word_at p' bus slot func offset) i =
        written_bit (Z.testbit (rw a) (i + 8 * (offset .& 2))) (Z.testbit (w1c a) (i + 8 * (offset .& 2)))
          (Z.testbit (word_at p bus slot func offset) i) (Z.testbit val i)) /\
     forall bus' slot' func' offset', is_word bus' slot' func' offset' -> (bus', slot', func', offset') <> (bus, slot, func, offset) ->
       word_at p' bus' slot' func' offset' = word_at p bus' slot' func' offset') /\
  (forall (A : Type) (HA : Allocator A) (s : drivers (W := pci (A := A) (P := P))) dev,
     p_ports (d_world s) = p -> pget s dev pd_bus = bus -> pget s dev pd_slot = slot -> pget s dev pd_func = func ->
     let a := config_address bus slot func 4 in
     (forall i, 0 <= i < 16 -> Z.testbit (w1c a) i = false) ->
     exists s', pci_enable_device s dev = (s', 0) /\
       (forall i, 0 <= i < 16 -> Z.testbit (word_at (p_ports (d_world s')) bus slot func 4) i =
          Z.testbit (word_at p bus slot func 4) i || (bool_decide (i < 3) && Z.testbit (rw a) i)) /\
       (forall bus' slot' func' offset', is_word bus' slot' func' offset' -> (bus', slot', func', offset') <> (bus, slot, func, 4) ->
          word_at (p_ports (d_world s')) bus' slot' func' offset' = word_at p bus' slot' func' offset')).
Proof.
  intros Hw. split; [by apply read_word_spec|]. split; [intros val; by apply write_word_spec|].
  intros A HA s dev <- Eb Es Ef a Hc. assert (is_word bus slot func 4) as Hw4 by (destruct Hw as (? & ? & ? & _); repeat split; lia).
  unfold pci_enable_device. rewrite Eb, Es, Ef. set (p := p_ports (d_world s)). destruct (read_word_spec p bus slot func 4 Hw4) as (p1 & -> & Hp1).
  assert (forall b sl f o, word_at p1 b sl f o = word_at p b sl f o) as Ew by (intros; unfold word_at; by rewrite Hp1).
  destruct (write_word_spec p1 bus slot func 4 (word_at p bus slot func 4 .| 7) Hw4) as [Hbits Hoth].
  eexists. split; [done|]. cbn [d_world with_ports with_pci p_ports]. split.
  - intros i Hi. rewrite Hbits by done. fold a. change (4 .& 2) with 0. rewrite Z.mul_0_r, Z.add_0_r, Hc, Ew, Z.lor_spec by done. unfold written_bit.
    destruct (decide (i < 3)) as [Hlt|Hge].
    + rewrite (bool_decide_eq_true_2 _ Hlt). assert (Z.testbit 7 i = true) as -> by (change 7 with (Z.ones 3); apply Z.ones_spec_low; lia).
      rewrite orb_true_r. by destruct (Z.testbit (rw a) i), (Z.testbit _ i).
    + rewrite (bool_decide_eq_false_2 _ Hge). assert (Z.testbit 7 i = false) as -> by (change 7 with (Z.ones 3); apply Z.ones_spec_high; lia).
      rewrite !orb_false_r. by destruct (Z.testbit (rw a) i).
  - intros b sl f o Hw' Hne. rewrite Hoth by done. apply Ew.
Qed.

End mechanism.

(** ** A host bridge

    The address port is a latch; behind the data port, registers with the attributes of
    a type 0 header: read-only identification, a command word with three read-write
    bits and a status word cleared by ones, read-write address bits of the base
    address registers. *)
Definition demo_rw (a : Z) : Z :=
  let o := a mod 256 in if o =? 4 then 7 else if (0x10 <=? o) && (o <=? 0x24) then 0xFFFFFFF0 else 0.
Definition demo_w1c (a : Z) : Z := if a mod 256 =? 4 then 0xF9000000 else 0.

(** The register [old] after [v] is written to the bits in [lanes]. *)
Definition demo_update (a old v lanes : Z) : Z :=
  let m := demo_rw a .& lanes in
  Z.ldiff (Z.ldiff old m .| (v .& m)) (Z.ldiff (v .& (demo_w1c a .& lanes)) m).

#[local] Instance demo_ports : Ports (Z * (Z -> Z)) := {
  outl p port v := if port =? PCI_CONFIG_ADDRESS then (v, p.2) else p;
  outw p port v :=
    let lane := port - PCI_CONFIG_DATA in
    (p.1, fupd p.2 p.1 (demo_update p.1 (p.2 p.1) (v .<< (8 * lane)) (0xFFFF .<< (8 * lane))));
  inl_port p port := (p, p.2 p.1)
}.

(** What software sees: 32 bits of a register. *)
Definition demo_reg (p : Z * (Z -> Z)) (a : Z) : Z := u32 (p.2 a).
#[local] Instance demo_ports_u32 : Ports (Z * (Z -> Z)) := {
  outl := outl; outw := outw; inl_port p port := (p, demo_reg p p.1) }.

Lemma demo_mechanism : config_mechanism (P := Z * (Z -> Z)) demo_reg demo_rw demo_w1c.
Proof.
  split.
  - intros p a. apply u32_range.
  - intros p a _. eexists. split; [reflexivity|done].
  - intros p a lane v i _ Hl Hi. unfold demo_reg, u32. rewrite !Z.mod_pow2_bits_low by lia.
    cbn [outw outl demo_ports_u32 demo_ports fst snd]. change (PCI_CONFIG_ADDRESS =? PCI_CONFIG_ADDRESS) with true. cbn [fst snd]. rewrite fupd_same.
    replace (PCI_CONFIG_DATA + lane - PCI_CONFIG_DATA) with lane by lia. unfold demo_update.
    rewrite !Z.ldiff_spec, !Z.lor_spec, !Z.ldiff_spec, !Z.land_spec, !Z.shiftl_spec by lia. change 0xFFFF with (Z.ones 16).
    unfold written_bit. case_decide as Hc.
    + rewrite Z.ones_spec_low by lia. by destruct (Z.testbit (demo_rw a) i), (Z.testbit (demo_w1c a) i), (Z.testbit (p.2 a) i), (Z.testbit v _).
    + assert (Z.testbit (Z.ones 16) (i - 8 * lane) = false) as ->.
      { destruct (Z.lt_ge_cases (i - 8 * lane) 0); [by apply Z.testbit_neg_r|apply Z.ones_spec_high; lia]. }
      by destruct (Z.testbit (demo_rw a) i), (Z.testbit (demo_w1c a) i), (Z.testbit (p.2 a) i), (Z.testbit v _).
  - intros p a lane v b _ _ Hb. unfold demo_reg. cbn [outw outl demo_ports_u32 demo_ports fst snd].
    change (PCI_CONFIG_ADDRESS =? PCI_CONFIG_ADDRESS) with true. cbn [fst snd]. by rewrite fupd_other.
Qed.

(** Writing the status word clears the bits written as ones, and only those; the
    identification stays; a device is enabled. *)
Definition demo_space : Z * (Z -> Z) := (0, fun a => if a mod 256 =? 4 then 0x28100000 else 0x12345678).
Definition demo_drivers : drivers (W := pci (A := Spinlock.cpu * Heap.heap) (P := Z * (Z -> Z))) :=
  DRV (fun _ _ => 0) ∅ (PCI demo_space (fun _ f => match f with pd_bus => 2 | pd_slot => 3 | pd_func => 1 | _ => 0 end) (fun _ => []) (Heap.demo_cpu, Heap.demo_heap)).

Lemma pci_config_roundtrip_witness :
  is_word 2 3 1 6 /\
  word_at demo_reg (pci_write_word demo_space 2 3 1 6 0x2000) 2 3 1 6 = 0x0810 /\
  word_at demo_reg (pci_write_word demo_space 2 3 1 6 0x2000) 2 3 1 0 = 0x5678 /\
  exists s', pci_enable_device demo_drivers 0x100 = (s', 0) /\
    (forall i, 0 <= i < 3 -> Z.testbit (word_at demo_reg (p_ports (d_world s')) 2 3 1 4) i = true) /\
    word_at demo_reg (p_ports (d_world s')) 2 3 1 6 = 0x2810.
Proof.
  assert (is_word 2 3 1 6) as Hw by (repeat split; lia).
  destruct (pci_config_roundtrip demo_reg demo_rw demo_w1c demo_mechanism demo_space 2 3 1 6 Hw) as (_ & Hwr & Hen). split; [exact Hw|].
  destruct (Hwr 0x2000) as [_ Ho]. split; [vm_compute; reflexivity|]. split; [rewrite Ho; [reflexivity|repeat split; lia|discriminate]|].
  destruct (Hen _ Heap.heap_allocator demo_drivers 0x100 eq_refl eq_refl eq_refl eq_refl) as (s' & E & Hb & Hoth).
  - intros i Hi. change (demo_w1c (config_address 2 3 1 4)) with 0xF9000000. change 0xF9000000 with (0xF9 .<< 24). rewrite Z.shiftl_spec by lia. by apply Z.testbit_neg_r; lia.
  - exists s'. split; [exact E|]. split.
    + intros i Hi. rewrite Hb by lia. rewrite bool_decide_eq_true_2 by lia. change (demo_rw (config_address 2 3 1 4)) with (Z.ones 3).
      rewrite Z.ones_spec_low by lia. apply orb_true_r.
    + rewrite Hoth; [reflexivity|exact Hw|discriminate].
Defined.

End Pci.
