(* ===== verification/Socket.v ===== *)
(** * Sockets

    (src/kernel/net/socket.c and include/net/socket.h.)  A table of 128 pointers to
    socket structures from the kernel heap, indexed by descriptor.  The internet
    protocols' operations are the stubs of the source, which all return 0; the table
    is only used with its lock held, so every operation is one step. *)
From S2P Require Import Prelude Allocator Store Spinlock Heap.

Module Socket.

(** ** Data *)

Definition AF_INET : Z := 2.
Definition SOCK_STREAM : Z := 1.
Definition SOCK_DGRAM : Z := 2.
Definition SS_UNCONNECTED : Z := 1.
Definition MAX_SOCKETS : Z := 128.
Definition sizeof_socket : Z := 56.

(** A value stored in a [short]. *)
Definition s16 (x : Z) : Z := (x + 2 ^ 15) mod 2 ^ 16 - 2 ^ 15.

(** The fields of [struct socket]; [sock_alloc] clears them all. *)
Inductive kfld := so_state | so_type | so_flags | so_file | so_sk | so_ops.

#[export] Instance kfld_eq : EqDecision kfld.
Proof. solve_decision. Defined.

Section socket.
Context {A : Type} `{Allocator A}.
(** The addresses of the two operation tables. *)
Context (inet_stream_ops inet_dgram_ops : Z).

Record sockets := SOCKS { k_st : store kfld; socket_table : Z -> Z; k_heap : A }.

Definition kget (s : sockets) (a : Z) (f : kfld) : Z := k_st s a f.
Definition kset (s : sockets) (a : Z) (f : kfld) (v : Z) : sockets := SOCKS (wr (k_st s) a f v) (socket_table s) (k_heap s).

(** [struct proto_ops], of which the source calls three. *)
Record proto_ops := OPS {
  op_bind : option (sockets -> Z -> Z -> Z -> sockets * Z);
  op_connect : option (sockets -> Z -> Z -> Z -> Z -> sockets * Z);
  op_release : option (sockets -> Z -> sockets * Z)
}.

(** ** Operations *)

Definition inet_bind (s : sockets) (sock uaddr addr_len : Z) : sockets * Z := (s, 0).
Definition inet_connect (s : sockets) (sock uaddr addr_len flags : Z) : sockets * Z := (s, 0).
Definition inet_release (s : sockets) (sock : Z) : sockets * Z := (s, 0).

(** The operations behind a pointer; [None] is a table the source does not have. *)
Definition ops_of (p : Z) : option proto_ops :=
  if (p =? inet_stream_ops) || (p =? inet_dgram_ops) then Some (OPS (Some inet_bind) (Some inet_connect) (Some inet_release)) else None.

Definition sock_alloc (s : sockets) : option (sockets * Z) :=
  '(h, sock) ← a_alloc (k_heap s) sizeof_socket;
  let s := SOCKS (k_st s) (socket_table s) h in
  if sock =? 0 then Some (s, 0)
  else
    let s := SOCKS (fun x f => if decide (x = sock) then 0 else k_st s x f) (socket_table s) (k_heap s) in
    Some (kset s sock so_state SS_UNCONNECTED, sock).

Definition sock_get (s : sockets) (fd : Z) : Z :=
  if (fd <? 0) || (MAX_SOCKETS <=? fd) then 0 else socket_table s fd.

Definition install_step (s : sockets) (sock : Z) : Z -> Z + sockets * Z :=
  fun i => if i <? MAX_SOCKETS then
             if socket_table s i =? 0 then inr (SOCKS (k_st s) (fupd (socket_table s) i sock) (k_heap s), i) else inl (i + 1)
           else inr (s, -1).

Definition install_fd (s : sockets) (sock : Z) : option (sockets * Z) := loop 129 (install_step s sock) 0.

Definition sock_release (s : sockets) (sock : Z) : option sockets :=
  s ← (if kget s sock so_ops =? 0 then Some s
       else ops ← ops_of (kget s sock so_ops);
            Some (match op_release ops with Some release => fst (release s sock) | None => s end));
  h ← a_free (k_heap s) sock;
  Some (SOCKS (k_st s) (socket_table s) h).

(** The end of [sys_socket]: a descriptor for the socket, or its release. *)
Definition attach (s : sockets) (sock : Z) : option (sockets * Z) :=
  '(s, fd) ← install_fd s sock;
  if fd <? 0 then s ← sock_release s sock; Some (s, -1) else Some (s, fd).

Definition sys_socket (s : sockets) (domain type protocol : Z) : option (sockets * Z) :=
  if negb (domain =? AF_INET) then Some (s, -1)
  else
    '(s, sock) ← sock_alloc s;
    if sock =? 0 then Some (s, -1)
    else
      let s := kset s sock so_type (s16 type) in
      if type =? SOCK_STREAM then attach (kset s sock so_ops inet_stream_ops) sock
      else if type =? SOCK_DGRAM then attach (kset s sock so_ops inet_dgram_ops) sock
      else s ← sock_release s sock; Some (s, -1).

Definition sys_bind (s : sockets) (fd addr addrlen : Z) : option (sockets * Z) :=
  let sock := sock_get s fd in
  if (sock =? 0) || (kget s sock so_ops =? 0) then Some (s, -1)
  else
    ops ← ops_of (kget s sock so_ops);
    Some (match op_bind ops with Some bind => bind s sock addr addrlen | None => (s, -1) end).

Definition sys_connect (s : sockets) (fd addr addrlen : Z) : option (sockets * Z) :=
  let sock := sock_get s fd in
  if (sock =? 0) || (kget s sock so_ops =? 0) then Some (s, -1)
  else
    ops ← ops_of (kget s sock so_ops);
    Some (match op_connect ops with Some connect => connect s sock addr addrlen 0 | None => (s, -1) end).

Definition sock_init (s : sockets) : sockets := SOCKS (k_st s) (fun _ => 0) (k_heap s).

(** ** The table of sockets *)

Definition fd_ok (fd : Z) : bool := (0 <=? fd) && (fd <? MAX_SOCKETS).

(** Every entry is an allocated socket of its own with operations. *)
Record table_ok (s : sockets) : Prop := {
  to_wf : a_wf (k_heap s);
  to_live : forall fd, fd_ok fd = true -> socket_table s fd <> 0 -> exists t, a_live (k_heap s) (socket_table s fd) t;
  to_ops : forall fd, fd_ok fd = true -> socket_table s fd <> 0 -> kget s (socket_table s fd) so_ops ∈ [inet_stream_ops; inet_dgram_ops];
  to_own : forall fd fd', fd_ok fd = true -> fd_ok fd' = true -> socket_table s fd <> 0 -> socket_table s fd = socket_table s fd' -> fd = fd'
}.

Hypothesis tables : inet_stream_ops <> 0 /\ inet_dgram_ops <> 0.

(** The search takes the lowest free descriptor. *)
Lemma install_fd_spec s sock :
  exists fd, install_fd s sock = Some (if decide (fd = MAX_SOCKETS) then (s, -1) else (SOCKS (k_st s) (fupd (socket_table s) fd sock) (k_heap s), fd)) /\
    0 <= fd <= MAX_SOCKETS /\ (forall i, 0 <= i < fd -> socket_table s i <> 0) /\ (fd < MAX_SOCKETS -> socket_table s fd = 0).
Proof.
  unfold install_fd, MAX_SOCKETS.
  cut (forall n i, 0 <= i <= 128 -> (Z.to_nat (128 - i) <= n)%nat -> (forall j, 0 <= j < i -> socket_table s j <> 0) ->
    exists fd, loop (S n) (install_step s sock) i = Some (if decide (fd = 128) then (s, -1) else (SOCKS (k_st s) (fupd (socket_table s) fd sock) (k_heap s), fd)) /\
      0 <= fd <= 128 /\ (forall j, 0 <= j < fd -> socket_table s j <> 0) /\ (fd < 128 -> socket_table s fd = 0)).
  { intros Hgo. apply (Hgo 128%nat 0); lia. }
  induction n as [|n IH]; intros i Hi Hn Hp; cbn [loop]; unfold install_step at 1; unfold MAX_SOCKETS; destruct (Z.ltb_spec i 128) as [Hlt|Hge].
  - lia.
  - exists 128. split; [done|]. split; [lia|]. split; [|lia]. intros j Hj. apply Hp. lia.
  - destruct (Z.eqb_spec (socket_table s i) 0) as [E|E].
    + exists i. rewrite decide_False by lia. split; [done|]. split; [lia|]. done.
    + destruct (IH (i + 1)) as (fd & Hfd); [lia|lia| |by exists fd]. intros j Hj. destruct (decide (j = i)) as [->|]; [done|]. apply Hp. lia.
  - exists 128. split; [done|]. split; [lia|]. split; [|lia]. intros j Hj. apply Hp. lia.
Qed.

Lemma ops_of_ok p : p ∈ [inet_stream_ops; inet_dgram_ops] -> p <> 0 /\ ops_of p = Some (OPS (Some inet_bind) (Some inet_connect) (Some inet_release)).
Proof.
  intros Hp. destruct tables as [H1 H2]. unfold ops_of. apply elem_of_cons in Hp as [->|Hp%list_elem_of_singleton]; [by rewrite Z.eqb_refl|]. subst p.
  by rewrite Z.eqb_refl, orb_true_r.
Qed.

(** Binding and connecting succeed exactly on the descriptors in use. *)
Lemma sys_bind_connect s fd addr len :
  table_ok s ->
  let r := if fd_ok fd && negb (socket_table s fd =? 0) then 0 else -1 in
  sys_bind s fd addr len = Some (s, r) /\ sys_connect s fd addr len = Some (s, r).
Proof.
  intros Ht. unfold sys_bind, sys_connect, sock_get. assert ((fd <? 0) || (MAX_SOCKETS <=? fd) = negb (fd_ok fd)) as ->.
  { unfold fd_ok, MAX_SOCKETS. destruct (Z.ltb_spec fd 0), (Z.leb_spec 128 fd), (Z.leb_spec 0 fd), (Z.ltb_spec fd 128); lia || done. }
  destruct (fd_ok fd) eqn:Efd; [|done]. cbn [negb andb]. destruct (Z.eqb_spec (socket_table s fd) 0) as [E|E]; cbn [negb orb]; [done|].
  destruct (ops_of_ok _ (to_ops s Ht fd Efd E)) as [Hne ->]. by rewrite (proj2 (Z.eqb_neq _ _) Hne).
Qed.

(** [s] is [s0] with a socket allocated that is in no table. *)
Record unlisted (s s0 : sockets) (sock : Z) : Prop := {
  un_table : table_ok s0;
  un_wf : a_wf (k_heap s);
  un_nonnull : sock <> 0;
  un_new : forall t, ~ a_live (k_heap s0) sock t;
  un_live : exists t, a_live (k_heap s) sock t;
  un_others : forall q t, q <> sock -> a_live (k_heap s) q t <-> a_live (k_heap s0) q t;
  un_fields : forall x f, x <> sock -> kget s x f = kget s0 x f;
  un_same : socket_table s = socket_table s0
}.

Lemma unlisted_kset s s0 sock f v : unlisted s s0 sock -> unlisted (kset s sock f v) s0 sock.
Proof. intros [? ? ? ? ? ? Hf ?]. split; try done. intros x g Hx. rewrite <- Hf by done. unfold kget, kset. cbn [k_st]. by rewrite wr_other by (by left). Qed.

Lemma unlisted_apart s s0 sock fd : unlisted s s0 sock -> fd_ok fd = true -> socket_table s0 fd <> sock.
Proof. intros Hu Hfd E. destruct (to_live s0 (un_table _ _ _ Hu) fd Hfd) as [v Hv]; rewrite E in *; [apply (un_nonnull _ _ _ Hu)|by apply (un_new _ _ _ Hu) in Hv]. Qed.

(** Such a socket is released without a trace. *)
Lemma release_unlisted s s0 sock :
  unlisted s s0 sock -> kget s sock so_ops = 0 \/ kget s sock so_ops ∈ [inet_stream_ops; inet_dgram_ops] ->
  exists s', sock_release s sock = Some s' /\ table_ok s' /\ socket_table s' = socket_table s0 /\ forall q t, a_live (k_heap s') q t <-> a_live (k_heap s0) q t.
Proof.
  intros Hu Ho. pose proof (unlisted_apart s s0 sock) as Hap. destruct Hu as [[T1 T2 T3 T4] Hwf H0 Hnew [t Hl] Hlive Hf Et]. unfold sock_release.
  assert ((if kget s sock so_ops =? 0 then Some s
       else ops ← ops_of (kget s sock so_ops); Some (match op_release ops with Some release => fst (release s sock) | None => s end)) = Some s) as ->.
  { destruct (Z.eqb_spec (kget s sock so_ops) 0); [done|]. destruct Ho as [?|Ho]; [done|]. by destruct (ops_of_ok _ Ho) as [_ ->]. }
  cbn [mbind option_bind]. destruct (a_free_spec _ _ _ Hwf Hl) as (h & -> & Hwf' & Hlive'). cbn [mbind option_bind].
  assert (forall q v, a_live h q v <-> a_live (k_heap s0) q v) as EL.
  { intros q v. rewrite Hlive'. destruct (decide (q = sock)) as [->|Hq]; [split; [tauto|]; intros Hx; by apply Hnew in Hx|]. rewrite Hlive by done. tauto. }
  eexists. split; [done|]. split; [|by split]. split; cbn [k_heap socket_table]; rewrite ?Et; try done.
  - intros fd Hfd Hz. destruct (T2 fd Hfd Hz) as [v Hv]. exists v. by apply EL.
  - intros fd Hfd Hz. unfold kget in *. cbn [k_st]. rewrite Hf; [by apply T3|]. apply Hap; [|done]. split; try done. by exists t.
Qed.

(** [attach] gives the socket the lowest free descriptor, or releases it. *)
Lemma attach_socket_spec s s0 sock :
  unlisted s s0 sock -> kget s sock so_ops ∈ [inet_stream_ops; inet_dgram_ops] ->
  exists s' fd, attach s sock = Some (s', fd) /\ table_ok s' /\
    ((fd = -1 /\ socket_table s' = socket_table s0 /\ (forall q v, a_live (k_heap s') q v <-> a_live (k_heap s0) q v) /\ (forall i, fd_ok i = true -> socket_table s0 i <> 0)) \/
     (fd_ok fd = true /\ socket_table s0 fd = 0 /\ (forall i, 0 <= i < fd -> socket_table s0 i <> 0) /\ (forall i, socket_table s' i = fupd (socket_table s0) fd sock i) /\
      k_st s' = k_st s)).
Proof.
  intros Hu Ho. unfold attach. destruct (install_fd_spec s sock) as (fd & -> & Hfd & Hlow & Hfree). rewrite (un_same _ _ _ Hu) in *.
  case_decide as Hfull; cbn [mbind option_bind Z.ltb Z.compare].
  - destruct (release_unlisted s s0 sock Hu) as (s' & -> & Ht' & Et' & EL'); [by right|]. cbn [mbind option_bind]. exists s', (-1). split; [done|]. split; [done|].
    left. split; [done|]. split; [done|]. split; [done|]. intros i Hi. apply (Hlow i). unfold fd_ok in Hi. subst fd. lia.
  - rewrite (proj2 (Z.ltb_ge fd 0)) by lia. specialize (Hfree ltac:(lia)). eexists _, fd. split; [done|].
    assert (fd_ok fd = true) as Hok by (unfold fd_ok; lia). pose proof (fun i => unlisted_apart s s0 sock i Hu) as Hns. destruct Hu as [[T1 T2 T3 T4] Hwf H0 Hnew Hl Hlive Hf Et].
    split; [split; cbn [k_heap socket_table]|right; by split_and!].
    + done.
    + intros i Hi. unfold fupd. case_decide as Hc; [done|]. intros Hz. destruct (T2 i Hi Hz) as [v Hv]. exists v. apply Hlive; [by apply Hns|done].
    + intros i Hi. unfold fupd. case_decide as Hc; [done|]. intros Hz. unfold kget in *. cbn [k_st]. rewrite Hf by (by apply Hns). by apply T3.
    + intros i j Hi Hj. unfold fupd. repeat case_decide; subst; intros Hz E; try done; [by destruct (Hns j)|by destruct (Hns i)|by apply T4].
Qed.

(** [sock_alloc] returns 0 for lack of memory, else a cleared socket. *)
Lemma sock_alloc_spec s :
  table_ok s -> exists s' sock, sock_alloc s = Some (s', sock) /\
    ((sock = 0 /\ table_ok s' /\ socket_table s' = socket_table s /\ (forall q t, a_live (k_heap s') q t <-> a_live (k_heap s) q t) /\
      exists h, a_alloc (k_heap s) sizeof_socket = Some (h, 0)) \/
     (unlisted s' s sock /\ kget s' sock so_ops = 0 /\ kget s' sock so_state = SS_UNCONNECTED)).
Proof.
  intros Ht. unfold sock_alloc. destruct (a_alloc_spec (k_heap s) sizeof_socket (to_wf s Ht)) as (h & sock & -> & Hwf & Hcase); [unfold sizeof_socket; lia|].
  cbn [mbind option_bind]. destruct (Z.eqb_spec sock 0) as [->|Hs0].
  - destruct Hcase as [[_ HL]|(t & _ & Hn & HL)]; [|exfalso; pose proof (a_live_pos h 0 t Hwf) as Hp; destruct Hp; [apply HL; by left|lia]].
    eexists _, 0. split; [done|]. left. split; [done|]. split; [|split; [done|]; split; [done|by exists h]].
    destruct Ht as [T1 T2 T3 T4]. split; try done. intros fd Hfd Hz. destruct (T2 fd Hfd Hz) as [t Hv]. exists t. by apply HL.
  - destruct Hcase as [[? _]|(t & _ & Hn & HL)]; [done|]. eexists _, sock. split; [done|]. right. split; [|split].
    + apply unlisted_kset. split; try done.
      * exists t. apply HL. by left.
      * intros q v Hq. cbn [k_heap]. rewrite HL. naive_solver.
      * intros x f Hx. unfold kget. cbn [k_st]. by rewrite decide_False.
    + unfold kget, kset. cbn [k_st]. rewrite wr_other by (by right). by rewrite decide_True.
    + unfold kget, kset. cbn [k_st]. by rewrite wr_same.
Qed.

(** How a call of [sys_socket] on [s] ends. *)
Definition socket_result (s : sockets) (domain type : Z) (s' : sockets) (fd : Z) : Prop :=
  (fd = -1 /\ socket_table s' = socket_table s /\ (forall q t, a_live (k_heap s') q t <-> a_live (k_heap s) q t) /\
   (domain <> AF_INET \/ type ∉ [SOCK_STREAM; SOCK_DGRAM] \/ (forall i, fd_ok i = true -> socket_table s i <> 0) \/
    exists h, a_alloc (k_heap s) sizeof_socket = Some (h, 0))) \/
  (fd_ok fd = true /\ domain = AF_INET /\ type ∈ [SOCK_STREAM; SOCK_DGRAM] /\ socket_table s fd = 0 /\ (forall i, 0 <= i < fd -> socket_table s i <> 0) /\
   exists sock, sock <> 0 /\ (forall t, ~ a_live (k_heap s) sock t) /\ (forall i, socket_table s' i = fupd (socket_table s) fd sock i) /\
     kget s' sock so_type = type /\ kget s' sock so_state = SS_UNCONNECTED).

Lemma attach_result s1 s sock type p domain :
  unlisted s1 s sock -> kget s1 sock so_state = SS_UNCONNECTED -> domain = AF_INET -> type ∈ [SOCK_STREAM; SOCK_DGRAM] -> p ∈ [inet_stream_ops; inet_dgram_ops] ->
  exists s' fd, attach (kset (kset s1 sock so_type (s16 type)) sock so_ops p) sock = Some (s', fd) /\ table_ok s' /\ socket_result s domain type s' fd.
Proof.
  intros Hu Hst Hdom Hty Hp. set (s2 := kset _ _ so_ops p).
  assert (unlisted s2 s sock) as Hu2 by by do 2 apply unlisted_kset.
  destruct (attach_socket_spec s2 s sock Hu2) as (s' & fd & E & Ht' & Hc); [unfold s2, kget, kset; cbn [k_st]; by rewrite wr_same|].
  exists s', fd. split; [done|]. split; [done|]. destruct Hc as [(? & ? & ? & ?)|(? & ? & ? & ? & Est)]; [left; tauto|right]. split; [done|]. split; [done|].
  split; [done|]. split; [done|]. split; [done|]. exists sock. split; [apply Hu|]. split; [apply Hu|]. split; [done|].
  unfold kget in *. rewrite Est. unfold s2, kset. cbn [k_st]. split; [|by rewrite !wr_other by (by right)]. rewrite wr_other, wr_same by (by right).
  apply elem_of_cons in Hty as [->|Hty%list_elem_of_singleton]; [done|by subst].
Qed.

(** C28: [sys_socket] on a well-formed table either returns the lowest free
    descriptor, which now holds a freshly allocated socket of the given type, or
    returns -1 and leaves the table and the allocated blocks as they were; it
    fails only for a foreign domain or type, a full table or lack of memory.
    The table stays well formed, and [sys_bind] and [sys_connect] succeed exactly on
    the descriptors in use. *)
Theorem sys_socket_correct s domain type protocol :
  table_ok s ->
  exists s' fd, sys_socket s domain type protocol = Some (s', fd) /\ table_ok s' /\ socket_result s domain type s' fd /\
    forall fd' addr len, let r := if fd_ok fd' && negb (socket_table s' fd' =? 0) then 0 else -1 in
      sys_bind s' fd' addr len = Some (s', r) /\ sys_connect s' fd' addr len = Some (s', r).
Proof.
  intros Ht. cut (exists s' fd, sys_socket s domain type protocol = Some (s', fd) /\ table_ok s' /\ socket_result s domain type s' fd).
  { intros (s' & fd & E & Ht' & Hr). exists s', fd. split; [done|]. split; [done|]. split; [done|]. intros fd' addr len. by apply sys_bind_connect. }
  unfold sys_socket. destruct (Z.eqb_spec domain AF_INET) as [Hdom|Hdom]; cbn [negb]; [|exists s, (-1); split; [done|]; split; [done|]; left; tauto].
  destruct (sock_alloc_spec s Ht) as (s1 & sock & -> & [(-> & Ht1 & Et & EL & Hno)|(Hu & Ho & Hst)]); cbn [mbind option_bind].
  { exists s1, (-1). split; [done|]. split; [done|]. left. tauto. }
  rewrite (proj2 (Z.eqb_neq sock 0)) by apply Hu.
  destruct (Z.eqb_spec type SOCK_STREAM) as [Hty|Hty]; [apply attach_result; subst; (done || by left)|].
  destruct (Z.eqb_spec type SOCK_DGRAM) as [Hty'|Hty']; [apply attach_result; subst; (done || (right; by left))|].
  destruct (release_unlisted (kset s1 sock so_type (s16 type)) s sock) as (s' & -> & Ht' & Et' & EL'); [by apply unlisted_kset| |].
  { left. rewrite <- Ho. unfold kget, kset. cbn [k_st]. by rewrite wr_other by (by right). }
  cbn [mbind option_bind]. exists s', (-1). split; [done|]. split; [done|]. left. split; [done|]. split; [done|]. split; [done|]. right. left.
  rewrite elem_of_cons, list_elem_of_singleton. tauto.
Qed.

End socket.

#[local] Existing Instance Heap.heap_allocator.

(** ** A table with one socket *)

Definition demo_socket_tiles : list (Z * bool) := [(56, false); (4096, true)].

Definition demo_sockets : sockets (A := Spinlock.cpu * Heap.heap) :=
  SOCKS (fun x f => match f with so_ops => if x =? 0x1028 then 0x500 else 0 | _ => 0 end)
    (fun fd => if fd =? 0 then 0x1028 else 0) (Heap.demo_cpu, Heap.heap_of 0x1000 demo_socket_tiles).

Lemma demo_socket_tiles_ok : Heap.tiles_ok 0x1000 demo_socket_tiles.
Proof. split; [done|]. split; [by repeat constructor|done]. Qed.

Lemma demo_sockets_ok : table_ok 0x500 0x600 demo_sockets.
Proof.
  assert (forall fd, socket_table demo_sockets fd <> 0 -> fd = 0) as H0 by (intros fd; simpl; by destruct (Z.eqb_spec fd 0)).
  split.
  - exists demo_socket_tiles. apply Heap.heap_of_rep; [apply demo_socket_tiles_ok|done].
  - intros fd _ Hz. apply H0 in Hz as ->. exists 56. apply Heap.heap_of_live; [apply demo_socket_tiles_ok|done|]. by left.
  - intros fd _ Hz. apply H0 in Hz as ->. by left.
  - intros fd fd' _ _ Hz E. pose proof Hz as Hz'. rewrite E in Hz'. apply H0 in Hz, Hz'. by subst.
Qed.

Lemma sys_socket_correct_witness :
  exists s' fd, sys_socket 0x500 0x600 demo_sockets AF_INET SOCK_DGRAM 0 = Some (s', fd) /\ fd = 1 /\
    sys_bind 0x500 0x600 s' 1 0 0 = Some (s', 0) /\ sys_connect 0x500 0x600 s' 2 0 0 = Some (s', -1).
Proof.
  destruct (sys_socket_correct 0x500 0x600 ltac:(done) demo_sockets AF_INET SOCK_DGRAM 0 demo_sockets_ok) as (s' & fd & E & _ & _ & Hb).
  exists s', fd. split; [done|]. pose proof (proj1 (Hb 1 0 0)) as H1. pose proof (proj2 (Hb 2 0 0)) as H2. clear Hb.
  assert (fd = 1 /\ socket_table s' 1 <> 0 /\ socket_table s' 2 = 0) as (-> & E1 & E2) by (vm_compute in E; injection E as <- <-; done).
  rewrite H1, H2. unfold fd_ok. rewrite E2. cbn. by rewrite (proj2 (Z.eqb_neq _ _) E1).
Defined.

End Socket.
