(* ===== verification/Irq.v ===== *)
(** * Interrupt handlers

    (src/kernel/drivers/core/irq.c and include/drivers/irq.h.)  Every interrupt line
    has a singly linked list of actions.  An action has a handler, which runs in the
    interrupt, or a thread that waits on the semaphore of the action, or both.

    The actions live in the kernel heap; threads are created by the process component
    and woken through the semaphores of the wait-queue component, on the one
    scheduler.  Handlers and thread functions are code of the drivers, given as
    functions behind their pointers. *)
From S2P Require Import Prelude Memory Allocator Spinlock Pmm Heap Vmm Store Sched Process WaitQueue.
Import Sched Process WaitQueue.

Module Irq.

(** ** Data *)

Definition NR_IRQS : Z := 16.
Definition IRQF_SHARED : Z := 0x80.
Definition IRQ_NONE : Z := 0.
Definition IRQ_HANDLED : Z := 1.
Definition IRQ_WAKE_THREAD : Z := 2.
Definition sizeof_irqaction : Z := 152.

Inductive ifld := ia_handler | ia_thread_fn | ia_thread | ia_should_stop | ia_flags | ia_name | ia_dev_id | ia_next.

#[export] Instance ifld_eq : EqDecision ifld.
Proof. solve_decision. Defined.

(** The semaphore within an action. *)
Definition wake_sem (action : Z) : Z := action + 24.

Section irq.
Context {A : Type} `{Allocator A}.

Record irqs := IRQS { q_st : store ifld; irq_desc : Z -> Z; q_sys : system (A := A); q_wst : store wfld }.

Definition iget (s : irqs) (a : Z) (f : ifld) : Z := q_st s a f.
Definition iset (s : irqs) (a : Z) (f : ifld) (v : Z) : irqs := IRQS (wr (q_st s) a f v) (irq_desc s) (q_sys s) (q_wst s).
Definition with_desc (s : irqs) (irq v : Z) : irqs := IRQS (q_st s) (fupd (irq_desc s) irq v) (q_sys s) (q_wst s).
Definition with_qsys (s : irqs) (sys : system) : irqs := IRQS (q_st s) (irq_desc s) sys (q_wst s).

Definition q_heap (s : irqs) : A := ps_heap (q_sys s).
Definition with_qheap (s : irqs) (h : A) : irqs :=
  let y := q_sys s in with_qsys s (Sys (ps_sched y) (ps_pmm y) h (root_dentry y) (root_mnt y) (init_nsproxy y)).

(** The wait queues and the scheduler, as the wait-queue component sees them. *)
Definition waits (s : irqs) : wsys := WSys (ps_sched (q_sys s)) (q_wst s).
Definition with_waits (s : irqs) (w : wsys) : irqs :=
  let y := q_sys s in IRQS (q_st s) (irq_desc s) (Sys (w_sched w) (ps_pmm y) (ps_heap y) (root_dentry y) (root_mnt y) (init_nsproxy y)) (w_st w).

(** The functions behind the pointers to handlers and thread functions. *)
Context (handler_fn : Z -> irqs -> Z -> Z -> irqs * Z).
(** The fuel of the loops over scheduler queues; the control register, the thread
    stub and the address of [irq_thread] for a new kernel thread. *)
Context (fuel : nat) (cpu_cr3 helper irq_thread_entry : Z).

(** ** Operations *)

Definition free_action (s : irqs) (action : Z) : option irqs :=
  h ← a_free (q_heap s) action; Some (with_qheap s h).

(** [while (curr->next) curr = curr->next;] *)
Definition last_step (s : irqs) : Z -> Z + Z :=
  fun curr => if negb (iget s curr ia_next =? 0) then inl (iget s curr ia_next) else inr curr.

Definition request_threaded_irq (s : irqs) (irq handler thread_fn flags name dev : Z) : option (irqs * Z) :=
  if NR_IRQS <=? irq then Some (s, -1)
  else if (handler =? 0) && (thread_fn =? 0) then Some (s, -1)
  else
    '(h, action) ← a_alloc (q_heap s) sizeof_irqaction;
    let s := with_qheap s h in
    if action =? 0 then Some (s, -1)
    else
      let s := iset s action ia_handler handler in
      let s := iset s action ia_thread_fn thread_fn in
      let s := iset s action ia_flags flags in
      let s := iset s action ia_name name in
      let s := iset s action ia_dev_id dev in
      let s := iset s action ia_next 0 in
      let s := iset s action ia_should_stop 0 in
      s ← (if negb (thread_fn =? 0) then
             let s := with_waits s (sem_init (waits s) (wake_sem action) 0) in
             '(sys, thread) ← process_create_kthread fuel cpu_cr3 helper (q_sys s) irq_thread_entry action;
             Some (iset (with_qsys s sys) action ia_thread thread)
           else Some (iset s action ia_thread 0));
      if negb (thread_fn =? 0) && (iget s action ia_thread =? 0) then s ← free_action s action; Some (s, -1)
      else if irq_desc s irq =? 0 then Some (with_desc s irq action, 0)
      else if negb (iget s (irq_desc s irq) ia_flags .& IRQF_SHARED =? 0) && negb (flags .& IRQF_SHARED =? 0) then
        curr ← loop fuel (last_step s) (irq_desc s irq);
        Some (iset s curr ia_next action, 0)
      else s ← free_action s action; Some (s, -1).

Definition request_irq (s : irqs) (irq handler flags name dev : Z) : option (irqs * Z) :=
  request_threaded_irq s irq handler 0 flags name dev.

(** The pointer [curr] of [free_irq] is the link of the action before, or the table
    entry when that is 0; the loop ends at the null link or at the link to the
    action of [dev]. *)
Definition free_step (s : irqs) (irq dev : Z) : Z -> Z + option Z :=
  fun before =>
    let c := link_at (q_st s) ia_next (irq_desc s irq) before in
    if c =? 0 then inr None
    else if iget s c ia_dev_id =? dev then inr (Some before) else inl c.

Definition free_irq (s : irqs) (irq dev : Z) : option irqs :=
  if NR_IRQS <=? irq then Some s
  else
    found ← loop fuel (free_step s irq dev) 0;
    match found with
    | None => Some s
    | Some before =>
        let to_free := link_at (q_st s) ia_next (irq_desc s irq) before in
        let after := iget s to_free ia_next in
        let s := if before =? 0 then with_desc s irq after else iset s before ia_next after in
        if negb (iget s to_free ia_thread =? 0) then
          let s := iset s to_free ia_should_stop 1 in
          w ← sem_post fuel (waits s) (wake_sem to_free);
          Some (with_waits s w)
        else free_action s to_free
    end.

(** One action of [generic_handle_irq]. *)
Definition serve (irq : Z) (s : irqs) (action : Z) : option irqs :=
  let '(s, ret) := if negb (iget s action ia_handler =? 0) then handler_fn (iget s action ia_handler) s irq (iget s action ia_dev_id)
                   else (s, IRQ_WAKE_THREAD) in
  if (ret =? IRQ_WAKE_THREAD) && negb (iget s action ia_thread =? 0) then
    w ← sem_post fuel (waits s) (wake_sem action); Some (with_waits s w)
  else Some s.

Definition handle_step (irq : Z) : irqs * Z -> irqs * Z + option irqs :=
  fun '(s, action) =>
    if action =? 0 then inr (Some s)
    else match serve irq s action with Some s => inl (s, iget s action ia_next) | None => inr None end.

Definition generic_handle_irq (s : irqs) (irq : Z) : option irqs :=
  if NR_IRQS <=? irq then Some s
  else if irq_desc s irq =? 0 then Some s
  else mjoin (loop fuel (handle_step irq) (s, irq_desc s irq)).

(** How one round of [irq_thread] ends: it sleeps on the semaphore, has served a
    wake-up, or frees the action and exits. *)
Inductive thread_round := TSleeps | TServed | TExits.

Definition irq_thread (s : irqs) (action : Z) : option (irqs * thread_round) :=
  let exit s := s ← free_action s action; Some (s, TExits) in
  if negb (iget s action ia_should_stop =? 0) then exit s
  else
    let '(w, ok) := sem_try (waits s) (wake_sem action) in
    let s := with_waits s w in
    if negb ok then Some (s, TSleeps)
    else if negb (iget s action ia_should_stop =? 0) then exit s
    else
      Some (if negb (iget s action ia_thread_fn =? 0) then fst (handler_fn (iget s action ia_thread_fn) s 0 (iget s action ia_dev_id)) else s, TServed).


(** ** The lists of actions *)

Definition line (irq : Z) : Prop := 0 <= irq < NR_IRQS.

(** [acts irq] are the actions of a line, in the order of their registration. *)
Record actions_ok (s : irqs) (acts : Z -> list Z) : Prop := {
  ao_wf : a_wf (q_heap s);
  ao_list : forall irq, line irq -> slist (q_st s) ia_next (irq_desc s irq) (acts irq);
  ao_live : forall irq a, line irq -> a ∈ acts irq -> exists t, a_live (q_heap s) a t;
  ao_own : forall irq irq' a, line irq -> line irq' -> a ∈ acts irq -> a ∈ acts irq' -> irq = irq'
}.

(** The fields of actions, apart from the links, are kept, except those of [a]. *)
Definition keeps_fields (s s' : irqs) (a : Z) : Prop := forall x f, x <> a -> f <> ia_next -> iget s' x f = iget s x f.

Lemma free_action_ok s a t :
  a_wf (q_heap s) -> a_live (q_heap s) a t ->
  exists h, free_action s a = Some (with_qheap s h) /\ a_wf h /\ forall q v, a_live h q v <-> a_live (q_heap s) q v /\ q <> a.
Proof. intros Hwf Hl. unfold free_action. destruct (a_free_spec _ _ _ Hwf Hl) as (h & -> & ? & ?). by exists h. Qed.

(** Entering a new action at the end of a line. *)
Lemma actions_append s s0 acts irq a t before :
  actions_ok s0 acts -> line irq -> a <> 0 -> (forall v, ~ a_live (q_heap s0) a v) -> a_wf (q_heap s) ->
  (forall q v, a_live (q_heap s) q v <-> (q = a /\ v = t) \/ a_live (q_heap s0) q v) ->
  iget s a ia_next = 0 -> (forall x, x <> a -> iget s x ia_next = iget s0 x ia_next) -> irq_desc s = irq_desc s0 -> before = lastp (acts irq) ->
  actions_ok (if before =? 0 then with_desc s irq a else iset s before ia_next a) (fupd acts irq (acts irq ++ [a])).
Proof.
  intros [W L V O] Hirq Ha Hnew Hwf Hlive Hn Hx Ed ->.
  assert (forall i, line i -> a ∉ acts i) as Hni by (intros i Hi Hin; destruct (V i a Hi Hin) as [v Hv]; by apply Hnew in Hv).
  assert (forall i, line i -> slist (q_st s) ia_next (irq_desc s i) (acts i)) as L1.
  { intros i Hi. rewrite Ed. apply (slist_ext (q_st s0)); [|by apply L]. intros x Hin. apply Hx. intros ->. by apply (Hni i). }
  pose proof (slist_relink (q_st s) ia_next (irq_desc s irq) (acts irq) [] a [a]) as Hr. rewrite app_nil_r in Hr.
  specialize (Hr (L1 irq Hirq) ltac:(simpl; done) ltac:(intros y Hy ->%list_elem_of_singleton; by apply (Hni irq))).
  pose proof (lastp_in (acts irq)) as Hlast. split.
  - by destruct (_ =? 0).
  - intros i Hi. unfold fupd at 1. case_decide as Hc.
    + subst i. destruct (_ =? 0); cbn [q_st irq_desc with_desc iset]; [by rewrite fupd_same|done].
    + destruct (Z.eqb_spec (lastp (acts irq)) 0) as [|Hne]; cbn [q_st irq_desc with_desc iset]; [by rewrite fupd_other; [apply L1|]|].
      apply slist_wr; [left|by apply L1]. intros Hin. apply Hc. apply (O i irq _ Hi Hirq Hin), Hlast, Hne.
  - assert (forall x, x ∈ a :: acts irq \/ (exists i, line i /\ x ∈ acts i) -> exists v, a_live (q_heap s) x v) as HL.
    { intros x Hx'. destruct (decide (x = a)) as [->|Hne]; [exists t; apply Hlive; by left|]. assert (exists i, line i /\ x ∈ acts i) as (i & Hi & Hin).
      { destruct Hx' as [Hx'|?]; [|done]. apply elem_of_cons in Hx' as [?|?]; [done|by exists irq]. }
      destruct (V i x Hi Hin) as [v Hv]. exists v. apply Hlive. by right. }
    intros i x Hi Hin. assert (exists v, a_live (q_heap s) x v) as Hv; [|by destruct (_ =? 0)]. apply HL. unfold fupd in Hin. case_decide; [left; set_solver|right; by exists i].
  - intros i j x Hi Hj. unfold fupd. repeat case_decide; subst; rewrite ?elem_of_app, ?list_elem_of_singleton; intros Hin1 Hin2; try done.
    + destruct Hin1 as [Hin1| ->]; [by apply (O irq j x)|by destruct (Hni j Hj)].
    + destruct Hin2 as [Hin2| ->]; [by apply (O i irq x)|by destruct (Hni i Hi)].
    + by apply (O i j x).
Qed.

Lemma actions_ext s acts acts' : actions_ok s acts -> (forall i, acts i = acts' i) -> actions_ok s acts'.
Proof.
  intros [W L V O] E. split; [done|..].
  - intros i Hi. rewrite <- E. by apply L.
  - intros i x Hi. rewrite <- E. by apply V.
  - intros i j x Hi Hj. rewrite <- (E i), <- (E j). by apply O.
Qed.

(** How a call of [request_irq] ends. *)
Inductive requested (s : irqs) (acts : Z -> list Z) (irq handler flags dev : Z) (s' : irqs) : Z -> Prop :=
| request_refused :
    actions_ok s' acts -> (forall q v, a_live (q_heap s') q v <-> a_live (q_heap s) q v) -> irq_desc s' = irq_desc s ->
    (NR_IRQS <= irq \/ handler = 0 \/ no_room (q_heap s) sizeof_irqaction \/
     exists a l, acts irq = a :: l /\ (iget s a ia_flags .& IRQF_SHARED = 0 \/ flags .& IRQF_SHARED = 0)) ->
    requested s acts irq handler flags dev s' (-1)
| request_entered a h :
    line irq -> handler <> 0 -> a_alloc (q_heap s) sizeof_irqaction = Some (h, a) -> a <> 0 -> (forall v, ~ a_live (q_heap s) a v) ->
    (forall b l, acts irq = b :: l -> iget s b ia_flags .& IRQF_SHARED <> 0 /\ flags .& IRQF_SHARED <> 0) ->
    actions_ok s' (fupd acts irq (acts irq ++ [a])) -> (exists t, forall q v, a_live (q_heap s') q v <-> (q = a /\ v = t) \/ a_live (q_heap s) q v) ->
    iget s' a ia_handler = handler -> iget s' a ia_flags = flags -> iget s' a ia_dev_id = dev -> iget s' a ia_thread = 0 -> keeps_fields s s' a ->
    requested s acts irq handler flags dev s' 0.

Lemma lastp_zero s acts irq : actions_ok s acts -> line irq -> (lastp (acts irq) =? 0) = (irq_desc s irq =? 0).
Proof.
  intros Hok Hirq. pose proof (ao_list _ _ Hok irq Hirq) as L. destruct (acts irq) as [|x l _] eqn:E using rev_ind; [by rewrite (L : irq_desc s irq = 0)|].
  rewrite lastp_snoc. rewrite (proj2 (Z.eqb_neq x 0)) by (eapply slist_nonzero; [exact L|set_solver]).
  symmetry. apply Z.eqb_neq. rewrite (slist_head _ _ _ _ L). by destruct l.
Qed.

Lemma request_irq_spec s acts irq handler flags name dev :
  actions_ok s acts -> 0 <= irq -> (length (acts irq) <= fuel)%nat ->
  exists s' r, request_irq s irq handler flags name dev = Some (s', r) /\ requested s acts irq handler flags dev s' r.
Proof.
  intros Hok H0 Hf. unfold request_irq, request_threaded_irq. destruct (Z.leb_spec NR_IRQS irq) as [Hge|Hlt].
  { exists s, (-1). split; [done|]. apply request_refused; try done. by left. }
  rewrite andb_true_r. destruct (Z.eqb_spec handler 0) as [->|Hh0]; [exists s, (-1); split; [done|]; apply request_refused; try done; tauto|].
  destruct (a_alloc_spec (q_heap s) sizeof_irqaction (ao_wf _ _ Hok)) as (h & a & Ea & Hwf & Hcase); [unfold sizeof_irqaction; lia|]. rewrite Ea. cbn [mbind option_bind].
  destruct (Z.eqb_spec a 0) as [->|Ha0].
  { destruct Hcase as [[_ HL]|(t & _ & Hn & HL)]; [|exfalso; destruct (a_live_pos h 0 t Hwf); [apply HL; by left|lia]].
    eexists _, (-1). split; [done|]. apply request_refused; [|done|done|right; right; left; by exists h].
    destruct Hok as [W L V O]. split; try done. intros i x Hi Hin. destruct (V i x Hi Hin) as [v Hv]. exists v. by apply HL. }
  destruct Hcase as [[? _]|(t & _ & Hn & HL)]; [done|]. cbn [Z.eqb negb andb mbind option_bind].
  set (s1 := iset _ a ia_thread 0). assert (line irq) as Hirq by (unfold line; lia).
  assert (forall x f, x <> a -> iget s1 x f = iget s x f) as Hx.
  { intros x f Hx. unfold s1, iget, iset. cbn [q_st]. by rewrite !wr_other by (by left). }
  assert (iget s1 a ia_next = 0 /\ iget s1 a ia_handler = handler /\ iget s1 a ia_flags = flags /\ iget s1 a ia_dev_id = dev /\ iget s1 a ia_thread = 0) as (Hn1 & Hh1 & Hfl1 & Hd1 & Ht1).
  { unfold s1, iget, iset. cbn [q_st]. split_and!; by wr_simp. }
  pose proof (actions_append s1 s acts irq a t _ Hok Hirq Ha0 Hn Hwf HL Hn1 (fun x Hxa => Hx x ia_next Hxa) eq_refl eq_refl) as Happ.
  rewrite (lastp_zero s acts irq Hok Hirq) in Happ. change (irq_desc s1) with (irq_desc s). destruct (Z.eqb_spec (irq_desc s irq) 0) as [E0|E0].
  { eexists _, 0. split; [done|]. apply (request_entered _ _ _ _ _ _ _ a h); try done; [|by exists t|intros x f Hxa _; by apply Hx].
    intros b l El. pose proof (ao_list _ _ Hok irq Hirq) as L. rewrite El in L. destruct L as (E & ? & _). congruence. }
  assert (irq_desc s irq <> a) as Hda by (intros E; destruct (ao_live _ _ Hok irq a Hirq) as [v Hv]; [|by apply Hn in Hv]; rewrite <- E; pose proof (ao_list _ _ Hok irq Hirq) as L; destruct (acts irq); [done|destruct L as [-> _]; by left]).
  rewrite Hx by done. pose proof (ao_list _ _ Hok irq Hirq) as L. destruct (acts irq) as [|b l] eqn:El; [done|]. pose proof L as [Eb _].
  destruct (negb (iget s (irq_desc s irq) ia_flags .& IRQF_SHARED =? 0) && negb (flags .& IRQF_SHARED =? 0)) eqn:Esh.
  - assert (loop fuel (last_step s1) (irq_desc s irq) = Some (lastp (b :: l))) as ->.
    { apply (last_node_loop (q_st s1) ia_next); [done| |done|done]. apply (slist_ext (q_st s)); [|done]. intros x Hin. apply Hx. intros ->.
      destruct (ao_live _ _ Hok irq a Hirq) as [v Hv]; [by rewrite El|by apply Hn in Hv]. }
    cbn [mbind option_bind]. eexists _, 0. split; [done|]. apply (request_entered _ _ _ _ _ _ _ a h); try done.
    + intros b' l' El'. rewrite El in El'. rewrite andb_true_iff, !negb_true_iff, !Z.eqb_neq in Esh. congruence.
    + by rewrite El.
    + by exists t.
    + unfold iget, iset in *. cbn [q_st]. by rewrite wr_other by (by right).
    + unfold iget, iset in *. cbn [q_st]. by rewrite wr_other by (by right).
    + unfold iget, iset in *. cbn [q_st]. by rewrite wr_other by (by right).
    + unfold iget, iset in *. cbn [q_st]. by rewrite wr_other by (by right).
    + intros x f Hxa Hf'. rewrite <- Hx by done. unfold iget, iset. cbn [q_st]. by rewrite wr_other by (by right).
  - destruct (free_action_ok s1 a t) as (h' & -> & Hwf' & HL'); [done|apply HL; by left|]. cbn [mbind option_bind]. eexists _, (-1). split; [done|].
    assert (forall q v, a_live h' q v <-> a_live (q_heap s) q v) as EL.
    { intros q v. rewrite HL'. change (q_heap s1) with h. rewrite HL. split; [naive_solver|]. intros Hq. split; [by right|]. intros ->. by apply Hn in Hq. }
    apply request_refused; [|exact EL|done|].
    + destruct Hok as [W L' V O]. split; try done.
      * intros i Hi. apply (slist_ext (q_st s)); [|by apply L']. intros x Hin. apply Hx. intros ->. destruct (V i a Hi Hin) as [v Hv]. by apply Hn in Hv.
      * intros i x Hi Hin. destruct (V i x Hi Hin) as [v Hv]. exists v. by apply EL.
    + do 3 right. exists b, l. split; [done|]. rewrite <- Eb. apply andb_false_iff in Esh as [E|E]; apply negb_false_iff, Z.eqb_eq in E; [by left|by right].
Qed.


(** The walk of [free_irq] stops at the link to the first action of [dev]. *)
Lemma free_loop s irq dev a l3 : forall l2 l1 n,
  slist (q_st s) ia_next (irq_desc s irq) (l1 ++ l2 ++ a :: l3) -> Forall (fun x => iget s x ia_dev_id <> dev) l2 -> iget s a ia_dev_id = dev ->
  (length l2 < n)%nat -> loop n (free_step s irq dev) (lastp l1) = Some (Some (lastp (l1 ++ l2))).
Proof.
  induction l2 as [|x l2 IH]; intros l1 n Hl Hf Ha Hn; (destruct n as [|n]; [simpl in Hn; lia|]); cbn [loop]; unfold free_step at 1;
    rewrite (link_at_spec _ _ _ _ _ Hl); cbn [app hd_error from_option id].
  - rewrite (proj2 (Z.eqb_neq a 0)) by (eapply slist_nonzero; [exact Hl|set_solver]). by rewrite Ha, Z.eqb_refl, app_nil_r.
  - apply Forall_cons in Hf as [Hx Hf]. rewrite (proj2 (Z.eqb_neq x 0)) by (eapply slist_nonzero; [exact Hl|set_solver]).
    rewrite (proj2 (Z.eqb_neq _ _) Hx). rewrite <- (lastp_snoc l1 x) at 1. replace (l1 ++ x :: l2) with ((l1 ++ [x]) ++ l2) by by rewrite <- app_assoc.
    apply IH; [|done|done|simpl in Hn; lia]. by rewrite <- app_assoc.
Qed.

(** An action that is not there is not found. *)
Lemma free_loop_absent s irq dev : forall l2 l1 n,
  slist (q_st s) ia_next (irq_desc s irq) (l1 ++ l2) -> Forall (fun x => iget s x ia_dev_id <> dev) l2 ->
  (length l2 < n)%nat -> loop n (free_step s irq dev) (lastp l1) = Some None.
Proof.
  induction l2 as [|x l2 IH]; intros l1 n Hl Hf Hn; (destruct n as [|n]; [simpl in Hn; lia|]); cbn [loop]; unfold free_step at 1;
    rewrite (link_at_spec _ _ _ _ _ Hl); cbn [hd_error from_option id]; [done|].
  apply Forall_cons in Hf as [Hx Hf]. rewrite (proj2 (Z.eqb_neq x 0)) by (eapply slist_nonzero; [exact Hl|set_solver]).
  rewrite (proj2 (Z.eqb_neq _ _) Hx). rewrite <- (lastp_snoc l1 x). apply IH; [by rewrite <- app_assoc|done|simpl in Hn; lia].
Qed.

(** Taking an action off its line. *)
Lemma actions_unlink s acts irq l1 a l2 :
  let v := iget s a ia_next in
  let s1 := if lastp l1 =? 0 then with_desc s irq v else iset s (lastp l1) ia_next v in
  actions_ok s acts -> line irq -> acts irq = l1 ++ a :: l2 ->
  actions_ok s1 (fupd acts irq (l1 ++ l2)) /\ q_heap s1 = q_heap s /\ (forall x f, f <> ia_next -> iget s1 x f = iget s x f) /\
  (forall i x, line i -> x ∈ fupd acts irq (l1 ++ l2) i -> x <> a) /\ exists t, a_live (q_heap s) a t.
Proof.
  intros v s1 Hok Hirq El. pose proof Hok as [W L V O]. pose proof (L irq Hirq) as Hl. rewrite El in Hl.
  assert (slist (q_st s) ia_next v l2) as Hl2 by (apply slist_app in Hl as (b & _ & (-> & _ & Hl2)); exact Hl2).
  pose proof (slist_nodup _ _ _ _ Hl) as Hnd. apply NoDup_app in Hnd as (_ & Hdis & Hnd2). apply NoDup_cons in Hnd2 as [Ha2 _].
  pose proof (slist_relink (q_st s) ia_next (irq_desc s irq) l1 (a :: l2) v l2 Hl Hl2 ltac:(set_solver)) as Hr.
  assert (forall x f, f <> ia_next -> iget s1 x f = iget s x f) as Hx.
  { intros x f Hfn. unfold s1. destruct (_ =? 0); [done|]. unfold iget, iset. cbn [q_st]. by rewrite wr_other by (by right). }
  assert (q_heap s1 = q_heap s) as Eh by (unfold s1; by destruct (_ =? 0)).
  assert (forall i x, line i -> x ∈ fupd acts irq (l1 ++ l2) i -> x ∈ acts i /\ x <> a) as Hin.
  { intros i x Hi. unfold fupd. case_decide as Hc.
    - subst i. rewrite El, !elem_of_app, elem_of_cons. intros Hx'. split; [tauto|]. intros ->. destruct Hx' as [Hx'|Hx']; [|done]. by apply (Hdis a Hx'); left.
    - intros Hx'. split; [done|]. intros ->. apply Hc. apply (O i irq a Hi Hirq Hx'). rewrite El. set_solver. }
  split; [|split; [done|split; [done|split; [intros i x Hi Hx'; by apply (Hin i x Hi Hx')|apply (V irq a Hirq); rewrite El; set_solver]]]].
  split; [by rewrite Eh|..].
  - intros i Hi. unfold fupd. case_decide as Hc.
    + subst i. unfold s1. destruct (_ =? 0); cbn [with_desc iset q_st irq_desc]; [by rewrite fupd_same|done].
    + unfold s1. destruct (Z.eqb_spec (lastp l1) 0) as [|Hne]; cbn [with_desc iset q_st irq_desc]; [by rewrite fupd_other; [apply L|]|].
      apply slist_wr; [left|by apply L]. intros Hin'. apply Hc. apply (O i irq _ Hi Hirq Hin'). rewrite El. apply elem_of_app. left. by apply lastp_in.
  - intros i x Hi Hx'. rewrite Eh. destruct (Hin i x Hi Hx') as [Hx1 _]. by apply (V i).
  - intros i j x Hi Hj H1 H2. apply Hin in H1 as [H1 _]; [|done]. apply Hin in H2 as [H2 _]; [|done]. by apply (O i j x).
Qed.

(** What [free_irq] does to the first action [a] of a device. *)
Definition released (s s' : irqs) (acts : Z -> list Z) (a : Z) : Prop :=
  if iget s a ia_thread =? 0 then
    (forall q v, a_live (q_heap s') q v <-> a_live (q_heap s) q v /\ q <> a) /\ actions_ok s' acts /\
    forall x f, f <> ia_next -> iget s' x f = iget s x f
  else
    exists s1 w, sem_post fuel (waits s1) (wake_sem a) = Some w /\ s' = with_waits s1 w /\ waits s1 = waits s /\
      actions_ok s1 acts /\ q_heap s1 = q_heap s /\ iget s1 a ia_should_stop = 1 /\
      forall x f, f <> ia_next -> ~ (x = a /\ f = ia_should_stop) -> iget s1 x f = iget s x f.

Lemma free_irq_spec s acts irq dev l1 a l2 :
  actions_ok s acts -> line irq -> acts irq = l1 ++ a :: l2 -> Forall (fun x => iget s x ia_dev_id <> dev) l1 -> iget s a ia_dev_id = dev ->
  (length l1 < fuel)%nat -> (iget s a ia_thread <> 0 -> is_Some (sem_post fuel (waits s) (wake_sem a))) ->
  exists s', free_irq s irq dev = Some s' /\ released s s' (fupd acts irq (l1 ++ l2)) a.
Proof.
  intros Hok Hirq El Hl1 Ha Hf Hsem. pose proof (ao_list _ _ Hok irq Hirq) as Hl. rewrite El in Hl. unfold free_irq.
  rewrite (proj2 (Z.leb_gt NR_IRQS irq)) by (unfold line in Hirq; lia).
  rewrite (free_loop s irq dev a l2 l1 [] fuel Hl Hl1 Ha Hf : loop fuel (free_step s irq dev) 0 = _). cbn [mbind option_bind app].
  rewrite (link_at_spec _ _ _ _ _ Hl). cbn [hd_error from_option id].
  destruct (actions_unlink s acts irq l1 a l2 Hok Hirq El) as (Hok1 & Eh & Hx & Hne & t & Hlive). cbv zeta in *.
  set (s1 := if lastp l1 =? 0 then _ else _) in *. rewrite Hx by done. unfold released.
  destruct (Z.eqb_spec (iget s a ia_thread) 0) as [Ht|Ht]; cbn [negb].
  - destruct (free_action_ok s1 a t) as (h & -> & Hwf & HL); [by rewrite Eh; apply Hok|by rewrite Eh|]. rewrite Eh in HL. eexists. split; [done|].
    split; [exact HL|]. split; [|exact Hx]. destruct Hok1 as [_ L1 V1 O1]. split; [done|done| |done].
    intros i x Hi Hin. destruct (V1 i x Hi Hin) as [u Hu]. exists u. apply HL. rewrite <- Eh. split; [done|by apply (Hne i)].
  - set (s2 := iset s1 a ia_should_stop 1).
    assert (waits s2 = waits s) as Ew by (unfold s2, s1; by destruct (_ =? 0)). destruct (Hsem Ht) as [w Hw]. rewrite Ew, Hw. cbn [mbind option_bind].
    eexists. split; [done|]. exists s2, w. rewrite Ew. split; [done|]. split; [done|]. split; [done|]. split; [|split; [done|split]].
    + destruct Hok1 as [W1 L1 V1 O1]. split; [done| |done|done]. intros i Hi. apply slist_wr; [by right|by apply L1].
    + unfold s2, iget, iset. cbn [q_st]. apply wr_same.
    + intros x f Hfn Hnx. rewrite <- Hx by done. unfold s2, iget, iset. cbn [q_st]. apply wr_other. destruct (decide (x = a)) as [->|]; [right; naive_solver|by left].
Qed.

(** ** Interrupts *)

(** A handler leaves the actions alone. *)
Hypothesis handler_keeps : forall f s irq dev, q_st (fst (handler_fn f s irq dev)) = q_st s /\ irq_desc (fst (handler_fn f s irq dev)) = irq_desc s.

Fixpoint serve_all (irq : Z) (l : list Z) (s : irqs) : option irqs :=
  match l with
  | [] => Some s
  | a :: l => s ← serve irq s a; serve_all irq l s
  end.

Lemma serve_keeps irq s a s' : serve irq s a = Some s' -> q_st s' = q_st s /\ irq_desc s' = irq_desc s.
Proof.
  unfold serve. assert (forall f d s1 ret, handler_fn f s irq d = (s1, ret) -> q_st s1 = q_st s /\ irq_desc s1 = irq_desc s) as Hk.
  { intros f d s1 ret E. pose proof (handler_keeps f s irq d) as Hh. by rewrite E in Hh. }
  destruct (negb (iget s a ia_handler =? 0)).
  - destruct (handler_fn _ s irq _) as [s1 ret] eqn:E. apply Hk in E. destruct (_ && _); [|intros [= <-]; done].
    destruct (sem_post _ _ _); [|done]. intros [= <-]. done.
  - destruct (_ && _); [|intros [= <-]; done]. destruct (sem_post _ _ _); [|done]. intros [= <-]. done.
Qed.

Lemma handle_loop irq l : forall s a n,
  slist (q_st s) ia_next a l -> (length l < n)%nat -> mjoin (loop n (handle_step irq) (s, a)) = serve_all irq l s.
Proof.
  induction l as [|x l IH]; intros s a n Hl Hn; (destruct n as [|n]; [simpl in Hn; lia|]); cbn [loop handle_step serve_all].
  - by rewrite (Hl : a = 0).
  - destruct Hl as (-> & Hx & Hl). rewrite (proj2 (Z.eqb_neq x 0)) by done. destruct (serve irq s x) as [s1|] eqn:E; [|done]. cbn [mbind option_bind].
    destruct (serve_keeps _ _ _ _ E) as [Es _]. apply IH; [|simpl in Hn; lia]. unfold iget. by rewrite Es.
Qed.

(** An interrupt serves the actions of its line, in order. *)
Lemma generic_handle_irq_spec s acts irq :
  actions_ok s acts -> line irq -> (length (acts irq) < fuel)%nat -> generic_handle_irq s irq = serve_all irq (acts irq) s.
Proof.
  intros Hok Hirq Hf. pose proof (ao_list _ _ Hok irq Hirq) as L. unfold generic_handle_irq. rewrite (proj2 (Z.leb_gt NR_IRQS irq)) by (unfold line in Hirq; lia).
  destruct (Z.eqb_spec (irq_desc s irq) 0) as [E|E]; [|by apply handle_loop]. by rewrite (proj1 (slist_head _ _ _ _ L) E).
Qed.

Lemma serve_all_app irq l1 l2 s : serve_all irq (l1 ++ l2) s = s1 ← serve_all irq l1 s; serve_all irq l2 s1.
Proof. revert s. induction l1 as [|a l1 IH]; intros s; [done|]. cbn [app serve_all]. destruct (serve irq s a) as [s1|]; [|done]. apply IH. Qed.

(** A request for a device that is new on the line, and its end. *)
Lemma request_then_free s acts irq handler flags name dev s1 :
  actions_ok s acts -> 0 <= irq -> (forall i, (length (acts i) + 1 < fuel)%nat) ->
  request_irq s irq handler flags name dev = Some (s1, 0) -> Forall (fun a => iget s a ia_dev_id <> dev) (acts irq) ->
  (exists a, iget s1 a ia_handler = handler /\ iget s1 a ia_dev_id = dev /\
     generic_handle_irq s1 irq = (s2 ← serve_all irq (acts irq) s1; serve irq s2 a)) /\
  (forall i, line i -> i <> irq -> generic_handle_irq s1 i = serve_all i (acts i) s1) /\
  exists s2, free_irq s1 irq dev = Some s2 /\ actions_ok s2 acts /\ (forall q v, a_live (q_heap s2) q v <-> a_live (q_heap s) q v) /\
    forall i, line i -> generic_handle_irq s2 i = serve_all i (acts i) s2.
Proof.
  intros Hok H0 Hf E Hdev. destruct (request_irq_spec s acts irq handler flags name dev Hok H0) as (s1' & r & E' & Hr); [specialize (Hf irq); lia|].
  rewrite E in E'. injection E' as <- <-. inversion Hr as [|a h Hirq Hh0 Eal Ha0 Hn Hsh Hok1 [t HL] Hh Hfl Hd Ht Hk]; subst. clear Hr E.
  assert (forall i, (length (fupd acts irq (acts irq ++ [a]) i) < fuel)%nat) as Hf1.
  { intros i. pose proof (Hf irq). pose proof (Hf i). unfold fupd. case_decide; rewrite ?length_app; simpl; lia. }
  split; [|split].
  - exists a. split; [done|]. split; [done|]. rewrite (generic_handle_irq_spec s1 _ irq Hok1 Hirq (Hf1 irq)), fupd_same, serve_all_app.
    destruct (serve_all irq (acts irq) s1) as [s2|]; [|done]. cbn [mbind option_bind serve_all]. by destruct (serve irq s2 a).
  - intros i Hi Hne. rewrite (generic_handle_irq_spec s1 _ i Hok1 Hi (Hf1 i)). by rewrite fupd_other.
  - assert (forall x, x ∈ acts irq -> x <> a) as Hxa by (intros x Hx ->; destruct (ao_live _ _ Hok irq a Hirq Hx) as [v Hv]; by apply Hn in Hv).
    destruct (free_irq_spec s1 (fupd acts irq (acts irq ++ [a])) irq (iget s1 a ia_dev_id) (acts irq) a []) as (s2 & E2 & Hrel); try done.
    + by rewrite fupd_same.
    + rewrite Forall_forall in *. intros x Hx. rewrite Hk by (done || by apply Hxa). by apply Hdev.
    + pose proof (Hf irq). lia.
    + unfold released in Hrel. rewrite Ht in Hrel. destruct Hrel as (HL2 & Hok2 & _).
      exists s2. split; [done|]. assert (actions_ok s2 acts) as Hok2'.
      { rewrite app_nil_r in Hok2. apply (actions_ext s2 _ acts Hok2). intros i. unfold fupd. case_decide; [by subst|done]. }
      split; [done|]. split.
      * intros q v. rewrite HL2, HL. split; [intros [[[? _]|?] ?]; done|]. intros Hq. split; [by right|]. intros ->. by apply Hn in Hq.
      * intros i Hi. apply generic_handle_irq_spec; [done|done|]. pose proof (Hf i). lia.
Qed.

(** C26: the life of a handler.  [request_irq] enters a new action with the given
    handler, flags and device last on its line exactly when the line exists, the
    handler is not null, the heap has room, and the line is free or shared by both
    its first action and the request; otherwise it returns -1 with the table and the
    allocated blocks as they were.  An interrupt serves the actions of its line, in
    order.  [free_irq] takes the first action of the device off the line, wherever it
    is, and frees it, or, when it has a thread, tells the thread to stop and wakes it;
    it does nothing when the device has no action.  So after a request for a device
    that has none on the line, interrupts of the line serve what was there and then
    the new handler, those of other lines are served as before, and [free_irq] gives
    back the lines and the allocated blocks. *)
Theorem irq_lifecycle s acts irq :
  actions_ok s acts -> 0 <= irq -> (forall i, (length (acts i) + 1 < fuel)%nat) ->
  (forall handler flags name dev,
     exists s1 r, request_irq s irq handler flags name dev = Some (s1, r) /\ requested s acts irq handler flags dev s1 r) /\
  generic_handle_irq s irq = (if NR_IRQS <=? irq then Some s else serve_all irq (acts irq) s) /\
  (forall dev, NR_IRQS <= irq \/ Forall (fun x => iget s x ia_dev_id <> dev) (acts irq) -> free_irq s irq dev = Some s) /\
  (forall dev l1 a l2, line irq -> acts irq = l1 ++ a :: l2 -> Forall (fun x => iget s x ia_dev_id <> dev) l1 -> iget s a ia_dev_id = dev ->
     (iget s a ia_thread <> 0 -> is_Some (sem_post fuel (waits s) (wake_sem a))) ->
     exists s', free_irq s irq dev = Some s' /\ released s s' (fupd acts irq (l1 ++ l2)) a) /\
  (forall handler flags name dev s1, request_irq s irq handler flags name dev = Some (s1, 0) ->
     Forall (fun a => iget s a ia_dev_id <> dev) (acts irq) ->
     (exists a, iget s1 a ia_handler = handler /\ iget s1 a ia_dev_id = dev /\
        generic_handle_irq s1 irq = (s2 ← serve_all irq (acts irq) s1; serve irq s2 a)) /\
     (forall i, line i -> i <> irq -> generic_handle_irq s1 i = serve_all i (acts i) s1) /\
     exists s2, free_irq s1 irq dev = Some s2 /\ actions_ok s2 acts /\ (forall q v, a_live (q_heap s2) q v <-> a_live (q_heap s) q v) /\
       forall i, line i -> generic_handle_irq s2 i = serve_all i (acts i) s2).
Proof.
  intros Hok H0 Hf. split; [|split; [|split; [|split]]].
  - intros handler flags name dev. apply request_irq_spec; [done|done|]. specialize (Hf irq). lia.
  - destruct (Z.leb_spec NR_IRQS irq) as [Hge|Hlt]; [unfold generic_handle_irq; by rewrite (proj2 (Z.leb_le _ _))|].
    apply generic_handle_irq_spec; [done|unfold line; lia|]. specialize (Hf irq). lia.
  - intros dev Hc. unfold free_irq. destruct (Z.leb_spec NR_IRQS irq) as [Hge|Hlt]; [done|]. destruct Hc as [?|Hc]; [lia|].
    pose proof (ao_list _ _ Hok irq ltac:(unfold line; lia)) as Hl.
    rewrite (free_loop_absent s irq dev (acts irq) [] fuel Hl Hc ltac:(specialize (Hf irq); lia) : loop fuel (free_step s irq dev) 0 = _). done.
  - intros dev l1 a l2 Hirq El Hl1 Ha Hsem. apply (free_irq_spec s acts irq dev l1 a l2); try done.
    specialize (Hf irq). rewrite El, length_app in Hf. lia.
  - intros handler flags name dev s1 E Hdev. apply (request_then_free s acts irq handler flags name dev); done.
Qed.

End irq.

(** ** A handler that records the device it was called for *)

#[local] Existing Instance Heap.heap_allocator.

Definition demo_handler (f : Z) (s : irqs (A := Spinlock.cpu * Heap.heap)) (irq dev : Z) : irqs * Z :=
  (IRQS (q_st s) (irq_desc s) (q_sys s) (wr (q_wst s) dev sem_count irq), IRQ_HANDLED).

Definition demo_irqs : irqs := IRQS (fun _ _ => 0) (fun _ => 0) demo_sys (fun _ _ => 0).

Lemma demo_irqs_ok : actions_ok demo_irqs (fun _ => []).
Proof. split; [apply (so_heap _ _ _ demo_sys_ok)|done|intros irq a _ Hin; by apply elem_of_nil in Hin|intros irq irq' a _ _ Hin; by apply elem_of_nil in Hin]. Qed.

(** The request succeeds, the interrupt calls the handler, and after [free_irq]
    nothing is left to serve. *)
Lemma irq_lifecycle_witness :
  exists s1 a s2 s3, request_irq 4 0 0 0 demo_irqs 1 0x500 0 0 0x77 = Some (s1, 0) /\ generic_handle_irq demo_handler 4 s1 1 = serve demo_handler 4 1 s1 a /\
    serve demo_handler 4 1 s1 a = Some s2 /\ q_wst s2 0x77 sem_count = 1 /\
    free_irq 4 s1 1 0x77 = Some s3 /\ generic_handle_irq demo_handler 4 s3 1 = Some s3.
Proof.
  destruct (irq_lifecycle demo_handler 4 0 0 0 ltac:(done) demo_irqs (fun _ => []) 1 demo_irqs_ok ltac:(lia) ltac:(intros i; simpl; lia)) as (Hreq & _ & _ & _ & Hlife).
  destruct (Hreq 0x500 0 0 0x77) as (s1 & r & E & _).
  assert (r = 0) as -> by (vm_compute in E; by injection E).
  destruct (Hlife 0x500 0 0 0x77 s1 E ltac:(by constructor)) as ((a & Hh & Hd & Eg) & _ & s3 & E3 & _ & _ & Hg3).
  destruct (serve demo_handler 4 1 s1 a) as [s2|] eqn:Es.
  - exists s1, a, s2, s3. split; [done|]. split; [by rewrite Eg|]. split; [done|]. split; [|split; [done|]].
    + unfold serve in Es. rewrite Hh, Hd in Es. cbn in Es. injection Es as <-. reflexivity.
    + rewrite Hg3; [done|unfold line, NR_IRQS; lia].
  - unfold serve in Es. rewrite Hh, Hd in Es. discriminate Es.
Defined.

End Irq.
