(* ===== verification/Input.v ===== *)
(** * Input devices

    (src/kernel/drivers/input/input.c, drivers/char/keyboard.c,
    drivers/input/mouse.c and include/drivers/input.h.)  The registries of input
    devices and event handlers, the keyboard with its ring buffer of characters, and
    the PS/2 mouse with its three-byte packets.

    The bytes read from the controller's ports are arguments of the interrupt
    handlers.  Event handlers are code of the callers: [event_fn] gives the function
    behind a pointer, which acts on the callers' data.  A read of the keyboard is
    followed up to the point where it sleeps on the wait queue. *)
From S2P Require Import Prelude Memory Allocator Wire ListHead Store Spinlock Heap Sched WaitQueue.
Import Wire ListHead Sched WaitQueue.

Module Input.

(** ** Data *)

Definition EV_SYN : Z := 0.
Definition EV_KEY : Z := 1.
Definition EV_REL : Z := 2.
Definition SYN_REPORT : Z := 0.
Definition REL_X : Z := 0.
Definition REL_Y : Z := 1.
Definition SIGINT : Z := 2.
Definition EINTR : Z := 4.
Definition KBD_BUFFER_SIZE : Z := 256.
Definition IRQ_NONE : Z := 0.
Definition IRQ_HANDLED : Z := 1.
Definition sizeof_input_dev : Z := 136.

Record input_event := EVENT { ev_timestamp : Z; ev_type : Z; ev_code : Z; ev_value : Z }.

(** The list nodes within [struct input_handler] and [struct input_dev]. *)
Definition ih_list (handler : Z) : Z := handler + 8.
Definition id_list (dev : Z) : Z := dev + 96.

(** A value stored in an [int8_t]. *)
Definition s8 (x : Z) : Z := (x + 128) mod 256 - 128.

(** The characters of the keys, without and with shift. *)
Definition kbd_us : list Z :=
  [0; 27; 49; 50; 51; 52; 53; 54; 55; 56; 57; 48; 45; 61; 8; 9; 113; 119; 101; 114; 116; 121; 117; 105; 111; 112; 91; 93; 10; 0; 97; 115; 100;
   102; 103; 104; 106; 107; 108; 59; 39; 96; 0; 92; 122; 120; 99; 118; 98; 110; 109; 44; 46; 47; 0; 42; 0; 32; 0; 0; 0; 0; 0; 0; 0; 0; 0; 0;
   0; 0; 0; 0; 0; 0; 45; 0; 0; 0; 43] ++ replicate 49 0.
Definition kbd_us_shift : list Z :=
  [0; 27; 33; 64; 35; 36; 37; 94; 38; 42; 40; 41; 95; 43; 8; 9; 81; 87; 69; 82; 84; 89; 85; 73; 79; 80; 123; 125; 10; 0; 65; 83; 68; 70; 71; 72;
   74; 75; 76; 58; 34; 126; 0; 124; 90; 88; 67; 86; 66; 78; 77; 60; 62; 63; 0; 42; 0; 32; 0; 0; 0; 0; 0; 0; 0; 0; 0; 0; 0; 0; 0; 0; 0; 0; 45; 0;
   0; 0; 43] ++ replicate 49 0.
Definition key (table : list Z) (scancode : Z) : Z := default 0 (table !! Z.to_nat scancode).

Section input.
Context {A W : Type} `{Allocator A}.

Record input := INPUT {
  n_links : gmap Z list_head;
  (** The field [event] of a handler, and the data of the callers. *)
  h_event : Z -> Z;
  n_world : W;
  n_heap : A;
  kbd_buffer : Z -> Z;
  kbd_write_idx : Z;
  kbd_read_idx : Z;
  shift_pressed : bool;
  ctrl_pressed : bool;
  kbd_input_dev : Z;
  mouse_byte : Z -> Z;
  mouse_pkt_idx : Z;
  mouse_dev : Z;
  n_waits : wsys
}.

Definition with_links (s : input) (l : gmap Z list_head) : input :=
  INPUT l (h_event s) (n_world s) (n_heap s) (kbd_buffer s) (kbd_write_idx s) (kbd_read_idx s) (shift_pressed s) (ctrl_pressed s)
    (kbd_input_dev s) (mouse_byte s) (mouse_pkt_idx s) (mouse_dev s) (n_waits s).
Definition with_world (s : input) (w : W) : input :=
  INPUT (n_links s) (h_event s) w (n_heap s) (kbd_buffer s) (kbd_write_idx s) (kbd_read_idx s) (shift_pressed s) (ctrl_pressed s)
    (kbd_input_dev s) (mouse_byte s) (mouse_pkt_idx s) (mouse_dev s) (n_waits s).
Definition with_heap (s : input) (h : A) : input :=
  INPUT (n_links s) (h_event s) (n_world s) h (kbd_buffer s) (kbd_write_idx s) (kbd_read_idx s) (shift_pressed s) (ctrl_pressed s)
    (kbd_input_dev s) (mouse_byte s) (mouse_pkt_idx s) (mouse_dev s) (n_waits s).
Definition with_ring (s : input) (b : Z -> Z) (w r : Z) : input :=
  INPUT (n_links s) (h_event s) (n_world s) (n_heap s) b w r (shift_pressed s) (ctrl_pressed s)
    (kbd_input_dev s) (mouse_byte s) (mouse_pkt_idx s) (mouse_dev s) (n_waits s).
Definition with_modifiers (s : input) (shift ctrl : bool) : input :=
  INPUT (n_links s) (h_event s) (n_world s) (n_heap s) (kbd_buffer s) (kbd_write_idx s) (kbd_read_idx s) shift ctrl
    (kbd_input_dev s) (mouse_byte s) (mouse_pkt_idx s) (mouse_dev s) (n_waits s).
Definition with_mouse (s : input) (b : Z -> Z) (i : Z) : input :=
  INPUT (n_links s) (h_event s) (n_world s) (n_heap s) (kbd_buffer s) (kbd_write_idx s) (kbd_read_idx s) (shift_pressed s) (ctrl_pressed s)
    (kbd_input_dev s) b i (mouse_dev s) (n_waits s).
Definition with_nwaits (s : input) (w : wsys) : input :=
  INPUT (n_links s) (h_event s) (n_world s) (n_heap s) (kbd_buffer s) (kbd_write_idx s) (kbd_read_idx s) (shift_pressed s) (ctrl_pressed s)
    (kbd_input_dev s) (mouse_byte s) (mouse_pkt_idx s) (mouse_dev s) w.

(** The addresses of the list of handlers and of the keyboard's wait queue. *)
Context (input_handler_list kbd_wq : Z).
(** The function behind the [event] pointer of a handler. *)
Context (event_fn : Z -> W -> Z -> Z -> input_event -> W).
(** The fuel of the loops over lists. *)
Context (fuel : nat).

(** ** The input core *)

Definition input_allocate_device (s : input) : option (input * Z) :=
  '(h, dev) ← a_alloc (n_heap s) sizeof_input_dev;
  let s := with_heap s h in
  if dev =? 0 then Some (s, 0) else Some (with_links s (<[id_list dev := LH 0 0]> (n_links s)), dev).

Definition input_free_device (s : input) (dev : Z) : option input :=
  h ← a_free (n_heap s) dev; Some (with_heap s h).

Section devices.
(** The address of the list of devices. *)
Context (input_dev_list : Z).

Definition input_register_device (s : input) (dev : Z) : option (input * Z) :=
  if dev =? 0 then Some (s, -1)
  else l ← list_add_tail (n_links s) (id_list dev) input_dev_list; Some (with_links s l, 0).

Definition input_unregister_device (s : input) (dev : Z) : option input :=
  if dev =? 0 then Some s
  else l ← list_del (n_links s) (id_list dev); Some (with_links s l).

End devices.

Definition input_register_handler (s : input) (handler : Z) : option (input * Z) :=
  if handler =? 0 then Some (s, -1)
  else l ← list_add_tail (n_links s) (ih_list handler) input_handler_list; Some (with_links s l, 0).

Definition input_unregister_handler (s : input) (handler : Z) : option input :=
  if handler =? 0 then Some s
  else l ← list_del (n_links s) (ih_list handler); Some (with_links s l).

(** The body of the loop over the handlers. *)
Definition deliver (dev : Z) (ev : input_event) (s : input) (pos : Z) : input :=
  let handler := pos - 8 in
  if h_event s handler =? 0 then s else with_world s (event_fn (h_event s handler) (n_world s) handler dev ev).

Definition input_report_event (s : input) (dev type code value : Z) : option input :=
  l ← list_for_each fuel (n_links s) input_handler_list;
  Some (foldl (deliver dev (EVENT 0 type code value)) s l).

Definition input_sync (s : input) (dev : Z) : option input := input_report_event s dev EV_SYN SYN_REPORT 0.
Definition input_report_key (s : input) (dev code value : Z) : option input := input_report_event s dev EV_KEY code value.
Definition input_report_rel (s : input) (dev code value : Z) : option input := input_report_event s dev EV_REL code value.

(** ** The keyboard *)

(** The event of a key for the input core. *)
Definition report_key_event (s : input) (scancode : Z) : option input :=
  if kbd_input_dev s =? 0 then Some s
  else
    s ← input_report_event s (kbd_input_dev s) EV_KEY (scancode .& 0x7F) (if scancode .& 0x80 =? 0 then 1 else 0);
    input_sync s (kbd_input_dev s).

(** [current_process->pending_signals |= (1 << SIGINT)] *)
Definition interrupt_current (s : input) : input :=
  let w := n_waits s in
  let p := current_process (w_sched w) in
  if p =? 0 then s
  else with_nwaits s (with_sched w (set (w_sched w) p pending_signals (u32 (get (w_sched w) p pending_signals .| (1 .<< SIGINT))))).

(** A character for the ring buffer, dropped when there is no room. *)
Definition push_char (s : input) (c : Z) : option input :=
  let next_write := (kbd_write_idx s + 1) mod KBD_BUFFER_SIZE in
  if next_write =? kbd_read_idx s then Some s
  else
    let s := with_ring s (fupd (kbd_buffer s) (kbd_write_idx s) c) next_write (kbd_read_idx s) in
    w ← wake_up fuel (n_waits s) kbd_wq;
    Some (with_nwaits s w).

Definition keyboard_handler (s : input) (scancode : Z) : option (input * Z) :=
  s ← report_key_event s scancode;
  if (scancode =? 0x2A) || (scancode =? 0x36) then Some (with_modifiers s true (ctrl_pressed s), IRQ_HANDLED)
  else if (scancode =? 0xAA) || (scancode =? 0xB6) then Some (with_modifiers s false (ctrl_pressed s), IRQ_HANDLED)
  else if scancode =? 0x1D then Some (with_modifiers s (shift_pressed s) true, IRQ_HANDLED)
  else if scancode =? 0x9D then Some (with_modifiers s (shift_pressed s) false, IRQ_HANDLED)
  else if negb (scancode .& 0x80 =? 0) then Some (s, IRQ_HANDLED)
  else
    let '(s, c) :=
      if ctrl_pressed s then
        if scancode =? 0x2E then (interrupt_current s, 0x03) else (s, 0)
      else (s, if shift_pressed s then key kbd_us_shift scancode else key kbd_us scancode) in
    if negb (c =? 0) then s ← push_char s c; Some (s, IRQ_HANDLED) else Some (s, IRQ_HANDLED).

(** The loop of [kbd_read] into the buffer at [buf]; [read] bytes are there already. *)
Definition kbd_step (buf count : Z) : input * mem * Z -> input * mem * Z + input * mem * outcome :=
  fun '(s, m, read) =>
    if read <? count then
      if kbd_read_idx s =? kbd_write_idx s then
        if 0 <? read then inr (s, m, Ret read) else inr (s, m, Sleeps kbd_wq)
      else
        let c := kbd_buffer s (kbd_read_idx s) in
        let s := with_ring s (kbd_buffer s) (kbd_write_idx s) ((kbd_read_idx s + 1) mod KBD_BUFFER_SIZE) in
        inl (s, store8 m (buf + read) c, read + 1)
    else inr (s, m, Ret read).

Definition kbd_read (s : input) (m : mem) (buf count : Z) : option (input * mem * outcome) :=
  loop (S (Z.to_nat count)) (kbd_step buf count) (s, m, 0).

(** What follows when the sleeping reader, who has read nothing, is woken. *)
Definition kbd_woken (s : input) (m : mem) (buf count : Z) : option (input * mem * outcome) :=
  let p := current_process (w_sched (n_waits s)) in
  if negb (p =? 0) && negb (get (w_sched (n_waits s)) p pending_signals =? 0) then Some (s, m, Ret (- EINTR))
  else kbd_read s m buf count.

(** ** The mouse *)

(** The packet in [mouse_byte], as events. *)
Definition report_packet (s : input) : option input :=
  let flags := u8 (mouse_byte s 0) in
  let x := mouse_byte s 1 in
  let y := mouse_byte s 2 in
  if negb (flags .& 0xC0 =? 0) then Some s
  else
    let rel_x := x - ((flags .<< 4) .& 0x100) in
    let rel_y := y - ((flags .<< 3) .& 0x100) in
    let dev := mouse_dev s in
    s ← input_report_rel s dev REL_X rel_x;
    s ← input_report_rel s dev REL_Y (- rel_y);
    s ← input_report_key s dev 0x110 (flags .& 1);
    s ← input_report_key s dev 0x111 ((flags .>> 1) .& 1);
    s ← input_report_key s dev 0x112 ((flags .>> 2) .& 1);
    input_sync s dev.

(** [status] and [data] are the bytes read from the ports. *)
Definition mouse_handler (s : input) (status data : Z) : option (input * Z) :=
  if status .& 0x20 =? 0 then Some (s, IRQ_NONE)
  else
    let s := with_mouse s (fupd (mouse_byte s) (mouse_pkt_idx s) (s8 data)) (mouse_pkt_idx s + 1) in
    if mouse_pkt_idx s =? 3 then
      s ← report_packet (with_mouse s (mouse_byte s) 0); Some (s, IRQ_HANDLED)
    else Some (s, IRQ_HANDLED).


(** ** The ring buffer as a queue *)

Definition unread (s : input) : nat := Z.to_nat ((kbd_write_idx s - kbd_read_idx s) mod 256).
(** The characters typed and not yet read, oldest first. *)
Definition pending (s : input) : list Z := (fun i => kbd_buffer s ((kbd_read_idx s + Z.of_nat i) mod 256)) <$> seq 0 (unread s).

Record kbd_ok (s : input) : Prop := {
  ko_write : 0 <= kbd_write_idx s < 256;
  ko_read : 0 <= kbd_read_idx s < 256;
  ko_chars : Forall (fun c => 0 <= c < 256) (pending s)
}.

Lemma pending_length s : length (pending s) = unread s.
Proof. unfold pending. by rewrite length_fmap, length_seq. Qed.

Lemma kbd_ok_same s s' : pending s' = pending s -> kbd_write_idx s' = kbd_write_idx s -> kbd_read_idx s' = kbd_read_idx s -> kbd_ok s -> kbd_ok s'.
Proof. intros Ep Ew Er [? ? ?]. split; congruence. Qed.

(** The queue holds at most 255 characters. *)
Lemma ring_full s : kbd_ok s -> ((kbd_write_idx s + 1) mod KBD_BUFFER_SIZE =? kbd_read_idx s) = (length (pending s) =? 255)%nat.
Proof.
  intros [Hw Hr _]. rewrite pending_length. unfold unread, KBD_BUFFER_SIZE. destruct (Z.eqb_spec ((kbd_write_idx s + 1) mod 256) (kbd_read_idx s)) as [E|E]; symmetry;
    [apply Nat.eqb_eq|apply Nat.eqb_neq]; Z.div_mod_to_equations; lia.
Qed.

Lemma ring_empty s : kbd_ok s -> (kbd_read_idx s =? kbd_write_idx s) = bool_decide (pending s = []).
Proof.
  intros [Hw Hr _]. assert (pending s = [] <-> kbd_read_idx s = kbd_write_idx s) as Hi.
  { rewrite <- length_zero_iff_nil, pending_length. unfold unread. Z.div_mod_to_equations. lia. }
  destruct (Z.eqb_spec (kbd_read_idx s) (kbd_write_idx s)); [rewrite bool_decide_true|rewrite bool_decide_false]; tauto.
Qed.

(** Writing at the write index appends. *)
Lemma pending_push s c :
  kbd_ok s -> length (pending s) <> 255%nat -> 0 <= c < 256 ->
  let s' := with_ring s (fupd (kbd_buffer s) (kbd_write_idx s) c) ((kbd_write_idx s + 1) mod KBD_BUFFER_SIZE) (kbd_read_idx s) in
  pending s' = pending s ++ [c] /\ kbd_ok s'.
Proof.
  intros Hok Hn Hc s'. pose proof Hok as [Hw Hr Hch]. rewrite pending_length in Hn. set (w := kbd_write_idx s) in *. set (r := kbd_read_idx s) in *.
  assert (unread s' = S (unread s)) as Eu.
  { unfold unread in *. change (kbd_write_idx s') with ((w + 1) mod 256). change (kbd_read_idx s') with r. fold w r in Hn. fold w r. Z.div_mod_to_equations. lia. }
  assert (pending s' = pending s ++ [c]) as Ep.
  { unfold pending at 1. rewrite Eu, seq_S, fmap_app. change (kbd_read_idx s') with r. change (kbd_buffer s') with (fupd (kbd_buffer s) w c). f_equal.
    - unfold pending. fold r. apply list_fmap_ext. intros i x Hx. apply lookup_seq in Hx as [-> Hi]. apply fupd_other.
      unfold unread in Hi. fold w r in Hi. Z.div_mod_to_equations. lia.
    - cbn [fmap list_fmap]. f_equal. replace ((r + Z.of_nat (0 + unread s)) mod 256) with w; [by rewrite fupd_same|].
      unfold unread. fold w r. Z.div_mod_to_equations. lia. }
  split; [done|]. split; [change (0 <= (w + 1) mod 256 < 256); Z.div_mod_to_equations; lia|done|]. rewrite Ep, Forall_app. split; [done|]. by constructor.
Qed.

(** Reading at the read index takes the oldest. *)
Lemma pending_pop s :
  kbd_ok s -> pending s <> [] ->
  let s' := with_ring s (kbd_buffer s) (kbd_write_idx s) ((kbd_read_idx s + 1) mod KBD_BUFFER_SIZE) in
  pending s = kbd_buffer s (kbd_read_idx s) :: pending s' /\ kbd_ok s'.
Proof.
  intros Hok Hn s'. pose proof Hok as [Hw Hr Hch]. set (w := kbd_write_idx s) in *. set (r := kbd_read_idx s) in *.
  assert (unread s = S (unread s')) as Eu.
  { rewrite <- length_zero_iff_nil, pending_length in Hn. unfold unread in *. change (kbd_write_idx s') with w. change (kbd_read_idx s') with ((r + 1) mod 256).
    fold w r in Hn. fold w r. Z.div_mod_to_equations. lia. }
  assert (pending s = kbd_buffer s r :: pending s') as Ep.
  { unfold pending at 1. rewrite Eu. cbn [seq fmap list_fmap]. fold r. f_equal; [f_equal; Z.div_mod_to_equations; lia|].
    rewrite <- seq_shift, <- list_fmap_compose. apply list_fmap_ext. intros i x _. unfold compose. change (kbd_buffer s') with (kbd_buffer s).
    change (kbd_read_idx s') with ((r + 1) mod 256). f_equal. Z.div_mod_to_equations. lia. }
  split; [done|]. split; [done|change (0 <= (r + 1) mod 256 < 256); Z.div_mod_to_equations; lia|]. rewrite Ep in Hch. by apply Forall_cons in Hch as [_ ?].
Qed.

(** ** Keys *)

(** What a scan code does to the modifiers, and the character it types, or 0. *)
Definition modifiers (shift ctrl : bool) (sc : Z) : bool * bool :=
  if (sc =? 0x2A) || (sc =? 0x36) then (true, ctrl)
  else if (sc =? 0xAA) || (sc =? 0xB6) then (false, ctrl)
  else if sc =? 0x1D then (shift, true)
  else if sc =? 0x9D then (shift, false)
  else (shift, ctrl).

Definition char_of (shift ctrl : bool) (sc : Z) : Z :=
  if bool_decide (sc ∈ [0x2A; 0x36; 0x1D]) || (128 <=? sc) then 0
  else if ctrl then (if sc =? 0x2E then 3 else 0)
  else key (if shift then kbd_us_shift else kbd_us) sc.

Lemma key_range table sc : Forall (fun c => 0 <= c < 256) table -> 0 <= key table sc < 256.
Proof. intros Ht. unfold key. destruct (table !! Z.to_nat sc) eqn:E; simpl; [|lia]. by apply (Forall_lookup_1 _ _ _ _ Ht E). Qed.

Lemma char_of_range shift ctrl sc : 0 <= char_of shift ctrl sc < 256.
Proof.
  unfold char_of. repeat case_match; try lia; apply key_range; apply (bool_decide_unpack _); vm_compute; done.
Qed.

(** Events reach the handlers only. *)
Lemma report_event_keeps s dev type code value l :
  dlist (n_links s) input_handler_list l -> (length l < fuel)%nat ->
  exists w, input_report_event s dev type code value = Some (with_world s w) /\
    w = foldl (fun w pos => if h_event s (pos - 8) =? 0 then w else event_fn (h_event s (pos - 8)) w (pos - 8) dev (EVENT 0 type code value)) (n_world s) l.
Proof.
  intros Hd Hf. unfold input_report_event. assert (list_for_each fuel (n_links s) input_handler_list = Some l) as ->.
  { pose proof (list_for_each_dlist _ _ _ Hd) as E. unfold list_for_each in *. destruct (loop (S (length l)) _ _) as [x|] eqn:El; [|done].
    by rewrite (loop_more _ _ fuel _ _ El). }
  cbn [mbind option_bind]. eexists. split; [|done]. f_equal. clear Hd Hf. revert s. induction l as [|p l IH]; intros s; [by destruct s|]. cbn [foldl]. rewrite IH.
  unfold deliver. by destruct (_ =? 0).
Qed.


Lemma high_bit sc : 0 <= sc < 256 -> (sc .& 0x80 =? 0) = (sc <? 128).
Proof.
  intros Hs. assert (Forall (fun sc => (sc .& 0x80 =? 0) = (sc <? 128)) (seqZ 0 256)) as Hall by (apply (bool_decide_unpack _); vm_compute; done).
  rewrite Forall_forall in Hall. apply Hall, elem_of_seqZ. lia.
Qed.

Lemma report_key_event_keeps s sc l :
  dlist (n_links s) input_handler_list l -> (length l < fuel)%nat -> exists w, report_key_event s sc = Some (with_world s w).
Proof.
  intros Hd Hf. unfold report_key_event. destruct (_ =? 0); [exists (n_world s); by destruct s|].
  destruct (report_event_keeps s (kbd_input_dev s) EV_KEY (sc .& 0x7F) (if sc .& 0x80 =? 0 then 1 else 0) l Hd Hf) as (w & -> & _). cbn [mbind option_bind].
  destruct (report_event_keeps (with_world s w) (kbd_input_dev s) EV_SYN SYN_REPORT 0 l Hd Hf) as (w' & E & _). exists w'. unfold input_sync. exact E.
Qed.

Lemma push_char_spec s c :
  kbd_ok s -> 0 <= c < 256 ->
  if decide (length (pending s) = 255%nat) then push_char s c = Some s
  else exists s1, push_char s c = (w ← wake_up fuel (n_waits s1) kbd_wq; Some (with_nwaits s1 w)) /\ pending s1 = pending s ++ [c] /\ kbd_ok s1 /\
         n_links s1 = n_links s /\ n_waits s1 = n_waits s /\ shift_pressed s1 = shift_pressed s /\ ctrl_pressed s1 = ctrl_pressed s.
Proof.
  intros Hok Hc. unfold push_char. rewrite (ring_full s Hok). case_decide as Hd; [by rewrite Hd|]. rewrite (proj2 (Nat.eqb_neq _ _) Hd).
  destruct (pending_push s c Hok Hd Hc) as [Ep Hok']. eexists. split; [done|]. done.
Qed.

(** A key: [c] is the character it types. *)
Lemma keyboard_handler_spec s sc l :
  kbd_ok s -> 0 <= sc < 256 -> dlist (n_links s) input_handler_list l -> (length l < fuel)%nat ->
  let c := char_of (shift_pressed s) (ctrl_pressed s) sc in
  exists s1, kbd_ok s1 /\ n_links s1 = n_links s /\ (shift_pressed s1, ctrl_pressed s1) = modifiers (shift_pressed s) (ctrl_pressed s) sc /\
    if decide (c = 0 \/ length (pending s) = 255%nat) then keyboard_handler s sc = Some (s1, IRQ_HANDLED) /\ pending s1 = pending s
    else keyboard_handler s sc = (w ← wake_up fuel (n_waits s1) kbd_wq; Some (with_nwaits s1 w, IRQ_HANDLED)) /\ pending s1 = pending s ++ [c].
Proof.
  intros Hok Hsc Hd Hf c. unfold keyboard_handler. destruct (report_key_event_keeps s sc l Hd Hf) as (w0 & ->). cbn [mbind option_bind].
  set (s0 := with_world s w0). assert (kbd_ok s0) as Hok0 by by apply (kbd_ok_same s). rewrite (high_bit sc Hsc). change (shift_pressed s0) with (shift_pressed s). change (ctrl_pressed s0) with (ctrl_pressed s).
  destruct ((sc =? 0x2A) || (sc =? 0x36)) eqn:E1; [|destruct ((sc =? 0xAA) || (sc =? 0xB6)) eqn:E2; [|destruct (Z.eqb_spec sc 0x1D) as [E3|E3]; [|destruct (Z.eqb_spec sc 0x9D) as [E4|E4]]]].
  - exists (with_modifiers s0 true (ctrl_pressed s)). split; [by apply (kbd_ok_same s)|]. split; [done|]. split; [unfold modifiers; by rewrite E1|]. rewrite decide_True; [done|]. left.
    unfold c, char_of. apply orb_true_iff in E1 as [->%Z.eqb_eq| ->%Z.eqb_eq]; done.
  - exists (with_modifiers s0 false (ctrl_pressed s)). split; [by apply (kbd_ok_same s)|]. split; [done|]. split; [unfold modifiers; by rewrite E1, E2|]. rewrite decide_True; [done|]. left.
    unfold c, char_of. apply orb_true_iff in E2 as [->%Z.eqb_eq| ->%Z.eqb_eq]; done.
  - exists (with_modifiers s0 (shift_pressed s) true). split; [by apply (kbd_ok_same s)|]. split; [done|]. split; [by subst|]. rewrite decide_True; [done|]. left. by subst.
  - exists (with_modifiers s0 (shift_pressed s) false). split; [by apply (kbd_ok_same s)|]. split; [done|]. split; [by subst|]. rewrite decide_True; [done|]. left. by subst.
  - assert (modifiers (shift_pressed s) (ctrl_pressed s) sc = (shift_pressed s, ctrl_pressed s)) as Em.
    { unfold modifiers. by rewrite E1, E2, (proj2 (Z.eqb_neq _ _) E3), (proj2 (Z.eqb_neq _ _) E4). }
    destruct (Z.ltb_spec sc 128) as [Hlt|Hge]; cbn [negb].
    2:{ exists s0. split; [done|]. split; [done|]. split; [by rewrite Em|]. rewrite decide_True; [done|]. left. unfold c, char_of. by rewrite (proj2 (Z.leb_le 128 sc) Hge), orb_true_r. }
    set (sc' := if ctrl_pressed s then _ else _).
    assert (exists s2, sc' = (s2, c) /\ kbd_ok s2 /\ pending s2 = pending s /\ n_links s2 = n_links s /\ shift_pressed s2 = shift_pressed s /\ ctrl_pressed s2 = ctrl_pressed s) as (s2 & -> & Hok2 & Ep2 & El2 & Es2 & Ec2).
    { unfold sc', c, char_of. rewrite bool_decide_false, (proj2 (Z.leb_gt 128 sc) Hlt).
      - cbn [orb]. destruct (ctrl_pressed s) eqn:Ect; [destruct (sc =? 0x2E); [exists (interrupt_current s0)|by exists s0]|exists s0; by destruct (shift_pressed s) eqn:?].
        unfold interrupt_current. destruct (_ =? 0); [done|]. split; [done|]. split; [by apply (kbd_ok_same s)|done].
      - apply orb_false_iff in E1 as [Ea%Z.eqb_neq Eb%Z.eqb_neq]. set_solver. }
    pose proof (char_of_range (shift_pressed s) (ctrl_pressed s) sc) as Hc. fold c in Hc. destruct (Z.eqb_spec c 0) as [Ec|Ec]; cbn [negb].
    { exists s2. split; [done|]. split; [done|]. split; [by rewrite Em, Es2, Ec2|]. rewrite decide_True by (by left). done. }
    pose proof (push_char_spec s2 c Hok2 Hc) as Hp. rewrite Ep2 in Hp. case_decide as Hfull.
    { exists s2. split; [done|]. split; [done|]. split; [by rewrite Em, Es2, Ec2|]. rewrite decide_True by (by right). by rewrite Hp. }
    destruct Hp as (s3 & -> & Ep3 & Hok3 & El3 & _ & Es3 & Ec3). exists s3. split; [done|]. split; [by rewrite El3|]. split; [by rewrite Em, Es3, Ec3, Es2, Ec2|].
    rewrite decide_False by tauto. split; [|done]. by destruct (wake_up _ _ _).
Qed.

Lemma loop_next {St R : Type} n (step : St -> St + R) s : loop (S n) step s = match step s with inl s' => loop n step s' | inr r => Some r end.
Proof. done. Qed.

(** A read takes what there is, up to [count]. *)
Lemma kbd_loop buf count : forall n s m read,
  kbd_ok s -> mem_ok m -> 0 <= read <= count -> (Z.to_nat (count - read) <= n)%nat -> (read = 0 -> count = 0 \/ pending s <> []) ->
  let k := Nat.min (Z.to_nat (count - read)) (length (pending s)) in
  exists s' m', loop (S n) (kbd_step buf count) (s, m, read) = Some (s', m', Ret (read + Z.of_nat k)) /\ kbd_ok s' /\ pending s' = drop k (pending s) /\
    bytes_at m' (buf + read) k = take k (pending s) /\ (forall x, x < buf + read \/ buf + read + Z.of_nat k <= x -> m' x = m x) /\
    n_links s' = n_links s /\ n_waits s' = n_waits s /\ shift_pressed s' = shift_pressed s /\ ctrl_pressed s' = ctrl_pressed s.
Proof.
  induction n as [|n IH]; intros s m read Hok Hm Hr Hn H0 k; rewrite loop_next; unfold kbd_step at 1; destruct (Z.ltb_spec read count) as [Hlt|Hge]; try lia.
  - exists s, m. unfold k. replace (Z.to_nat (count - read)) with 0%nat by lia. rewrite Z.add_0_r. done.
  - rewrite (ring_empty s Hok). case_bool_decide as Hp.
    + assert (k = 0%nat) as -> by (unfold k; rewrite Hp; simpl; lia). destruct (Z.ltb_spec 0 read) as [Hr0|Hr0]; [|destruct H0; [lia|lia|done]].
      exists s, m. rewrite Z.add_0_r, Hp. split; [done|]. split; [done|]. done.
    + destruct (pending_pop s Hok Hp) as [Ep Hok1]. set (s1 := with_ring s _ _ _) in *. set (c := kbd_buffer s (kbd_read_idx s)) in *.
      assert (0 <= c < 256) as Hc by (pose proof (ko_chars _ Hok) as Hch; rewrite Ep in Hch; by apply Forall_cons in Hch as [? _]).
      destruct (IH s1 (store8 m (buf + read) c) (read + 1)) as (s' & m' & E & Hok' & Ep' & Eb' & Ex' & Er'); [done|by apply store8_ok|lia|lia|lia|].
      set (k1 := Nat.min (Z.to_nat (count - (read + 1))) (length (pending s1))) in *. assert (k = S k1) as Ek by (unfold k, k1; rewrite Ep; cbn [length]; lia).
      rewrite Ek, Ep. exists s', m'. split; [rewrite E; do 3 f_equal; lia|]. split; [done|]. split; [done|]. split; [|split; [|exact Er']].
      * rewrite bytes_at_cons. cbn [take]. f_equal; [rewrite Ex' by lia; rewrite store8_same, u8_small by lia; done|]. rewrite <- Eb'. f_equal. lia.
      * intros x Hx. rewrite Ex' by lia. apply store8_other. lia.
  - exists s, m. unfold k. replace (Z.to_nat (count - read)) with 0%nat by lia. rewrite Z.add_0_r. done.
Qed.

Lemma kbd_read_spec s m buf count :
  kbd_ok s -> mem_ok m -> 0 <= count ->
  if decide (count <> 0 /\ pending s = []) then kbd_read s m buf count = Some (s, m, Sleeps kbd_wq)
  else
    let k := Nat.min (Z.to_nat count) (length (pending s)) in
    exists s' m', kbd_read s m buf count = Some (s', m', Ret (Z.of_nat k)) /\ kbd_ok s' /\ pending s' = drop k (pending s) /\
      bytes_at m' buf k = take k (pending s) /\ (forall x, x < buf \/ buf + Z.of_nat k <= x -> m' x = m x) /\
      n_links s' = n_links s /\ n_waits s' = n_waits s /\ shift_pressed s' = shift_pressed s /\ ctrl_pressed s' = ctrl_pressed s.
Proof.
  intros Hok Hm Hc. case_decide as Hd.
  - destruct Hd as [Hc0 Hp]. unfold kbd_read. cbn [loop]. unfold kbd_step at 1. rewrite (proj2 (Z.ltb_lt 0 count)) by lia. rewrite (ring_empty s Hok), bool_decide_true by done. done.
  - destruct (kbd_loop buf count (Z.to_nat count) s m 0 Hok Hm ltac:(lia) ltac:(lia)) as (s' & m' & E & H'); [intros _; destruct (decide (count = 0)); [by left|right; tauto]|].
    rewrite Z.sub_0_r, !Z.add_0_r in *. by exists s', m'.
Qed.


(** ** Typing and reading, interleaved *)

(** The keyboard with what has been typed, what readers have got, and whether a
    character was dropped for lack of room. *)
Record session := SESSION { k_sys : input; k_typed : list Z; k_got : list Z; k_lost : bool }.

Definition typed_by (s : input) (sc : Z) : list Z :=
  let c := char_of (shift_pressed s) (ctrl_pressed s) sc in if c =? 0 then [] else [c].

Inductive kstep : session -> session -> Prop :=
| step_key s typed got lost sc s' r :
    0 <= sc < 256 -> keyboard_handler s sc = Some (s', r) ->
    kstep (SESSION s typed got lost)
          (SESSION s' (typed ++ typed_by s sc) got (lost || (bool_decide (typed_by s sc <> []) && (length (pending s) =? 255)%nat)))
| step_read s typed got lost m buf count s' m' n :
    mem_ok m -> 0 <= count -> kbd_read s m buf count = Some (s', m', Ret n) ->
    kstep (SESSION s typed got lost) (SESSION s' typed (got ++ bytes_at m' buf (Z.to_nat n)) lost)
(* the rest of the kernel puts readers to sleep and schedules *)
| step_other s typed got lost w :
    kstep (SESSION s typed got lost) (SESSION (with_nwaits s w) typed got lost).

Definition session_ok (l : list Z) (k : session) : Prop :=
  kbd_ok (k_sys k) /\ dlist (n_links (k_sys k)) input_handler_list l /\
  (k_got k ++ pending (k_sys k)) `sublist_of` k_typed k /\ (k_lost k = false -> k_got k ++ pending (k_sys k) = k_typed k).

Lemma kstep_ok l k k' : (length l < fuel)%nat -> session_ok l k -> kstep k k' -> session_ok l k'.
Proof.
  intros Hf (Hok & Hd & Hsub & Heq) Hstep. destruct Hstep as [s typed got lost sc s' r Hsc E|s typed got lost m buf count s' m' n Hm Hc E|s typed got lost w]; unfold session_ok in *; cbn [k_sys k_typed k_got k_lost] in *.
  - destruct (keyboard_handler_spec s sc l Hok Hsc Hd Hf) as (s1 & Hok1 & El1 & _ & Hcase). unfold typed_by. set (c := char_of _ _ sc) in *.
    assert (exists w, s' = with_nwaits s1 w /\ pending s1 = if decide (c = 0 \/ length (pending s) = 255%nat) then pending s else pending s ++ [c]) as (w & -> & Ep).
    { case_decide; destruct Hcase as [E1 Ep1]; rewrite E1 in E; [injection E as <- _; exists (n_waits s1); by destruct s1|]. destruct (wake_up _ _ _) as [w|]; [|done]. injection E as <- _. by exists w. }
    change (pending (with_nwaits s1 w)) with (pending s1). rewrite Ep. split; [by apply (kbd_ok_same s1)|]. split; [simpl; by rewrite El1|].
    destruct (Z.eqb_spec c 0) as [Ec|Ec].
    + rewrite decide_True, app_nil_r by (by left). rewrite orb_false_r. done.
    + case_decide as Hfull.
      * destruct Hfull as [?|Hfull]; [done|]. split; [by apply sublist_inserts_r|]. rewrite Hfull, bool_decide_true, orb_true_r by done. done.
      * rewrite app_assoc. split; [by apply sublist_app|]. intros [Hl _]%orb_false_iff. by rewrite Heq.
  - pose proof (kbd_read_spec s m buf count Hok Hm Hc) as Hr. case_decide as Hs; [by rewrite Hr in E|]. destruct Hr as (s1 & m1 & E1 & Hok1 & Ep1 & Eb1 & _ & El1 & _).
    rewrite E1 in E. injection E as <- <- <-. rewrite Nat2Z.id, Eb1, Ep1, <- app_assoc, take_drop, El1. done.
  - split; [by apply (kbd_ok_same s)|]. done.
Qed.

(** C27: the keyboard is a character stream.  From an empty buffer, under every
    interleaving of key interrupts, reads and scheduling, what the readers have got
    followed by what is pending is what was typed, in order; if a key was struck
    while 255 characters were pending, that character alone is missing.  At every
    point the key interrupt returns, waking a reader if the character was entered,
    and a read returns at once with the oldest characters if any are pending, and
    sleeps otherwise. *)
Theorem keyboard_stream s0 l k :
  kbd_ok s0 -> pending s0 = [] -> dlist (n_links s0) input_handler_list l -> (length l < fuel)%nat -> rtc kstep (SESSION s0 [] [] false) k ->
  (k_got k ++ pending (k_sys k)) `sublist_of` k_typed k /\ (k_lost k = false -> k_got k ++ pending (k_sys k) = k_typed k) /\
  (forall sc, 0 <= sc < 256 -> exists s1, keyboard_handler (k_sys k) sc = Some (s1, IRQ_HANDLED) \/
     keyboard_handler (k_sys k) sc = (w ← wake_up fuel (n_waits s1) kbd_wq; Some (with_nwaits s1 w, IRQ_HANDLED)) /\
     pending s1 = pending (k_sys k) ++ typed_by (k_sys k) sc) /\
  (forall m buf count, mem_ok m -> 0 < count ->
     let n := Nat.min (Z.to_nat count) (length (pending (k_sys k))) in
     if decide (pending (k_sys k) = []) then kbd_read (k_sys k) m buf count = Some (k_sys k, m, Sleeps kbd_wq)
     else exists s' m', kbd_read (k_sys k) m buf count = Some (s', m', Ret (Z.of_nat n)) /\ bytes_at m' buf n = take n (pending (k_sys k))).
Proof.
  intros Hok Hp Hd Hf Hrun. assert (session_ok l k) as (Hok' & Hd' & Hsub & Heq).
  { assert (session_ok l (SESSION s0 [] [] false)) as H0 by (split; [done|]; split; [done|]; cbn [k_sys k_typed k_got k_lost]; by rewrite Hp).
    revert H0. clear Hok Hp Hd. induction Hrun as [|k1 k2 k3 Hs _ IH]; [done|]. intros Hk. apply IH. by apply (kstep_ok l k1). }
  split; [done|]. split; [done|]. split.
  - intros sc Hsc. destruct (keyboard_handler_spec (k_sys k) sc l Hok' Hsc Hd' Hf) as (s1 & _ & _ & _ & Hcase). exists s1.
    case_decide as Hc; [left; apply Hcase|right]. destruct Hcase as [E Ep]. split; [done|]. rewrite Ep. unfold typed_by. rewrite (proj2 (Z.eqb_neq _ 0)) by tauto. done.
  - intros m buf count Hm Hc n. pose proof (kbd_read_spec (k_sys k) m buf count Hok' Hm ltac:(lia)) as Hr. destruct (decide (pending (k_sys k) = [])) as [Ep|Ep].
    + rewrite decide_True in Hr by (split; [lia|done]). done.
    + rewrite decide_False in Hr by tauto. destruct Hr as (s' & m' & E & _ & _ & Eb & _). by exists s', m'.
Qed.

(** ** Mouse packets *)

(** What the handlers make of an event. *)
Definition announce (s : input) (l : list Z) (dev : Z) (w : W) (ev : input_event) : W :=
  foldl (fun w pos => if h_event s (pos - 8) =? 0 then w else event_fn (h_event s (pos - 8)) w (pos - 8) dev ev) w l.

(** The first byte of a packet: buttons, and the signs of the two movements. *)
Definition packet_flags (left right middle : bool) (dx dy : Z) : Z :=
  8 + Z.b2z left + 2 * Z.b2z right + 4 * Z.b2z middle + (if dx <? 0 then 16 else 0) + (if dy <? 0 then 32 else 0).

(** The movement the driver reports for the 9-bit movement [d] of a packet. *)
Definition reported (d : Z) : Z := if (0 <=? d) && (d <? 128) || (d <? -128) then d else d - 256.

Lemma report_all (s : input) l dev : forall evs w0,
  dlist (n_links s) input_handler_list l -> (length l < fuel)%nat ->
  foldl (fun r ev => s1 ← r; input_report_event s1 dev (ev_type ev) (ev_code ev) (ev_value ev)) (Some (with_world s w0)) evs =
  Some (with_world s (foldl (fun w ev => announce s l dev w (EVENT 0 (ev_type ev) (ev_code ev) (ev_value ev))) w0 evs)).
Proof.
  induction evs as [|ev evs IH]; intros w0 Hd Hf; [done|]. cbn [foldl mbind option_bind].
  destruct (report_event_keeps (with_world s w0) dev (ev_type ev) (ev_code ev) (ev_value ev) l Hd Hf) as (w & -> & ->). by rewrite <- IH.
Qed.

Lemma movement d : -256 <= d < 256 -> s8 (d mod 256) - (if d <? 0 then 256 else 0) = reported d.
Proof. intros Hd. unfold s8, reported. destruct (Z.ltb_spec d 0), (Z.leb_spec 0 d), (Z.ltb_spec d 128), (Z.ltb_spec d (-128)); cbn [andb orb]; Z.div_mod_to_equations; lia. Qed.

(** C30: the three bytes of a PS/2 packet, in three interrupts, make six events:
    the horizontal movement, the vertical movement with its sign turned, the three
    buttons and the synchronisation; afterwards the next byte starts a packet.  The
    reported movement is right from 0 to 127 and below -128 only: the data bytes are
    stored with their sign and the sign bit of the first byte is applied again, so
    every other movement is reported 256 too low. *)
Theorem mouse_packet s l left right middle dx dy st1 st2 st3 :
  mouse_pkt_idx s = 0 -> dlist (n_links s) input_handler_list l -> (length l < fuel)%nat -> -256 <= dx < 256 -> -256 <= dy < 256 ->
  Forall (fun st => st .& 0x20 <> 0) [st1; st2; st3] ->
  exists s1 s2 s3, mouse_handler s st1 (packet_flags left right middle dx dy) = Some (s1, IRQ_HANDLED) /\ mouse_handler s1 st2 (dx mod 256) = Some (s2, IRQ_HANDLED) /\
    mouse_handler s2 st3 (dy mod 256) = Some (s3, IRQ_HANDLED) /\ mouse_pkt_idx s3 = 0 /\
    n_world s3 = foldl (announce s l (mouse_dev s)) (n_world s)
      [EVENT 0 EV_REL REL_X (reported dx); EVENT 0 EV_REL REL_Y (- reported dy); EVENT 0 EV_KEY 0x110 (Z.b2z left); EVENT 0 EV_KEY 0x111 (Z.b2z right);
       EVENT 0 EV_KEY 0x112 (Z.b2z middle); EVENT 0 EV_SYN SYN_REPORT 0].
Proof.
  intros Hi Hd Hf Hdx Hdy Hst. apply Forall_cons in Hst as [H1 Hst]. apply Forall_cons in Hst as [H2 Hst]. apply Forall_cons in Hst as [H3 _].
  set (f := packet_flags left right middle dx dy).
  assert (u8 (s8 f) = f /\ f .& 0xC0 = 0 /\ (f .<< 4) .& 0x100 = (if dx <? 0 then 256 else 0) /\ (f .<< 3) .& 0x100 = (if dy <? 0 then 256 else 0) /\
          f .& 1 = Z.b2z left /\ (f .>> 1) .& 1 = Z.b2z right /\ (f .>> 2) .& 1 = Z.b2z middle) as (F1 & F2 & F3 & F4 & F5 & F6 & F7).
  { unfold f, packet_flags. destruct left, right, middle, (dx <? 0), (dy <? 0); vm_compute; split_and!; reflexivity. }
  unfold mouse_handler at 1. rewrite (proj2 (Z.eqb_neq _ _) H1), Hi. cbn [mouse_pkt_idx with_mouse Z.add Z.eqb Pos.eqb]. eexists _. eexists. eexists. split; [done|].
  unfold mouse_handler at 1. rewrite (proj2 (Z.eqb_neq _ _) H2). cbn [mouse_pkt_idx mouse_byte with_mouse Z.add Z.eqb Pos.eqb Pos.add]. split; [done|].
  unfold mouse_handler at 1. rewrite (proj2 (Z.eqb_neq _ _) H3). cbn [mouse_pkt_idx mouse_byte with_mouse Z.add Z.eqb Pos.eqb Pos.add Pos.succ].
  match goal with |- context [report_packet ?x] => set (s' := x) end.
  unfold report_packet. change (mouse_byte s' 0) with (s8 f). change (mouse_byte s' 1) with (s8 (dx mod 256)). change (mouse_byte s' 2) with (s8 (dy mod 256)).
  rewrite F1, F2, F3, F4, F5, F6, F7, !movement by done. cbn [Z.eqb negb]. unfold input_report_rel, input_report_key, input_sync.
  pose proof (report_all s' l (mouse_dev s) [EVENT 0 EV_REL REL_X (reported dx); EVENT 0 EV_REL REL_Y (- reported dy); EVENT 0 EV_KEY 0x110 (Z.b2z left); EVENT 0 EV_KEY 0x111 (Z.b2z right);
       EVENT 0 EV_KEY 0x112 (Z.b2z middle); EVENT 0 EV_SYN SYN_REPORT 0] (n_world s) Hd Hf) as Hall.
  cbn [foldl ev_type ev_code ev_value mbind option_bind] in Hall. change (with_world s' (n_world s)) with s' in Hall. change (mouse_dev s') with (mouse_dev s).
  cbn [mbind option_bind]. 
  destruct (input_report_event s' _ EV_REL REL_X _) as [a1|]; [cbn [mbind option_bind] in *|discriminate Hall].
  destruct (input_report_event a1 _ EV_REL REL_Y _) as [a2|]; [cbn [mbind option_bind] in *|discriminate Hall].
  destruct (input_report_event a2 _ EV_KEY 0x110 _) as [a3|]; [cbn [mbind option_bind] in *|discriminate Hall].
  destruct (input_report_event a3 _ EV_KEY 0x111 _) as [a4|]; [cbn [mbind option_bind] in *|discriminate Hall].
  destruct (input_report_event a4 _ EV_KEY 0x112 _) as [a5|]; [cbn [mbind option_bind] in *|discriminate Hall].
  rewrite Hall. cbn [mbind option_bind]. split; [done|]. split; done.
Qed.

End input.

(** ** A recording handler, a few keys and a mouse packet *)

#[local] Existing Instance Heap.heap_allocator.

Definition demo_input : input (A := Spinlock.cpu * Heap.heap) (W := list input_event) :=
  INPUT {[0x700 := LH 0x808 0x808; 0x808 := LH 0x700 0x700]} (fun h => if h =? 0x800 then 0x40 else 0) [] (Heap.demo_cpu, Heap.heap_of 0x1000 [(4096, true)])
    (fun _ => 0) 0 0 false false 0x1234 (fun _ => 0) 0 0x5678 (WSys (w_sched demo_wsys) (fun _ _ => 0)).

Definition record_event (f : Z) (w : list input_event) (handler dev : Z) (ev : input_event) : list input_event := w ++ [ev].

Definition after_key (s : input (A := Spinlock.cpu * Heap.heap)) (sc : Z) : input :=
  match keyboard_handler 0x700 0x900 record_event 4 s sc with Some (s, _) => s | None => s end.

(** Shift, [A], shift released, [b]. *)
Definition demo_typed : input := foldl after_key demo_input [0x2A; 0x1E; 0xAA; 0x30].
Definition demo_read : input * mem := match kbd_read 0x900 demo_typed (fun _ => 0) 0x5000 1 with Some (s, m, _) => (s, m) | None => (demo_typed, fun _ => 0) end.

Lemma after_key_step s sc :
  match keyboard_handler 0x700 0x900 record_event 4 s sc with Some (_, r) => r =? 1 | None => false end = true ->
  keyboard_handler 0x700 0x900 record_event 4 s sc = Some (after_key s sc, 1).
Proof. unfold after_key. destruct (keyboard_handler _ _ _ _ s sc) as [[s' r]|]; [|done]. by intros ->%Z.eqb_eq. Qed.

Lemma demo_read_step : kbd_read 0x900 demo_typed (fun _ => 0) 0x5000 1 = Some (fst demo_read, snd demo_read, Ret 1).
Proof.
  unfold demo_read. assert (match kbd_read 0x900 demo_typed (fun _ => 0) 0x5000 1 with Some (_, _, Ret r) => r =? 1 | _ => false end = true) as Hr by (vm_compute; reflexivity).
  destruct (kbd_read 0x900 demo_typed _ _ _) as [[[s m] [r|]]|]; [|done..]. by apply Z.eqb_eq in Hr as ->.
Qed.

Lemma keyboard_stream_witness :
  exists k, rtc (kstep 0x700 0x900 record_event 4) (SESSION demo_input [] [] false) k /\ k_typed k = [65; 98] /\ k_got k = [65] /\ k_got k ++ pending (k_sys k) = k_typed k.
Proof.
  assert (exists T G L, rtc (kstep 0x700 0x900 record_event 4) (SESSION demo_input [] [] false) (SESSION (fst demo_read) T G L) /\ T = [65; 98] /\ G = [65] /\ L = false)
    as (T & G & L & Hrun & HT & HG & HL).
  { do 3 eexists. split.
    - eapply rtc_l; [eapply (step_key _ _ _ _ _ _ _ _ 0x2A); [lia|apply after_key_step; vm_compute; reflexivity]|].
      eapply rtc_l; [eapply (step_key _ _ _ _ _ _ _ _ 0x1E); [lia|apply after_key_step; vm_compute; reflexivity]|].
      eapply rtc_l; [eapply (step_key _ _ _ _ _ _ _ _ 0xAA); [lia|apply after_key_step; vm_compute; reflexivity]|].
      eapply rtc_l; [eapply (step_key _ _ _ _ _ _ _ _ 0x30); [lia|apply after_key_step; vm_compute; reflexivity]|].
      eapply rtc_l; [eapply (step_read _ _ _ _ _ _ _ _ (fun _ => 0) 0x5000 1); [intros x; lia|lia|exact demo_read_step]|]. apply rtc_refl.
    - vm_compute. split_and!; reflexivity. }
  subst T G L.
  destruct (keyboard_stream 0x700 0x900 record_event 4 demo_input [0x808] (SESSION (fst demo_read) [65; 98] [65] false)) as (_ & Heq & _); [| | | |exact Hrun|].
  - split; [vm_compute; split; discriminate || done|vm_compute; split; discriminate || done|apply Forall_nil_2].
  - reflexivity.
  - split; [vm_compute; done|apply (bool_decide_unpack _); vm_compute; done].
  - simpl. lia.
  - eexists. split; [exact Hrun|]. split; [done|]. split; [done|]. by apply Heq.
Defined.

Lemma mouse_packet_witness :
  exists s1 s2 s3, mouse_handler 0x700 record_event 4 demo_input 0x20 25 = Some (s1, IRQ_HANDLED) /\ mouse_handler 0x700 record_event 4 s1 0x20 253 = Some (s2, IRQ_HANDLED) /\
    mouse_handler 0x700 record_event 4 s2 0x20 5 = Some (s3, IRQ_HANDLED) /\
    ev_value <$> n_world s3 = [-259; -5; 1; 0; 0; 0].
Proof.
  destruct (mouse_packet 0x700 record_event 4 demo_input [0x808] true false false (-3) 5 0x20 0x20 0x20) as (s1 & s2 & s3 & E1 & E2 & E3 & _ & Ew); [done| |simpl; lia|lia|lia|by repeat constructor|].
  - split; [vm_compute; done|apply (bool_decide_unpack _); vm_compute; done].
  - exists s1, s2, s3. split; [exact E1|]. split; [exact E2|]. split; [exact E3|]. by rewrite Ew.
Defined.

End Input.
