(* ===== verification/Modload.v ===== *)
(** * Loadable modules

    (src/kernel/module.c, include/module.h and include/elf.h.)  A module is an ELF
    object file in memory.  [sys_init_module] lays its sections out in a block from
    the kernel heap, copies them there, applies the relocations, resolving undefined
    symbols in the kernel's symbol table, and runs [init_module].

    Everything is in byte-addressed memory: the image with its tables, the section
    headers, which the loader overwrites, the kernel's symbol table and the module
    structures.  The calls run with the module mutex held, which is not modelled; the
    functions of the modules are parameters. *)
From S2P Require Import Prelude Memory CString Wire Allocator ListHead Store Spinlock Heap.
Import CString Wire ListHead.

Module Modload.

(** ** ELF *)

Definition ELFCLASS64 : Z := 2.
Definition EM_X86_64 : Z := 62.
Definition SHT_SYMTAB : Z := 2.
Definition SHT_RELA : Z := 4.
Definition SHF_ALLOC : Z := 2.
Definition SHN_UNDEF : Z := 0.
Definition R_X86_64_NONE : Z := 0.
Definition R_X86_64_64 : Z := 1.
Definition R_X86_64_PC32 : Z := 2.
Definition R_X86_64_PLT32 : Z := 4.
Definition R_X86_64_32 : Z := 10.
Definition R_X86_64_32S : Z := 11.

(** [Elf64_Ehdr] at [h]. *)
Definition sizeof_ehdr : Z := 64.
Definition e_type (m : mem) (h : Z) : Z := load16 m (h + 16).
Definition e_machine (m : mem) (h : Z) : Z := load16 m (h + 18).
Definition e_shoff (m : mem) (h : Z) : Z := load64 m (h + 40).
Definition e_shnum (m : mem) (h : Z) : Z := load16 m (h + 60).

(** [sechdrs[i]] of type [Elf64_Shdr]. *)
Definition shdr (sechdrs i : Z) : Z := sechdrs + 64 * i.
Definition sh_type (m : mem) (p : Z) : Z := load32 m (p + 4).
Definition sh_flags (m : mem) (p : Z) : Z := load64 m (p + 8).
Definition sh_addr (m : mem) (p : Z) : Z := load64 m (p + 16).
Definition sh_offset (m : mem) (p : Z) : Z := load64 m (p + 24).
Definition sh_size (m : mem) (p : Z) : Z := load64 m (p + 32).
Definition sh_link (m : mem) (p : Z) : Z := load32 m (p + 40).
Definition sh_info (m : mem) (p : Z) : Z := load32 m (p + 44).
Definition sh_addralign (m : mem) (p : Z) : Z := load64 m (p + 48).
Definition set_sh_addr (m : mem) (p v : Z) : mem := store64 m (p + 16) v.

(** [Elf64_Sym] and [Elf64_Rela]. *)
Definition sizeof_sym : Z := 24.
Definition st_name (m : mem) (p : Z) : Z := load32 m p.
Definition st_shndx (m : mem) (p : Z) : Z := load16 m (p + 6).
Definition st_value (m : mem) (p : Z) : Z := load64 m (p + 8).
Definition sizeof_rela : Z := 24.
Definition r_offset (m : mem) (p : Z) : Z := load64 m p.
Definition r_info (m : mem) (p : Z) : Z := load64 m (p + 8).
Definition r_addend (m : mem) (p : Z) : Z := load64 m (p + 16).
Definition ELF64_R_SYM (i : Z) : Z := i .>> 32.
Definition ELF64_R_TYPE (i : Z) : Z := i .& 0xffffffff.

(** [module_t] at [md]. *)
Definition MODULE_STATE_LIVE : Z := 0.
Definition MODULE_STATE_COMING : Z := 1.
Definition MODULE_STATE_GOING : Z := 2.
Definition MODULE_NAME_LEN : Z := 64.
Definition sizeof_module : Z := 152.
Definition mod_list (md : Z) : Z := md + 8.
Definition mod_name (md : Z) : Z := md + 24.
Definition mod_base (md : Z) : Z := md + 88.
Definition mod_size (md : Z) : Z := md + 96.
Definition mod_init (md : Z) : Z := md + 104.
Definition mod_exit (md : Z) : Z := md + 112.
Definition mod_syms (md : Z) : Z := md + 120.
Definition mod_num_syms (md : Z) : Z := md + 128.

Section loader.
Context {A : Type} `{Allocator A}.

Record modules := MODS { m_mem : mem; m_links : gmap Z list_head; m_heap : A; module_initialized : bool }.
Definition with_mmem (s : modules) (m : mem) : modules := MODS m (m_links s) (m_heap s) (module_initialized s).
Definition with_mlinks (s : modules) (l : gmap Z list_head) : modules := MODS (m_mem s) l (m_heap s) (module_initialized s).
Definition with_mheap (s : modules) (h : A) : modules := MODS (m_mem s) (m_links s) h (module_initialized s).

(** The list head [modules] and the bounds of the kernel's symbol table; the
    fuel of the loops over lists and strings. *)
Context (modules_head start_ksymtab stop_ksymtab : Z) (fuel : nat).

(** ** Symbols *)

(** The search of an array of [struct kernel_symbol]: the value, or nothing. *)
Definition ksym_step (m : mem) (name stop : Z) : Z -> Z + option (option Z) :=
  fun k => if k <? stop then
             match strcmp fuel m (load64 m k) name with
             | None => inr None
             | Some r => if r =? 0 then inr (Some (Some (load64 m (k + 8)))) else inl (k + 16)
             end
           else inr (Some None).

Definition search_ksyms (m : mem) (name start stop : Z) : option (option Z) :=
  mjoin (loop (S (Z.to_nat ((stop - start) / 16))) (ksym_step m name stop) start).

(** The loop over the modules, given their list nodes. *)
Fixpoint search_modules (m : mem) (name : Z) (l : list Z) : option Z :=
  match l with
  | [] => Some 0
  | pos :: l =>
      let md := pos - 8 in
      let syms := load64 m (mod_syms md) in
      r ← search_ksyms m name syms (syms + 16 * load32 m (mod_num_syms md));
      match r with Some v => Some v | None => search_modules m name l end
  end.

Definition resolve_symbol (s : modules) (name : Z) : option Z :=
  r ← search_ksyms (m_mem s) name start_ksymtab stop_ksymtab;
  match r with
  | Some v => Some v
  | None => l ← list_for_each fuel (m_links s) modules_head; search_modules (m_mem s) name l
  end.

Definition module_kallsyms_lookup_name (s : modules) (name : Z) : option Z := resolve_symbol s name.

(** ** Relocation *)

(** The value of the symbol a relocation refers to; [inr] is an undefined symbol
    that the kernel does not have. *)
Definition symbol_value (s : modules) (sechdrs strtab sym sym_idx : Z) : option (Z + unit) :=
  if sym_idx =? 0 then Some (inl 0)
  else
    let m := m_mem s in
    let p := sym + sizeof_sym * sym_idx in
    if st_shndx m p =? SHN_UNDEF then
      v ← resolve_symbol s (strtab + st_name m p);
      Some (if v =? 0 then inr tt else inl v)
    else Some (inl (u64 (sh_addr m (shdr sechdrs (st_shndx m p)) + st_value m p))).

(** The [switch] over the type of a relocation at [loc]. *)
Definition relocate (m : mem) (type loc sym_val addend : Z) : option mem :=
  if type =? R_X86_64_NONE then Some m
  else if type =? R_X86_64_64 then Some (store64 m loc (u64 (sym_val + addend)))
  else if (type =? R_X86_64_32) || (type =? R_X86_64_32S) then Some (store32 m loc (u32 (sym_val + addend)))
  else if (type =? R_X86_64_PC32) || (type =? R_X86_64_PLT32) then Some (store32 m loc (u32 (sym_val + addend - loc)))
  else None.

(** One relocation; [None] is a loop without end, [inr] an error. *)
Definition reloc_one (s : modules) (sechdrs strtab sym target_sec rel : Z) : option (modules + unit) :=
  let m := m_mem s in
  let loc := u64 (sh_addr m target_sec + r_offset m rel) in
  let type := u32 (ELF64_R_TYPE (r_info m rel)) in
  let sym_idx := u32 (ELF64_R_SYM (r_info m rel)) in
  sv ← symbol_value s sechdrs strtab sym sym_idx;
  Some (match sv with
        | inr _ => inr tt
        | inl sym_val => match relocate m type loc sym_val (r_addend m rel) with Some m => inl (with_mmem s m) | None => inr tt end
        end).

Fixpoint reloc_loop (n : nat) (s : modules) (sechdrs strtab sym target_sec rel : Z) : option (modules * Z) :=
  match n with
  | O => Some (s, 0)
  | S n =>
      r ← reloc_one s sechdrs strtab sym target_sec rel;
      match r with
      | inl s => reloc_loop n s sechdrs strtab sym target_sec (rel + sizeof_rela)
      | inr _ => Some (s, -1)
      end
  end.

Definition apply_relocations (s : modules) (sechdrs strtab symindex relsec : Z) : option (modules * Z) :=
  let m := m_mem s in
  let rel_sec := shdr sechdrs relsec in
  let target_sec := shdr sechdrs (sh_info m rel_sec) in
  let sym_sec := shdr sechdrs symindex in
  let num_relocs := u32 (sh_size m rel_sec / sizeof_rela) in
  reloc_loop (Z.to_nat num_relocs) s sechdrs strtab (sh_addr m sym_sec) target_sec (sh_addr m rel_sec).

(** ** Loading *)

(** The test of the ELF header. *)
Definition header_ok (m : mem) (hdr len : Z) : bool :=
  negb ((len <? sizeof_ehdr) || negb (load8 m hdr =? 0x7F) || negb (load8 m (hdr + 1) =? 69) || negb (load8 m (hdr + 2) =? 76) ||
        negb (load8 m (hdr + 3) =? 70) || negb (load8 m (hdr + 4) =? ELFCLASS64) || negb (e_machine m hdr =? EM_X86_64) || negb (e_type m hdr =? 1)).

Definition align_up (total align : Z) : Z := if 1 <? align then Z.ldiff (u64 (total + align - 1)) (u64 (align - 1)) else total.

(** The first loop over the sections: offsets in the block, and its size. *)
Definition layout_step (sechdrs : Z) (i : Z) : mem * Z -> mem * Z :=
  fun '(m, total) =>
    let p := shdr sechdrs i in
    if negb (sh_flags m p .& SHF_ALLOC =? 0) then
      let total := align_up total (sh_addralign m p) in
      let m := set_sh_addr m p total in
      (m, u64 (total + sh_size m p))
    else (m, total).

Definition layout (m : mem) (sechdrs shnum : Z) : mem * Z := for_up (Z.to_nat shnum) 0 (layout_step sechdrs) (m, 0).

(** The second loop: addresses, and the contents of the sections in the block. *)
Definition place_step (image core sechdrs : Z) (i : Z) (m : mem) : mem :=
  let p := shdr sechdrs i in
  if negb (sh_flags m p .& SHF_ALLOC =? 0) then
    let m := set_sh_addr m p (u64 (core + sh_addr m p)) in
    memcpy m (sh_addr m p) (u64 (image + sh_offset m p)) (sh_size m p)
  else set_sh_addr m p (u64 (image + sh_offset m p)).

Definition place (m : mem) (image core sechdrs shnum : Z) : mem := for_up (Z.to_nat shnum) 0 (place_step image core sechdrs) m.

(** The addresses of the string literals. *)
Context (lit_name lit_unnamed lit_init_module lit_cleanup_module : Z).

(** [while ( *val && *val != ' ' && i < MODULE_NAME_LEN - 1) mod->name[i++] = *val++;] *)
Definition name_step (md : Z) : mem * Z * Z -> mem * Z * Z + mem * Z :=
  fun '(m, val, i) =>
    let c := load8 m val in
    if negb (c =? 0) && negb (c =? 32) && (i <? MODULE_NAME_LEN - 1) then inl (store8 m (mod_name md + i) c, val + 1, i + 1) else inr (m, i).

(** [while ( *p && *p != ' ') p++;] and [while ( *p == ' ') p++;] *)
Definition word_end (m : mem) : Z -> Z + Z := fun p => if negb (load8 m p =? 0) && negb (load8 m p =? 32) then inl (p + 1) else inr p.
Definition blank_end (m : mem) : Z -> Z + Z := fun p => if load8 m p =? 32 then inl (p + 1) else inr p.

(** The loop over the parameters. *)
Definition param_step (md : Z) : mem * Z -> mem * Z + option mem :=
  fun '(m, p) =>
    if load8 m p =? 0 then inr (Some m)
    else
      match (m ← (if strncmp m p lit_name 5 =? 0 then
                    '(m, i) ← loop 64 (name_step md) (m, p + 5, 0);
                    Some (store8 m (mod_name md + i) 0)
                  else Some m);
             p ← loop fuel (word_end m) p;
             p ← loop fuel (blank_end m) p;
             Some (m, p)) with
      | Some st => inl st
      | None => inr None
      end.

Definition name_module (m : mem) (md param_values : Z) : option mem :=
  m ← (if negb (param_values =? 0) then mjoin (loop fuel (param_step md) (m, param_values)) else Some m);
  if load8 m (mod_name md) =? 0 then strcpy fuel m (mod_name md) lit_unnamed else Some m.

(** The first symbol table; index 0 stands for none. *)
Definition symtab_step (m : mem) (sechdrs shnum : Z) : Z -> Z + Z :=
  fun i => if i <? shnum then if sh_type m (shdr sechdrs i) =? SHT_SYMTAB then inr i else inl (i + 1) else inr 0.
Definition find_symtab (m : mem) (sechdrs shnum : Z) : option Z := loop (S (Z.to_nat shnum)) (symtab_step m sechdrs shnum) 0.

(** The relocation sections from [i] on. *)
Fixpoint relocate_all (n : nat) (i : Z) (s : modules) (sechdrs strtab symindex : Z) : option (modules * Z) :=
  match n with
  | O => Some (s, 0)
  | S n =>
      '(s, r) ← (if sh_type (m_mem s) (shdr sechdrs i) =? SHT_RELA then apply_relocations s sechdrs strtab symindex i else Some (s, 0));
      if negb (r =? 0) then Some (s, -1) else relocate_all n (i + 1) s sechdrs strtab symindex
  end.

(** The search for [init_module] and [cleanup_module]. *)
Definition entry_step (sechdrs strtab syms : Z) (md : Z) (i : Z) (r : option mem) : option mem :=
  m ← r;
  let p := syms + sizeof_sym * i in
  let name := strtab + st_name m p in
  let addr := u64 (sh_addr m (shdr sechdrs (st_shndx m p)) + st_value m p) in
  a ← strcmp fuel m name lit_init_module;
  if a =? 0 then Some (if negb (st_shndx m p =? SHN_UNDEF) then store64 m (mod_init md) addr else m)
  else
    b ← strcmp fuel m name lit_cleanup_module;
    Some (if b =? 0 then if negb (st_shndx m p =? SHN_UNDEF) then store64 m (mod_exit md) addr else m else m).

Definition find_entries (m : mem) (sechdrs strtab symindex md : Z) : option mem :=
  let syms := sh_addr m (shdr sechdrs symindex) in
  let num_syms := u32 (sh_size m (shdr sechdrs symindex) / sizeof_sym) in
  for_up (Z.to_nat num_syms) 0 (entry_step sechdrs strtab syms md) (Some m).

(** The functions of modules, by address. *)
Context (run_init : Z -> modules -> modules * Z) (run_exit : Z -> modules -> modules).

Definition discard (s : modules) (core md r : Z) : option (modules * Z) :=
  h ← a_free (m_heap s) core;
  h ← a_free h md;
  Some (with_mheap s h, r).

Definition module_subsystem_init (s : modules) : modules := MODS (m_mem s) (m_links s) (m_heap s) true.

Definition sys_init_module (s : modules) (image len param_values : Z) : option (modules * Z) :=
  let s := if module_initialized s then s else module_subsystem_init s in
  let m := m_mem s in
  if negb (header_ok m image len) then Some (s, -1)
  else
    let sechdrs := u64 (image + e_shoff m image) in
    let shnum := e_shnum m image in
    let '(m, total_size) := layout m sechdrs shnum in
    '(h, core) ← a_alloc (m_heap s) total_size;
    if core =? 0 then Some (MODS m (m_links s) h (module_initialized s), -1)
    else
      let m := memset m core 0 total_size in
      let m := place m image core sechdrs shnum in
      '(h, md) ← a_alloc h sizeof_module;
      if md =? 0 then h ← a_free h core; Some (MODS m (m_links s) h (module_initialized s), -1)
      else
        let m := memset m md 0 sizeof_module in
        let m := store64 m (mod_base md) core in
        let m := store64 m (mod_size md) total_size in
        let m := store32 m md MODULE_STATE_COMING in
        m ← name_module m md param_values;
        let s := MODS m (<[mod_list md := LH 0 0]> (m_links s)) h (module_initialized s) in
        symindex ← find_symtab m sechdrs shnum;
        if symindex =? 0 then discard s core md (-1)
        else
          let strtab := u64 (image + sh_offset m (shdr sechdrs (sh_link m (shdr sechdrs symindex)))) in
          '(s, r) ← relocate_all (Z.to_nat shnum) 0 s sechdrs strtab symindex;
          if negb (r =? 0) then discard s core md (-1)
          else
            m ← find_entries (m_mem s) sechdrs strtab symindex md;
            let s := with_mmem s m in
            if load64 m (mod_init md) =? 0 then discard s core md (-1)
            else
              let '(s, ret) := run_init (load64 m (mod_init md)) s in
              if negb (ret =? 0) then discard s core md ret
              else
                let s := with_mmem s (store32 (m_mem s) md MODULE_STATE_LIVE) in
                l ← list_add (m_links s) (mod_list md) modules_head;
                Some (with_mlinks s l, 0).

(** The search of [sys_delete_module] through the list nodes. *)
Fixpoint find_module (m : mem) (name : Z) (l : list Z) : option (option Z) :=
  match l with
  | [] => Some None
  | pos :: l => r ← strcmp fuel m (mod_name (pos - 8)) name; if r =? 0 then Some (Some (pos - 8)) else find_module m name l
  end.

Definition sys_delete_module (s : modules) (name : Z) : option (modules * Z) :=
  if negb (module_initialized s) then Some (s, -1)
  else
  l ← list_for_each fuel (m_links s) modules_head;
  found ← find_module (m_mem s) name l;
  match found with
  | None => Some (s, -1)
  | Some md =>
      if negb (load32 (m_mem s) md =? MODULE_STATE_LIVE) then Some (s, -1)
      else
        let s := with_mmem s (store32 (m_mem s) md MODULE_STATE_GOING) in
        let s := if negb (load64 (m_mem s) (mod_exit md) =? 0) then run_exit (load64 (m_mem s) (mod_exit md)) s else s in
        l ← list_del (m_links s) (mod_list md);
        h ← a_free (m_heap s) (load64 (m_mem s) (mod_base md));
        h ← a_free h md;
        Some (MODS (m_mem s) l h (module_initialized s), 0)
  end.

End loader.

(** ** Section headers *)

(** The bytes of the fields [sh_addr] of the first [n] headers. *)
Definition addr_field (sechdrs n x : Z) : Prop := exists k, 0 <= k < n /\ shdr sechdrs k + 16 <= x < shdr sechdrs k + 24.

(** The rest of a header depends on no such byte. *)
Lemma header_ext m m' sechdrs n k o w :
  (forall x, sechdrs <= x < sechdrs + 64 * n -> ~ addr_field sechdrs n x -> m' x = m x) -> 0 <= k < n -> 0 <= o -> o + Z.of_nat w <= 16 \/ 24 <= o -> o + Z.of_nat w <= 64 ->
  load_le m' (shdr sechdrs k + o) w = load_le m (shdr sechdrs k + o) w.
Proof.
  intros E Hk Ho Hw Hw'. apply load_le_ext. intros x Hx. apply E; [unfold shdr in Hx; lia|]. intros (k' & Hk' & Hx'). unfold shdr in *. assert (k' = k) as -> by lia. lia.
Qed.

(** What the loader reads of a header and never writes. *)
Record same_header (m m' : mem) (p : Z) : Prop := {
  sh_same_flags : sh_flags m' p = sh_flags m p;
  sh_same_offset : sh_offset m' p = sh_offset m p;
  sh_same_size : sh_size m' p = sh_size m p;
  sh_same_align : sh_addralign m' p = sh_addralign m p
}.

Lemma same_header_ext m m' sechdrs n k :
  (forall x, sechdrs <= x < sechdrs + 64 * n -> ~ addr_field sechdrs n x -> m' x = m x) -> 0 <= k < n -> same_header m m' (shdr sechdrs k).
Proof. intros E Hk. split; unfold sh_flags, sh_offset, sh_size, sh_addralign, load64; apply (header_ext m m' sechdrs n k); (done || lia). Qed.

Lemma sh_addr_set m p v : 0 <= v < 2 ^ 64 -> sh_addr (set_sh_addr m p v) p = v.
Proof. apply load64_store64_same. Qed.

Lemma sh_addr_other m sechdrs k j v : k <> j -> sh_addr (set_sh_addr m (shdr sechdrs j) v) (shdr sechdrs k) = sh_addr m (shdr sechdrs k).
Proof. intros Hne. apply load64_store64_other. unfold shdr. lia. Qed.

Lemma set_sh_addr_keeps m sechdrs n j v x : 0 <= j < n -> ~ addr_field sechdrs n x -> set_sh_addr m (shdr sechdrs j) v x = m x.
Proof. intros Hj Hx. apply store64_other. destruct (decide (shdr sechdrs j + 16 <= x < shdr sechdrs j + 24)); [destruct Hx; by exists j|lia]. Qed.

(** ** Layout *)

Definition allocated (m : mem) (p : Z) : bool := negb (sh_flags m p .& SHF_ALLOC =? 0).

(** Room enough for the first [n] sections, whatever the padding. *)
Fixpoint room (m : mem) (sechdrs : Z) (n : nat) : Z :=
  match n with
  | O => 0
  | S n => room m sechdrs n + (let p := shdr sechdrs (Z.of_nat n) in if allocated m p then sh_addralign m p + sh_size m p else 0)
  end.

Definition align_ok (a : Z) : Prop := a <= 1 \/ exists e, 0 <= e /\ a = 2 ^ e.

Lemma align_up_spec total a :
  0 <= a -> align_ok a -> 0 <= total -> total + a < 2 ^ 64 ->
  total <= align_up total a <= total + a /\ (1 < a -> (a | align_up total a)).
Proof.
  intros Ha Hok Ht Hlt. unfold align_up. destruct (Z.ltb_spec 1 a) as [H1|H1]; [|lia]. destruct Hok as [?|(e & He & ->)]; [lia|].
  rewrite !u64_small by lia. replace (2 ^ e - 1) with (Z.ones e) by (rewrite Z.ones_equiv; lia). rewrite Z.ldiff_ones_r, Z.shiftl_mul_pow2, Z.shiftr_div_pow2 by done.
  pose proof (Z.div_mod (total + 2 ^ e - 1) (2 ^ e) ltac:(lia)). pose proof (Z.mod_pos_bound (total + 2 ^ e - 1) (2 ^ e) ltac:(lia)). split; [lia|]. intros _. by exists ((total + 2 ^ e - 1) / 2 ^ e).
Qed.

Lemma room_mono m sechdrs n k : mem_ok m -> 0 <= room m sechdrs n <= room m sechdrs (n + k).
Proof.
  intros Hm. assert (forall p, 0 <= sh_addralign m p + sh_size m p) as H0 by (intros p; unfold sh_addralign, sh_size; pose proof (load64_range m (p + 48) Hm); pose proof (load64_range m (p + 32) Hm); lia).
  assert (forall n, 0 <= room m sechdrs n) as Hn.
  { induction n0 as [|n0 IH]; cbn [room]; [lia|]. pose proof (H0 (shdr sechdrs (Z.of_nat n0))). case_match; lia. }
  split; [done|]. induction k as [|k IH]; [by rewrite Nat.add_0_r|]. rewrite Nat.add_succ_r. cbn [room]. pose proof (H0 (shdr sechdrs (Z.of_nat (n + k)))). case_match; lia.
Qed.

(** Sections [0] to [n - 1] laid out in [total] bytes. *)
Record laid_out (m0 m : mem) (sechdrs n total : Z) : Prop := {
  lo_total : 0 <= total;
  lo_bounds : forall i, 0 <= i < n -> allocated m0 (shdr sechdrs i) = true ->
    0 <= sh_addr m (shdr sechdrs i) /\ sh_addr m (shdr sechdrs i) + sh_size m0 (shdr sechdrs i) <= total /\
    (1 < sh_addralign m0 (shdr sechdrs i) -> (sh_addralign m0 (shdr sechdrs i) | sh_addr m (shdr sechdrs i)));
  lo_apart : forall i j, 0 <= i -> i < j < n -> allocated m0 (shdr sechdrs i) = true -> allocated m0 (shdr sechdrs j) = true ->
    sh_addr m (shdr sechdrs i) + sh_size m0 (shdr sechdrs i) <= sh_addr m (shdr sechdrs j)
}.

Lemma layout_spec m sechdrs (n : nat) :
  mem_ok m -> (forall i, 0 <= i < Z.of_nat n -> align_ok (sh_addralign m (shdr sechdrs i))) -> room m sechdrs n < 2 ^ 64 ->
  let '(m', total) := layout m sechdrs (Z.of_nat n) in
  mem_ok m' /\ laid_out m m' sechdrs (Z.of_nat n) total /\ total <= room m sechdrs n /\ forall x, ~ addr_field sechdrs (Z.of_nat n) x -> m' x = m x.
Proof.
  intros Hm Hal Hroom. unfold layout. rewrite Nat2Z.id.
  pose proof (for_up_inv (fun j '(m', total) => mem_ok m' /\ laid_out m m' sechdrs j total /\ total <= room m sechdrs (Z.to_nat j) /\ forall x, ~ addr_field sechdrs (Z.of_nat n) x -> m' x = m x)
    (layout_step sechdrs) n 0 (m, 0)) as Hinv. rewrite Z.add_0_l in Hinv. destruct (for_up n 0 (layout_step sechdrs) (m, 0)) as [m' total]. rewrite Nat2Z.id in Hinv. apply Hinv; clear Hinv m' total.
  - intros j [m1 total] Hj (Hm1 & [T B D] & Hr & Hx). cbn [layout_step]. set (p := shdr sechdrs j).
    pose proof (same_header_ext m m1 sechdrs (Z.of_nat n) j ltac:(intros x _; apply Hx) ltac:(lia)) as [Ef _ Es Ea]. fold p in Ef, Es, Ea. rewrite Ef, Ea. change (negb (sh_flags m p .& SHF_ALLOC =? 0)) with (allocated m p).
    assert (room m sechdrs (Z.to_nat (j + 1)) = room m sechdrs (Z.to_nat j) + (if allocated m p then sh_addralign m p + sh_size m p else 0)) as Er.
    { replace (Z.to_nat (j + 1)) with (S (Z.to_nat j)) by lia. cbn [room]. by rewrite Z2Nat.id by lia. }
    pose proof (room_mono m sechdrs (Z.to_nat (j + 1)) (n - Z.to_nat (j + 1)) Hm) as Hmono. replace (Z.to_nat (j + 1) + (n - Z.to_nat (j + 1)))%nat with n in Hmono by lia.
    destruct (allocated m p) eqn:Eal.
    2:{ split; [done|]. split; [|split; [lia|done]]. split; [done|..].
        - intros i Hi Hai. apply B; [|done]. destruct (decide (i = j)) as [->|]; [fold p in Hai; congruence|lia].
        - intros i k Hi Hk Hai Hak. apply D; [done| |done|done]. destruct (decide (k = j)) as [->|]; [fold p in Hak; congruence|lia]. }
    assert (0 <= sh_addralign m p /\ 0 <= sh_size m p) as [Ha0 Hs0] by (unfold sh_addralign, sh_size; pose proof (load64_range m (p + 48) Hm); pose proof (load64_range m (p + 32) Hm); lia).
    destruct (align_up_spec total (sh_addralign m p) Ha0 (Hal j ltac:(lia)) T ltac:(lia)) as [[Hlo Hhi] Hdiv]. set (off := align_up total (sh_addralign m p)) in *.
    assert (sh_size (set_sh_addr m1 p off) p = sh_size m p) as Es'.
    { rewrite <- Es. unfold sh_size, set_sh_addr. apply load64_store64_other. lia. }
    rewrite Es', u64_small by lia. split; [by apply store64_ok|]. split; [|split; [lia|intros x Hxa; rewrite <- (Hx x Hxa); apply (set_sh_addr_keeps m1 sechdrs (Z.of_nat n)); (done || lia)]].
    assert (forall i, i <> j -> sh_addr (set_sh_addr m1 p off) (shdr sechdrs i) = sh_addr m1 (shdr sechdrs i)) as Eo by (intros i Hi; by apply sh_addr_other).
    assert (sh_addr (set_sh_addr m1 p off) (shdr sechdrs j) = off) as Ej by (apply sh_addr_set; lia).
    split; [lia|..].
    + intros i Hi Hai. destruct (decide (i = j)) as [->|Hne]; [rewrite Ej; fold p; split; [lia|]; split; [lia|done]|].
      rewrite Eo by done. destruct (B i ltac:(lia) Hai) as (H1 & H2 & H3). split; [done|]. split; [lia|done].
    + intros i k Hi Hk Hai Hak. rewrite Eo by lia. destruct (decide (k = j)) as [->|Hne]; [rewrite Ej; destruct (B i ltac:(lia) Hai) as (_ & H2 & _); lia|].
      rewrite Eo by done. apply D; (done || lia).
  - split; [done|]. split; [|split; [simpl; lia|done]]. split; [lia|intros i Hi; lia|intros i j Hi Hj; lia].
Qed.


(** ** Copying the sections *)

(** An image whose [n] section headers are at [sechdrs], and a block of [total] bytes
    at [core] apart from it: the data of the allocated sections and the headers do not
    overlap each other nor the block, and no address wraps around. *)
Record image_ok (m : mem) (image core sechdrs n total : Z) : Prop := {
  im_block : 0 <= core /\ 0 <= total /\ core + total < 2 ^ 64;
  im_image : 0 <= image;
  im_headers : sechdrs + 64 * n <= core \/ core + total <= sechdrs;
  im_data : forall i, 0 <= i < n -> allocated m (shdr sechdrs i) = true ->
    let d := image + sh_offset m (shdr sechdrs i) in
    let e := d + sh_size m (shdr sechdrs i) in
    e < 2 ^ 64 /\ (e <= core \/ core + total <= d) /\ (e <= sechdrs \/ sechdrs + 64 * n <= d)
}.

Lemma not_addr_field sechdrs n x : x < sechdrs \/ sechdrs + 64 * n <= x -> ~ addr_field sechdrs n x.
Proof. intros Hx (k & Hk & Hxk). unfold shdr in Hxk. lia. Qed.

Lemma memcpy_bytes_at m d src n k :
  mem_ok m -> 0 <= n -> d + n <= src \/ src + n <= d -> k = Z.to_nat n -> bytes_at (memcpy m d src n) d k = bytes_at m src k.
Proof.
  intros Hm Hn Hd ->. apply bytes_at_ext. intros i Hi. rewrite (proj2 (memcpy_to m d src n Hm Hn Hd)), decide_True by lia. f_equal. lia.
Qed.

(** The state of the second loop after [j] sections, [m] being the memory before it. *)
Record placed (m m' : mem) (image core sechdrs n total j : Z) : Prop := {
  pl_ok : mem_ok m';
  pl_other : forall x, x < core \/ core + total <= x -> ~ addr_field sechdrs n x -> m' x = m x;
  pl_later : forall i, j <= i < n -> sh_addr m' (shdr sechdrs i) = sh_addr m (shdr sechdrs i);
  pl_addr : forall i, 0 <= i < j -> sh_addr m' (shdr sechdrs i) =
    if allocated m (shdr sechdrs i) then core + sh_addr m (shdr sechdrs i) else u64 (image + sh_offset m (shdr sechdrs i));
  pl_bytes : forall i, 0 <= i < j -> allocated m (shdr sechdrs i) = true ->
    bytes_at m' (core + sh_addr m (shdr sechdrs i)) (Z.to_nat (sh_size m (shdr sechdrs i))) =
    bytes_at m (image + sh_offset m (shdr sechdrs i)) (Z.to_nat (sh_size m (shdr sechdrs i)))
}.

Lemma place_step_ok m m1 image core sechdrs n total j :
  mem_ok m -> image_ok m image core sechdrs n total -> laid_out m m sechdrs n total -> 0 <= j < n ->
  placed m m1 image core sechdrs n total j -> placed m (place_step image core sechdrs j m1) image core sechdrs n total (j + 1).
Proof.
  intros Hm [[Hc [Ht Hct]] Him Hh Hdata] [_ B D] Hj [P1 P2 P3 P4 P5]. set (p := shdr sechdrs j).
  assert (forall x, sechdrs <= x < sechdrs + 64 * n -> ~ addr_field sechdrs n x -> m1 x = m x) as Hhx by (intros x Hx; apply P2; lia).
  pose proof (same_header_ext m m1 sechdrs n j Hhx Hj) as [Ef Eo Es _]. fold p in Ef, Eo, Es.
  assert (forall i, i <> j -> forall v, sh_addr (set_sh_addr m1 p v) (shdr sechdrs i) = sh_addr m1 (shdr sechdrs i)) as Hother by (intros; by apply sh_addr_other).
  assert (forall v q, q = shdr sechdrs j + 8 \/ q = shdr sechdrs j + 24 \/ q = shdr sechdrs j + 32 -> load64 (set_sh_addr m1 p v) q = load64 m1 q) as Hf.
  { intros v q Hq. apply load64_store64_other. unfold p. lia. }
  assert (forall v x, sechdrs + 64 * n <= x \/ x < sechdrs -> set_sh_addr m1 p v x = m1 x) as Hset by (intros v x Hx; apply store64_other; unfold p, shdr; lia).
  unfold place_step. fold p. rewrite Ef. change (negb (sh_flags m p .& SHF_ALLOC =? 0)) with (allocated m p). destruct (allocated m p) eqn:Ea.
  - destruct (B j Hj Ea) as (B1 & B2 & _). fold p in B1, B2. rewrite (P3 j ltac:(lia) : sh_addr m1 p = sh_addr m p). assert (0 <= sh_size m p) as Hs0 by (unfold sh_size; pose proof (load64_range m (p + 32) Hm); lia).
    rewrite u64_small by lia. set (off := sh_addr m p) in *. set (m2 := set_sh_addr m1 p (core + off)).
    assert (sh_addr m2 p = core + off) as -> by (apply sh_addr_set; lia). assert (sh_offset m2 p = sh_offset m p) as -> by (rewrite <- Eo; apply Hf; unfold p; tauto).
    assert (sh_size m2 p = sh_size m p) as -> by (rewrite <- Es; apply Hf; unfold p; tauto).
    destruct (Hdata j Hj Ea) as (D1 & D2 & D3). fold p in D1, D2, D3. assert (0 <= sh_offset m p) as Ho0 by (unfold sh_offset; pose proof (load64_range m (p + 24) Hm); lia).
    rewrite u64_small by lia. set (src := image + sh_offset m p) in *. set (sz := sh_size m p) in *. assert (mem_ok m2) as Hm2 by by apply store64_ok.
    destruct (memcpy_to m2 (core + off) src sz Hm2 Hs0 ltac:(lia)) as [Hm3 Hcp]. set (m3 := memcpy m2 (core + off) src sz) in *.
    assert (forall x, x < core + off \/ core + off + sz <= x -> m3 x = m2 x) as Hkeep by (intros x Hx; rewrite Hcp; case_decide; [lia|done]).
    assert (forall i, 0 <= i < n -> sh_addr m3 (shdr sechdrs i) = sh_addr m2 (shdr sechdrs i)) as Hsh by (intros i Hi; apply load64_ext; intros x Hx; apply Hkeep; unfold shdr in Hx; lia).
    split; [done|..].
    + intros x Hx Hxa. rewrite Hkeep by lia. unfold m2, p. rewrite (set_sh_addr_keeps m1 sechdrs n j) by done. by apply P2.
    + intros i Hi. rewrite Hsh by lia. unfold m2. rewrite Hother by lia. apply P3. lia.
    + intros i Hi. rewrite Hsh by lia. destruct (decide (i = j)) as [->|Hne]; [fold p; rewrite Ea; apply sh_addr_set; lia|]. unfold m2. rewrite Hother by done. apply P4. lia.
    + intros i Hi Hai. destruct (decide (i = j)) as [->|Hne].
      * fold p off sz src. unfold m3. rewrite memcpy_bytes_at; [|done|done|lia|done]. apply bytes_at_ext. intros x Hx. unfold m2. rewrite Hset by lia. apply P2; [lia|]. apply not_addr_field. lia.
      * rewrite <- P5 by (done || lia). destruct (B i ltac:(lia) Hai) as (Bi1 & Bi2 & _). pose proof (D i j ltac:(lia) ltac:(lia) Hai Ea) as Dij. fold p off in Dij.
        apply bytes_at_ext. intros x Hx. rewrite Hkeep by lia. apply Hset. lia.
  - rewrite Eo. split; [by apply store64_ok|..].
    + intros x Hx Hxa. unfold p. rewrite (set_sh_addr_keeps m1 sechdrs n j) by done. by apply P2.
    + intros i Hi. rewrite Hother by lia. apply P3. lia.
    + intros i Hi. destruct (decide (i = j)) as [->|Hne]; [fold p; rewrite Ea; apply sh_addr_set; apply u64_range|]. rewrite Hother by done. apply P4. lia.
    + intros i Hi Hai. assert (i <> j) as Hne by (intros ->; fold p in Hai; congruence). rewrite <- P5 by (done || lia). destruct (B i ltac:(lia) Hai) as (Bi1 & Bi2 & _).
      apply bytes_at_ext. intros x Hx. apply Hset. lia.
Qed.

(** C24: the sections of a module in memory.  After the two loops of
    [sys_init_module] the allocated sections lie in the block, in order, without
    overlap, each at a multiple of its alignment from the start of the block, with the
    bytes of the image as contents and the section header pointing there; the headers
    of the other sections point into the image; nothing else in memory has changed
    outside the block.  The bytes of a section without data in the file are copied
    from the image, too. *)
Theorem sections_loaded m image core sechdrs (n : nat) :
  mem_ok m -> (forall i, 0 <= i < Z.of_nat n -> align_ok (sh_addralign m (shdr sechdrs i))) -> room m sechdrs n < 2 ^ 64 ->
  let '(m1, total) := layout m sechdrs (Z.of_nat n) in
  image_ok m image core sechdrs (Z.of_nat n) total ->
  let m' := place (memset m1 core 0 total) image core sechdrs (Z.of_nat n) in
  (forall i, 0 <= i < Z.of_nat n -> let p := shdr sechdrs i in
     if allocated m p then
       core <= sh_addr m' p /\ sh_addr m' p + sh_size m p <= core + total /\ (1 < sh_addralign m p -> (sh_addralign m p | sh_addr m' p - core)) /\
       bytes_at m' (sh_addr m' p) (Z.to_nat (sh_size m p)) = bytes_at m (image + sh_offset m p) (Z.to_nat (sh_size m p))
     else sh_addr m' p = u64 (image + sh_offset m p)) /\
  (forall i j, 0 <= i -> i < j < Z.of_nat n -> allocated m (shdr sechdrs i) = true -> allocated m (shdr sechdrs j) = true ->
     sh_addr m' (shdr sechdrs i) + sh_size m (shdr sechdrs i) <= sh_addr m' (shdr sechdrs j)) /\
  (forall x, x < core \/ core + total <= x -> ~ addr_field sechdrs (Z.of_nat n) x -> m' x = m x).
Proof.
  intros Hm Hal Hroom. pose proof (layout_spec m sechdrs n Hm Hal Hroom) as Hlay. destruct (layout m sechdrs (Z.of_nat n)) as [m1 total]. destruct Hlay as (Hm1 & [T B D] & _ & Hx1).
  intros Hio m'. pose proof Hio as [[Hc [Ht Hct]] Him Hh Hdata]. set (N := Z.of_nat n) in *. set (m2 := memset m1 core 0 total) in *.
  assert (forall x, x < core \/ core + total <= x -> m2 x = m1 x) as Hms.
  { intros x Hx. unfold m2. rewrite (memset_poke m1 core 0 total Ht x). apply poke_other. rewrite length_replicate. lia. }
  assert (mem_ok m2) as Hm2.
  { apply (mem_eq_ok (poke m1 core (replicate (Z.to_nat total) (u8 0)))); [symmetry; by apply memset_poke|]. apply poke_ok; [done|]. apply Forall_replicate. vm_compute. split; discriminate || reflexivity. }
  assert (forall x, x < core \/ core + total <= x -> ~ addr_field sechdrs N x -> m2 x = m x) as Hx2 by (intros x Hx Hxa; rewrite Hms by done; by apply Hx1).
  assert (forall i, 0 <= i < N -> same_header m m2 (shdr sechdrs i)) as Hsame by (intros i Hi; apply (same_header_ext m m2 sechdrs N); [intros x Hxr; apply Hx2; lia|done]).
  assert (forall i, 0 <= i < N -> allocated m2 (shdr sechdrs i) = allocated m (shdr sechdrs i)) as Hall by (intros i Hi; unfold allocated; by destruct (Hsame i Hi) as [-> _ _ _]).
  assert (forall i, 0 <= i < N -> sh_addr m2 (shdr sechdrs i) = sh_addr m1 (shdr sechdrs i)) as Haddr by (intros i Hi; apply load64_ext; intros x Hxr; apply Hms; unfold shdr in Hxr; lia).
  assert (image_ok m2 image core sechdrs N total) as Hio2.
  { split; [done|done|done|]. intros i Hi Hai. rewrite Hall in Hai by done. destruct (Hsame i Hi) as [_ -> -> _]. by apply Hdata. }
  assert (laid_out m2 m2 sechdrs N total) as Hl2.
  { split; [done|..].
    - intros i Hi Hai. rewrite Hall in Hai by done. destruct (Hsame i Hi) as [_ _ -> ->]. rewrite Haddr by done. by apply B.
    - intros i j Hi Hj Hai Haj. rewrite Hall in Hai, Haj by lia. destruct (Hsame i ltac:(lia)) as [_ _ -> _]. rewrite !Haddr by lia. by apply D. }
  assert (placed m2 m' image core sechdrs N total N) as [_ P2 _ P4 P5].
  { unfold m', place. replace N with (0 + Z.of_nat n) at 3 by (unfold N; lia). replace (Z.to_nat N) with n by (unfold N; lia).
    apply (for_up_inv (fun j m => placed m2 m image core sechdrs N total j)); [intros j t Hj; apply place_step_ok; (done || (unfold N; lia))|]. split; (done || (intros; lia)). }
  split; [|split].
  - intros i Hi p. specialize (P4 i Hi). specialize (P5 i Hi). fold p in P4, P5. rewrite (Hall i Hi : allocated m2 p = allocated m p) in P4, P5. destruct (Hsame i Hi) as [_ Eo Es _]. fold p in Eo, Es.
    destruct (allocated m p) eqn:Ea; [|by rewrite P4, Eo]. specialize (P5 eq_refl). rewrite Es, Eo in P5. rewrite (Haddr i Hi : sh_addr m2 p = sh_addr m1 p) in P4, P5. rewrite P4.
    destruct (B i Hi Ea) as (B1 & B2 & B3). fold p in B1, B2, B3. split; [lia|]. split; [lia|]. split; [intros H1; replace (core + sh_addr m1 p - core) with (sh_addr m1 p) by lia; by apply B3|].
    rewrite P5. destruct (Hdata i Hi Ea) as (D1 & D2 & D3). fold p in D1, D2, D3. apply bytes_at_ext. intros x Hx. apply Hx2; [lia|]. apply not_addr_field. lia.
  - intros i j Hi Hj Hai Haj. rewrite !P4, !Hall, Hai, Haj, !Haddr by lia. pose proof (D i j Hi Hj Hai Haj). lia.
  - intros x Hx Hxa. rewrite P2 by done. by apply Hx2.
Qed.


(** ** Relocations *)

Section relocation.
Context {A : Type} `{Allocator A}.
Context (modules_head start_ksymtab stop_ksymtab : Z) (fuel : nat).
(** The memory before the relocations, and the section they are for. *)
Context (m0 : mem) (target size : Z).

Definition outside (a w : Z) : Prop := a + w <= target \/ target + size <= a.
(** What the relocations of the section leave alone. *)
Definition agrees (m : mem) : Prop := forall x, x < target \/ target + size <= x -> m x = m0 x.

Lemma load_agrees m a w : agrees m -> outside a (Z.of_nat w) -> load_le m a w = load_le m0 a w.
Proof. intros Hm Ho. apply load_le_ext. intros x Hx. apply Hm. unfold outside in Ho. lia. Qed.

Definition string_at (a : Z) (l : list Z) : Prop := cstr m0 a l /\ outside a (Z.of_nat (length l) + 1).

Lemma string_agrees m a l : agrees m -> string_at a l -> cstr m a l.
Proof. intros Hm [Hc Ho]. apply (cstr_ext m0); [|done]. intros x Hx. symmetry. apply Hm. unfold outside in Ho. lia. Qed.

Lemma strcmp_agrees m a b l1 l2 :
  agrees m -> string_at a l1 -> string_at b l2 -> (length l1 < fuel)%nat -> exists r, strcmp fuel m a b = Some r /\ (r = 0 <-> l1 = l2).
Proof.
  intros Hm H1 H2 Hf. destruct (strcmp_spec m a b l1 l2) as (r & E & _ & Hr); [by apply string_agrees..|]. exists r. split; [|done].
  unfold strcmp, cmp_loop in *. destruct (loop (S (length l1)) _ _) as [[p q]|] eqn:El; [|done]. by rewrite (loop_more _ _ fuel _ _ El) by lia.
Qed.

(** The array of kernel symbols at [p]. *)
Fixpoint ksyms_at (p : Z) (l : list (list Z * Z)) : Prop :=
  match l with
  | [] => True
  | (name, v) :: l =>
      outside p 16 /\ string_at (load64 m0 p) name /\ (length name < fuel)%nat /\ load64 m0 (p + 8) = v /\ ksyms_at (p + 16) l
  end.

Fixpoint find_ksym (name : list Z) (l : list (list Z * Z)) : option Z :=
  match l with
  | [] => None
  | (x, v) :: l => if decide (x = name) then Some v else find_ksym name l
  end.

Lemma search_ksyms_spec m name nm l : forall p stop,
  agrees m -> string_at name nm -> ksyms_at p l -> stop = p + 16 * Z.of_nat (length l) -> search_ksyms fuel m name p stop = Some (find_ksym nm l).
Proof.
  intros p stop Hm Hn Hl ->. unfold search_ksyms. replace ((p + 16 * Z.of_nat (length l) - p) / 16) with (Z.of_nat (length l)) by (Z.div_mod_to_equations; lia). rewrite Nat2Z.id.
  set (stop := p + 16 * Z.of_nat (length l)). assert (stop = p + 16 * Z.of_nat (length l)) as Estop by done. clearbody stop. revert p Hl Estop.
  induction l as [|[x v] l IH]; intros p Hl Estop; cbn [length loop]; unfold ksym_step at 1; cbn [length] in Estop.
  - rewrite (proj2 (Z.ltb_ge p stop)) by lia. done.
  - rewrite (proj2 (Z.ltb_lt p stop)) by lia. destruct Hl as (Ho & Hs & Hf & Hv & Hl). unfold outside in Ho.
    assert (load64 m p = load64 m0 p) as -> by (apply load_agrees; [done|unfold outside; lia]).
    destruct (strcmp_agrees m (load64 m0 p) name x nm Hm Hs Hn Hf) as (r & -> & Hr). cbn [find_ksym]. destruct (Z.eqb_spec r 0) as [E|E].
    + rewrite decide_True by tauto. assert (load64 m (p + 8) = v) as -> by (rewrite <- Hv; apply load_agrees; [done|unfold outside; lia]). done.
    + rewrite decide_False by tauto. apply IH; [done|lia].
Qed.

(** The symbol tables: the kernel's, and loaded modules, which export nothing. *)
Record symbols_ok (s : modules (A := A)) (ksyms : list (list Z * Z)) : Prop := {
  sy_kernel : ksyms_at start_ksymtab ksyms;
  sy_stop : stop_ksymtab = start_ksymtab + 16 * Z.of_nat (length ksyms);
  sy_modules : exists l, list_for_each fuel (m_links s) modules_head = Some l /\
    forall pos, pos ∈ l -> outside (mod_num_syms (pos - 8)) 4 /\ load32 m0 (mod_num_syms (pos - 8)) = 0
}.

Lemma search_modules_none m name l :
  agrees m -> (forall pos, pos ∈ l -> outside (mod_num_syms (pos - 8)) 4 /\ load32 m0 (mod_num_syms (pos - 8)) = 0) -> search_modules fuel m name l = Some 0.
Proof.
  intros Hm. induction l as [|pos l IH]; intros Hl; [done|]. cbn [search_modules]. destruct (Hl pos ltac:(by left)) as [Ho E].
  assert (load32 m (mod_num_syms (pos - 8)) = 0) as -> by (rewrite <- E; by apply load_agrees). unfold search_ksyms. rewrite Z.mul_0_r, Z.add_0_r, Z.sub_diag. cbn [Z.div Z.div_eucl Z.to_nat loop].
  unfold ksym_step at 1. rewrite Z.ltb_irrefl. cbn. apply IH. intros q Hq. apply Hl. by right.
Qed.

Lemma resolve_symbol_spec s m name nm ksyms :
  agrees m -> symbols_ok s ksyms -> string_at name nm ->
  resolve_symbol modules_head start_ksymtab stop_ksymtab fuel (with_mmem s m) name = Some (default 0 (find_ksym nm ksyms)).
Proof.
  intros Hm [Hk Hs (l & El & Hl)] Hn. unfold resolve_symbol. cbn [m_mem m_links with_mmem]. rewrite (search_ksyms_spec m name nm ksyms) by done. cbn [mbind option_bind].
  destruct (find_ksym nm ksyms) as [v|]; [done|]. rewrite El. cbn [mbind option_bind]. by rewrite search_modules_none.
Qed.

(** The value of symbol [idx] of the table at [sym]: none, a symbol of a section of
    the module, or one of the kernel ([None] if the kernel has none of that name). *)
Inductive resolves (sechdrs strtab sym : Z) (ksyms : list (list Z * Z)) : Z -> option Z -> Prop :=
| resolves_none : resolves sechdrs strtab sym ksyms 0 (Some 0)
| resolves_section idx :
    let p := sym + sizeof_sym * idx in
    idx <> 0 -> outside p sizeof_sym -> st_shndx m0 p <> SHN_UNDEF -> outside (shdr sechdrs (st_shndx m0 p) + 16) 8 ->
    resolves sechdrs strtab sym ksyms idx (Some (u64 (sh_addr m0 (shdr sechdrs (st_shndx m0 p)) + st_value m0 p)))
| resolves_kernel idx nm :
    let p := sym + sizeof_sym * idx in
    idx <> 0 -> outside p sizeof_sym -> st_shndx m0 p = SHN_UNDEF -> string_at (strtab + st_name m0 p) nm ->
    resolves sechdrs strtab sym ksyms idx (v ← find_ksym nm ksyms; if v =? 0 then None else Some v).

Lemma symbol_value_spec s m sechdrs strtab sym ksyms idx r :
  agrees m -> symbols_ok s ksyms -> resolves sechdrs strtab sym ksyms idx r ->
  symbol_value modules_head start_ksymtab stop_ksymtab fuel (with_mmem s m) sechdrs strtab sym idx = Some (match r with Some v => inl v | None => inr tt end).
Proof.
  intros Hm Hs Hr. unfold symbol_value. cbn [m_mem with_mmem]. destruct Hr as [|idx p Hi Ho Hx Hh|idx nm p Hi Ho Hx Hn]; [done|..]; rewrite (proj2 (Z.eqb_neq idx 0)) by done; fold p; unfold sizeof_sym in Ho.
  - assert (st_shndx m p = st_shndx m0 p) as -> by (apply load_agrees; [done|unfold outside in *; lia]). rewrite (proj2 (Z.eqb_neq _ _) Hx).
    assert (st_value m p = st_value m0 p) as -> by (apply load_agrees; [done|unfold outside in *; lia]). by assert (sh_addr m (shdr sechdrs (st_shndx m0 p)) = sh_addr m0 (shdr sechdrs (st_shndx m0 p))) as -> by (by apply load_agrees).
  - assert (st_shndx m p = st_shndx m0 p) as -> by (apply load_agrees; [done|unfold outside in *; lia]). rewrite Hx, Z.eqb_refl.
    assert (st_name m p = st_name m0 p) as -> by (apply load_agrees; [done|unfold outside in *; lia]). rewrite (resolve_symbol_spec s m _ nm ksyms) by done. cbn [mbind option_bind].
    destruct (find_ksym nm ksyms) as [v|]; cbn; [|done]. by destruct (v =? 0).
Qed.

(** The bytes a relocation writes, and their value. *)
Definition width (type : Z) : nat :=
  if type =? R_X86_64_NONE then 0%nat else if type =? R_X86_64_64 then 8%nat else 4%nat.
Definition reloc_value (type loc v addend : Z) : Z :=
  if (type =? R_X86_64_PC32) || (type =? R_X86_64_PLT32) then v + addend - loc else v + addend.
Definition known_type (type : Z) : Prop := type ∈ [R_X86_64_NONE; R_X86_64_64; R_X86_64_PC32; R_X86_64_PLT32; R_X86_64_32; R_X86_64_32S].

Lemma relocate_spec m type loc v addend :
  mem_ok m ->
  match relocate m type loc v addend with
  | Some m' => known_type type /\ mem_ok m' /\ load_le m' loc (width type) = reloc_value type loc v addend mod 256 ^ Z.of_nat (width type) /\
               forall x, x < loc \/ loc + Z.of_nat (width type) <= x -> m' x = m x
  | None => ~ known_type type
  end.
Proof.
  intros Hm. unfold relocate, width, reloc_value, known_type.
  destruct (Z.eqb_spec type R_X86_64_NONE) as [->|H0]; [cbn; rewrite Z.mod_1_r; split; [by left|]; by split_and!|].
  destruct (Z.eqb_spec type R_X86_64_64) as [->|H1].
  { split; [right; by left|]. split; [by apply store64_ok|]. cbn [orb Z.eqb]. split; [unfold store64; rewrite load_store_le_same; apply Z.mod_mod; lia|]. intros x Hx. apply store64_other. lia. }
  destruct ((type =? R_X86_64_32) || (type =? R_X86_64_32S)) eqn:E2; [|destruct ((type =? R_X86_64_PC32) || (type =? R_X86_64_PLT32)) eqn:E3].
  - assert ((type =? R_X86_64_PC32) || (type =? R_X86_64_PLT32) = false) as -> by (apply orb_true_iff in E2 as [->%Z.eqb_eq| ->%Z.eqb_eq]; done).
    split; [apply orb_true_iff in E2 as [->%Z.eqb_eq| ->%Z.eqb_eq]; set_solver|]. split; [by apply store_le_ok|]. split; [unfold store32; rewrite load_store_le_same; apply Z.mod_mod; lia|].
    intros x Hx. apply store32_other. lia.
  - split; [apply orb_true_iff in E3 as [->%Z.eqb_eq| ->%Z.eqb_eq]; set_solver|]. split; [by apply store_le_ok|]. split; [unfold store32; rewrite load_store_le_same; apply Z.mod_mod; lia|].
    intros x Hx. apply store32_other. lia.
  - apply orb_false_iff in E2 as [Ea%Z.eqb_neq Eb%Z.eqb_neq]. apply orb_false_iff in E3 as [Ec%Z.eqb_neq Ed%Z.eqb_neq]. rewrite !elem_of_cons, elem_of_nil. tauto.
Qed.


(** Relocation [k] of the table at [rel]. *)
Section table.
Context (s : modules (A := A)) (sechdrs strtab sym target_sec rel : Z) (ksyms : list (list Z * Z)).

Definition rela (k : Z) : Z := rel + sizeof_rela * k.
Definition loc (k : Z) : Z := target + r_offset m0 (rela k).
Definition rtype (k : Z) : Z := u32 (ELF64_R_TYPE (r_info m0 (rela k))).
Definition rsym (k : Z) : Z := u32 (ELF64_R_SYM (r_info m0 (rela k))).
Definition covers (k x : Z) : Prop := loc k <= x < loc k + Z.of_nat (width (rtype k)).

(** A relocation that can be applied, with [v] as the value of its symbol. *)
Definition good (k v : Z) : Prop :=
  known_type (rtype k) /\ r_offset m0 (rela k) + Z.of_nat (width (rtype k)) <= size /\ resolves sechdrs strtab sym ksyms (rsym k) (Some v).
(** One that cannot: the symbol is missing or the type is not supported. *)
Definition bad (k : Z) : Prop :=
  resolves sechdrs strtab sym ksyms (rsym k) None \/ (exists v, resolves sechdrs strtab sym ksyms (rsym k) (Some v)) /\ ~ known_type (rtype k).

(** The target section and the table of [n] relocations, apart from each other. *)
Record table_ok (n : nat) : Prop := {
  tb_mem : m_mem s = m0;
  tb_ok : mem_ok m0;
  tb_symbols : symbols_ok s ksyms;
  tb_target : 0 <= target /\ target + size < 2 ^ 64 /\ sh_addr m0 target_sec = target /\ outside (target_sec + 16) 8;
  tb_table : outside rel (sizeof_rela * Z.of_nat n)
}.

Notation reloc_loop := (reloc_loop modules_head start_ksymtab stop_ksymtab fuel).

Lemma reloc_one_spec n m k r :
  table_ok n -> mem_ok m -> agrees m -> 0 <= k < Z.of_nat n -> resolves sechdrs strtab sym ksyms (rsym k) r ->
  reloc_one modules_head start_ksymtab stop_ksymtab fuel (with_mmem s m) sechdrs strtab sym target_sec (rela k) =
  Some (match r with
        | Some v => match relocate m (rtype k) (u64 (loc k)) v (r_addend m0 (rela k)) with Some m' => inl (with_mmem s m') | None => inr tt end
        | None => inr tt
        end).
Proof.
  intros [_ Hm0 Hs (Ht & Hts & Ea & Eo) Htab] Hm Hag Hk Hr. unfold reloc_one. cbn [m_mem with_mmem]. assert (outside (rela k) 24) as Hok by (unfold outside, rela, sizeof_rela in *; lia).
  assert (sh_addr m target_sec = target) as -> by (rewrite <- Ea; by apply load_agrees).
  assert (r_offset m (rela k) = r_offset m0 (rela k)) as -> by (apply load_agrees; [done|unfold outside in *; lia]).
  assert (r_info m (rela k) = r_info m0 (rela k)) as -> by (apply load_agrees; [done|unfold outside in *; lia]).
  assert (r_addend m (rela k) = r_addend m0 (rela k)) as -> by (apply load_agrees; [done|unfold outside in *; lia]).
  fold (rtype k) (rsym k) (loc k). rewrite (symbol_value_spec s m sechdrs strtab sym ksyms (rsym k) r) by done. by destruct r.
Qed.

(** The first [j] relocations, all good, have been applied. *)
Lemma reloc_prefix n v j :
  table_ok n -> (j <= n)%nat -> (forall k, 0 <= k < Z.of_nat j -> good k (v k)) ->
  (forall k k', 0 <= k -> k < k' < Z.of_nat j -> forall x, covers k x -> covers k' x -> False) ->
  exists m, reloc_loop n s sechdrs strtab sym target_sec rel = reloc_loop (n - j) (with_mmem s m) sechdrs strtab sym target_sec (rela (Z.of_nat j)) /\
    mem_ok m /\ agrees m /\ (forall x, (forall k, 0 <= k < Z.of_nat j -> ~ covers k x) -> m x = m0 x) /\
    forall k, 0 <= k < Z.of_nat j -> load_le m (loc k) (width (rtype k)) = reloc_value (rtype k) (loc k) (v k) (r_addend m0 (rela k)) mod 256 ^ Z.of_nat (width (rtype k)).
Proof.
  intros Htab. induction j as [|j IH]; intros Hj Hg Hd.
  { exists m0. rewrite Nat.sub_0_r. unfold rela. rewrite Z.mul_0_r, Z.add_0_r. pose proof (tb_mem _ Htab) as Em. pose proof (tb_ok _ Htab).
    split; [|split; [done|]; split; [done|]; split; [done|intros k Hk; lia]]. destruct s as [m1 l1 h1 i1]. cbn [m_mem] in Em. by rewrite <- Em. }
  destruct IH as (m & E & Hm & Hag & Hx & Hv); [lia|intros k Hk; apply Hg; lia|intros k k' Hk Hk'; apply Hd; lia|].
  destruct (Hg (Z.of_nat j) ltac:(lia)) as (Hty & Hsz & Hres). pose proof (tb_target _ Htab) as (Ht & Hts & _ & _).
  replace (n - j)%nat with (S (n - S j)) in E by lia. cbn [Modload.reloc_loop] in E. rewrite (reloc_one_spec n m (Z.of_nat j) _ Htab Hm Hag ltac:(lia) Hres) in E. cbn [mbind option_bind] in E.
  assert (0 <= r_offset m0 (rela (Z.of_nat j))) as Hro by (apply load64_range, Htab).
  pose proof (relocate_spec m (rtype (Z.of_nat j)) (loc (Z.of_nat j)) (v (Z.of_nat j)) (r_addend m0 (rela (Z.of_nat j))) Hm) as Hrel.
  rewrite u64_small in E by (unfold loc; lia). destruct (relocate m _ (loc (Z.of_nat j)) _ _) as [m'|]; [|done]. destruct Hrel as (_ & Hm' & Hval & Hkeep).
  exists m'. split; [rewrite E; f_equal; unfold rela, sizeof_rela; lia|]. split; [done|]. split; [|split].
  - intros x Hxo. rewrite Hkeep by (unfold loc; lia). by apply Hag.
  - intros x Hxc. rewrite Hkeep; [apply Hx; intros k Hk; apply Hxc; lia|]. pose proof (Hxc (Z.of_nat j) ltac:(lia)) as Hc. unfold covers in Hc. lia.
  - intros k Hk. destruct (decide (k = Z.of_nat j)) as [->|Hne]; [done|]. rewrite <- Hv by lia. apply load_le_ext. intros x Hxr. apply Hkeep.
    destruct (decide (covers (Z.of_nat j) x)) as [Hc|Hc]; [destruct (Hd k (Z.of_nat j) ltac:(lia) ltac:(lia) x Hxr Hc)|unfold covers in Hc; lia].
Qed.

End table.

(** C23: the relocations of a section.  If the symbols of all relocations are known and
    their types supported, and the places they change lie in the target section without
    overlap, [apply_relocations] returns 0, every place holds the value the type asks
    for (the symbol plus the addend, less the place for the relative ones, at the
    width of the type), and no other byte changes; a symbol of a section has its address
    there, an undefined one the value of the first kernel symbol of that name.  A
    relocation that refers to a missing symbol or has another type makes the call
    return -1. *)
Theorem relocations_applied (s : modules (A := A)) sechdrs strtab symindex relsec ksyms :
  let rel_sec := shdr sechdrs relsec in
  let target_sec := shdr sechdrs (sh_info m0 rel_sec) in
  let rel := sh_addr m0 rel_sec in
  let sym := sh_addr m0 (shdr sechdrs symindex) in
  let n := Z.to_nat (u32 (sh_size m0 rel_sec / sizeof_rela)) in
  table_ok s target_sec rel ksyms n ->
  let apply := apply_relocations modules_head start_ksymtab stop_ksymtab fuel s sechdrs strtab symindex relsec in
  (forall v, (forall k, 0 <= k < Z.of_nat n -> good sechdrs strtab sym rel ksyms k (v k)) ->
     (forall k k', 0 <= k -> k < k' < Z.of_nat n -> forall x, covers rel k x -> covers rel k' x -> False) ->
     exists m, apply = Some (with_mmem s m, 0) /\
       (forall k, 0 <= k < Z.of_nat n -> load_le m (loc rel k) (width (rtype rel k)) =
          reloc_value (rtype rel k) (loc rel k) (v k) (r_addend m0 (rela rel k)) mod 256 ^ Z.of_nat (width (rtype rel k))) /\
       (forall x, (forall k, 0 <= k < Z.of_nat n -> ~ covers rel k x) -> m x = m0 x)) /\
  (forall v j, (j < n)%nat -> (forall k, 0 <= k < Z.of_nat j -> good sechdrs strtab sym rel ksyms k (v k)) ->
     (forall k k', 0 <= k -> k < k' < Z.of_nat j -> forall x, covers rel k x -> covers rel k' x -> False) ->
     bad sechdrs strtab sym rel ksyms (Z.of_nat j) -> exists s', apply = Some (s', -1)).
Proof.
  intros rel_sec target_sec rel sym n Htab apply. assert (apply = reloc_loop modules_head start_ksymtab stop_ksymtab fuel n s sechdrs strtab sym target_sec rel) as Ea.
  { unfold apply, apply_relocations. by rewrite (tb_mem _ _ _ _ _ Htab). }
  rewrite Ea. split.
  - intros v Hg Hd. destruct (reloc_prefix s sechdrs strtab sym target_sec rel ksyms n v n Htab ltac:(lia) Hg Hd) as (m & -> & _ & _ & Hx & Hv). rewrite Nat.sub_diag. by exists m.
  - intros v j Hj Hg Hd Hbad. destruct (reloc_prefix s sechdrs strtab sym target_sec rel ksyms n v j Htab ltac:(lia) Hg Hd) as (m & -> & Hm & Hag & _).
    replace (n - j)%nat with (S (n - S j)) by lia. cbn [reloc_loop]. destruct Hbad as [Hr|[[u Hr] Hty]].
    + rewrite (reloc_one_spec s sechdrs strtab sym target_sec rel ksyms n m (Z.of_nat j) _ Htab Hm Hag ltac:(lia) Hr). cbn. eauto.
    + rewrite (reloc_one_spec s sechdrs strtab sym target_sec rel ksyms n m (Z.of_nat j) _ Htab Hm Hag ltac:(lia) Hr). cbn [mbind option_bind].
      pose proof (relocate_spec m (rtype rel (Z.of_nat j)) (u64 (loc rel (Z.of_nat j))) u (r_addend m0 (rela rel (Z.of_nat j))) Hm) as Hrel.
      destruct (relocate _ _ _ _ _); [by destruct Hrel as [? _]|eauto].
Qed.

End relocation.


(** ** A module with one section, and one relocation *)

#[local] Existing Instance Heap.heap_allocator.

Definition words (l : list (nat * Z)) : list Z := concat ((fun '(n, v) => le_bytes n v) <$> l).

(** The image at [0x1000] and its section headers at [0x2000]: the null section and a
    section of four bytes at offset 16, aligned to 16 bytes. *)
Definition demo_image : mem :=
  poke (poke (fun _ => 0) 0x1010 [1; 2; 3; 4]) 0x2040 (words [(4%nat, 0); (4%nat, 1); (8%nat, 2); (8%nat, 0); (8%nat, 16); (8%nat, 4); (4%nat, 0); (4%nat, 0); (8%nat, 16); (8%nat, 0)]).

Lemma words_ok l : Forall (fun b => 0 <= b < 256) (words l).
Proof. unfold words. induction l as [|[n v] l IH]; [by constructor|]. cbn [fmap list_fmap concat]. apply Forall_app. split; [apply le_bytes_ok|done]. Qed.

Lemma demo_image_ok : mem_ok demo_image.
Proof. apply poke_ok; [apply poke_ok|apply words_ok]; [intros x; lia|]. by repeat constructor. Qed.

Lemma sections_loaded_witness :
  exists m1 total, layout demo_image 0x2000 2 = (m1, total) /\
    bytes_at (place (memset m1 0x8000 0 total) 0x1000 0x8000 0x2000 2) 0x8000 4 = [1; 2; 3; 4].
Proof.
  pose proof (sections_loaded demo_image 0x1000 0x8000 0x2000 2 demo_image_ok) as Ht.
  assert (snd (layout demo_image 0x2000 2) = 4) as Etot by (vm_compute; reflexivity). change (Z.of_nat 2) with 2 in Ht. destruct (layout demo_image 0x2000 2) as [m1 total]. cbn [snd] in Etot. subst total.
  assert (forall i, 0 <= i < 2 -> i = 0 \/ i = 1) as Hi by (intros i Hi; lia).
  destruct Ht as (Ht & _ & _).
  - intros i Hi2. destruct (Hi i Hi2) as [->| ->]; [left; vm_compute; discriminate|right; exists 4; split; [lia|vm_compute; reflexivity]].
  - vm_compute. reflexivity.
  - split; [lia|lia|lia|]. intros i Hi2 Ha. destruct (Hi i Hi2) as [->| ->]; [vm_compute in Ha; discriminate Ha|]. vm_compute. split; [reflexivity|]. split; left; discriminate.
  - exists m1, 4. split; [done|]. specialize (Ht 1 ltac:(lia)). cbn zeta in Ht. set (m' := place _ _ _ _ _) in *.
    assert (allocated demo_image (shdr 0x2000 1) = true) as Ea by (vm_compute; reflexivity). rewrite Ea in Ht. destruct Ht as (H1 & H2 & _ & Hb).
    assert (sh_size demo_image (shdr 0x2000 1) = 4) as Es by (vm_compute; reflexivity). rewrite Es in *. assert (sh_addr m' (shdr 0x2000 1) = 0x8000) as E by lia. rewrite E in Hb.
    change (Z.to_nat 4) with 4%nat in Hb. rewrite Hb. vm_compute. reflexivity.
Defined.

(** Section headers at [0x2000]: 1 is the relocation section for section 2 at
    [0x8000], 3 the symbol table at [0x4000], whose symbol 1 is undefined and named
    [f]; the kernel's table at [0x500] has one symbol, [f]. *)
Definition demo_object : mem :=
  foldr (fun '(a, l) m => poke m a l) (fun _ => 0)
    [(0x2040, words [(4%nat, 0); (4%nat, 4); (8%nat, 0); (8%nat, 0x3000); (8%nat, 0); (8%nat, 24); (4%nat, 3); (4%nat, 2)]);
     (0x2080, words [(4%nat, 0); (4%nat, 1); (8%nat, 2); (8%nat, 0x8000); (8%nat, 0); (8%nat, 16)]);
     (0x20c0, words [(4%nat, 0); (4%nat, 2); (8%nat, 0); (8%nat, 0x4000); (8%nat, 0); (8%nat, 48)]);
     (0x3000, words [(8%nat, 8); (8%nat, 0x100000001); (8%nat, 5)]);
     (0x500, words [(8%nat, 0x600); (8%nat, 0x1234)]); (0x600, [102; 0]); (0x700, [102; 0])].

Lemma demo_object_ok : mem_ok demo_object.
Proof. unfold demo_object. cbn [foldr]. repeat (apply poke_ok; [|apply words_ok || by repeat constructor]). intros x. lia. Qed.

Definition demo_modules : modules (A := Spinlock.cpu * Heap.heap) :=
  MODS demo_object {[0x900 := LH 0x900 0x900]} (Heap.demo_cpu, Heap.heap_of 0x100000 [(4096, true)]) true.

Lemma relocations_applied_witness :
  exists m, apply_relocations 0x900 0x500 0x510 4 demo_modules 0x2000 0x700 3 1 = Some (with_mmem demo_modules m, 0) /\ load64 m 0x8008 = 0x1239.
Proof.
  assert (Z.to_nat (u32 (sh_size demo_object (shdr 0x2000 1) / sizeof_rela)) = 1%nat) as En by (vm_compute; reflexivity).
  assert (forall k, 0 <= k < Z.of_nat 1 -> k = 0) as Hk by (intros k Hk; lia).
  assert (string_at demo_object 0x8000 16 0x600 [102] /\ string_at demo_object 0x8000 16 0x700 [102]) as [Hs1 Hs2].
  { split; (split; [vm_compute; done|left; vm_compute; discriminate]). }
  destruct (relocations_applied 0x900 0x500 0x510 4 demo_object 0x8000 16 demo_modules 0x2000 0x700 3 1 [([102], 0x1234)]) as [Hgood _]; [rewrite En; split|].
  - reflexivity.
  - apply demo_object_ok.
  - split; [|reflexivity|exists []; split; [vm_compute; reflexivity|intros pos Hin; by apply elem_of_nil in Hin]].
    split; [left; vm_compute; discriminate|]. assert (load64 demo_object 0x500 = 0x600) as -> by (vm_compute; reflexivity). split; [done|]. split; [simpl; lia|]. split; [vm_compute; reflexivity|done].
  - split; [lia|]. split; [lia|]. split; [vm_compute; reflexivity|left; vm_compute; discriminate].
  - left. vm_compute. discriminate.
  - rewrite En in Hgood. specialize (Hgood (fun _ => 0x1234)). destruct Hgood as (m & E & Hv & _).
    + intros k ->%Hk. split; [vm_compute; set_solver|]. split; [vm_compute; discriminate|].
      assert (rsym demo_object (sh_addr demo_object (shdr 0x2000 1)) 0 = 1) as -> by (vm_compute; reflexivity).
      assert (sh_addr demo_object (shdr 0x2000 3) = 0x4000) as -> by (vm_compute; reflexivity).
      apply (resolves_kernel demo_object 0x8000 16 0x2000 0x700 0x4000 [([102], 0x1234)] 1 [102]); [done|left; vm_compute; discriminate|vm_compute; reflexivity|].
      assert (st_name demo_object (0x4000 + sizeof_sym * 1) = 0) as -> by (vm_compute; reflexivity). exact Hs2.
    + intros k k' H1 H2. lia.
    + exists m. split; [exact E|]. specialize (Hv 0 ltac:(lia)).
      assert (loc demo_object 0x8000 (sh_addr demo_object (shdr 0x2000 1)) 0 = 0x8008) as El by (vm_compute; reflexivity).
      assert (rtype demo_object (sh_addr demo_object (shdr 0x2000 1)) 0 = 1) as Et by (vm_compute; reflexivity).
      assert (r_addend demo_object (rela (sh_addr demo_object (shdr 0x2000 1)) 0) = 5) as Ea by (vm_compute; reflexivity).
      rewrite El, Et, Ea in Hv. exact Hv.
Defined.

End Modload.
