(* ===== verification/UserSpace.v ===== *)
(** * Accesses to virtual memory

    The program loader writes to user addresses through the page tables it
    fills.  An address below [kernel_end] is in the identity map of the boot
    code; any other one goes through the page walk of [Vmm].  The contract
    [space_ok] is a finite map from user pages to frames that the tables
    implement, with no frame shared, none of them a table or part of the frame
    bitmap; so a write to a user address changes that address and nothing else. *)
From S2P Require Import Prelude Memory CString Pmm Vmm.
Import Pmm Vmm.

Module UserSpace.

Section space.
(** The end of the identity map. *)
Context (kernel_end : Z).

(** ** Definitions *)

Definition va (s : vmm) (v : Z) : Z := if v <? kernel_end then v else vmm_get_phys s v.
Definition with_vmem (s : vmm) (m : mem) : vmm := VMM (with_mem (vm_pmm s) m) (current_pml4 s) (mmio_virt_base s).

(** [*v] and [*v = b]; [None] is a page fault. *)
Definition vload (s : vmm) (v : Z) : option Z :=
  if va s v =? 0 then None else Some (load8 (pm_mem (vm_pmm s)) (va s v)).
Definition vstore (s : vmm) (v b : Z) : option vmm :=
  if va s v =? 0 then None else Some (with_vmem s (store8 (pm_mem (vm_pmm s)) (va s v) b)).

(** A 64-bit load, and a run of bytes written in order. *)
Fixpoint vload_le (s : vmm) (v : Z) (n : nat) : option Z :=
  match n with
  | O => Some 0
  | S n' => b ← vload s v; r ← vload_le s (v + 1) n'; Some (b + 256 * r)
  end.
Fixpoint vstores (s : vmm) (v : Z) (l : list Z) : option vmm :=
  match l with
  | [] => Some s
  | b :: l' => s ← vstore s v b; vstores s (v + 1) l'
  end.

Definition vmemset (s : vmm) (v n : Z) : option vmm := vstores s v (replicate (Z.to_nat n) 0).

(** A fresh cleared page at [v]; [false] when there is no frame. *)
Definition new_page (s : vmm) (v : Z) : option (vmm * bool) :=
  '(page, p) ← pmm_alloc_page (vm_pmm s);
  let s := VMM p (current_pml4 s) (mmio_virt_base s) in
  if page =? 0 then Some (s, false)
  else
    s ← vmm_map_page s v page (PTE_PRESENT .| PTE_WRITABLE .| PTE_USER);
    s ← vmemset s v 4096;
    Some (s, true).

(** ** The contract *)

Definition user (v : Z) : Prop := kernel_end <= v < 2 ^ 47.

Record space_ok (own : gmap Z (list Z)) (pages : gmap Z Z) (s : vmm) : Prop := {
  so_vm : vm_ok own s;
  so_small v : user v -> vm_small s v;
  so_phys v : user v ->
    vmm_get_phys s v = match pages !! (v / PAGE_SIZE) with Some f => f * PAGE_SIZE + v mod PAGE_SIZE | None => 0 end;
  so_frame q f : pages !! q = Some f -> table_ok (vm_pmm s) (f * PAGE_SIZE) /\ own !! (f * PAGE_SIZE) = None;
  so_inj q r f : pages !! q = Some f -> pages !! r = Some f -> q = r
}.

(** A byte of a frame in use that is neither a table, a user page nor the bitmap. *)
Record plain (own : gmap Z (list Z)) (pages : gmap Z Z) (s : vmm) (x : Z) : Prop := {
  pl_bitmap : off_pmm_bitmap (vm_pmm s) x;
  pl_used : reserved (vm_pmm s) x;
  pl_table t : is_Some (own !! t) -> ~ t <= x < t + PAGE_SIZE;
  pl_user q f : pages !! q = Some f -> ~ f * PAGE_SIZE <= x < f * PAGE_SIZE + PAGE_SIZE
}.

Definition mapped (pages : gmap Z Z) (v : Z) : Prop := user v /\ is_Some (pages !! (v / PAGE_SIZE)).

(** [s'] comes from [s] by writes to the user addresses [W] and new pages. *)
Record evolves (W : Z -> Prop) (own : gmap Z (list Z)) (pages : gmap Z Z) (s : vmm) (own' : gmap Z (list Z)) (pages' : gmap Z Z) (s' : vmm) : Prop := {
  ev_ok : space_ok own' pages' s';
  ev_mapped v : mapped pages v -> mapped pages' v;
  ev_user v : mapped pages v -> ~ W v -> vload s' v = vload s v;
  ev_plain x : plain own pages s x -> plain own' pages' s' x /\ pm_mem (vm_pmm s') x = pm_mem (vm_pmm s) x
}.

Lemma evolves_refl W own pages s : space_ok own pages s -> evolves W own pages s own pages s.
Proof. done. Qed.

Lemma evolves_trans W own pages s own1 pages1 s1 own2 pages2 s2 :
  evolves W own pages s own1 pages1 s1 -> evolves W own1 pages1 s1 own2 pages2 s2 -> evolves W own pages s own2 pages2 s2.
Proof.
  intros [_ M1 U1 P1] [O2 M2 U2 P2]. split; [done|auto| |].
  - intros v Hv Hw. rewrite U2 by auto. by apply U1.
  - intros x Hx. destruct (P1 x Hx) as [Hx1 <-]. by apply P2.
Qed.

Lemma evolves_weaken (W W' : Z -> Prop) own pages s own' pages' s' :
  (forall v, W v -> W' v) -> evolves W own pages s own' pages' s' -> evolves W' own pages s own' pages' s'.
Proof. intros Hw [O M U P]. split; auto. Qed.

(** What a client may read after the change: kernel bytes and untouched user bytes. *)
Definition safe (W : Z -> Prop) own pages (s : vmm) (a : Z) : Prop :=
  0 < a < kernel_end /\ plain own pages s a \/ mapped pages a /\ ~ W a.

Lemma safe_evolves W own pages s own' pages' s' a :
  evolves W own pages s own' pages' s' -> safe W own pages s a -> safe W own' pages' s' a /\ vload s' a = vload s a.
Proof.
  intros [O M U P] [[Ha Hx]|[Hm Hw]].
  - destruct (P a Hx) as [Hx' E]. split; [by left|]. unfold vload, va. rewrite (proj2 (Z.ltb_lt a kernel_end)) by lia. rewrite (proj2 (Z.eqb_neq a 0)) by lia.
    unfold load8. by rewrite E.
  - split; [right; auto|]. by apply U.
Qed.

(** ** Bytes of user pages *)

Hypothesis kernel_end_pos : 0 < kernel_end.
Hypothesis kernel_end_page : kernel_end mod PAGE_SIZE = 0.

Lemma user_page v w : v / PAGE_SIZE = w / PAGE_SIZE -> user v -> user w.
Proof. unfold user, PAGE_SIZE in *. intros E Hv. Z.div_mod_to_equations. lia. Qed.

Lemma user_path v w : user v -> user w -> path v = path w <-> v / PAGE_SIZE = w / PAGE_SIZE.
Proof.
  unfold user, PAGE_SIZE. intros Hv Hw. split; [|apply path_same_page]. intros E. apply path_page in E.
  rewrite !Z.mod_small in E by (Z.div_mod_to_equations; lia). done.
Qed.

(** A frame of a user page is in use, no table and not part of the bitmap. *)
Lemma frame_byte own pages s q f x :
  space_ok own pages s -> pages !! q = Some f -> f * PAGE_SIZE <= x < f * PAGE_SIZE + PAGE_SIZE ->
  off_pmm_bitmap (vm_pmm s) x /\ reserved (vm_pmm s) x /\ (forall t, is_Some (own !! t) -> ~ t <= x < t + PAGE_SIZE).
Proof.
  intros Ok Hq Hx. destruct (so_frame _ _ _ Ok q f Hq) as [(g & Eg & Hg & Hu & Hb) Hn]. assert (g = f) as -> by (unfold PAGE_SIZE in Eg; lia).
  split; [unfold off_pmm_bitmap; lia|]. split.
  - intros g Hg' Hin. assert (g = f) as -> by (unfold PAGE_SIZE in *; lia). done.
  - intros t [l Hl] Hin. destruct (po_table _ _ (proj1 (so_vm _ _ _ Ok)) t l Hl) as (g & -> & _). assert (g = f) as -> by (unfold PAGE_SIZE in *; lia). congruence.
Qed.

Lemma keeps_same own p m' :
  pt_ok own p -> (forall t l j, own !! t = Some l -> 0 <= j < 512 -> entry m' t j = entry (pm_mem p) t j) ->
  keeps own (pm_mem p) m' (fun _ => True).
Proof.
  intros Hok He t l r. revert t l. induction r as [|j r IH]; intros t l Hl Hlen Hir Hs; [done|].
  apply Forall_cons in Hir as [Hj Hir]. pose proof (He t l j Hl Hj) as E. destruct r as [|k r]; [by split|].
  rewrite !small_path_cons, !lookup_pte_cons in *. rewrite (next_table_eq _ _ _ _ E), E.
  destruct (present (entry (pm_mem p) t j)) eqn:Ep; [|by split]. destruct (Hs eq_refl) as [H7 Hs'].
  destruct (IH (next_table (pm_mem p) t j) (l ++ [j])) as [E' Hs'']; try done.
  - apply Hok; try done. simpl in Hlen. lia.
  - rewrite length_app. simpl in *. lia.
Qed.

(** The translation depends on the tables only. *)
Lemma same_tables own s s' v :
  vm_ok own s -> current_pml4 s' = current_pml4 s ->
  (forall t l j, own !! t = Some l -> 0 <= j < 512 -> entry (pm_mem (vm_pmm s')) t j = entry (pm_mem (vm_pmm s)) t j) ->
  vm_small s v -> vm_small s' v /\ vmm_get_phys s' v = vmm_get_phys s v.
Proof.
  intros [Hok Hr] Er He Hs. destruct (keeps_same own (vm_pmm s) _ Hok He (current_pml4 s) [] (path v) Hr eq_refl (path_ok v) Hs) as [E Hs'].
  split; [unfold vm_small; by rewrite Er|]. rewrite !get_phys_pte, !get_pte_lookup, Er, E by done. done.
Qed.

Lemma space_entry own pages s q f m' t l j :
  space_ok own pages s -> pages !! q = Some f -> (forall x, ~ f * PAGE_SIZE <= x < f * PAGE_SIZE + PAGE_SIZE -> m' x = pm_mem (vm_pmm s) x) ->
  own !! t = Some l -> 0 <= j < 512 -> entry m' t j = entry (pm_mem (vm_pmm s)) t j.
Proof.
  intros Ok Hq Hm Hl Hj. apply load_le_ext. intros x Hx. apply Hm. intros Hin.
  destruct (frame_byte own pages s q f x Ok Hq Hin) as (_ & _ & Ht). apply (Ht t); [eauto|]. unfold PAGE_SIZE. lia.
Qed.

(** A write within a user page leaves the tables and the frames as they are. *)
Lemma page_write own pages s q f m' :
  space_ok own pages s -> pages !! q = Some f -> mem_ok m' ->
  (forall x, ~ f * PAGE_SIZE <= x < f * PAGE_SIZE + PAGE_SIZE -> m' x = pm_mem (vm_pmm s) x) ->
  space_ok own pages (with_vmem s m') /\ (forall v, user v -> va (with_vmem s m') v = va s v) /\
  (forall x, plain own pages s x -> plain own pages (with_vmem s m') x /\ m' x = pm_mem (vm_pmm s) x).
Proof.
  intros Ok Hq Hok Hm. pose proof Ok as [[Hpt Hr] Hs Hp Hf Hi]. assert (off_bitmap (vm_pmm s) m') as Hoff.
  { intros x Hx. apply Hm. intros Hin. destruct (frame_byte own pages s q f x Ok Hq Hin) as ([|] & _); lia. }
  assert (forall v, user v -> vm_small (with_vmem s m') v /\ vmm_get_phys (with_vmem s m') v = vmm_get_phys s v) as Ht.
  { intros v Hv. apply (same_tables own); [done|done| |by apply Hs]. intros t l j Hl Hj. by apply (space_entry own pages s q f m' t l). }
  split; [|split].
  - split.
    + split; [|done]. apply (pt_ok_mem own); [done|done|done|apply Hpt|]. intros t l j Hl Hlen Hj.
      pose proof (space_entry own pages s q f m' t l j Ok Hq Hm Hl Hj) as E. rewrite (next_table_eq _ _ _ _ E), E. by apply Hpt.
    + intros v Hv. by apply Ht.
    + intros v Hv. rewrite (proj2 (Ht v Hv)). by apply Hp.
    + intros r g Hg. destruct (Hf r g Hg) as [Htab Hn]. split; [by apply table_ok_mem|done].
    + done.
  - intros v Hv. unfold va. by rewrite (proj2 (Ht v Hv)).
  - intros x [Hb Hu Htab Hus]. split; [|apply Hm; by apply (Hus q)]. split; [done| |done|done].
    intros g Hg Hin. cbn [with_vmem vm_pmm]. rewrite used_ext; [by apply Hu|cbn in Hg; lia|done].
Qed.

Lemma va_mapped own pages s v f :
  space_ok own pages s -> user v -> pages !! (v / PAGE_SIZE) = Some f -> va s v = f * PAGE_SIZE + v mod PAGE_SIZE /\ 0 < va s v.
Proof.
  intros Ok Hv Hq. unfold va. rewrite (proj2 (Z.ltb_ge v kernel_end)) by (unfold user in Hv; lia). rewrite (so_phys _ _ _ Ok v Hv), Hq. split; [done|].
  destruct (so_frame _ _ _ Ok _ _ Hq) as [(g & Eg & Hg & _) _]. pose proof (Z.mod_pos_bound v PAGE_SIZE). unfold PAGE_SIZE in *. lia.
Qed.

Lemma vload_mapped own pages s v f :
  space_ok own pages s -> user v -> pages !! (v / PAGE_SIZE) = Some f -> vload s v = Some (pm_mem (vm_pmm s) (f * PAGE_SIZE + v mod PAGE_SIZE)).
Proof.
  intros Ok Hv Hq. destruct (va_mapped own pages s v f Ok Hv Hq) as [E Hp]. unfold vload. rewrite (proj2 (Z.eqb_neq _ _)) by lia. by rewrite E.
Qed.

(** One byte written to a user page. *)
Lemma vstore_spec own pages s v b :
  space_ok own pages s -> mapped pages v ->
  exists s', vstore s v b = Some s' /\ evolves (fun w => w = v) own pages s own pages s' /\ vload s' v = Some (u8 b) /\
    free_memory (vm_pmm s') = free_memory (vm_pmm s).
Proof.
  intros Ok [Hv [f Hq]]. destruct (va_mapped own pages s v f Ok Hv Hq) as [E Hp]. unfold vstore. rewrite (proj2 (Z.eqb_neq _ _)) by lia.
  pose proof (Z.mod_pos_bound v PAGE_SIZE ltac:(done)) as Hmod. set (m' := store8 _ _ _).
  destruct (page_write own pages s (v / PAGE_SIZE) f m' Ok Hq) as (Ok' & Hva & Hpl).
  { apply store8_ok, Ok. } { intros x Hx. unfold m'. apply store8_other. lia. }
  eexists. split; [done|]. split; [|split; [|done]].
  - split; [done|done| |done]. intros w [Hw [g Hg]] Hne. rewrite (vload_mapped own pages _ w g Ok' Hw Hg), (vload_mapped own pages s w g Ok Hw Hg).
    f_equal. unfold m'. cbn [with_vmem vm_pmm pm_mem with_mem]. apply store8_other. rewrite E. intros Heq. pose proof (Z.mod_pos_bound w PAGE_SIZE ltac:(done)).
    assert (g = f) as -> by (unfold PAGE_SIZE in *; lia). pose proof (so_inj _ _ _ Ok _ _ _ Hg Hq). apply Hne. unfold PAGE_SIZE in *. Z.div_mod_to_equations. lia.
  - rewrite (vload_mapped own pages _ v f Ok' Hv Hq). f_equal. unfold m'. cbn [with_vmem vm_pmm pm_mem with_mem]. rewrite E. apply store8_same.
Qed.

(** A run of bytes written to user pages. *)
Lemma vstores_spec own pages : forall l s v,
  space_ok own pages s -> (forall w, v <= w < v + Z.of_nat (length l) -> mapped pages w) ->
  exists s', vstores s v l = Some s' /\ evolves (fun w => v <= w < v + Z.of_nat (length l)) own pages s own pages s' /\
    (forall i b, l !! i = Some b -> vload s' (v + Z.of_nat i) = Some (u8 b)) /\ free_memory (vm_pmm s') = free_memory (vm_pmm s).
Proof.
  induction l as [|b l IH]; intros s v Ok Hm.
  - exists s. split; [done|]. split; [by apply evolves_refl|]. split; [intros i c; by rewrite lookup_nil|done].
  - cbn [length] in *. destruct (vstore_spec own pages s v b Ok) as (s1 & E1 & V1 & L1 & F1); [apply Hm; lia|].
    destruct (IH s1 (v + 1)) as (s2 & E2 & V2 & L2 & F2); [apply V1|intros w Hw; apply Hm; lia|].
    exists s2. split; [by cbn [vstores]; rewrite E1|]. split; [|split; [|congruence]].
    + eapply evolves_trans; (eapply evolves_weaken; [|eassumption]); cbv beta; lia.
    + intros [|i] c Hc; cbn in Hc.
      * injection Hc as ->. replace (v + Z.of_nat 0) with v by lia. rewrite <- L1. apply (ev_user _ _ _ _ _ _ _ V2); [apply Hm; lia|lia].
      * rewrite <- (L2 i c Hc). f_equal. lia.
Qed.

Lemma vmemset_spec own pages s v n :
  space_ok own pages s -> 0 <= n -> (forall w, v <= w < v + n -> mapped pages w) ->
  exists s', vmemset s v n = Some s' /\ evolves (fun w => v <= w < v + n) own pages s own pages s' /\
    (forall w, v <= w < v + n -> vload s' w = Some 0) /\ free_memory (vm_pmm s') = free_memory (vm_pmm s).
Proof.
  intros Ok Hn Hm. destruct (vstores_spec own pages (replicate (Z.to_nat n) 0) s v Ok) as (s' & E & V & L & F); [rewrite length_replicate, Z2Nat.id by lia; done|].
  rewrite length_replicate, Z2Nat.id in V by lia. exists s'. split; [done|]. split; [done|]. split; [|done].
  intros w Hw. specialize (L (Z.to_nat (w - v)) 0). rewrite Z2Nat.id in L by lia. replace (v + (w - v)) with w in L by lia. apply L. apply lookup_replicate. split; [done|lia].
Qed.

(** ** New pages *)

(** Adding tables in free frames keeps the user pages and the other bytes in use. *)
Lemma grown_frame own own' pages s p' q f :
  space_ok own pages s -> grown own own' (vm_pmm s) p' -> pages !! q = Some f -> table_ok p' (f * PAGE_SIZE) /\ own' !! (f * PAGE_SIZE) = None.
Proof.
  intros Ok G Hq. destruct (so_frame _ _ _ Ok q f Hq) as [(g & Eg & Hg & Hu & Hb) Hn]. assert (g = f) as -> by (unfold PAGE_SIZE in Eg; lia). split.
  - exists f. rewrite (gr_total _ _ _ _ G), (gr_bitmap _ _ _ _ G). split; [done|]. split; [done|]. split; [by apply (gr_used _ _ _ _ G)|done].
  - destruct (own' !! (f * PAGE_SIZE)) eqn:E; [|done]. destruct (gr_new _ _ _ _ G (f * PAGE_SIZE) Hn) as (g & Eg' & Hg' & Hu'); [eauto|].
    assert (g = f) as -> by (unfold PAGE_SIZE in Eg'; lia). congruence.
Qed.

Lemma grown_byte own own' pages s p' q f x :
  space_ok own pages s -> grown own own' (vm_pmm s) p' -> pages !! q = Some f -> f * PAGE_SIZE <= x < f * PAGE_SIZE + PAGE_SIZE ->
  pm_mem p' x = pm_mem (vm_pmm s) x.
Proof. intros Ok G Hq Hx. destruct (frame_byte own pages s q f x Ok Hq Hx) as (? & ? & ?). by apply (gr_mem _ _ _ _ G). Qed.

Lemma grown_plain own own' pages s s' x q f :
  plain own pages s x -> grown own own' (vm_pmm s) (vm_pmm s') -> 0 < f < total_pages (vm_pmm s) -> used (vm_pmm s) f = false ->
  plain own' (<[q := f]> pages) s' x /\ pm_mem (vm_pmm s') x = pm_mem (vm_pmm s) x.
Proof.
  intros [Hb Hu Ht Hp] G Hf Hfree. split; [|by apply (gr_mem _ _ _ _ G)]. split.
  - unfold off_pmm_bitmap. by rewrite (gr_bitmap _ _ _ _ G), (gr_total _ _ _ _ G).
  - intros g Hg Hx. rewrite (gr_total _ _ _ _ G) in Hg. apply (gr_used _ _ _ _ G); [done|]. by apply Hu.
  - intros t Hl Hx. destruct (own !! t) as [l|] eqn:E; [by apply (Ht t)|]. destruct (gr_new _ _ _ _ G t E Hl) as (g & -> & Hg & Hn).
    rewrite Hu in Hn; [done|done|]. lia.
  - intros r g. rewrite lookup_insert_Some. intros [[<- <-]|[_ Hg]] Hx; [|by apply (Hp r g)]. rewrite Hu in Hfree; [done|done|]. lia.
Qed.

(** A frame taken and mapped at the page [q]. *)
Lemma map_fresh own pages s q :
  space_ok own pages s -> user (q * PAGE_SIZE) -> 4 * PAGE_SIZE <= free_memory (vm_pmm s) ->
  exists n p s' own' f, pmm_alloc_page (vm_pmm s) = Some (n, p) /\ n <> 0 /\
    vmm_map_page (VMM p (current_pml4 s) (mmio_virt_base s)) (q * PAGE_SIZE) n (PTE_PRESENT .| PTE_WRITABLE .| PTE_USER) = Some s' /\
    evolves (fun w => w / PAGE_SIZE = q) own pages s own' (<[q := f]> pages) s' /\ free_memory (vm_pmm s) - 4 * PAGE_SIZE <= free_memory (vm_pmm s').
Proof.
  intros Ok Hq Hfree. pose proof Ok as [[Hpt Hr] Hs Hp Hf Hi]. set (v := q * PAGE_SIZE) in *.
  assert (v / PAGE_SIZE = q) as Hvq by (unfold v, PAGE_SIZE; rewrite Z.div_mul by lia; done).
  destruct (alloc_pt_ok own (vm_pmm s) Hpt) as (n & p1 & Ea & Hpt1 & Hno & Hn1 & Hf1 & He1 & G1 & Hfr); [unfold PAGE_SIZE in *; lia|].
  destruct Hn1 as (f & -> & Hft & Hfu & Hfb). unfold PAGE_SIZE in Hfr. rewrite Z.div_mul in Hfr by lia.
  set (s1 := VMM p1 (current_pml4 s) (mmio_virt_base s)). assert (vm_ok own s1) as Hok1 by done.
  assert (forall w, user w -> vm_small s1 w /\ vmm_get_phys s1 w = vmm_get_phys s w) as Hs1.
  { intros w Hw. apply (same_tables own); [done|done|exact He1|by apply Hs]. }
  assert (0 <= f < 2 ^ 40) as Hf40. { destruct (po_wf _ _ Hpt1). lia. }
  destruct (map_page_spec own s1 v (f * PAGE_SIZE) 7 Hok1) as (s2 & own2 & Em & Hok2 & _ & Hf2 & G2 & [Ur Um Us Up]);
    [by apply Hs1|cbn; unfold PAGE_SIZE in *; lia|apply entry_range; lia|].
  cbn [s1 vm_pmm] in Hf2, G2. pose proof (grown_trans _ _ _ _ _ _ G1 G2) as G.
  exists (f * PAGE_SIZE), p1, s2, own2, f. split; [done|]. split; [unfold PAGE_SIZE; lia|]. split; [exact Em|]. split; [|unfold PAGE_SIZE in *; lia].
  assert (forall w, user w -> vmm_get_phys s2 w = if decide (w / PAGE_SIZE = q) then f * PAGE_SIZE + w mod PAGE_SIZE else vmm_get_phys s w) as Hph.
  { intros w Hw. rewrite <- Hvq. destruct (Hs1 w Hw) as [Hsm <-]. case_decide as E.
    - apply (get_phys_mapped s2 w f 7); [|done|done|done]. rewrite Up by done. rewrite decide_True; [done|]. by apply user_path.
    - rewrite !get_phys_pte, Up, decide_False; [done| |done]. by rewrite user_path. }
  assert (space_ok own2 (<[q := f]> pages) s2) as Ok2.
  { split.
    - done.
    - intros w Hw. apply Us. by apply Hs1.
    - intros w Hw. rewrite Hph by done. case_decide as E; [by rewrite E, lookup_insert_eq|]. rewrite lookup_insert_ne by done. by apply Hp.
    - intros r g. rewrite lookup_insert_Some. intros [[<- <-]|[_ Hg]]; [|by apply (grown_frame own own2 pages s (vm_pmm s2) r g)]. split.
      + exists f. rewrite (gr_total _ _ _ _ G2), (gr_bitmap _ _ _ _ G2). split; [done|]. split; [done|]. split; [by apply (gr_used _ _ _ _ G2)|done].
      + destruct (own2 !! (f * PAGE_SIZE)) eqn:E; [|done]. destruct (gr_new _ _ _ _ G2 (f * PAGE_SIZE) Hno) as (g & Eg & _ & Hug); [eauto|].
        assert (g = f) as -> by (unfold PAGE_SIZE in Eg; lia). congruence.
    - assert (forall r, pages !! r <> Some f) as Hnf.
      { intros r Hg. destruct (Hf r f Hg) as [(h & Eh & _ & Hu & _) _]. assert (h = f) as -> by (unfold PAGE_SIZE in Eh; lia). congruence. }
      intros r r' g. rewrite !lookup_insert_Some. intros [[<- <-]|[_ H1]] [[<- Eg]|[_ H2]]; [done|by destruct (Hnf r')| |by apply (Hi r r' g)].
      rewrite <- Eg in H1. by destruct (Hnf r). }
  split; [done| | |].
  - intros w [Hw Hm]. split; [done|]. destruct (decide (q = w / PAGE_SIZE)) as [->|]; [by rewrite lookup_insert_eq|by rewrite lookup_insert_ne].
  - intros w [Hw [g Hg]] Hne. rewrite (vload_mapped _ _ s2 w g Ok2 Hw) by (by rewrite lookup_insert_ne). rewrite (vload_mapped _ _ s w g Ok Hw Hg). f_equal.
    apply (grown_byte own own2 pages s (vm_pmm s2) (w / PAGE_SIZE) g _ Ok G Hg). pose proof (Z.mod_pos_bound w PAGE_SIZE ltac:(done)). lia.
  - intros x Hx. apply (grown_plain own own2 pages s s2 x q f Hx G); [rewrite <- (gr_total _ _ _ _ G1); done|done].
Qed.

Lemma new_page_spec own pages s q :
  space_ok own pages s -> user (q * PAGE_SIZE) -> 4 * PAGE_SIZE <= free_memory (vm_pmm s) ->
  exists s' own' f, new_page s (q * PAGE_SIZE) = Some (s', true) /\ evolves (fun w => w / PAGE_SIZE = q) own pages s own' (<[q := f]> pages) s' /\
    (forall w, w / PAGE_SIZE = q -> vload s' w = Some 0) /\ free_memory (vm_pmm s) - 4 * PAGE_SIZE <= free_memory (vm_pmm s').
Proof.
  intros Ok Hq Hfree. destruct (map_fresh own pages s q Ok Hq Hfree) as (n & p & s1 & own' & f & Ea & Hn & Em & V1 & F1).
  assert (forall w, q * PAGE_SIZE <= w < q * PAGE_SIZE + 4096 <-> w / PAGE_SIZE = q) as Hin by (intros w; unfold PAGE_SIZE; Z.div_mod_to_equations; lia).
  destruct (vmemset_spec own' (<[q := f]> pages) s1 (q * PAGE_SIZE) 4096) as (s2 & E2 & V2 & L2 & F2); [apply V1|lia| |].
  { intros w Hw%Hin. split; [|by rewrite Hw, lookup_insert_eq]. apply (user_page (q * PAGE_SIZE)); [|done]. unfold PAGE_SIZE in *. rewrite Z.div_mul by lia. done. }
  exists s2, own', f. unfold new_page. rewrite Ea. cbn [mbind option_bind]. rewrite (proj2 (Z.eqb_neq n 0)) by done. rewrite Em. cbn [mbind option_bind]. rewrite E2.
  split; [done|]. split; [|split; [|lia]].
  - eapply evolves_trans; [exact V1|]. eapply evolves_weaken; [|exact V2]. intros w Hw. by apply Hin.
  - intros w Hw. apply L2. by apply Hin.
Qed.

End space.
End UserSpace.
