(* ===== verification/Exec.v ===== *)
(** * The program loader (src/kernel/process/exec.c)

    [process_exec] replaces the program of the running process: it reads the
    ELF headers of a file, maps and fills the pages of its loadable segments,
    builds a stack with the arguments and points the saved registers at the
    entry.  Files are used through the class [FileCalls]; files of the RAM file
    system implement it, by the theorems of [Ramfs].  Memory is the virtual
    memory of [UserSpace]. *)
From S2P Require Import Prelude Memory CString Pmm Vmm Allocator UserSpace Spinlock Heap Vfs Ramfs.
Import Pmm Vmm UserSpace.

Module Exec.

(** ** Files *)

(** The calls of vfs.c the loader makes, and what it relies on: a descriptor is
    open on a file, a string of bytes, at a position.  [fc_read] also gives the
    bytes it puts in the buffer. *)
Class FileCalls (F : Type) := {
  fc_open : F -> list Z -> Z -> Z -> option (F * Z);
  fc_read : F -> Z -> Z -> option (F * list Z * Z);
  fc_lseek : F -> Z -> Z -> Z -> option (F * Z);
  fc_close : F -> Z -> option (F * Z);
  fc_at : F -> Z -> list Z -> Z -> Prop;

  fc_read_spec f fd l pos count :
    fc_at f fd l pos -> 0 <= count < 2 ^ 31 ->
    let d := take (Z.to_nat count) (drop (Z.to_nat pos) l) in
    exists f', fc_read f fd count = Some (f', d, Z.of_nat (length d)) /\ fc_at f' fd l (pos + Z.of_nat (length d));
  fc_seek_spec f fd l pos off :
    fc_at f fd l pos -> 0 <= off < 2 ^ 31 -> exists f', fc_lseek f fd off 0 = Some (f', off) /\ fc_at f' fd l off;
  fc_close_spec f fd l pos : fc_at f fd l pos -> exists f', fc_close f fd = Some (f', 0)
}.

(** ** ELF structures, as the bytes read from the file *)

Definition rd (l : list Z) (off : Z) (n : nat) : Z := load_le (fun x => default 0 (l !! Z.to_nat x)) off n.

Definition sizeof_elf_header : Z := 64.
Definition elf_magic (h : list Z) : list Z := take 4 h.
Definition elf_entry (h : list Z) : Z := rd h 24 8.
Definition elf_phoff (h : list Z) : Z := rd h 32 8.
Definition elf_phentsize (h : list Z) : Z := rd h 54 2.
Definition elf_phnum (h : list Z) : Z := rd h 56 2.

Definition sizeof_elf_phdr : Z := 56.
Definition p_type (h : list Z) : Z := rd h 0 4.
Definition p_offset (h : list Z) : Z := rd h 8 8.
Definition p_vaddr (h : list Z) : Z := rd h 16 8.
Definition p_filesz (h : list Z) : Z := rd h 32 8.
Definition p_memsz (h : list Z) : Z := rd h 40 8.

Definition PT_LOAD : Z := 1.
Definition SEEK_SET : Z := 0.

(** [struct interrupt_frame] *)
Definition sizeof_frame : Z := 176.
Definition tf_rdi (tf : Z) : Z := tf + 72.
Definition tf_rsi (tf : Z) : Z := tf + 80.
Definition tf_rdx (tf : Z) : Z := tf + 88.
Definition tf_rip (tf : Z) : Z := tf + 136.
Definition tf_cs (tf : Z) : Z := tf + 144.
Definition tf_rflags (tf : Z) : Z := tf + 152.
Definition tf_rsp (tf : Z) : Z := tf + 160.
Definition tf_ss (tf : Z) : Z := tf + 168.

Section exec.
Context {F A : Type} `{FileCalls F} `{Allocator A}.
Context (kernel_end : Z).
#[local] Notation vload := (vload kernel_end).
#[local] Notation vload_le := (vload_le kernel_end).
#[local] Notation vstore := (vstore kernel_end).
#[local] Notation vstores := (vstores kernel_end).
#[local] Notation vmemset := (vmemset kernel_end).
#[local] Notation new_page := (new_page kernel_end).

(** The name of the running process; its [tf] is an argument. *)
Record exec := EXEC { x_vm : vmm; x_files : F; x_heap : A; x_name : list Z }.

Definition with_vm (x : exec) (s : vmm) : exec := EXEC s (x_files x) (x_heap x) (x_name x).
Definition with_files (x : exec) (f : F) : exec := EXEC (x_vm x) f (x_heap x) (x_name x).
Definition with_xheap (x : exec) (h : A) : exec := EXEC (x_vm x) (x_files x) h (x_name x).

(** ** Strings in virtual memory *)

Definition vstrlen (fuel : nat) (s : vmm) (str : Z) : option Z :=
  r ← loop fuel (fun len => match vload s (str + len) with
                            | None => inr None
                            | Some c => if c =? 0 then inr (Some len) else inl (len + 1)
                            end) 0; r.

Definition vstrcpy (fuel : nat) (s : vmm) (dest src : Z) : option vmm :=
  r ← loop fuel (fun '(s, i) => match (c ← vload s (src + i); s ← vstore s (dest + i) c; Some (s, c)) with
                                | None => inr None
                                | Some (s, c) => if c =? 0 then inr (Some s) else inl (s, i + 1)
                                end) (s, 0); r.

(** The [n] bytes [strncpy] writes. *)
Fixpoint vstrncpy (s : vmm) (src : Z) (n : nat) : option (list Z) :=
  match n with
  | O => Some []
  | S n' => c ← vload s src;
            if c =? 0 then Some (replicate n 0) else l ← vstrncpy s (src + 1) n'; Some (c :: l)
  end.

Fixpoint vstring (fuel : nat) (s : vmm) (src : Z) : option (list Z) :=
  match fuel with
  | O => None
  | S n => c ← vload s src; if c =? 0 then Some [] else l ← vstring n s (src + 1); Some (c :: l)
  end.

(** ** Segments *)

(** The pages of a segment that are not mapped yet. *)
Fixpoint map_segment (n : nat) (s : vmm) (v : Z) : option (vmm * bool) :=
  match n with
  | O => Some (s, true)
  | S n' =>
      '(s, ok) ← (if vmm_get_phys s v =? 0 then new_page s v else Some (s, true));
      if negb ok then Some (s, false) else map_segment n' s (v + 4096)
  end.

Definition load_segment (x : exec) (fd : Z) (ph : list Z) : option (exec * bool) :=
  let vaddr_start := Z.ldiff (p_vaddr ph) 0xFFF in
  let vaddr_end := Z.ldiff (u64 (p_vaddr ph + p_memsz ph + 0xFFF)) 0xFFF in
  '(s, ok) ← map_segment (Z.to_nat ((vaddr_end - vaddr_start) / 4096)) (x_vm x) vaddr_start;
  let x := with_vm x s in
  if negb ok then Some (x, false)
  else
    '(f, _) ← fc_lseek (x_files x) fd (s32 (p_offset ph)) SEEK_SET;
    '(f, d, _) ← fc_read f fd (s32 (p_filesz ph));
    s ← vstores (x_vm x) (p_vaddr ph) d;
    s ← (if p_filesz ph <? p_memsz ph then vmemset s (u64 (p_vaddr ph + p_filesz ph)) (p_memsz ph - p_filesz ph) else Some s);
    Some (with_files (with_vm x s) f, true).

(** The program headers from the [i]-th on; [false] is the return value -1. *)
Fixpoint load_segments (n : nat) (i : Z) (x : exec) (fd phoff phentsize : Z) : option (exec * bool) :=
  match n with
  | O => Some (x, true)
  | S n' =>
      '(f, _) ← fc_lseek (x_files x) fd (s32 (phoff + s32 (i * phentsize))) SEEK_SET;
      '(f, ph, r) ← fc_read f fd sizeof_elf_phdr;
      let x := with_files x f in
      if negb (r =? sizeof_elf_phdr) then Some (x, false)
      else
        '(x, ok) ← (if p_type ph =? PT_LOAD then load_segment x fd ph else Some (x, true));
        if negb ok then Some (x, false) else load_segments n' (i + 1) x fd phoff phentsize
  end.

(** ** The stack *)

Definition stack_top : Z := 0x7FFFFFFFF000.
Definition stack_base : Z := stack_top - 4 * 4096.

Fixpoint map_stack (n : nat) (s : vmm) (v : Z) : option (vmm * bool) :=
  match n with
  | O => Some (s, true)
  | S n' => '(s, ok) ← new_page s v; if negb ok then Some (s, false) else map_stack n' s (v + 4096)
  end.

Definition count_args (fuel : nat) (s : vmm) (argv : Z) : option Z :=
  if argv =? 0 then Some 0
  else r ← loop fuel (fun argc => match vload_le s (argv + 8 * argc) 8 with
                                  | None => inr None
                                  | Some p => if p =? 0 then inr (Some argc) else inl (argc + 1)
                                  end) 0; r.

(** The strings, from the last argument to the first. *)
Fixpoint push_args (n : nat) (fuel : nat) (s : vmm) (argv sp : Z) (argv_ptrs : list Z) : option (vmm * Z * list Z) :=
  match n with
  | O => Some (s, sp, argv_ptrs)
  | S i =>
      arg ← vload_le s (argv + 8 * Z.of_nat i) 8;
      len ← vstrlen fuel s arg;
      let sp := u64 (sp - s32 (len + 1)) in
      s ← vstrcpy fuel s sp arg;
      push_args i fuel s argv sp (<[i := sp]> argv_ptrs)
  end.

Definition le8 (v : Z) : list Z := (fun i => v / 256 ^ Z.of_nat i mod 256) <$> seq 0 8.

(** The null environment, the pointers and the number of arguments, below the strings. *)
Definition push_vector (s : vmm) (sp argc : Z) (argv_ptrs : list Z) : option (vmm * Z * Z) :=
  let sp := Z.ldiff sp 0xF in
  let sp := u64 (sp - 8) in
  s ← vstores s sp (le8 0);
  let sp := u64 (sp - (argc + 1) * 8) in
  s ← vstores s sp (argv_ptrs ≫= le8);
  let argv_base := sp in
  let sp := u64 (sp - 8) in
  s ← vstores s sp (le8 argc);
  Some (s, sp, argv_base).

(** The saved registers, in the kernel's identity map. *)
Definition set_frame (m : mem) (tf entry sp argc argv_base : Z) : mem :=
  let m := CString.memset m tf 0 sizeof_frame in
  let m := store64 m (tf_rip tf) entry in
  let m := store64 m (tf_cs tf) 0x1B in
  let m := store64 m (tf_rflags tf) 0x202 in
  let m := store64 m (tf_rsp tf) sp in
  let m := store64 m (tf_ss tf) 0x23 in
  let m := store64 m (tf_rdi tf) argc in
  let m := store64 m (tf_rsi tf) argv_base in
  store64 m (tf_rdx tf) 0.

(** From line 112 on: the stack, the name and the registers.  [junk] is what a
    fresh block holds. *)
Definition start_program (fuel : nat) (junk : Z) (x : exec) (tf path argv entry : Z) : option (exec * Z) :=
  '(s, ok) ← map_stack 4 (x_vm x) stack_base;
  let x := with_vm x s in
  if negb ok then Some (x, -1)
  else
    argc ← count_args fuel (x_vm x) argv;
    '(h, argv_ptrs) ← a_alloc (x_heap x) ((argc + 1) * 8);
    let x := with_xheap x h in
    if argv_ptrs =? 0 then Some (x, -1)
    else
      let ptrs := replicate (Z.to_nat (argc + 1)) junk in
      '(s, sp, ptrs) ← (if argv =? 0 then Some (x_vm x, stack_top, ptrs) else push_args (Z.to_nat argc) fuel (x_vm x) argv stack_top ptrs);
      let ptrs := <[Z.to_nat argc := 0]> ptrs in
      '(s, sp, argv_base) ← push_vector s sp argc ptrs;
      h ← a_free (x_heap x) argv_ptrs;
      name ← vstrncpy s path 63;
      let s := with_vmem s (set_frame (pm_mem (vm_pmm s)) tf entry sp argc argv_base) in
      Some (EXEC s (x_files x) h (name ++ [0]), 0).

Definition process_exec (fuel : nat) (junk : Z) (x : exec) (tf path argv : Z) : option (exec * Z) :=
  name ← vstring fuel (x_vm x) path;
  '(f, fd) ← fc_open (x_files x) name 0 0;
  let x := with_files x f in
  if fd <? 0 then Some (x, -1)
  else
    '(f, header, r) ← fc_read (x_files x) fd sizeof_elf_header;
    let x := with_files x f in
    let fail (x : exec) := '(f, _) ← fc_close (x_files x) fd; Some (with_files x f, -1) in
    if negb (r =? sizeof_elf_header) then fail x
    else if negb (bool_decide (elf_magic header = [0x7F; 69; 76; 70])) then fail x
    else
      '(x, ok) ← load_segments (Z.to_nat (elf_phnum header)) 0 x fd (elf_phoff header) (elf_phentsize header);
      if negb ok then fail x
      else
        '(f, _) ← fc_close (x_files x) fd;
        start_program fuel junk (with_files x f) tf path argv (elf_entry header).

(** ** Reading what is stored *)

Hypothesis kernel_end_pos : 0 < kernel_end.
Hypothesis kernel_end_page : kernel_end mod PAGE_SIZE = 0.
#[local] Notation user := (user kernel_end).
#[local] Notation mapped := (mapped kernel_end).
#[local] Notation space_ok := (space_ok kernel_end).
#[local] Notation evolves := (evolves kernel_end).
#[local] Notation safe := (safe kernel_end).

(** The bytes [l] are at [a]. *)
Definition holds (s : vmm) (a : Z) (l : list Z) : Prop := forall i b, l !! i = Some b -> vload s (a + Z.of_nat i) = Some b.

(** The bytes [l] are at [a] and stay there while [W] is written. *)
Definition reads (W : Z -> Prop) own pages (s : vmm) (a : Z) (l : list Z) : Prop :=
  holds s a l /\ forall i, (i < length l)%nat -> safe W own pages s (a + Z.of_nat i).

Lemma reads_evolves W own pages s own' pages' s' a l :
  evolves W own pages s own' pages' s' -> reads W own pages s a l -> reads W own' pages' s' a l.
Proof.
  intros V [Hh Hs]. split.
  - intros i b Hb. rewrite <- (Hh i b Hb). apply (safe_evolves kernel_end W own pages s own' pages' s'); [done|]. apply Hs. by apply lookup_lt_Some in Hb.
  - intros i Hi. by apply (safe_evolves kernel_end W own pages s own' pages' s' _ V), Hs.
Qed.

Lemma holds_app s a l1 l2 : holds s a (l1 ++ l2) <-> holds s a l1 /\ holds s (a + Z.of_nat (length l1)) l2.
Proof.
  unfold holds. split.
  - intros Hh. split; intros i b Hb; [apply Hh; by apply lookup_app_l_Some|]. rewrite <- (Hh (length l1 + i)%nat b); [f_equal; lia|].
    rewrite lookup_app_r by lia. by replace (length l1 + i - length l1)%nat with i by lia.
  - intros [H1 H2] i b Hb. apply lookup_app_Some in Hb as [Hb|[Hi Hb]]; [by apply H1|]. rewrite <- (H2 _ _ Hb). f_equal. lia.
Qed.

Lemma holds_cons s a b l : holds s a (b :: l) <-> vload s a = Some b /\ holds s (a + 1) l.
Proof.
  change (b :: l) with ([b] ++ l). rewrite holds_app. cbn [length]. change (Z.of_nat 1) with 1. split; (intros [H1 H2]; split; [|done]).
  - rewrite <- (H1 0%nat b eq_refl). f_equal. lia.
  - intros i c Hc. destruct i; [|discriminate Hc]. injection Hc as <-. rewrite Z.add_0_r. done.
Qed.

(** User bytes that no write touches. *)
Lemma holds_evolves W own pages s own' pages' s' a l :
  evolves W own pages s own' pages' s' -> (forall w, a <= w < a + Z.of_nat (length l) -> mapped pages w /\ ~ W w) -> holds s a l -> holds s' a l.
Proof.
  intros V Hw Hh i b Hb. pose proof (lookup_lt_Some _ _ _ Hb). rewrite <- (Hh i b Hb). apply (ev_user _ _ _ _ _ _ _ _ V); apply Hw; lia.
Qed.

Definition le_list (n : nat) (v : Z) : list Z := (fun i => v / 256 ^ Z.of_nat i mod 256) <$> seq 0 n.

Lemma le_list_S n v : le_list (S n) v = v mod 256 :: le_list n (v / 256).
Proof.
  unfold le_list. cbn [seq fmap list_fmap]. f_equal; [by rewrite Z.pow_0_r, Z.div_1_r|]. rewrite <- fmap_S_seq, <- list_fmap_compose. apply list_fmap_ext.
  intros i k Hk. cbn [compose]. rewrite Z.div_div by lia. do 2 f_equal. rewrite Nat2Z.inj_succ, Z.pow_succ_r by lia. done.
Qed.

Lemma holds_word s : forall n a v, holds s a (le_list n v) -> vload_le s a n = Some (v mod 256 ^ Z.of_nat n).
Proof.
  induction n as [|n IH]; intros a v Hh; [by rewrite Z.mod_1_r|]. rewrite le_list_S, holds_cons in Hh. destruct Hh as [Hb Hh].
  cbn [UserSpace.vload_le]. rewrite Hb. cbn [mbind option_bind]. rewrite (IH _ _ Hh). cbn [mbind option_bind]. f_equal.
  rewrite Nat2Z.inj_succ, Z.pow_succ_r, Z.rem_mul_r by lia. done.
Qed.

Lemma holds_word8 s a v : 0 <= v < 2 ^ 64 -> holds s a (le8 v) -> vload_le s a 8 = Some v.
Proof. intros Hv Hh. rewrite (holds_word s 8 a v Hh). f_equal. apply Z.mod_small. done. Qed.

Lemma le8_bytes v : Forall (fun b => 0 <= b < 256) (le8 v).
Proof. unfold le8. apply Forall_fmap, Forall_forall. intros i _. apply Z.mod_pos_bound. lia. Qed.

(** A run of bytes written to mapped pages is there. *)
Lemma vstores_holds own pages s a l :
  space_ok own pages s -> Forall (fun b => 0 <= b < 256) l -> (forall w, a <= w < a + Z.of_nat (length l) -> mapped pages w) ->
  exists s', vstores s a l = Some s' /\ evolves (fun w => a <= w < a + Z.of_nat (length l)) own pages s own pages s' /\ holds s' a l /\
    free_memory (vm_pmm s') = free_memory (vm_pmm s).
Proof.
  intros Ok Hb Hm. destruct (vstores_spec kernel_end own pages l s a Ok Hm) as (s' & E & V & L & Fr).
  exists s'. split; [done|]. split; [done|]. split; [|done]. intros i b Hi. rewrite (L i b Hi). rewrite Forall_lookup in Hb. by rewrite u8_small by (apply (Hb i b Hi)).
Qed.

(** ** Strings *)

Definition is_str (l : list Z) : Prop := Forall (fun c => 0 < c < 256) l.

Lemma vstrlen_spec fuel s a l :
  is_str l -> holds s a (l ++ [0]) -> (length l < fuel)%nat -> vstrlen fuel s a = Some (Z.of_nat (length l)).
Proof.
  intros Hl Hh Hf. unfold vstrlen.
  enough (forall k fuel, (k + length (drop k l) = length l)%nat -> (length (drop k l) < fuel)%nat ->
    loop fuel (fun len => match vload s (a + len) with None => inr None | Some c => if c =? 0 then inr (Some len) else inl (len + 1) end) (Z.of_nat k) = Some (Some (Z.of_nat (length l)))) as Hk.
  { specialize (Hk 0%nat fuel eq_refl Hf). change (Z.of_nat 0) with 0 in Hk. by rewrite Hk. }
  intros k fuel0. remember (length (drop k l)) as d eqn:Ed. revert k fuel0 Ed. induction d as [|d IH]; intros k fuel0 Ed Hk Hf0; (destruct fuel0 as [|fuel0]; [lia|]); cbn [loop].
  - rewrite (Hh k 0); [|rewrite lookup_app_r by lia; by replace (k - length l)%nat with 0%nat by lia]. cbn. do 2 f_equal. lia.
  - destruct (l !! k) as [c|] eqn:Ec; [|apply lookup_ge_None in Ec; rewrite length_drop in Ed; lia].
    rewrite (Hh k c) by (by apply lookup_app_l_Some). pose proof (proj1 (Forall_lookup _ _) Hl k c Ec) as Hc. cbv beta in Hc. rewrite (proj2 (Z.eqb_neq c 0)) by lia.
    replace (Z.of_nat k + 1) with (Z.of_nat (S k)) by lia. apply IH; [rewrite length_drop in *; lia|lia|lia].
Qed.

Lemma vstrncpy_spec s : forall n a l, is_str l -> holds s a (l ++ [0]) -> vstrncpy s a n = Some (take n (l ++ replicate n 0)).
Proof.
  induction n as [|n IH]; intros a l Hl Hh; [done|]. cbn [vstrncpy]. destruct l as [|c l]; cbn [app] in Hh; rewrite holds_cons in Hh; destruct Hh as [Hc Hh]; rewrite Hc; cbn [mbind option_bind].
  - cbn [Z.eqb app]. by rewrite take_ge by (by rewrite length_replicate).
  - apply Forall_cons in Hl as [Hc0 Hl]. rewrite (proj2 (Z.eqb_neq c 0)) by lia. rewrite (IH _ _ Hl Hh). cbn [mbind option_bind app take]. do 2 f_equal.
    rewrite !take_app, !take_replicate. f_equal. f_equal. lia.
Qed.

Lemma vstring_spec s : forall fuel a l, is_str l -> holds s a (l ++ [0]) -> (length l < fuel)%nat -> vstring fuel s a = Some l.
Proof.
  induction fuel as [|n IH]; intros a l Hl Hh Hf; [lia|]. cbn [vstring]. destruct l as [|c l]; cbn [app] in Hh; rewrite holds_cons in Hh; destruct Hh as [Hc Hh]; rewrite Hc; cbn [mbind option_bind]; [done|].
  apply Forall_cons in Hl as [Hc0 Hl]. rewrite (proj2 (Z.eqb_neq c 0)) by lia. cbn [length] in Hf. by rewrite (IH _ _ Hl Hh) by lia.
Qed.

(** ** Pages of segments and of the stack *)

Lemma evolves_fresh own pages s own' pages' s' q :
  pages !! q = None -> evolves (fun w => w / PAGE_SIZE = q) own pages s own' pages' s' -> evolves (fun _ => False) own pages s own' pages' s'.
Proof. intros Hq [O M U P]. split; [done|done| |done]. intros v Hv _. apply U; [done|]. intros E. destruct Hv as [_ [f Hf]]. congruence. Qed.

Lemma map_segment_spec : forall n own pages s q,
  space_ok own pages s -> (forall k, 0 <= k < Z.of_nat n -> user ((q + k) * PAGE_SIZE)) -> 4 * PAGE_SIZE * Z.of_nat n <= free_memory (vm_pmm s) ->
  exists s' own' pages', map_segment n s (q * PAGE_SIZE) = Some (s', true) /\ evolves (fun _ => False) own pages s own' pages' s' /\
    (forall k, 0 <= k < Z.of_nat n -> is_Some (pages' !! (q + k))) /\ free_memory (vm_pmm s) - 4 * PAGE_SIZE * Z.of_nat n <= free_memory (vm_pmm s').
Proof.
  induction n as [|n IH]; intros own pages s q Ok Hu Hf.
  - exists s, own, pages. split; [done|]. split; [by apply evolves_refl|]. split; [lia|lia].
  - assert (user (q * PAGE_SIZE)) as Hq by (specialize (Hu 0); rewrite Z.add_0_r in Hu; apply Hu; lia).
    assert (exists s1 own1 pages1, (if vmm_get_phys s (q * PAGE_SIZE) =? 0 then new_page s (q * PAGE_SIZE) else Some (s, true)) = Some (s1, true) /\
      evolves (fun _ => False) own pages s own1 pages1 s1 /\ is_Some (pages1 !! q) /\ free_memory (vm_pmm s) - 4 * PAGE_SIZE <= free_memory (vm_pmm s1)) as (s1 & own1 & pages1 & E1 & V1 & [g Hg] & F1).
    { rewrite (so_phys _ _ _ _ Ok _ Hq). assert (q * PAGE_SIZE / PAGE_SIZE = q) as -> by (unfold PAGE_SIZE; by rewrite Z.div_mul by lia). destruct (pages !! q) as [f|] eqn:Ep.
      - destruct (so_frame _ _ _ _ Ok q f Ep) as [(h & Eh & Hh & _) _]. pose proof (Z.mod_pos_bound (q * PAGE_SIZE) PAGE_SIZE ltac:(done)). rewrite (proj2 (Z.eqb_neq _ _)) by (unfold PAGE_SIZE in *; lia).
        exists s, own, pages. split; [done|]. split; [by apply evolves_refl|]. split; [by rewrite Ep|unfold PAGE_SIZE; lia].
      - destruct (new_page_spec kernel_end kernel_end_pos kernel_end_page own pages s q Ok Hq) as (s1 & own1 & f & E1 & V1 & _ & F1); [unfold PAGE_SIZE in *; lia|].
        exists s1, own1, (<[q := f]> pages). split; [done|]. split; [by apply (evolves_fresh _ _ _ _ _ _ q)|]. split; [by rewrite lookup_insert_eq|done]. }
    destruct (IH own1 pages1 s1 (q + 1)) as (s2 & own2 & pages2 & E2 & V2 & M2 & F2); [apply V1| |unfold PAGE_SIZE in *; lia|].
    { intros k Hk. replace (q + 1 + k) with (q + (k + 1)) by lia. apply Hu. lia. }
    exists s2, own2, pages2. cbn [map_segment]. rewrite E1. cbn [mbind option_bind negb]. replace (q * PAGE_SIZE + 4096) with ((q + 1) * PAGE_SIZE) by (unfold PAGE_SIZE; lia).
    split; [done|]. split; [by eapply evolves_trans|]. split; [|unfold PAGE_SIZE in *; lia]. intros k Hk. destruct (decide (k = 0)) as [->|].
    + rewrite Z.add_0_r. destruct (ev_mapped _ _ _ _ _ _ _ _ V2 (q * PAGE_SIZE)) as [_ Hm]; [split; [done|]|]; unfold PAGE_SIZE in *; rewrite Z.div_mul in * by lia; eauto.
    + replace (q + k) with (q + 1 + (k - 1)) by lia. apply M2. lia.
Qed.

Lemma map_stack_spec : forall n own pages s q,
  space_ok own pages s -> (forall k, 0 <= k < Z.of_nat n -> user ((q + k) * PAGE_SIZE)) -> 4 * PAGE_SIZE * Z.of_nat n <= free_memory (vm_pmm s) ->
  exists s' own' pages', map_stack n s (q * PAGE_SIZE) = Some (s', true) /\ evolves (fun w => q <= w / PAGE_SIZE < q + Z.of_nat n) own pages s own' pages' s' /\
    (forall k, 0 <= k < Z.of_nat n -> is_Some (pages' !! (q + k))) /\ free_memory (vm_pmm s) - 4 * PAGE_SIZE * Z.of_nat n <= free_memory (vm_pmm s').
Proof.
  induction n as [|n IH]; intros own pages s q Ok Hu Hf.
  - exists s, own, pages. split; [done|]. split; [by apply evolves_refl|]. split; [lia|lia].
  - assert (user (q * PAGE_SIZE)) as Hq by (specialize (Hu 0); rewrite Z.add_0_r in Hu; apply Hu; lia).
    destruct (new_page_spec kernel_end kernel_end_pos kernel_end_page own pages s q Ok Hq) as (s1 & own1 & f & E1 & V1 & _ & F1); [unfold PAGE_SIZE in *; lia|].
    destruct (IH own1 (<[q := f]> pages) s1 (q + 1)) as (s2 & own2 & pages2 & E2 & V2 & M2 & F2); [apply V1| |unfold PAGE_SIZE in *; lia|].
    { intros k Hk. replace (q + 1 + k) with (q + (k + 1)) by lia. apply Hu. lia. }
    exists s2, own2, pages2. cbn [map_stack]. rewrite E1. cbn [mbind option_bind negb]. replace (q * PAGE_SIZE + 4096) with ((q + 1) * PAGE_SIZE) by (unfold PAGE_SIZE; lia).
    split; [done|]. split; [eapply evolves_trans; (eapply evolves_weaken; [|eassumption]); cbv beta; lia|]. split; [|unfold PAGE_SIZE in *; lia]. intros k Hk. destruct (decide (k = 0)) as [->|].
    + rewrite Z.add_0_r. destruct (ev_mapped _ _ _ _ _ _ _ _ V2 (q * PAGE_SIZE)) as [_ Hm]; [split; [done|]|]; unfold PAGE_SIZE in *; rewrite Z.div_mul in * by lia; rewrite ?lookup_insert_eq; eauto.
    + replace (q + k) with (q + 1 + (k - 1)) by lia. apply M2. lia.
Qed.

(** ** Loading segments *)

Context (img : list Z) (fd : Z).
Hypothesis img_bytes : Forall (fun b => 0 <= b < 256) img.
Hypothesis img_size : Z.of_nat (length img) < 2 ^ 31.

(** A segment that fits: above the kernel, below the stack, its bytes in the file. *)
Record seg_ok (ph : list Z) : Prop := {
  sg_low : kernel_end <= p_vaddr ph;
  sg_high : p_vaddr ph + p_memsz ph <= stack_base;
  sg_size : 0 <= p_filesz ph <= p_memsz ph;
  sg_file : 0 <= p_offset ph /\ p_offset ph + p_filesz ph <= Z.of_nat (length img)
}.

Definition seg_pages (ph : list Z) : Z := (p_vaddr ph + p_memsz ph + 0xFFF) / PAGE_SIZE - p_vaddr ph / PAGE_SIZE.

Definition in_seg (ph : list Z) (v : Z) : Prop := p_vaddr ph <= v < p_vaddr ph + p_memsz ph.

(** What a segment is in memory: the bytes of the file, then zeros. *)
Definition seg_image (ph : list Z) : list Z :=
  take (Z.to_nat (p_filesz ph)) (drop (Z.to_nat (p_offset ph)) img) ++ replicate (Z.to_nat (p_memsz ph - p_filesz ph)) 0.

Lemma load_segment_spec own pages (x : exec) ph pos :
  space_ok own pages (x_vm x) -> seg_ok ph -> fc_at (x_files x) fd img pos -> 4 * PAGE_SIZE * seg_pages ph <= free_memory (vm_pmm (x_vm x)) ->
  exists s f own' pages' pos', load_segment x fd ph = Some (EXEC s f (x_heap x) (x_name x), true) /\ fc_at f fd img pos' /\
    evolves (in_seg ph) own pages (x_vm x) own' pages' s /\ (forall v, in_seg ph v -> mapped pages' v) /\ holds s (p_vaddr ph) (seg_image ph) /\
    free_memory (vm_pmm (x_vm x)) - 4 * PAGE_SIZE * seg_pages ph <= free_memory (vm_pmm s).
Proof.
  intros Ok [Hlo Hhi Hsz Hfi] Hat Hfree. unfold load_segment. set (v := p_vaddr ph) in *. set (n := p_memsz ph) in *.
  assert (stack_base < 2 ^ 47) as Hsb by done. rewrite (u64_small (v + n + 4095)) by lia. rewrite !ldiff_low. change 4096 with PAGE_SIZE.
  assert (0 <= seg_pages ph) as Hnn by (unfold seg_pages, PAGE_SIZE; fold v n; pose proof (Z.div_le_mono v (v + n + 4095) 4096); lia).
  replace ((v + n + 4095) / PAGE_SIZE * PAGE_SIZE - v / PAGE_SIZE * PAGE_SIZE) with (seg_pages ph * PAGE_SIZE) by (unfold seg_pages; fold v n; unfold PAGE_SIZE; lia).
  replace (seg_pages ph * PAGE_SIZE / PAGE_SIZE) with (seg_pages ph) by (unfold PAGE_SIZE; by rewrite Z.div_mul by lia).
  destruct (map_segment_spec (Z.to_nat (seg_pages ph)) own pages (x_vm x) (v / PAGE_SIZE) Ok) as (s1 & own1 & pages1 & -> & V1 & M1 & F1); rewrite ?Z2Nat.id in * by done.
  { intros k Hk. unfold user, seg_pages in *. fold v n in Hk. unfold stack_base, stack_top in Hhi. unfold PAGE_SIZE in *. Z.div_mod_to_equations. lia. }
  { done. }
  cbn [mbind option_bind negb with_vm x_files x_vm]. rewrite (s32_small (p_offset ph)), (s32_small (p_filesz ph)) by lia. change SEEK_SET with 0.
  destruct (fc_seek_spec (x_files x) fd img pos (p_offset ph) Hat ltac:(lia)) as (f1 & -> & Hat1). cbn [mbind option_bind].
  destruct (fc_read_spec f1 fd img (p_offset ph) (p_filesz ph) Hat1 ltac:(lia)) as (f2 & -> & Hat2). cbn [mbind option_bind].
  set (d := take _ _) in *. assert (Z.of_nat (length d) = p_filesz ph) as Hd by (unfold d; rewrite length_take, length_drop; lia).
  assert (forall w, in_seg ph w -> mapped pages1 w) as Hm.
  { intros w Hw. unfold in_seg in Hw. fold v n in Hw. split; [unfold user; lia|]. replace (w / PAGE_SIZE) with (v / PAGE_SIZE + (w / PAGE_SIZE - v / PAGE_SIZE)) by lia. apply M1.
    unfold seg_pages. fold v n. unfold PAGE_SIZE. Z.div_mod_to_equations. lia. }
  destruct (vstores_holds own1 pages1 s1 v d) as (s2 & -> & V2 & H2 & F2); [apply V1|by apply Forall_take, Forall_drop|intros w Hw; apply Hm; unfold in_seg; fold v n; lia|].
  cbn [mbind option_bind].
  assert (exists s3, (if p_filesz ph <? n then vmemset s2 (u64 (v + p_filesz ph)) (n - p_filesz ph) else Some s2) = Some s3 /\
    evolves (fun w => v + p_filesz ph <= w < v + n) own1 pages1 s2 own1 pages1 s3 /\ holds s3 (v + p_filesz ph) (replicate (Z.to_nat (n - p_filesz ph)) 0) /\
    free_memory (vm_pmm s3) = free_memory (vm_pmm s2)) as (s3 & -> & V3 & H3 & F3).
  { rewrite u64_small by lia. destruct (Z.ltb_spec (p_filesz ph) n).
    - destruct (vmemset_spec kernel_end own1 pages1 s2 (v + p_filesz ph) (n - p_filesz ph)) as (s3 & E3 & V3 & L3 & F3); [apply V2|lia|intros w Hw; apply Hm; unfold in_seg; fold v n; lia|].
      exists s3. split; [done|]. split; [eapply evolves_weaken; [|exact V3]; cbv beta; lia|]. split; [|done]. intros i b Hb. apply lookup_replicate in Hb as [-> Hi]. apply L3. lia.
    - exists s2. split; [done|]. split; [apply evolves_refl, V2|]. split; [|done]. replace (Z.to_nat (n - p_filesz ph)) with 0%nat by lia. intros i b Hb. discriminate Hb. }
  cbn [mbind option_bind with_files with_vm x_heap x_name]. exists s3, f2, own1, pages1. eexists. split; [done|]. split; [done|]. split; [|split; [done|split]].
  - eapply evolves_trans; [eapply evolves_weaken; [|exact V1]; done|]. eapply evolves_trans; (eapply evolves_weaken; [|eassumption]); unfold in_seg; cbv beta; fold v n; lia.
  - unfold seg_image. fold n d. apply holds_app. rewrite Hd. split; [|done]. apply (holds_evolves _ _ _ _ _ _ _ _ _ V3); [|done]. intros w Hw. split; [apply Hm; unfold in_seg; fold v n|]; lia.
  - lia.
Qed.


Lemma seg_image_length ph : seg_ok ph -> Z.of_nat (length (seg_image ph)) = p_memsz ph.
Proof. intros [_ _ Hsz Hfi]. unfold seg_image. rewrite length_app, length_take, length_drop, length_replicate. lia. Qed.

Section table.
Context (phoff phentsize : Z).
Hypothesis phoff_pos : 0 <= phoff.
Hypothesis phentsize_pos : 0 <= phentsize.

(** The [i]-th program header, and whether it is loaded. *)
Definition phdr (i : Z) : list Z := take (Z.to_nat sizeof_elf_phdr) (drop (Z.to_nat (phoff + i * phentsize)) img).
Definition loads (i : Z) : bool := p_type (phdr i) =? PT_LOAD.

(** The pages of the segments [i], ..., [i + n - 1]. *)
Fixpoint need (n : nat) (i : Z) : Z :=
  match n with O => 0 | S n' => (if loads i then seg_pages (phdr i) else 0) + need n' (i + 1) end.

(** A table of [n] program headers from the [i]-th on: inside the file, its
    segments well formed and disjoint. *)
Record table_good (n : nat) (i : Z) : Prop := {
  tg_file j : i <= j < i + Z.of_nat n -> phoff + j * phentsize + sizeof_elf_phdr <= Z.of_nat (length img);
  tg_seg j : i <= j < i + Z.of_nat n -> loads j = true -> seg_ok (phdr j);
  tg_disjoint j k v : i <= j < k -> k < i + Z.of_nat n -> loads j = true -> loads k = true -> in_seg (phdr j) v -> ~ in_seg (phdr k) v
}.

Definition in_table (n : nat) (i : Z) (v : Z) : Prop := exists j, i <= j < i + Z.of_nat n /\ loads j = true /\ in_seg (phdr j) v.

(** Segment [j] is in memory. *)
Definition loaded (pages : gmap Z Z) (s : vmm) (j : Z) : Prop :=
  (forall v, in_seg (phdr j) v -> mapped pages v) /\ holds s (p_vaddr (phdr j)) (seg_image (phdr j)).

Lemma seg_pages_nonneg ph : seg_ok ph -> 0 <= seg_pages ph.
Proof. intros [_ _ Hsz _]. unfold seg_pages, PAGE_SIZE. pose proof (Z.div_le_mono (p_vaddr ph) (p_vaddr ph + p_memsz ph + 4095) 4096). lia. Qed.

Lemma need_nonneg : forall n i, table_good n i -> 0 <= need n i.
Proof.
  induction n as [|n IH]; intros i [Tf Ts Td]; [done|]. cbn [need]. assert (0 <= need n (i + 1)).
  { apply IH. split; intros; [apply Tf|apply Ts|apply (Td j k v)]; done || lia. }
  destruct (loads i) eqn:E; [|lia]. pose proof (seg_pages_nonneg _ (Ts i ltac:(lia) E)). lia.
Qed.

Lemma loaded_evolves W own pages s own' pages' s' j :
  evolves W own pages s own' pages' s' -> seg_ok (phdr j) -> (forall v, in_seg (phdr j) v -> ~ W v) -> loaded pages s j -> loaded pages' s' j.
Proof.
  intros V Hs Hw [Hm Hh]. split; [intros v Hv; apply (ev_mapped _ _ _ _ _ _ _ _ V); auto|]. apply (holds_evolves _ _ _ _ _ _ _ _ _ V); [|done].
  intros w Hin. rewrite seg_image_length in Hin by done. split; [apply Hm|apply Hw]; done.
Qed.

Lemma load_segments_spec : forall n i own pages (x : exec) pos,
  0 <= i -> space_ok own pages (x_vm x) -> fc_at (x_files x) fd img pos -> table_good n i -> 4 * PAGE_SIZE * need n i <= free_memory (vm_pmm (x_vm x)) ->
  exists s f own' pages' pos', load_segments n i x fd phoff phentsize = Some (EXEC s f (x_heap x) (x_name x), true) /\ fc_at f fd img pos' /\
    evolves (in_table n i) own pages (x_vm x) own' pages' s /\ (forall j, i <= j < i + Z.of_nat n -> loads j = true -> loaded pages' s j) /\
    free_memory (vm_pmm (x_vm x)) - 4 * PAGE_SIZE * need n i <= free_memory (vm_pmm s).
Proof.
  induction n as [|n IH]; intros i own pages x pos Hi Ok Hat T Hfree.
  - destruct x. eexists _, _, own, pages, pos. split; [done|]. split; [done|]. split; [by apply evolves_refl|]. split; [lia|]. cbn [need x_vm]. lia.
  - assert (table_good n (i + 1)) as T'. { destruct T as [Tf Ts Td]. split; intros; [apply Tf|apply Ts|apply (Td j k v)]; done || lia. }
    pose proof (need_nonneg n (i + 1) T') as Hnn. pose proof T as [Tf Ts Td]. cbn [load_segments need] in *. specialize (Tf i ltac:(lia)) as Hfi. unfold sizeof_elf_phdr in Hfi.
    assert (0 <= i * phentsize) by (apply Z.mul_nonneg_nonneg; lia). rewrite (s32_small (i * phentsize)), s32_small by lia. change SEEK_SET with 0.
    destruct (fc_seek_spec (x_files x) fd img pos (phoff + i * phentsize) Hat ltac:(lia)) as (f1 & -> & Hat1). cbn [mbind option_bind].
    destruct (fc_read_spec f1 fd img (phoff + i * phentsize) sizeof_elf_phdr Hat1 ltac:(unfold sizeof_elf_phdr; lia)) as (f2 & -> & Hat2). cbn [mbind option_bind].
    fold (phdr i) in *. assert (Z.of_nat (length (phdr i)) = sizeof_elf_phdr) as -> by (unfold phdr, sizeof_elf_phdr; rewrite length_take, length_drop; lia).
    change (sizeof_elf_phdr =? sizeof_elf_phdr) with true. cbn [negb]. fold (loads i). set (x1 := with_files x f2).
    assert (exists s f own1 pages1 pos1, (if loads i then load_segment x1 fd (phdr i) else Some (x1, true)) = Some (EXEC s f (x_heap x) (x_name x), true) /\ fc_at f fd img pos1 /\
      evolves (fun v => loads i = true /\ in_seg (phdr i) v) own pages (x_vm x) own1 pages1 s /\ (loads i = true -> loaded pages1 s i) /\
      free_memory (vm_pmm (x_vm x)) - 4 * PAGE_SIZE * (if loads i then seg_pages (phdr i) else 0) <= free_memory (vm_pmm s)) as (s1 & f3 & own1 & pages1 & pos1 & -> & Hat3 & V1 & L1 & F1).
    { destruct (loads i) eqn:El.
      - destruct (load_segment_spec own pages x1 (phdr i) _ Ok (Ts i ltac:(lia) El) Hat2) as (s1 & f3 & own1 & pages1 & pos1 & E1 & Hat3 & V1 & M1 & Hh1 & F1); [cbn [x1 with_files x_vm]; unfold PAGE_SIZE in *; lia|].
        exists s1, f3, own1, pages1, pos1. split; [done|]. split; [done|]. split; [eapply evolves_weaken; [|exact V1]; by split|]. by split.
      - exists (x_vm x), f2, own, pages. eexists. split; [done|]. split; [done|]. split; [by apply evolves_refl|]. split; [done|lia]. }
    cbn [mbind option_bind negb].
    destruct (IH (i + 1) own1 pages1 (EXEC s1 f3 (x_heap x) (x_name x)) pos1) as (s2 & f4 & own2 & pages2 & pos2 & E2 & Hat4 & V2 & L2 & F2); [lia|apply V1|done|done|cbn [x_vm]; unfold PAGE_SIZE in *; lia|].
    exists s2, f4, own2, pages2, pos2. split; [done|]. split; [done|]. cbn [x_vm] in *. split; [|split; [|unfold PAGE_SIZE in *; lia]].
    + eapply evolves_trans; (eapply evolves_weaken; [|eassumption]); cbv beta.
      * intros v [El Hv]. exists i. split; [lia|done].
      * intros v (j & Hj & Hv). exists j. split; [lia|done].
    + intros j Hj El. destruct (decide (j = i)) as [->|]; [|apply L2; [lia|done]]. apply (loaded_evolves _ _ _ _ _ _ _ i V2); [apply Ts; [lia|done]| |auto].
      intros v Hv (k & Hk & Ek & Hv'). by apply (Td i k v ltac:(lia) ltac:(lia) El Ek Hv).
Qed.

End table.


(** ** Arguments *)

Lemma reads_cons W own pages s a b l : reads W own pages s a (b :: l) -> vload s a = Some b /\ reads W own pages s (a + 1) l.
Proof.
  intros [Hh Hs]. apply holds_cons in Hh as [Hb Hh]. split; [done|]. split; [done|]. intros i Hi. replace (a + 1 + Z.of_nat i) with (a + Z.of_nat (S i)) by lia. apply Hs. cbn. lia.
Qed.

Lemma holds_words s : forall ws a i w, holds s a (ws ≫= le8) -> ws !! i = Some w -> holds s (a + 8 * Z.of_nat i) (le8 w).
Proof.
  induction ws as [|u ws IH]; intros a i w Hh Hi; [by rewrite lookup_nil in Hi|]. rewrite bind_cons, holds_app in Hh. destruct Hh as [H1 H2]. change (Z.of_nat (length (le8 u))) with 8 in H2.
  destruct i as [|i]; cbn in Hi; [injection Hi as <-; by rewrite Z.add_0_r|]. replace (a + 8 * Z.of_nat (S i)) with (a + 8 + 8 * Z.of_nat i) by lia. by apply IH.
Qed.

Lemma vstrcpy_loop (W : Z -> Prop) fuel own pages dest src : forall rest s k,
  space_ok own pages s -> is_str rest -> reads W own pages s (src + k) (rest ++ [0]) ->
  (forall w, dest + k <= w < dest + k + Z.of_nat (length rest) + 1 -> mapped pages w /\ W w) -> (length rest < fuel)%nat ->
  exists s', loop fuel (fun '(s, i) => match (c ← vload s (src + i); s ← vstore s (dest + i) c; Some (s, c)) with
                                | None => inr None
                                | Some (s, c) => if c =? 0 then inr (Some s) else inl (s, i + 1)
                                end) (s, k) = Some (Some s') /\
    evolves (fun w => dest + k <= w < dest + k + Z.of_nat (length rest) + 1) own pages s own pages s' /\ holds s' (dest + k) (rest ++ [0]).
Proof.
  induction fuel as [|fuel IH]; intros rest s k Ok Hr Hsrc Hd Hf; [lia|]. cbn [loop]. destruct rest as [|c rest]; cbn [app length] in *; apply reads_cons in Hsrc as Hsrc'; destruct Hsrc' as [-> Hsrc']; cbn [mbind option_bind].
  - destruct (vstore_spec kernel_end own pages s (dest + k) 0 Ok) as (s1 & -> & V1 & L1 & _); [apply Hd; lia|]. cbn. exists s1. split; [done|].
    split; [eapply evolves_weaken; [|exact V1]; cbv beta; lia|]. apply holds_cons. split; [done|]. intros i b Hb. discriminate Hb.
  - apply Forall_cons in Hr as [Hc Hr]. destruct (vstore_spec kernel_end own pages s (dest + k) c Ok) as (s1 & -> & V1 & L1 & _); [apply Hd; lia|]. cbn [mbind option_bind].
    rewrite (proj2 (Z.eqb_neq c 0)) by lia. destruct (IH rest s1 (k + 1)) as (s2 & E2 & V2 & H2); [apply V1|done| |intros w Hw; apply Hd; lia|lia|].
    { rewrite Z.add_assoc. apply (reads_evolves W own pages s); [|done]. eapply evolves_weaken; [|exact V1]. intros w ->. apply Hd. lia. }
    exists s2. split; [done|]. split; [eapply evolves_trans; (eapply evolves_weaken; [|eassumption]); cbv beta; lia|].
    apply holds_cons. rewrite Z.add_assoc in H2. split; [|done]. rewrite (ev_user _ _ _ _ _ _ _ _ V2); [|apply Hd; lia|lia]. rewrite L1. by rewrite u8_small by lia.
Qed.

Lemma vstrcpy_spec (W : Z -> Prop) fuel own pages dest src str s :
  space_ok own pages s -> is_str str -> reads W own pages s src (str ++ [0]) ->
  (forall w, dest <= w < dest + Z.of_nat (length str) + 1 -> mapped pages w /\ W w) -> (length str < fuel)%nat ->
  exists s', vstrcpy fuel s dest src = Some s' /\ evolves (fun w => dest <= w < dest + Z.of_nat (length str) + 1) own pages s own pages s' /\ holds s' dest (str ++ [0]).
Proof.
  intros Ok Hs Hr Hd Hf. destruct (vstrcpy_loop W fuel own pages dest src str s 0 Ok Hs) as (s' & E & V & L); [by rewrite Z.add_0_r|by rewrite Z.add_0_r|done|].
  rewrite Z.add_0_r in V, L. exists s'. unfold vstrcpy. rewrite E. done.
Qed.

(** The arguments [args], pointers with the strings there, behind [argv]. *)
Record args_at (W : Z -> Prop) own pages (s : vmm) (argv : Z) (args : list (Z * list Z)) : Prop := {
  aa_words : reads W own pages s argv ((args.*1 ++ [0]) ≫= le8);
  aa_args : Forall (fun '(a, str) => 0 < a < 2 ^ 64 /\ is_str str /\ reads W own pages s a (str ++ [0])) args
}.

Lemma args_evolves W own pages s own' pages' s' argv args :
  evolves W own pages s own' pages' s' -> args_at W own pages s argv args -> args_at W own' pages' s' argv args.
Proof.
  intros V [Hw Ha]. split; [by apply (reads_evolves _ _ _ _ _ _ _ _ _ V)|]. eapply Forall_impl; [exact Ha|]. intros [a str] (? & ? & Hr).
  split; [done|]. split; [done|]. by apply (reads_evolves _ _ _ _ _ _ _ _ _ V).
Qed.

Lemma count_args_spec fuel W own pages s argv args :
  args_at W own pages s argv args -> argv <> 0 -> (length args < fuel)%nat -> count_args fuel s argv = Some (Z.of_nat (length args)).
Proof.
  intros [[Hw _] Ha] Hn Hf. unfold count_args. rewrite (proj2 (Z.eqb_neq argv 0)) by done.
  enough (forall d k fuel, (k + d = length args)%nat -> (d < fuel)%nat ->
    loop fuel (fun argc => match vload_le s (argv + 8 * argc) 8 with None => inr None | Some p => if p =? 0 then inr (Some argc) else inl (argc + 1) end) (Z.of_nat k) = Some (Some (Z.of_nat (length args)))) as Hk.
  { specialize (Hk (length args) 0%nat fuel eq_refl Hf). change (Z.of_nat 0) with 0 in Hk. by rewrite Hk. }
  induction d as [|d IH]; intros k fuel0 Hk Hf0; (destruct fuel0 as [|fuel0]; [lia|]); cbn [loop].
  - rewrite (holds_word8 s _ 0); [cbn; do 2 f_equal; lia|lia|]. apply (holds_words s _ argv k 0 Hw). rewrite lookup_app_r by (rewrite length_fmap; lia). rewrite length_fmap. by replace (k - length args)%nat with 0%nat by lia.
  - destruct (args !! k) as [[a str]|] eqn:Ek; [|apply lookup_ge_None in Ek; lia]. pose proof (proj1 (Forall_lookup _ _) Ha k _ Ek) as (Hr & _).
    rewrite (holds_word8 s _ a); [|lia|]. { rewrite (proj2 (Z.eqb_neq a 0)) by lia. replace (Z.of_nat k + 1) with (Z.of_nat (S k)) by lia. apply IH; lia. }
    apply (holds_words s _ argv k a Hw). apply lookup_app_l_Some. by rewrite list_lookup_fmap, Ek.
Qed.

(** The bytes of the strings of [args]. *)
Fixpoint args_size (args : list (Z * list Z)) : Z :=
  match args with [] => 0 | (_, str) :: args => Z.of_nat (length str) + 1 + args_size args end.

Lemma args_size_app a b : args_size (a ++ b) = args_size a + args_size b.
Proof. induction a as [|[p str] a IH]; cbn; lia. Qed.
Lemma args_size_nonneg a : 0 <= args_size a.
Proof. induction a as [|[p str] a IH]; cbn; lia. Qed.

Lemma push_args_spec (W : Z -> Prop) fuel own pages argv args : forall n s sp ptrs,
  space_ok own pages s -> args_at W own pages s argv args -> (n <= length args)%nat -> (n <= length ptrs)%nat -> Forall (fun arg => (length arg.2 < fuel)%nat) args ->
  (forall w, sp - args_size (take n args) <= w < sp -> mapped pages w /\ W w) -> 0 <= sp - args_size (take n args) -> sp < 2 ^ 47 -> args_size (take n args) < 2 ^ 31 ->
  exists s' ptrs', push_args n fuel s argv sp ptrs = Some (s', sp - args_size (take n args), ptrs') /\
    evolves (fun w => sp - args_size (take n args) <= w < sp) own pages s own pages s' /\ length ptrs' = length ptrs /\
    (forall i, (n <= i)%nat -> ptrs' !! i = ptrs !! i) /\
    forall i a str, (i < n)%nat -> args !! i = Some (a, str) ->
      exists p, ptrs' !! i = Some p /\ sp - args_size (take n args) <= p /\ p + Z.of_nat (length str) + 1 <= sp /\ holds s' p (str ++ [0]).
Proof.
  induction n as [|n IH]; intros s sp ptrs Ok Ha Hn Hp Hfu Hd H0sp Hsp Hsz.
  - exists s, ptrs. cbn. rewrite Z.sub_0_r. split; [done|]. split; [by apply evolves_refl|]. split; [done|]. split; [done|]. lia.
  - destruct (args !! n) as [[a str]|] eqn:En; [|apply lookup_ge_None in En; lia]. pose proof Ha as [[Hw _] Hargs].
    pose proof (proj1 (Forall_lookup _ _) Hargs n _ En) as (Har & Hstr & Hrd). pose proof (proj1 (Forall_lookup _ _) Hfu n _ En) as Hfn. cbv beta in Hfn. cbn [snd] in Hfn.
    rewrite (take_S_r _ _ _ En), args_size_app in *. cbn [args_size] in *. pose proof (args_size_nonneg (take n args)) as Hge. cbn [push_args].
    rewrite (holds_word8 s _ a); [|lia|]. 2: { apply (holds_words s _ argv n a Hw). apply lookup_app_l_Some. by rewrite list_lookup_fmap, En. }
    cbn [mbind option_bind]. rewrite (vstrlen_spec fuel s a str Hstr (proj1 Hrd) Hfn). cbn [mbind option_bind]. rewrite s32_small by lia.
    set (sp1 := u64 _). assert (sp1 = sp - (Z.of_nat (length str) + 1)) as Esp by (apply u64_small; lia).
    destruct (vstrcpy_spec W fuel own pages sp1 a str s Ok Hstr Hrd) as (s1 & -> & V1 & L1); [intros w Hin; apply Hd; lia|done|]. cbn [mbind option_bind].
    destruct (IH s1 sp1 (<[n := sp1]> ptrs)) as (s2 & ptrs2 & E2 & V2 & Hl2 & Hk2 & Hs2).
    { apply V1. } { apply (args_evolves W own pages s); [|done]. eapply evolves_weaken; [|exact V1]. intros w Hin. cbv beta in Hin. apply Hd. lia. } { lia. } { rewrite length_insert. lia. } { done. }
    { intros w Hin. apply Hd. lia. } { lia. } { lia. } { lia. }
    exists s2, ptrs2. rewrite length_insert in Hl2. replace (sp - (args_size (take n args) + (Z.of_nat (length str) + 1 + 0))) with (sp1 - args_size (take n args)) by lia.
    split; [done|]. split; [eapply evolves_trans; (eapply evolves_weaken; [|eassumption]); cbv beta; lia|]. split; [done|]. split.
    + intros i Hi. rewrite Hk2 by lia. by rewrite list_lookup_insert_ne by lia.
    + intros i b t Hi Hit. destruct (decide (i = n)) as [->|].
      * rewrite En in Hit. injection Hit as <- <-. exists sp1. split; [rewrite Hk2 by lia; by rewrite list_lookup_insert_eq by lia|]. split; [lia|]. split; [lia|].
        apply (holds_evolves _ _ _ _ _ _ _ _ _ V2); [|done]. intros w Hin. rewrite length_app in Hin. cbn [length] in Hin. split; [apply Hd|]; lia.
      * destruct (Hs2 i b t ltac:(lia) Hit) as (p & Ep & Hp1 & Hp2 & Hp3). exists p. split; [done|]. split; [lia|]. split; [lia|done].
Qed.


(** ** The stack of a new program *)

Lemma ldiff_15 x : Z.ldiff x 0xF = x / 16 * 16.
Proof. change 0xF with (Z.ones 4). rewrite Z.ldiff_ones_r by lia. rewrite Z.shiftl_mul_pow2, Z.shiftr_div_pow2 by lia. done. Qed.

Lemma length_words ws : length (ws ≫= le8) = (8 * length ws)%nat.
Proof. induction ws as [|w ws IH]; [done|]. rewrite bind_cons, length_app, IH. cbn [length]. change (length (le8 w)) with 8%nat. lia. Qed.

Lemma words_bytes ws : Forall (fun b => 0 <= b < 256) (ws ≫= le8).
Proof. induction ws as [|w ws IH]; [constructor|]. rewrite bind_cons. apply Forall_app. split; [apply le8_bytes|done]. Qed.

(** Where the stack pointer of the program is, the strings ending at [sp]. *)
Definition vector_sp (sp argc : Z) : Z := sp / 16 * 16 - 8 * (argc + 3).

Lemma push_vector_spec own pages s sp ptrs :
  let argc := Z.of_nat (length ptrs) - 1 in
  space_ok own pages s -> (0 < length ptrs)%nat -> 0 <= vector_sp sp argc -> sp < 2 ^ 47 -> (forall w, vector_sp sp argc <= w < sp -> mapped pages w) ->
  exists s', push_vector s sp argc ptrs = Some (s', vector_sp sp argc, vector_sp sp argc + 8) /\ evolves (fun w => vector_sp sp argc <= w < sp) own pages s own pages s' /\
    holds s' (vector_sp sp argc) (le8 argc ++ (ptrs ≫= le8) ++ le8 0).
Proof.
  intros argc Ok Hlen Hlow Hsp Hd. unfold push_vector. rewrite ldiff_15. set (b := sp / 16 * 16). set (low := vector_sp sp argc) in *.
  assert (b <= sp < b + 16) as Hb by (unfold b; Z.div_mod_to_equations; lia). assert (low = b - 8 * (argc + 3)) as El by done. clearbody b low.
  rewrite (u64_small (b - 8)) by lia. replace (u64 (b - 8 - (argc + 1) * 8)) with (low + 8) by (symmetry; rewrite u64_small by lia; lia).
  replace (u64 (low + 8 - 8)) with low by (symmetry; rewrite u64_small by lia; lia).
  pose proof (length_words ptrs) as Hlw. assert (forall v, length (le8 v) = 8%nat) as Hl8 by done.
  destruct (vstores_holds own pages s (b - 8) (le8 0) Ok (le8_bytes 0)) as (s1 & -> & V1 & L1 & _); [rewrite Hl8; intros w Hw; apply Hd; lia|]. cbn [mbind option_bind].
  destruct (vstores_holds own pages s1 (low + 8) (ptrs ≫= le8) (ev_ok _ _ _ _ _ _ _ _ V1) (words_bytes ptrs)) as (s2 & -> & V2 & L2 & _); [rewrite Hlw; intros w Hw; apply Hd; lia|]. cbn [mbind option_bind].
  destruct (vstores_holds own pages s2 low (le8 argc) (ev_ok _ _ _ _ _ _ _ _ V2) (le8_bytes argc)) as (s3 & -> & V3 & L3 & _); [rewrite Hl8; intros w Hw; apply Hd; lia|]. cbn [mbind option_bind].
  rewrite Hl8 in V1, V3. rewrite Hlw in V2. exists s3. split; [done|]. split.
  - eapply evolves_trans; [eapply evolves_weaken; [|exact V1]; cbv beta; lia|]. eapply evolves_trans; (eapply evolves_weaken; [|eassumption]); cbv beta; lia.
  - apply holds_app. split; [done|]. rewrite Hl8. change (Z.of_nat 8) with 8. apply holds_app. split.
    + apply (holds_evolves _ _ _ _ _ _ _ _ _ V3); [|done]. rewrite Hlw. intros w Hw. split; [apply Hd|]; lia.
    + rewrite Hlw. replace (low + 8 + Z.of_nat (8 * length ptrs)) with (b - 8) by lia.
      apply (holds_evolves _ _ _ _ _ _ _ _ _ V3); [rewrite Hl8; intros w Hw; split; [apply Hd|]; lia|].
      apply (holds_evolves _ _ _ _ _ _ _ _ _ V2); [rewrite Hl8; intros w Hw; split; [apply Hd|]; lia|]. done.
Qed.

(** ** The registers *)

(** A write to kernel bytes that are no table, user page or bitmap. *)
Lemma plain_write own pages s m' (T : Z -> Prop) :
  space_ok own pages s -> mem_ok m' -> (forall x, T x -> plain own pages s x) -> (forall x, ~ T x -> m' x = pm_mem (vm_pmm s) x) ->
  space_ok own pages (with_vmem s m') /\ forall v, mapped pages v -> vload (with_vmem s m') v = vload s v.
Proof.
  intros Ok Hok HT Hm. pose proof Ok as [[Hpt Hr] Hs Hp Hf Hi]. assert (off_bitmap (vm_pmm s) m') as Hoff.
  { intros x Hx. apply Hm. intros Ht%HT. destruct (pl_bitmap _ _ _ _ Ht); lia. }
  assert (forall t l j, own !! t = Some l -> 0 <= j < 512 -> entry m' t j = entry (pm_mem (vm_pmm s)) t j) as He.
  { intros t l j Hl Hj. apply load_le_ext. intros x Hx. apply Hm. intros Ht%HT. apply (pl_table _ _ _ _ Ht t); [eauto|unfold PAGE_SIZE; lia]. }
  assert (forall v, user v -> vm_small (with_vmem s m') v /\ vmm_get_phys (with_vmem s m') v = vmm_get_phys s v) as Ht.
  { intros v Hv. apply (same_tables own); [done|done|exact He|by apply Hs]. }
  assert (space_ok own pages (with_vmem s m')) as Ok'.
  { split.
    - split; [|done]. apply (pt_ok_mem own); [done|done|done|apply Hpt|]. intros t l j Hl Hlen Hj. pose proof (He t l j Hl Hj) as E. rewrite (next_table_eq _ _ _ _ E), E. by apply Hpt.
    - intros v Hv. by apply Ht.
    - intros v Hv. rewrite (proj2 (Ht v Hv)). by apply Hp.
    - intros r g Hg. destruct (Hf r g Hg) as [Htab Hn]. split; [by apply table_ok_mem|done].
    - done. }
  split; [done|]. intros v [Hv [f Hq]]. rewrite (vload_mapped kernel_end own pages _ v f Ok' Hv Hq), (vload_mapped kernel_end own pages s v f Ok Hv Hq). f_equal.
  apply Hm. intros Hx%HT. apply (pl_user _ _ _ _ Hx _ _ Hq). pose proof (Z.mod_pos_bound v PAGE_SIZE ltac:(done)). lia.
Qed.

(** The registers of a frame. *)
Definition registers (m : mem) (tf entry sp argc argv_base : Z) : Prop :=
  load64 m (tf_rip tf) = entry /\ load64 m (tf_rsp tf) = sp /\ load64 m (tf_rdi tf) = argc /\ load64 m (tf_rsi tf) = argv_base /\
  load64 m (tf_cs tf) = 0x1B /\ load64 m (tf_ss tf) = 0x23 /\ load64 m (tf_rflags tf) = 0x202 /\ load64 m (tf_rdx tf) = 0.

Lemma set_frame_spec m tf entry sp argc argv_base :
  mem_ok m -> 0 <= entry < 2 ^ 64 -> 0 <= sp < 2 ^ 64 -> 0 <= argc < 2 ^ 64 -> 0 <= argv_base < 2 ^ 64 ->
  mem_ok (set_frame m tf entry sp argc argv_base) /\ registers (set_frame m tf entry sp argc argv_base) tf entry sp argc argv_base /\
  forall x, ~ tf <= x < tf + sizeof_frame -> set_frame m tf entry sp argc argv_base x = m x.
Proof.
  intros Hm He Hs Ha Hb. unfold set_frame, registers, tf_rip, tf_rsp, tf_rdi, tf_rsi, tf_cs, tf_ss, tf_rflags, tf_rdx, sizeof_frame. split; [|split].
  - do 8 apply store_le_ok. by apply memset_ok.
  - split_and!; rewrite ?load64_store64_other by lia; by rewrite load64_store64_same by lia.
  - intros x Hx. unfold store64. rewrite !store_le_other by lia. rewrite (CString.memset_fill _ _ 0 176) by done. unfold CString.fill. by rewrite decide_False.
Qed.


(** ** A program that has been started *)

(** What the program finds: the number of arguments, the pointers to them, a null
    pointer and an empty environment above the stack pointer, and its registers.
    The stack pointer is a multiple of 16 only when the number of arguments is odd. *)
Definition started (s : vmm) (tf entry : Z) (args : list (Z * list Z)) : Prop :=
  let argc := Z.of_nat (length args) in
  exists sp ptrs, length ptrs = length args /\ stack_base <= sp < stack_top /\ sp mod 16 = 8 * ((argc + 1) mod 2) /\
    holds s sp (le8 argc ++ ((ptrs ++ [0]) ≫= le8) ++ le8 0) /\
    (forall i a str p, args !! i = Some (a, str) -> ptrs !! i = Some p -> holds s p (str ++ [0])) /\
    registers (pm_mem (vm_pmm s)) tf entry sp argc (sp + 8).

Definition in_stack (v : Z) : Prop := stack_base <= v < stack_top.

Lemma insert_last (l : list Z) n v : length l = S n -> <[n := v]> l = take n l ++ [v].
Proof.
  intros Hl. rewrite insert_take_drop by lia. rewrite drop_ge by lia. done.
Qed.

(** The strings are pushed, or there are none. *)
Lemma strings_pushed fuel own pages s argv args junk :
  space_ok own pages s -> (forall v, in_stack v -> mapped pages v) -> (argv = 0 /\ args = [] \/ argv <> 0 /\ args_at in_stack own pages s argv args) ->
  args_size args <= 4 * 4096 -> Forall (fun arg => (length arg.2 < fuel)%nat) args ->
  let ptrs := replicate (Z.to_nat (Z.of_nat (length args) + 1)) junk in
  exists s' ptrs', (if argv =? 0 then Some (s, stack_top, ptrs) else push_args (Z.to_nat (Z.of_nat (length args))) fuel s argv stack_top ptrs) = Some (s', stack_top - args_size args, ptrs') /\
    evolves (fun w => stack_top - args_size args <= w < stack_top) own pages s own pages s' /\ length ptrs' = S (length args) /\
    forall i a str p, args !! i = Some (a, str) -> ptrs' !! i = Some p ->
      stack_top - args_size args <= p /\ p + Z.of_nat (length str) + 1 <= stack_top /\ holds s' p (str ++ [0]).
Proof.
  intros Ok Hm Hargs Hsz Hfu ptrs. destruct Hargs as [[-> ->]|[Hn Ha]].
  - exists s, ptrs. cbn [args_size]. rewrite Z.sub_0_r. split; [done|]. split; [by apply evolves_refl|]. split; [done|]. intros i a str p Hi. discriminate Hi.
  - rewrite (proj2 (Z.eqb_neq argv 0)) by done. rewrite Nat2Z.id. assert (length ptrs = S (length args)) as Hlp by (unfold ptrs; rewrite length_replicate; lia).
    pose proof (args_size_nonneg args) as Hnn.
    destruct (push_args_spec in_stack fuel own pages argv args (length args) s stack_top ptrs Ok Ha) as (s' & ptrs' & E & V & Hl & _ & Hs); rewrite ?firstn_all in *; [done|lia|done| |unfold stack_top; lia|done|lia|].
    { intros w Hw. assert (in_stack w) as Hin by (unfold in_stack, stack_base; lia). split; [by apply Hm|done]. }
    exists s', ptrs'. split; [done|]. split; [done|]. split; [congruence|]. intros i a str p Hi Hp. pose proof (lookup_lt_Some _ _ _ Hi).
    destruct (Hs i a str ltac:(done) Hi) as (p' & Ep & K1 & K2 & K3). rewrite Hp in Ep. injection Ep as ->. done.
Qed.

(** The heap has no room for the pointers to the arguments. *)
Definition no_heap (x : exec) (args : list (Z * list Z)) : Prop :=
  no_room (x_heap x) ((Z.of_nat (length args) + 1) * 8).

Lemma start_program_spec fuel junk own pages (x : exec) tf path name argv args entry :
  kernel_end <= stack_base -> space_ok own pages (x_vm x) -> a_wf (x_heap x) -> 4 * PAGE_SIZE * 4 <= free_memory (vm_pmm (x_vm x)) ->
  is_str name -> reads in_stack own pages (x_vm x) path (name ++ [0]) ->
  (argv = 0 /\ args = [] \/ argv <> 0 /\ args_at in_stack own pages (x_vm x) argv args) ->
  args_size args + 8 * (Z.of_nat (length args) + 3) + 15 <= 4 * 4096 -> (length args < fuel)%nat -> Forall (fun arg => (length arg.2 < fuel)%nat) args ->
  0 <= entry < 2 ^ 64 -> (forall y, tf <= y < tf + sizeof_frame -> plain own pages (x_vm x) y) ->
  exists x' r own' pages', start_program fuel junk x tf path argv entry = Some (x', r) /\ a_wf (x_heap x') /\ (forall q t, a_live (x_heap x') q t <-> a_live (x_heap x) q t) /\
    space_ok own' pages' (x_vm x') /\ (forall v, mapped pages v -> ~ in_stack v -> mapped pages' v /\ vload (x_vm x') v = vload (x_vm x) v) /\
    (no_heap x args /\ r = -1 \/
     ~ no_heap x args /\ r = 0 /\ x_name x' = take 63 (name ++ replicate 63 0) ++ [0] /\ started (x_vm x') tf entry args).
Proof.
  intros Hke Ok Hwf Hfree Hname Hpath Hargs Hroom Hfa Hfs Hen Hpl. unfold start_program. set (argc := Z.of_nat (length args)) in *. pose proof (args_size_nonneg args) as Hnn.
  assert (stack_base = 0x7FFFFFFFB * PAGE_SIZE) as Esb by done. rewrite Esb.
  destruct (map_stack_spec 4 own pages (x_vm x) 0x7FFFFFFFB Ok) as (s1 & own1 & pages1 & -> & V1 & M1 & _); [intros k Hk; unfold user; unfold PAGE_SIZE in *; lia|done|].
  cbn [mbind option_bind negb with_vm x_vm x_heap x_files].
  assert (evolves in_stack own pages (x_vm x) own1 pages1 s1) as V1'.
  { eapply evolves_weaken; [|exact V1]. intros w Hw. cbv beta in Hw. unfold in_stack. rewrite Esb. unfold stack_top. unfold PAGE_SIZE in *. Z.div_mod_to_equations. lia. }
  assert (forall v, in_stack v -> mapped pages1 v) as Hm1.
  { intros v Hv. split; [unfold user; unfold in_stack in Hv; split; [lia|]; unfold stack_top in Hv; lia|]. replace (v / PAGE_SIZE) with (0x7FFFFFFFB + (v / PAGE_SIZE - 0x7FFFFFFFB)) by lia. apply M1.
    unfold in_stack, stack_top in Hv. rewrite Esb in Hv. unfold PAGE_SIZE in *. Z.div_mod_to_equations. lia. }
  assert (argv = 0 /\ args = [] \/ argv <> 0 /\ args_at in_stack own1 pages1 s1 argv args) as Hargs1.
  { destruct Hargs as [?|[? Ha]]; [by left|right]. split; [done|]. by apply (args_evolves _ _ _ _ _ _ _ _ _ V1'). }
  assert (count_args fuel s1 argv = Some argc) as ->.
  { destruct Hargs1 as [[-> ->]|[Hn Ha]]; [done|]. by apply (count_args_spec fuel in_stack own1 pages1). }
  cbn [mbind option_bind]. destruct (a_alloc_spec (x_heap x) ((argc + 1) * 8) Hwf ltac:(lia)) as (h & p & Eal & Hwf1 & Hal). rewrite Eal. cbn [mbind option_bind with_xheap with_vm x_vm x_heap x_files].
  destruct Hal as [[-> Hlive]|(sz & Hsz & Hfresh & Hlive)].
  { cbn [Z.eqb]. eexists _, _, own1, pages1. split; [done|]. split; [done|]. split; [done|]. split; [apply V1|]. split; [|left; split; [by exists h|done]].
    intros v Hv Hns. split; [by apply (ev_mapped _ _ _ _ _ _ _ _ V1)|by apply (ev_user _ _ _ _ _ _ _ _ V1')]. }
  assert (a_live h p sz) as Hp by (apply Hlive; by left). destruct (a_live_pos h p sz Hwf1 Hp) as [Hp0 _]. rewrite (proj2 (Z.eqb_neq p 0)) by lia.
  destruct (strings_pushed fuel own1 pages1 s1 argv args junk (ev_ok _ _ _ _ _ _ _ _ V1) Hm1 Hargs1 ltac:(lia) Hfs) as (s2 & ptrs & Ep & V2 & Hlp & Hstr).
  fold argc in Ep. rewrite Ep. cbn [mbind option_bind]. replace (Z.to_nat argc) with (length args) by lia. rewrite (insert_last ptrs (length args) 0) by done.
  set (sp := stack_top - args_size args) in *. set (ps := take (length args) ptrs). assert (length ps = length args) as Hps by (unfold ps; rewrite length_take; lia).
  destruct (push_vector_spec own1 pages1 s2 sp (ps ++ [0]) (ev_ok _ _ _ _ _ _ _ _ V2)) as (s3 & E3 & V3 & L3); rewrite ?length_app, ?Hps in *; cbn [length] in *;
    replace (Z.of_nat (length args + 1) - 1) with argc in * by lia.
  { lia. } { unfold vector_sp, sp, stack_top. Z.div_mod_to_equations. lia. } { unfold sp, stack_top. lia. }
  { intros w Hw. apply Hm1. unfold in_stack, stack_base. unfold vector_sp, sp, stack_top in *. Z.div_mod_to_equations. lia. }
  rewrite E3. cbn [mbind option_bind]. set (vs := vector_sp sp argc) in *.
  assert (stack_base <= vs < stack_top /\ vs + 8 * (argc + 3) <= sp /\ vs mod 16 = 8 * ((argc + 1) mod 2)) as (Hvs & Hvsp & Hmod).
  { unfold vs, vector_sp, sp, stack_base, stack_top in *. split_and!; Z.div_mod_to_equations; lia. }
  destruct (a_free_spec h p sz Hwf1 Hp) as (h2 & -> & Hwf2 & Hlive2). cbn [mbind option_bind].
  assert (evolves in_stack own pages (x_vm x) own1 pages1 s3) as V13.
  { eapply evolves_trans; [exact V1'|]. eapply evolves_trans; (eapply evolves_weaken; [|eassumption]); cbv beta; unfold in_stack, sp in *; lia. }
  destruct (reads_evolves _ _ _ _ _ _ _ _ _ V13 Hpath) as [Hpath3 _]. rewrite (vstrncpy_spec s3 63 path name Hname Hpath3). cbn [mbind option_bind].
  assert (mem_ok (pm_mem (vm_pmm s3))) as Hmok by (apply (so_vm _ _ _ _ (ev_ok _ _ _ _ _ _ _ _ V3))).
  destruct (set_frame_spec (pm_mem (vm_pmm s3)) tf entry vs argc (vs + 8) Hmok Hen) as (Hfm & Hreg & Hout); [unfold stack_base, stack_top in *; lia|lia|unfold stack_base, stack_top in *; lia|].
  destruct (plain_write own1 pages1 s3 _ (fun y => tf <= y < tf + sizeof_frame) (ev_ok _ _ _ _ _ _ _ _ V3) Hfm) as (Ok4 & L4).
  { intros y Hy. by apply (ev_plain _ _ _ _ _ _ _ _ V13), Hpl. } { done. }
  eexists _, _, own1, pages1. split; [done|]. cbn [x_heap x_vm x_name]. split; [done|]. split; [|split; [done|split]].
  - intros q t. rewrite Hlive2, Hlive. split; [intros [[[-> ->]|?] ?]; done|]. intros Hq. split; [by right|]. intros ->. by apply (Hfresh t).
  - intros v Hv Hns. assert (mapped pages1 v) as Hv1 by (by apply (ev_mapped _ _ _ _ _ _ _ _ V1)). split; [done|]. rewrite L4 by done. by apply (ev_user _ _ _ _ _ _ _ _ V13).
  - right. split; [intros Hno; apply (alloc_room _ _ _ _ Eal) in Hno; lia|]. split; [done|]. split; [done|].
    assert (forall a l, holds s3 a l -> (forall w, a <= w < a + Z.of_nat (length l) -> in_stack w) -> holds (with_vmem s3 (set_frame (pm_mem (vm_pmm s3)) tf entry vs argc (vs + 8))) a l) as Hkeep.
    { intros a l Hh Hin i b Hb. pose proof (lookup_lt_Some _ _ _ Hb). rewrite L4; [by apply Hh|]. apply Hm1, Hin. lia. }
    exists vs, ps. split; [done|]. split; [done|]. split; [done|]. split; [|split].
    + apply Hkeep; [done|]. rewrite !length_app, length_words, length_app, Hps. change (length (le8 (Z.of_nat (length args)))) with 8%nat. change (length (le8 0)) with 8%nat. cbn [length].
      intros w Hw. unfold in_stack, sp in *. lia.
    + intros i a str q Hi Hq. unfold ps in Hq. apply lookup_take_Some in Hq as [Hq _]. destruct (Hstr i a str q Hi Hq) as (K1 & K2 & K3). apply Hkeep.
      * apply (holds_evolves _ _ _ _ _ _ _ _ _ V3); [|done]. rewrite length_app. cbn [length]. intros w Hw. split; [apply Hm1; unfold in_stack, sp in *; lia|]. lia.
      * rewrite length_app. cbn [length]. intros w Hw. unfold in_stack, sp, stack_base in *. lia.
    + done.
Qed.


Lemma reads_weaken (W W' : Z -> Prop) own pages s a l : (forall v, W' v -> W v) -> reads W own pages s a l -> reads W' own pages s a l.
Proof. intros Hw [Hh Hs]. split; [done|]. intros i Hi. destruct (Hs i Hi) as [?|[? ?]]; [by left|right; auto]. Qed.

Lemma args_weaken (W W' : Z -> Prop) own pages s argv args : (forall v, W' v -> W v) -> args_at W own pages s argv args -> args_at W' own pages s argv args.
Proof.
  intros Hw [Hd Ha]. split; [by apply (reads_weaken W)|]. eapply Forall_impl; [exact Ha|]. intros [a str] (? & ? & ?). split; [done|]. split; [done|]. by apply (reads_weaken W).
Qed.

Lemma rd_range l off n : Forall (fun b => 0 <= b < 256) l -> 0 <= rd l off n < 256 ^ Z.of_nat n.
Proof.
  intros Hl. apply load_le_range. intros x. destruct (l !! Z.to_nat x) as [b|] eqn:E; cbn; [|lia]. by apply (proj1 (Forall_lookup _ _) Hl _ _ E).
Qed.

(** The header of the file, its program headers and the addresses the loader writes. *)
Definition header : list Z := take 64 img.
Definition phnum : nat := Z.to_nat (elf_phnum header).
Definition elf_loads (j : Z) : bool := loads (elf_phoff header) (elf_phentsize header) j.
Definition elf_phdr (j : Z) : list Z := phdr (elf_phoff header) (elf_phentsize header) j.
Definition written (v : Z) : Prop := in_table (elf_phoff header) (elf_phentsize header) phnum 0 v \/ in_stack v.

(** C11: [process_exec] runs a well-formed program.  The file opens, its segments lie
    inside it, above the kernel and below the stack, and do not overlap; the path
    and the arguments are where the loader does not write; frames suffice and the
    strings fit in the stack.  Then [process_exec] returns -1 when, and only when,
    the heap has no room for the pointers to the arguments, and otherwise 0: every
    segment is in memory, the bytes of the file followed by zeros; the stack holds the number of arguments, the pointers to
    copies of their strings and the empty environment; and the saved registers
    start the program at its entry.  The page tables stay well formed and the
    heap is as before.  (Some stack pointers are not multiples of 16.) *)
Theorem process_exec_loads fuel junk own pages (x : exec) tf path name argv args f :
  kernel_end <= stack_base -> space_ok own pages (x_vm x) -> a_wf (x_heap x) ->
  64 <= Z.of_nat (length img) -> elf_magic header = [0x7F; 69; 76; 70] -> table_good (elf_phoff header) (elf_phentsize header) phnum 0 ->
  is_str name -> reads written own pages (x_vm x) path (name ++ [0]) -> (length name < fuel)%nat ->
  fc_open (x_files x) name 0 0 = Some (f, fd) -> 0 <= fd -> fc_at f fd img 0 ->
  (argv = 0 /\ args = [] \/ argv <> 0 /\ args_at written own pages (x_vm x) argv args) ->
  args_size args + 8 * (Z.of_nat (length args) + 3) + 15 <= 4 * 4096 -> (length args < fuel)%nat -> Forall (fun arg => (length arg.2 < fuel)%nat) args ->
  4 * PAGE_SIZE * (need (elf_phoff header) (elf_phentsize header) phnum 0 + 4) <= free_memory (vm_pmm (x_vm x)) ->
  (forall y, tf <= y < tf + sizeof_frame -> plain own pages (x_vm x) y) ->
  exists x' r own' pages', process_exec fuel junk x tf path argv = Some (x', r) /\ space_ok own' pages' (x_vm x') /\
    a_wf (x_heap x') /\ (forall q t, a_live (x_heap x') q t <-> a_live (x_heap x) q t) /\
    (no_heap x args /\ r = -1 \/
     ~ no_heap x args /\ r = 0 /\ x_name x' = take 63 (name ++ replicate 63 0) ++ [0] /\ started (x_vm x') tf (elf_entry header) args /\
       forall j, 0 <= j < Z.of_nat phnum -> elf_loads j = true -> holds (x_vm x') (p_vaddr (elf_phdr j)) (seg_image (elf_phdr j))).
Proof.
  intros Hke Ok Hwf Hlen Hmagic T Hname Hpath Hfn Hopen Hfd Hat Hargs Hroom Hfa Hfs Hfree Hpl.
  assert (Forall (fun b => 0 <= b < 256) header) as Hhb by (by apply Forall_take).
  pose proof (rd_range header 32 8 Hhb) as Hpo. pose proof (rd_range header 54 2 Hhb) as Hpe. pose proof (rd_range header 24 8 Hhb) as Hen.
  fold (elf_phoff header) in Hpo. fold (elf_phentsize header) in Hpe. fold (elf_entry header) in Hen.
  pose proof (need_nonneg (elf_phoff header) (elf_phentsize header) phnum 0 T) as Hnn.
  unfold process_exec. rewrite (vstring_spec (x_vm x) fuel path name Hname (proj1 Hpath) Hfn). cbn [mbind option_bind]. rewrite Hopen. cbn [mbind option_bind with_files x_files].
  rewrite (proj2 (Z.ltb_ge fd 0)) by lia. destruct (fc_read_spec f fd img 0 sizeof_elf_header Hat ltac:(unfold sizeof_elf_header; lia)) as (f1 & -> & Hat1). cbn [mbind option_bind].
  change (take (Z.to_nat sizeof_elf_header) (drop (Z.to_nat 0) img)) with header in *. assert (Z.of_nat (length header) = sizeof_elf_header) as -> by (unfold header, sizeof_elf_header; rewrite length_take; lia).
  rewrite Z.eqb_refl. cbn [negb]. rewrite (bool_decide_eq_true_2 _ Hmagic). cbn [negb]. fold phnum.
  destruct (load_segments_spec (elf_phoff header) (elf_phentsize header) ltac:(lia) ltac:(lia) phnum 0 own pages (with_files (with_files x f) f1) _ ltac:(lia) Ok Hat1 T) as
    (s1 & f2 & own1 & pages1 & pos1 & E1 & Hat2 & V1 & L1 & F1); [cbn [with_files x_vm]; unfold PAGE_SIZE in *; lia|].
  cbn [with_files x_vm x_heap x_name x_files] in *. rewrite E1. cbn [mbind option_bind negb x_files]. destruct (fc_close_spec f2 fd img pos1 Hat2) as (f3 & ->). cbn [mbind option_bind].
  assert (evolves written own pages (x_vm x) own1 pages1 s1) as V1' by (eapply evolves_weaken; [|exact V1]; intros v Hv; by left).
  assert (forall v, in_stack v -> written v) as Hw by (intros v Hv; by right).
  destruct (start_program_spec fuel junk own1 pages1 (with_files (EXEC s1 f2 (x_heap x) (x_name x)) f3) tf path name argv args (elf_entry header)) as
    (x' & r & own2 & pages2 & E2 & Hwf2 & Hlive2 & Ok2 & Hk2 & Hr); cbn [with_files x_vm x_heap x_name x_files] in *.
  { done. } { apply V1. } { done. } { unfold PAGE_SIZE in *; lia. } { done. } { apply (reads_weaken written); [done|]. by apply (reads_evolves _ _ _ _ _ _ _ _ _ V1'). }
  { destruct Hargs as [?|[? Ha]]; [by left|right]. split; [done|]. apply (args_weaken written); [done|]. by apply (args_evolves _ _ _ _ _ _ _ _ _ V1'). }
  { done. } { done. } { done. } { done. } { intros y Hy. by apply (ev_plain _ _ _ _ _ _ _ _ V1), Hpl. }
  exists x', r, own2, pages2. split; [done|]. split; [done|]. split; [done|]. split; [done|]. destruct Hr as [?|(Hno & -> & Hn & Hst)]; [by left|right].
  split; [done|]. split; [done|]. split; [done|]. split; [done|]. intros j Hj El. destruct (L1 j ltac:(lia) El) as [Hm Hh]. pose proof (tg_seg _ _ _ _ T j ltac:(lia) El) as Hseg.
  intros i b Hb. pose proof (lookup_lt_Some _ _ _ Hb) as Hi. unfold elf_phdr in Hi. pose proof (seg_image_length _ Hseg). pose proof (sg_high _ Hseg).
  rewrite <- (Hh i b Hb). apply Hk2; [apply Hm; unfold in_seg; lia|unfold in_stack; lia].
Qed.

End exec.
(** ** Files of the RAM file system

    The calls of [Vfs] on a descriptor open on a file of [Ramfs] keep what the
    loader relies on.  [buf] is the buffer the bytes are read into. *)
Section ram.
Context {A R : Type} `{Allocator A}.
Context (dentry_hashtable vfsmount_list : Z) (iops : Z -> Vfs.inode_operations (A := A) (R := R)) (fops : Z -> Vfs.file_operations (A := A) (R := R)).
Context (fuel : nat) (ramfs_file_ops buf : Z).
Hypothesis ops_pos : ramfs_file_ops <> 0.
Hypothesis ops_ram : fops ramfs_file_ops = Ramfs.ramfs_file_operations.

Record open_at (s : Vfs.vfs (A := A) (R := R)) (fd : Z) (l : list Z) (pos : Z) : Prop := {
  oa_file : Vfs.file_of s fd <> 0;
  oa_ops : Vfs.vget s (Vfs.file_of s fd) Vfs.f_op = ramfs_file_ops;
  oa_heap : a_wf (Vfs.v_heap s) /\ exists t, a_live (Vfs.v_heap s) (Vfs.file_of s fd) t;
  oa_mem : mem_ok (Vfs.v_mem s);
  oa_ram : Ramfs.ram_file s (Vfs.file_of s fd) l;
  oa_pos : Vfs.vget s (Vfs.file_of s fd) Vfs.f_pos = pos /\ 0 <= pos < 2 ^ 63;
  oa_buf : Ramfs.apart buf (2 ^ 31) (Ramfs.data_of s (Vfs.file_of s fd)) (Ramfs.cap_of s (Vfs.file_of s fd))
}.

Definition ram_read (s : Vfs.vfs (A := A) (R := R)) (fd count : Z) : option (Vfs.vfs (A := A) (R := R) * list Z * Z) :=
  '(s, r) ← Vfs.vfs_read fops s fd buf count; Some (s, bytes_at (Vfs.v_mem s) buf (Z.to_nat r), r).

(** A change of the position only. *)
Lemma open_at_pos (s s' : Vfs.vfs (A := A) (R := R)) fd l pos pos' :
  open_at s fd l pos -> Vfs.v_sched s' = Vfs.v_sched s -> Vfs.v_heap s' = Vfs.v_heap s -> mem_ok (Vfs.v_mem s') ->
  (forall x f, f <> Vfs.f_pos -> Vfs.vget s' x f = Vfs.vget s x f) -> Ramfs.ram_file s' (Vfs.file_of s fd) l ->
  Vfs.vget s' (Vfs.file_of s fd) Vfs.f_pos = pos' -> 0 <= pos' < 2 ^ 63 -> open_at s' fd l pos'.
Proof.
  intros [O1 O2 O3 O4 O5 O6 O7] Es Eh Hm Hv Hr Hp Hb. rewrite <- (Ramfs.file_of_sched s s' fd Es) in *. split; try done.
  - by rewrite Hv.
  - by rewrite Eh.
  - unfold Ramfs.data_of, Ramfs.cap_of, Ramfs.info_of, Ramfs.inode_of, Ramfs.get_ramfs_inode in *. by rewrite !Hv by done.
Qed.

Lemma ram_read_spec s fd l pos count :
  open_at s fd l pos -> 0 <= count < 2 ^ 31 ->
  let d := take (Z.to_nat count) (drop (Z.to_nat pos) l) in
  exists s', ram_read s fd count = Some (s', d, Z.of_nat (length d)) /\ open_at s' fd l (pos + Z.of_nat (length d)).
Proof.
  intros O Hc d. pose proof O as [O1 O2 O3 O4 O5 [O6 O6b] O7]. unfold ram_read, Vfs.vfs_read. rewrite (proj2 (Z.eqb_neq _ _) O1), O2, (proj2 (Z.eqb_neq _ _) ops_pos), ops_ram. cbn [Vfs.read Ramfs.ramfs_file_operations].
  assert (Ramfs.apart buf count (Ramfs.data_of s (Vfs.file_of s fd)) (Ramfs.cap_of s (Vfs.file_of s fd))) as Hap by (unfold Ramfs.apart in *; lia).
  destruct (Ramfs.read_spec s (Vfs.file_of s fd) l buf count O4 O5 Hc ltac:(lia) Hap) as (s' & -> & R1 & R2 & R3 & R4 & _ & R5 & R6 & R7). rewrite O6 in R3, R4. fold d in R3, R4.
  cbn [mbind option_bind]. rewrite O6. fold d. rewrite Nat2Z.id, R4. exists s'. split; [done|]. apply (open_at_pos s s' fd l pos); [done|done|done|done|done|done|done|].
  pose proof O5 as (_ & _ & _ & _ & Hcap & _). split; [lia|]. assert (length d <= length l - Z.to_nat pos)%nat by (unfold d; rewrite length_take, length_drop; lia). lia.
Qed.

Lemma ram_seek_spec s fd l pos off :
  open_at s fd l pos -> 0 <= off < 2 ^ 31 -> exists s', Vfs.vfs_lseek fops s fd off 0 = Some (s', off) /\ open_at s' fd l off.
Proof.
  intros O Hoff. pose proof O as [O1 O2 O3 O4 O5 _ _]. unfold Vfs.vfs_lseek. rewrite (proj2 (Z.eqb_neq _ _) O1). cbn [Vfs.seek_pos Z.eqb Vfs.SEEK_SET mbind option_bind].
  rewrite (proj2 (Z.ltb_ge off 0)) by lia. set (s' := Vfs.vset s _ _ _).
  assert (forall x f, f <> Vfs.f_pos -> Vfs.vget s' x f = Vfs.vget s x f) as Hv by (intros x f Hx; unfold s', Vfs.vget, Vfs.vset; cbn; by rewrite Store.wr_other by (by right)).
  rewrite Hv by done. rewrite O2, (proj2 (Z.eqb_neq _ _) ops_pos), ops_ram. cbn [Vfs.llseek Ramfs.ramfs_file_operations]. exists s'. split; [done|].
  apply (open_at_pos s s' fd l pos); [done|done|done|done|done| | |lia].
  - unfold Ramfs.ram_file, Ramfs.data_of, Ramfs.cap_of, Ramfs.info_of, Ramfs.inode_of, Ramfs.get_ramfs_inode in *. by rewrite !Hv by done.
  - unfold s', Vfs.vget, Vfs.vset. cbn. by rewrite Store.wr_same.
Qed.

Lemma ram_close_spec s fd l pos : open_at s fd l pos -> exists s', Vfs.vfs_close fops s fd = Some (s', 0).
Proof.
  intros [O1 O2 [O3 [t O3t]] _ _ _ _]. unfold Vfs.vfs_close. rewrite (proj2 (Z.eqb_neq _ _) O1). set (s1 := Vfs.fd_set s fd 0). change (Vfs.vget s1 ?x ?y) with (Vfs.vget s x y).
  rewrite O2, (proj2 (Z.eqb_neq _ _) ops_pos), ops_ram. cbn [negb Vfs.release Ramfs.ramfs_file_operations mbind option_bind]. case_if; [|eauto].
  destruct (a_free_spec (Vfs.v_heap s) _ t O3 O3t) as (h & Eh & _). change (Vfs.v_heap (Vfs.vset s1 _ _ _)) with (Vfs.v_heap s). rewrite Eh. cbn [mbind option_bind]. eauto.
Qed.

#[export] Instance ram_files : FileCalls (Vfs.vfs (A := A) (R := R)) := {
  fc_open := Vfs.vfs_open dentry_hashtable vfsmount_list iops fops fuel;
  fc_read := ram_read;
  fc_lseek := Vfs.vfs_lseek fops;
  fc_close := Vfs.vfs_close fops;
  fc_at := open_at;
  fc_read_spec := ram_read_spec;
  fc_seek_spec := ram_seek_spec;
  fc_close_spec := ram_close_spec
}.

End ram.

(** ** A small program

    One open file, its contents and position; a page table with an empty root in
    frame 1 of 64; the path and the arguments in the kernel's memory above the
    frames; the saved registers at address 0, where every process of the kernel
    has them, in the reserved frame 0. *)

#[local] Existing Instance Heap.heap_allocator.

#[export] Instance one_file : FileCalls (list Z * Z).
Proof.
  refine {| fc_open := fun f _ _ _ => Some (f, 3); fc_read := fun f _ n => let d := take (Z.to_nat n) (drop (Z.to_nat f.2) f.1) in Some ((f.1, f.2 + Z.of_nat (length d)), d, Z.of_nat (length d));
    fc_lseek := fun f _ off _ => Some ((f.1, off), off); fc_close := fun f _ => Some (f, 0); fc_at := fun f _ l pos => f = (l, pos) |}.
  - intros f fd l pos count -> _. eexists. done.
  - intros f fd l pos off -> _. eexists. done.
  - eauto.
Defined.

Definition demo_elf : list Z :=
  [0x7F; 69; 76; 70] ++ replicate 20 0 ++ le8 0x40000000 ++ le8 64 ++ replicate 14 0 ++ [56; 0; 1; 0] ++ replicate 6 0 ++
  [1; 0; 0; 0; 0; 0; 0; 0] ++ le8 120 ++ le8 0x40000000 ++ le8 0 ++ le8 4 ++ le8 8 ++ le8 0 ++ [1; 2; 3; 4].

Definition demo_kernel : list Z := [47; 105; 0; 0; 0; 0; 0; 0] ++ le8 0x100018 ++ le8 0 ++ [104; 105; 0].

Definition demo_vm : vmm :=
  VMM (PMM (fun x => if x =? 0x800 then 3 else if x <? 0x100000 then 0 else default 0 (demo_kernel !! Z.to_nat (x - 0x100000))) 0x800 64 8 0x40000 (62 * PAGE_SIZE) 0) 0x1000 0.

Definition demo_exec : exec (F := list Z * Z) (A := Spinlock.cpu * Heap.heap) := EXEC demo_vm (demo_elf, 0) (Vfs.v_heap Vfs.demo_vfs) [].

Lemma demo_vm_entry i : 0 <= i < 512 -> entry (pm_mem (vm_pmm demo_vm)) 0x1000 i = 0.
Proof.
  intros Hi. unfold entry. rewrite (load64_ext _ (fun _ => 0)); [reflexivity|]. intros x Hx. cbn. rewrite (proj2 (Z.eqb_neq x 0x800)), (proj2 (Z.ltb_lt x 0x100000)) by lia. done.
Qed.

Lemma demo_vm_ok : vm_ok {[0x1000 := []]} demo_vm.
Proof.
  split; [|by rewrite lookup_singleton_eq]. split.
  - vm_compute. repeat split; discriminate.
  - reflexivity.
  - reflexivity.
  - intros x. cbn [demo_vm vm_pmm pm_mem]. case_if; [lia|]. case_if; [lia|]. destruct (demo_kernel !! Z.to_nat (x - 0x100000)) as [b|] eqn:El; cbn [default from_option]; [|cbn; lia].
    assert (Forall (fun b => 0 <= b < 256) demo_kernel) as Hk by (apply (bool_decide_unpack _); vm_compute; exact I). by apply (proj1 (Forall_lookup _ _) Hk _ _ El).
  - intros f Hf H1 H2. cbn in *. unfold PAGE_SIZE in *. change (64 / 8) with 8 in H2. assert (f = 0) as -> by lia. reflexivity.
  - intros t l Hl. apply lookup_singleton_Some in Hl as [<- <-]. exists 1. cbn. split; [reflexivity|]. split; [lia|]. split; [reflexivity|]. right. reflexivity.
  - intros t l i Hl Hlen Hi. apply lookup_singleton_Some in Hl as [<- <-]. rewrite demo_vm_entry by done. discriminate.
Qed.

Lemma demo_space : space_ok 0x200000 {[0x1000 := []]} ∅ demo_vm.
Proof.
  split; [exact demo_vm_ok| | |intros q f Hq; by rewrite lookup_empty in Hq|intros q r f Hq; by rewrite lookup_empty in Hq].
  - intros v _. unfold vm_small, path. rewrite small_path_cons. change (current_pml4 demo_vm) with 0x1000. rewrite demo_vm_entry by (apply index_range; lia). discriminate.
  - intros v _. rewrite lookup_empty, get_phys_pte, get_pte_lookup. unfold path. rewrite lookup_pte_cons. change (current_pml4 demo_vm) with 0x1000. rewrite demo_vm_entry by (apply index_range; lia). reflexivity.
Qed.

Lemma demo_plain x : 0x100000 <= x -> plain {[0x1000 := []]} ∅ demo_vm x.
Proof.
  intros Hx. split.
  - right. change (0x800 + 8 < x). lia.
  - intros f Hf Hin. cbn in Hf. unfold PAGE_SIZE in Hin. lia.
  - intros t [l Hl]. apply lookup_singleton_Some in Hl as [<- _]. unfold PAGE_SIZE. lia.
  - intros q f Hq. by rewrite lookup_empty in Hq.
Qed.

Lemma demo_frame_plain x : 0 <= x < 0x800 -> plain {[0x1000 := []]} ∅ demo_vm x.
Proof.
  intros Hx. split.
  - left. change (x < 0x800). lia.
  - intros f Hf Hin. unfold PAGE_SIZE in Hin. assert (f = 0) as -> by lia. reflexivity.
  - intros t [l Hl]. apply lookup_singleton_Some in Hl as [<- _]. unfold PAGE_SIZE. lia.
  - intros q f Hq. by rewrite lookup_empty in Hq.
Qed.

Lemma demo_has_heap : ~ no_heap demo_exec [(0x100018, [104; 105])].
Proof.
  apply (has_room (x_heap demo_exec) 16 0x10A8); [vm_compute; reflexivity|lia].
Qed.

Lemma demo_reads W k n l :
  take n (drop k demo_kernel) = l -> (k + n <= 27)%nat -> length l = n -> reads 0x200000 W {[0x1000 := []]} ∅ demo_vm (0x100000 + Z.of_nat k) l.
Proof.
  intros El Hk Hn. split.
  - intros i b Hb. assert (i < n)%nat by (rewrite <- Hn; by apply lookup_lt_Some in Hb). rewrite <- El, lookup_take_lt, lookup_drop in Hb by done. unfold UserSpace.vload, va.
    rewrite (proj2 (Z.ltb_lt _ 0x200000)) by lia. rewrite (proj2 (Z.eqb_neq _ 0)) by lia. cbn [demo_vm vm_pmm pm_mem load8]. f_equal. unfold load8.
    rewrite (proj2 (Z.eqb_neq _ 0x800)), (proj2 (Z.ltb_ge _ 0x100000)) by lia. replace (Z.to_nat _) with (k + i)%nat by lia. by rewrite Hb.
  - intros i Hi. left. split; [lia|]. apply demo_plain. lia.
Qed.

Lemma demo_table_good : table_good 0x200000 demo_elf 64 56 1 0.
Proof.
  split.
  - intros j Hj. assert (j = 0) as -> by lia. vm_compute. discriminate.
  - intros j Hj _. assert (j = 0) as -> by lia. split; vm_compute; repeat split; discriminate.
  - intros j k v Hj Hk. lia.
Qed.

Lemma process_exec_loads_witness :
  exists x', process_exec 0x200000 10 7 demo_exec 0 0x100000 0x100008 = Some (x', 0) /\
    holds 0x200000 (x_vm x') 0x40000000 [1; 2; 3; 4; 0; 0; 0; 0] /\
    started 0x200000 (x_vm x') 0 0x40000000 [(0x100018, [104; 105])].
Proof.
  destruct (process_exec_loads 0x200000 ltac:(lia) eq_refl demo_elf 3 ltac:(apply (bool_decide_unpack _); vm_compute; exact I) ltac:(vm_compute; reflexivity) 10 7 {[0x1000 := []]} ∅ demo_exec
    0 0x100000 [47; 105] 0x100008 [(0x100018, [104; 105])] (demo_elf, 0)) as (x' & r & own' & pages' & E & _ & _ & _ & Hr).
  - unfold stack_base, stack_top. lia.
  - exact demo_space.
  - exact Vfs.demo_vfs_heap.
  - vm_compute. discriminate.
  - reflexivity.
  - exact demo_table_good.
  - repeat constructor; lia.
  - apply (demo_reads _ 0 3); [reflexivity|lia|reflexivity].
  - cbn. lia.
  - reflexivity.
  - lia.
  - reflexivity.
  - right. split; [lia|]. split; [apply (demo_reads _ 8 16); [reflexivity|lia|reflexivity]|]. constructor; [|constructor]. split; [lia|]. split; [repeat constructor; lia|]. apply (demo_reads _ 24 3); [reflexivity|lia|reflexivity].
  - vm_compute. discriminate.
  - cbn. lia.
  - repeat constructor.
  - vm_compute. discriminate.
  - intros y Hy. apply demo_frame_plain. unfold sizeof_frame in Hy. lia.
  - destruct Hr as [[Hno _]|(_ & -> & _ & Hst & Hs)]; [by destruct demo_has_heap|].
    exists x'. split; [exact E|]. split; [|exact Hst]. exact (Hs 0 ltac:(vm_compute; split; [discriminate|reflexivity]) eq_refl).
Defined.

End Exec.
