(* ===== verification/Syscall.v ===== *)
(** * System calls (src/kernel/syscall/syscall.c)

    The table of handlers and the entry from the interrupt stub.  The calls the
    wrappers forward to are modelled in their own files, each on its own part of
    the kernel's state; here they are the fields of [targets], functions on the
    whole state [S], and what is modelled is the dispatch: which wrapper a number
    reaches, how arguments and results are converted, and what happens around it. *)
From S2P Require Import Prelude Memory Store.

Module Syscall.

Definition MAX_SYSCALLS : Z := 256.

(** The wrappers; [sys_unknown_wrapper] gets the number itself. *)
Inductive syscall_handler_t :=
| sys_yield_wrapper | sys_exit_wrapper | sys_print_wrapper | sys_fork_wrapper | sys_exec_wrapper | sys_wait_wrapper | sys_pipe_wrapper
| sys_read_wrapper | sys_write_wrapper | sys_close_wrapper | sys_dup_wrapper | sys_open_wrapper | sys_init_module_wrapper
| sys_delete_module_wrapper | sys_getpid_wrapper | sys_sleep_wrapper | sys_chdir_wrapper | sys_getcwd_wrapper | sys_lseek_wrapper
| sys_kill_wrapper | sys_reboot_wrapper | sys_unknown_wrapper.

#[export] Instance handler_eq : EqDecision syscall_handler_t.
Proof. solve_decision. Defined.

(** syscall.h *)
Definition SYS_YIELD : Z := 0.
Definition SYS_EXIT : Z := 1.
Definition SYS_PRINT : Z := 2.
Definition SYS_FORK : Z := 3.
Definition SYS_EXEC : Z := 4.
Definition SYS_WAIT : Z := 5.
Definition SYS_PIPE : Z := 6.
Definition SYS_READ : Z := 7.
Definition SYS_WRITE : Z := 8.
Definition SYS_CLOSE : Z := 9.
Definition SYS_DUP : Z := 10.
Definition SYS_OPEN : Z := 11.
Definition SYS_INIT_MODULE : Z := 12.
Definition SYS_DELETE_MODULE : Z := 13.
Definition SYS_GETPID : Z := 14.
Definition SYS_SLEEP : Z := 15.
Definition SYS_CHDIR : Z := 16.
Definition SYS_GETCWD : Z := 17.
Definition SYS_LSEEK : Z := 18.
Definition SYS_KILL : Z := 19.
Definition SYS_REBOOT : Z := 20.

(** [struct interrupt_frame] *)
Definition frame_rsi (frame : Z) : Z := frame + 80.
Definition frame_rdx (frame : Z) : Z := frame + 88.
Definition frame_rcx (frame : Z) : Z := frame + 96.
Definition frame_rax (frame : Z) : Z := frame + 112.

Definition syscall_init : Z -> syscall_handler_t :=
  let t := for_up (Z.to_nat MAX_SYSCALLS) 0 (fun i t => fupd t i sys_unknown_wrapper) (fun _ => sys_unknown_wrapper) in
  let t := fupd t SYS_YIELD sys_yield_wrapper in
  let t := fupd t SYS_EXIT sys_exit_wrapper in
  let t := fupd t SYS_PRINT sys_print_wrapper in
  let t := fupd t SYS_FORK sys_fork_wrapper in
  let t := fupd t SYS_EXEC sys_exec_wrapper in
  let t := fupd t SYS_WAIT sys_wait_wrapper in
  let t := fupd t SYS_PIPE sys_pipe_wrapper in
  let t := fupd t SYS_READ sys_read_wrapper in
  let t := fupd t SYS_WRITE sys_write_wrapper in
  let t := fupd t SYS_CLOSE sys_close_wrapper in
  let t := fupd t SYS_DUP sys_dup_wrapper in
  let t := fupd t SYS_OPEN sys_open_wrapper in
  let t := fupd t SYS_INIT_MODULE sys_init_module_wrapper in
  let t := fupd t SYS_DELETE_MODULE sys_delete_module_wrapper in
  let t := fupd t SYS_GETPID sys_getpid_wrapper in
  let t := fupd t SYS_SLEEP sys_sleep_wrapper in
  let t := fupd t SYS_CHDIR sys_chdir_wrapper in
  let t := fupd t SYS_GETCWD sys_getcwd_wrapper in
  let t := fupd t SYS_LSEEK sys_lseek_wrapper in
  let t := fupd t SYS_KILL sys_kill_wrapper in
  fupd t SYS_REBOOT sys_reboot_wrapper.

Section syscall.
Context {S : Type}.

(** The kernel functions behind the wrappers, and the memory the frame is in. *)
Record targets := TARGETS {
  k_mem : S -> mem;
  with_kmem : S -> mem -> S;
  process_yield : S -> option S;
  process_exit : S -> Z -> option S;
  kprint_str : S -> Z -> option S;
  process_fork : S -> option (S * Z);
  process_exec : S -> Z -> Z -> option (S * Z);
  process_wait : S -> Z -> Z -> option (S * Z);
  pipe_create : S -> Z -> option (S * Z);
  vfs_read : S -> Z -> Z -> Z -> option (S * Z);
  vfs_write : S -> Z -> Z -> Z -> option (S * Z);
  vfs_close : S -> Z -> option (S * Z);
  vfs_dup : S -> Z -> option (S * Z);
  vfs_open : S -> Z -> Z -> Z -> option (S * Z);
  sys_init_module : S -> Z -> Z -> Z -> option (S * Z);
  sys_delete_module : S -> Z -> Z -> option (S * Z);
  current_pid : S -> option Z;
  process_sleep : S -> Z -> option S;
  vfs_chdir : S -> Z -> option (S * Z);
  vfs_getcwd : S -> Z -> Z -> option (S * Z);
  vfs_lseek : S -> Z -> Z -> Z -> option (S * Z);
  sys_kill : S -> Z -> Z -> option (S * Z);
  reset_cpu : S -> option S;
  seccomp_check_syscall : S -> Z -> option (S * Z);
  handle_pending_signals : S -> Z -> option S
}.

Context (k : targets).

(** The results are converted to [uint64_t]. *)
Definition returns (r : option (S * Z)) : option (S * Z) := '(s, v) ← r; Some (s, u64 v).
Definition returns0 (r : option S) : option (S * Z) := s ← r; Some (s, 0).

(** The body of a wrapper; [int] parameters take the low 32 bits. *)
Definition call (h : syscall_handler_t) (s : S) (a1 a2 a3 : Z) : option (S * Z) :=
  match h with
  | sys_yield_wrapper => returns0 (process_yield k s)
  | sys_exit_wrapper => returns0 (process_exit k s (s32 a1))
  | sys_print_wrapper => returns0 (kprint_str k s a1)
  | sys_fork_wrapper => returns (process_fork k s)
  | sys_exec_wrapper => returns (process_exec k s a1 a2)
  | sys_wait_wrapper => returns (process_wait k s (s32 a1) a2)
  | sys_pipe_wrapper => returns (pipe_create k s a1)
  | sys_read_wrapper => returns (vfs_read k s (s32 a1) a2 (s32 a3))
  | sys_write_wrapper => returns (vfs_write k s (s32 a1) a2 (s32 a3))
  | sys_close_wrapper => returns (vfs_close k s (s32 a1))
  | sys_dup_wrapper => returns (vfs_dup k s (s32 a1))
  | sys_open_wrapper => returns (vfs_open k s a1 (s32 a2) (s32 a3))
  | sys_init_module_wrapper => returns (sys_init_module k s a1 a2 a3)
  | sys_delete_module_wrapper => returns (sys_delete_module k s a1 (u32 a2))
  | sys_getpid_wrapper => Some (s, match current_pid k s with Some p => p | None => u64 (-1) end)
  | sys_sleep_wrapper => returns0 (process_sleep k s (s32 a1))
  | sys_chdir_wrapper => returns (vfs_chdir k s a1)
  | sys_getcwd_wrapper => returns (vfs_getcwd k s a1 a2)
  | sys_lseek_wrapper => returns (vfs_lseek k s (s32 a1) (s32 a2) (s32 a3))
  | sys_kill_wrapper => returns (sys_kill k s (s32 a1) (s32 a2))
  | sys_reboot_wrapper => returns0 (reset_cpu k s)
  | sys_unknown_wrapper => Some (s, u64 (-1))
  end.

Definition set_rax (s : S) (frame v : Z) : S := with_kmem k s (store64 (k_mem k s) (frame_rax frame) v).

Definition syscall_handler (table : Z -> syscall_handler_t) (s : S) (frame : Z) : option S :=
  let syscall_num := load64 (k_mem k s) (frame_rax frame) in
  '(s, refused) ← seccomp_check_syscall k s (s32 syscall_num);
  if negb (refused =? 0) then Some (set_rax s frame (u64 (-1)))
  else
    let m := k_mem k s in
    '(s, r) ← (if syscall_num <? MAX_SYSCALLS
               then call (table syscall_num) s (load64 m (frame_rsi frame)) (load64 m (frame_rdx frame)) (load64 m (frame_rcx frame))
               else call sys_unknown_wrapper s syscall_num 0 0);
    handle_pending_signals k (set_rax s frame r) frame.

(** ** The numbers and their wrappers *)

Definition calls : list syscall_handler_t :=
  [sys_yield_wrapper; sys_exit_wrapper; sys_print_wrapper; sys_fork_wrapper; sys_exec_wrapper; sys_wait_wrapper; sys_pipe_wrapper; sys_read_wrapper;
   sys_write_wrapper; sys_close_wrapper; sys_dup_wrapper; sys_open_wrapper; sys_init_module_wrapper; sys_delete_module_wrapper; sys_getpid_wrapper;
   sys_sleep_wrapper; sys_chdir_wrapper; sys_getcwd_wrapper; sys_lseek_wrapper; sys_kill_wrapper; sys_reboot_wrapper].

Definition handler_of (n : Z) : syscall_handler_t := default sys_unknown_wrapper (calls !! Z.to_nat n).

Lemma table_entries n : 0 <= n < MAX_SYSCALLS -> syscall_init n = handler_of n.
Proof.
  intros Hn. assert (Forall (fun i => syscall_init (Z.of_nat i) = handler_of (Z.of_nat i)) (seq 0 256)) as Hall by (apply (bool_decide_unpack _); vm_compute; exact I).
  unfold MAX_SYSCALLS in Hn. rewrite Forall_seq in Hall. specialize (Hall (Z.to_nat n) ltac:(lia)). by rewrite Z2Nat.id in Hall by lia.
Qed.

(** A system call runs the wrapper of its number.  When the filters let it
    pass, the number in [rax] below 21 reaches the function of its name with the
    values of [rsi], [rdx] and [rcx], every other number gives -1 with no other
    effect; the result is in [rax] before pending signals are handled.  A
    refused call gives -1, and its pending signals are not handled. *)
Theorem syscall_dispatch s s1 frame n refused :
  (forall s m, k_mem k (with_kmem k s m) = m) -> mem_ok (k_mem k s) -> load64 (k_mem k s) (frame_rax frame) = n ->
  seccomp_check_syscall k s (s32 n) = Some (s1, refused) ->
  let m := k_mem k s1 in
  let h := if n <? MAX_SYSCALLS then handler_of n else sys_unknown_wrapper in
  syscall_handler syscall_init s frame =
    (if refused =? 0 then
       '(s, r) ← call h s1 (load64 m (frame_rsi frame)) (load64 m (frame_rdx frame)) (load64 m (frame_rcx frame));
       handle_pending_signals k (set_rax s frame r) frame
     else Some (set_rax s1 frame (u64 (-1)))) /\
  (21 <= n -> h = sys_unknown_wrapper) /\ (forall s r, 0 <= r < 2 ^ 64 -> load64 (k_mem k (set_rax s frame r)) (frame_rax frame) = r).
Proof.
  intros Hmem Hok Hn Hsec m h. assert (0 <= n < 2 ^ 64) as Hr by (rewrite <- Hn; apply (load_le_range _ _ 8 Hok)). split; [|split].
  - unfold syscall_handler. rewrite Hn, Hsec. cbn [mbind option_bind]. destruct (refused =? 0); [|done]. cbn [negb]. unfold h.
    destruct (Z.ltb_spec n MAX_SYSCALLS); [by rewrite table_entries by lia|done].
  - intros Hge. unfold h. destruct (n <? MAX_SYSCALLS); [|done]. unfold handler_of. by rewrite lookup_ge_None_2 by (cbn; lia).
  - intros s' r Hrr. unfold set_rax. rewrite Hmem. by apply load64_store64_same.
Qed.

End syscall.

(** ** A kernel with a recording [getpid] *)

Definition demo_targets : targets (S := mem) :=
  TARGETS (fun m => m) (fun _ m => m) Some (fun m _ => Some m) (fun m _ => Some m) (fun m => Some (m, 5)) (fun m _ _ => Some (m, 0)) (fun m _ _ => Some (m, 0))
    (fun m _ => Some (m, 0)) (fun m _ _ _ => Some (m, 0)) (fun m _ _ _ => Some (m, 0)) (fun m _ => Some (m, 0)) (fun m _ => Some (m, 0)) (fun m _ _ _ => Some (m, 0))
    (fun m _ _ _ => Some (m, 0)) (fun m _ _ => Some (m, 0)) (fun _ => Some 42) (fun m _ => Some m) (fun m _ => Some (m, 0)) (fun m _ _ => Some (m, 0))
    (fun m _ _ _ => Some (m, 0)) (fun m _ _ => Some (m, 0)) Some (fun m _ => Some (m, 0)) (fun m _ => Some m).

Lemma syscall_dispatch_witness :
  exists m', syscall_handler demo_targets syscall_init (fun x => if x =? 0x1070 then 14 else 0) 0x1000 = Some m' /\ load64 m' 0x1070 = 42.
Proof.
  destruct (syscall_dispatch demo_targets (fun x => if x =? 0x1070 then 14 else 0) (fun x => if x =? 0x1070 then 14 else 0) 0x1000 14 0) as (E & _ & Hr).
  - reflexivity.
  - intros x. cbn. case_if; lia.
  - reflexivity.
  - reflexivity.
  - eexists. split; [exact E|]. exact (Hr _ 42 ltac:(lia)).
Defined.

End Syscall.
