(* ===== verification/Console.v ===== *)
(** * The console (src/kernel/console.c)

    The text screen of 25 lines of 80 cells, its cursor and the copy sent to the
    serial port.  The contract is a page of unbounded length of which the screen
    shows the last 25 lines reached; numbers are printed so that they read back. *)
From S2P Require Import Prelude.

Module Console.

(** ** Definitions *)

(** [sent] is what went to the serial port, oldest first. *)
Record console := CONSOLE { video_memory : Z -> Z; cursor_x : Z; cursor_y : Z; sent : list Z }.

Definition blank : Z := 32 .| (0x0f .<< 8).
Definition with_video (s : console) (v : Z -> Z) : console := CONSOLE v (cursor_x s) (cursor_y s) (sent s).
Definition with_cursor (s : console) (x y : Z) : console := CONSOLE (video_memory s) x y (sent s).
Definition vput (v : Z -> Z) (i c : Z) : Z -> Z := fun j => if j =? i then c else v j.

(** The [char] is converted to the byte that [outb] takes.  The poll of the line
    status register before it only delays the byte; the state is the one once the
    transmitter is ready. *)
Definition serial_putc (s : console) (c : Z) : console := CONSOLE (video_memory s) (cursor_x s) (cursor_y s) (sent s ++ [u8 c]).

Definition kprint_clear (s : console) : console :=
  with_cursor (with_video s (for_up (80 * 25) 0 (fun i v => vput v i blank) (video_memory s))) 0 0.

Definition scroll (s : console) : console :=
  if 25 <=? cursor_y s then
    let v := for_up (80 * 24) 0 (fun i v => vput v i (v (i + 80))) (video_memory s) in
    let v := for_up 80 (80 * 24) (fun i v => vput v i blank) v in
    with_cursor (with_video s v) (cursor_x s) 24
  else s.

(** [c] is a [char], -128 to 127. *)
Definition kprint_putc (s : console) (c : Z) : console :=
  let s := serial_putc s c in
  let x := cursor_x s in
  let y := cursor_y s in
  scroll
    (if c =? 10 then with_cursor s 0 (y + 1)
     else if c =? 8 then
       if 0 <? x then with_cursor s (x - 1) y else if 0 <? y then with_cursor s 79 (y - 1) else s
     else
       let s := with_video s (vput (video_memory s) (y * 80 + x) (u16 (c .| (0x0f .<< 8)))) in
       if 80 <=? x + 1 then with_cursor s 0 (y + 1) else with_cursor s (x + 1) y).

Definition kprint_str (s : console) (str : list Z) : console := foldl kprint_putc s str.

Definition hex_digit (nibble : Z) : Z := if nibble <? 10 then 48 + nibble else 65 + nibble - 10.

(** [for (i = 15; i >= 0; i--)] *)
Definition kprint_hex (s : console) (value : Z) : console :=
  let s := kprint_str s [48; 120] in
  for_up 16 0 (fun k s => kprint_putc s (hex_digit ((value .>> ((15 - k) * 4)) .& 0xF))) s.

Definition kprint_hex_byte (s : console) (value : Z) : console :=
  let s := kprint_putc s (hex_digit ((value .>> 4) .& 0xF)) in
  kprint_putc s (hex_digit (value .& 0xF)).

(** The buffer of [kprint_dec], the last digit first; a [uint64_t] has at most 20. *)
Definition digit_step : Z * list Z -> Z * list Z + list Z :=
  fun '(value, buffer) => if 0 <? value then inl (value / 10, buffer ++ [value mod 10 + 48]) else inr buffer.

Definition kprint_dec (s : console) (value : Z) : option console :=
  if value =? 0 then Some (kprint_putc s 48)
  else buffer ← loop 21 digit_step (value, []); Some (foldl kprint_putc s (rev buffer)).

Definition kprint_newline (s : console) : console := kprint_putc s 10.

(** ** The screen *)

Definition con_ok (s : console) : Prop := 0 <= cursor_x s < 80 /\ 0 <= cursor_y s < 25.

(** A page: cells by position, 80 to a line; the line and column of the cursor;
    the first line on the screen. *)
Record page := PAGE { cells : Z -> Z; line : Z; column : Z; top : Z }.

Definition type_char (p : page) (c : Z) : page :=
  let p :=
    if c =? 10 then PAGE (cells p) (line p + 1) 0 (top p)
    else if c =? 8 then
      if 0 <? column p then PAGE (cells p) (line p) (column p - 1) (top p)
      else if top p <? line p then PAGE (cells p) (line p - 1) 79 (top p) else p
    else
      let w := vput (cells p) (line p * 80 + column p) (u16 (c .| 0xF00)) in
      if column p =? 79 then PAGE w (line p + 1) 0 (top p) else PAGE w (line p) (column p + 1) (top p) in
  PAGE (cells p) (line p) (column p) (Z.max (top p) (line p - 24)).

(** The cells agree; the cursor may be one line below the screen. *)
Record aligned (s : console) (p : page) : Prop := {
  al_cell i : 0 <= i < 2000 -> video_memory s i = cells p (top p * 80 + i);
  al_fresh i : (top p + 25) * 80 <= i -> cells p i = blank;
  al_line : line p = top p + cursor_y s;
  al_column : column p = cursor_x s;
  al_cursor : 0 <= cursor_x s < 80 /\ 0 <= cursor_y s <= 25
}.

Definition shows (s : console) (p : page) : Prop := aligned s p /\ con_ok s.

Lemma screen_fill_spec c n : forall i v j, for_up n i (fun i v => vput v i c) v j = if decide (i <= j < i + Z.of_nat n) then c else v j.
Proof.
  induction n as [|n IH]; intros i v j; [by rewrite decide_False by lia|]. cbn [for_up]. rewrite IH. unfold vput.
  destruct (Z.eqb_spec j i); repeat case_decide; done || lia.
Qed.

Lemma screen_shift_spec n : forall i v j, for_up n i (fun i v => vput v i (v (i + 80))) v j = if decide (i <= j < i + Z.of_nat n) then v (j + 80) else v j.
Proof.
  induction n as [|n IH]; intros i v j; [by rewrite decide_False by lia|]. cbn [for_up]. rewrite IH. unfold vput.
  case_decide; [rewrite (proj2 (Z.eqb_neq (j + 80) i)) by lia; by rewrite decide_True by lia|]. destruct (Z.eqb_spec j i) as [->|]; [by rewrite decide_True by lia|by rewrite decide_False by lia].
Qed.

(** Scrolling moves the window of the page down. *)
Lemma scroll_shows s p : aligned s p -> shows (scroll s) (PAGE (cells p) (line p) (column p) (Z.max (top p) (line p - 24))).
Proof.
  intros [Hc Hf Hl Hx Hb]. unfold scroll. destruct (Z.leb_spec 25 (cursor_y s)).
  - assert (cursor_y s = 25) as Ey by lia. assert (Z.max (top p) (line p - 24) = top p + 1) as Et by lia. rewrite Et. split; [|split; cbn; lia]. split; cbn [video_memory with_cursor with_video cells top line column cursor_x cursor_y].
    + intros i Hi. rewrite screen_fill_spec, screen_shift_spec. case_decide; [rewrite Hf; [done|lia]|]. rewrite decide_True by lia. rewrite Hc by lia. f_equal. lia.
    + intros i Hi. apply Hf. lia.
    + lia.
    + done.
    + lia.
  - assert (Z.max (top p) (line p - 24) = top p) as -> by lia. split; [by split|]. split; lia.
Qed.

Lemma putc_shows s p c : shows s p -> shows (kprint_putc s c) (type_char p c) /\ sent (kprint_putc s c) = sent s ++ [u8 c].
Proof.
  intros [[Hc Hf Hl Hx _] [Bx By]]. split.
  - unfold kprint_putc, type_char. cbn [serial_putc cursor_x cursor_y]. apply scroll_shows. rewrite <- Hx.
    assert (0 <? cursor_y s = (top p <? line p)) as -> by (destruct (Z.ltb_spec 0 (cursor_y s)), (Z.ltb_spec (top p) (line p)); done || lia).
    assert (80 <=? column p + 1 = (column p =? 79)) as -> by (destruct (Z.leb_spec 80 (column p + 1)), (Z.eqb_spec (column p) 79); done || lia).
    repeat case_match; simpl_bool; split; cbn [serial_putc video_memory with_cursor with_video cells top line column cursor_x cursor_y]; try done; try lia.
    all: intros i Hi; unfold vput; destruct (Z.eqb_spec i (cursor_y s * 80 + column p)), (Z.eqb_spec (top p * 80 + i) (line p * 80 + column p)), (Z.eqb_spec i (line p * 80 + column p)); try lia; auto.
  - unfold kprint_putc, scroll. repeat case_match; reflexivity.
Qed.

Lemma str_shows : forall str s p, shows s p -> shows (kprint_str s str) (foldl type_char p str) /\ sent (kprint_str s str) = sent s ++ (u8 <$> str).
Proof.
  induction str as [|c str IH]; intros s p Hs; [by rewrite app_nil_r|]. destruct (putc_shows s p c Hs) as [H1 H2]. destruct (IH _ _ H1) as [H3 H4].
  split; [done|]. change (kprint_str s (c :: str)) with (kprint_str (kprint_putc s c) str). by rewrite H4, H2, <- app_assoc.
Qed.

(** ** Numbers *)

Definition dec_value (l : list Z) : Z := foldl (fun v c => 10 * v + (c - 48)) 0 l.

(** Decimal digits without a leading zero. *)
Definition decimal (l : list Z) : Prop := Forall (fun c => 48 <= c <= 57) l /\ (l = [48] \/ exists c r, l = c :: r /\ c <> 48).

Lemma digits_bytes l : Forall (fun c => 48 <= c <= 57) l -> u8 <$> l = l.
Proof. induction 1 as [|c l Hc _ IH]; [done|]. cbn [fmap list_fmap]. rewrite IH. f_equal. unfold u8. apply Z.mod_small. lia. Qed.

Lemma digits_spec : forall fuel v buffer, 0 <= v < 10 ^ (Z.of_nat fuel - 1) ->
  exists d, loop fuel digit_step (v, buffer) = Some (buffer ++ d) /\ dec_value (rev d) = v /\ Forall (fun c => 48 <= c <= 57) d /\
    (Z.of_nat (length d) < Z.of_nat fuel) /\ (v = 0 -> d = []) /\ (0 < v -> exists c r, rev d = c :: r /\ c <> 48).
Proof.
  induction fuel as [|fuel IH]; intros v buffer Hv; [cbn in Hv; lia|]. cbn [loop digit_step]. destruct (Z.ltb_spec 0 v).
  - assert (0 <= v / 10 < 10 ^ (Z.of_nat fuel - 1)) as Hq.
    { split; [apply Z.div_pos; lia|]. destruct fuel as [|fuel]; [cbn in Hv; lia|]. apply Z.div_lt_upper_bound; [lia|]. rewrite <- Z.pow_succ_r by lia.
      replace (Z.succ (Z.of_nat (S fuel) - 1)) with (Z.of_nat (S (S fuel)) - 1) by lia. lia. }
    destruct (IH (v / 10) (buffer ++ [v mod 10 + 48]) Hq) as (d & -> & E & Hd & Hlen & H0 & Hlead). exists ((v mod 10 + 48) :: d). pose proof (Z.mod_pos_bound v 10).
    split; [by rewrite <- app_assoc|]. cbn [rev]. split; [|split; [|split; [|split]]].
    + unfold dec_value in *. rewrite foldl_app, E. cbn. Z.div_mod_to_equations. lia.
    + constructor; [lia|done].
    + cbn [length]. lia.
    + lia.
    + intros _. destruct (Z.lt_ge_cases 0 (v / 10)) as [Hp|Hp].
      * destruct (Hlead Hp) as (c & r & -> & Hc). by exists c, (r ++ [v mod 10 + 48]).
      * assert (v / 10 = 0) as E0 by lia. rewrite (H0 E0). exists (v mod 10 + 48), []. split; [done|]. rewrite Z.mod_small by (Z.div_mod_to_equations; lia). lia.
  - assert (v = 0) as -> by lia. exists []. rewrite app_nil_r. split; [done|]. split; [done|]. split; [constructor|]. split; [cbn [length]; lia|]. split; [done|lia].
Qed.

(** C32: the console is a window on a page.  Printing a string types its characters
    on a page of unbounded length, of which the screen always shows 25 lines, those
    up to the last one reached; the cursor stays on the screen, and a line shown
    for the first time is blank.  The bytes of the same characters go to the serial port. *)
Theorem console_window s p str :
  shows s p -> shows (kprint_str s str) (foldl type_char p str) /\ sent (kprint_str s str) = sent s ++ (u8 <$> str) /\ con_ok (kprint_str s str).
Proof. intros Hs. destruct (str_shows str s p Hs) as [H1 H2]. split; [done|]. split; [done|]. apply H1. Qed.

(** [kprint_dec] prints a number as it reads: for every 64-bit value it sends
    at most 20 decimal digits without a leading zero whose value is the number, and
    the screen shows them typed on the page. *)
Theorem kprint_dec_roundtrip s p value :
  shows s p -> 0 <= value < 2 ^ 64 ->
  exists s' l, kprint_dec s value = Some s' /\ sent s' = sent s ++ l /\ decimal l /\ dec_value l = value /\ (length l <= 20)%nat /\ shows s' (foldl type_char p l).
Proof.
  intros Hs Hv. unfold kprint_dec. destruct (Z.eqb_spec value 0) as [->|Hn].
  - destruct (putc_shows s p 48 Hs) as [H1 H2]. exists (kprint_putc s 48), [48]. split; [done|]. split; [done|]. split; [split; [repeat constructor; lia|by left]|]. split; [done|]. split; [cbn; lia|done].
  - destruct (digits_spec 21 value []) as (d & -> & E & Hd & Hlen & _ & Hlead); [change (10 ^ (Z.of_nat 21 - 1)) with 100000000000000000000; lia|]. cbn [mbind option_bind app].
    destruct (str_shows (rev d) s p Hs) as [H1 H2]. rewrite digits_bytes in H2 by (by apply Forall_rev). exists (kprint_str s (rev d)), (rev d). split; [done|]. split; [done|]. split; [|split; [done|split; [rewrite length_rev; lia|done]]].
    split; [by apply Forall_rev|]. right. apply Hlead. lia.
Qed.

(** ** A line on an empty screen *)

Definition demo_console : console := kprint_clear (CONSOLE (fun _ => 0) 5 5 []).
Definition demo_page : page := PAGE (fun _ => blank) 0 0 0.

Lemma demo_shows : shows demo_console demo_page.
Proof.
  split; [|split; cbn; lia]. split; cbn [demo_console kprint_clear with_cursor with_video video_memory cells demo_page top line column cursor_x cursor_y]; try done.
  intros i Hi. rewrite screen_fill_spec. by rewrite decide_True by lia.
Qed.

Lemma console_window_witness : shows (kprint_str demo_console [72; 105; 10]) (foldl type_char demo_page [72; 105; 10]) /\ sent (kprint_str demo_console [72; 105; 10]) = [72; 105; 10].
Proof. destruct (console_window demo_console demo_page [72; 105; 10] demo_shows) as (H1 & H2 & _). split; [exact H1|exact H2]. Defined.

Lemma kprint_dec_roundtrip_witness : exists s' l, kprint_dec demo_console 1907 = Some s' /\ sent s' = l /\ dec_value l = 1907.
Proof.
  destruct (kprint_dec_roundtrip demo_console demo_page 1907 demo_shows ltac:(lia)) as (s' & l & H1 & H2 & _ & H3 & _). exists s', l. split; [exact H1|]. split; [exact H2|exact H3].
Defined.

End Console.
