(* ===== verification/Desc.v ===== *)
(** * Descriptor tables (src/kernel/arch/x86_64/gdt.c, idt.c)

    The segment descriptors, the task state segment and the interrupt gates, as
    the packed fields the code writes, and the dispatch of interrupts.  The
    contract is what the processor reads back from the fields: base, limit,
    handler address.  Loading the tables into the processor ([lgdt], [ltr],
    [lidt]) is outside the model. *)
From S2P Require Import Prelude Memory Store Wire.
Import Wire.

Module Desc.

(** ** Segment descriptors *)

Record gdt_entry := GDT { limit_low : Z; base_low : Z; base_middle : Z; access : Z; granularity : Z; base_high : Z }.

(** The fields of [struct tss_entry] the code writes. *)
Record tss_entry := TSS { rsp0 : Z; ist1 : Z; iopb_offset : Z }.

Record gdt_state := GS { gdt : Z -> gdt_entry; gdtr_size : Z; gdtr_offset : Z; tss : tss_entry }.

Definition sizeof_tss : Z := 104.
Definition sizeof_gdt_entry : Z := 8.

Definition gdt_set_gate (g : Z -> gdt_entry) (num base limit acc gran : Z) : Z -> gdt_entry :=
  fupd g num (GDT (limit .& 0xFFFF) (base .& 0xFFFF) ((base .>> 16) .& 0xFF) acc (((limit .>> 16) .& 0x0F) .| (gran .& 0xF0)) ((base .>> 24) .& 0xFF)).

Section gdt.
(** The addresses of the table, of [tss] and of [ist1_stack]. *)
Context (gdt_addr tss_base ist1_stack : Z).

Definition tss_init (s : gdt_state) : gdt_state :=
  let t := TSS 0 (u64 (ist1_stack + 4096)) sizeof_tss in
  let g := gdt_set_gate (gdt s) 5 (u32 tss_base) (sizeof_tss - 1) 0x89 0x00 in
  let g := fupd g 6 (GDT (u16 ((tss_base .>> 32) .& 0xFFFF)) (u16 ((tss_base .>> 48) .& 0xFFFF)) 0 0 0 0) in
  GS g (gdtr_size s) (gdtr_offset s) t.

Definition gdt_init (s : gdt_state) : gdt_state :=
  let g := gdt_set_gate (gdt s) 0 0 0 0 0 in
  let g := gdt_set_gate g 1 0 0 0x9A 0x20 in
  let g := gdt_set_gate g 2 0 0 0x92 0x00 in
  let g := gdt_set_gate g 3 0 0 0xF2 0x00 in
  let g := gdt_set_gate g 4 0 0 0xFA 0x20 in
  tss_init (GS g (sizeof_gdt_entry * 7 - 1) gdt_addr (tss s)).

Definition tss_set_stack (s : gdt_state) (rsp : Z) : gdt_state :=
  GS (gdt s) (gdtr_size s) (gdtr_offset s) (TSS rsp (ist1 (tss s)) (iopb_offset (tss s))).
End gdt.

(** ** Interrupt gates *)

Record idt_entry := IDT { offset_low : Z; selector : Z; ist : Z; type_attr : Z; offset_middle : Z; offset_high : Z; zero : Z }.

Definition idt_set_gate (t : Z -> idt_entry) (vector handler attr i : Z) : Z -> idt_entry :=
  fupd t vector (IDT (u16 (handler .& 0xFFFF)) 0x08 i attr (u16 ((handler .>> 16) .& 0xFFFF)) (u32 ((handler .>> 32) .& 0xFFFFFFFF)) 0).

(** [isr_stub_table] of interrupts.asm is a parameter; reading past it is undefined. *)
Definition idt_init (isr_stub_table : list Z) (t : Z -> idt_entry) : option (Z -> idt_entry) :=
  t ← foldl (fun t i => t ← t; h ← isr_stub_table !! i; Some (idt_set_gate t (Z.of_nat i) h 0x8E 0)) (Some t) (seq 0 48);
  h ← isr_stub_table !! 8%nat;
  let t := idt_set_gate t 8 h 0x8E 1 in
  h ← isr_stub_table !! 128%nat;
  Some (idt_set_gate t 128 h 0xEE 0).

(** ** Interrupts *)

Inductive served (W : Type) := Returns (w : W) | Halts (w : W).
Arguments Returns {W} w.
Arguments Halts {W} w.

Section interrupt.
Context {W : Type}.
(** The other components, on the state [W]; [cr2] is the faulting address and
    [report] prints the registers. *)
Context (syscall_handler : W -> Z -> option W) (generic_handle_irq : W -> Z -> option W) (handle_swap_fault : W -> Z -> option (W * Z)).
Context (outb : W -> Z -> Z -> W) (report : W -> Z -> W).

Definition pic_send_eoi (w : W) (irq : Z) : W :=
  let w := if 8 <=? irq then outb w 0xA0 0x20 else w in outb w 0x20 0x20.

Definition exception_handler (w : W) (frame int_no cr2 : Z) : option (served W) :=
  if int_no =? 128 then w ← syscall_handler w frame; Some (Returns w)
  else if (32 <=? int_no) && (int_no <? 48) then
    let irq := u8 (int_no - 32) in
    w ← generic_handle_irq w irq; Some (Returns (pic_send_eoi w irq))
  else
    '(w, handled) ← (if int_no =? 14 then '(w, r) ← handle_swap_fault w cr2; Some (w, r =? 0) else Some (w, false));
    if handled : bool then Some (Returns w) else Some (Halts (report w frame)).
End interrupt.

(** ** What the processor reads *)

Definition seg_base (e : gdt_entry) : Z := base_low e + base_middle e * 2 ^ 16 + base_high e * 2 ^ 24.
Definition seg_limit (e : gdt_entry) : Z := limit_low e + granularity e mod 16 * 2 ^ 16.
Definition seg_flags (e : gdt_entry) : Z := granularity e / 16.

(** A system descriptor is two entries long. *)
Definition system_base (g : Z -> gdt_entry) (n : Z) : Z := seg_base (g n) + (limit_low (g (n + 1)) + base_low (g (n + 1)) * 2 ^ 16) * 2 ^ 32.

Definition gate_target (e : idt_entry) : Z := offset_low e + offset_middle e * 2 ^ 16 + offset_high e * 2 ^ 32.

Lemma land_bits x n k : 0 <= n -> 0 <= k -> (x .>> n) .& (Z.ones k) = x / 2 ^ n mod 2 ^ k.
Proof. intros Hn Hk. by rewrite Z.land_ones, Z.shiftr_div_pow2. Qed.

Lemma set_gate_spec g num base limit acc gran :
  0 <= base < 2 ^ 32 -> 0 <= limit < 2 ^ 20 -> 0 <= gran < 256 ->
  let e := gdt_set_gate g num base limit acc gran num in
  seg_base e = base /\ seg_limit e = limit /\ seg_flags e = gran / 16 /\ access e = acc.
Proof.
  intros Hb Hl Hg e. unfold e, gdt_set_gate. rewrite fupd_same. unfold seg_base, seg_limit, seg_flags. cbn [base_low base_middle base_high limit_low granularity access].
  change 0xFFFF with (Z.ones 16). change 0xFF with (Z.ones 8). change 0xF with (Z.ones 4). rewrite !land_bits, !Z.land_ones by lia.
  assert (gran .& 0xF0 = (gran / 16) .<< 4) as ->.
  { apply Z.bits_inj'. intros n Hn. rewrite Z.land_spec, Z.shiftl_spec by lia. change 0xF0 with (Z.ones 4 .<< 4). rewrite Z.shiftl_spec by lia. destruct (Z.lt_ge_cases n 4).
    - rewrite !(Z.testbit_neg_r _ (n - 4)) by lia. apply andb_false_r.
    - change 16 with (2 ^ 4). rewrite Z.div_pow2_bits by lia. replace (n - 4 + 4) with n by lia. destruct (Z.lt_ge_cases n 8); [rewrite Z.ones_spec_low by lia; apply andb_true_r|].
      rewrite Z.ones_spec_high by lia. rewrite andb_false_r. symmetry. destruct (decide (gran = 0)) as [->|]; [apply Z.bits_0|]. apply Z.bits_above_log2; [lia|].
      apply Z.log2_lt_pow2; [lia|]. apply (Z.lt_le_trans _ (2 ^ 8)); [lia|]. apply Z.pow_le_mono_r; lia. }
  rewrite Z.lor_comm, lor_shift_add; [|lia|apply Z.mod_pos_bound; lia]. split_and!; [| | |done]; Z.div_mod_to_equations; lia.
Qed.

Lemma set_gate_same g g' num base limit acc gran : gdt_set_gate g num base limit acc gran num = gdt_set_gate g' num base limit acc gran num.
Proof. unfold gdt_set_gate. by rewrite !fupd_same. Qed.

Lemma set_gate_other g num base limit acc gran n : n <> num -> gdt_set_gate g num base limit acc gran n = g n.
Proof. intros Hn. by apply fupd_other. Qed.

(** C33: the segment descriptors say what [gdt_init] means.  Read back the way the
    processor assembles their fields, entry 5 with entry 6 describes the task state
    segment at its full 64-bit address with its size, entries 1 to 4 are the kernel
    and user segments with base and limit 0, the code segments of 64 bits; and
    [tss_set_stack] changes the stack of the kernel only. *)
Theorem gdt_init_correct gdt_addr tss_base ist1_stack s rsp :
  0 <= tss_base < 2 ^ 64 ->
  let s' := gdt_init gdt_addr tss_base ist1_stack s in
  system_base (gdt s') 5 = tss_base /\ seg_limit (gdt s' 5) = sizeof_tss - 1 /\ access (gdt s' 5) = 0x89 /\
  Forall (fun '(n, acc, long) => seg_base (gdt s' n) = 0 /\ seg_limit (gdt s' n) = 0 /\ access (gdt s' n) = acc /\ seg_flags (gdt s' n) = long)
    [(1, 0x9A, 2); (2, 0x92, 0); (3, 0xF2, 0); (4, 0xFA, 2)] /\
  gdtr_size s' = 55 /\ gdtr_offset s' = gdt_addr /\
  gdt (tss_set_stack s' rsp) = gdt s' /\ tss (tss_set_stack s' rsp) = TSS rsp (ist1 (tss s')) sizeof_tss.
Proof.
  intros Hb s'. assert (forall n, n <> 5 -> n <> 6 -> gdt s' n = gdt_set_gate (gdt_set_gate (gdt_set_gate (gdt_set_gate (gdt_set_gate (gdt s) 0 0 0 0 0) 1 0 0 0x9A 0x20) 2 0 0 0x92 0x00) 3 0 0 0xF2 0x00) 4 0 0 0xFA 0x20 n) as Hlow.
  { intros n H5 H6. unfold s', gdt_init, tss_init. cbn [gdt]. rewrite fupd_other by done. by rewrite set_gate_other. }
  assert (gdt s' 5 = gdt_set_gate (gdt s') 5 (u32 tss_base) (sizeof_tss - 1) 0x89 0x00 5) as E5.
  { unfold s', gdt_init, tss_init. cbn [gdt]. rewrite fupd_other by done. apply set_gate_same. }
  destruct (set_gate_spec (gdt s') 5 (u32 tss_base) (sizeof_tss - 1) 0x89 0x00) as (B5 & L5 & _ & A5); [apply u32_range|unfold sizeof_tss; lia|lia|]. rewrite <- E5 in B5, L5, A5.
  split_and!; try done.
  - unfold system_base. rewrite B5. change (5 + 1) with 6. unfold s', gdt_init, tss_init. cbn [gdt]. rewrite fupd_same. cbn [limit_low base_low].
    change 0xFFFF with (Z.ones 16). rewrite !land_bits by lia. unfold u16, u32. rewrite !Z.mod_mod by lia. Z.div_mod_to_equations. lia.
  - repeat constructor; rewrite Hlow by done; vm_compute; split_and!; reflexivity.
Qed.

(** A gate leads to its handler: read back from its three parts, the address of
    the gate [idt_set_gate] writes is the handler, and no other gate changes. *)
Theorem idt_gate_roundtrip t vector handler attr i :
  0 <= handler < 2 ^ 64 ->
  let t' := idt_set_gate t vector handler attr i in
  gate_target (t' vector) = handler /\ selector (t' vector) = 0x08 /\ type_attr (t' vector) = attr /\ ist (t' vector) = i /\ forall v, v <> vector -> t' v = t v.
Proof.
  intros Hh t'. unfold t', idt_set_gate. rewrite fupd_same. cbn [selector type_attr ist]. split_and!; try done; [|intros v Hv; by apply fupd_other].
  unfold gate_target. cbn [offset_low offset_middle offset_high]. change 0xFFFFFFFF with (Z.ones 32). change 0xFFFF with (Z.ones 16). rewrite !land_bits, Z.land_ones by lia. unfold u16, u32.
  rewrite !Z.mod_mod by lia. Z.div_mod_to_equations. lia.
Qed.

(** The table of interrupts.asm has 48 entries, and [idt_init] reads the one for the
    system-call vector at index 128. *)
Theorem idt_init_past_table isr_stub_table t : length isr_stub_table = 48%nat -> idt_init isr_stub_table t = None.
Proof.
  intros Hl. unfold idt_init. destruct (foldl _ _ _) as [t1|]; [cbn [mbind option_bind]|done]. destruct (isr_stub_table !! 8%nat) as [h|]; [cbn [mbind option_bind]|done].
  by rewrite (lookup_ge_None_2 isr_stub_table 128) by lia.
Qed.

(** ** Examples *)

Definition demo_gdt : gdt_state := GS (fun _ => GDT 0 0 0 0 0 0) 0 0 (TSS 0 0 0).

Lemma gdt_init_correct_witness : system_base (gdt (gdt_init 0x5000 0xFFFF800012345678 0x7000 demo_gdt)) 5 = 0xFFFF800012345678.
Proof. exact (proj1 (gdt_init_correct 0x5000 0xFFFF800012345678 0x7000 demo_gdt 0 ltac:(lia))). Defined.

Lemma idt_gate_roundtrip_witness : gate_target (idt_set_gate (fun _ => IDT 0 0 0 0 0 0 0) 14 0xFFFFFFFF80101234 0x8E 0 14) = 0xFFFFFFFF80101234.
Proof. exact (proj1 (idt_gate_roundtrip (fun _ => IDT 0 0 0 0 0 0 0) 14 0xFFFFFFFF80101234 0x8E 0 ltac:(lia))). Defined.

Lemma idt_init_past_table_witness : idt_init (replicate 48 0x1000) (fun _ => IDT 0 0 0 0 0 0 0) = None.
Proof. exact (idt_init_past_table (replicate 48 0x1000) (fun _ => IDT 0 0 0 0 0 0 0) eq_refl). Defined.

End Desc.
