(* ===== verification/E1000.v ===== *)
(** * The transmit ring of the e1000 network card (src/kernel/net/drivers/e1000.c)

    Eight descriptors shared with the card: the driver fills the one at
    [tx_cur] and moves the card's tail register, the card sends in order and
    sets the done bit, and the driver frees the buffers of finished descriptors
    from [tx_clean] on.  The card is a step of its own.  [kfree_skb] and the
    fields of a buffer are parameters; [Skb] models them. *)
From S2P Require Import Prelude Store.

Module E1000.

Definition E1000_NUM_TX_DESC : Z := 8.
Definition E1000_CMD : Z := 1 .| 2 .| 8.

(** [struct e1000_tx_desc] *)
Record tx_desc := TXD { td_addr : Z; td_length : Z; td_cmd : Z; td_status : Z }.

Section e1000.
Context {W : Type}.
(** What [vmm_get_phys(skb->data)] and [skb->len] are, and the release of a buffer. *)
Context (skb_phys skb_len : W -> Z -> Z) (kfree_skb : W -> Z -> W).

(** [tdt] is the card's tail register. *)
Record e1000_adapter := ADAPTER { tx_descs : Z -> tx_desc; tx_skbs : Z -> Z; tx_cur : Z; tx_clean : Z; tdt : Z; x_world : W }.

Definition set_status (t : Z -> tx_desc) (i v : Z) : Z -> tx_desc := fupd t i (TXD (td_addr (t i)) (td_length (t i)) (td_cmd (t i)) v).
Definition with_clean (a : e1000_adapter) (i : Z) : e1000_adapter := ADAPTER (tx_descs a) (tx_skbs a) (tx_cur a) i (tdt a) (x_world a).

Definition clean_step : e1000_adapter * Z -> e1000_adapter * Z + e1000_adapter :=
  fun '(a, i) =>
    if i =? tx_cur a then inr (with_clean a i)
    else if negb (td_status (tx_descs a i) .& 1 =? 0) then
      let a := if negb (tx_skbs a i =? 0)
               then ADAPTER (tx_descs a) (fupd (tx_skbs a) i 0) (tx_cur a) (tx_clean a) (tdt a) (kfree_skb (x_world a) (tx_skbs a i))
               else a in
      inl (ADAPTER (set_status (tx_descs a) i 0) (tx_skbs a) (tx_cur a) (tx_clean a) (tdt a) (x_world a), (i + 1) mod E1000_NUM_TX_DESC)
    else inr (with_clean a i).

(** At most seven descriptors are in use. *)
Definition e1000_clean_tx (a : e1000_adapter) : option e1000_adapter := loop 8 clean_step (a, tx_clean a).

Definition e1000_start_xmit (a : e1000_adapter) (skb : Z) : option (e1000_adapter * Z) :=
  a ← e1000_clean_tx a;
  let cur := tx_cur a in
  let next := (cur + 1) mod E1000_NUM_TX_DESC in
  if next =? tx_clean a then Some (a, -1)
  else
    let d := TXD (skb_phys (x_world a) skb) (u16 (skb_len (x_world a) skb)) E1000_CMD 0 in
    Some (ADAPTER (fupd (tx_descs a) cur d) (fupd (tx_skbs a) cur skb) next (tx_clean a) next (x_world a), 0).

(** The part of [e1000_setup_tx] that sets up the ring. *)
Definition e1000_setup_tx (a : e1000_adapter) : e1000_adapter := ADAPTER (fun _ => TXD 0 0 0 0) (fun _ => 0) 0 0 0 (x_world a).

(** ** The ring as a queue *)

(** Packets accepted so far, with the descriptor written for each; how many the
    card has sent and how many buffers have been freed. *)
Record history := HIST { accepted : list (Z * tx_desc); n_sent : nat; n_freed : nat }.

Definition slot (k : nat) : Z := Z.of_nat k mod E1000_NUM_TX_DESC.

(** The descriptors of the packets from the [nf]-th on. *)
Record ring_at (acc : list (Z * tx_desc)) (ns nf : nat) (a : e1000_adapter) : Prop := {
  ra_order : (nf <= ns <= length acc)%nat;
  ra_room : (length acc <= nf + 7)%nat;
  ra_cur : tx_cur a = slot (length acc);
  ra_tail : tdt a = tx_cur a;
  ra_skb k skb d : (nf <= k)%nat -> acc !! k = Some (skb, d) ->
    tx_skbs a (slot k) = skb /\ skb <> 0 /\
    tx_descs a (slot k) = TXD (td_addr d) (td_length d) E1000_CMD (if decide (k < ns)%nat then 1 else 0)
}.

Definition ring_ok (h : history) (a : e1000_adapter) : Prop := ring_at (accepted h) (n_sent h) (n_freed h) a /\ tx_clean a = slot (n_freed h).

(** The buffers freed, in order. *)
Definition freed (h : history) : list Z := take (n_freed h) (accepted h).*1.

(** The card finishes the oldest packet it has not sent; the driver sends one.
    [w] runs over the states of the world as buffers are freed. *)
Inductive ring_step : history * e1000_adapter -> history * e1000_adapter -> Prop :=
| RSent h a skb d :
    accepted h !! n_sent h = Some (skb, d) ->
    ring_step (h, a) (HIST (accepted h) (S (n_sent h)) (n_freed h),
                      ADAPTER (set_status (tx_descs a) (slot (n_sent h)) 1) (tx_skbs a) (tx_cur a) (tx_clean a) (tdt a) (x_world a))
| RXmit h a skb a' r :
    skb <> 0 -> e1000_start_xmit a skb = Some (a', r) ->
    ring_step (h, a) (HIST (if r =? 0 then accepted h ++ [(skb, tx_descs a' (tx_cur a))] else accepted h) (n_sent h) (n_sent h), a').

Lemma slot_inj j k : (j < k + 8)%nat -> (k < j + 8)%nat -> slot j = slot k -> j = k.
Proof. unfold slot, E1000_NUM_TX_DESC. intros. Z.div_mod_to_equations. lia. Qed.

Lemma slot_succ k : (slot k + 1) mod E1000_NUM_TX_DESC = slot (S k).
Proof. unfold slot, E1000_NUM_TX_DESC. rewrite Nat2Z.inj_succ. rewrite Zplus_mod_idemp_l. done. Qed.

Lemma ring_clean acc ns nf a i : ring_at acc ns nf a -> ring_at acc ns nf (with_clean a i).
Proof. intros [H1 H2 H3 H4 H5]. split; assumption. Qed.

(** Freeing the buffers of the packets that have been sent. *)
Lemma clean_loop acc ns : forall n nf fuel a,
  (nf + n = ns)%nat -> (n < fuel)%nat -> ring_at acc ns nf a ->
  exists a', loop fuel clean_step (a, slot nf) = Some a' /\ ring_at acc ns ns a' /\ tx_clean a' = slot ns /\ tx_cur a' = tx_cur a /\
    x_world a' = foldl kfree_skb (x_world a) (take n (drop nf acc.*1)).
Proof.
  induction n as [|n IH]; intros nf fuel a Hn Hf Hra; pose proof Hra as [Ho Hr Hc Ht Hs]; (destruct fuel as [|fuel]; [lia|]); cbn [loop clean_step].
  - assert (nf = ns) as -> by lia.
    assert ((slot ns =? tx_cur a) = true \/ negb (td_status (tx_descs a (slot ns)) .& 1 =? 0) = false) as [-> | E].
    { destruct (acc !! ns) as [[skb d]|] eqn:E.
      - right. destruct (Hs ns skb d ltac:(lia) E) as (_ & _ & ->). by rewrite decide_False by lia.
      - left. apply lookup_ge_None in E. rewrite Hc. apply Z.eqb_eq. f_equal. lia. }
    + eexists. split; [done|]. split; [by apply ring_clean|]. split; [done|]. split; [done|]. by rewrite take_0.
    + rewrite E. exists (with_clean a (slot ns)). split; [by destruct (slot ns =? tx_cur a)|]. split; [by apply ring_clean|]. split; [done|]. split; [done|]. by rewrite take_0.
  - destruct (acc !! nf) as [[skb d]|] eqn:Ek; [|apply lookup_ge_None in Ek; lia]. destruct (Hs nf skb d ltac:(lia) Ek) as (Es & Hn0 & Ed).
    assert (slot nf <> tx_cur a) as Hne by (rewrite Hc; intros E; apply slot_inj in E; lia). rewrite (proj2 (Z.eqb_neq _ _) Hne). rewrite Ed, decide_True by lia. cbn [td_status]. change (negb (1 .& 1 =? 0)) with true. cbv iota.
    rewrite Es, (proj2 (Z.eqb_neq skb 0)) by done. cbn [negb tx_descs tx_skbs tx_cur tx_clean tdt x_world]. rewrite slot_succ.
    match goal with |- context [loop fuel _ (?b, _)] => set (a1 := b) end. fold clean_step.
    destruct (IH (S nf) fuel a1) as (a' & E' & Hr' & Hc' & Hcur & Hw); [lia|lia| |].
    { split; [lia|lia|done|done|]. intros k skb' d' Hk Ek'. destruct (Hs k skb' d' ltac:(lia) Ek') as (K1 & K2 & K3). pose proof (lookup_lt_Some _ _ _ Ek').
      assert (slot k <> slot nf) by (intros E; apply slot_inj in E; lia). unfold a1. cbn [tx_skbs tx_descs]. unfold set_status. rewrite !fupd_other by done. done. }
    exists a'. split; [done|]. split; [done|]. split; [done|]. split; [done|]. rewrite Hw. unfold a1. cbn [x_world].
    rewrite (drop_S acc.*1 skb nf) by (by rewrite list_lookup_fmap, Ek). done.
Qed.

Lemma clean_spec h a : ring_ok h a ->
  exists a', e1000_clean_tx a = Some a' /\ ring_ok (HIST (accepted h) (n_sent h) (n_sent h)) a' /\ tx_cur a' = tx_cur a /\
    x_world a' = foldl kfree_skb (x_world a) (take (n_sent h - n_freed h) (drop (n_freed h) (accepted h).*1)).
Proof.
  intros [Hr Hc]. pose proof Hr as [Ho Hm _ _ _]. unfold e1000_clean_tx. rewrite Hc.
  destruct (clean_loop (accepted h) (n_sent h) (n_sent h - n_freed h) (n_freed h) 8 a) as (a' & -> & Hr' & Hc' & Hcur & Hw); [lia|lia|done|]. exists a'. done.
Qed.

(** A packet is accepted unless seven wait for the card. *)
Lemma xmit_spec h a skb : ring_ok h a -> skb <> 0 ->
  exists a' r, e1000_start_xmit a skb = Some (a', r) /\ (r = 0 \/ r = -1) /\ (r = -1 <-> length (accepted h) = (n_sent h + 7)%nat) /\
    ring_ok (HIST (if r =? 0 then accepted h ++ [(skb, tx_descs a' (tx_cur a))] else accepted h) (n_sent h) (n_sent h)) a' /\
    x_world a' = foldl kfree_skb (x_world a) (take (n_sent h - n_freed h) (drop (n_freed h) (accepted h).*1)) /\
    (r = 0 -> tx_descs a' (tx_cur a) = TXD (skb_phys (x_world a') skb) (u16 (skb_len (x_world a') skb)) E1000_CMD 0).
Proof.
  intros Hok Hskb. destruct (clean_spec h a Hok) as (a1 & E1 & [[Ho Hr Hc Ht Hs] Hcl] & Hcur & Hw). cbn [accepted n_sent n_freed] in *. unfold e1000_start_xmit. rewrite E1. cbn [mbind option_bind].
  rewrite Hc, Hcl, slot_succ. destruct (Z.eqb_spec (slot (S (length (accepted h)))) (slot (n_sent h))) as [E|E].
  - exists a1, (-1). split; [done|]. split; [by right|]. split; [split; [intros _|done]|]. { unfold slot, E1000_NUM_TX_DESC in E. Z.div_mod_to_equations. lia. }
    split; [by split|]. split; [done|]. done.
  - eexists _, 0. split; [done|]. split; [by left|]. assert (length (accepted h) <> (n_sent h + 7)%nat) as Hlt.
    { intros El. apply E. rewrite El. unfold slot, E1000_NUM_TX_DESC. Z.div_mod_to_equations. lia. }
    split; [done|]. rewrite <- Hcur, Hc. cbn [Z.eqb tx_descs x_world]. rewrite fupd_same. split; [|split; [done|done]]. split; [|done].
    cbn [accepted n_sent n_freed]. split; cbn [tx_cur tdt tx_skbs tx_descs]; rewrite ?length_app; cbn [length]; [lia|lia|by rewrite Nat.add_1_r|done|].
    intros k skb' d' Hk. rewrite lookup_app. destruct (accepted h !! k) as [[s2 d2]|] eqn:Ek.
    + intros Eq. injection Eq as <- <-. pose proof (lookup_lt_Some _ _ _ Ek). assert (slot k <> slot (length (accepted h))) by (intros E'; apply slot_inj in E'; lia). rewrite !fupd_other by done. by apply Hs.
    + apply lookup_ge_None in Ek. intros Eq. apply list_lookup_singleton_Some in Eq as [Ei Eq]. injection Eq as <- <-. assert (k = length (accepted h)) as -> by lia. rewrite !fupd_same. cbn [td_addr td_length].
      rewrite decide_False by lia. done.
Qed.

Lemma freed_more (l : list Z) n m : (n <= m)%nat -> take n l ++ take (m - n) (drop n l) = take m l.
Proof. intros Hn. rewrite take_take_drop. f_equal. lia. Qed.

Lemma step_keeps a0 y z : ring_step y z -> ring_ok y.1 y.2 -> x_world y.2 = foldl kfree_skb (x_world a0) (freed y.1) ->
  ring_ok z.1 z.2 /\ x_world z.2 = foldl kfree_skb (x_world a0) (freed z.1).
Proof.
  intros Hstep Hok Hw. destruct Hstep as [h a skb d Hk|h a skb a' r Hsk Hx]; cbn [fst snd] in *; pose proof Hok as [[Ho Hr Hc Ht Hs] Hcl].
  - split; [|done]. pose proof (lookup_lt_Some _ _ _ Hk). split; [|done]. cbn [accepted n_sent n_freed]. split; [lia|lia|done|done|].
    intros k skb' d' Hkn Ek. destruct (Hs k skb' d' Hkn Ek) as (K1 & K2 & K3). split; [done|]. split; [done|]. cbn [tx_descs]. unfold set_status. pose proof (lookup_lt_Some _ _ _ Ek).
    destruct (decide (k = n_sent h)) as [->|].
    + rewrite fupd_same, K3. cbn [td_addr td_length td_cmd]. by rewrite decide_True by lia.
    + rewrite fupd_other by (intros E; apply slot_inj in E; lia). rewrite K3. f_equal. repeat case_decide; lia.
  - destruct (xmit_spec h a skb Hok Hsk) as (b & q & E1 & _ & _ & Hok' & Hw' & _). rewrite Hx in E1. injection E1 as <- <-. split; [done|]. rewrite Hw', Hw. unfold freed. cbn [accepted n_freed].
    rewrite <- foldl_app. f_equal. rewrite freed_more by lia. destruct (r =? 0); [|done]. by rewrite fmap_app, take_app_le by (rewrite length_fmap; lia).
Qed.

(** C31: the transmit ring is a queue.  Whatever the order in which packets are
    handed to the driver and finished by the card, the descriptors from [tx_clean]
    to [tx_cur] are those of the packets not yet freed, at most seven, in order and
    unchanged since they were written; every buffer is freed at most once, in the
    order of the packets, and only after the card has sent it; and a packet is
    refused exactly when seven packets wait for the card. *)
Theorem e1000_tx_ring a0 h a :
  rtc ring_step (HIST [] 0 0, e1000_setup_tx a0) (h, a) ->
  ring_ok h a /\ x_world a = foldl kfree_skb (x_world a0) (freed h) /\
  forall skb, skb <> 0 -> exists a' r, e1000_start_xmit a skb = Some (a', r) /\ (r = 0 \/ r = -1) /\ (r = -1 <-> length (accepted h) = (n_sent h + 7)%nat) /\
    (r = 0 -> tx_descs a' (tx_cur a) = TXD (skb_phys (x_world a') skb) (u16 (skb_len (x_world a') skb)) E1000_CMD 0).
Proof.
  intros Hrtc. assert (ring_ok h a /\ x_world a = foldl kfree_skb (x_world a0) (freed h)) as [Hok Hw].
  { apply (rtc_ind_r (fun z => ring_ok z.1 z.2 /\ x_world z.2 = foldl kfree_skb (x_world a0) (freed z.1)) _) in Hrtc; [done| |].
    - split; [|done]. split; [|done]. split; cbn; try done; lia.
    - intros y z _ Hyz [Hy Hwy]. by apply (step_keeps a0 y z). }
  split; [done|]. split; [done|]. intros skb Hs. destruct (xmit_spec h a skb Hok Hs) as (a' & r & H1 & H2 & H3 & _ & _ & H4). by exists a', r.
Qed.

End e1000.
(** ** Two packets, the first sent in between *)

Definition demo_card : e1000_adapter (W := list Z) := ADAPTER (fun _ => TXD 9 9 9 9) (fun _ => 5) 3 3 3 [].
Definition demo_phys (w : list Z) (skb : Z) : Z := skb + 0x1000.
Definition demo_len (w : list Z) (skb : Z) : Z := 60.
Definition demo_free (w : list Z) (skb : Z) : list Z := w ++ [skb].

Lemma demo_run :
  exists h a, rtc (ring_step demo_phys demo_len demo_free) (HIST [] 0 0, e1000_setup_tx demo_card) (h, a) /\ (accepted h).*1 = [7; 8] /\ n_freed h = 1%nat.
Proof.
  eexists _, _. split.
  - eapply rtc_l; [apply (RXmit demo_phys demo_len demo_free _ _ 7); [lia|reflexivity]|]. eapply rtc_l; [eapply (RSent demo_phys demo_len demo_free); reflexivity|].
    eapply rtc_l; [apply (RXmit demo_phys demo_len demo_free _ _ 8); [lia|reflexivity]|]. apply rtc_refl.
  - split; reflexivity.
Qed.

Lemma e1000_tx_ring_witness :
  exists h a, ring_ok h a /\ (accepted h).*1 = [7; 8] /\ x_world a = [7].
Proof.
  destruct demo_run as (h & a & Hr & Ha & Hn).
  exists h, a. destruct (e1000_tx_ring demo_phys demo_len demo_free demo_card h a Hr) as (Hok & Hw & _). split; [exact Hok|]. split; [exact Ha|]. rewrite Hw. unfold freed. rewrite Ha, Hn. reflexivity.
Defined.

End E1000.
